(* ===== verification/_CoqProject ===== *)
-Q . S2P
Prelude.v
RustStd.v
Text.v
Lines.v
RpmVer.v
DpkgVer.v
BTree.v
Json.v
Matching.v
MatchStore.v
CpeMatch.v
CaseData.v
CaseDb.v
CaseOps.v
CaseInv.v
CaseProps.v
AccessData.v
AccessRules.v
AccessDb.v
AccessOps.v
AccessProps.v
NetAddr.v
NetCef.v
NetUnifi.v
NetStore.v
NetCollapse.v
NetProps.v
SignData.v
SignDb.v
SignOps.v
SignInv.v
SignProps.v
SignLimit.v
AgentServer.v
AgentDb.v
AgentOps.v
AgentInv.v
AgentProps.v
AlarmData.v
AlarmDb.v
AlarmInv.v
AlarmProps.v
FindData.v
FindDb.v
FindWorld.v
FindProps.v
GroupData.v
GroupDb.v
RuleAssign.v
GroupInv.v
GroupOps.v
GroupWorld.v
GroupProps.v
InvData.v
InvDb.v
InvInv.v
InvProps.v
SvcOps.v
SvcInv.v
SvcProps.v
SetData.v
SetDb.v
SsoDb.v
SetOps.v
SsoOps.v
SsoInv.v
SsoProps.v
SetProps.v
FetchServe.v
FetchProps.v
AsstLookup.v
AsstSource.v
AsstRun.v
AsstConsole.v
AsstInv.v
AsstProps.v
RulePub.v
RuleSign.v
RuleInv.v
RuleProps.v
