(* ===== verification/Prelude.v ===== *)
(** * OpenVIBES platform: verification library (root file)

    OpenVIBES watches a fleet of hosts.  Agents send inventories and findings; services match them
    against advisories, collect alarms and keep everything in PostgreSQL; people look at it and act
    on it through a console.  This library models the parts that decide something, and proves what
    they promise.  Sources are under src/crates/; the tables' constraints under src/migrations/.

    ** The parts, and the files that model them

    - What the models share.  [Prelude] (this file): orderings, the interfaces [CmpPreorder] and
      [CmpOrder] between the orders and their users, stable sorting, tactics and hints.  [RustStd]
      and [Text]: strings, bytes, characters and integers of the Rust standard library.  [BTree]:
      [BTreeMap] and [BTreeSet] as ordered association lists.  [Json]: [serde_json] values.  [Lines]: searching in texts, and UTF-8 read back.

    - Vulnerability matching (openvibes-vulns, and the statements of platform-store it runs).
      [RpmVer] (rpmver.rs) and [DpkgVer] (dpkgver.rs) are the two version orders, each the loops of
      the source with an abstract order beside it.  [Matching] (matching.rs) is the pure core: which
      hosts an advisory reports.  [MatchStore] (vulns.rs, vulns/candidates.rs, vulns/summary.rs and
      the pipeline of matching.rs) is the stored side: candidates read in batches, rows opened,
      kept, fixed and reopened.  [CpeMatch] (cpe.rs of both crates) is the matching against the
      version ranges of NVD.  [Matching] is proved against the [CmpPreorder] interface, whose
      instances are the two version orders; [MatchStore] and [CpeMatch] run it on their tables.

    - Cases (platform-store/src/console_cases/).  [CaseData] (mod.rs, items.rs): items, references
      and field checks.  [CaseDb] (visibility.rs): the tables and what a person sees of them.
      [CaseOps] (close.rs, items.rs, outcomes.rs, events.rs, reopen.rs): the operations, as
      transactions of a monad that ends with a value, a refusal or a failure.  [CaseInv]: the
      invariant of the schema and a triple per operation.  [CaseProps]: the properties.

    - Access control (openvibes-console/src/access/, and console_roles.rs, console_people.rs and
      console_auth.rs of platform-store).  [AccessData] (permission.rs, catalogue.rs, templates.rs):
      the permissions.  [AccessRules] (rbac.rs, share.rs, editor.rs, guard.rs): roles held become
      capabilities, and an editor gives only what fits in them.  [AccessDb]: the tables of people,
      roles and bindings and the statements on them.  [AccessOps] (roles.rs, people.rs,
      people_admin.rs, people_roles.rs): the requests, as one step function.  [AccessProps]: the
      properties of every sequence of requests.

    - Network device alarms (openvibes-netlog, and device_alarms.rs and devices.rs of
      platform-store).  [NetAddr]: IP addresses as the standard library parses and shows them.
      [NetCef] (cef.rs): the parser of CEF.  [NetUnifi] (unifi.rs): what a CEF event means.
      [NetStore]: the alarms and counters stored.  [NetCollapse] (collapse.rs, handle.rs,
      service.rs): the map of open alarms, one datagram, one store.  [NetProps]: the service as a
      transition system and its properties.

    - Signing in (openvibes-console/src/access/auth.rs, throttle.rs, login.rs, guard.rs, users.rs,
      the session statements of console_auth.rs and platform-password).  [SignData]: lifetimes,
      cookies, tokens, the stored form of a password and the throttle.  [SignDb]: the statements on
      the tables of [AccessDb].  [SignOps]: sign-in, resuming a session, changing a password,
      signing out and the guard of a request, each a machine that runs one statement per step.
      [SignInv]: what each statement keeps.  [SignProps]: every interleaving of sign-ins, requests
      and the access requests of [AccessOps].  [SignLimit]: the throttle bounds guesses.

    - Agents (openvibes-ingest/src/enroll.rs, platform-pki, platform-agent-server, and ingest.rs,
      tokens.rs, agents.rs and imports.rs of platform-store).  [AgentServer]: enrollment tokens, requests
      for certificates, certificates; and limits, bodies and errors before a handler.
      [AgentDb]: the tables of agents, certificates and tokens.  [AgentOps]: enrolling and renewing, a
      statement per step, and the console's requests.  [AgentInv]: what each statement keeps.
      [AgentProps]: every interleaving of them.

    - Agents' alarms (alarms.rs, console_alarms.rs, alarm_suppressions.rs and
      alarm_suppression_writes.rs of platform-store, and the handler of openvibes-ingest/src/delivery.rs
      that sorts a batch).  [AlarmData]: reading a batch, what a suppression matches, checks of triage.
      [AlarmDb]: the tables, a batch stored, triage, and suppressions requested, decided and ended.
      [AlarmInv]: the three invariants and the reachable tables.  [AlarmProps]: the
      properties of every sequence of deliveries, triage, suppressions and deletions of host groups.

    - Findings (the handlers of openvibes-ingest/src/delivery.rs, and wire.rs, ingest.rs,
      finding_changes.rs and console_triage.rs of platform-store).  [FindData]: documents read into
      rows, and what the digest of the open matches covers.  [FindDb]: the tables, a batch stored, a
      change set applied, heartbeats, rule sets switched off, and triage of one host or many.
      [FindWorld]: what each operation keeps, what a change set does to the open matches,
      and the reachable tables.  [FindProps]: the properties of every history.

    - Host groups and rule assignment (openvibes-console/src/access/groups.rs, the membership, groups,
      rules and vendor statements of platform-store, and the trigger functions of the migrations).
      [GroupData]: the rule of an automatic group, tokens, summaries and checks of names.  [GroupDb]: the tables, their triggers
      and one statement per definition.  [RuleAssign] (assigned.rs): the rule sets a host gets.
      [GroupOps]: the requests, previews of a group included.  [GroupInv] and [GroupWorld]: what each
      statement keeps, and the reachable tables.  [GroupProps]: the properties of every history.

    - Inventories (inventory.rs, change_log.rs, host_services.rs and wire.rs of platform-store, and their
      handlers in openvibes-ingest/src/delivery.rs).  [InvData]: packages, ports and services, and the
      differences the change log keeps.  [InvDb]: the tables, over those of [GroupDb], a full report, a
      change set and a services report applied, and the requests.  [InvInv]: what each
      leaves, and what the log tells.  [InvProps]: the properties of every history.

    - Service accounts (service_accounts.rs and service_tokens.rs of openvibes-console/src/access/, the
      bearer path of guard.rs, and console_auth.rs of platform-store).  [SvcOps]: the tables over those of
      [AccessDb], the statements, the requests, and who a bearer secret answers for.
      [SvcInv]: what each request keeps.  [SvcProps]: every sequence of them and of the requests of
      [AccessOps].

    - Settings and single sign-on (platform-settings, console_settings.rs and console_sso.rs of
      platform-store, src/settings/ and src/sso/ of openvibes-console, openvibes-admin/src/sso.rs).
      [SetData]: the catalogue of settings and what a
      value must look like.  [SetDb]: the tables, over those of [SignDb], and the statements on settings
      and secrets.  [SetOps]: certificates, the checks of a change, and the requests, one statement per step where
      they check a change of single sign-on.  [SsoDb]: sign-ins
      that wait, assertions seen, people of the identity provider and the daily cleanup.  [SsoOps]: our
      side, the configuration, and receiving a response, a machine of one statement per step.  [SsoInv]:
      what each statement keeps, the cleanup, and every interleaving.  [SsoProps] and
      [SetProps]: the properties.

    - The internet helper (openvibes-fetch, and assistant_internet.rs of platform-store).  [FetchServe]
      (filter.rs, serve.rs, http.rs, the sources, main.rs): what a query may not hold, the setting, the names never let out, the
      one request made and what is taken of the answer.  [FetchProps]: the properties.

    - The assistant (platform-assistant, and src/assistant/ of openvibes-console).  [AsstLookup] (answer.rs,
      lookups.rs, lookups/): citations, a text made inert, the lookups, how they are read, and results
      cut to size.  [AsstSource]: the rows of the store as an interface, a record of operations, and every lookup run on it.  [AsstRun] (prefetch.rs, orchestrator.rs): the lookups before the first
      turn, the turns with the model, one question answered.  [AsstConsole] (fetch_client.rs, outside.rs,
      lookups.rs, types.rs, chat.rs): internet lookups, their limits and their audit, and the request of
      a user.  [AsstInv]: no result holds a citation that a row did not give, and what each turn keeps.
      [AsstProps]: the properties, for any model, runner, source and exchange.

    - Rules (openvibes-signer, openvibes-distribution, rules.rs, signer.rs and rule_drafts.rs of platform-store, src/rules/
      of openvibes-console, rules_store.rs of openvibes-admin).  [RulePub]: sets, trusted keys and bundles,
      the transaction that publishes, one statement per step, the three ways to it, and what an agent is
      given.  [RuleSign]: the signer's files and memory, its checks and its signature, a request as a
      machine; and the site's drafts, their checks, and what a publish of them asks.  [RuleInv]: every interleaving of
      signer, database and restarts, and of publishers.  [RuleProps]: the properties, for any signature
      and any loader.

    A component's state is a record and an operation a function from it to a result and a new
    record; a fallible operation ends in an option or a sum, and a transaction that does not commit
    leaves the tables as they were.

    ** What the theorems show

    - Version orders: [rpmvercmp] and [verrevcmp] terminate and are exactly the documented orders
      ([rpmvercmp_refines_tokens], [verrevcmp_refines_weights]); full versions are totally
      preordered ([compare_evr_total_preorder], [dpkg_compare_total_preorder]).
    - Matching: a host is reported exactly when the newest installed version of a group is older
      than its fix ([evaluate_exact], [evaluate_well_formed], [fixed_beside_old_not_reported]);
      the version pass loses nothing ([version_pairs_lose_nothing]); a run over a release or over a
      host leaves exactly the exposed rows open, with the right times, and touches nothing else
      ([match_release_exact], [match_host_exact], [match_release_no_fix], [apply_records]); the CPE
      matching reports exactly the packages a CVE's entries name in a version they are affected in, the kernel
      apart ([cpe_findings_exact]), and refreshes rows likewise ([refresh_exact], [wanted_products_suffice]).
    - Cases: every history keeps the invariant ([reachable_invariant]); closing needs an outcome for
      every item, hidden ones included ([close_requires_outcomes]); reopening, versions, sight and
      logs ([reopen_one_exact], [update_never_lost], [unseen_case_absent], [update_keeps_sight],
      [history_append_only], [audit_log_blind_to_notes], [parse_ref_canonical]).
    - Access: no sequence of requests raises anybody above the people making them ([no_escalation]);
      an enabled Administrator remains ([administrator_remains]); an edit is what was asked
      ([update_role_exact]), a refusal changes nothing ([refusal_changes_nothing]); the pure rules
      are exact ([resolve_exact], [share_exact], [with_needs_closure]).
    - Signing in: a session that resumes came from one accepted password, in its time
      ([session_provenance]); a session ended stays ended ([logout_final]); a request that gets
      through the guard has a live session, its CSRF token and its origin ([request_through]); an
      address is allowed a bounded number of guesses ([guesses_bounded]); generated values have the
      form the parsers ask for ([made_up_values_accepted]).
    - Agents: an identity comes only from a token that allowed it or from itself
      ([identity_provenance]), at most as often as the token says ([enrollments_bounded]); a revoked
      agent is out for good: an enrollment that comes after the revocation is not answered with its identity, nor is a renewal
      unless its check had passed before ([revocation_final], with the run [renewal_in_flight]); a retry gets the same identity
      ([retry_same_identity]).
    - Agents' alarms: each row is exactly what was delivered for it ([deliveries_counted]) and a resend
      changes nothing ([resend_changes_nothing]); the history accounts for the triage
      ([triage_accounted]); a suppression needs a second person where the setting asks for it, one of network devices apart
      ([four_eyes]) and closes only alarms of its rule ([closes_only_its_rule]).
    - Findings: an accepted change set does exactly what it says of every match it says one thing of
      ([changes_exact], with the run [transient_over_open]), the digest on
      record is that of the open matches ([digest_agrees]) and an agent in step is never asked to
      resend ([in_step_never_resyncs]); observations are kept in any order ([observations_kept]); the
      history accounts for the triage ([finding_triage_accounted]), of one host or many
      ([bulk_is_one_by_one], but that the bulk request takes a risk accepted for longer than 366 days), and a rule set switched off is noted once ([unassigned_once]).
    - Host groups: an automatic group holds exactly the hosts its rule asks for, through every change
      of a host, of a group or of the content ([membership_is_rule], [automatic_bounded]); what a
      preview shows is what the request then does ([preview_exact]); a change of a group's content
      needs the roles that cover it ([content_needs_cover]); a host gets exactly the rule sets its
      groups give it ([assignment_exact], [switch_exact]); a group deleted leaves nothing behind
      ([deleted_leaves_nothing], [rename_keeps_hosts]).
    - Inventories: a change set is applied exactly when it fits what is stored ([changes_all_or_nothing]);
      the digest on record is that of the packages stored ([inventory_digest_agrees]); the change log
      tells the ports and services of a host ([services_log_exact]); groups follow the system an
      inventory reports ([inventory_keeps_groups]).
    - Service accounts: a bearer secret is good only while a token that somebody entitled issued is live
      ([bearer_provenance], [token_final]), and gives nobody more than they had ([bearer_no_escalation]).
    - Settings: in every interleaving of the requests, what is stored fits its definition and lies in its table
      ([stored_always_fit]); single sign-on that is on is complete, but for the one race of [race_leaves_half_on],
      and a switch-on was checked against a complete configuration with a valid certificate ([switch_ready]).
    - Single sign-on: a session comes from a response to a request of this browser that the library
      accepted under a configuration that was on ([sso_session_provenance]); an assertion counts once
      ([assertion_once]); the roles given are those the groups name ([roles_follow_groups]); the cleanup
      removes exactly the idle ([clean_exact]).
    - The internet helper: a query with a denied word or an address is refused ([leak_blocked]; a MAC address as it
      stands apart, not before a full stop: [mac_before_full_stop]); at most one address is asked, one the setting allows
      ([requests_confined]).
    - The assistant: whatever the model writes, an answer links only to objects of rows the user may read,
      and its text is inert ([citations_genuine]); a question ends in its numbers of requests, lookups and
      seconds ([question_ends]); what goes out for it is limited and written down ([lookups_accounted],
      with the one gap [unwritten_lookup_goes_out]).
    - Rules: a version of a set is signed for one request at most, through failures and restarts
      ([signed_once]), for somebody entitled who gave the password ([signature_provenance]), at the pace allowed
      ([publishes_spaced]); bundles are only added, in rising versions, under a trusted key ([bundles_only_rise]),
      and an agent gets the newest signed one ([served_signed]), which under the signer's key is what somebody
      entitled had signed, whatever anybody else presents ([served_by_entitled]); alarm drafts the editor saved stay within the signer's
      caps ([drafts_fit_signer]).
    - Netlog: no counted event is lost, whatever the database does ([no_event_lost]), and the buffer
      drains as soon as it answers ([store_drains]); each event and each datagram is accounted for
      exactly ([add_exact], [handle_counts]); CEF is read as it is written ([cef_roundtrip]).

    ** Fuel

    Loops that are not structural take fuel, and each is shown to have enough.  [RpmVer.rpm_fuel]: a
    turn that goes on consumes a byte of one of the two texts, so their lengths bound the turns; the
    loops of [DpkgVer] likewise.  [MatchStore.chunks]: a chunk of a positive size takes an element.
    [AccessData.needs_fuel]: 49, the number of permissions pushed at most.  [NetCef.scan]: a step
    consumes a byte.  [SignLimit.run_alone]: a sign-in takes five statements.
    [SetOps.cert_blocks]: a block is not empty.  [SsoDb.clean_loop]: a page that is not empty goes past its last
    person, so [clean_exact] bounds the pages.  [AsstLookup.segments_from]: a turn takes a character.
    [AsstLookup.shrink_fuel]: a turn drops an item or a character of the last snippet.
    [AsstRun.turns_fuel]: two turns for each lookup allowed and two for the answer; [question_ends] has no
    hypothesis on the fuel.  Running out would be a [None] that the theorems exclude.

    ** What is a parameter

    PostgreSQL's [lower] and its white space, the random ids, the password hash and the text of a
    time, SHA-256, base64, Unicode normalisation, the parser of a stored password and Argon2, and the
    digest of matches, the order in which the database sorts texts, what the
    publisher's archive holds, the check of an identifier and the validation of a change set, the readers and
    writers of X.509, gzip, the fingerprint of an inventory, the checker of SAML responses, the agents' JSON documents, the language model (any function of what it is sent
    and how often it was asked), the reader and writer of JSON text, the case mapping of Unicode, the published
    rule sets that host groups read, the agent's rule crates with their loader and compiler, the Ed25519 signature, and the network are arguments of the definitions
    that use them; the order a hash map iterates in is a function of which only the permutation is
    assumed.

    ** What is not modelled

    Sockets, TLS, HTTP, the parsing of request bodies, the
    assistant's HTTP client, probe and evaluation and the SQL behind its rows, the
    terminal administration, the index of rule texts and the test of a rule on a host, downloads and archives, certificates and images: they are
    input and output, libraries the source only calls, or left for later.  A transaction runs alone
    (and so does a request of [AccessOps], which is one): the row locks the source takes are what
    makes the runs sequences of transactions, and that PostgreSQL provides them is not proved.  The
    statements of sign-in interleave, and those of the settings page.  The clean-up of single sign-on removes people: it is outside
    the world of [SignProps], and its pages are in [SsoDb.clean], run as a whole.  The world of [AlarmProps] has no retention (which drops
    rows), no deletion of a host, and no alarms of network devices but for the suppressions made from them; the hour a start
    falls in is computed in a time zone of whole hours.  The world of [FindProps] has no retention and no
    deletion of a host either; a change set that fails its transaction for a value PostgreSQL refuses
    other than the constraints written out is not distinguished.  The world of [GroupProps] holds one
    transaction at a time; a rename that meets a concurrent one is in [rename_race].  The world of [InvProps] has no retention
    of the change log ([prune]) and no deletion of a host.  The two worlds of [RuleInv], the signer and the publishers, are joined in
    [RuleProps.joint_step]: anybody presents any bytes to a publisher, what the signer answers among them.  The lists, pages and summaries of the console
    only read; the triage of vulnerabilities is not modelled yet. *)
From stdpp Require Import prelude strings gmap relations.
From Stdlib Require Import ZArith Lia Sorted.

(** ** Notations *)

Declare Scope rust_scope.
Delimit Scope rust_scope with rust.

(** [Ordering::then] and [Ordering::then_with]: the second comparison decides ties. *)
Definition then_with (c d : comparison) : comparison :=
  match c with Eq => d | _ => c end.

Notation "c '<then>' d" := (then_with c d) (at level 55, right associativity) : rust_scope.
Open Scope rust_scope.

(** [Ordering::is_ge], [is_gt], [is_lt] and [is_le]. *)
Definition is_ge (c : comparison) : bool := match c with Lt => false | _ => true end.
Definition is_gt (c : comparison) : bool := match c with Gt => true | _ => false end.
Definition is_lt (c : comparison) : bool := match c with Lt => true | _ => false end.
Definition is_le (c : comparison) : bool := match c with Gt => false | _ => true end.

#[export] Instance comparison_eq_dec : EqDecision comparison.
Proof. solve_decision. Defined.

(** ** Tactics of the development *)

(** Split boolean conjunctions and disjunctions in the hypotheses into propositions. *)
Ltac bprop :=
  repeat match goal with
  | H : _ && _ = true |- _ => apply andb_prop in H as [? ?]
  | H : _ || _ = false |- _ => apply orb_false_elim in H as [? ?]
  | H : negb _ = true |- _ => apply negb_true_iff in H
  | H : negb _ = false |- _ => apply negb_false_iff in H
  | H : Is_true _ |- _ => apply Is_true_true in H
  | H : bool_decide _ = true |- _ => apply bool_decide_eq_true in H
  | H : bool_decide _ = false |- _ => apply bool_decide_eq_false in H
  end.

(** [Option::is_some]. *)
Definition is_some {A} (o : option A) : bool := match o with Some _ => true | None => false end.

(** Case analysis on the scrutinee of every [match] and [if] of the goal, closing the
    contradictory cases. *)
Ltac split_matches :=
  repeat (case_match; simplify_eq/=; try done).

(** Case analysis on the comparisons of integers in the goal. *)
Ltac zcases :=
  repeat match goal with
  | |- context [(?a <=? ?b)%Z] => destruct (Z.leb_spec a b)
  | |- context [(?a <? ?b)%Z] => destruct (Z.ltb_spec a b)
  end.

(** ** Order interfaces

    [CmpPreorder cmp]: [cmp] is the comparison function of a total preorder.  The version
    orders of the packages are such preorders, and the matcher is proved against this
    interface.  [CmpOrder cmp] adds that [Eq] is equality, which is what an ordered map needs
    of its keys. *)

Class CmpPreorder {A} (cmp : A -> A -> comparison) : Prop := {
  cmp_antisym : forall x y, cmp y x = CompOpp (cmp x y);
  cmp_le_trans : forall x y z, cmp x y <> Gt -> cmp y z <> Gt -> cmp x z <> Gt;
}.

Class CmpOrder {A} (cmp : A -> A -> comparison) : Prop := {
  #[global] cmp_order_pre :: CmpPreorder cmp;
  cmp_eq : forall x y, cmp x y = Eq -> x = y;
}.

Arguments cmp_antisym {A} cmp {_} x y.
Arguments cmp_le_trans {A} cmp {_} x y z.
Arguments cmp_eq {A} cmp {_} x y.

Section preorder_facts.
Context {A : Type} (cmp : A -> A -> comparison) `{Hc : !CmpPreorder cmp}.

Lemma cmp_refl x : cmp x x = Eq.
Proof using Hc. pose proof (cmp_antisym cmp x x). by destruct (cmp x x). Qed.

Lemma cmp_gt_lt x y : cmp x y = Gt <-> cmp y x = Lt.
Proof using Hc. rewrite (cmp_antisym cmp x y). destruct (cmp x y); naive_solver. Qed.

Lemma cmp_eq_sym x y : cmp x y = Eq -> cmp y x = Eq.
Proof using Hc. rewrite (cmp_antisym cmp x y). by intros ->. Qed.

Lemma cmp_le_total x y : cmp x y <> Gt \/ cmp y x <> Gt.
Proof using Hc. rewrite (cmp_antisym cmp x y). destruct (cmp x y); naive_solver. Qed.

Lemma cmp_lt_le_trans x y z : cmp x y = Lt -> cmp y z <> Gt -> cmp x z = Lt.
Proof using Hc.
  intros Hxy Hyz. destruct (cmp x z) eqn:E; [|done|].
  - assert (cmp z x <> Gt) by (rewrite (cmp_antisym cmp x z), E; done).
    assert (cmp y x <> Gt) by (by apply (cmp_le_trans cmp y z x)).
    rewrite (cmp_antisym cmp x y), Hxy in *. done.
  - exfalso. apply (cmp_le_trans cmp x y z); congruence.
Qed.

Lemma cmp_le_lt_trans x y z : cmp x y <> Gt -> cmp y z = Lt -> cmp x z = Lt.
Proof using Hc.
  intros Hxy Hyz. apply cmp_gt_lt. apply cmp_gt_lt in Hyz.
  destruct (cmp z x) eqn:E; [| |done]; exfalso.
  - assert (cmp z y <> Gt) by (apply (cmp_le_trans cmp z x y); congruence). congruence.
  - assert (cmp z y <> Gt) by (apply (cmp_le_trans cmp z x y); congruence). congruence.
Qed.

Lemma cmp_lt_trans x y z : cmp x y = Lt -> cmp y z = Lt -> cmp x z = Lt.
Proof using Hc. intros H1 H2. apply (cmp_lt_le_trans x y z); congruence. Qed.

Lemma cmp_gt_trans x y z : cmp x y = Gt -> cmp y z = Gt -> cmp x z = Gt.
Proof using Hc. rewrite !cmp_gt_lt. intros H1 H2. by apply (cmp_lt_trans z y x). Qed.

(** Elements that compare equal are interchangeable. *)
Lemma cmp_eq_compat_l x y z : cmp x y = Eq -> cmp x z = cmp y z.
Proof using Hc.
  intros E. assert (cmp x y <> Gt) by congruence.
  assert (cmp y x <> Gt) by (rewrite (cmp_antisym cmp x y), E; done).
  destruct (cmp y z) eqn:E'.
  - destruct (cmp x z) eqn:E''; [done| |].
  + assert (cmp y z = Lt) by (by apply (cmp_le_lt_trans y x z)). congruence.
  + exfalso. apply (cmp_le_trans cmp x y z); congruence.
  - by apply (cmp_le_lt_trans x y z).
  - destruct (cmp x z) eqn:E''; [| |done];
    exfalso; apply (cmp_le_trans cmp y x z); congruence.
Qed.

Lemma cmp_eq_compat_r x y z : cmp x y = Eq -> cmp z x = cmp z y.
Proof using Hc.
  intros E. rewrite (cmp_antisym cmp x z), (cmp_antisym cmp y z).
  by rewrite (cmp_eq_compat_l x y z E).
Qed.
End preorder_facts.

Lemma cmp_Eq_iff {A} (cmp : A -> A -> comparison) `{!CmpOrder cmp} x y : cmp x y = Eq <-> x = y.
Proof. split; [apply (cmp_eq cmp)|]. intros ->. apply (cmp_refl cmp). Qed.

(** ** Building comparisons *)

#[export] Instance Z_compare_order : CmpOrder Z.compare.
Proof.
  split; [split|].
  - intros x y. apply Z.compare_antisym.
  - intros x y z. rewrite !Z.compare_le_iff. lia.
  - intros x y. apply Z.compare_eq.
Qed.

#[export] Instance nat_compare_order : CmpOrder Nat.compare.
Proof.
  split; [split|].
  - intros x y. apply Nat.compare_antisym.
  - intros x y z. rewrite !Nat.compare_le_iff. lia.
  - intros x y. apply Nat.compare_eq.
Qed.

(** Comparing images under [f]. *)
Definition cmp_on {A B} (f : A -> B) (cmp : B -> B -> comparison) : A -> A -> comparison :=
  fun x y => cmp (f x) (f y).

#[export] Instance cmp_on_preorder {A B} (f : A -> B) cmp :
  CmpPreorder cmp -> CmpPreorder (cmp_on f cmp).
Proof.
  intros H. unfold cmp_on. split.
  - intros. apply (cmp_antisym cmp).
  - intros x y z. apply (cmp_le_trans cmp).
Qed.

(** One comparison, then another. *)
Definition cmp_then {A} (c1 c2 : A -> A -> comparison) : A -> A -> comparison :=
  fun x y => c1 x y <then> c2 x y.

#[export] Instance cmp_then_preorder {A} (c1 c2 : A -> A -> comparison) :
  CmpPreorder c1 -> CmpPreorder c2 -> CmpPreorder (cmp_then c1 c2).
Proof.
  intros H1 H2. unfold cmp_then. split.
  - intros x y. rewrite (cmp_antisym c1 x y), (cmp_antisym c2 x y).
    by destruct (c1 x y), (c2 x y).
  - intros x y z Hxy Hyz.
    destruct (c1 x y) eqn:E1; simpl in *; [| |done].
    + rewrite (cmp_eq_compat_l c1 _ _ z E1). destruct (c1 y z) eqn:E2; simpl in *; try done.
    by apply (cmp_le_trans c2 x y z).
    + destruct (c1 y z) eqn:E2; simpl in *; [| |done].
    * by rewrite <- (cmp_eq_compat_r c1 _ _ x E2), E1.
    * by rewrite (cmp_lt_trans c1 x y z E1 E2).
Qed.

(** Lexicographic comparison of lists: the [Ord] of Rust's slices. *)
Fixpoint list_cmp {A} (cmp : A -> A -> comparison) (l1 l2 : list A) : comparison :=
  match l1, l2 with
  | [], [] => Eq
  | [], _ :: _ => Lt
  | _ :: _, [] => Gt
  | x :: l1, y :: l2 => cmp x y <then> list_cmp cmp l1 l2
  end.

#[export] Instance list_cmp_preorder {A} (cmp : A -> A -> comparison) :
  CmpPreorder cmp -> CmpPreorder (list_cmp cmp).
Proof.
  intros H. split.
  - intros x. induction x as [|a x IH]; intros [|b y]; simpl; try done.
    rewrite (cmp_antisym cmp a b), IH. by destruct (cmp a b).
  - intros x. induction x as [|a x IH]; intros [|b y] [|c z]; simpl; try done.
    destruct (cmp a b) eqn:E1; simpl; [| |done].
    + rewrite (cmp_eq_compat_l cmp _ _ c E1). destruct (cmp b c) eqn:E2; simpl; eauto.
    + destruct (cmp b c) eqn:E2; simpl; [| |done].
    * by rewrite <- (cmp_eq_compat_r cmp _ _ a E2), E1.
    * by rewrite (cmp_lt_trans cmp a b c E1 E2).
Qed.

#[export] Instance list_cmp_order {A} (cmp : A -> A -> comparison) :
  CmpOrder cmp -> CmpOrder (list_cmp cmp).
Proof.
  intros H. split; [apply _|].
  intros x. induction x as [|a x IH]; intros [|b y]; simpl; try done.
  destruct (cmp a b) eqn:E; simpl; try done.
  intros E'. by rewrite (cmp_eq cmp _ _ E), (IH _ E').
Qed.

Lemma list_cmp_app_same {A} (cmp : A -> A -> comparison) `{!CmpPreorder cmp} l l1 l2 :
  list_cmp cmp (l ++ l1) (l ++ l2) = list_cmp cmp l1 l2.
Proof. induction l as [|x l IH]; simpl; [done|]. by rewrite cmp_refl. Qed.

(** Pairs compare their first components, then their second ones. *)
Definition pair_cmp {A B} (ca : A -> A -> comparison) (cb : B -> B -> comparison)
    (x y : A * B) : comparison :=
  ca x.1 y.1 <then> cb x.2 y.2.

#[export] Instance pair_cmp_order {A B} (ca : A -> A -> comparison) (cb : B -> B -> comparison) :
  CmpOrder ca -> CmpOrder cb -> CmpOrder (pair_cmp ca cb).
Proof.
  intros Ha Hb. split.
  - change (CmpPreorder (cmp_then (cmp_on fst ca) (cmp_on snd cb))). apply _.
  - intros [a b] [a' b']. unfold pair_cmp; simpl.
    destruct (ca a a') eqn:E; simpl; try done.
    intros E'. by rewrite (cmp_eq ca _ _ E), (cmp_eq cb _ _ E').
Qed.

(** [None] before every [Some]: the derived [Ord] of [Option], and SQL's NULLS FIRST. *)
Definition option_cmp {A} (cmp : A -> A -> comparison) (x y : option A) : comparison :=
  match x, y with
  | None, None => Eq
  | None, Some _ => Lt
  | Some _, None => Gt
  | Some x, Some y => cmp x y
  end.

#[export] Instance option_cmp_preorder {A} (cmp : A -> A -> comparison) :
  CmpPreorder cmp -> CmpPreorder (option_cmp cmp).
Proof.
  intros H. split.
  - intros [x|] [y|]; simpl; try done. apply (cmp_antisym cmp).
  - intros [x|] [y|] [z|]; simpl; try done. apply (cmp_le_trans cmp).
Qed.

(** ** Stable sorting by a comparison (Rust's [sort_by], SQL's ORDER BY) *)

Section sort.
Context {A : Type} (cmp : A -> A -> comparison).

Fixpoint insert_by (x : A) (l : list A) : list A :=
  match l with
  | [] => [x]
  | y :: l' => if is_gt (cmp x y) then y :: insert_by x l' else x :: l
  end.
Definition sort_by (l : list A) : list A := foldr insert_by [] l.

Lemma insert_by_perm x l : insert_by x l ≡ₚ x :: l.
Proof.
  induction l as [|y l IH]; simpl; [done|]. destruct (is_gt _); [|done].
  rewrite IH. apply Permutation_swap.
Qed.
Lemma sort_by_perm l : sort_by l ≡ₚ l.
Proof. induction l as [|x l IH]; simpl; [done|]. by rewrite insert_by_perm, IH. Qed.
Lemma sort_by_In l x : In x (sort_by l) <-> In x l.
Proof. by rewrite <- !list_elem_of_In, sort_by_perm. Qed.

Context `{!CmpPreorder cmp}.
Lemma insert_by_sorted x l :
  StronglySorted (fun a b => cmp a b <> Gt) l -> StronglySorted (fun a b => cmp a b <> Gt) (insert_by x l).
Proof using A CmpPreorder0 cmp.
  induction l as [|y l IH]; intros Hs; simpl; [by repeat constructor|].
  apply StronglySorted_inv in Hs as [Hs Hy]. destruct (cmp x y) eqn:E; simpl.
  1,2: constructor; [by constructor|]; constructor; [congruence|];
    eapply Forall_impl; [exact Hy|]; intros z; apply (cmp_le_trans cmp); congruence.
  constructor; [by apply IH|]. rewrite insert_by_perm. constructor; [|done].
  apply (cmp_gt_lt cmp) in E. congruence.
Qed.
Lemma sort_by_sorted l : StronglySorted (fun a b => cmp a b <> Gt) (sort_by l).
Proof using A CmpPreorder0 cmp.
  induction l as [|x l IH]; simpl; [constructor|]. by apply insert_by_sorted.
Qed.
End sort.

(** ** Keys of a list *)

(** Elements of a list whose keys are distinct are told apart by them. *)
Lemma NoDup_map_inj {A B} (key : A -> B) l x y :
  NoDup (map key l) -> In x l -> In y l -> key x = key y -> x = y.
Proof.
  induction l as [|z l IH]; simpl; [done|]. intros [Hz Hnd]%NoDup_cons [<-|Hx] [<-|Hy] E; [done|..|by apply IH];
    exfalso; apply Hz; apply list_elem_of_In; [rewrite E|rewrite <- E]; by apply in_map.
Qed.

Lemma NoDup_snoc {A} (l : list A) x : NoDup l -> x ∉ l -> NoDup (l ++ [x]).
Proof.
  intros Hl Hx. apply NoDup_app. split_and!; [done| |apply NoDup_singleton].
  intros y Hy E%list_elem_of_singleton. by subst y.
Qed.

(** ** Shared hints *)

Create HintDb ov discriminated.
#[export] Hint Resolve cmp_refl cmp_eq_sym cmp_lt_trans cmp_gt_trans : ov.

(** ** Histories

    [since step P w]: [P] held in a world from which [step] leads to [w]. *)

Definition since {W} (step : W -> W -> Prop) (P : W -> Prop) (w : W) : Prop := exists w1, P w1 /\ rtc step w1 w.

Lemma since_now {W} (step : W -> W -> Prop) (P : W -> Prop) w w' : P w -> step w w' -> since step P w'.
Proof. intros H Hs. exists w. split; [done|]. by apply rtc_once. Qed.
Lemma since_step {W} (step : W -> W -> Prop) P w w' : since step P w -> step w w' -> since step P w'.
Proof. intros (w1 & H & Hr) Hs. exists w1. split; [done|]. by eapply rtc_r. Qed.

(** Where an entry of a list that has just grown, or has just been set, comes from. *)
Lemma lookup_snoc {A} (l : list A) x i y : (l ++ [x]) !! i = Some y -> l !! i = Some y \/ y = x.
Proof. intros [H|[_ [_ <-]%list_lookup_singleton_Some]]%lookup_app_Some; auto. Qed.
Lemma lookup_inserted {A} (l : list A) i x j y : <[i := x]> l !! j = Some y -> l !! j = Some y \/ (i = j /\ y = x).
Proof. intros [(-> & <- & _)|[_ H]]%list_lookup_insert_Some; auto. Qed.
