(* ===== verification/RustStd.v ===== *)
(** * The parts of Rust's standard library the platform's pure code uses

    A [&str] or [String] is Rocq's [string]: the sequence of its UTF-8 bytes, so [len],
    [as_bytes], equality and [Ord] of the source are those of the byte sequence.  A [u8] is the
    [Z] of its value; machine integers are [Z] with their width written out where it matters. *)
From S2P Require Import Prelude.
From stdpp Require Import prelude strings pretty.
From Stdlib Require Import Ascii ZArith Lia.

Open Scope Z_scope.

#[global] Arguments String.append !_ _ / : simpl nomatch.

(** ** Bytes and ASCII classes *)

Definition byte_of (c : ascii) : Z := Z.of_N (N_of_ascii c).

Fixpoint bytes (s : string) : list Z :=
  match s with
  | EmptyString => []
  | String c s => byte_of c :: bytes s
  end.

(** [str::len]: the number of bytes. *)
Definition str_len (s : string) : Z := Z.of_nat (String.length s).

Definition is_ascii_digit (c : Z) : bool := (48 <=? c) && (c <=? 57).
Definition is_ascii_lowercase (c : Z) : bool := (97 <=? c) && (c <=? 122).
Definition is_ascii_uppercase (c : Z) : bool := (65 <=? c) && (c <=? 90).
Definition is_ascii_alphabetic (c : Z) : bool := is_ascii_lowercase c || is_ascii_uppercase c.
Definition is_ascii_alphanumeric (c : Z) : bool := is_ascii_alphabetic c || is_ascii_digit c.
Definition is_ascii_hexdigit (c : Z) : bool :=
  is_ascii_digit c || ((97 <=? c) && (c <=? 102)) || ((65 <=? c) && (c <=? 70)).

Lemma byte_of_bounds c : 0 <= byte_of c < 256.
Proof.
  unfold byte_of. pose proof (N_ascii_bounded c). lia.
Qed.

Lemma byte_of_inj c d : byte_of c = byte_of d -> c = d.
Proof.
  unfold byte_of. intros E. apply N2Z.inj in E.
  by rewrite <- (ascii_N_embedding c), <- (ascii_N_embedding d), E.
Qed.

Lemma bytes_inj s t : bytes s = bytes t -> s = t.
Proof.
  revert t. induction s as [|c s IH]; intros [|d t]; simpl; try done.
  intros [= E1 E2]. by rewrite (byte_of_inj _ _ E1), (IH _ E2).
Qed.

Lemma bytes_bounds s : Forall (fun c => 0 <= c < 256) (bytes s).
Proof. induction s; simpl; constructor; auto using byte_of_bounds. Qed.

Lemma bytes_app s t : bytes (s +:+ t) = bytes s ++ bytes t.
Proof. induction s; simpl; congruence. Qed.

Lemma bytes_length s : length (bytes s) = String.length s.
Proof. induction s; simpl; congruence. Qed.

(** The string with these bytes. *)
Fixpoint of_bytes (l : list Z) : string :=
  match l with
  | [] => EmptyString
  | c :: l => String (ascii_of_N (Z.to_N c)) (of_bytes l)
  end.

Lemma of_bytes_bytes s : of_bytes (bytes s) = s.
Proof.
  induction s as [|c s IH]; simpl; [done|].
  unfold byte_of at 1. by rewrite N2Z.id, ascii_N_embedding, IH.
Qed.

Lemma bytes_of_bytes l : Forall (fun c => 0 <= c < 256) l -> bytes (of_bytes l) = l.
Proof.
  induction 1 as [|c l Hc _ IH]; simpl; [done|].
  unfold byte_of at 1. by rewrite N_ascii_embedding, IH, Z2N.id by lia.
Qed.

(** [Ord] of [str]: bytewise. *)
Definition str_cmp : string -> string -> comparison := cmp_on bytes (list_cmp Z.compare).

#[export] Instance str_cmp_order : CmpOrder str_cmp.
Proof.
  split; [unfold str_cmp; apply _|].
  intros s t E. by apply bytes_inj, (cmp_eq (list_cmp Z.compare)).
Qed.
Lemma str_cmp_Eq (s t : string) : str_cmp s t = Eq <-> s = t.
Proof. split; [apply (cmp_eq str_cmp)|]. intros ->. apply (cmp_refl str_cmp). Qed.

(** ** Splitting and matching text *)

Definition is_empty (s : string) : bool := match s with EmptyString => true | _ => false end.

(** [s.split_once(c)]: before and after the first [c]. *)
Fixpoint split_once (c : ascii) (s : string) : option (string * string) :=
  match s with
  | EmptyString => None
  | String d s =>
      if Ascii.eqb d c then Some (EmptyString, s)
      else match split_once c s with
           | Some (a, b) => Some (String d a, b)
           | None => None
           end
  end.

(** [s.rsplit_once(c)]: before and after the last [c]. *)
Fixpoint rsplit_once (c : ascii) (s : string) : option (string * string) :=
  match s with
  | EmptyString => None
  | String d s =>
      match rsplit_once c s with
      | Some (a, b) => Some (String d a, b)
      | None => if Ascii.eqb d c then Some (EmptyString, s) else None
      end
  end.

(** The character occurs in the text. *)
Definition has_char (c : ascii) (s : string) : bool :=
  existsb (fun d => d =? byte_of c) (bytes s).

Definition char_str (c : ascii) : string := String c EmptyString.

Lemma byte_of_eqb c d : (byte_of d =? byte_of c) = Ascii.eqb d c.
Proof.
  destruct (Ascii.eqb_spec d c) as [->|Hne]; [apply Z.eqb_refl|].
  apply Z.eqb_neq. intros E. by apply Hne, byte_of_inj.
Qed.

Lemma has_char_cons c d s : has_char c (String d s) = Ascii.eqb d c || has_char c s.
Proof. unfold has_char; simpl. by rewrite byte_of_eqb. Qed.

Lemma split_once_spec c s :
  match split_once c s with
  | Some (a, b) => s = a +:+ char_str c +:+ b /\ has_char c a = false
  | None => has_char c s = false
  end.
Proof.
  induction s as [|d s IH]; simpl; [done|].
  destruct (Ascii.eqb_spec d c) as [->|Hne]; [done|].
  destruct (split_once c s) as [[a b]|]; rewrite ?has_char_cons.
  - destruct IH as [-> ->]. by destruct (Ascii.eqb_spec d c).
  - rewrite IH. by destruct (Ascii.eqb_spec d c).
Qed.

Lemma rsplit_once_spec c s :
  match rsplit_once c s with
  | Some (a, b) => s = a +:+ char_str c +:+ b /\ has_char c b = false
  | None => has_char c s = false
  end.
Proof.
  induction s as [|d s IH]; simpl; [done|].
  destruct (rsplit_once c s) as [[a b]|].
  - by destruct IH as [-> ?].
  - rewrite has_char_cons, IH. by destruct (Ascii.eqb_spec d c) as [->|].
Qed.

(** [s.starts_with(p)]. *)
Definition starts_with (s p : string) : bool := String.prefix p s.

(** [s.strip_suffix(p)]. *)
Definition strip_suffix (s p : string) : option string :=
  let n := (String.length s - String.length p)%nat in
  if String.eqb (String.substring n (String.length p) s) p
     && (String.length p <=? String.length s)%nat
  then Some (String.substring 0 n s) else None.

Lemma substring_parts n m s : String.length s = (n + m)%nat -> String.substring 0 n s +:+ String.substring n m s = s.
Proof.
  revert n m. induction s as [|c s IH]; intros n m Hl; simpl in Hl; [by destruct n, m|].
  destruct n as [|n]; simpl.
  - destruct m as [|m]; [done|]. simpl. specialize (IH 0%nat m ltac:(lia)). f_equal. by destruct s, m.
  - f_equal. apply IH. lia.
Qed.
Lemma substring_middle a b : String.substring 0 (String.length a) (a +:+ b) = a
  /\ String.substring (String.length a) (String.length b) (a +:+ b) = b.
Proof.
  induction a as [|c a [IH1 IH2]]; simpl.
  - split; [by destruct b|]. induction b as [|d b IH]; [done|]. simpl. by f_equal.
  - by rewrite IH1, IH2.
Qed.
Lemma strip_suffix_some s p b : strip_suffix s p = Some b <-> s = b +:+ p.
Proof.
  unfold strip_suffix. split.
  - destruct (String.eqb_spec (String.substring (String.length s - String.length p) (String.length p) s) p) as [E|]; [|done].
    destruct (Nat.leb_spec (String.length p) (String.length s)); [|done]. intros [= <-].
    rewrite <- (substring_parts (String.length s - String.length p) (String.length p) s) at 1 by lia. by rewrite E.
  - intros ->. assert (String.length (b +:+ p) - String.length p = String.length b)%nat as ->.
    { rewrite <- !bytes_length, bytes_app, length_app. lia. }
    destruct (substring_middle b p) as [-> ->]. rewrite String.eqb_refl.
    destruct (Nat.leb_spec (String.length p) (String.length (b +:+ p))) as [|Hl]; [done|].
    rewrite <- !bytes_length, bytes_app, length_app in Hl. lia.
Qed.

(** [s.split(c)]: the parts between the separators; always at least one part. *)
Fixpoint split_on (c : ascii) (s : string) : string * list string :=
  match s with
  | EmptyString => (EmptyString, [])
  | String d s =>
      let '(part, rest) := split_on c s in
      if Ascii.eqb d c then (EmptyString, part :: rest) else (String d part, rest)
  end.
Definition split (c : ascii) (s : string) : list string :=
  let '(part, rest) := split_on c s in part :: rest.

(** [str::to_ascii_lowercase] and [str::replace] of one character by another. *)
Definition ascii_lower (c : ascii) : ascii :=
  if is_ascii_uppercase (byte_of c) then ascii_of_N (N_of_ascii c + 32) else c.
Fixpoint str_map (f : ascii -> ascii) (s : string) : string :=
  match s with
  | EmptyString => EmptyString
  | String c s => String (f c) (str_map f s)
  end.
Definition to_ascii_lowercase : string -> string := str_map ascii_lower.
Definition replace_char (c d : ascii) : string -> string :=
  str_map (fun x => if Ascii.eqb x c then d else x).

(** ** Integers *)

Definition u8_max : Z := 2 ^ 8 - 1.
Definition u16_max : Z := 2 ^ 16 - 1.
Definition u32_max : Z := 2 ^ 32 - 1.
Definition u64_max : Z := 2 ^ 64 - 1.
Definition i64_min : Z := - 2 ^ 63.
Definition i64_max : Z := 2 ^ 63 - 1.

(** The value a decimal digit string spells. *)
Definition digits_value (l : list Z) : Z := fold_left (fun acc c => acc * 10 + (c - 48)) l 0.

(** [str::parse] to an unsigned type of maximum [max]: an optional [+], at least one digit,
    digits only, and no overflow. *)
Definition parse_uint (max : Z) (s : string) : option Z :=
  let ds := match bytes s with
            | 43 :: rest => rest
            | l => l
            end in
  if negb (bool_decide (ds = [])) && forallb is_ascii_digit ds && (digits_value ds <=? max)
  then Some (digits_value ds) else None.

(** [s.bytes().all(|b| b.is_ascii_digit())]. *)
Definition all_digits (s : string) : bool := forallb is_ascii_digit (bytes s).

(** Two's-complement wrap-around of [i64], as release builds multiply and add. *)
Definition i64_wrap (x : Z) : Z := (x + 2 ^ 63) mod 2 ^ 64 - 2 ^ 63.

(** [i64::saturating_*]: clamp the exact result into the range. *)
Definition i64_sat (x : Z) : Z := Z.max i64_min (Z.min i64_max x).

Lemma i64_wrap_id x : i64_min <= x <= i64_max -> i64_wrap x = x.
Proof. unfold i64_wrap, i64_min, i64_max. intros. rewrite Z.mod_small; lia. Qed.

Lemma i64_wrap_range x : i64_min <= i64_wrap x <= i64_max.
Proof.
  unfold i64_wrap, i64_min, i64_max.
  pose proof (Z.mod_pos_bound (x + 2 ^ 63) (2 ^ 64)). lia.
Qed.

Lemma i64_sat_id x : i64_min <= x <= i64_max -> i64_sat x = x.
Proof. unfold i64_sat. lia. Qed.

(** ** Digit runs *)

Lemma digits_fold_acc l n :
  fold_left (fun acc c => acc * 10 + (c - 48)) l n
  = n * 10 ^ Z.of_nat (length l) + digits_value l.
Proof.
  unfold digits_value. revert n. induction l as [|c l IH]; intros n; [simpl; lia|].
  change (length (c :: l)) with (S (length l)). rewrite Nat2Z.inj_succ, Z.pow_succ_r by lia.
  cbn [fold_left]. rewrite (IH (n * 10 + _)), (IH (0 * 10 + _)). lia.
Qed.

Lemma digits_value_app l1 l2 :
  digits_value (l1 ++ l2) = digits_value l1 * 10 ^ Z.of_nat (length l2) + digits_value l2.
Proof. unfold digits_value at 1. by rewrite fold_left_app, digits_fold_acc. Qed.

Lemma digits_value_cons c l :
  digits_value (c :: l) = (c - 48) * 10 ^ Z.of_nat (length l) + digits_value l.
Proof. apply (digits_value_app [c] l). Qed.

Lemma digits_value_bounds l :
  Forall (fun c => is_ascii_digit c = true) l ->
  0 <= digits_value l < 10 ^ Z.of_nat (length l).
Proof.
  induction 1 as [|c l Hc _ IH]; [done|].
  rewrite digits_value_cons. simpl length. rewrite Nat2Z.inj_succ, Z.pow_succ_r by lia.
  unfold is_ascii_digit in Hc. bprop. rewrite Z.leb_le in *. nia.
Qed.

(** ** Slice loops *)

(** [while s.first().is_some_and(f) { s = &s[1..] }]. *)
Fixpoint skip_while (f : Z -> bool) (s : list Z) : list Z :=
  match s with
  | c :: r => if f c then skip_while f r else s
  | [] => []
  end.

(** [s.split_at(s.iter().position(|c| !f(c)).unwrap_or(s.len()))]. *)
Fixpoint span (f : Z -> bool) (s : list Z) : list Z * list Z :=
  match s with
  | c :: r => if f c then let '(a, b) := span f r in (c :: a, b) else ([], s)
  | [] => ([], [])
  end.

Lemma skip_while_head f s :
  match skip_while f s with c :: _ => f c = false | [] => True end.
Proof. induction s as [|c s IH]; simpl; [done|]. destruct (f c) eqn:E; [done|]. done. Qed.

Lemma skip_while_length f s : (length (skip_while f s) <= length s)%nat.
Proof. induction s as [|c s IH]; simpl; [lia|]. destruct (f c); simpl; lia. Qed.

Lemma span_spec f s a b :
  span f s = (a, b) ->
  s = a ++ b /\ Forall (fun c => f c = true) a /\ match b with c :: _ => f c = false | [] => True end.
Proof.
  revert a. induction s as [|c s IH]; intros a; simpl.
  - intros [= <- <-]. auto.
  - destruct (f c) eqn:E.
    + destruct (span f s) as [a' b'] eqn:E'. intros [= <- <-].
      destruct (IH a' eq_refl) as (-> & ? & ?). auto.
    + intros [= <- <-]. auto.
Qed.

Lemma skip_while_idem f s : skip_while f (skip_while f s) = skip_while f s.
Proof. pose proof (skip_while_head f s). destruct (skip_while f s); simpl; [done|]. by case_match. Qed.

(** ** Numbers without leading zeros *)

Definition zero_digit : Z := Eval cbv in byte_of "0".

(** A digit run without its leading zeros. *)
Definition trim_zeros (s : list Z) : list Z := skip_while (fun c => c =? zero_digit) s.

Definition digits (l : list Z) : Prop := Forall (fun c => is_ascii_digit c = true) l.

Lemma digits_value_lex x y :
  digits x -> digits y -> length x = length y ->
  list_cmp Z.compare x y = Z.compare (digits_value x) (digits_value y).
Proof.
  intros Hx. revert y. induction Hx as [|c x Hc Hx IH]; intros [|d y] Hy Hl; try done.
  apply Forall_cons in Hy as [Hd Hy]. injection Hl as Hl.
  rewrite !digits_value_cons, Hl. simpl. rewrite (IH y Hy Hl).
  pose proof (digits_value_bounds x Hx) as Bx. pose proof (digits_value_bounds y Hy) as By.
  rewrite Hl in Bx. set (p := 10 ^ Z.of_nat (length y)) in *.
  destruct (Z.compare_spec c d) as [->|Hlt|Hgt]; simpl; symmetry.
  - destruct (Z.compare_spec (digits_value x) (digits_value y));
      [apply Z.compare_eq_iff|apply Z.compare_lt_iff|apply Z.compare_gt_iff]; lia.
  - apply Z.compare_lt_iff. nia.
  - apply Z.compare_gt_iff. nia.
Qed.

(** A longer digit run without leading zeros is the larger number. *)
Lemma digits_value_longer x y :
  digits x -> digits y -> (length x < length y)%nat ->
  match y with c :: _ => (c =? zero_digit) = false | [] => True end ->
  digits_value x < digits_value y.
Proof.
  intros Hx Hy Hl Hz. destruct y as [|c y]; simpl in *; [lia|].
  apply Forall_cons in Hy as [Hc Hy]. rewrite digits_value_cons.
  pose proof (digits_value_bounds x Hx) as Bx. pose proof (digits_value_bounds y Hy) as By.
  assert (10 ^ Z.of_nat (length x) <= 10 ^ Z.of_nat (length y)) by (apply Z.pow_le_mono_r; lia).
  unfold is_ascii_digit, zero_digit in *. nia.
Qed.

Lemma trim_zeros_value l : digits_value (trim_zeros l) = digits_value l.
Proof.
  unfold trim_zeros. induction l as [|c l IH]; simpl; [done|].
  destruct (Z.eqb_spec c zero_digit) as [->|]; [|done].
  rewrite IH, digits_value_cons. unfold zero_digit. lia.
Qed.

Lemma trim_zeros_digits l : digits l -> digits (trim_zeros l).
Proof.
  unfold trim_zeros. induction 1 as [|c l Hc Hl IH]; simpl; [constructor|].
  case_match; [done|]. by constructor.
Qed.
