(* ===== verification/Text.v ===== *)
(** * Characters of Rust strings and signed integers in text

    A [char] is the [Z] of its code point; [chars] decodes the UTF-8 bytes of a string, which in
    Rust are always well formed. *)
From S2P Require Import Prelude RustStd.
From stdpp Require Import prelude strings pretty.
From Stdlib Require Import Ascii ZArith Lia.

Open Scope Z_scope.

Fixpoint decode (l : list Z) : list Z :=
  match l with
  | [] => []
  | b0 :: t0 =>
      if b0 <? 128 then b0 :: decode t0
      else match t0 with
           | [] => []
           | b1 :: t1 =>
               if b0 <? 224 then Z.land b0 31 * 64 + Z.land b1 63 :: decode t1
               else match t1 with
                    | [] => []
                    | b2 :: t2 =>
                        if b0 <? 240
                        then Z.land b0 15 * 4096 + Z.land b1 63 * 64 + Z.land b2 63 :: decode t2
                        else match t2 with
                             | [] => []
                             | b3 :: t3 =>
                                 Z.land b0 7 * 262144 + Z.land b1 63 * 4096
                                 + Z.land b2 63 * 64 + Z.land b3 63 :: decode t3
                             end
                    end
           end
  end.

Definition encode_char (c : Z) : list Z :=
  if c <? 128 then [c]
  else if c <? 2048 then [192 + Z.shiftr c 6; 128 + Z.land c 63]
  else if c <? 65536 then [224 + Z.shiftr c 12; 128 + Z.land (Z.shiftr c 6) 63; 128 + Z.land c 63]
  else [240 + Z.shiftr c 18; 128 + Z.land (Z.shiftr c 12) 63; 128 + Z.land (Z.shiftr c 6) 63;
        128 + Z.land c 63].

Definition chars (s : string) : list Z := decode (bytes s).
Definition of_chars (l : list Z) : string := of_bytes (flat_map encode_char l).
Definition char_count (s : string) : Z := Z.of_nat (length (chars s)).

(** [char::is_control]: category Cc. *)
Definition is_control (c : Z) : bool := (c <? 32) || ((127 <=? c) && (c <? 160)).

(** [char::is_whitespace]: White_Space. *)
Definition is_whitespace (c : Z) : bool :=
  ((9 <=? c) && (c <=? 13)) || (c =? 32) || (c =? 133) || (c =? 160) || (c =? 5760)
  || ((8192 <=? c) && (c <=? 8202)) || (c =? 8232) || (c =? 8233) || (c =? 8239)
  || (c =? 8287) || (c =? 12288).

Fixpoint drop_while {A} (p : A -> bool) (l : list A) : list A :=
  match l with
  | [] => []
  | x :: l' => if p x then drop_while p l' else l
  end.

(** [str::trim] on the characters. *)
Definition trim_chars (l : list Z) : list Z :=
  rev (drop_while is_whitespace (rev (drop_while is_whitespace l))).
Definition trim (s : string) : string := of_chars (trim_chars (chars s)).

(** [s.trim().is_empty()] and [s.trim() == s]. *)
Definition is_blank (s : string) : bool := forallb is_whitespace (chars s).
Definition is_trimmed (s : string) : bool := bool_decide (trim_chars (chars s) = chars s).

(** [str::parse] to a signed type with bounds [lo] and [hi]. *)
Definition parse_int (lo hi : Z) (s : string) : option Z :=
  let '(neg, ds) := match bytes s with
                    | 43 :: rest => (false, rest)
                    | 45 :: rest => (true, rest)
                    | l => (false, l)
                    end in
  if negb (bool_decide (ds = [])) && forallb is_ascii_digit ds then
    let n := if neg then - digits_value ds else digits_value ds in
    if (lo <=? n) && (n <=? hi) then Some n else None
  else None.
Definition i32_min : Z := - 2 ^ 31.
Definition i32_max : Z := 2 ^ 31 - 1.
Definition parse_i64 : string -> option Z := parse_int i64_min i64_max.
Definition parse_i32 : string -> option Z := parse_int i32_min i32_max.

(** [s.strip_prefix(p)]. *)
Fixpoint str_strip_prefix (p s : string) : option string :=
  match p, s with
  | EmptyString, _ => Some s
  | String c p, String d s => if Ascii.eqb c d then str_strip_prefix p s else None
  | String _ _, EmptyString => None
  end.

(** [parts.join(sep)]. *)
Definition join (sep : string) (parts : list string) : string := String.concat sep parts.

Example chars_vectors :
  chars "aé✓" = [97; 233; 10003] /\ of_chars [97; 233; 10003; 128512] = "aé✓😀"
  /\ parse_i64 "-12" = Some (-12) /\ parse_i32 "+22" = Some 22 /\ parse_i32 "2147483648" = None
  /\ trim " a b 	" = "a b".
Proof. vm_compute. done. Qed.

Lemma decode_ascii l : Forall (fun c => 0 <= c < 128) l -> decode l = l.
Proof.
  induction 1 as [|c l Hc _ IH]; simpl; [done|].
  replace (c <? 128) with true by (symmetry; apply Z.ltb_lt; lia). by rewrite IH.
Qed.

(** [valid_uuid] of the console: 36 bytes, hyphens at four places, hexadecimal digits elsewhere. *)
Definition valid_uuid (value : string) : bool :=
  (String.length value =? 36)%nat
  && forallb (fun '(index, byte) =>
        if existsb (Nat.eqb index) [8; 13; 18; 23]%nat then byte =? byte_of "-" else is_ascii_hexdigit byte)
       (zip (seq 0 36) (bytes value)).
