(* ===== verification/Lines.v ===== *)
(** * Searching in texts, lines and words; texts as lists of characters; UTF-8 written and read back

    [str::find] with the text on its two sides, [str::lines], [str::split_whitespace] and
    [str::replace] of one character. *)
From S2P Require Import Prelude RustStd Text.
From stdpp Require Import prelude strings list.
From Stdlib Require Import Ascii ZArith Lia.

Open Scope Z_scope.

(** [&s[n..]]. *)
Definition str_from (n : nat) (s : string) : string := of_bytes (drop n (bytes s)).

(** The text before the first [p] and the text from it on. *)
Fixpoint find_str (p s : string) : option (string * string) :=
  if RustStd.starts_with s p then Some (EmptyString, s)
  else match s with
       | EmptyString => None
       | String c s => '(before, from) ← find_str p s; Some (String c before, from)
       end.
Definition contains_str (p s : string) : bool := is_some (find_str p s).

(** A line ends at a line feed, with the carriage return before it; nothing follows the last one. *)
Definition strip_cr (line : string) : string := default line (RustStd.strip_suffix line (char_str "013")).
Definition lines (s : string) : list string :=
  let pieces := RustStd.split "010" s in
  let rest := List.last pieces EmptyString in
  map strip_cr (removelast pieces) ++ (if is_empty rest then [] else [rest]).

Fixpoint words_from (current : list Z) (l : list Z) : list (list Z) :=
  match l with
  | [] => match current with [] => [] | _ => [rev current] end
  | c :: l => if is_whitespace c then match current with [] => words_from [] l | _ => rev current :: words_from [] l end
              else words_from (c :: current) l
  end.
Definition split_whitespace (s : string) : list string := map of_chars (words_from [] (chars s)).

(** [s.replace(c, with)]. *)
Fixpoint replace_with (c : ascii) (r s : string) : string :=
  match s with
  | EmptyString => EmptyString
  | String d s => if Ascii.eqb d c then r +:+ replace_with c r s else String d (replace_with c r s)
  end.

(** Every carriage return and line feed pair becomes a line feed. *)
Fixpoint replace_crlf (s : string) : string :=
  match s with
  | String c (String d s' as s) => if Ascii.eqb c "013" && Ascii.eqb d "010" then String "010" (replace_crlf s') else String c (replace_crlf s)
  | s => s
  end.

Definition ascii_upper (c : ascii) : ascii := if is_ascii_lowercase (byte_of c) then ascii_of_N (N_of_ascii c - 32) else c.
Definition to_ascii_uppercase : string -> string := str_map ascii_upper.

(** [String::from_utf8] accepts these bytes. *)
Definition continuation (b : Z) : bool := (128 <=? b) && (b <=? 191).
Fixpoint valid_utf8 (l : list Z) : bool :=
  match l with
  | [] => true
  | b0 :: l =>
      if b0 <? 128 then valid_utf8 l
      else if (194 <=? b0) && (b0 <=? 223) then match l with b1 :: l => continuation b1 && valid_utf8 l | _ => false end
      else if (224 <=? b0) && (b0 <=? 239) then
        match l with
        | b1 :: b2 :: l =>
            ((if b0 =? 224 then 160 else 128) <=? b1) && (b1 <=? (if b0 =? 237 then 159 else 191)) && continuation b2 && valid_utf8 l
        | _ => false
        end
      else if (240 <=? b0) && (b0 <=? 244) then
        match l with
        | b1 :: b2 :: b3 :: l =>
            ((if b0 =? 240 then 144 else 128) <=? b1) && (b1 <=? (if b0 =? 244 then 143 else 191)) && continuation b2 && continuation b3 && valid_utf8 l
        | _ => false
        end
      else false
  end.

Definition cr_lf : string := String "013" (String "010" EmptyString).
Example lines_vectors :
  lines ("a" +:+ cr_lf +:+ "b" +:+ cr_lf) = ["a"; "b"] /\ lines EmptyString = []
  /\ lines (String "010" (String "010" EmptyString)) = [EmptyString; EmptyString]
  /\ split_whitespace "  a bc  d " = ["a"; "bc"; "d"] /\ find_str "bc" "abcbc" = Some ("a", "bcbc")
  /\ find_str "x" "abc" = None /\ replace_with "&" "&amp;" "a&b&" = "a&amp;b&amp;" /\ to_ascii_uppercase "aZé1" = "AZé1"
  /\ replace_crlf (cr_lf +:+ "a" +:+ cr_lf) = String "010" "a" +:+ String "010" EmptyString
  /\ valid_utf8 (bytes "aé✓😀") = true /\ valid_utf8 [237; 160; 128] = false /\ valid_utf8 [192; 128] = false.
Proof. vm_compute. auto 15. Qed.

(** ** Lemmas *)

Lemma starts_with_app p s : RustStd.starts_with s p = true <-> exists rest, s = p +:+ rest.
Proof.
  unfold RustStd.starts_with. revert s. induction p as [|c p IH]; intros s; simpl; [destruct s; split; try done; by eexists|].
  destruct s as [|d s]; [split; [done|intros [? [=]]]|].
  change (String.prefix (String c p) (String d s)) with (if ascii_dec c d then String.prefix p s else false).
  destruct (ascii_dec c d) as [->|Hne].
  - rewrite IH. split; intros [rest E]; exists rest; simpl in *; congruence.
  - split; [done|]. intros [rest [= ? _]]. congruence.
Qed.

#[local] Arguments RustStd.starts_with : simpl never.

Lemma find_str_spec p s before from : find_str p s = Some (before, from) ->
  s = before +:+ from /\ exists after, from = p +:+ after.
Proof.
  revert before from. induction s as [|c s IH]; intros before from; simpl.
  - destruct (RustStd.starts_with "" p) eqn:E; [|done]. intros [= <- <-]. split; [done|]. by apply starts_with_app.
  - destruct (RustStd.starts_with (String c s) p) eqn:E; [intros [= <- <-]; split; [done|by apply starts_with_app]|].
    destruct (find_str p s) as [[b f]|]; [|done]. intros [= <- <-]. destruct (IH b f eq_refl) as [-> H]. by split.
Qed.
Lemma find_str_exists p a b : exists r, find_str p (a +:+ p +:+ b) = Some r.
Proof.
  induction a as [|c a IH]; simpl.
  - assert (RustStd.starts_with (p +:+ b) p = true) as E by (apply starts_with_app; by exists b). destruct (p +:+ b); simpl; rewrite E; eauto.
  - destruct (RustStd.starts_with (String c (a +:+ p +:+ b)) p); [eauto|]. destruct IH as [[? ?] ->]. eauto.
Qed.

(** ** Trimmed texts *)

Lemma drop_while_app {A} (p : A -> bool) l : exists a, l = a ++ drop_while p l /\ Forall (fun y => p y = true) a.
Proof.
  induction l as [|y l (a & E & Ha)]; simpl; [by exists []|]. destruct (p y) eqn:Ep; [|by exists []].
  exists (y :: a). split; [simpl; congruence|by constructor].
Qed.
Lemma trim_blank s : is_blank s = true -> is_empty (trim s) = true.
Proof.
  unfold is_blank, trim, trim_chars. intros H. assert (drop_while is_whitespace (chars s) = []) as ->; [|done].
  induction (chars s) as [|c l IH]; [done|]. simpl in *. apply andb_prop in H as [-> H]. by apply IH.
Qed.
Lemma trim_nonempty s : is_blank s = false -> is_empty (trim s) = false.
Proof.
  intros Hb. unfold trim. assert (trim_chars (chars s) <> []) as Hn.
  { intros E. unfold is_blank in Hb. apply not_true_iff_false in Hb. apply Hb, forallb_forall. intros y Hy.
    unfold trim_chars in E. destruct (drop_while_app is_whitespace (chars s)) as (a & Ea & Fa). set (m := drop_while is_whitespace (chars s)) in *.
    destruct (drop_while_app is_whitespace (rev m)) as (c & Ec & Fc). apply (f_equal (@rev Z)) in E. rewrite rev_involutive in E. simpl in E. rewrite E, app_nil_r in Ec.
    rewrite Ea in Hy. rewrite Forall_forall in Fa, Fc. apply in_app_or in Hy as [Hy|Hy]; [by apply Fa, list_elem_of_In|].
    apply Fc, list_elem_of_In. rewrite <- Ec. by apply in_rev in Hy. }
  destruct (trim_chars (chars s)) as [|c l]; [done|]. unfold of_chars. simpl. unfold encode_char.
  destruct (c <? 128); [done|]. destruct (c <? 2048); [done|]. by destruct (c <? 65536).
Qed.

(** ** What surrounds a text does not matter to a search *)

(** Whitespace before it, for a word that starts otherwise. *)
Lemma find_str_front p a s : Forall (fun b => forall c t, p = String c t -> byte_of c <> b) (bytes a) -> p <> EmptyString ->
  find_str p (a +:+ s) = '(x, from) ← find_str p s; Some (a +:+ x, from).
Proof.
  intros Ha Hp. induction a as [|d a IH]; simpl; [by destruct (find_str p s) as [[? ?]|]|]. apply Forall_cons in Ha as [Hd Ha].
  assert (RustStd.starts_with (String d (a +:+ s)) p = false) as ->.
  { apply not_true_iff_false. intros [rest E]%starts_with_app. destruct p as [|c t]; [done|]. simpl in E. injection E as -> _. by apply (Hd c t). }
  rewrite IH by done. by destruct (find_str p s) as [[? ?]|].
Qed.
(** Whitespace after it, for a word that ends otherwise. *)
Lemma find_str_back p s b z : Forall (fun y => y <> z) (bytes b) -> (exists q, bytes p = q ++ [z]) ->
  find_str p (s +:+ b) = '(x, from) ← find_str p s; Some (x, from +:+ b).
Proof.
  intros Hb (q & Eq). assert (~ In z (bytes b)) as Hz. { intros Hin. rewrite Forall_forall in Hb. by apply (Hb z); [apply list_elem_of_In|]. }
  assert (forall s, RustStd.starts_with (s +:+ b) p = RustStd.starts_with s p) as Hs.
  { intros s'. apply eq_true_iff_eq. rewrite !starts_with_app. split; [|intros [rest ->]; exists (rest +:+ b); apply bytes_inj; by rewrite !bytes_app, app_assoc].
    intros [rest E]. apply (f_equal bytes) in E. rewrite !bytes_app in E. apply app_eq_app in E as (l & [[E1 E2]|[E1 E2]]).
    - exists (of_bytes l). apply bytes_inj. rewrite bytes_app, bytes_of_bytes; [done|]. pose proof (bytes_bounds s') as H. rewrite E1 in H.
      by apply Forall_app in H as [_ ?].
    - destruct (decide (l = [])) as [->|(l0 & y & ->)%exists_last].
      + exists EmptyString. apply bytes_inj. rewrite bytes_app. simpl. by rewrite app_nil_r in *.
      + exfalso. apply Hz. rewrite E2. rewrite Eq, app_assoc in E1. apply app_inj_tail in E1 as [_ ->]. apply in_or_app. left. apply in_or_app. right. by left. }
  induction s as [|c s IH].
  - simpl find_str at 2. pose proof (Hs EmptyString) as H0. simpl (_ +:+ b) in *. destruct (RustStd.starts_with EmptyString p) eqn:E0; simpl.
    + exfalso. apply starts_with_app in E0 as [rest E0]. destruct p; [|done]. by destruct q.
    + destruct (find_str p b) as [[x f]|] eqn:Ef; [|done]. exfalso. apply find_str_spec in Ef as (E & after & Ea). apply Hz. rewrite E, Ea, !bytes_app, Eq.
      apply in_or_app. right. apply in_or_app. left. apply in_or_app. right. by left.
  - pose proof (Hs (String c s)) as H0. simpl (String c s +:+ b) in *. simpl. rewrite H0. destruct (RustStd.starts_with (String c s) p); [done|].
    rewrite IH. by destruct (find_str p s) as [[? ?]|].
Qed.

(** * Texts as lists of characters

    [str::find], [split], [replace], [windows], [trim_end_matches] and the maximal runs of a kind of characters.  A
    [&str] is the list of its characters: in well-formed UTF-8 a pattern is found at the start of a character only. *)

Open Scope Z_scope.

Notation text := (list Z).

(** [starts_with]. *)
Fixpoint prefixed (p l : text) : bool :=
  match p, l with
  | [], _ => true
  | a :: p, b :: l => (b =? a) && prefixed p l
  | _ :: _, [] => false
  end.
(** The text before the first [p], and the text after it. *)
Fixpoint cut_at (p l : text) : option (text * text) :=
  if prefixed p l then Some ([], drop (length p) l)
  else match l with
       | [] => None
       | c :: l => '(before, after) ← cut_at p l; Some (c :: before, after)
       end.
Definition contains (p l : text) : bool := is_some (cut_at p l).

(** [l.split(sep)]: the parts between the separators; at least one. *)
Fixpoint split_by (sep : Z -> bool) (l : text) : list text :=
  match l with
  | [] => [[]]
  | c :: l =>
      if sep c then [] :: split_by sep l
      else match split_by sep l with part :: parts => (c :: part) :: parts | [] => [[c]] end
  end.
Definition count_of (c : Z) (l : text) : nat := length (List.filter (Z.eqb c) l).

(** [l.replace(p, r)]: the occurrences from the left; [skip] characters of one are still to be dropped. *)
Fixpoint replace_from (p r : text) (skip : nat) (l : text) : text :=
  match l with
  | [] => []
  | c :: t =>
      match skip with
      | S skip => replace_from p r skip t
      | O => if prefixed p l then r ++ replace_from p r (pred (length p)) t else c :: replace_from p r O t
      end
  end.
Definition replace_text (p r l : text) : text := replace_from p r O l.

(** [windows(n)]. *)
Fixpoint windows {A} (n : nat) (l : list A) : list (list A) :=
  match l with
  | [] => []
  | _ :: t => if (n <=? length l)%nat then take n l :: windows n t else []
  end.

(** [trim_end_matches]. *)
Definition trim_end (f : Z -> bool) (l : text) : text := rev (skip_while f (rev l)).

(** The maximal runs of characters satisfying [f], each with what is before and after it. *)
Fixpoint runs_from (f : Z -> bool) (seen run l : text) : list (text * text * text) :=
  match l with
  | [] => match run with [] => [] | _ => [(rev seen, rev run, [])] end
  | c :: t =>
      if f c then runs_from f seen (c :: run) t
      else match run with
           | [] => runs_from f (c :: seen) [] t
           | _ => (rev seen, rev run, l) :: runs_from f (c :: run ++ seen) [] t
           end
  end.
Definition runs (f : Z -> bool) (l : text) : list (text * text * text) := runs_from f [] [] l.

(** ** What they find *)

Definition ends_out (f : Z -> bool) (l : text) : Prop := forall c, last l = Some c -> f c = false.
Definition begins_out (f : Z -> bool) (l : text) : Prop := forall c, head l = Some c -> f c = false.

Lemma prefixed_app p l : prefixed p l = true <-> exists r, l = p ++ r.
Proof.
  revert l. induction p as [|a p IH]; intros l; simpl; [split; [by exists l|done]|]. destruct l as [|b l]; [split; [done|by intros [r [=]]]|].
  rewrite andb_true_iff, IH, Z.eqb_eq. split; [intros [-> [r ->]]; by exists r|intros [r [= -> ->]]; split; [done|by exists r]].
Qed.

Lemma prefixed_drop p l : prefixed p l = true -> l = p ++ drop (length p) l.
Proof. intros [r ->]%prefixed_app. by rewrite drop_app_length. Qed.
Lemma cut_at_spec p l a b : cut_at p l = Some (a, b) -> l = a ++ p ++ b.
Proof.
  revert a b. induction l as [|c l IH]; intros a b; cbn [cut_at]; (destruct (prefixed p _) eqn:E; [intros [= <- <-]; by apply prefixed_drop|]).
  - done.
  - intros ([x y] & Er & [= <- <-])%bind_Some. simpl. by rewrite <- (IH x y).
Qed.
Lemma cut_at_exists p a b : is_some (cut_at p (a ++ p ++ b)) = true.
Proof.
  induction a as [|c a IH]; simpl.
  - assert (prefixed p (p ++ b) = true) as E by (apply prefixed_app; by exists b). destruct (p ++ b); simpl in *; by rewrite E.
  - destruct (prefixed p (c :: a ++ p ++ b)); [done|]. by destruct (cut_at p (a ++ p ++ b)) as [[? ?]|].
Qed.
Lemma contains_spec p l : contains p l = true <-> exists a b, l = a ++ p ++ b.
Proof.
  unfold contains. split; [|intros (a & b & ->); apply cut_at_exists]. destruct (cut_at p l) as [[a b]|] eqn:E; [|done]. intros _. exists a, b. by apply cut_at_spec.
Qed.

Lemma split_by_nonempty sep l : exists part parts, split_by sep l = part :: parts.
Proof. destruct l as [|c l]; simpl; [by eexists _, _|]. destruct (sep c); [by eexists _, _|]. destruct (split_by sep l); by eexists _, _. Qed.
(** A part between two separators, or at an end, is one of the parts; so are several in a row. *)
Lemma split_by_plain sep l : Forall (fun c => sep c = false) l -> split_by sep l = [l].
Proof. induction 1 as [|c l H _ IH]; [done|]. simpl. by rewrite H, IH. Qed.
Lemma split_by_app sep a c b : sep c = true -> split_by sep (a ++ c :: b) = split_by sep a ++ split_by sep b.
Proof.
  intros Hc. induction a as [|d a IH]; simpl; [by rewrite Hc|]. destruct (sep d); [by rewrite IH|]. rewrite IH.
  destruct (split_by_nonempty sep a) as (p & ps & ->). done.
Qed.
Definition joined (sep : Z) (parts : list text) : text :=
  match parts with [] => [] | part :: parts => part ++ flat_map (cons sep) parts end.
Lemma split_by_joined sep parts : parts <> [] -> Forall (Forall (fun c => c <> sep)) parts -> split_by (Z.eqb sep) (joined sep parts) = parts.
Proof.
  destruct parts as [|p ps]; [done|]. intros _ H. simpl. revert p H. induction ps as [|q ps IH]; intros p H; simpl.
  - rewrite app_nil_r. apply split_by_plain. apply Forall_cons in H as [H _]. eapply Forall_impl; [exact H|]. intros c Hc. by apply Z.eqb_neq.
  - apply Forall_cons in H as [Hp H]. rewrite split_by_app by apply Z.eqb_refl. rewrite IH by done. rewrite split_by_plain; [done|].
    eapply Forall_impl; [exact Hp|]. intros c Hc. by apply Z.eqb_neq.
Qed.
(** Parts found inside a longer text whose neighbours are separators. *)
Lemma split_by_inside sep a m b : (a = [] \/ exists a', a = a' ++ [sep]) -> (b = [] \/ exists b', b = sep :: b') ->
  exists x y, split_by (Z.eqb sep) (a ++ m ++ b) = x ++ split_by (Z.eqb sep) m ++ y.
Proof.
  intros Ha Hb. assert (exists y, split_by (Z.eqb sep) (m ++ b) = split_by (Z.eqb sep) m ++ y) as [y Ey].
  { destruct Hb as [->|[b' ->]]; [exists []; by rewrite !app_nil_r|]. rewrite split_by_app by apply Z.eqb_refl. by eexists. }
  destruct Ha as [->|[a' ->]]; [exists [], y; done|]. rewrite <- app_assoc. simpl. rewrite split_by_app by apply Z.eqb_refl. rewrite Ey. by eexists _, _.
Qed.

Lemma windows_middle {A} n (x m y : list A) : (0 < n)%nat -> length m = n -> In m (windows n (x ++ m ++ y)).
Proof.
  intros Hn Hm. induction x as [|a x IH]; simpl.
  - destruct m as [|a m]; [simpl in Hm; lia|]. simpl. rewrite (proj2 (Nat.leb_le n _)) by (simpl in *; rewrite length_app; lia). left.
    rewrite <- Hm. simpl. f_equal. by rewrite take_app_length.
  - rewrite (proj2 (Nat.leb_le n _)); [by right|]. simpl. rewrite !length_app. lia.
Qed.
Lemma windows_In {A} n (w l : list A) : In w (windows n l) -> exists x y, l = x ++ w ++ y /\ length w = n.
Proof.
  induction l as [|a l IH]; simpl; [done|]. destruct (Nat.leb_spec n (S (length l))) as [Hle|]; [|done]. intros [<-|H].
  - exists [], (drop n (a :: l)). simpl. rewrite take_drop. split; [done|]. rewrite length_take. simpl. lia.
  - destruct (IH H) as (x & y & -> & Hl). by exists (a :: x), y.
Qed.

(** ** Runs *)

Notation holds f := (Forall (fun c : Z => f c = true)) (only parsing).

Lemma ends_out_app f a k : ends_out f (a ++ k) -> holds f k -> k = [].
Proof.
  intros H Hk. destruct k as [|c k] using rev_ind; [done|]. apply Forall_app in Hk as [_ Hk]; apply Forall_cons in Hk as [Hc _]. rewrite app_assoc in H.
  specialize (H c). rewrite last_snoc in H. specialize (H eq_refl). simpl in Hc. congruence.
Qed.
Lemma begins_out_app f k b : begins_out f (k ++ b) -> holds f k -> k = [].
Proof. intros H Hk. destruct k as [|c k]; [done|]. apply Forall_cons in Hk as [Hc _]. specialize (H c eq_refl). simpl in Hc. congruence. Qed.

(** Equal texts cut at a maximal run on one side and after a run on the other. *)
Lemma run_unique f u r r' b b' : holds f r -> holds f r' -> begins_out f b -> begins_out f b' -> u ++ r ++ b = u ++ r' ++ b' -> r = r' /\ b = b'.
Proof.
  intros Hr Hr' Hb Hb' E%app_inv_head. apply app_eq_inv in E as [[k [-> E]]|[k [-> E]]].
  - apply Forall_app in Hr as [_ Hk]. rewrite E in Hb'. rewrite (begins_out_app f k b Hb' Hk) in *. by rewrite app_nil_r.
  - apply Forall_app in Hr' as [_ Hk]. rewrite E in Hb. rewrite (begins_out_app f k b' Hb Hk) in *. by rewrite app_nil_r.
Qed.

Lemma runs_from_max f a r b : r <> [] -> holds f r -> ends_out f a -> begins_out f b ->
  forall l seen run, rev seen ++ rev run ++ l = a ++ r ++ b -> (length seen <= length a)%nat -> holds f run -> In (a, r, b) (runs_from f seen run l).
Proof.
  intros Hne Hr Ha Hb. induction l as [|c t IH]; intros seen run E Hlen Hrun; simpl.
  - assert (holds f (rev run)) as Hrev by by apply Forall_rev.
    apply app_eq_inv in E as [[k [E1 E2]]|[k [-> E2]]].
    + assert (k = []) as -> by (apply length_zero_iff_nil; apply (f_equal length) in E1; rewrite length_rev, length_app in E1; lia).
      rewrite app_nil_r in E1. simpl in E2. subst a. rewrite app_nil_r in E2.
      destruct (run_unique f [] r (rev run) b [] Hr Hrev Hb) as [-> ->]; [by intros ?|by rewrite app_nil_r|].
      destruct run; [done|]. by left.
    + rewrite app_nil_r in E2. rewrite E2 in Hrev. apply Forall_app in Hrev as [Hk Hrev]. rewrite (ends_out_app f _ k Ha Hk) in *.
      rewrite app_nil_r. simpl in E2. apply Forall_app in Hrev as [_ Hbf]. assert (b = []) as ->.
      { apply (begins_out_app f b []); [by rewrite app_nil_r|done]. }
      rewrite app_nil_r in E2. rewrite <- E2 in *. destruct run; [done|]. by left.
  - destruct (f c) eqn:Ec.
    + apply IH; [|done|by constructor]. simpl. by rewrite <- app_assoc.
    + assert (holds f (rev run)) as Hrev by by apply Forall_rev.
      apply app_eq_inv in E as [[k [E1 E2]]|[k [-> E2]]].
      * assert (k = []) as -> by (apply length_zero_iff_nil; apply (f_equal length) in E1; rewrite length_rev, length_app in E1; lia).
        rewrite app_nil_r in E1. simpl in E2. subst a.
        destruct (run_unique f [] r (rev run) b (c :: t) Hr Hrev Hb) as [-> ->]; [by intros ? [= <-]|done|]. destruct run; [done|]. by left.
      * apply app_eq_inv in E2 as [[k' [E3 E4]]|[k' [-> E4]]].
        -- rewrite E3 in Hrev. apply Forall_app in Hrev as [Hk Hk']. rewrite (ends_out_app f _ k Ha Hk) in *. simpl in E3. rewrite app_nil_r.
           destruct (run_unique f [] r (rev run) b (c :: t) Hr) as [-> ->]; [by rewrite E3|done|by intros ? [= <-]|simpl; rewrite E3, E4, <- ?app_assoc; done|].
           destruct run; [done|]. by left.
        -- destruct k' as [|d k'].
           { rewrite app_nil_r in Ha |- *. assert (rev run = []) as Er by (apply (ends_out_app f (rev seen)); [done|done]).
             destruct r as [|d r]; [done|]. simpl in E4. injection E4 as -> _. apply Forall_cons in Hr as [Hd _]. congruence. }
           simpl in E4. injection E4 as <- ->. rewrite !length_app, length_rev in *. simpl in *.
           assert (In (rev seen ++ rev run ++ c :: k', r, b) (runs_from f (c :: run ++ seen) [] (k' ++ r ++ b))) as Hin.
           { apply IH; [|simpl; rewrite !length_app, ?length_rev in *; simpl in *; lia|done]. simpl. rewrite rev_app_distr, <- !app_assoc. done. }
           destruct run as [|e run]; [by apply Hin|]. right. done.
Qed.

(** The longest run at the end of a text, and at its beginning. *)
Lemma run_back f a : exists a' x, a = a' ++ x /\ holds f x /\ ends_out f a'.
Proof.
  induction a as [|c a (a' & x & -> & Hx & Ha)] using rev_ind; [exists [], []; by repeat split|]. destruct (f c) eqn:E.
  - exists a', (x ++ [c]). rewrite app_assoc. split; [done|]. split; [|done]. apply Forall_app. split; [done|by repeat constructor].
  - exists ((a' ++ x) ++ [c]), []. rewrite app_nil_r. split; [done|]. split; [done|]. intros d. rewrite last_snoc. by intros [= <-].
Qed.
Lemma run_front f b : exists y b', b = y ++ b' /\ holds f y /\ begins_out f b'.
Proof.
  induction b as [|c b (y & b' & -> & Hy & Hb)]; [exists [], []; by repeat split|]. destruct (f c) eqn:E.
  - exists (c :: y), b'. split; [done|]. split; [by constructor|done].
  - exists [], (c :: y ++ b'). split; [done|]. split; [done|]. by intros d [= <-].
Qed.
(** Every stretch of such characters lies in one of the runs. *)
Lemma runs_cover f a m b : m <> [] -> holds f m ->
  exists a' x y b', a = a' ++ x /\ b = y ++ b' /\ In (a', x ++ m ++ y, b') (runs f (a ++ m ++ b)) /\ holds f x /\ holds f y /\ ends_out f a' /\ begins_out f b'.
Proof.
  intros Hne Hm. destruct (run_back f a) as (a' & x & -> & Hx & Ha). destruct (run_front f b) as (y & b' & -> & Hy & Hb). exists a', x, y, b'.
  repeat (split; [done|]). split; [|done]. apply runs_from_max; [by destruct x, m|by repeat (apply Forall_app; split)|done|done|simpl; by rewrite <- !app_assoc|simpl; lia|done].
Qed.

(** * Characters written back: decoding undoes encoding

    What [chars] reads has the characters [of_chars] writes, so a text cut to a number of characters has at most that
    many. *)

Open Scope Z_scope.

Definition char_range (c : Z) : Prop := 0 <= c < 2 ^ 21.

Lemma land_low a n : 0 <= n -> Z.land a (Z.ones n) = a mod 2 ^ n.
Proof. intros H. by apply Z.land_ones. Qed.
Lemma land_63 a : Z.land a 63 = a mod 64.
Proof. by apply (land_low a 6). Qed.
Lemma lead_bits lead low m : 0 <= low < m -> (m | lead) -> (lead + low) mod m = low.
Proof. intros H [k ->]. rewrite Z.add_comm, Z_mod_plus_full. by apply Z.mod_small. Qed.

Lemma decode_encode c rest : char_range c -> decode (encode_char c ++ rest) = c :: decode rest.
Proof.
  unfold char_range, encode_char. intros Hc. rewrite !Z.shiftr_div_pow2, !land_63 by lia.
  pose proof (Z.mod_pos_bound c 64 ltac:(lia)). pose proof (Z.mod_pos_bound (c / 64) 64 ltac:(lia)). pose proof (Z.mod_pos_bound (c / 4096) 64 ltac:(lia)).
  change (2 ^ 6) with 64. change (2 ^ 12) with 4096. change (2 ^ 18) with 262144.
  assert (forall x, 0 <= x < 64 -> Z.land (128 + x) 63 = x) as H63 by (intros x Hx; rewrite land_63; apply lead_bits; [lia|by exists 2]).
  destruct (Z.ltb_spec c 128); [|destruct (Z.ltb_spec c 2048); [|destruct (Z.ltb_spec c 65536)]]; simpl app; cbn [decode].
  - destruct (Z.ltb_spec c 128); [done|lia].
  - assert (0 <= c / 64 < 32) by (split; [by apply Z.div_pos; lia|by apply Z.div_lt_upper_bound; lia]).
    destruct (Z.ltb_spec (192 + c / 64) 128); [lia|]. destruct (Z.ltb_spec (192 + c / 64) 224); [|lia]. f_equal.
    rewrite H63 by lia. rewrite (land_low _ 5 ltac:(lia)). change (2 ^ 5) with 32. rewrite lead_bits; [|lia|by exists 6]. pose proof (Z.div_mod c 64 ltac:(lia)). lia.
  - assert (0 <= c / 4096 < 16) by (split; [by apply Z.div_pos; lia|by apply Z.div_lt_upper_bound; lia]).
    destruct (Z.ltb_spec (224 + c / 4096) 128); [lia|]. destruct (Z.ltb_spec (224 + c / 4096) 224); [lia|]. destruct (Z.ltb_spec (224 + c / 4096) 240); [|lia]. f_equal.
    rewrite !H63 by lia. rewrite (land_low _ 4 ltac:(lia)). change (2 ^ 4) with 16. rewrite lead_bits; [|lia|by exists 14].
    pose proof (Z.div_mod c 64 ltac:(lia)). pose proof (Z.div_mod (c / 64) 64 ltac:(lia)). rewrite Z.div_div in * by lia. change (64 * 64) with 4096 in *. lia.
  - assert (0 <= c / 262144 < 8) by (split; [by apply Z.div_pos; lia|by apply Z.div_lt_upper_bound; lia]).
    destruct (Z.ltb_spec (240 + c / 262144) 128); [lia|]. destruct (Z.ltb_spec (240 + c / 262144) 224); [lia|]. destruct (Z.ltb_spec (240 + c / 262144) 240); [lia|]. f_equal.
    rewrite !H63 by lia. rewrite (land_low _ 3 ltac:(lia)). change (2 ^ 3) with 8. rewrite lead_bits; [|lia|by exists 30].
    pose proof (Z.div_mod c 64 ltac:(lia)). pose proof (Z.div_mod (c / 64) 64 ltac:(lia)). pose proof (Z.div_mod (c / 4096) 64 ltac:(lia)).
    rewrite !Z.div_div in * by lia. change (64 * 64) with 4096 in *. change (4096 * 64) with 262144 in *. lia.
Qed.

Lemma decode_encoded l rest : Forall char_range l -> decode (flat_map encode_char l ++ rest) = l ++ decode rest.
Proof. induction 1 as [|c l Hc _ IH]; [done|]. simpl. rewrite <- app_assoc, decode_encode by done. by rewrite IH. Qed.
Lemma encode_bytes c : char_range c -> Forall (fun b => 0 <= b < 256) (encode_char c).
Proof.
  unfold char_range, encode_char. intros Hc. rewrite !Z.shiftr_div_pow2, !land_63 by lia. change (2 ^ 6) with 64. change (2 ^ 12) with 4096. change (2 ^ 18) with 262144.
  pose proof (Z.mod_pos_bound c 64 ltac:(lia)). pose proof (Z.mod_pos_bound (c / 64) 64 ltac:(lia)). pose proof (Z.mod_pos_bound (c / 4096) 64 ltac:(lia)).
  assert (0 <= c / 262144 < 8) by (split; [by apply Z.div_pos; lia|by apply Z.div_lt_upper_bound; lia]).
  destruct (Z.ltb_spec c 128); [|destruct (Z.ltb_spec c 2048); [|destruct (Z.ltb_spec c 65536)]]; repeat constructor; try lia.
  all: try (assert (0 <= c / 64 < 32) by (split; [by apply Z.div_pos; lia|by apply Z.div_lt_upper_bound; lia]); lia).
  all: assert (0 <= c / 4096 < 16) by (split; [by apply Z.div_pos; lia|by apply Z.div_lt_upper_bound; lia]); lia.
Qed.
Lemma bytes_of_chars l : Forall char_range l -> bytes (of_chars l) = flat_map encode_char l.
Proof.
  intros H. unfold of_chars. apply bytes_of_bytes. induction H as [|c l Hc _ IH]; [done|]. simpl. apply Forall_app. by split; [apply encode_bytes|].
Qed.
Lemma chars_of_chars l : Forall char_range l -> chars (of_chars l) = l.
Proof. intros H. unfold chars. rewrite bytes_of_chars by done. rewrite <- (app_nil_r (flat_map _ _)), decode_encoded by done. simpl. by rewrite app_nil_r. Qed.
Lemma chars_app l s : Forall char_range l -> chars (of_chars l +:+ s) = l ++ chars s.
Proof. intros H. unfold chars. rewrite bytes_app, bytes_of_chars by done. by apply decode_encoded. Qed.

(** Whatever the bytes, the characters read are in range. *)
Lemma land_range a n : 0 <= n -> 0 <= Z.land a (Z.ones n) < 2 ^ n.
Proof. intros H. rewrite land_low by done. apply Z.mod_pos_bound. lia. Qed.
Lemma decode_range l : Forall (fun b => 0 <= b < 256) l -> Forall char_range (decode l).
Proof.
  unfold char_range. change (2 ^ 21) with 2097152. remember (length l) as n eqn:En. assert (length l <= n)%nat as Hn by lia. clear En. revert l Hn.
  induction n as [|n IH]; intros l Hn H; [destruct l; simpl in *; [by apply Forall_nil|lia]|].
  destruct H as [|b0 l0 B0 H]; [by apply Forall_nil|]. simpl in Hn. cbn [decode].
  destruct (Z.ltb_spec b0 128) as [?|?]; [constructor; [lia|by apply IH; [lia|]]|].
  destruct H as [|b1 l1 B1 H]; [by apply Forall_nil|]. simpl in Hn.
  pose proof (land_range b0 5 ltac:(lia)) as L5. pose proof (land_range b0 4 ltac:(lia)) as L4. pose proof (land_range b0 3 ltac:(lia)) as L3. pose proof (land_range b1 6 ltac:(lia)) as M1.
  change (Z.ones 5) with 31 in *. change (Z.ones 4) with 15 in *. change (Z.ones 3) with 7 in *. change (Z.ones 6) with 63 in *.
  change (2 ^ 5) with 32 in *. change (2 ^ 4) with 16 in *. change (2 ^ 3) with 8 in *. change (2 ^ 6) with 64 in *.
  destruct (Z.ltb_spec b0 224); [constructor; [lia|by apply IH; [lia|]]|].
  destruct H as [|b2 l2 B2 H]; [by apply Forall_nil|]. simpl in Hn. pose proof (land_range b2 6 ltac:(lia)) as M2. change (Z.ones 6) with 63 in *. change (2 ^ 6) with 64 in *.
  destruct (Z.ltb_spec b0 240); [constructor; [lia|by apply IH; [lia|]]|].
  destruct H as [|b3 l3 B3 H]; [by apply Forall_nil|]. simpl in Hn. pose proof (land_range b3 6 ltac:(lia)) as M3. change (Z.ones 6) with 63 in *. change (2 ^ 6) with 64 in *.
  constructor; [lia|by apply IH; [lia|]].
Qed.
Lemma chars_range s : Forall char_range (chars s).
Proof. apply decode_range. eapply Forall_impl; [apply bytes_bounds|]. done. Qed.

(** UTF-8, as every [str] is. *)
Definition is_text (s : string) : Prop := of_chars (chars s) = s.

Lemma of_chars_app l m : Forall char_range l -> Forall char_range m -> of_chars (l ++ m) = of_chars l +:+ of_chars m.
Proof.
  intros Hl Hm. apply bytes_inj. rewrite bytes_app, !bytes_of_chars by (done || by apply Forall_app). apply flat_map_app.
Qed.

(** An ASCII character that is no whitespace is not in whitespace. *)
Definition without (z : Z) (s : string) : Prop := Forall (fun y => y <> z) (bytes s).
Lemma whitespace_without z l : z < 128 -> is_whitespace z = false -> Forall char_range l -> Forall (fun c => is_whitespace c = true) l ->
  without z (of_chars l).
Proof.
  intros Hz Hw Hr Hs. unfold without. rewrite bytes_of_chars by done. induction Hs as [|c l Hc _ IH]; [by apply Forall_nil|].
  apply Forall_cons in Hr as [Hrc Hr]. simpl. apply Forall_app. split; [|by apply IH]. clear IH Hr. unfold encode_char, char_range in *.
  rewrite !Z.shiftr_div_pow2, !land_63 by lia. change (2 ^ 6) with 64. change (2 ^ 12) with 4096. change (2 ^ 18) with 262144.
  pose proof (Z.mod_pos_bound c 64 ltac:(lia)). pose proof (Z.mod_pos_bound (c / 64) 64 ltac:(lia)). pose proof (Z.mod_pos_bound (c / 4096) 64 ltac:(lia)).
  assert (0 <= c / 64) by (by apply Z.div_pos; lia). assert (0 <= c / 4096) by (by apply Z.div_pos; lia). assert (0 <= c / 262144) by (by apply Z.div_pos; lia).
  destruct (Z.ltb_spec c 128); [|destruct (Z.ltb_spec c 2048); [|destruct (Z.ltb_spec c 65536)]]; repeat constructor; try lia.
  intros ->. congruence.
Qed.

(** Trimming takes whitespace off the two ends. *)
Lemma trim_text s : is_text s ->
  exists a b, s = a +:+ trim s +:+ b /\ forall z, z < 128 -> is_whitespace z = false -> without z a /\ without z b.
Proof.
  intros Ht. pose proof (chars_range s) as Hr. unfold trim, trim_chars. unfold is_text in Ht.
  destruct (drop_while_app is_whitespace (chars s)) as (a & Ea & Fa). set (m := drop_while is_whitespace (chars s)) in *.
  destruct (drop_while_app is_whitespace (rev m)) as (c & Ec & Fc). set (n := drop_while is_whitespace (rev m)) in *.
  assert (m = rev n ++ rev c) as Em by (by rewrite <- rev_app_distr, <- Ec, rev_involutive).
  rewrite Ea, Em in Hr. apply Forall_app in Hr as [Ra [Rn Rc]%Forall_app]. exists (of_chars a), (of_chars (rev c)). split.
  - rewrite <- Ht at 1. rewrite Ea, Em, !of_chars_app; try done. by apply Forall_app.
  - intros z Hz Hw. split; apply whitespace_without; try done. by apply Forall_rev.
Qed.

Lemma ascii_range l : Forall (fun b => 0 <= b < 128) l -> Forall char_range l.
Proof. intros H. eapply Forall_impl; [exact H|]. unfold char_range. intros c Hc. simpl in Hc. lia. Qed.
