(* ===== verification/RpmVer.v ===== *)
(** * RPM version order (crates/openvibes-vulns/src/rpmver.rs)

    [rpmvercmp] is the loop of the source over the two byte strings, one [rpm_iteration] per
    turn of its [while], with the fuel [rpm_fuel] (a turn that continues consumes a byte, so the
    two lengths bound the turns).  [tokens] and [token_cmp] are the abstract order it implements:
    a version is a list of tokens, ended by [TEnd], and versions compare lexicographically. *)
From S2P Require Import Prelude RustStd.
From stdpp Require Import prelude strings.
From Stdlib Require Import Ascii ZArith Lia.

Open Scope Z_scope.

(** ** The code *)

Definition tilde : Z := Eval cbv in byte_of "~".
Definition caret : Z := Eval cbv in byte_of "^".
(** The [separator] closure. *)
Definition separator (c : Z) : bool :=
  negb (is_ascii_alphanumeric c) && negb (c =? tilde) && negb (c =? caret).

(** [s.first() == Some(&c)]. *)
Definition first_is (c : Z) (s : list Z) : bool :=
  match s with d :: _ => d =? c | [] => false end.

(** The [class] closure: bytes of the same kind as the segment being read. *)
Definition seg_class (numeric : bool) (c : Z) : bool :=
  if numeric then is_ascii_digit c else is_ascii_alphabetic c.

(** The [order] of two segments of one kind. *)
Definition seg_order (numeric : bool) (s1 s2 : list Z) : comparison :=
  if numeric then
    let x := trim_zeros s1 in
    let y := trim_zeros s2 in
    Nat.compare (length x) (length y) <then> list_cmp Z.compare x y
  else list_cmp Z.compare s1 s2.

(** How one turn of the loop ends. *)
Inductive turn :=
  | Continue (one two : list Z)
  | Break (one two : list Z)
  | Return (c : comparison).

Definition rpm_iteration (one two : list Z) : turn :=
  let one := skip_while separator one in
  let two := skip_while separator two in
  match first_is tilde one, first_is tilde two with
  | true, true => Continue (tail one) (tail two)
  | true, false => Return Lt
  | false, true => Return Gt
  | false, false =>
      if first_is caret one || first_is caret two then
        match one, two with
        | [], _ => Return Lt
        | _, [] => Return Gt
        | c :: one', d :: two' =>
            if negb (c =? caret) then Return Gt
            else if negb (d =? caret) then Return Lt
            else Continue one' two'
        end
      else
        match one, two with
        | [], _ | _, [] => Break one two
        | c :: _, _ :: _ =>
            let numeric := is_ascii_digit c in
            let '(seg_one, rest_one) := span (seg_class numeric) one in
            let '(seg_two, rest_two) := span (seg_class numeric) two in
            match seg_two with
            | [] => Return (if numeric then Gt else Lt)
            | _ :: _ =>
                match seg_order numeric seg_one seg_two with
                | Eq => Continue rest_one rest_two
                | order => Return order
                end
            end
        end
  end.

(** The [match] after the loop. *)
Definition rpm_end (one two : list Z) : comparison :=
  match one, two with
  | [], [] => Eq
  | [], _ :: _ => Lt
  | _, _ => Gt
  end.

Fixpoint rpm_loop (fuel : nat) (one two : list Z) : option comparison :=
  match fuel with
  | O => None
  | S fuel =>
      match one, two with
      | [], [] => Some (rpm_end one two)
      | _, _ =>
          match rpm_iteration one two with
          | Continue one two => rpm_loop fuel one two
          | Break one two => Some (rpm_end one two)
          | Return c => Some c
          end
      end
  end.

Definition rpm_fuel (a b : string) : nat := S (String.length a + String.length b).

Definition rpmvercmp (a b : string) : comparison :=
  if String.eqb a b then Eq
  else match rpm_loop (rpm_fuel a b) (bytes a) (bytes b) with
       | Some c => c
       | None => Eq
       end.

(** Epoch, then version, then release. *)
Definition compare_evr (a b : Z * string * string) : comparison :=
  let '(ea, va, ra) := a in
  let '(eb, vb, rb) := b in
  Z.compare ea eb <then> rpmvercmp va vb <then> rpmvercmp ra rb.

(** ** The abstract order *)

(** A version is a list of tokens; [TEnd] closes it. *)
Inductive token :=
  | TTilde
  | TEnd
  | TCaret
  | TAlpha (letters : list Z)
  | TNum (digits : list Z).

(** A digit run or a letter run grows by one byte at its front. *)
Definition push_run (c : Z) (ts : list token) : list token :=
  if is_ascii_digit c then
    match ts with TNum ds :: ts => TNum (c :: ds) :: ts | _ => TNum [c] :: ts end
  else
    match ts with TAlpha l :: ts => TAlpha (c :: l) :: ts | _ => TAlpha [c] :: ts end.

(** Whether the run that starts with [c] goes on with the next byte. *)
Definition same_run (c : Z) (r : list Z) : bool :=
  match r with d :: _ => seg_class (is_ascii_digit c) d | [] => false end.

Fixpoint tokens (s : list Z) : list token :=
  match s with
  | [] => [TEnd]
  | c :: r =>
      if separator c then tokens r
      else if c =? tilde then TTilde :: tokens r
      else if c =? caret then TCaret :: tokens r
      else if same_run c r then push_run c (tokens r)
      else (if is_ascii_digit c then TNum [c] else TAlpha [c]) :: tokens r
  end.

(** [~] sorts before the end, the end before [^], [^] before letters, letters before numbers;
    letters compare bytewise and numbers by their value. *)
Definition token_key (t : token) : Z * list Z :=
  match t with
  | TTilde => (0, [])
  | TEnd => (1, [])
  | TCaret => (2, [])
  | TAlpha l => (3, l)
  | TNum ds => (4, [digits_value ds])
  end.

Definition token_cmp : token -> token -> comparison :=
  cmp_on token_key (pair_cmp Z.compare (list_cmp Z.compare)).

Definition version_cmp (a b : string) : comparison :=
  list_cmp token_cmp (tokens (bytes a)) (tokens (bytes b)).

(** ** Byte classes *)

Lemma digit_not_alpha c : is_ascii_digit c = true -> is_ascii_alphabetic c = false.
Proof.
  unfold is_ascii_digit, is_ascii_alphabetic, is_ascii_lowercase, is_ascii_uppercase. lia.
Qed.

(** A byte that is no separator is [~], [^], a digit or a letter. *)
Lemma not_separator c :
  separator c = false ->
  c = tilde \/ c = caret \/ is_ascii_digit c = true \/ is_ascii_alphabetic c = true.
Proof.
  unfold separator, is_ascii_alphanumeric. intros H.
  destruct (is_ascii_alphabetic c), (is_ascii_digit c), (Z.eqb_spec c tilde),
    (Z.eqb_spec c caret); simpl in *; try done; auto.
Qed.

Lemma seg_class_run numeric c :
  seg_class numeric c = true ->
  separator c = false /\ (c =? tilde) = false /\ (c =? caret) = false
  /\ is_ascii_digit c = numeric.
Proof.
  unfold seg_class, separator, is_ascii_alphanumeric, tilde, caret.
  destruct numeric; intros H.
  - rewrite (digit_not_alpha c H), H. unfold is_ascii_digit in H. simpl. lia.
  - rewrite H. split_and!; simpl; try done;
      unfold is_ascii_alphabetic, is_ascii_lowercase, is_ascii_uppercase in H;
      unfold is_ascii_digit; simpl; lia.
Qed.

(** ** The scanning functions *)

Lemma tokens_skip s : tokens (skip_while separator s) = tokens s.
Proof. induction s as [|c s IH]; simpl; [done|]. destruct (separator c) eqn:E; simpl; by rewrite ?E. Qed.

(** A maximal run of one class is one token. *)
Lemma tokens_run numeric a b :
  a <> [] ->
  Forall (fun c => seg_class numeric c = true) a ->
  match b with c :: _ => seg_class numeric c = false | [] => True end ->
  tokens (a ++ b) = (if numeric then TNum a else TAlpha a) :: tokens b.
Proof.
  intros Hne Ha Hb. induction Ha as [|c a Hc Ha IH]; [done|].
  apply seg_class_run in Hc as (E1 & E2 & E3 & E4). simpl. rewrite E1, E2, E3.
  destruct a as [|d a].
  - simpl. unfold same_run. rewrite E4. destruct b as [|d b]; [by destruct numeric|].
    rewrite Hb. by destruct numeric.
  - rewrite IH by done. apply Forall_cons in Ha as [Hd _].
    unfold same_run, push_run; simpl. rewrite E4, Hd. by destruct numeric.
Qed.

(** ** Segments compare as tokens *)

(** Trimming and comparing lengths first is comparing the numbers. *)
Lemma seg_order_numeric x y :
  digits x -> digits y ->
  seg_order true x y = Z.compare (digits_value x) (digits_value y).
Proof.
  intros Hx Hy. unfold seg_order. rewrite <- (trim_zeros_value x), <- (trim_zeros_value y).
  apply trim_zeros_digits in Hx, Hy.
  pose proof (skip_while_head (fun c => c =? zero_digit) x) as Zx.
  pose proof (skip_while_head (fun c => c =? zero_digit) y) as Zy.
  fold (trim_zeros x) in Zx. fold (trim_zeros y) in Zy.
  destruct (Nat.compare_spec (length (trim_zeros x)) (length (trim_zeros y))); simpl.
  - by apply digits_value_lex.
  - symmetry. apply Z.compare_lt_iff. by apply digits_value_longer.
  - symmetry. apply Z.compare_gt_iff. by apply digits_value_longer.
Qed.

#[export] Instance token_cmp_preorder : CmpPreorder token_cmp.
Proof. unfold token_cmp. apply _. Qed.

Definition seg_token (numeric : bool) (s : list Z) : token :=
  if numeric then TNum s else TAlpha s.

Lemma seg_order_token numeric x y :
  Forall (fun c => seg_class numeric c = true) x ->
  Forall (fun c => seg_class numeric c = true) y ->
  seg_order numeric x y = token_cmp (seg_token numeric x) (seg_token numeric y).
Proof.
  intros Hx Hy. destruct numeric.
  - rewrite seg_order_numeric by done. unfold token_cmp, cmp_on, pair_cmp; simpl.
    by destruct (Z.compare _ _).
  - done.
Qed.

(** ** One turn of the loop *)

(** What a turn says about the order of the tokens still to compare. *)
Definition turn_ok (one two : list Z) (t : turn) : Prop :=
  match t with
  | Continue one' two' =>
      list_cmp token_cmp (tokens one) (tokens two)
      = list_cmp token_cmp (tokens one') (tokens two')
      /\ (length one' + length two' < length one + length two)%nat
  | Break one' two' => list_cmp token_cmp (tokens one) (tokens two) = rpm_end one' two'
  | Return c => list_cmp token_cmp (tokens one) (tokens two) = c
  end.

(** The first token of text that starts with no separator. *)
Definition first_token (s : list Z) (t : token) : Prop :=
  exists ts, tokens s = t :: ts.

Lemma first_token_tilde s : first_is tilde s = true -> tokens s = TTilde :: tokens (tail s).
Proof.
  destruct s as [|c s]; simpl; [done|]. by intros ->%Z.eqb_eq.
Qed.

Lemma first_token_caret s : first_is caret s = true -> tokens s = TCaret :: tokens (tail s).
Proof.
  destruct s as [|c s]; simpl; [done|]. by intros ->%Z.eqb_eq.
Qed.

(** After skipping separators, text is empty or starts with [~], [^] or a run. *)
Lemma head_cases s :
  match s with c :: _ => separator c = false | [] => True end ->
  s = [] \/ first_is tilde s = true \/ first_is caret s = true
  \/ exists c r a b, s = c :: r /\ span (seg_class (is_ascii_digit c)) s = (a, b) /\ a <> []
       /\ Forall (fun d => seg_class (is_ascii_digit c) d = true) a
       /\ tokens s = seg_token (is_ascii_digit c) a :: tokens b
       /\ (length b < length s)%nat.
Proof.
  destruct s as [|c r]; [auto|]. intros Hs. right.
  destruct (not_separator c Hs) as [->|[->|Hrun]]; [by auto|by auto|].
  right; right. destruct (span (seg_class (is_ascii_digit c)) (c :: r)) as [a b] eqn:E.
  exists c, r, a, b. pose proof (span_spec _ _ _ _ E) as (Eq & Ha & Hb).
  assert (a <> []) as Hne.
  { intros ->. simpl in Eq. subst b. unfold seg_class in Hb.
    destruct (is_ascii_digit c); destruct Hrun; congruence. }
  split_and!; try done.
  - rewrite Eq. by apply tokens_run.
  - rewrite Eq, length_app. destruct a; [done|]. simpl. lia.
Qed.

(** The outcome of comparing first tokens of different rank. *)
Lemma list_cmp_rank t u ts us :
  (token_key t).1 <> (token_key u).1 ->
  list_cmp token_cmp (t :: ts) (u :: us) = Z.compare (token_key t).1 (token_key u).1.
Proof.
  intros Hne. unfold token_cmp, cmp_on, pair_cmp. simpl.
  destruct (Z.compare_spec (token_key t).1 (token_key u).1); simpl; congruence.
Qed.

Lemma list_cmp_first t u ts us :
  list_cmp token_cmp (t :: ts) (u :: us) = (token_cmp t u <then> list_cmp token_cmp ts us).
Proof. done. Qed.

Lemma span_other numeric c r a b :
  is_ascii_digit c = negb numeric -> span (seg_class numeric) (c :: r) = (a, b) ->
  separator c = false -> first_is tilde (c :: r) = false -> first_is caret (c :: r) = false ->
  a = [].
Proof.
  intros Hc E _ _ _. simpl in E. unfold seg_class in E. destruct numeric; simpl in *.
  - rewrite Hc in E. by simplify_eq.
  - rewrite (digit_not_alpha c Hc) in E. by simplify_eq.
Qed.

(** A turn on text whose leading separators are skipped, when neither side starts with [~] or
    [^] and neither is empty: the two runs decide or are dropped. *)
Lemma run_turn_ok c o d t :
  separator c = false -> separator d = false ->
  first_is tilde (c :: o) = false -> first_is caret (c :: o) = false ->
  first_is tilde (d :: t) = false -> first_is caret (d :: t) = false ->
  let numeric := is_ascii_digit c in
  let '(a, one) := span (seg_class numeric) (c :: o) in
  let '(b, two) := span (seg_class numeric) (d :: t) in
  turn_ok (c :: o) (d :: t)
    (match b with
     | [] => Return (if numeric then Gt else Lt)
     | _ :: _ => match seg_order numeric a b with
                 | Eq => Continue one two
                 | order => Return order
                 end
     end).
Proof.
  intros Hc Hd T1 C1 T2 C2 numeric.
  destruct (head_cases (c :: o) Hc) as [?|[?|[?|(c' & o' & a & one & E & S1 & Na & Fa & K1 & L1)]]];
    [congruence..|]. injection E as <- <-. fold numeric in S1, Fa, K1. rewrite S1.
  destruct (head_cases (d :: t) Hd) as [?|[?|[?|(d' & t' & b & two & E & S2 & Nb & Fb & K2 & L2)]]];
    [congruence..|]. injection E as <- <-.
  destruct (Bool.bool_dec (is_ascii_digit d) numeric) as [Ed|Ed].
  - rewrite Ed in *. rewrite S2. destruct b as [|x b]; [done|].
    assert (list_cmp token_cmp (tokens (c :: o)) (tokens (d :: t)) =
      (seg_order numeric a (x :: b) <then> list_cmp token_cmp (tokens one) (tokens two))) as Hcmp.
    { rewrite K1, K2, list_cmp_first. by rewrite seg_order_token. }
    destruct (seg_order numeric a (x :: b)); simpl in *; [split; [done|lia]|done..].
  - assert (is_ascii_digit d = negb numeric) as Ed' by (by destruct (is_ascii_digit d), numeric).
    destruct (span (seg_class numeric) (d :: t)) as [b' two'] eqn:S2'.
    rewrite (span_other numeric d t b' two') by done. unfold turn_ok.
    rewrite K1, K2, list_cmp_rank; rewrite Ed'; by destruct numeric.
Qed.

(** What text whose leading separators are skipped starts with, and its first token's rank. *)
Inductive head_kind : list Z -> Z -> Prop :=
  | head_tilde r : head_kind (tilde :: r) 0
  | head_end : head_kind [] 1
  | head_caret r : head_kind (caret :: r) 2
  | head_run c r n :
      separator c = false -> (c =? tilde) = false -> (c =? caret) = false -> 3 <= n ->
      head_kind (c :: r) n.

Definition rank (s : list Z) : Z := (token_key (hd TEnd (tokens s))).1.

Lemma head_kind_rank s :
  match s with c :: _ => separator c = false | [] => True end -> head_kind s (rank s).
Proof.
  intros Hs. destruct (head_cases s Hs) as [->|[H|[H|(c & r & a & b & -> & _ & _ & _ & Et & _)]]].
  - constructor.
  - unfold rank. rewrite (first_token_tilde s H). destruct s as [|c s]; [done|].
    apply Z.eqb_eq in H as ->. constructor.
  - unfold rank. rewrite (first_token_caret s H). destruct s as [|c s]; [done|].
    apply Z.eqb_eq in H as ->. constructor.
  - destruct (Z.eqb_spec c tilde) as [->|]; [constructor|].
    destruct (Z.eqb_spec c caret) as [->|]; [constructor|].
    constructor; try by apply Z.eqb_neq. { done. }
    unfold rank. rewrite Et. by destruct (is_ascii_digit c).
Qed.

Lemma tokens_nonempty s : tokens s <> [].
Proof.
  induction s as [|c s IH]; simpl; [done|]. repeat case_match; try done.
  unfold push_run. by repeat case_match.
Qed.

Lemma rank_decides o t c :
  rank o <> rank t -> Z.compare (rank o) (rank t) = c ->
  list_cmp token_cmp (tokens o) (tokens t) = c.
Proof.
  unfold rank. intros Hne <-. pose proof (tokens_nonempty o). pose proof (tokens_nonempty t).
  destruct (tokens o), (tokens t); try done. by apply list_cmp_rank.
Qed.

(** Text that starts alike on both sides with [~] or [^] goes on behind it. *)
Lemma same_mark_ok c o t :
  c = tilde \/ c = caret -> turn_ok (c :: o) (c :: t) (Continue o t).
Proof.
  intros Hc. split; [|simpl; lia].
  destruct Hc as [->| ->];
    [apply (list_cmp_app_same token_cmp [TTilde])|apply (list_cmp_app_same token_cmp [TCaret])].
Qed.

(** One turn after the separators are skipped. *)
Lemma rpm_iteration_skipped o t :
  head_kind o (rank o) -> head_kind t (rank t) ->
  skip_while separator o = o -> skip_while separator t = t ->
  turn_ok o t (rpm_iteration o t).
Proof.
  intros Ho Ht So St. unfold rpm_iteration. rewrite So, St.
  assert (forall c, rank o <> rank t -> Z.compare (rank o) (rank t) = c -> turn_ok o t (Return c))
    as Hret by (intros c Hne E; by apply rank_decides).
  inversion Ho as [o' E1 R1|E1 R1|o' E1 R1|c o' m Sc Tc Cc Hm E1 R1]; subst o;
  inversion Ht as [t' E2 R2|E2 R2|t' E2 R2|d t' n Sd Td Cd Hn E2 R2]; subst t;
    cbn [first_is]; rewrite ?Tc, ?Td, ?Cc, ?Cd; cbn [orb negb];
    change (tilde =? tilde) with true; change (caret =? caret) with true;
    change (tilde =? caret) with false; change (caret =? tilde) with false; cbn [orb negb tail];
    try (apply same_mark_ok; by auto); try (apply Hret; [lia|]);
    try (apply Z.compare_lt_iff; lia); try (apply Z.compare_gt_iff; lia).
  { done. }
  pose proof (run_turn_ok c o' d t' Sc Sd Tc Cc Td Cd) as Hrun. cbv zeta in *.
  by destruct (span _ (c :: o')), (span _ (d :: t')).
Qed.

Lemma rpm_iteration_ok one two : turn_ok one two (rpm_iteration one two).
Proof.
  set (o := skip_while separator one). set (t := skip_while separator two).
  assert (rpm_iteration one two = rpm_iteration o t) as ->.
  { unfold rpm_iteration. subst o t. by rewrite !skip_while_idem. }
  assert (turn_ok o t (rpm_iteration o t)) as Hok.
  { apply rpm_iteration_skipped; try apply skip_while_idem;
      apply head_kind_rank, (skip_while_head separator). }
  assert (tokens o = tokens one) as Eo by apply tokens_skip.
  assert (tokens t = tokens two) as Et by apply tokens_skip.
  assert (length o <= length one)%nat by apply skip_while_length.
  assert (length t <= length two)%nat by apply skip_while_length.
  unfold turn_ok in *. rewrite Eo, Et in Hok.
  destruct (rpm_iteration o t); [|done..]. destruct Hok. split; [done|lia].
Qed.

(** ** Properties *)

Lemma rpm_loop_spec fuel one two :
  (length one + length two < fuel)%nat ->
  rpm_loop fuel one two = Some (list_cmp token_cmp (tokens one) (tokens two)).
Proof.
  revert one two. induction fuel as [|fuel IH]; intros one two Hf; [lia|].
  assert (Hturn : rpm_loop (S fuel) one two = match rpm_iteration one two with
    | Continue one two => rpm_loop fuel one two
    | Break one two => Some (rpm_end one two) | Return c => Some c end
    \/ one = [] /\ two = []) by (destruct one, two; auto).
  destruct Hturn as [->|[-> ->]]; [|done].
  pose proof (rpm_iteration_ok one two) as Hok.
  destruct (rpm_iteration one two) as [one' two'|one' two'|c]; simpl in Hok.
  - destruct Hok as [-> Hl]. apply IH. lia.
  - by rewrite Hok.
  - by rewrite Hok.
Qed.

Lemma rpmvercmp_version_cmp a b : rpmvercmp a b = version_cmp a b.
Proof.
  unfold rpmvercmp, version_cmp. destruct (String.eqb_spec a b) as [->|].
  - by rewrite cmp_refl by apply _.
  - rewrite rpm_loop_spec; [done|]. unfold rpm_fuel. rewrite !bytes_length. lia.
Qed.

#[global] Instance rpmvercmp_preorder : CmpPreorder rpmvercmp.
Proof.
  assert (CmpPreorder version_cmp) as H.
  { change version_cmp with (cmp_on (fun s => tokens (bytes s)) (list_cmp token_cmp)). apply _. }
  split; intros *; rewrite !rpmvercmp_version_cmp; [apply (cmp_antisym version_cmp)|apply (cmp_le_trans version_cmp)].
Qed.

#[global] Instance compare_evr_preorder : CmpPreorder compare_evr.
Proof.
  assert (CmpPreorder (cmp_then (cmp_on (fun e : Z * string * string => e.1.1) Z.compare)
    (cmp_then (cmp_on (fun e : Z * string * string => e.1.2) rpmvercmp)
       (cmp_on (fun e : Z * string * string => e.2) rpmvercmp)))) as H by apply _.
  split; [intros [[??]?] [[??]?]|intros [[??]?] [[??]?] [[??]?]].
  - apply (@cmp_antisym _ _ H (_, _, _) (_, _, _)).
  - apply (@cmp_le_trans _ _ H (_, _, _) (_, _, _) (_, _, _)).
Qed.

(** RPM's own vectors, as the source tests them: a sample of every class. *)
Example rpm_vectors :
  map (fun '(a, b) => rpmvercmp a b)
    [("1.0", "2.0"); ("2.0.1a", "2.0.1"); ("5.5p1", "5.5p10"); ("10xyz", "10.1xyz");
     ("xyz.4", "8"); ("6.0.rc1", "6.0"); ("1.0aa", "1.0a"); ("10.0001", "10.1");
     ("10.0001", "10.0039"); ("2_0", "2.0"); ("+", "_"); ("1.0~rc1", "1.0");
     ("1.0~rc1~git123", "1.0~rc1"); ("1.0^", "1.0"); ("1.0^git1", "1.01");
     ("1.0^20160101", "1.0.1"); ("1.0^20160102", "1.0^20160101^git1");
     ("1.0~rc1^git1", "1.0~rc1"); ("1.0^git1~pre", "1.0^git1")]
  = [Lt; Gt; Lt; Lt; Lt; Gt; Gt; Eq; Lt; Eq; Eq; Lt; Lt; Gt; Lt; Lt; Gt; Gt; Lt].
Proof. vm_compute. reflexivity. Qed.

(** C38: [rpmvercmp] always terminates within its fuel and is exactly the abstract version order:
    separators are ignored, and the remaining tokens compare lexicographically with [~] below the
    end of the version, the end below [^], [^] below letter runs, letter runs (bytewise) below
    digit runs, and digit runs by their numeric value, leading zeros ignored. *)
Theorem rpmvercmp_refines_tokens (a b : string) :
  rpm_loop (rpm_fuel a b) (bytes a) (bytes b) = Some (version_cmp a b)
  /\ rpmvercmp a b = version_cmp a b.
Proof.
  split; [|apply rpmvercmp_version_cmp].
  apply rpm_loop_spec. unfold rpm_fuel. rewrite !bytes_length. lia.
Qed.

(** Package comparison by epoch, version and release is a total preorder: swapping the
    arguments reverses the answer, every two packages are comparable, and "not newer than" is
    transitive, so a newest installed version exists and is well defined. *)
Theorem compare_evr_total_preorder :
  (forall a b, compare_evr b a = CompOpp (compare_evr a b))
  /\ (forall a, compare_evr a a = Eq)
  /\ (forall a b c, compare_evr a b <> Gt -> compare_evr b c <> Gt -> compare_evr a c <> Gt)
  /\ (forall a b c, compare_evr a b = Lt -> compare_evr b c = Lt -> compare_evr a c = Lt).
Proof.
  split_and!.
  - apply (cmp_antisym compare_evr).
  - apply (cmp_refl compare_evr).
  - apply (cmp_le_trans compare_evr).
  - apply (cmp_lt_trans compare_evr).
Qed.
