(* ===== verification/DpkgVer.v ===== *)
(** * dpkg version order (crates/openvibes-vulns/src/dpkgver.rs)

    [verrevcmp] keeps the source's nested loops: [nondigit_loop] and [digit_loop] inside
    [verrev_loop].  [dpkg_key] and [padded_cmp] are the abstract order: the text is the sequence
    of its characters' weights with every digit run replaced by a zero and its number, read as if
    it went on with zeros for ever. *)
From S2P Require Import Prelude RustStd.
From stdpp Require Import prelude strings.
From Stdlib Require Import Ascii ZArith Lia.

Open Scope Z_scope.

(** ** The code *)

Definition dpkg_tilde : Z := Eval cbv in byte_of "~".

Definition weight (c : option Z) : Z :=
  match c with
  | None => 0
  | Some c =>
      if is_ascii_digit c then 0
      else if is_ascii_alphabetic c then c
      else if c =? dpkg_tilde then -1
      else c + 256
  end.

(** The [digit] closure. *)
Definition starts_digit (s : list Z) : bool :=
  match s with c :: _ => is_ascii_digit c | [] => false end.

(** [!s.is_empty() && !digit(s)]. *)
Definition starts_nondigit (s : list Z) : bool :=
  match s with c :: _ => negb (is_ascii_digit c) | [] => false end.

(** The first inner loop: the weights of the non-digit prefixes, in step.  [inl] is an early
    return, [inr] what is left of both sides. *)
Fixpoint nondigit_loop (fuel : nat) (a b : list Z) : option (comparison + list Z * list Z) :=
  match fuel with
  | O => None
  | S fuel =>
      if starts_nondigit a || starts_nondigit b then
        let wa := weight (head a) in
        let wb := weight (head b) in
        if wa =? wb then nondigit_loop fuel (tail a) (tail b)
        else Some (inl (Z.compare wa wb))
      else Some (inr (a, b))
  end.

(** The second inner loop: digits in step, remembering the first difference. *)
Fixpoint digit_loop (a b : list Z) (first_difference : comparison)
    : comparison * list Z * list Z :=
  match a, b with
  | c :: a', d :: b' =>
      if is_ascii_digit c && is_ascii_digit d then
        digit_loop a' b' (match first_difference with Eq => Z.compare c d | fd => fd end)
      else (first_difference, a, b)
  | _, _ => (first_difference, a, b)
  end.

Fixpoint verrev_loop (fuel : nat) (a b : list Z) : option comparison :=
  match fuel with
  | O => None
  | S fuel =>
      match a, b with
      | [], [] => Some Eq
      | _, _ =>
          match nondigit_loop (S (length a + length b)) a b with
          | None => None
          | Some (inl c) => Some c
          | Some (inr (a, b)) =>
              let a := trim_zeros a in
              let b := trim_zeros b in
              let '(first_difference, a, b) := digit_loop a b Eq in
              if starts_digit a then Some Gt
              else if starts_digit b then Some Lt
              else match first_difference with
                   | Eq => verrev_loop fuel a b
                   | fd => Some fd
                   end
          end
      end
  end.

Definition verrevcmp (a b : string) : comparison :=
  match verrev_loop (S (String.length a + String.length b)) (bytes a) (bytes b) with
  | Some c => c
  | None => Eq
  end.

(** [[epoch:]upstream[-revision]]; the epoch saturates at [u64::MAX]. *)
Definition split (version : string) : Z * string * string :=
  let '(epoch, rest) :=
    match split_once ":" version with
    | Some (epoch, rest) =>
        if negb (is_empty epoch) && all_digits epoch
        then (default u64_max (parse_uint u64_max epoch), rest)
        else (0, version)
    | None => (0, version)
    end in
  match rsplit_once "-" rest with
  | Some (upstream, revision) => (epoch, upstream, revision)
  | None => (epoch, rest, EmptyString)
  end.

Definition compare (a b : string) : comparison :=
  let '(ea, ua, ra) := split a in
  let '(eb, ub, rb) := split b in
  Z.compare ea eb <then> verrevcmp ua ub <then> verrevcmp ra rb.

(** ** The abstract order *)

(** [acc] is the number of the digit run being read, if one is. *)
Fixpoint dpkg_key_from (acc : option Z) (s : list Z) : list Z :=
  match s, acc with
  | [], None => []
  | [], Some n => [n]
  | c :: s, None =>
      if is_ascii_digit c then 0 :: dpkg_key_from (Some (c - 48)) s
      else weight (Some c) :: dpkg_key_from None s
  | c :: s, Some n =>
      if is_ascii_digit c then dpkg_key_from (Some (n * 10 + (c - 48))) s
      else n :: weight (Some c) :: dpkg_key_from None s
  end.

Definition dpkg_key (s : list Z) : list Z := dpkg_key_from None s.

(** [l] read as if it went on with zeros, up to length [n]. *)
Definition pad (n : nat) (l : list Z) : list Z := l ++ replicate (n - length l) 0.

Definition padded_cmp (l1 l2 : list Z) : comparison :=
  let n := Nat.max (length l1) (length l2) in
  list_cmp Z.compare (pad n l1) (pad n l2).

Definition part_cmp (a b : string) : comparison :=
  padded_cmp (dpkg_key (bytes a)) (dpkg_key (bytes b)).

(** ** Padded lists *)

Lemma list_cmp_suffix (l1 l2 s : list Z) :
  length l1 = length l2 ->
  list_cmp Z.compare (l1 ++ s) (l2 ++ s) = list_cmp Z.compare l1 l2.
Proof.
  revert l2. induction l1 as [|x l1 IH]; intros [|y l2] Hl; simpl in *; try done.
  - by rewrite (cmp_refl (list_cmp Z.compare)).
  - by rewrite IH by lia.
Qed.

Lemma length_pad n l : (length l <= n)%nat -> length (pad n l) = n.
Proof. intros. unfold pad. rewrite length_app, length_replicate. lia. Qed.

Lemma pad_more n m l : (length l <= n)%nat -> pad (n + m) l = pad n l ++ replicate m 0.
Proof.
  intros. unfold pad. rewrite <- (assoc_L (++)), <- replicate_add. f_equal. f_equal. lia.
Qed.

(** Any common length that holds both lists gives the same answer. *)
Lemma padded_cmp_at n l1 l2 :
  (length l1 <= n)%nat -> (length l2 <= n)%nat ->
  padded_cmp l1 l2 = list_cmp Z.compare (pad n l1) (pad n l2).
Proof.
  intros H1 H2. unfold padded_cmp. set (m := Nat.max (length l1) (length l2)).
  replace n with (m + (n - m))%nat by lia. rewrite !pad_more by lia.
  symmetry. apply list_cmp_suffix. rewrite !length_pad; lia.
Qed.

#[export] Instance padded_cmp_preorder : CmpPreorder padded_cmp.
Proof.
  split.
  - intros x y. set (n := Nat.max (length x) (length y)).
    rewrite (padded_cmp_at n x y), (padded_cmp_at n y x) by lia.
    apply (cmp_antisym (list_cmp Z.compare)).
  - intros x y z. set (n := Nat.max (length x) (Nat.max (length y) (length z))).
    rewrite (padded_cmp_at n x y), (padded_cmp_at n y z), (padded_cmp_at n x z) by lia.
    apply (cmp_le_trans (list_cmp Z.compare)).
Qed.

Lemma padded_cmp_cons x y l1 l2 :
  padded_cmp (x :: l1) (y :: l2) = (Z.compare x y <then> padded_cmp l1 l2).
Proof. done. Qed.

(** An ended list goes on with zeros. *)
Lemma padded_cmp_zero_l l1 l2 : padded_cmp (l1 ++ [0]) l2 = padded_cmp l1 l2.
Proof.
  set (n := Nat.max (S (length l1)) (length l2)).
  rewrite (padded_cmp_at n (l1 ++ [0]) l2), (padded_cmp_at n l1 l2)
    by (rewrite ?length_app; simpl; lia).
  f_equal. unfold pad. rewrite length_app, <- (assoc_L (++)). f_equal. simpl.
  replace (n - length l1)%nat with (S (n - (length l1 + 1))) by lia. done.
Qed.

Lemma padded_cmp_zero_r l1 l2 : padded_cmp l1 (l2 ++ [0]) = padded_cmp l1 l2.
Proof.
  rewrite (cmp_antisym padded_cmp (l2 ++ [0]) l1), padded_cmp_zero_l.
  symmetry. apply (cmp_antisym padded_cmp).
Qed.

(** ** Keys of text *)

Definition no_digit_head (s : list Z) : Prop :=
  match s with c :: _ => is_ascii_digit c = false | [] => True end.

Lemma dpkg_key_run_from n x r :
  digits x -> no_digit_head r ->
  dpkg_key_from (Some n) (x ++ r)
  = fold_left (fun acc c => acc * 10 + (c - 48)) x n :: dpkg_key r.
Proof.
  intros Hx Hr. revert n. induction Hx as [|c x Hc Hx IH]; intros n; simpl.
  - destruct r as [|c r]; [done|]. simpl in Hr. simpl. unfold dpkg_key; simpl. by rewrite Hr.
  - by rewrite Hc, IH.
Qed.

Lemma dpkg_key_run x r :
  x <> [] -> digits x -> no_digit_head r ->
  dpkg_key (x ++ r) = 0 :: digits_value x :: dpkg_key r.
Proof.
  intros Hne Hx Hr. destruct Hx as [|c x Hc Hx]; [done|].
  unfold dpkg_key at 1. simpl. by rewrite Hc, dpkg_key_run_from.
Qed.

(** Text that is empty or starts with a digit: a zero, the number of its digit run, the rest. *)
Lemma dpkg_key_digits a x r l :
  span is_ascii_digit a = (x, r) -> starts_nondigit a = false ->
  padded_cmp (dpkg_key a) l = padded_cmp (0 :: digits_value x :: dpkg_key r) l.
Proof.
  intros E Ha. pose proof (span_spec _ _ _ _ E) as (Eq & Hx & Hr).
  destruct x as [|c x].
  - simpl in Eq. subst r. destruct a as [|c a].
    + change (padded_cmp [] l = padded_cmp [0; 0] l).
      by rewrite <- (padded_cmp_zero_l [] l), <- (padded_cmp_zero_l ([] ++ [0]) l).
    + simpl in Ha, Hr. by rewrite Hr in Ha.
  - rewrite Eq, dpkg_key_run by done. done.
Qed.

(** The weight of the first character comes first. *)
Lemma dpkg_key_head a l :
  exists t, padded_cmp (dpkg_key a) l = padded_cmp (weight (head a) :: t) l.
Proof.
  destruct a as [|c a].
  - exists []. change (padded_cmp [] l = padded_cmp [0] l). by rewrite <- (padded_cmp_zero_l [] l).
  - unfold dpkg_key; simpl. destruct (is_ascii_digit c); eauto.
Qed.

Lemma dpkg_key_nondigit a :
  starts_nondigit a = true -> dpkg_key a = weight (head a) :: dpkg_key (tail a).
Proof.
  destruct a as [|c a]; simpl; [done|]. intros H%negb_true_iff.
  unfold dpkg_key; simpl. by rewrite H.
Qed.

Lemma padded_cmp_weights a b :
  weight (head a) <> weight (head b) ->
  padded_cmp (dpkg_key a) (dpkg_key b) = Z.compare (weight (head a)) (weight (head b)).
Proof.
  intros Hne. destruct (dpkg_key_head a (dpkg_key b)) as [t ->].
  rewrite (cmp_antisym padded_cmp (dpkg_key b)).
  destruct (dpkg_key_head b (weight (head a) :: t)) as [u ->].
  rewrite <- (cmp_antisym padded_cmp), padded_cmp_cons.
  destruct (Z.compare_spec (weight (head a)) (weight (head b))); done.
Qed.

(** Only a character that is no digit has a weight other than zero. *)
Definition is_bytes (s : list Z) : Prop := Forall (fun c => 0 <= c < 256) s.

Lemma is_bytes_tail s : is_bytes s -> is_bytes (tail s).
Proof. destruct 1; simpl; [constructor|done]. Qed.

Lemma weight_nondigit a : is_bytes a -> starts_nondigit a = true -> weight (head a) <> 0.
Proof.
  destruct 1 as [|c a Hc _]; simpl; [done|]. intros H%negb_true_iff. rewrite H.
  unfold is_ascii_alphabetic, is_ascii_lowercase, is_ascii_uppercase, dpkg_tilde.
  repeat case_match; lia.
Qed.

Lemma weight_digit a : starts_nondigit a = false -> weight (head a) = 0.
Proof. destruct a as [|c a]; simpl; [done|]. intros H%negb_false_iff. by rewrite H. Qed.

(** ** The loops *)

Definition nondigit_ok (a b : list Z) (r : comparison + list Z * list Z) : Prop :=
  match r with
  | inl c => padded_cmp (dpkg_key a) (dpkg_key b) = c
  | inr (a', b') =>
      padded_cmp (dpkg_key a) (dpkg_key b) = padded_cmp (dpkg_key a') (dpkg_key b')
      /\ starts_nondigit a' = false /\ starts_nondigit b' = false
      /\ is_bytes a' /\ is_bytes b'
      /\ (length a' <= length a)%nat /\ (length b' <= length b)%nat
      /\ (starts_nondigit a || starts_nondigit b = true ->
          length a' < length a /\ length b' < length b)%nat
  end.

Lemma nondigit_loop_ok fuel a b :
  is_bytes a -> is_bytes b -> (length a + length b < fuel)%nat ->
  exists r, nondigit_loop fuel a b = Some r /\ nondigit_ok a b r.
Proof.
  revert a b. induction fuel as [|fuel IH]; intros a b Ha Hb Hf; [lia|]. simpl.
  destruct (starts_nondigit a || starts_nondigit b) eqn:E.
  2:{ apply orb_false_elim in E as [? ?]. eexists. split; [done|]. simpl.
      split_and!; try done. by destruct (starts_nondigit a), (starts_nondigit b). }
  destruct (Z.eqb_spec (weight (head a)) (weight (head b))) as [Ew|Ew].
  2:{ eexists. split; [done|]. by apply padded_cmp_weights. }
  assert (starts_nondigit a = true /\ starts_nondigit b = true) as [Sa Sb].
  { destruct (starts_nondigit a) eqn:Sa, (starts_nondigit b) eqn:Sb; try done; exfalso.
    - apply (weight_nondigit a Ha Sa). rewrite Ew. by apply weight_digit.
    - apply (weight_nondigit b Hb Sb). rewrite <- Ew. by apply weight_digit. }
  assert (length a = S (length (tail a)) /\ length b = S (length (tail b))) as [La Lb].
  { destruct a, b; simpl in *; try done. }
  destruct (IH (tail a) (tail b)) as (r & -> & Hr);
    [by apply is_bytes_tail|by apply is_bytes_tail|lia|].
  exists r. split; [done|]. unfold nondigit_ok in *.
  assert (padded_cmp (dpkg_key a) (dpkg_key b)
    = padded_cmp (dpkg_key (tail a)) (dpkg_key (tail b))) as ->.
  { rewrite (dpkg_key_nondigit a Sa), (dpkg_key_nondigit b Sb), padded_cmp_cons, Ew.
    by rewrite (cmp_refl Z.compare). }
  destruct r as [c|[a' b']]; [done|].
  destruct Hr as (-> & ? & ? & ? & ? & ? & ? & _). split_and!; try done; lia.
Qed.

(** Digits in step: equal lengths leave the rests and the first difference, otherwise the longer
    side is left at a digit. *)
Lemma digit_loop_eq X Y ra rb fd :
  digits X -> digits Y -> no_digit_head ra -> no_digit_head rb -> length X = length Y ->
  digit_loop (X ++ ra) (Y ++ rb) fd = (fd <then> list_cmp Z.compare X Y, ra, rb).
Proof.
  intros HX HY Hra Hrb. revert Y fd HY. induction HX as [|c X Hc HX IH]; intros [|d Y] fd HY Hl; try done.
  - simpl. destruct ra as [|c ra]; simpl.
    + by destruct fd.
    + simpl in Hra. destruct rb; [by destruct fd|]. rewrite Hra. by destruct fd.
  - apply Forall_cons in HY as [Hd HY]. simpl. rewrite Hc, Hd. simpl. injection Hl as Hl.
    rewrite (IH Y _ HY Hl). by destruct fd, (c ?= d).
Qed.

Lemma digit_loop_shorter X Y ra rb fd :
  digits X -> digits Y -> no_digit_head ra -> (length X < length Y)%nat ->
  exists fd' y Y', digit_loop (X ++ ra) (Y ++ rb) fd = (fd', ra, y :: Y' ++ rb)
    /\ is_ascii_digit y = true.
Proof.
  intros HX HY Hra. revert Y fd HY. induction HX as [|c X Hc HX IH]; intros [|d Y] fd HY Hl; simpl in Hl; try lia.
  - apply Forall_cons in HY as [Hd HY]. exists fd, d, Y. split; [|done].
    destruct ra as [|c ra]; [done|]. simpl in Hra. simpl. by rewrite Hra.
  - apply Forall_cons in HY as [Hd HY]. simpl. rewrite Hc, Hd. simpl. apply IH; [done|lia].
Qed.

Lemma digit_loop_longer X Y ra rb fd :
  digits X -> digits Y -> no_digit_head rb -> (length Y < length X)%nat ->
  exists fd' x X', digit_loop (X ++ ra) (Y ++ rb) fd = (fd', x :: X' ++ ra, rb)
    /\ is_ascii_digit x = true.
Proof.
  intros HX HY Hrb. revert X fd HX. induction HY as [|d Y Hd HY IH]; intros [|c X] fd HX Hl; simpl in Hl; try lia.
  - apply Forall_cons in HX as [Hc HX]. exists fd, c, X. split; [|done].
    destruct rb as [|d rb]; [done|]. simpl in Hrb. simpl. by rewrite Hrb, andb_false_r.
  - apply Forall_cons in HX as [Hc HX]. simpl. rewrite Hc, Hd. simpl. apply IH; [done|lia].
Qed.

Lemma trim_zeros_app x r :
  no_digit_head r -> trim_zeros (x ++ r) = trim_zeros x ++ r.
Proof.
  intros Hr. unfold trim_zeros. induction x as [|c x IH]; simpl.
  - destruct r as [|c r]; [done|]. simpl in *. unfold is_ascii_digit, zero_digit in *.
    destruct (Z.eqb_spec c 48); [lia|done].
  - by destruct (c =? zero_digit).
Qed.

(** What follows the digit loop: an early return, or what is left. *)
Definition after_digits (a b : list Z) (fd : comparison) : comparison + list Z * list Z :=
  if starts_digit a then inl Gt
  else if starts_digit b then inl Lt
  else match fd with Eq => inr (a, b) | fd => inl fd end.

Lemma digit_part_ok x y ra rb :
  digits x -> digits y -> no_digit_head ra -> no_digit_head rb ->
  let '(fd, a, b) := digit_loop (trim_zeros (x ++ ra)) (trim_zeros (y ++ rb)) Eq in
  after_digits a b fd
  = match Z.compare (digits_value x) (digits_value y) with
    | Eq => inr (ra, rb) | c => inl c end.
Proof.
  intros Hx Hy Hra Hrb. rewrite !trim_zeros_app by done.
  rewrite <- (trim_zeros_value x), <- (trim_zeros_value y).
  pose proof (skip_while_head (fun c => c =? zero_digit) x) as Zx. fold (trim_zeros x) in Zx.
  pose proof (skip_while_head (fun c => c =? zero_digit) y) as Zy. fold (trim_zeros y) in Zy.
  apply trim_zeros_digits in Hx, Hy. unfold after_digits.
  assert (forall r, no_digit_head r -> starts_digit r = false) as Hnd by (by intros []).
  destruct (Nat.lt_trichotomy (length (trim_zeros x)) (length (trim_zeros y))) as [Hl|[Hl|Hl]].
  - destruct (digit_loop_shorter (trim_zeros x) (trim_zeros y) ra rb Eq) as (fd & d & Y & -> & Hd); try done.
    rewrite (Hnd ra Hra). simpl. rewrite Hd.
    apply (digits_value_longer (trim_zeros x) (trim_zeros y)) in Hl; [|done..].
    by rewrite (proj2 (Z.compare_lt_iff _ _) Hl).
  - rewrite digit_loop_eq by done. rewrite (Hnd ra Hra), (Hnd rb Hrb). simpl.
    rewrite digits_value_lex by done. by destruct (Z.compare _ _).
  - destruct (digit_loop_longer (trim_zeros x) (trim_zeros y) ra rb Eq) as (fd & d & X & -> & Hd); try done.
    simpl. rewrite Hd.
    apply (digits_value_longer (trim_zeros y) (trim_zeros x)) in Hl; [|done..].
    by rewrite (proj2 (Z.compare_gt_iff _ _) Hl).
Qed.

(** The digit part of one turn of the outer loop. *)
Lemma verrev_digits_turn a b :
  starts_nondigit a = false -> starts_nondigit b = false -> is_bytes a -> is_bytes b ->
  exists n m ra rb,
    (let '(fd, a', b') := digit_loop (trim_zeros a) (trim_zeros b) Eq in after_digits a' b' fd)
    = match Z.compare n m with Eq => inr (ra, rb) | c => inl c end
    /\ padded_cmp (dpkg_key a) (dpkg_key b)
       = (Z.compare n m <then> padded_cmp (dpkg_key ra) (dpkg_key rb))
    /\ is_bytes ra /\ is_bytes rb
    /\ (length ra <= length a)%nat /\ (length rb <= length b)%nat
    /\ (a <> [] -> length ra < length a)%nat /\ (b <> [] -> length rb < length b)%nat.
Proof.
  intros Sa Sb Ba Bb.
  destruct (span is_ascii_digit a) as [x ra] eqn:Ea. destruct (span is_ascii_digit b) as [y rb] eqn:Eb.
  pose proof (dpkg_key_digits a x ra (dpkg_key b) Ea Sa) as Ka.
  pose proof (dpkg_key_digits b y rb (0 :: digits_value x :: dpkg_key ra) Eb Sb) as Kb.
  apply span_spec in Ea as (-> & Hx & Hra), Eb as (-> & Hy & Hrb).
  exists (digits_value x), (digits_value y), ra, rb.
  pose proof (digit_part_ok x y ra rb Hx Hy Hra Hrb) as Hd.
  apply Forall_app in Ba as [_ Ba], Bb as [_ Bb]. rewrite !length_app. split_and!; try done; try lia.
  - by destruct (digit_loop _ _ _) as [[??]?].
  - rewrite Ka, (cmp_antisym padded_cmp (dpkg_key (y ++ rb))), Kb, <- (cmp_antisym padded_cmp).
    done.
  - destruct x; simpl in *; [|lia]. destruct ra; [done|]. simpl in *. by rewrite Hra in Sa.
  - destruct y; simpl in *; [|lia]. destruct rb; [done|]. simpl in *. by rewrite Hrb in Sb.
Qed.

Lemma verrev_loop_spec fuel a b :
  is_bytes a -> is_bytes b -> (length a + length b < fuel)%nat ->
  verrev_loop fuel a b = Some (padded_cmp (dpkg_key a) (dpkg_key b)).
Proof.
  revert a b. induction fuel as [|fuel IH]; intros a b Ha Hb Hf; [lia|].
  destruct (nondigit_loop_ok (S (length a + length b)) a b Ha Hb) as (r & Er & Hr); [lia|].
  assert (Hturn : a = [] /\ b = [] \/ (a <> [] \/ b <> []) /\ verrev_loop (S fuel) a b =
    match r with
    | inl c => Some c
    | inr (a, b) =>
        match (let '(fd, a', b') := digit_loop (trim_zeros a) (trim_zeros b) Eq in after_digits a' b' fd) with
        | inl c => Some c
        | inr (a, b) => verrev_loop fuel a b
        end
    end).
  { destruct a, b; [by left|right..]; (split; [by auto|]);
      cbn [verrev_loop]; rewrite Er; (destruct r as [|[a' b']]; [done|]); cbv zeta;
      destruct (digit_loop _ _ _) as [[fd a''] b'']; unfold after_digits;
      destruct (starts_digit a''), (starts_digit b''); try done; by destruct fd. }
  destruct Hturn as [[-> ->]|[Hne ->]]; [done|].
  destruct r as [c|[a' b']]; simpl in Hr; [by rewrite Hr|].
  destruct Hr as (-> & Sa & Sb & Ba & Bb & La & Lb & Hlt).
  destruct (verrev_digits_turn a' b' Sa Sb Ba Bb) as (n & m & ra & rb & -> & -> & Ra & Rb & Lra & Lrb & Na & Nb).
  destruct (Z.compare n m); simpl; try done. apply IH; try done.
  destruct (starts_nondigit a || starts_nondigit b) eqn:E.
  - specialize (Hlt eq_refl). lia.
  - apply orb_false_elim in E as [Ea Eb].
    cut (a' = a /\ b' = b); [intros [-> ->]; destruct Hne as [Hne|Hne]; [specialize (Na Hne)|specialize (Nb Hne)]; lia|].
    simpl in Er. rewrite Ea, Eb in Er. simpl in Er. by simplify_eq.
Qed.

Lemma verrevcmp_part_cmp a b : verrevcmp a b = part_cmp a b.
Proof.
  unfold verrevcmp, part_cmp. rewrite verrev_loop_spec; [done|apply bytes_bounds..|].
  rewrite !bytes_length. lia.
Qed.

#[global] Instance verrevcmp_preorder : CmpPreorder verrevcmp.
Proof.
  assert (CmpPreorder part_cmp) as H.
  { change part_cmp with (cmp_on (fun s => dpkg_key (bytes s)) padded_cmp). apply _. }
  split; intros *; rewrite !verrevcmp_part_cmp; [apply (cmp_antisym part_cmp)|apply (cmp_le_trans part_cmp)].
Qed.

#[global] Instance compare_preorder : CmpPreorder compare.
Proof.
  assert (CmpPreorder (cmp_then (cmp_on (fun v => (split v).1.1) Z.compare)
    (cmp_then (cmp_on (fun v => (split v).1.2) verrevcmp)
       (cmp_on (fun v => (split v).2) verrevcmp)))) as H by apply _.
  assert (forall a b, compare a b = cmp_then (cmp_on (fun v => (split v).1.1) Z.compare)
    (cmp_then (cmp_on (fun v => (split v).1.2) verrevcmp)
       (cmp_on (fun v => (split v).2) verrevcmp)) a b) as E.
  { intros a b. unfold compare, cmp_then, cmp_on. by destruct (split a) as [[??]?], (split b) as [[??]?]. }
  split; intros *; rewrite !E; [apply (cmp_antisym _)|apply (cmp_le_trans _)].
Qed.

(** dpkg's own examples of the order, and a version without a revision. *)
Example dpkg_vectors :
  map (fun '(a, b) => compare a b)
    [("1.0~rc1", "1.0"); ("1:1.0", "2.0"); ("1.0-1", "1.0-2"); ("1.0", "1.0-0");
     ("1.10", "1.9"); ("1.0+b1", "1.0"); ("1.0a", "1.0+"); ("0:1.0", "1.0"); ("1.001", "1.1")]
  = [Lt; Gt; Lt; Eq; Gt; Gt; Lt; Eq; Eq].
Proof. vm_compute. reflexivity. Qed.

(** ** Properties *)

(** C39: [verrevcmp]'s nested loops terminate and compare exactly the weight sequences: every
    non-digit character by its weight ([~] first, then the end and digits, then letters, then
    other symbols), every digit run by its number, and an ended version as if zeros followed. *)
Theorem verrevcmp_refines_weights (a b : string) :
  verrev_loop (S (String.length a + String.length b)) (bytes a) (bytes b) = Some (part_cmp a b)
  /\ verrevcmp a b = part_cmp a b.
Proof.
  split; [|apply verrevcmp_part_cmp].
  apply verrev_loop_spec; try apply bytes_bounds. rewrite !bytes_length. lia.
Qed.

(** The order of full Debian versions is a total preorder: antisymmetric up to reversal,
    reflexive and transitive over epoch, upstream version and revision. *)
Theorem dpkg_compare_total_preorder :
  (forall a b, compare b a = CompOpp (compare a b))
  /\ (forall a, compare a a = Eq)
  /\ (forall a b c, compare a b <> Gt -> compare b c <> Gt -> compare a c <> Gt)
  /\ (forall a b c, compare a b = Lt -> compare b c = Lt -> compare a c = Lt).
Proof.
  split_and!.
  - apply (cmp_antisym compare).
  - apply (cmp_refl compare).
  - apply (cmp_le_trans compare).
  - apply (cmp_lt_trans compare).
Qed.
