(* ===== verification/BTree.v ===== *)
(** * Ordered maps ([std::collections::BTreeMap] and [BTreeSet])

    A map is the association list of its entries in ascending key order, which is also the order
    the source iterates in.  [bt_alter] is the entry API ([entry(k).or_insert(v)] followed by an
    update), of which [bt_insert] is the special case [insert]. *)
From S2P Require Import Prelude.
From stdpp Require Import prelude list.
From Stdlib Require Import Sorting.Sorted.

Section btree.
Context {K V : Type} (cmp : K -> K -> comparison).

Fixpoint bt_get (k : K) (m : list (K * V)) : option V :=
  match m with
  | [] => None
  | (k', v) :: m => match cmp k k' with Eq => Some v | _ => bt_get k m end
  end.

Fixpoint bt_alter (k : K) (f : option V -> V) (m : list (K * V)) : list (K * V) :=
  match m with
  | [] => [(k, f None)]
  | (k', v) :: m' =>
      match cmp k k' with
      | Lt => (k, f None) :: m
      | Eq => (k', f (Some v)) :: m'
      | Gt => (k', v) :: bt_alter k f m'
      end
  end.

Definition bt_insert (k : K) (v : V) : list (K * V) -> list (K * V) := bt_alter k (fun _ => v).

Definition bt_contains (k : K) (m : list (K * V)) : bool :=
  match bt_get k m with Some _ => true | None => false end.

(** Ascending keys, without repeats. *)
Definition bt_sorted : list (K * V) -> Prop := StronglySorted (fun x y => cmp x.1 y.1 = Lt).

Context `{Hc : !CmpOrder cmp}.

Lemma bt_get_below k m :
  Forall (fun e => cmp k e.1 = Lt) m -> bt_get k m = None.
Proof using Type.
  induction 1 as [|[k' v] m Hk _ IH]; simpl in *; [done|]. by rewrite Hk.
Qed.

Lemma bt_alter_Forall P k f m :
  Forall (fun e => P e.1) m -> P k -> Forall (fun e => P e.1) (bt_alter k f m).
Proof using Type.
  intros Hm Hk. induction Hm as [|[k' v] m Hk' Hm IH]; simpl; [by constructor|].
  case_match; constructor; auto.
Qed.

Lemma bt_alter_sorted k f m : bt_sorted m -> bt_sorted (bt_alter k f m).
Proof using Hc.
  unfold bt_sorted. induction 1 as [|[k' v] m Hm IH Hall]; simpl.
  - by repeat constructor.
  - destruct (cmp k k') eqn:E.
    + by constructor.
    + constructor; [by constructor|]. constructor; [done|].
      eapply Forall_impl; [done|]. simpl. intros e. by apply (cmp_lt_trans cmp).
    + constructor; [done|]. apply (bt_alter_Forall (fun x => cmp k' x = Lt)); [done|].
      by apply (cmp_gt_lt cmp).
Qed.

Lemma bt_get_alter_eq k f m : bt_sorted m -> bt_get k (bt_alter k f m) = Some (f (bt_get k m)).
Proof using Hc.
  unfold bt_sorted. induction 1 as [|[k' v] m Hm IH Hall]; simpl.
  - by rewrite (cmp_refl cmp).
  - destruct (cmp k k') eqn:E; simpl; rewrite ?E, ?(cmp_refl cmp); try done.
    do 2 f_equal. symmetry. apply bt_get_below. eapply Forall_impl; [done|]. simpl.
    intros e. by apply (cmp_lt_trans cmp).
Qed.

Lemma bt_get_alter_ne k k' f m : cmp k k' <> Eq -> bt_get k (bt_alter k' f m) = bt_get k m.
Proof using Hc.
  intros Hne. induction m as [|[k'' v] m IH]; simpl.
  - by destruct (cmp k k').
  - destruct (cmp k' k'') eqn:E; simpl.
    + apply (cmp_eq cmp) in E as ->. by destruct (cmp k k'').
    + by destruct (cmp k k').
    + by rewrite IH.
Qed.

Lemma bt_get_In k v m : bt_get k m = Some v -> In (k, v) m.
Proof using Hc.
  induction m as [|[k' v'] m IH]; simpl; [done|].
  destruct (cmp k k') eqn:E; [|by eauto..]. apply (cmp_eq cmp) in E as ->. intros [= ->]. auto.
Qed.

Lemma bt_In_get k v m : bt_sorted m -> In (k, v) m -> bt_get k m = Some v.
Proof using Hc.
  unfold bt_sorted. induction 1 as [|[k' v'] m Hm IH Hall]; simpl; [done|].
  intros [[= -> ->]|Hin].
  - by rewrite (cmp_refl cmp).
  - rewrite Forall_forall in Hall. specialize (Hall (k, v)).
    rewrite list_elem_of_In in Hall. specialize (Hall Hin). simpl in Hall.
    apply (cmp_gt_lt cmp) in Hall. rewrite Hall. auto.
Qed.

Lemma bt_keys_NoDup m : bt_sorted m -> NoDup m.*1.
Proof using Hc.
  unfold bt_sorted. induction 1 as [|[k v] m Hm IH Hall]; simpl; [constructor|].
  constructor; [|done]. rewrite list_elem_of_fmap. intros ([k' v'] & E & Hin). simpl in E. subst k'.
  rewrite Forall_forall in Hall. specialize (Hall _ Hin). simpl in Hall.
  by rewrite (cmp_refl cmp) in Hall.
Qed.

(** Building a map with [bt_alter] from a list keeps exactly what the updates of a key produce. *)
Lemma bt_fold_sorted {A} (key : A -> K) (upd : A -> option V -> V) l m :
  bt_sorted m -> bt_sorted (fold_left (fun m a => bt_alter (key a) (upd a) m) l m).
Proof using Hc. revert m. induction l; simpl; auto using bt_alter_sorted. Qed.

Lemma bt_fold_get {A} (key : A -> K) (upd : A -> option V -> V) k l m :
  bt_sorted m ->
  bt_get k (fold_left (fun m a => bt_alter (key a) (upd a) m) l m)
  = fold_left (fun o a => match cmp k (key a) with Eq => Some (upd a o) | _ => o end) l (bt_get k m).
Proof using Hc.
  revert m. induction l as [|a l IH]; intros m Hm; simpl; [done|].
  rewrite IH by by apply bt_alter_sorted. f_equal.
  destruct (cmp k (key a)) eqn:E.
  - apply (cmp_eq cmp) in E as ->. by apply bt_get_alter_eq.
  - apply bt_get_alter_ne. congruence.
  - apply bt_get_alter_ne. congruence.
Qed.

(** Maps with the same lookups are the same map. *)
Lemma bt_ext m1 m2 :
  bt_sorted m1 -> bt_sorted m2 -> (forall k, bt_get k m1 = bt_get k m2) -> m1 = m2.
Proof using Hc.
  unfold bt_sorted. intros H1. revert m2.
  induction H1 as [|[k1 v1] m1 Hs1 IH Hall1]; intros m2 H2 E; destruct H2 as [|[k2 v2] m2 Hs2 Hall2].
  - done.
  - specialize (E k2). simpl in E. by rewrite (cmp_refl cmp) in E.
  - specialize (E k1). simpl in E. by rewrite (cmp_refl cmp) in E.
  - assert (forall k m, Forall (fun e : K * V => cmp k e.1 = Lt) m -> bt_get k m = None)
      as Hb by (intros; by apply bt_get_below).
    assert (forall k k' (m : list (K * V)), cmp k k' = Lt ->
      Forall (fun e => cmp k' e.1 = Lt) m -> Forall (fun e => cmp k e.1 = Lt) m) as Ht.
    { intros k k' m Hk Hm. eapply Forall_impl; [done|]. simpl. intros e. by apply (cmp_lt_trans cmp). }
    pose proof (E k1) as E1. pose proof (E k2) as E2. simpl in E1, E2.
    rewrite (cmp_refl cmp) in E1, E2. destruct (cmp k1 k2) eqn:C.
    + apply (cmp_eq cmp) in C as <-. rewrite (cmp_refl cmp) in E2. injection E1 as <-. f_equal.
      apply IH; [done|]. intros k. specialize (E k). simpl in E. destruct (cmp k k1) eqn:Ck; [|done..].
      apply (cmp_eq cmp) in Ck as ->. by rewrite !Hb.
    + by rewrite Hb in E1 by eauto.
    + apply (cmp_gt_lt cmp) in C. rewrite C in E2. by rewrite Hb in E2 by eauto.
Qed.

Lemma bt_filter_sorted p m : bt_sorted m -> bt_sorted (List.filter p m).
Proof using Type.
  unfold bt_sorted. induction 1 as [|e m Hm IH Hall]; simpl; [constructor|].
  destruct (p e); [|done]. constructor; [done|].
  rewrite Forall_forall in Hall |- *. intros x Hx. apply Hall.
  apply list_elem_of_In in Hx. apply filter_In in Hx as [Hx _]. by apply list_elem_of_In.
Qed.

(** Keeping the entries whose key satisfies [p]. *)
Lemma bt_filter_get (p : K -> bool) k m :
  bt_get k (List.filter (fun e => p e.1) m) = if p k then bt_get k m else None.
Proof using Hc.
  induction m as [|[k' v] m IH]; simpl; [by destruct (p k)|].
  destruct (p k') eqn:E; simpl; destruct (cmp k k') eqn:C; rewrite ?IH; try done;
    apply (cmp_eq cmp) in C as ->; by rewrite E.
Qed.

Lemma bt_get_In_NoDup k v m : NoDup m.*1 -> (bt_get k m = Some v <-> In (k, v) m).
Proof using Hc.
  intros Hnd. split; [apply bt_get_In|].
  induction m as [|[k' v'] m IH]; simpl in *; [done|]. apply NoDup_cons in Hnd as [Hn Hnd].
  intros [[= -> ->]|Hin]; [by rewrite (cmp_refl cmp)|].
  destruct (cmp k k') eqn:E; [|by auto..]. apply (cmp_eq cmp) in E as ->.
  destruct Hn. rewrite list_elem_of_fmap. exists (k', v). by rewrite list_elem_of_In.
Qed.

(** Inserting the entries of a list without repeated keys. *)
Lemma bt_get_inserts k l m :
  NoDup l.*1 -> bt_sorted m ->
  bt_get k (fold_left (fun m e => bt_insert e.1 e.2 m) l m)
  = match bt_get k l with Some v => Some v | None => bt_get k m end.
Proof using Hc.
  intros Hnd. revert m. induction l as [|[k' v'] l IH]; intros m Hm; simpl in *; [done|].
  apply NoDup_cons in Hnd as [Hn Hnd]. rewrite IH by (done || by apply bt_alter_sorted).
  unfold bt_insert. destruct (cmp k k') eqn:E.
  - apply (cmp_eq cmp) in E as ->. rewrite bt_get_alter_eq by done.
    destruct (bt_get k' l) as [v|] eqn:El; [|done]. destruct Hn. apply bt_get_In in El.
    rewrite list_elem_of_fmap. exists (k', v). by rewrite list_elem_of_In.
  - by rewrite bt_get_alter_ne by congruence.
  - by rewrite bt_get_alter_ne by congruence.
Qed.

(** A map is rebuilt from its entries, inserted in any order. *)
Lemma bt_rebuild l m :
  l ≡ₚ m -> bt_sorted m -> fold_left (fun m e => bt_insert e.1 e.2 m) l [] = m.
Proof using Hc.
  intros Hp Hm. pose proof (bt_keys_NoDup m Hm) as Hnd.
  assert (Hl : NoDup l.*1) by (by rewrite Hp).
  apply bt_ext; [by apply (bt_fold_sorted fst (fun e _ => snd e)); constructor|done|].
  intros k. rewrite bt_get_inserts by (done || constructor). simpl.
  assert (forall v, bt_get k l = Some v <-> bt_get k m = Some v) as Hv.
  { intros v. rewrite !bt_get_In_NoDup by done. by rewrite <- !list_elem_of_In, Hp. }
  destruct (bt_get k l) as [v|]; [symmetry; by apply Hv|].
  destruct (bt_get k m) as [v|]; [by apply Hv|done].
Qed.

End btree.

(** A set is a map to [unit]; its elements are its keys. *)
Definition bs_insert {K} (cmp : K -> K -> comparison) (k : K) : list (K * unit) -> list (K * unit) :=
  bt_insert cmp k tt.

Definition bs_of_list {K} (cmp : K -> K -> comparison) (l : list K) : list K :=
  (fold_left (fun s k => bs_insert cmp k s) l []).*1.

Lemma bs_of_list_sorted {K} (cmp : K -> K -> comparison) `{!CmpOrder cmp} l :
  NoDup (bs_of_list cmp l).
Proof.
  unfold bs_of_list. apply (bt_keys_NoDup cmp).
  apply (bt_fold_sorted cmp (fun k => k) (fun _ _ => tt)). constructor.
Qed.

Lemma bs_of_list_In {K} (cmp : K -> K -> comparison) `{!CmpOrder cmp} k l :
  In k (bs_of_list cmp l) <-> In k l.
Proof.
  unfold bs_of_list.
  assert (H : forall m, bt_sorted cmp m ->
    (In k (fold_left (fun s k => bs_insert cmp k s) l m).*1 <-> In k l \/ In k m.*1)).
  2:{ rewrite H by constructor. simpl. tauto. }
  induction l as [|a l IH]; intros m Hm; simpl; [tauto|].
  rewrite IH by by apply bt_alter_sorted.
  assert (Hk : forall m' : list (K * unit), bt_sorted cmp m' -> (In k m'.*1 <-> bt_get cmp k m' = Some tt)).
  { intros m' Hs. rewrite <- list_elem_of_In, list_elem_of_fmap. split.
    - intros ([k' []] & -> & Hin%list_elem_of_In). by apply bt_In_get.
    - intros Hg%(bt_get_In cmp)%list_elem_of_In. by exists (k, tt). }
  rewrite (Hk m Hm), (Hk (bs_insert cmp a m)) by by apply bt_alter_sorted.
  unfold bs_insert, bt_insert. destruct (cmp k a) eqn:E.
  - apply (cmp_eq cmp) in E as ->. rewrite bt_get_alter_eq by done. naive_solver.
  - rewrite bt_get_alter_ne by congruence. assert (a <> k) by (intros ->; rewrite (cmp_refl cmp) in E; done). naive_solver.
  - rewrite bt_get_alter_ne by congruence. assert (a <> k) by (intros ->; rewrite (cmp_refl cmp) in E; done). naive_solver.
Qed.

Section set.
Context {K : Type} (cmp : K -> K -> comparison) `{Hc : !CmpOrder cmp}.
Implicit Types m : list (K * unit).

Lemma bs_mem_get k m : bt_sorted cmp m -> (In k m.*1 <-> bt_contains cmp k m = true).
Proof using Hc.
  intros Hs. unfold bt_contains. rewrite <- list_elem_of_In, list_elem_of_fmap. split.
  - intros ([k' []] & -> & Hin%list_elem_of_In). apply (bt_In_get cmp) in Hin; [|done]. simpl. by rewrite Hin.
  - destruct (bt_get cmp k m) as [[]|] eqn:E; [|done]. intros _.
    apply (bt_get_In cmp), list_elem_of_In in E. by exists (k, tt).
Qed.

Lemma bs_insert_sorted k m : bt_sorted cmp m -> bt_sorted cmp (bs_insert cmp k m).
Proof using Hc. apply (bt_alter_sorted cmp). Qed.

Lemma bs_insert_In k k' m : bt_sorted cmp m -> (In k' (bs_insert cmp k m).*1 <-> k' = k \/ In k' m.*1).
Proof using Hc.
  intros Hs. rewrite (bs_mem_get k') by by apply bs_insert_sorted. rewrite (bs_mem_get k') by done.
  unfold bt_contains, bs_insert, bt_insert. destruct (cmp k' k) eqn:E.
  - apply (cmp_eq cmp) in E as ->. rewrite (bt_get_alter_eq cmp) by done. tauto.
  - rewrite (bt_get_alter_ne cmp) by congruence.
    assert (k' <> k) by (intros ->; rewrite (cmp_refl cmp) in E; done). tauto.
  - rewrite (bt_get_alter_ne cmp) by congruence.
    assert (k' <> k) by (intros ->; rewrite (cmp_refl cmp) in E; done). tauto.
Qed.

Lemma bs_insert_length k m :
  bt_sorted cmp m -> bt_contains cmp k m = false -> length (bs_insert cmp k m) = S (length m).
Proof using Hc.
  unfold bt_contains, bs_insert, bt_insert. intros Hs Hn.
  induction m as [|[k' []] m IH]; simpl in *; [done|].
  apply StronglySorted_inv in Hs as [Hs _]. destruct (cmp k k') eqn:E; simpl; [done|done|].
  by rewrite IH.
Qed.
End set.
