(* ===== verification/Json.v ===== *)
(** * JSON values ([serde_json::Value]) as the platform's pure code reads and builds them

    A number is one of serde_json's three kinds; a float is only ever told apart from an integer,
    so it carries no value.  An object is the list of its members in key order. *)
From S2P Require Import Prelude RustStd.
From stdpp Require Import prelude strings.
From Stdlib Require Import ZArith.

Open Scope Z_scope.

Inductive value :=
  | JNull
  | JBool (b : bool)
  | JPosInt (n : Z)
  | JNegInt (n : Z)
  | JFloat
  | JString (s : string)
  | JArray (items : list value)
  | JObject (members : list (string * value)).

#[export] Instance value_eq_dec : EqDecision value.
Proof.
  refine (fix go (x y : value) {struct x} : Decision (x = y) :=
    match x, y with
    | JNull, JNull | JFloat, JFloat => left _
    | JBool a, JBool b => cast_if (decide (a = b))
    | JPosInt a, JPosInt b | JNegInt a, JNegInt b => cast_if (decide (a = b))
    | JString a, JString b => cast_if (decide (a = b))
    | JArray a, JArray b => cast_if (@list_eq_dec value go a b)
    | JObject a, JObject b => cast_if (@list_eq_dec _ (@prod_eq_dec _ _ _ go) a b)
    | _, _ => right _
    end); clear go; abstract congruence.
Defined.

(** [value.get(key)] on an object. *)
Fixpoint member (key : string) (members : list (string * value)) : option value :=
  match members with
  | [] => None
  | (k, v) :: members => if String.eqb k key then Some v else member key members
  end.

Definition as_object (v : value) : option (list (string * value)) :=
  match v with JObject members => Some members | _ => None end.
Definition as_array (v : value) : option (list value) :=
  match v with JArray items => Some items | _ => None end.
Definition as_str (v : value) : option string :=
  match v with JString s => Some s | _ => None end.

(** [as_i64]: a non-negative number only when it fits. *)
Definition as_i64 (v : value) : option Z :=
  match v with
  | JPosInt n => if n <=? i64_max then Some n else None
  | JNegInt n => Some n
  | _ => None
  end.
Definition is_i64 (v : value) : bool :=
  match as_i64 v with Some _ => true | None => false end.

(** [Value::get] of any value: only an object has members. *)
Definition get (v : value) (key : string) : option value :=
  match v with JObject members => member key members | _ => None end.

Definition is_null (v : value) : bool := match v with JNull => true | _ => false end.

(** [Option<String>] as JSON. *)
Definition json_opt_str (o : option string) : value :=
  match o with Some s => JString s | None => JNull end.

(** PostgreSQL's operator [->>]; [json_text] is the text of a value that is neither a string nor null. *)
Definition text_field (json_text : value -> string) (v : value) (key : string) : option string :=
  v ← get v key;
  match v with JString s => Some s | JNull => None | _ => Some (json_text v) end.
