(* ===== verification/Matching.v ===== *)
(** * Matching inventories against advisories (crates/openvibes-vulns/src/matching.rs)

    The pure core: which candidates (an installed package version that a fixed package of an
    advisory could apply to) are vulnerable.  The two version orders are used through the
    [CmpPreorder] interface of [compare].  The stored side and the pipeline are in MatchStore. *)
From S2P Require Import Prelude RustStd BTree Json.
From S2P Require RpmVer DpkgVer.
From stdpp Require Import prelude strings pretty.
From Stdlib Require Import Ascii ZArith Lia Sorting.Sorted.

Open Scope Z_scope.

(** ** Data (platform-store/src/vulns.rs, vulns/candidates.rs) *)

Record Candidate := {
  agent_id : string;
  advisory_id : string;
  name : string;
  fixed_arch : string;
  scheme : string;
  introduced : option string;
  fixed : option string;
  last_affected : option string;
  installed : string;
  version_id : Z;
  running_kernel : option string;
}.

Record Found := {
  f_agent_id : string;
  f_advisory_id : string;
  f_packages : value;
  f_reboot_needed : bool;
}.

Record VersionFound := {
  vf_version_id : Z;
  vf_advisory_id : string;
  vf_package : string;
}.

Record PerVersion := {
  pairs : list (string * string);
  no_fix : list VersionFound;
  evaluated : list Z;
}.

(** ** Versions *)

(** [[E:]V-R] as RPM compares it; the epoch saturates at [u32::MAX]. *)
Definition rpm_parts (full : string) : Z * string * string :=
  let '(epoch, rest) :=
    match split_once ":" full with
    | Some (epoch, rest) =>
        if negb (is_empty epoch) && all_digits epoch
        then (default u32_max (parse_uint u32_max epoch), rest)
        else (0, full)
    | None => (0, full)
    end in
  match rsplit_once "-" rest with
  | Some (version, release) => (epoch, version, release)
  | None => (epoch, rest, EmptyString)
  end.

Definition compare (scheme a b : string) : comparison :=
  if String.eqb scheme "dpkg" then DpkgVer.compare a b
  else RpmVer.compare_evr (rpm_parts a) (rpm_parts b).

Definition is_kernel (name : string) : bool :=
  String.eqb name "kernel" || String.eqb name "kernel-core" || starts_with name "kernel-modules".

Definition ARCHES : list string :=
  ["x86_64"; "aarch64"; "ppc64le"; "s390x"; "i686"; "armv7hl"; "riscv64"].

Definition running_evr (uname : string) : option (Z * string * string) :=
  let uname := hd EmptyString (RustStd.split "+" uname) in
  let uname := match rsplit_once "." uname with
               | Some (rest, arch) => if existsb (String.eqb arch) ARCHES then rest else uname
               | None => uname
               end in
  match split_once "-" uname with
  | Some (version, release) => Some (0, version, release)
  | None => None
  end.

(** ** Ranges *)

Definition in_range (candidate : Candidate) (installed : string) : bool :=
  let order := compare (scheme candidate) in
  let started := match introduced candidate with
                 | None => true
                 | Some from => String.eqb from "0" || is_ge (order installed from)
                 end in
  started
  && match fixed candidate, last_affected candidate with
     | Some fixed, _ => is_lt (order installed fixed)
     | None, Some last => is_le (order installed last)
     | None, None => true
     end.

(** ** Evaluating each distinct version once *)

Definition pair_key_cmp : string * string -> string * string -> comparison :=
  pair_cmp str_cmp str_cmp.
Definition no_fix_cmp : Z * (string * string) -> Z * (string * string) -> comparison :=
  pair_cmp Z.compare pair_key_cmp.


(** The pairs a candidate adds, and the no-fix hit. *)
Definition candidate_pair (c : Candidate) : bool :=
  is_some (fixed c)
  && ((String.eqb (scheme c) "rpm" && is_kernel (name c)) || in_range c (installed c)).
Definition candidate_no_fix (c : Candidate) : bool :=
  negb (is_some (fixed c)) && in_range c (installed c).

Definition per_version (candidates : list Candidate) : PerVersion := {|
  pairs := bs_of_list pair_key_cmp
    (map (fun c => (advisory_id c, name c)) (List.filter candidate_pair candidates));
  no_fix := map (fun '(v, (a, p)) => {| vf_version_id := v; vf_advisory_id := a; vf_package := p |})
    (bs_of_list no_fix_cmp
       (map (fun c => (version_id c, (advisory_id c, name c))) (List.filter candidate_no_fix candidates)));
  evaluated := bs_of_list Z.compare (map version_id candidates);
|}.

(** ** Deciding which candidates are vulnerable *)

(** Host, advisory, package, fixed architecture, introduced version. *)
Definition group_key : Type := string * string * string * string * string.
Definition group_cmp : group_key -> group_key -> comparison :=
  pair_cmp (pair_cmp (pair_cmp (pair_cmp str_cmp str_cmp) str_cmp) str_cmp) str_cmp.

Definition group_of (c : Candidate) : group_key :=
  (agent_id c, advisory_id c, name c, fixed_arch c, default EmptyString (introduced c)).

(** [or_insert(candidate)], then the candidate replaces the slot when it is newer. *)
Definition newer (candidate : Candidate) (slot : option Candidate) : Candidate :=
  let slot := default candidate slot in
  if is_gt (compare (scheme candidate) (installed candidate) (installed slot))
  then candidate else slot.

Definition newest (candidates : list Candidate) : list (group_key * Candidate) :=
  fold_left (fun m c => bt_alter group_cmp (group_of c) (newer c) m)
    (List.filter (fun c => is_some (fixed c)) candidates) [].

(** The running kernel, when it is a kernel package still booted below the fix. *)
Definition running_below (name : string) (c : Candidate) : option string :=
  match fixed c with
  | Some fixed =>
      if is_kernel name && String.eqb (scheme c) "rpm" then
        match running_kernel c with
        | Some uname =>
            match running_evr uname with
            | Some (epoch, version, release) =>
                let running := pretty epoch +:+ ":" +:+ version +:+ "-" +:+ release in
                if is_lt (compare "rpm" running fixed) then Some running else None
            | None => None
            end
        | None => None
        end
      else None
  | None => None
  end.

(** An affected package's JSON entry and whether only a reboot is missing; [None] when the
    group's newest version is not affected ([continue]). *)
Definition affected_entry (name : string) (c : Candidate) : option (value * bool) :=
  let update := in_range c (installed c) in
  let running := running_below name c in
  if negb update && negb (is_some running) then None
  else
    let members := [("fixed", json_opt_str (fixed c)); ("installed", JString (installed c));
                    ("name", JString name)] in
    let members := match running with
                   | Some running => members ++ [("running", JString running)]
                   | None => members
                   end in
    Some (JObject members, negb update).

Definition host_advisory := (string * string)%type.
Definition packages_map := list (string * (value * bool)).

Definition affected_step (affected : list (host_advisory * packages_map))
    (slot : group_key * Candidate) : list (host_advisory * packages_map) :=
  let '((agent, advisory, name, _, _), c) := slot in
  match affected_entry name c with
  | None => affected
  | Some entry =>
      bt_alter pair_key_cmp (agent, advisory)
        (fun packages =>
           bt_alter str_cmp name (fun slot => default entry slot) (default [] packages))
        affected
  end.

Definition affected (candidates : list Candidate) : list (host_advisory * packages_map) :=
  fold_left affected_step (newest candidates) [].

Definition found_of (e : host_advisory * packages_map) : Found :=
  let '((agent, advisory), packages) := e in
  {| f_agent_id := agent;
     f_advisory_id := advisory;
     f_reboot_needed := forallb (fun p => p.2.2) packages;
     f_packages := JArray (map (fun p => p.2.1) packages) |}.

Definition evaluate (candidates : list Candidate) : list Found :=
  map found_of (affected candidates).

(** ** The order of one scheme *)

#[export] Instance compare_preorder scheme : CmpPreorder (compare scheme).
Proof.
  assert (forall s, String.eqb s "dpkg" = true -> CmpPreorder (compare s)) as Hd.
  { intros s Hs. split; intros *; unfold compare; rewrite Hs.
    - apply (cmp_antisym DpkgVer.compare).
    - apply (cmp_le_trans DpkgVer.compare). }
  destruct (String.eqb scheme "dpkg") eqn:E; [by apply Hd|].
  split; intros *; unfold compare; rewrite E.
  - apply (cmp_antisym RpmVer.compare_evr).
  - apply (cmp_le_trans RpmVer.compare_evr).
Qed.

#[export] Instance pair_key_order : CmpOrder pair_key_cmp.
Proof. unfold pair_key_cmp. apply _. Qed.
#[export] Instance no_fix_order : CmpOrder no_fix_cmp.
Proof. unfold no_fix_cmp. apply _. Qed.
#[export] Instance group_order : CmpOrder group_cmp.
Proof. unfold group_cmp. apply _. Qed.

(** ** The newest installed version of a group *)

(** Candidates of one group compare by one scheme: a package has one package manager. *)
Definition schemes_agree (cands : list Candidate) : Prop :=
  forall c c', In c cands -> In c' cands -> group_of c = group_of c' -> scheme c = scheme c'.

(** [c] is the first candidate of its group, with a fix, that no later one of the group exceeds. *)
Definition first_newest (cands : list Candidate) (c : Candidate) : Prop :=
  exists l1 l2,
    List.filter (fun c => is_some (fixed c)) cands = l1 ++ c :: l2
    /\ (forall c', In c' l1 -> group_of c' = group_of c ->
          compare (scheme c) (installed c) (installed c') = Gt)
    /\ (forall c', In c' l2 -> group_of c' = group_of c ->
          compare (scheme c) (installed c') (installed c) <> Gt).

Definition newest_from (k : group_key) (l : list Candidate) : option Candidate :=
  fold_left (fun o c => match group_cmp k (group_of c) with Eq => Some (newer c o) | _ => o end)
    l None.

Lemma newest_get k cands :
  bt_get group_cmp k (newest cands)
  = newest_from k (List.filter (fun c => is_some (fixed c)) cands).
Proof. unfold newest. rewrite (bt_fold_get group_cmp); [done|constructor]. Qed.

Lemma newest_sorted cands : bt_sorted group_cmp (newest cands).
Proof. unfold newest. apply (bt_fold_sorted group_cmp). constructor. Qed.

Lemma group_cmp_Eq k k' : group_cmp k k' = Eq <-> k = k'.
Proof. split; [apply (cmp_eq group_cmp)|]. intros ->. apply (cmp_refl group_cmp). Qed.

Definition newest_at (k : group_key) (l : list Candidate) (c : Candidate) : Prop :=
  exists l1 l2, l = l1 ++ c :: l2 /\ group_of c = k
    /\ (forall c', In c' l1 -> group_of c' = k ->
          compare (scheme c) (installed c) (installed c') = Gt)
    /\ (forall c', In c' l2 -> group_of c' = k ->
          compare (scheme c) (installed c') (installed c) <> Gt).

Lemma newest_at_snoc k l c x :
  newest_at k l c ->
  (group_of x = k -> compare (scheme c) (installed x) (installed c) <> Gt) ->
  newest_at k (l ++ [x]) c.
Proof.
  intros (l1 & l2 & -> & Hk & H1 & H2) Hx. exists l1, (l2 ++ [x]). split_and!; try done.
  - by rewrite <- app_assoc.
  - intros c' [?|[<-|[]]]%in_app_or; [by apply H2|done].
Qed.

Lemma newest_from_spec k l :
  schemes_agree l ->
  match newest_from k l with
  | Some c => newest_at k l c
  | None => forall c, In c l -> group_of c <> k
  end.
Proof.
  induction l as [|x l IH] using rev_ind; intros Hs; [by intros c []|].
  assert (schemes_agree l) as Hs'.
  { intros c c' H1 H2. apply Hs; apply in_or_app; auto. }
  specialize (IH Hs'). unfold newest_from in *. rewrite fold_left_app. simpl.
  set (o := fold_left _ l None) in *. clearbody o.
  destruct (decide (group_of x = k)) as [Hx|Hx].
  2:{ replace (match group_cmp k (group_of x) with Eq => Some (newer x o) | _ => o end) with o
        by (destruct (group_cmp k (group_of x)) eqn:E; [apply group_cmp_Eq in E|..]; congruence).
      destruct o as [c|]; [apply newest_at_snoc; [done|]; by intros ?|].
      intros c [?|[<-|[]]]%in_app_or; [by apply IH|done]. }
  rewrite (proj2 (group_cmp_Eq k (group_of x)) (eq_sym Hx)).
  destruct o as [c|]; unfold newer; cbn [default].
  2:{ rewrite (cmp_refl (compare (scheme x))). cbn. exists l, []. split_and!; try done.
      intros c' Hin Hg. by destruct (IH c'). }
  destruct IH as (l1 & l2 & -> & Hk & H1 & H2).
  assert (scheme x = scheme c) as Esch.
  { apply Hs; [apply in_or_app; simpl; auto|apply in_or_app; left; apply in_or_app; simpl; auto|congruence]. }
  unfold is_gt. cbn [id]. destruct (compare (scheme x) (installed x) (installed c)) eqn:E; cbn.
  1,2: apply newest_at_snoc; [by exists l1, l2|]; rewrite <- Esch; congruence.
  exists (l1 ++ c :: l2), []. split_and!; try done.
  intros c' Hin Hg. apply in_app_or in Hin as [Hin|[<-|Hin]]; [|done|].
  - apply (cmp_gt_trans _ _ (installed c)); [done|]. rewrite Esch. by apply H1.
  - apply (cmp_gt_lt (compare _)). apply (cmp_gt_lt (compare _)) in E.
    apply (cmp_le_lt_trans _ _ (installed c)); [|done]. rewrite Esch. by apply H2.
Qed.

Lemma newest_at_unique k l c c' : newest_at k l c -> newest_at k l c' -> schemes_agree l -> c = c'.
Proof.
  intros (l1 & l2 & -> & Hk & H1 & H2) (l1' & l2' & E & Hk' & H1' & H2') Hs.
  assert (scheme c = scheme c') as Esch.
  { apply Hs; [apply in_or_app; simpl; auto|rewrite E; apply in_or_app; simpl; auto|congruence]. }
  revert l1' E H1'. induction l1 as [|a l1 IH]; intros [|a' l1'] E H1'; simpl in E; injection E as E1 E2.
  - done.
  - subst a'. exfalso. apply (H2 c').
    + rewrite E2. apply in_or_app. simpl. auto.
    + done.
    + rewrite Esch. apply H1'; simpl; auto.
  - subst a. exfalso. apply (H2' c).
    + rewrite <- E2. apply in_or_app. simpl. auto.
    + done.
    + rewrite <- Esch. apply H1; simpl; auto.
  - subst a'. apply (IH (fun x Hx => H1 x (or_intror Hx))) with l1'; try done.
    + intros x y Hx Hy. apply Hs; simpl; auto.
    + intros x Hx. apply H1'. simpl. auto.
Qed.

Lemma schemes_agree_filter p cands : schemes_agree cands -> schemes_agree (List.filter p cands).
Proof. intros Hs c c' [H _]%filter_In [H' _]%filter_In. by apply Hs. Qed.

(** What the map [newest] holds. *)
Lemma newest_In k c cands :
  schemes_agree cands -> In (k, c) (newest cands) <-> group_of c = k /\ first_newest cands c.
Proof.
  intros Hs. pose proof (schemes_agree_filter (fun c => is_some (fixed c)) cands Hs) as Hs'.
  pose proof (newest_from_spec k _ Hs') as Hspec. split.
  - intros Hin. apply (bt_In_get group_cmp) in Hin; [|apply newest_sorted].
    rewrite newest_get in Hin. rewrite Hin in Hspec.
    destruct Hspec as (l1 & l2 & E & Hk & H1 & H2). split; [done|].
    exists l1, l2. subst k. done.
  - intros [<- (l1 & l2 & E & H1 & H2)]. apply (bt_get_In group_cmp). rewrite newest_get.
    destruct (newest_from (group_of c) _) as [c'|].
    + f_equal. eapply newest_at_unique; [done| |done]. exists l1, l2. done.
    + exfalso. apply (Hspec c); [|done]. rewrite E. apply in_or_app. simpl. auto.
Qed.

(** ** The affected packages *)

Definition slot_host (s : group_key * Candidate) : host_advisory := (s.1.1.1.1.1, s.1.1.1.1.2).
Definition slot_name (s : group_key * Candidate) : string := s.1.1.1.2.

Definition slot_entry (s : group_key * Candidate) : option (value * bool) :=
  affected_entry (slot_name s) s.2.

(** The first affected slot of a host, advisory and package name, in key order. *)
Fixpoint first_entry (k : host_advisory) (n : string) (slots : list (group_key * Candidate))
    : option (value * bool) :=
  match slots with
  | [] => None
  | s :: slots =>
      if bool_decide (slot_host s = k) && bool_decide (slot_name s = n) && is_some (slot_entry s)
      then slot_entry s else first_entry k n slots
  end.

Definition lookup_entry (k : host_advisory) (n : string)
    (m : list (host_advisory * packages_map)) : option (value * bool) :=
  match bt_get pair_key_cmp k m with Some p => bt_get str_cmp n p | None => None end.

Definition affected_wf (m : list (host_advisory * packages_map)) : Prop :=
  bt_sorted pair_key_cmp m /\ Forall (fun e => bt_sorted str_cmp e.2 /\ e.2 <> []) m.

Lemma pair_key_Eq k k' : pair_key_cmp k k' = Eq <-> k = k'.
Proof. split; [apply (cmp_eq pair_key_cmp)|]. intros ->. apply (cmp_refl pair_key_cmp). Qed.

Lemma bt_alter_nonempty {K V} (cmp : K -> K -> comparison) k f (m : list (K * V)) :
  bt_alter cmp k f m <> [].
Proof. destruct m as [|[k' v] m]; simpl; [done|]. by case_match. Qed.

(** The values of an altered map: the new one, and old ones. *)
Lemma bt_alter_values {K V} (cmp : K -> K -> comparison) (P : V -> Prop) k f (m : list (K * V)) :
  Forall (fun e => P e.2) m -> (forall o, (forall v, o = Some v -> P v) -> P (f o)) ->
  Forall (fun e => P e.2) (bt_alter cmp k f m).
Proof.
  intros Hm Hf. induction Hm as [|[k' v] m Hv Hm IH]; simpl.
  - constructor; [|done]. by apply Hf.
  - case_match; constructor; auto; simpl; apply Hf; naive_solver.
Qed.

Lemma affected_step_wf m s : affected_wf m -> affected_wf (affected_step m s).
Proof.
  destruct s as [[[[[a v] n] ar] i] c]. intros [Hs Hall]. simpl.
  destruct (affected_entry n c) as [e|]; [|done]. split; [by apply (bt_alter_sorted pair_key_cmp)|].
  apply (bt_alter_values pair_key_cmp (fun p => bt_sorted str_cmp p /\ p <> [])); [done|].
  intros o Ho. split; [|apply bt_alter_nonempty]. apply (bt_alter_sorted str_cmp).
  destruct o as [p|]; [by apply Ho|constructor].
Qed.

Lemma affected_step_lookup m s k n :
  affected_wf m ->
  lookup_entry k n (affected_step m s)
  = match lookup_entry k n m with
    | Some e => Some e
    | None => if bool_decide (slot_host s = k) && bool_decide (slot_name s = n) then slot_entry s else None
    end.
Proof.
  destruct s as [[[[[a v] n'] ar] i] c]. intros [Hs Hall].
  unfold slot_host, slot_entry, slot_name; simpl. unfold lookup_entry.
  destruct (affected_entry n' c) as [e|].
  2:{ destruct (bt_get pair_key_cmp k m) as [p|]; [destruct (bt_get str_cmp n p)|]; try done; by destruct (_ && _). }
  case_bool_decide as Hk.
  - subst k. rewrite (bt_get_alter_eq pair_key_cmp) by done.
    assert (bt_sorted str_cmp (default [] (bt_get pair_key_cmp (a, v) m))) as Hp.
    { destruct (bt_get pair_key_cmp (a, v) m) as [p|] eqn:E; [|constructor].
      apply (bt_get_In pair_key_cmp), list_elem_of_In in E. rewrite Forall_forall in Hall.
      by apply (Hall _ E). }
    case_bool_decide as Hn; simpl.
    + subst n'. rewrite (bt_get_alter_eq str_cmp) by done.
      destruct (bt_get pair_key_cmp (a, v) m) as [p|]; simpl; [|done].
      by destruct (bt_get str_cmp n p).
    + rewrite (bt_get_alter_ne str_cmp) by (rewrite str_cmp_Eq; congruence).
      destruct (bt_get pair_key_cmp (a, v) m) as [p|]; simpl; [|done].
      by destruct (bt_get str_cmp n p).
  - rewrite (bt_get_alter_ne pair_key_cmp) by (rewrite pair_key_Eq; congruence). simpl.
    destruct (bt_get pair_key_cmp k m) as [p|]; [|done]. by destruct (bt_get str_cmp n p).
Qed.

Lemma affected_fold slots m :
  affected_wf m ->
  affected_wf (fold_left affected_step slots m)
  /\ forall k n, lookup_entry k n (fold_left affected_step slots m)
       = match lookup_entry k n m with Some e => Some e | None => first_entry k n slots end.
Proof.
  revert m. induction slots as [|s slots IH]; intros m Hm; simpl.
  - split; [done|]. intros k n. by destruct (lookup_entry k n m).
  - destruct (IH _ (affected_step_wf m s Hm)) as [Hwf Hl]. split; [done|].
    intros k n. rewrite Hl, affected_step_lookup by done.
    destruct (lookup_entry k n m); [done|].
    destruct (bool_decide (slot_host s = k) && bool_decide (slot_name s = n)); simpl; [|done].
    by destruct (slot_entry s).
Qed.

Lemma affected_spec cands :
  affected_wf (affected cands)
  /\ forall k n, lookup_entry k n (affected cands) = first_entry k n (newest cands).
Proof.
  destruct (affected_fold (newest cands) []) as [Hwf Hl]; [by repeat constructor|].
  split; [done|]. intros k n. by rewrite Hl.
Qed.

Lemma first_entry_Some k n slots e :
  first_entry k n slots = Some e ->
  exists s, In s slots /\ slot_host s = k /\ slot_name s = n /\ slot_entry s = Some e.
Proof.
  induction slots as [|s slots IH]; simpl; [done|].
  destruct (bool_decide (slot_host s = k)) eqn:E1, (bool_decide (slot_name s = n)) eqn:E2,
    (slot_entry s) as [e'|] eqn:E3; simpl; bprop; try (intros H; destruct (IH H) as (s' & ? & ?); eauto 10).
  intros [= <-]. eauto 10.
Qed.

Lemma first_entry_exists k n slots s :
  In s slots -> slot_host s = k -> slot_name s = n -> slot_entry s <> None ->
  exists e, first_entry k n slots = Some e.
Proof.
  intros Hin Hk Hn He. induction slots as [|s' slots IH]; simpl; [done|].
  destruct (bool_decide (slot_host s' = k)) eqn:E1, (bool_decide (slot_name s' = n)) eqn:E2,
    (slot_entry s') as [e'|] eqn:E3; simpl; bprop; eauto;
    (destruct Hin as [->|Hin]; [congruence|by apply IH]).
Qed.

(** A host and an advisory are reported exactly when some package entry exists. *)
Lemma evaluate_reports cands a v :
  (exists f, In f (evaluate cands) /\ f_agent_id f = a /\ f_advisory_id f = v)
  <-> exists n e, first_entry (a, v) n (newest cands) = Some e.
Proof.
  destruct (affected_spec cands) as [[Hs Hall] Hl]. unfold evaluate. split.
  - intros (f & Hin & <- & <-). apply in_map_iff in Hin as ([[a v] p] & <- & Hin). simpl.
    rewrite Forall_forall in Hall. pose proof (Hall ((a, v), p)) as Hp. rewrite list_elem_of_In in Hp.
    destruct (Hp Hin) as [Hps Hne]. simpl in *. destruct p as [|[n e] p]; [done|].
    exists n, e. rewrite <- Hl. unfold lookup_entry.
    rewrite (bt_In_get pair_key_cmp _ _ _ Hs Hin). simpl. by rewrite (cmp_refl str_cmp).
  - intros (n & e & He). rewrite <- Hl in He. unfold lookup_entry in He.
    destruct (bt_get pair_key_cmp (a, v) (affected cands)) as [p|] eqn:E; [|done].
    exists (found_of ((a, v), p)). split; [|done]. apply in_map. by apply (bt_get_In pair_key_cmp).
Qed.

(** ** What makes a candidate vulnerable *)

(** An update is missing, or the running kernel is still below the fix. *)
Definition vulnerable (c : Candidate) : Prop :=
  in_range c (installed c) = true \/ running_below (name c) c <> None.

Lemma affected_entry_None n c :
  affected_entry n c <> None <-> in_range c (installed c) = true \/ running_below n c <> None.
Proof.
  unfold affected_entry. destruct (in_range c (installed c)), (running_below n c); simpl; naive_solver.
Qed.

(** Slots are the groups' newest candidates under their own keys. *)
Lemma slot_of_newest cands s :
  schemes_agree cands -> In s (newest cands) ->
  slot_host s = (agent_id s.2, advisory_id s.2) /\ slot_name s = name s.2 /\ first_newest cands s.2.
Proof.
  intros Hs Hin. destruct s as [k c]. apply (newest_In k c cands Hs) in Hin as [<- ?]. done.
Qed.

(** ** Properties *)

(** The reported (host, advisory) pairs, in terms of the groups' newest candidates. *)
Lemma reported_iff cands a v :
  schemes_agree cands ->
  (exists f, In f (evaluate cands) /\ f_agent_id f = a /\ f_advisory_id f = v)
  <-> exists c, first_newest cands c /\ agent_id c = a /\ advisory_id c = v /\ vulnerable c.
Proof.
  intros Hs. rewrite evaluate_reports. split.
  - intros (n & e & (s & Hin & Hk & Hn & He)%first_entry_Some).
    destruct (slot_of_newest _ _ Hs Hin) as (Hh & Hname & Hfirst). exists s.2.
    rewrite Hh in Hk. injection Hk as <- <-. split_and!; try done.
    unfold vulnerable. rewrite <- Hname. apply affected_entry_None. unfold slot_entry in He. congruence.
  - intros (c & Hfirst & <- & <- & Hv). exists (name c).
    apply (first_entry_exists _ _ _ (group_of c, c)); try done.
    + by apply newest_In.
    + by apply affected_entry_None.
Qed.

Lemma first_newest_candidate cands c : first_newest cands c -> In c cands /\ fixed c <> None.
Proof.
  intros (l1 & l2 & E & _). assert (In c (List.filter (fun c => is_some (fixed c)) cands)) as Hin.
  { rewrite E. apply in_or_app. simpl. auto. }
  apply filter_In in Hin as [? Hf]. split; [done|]. by destruct (fixed c).
Qed.

Lemma first_newest_max cands c c' :
  schemes_agree cands -> first_newest cands c -> In c' cands -> fixed c' <> None ->
  group_of c' = group_of c -> compare (scheme c) (installed c') (installed c) <> Gt.
Proof.
  intros Hs (l1 & l2 & E & H1 & H2) Hin Hf Hg.
  assert (In c' (l1 ++ c :: l2)) as Hin'.
  { rewrite <- E. apply filter_In. split; [done|]. by destruct (fixed c'). }
  apply in_app_or in Hin' as [Hin'|[<-|Hin']].
  - assert (compare (scheme c) (installed c) (installed c') = Gt) as Hgt by by apply H1.
    apply (cmp_gt_lt (compare _)) in Hgt. congruence.
  - by rewrite (cmp_refl (compare _)).
  - by apply H2.
Qed.

(** C9: the report is exact.  A host is reported for an advisory if and only if the newest
    installed version of one of its groups (package, fixed architecture, start of the range) is in
    the affected range, or is a kernel whose fix the running kernel is still below; the candidate
    kept for a group is the first, in the candidates' order, that no other of the group exceeds. *)
Theorem evaluate_exact cands a v :
  schemes_agree cands ->
  (exists f, In f (evaluate cands) /\ f_agent_id f = a /\ f_advisory_id f = v)
  <-> exists c, first_newest cands c /\ agent_id c = a /\ advisory_id c = v /\ vulnerable c.
Proof. apply reported_iff. Qed.

(** An old version kept beside a fixed one does not count.  When every fixable candidate of a
    host and advisory is not a kernel and has, in its own group, an installed version that is not
    below the same fix, the host is not reported for the advisory. *)
Theorem fixed_beside_old_not_reported cands a v :
  schemes_agree cands ->
  (forall c f, In c cands -> agent_id c = a -> advisory_id c = v -> fixed c = Some f ->
     (String.eqb (scheme c) "rpm" && is_kernel (name c)) = false
     /\ exists c', In c' cands /\ group_of c' = group_of c /\ fixed c' = Some f
          /\ is_lt (compare (scheme c') (installed c') f) = false) ->
  ~ exists f, In f (evaluate cands) /\ f_agent_id f = a /\ f_advisory_id f = v.
Proof.
  intros Hs Hall (c & Hfirst & Ha & Hv & Hvuln)%(reported_iff _ _ _ Hs).
  destruct (first_newest_candidate _ _ Hfirst) as [Hin Hf]. destruct (fixed c) as [f|] eqn:Ef; [|done].
  destruct (Hall c f Hin Ha Hv Ef) as (Hk & c' & Hin' & Hg & Ef' & Hge).
  assert (scheme c' = scheme c) as Es by by apply Hs.
  pose proof (first_newest_max cands c c' Hs Hfirst Hin' ltac:(congruence) Hg) as Hmax.
  destruct Hvuln as [Hr|Hr].
  - unfold in_range in Hr. rewrite Ef in Hr. bprop.
    destruct (compare (scheme c) (installed c) f) eqn:E; try done.
    rewrite Es in Hge.
    by rewrite (cmp_le_lt_trans (compare (scheme c)) _ _ _ Hmax E) in Hge.
  - unfold running_below in Hr. rewrite Ef in Hr.
    rewrite andb_comm in Hk. by rewrite Hk in Hr.
Qed.

(** The reports in their own order, under their host and advisory. *)
Lemma found_of_key e : (f_agent_id (found_of e), f_advisory_id (found_of e)) = e.1.
Proof. by destruct e as [[] ]. Qed.

Lemma found_keys m : map (fun f => (f_agent_id f, f_advisory_id f)) (map found_of m) = m.*1.
Proof. rewrite map_map. apply map_ext, found_of_key. Qed.

Lemma evaluate_NoDup cands : NoDup (map (fun f => (f_agent_id f, f_advisory_id f)) (evaluate cands)).
Proof.
  destruct (affected_spec cands) as [[Hs Hall] Hl]. unfold evaluate. rewrite found_keys.
  by apply (bt_keys_NoDup pair_key_cmp).
Qed.

(** The result has at most one report per host and advisory, each names at least one
    package, and it asks for a reboot alone only when no listed package lacks an installed fix
    in the group that was kept for its name. *)
Theorem evaluate_well_formed cands :
  NoDup (map (fun f => (f_agent_id f, f_advisory_id f)) (evaluate cands))
  /\ forall f, In f (evaluate cands) ->
       f_packages f <> JArray []
       /\ (f_reboot_needed f = true <->
           forall n e, first_entry (f_agent_id f, f_advisory_id f) n (newest cands) = Some e ->
             e.2 = true).
Proof.
  split; [apply evaluate_NoDup|].
  destruct (affected_spec cands) as [[Hs Hall] Hl]. unfold evaluate.
  intros f ([[a v] p] & <- & Hin)%in_map_iff.
  rewrite Forall_forall in Hall. pose proof (Hall ((a, v), p)) as Hp. rewrite list_elem_of_In in Hp.
  destruct (Hp Hin) as [Hps Hne]. simpl in *. split.
  { destruct p; [done|]. simpl. congruence. }
  assert (forall n, first_entry (a, v) n (newest cands) = bt_get str_cmp n p) as Hg.
  { intros n. rewrite <- Hl. unfold lookup_entry. by rewrite (bt_In_get pair_key_cmp _ _ _ Hs Hin). }
  rewrite forallb_forall. split.
  - intros H n e He. rewrite Hg in He. apply (bt_get_In str_cmp) in He. by apply (H (n, e)).
  - intros H [n e] Hn. apply (H n). rewrite Hg. by apply (bt_In_get str_cmp).
Qed.

(** ** The pairs evaluated once per version *)

Definition pair_of (c : Candidate) : string * string := (advisory_id c, name c).

(** [vcands] evaluates every installed version [cands] has, on the same fixed package. *)
Definition versions_cover (vcands cands : list Candidate) : Prop :=
  forall c, In c cands -> fixed c <> None ->
    exists c', In c' vcands /\ pair_of c' = pair_of c /\ scheme c' = scheme c
      /\ introduced c' = introduced c /\ fixed c' = fixed c
      /\ last_affected c' = last_affected c /\ installed c' = installed c.

Definition pair_mem (ps : list (string * string)) (c : Candidate) : bool :=
  existsb (fun p => String.eqb p.1 (advisory_id c) && String.eqb p.2 (name c)) ps.

Lemma pair_mem_true ps c : pair_mem ps c = true <-> In (pair_of c) ps.
Proof.
  unfold pair_mem, pair_of. rewrite existsb_exists. split.
  - intros ([x y] & Hin & E). bprop. apply String.eqb_eq in H, H0. simpl in *. by subst.
  - intros Hin. eexists. split; [done|]. by rewrite !String.eqb_refl.
Qed.

Lemma per_version_pairs vcands p :
  In p (pairs (per_version vcands)) <-> exists c, In c vcands /\ candidate_pair c = true /\ pair_of c = p.
Proof.
  simpl. rewrite (bs_of_list_In pair_key_cmp), in_map_iff. unfold pair_of. split.
  - intros (c & <- & [? ?]%filter_In). eauto.
  - intros (c & Hin & Hp & <-). exists c. split; [done|]. by apply filter_In.
Qed.

Lemma in_range_cong c c' i :
  scheme c' = scheme c -> introduced c' = introduced c -> fixed c' = fixed c ->
  last_affected c' = last_affected c -> in_range c' i = in_range c i.
Proof. unfold in_range. by intros -> -> -> ->. Qed.

(** A candidate outside the pairs cannot make an entry. *)
Lemma outside_pairs_no_entry vcands cands c :
  versions_cover vcands cands -> In c cands -> fixed c <> None ->
  pair_mem (pairs (per_version vcands)) c = false -> affected_entry (name c) c = None.
Proof.
  intros Hcov Hin Hf Hout. destruct (Hcov c Hin Hf) as (c' & Hin' & Hp & Hsch & Hi & Hfx & Hl & Hins).
  destruct (affected_entry (name c) c) eqn:E; [|done]. exfalso.
  assert (pair_mem (pairs (per_version vcands)) c = true) as Hm; [|congruence].
  apply pair_mem_true, per_version_pairs. exists c'. split_and!; try done.
  assert (affected_entry (name c) c <> None) as [Hr|Hr]%affected_entry_None by congruence;
    unfold candidate_pair; rewrite Hfx, Hsch; destruct (fixed c) eqn:Ef; try done; simpl.
  - rewrite (in_range_cong c c') by congruence. rewrite Hins, Hr. by rewrite orb_true_r.
  - unfold running_below in Hr. rewrite Ef in Hr. injection Hp as _ ->. rewrite andb_comm.
    by destruct (is_kernel (name c) && String.eqb (scheme c) "rpm").
Qed.

Lemma filter_filter_comm {A} (p q : A -> bool) l :
  List.filter p (List.filter q l) = List.filter q (List.filter p l).
Proof.
  induction l as [|x l IH]; simpl; [done|].
  destruct (q x) eqn:E, (p x) eqn:E'; simpl; rewrite ?E, ?E', IH; done.
Qed.

(** Keeping whole groups keeps their slots. *)
Lemma newest_from_filter (p : group_key -> bool) (k : group_key) l :
  newest_from k (List.filter (fun c => p (group_of c)) l) = if p k then newest_from k l else None.
Proof.
  unfold newest_from.   assert (forall o, fold_left (fun o c => match group_cmp k (group_of c) with Eq => Some (newer c o) | _ => o end)
      (List.filter (fun c => p (group_of c)) l) o
    = if p k then fold_left (fun o c => match group_cmp k (group_of c) with Eq => Some (newer c o) | _ => o end) l o else o) as H.
  { induction l as [|c l IH]; intros o; simpl; [by destruct (p k)|].
    destruct (p (group_of c)) eqn:E; simpl; rewrite IH; destruct (p k) eqn:E'; try done;
      destruct (group_cmp k (group_of c)) eqn:C; try done;
      apply group_cmp_Eq in C as ->; congruence. }
  by rewrite H.
Qed.

Lemma newest_filter (p : group_key -> bool) cands :
  newest (List.filter (fun c => p (group_of c)) cands)
  = List.filter (fun s => p s.1) (newest cands).
Proof.
  apply (bt_ext group_cmp).
  - apply newest_sorted.
  - apply bt_filter_sorted, newest_sorted.
  - intros k. rewrite (bt_filter_get group_cmp p), !newest_get.
    by rewrite filter_filter_comm, newest_from_filter.
Qed.

Lemma first_newest_filter (p : group_key -> bool) cands c :
  schemes_agree cands ->
  first_newest (List.filter (fun c => p (group_of c)) cands) c
  <-> first_newest cands c /\ p (group_of c) = true.
Proof.
  intros Hs. pose proof (schemes_agree_filter (fun c => p (group_of c)) _ Hs) as Hs'.
  pose proof (newest_In (group_of c) c _ Hs) as H. pose proof (newest_In (group_of c) c _ Hs') as H'.
  rewrite newest_filter, filter_In in H'. simpl in H'. tauto.
Qed.

Definition group_pair (k : group_key) : string * string := (k.1.1.1.2, k.1.1.2).

Lemma affected_fold_filter (p : group_key * Candidate -> bool) slots m :
  (forall s, In s slots -> p s = false -> slot_entry s = None) ->
  fold_left affected_step (List.filter p slots) m = fold_left affected_step slots m.
Proof.
  revert m. induction slots as [|s slots IH]; intros m H; simpl; [done|].
  assert (forall s, In s slots -> p s = false -> slot_entry s = None) as H' by (simpl in H; eauto).
  destruct (p s) eqn:E; simpl; rewrite IH by done; [done|]. f_equal.
  assert (slot_entry s = None) as He by (apply H; simpl; auto).
  destruct s as [[[[[a v] n] ar] i] c]. unfold slot_entry, slot_name in He. simpl in *. by rewrite He.
Qed.

(** The candidate a map keeps for a key is one of the list, with that key. *)
Lemma newest_source k c cands :
  In (k, c) (newest cands) -> In c cands /\ fixed c <> None /\ group_of c = k.
Proof.
  intros Hin. apply (bt_In_get group_cmp) in Hin; [|apply newest_sorted].
  rewrite newest_get in Hin. unfold newest_from in Hin.
  set (l := List.filter _ cands) in Hin.
  assert (forall c, In c l -> In c cands /\ fixed c <> None) as Hl.
  { intros x [? Hx]%filter_In. by destruct (fixed x). }
  assert (forall o, fold_left (fun o c => match group_cmp k (group_of c) with Eq => Some (newer c o) | _ => o end) l o = Some c ->
    o = Some c \/ (In c l /\ group_of c = k)) as H.
  { clear Hin Hl. clearbody l. induction l as [|x l IH]; intros o; simpl; [auto|].
    intros [Hf|[??]]%IH; [|auto].
    destruct (group_cmp k (group_of x)) eqn:C; [|auto..].
    apply group_cmp_Eq in C. unfold newer in Hf.
    destruct o as [c0|]; simpl in Hf; destruct (is_gt _); injection Hf as <-; auto. }
  destruct (H None Hin) as [|[Hc Hk]]; [done|]. by apply Hl in Hc as [??].
Qed.

(** A report comes from a candidate with a fix. *)
Lemma evaluate_source cands f :
  In f (evaluate cands) ->
  exists c, In c cands /\ fixed c <> None /\ agent_id c = f_agent_id f /\ advisory_id c = f_advisory_id f.
Proof.
  intros Hin. destruct (proj1 (evaluate_reports cands (f_agent_id f) (f_advisory_id f))) as (n & e & He).
  { by exists f. }
  apply first_entry_Some in He as ([k c] & Hs & Hk & Hn & He).
  apply newest_source in Hs as (Hc & Hf & <-). exists c. injection Hk as Ha Hv. done.
Qed.

Lemma evaluate_pairs vcands cands :
  versions_cover vcands cands ->
  evaluate (List.filter (pair_mem (pairs (per_version vcands))) cands) = evaluate cands.
Proof.
  intros Hcov. unfold evaluate, affected. f_equal.
  set (p := fun q : string * string =>
    existsb (fun x => String.eqb x.1 q.1 && String.eqb x.2 q.2) (pairs (per_version vcands))).
  change (List.filter (pair_mem (pairs (per_version vcands))) cands)
    with (List.filter (fun c => p (group_pair (group_of c))) cands).
  rewrite (newest_filter (fun k => p (group_pair k))). apply affected_fold_filter. intros [k c] Hin Hp.
  apply newest_source in Hin as (Hin & Hf & <-).
  by apply (outside_pairs_no_entry vcands cands c).
Qed.

(** Evaluating each distinct version once loses nothing.  When the version pass evaluated
    every installed version of the host candidates (against the same fixed packages), matching
    only the (advisory, package) pairs it kept gives the same reports as matching every
    candidate: a skipped package is neither in range on any host, nor a kernel that could still
    be waiting for a reboot. *)
Theorem version_pairs_lose_nothing vcands cands :
  versions_cover vcands cands ->
  evaluate (List.filter (pair_mem (pairs (per_version vcands))) cands) = evaluate cands.
Proof. apply evaluate_pairs. Qed.

(** ** Examples *)

Definition ex_candidate (agent advisory name installed fixed : string) (running : option string)
    (version : Z) : Candidate :=
  {| agent_id := agent; advisory_id := advisory; Matching.name := name; fixed_arch := "x86_64";
     scheme := "rpm"; introduced := None; Matching.fixed := Some fixed; last_affected := None;
     Matching.installed := installed; version_id := version; running_kernel := running |}.

Definition ex_cands : list Candidate := [
  ex_candidate "h1" "FEDORA-1" "kernel-core" "0:6.17.3-300.fc44" "0:6.17.4-300.fc44" (Some "6.17.3-300.fc44.x86_64") 1;
  ex_candidate "h1" "FEDORA-1" "kernel-core" "0:6.17.4-300.fc44" "0:6.17.4-300.fc44" (Some "6.17.3-300.fc44.x86_64") 2;
  ex_candidate "h2" "FEDORA-1" "kernel-core" "0:6.17.4-300.fc44" "0:6.17.4-300.fc44" (Some "6.17.4-300.fc44.x86_64") 2;
  ex_candidate "h2" "FEDORA-2" "openssl" "1:3.2.1-1.fc44" "1:3.2.2-1.fc44" None 3;
  ex_candidate "h3" "FEDORA-2" "openssl" "1:3.2.2-1.fc44" "1:3.2.2-1.fc44" None 4;
  ex_candidate "h3" "FEDORA-2" "openssl" "1:3.2.1-1.fc44" "1:3.2.2-1.fc44" None 3].

(** A list that is all of one scheme. *)
Lemma one_scheme_agrees s cands :
  forallb (fun c => String.eqb (scheme c) s) cands = true -> schemes_agree cands.
Proof.
  rewrite forallb_forall. intros H c c' Hc Hc' _.
  apply H, String.eqb_eq in Hc, Hc'. congruence.
Qed.

Example ex_evaluate :
  map (fun f => (f_agent_id f, f_advisory_id f, f_reboot_needed f)) (evaluate ex_cands)
  = [("h1", "FEDORA-1", true); ("h2", "FEDORA-2", false)].
Proof. vm_compute. reflexivity. Qed.

Lemma evaluate_exact_witness :
  exists c, first_newest ex_cands c /\ agent_id c = "h1" /\ advisory_id c = "FEDORA-1" /\ vulnerable c.
Proof.
  apply (evaluate_exact ex_cands "h1" "FEDORA-1").
  - by apply (one_scheme_agrees "rpm").
  - eexists. split; [left; vm_compute; reflexivity|]. split; reflexivity.
Defined.

Lemma fixed_beside_old_not_reported_witness :
  ~ exists f, In f (evaluate ex_cands) /\ f_agent_id f = "h3" /\ f_advisory_id f = "FEDORA-2".
Proof.
  apply fixed_beside_old_not_reported.
  - by apply (one_scheme_agrees "rpm").
  - intros c f Hc Ha _ Hf. unfold ex_cands in Hc. simpl in Hc.
    destruct_or! Hc; subst c; try discriminate Ha; try done; injection Hf as <-.
    all: split; [reflexivity|];
      exists (ex_candidate "h3" "FEDORA-2" "openssl" "1:3.2.2-1.fc44" "1:3.2.2-1.fc44" None 4);
      (split; [simpl; tauto|]); split; [reflexivity|]; split; [reflexivity|]; vm_compute; reflexivity.
Defined.

Lemma version_pairs_lose_nothing_witness :
  evaluate (List.filter (pair_mem (pairs (per_version ex_cands))) ex_cands) = evaluate ex_cands
  /\ evaluate ex_cands <> [].
Proof.
  split; [|vm_compute; congruence]. apply version_pairs_lose_nothing.
  intros c Hc _. exists c. done.
Defined.

(** Two ranges of one package name make two groups.  The entry of the first group, in the order
    of the range's start, is the one kept: here the kernel it needs is installed and waits for a
    reboot, while the second group still lacks an update. *)
Definition ex_two_ranges : list Candidate :=
  map (fun '(from, fixed) =>
         {| agent_id := "h1"; advisory_id := "RLSA-1"; name := "kernel-core"; fixed_arch := "x86_64";
            scheme := "rpm"; introduced := from; Matching.fixed := Some fixed; last_affected := None;
            installed := "0:7.0.1-1.el10"; version_id := 1;
            running_kernel := Some "6.17.3-1.el10.x86_64" |})
    [(None, "0:6.17.4-1.el10"); (Some "0:7.0.0-1.el10", "0:7.0.5-1.el10")].

Example reboot_needed_hides_update :
  map f_reboot_needed (evaluate ex_two_ranges) = [true]
  /\ existsb (fun c => in_range c (installed c)) ex_two_ranges = true.
Proof. vm_compute. done. Qed.
