(* ===== verification/MatchStore.v ===== *)
(** * The stored side of matching (platform-store/src/vulns.rs, vulns/candidates.rs,
      vulns/summary.rs, and the pipeline of openvibes-vulns/src/matching.rs)

    The tables a matching run only reads are [Inventory]; the ones it writes are [State].  A
    database function is a state transformer that may fail ([None], the source's [StoreError]);
    a transaction that fails leaves the state as it was, while the statements already committed
    stay.  Times are integers (microseconds).  Rows come in the order of the nested joins; the
    [agents] table is listed in agent-id order, which is the order its queries ask for. *)
From S2P Require Import Prelude RustStd BTree Json Matching.
From stdpp Require Import prelude strings gmap pretty.
From Stdlib Require Import Ascii ZArith Lia.

Open Scope Z_scope.

Definition time := Z.

(** ** Tables *)

Record AgentRow := {
  ag_id : string;
  ag_os_id : option string;
  ag_os_version : option string;
  ag_running_kernel : option string;
  ag_has_inventory : bool;
}.

Record VersionRow := {
  pv_id : Z;
  pv_manager : string;
  pv_name : string;
  pv_epoch : Z;
  pv_version : string;
  pv_release : string;
  pv_arch : string;
  pv_source : option string;
  pv_source_version : option string;
}.

Record AdvisoryRow := {
  ad_id : string;
  ad_source : string;
  ad_os_id : string;
  ad_os_version : string;
  ad_severity : string;
}.

Record AdvisoryPackage := {
  ap_advisory : string;
  ap_name : string;
  ap_arch : string;
  ap_scheme : string;
  ap_match_on : string;
  ap_introduced : option string;
  ap_fixed : option string;
  ap_last_affected : option string;
}.

Record TriageRow := { tr_state : string; tr_accepted_until : option time }.

Record Inventory := {
  agents : list AgentRow;
  package_versions : list VersionRow;
  host_packages : list (string * Z);
  advisories : list AdvisoryRow;
  advisory_packages : list AdvisoryPackage;
  triage : gmap (string * string) TriageRow;
}.

Record VulnRow := {
  v_packages : value;
  v_reboot_needed : bool;
  v_first_seen_at : time;
  v_fixed_at : option time;
  v_last_evaluated_at : time;
}.

Record Counts := {
  c_no_fix : Z;
  c_critical : Z;
  c_important : Z;
  c_moderate : Z;
  c_low : Z;
  c_unrated : Z;
  c_reboot : Z;
  c_counted_at : time;
}.

Record State := {
  vulns : gmap (string * string) VulnRow;
  version_vulns : gmap (Z * (string * string)) time;
  match_version : gmap string Z;
  counts : gmap string Counts;
  listed_critical : gmap string Z;
}.

(** The release advisories are published for, a generated column: RHEL rebuilds by major version. *)
Definition os_release (g : AgentRow) : option string :=
  match ag_os_id g with
  | Some "rocky" | Some "almalinux" => hd EmptyString ∘ RustStd.split "." <$> ag_os_version g
  | _ => ag_os_version g
  end.

(** ** What matching reads *)

Definition INSTALLED (pv : VersionRow) : string :=
  if String.eqb (pv_manager pv) "dpkg"
  then default (pretty (pv_epoch pv) +:+ ":" +:+ pv_version pv
                +:+ (if is_empty (pv_release pv) then "" else "-" +:+ pv_release pv))
         (pv_source_version pv)
  else pretty (pv_epoch pv) +:+ ":" +:+ pv_version pv +:+ "-" +:+ pv_release pv.

Definition PACKAGE_MATCH (ap : AdvisoryPackage) (pv : VersionRow) : bool :=
  String.eqb (pv_manager pv) (ap_scheme ap)
  && ((String.eqb (ap_match_on ap) "binary" && String.eqb (pv_name pv) (ap_name ap)
       && (existsb (String.eqb (ap_arch ap)) [""; "noarch"]
           || String.eqb (pv_arch pv) (ap_arch ap) || String.eqb (pv_arch pv) "noarch"))
      || (String.eqb (ap_match_on ap) "source"
          && match pv_source pv with
             | Some source => String.eqb source (ap_name ap)
             | None => String.eqb (pv_name pv) (ap_name ap)
             end)).

Definition on_release (os_id os_version : string) (g : AgentRow) : bool :=
  bool_decide (ag_os_id g = Some os_id) && bool_decide (os_release g = Some os_version).

(** The row read back: a candidate of [ap] and [pv] on a host, or on none. *)
Definition candidate_row (host : string) (kernel : option string) (ap : AdvisoryPackage)
    (pv : VersionRow) : Candidate :=
  {| agent_id := host; advisory_id := ap_advisory ap; name := ap_name ap; fixed_arch := ap_arch ap;
     scheme := ap_scheme ap; introduced := ap_introduced ap; fixed := ap_fixed ap;
     last_affected := ap_last_affected ap; installed := INSTALLED pv; version_id := pv_id pv;
     running_kernel := kernel |}.

Section store.
Variable inv : Inventory.

(** The advisory packages of one release, and those that could apply to a package version. *)
Definition release_packages (os_id os_version : string) : list AdvisoryPackage :=
  flat_map (fun a =>
      if String.eqb (ad_os_id a) os_id && String.eqb (ad_os_version a) os_version
      then List.filter (fun ap => String.eqb (ap_advisory ap) (ad_id a)) (advisory_packages inv)
      else [])
    (advisories inv).

Definition match_from (os_id os_version : string) : list (AdvisoryPackage * VersionRow) :=
  flat_map (fun ap => map (pair ap) (List.filter (PACKAGE_MATCH ap) (package_versions inv)))
    (release_packages os_id os_version).

Definition release_hosts (os_id os_version : string) : list string :=
  map ag_id (List.filter (on_release os_id os_version) (agents inv)).

Definition installed_on (os_id os_version : string) (in_agents : string -> bool) (pv : VersionRow)
    : list AgentRow :=
  flat_map (fun h =>
      if Z.eqb h.2 (pv_id pv) && in_agents h.1
      then List.filter (fun g => String.eqb (ag_id g) h.1 && on_release os_id os_version g) (agents inv)
      else [])
    (host_packages inv).

(** Every candidate of these hosts on the release, before the pairs narrow them. *)
Definition host_rows (os_id os_version : string) (in_agents : string -> bool) : list Candidate :=
  flat_map (fun '(ap, pv) =>
      map (fun g => candidate_row (ag_id g) (ag_running_kernel g) ap pv)
        (installed_on os_id os_version in_agents pv))
    (match_from os_id os_version).

Definition any_of (l : list string) (s : string) : bool := existsb (String.eqb s) l.

Definition candidates (os_id os_version : string) (batch : list string)
    (ps : list (string * string)) : list Candidate :=
  List.filter (pair_mem ps) (host_rows os_id os_version (any_of batch)).

Definition version_candidates (os_id os_version : string) (agent : option string) : list Candidate :=
  let hosts := match agent with Some a => String.eqb a | None => fun _ => true end in
  flat_map (fun '(ap, pv) =>
      match installed_on os_id os_version hosts pv with
      | [] => []
      | _ :: _ => [candidate_row EmptyString None ap pv]
      end)
    (match_from os_id os_version).

Definition host_release (agent : string) : option (string * string) :=
  g ← find (fun g => String.eqb (ag_id g) agent) (agents inv);
  os_id ← ag_os_id g; release ← os_release g; Some (os_id, release).

(** ** What matching writes *)

Definition set_vulns (f : gmap (string * string) VulnRow -> gmap (string * string) VulnRow) (s : State) : State :=
  {| vulns := f (vulns s); version_vulns := version_vulns s; match_version := match_version s;
     counts := counts s; listed_critical := listed_critical s |}.
Definition set_version_vulns (f : gmap (Z * (string * string)) time -> gmap (Z * (string * string)) time) (s : State) : State :=
  {| vulns := vulns s; version_vulns := f (version_vulns s); match_version := match_version s;
     counts := counts s; listed_critical := listed_critical s |}.
Definition set_match_version (f : gmap string Z -> gmap string Z) (s : State) : State :=
  {| vulns := vulns s; version_vulns := version_vulns s; match_version := f (match_version s);
     counts := counts s; listed_critical := listed_critical s |}.
Definition set_counts (f : gmap string Counts -> gmap string Counts) (s : State) : State :=
  {| vulns := vulns s; version_vulns := version_vulns s; match_version := match_version s;
     counts := f (counts s); listed_critical := listed_critical s |}.
Definition set_listed_critical (f : gmap string Z -> gmap string Z) (s : State) : State :=
  {| vulns := vulns s; version_vulns := version_vulns s; match_version := match_version s;
     counts := counts s; listed_critical := f (listed_critical s) |}.

Inductive Scope :=
  | Release (os_id os_version : string) (batch : list string)
  | Host (agent : string).

Definition found_key (f : Found) : string * string := (f_agent_id f, f_advisory_id f).

(** [INSERT ... ON CONFLICT DO UPDATE]: the first-seen time of a known row stays. *)
Definition upsert (now : time) (m : gmap (string * string) VulnRow) (f : Found)
    : gmap (string * string) VulnRow :=
  <[ found_key f :=
     {| v_packages := f_packages f; v_reboot_needed := f_reboot_needed f;
        v_first_seen_at := from_option v_first_seen_at now (m !! found_key f);
        v_fixed_at := None; v_last_evaluated_at := now |} ]> m.

Definition in_scope (scope : Scope) (k : string * string) : bool :=
  match scope with
  | Release os_id os_version batch =>
      any_of batch k.1
      && existsb (fun a => String.eqb (ad_id a) k.2 && String.eqb (ad_os_id a) os_id
                           && String.eqb (ad_os_version a) os_version) (advisories inv)
  | Host agent => String.eqb k.1 agent
  end.

Definition mark_fixed (now : time) (v : VulnRow) : VulnRow :=
  match v_fixed_at v with
  | Some _ => v
  | None => {| v_packages := v_packages v; v_reboot_needed := v_reboot_needed v;
               v_first_seen_at := v_first_seen_at v; v_fixed_at := Some now;
               v_last_evaluated_at := now |}
  end.

Definition close_missing (scope : Scope) (found : list Found) (now : time)
    (m : gmap (string * string) VulnRow) : gmap (string * string) VulnRow :=
  map_imap (fun k v =>
      Some (if in_scope scope k && negb (bool_decide (k ∈ map found_key found))
            then mark_fixed now v else v)) m.

(** The statement's errors: a row twice in one upsert, or a key without its agent or advisory. *)
Definition apply_ok (found : list Found) : bool :=
  bool_decide (NoDup (map found_key found))
  && forallb (fun f => any_of (map ag_id (agents inv)) (f_agent_id f)
                       && any_of (map ad_id (advisories inv)) (f_advisory_id f)) found.

Definition apply (scope : Scope) (found : list Found) (now : time) (s : State) : State * option nat :=
  if apply_ok found
  then (set_vulns (fun m => close_missing scope found now (fold_left (upsert now) found m)) s,
        Some (length found))
  else (s, None).

Definition version_key (f : VersionFound) : Z * (string * string) :=
  (vf_version_id f, (vf_advisory_id f, vf_package f)).

(** [INSERT ... ON CONFLICT DO NOTHING]. *)
Definition insert_new (now : time) (m : gmap (Z * (string * string)) time) (f : VersionFound)
    : gmap (Z * (string * string)) time :=
  match m !! version_key f with
  | Some _ => m
  | None => <[ version_key f := now ]> m
  end.

Definition apply_versions (evaluated : list Z) (found : list VersionFound) (now : time) (s : State)
    : State :=
  set_version_vulns (fun m =>
      let kept := filter (fun e => ~ (e.1.1 ∈ evaluated /\ e.1 ∉ map version_key found)) m in
      fold_left (insert_new now) found kept) s.

(** Rows the fleet summary no longer counts as open. *)
Definition settled (now : time) (k : string * string) : bool :=
  match triage inv !! k with
  | Some t => existsb (String.eqb (tr_state t)) ["mitigated"; "false_positive"]
              || (String.eqb (tr_state t) "accepted_risk"
                  && match tr_accepted_until t with Some u => now <? u | None => false end)
  | None => false
  end.

Definition count {A} (p : A -> bool) (l : list A) : Z := Z.of_nat (length (List.filter p l)).

(** The advisories without a fix among the versions a host has. *)
Definition no_fix_of (s : State) (agent : string) : list string :=
  flat_map (fun h =>
      if String.eqb h.1 agent
      then omap (fun e : (Z * (string * string)) * time => if Z.eqb e.1.1 h.2 then Some e.1.2.1 else None)
             (map_to_list (version_vulns s))
      else [])
    (host_packages inv).

(** A host's open rows with their advisory's severity. *)
Definition open_rows (s : State) (agent : string) : list ((string * string) * VulnRow * AdvisoryRow) :=
  flat_map (fun '(k, v) =>
      if String.eqb k.1 agent && negb (is_some (v_fixed_at v))
      then map (pair (k, v)) (List.filter (fun a => String.eqb (ad_id a) k.2) (advisories inv))
      else [])
    (map_to_list (vulns s)).

Definition counts_of (now : time) (s : State) (agent : string) : Counts :=
  let rows := List.filter (fun r => negb (settled now r.1.1)) (open_rows s agent) in
  let of_sev sev := count (fun r => negb (v_reboot_needed r.1.2) && String.eqb (ad_severity r.2) sev) rows in
  {| c_no_fix := Z.of_nat (length (remove_dups (no_fix_of s agent)));
     c_critical := of_sev "critical"; c_important := of_sev "important"; c_moderate := of_sev "moderate";
     c_low := of_sev "low"; c_unrated := of_sev "unrated";
     c_reboot := count (fun r => v_reboot_needed r.1.2) rows; c_counted_at := now |}.

(** A row mapped at confidence 80 or more: a known distribution's, or one without any fix. *)
Definition listed_confident (a : AdvisoryRow) (packages : value) : bool :=
  existsb (String.eqb (hd EmptyString (RustStd.split "-" (ad_source a))))
    ["fedora"; "debian"; "ubuntu"; "rocky"; "almalinux"]
  || match packages with
     | JArray (p :: ps) =>
         forallb (fun p => match get p "fixed" with Some v => is_null v | None => true end) (p :: ps)
     | _ => false
     end.

Definition untriaged (k : string * string) : bool :=
  match triage inv !! k with Some t => String.eqb (tr_state t) "open" | None => true end.

Definition listed_of (s : State) (agent : string) : Z :=
  let fixable := map (fun r => r.1.1.2)
    (List.filter (fun r => String.eqb (ad_severity r.2) "critical"
                           && listed_confident r.2 (v_packages r.1.2)) (open_rows s agent)) in
  let unfixed := List.filter (fun id =>
      existsb (fun a => String.eqb (ad_id a) id && String.eqb (ad_severity a) "critical") (advisories inv))
    (no_fix_of s agent) in
  Z.of_nat (length (remove_dups (List.filter (fun id => untriaged (agent, id)) (fixable ++ unfixed)))).

Definition refresh_counts (batch : list string) (now : time) (s : State) : State :=
  let s' := set_counts (fun m => fold_left (fun m a => <[ a := counts_of now s a ]> m) batch m) s in
  set_listed_critical (fun m => fold_left (fun m a => <[ a := listed_of s' a ]> m) batch m) s'.

Definition mark_matched (who : AgentRow -> bool) (version : Z) (s : State) : State :=
  set_match_version (fun m =>
      fold_left (fun m g => if who g && ag_has_inventory g then <[ ag_id g := version ]> m else m)
        (agents inv) m) s.

Definition mark_host_matched (agent : string) : Z -> State -> State :=
  mark_matched (fun g => String.eqb (ag_id g) agent).
Definition mark_release_matched (os_id os_version : string) : Z -> State -> State :=
  mark_matched (on_release os_id os_version).

Definition hosts_needing_match (version : Z) (s : State) : list string :=
  map ag_id (List.filter (fun g =>
      ag_has_inventory g && is_some (ag_os_id g) && is_some (ag_os_version g)
      && (default 0 (match_version s !! ag_id g) <? version)) (agents inv)).

(** ** The pipeline *)

Definition MATCHER_VERSION : Z := 1.
Definition MATCH_BATCH : nat := 500.

(** [slice::chunks]: fuel is the length, since each chunk takes at least one element. *)
Fixpoint chunks_fuel {A} (fuel n : nat) (l : list A) : list (list A) :=
  match fuel, l with
  | S fuel, _ :: _ => take n l :: chunks_fuel fuel n (drop n l)
  | _, _ => []
  end.
Definition chunks {A} (n : nat) (l : list A) : list (list A) := chunks_fuel (length l) n l.

(** One batch: its candidates, what they show, the rows and the counts. *)
Definition match_batch (os_id os_version : string) (ps : list (string * string)) (now : time)
    (batch : list string) (s : State) : State * option nat :=
  let found := evaluate (candidates os_id os_version batch ps) in
  match apply (Release os_id os_version batch) found now s with
  | (s, Some n) => (refresh_counts batch now s, Some n)
  | (s, None) => (s, None)
  end.

Fixpoint match_batches (os_id os_version : string) (ps : list (string * string)) (now : time)
    (batches : list (list string)) (open : nat) (s : State) : State * option nat :=
  match batches with
  | [] => (s, Some open)
  | batch :: batches =>
      match match_batch os_id os_version ps now batch s with
      | (s, Some n) => match_batches os_id os_version ps now batches (open + n)%nat s
      | (s, None) => (s, None)
      end
  end.

Definition match_release_in_batches (os_id os_version : string) (batch : nat) (now : time)
    (s : State) : State * option nat :=
  let versions := per_version (version_candidates os_id os_version None) in
  let s := apply_versions (evaluated versions) (no_fix versions) now s in
  let hosts := release_hosts os_id os_version in
  match match_batches os_id os_version (pairs versions) now (chunks (Nat.max batch 1) hosts) 0 s with
  | (s, Some open) => (mark_release_matched os_id os_version MATCHER_VERSION s, Some open)
  | (s, None) => (s, None)
  end.

Definition match_release (os_id os_version : string) : time -> State -> State * option nat :=
  match_release_in_batches os_id os_version MATCH_BATCH.

Definition match_host (agent : string) (now : time) (s : State) : State * option nat :=
  match host_release agent with
  | None => (s, Some 0%nat)
  | Some (os_id, os_version) =>
      let versions := per_version (version_candidates os_id os_version (Some agent)) in
      let s := apply_versions (evaluated versions) (no_fix versions) now s in
      let found := evaluate (candidates os_id os_version [agent] (pairs versions)) in
      match apply (Host agent) found now s with
      | (s, Some open) =>
          (mark_host_matched agent MATCHER_VERSION (refresh_counts [agent] now s), Some open)
      | (s, None) => (s, None)
      end
  end.
End store.

(** ** Lists and joins *)

Lemma filter_flat_map {A B} (p : B -> bool) (f : A -> list B) l :
  List.filter p (flat_map f l) = flat_map (fun x => List.filter p (f x)) l.
Proof. induction l as [|x l IH]; simpl; [done|]. by rewrite List.filter_app, IH. Qed.

Lemma filter_map_comm {A B} (p : B -> bool) (f : A -> B) l :
  List.filter p (map f l) = map f (List.filter (fun x => p (f x)) l).
Proof. induction l as [|x l IH]; simpl; [done|]. destruct (p (f x)); simpl; by rewrite IH. Qed.

Lemma filter_ext_in' {A} (p q : A -> bool) l :
  (forall x, In x l -> p x = q x) -> List.filter p l = List.filter q l.
Proof. apply filter_ext_in. Qed.

Lemma filter_filter_and {A} (p q : A -> bool) l :
  List.filter p (List.filter q l) = List.filter (fun x => q x && p x) l.
Proof.
  induction l as [|x l IH]; simpl; [done|].
  destruct (q x) eqn:E; simpl; [destruct (p x)|]; by rewrite IH.
Qed.

Lemma any_of_In l s : any_of l s = true <-> In s l.
Proof.
  unfold any_of. rewrite existsb_exists. split.
  - by intros (x & Hin & ->%String.eqb_eq).
  - intros Hin. exists s. by rewrite String.eqb_refl.
Qed.

Section store_facts.
Context (inv : Inventory).

Lemma installed_on_In os_id os_version p pv g :
  In g (installed_on inv os_id os_version p pv) <->
  In g (agents inv) /\ In (ag_id g, pv_id pv) (host_packages inv) /\ p (ag_id g) = true
  /\ on_release os_id os_version g = true.
Proof.
  unfold installed_on. rewrite in_flat_map. split.
  - intros ([h v] & Hin & Hg). simpl in Hg. destruct (_ && _) eqn:E; [|done]. bprop.
    apply Z.eqb_eq in H as ->. apply filter_In in Hg as [Hg E]. bprop.
    apply String.eqb_eq in H. by subst h.
  - intros (Hg & Hin & Hp & Hr). eexists. split; [done|]. simpl. rewrite Z.eqb_refl, Hp. simpl.
    apply filter_In. by rewrite String.eqb_refl.
Qed.

Lemma match_from_In os_id os_version ap pv :
  In (ap, pv) (match_from inv os_id os_version) <->
  In ap (release_packages inv os_id os_version) /\ In pv (package_versions inv)
  /\ PACKAGE_MATCH ap pv = true.
Proof.
  unfold match_from. rewrite in_flat_map. split.
  - intros (ap' & Hin & (pv' & [= -> ->] & Hpv)%in_map_iff). apply filter_In in Hpv. naive_solver.
  - intros (Hap & Hpv & Hm). exists ap. split; [done|]. apply in_map_iff. exists pv.
    split; [done|]. by apply filter_In.
Qed.

Lemma release_packages_In os_id os_version ap :
  In ap (release_packages inv os_id os_version) <->
  In ap (advisory_packages inv)
  /\ exists a, In a (advisories inv) /\ ad_id a = ap_advisory ap /\ ad_os_id a = os_id
       /\ ad_os_version a = os_version.
Proof.
  unfold release_packages. rewrite in_flat_map. split.
  - intros (a & Ha & Hin). destruct (_ && _) eqn:E; [|done]. bprop.
    apply String.eqb_eq in H, H0. apply filter_In in Hin as [Hin E]. apply String.eqb_eq in E.
    split; [done|]. eauto.
  - intros (Hin & a & Ha & Hi & <- & <-). exists a. split; [done|]. rewrite !String.eqb_refl. simpl.
    apply filter_In. by rewrite Hi, String.eqb_refl.
Qed.

Lemma host_rows_In os_id os_version p c :
  In c (host_rows inv os_id os_version p) <->
  exists ap pv g, In (ap, pv) (match_from inv os_id os_version)
    /\ In g (installed_on inv os_id os_version p pv)
    /\ c = candidate_row (ag_id g) (ag_running_kernel g) ap pv.
Proof.
  unfold host_rows. rewrite in_flat_map. split.
  - intros ([ap pv] & Hin & (g & <- & Hg)%in_map_iff). eauto 10.
  - intros (ap & pv & g & Hin & Hg & ->). exists (ap, pv). split; [done|]. apply in_map_iff. eauto.
Qed.

Lemma flat_map_ext' {A B} (f g : A -> list B) l : (forall x, f x = g x) -> flat_map f l = flat_map g l.
Proof. intros H. induction l as [|x l IH]; simpl; [done|]. by rewrite H, IH. Qed.

(** One host's rows among a batch's. *)
Lemma host_rows_of os_id os_version p a :
  p a = true ->
  List.filter (fun c => String.eqb (agent_id c) a) (host_rows inv os_id os_version p)
  = host_rows inv os_id os_version (String.eqb a).
Proof.
  intros Hp. unfold host_rows. rewrite filter_flat_map. apply flat_map_ext'. intros [ap pv].
  rewrite filter_map_comm. f_equal. simpl. unfold installed_on. rewrite filter_flat_map.
  apply flat_map_ext'. intros [h v]. simpl.
  destruct (Z.eqb v (pv_id pv)); simpl; [|done].
  destruct (String.eqb_spec a h) as [<-|Hne].
  - rewrite Hp. rewrite filter_filter_and. apply filter_ext. intros g.
    destruct (String.eqb (ag_id g) a); simpl; [|done]. by rewrite andb_true_r.
  - destruct (p h); [|done]. rewrite filter_filter_and.
    rewrite (filter_ext _ (fun _ => false)); [by induction (agents inv)|].
    intros g. destruct (String.eqb_spec (ag_id g) h) as [->|]; simpl; [|done].
    destruct (on_release os_id os_version g); simpl; [|done]. apply String.eqb_neq. congruence.
Qed.

(** The version pass evaluates what the hosts' rows have. *)
Lemma version_candidates_cover os_id os_version agent p :
  (forall a, p a = true -> match agent with Some x => a = x | None => True end) ->
  versions_cover (version_candidates inv os_id os_version agent) (host_rows inv os_id os_version p).
Proof.
  intros Hp c (ap & pv & g & Hin & Hg & ->)%host_rows_In _.
  exists (candidate_row "" None ap pv). split; [|done].
  unfold version_candidates. apply in_flat_map. exists (ap, pv). split; [done|].
  apply installed_on_In in Hg as (Hg & Hh & Hpg & Hr).
  assert (In g (installed_on inv os_id os_version
    (match agent with Some a => String.eqb a | None => fun _ => true end) pv)) as Hin'.
  { apply installed_on_In. split_and!; try done. apply Hp in Hpg. destruct agent; [|done].
    apply String.eqb_eq. congruence. }
  destruct (installed_on _ _ _ _ _); [destruct Hin'|]. simpl. auto.
Qed.

(** An advisory's packages are of one scheme: a feed is for one distribution. *)
Definition one_scheme : Prop :=
  forall ap ap', In ap (advisory_packages inv) -> In ap' (advisory_packages inv) ->
    ap_advisory ap = ap_advisory ap' -> ap_scheme ap = ap_scheme ap'.

Lemma host_rows_schemes os_id os_version p :
  one_scheme -> schemes_agree (host_rows inv os_id os_version p).
Proof.
  intros H1 c c' (ap & pv & g & Hin & _ & ->)%host_rows_In
    (ap' & pv' & g' & Hin' & _ & ->)%host_rows_In Hg.
  apply match_from_In in Hin as ((Hap & _)%release_packages_In & _).
  apply match_from_In in Hin' as ((Hap' & _)%release_packages_In & _).
  simpl. apply H1; [done..|]. unfold group_of in Hg. simpl in Hg. congruence.
Qed.

(** A host (on the release) should be open for an advisory. *)
Definition exposed (os_id os_version a v : string) : Prop :=
  exists c, first_newest (host_rows inv os_id os_version (String.eqb a)) c
    /\ advisory_id c = v /\ vulnerable c.

Lemma batch_reports os_id os_version agent batch a v :
  one_scheme ->
  (forall x, In x batch -> match agent with Some y => x = y | None => True end) ->
  (exists f, In f (evaluate (candidates inv os_id os_version batch
                     (pairs (per_version (version_candidates inv os_id os_version agent)))))
     /\ f_agent_id f = a /\ f_advisory_id f = v)
  <-> In a batch /\ exposed os_id os_version a v.
Proof.
  intros H1 Hb. unfold candidates. rewrite evaluate_pairs.
  2:{ apply version_candidates_cover. intros x Hx%any_of_In. by apply Hb. }
  pose proof (host_rows_schemes os_id os_version (any_of batch) H1) as Hs.
  rewrite (reported_iff _ _ _ Hs). unfold exposed. rewrite <- any_of_In.
  assert (forall c, agent_id c = a -> any_of batch a = true ->
    first_newest (host_rows inv os_id os_version (String.eqb a)) c
    <-> first_newest (host_rows inv os_id os_version (any_of batch)) c) as Hf.
  { intros c <- Ha. rewrite <- (host_rows_of os_id os_version _ _ Ha).
    change (fun c0 => String.eqb (agent_id c0) (agent_id c))
      with (fun c0 => (fun k : group_key => String.eqb k.1.1.1.1 (agent_id c)) (group_of c0)).
    rewrite (first_newest_filter _ _ _ Hs). simpl. rewrite String.eqb_refl. tauto. }
  split.
  - intros (c & Hc & Ha & Hv & Hvul).
    assert (any_of batch a = true) as Hin.
    { destruct (first_newest_candidate _ _ Hc) as [(ap & pv & g & _ & Hg & ->)%host_rows_In _].
      apply installed_on_In in Hg as (_ & _ & Hp & _). simpl in Ha. by subst a. }
    split; [done|]. exists c. by rewrite Hf.
  - intros (Hin & c & Hc & Hv & Hvul).
    assert (agent_id c = a) as Ha.
    { destruct (first_newest_candidate _ _ Hc) as [(ap & pv & g & _ & Hg & ->)%host_rows_In _].
      apply installed_on_In in Hg as (_ & _ & Hp & _). simpl. by apply String.eqb_eq in Hp. }
    exists c. by rewrite <- Hf.
Qed.
End store_facts.

Section apply_facts.
Context (inv : Inventory).

Definition found_at (found : list Found) (k : string * string) : option Found :=
  find (fun f => bool_decide (found_key f = k)) found.

(** What one run of [apply] makes of the row at [k]. *)
Definition row_after (scope : Scope) (found : list Found) (now : time) (k : string * string)
    (old : option VulnRow) : option VulnRow :=
  match found_at found k with
  | Some f => Some {| v_packages := f_packages f; v_reboot_needed := f_reboot_needed f;
                      v_first_seen_at := from_option v_first_seen_at now old;
                      v_fixed_at := None; v_last_evaluated_at := now |}
  | None => if in_scope inv scope k then mark_fixed now <$> old else old
  end.

Lemma found_at_None found k : found_at found k = None <-> k ∉ map found_key found.
Proof.
  unfold found_at. split.
  - intros Hf (f & -> & Hin%list_elem_of_In)%list_elem_of_fmap.
    eapply find_none in Hf; [|done]. simpl in Hf. by rewrite bool_decide_eq_false in Hf.
  - intros Hn. destruct (find _ found) as [f|] eqn:E; [|done]. exfalso. apply Hn.
    apply find_some in E as [Hin E%bool_decide_eq_true]. apply list_elem_of_fmap.
    exists f. split; [done|]. by apply list_elem_of_In.
Qed.

Lemma upsert_fold_lookup now found m k :
  NoDup (map found_key found) ->
  fold_left (upsert now) found m !! k
  = match found_at found k with
    | Some f => Some {| v_packages := f_packages f; v_reboot_needed := f_reboot_needed f;
                        v_first_seen_at := from_option v_first_seen_at now (m !! k);
                        v_fixed_at := None; v_last_evaluated_at := now |}
    | None => m !! k
    end.
Proof.
  revert m. induction found as [|f found IH]; intros m Hnd; simpl; [done|].
  inversion Hnd as [|? ? Hn Hnd' E]; subst. rewrite IH by done.
  unfold found_at; simpl. case_bool_decide as Hk.
  - subst k. apply found_at_None in Hn. unfold found_at in Hn. rewrite Hn.
    unfold upsert. by rewrite lookup_insert_eq.
  - unfold upsert. by rewrite lookup_insert_ne by done.
Qed.

Lemma apply_lookup scope found now s k :
  apply_ok inv found = true ->
  vulns (apply inv scope found now s).1 !! k = row_after scope found now k (vulns s !! k).
Proof.
  intros Hok. unfold apply. rewrite Hok. simpl. unfold close_missing. rewrite map_lookup_imap.
  unfold apply_ok in Hok. bprop. rewrite upsert_fold_lookup by done. unfold row_after.
  destruct (found_at found k) as [f|] eqn:E; simpl.
  - destruct (in_scope inv scope k); simpl; [|done].
    rewrite bool_decide_eq_true_2; [done|]. apply dec_stable. intros Hn%found_at_None. congruence.
  - apply found_at_None in E. rewrite bool_decide_eq_false_2 by done. rewrite andb_true_r.
    destruct (vulns s !! k), (in_scope inv scope k); done.
Qed.

(** Whether the platform shows [k] as open. *)
Definition is_open (s : State) (k : string * string) : Prop :=
  exists v, vulns s !! k = Some v /\ v_fixed_at v = None.

Lemma apply_open scope found now s k :
  apply_ok inv found = true ->
  is_open (apply inv scope found now s).1 k
  <-> k ∈ map found_key found \/ (in_scope inv scope k = false /\ is_open s k).
Proof.
  intros Hok. unfold is_open. rewrite apply_lookup by done. unfold row_after.
  destruct (found_at found k) as [f|] eqn:E.
  - assert (k ∈ map found_key found) by (apply dec_stable; intros Hn%found_at_None; congruence).
    naive_solver.
  - apply found_at_None in E. destruct (in_scope inv scope k).
    + split; [|naive_solver]. intros (v & Hv & Hf). destruct (vulns s !! k) as [o|]; [|done].
      simpl in Hv. injection Hv as <-. unfold mark_fixed in Hf. destruct (v_fixed_at o) eqn:?; naive_solver.
    + naive_solver.
Qed.

Lemma reported_keys os_id os_version batch ps f :
  In f (evaluate (candidates inv os_id os_version batch ps)) ->
  In (f_agent_id f) batch
  /\ (exists g, In g (agents inv) /\ ag_id g = f_agent_id f /\ on_release os_id os_version g = true)
  /\ exists a, In a (advisories inv) /\ ad_id a = f_advisory_id f /\ ad_os_id a = os_id
       /\ ad_os_version a = os_version.
Proof.
  intros (c & Hc & _ & <- & <-)%evaluate_source. apply filter_In in Hc as [Hc _].
  apply host_rows_In in Hc as (ap & pv & g & Hm & Hg & ->). simpl.
  apply installed_on_In in Hg as (Hg & _ & Hp & Hr). apply any_of_In in Hp.
  apply match_from_In in Hm as ((_ & a & Ha & Hi & Ho & Hv)%release_packages_In & _). eauto 10.
Qed.

(** Matching only ever reports keys the tables accept. *)
Lemma evaluate_apply_ok os_id os_version batch ps :
  apply_ok inv (evaluate (candidates inv os_id os_version batch ps)) = true.
Proof.
  unfold apply_ok. apply andb_true_intro. split; [apply bool_decide_eq_true, evaluate_NoDup|].
  apply forallb_forall. intros f Hf.
  apply reported_keys in Hf as (_ & (g & Hg & <- & _) & (a & Ha & <- & _)).
  apply andb_true_intro. rewrite !any_of_In. split; by apply in_map.
Qed.

Lemma apply_succeeds scope found now s :
  apply_ok inv found = true -> (apply inv scope found now s).2 = Some (length found).
Proof. unfold apply. by intros ->. Qed.

Lemma found_key_elem found a v :
  (a, v) ∈ map found_key found <-> exists f, In f found /\ f_agent_id f = a /\ f_advisory_id f = v.
Proof.
  rewrite list_elem_of_fmap. unfold found_key. split.
  - intros (f & [= -> ->] & Hin%list_elem_of_In). eauto.
  - intros (f & Hin & <- & <-). exists f. split; [done|]. by apply list_elem_of_In.
Qed.

(** The pipeline's other statements leave the vulnerabilities alone. *)
Lemma vulns_apply_versions ev fo now s : vulns (apply_versions ev fo now s) = vulns s.
Proof. done. Qed.
Lemma vulns_refresh_counts b now s : vulns (refresh_counts inv b now s) = vulns s.
Proof. done. Qed.
Lemma version_vulns_refresh_counts b now s : version_vulns (refresh_counts inv b now s) = version_vulns s.
Proof. done. Qed.
Lemma version_vulns_apply scope found now s :
  version_vulns (apply inv scope found now s).1 = version_vulns s.
Proof. unfold apply. by destruct (apply_ok inv found). Qed.

(** Recording a run is exact.  When the run's keys are accepted, a found vulnerability is open
    with the time it was first ever seen, one in scope that was not found is fixed now unless it
    was fixed before, and every other row is untouched; a rejected run changes nothing. *)
Theorem apply_records scope found now s :
  (apply_ok inv found = true ->
     (apply inv scope found now s).2 = Some (length found)
     /\ forall k, vulns (apply inv scope found now s).1 !! k = row_after scope found now k (vulns s !! k))
  /\ (apply_ok inv found = false -> apply inv scope found now s = (s, None)).
Proof.
  split.
  - intros Hok. split; [by apply apply_succeeds|]. intros k. by apply apply_lookup.
  - unfold apply. by intros ->.
Qed.
End apply_facts.

Section pipeline_facts.
Context (inv : Inventory).

(** ** Chunks *)

Lemma chunks_fuel_concat {A} fuel n (l : list A) :
  (1 <= n)%nat -> (length l <= fuel)%nat -> concat (chunks_fuel fuel n l) = l.
Proof.
  intros Hn. revert l. induction fuel as [|fuel IH]; intros l Hl; simpl.
  - destruct l; [done|]. simpl in Hl. lia.
  - destruct l as [|x l]; [done|]. destruct n as [|n]; [lia|]. simpl. f_equal.
    rewrite IH.
    + apply take_drop.
    + rewrite length_drop. simpl in Hl. lia.
Qed.

Lemma chunks_concat {A} n (l : list A) : (1 <= n)%nat -> concat (chunks n l) = l.
Proof. intros Hn. by apply chunks_fuel_concat. Qed.

(** ** A run of batches *)

Lemma on_release_advisory os_id os_version k :
  existsb (fun a => String.eqb (ad_id a) k && String.eqb (ad_os_id a) os_id
                    && String.eqb (ad_os_version a) os_version) (advisories inv) = true
  <-> exists a, In a (advisories inv) /\ ad_id a = k /\ ad_os_id a = os_id /\ ad_os_version a = os_version.
Proof.
  rewrite existsb_exists. split; intros (a & Hin & H); exists a; split; try done.
  - bprop. by rewrite <- !String.eqb_eq.
  - destruct H as (-> & -> & ->). by rewrite !String.eqb_refl.
Qed.

(** An advisory of the release. *)
Definition release_advisory (os_id os_version v : string) : Prop :=
  exists a, In a (advisories inv) /\ ad_id a = v /\ ad_os_id a = os_id /\ ad_os_version a = os_version.

Lemma match_batch_spec os_id os_version now batch s :
  one_scheme inv ->
  let ps := pairs (per_version (version_candidates inv os_id os_version None)) in
  let r := match_batch inv os_id os_version ps now batch s in
  (exists n, r.2 = Some n)
  /\ version_vulns r.1 = version_vulns s
  /\ forall a v,
       (In a batch -> release_advisory os_id os_version v ->
          (is_open r.1 (a, v) <-> exposed inv os_id os_version a v))
       /\ (~ (In a batch /\ release_advisory os_id os_version v) -> vulns r.1 !! (a, v) = vulns s !! (a, v)).
Proof.
  intros H1 ps. set (found := evaluate (candidates inv os_id os_version batch ps)).
  pose proof (evaluate_apply_ok inv os_id os_version batch ps : apply_ok inv found = true) as Hok.
  assert (match_batch inv os_id os_version ps now batch s
    = (refresh_counts inv batch now (apply inv (Release os_id os_version batch) found now s).1,
       Some (length found))) as ->.
  { unfold match_batch. fold found. unfold apply. by rewrite Hok. }
  split_and!; [by eexists| |].
  - simpl. apply version_vulns_apply.
  - intros a v. split.
    + intros Ha Hv. unfold is_open. cbn [fst].
      change (is_open (apply inv (Release os_id os_version batch) found now s).1 (a, v)
              <-> exposed inv os_id os_version a v).
      rewrite (apply_open inv) by done. rewrite found_key_elem. unfold found, ps.
      rewrite (batch_reports inv os_id os_version None batch a v H1) by done.
      simpl. rewrite (proj2 (any_of_In batch a) Ha). simpl.
      rewrite (proj2 (on_release_advisory os_id os_version v) Hv). naive_solver.
    + intros Hno. simpl. change (vulns (apply inv (Release os_id os_version batch) found now s).1 !! (a, v) = vulns s !! (a, v)).
      rewrite (apply_lookup inv) by done. unfold row_after.
      destruct (found_at found (a, v)) as [f|] eqn:E.
      * exfalso. apply Hno. apply find_some in E as [Hin E%bool_decide_eq_true].
        unfold found_key in E. injection E as <- <-. by apply reported_keys in Hin as (? & _ & ?).
      * destruct (in_scope _ _ _) eqn:Es; [|done]. exfalso. apply Hno. simpl in Es. bprop.
        split; [by apply any_of_In|]. by apply on_release_advisory.
Qed.

Lemma match_batches_spec os_id os_version now batches open s :
  one_scheme inv ->
  let ps := pairs (per_version (version_candidates inv os_id os_version None)) in
  let r := match_batches inv os_id os_version ps now batches open s in
  (exists n, r.2 = Some n)
  /\ version_vulns r.1 = version_vulns s
  /\ forall a v,
       (In a (concat batches) -> release_advisory os_id os_version v ->
          (is_open r.1 (a, v) <-> exposed inv os_id os_version a v))
       /\ (~ (In a (concat batches) /\ release_advisory os_id os_version v) ->
           vulns r.1 !! (a, v) = vulns s !! (a, v)).
Proof.
  intros H1 ps. revert open s. induction batches as [|b bs IH]; intros open s; simpl.
  - split_and!; [by eexists|done|]. naive_solver.
  - destruct (match_batch_spec os_id os_version now b s H1) as ([n Hn] & Hvv & Hb). fold ps in Hn, Hvv, Hb.
    destruct (match_batch inv os_id os_version ps now b s) as [s1 o1]. simpl in *. subst o1.
    destruct (IH (open + n)%nat s1) as (Hm & Hvv' & Hr). split_and!; [done|congruence|].
    intros a v. specialize (Hb a v) as [Hb Hb']. specialize (Hr a v) as [Hr Hr']. split.
    + intros Ha Hv. apply in_app_or in Ha. destruct (in_dec String.string_dec a (concat bs)) as [Hin|Hout]; [by apply Hr|].
      unfold is_open. rewrite Hr' by tauto. apply Hb; tauto.
    + intros Hno. rewrite Hr', Hb'; [done|..]; rewrite in_app_iff in Hno; tauto.
Qed.

Lemma release_hosts_In os_id os_version a :
  In a (release_hosts inv os_id os_version) <->
  exists g, In g (agents inv) /\ ag_id g = a /\ on_release os_id os_version g = true.
Proof.
  unfold release_hosts. rewrite in_map_iff. split.
  - intros (g & <- & [? ?]%filter_In). eauto.
  - intros (g & ? & <- & ?). exists g. by rewrite filter_In.
Qed.

(** C3: matching a release always completes and is exact, whatever the batch size: for each of
    its hosts and advisories the vulnerability is open afterwards if and only if the newest
    version that host has of an affected package is vulnerable, decided on all of the host's
    packages at once; no other host's and no other release's rows change. *)
Theorem match_release_exact os_id os_version batch now s :
  one_scheme inv ->
  let r := match_release_in_batches inv os_id os_version batch now s in
  (exists n, r.2 = Some n)
  /\ forall a v,
       (In a (release_hosts inv os_id os_version) -> release_advisory os_id os_version v ->
          (is_open r.1 (a, v) <-> exposed inv os_id os_version a v))
       /\ (~ (In a (release_hosts inv os_id os_version) /\ release_advisory os_id os_version v) ->
           vulns r.1 !! (a, v) = vulns s !! (a, v)).
Proof.
  intros H1. unfold match_release_in_batches.
  set (vc := per_version _). set (s0 := apply_versions _ _ _ _).
  destruct (match_batches_spec os_id os_version now
    (chunks (Nat.max batch 1) (release_hosts inv os_id os_version)) 0 s0 H1) as ([n Hn] & _ & Hr).
  fold vc in Hn, Hr. rewrite chunks_concat in Hr by lia.
  destruct (match_batches inv os_id os_version (pairs vc) now _ 0 s0) as [s1 o1]. simpl in *. subst o1.
  split; [by eexists|]. apply Hr.
Qed.

Lemma host_release_on agent os_id os_version :
  host_release inv agent = Some (os_id, os_version) ->
  exists g, In g (agents inv) /\ ag_id g = agent /\ on_release os_id os_version g = true.
Proof.
  unfold host_release. destruct (find _ (agents inv)) as [g|] eqn:E; simpl; [|done].
  apply find_some in E as [Hin E%String.eqb_eq]. destruct (ag_os_id g) as [o|] eqn:Eo; simpl; [|done].
  destruct (os_release g) as [r|] eqn:Er; simpl; [|done]. intros [= <- <-]. exists g.
  split_and!; try done. unfold on_release. by rewrite Eo, Er, !bool_decide_eq_true_2.
Qed.

(** Matching one host always completes and is exact: afterwards its open vulnerabilities are
    those its own packages show against the advisories of the release it reports (rows of any
    other advisory are fixed), and no other host's rows change; a host without a release keeps
    everything. *)
Theorem match_host_exact agent now s :
  one_scheme inv ->
  let r := match_host inv agent now s in
  (exists n, r.2 = Some n)
  /\ (forall k, k.1 <> agent -> vulns r.1 !! k = vulns s !! k)
  /\ match host_release inv agent with
     | Some (os_id, os_version) =>
         forall v, is_open r.1 (agent, v) <-> exposed inv os_id os_version agent v
     | None => r.1 = s
     end.
Proof.
  intros H1. unfold match_host.
  destruct (host_release inv agent) as [[os_id os_version]|] eqn:Er; simpl; [|by eauto].
  set (ps := bs_of_list _ _). set (found := evaluate _). set (s0 := apply_versions _ _ _ _).
  pose proof (evaluate_apply_ok inv os_id os_version [agent] ps : apply_ok inv found = true) as Hok.
  pose proof (fun k => apply_lookup inv (Host agent) found now s0 k Hok) as Hl.
  pose proof (fun k => apply_open inv (Host agent) found now s0 k Hok) as Ho.
  unfold apply in *. rewrite Hok in *. simpl in *.
  split_and!; [by eexists| |].
  - intros k Hk. rewrite Hl. unfold row_after. simpl.
    rewrite (proj2 (String.eqb_neq k.1 agent) Hk).
    destruct (found_at found k) as [f|] eqn:E; [|done]. exfalso. apply Hk.
    apply find_some in E as [Hin E%bool_decide_eq_true].
    apply reported_keys in Hin as ([->|[]] & _). by subst k.
  - intros v. unfold is_open in *. simpl in *. rewrite Ho. rewrite String.eqb_refl, found_key_elem.
    pose proof (batch_reports inv os_id os_version (Some agent) [agent] agent v H1) as Hb.
    unfold per_version in Hb. simpl in Hb. fold ps found in Hb. rewrite Hb; [naive_solver|].
    by intros x [->|[]].
Qed.
End pipeline_facts.

Section no_fix_facts.
Context (inv : Inventory).

Lemma version_fold_lookup found now m k :
  fold_left (insert_new now) found m !! k
  = match m !! k with
    | Some t => Some t
    | None => if bool_decide (k ∈ map version_key found) then Some now else None
    end.
Proof.
  revert m. induction found as [|f found IH]; intros m; simpl; [by destruct (m !! k)|].
  rewrite IH. destruct (decide (k = version_key f)) as [->|Hne].
  - rewrite (bool_decide_eq_true_2 (_ ∈ _ :: _)) by (left; done).
    unfold insert_new. destruct (m !! version_key f) eqn:E; [by rewrite E|]. by rewrite lookup_insert_eq.
  - assert (insert_new now m f !! k = m !! k) as ->.
    { unfold insert_new. destruct (m !! version_key f); [done|]. by rewrite lookup_insert_ne. }
    destruct (m !! k); [done|].
    rewrite (bool_decide_ext (k ∈ version_key f :: map version_key found) (k ∈ map version_key found));
      [done|]. rewrite elem_of_cons. naive_solver.
Qed.

(** What one version pass makes of the row at [k]. *)
Definition version_row_after (evaluated : list Z) (found : list VersionFound) (now : time)
    (k : Z * (string * string)) (old : option time) : option time :=
  if bool_decide (k ∈ map version_key found) then Some (default now old)
  else if bool_decide (k.1 ∈ evaluated) then None else old.

Lemma apply_versions_lookup ev found now s k :
  version_vulns (apply_versions ev found now s) !! k
  = version_row_after ev found now k (version_vulns s !! k).
Proof.
  simpl. rewrite version_fold_lookup, map_lookup_filter. unfold version_row_after.
  destruct (version_vulns s !! k) as [t|]; simpl.
  - case_bool_decide as Hf; simpl.
    + rewrite option_guard_True; [done|naive_solver].
    + case_bool_decide as He; [rewrite option_guard_False|rewrite option_guard_True]; naive_solver.
  - case_bool_decide; [done|]. by case_bool_decide.
Qed.

Lemma no_fix_key vcands k :
  k ∈ map version_key (no_fix (per_version vcands))
  <-> exists c, In c vcands /\ candidate_no_fix c = true
        /\ k = (version_id c, (advisory_id c, name c)).
Proof.
  simpl. rewrite list_elem_of_fmap. split.
  - intros ([v a p] & -> & Hin%list_elem_of_In). apply in_map_iff in Hin as ([v' [a' p']] & E & Hin).
    injection E as -> -> ->. rewrite (bs_of_list_In no_fix_cmp) in Hin.
    apply in_map_iff in Hin as (c & E & Hin).
    apply filter_In in Hin as [Hin Hc]. exists c. split_and!; try done.
  - intros (c & Hin & Hc & ->). exists (Build_VersionFound (version_id c) (advisory_id c) (name c)).
    split; [done|]. apply list_elem_of_In, in_map_iff. exists (version_id c, (advisory_id c, name c)).
    split; [done|]. apply (bs_of_list_In no_fix_cmp), in_map_iff. exists c. split; [done|]. by apply filter_In.
Qed.

Lemma evaluated_In vcands v :
  v ∈ evaluated (per_version vcands) <-> exists c, In c vcands /\ version_id c = v.
Proof.
  simpl. rewrite list_elem_of_In, (bs_of_list_In Z.compare), in_map_iff. naive_solver.
Qed.

Lemma version_vulns_mark f v s : version_vulns (mark_matched inv f v s) = version_vulns s.
Proof. done. Qed.

(** A package version some candidate of the release evaluates, and the advisories without a fix
    whose range it is in. *)
Definition version_evaluated (os_id os_version : string) (v : Z) : Prop :=
  exists c, In c (version_candidates inv os_id os_version None) /\ version_id c = v.
Definition unfixed (os_id os_version : string) (k : Z * (string * string)) : Prop :=
  exists c, In c (version_candidates inv os_id os_version None)
    /\ candidate_no_fix c = true /\ k = (version_id c, (advisory_id c, name c)).

Lemma match_batches_version_vulns os_id os_version ps now batches open s :
  version_vulns (match_batches inv os_id os_version ps now batches open s).1 = version_vulns s.
Proof.
  revert open s. induction batches as [|b bs IH]; intros open s; simpl; [done|].
  pose proof (version_vulns_apply inv (Release os_id os_version b)
    (evaluate (candidates inv os_id os_version b ps)) now s) as H.
  unfold match_batch. destruct (apply _ _ _ _ _) as [s1 [n|]]; simpl in *; [|done]. by rewrite IH.
Qed.

(** The vulnerabilities without a fix are exact for the versions a release's run evaluates:
    afterwards a row is stored if and only if the version is in an advisory's range that names no
    fix, a row that was stored keeps its first-seen time, and the rows of versions the run did not
    evaluate stay. *)
Theorem match_release_no_fix os_id os_version batch now s k :
  let after := version_vulns (match_release_in_batches inv os_id os_version batch now s).1 !! k in
  (version_evaluated os_id os_version k.1 ->
     (is_Some after <-> unfixed os_id os_version k)
     /\ forall t, version_vulns s !! k = Some t -> unfixed os_id os_version k -> after = Some t)
  /\ (~ version_evaluated os_id os_version k.1 -> after = version_vulns s !! k).
Proof.
  unfold match_release_in_batches.
  set (vc := per_version _). set (s0 := apply_versions _ _ _ _).
  assert (version_vulns (match_batches inv os_id os_version (pairs vc) now
      (chunks (Nat.max batch 1) (release_hosts inv os_id os_version)) 0 s0).1 = version_vulns s0) as E
    by apply match_batches_version_vulns.
  destruct (match_batches _ _ _ _ _ _ _ _) as [s1 [n|]]; cbn [fst] in E |- *;
    cbn [mark_release_matched mark_matched set_match_version version_vulns]; rewrite E; unfold s0; rewrite apply_versions_lookup; unfold version_row_after.
  all: pose proof (no_fix_key (version_candidates inv os_id os_version None) k) as Hk;
    pose proof (evaluated_In (version_candidates inv os_id os_version None) k.1) as Hv;
    fold vc in Hk, Hv; unfold version_evaluated, unfixed; rewrite <- Hk, <- Hv.
  all: assert (k ∈ map version_key (no_fix vc) -> k.1 ∈ evaluated vc) as Hkv
    by (intros (c & Hc & _ & ->)%Hk; apply Hv; by exists c).
  all: generalize (version_vulns s !! k); intros old; split; intros He;
    destruct (decide (k ∈ map version_key (no_fix vc))) as [Hf|Hf];
    rewrite ?(bool_decide_eq_true_2 _ Hf), ?(bool_decide_eq_false_2 _ Hf),
      ?(bool_decide_eq_true_2 _ He), ?(bool_decide_eq_false_2 _ He); try done; try (by apply Hkv in Hf).
  all: split; [split|]; try done; try (by intros [? [=]]); try (by intros t -> _); by intros t _ Hu%Hk.
Qed.

End no_fix_facts.

(** ** Examples *)

Definition ex_agent (id : string) (kernel : option string) : AgentRow :=
  {| ag_id := id; ag_os_id := Some "fedora"; ag_os_version := Some "44";
     ag_running_kernel := kernel; ag_has_inventory := true |}.
Definition ex_version (id : Z) (name version : string) : VersionRow :=
  {| pv_id := id; pv_manager := "rpm"; pv_name := name; pv_epoch := 0; pv_version := version;
     pv_release := "1.fc44"; pv_arch := "x86_64"; pv_source := None; pv_source_version := None |}.
Definition ex_package (advisory name : string) (fixed : option string) : AdvisoryPackage :=
  {| ap_advisory := advisory; ap_name := name; ap_arch := "x86_64"; ap_scheme := "rpm";
     ap_match_on := "binary"; ap_introduced := None; ap_fixed := fixed; ap_last_affected := None |}.
Definition ex_advisory (id : string) : AdvisoryRow :=
  {| ad_id := id; ad_source := "fedora-44-x86_64"; ad_os_id := "fedora"; ad_os_version := "44";
     ad_severity := "critical" |}.

Definition ex_inv : Inventory :=
  {| agents := [ex_agent "h1" None; ex_agent "h2" None; ex_agent "h3" None];
     package_versions := [ex_version 1 "openssl" "3.2.1"; ex_version 2 "openssl" "3.2.2";
                          ex_version 3 "zlib" "1.3"];
     host_packages := [("h1", 1); ("h1", 2); ("h2", 1); ("h3", 2); ("h3", 3)];
     advisories := [ex_advisory "FEDORA-1"; ex_advisory "FEDORA-2"];
     advisory_packages := [ex_package "FEDORA-1" "openssl" (Some "0:3.2.2-1.fc44");
                           ex_package "FEDORA-2" "zlib" None];
     triage := ∅ |}.

Definition ex_state : State :=
  {| vulns := {[ ("h1", "FEDORA-1") := {| v_packages := JNull; v_reboot_needed := false;
                   v_first_seen_at := 10; v_fixed_at := None; v_last_evaluated_at := 10 |} ]};
     version_vulns := {[ (1, ("FEDORA-2", "openssl")) := 10 ]};
     match_version := ∅; counts := ∅; listed_critical := ∅ |}.

Lemma ex_one_scheme : one_scheme ex_inv.
Proof. intros ap ap' H H' _. simpl in H, H'. by destruct_or! H; destruct_or! H'; subst. Defined.

(** [h1] keeps the old version beside the fixed one; [h2] has only the old one. *)
Example ex_match_release :
  let s := (match_release_in_batches ex_inv "fedora" "44" 2 100 ex_state).1 in
  (v_fixed_at <$> vulns s !! ("h1", "FEDORA-1"), v_fixed_at <$> vulns s !! ("h2", "FEDORA-1"),
   v_fixed_at <$> vulns s !! ("h3", "FEDORA-1"), version_vulns s !! (3, ("FEDORA-2", "zlib")),
   c_critical <$> counts s !! "h2", listed_critical s !! "h3")
  = (Some (Some 100), Some None, None, Some 100, Some 1, Some 1).
Proof. vm_compute. reflexivity. Qed.

Lemma apply_records_witness :
  vulns (apply ex_inv (Host "h1") [] 100 ex_state).1 !! ("h1", "FEDORA-1")
  = Some {| v_packages := JNull; v_reboot_needed := false; v_first_seen_at := 10;
            v_fixed_at := Some 100; v_last_evaluated_at := 100 |}.
Proof.
  destruct (apply_records ex_inv (Host "h1") [] 100 ex_state) as [H _].
  destruct (H eq_refl) as [_ Hk]. rewrite Hk. reflexivity.
Defined.

Lemma match_release_exact_witness :
  is_open (match_release_in_batches ex_inv "fedora" "44" 2 100 ex_state).1 ("h2", "FEDORA-1")
  <-> exposed ex_inv "fedora" "44" "h2" "FEDORA-1".
Proof.
  destruct (match_release_exact ex_inv "fedora" "44" 2 100 ex_state ex_one_scheme) as [_ H].
  destruct (H "h2" "FEDORA-1") as [H' _]. apply H'; [simpl; tauto|].
  exists (ex_advisory "FEDORA-1"). simpl. tauto.
Defined.

Lemma match_host_exact_witness :
  is_open (match_host ex_inv "h1" 100 ex_state).1 ("h1", "FEDORA-1")
  <-> exposed ex_inv "fedora" "44" "h1" "FEDORA-1".
Proof. exact (proj2 (proj2 (match_host_exact ex_inv "h1" 100 ex_state ex_one_scheme)) "FEDORA-1"). Defined.

Lemma match_release_no_fix_witness :
  is_Some (version_vulns (match_release_in_batches ex_inv "fedora" "44" 2 100 ex_state).1
             !! (3, ("FEDORA-2", "zlib")))
  <-> unfixed ex_inv "fedora" "44" (3, ("FEDORA-2", "zlib")).
Proof.
  apply (match_release_no_fix ex_inv "fedora" "44" 2 100 ex_state (3, ("FEDORA-2", "zlib"))).
  exists (candidate_row "" None (ex_package "FEDORA-2" "zlib" None) (ex_version 3 "zlib" "1.3")).
  split; [|done]. vm_compute. tauto.
Defined.

(** A version whose last advisory entry went away has no candidate, so the run does not evaluate
    it and keeps the row of the withdrawn entry. *)
Example stale_no_fix_row_stays :
  let inv := {| agents := [ex_agent "h1" None]; package_versions := [ex_version 3 "zlib" "1.3"];
                host_packages := [("h1", 3)]; advisories := [ex_advisory "FEDORA-2"];
                advisory_packages := []; triage := ∅ |} in
  let s := set_version_vulns (fun _ => {[ (3, ("FEDORA-2", "zlib")) := 10 ]}) ex_state in
  version_candidates inv "fedora" "44" None = []
  /\ version_vulns (match_release inv "fedora" "44" 100 s).1 !! (3, ("FEDORA-2", "zlib")) = Some 10
  /\ c_no_fix <$> counts (match_release inv "fedora" "44" 100 s).1 !! "h1" = Some 1.
Proof. vm_compute. done. Qed.
