(* ===== verification/CpeMatch.v ===== *)
(** * CPE matching (crates/openvibes-vulns/src/cpe.rs, platform-store/src/cpe.rs)

    Installed packages against the upstream version ranges NVD lists per product, for CVEs no
    advisory of the release names.  A CVSS score ([f32]) is only copied: its bit pattern is kept. *)
From S2P Require Import Prelude RustStd BTree.
From S2P Require RpmVer MatchStore Lines.
From stdpp Require Import prelude strings gmap pretty.
From Stdlib Require Import Ascii ZArith Lia.

Open Scope Z_scope.

Definition MAX_CONFIDENCE : Z := 75.

Definition ALIASES : list (string * string) := [
  ("curl", "libcurl"); ("libcurl", "curl"); ("httpd", "http_server"); ("python3", "python");
  ("python3-libs", "python"); ("python3-devel", "python"); ("qemu-kvm", "qemu");
  ("qemu-system-x86", "qemu"); ("vim-minimal", "vim"); ("vim-enhanced", "vim");
  ("java-17-openjdk", "openjdk"); ("java-21-openjdk", "openjdk"); ("openssh-server", "openssh");
  ("openssh-clients", "openssh"); ("libxml2", "libxml2"); ("pcre2", "pcre2");
  ("sqlite-libs", "sqlite"); ("openssl-libs", "openssl"); ("glibc-common", "glibc");
  ("gnutls", "gnutls")].

Definition SUFFIXES : list string :=
  ["-libs"; "-devel"; "-common"; "-static"; "-tools"; "-data"; "-core"; "-utils"; "-minimal";
   "-server"; "-client"; "-clients"].

(** ** Data *)

Inductive Tie := Derived | Exact.

Record Applicability := {
  cve_id : string;
  vendor : string;
  product : string;
  introduced : option string;
  fixed : option string;
  last_affected : option string;
  cvss : option Z;
  fedora : list string;
}.

Record InstalledName := { in_name : string; in_source : option string }.

Record ReleaseVersion := {
  rv_id : Z;
  rv_name : string;
  rv_source : option string;
  rv_version : string;
  rv_installed : string;
}.

Record NewFinding := {
  nf_version : Z;
  nf_cve : string;
  nf_product : string;
  nf_package : string;
  nf_installed : string;
  nf_range_text : string;
  nf_confidence : Z;
  nf_basis : string;
  nf_cvss : option Z;
}.

(** ** Products *)

Definition product_key (name : string) : string := replace_char "-" "_" (to_ascii_lowercase name).

(** The derived [Ord] of [Tie]: [Derived] below [Exact]. *)
Definition tie_max (a b : Tie) : Tie := match a, b with Derived, Derived => Derived | _, _ => Exact end.

Definition add (found : list (string * Tie)) (p : string * Tie) : list (string * Tie) :=
  bt_alter str_cmp p.1 (fun slot => tie_max (default p.2 slot) p.2) found.

(** What is added, in the order of the calls. *)
Definition additions (name : string) (source : option string) : list (string * Tie) :=
  (product_key name, Exact)
  :: flat_map (fun own =>
       (match source with
        | Some source => if String.eqb own name then [(product_key source, Exact)] else []
        | None => []
        end)
       ++ omap (fun suffix => (fun base => (product_key base, Derived)) <$> RustStd.strip_suffix own suffix) SUFFIXES
       ++ omap (fun a : string * string => if String.eqb own a.1 then Some (a.2, Derived) else None) ALIASES)
     (name :: match source with Some s => [s] | None => [] end).

Definition products_of (name : string) (source : option string) : list (string * Tie) :=
  fold_left add (additions name source) [].

Definition is_kernel (name : string) : bool := String.eqb name "kernel" || starts_with name "kernel-".

Definition wanted_products (installed : list InstalledName) : list string :=
  bs_of_list str_cmp (flat_map (fun p => (products_of (in_name p) (in_source p)).*1)
                        (List.filter (fun p => negb (is_kernel (in_name p))) installed)).

(** ** Ranges *)

Definition none_or {A} (o : option A) (p : A -> bool) : bool :=
  match o with Some a => p a | None => true end.

Definition in_range (version : string) (range : Applicability) : bool :=
  none_or (introduced range) (fun from => negb (is_lt (RpmVer.rpmvercmp version from)))
  && none_or (fixed range) (fun fixed => is_lt (RpmVer.rpmvercmp version fixed))
  && none_or (last_affected range) (fun last => negb (is_gt (RpmVer.rpmvercmp version last))).

Definition range_text (range : Applicability) : string :=
  let text :=
    (match introduced range with Some from => ["from " +:+ from] | None => [] end)
    ++ (match fixed range with Some fixed => ["before " +:+ fixed] | None => [] end)
    ++ (match last_affected range with Some last => ["through " +:+ last] | None => [] end) in
  let general := match text with [] => "all versions" | _ => String.concat " " text end in
  match introduced range, last_affected range with
  | Some from, Some last => if String.eqb from last then from +:+ " only" else general
  | _, _ => general
  end.

(** ** Evaluation *)

Definition exact_version (range : Applicability) : bool :=
  match introduced range with
  | Some _ => bool_decide (introduced range = last_affected range)
  | None => false
  end.

Definition is_exact (t : Tie) : bool := match t with Exact => true | Derived => false end.

Definition confidence_of (os_version : string) (tie : Tie) (range : Applicability) : Z :=
  let base := if is_exact tie && negb (exact_version range) then 60 else 55 in
  let listed := existsb (String.eqb os_version) (fedora range) in
  Z.min (if listed then base + 15 else base) MAX_CONFIDENCE.

Definition basis_of (os_version : string) (v : ReleaseVersion) (range : Applicability) : string :=
  "NVD lists " +:+ vendor range +:+ ":" +:+ product range +:+ " " +:+ range_text range
  +:+ " as affected by " +:+ cve_id range +:+ ", and the installed " +:+ rv_name v +:+ " "
  +:+ rv_version v +:+ " is in that range. No Fedora " +:+ os_version
  +:+ " advisory names this CVE (yet), and NVD's ranges are for the upstream project, so Fedora may have patched it."
  +:+ (if existsb (String.eqb os_version) (fedora range)
       then " NVD also lists Fedora " +:+ os_version +:+ " itself as affected." else "").

Definition finding_of (os_version : string) (v : ReleaseVersion) (tie : Tie) (range : Applicability) : NewFinding :=
  {| nf_version := rv_id v; nf_cve := cve_id range; nf_product := product range;
     nf_package := rv_name v; nf_installed := rv_installed v; nf_range_text := range_text range;
     nf_confidence := confidence_of os_version tie range; nf_basis := basis_of os_version v range;
     nf_cvss := cvss range |}.

Definition key : Type := Z * (string * string).
Definition key_cmp : key -> key -> comparison := pair_cmp Z.compare (pair_cmp str_cmp str_cmp).
Definition finding_key (f : NewFinding) : key := (nf_version f, (nf_cve f, nf_product f)).

(** The ranges of CVEs not advised, by product, in their order. *)
Definition by_product (ranges : list Applicability) (advised : list string) : list (string * list Applicability) :=
  fold_left (fun m r => bt_alter str_cmp (product r) (fun l => default [] l ++ [r]) m)
    (List.filter (fun r => negb (existsb (String.eqb (cve_id r)) advised)) ranges) [].

(** A stronger finding replaces the one kept for its key. *)
Definition keep_best (best : list (key * NewFinding)) (f : NewFinding) : list (key * NewFinding) :=
  match bt_get key_cmp (finding_key f) best with
  | Some g => if nf_confidence f <=? nf_confidence g then best else bt_insert key_cmp (finding_key f) f best
  | None => bt_insert key_cmp (finding_key f) f best
  end.

Definition evaluate (os_version : string) (versions : list ReleaseVersion) (ranges : list Applicability)
    (advised : list string) : list NewFinding :=
  let products := by_product ranges advised in
  let best :=
    fold_left (fun best v =>
      fold_left (fun best (p : string * Tie) =>
        match bt_get str_cmp p.1 products with
        | None => best
        | Some candidates =>
            fold_left (fun best range =>
              if in_range (rv_version v) range
              then keep_best best (finding_of os_version v p.2 range) else best) candidates best
        end) (products_of (rv_name v) (rv_source v)) best)
      (List.filter (fun v => negb (is_kernel (rv_name v))) versions) [] in
  best.*2.

(** ** The stored side *)

(** The inventory tables are those matching reads. *)
Record CpeStore := {
  inventory : MatchStore.Inventory;
  applicability : list Applicability;
  advisory_cves : list (string * string);
  cpe_findings : gmap (Z * (string * (string * string))) (NewFinding * Z);
}.

Definition release_version (pv : MatchStore.VersionRow) : ReleaseVersion :=
  {| rv_id := MatchStore.pv_id pv; rv_name := MatchStore.pv_name pv; rv_source := MatchStore.pv_source pv;
     rv_version := MatchStore.pv_version pv;
     rv_installed := pretty (MatchStore.pv_epoch pv) +:+ ":" +:+ MatchStore.pv_version pv +:+ "-"
                     +:+ MatchStore.pv_release pv |}.

(** Distinct rows: one per version some host of the release has. *)
Definition release_versions (s : CpeStore) (os_id os_version : string) : list ReleaseVersion :=
  map release_version
    (List.filter (fun pv => String.eqb (MatchStore.pv_manager pv) "rpm"
         && existsb (fun h : string * Z => Z.eqb h.2 (MatchStore.pv_id pv)
              && existsb (fun g => String.eqb (MatchStore.ag_id g) h.1 && MatchStore.on_release os_id os_version g)
                   (MatchStore.agents (inventory s)))
              (MatchStore.host_packages (inventory s)))
       (MatchStore.package_versions (inventory s))).

(** ORDER BY cve_id, product, introduced NULLS FIRST (texts in byte order). *)
Definition range_order (a b : Applicability) : comparison :=
  str_cmp (cve_id a) (cve_id b) <then> (str_cmp (product a) (product b)
    <then> option_cmp str_cmp (introduced a) (introduced b)).
Definition applicability_for (s : CpeStore) (products : list string) : list Applicability :=
  List.filter (fun r => existsb (String.eqb (product r)) products) (sort_by range_order (applicability s)).

Definition advised_cves (s : CpeStore) (os_id os_version : string) : list string :=
  omap (fun c : string * string =>
      if existsb (fun a => String.eqb (MatchStore.ad_id a) c.1 && String.eqb (MatchStore.ad_os_id a) os_id
                           && String.eqb (MatchStore.ad_os_version a) os_version)
           (MatchStore.advisories (inventory s))
      then Some c.2 else None)
    (advisory_cves s).

Definition stored_key (os_version : string) (f : NewFinding) : Z * (string * (string * string)) :=
  (nf_version f, (os_version, (nf_cve f, nf_product f))).

Definition store_finding (os_version : string) (now : Z)
    (m : gmap (Z * (string * (string * string))) (NewFinding * Z)) (f : NewFinding)
    : gmap (Z * (string * (string * string))) (NewFinding * Z) :=
  <[ stored_key os_version f := (f, from_option snd now (m !! stored_key os_version f)) ]> m.

Definition replace_findings (os_version : string) (findings : list NewFinding) (now : Z) (s : CpeStore)
    : CpeStore * nat :=
  let kept := filter (fun e => ~ (e.1.2.1 = os_version /\ e.1 ∉ map (stored_key os_version) findings)) (cpe_findings s) in
  ({| inventory := inventory s; applicability := applicability s;
      advisory_cves := advisory_cves s;
      cpe_findings := fold_left (store_finding os_version now) findings kept |}, length findings).

Definition refresh (os_id os_version : string) (now : Z) (s : CpeStore) : CpeStore * nat :=
  let versions := release_versions s os_id os_version in
  let installed := map (fun v => {| in_name := rv_name v; in_source := rv_source v |}) versions in
  let ranges := applicability_for s (wanted_products installed) in
  let findings := evaluate os_version versions ranges (advised_cves s os_id os_version) in
  replace_findings os_version findings now s.

(** ** Lemmas *)

#[export] Instance key_order : CmpOrder key_cmp.
Proof. unfold key_cmp. apply _. Qed.

Lemma by_product_get ranges advised p :
  bt_get str_cmp p (by_product ranges advised)
  = let l := List.filter (fun r => String.eqb (product r) p)
               (List.filter (fun r => negb (existsb (String.eqb (cve_id r)) advised)) ranges) in
    match l with [] => None | _ => Some l end.
Proof.
  unfold by_product. set (rs := List.filter _ ranges). clearbody rs.
  rewrite (bt_fold_get str_cmp product (fun r l => default [] l ++ [r])) by constructor.
  assert (forall o, fold_left (fun o a => match str_cmp p (product a) with
      Eq => Some (default [] o ++ [a]) | _ => o end) rs o
    = match List.filter (fun r => String.eqb (product r) p) rs with
      | [] => o | l => Some (default [] o ++ l) end) as H.
  { induction rs as [|r rs IH]; intros o; simpl; [done|]. rewrite IH.
    destruct (String.eqb_spec (product r) p) as [<-|Hne].
    - rewrite (cmp_refl str_cmp). simpl. destruct (List.filter _ rs); [done|]. by rewrite <- app_assoc.
    - assert (str_cmp p (product r) <> Eq) by (rewrite str_cmp_Eq; congruence).
      by destruct (str_cmp p (product r)). }
  rewrite H. simpl. by destruct (List.filter _ rs).
Qed.

(** The findings in the order they are considered. *)
Definition hits (os_version : string) (versions : list ReleaseVersion) (ranges : list Applicability)
    (advised : list string) : list NewFinding :=
  flat_map (fun v =>
    flat_map (fun p : string * Tie =>
        map (finding_of os_version v p.2)
          (List.filter (fun r => in_range (rv_version v) r && String.eqb (product r) p.1)
             (List.filter (fun r => negb (existsb (String.eqb (cve_id r)) advised)) ranges)))
      (products_of (rv_name v) (rv_source v)))
    (List.filter (fun v => negb (is_kernel (rv_name v))) versions).

Lemma fold_flat_map {A B C} (f : C -> B -> C) (g : A -> list B) l c :
  fold_left f (flat_map g l) c = fold_left (fun c a => fold_left f (g a) c) l c.
Proof. revert c. induction l as [|a l IH]; intros c; simpl; [done|]. by rewrite fold_left_app, IH. Qed.

Lemma fold_left_ext {A B} (f g : A -> B -> A) l a :
  (forall a b, f a b = g a b) -> fold_left f l a = fold_left g l a.
Proof. intros H. revert a. induction l as [|b l IH]; intros a; simpl; [done|]. by rewrite H, IH. Qed.

Lemma fold_filter_map {A B C} (f : C -> B -> C) (g : A -> B) (p q : A -> bool) l c :
  fold_left f (map g (List.filter (fun a => p a && q a) l)) c
  = fold_left (fun c a => if p a then f c (g a) else c) (List.filter q l) c.
Proof.
  revert c. induction l as [|a l IH]; intros c; simpl; [done|].
  destruct (p a) eqn:E, (q a); simpl; rewrite ?E; apply IH.
Qed.

Lemma evaluate_hits os_version versions ranges advised :
  evaluate os_version versions ranges advised
  = (fold_left keep_best (hits os_version versions ranges advised) []).*2.
Proof.
  unfold evaluate, hits. f_equal. rewrite fold_flat_map. apply fold_left_ext. intros best v.
  rewrite fold_flat_map. apply fold_left_ext. intros b p. rewrite by_product_get. simpl.
  rewrite fold_filter_map.
  by destruct (List.filter (fun r => String.eqb (product r) p.1) _).
Qed.

Definition best_of (k : key) (l : list NewFinding) (o : option NewFinding) : option NewFinding :=
  fold_left (fun o f => if bool_decide (finding_key f = k)
                        then match o with
                             | Some g => if nf_confidence f <=? nf_confidence g then o else Some f
                             | None => Some f
                             end
                        else o) l o.

Lemma keep_best_sorted m f : bt_sorted key_cmp m -> bt_sorted key_cmp (keep_best m f).
Proof.
  intros Hm. unfold keep_best. destruct (bt_get _ _ _) as [g|]; [destruct (_ <=? _); [done|]|];
    by apply (bt_alter_sorted key_cmp).
Qed.

Lemma keep_best_get k m f :
  bt_sorted key_cmp m -> bt_get key_cmp k (keep_best m f) = best_of k [f] (bt_get key_cmp k m).
Proof.
  intros Hm. unfold keep_best, best_of. simpl. case_bool_decide as Hk.
  - subst k. destruct (bt_get key_cmp (finding_key f) m) as [g|] eqn:E.
    + destruct (_ <=? _); [done|]. unfold bt_insert. by rewrite (bt_get_alter_eq key_cmp).
    + unfold bt_insert. by rewrite (bt_get_alter_eq key_cmp).
  - assert (key_cmp k (finding_key f) <> Eq) by (rewrite (cmp_Eq_iff key_cmp); congruence).
    destruct (bt_get key_cmp (finding_key f) m) as [g|]; [destruct (_ <=? _); [done|]|];
      unfold bt_insert; by rewrite (bt_get_alter_ne key_cmp).
Qed.

Lemma keep_best_fold l m :
  bt_sorted key_cmp m ->
  bt_sorted key_cmp (fold_left keep_best l m)
  /\ forall k, bt_get key_cmp k (fold_left keep_best l m) = best_of k l (bt_get key_cmp k m).
Proof.
  revert m. induction l as [|f l IH]; intros m Hm; simpl; [done|].
  destruct (IH _ (keep_best_sorted m f Hm)) as [Hs Hg]. split; [done|].
  intros k. by rewrite Hg, keep_best_get.
Qed.

Lemma best_of_spec k l o :
  match best_of k l o with
  | None => o = None /\ forall f, In f l -> finding_key f <> k
  | Some b => (o = Some b \/ In b l /\ finding_key b = k)
      /\ (forall f, In f l -> finding_key f = k -> nf_confidence f <= nf_confidence b)
      /\ (forall g, o = Some g -> nf_confidence g <= nf_confidence b)
  end.
Proof.
  revert o. induction l as [|f l IH]; intros o; simpl.
  { destruct o; [|by split; [|intros ? []]]. split_and!; [by left|by intros ? []|]. intros g [= ->]. lia. }
  case_bool_decide as Hk.
  2:{ specialize (IH o). destruct (best_of k l o) as [b|].
      - destruct IH as (H1 & H2 & H3). split_and!; [|intros f' [<-|?]; [done|by apply H2]|done].
        destruct H1 as [?|[??]]; auto.
      - destruct IH as [-> H2]. split; [done|]. intros f' [<-|?]; [done|by apply H2]. }
  set (o' := match o with Some g => _ | None => _ end). specialize (IH o').
  destruct (best_of k l o') as [b|].
  - destruct IH as (H1 & H2 & H3). split_and!.
    + destruct H1 as [H1|[? ?]]; [|by right; split; [right|]].
      unfold o' in H1. destruct o as [g|]; [destruct (_ <=? _)|]; [by left|..];
        injection H1 as <-; right; (split; [by left|done]).
    + intros f' [<-|Hf'] Hk'; [|by apply H2]. unfold o' in H3.
      destruct o as [g|]; [|by apply H3]. destruct (nf_confidence f <=? nf_confidence g) eqn:El.
      * apply Z.leb_le in El. specialize (H3 g eq_refl). lia.
      * by apply H3.
    + intros g ->. unfold o' in H3. destruct (nf_confidence f <=? nf_confidence g) eqn:El; [by apply H3|].
      apply Z.leb_gt in El. specialize (H3 f eq_refl). lia.
  - destruct IH as [IH _]. exfalso. unfold o' in IH. destruct o; [by destruct (_ <=? _)|done].
Qed.

(** ** What a match is *)

(** The product carries the package's own name or its source package's. *)
Definition own_name (name : string) (source : option string) (p : string) : Prop :=
  p = product_key name \/ exists s, source = Some s /\ p = product_key s.
(** Its name is an alias, or what is left of one of the two names without a subpackage's suffix. *)
Definition derived_name (name : string) (source : option string) (p : string) : Prop :=
  exists own, (own = name \/ source = Some own)
  /\ (In (own, p) ALIASES \/ exists base suffix, In suffix SUFFIXES /\ own = base +:+ suffix /\ p = product_key base).

Definition tied (name : string) (source : option string) (p : string) (t : Tie) : Prop :=
  match t with
  | Exact => own_name name source p
  | Derived => derived_name name source p /\ ~ own_name name source p
  end.

(** The version lies in the range, in the order of version tokens. *)
Definition inside (version : string) (r : Applicability) : Prop :=
  (forall from, introduced r = Some from -> RpmVer.version_cmp from version <> Gt)
  /\ (forall f, fixed r = Some f -> RpmVer.version_cmp version f = Lt)
  /\ (forall last, last_affected r = Some last -> RpmVer.version_cmp version last <> Gt).

(** [v] at [r] is a match, tied by [t]. *)
Definition cpe_match (versions : list ReleaseVersion) (ranges : list Applicability) (advised : list string)
    (v : ReleaseVersion) (t : Tie) (r : Applicability) : Prop :=
  In v versions /\ rv_name v <> "kernel" /\ (forall rest, rv_name v <> "kernel-" +:+ rest)
  /\ tied (rv_name v) (rv_source v) (product r) t
  /\ In r ranges /\ ~ In (cve_id r) advised /\ inside (rv_version v) r.

Definition match_key (v : ReleaseVersion) (r : Applicability) : key := (rv_id v, (cve_id r, product r)).

(** The range is one version only. *)
Definition one_version (r : Applicability) : Prop := introduced r <> None /\ introduced r = last_affected r.
#[export] Instance one_version_dec r : Decision (one_version r).
Proof. unfold one_version. apply _. Defined.
#[export] Instance tie_dec : EqDecision Tie.
Proof. solve_decision. Defined.

(** How strong a match is. *)
Definition strength (os_version : string) (t : Tie) (r : Applicability) : Z :=
  (if decide (t = Exact /\ ~ one_version r) then 60 else 55) + (if decide (os_version ∈ fedora r) then 15 else 0).

Lemma confidence_strength os_version t r : confidence_of os_version t r = strength os_version t r.
Proof.
  unfold confidence_of, strength, MAX_CONFIDENCE. assert (existsb (String.eqb os_version) (fedora r) = bool_decide (os_version ∈ fedora r)) as ->.
  { apply Bool.eq_iff_eq_true. rewrite existsb_exists, bool_decide_eq_true, list_elem_of_In. split.
    - by intros (x & Hx & ->%String.eqb_eq).
    - intros H. exists os_version. by rewrite String.eqb_refl. }
  assert (is_exact t && negb (exact_version r) = bool_decide (t = Exact /\ ~ one_version r)) as ->.
  { apply Bool.eq_iff_eq_true. rewrite andb_true_iff, negb_true_iff, bool_decide_eq_true. unfold exact_version, one_version.
    destruct t; [split; [by intros [? _]|by intros [? _]]|]. destruct (introduced r); [|split; [by intros _; split; [|intros []]|done]].
    rewrite bool_decide_eq_false. naive_solver. }
  rewrite <- !decide_bool_decide. by do 2 case_decide.
Qed.

Lemma is_kernel_spec name : is_kernel name = false <-> name <> "kernel" /\ forall rest, name <> "kernel-" +:+ rest.
Proof.
  unfold is_kernel. rewrite orb_false_iff, String.eqb_neq, <- Bool.not_true_iff_false, Lines.starts_with_app. naive_solver.
Qed.

Lemma in_range_spec version r : in_range version r = true <-> inside version r.
Proof.
  unfold in_range, inside, none_or. rewrite !andb_true_iff, Logic.and_assoc. repeat apply Morphisms_Prop.and_iff_morphism.
  - destruct (introduced r) as [x|]; [|naive_solver]. rewrite RpmVer.rpmvercmp_version_cmp.
    pose proof (cmp_antisym RpmVer.version_cmp version x) as Ea.
    destruct (RpmVer.version_cmp version x); simpl in *; (split; [intros He f [= <-]; by rewrite Ea|intros H; by specialize (H x eq_refl)]).
  - destruct (fixed r) as [x|]; [|naive_solver]. rewrite RpmVer.rpmvercmp_version_cmp.
    split; [intros He f [= <-]|intros H; specialize (H x eq_refl)]; by destruct (RpmVer.version_cmp version x).
  - destruct (last_affected r) as [x|]; [|naive_solver]. rewrite RpmVer.rpmvercmp_version_cmp.
    split; [intros He f [= <-]|intros H; specialize (H x eq_refl)]; by destruct (RpmVer.version_cmp version x).
Qed.

(** What one of the two names adds. *)
Lemma derived_additions own p t :
  In (p, t) (omap (fun suffix => (fun base => (product_key base, Derived)) <$> RustStd.strip_suffix own suffix) SUFFIXES
             ++ omap (fun a : string * string => if String.eqb own a.1 then Some (a.2, Derived) else None) ALIASES)
  <-> t = Derived /\ (In (own, p) ALIASES \/ exists base suffix, In suffix SUFFIXES /\ own = base +:+ suffix /\ p = product_key base).
Proof.
  rewrite in_app_iff, <- !list_elem_of_In, !list_elem_of_omap. split.
  - intros [(suffix & Hs & H)|([o q] & Ha & H)].
    + destruct (RustStd.strip_suffix own suffix) as [base|] eqn:E; [|done]. apply strip_suffix_some in E. injection H as <- <-.
      split; [done|]. right. exists base, suffix. by apply list_elem_of_In in Hs.
    + simpl in H. destruct (String.eqb_spec own o) as [->|]; [|done]. injection H as <- <-. split; [done|]. left. done.
  - intros [-> [H|(base & suffix & Hs & E & ->)]].
    + right. exists (own, p). split; [done|]. simpl. by rewrite String.eqb_refl.
    + left. exists suffix. apply list_elem_of_In in Hs. split; [done|]. apply strip_suffix_some in E. by rewrite E.
Qed.

Lemma additions_In name source p t : In (p, t) (additions name source) <->
  match t with Exact => own_name name source p | Derived => derived_name name source p end.
Proof.
  unfold additions. cbn [In]. rewrite in_flat_map. split.
  - intros [[= <- <-]|(own & Hown & H)]; [by left|]. rewrite in_app_iff, derived_additions in H. destruct H as [H|[-> H]].
    + destruct source as [s|]; [|done]. destruct (String.eqb own name); [|done]. destruct H as [[= <- <-]|[]]. right. by exists s.
    + exists own. split; [|done]. destruct Hown as [->|Hown]; [by left|right]. destruct source as [s|]; [|done]. by destruct Hown as [->|[]].
  - destruct t.
    + intros (own & Hown & H). right. exists own. split.
      * destruct Hown as [->| ->]; [by left|by right; left].
      * rewrite in_app_iff, derived_additions. by right.
    + intros [->|(s & -> & ->)]; [by left|right]. exists name. split; [by left|]. rewrite in_app_iff, String.eqb_refl. left. by left.
Qed.

Lemma strongest p l : forall o,
  fold_left (fun o (a : string * Tie) => match str_cmp p a.1 with Eq => Some (tie_max (default a.2 o) a.2) | _ => o end) l o
  = if decide (o = Some Exact \/ (p, Exact) ∈ l) then Some Exact
    else if decide (o = Some Derived \/ (p, Derived) ∈ l) then Some Derived else None.
Proof.
  induction l as [|[q u] l IH]; intros o; simpl.
  - pose proof (not_elem_of_nil (p, Exact)). pose proof (not_elem_of_nil (p, Derived)). destruct o as [[]|]; repeat case_decide; naive_solver.
  - rewrite IH. clear IH. pose proof (elem_of_cons l (p, Exact) (q, u)) as H1. pose proof (elem_of_cons l (p, Derived) (q, u)) as H2. destruct (decide (p = q)) as [<-|Hne].
    + rewrite (cmp_refl str_cmp). destruct o as [[]|], u; simpl; repeat case_decide; naive_solver.
    + assert (str_cmp p q <> Eq) by (rewrite str_cmp_Eq; congruence).
      destruct (str_cmp p q); [done|..]; repeat case_decide; naive_solver.
Qed.

Lemma products_of_In name source p t : In (p, t) (products_of name source) <-> tied name source p t.
Proof.
  assert (bt_sorted str_cmp (products_of name source)) as Hs by (apply (bt_fold_sorted str_cmp); constructor).
  assert (In (p, t) (products_of name source) <-> bt_get str_cmp p (products_of name source) = Some t) as ->.
  { split; [by apply (bt_In_get str_cmp)|apply (bt_get_In str_cmp)]. }
  unfold products_of, add. rewrite (bt_fold_get str_cmp fst (fun a slot => tie_max (default a.2 slot) a.2)) by constructor.
  rewrite (strongest p). unfold tied. pose proof (additions_In name source p Exact) as He. pose proof (additions_In name source p Derived) as Hd.
  rewrite <- list_elem_of_In in He, Hd. repeat case_decide; destruct t; naive_solver.
Qed.

(** A match as the code looks for it. *)
Lemma cpe_match_code versions ranges advised v t r : cpe_match versions ranges advised v t r <->
  In v versions /\ is_kernel (rv_name v) = false /\ In (product r, t) (products_of (rv_name v) (rv_source v))
  /\ In r ranges /\ ~ In (cve_id r) advised /\ in_range (rv_version v) r = true.
Proof. unfold cpe_match. rewrite is_kernel_spec, products_of_In, in_range_spec. tauto. Qed.

Lemma hits_In os_version versions ranges advised f :
  In f (hits os_version versions ranges advised) <->
  exists v t r, cpe_match versions ranges advised v t r /\ f = finding_of os_version v t r.
Proof.
  unfold hits. setoid_rewrite cpe_match_code. rewrite in_flat_map. split.
  - intros (v & [Hv Hk]%filter_In & ([p t] & Hp & (r & <- & Hr)%in_map_iff)%in_flat_map).
    apply filter_In in Hr as [Hr E]. apply filter_In in Hr as [Hr Ha]. simpl in *. bprop.
    apply String.eqb_eq in H0. subst p. exists v, t, r. split_and!; try done.
    intros Hin. rewrite <- Bool.not_true_iff_false in Ha. apply Ha. apply existsb_exists. exists (cve_id r).
    by rewrite String.eqb_refl.
  - intros (v & t & r & (Hv & Hk & Hp & Hr & Ha & Hi) & ->). exists v. split.
    { apply filter_In. by rewrite Hk. }
    apply in_flat_map. exists (product r, t). split; [done|]. apply in_map_iff. exists r. split; [done|].
    simpl. apply filter_In. rewrite Hi, String.eqb_refl. split; [|done]. apply filter_In. split; [done|].
    apply negb_true_iff, Bool.not_true_iff_false. intros (x & Hx & E%String.eqb_eq)%existsb_exists. by subst x.
Qed.

Lemma evaluate_In os_version versions ranges advised f :
  In f (evaluate os_version versions ranges advised) <->
  best_of (finding_key f) (hits os_version versions ranges advised) None = Some f.
Proof.
  rewrite evaluate_hits. set (l := hits _ _ _ _).
  destruct (keep_best_fold l []) as [Hs Hg]; [constructor|].
  pose proof (Hg (finding_key f)) as Hf. simpl in Hf. rewrite <- Hf.
  assert (forall k b, In (k, b) (fold_left keep_best l []) -> finding_key b = k) as Hk.
  { intros k b Hin. apply (bt_In_get key_cmp) in Hin; [|done]. rewrite Hg in Hin. simpl in Hin.
    pose proof (best_of_spec k l None) as H. rewrite Hin in H.
    by destruct H as ([?|[_ ?]] & _). }
  split.
  - intros ([k b] & <- & Hin)%in_map_iff. simpl. rewrite (Hk k b Hin). by apply (bt_In_get key_cmp).
  - intros Hget%(bt_get_In key_cmp). apply in_map_iff. by exists (finding_key f, f).
Qed.

Lemma evaluate_keys_NoDup os_version versions ranges advised :
  NoDup (map (stored_key os_version) (evaluate os_version versions ranges advised)).
Proof.
  rewrite evaluate_hits. destruct (keep_best_fold (hits os_version versions ranges advised) []) as [Hs Hg];
    [constructor|]. set (m := fold_left _ _ _) in *.
  assert (forall k b, In (k, b) m -> finding_key b = k) as Hk.
  { intros k b Hin. apply (bt_In_get key_cmp) in Hin; [|done]. rewrite Hg in Hin.
    pose proof (best_of_spec k (hits os_version versions ranges advised) None) as H. simpl in Hin.
    rewrite Hin in H. by destruct H as ([?|[_ ?]] & _). }
  pose proof (bt_keys_NoDup key_cmp m Hs) as Hnd. clear Hs Hg. clearbody m.
  induction m as [|[k b] m IH]; simpl; [constructor|].
  simpl in Hnd. inversion Hnd as [|? ? Hn Hnd' E]; subst. constructor.
  - intros (f & Ef & Hf%list_elem_of_In)%list_elem_of_fmap. apply Hn.
    apply in_map_iff in Hf as ([k' f'] & <- & Hf). simpl in Ef.
    assert (k = k') as ->.
    { rewrite <- (Hk k b), <- (Hk k' f') by (simpl; auto). unfold stored_key in Ef. unfold finding_key. congruence. }
    apply list_elem_of_fmap. exists (k', f'). split; [done|]. by apply list_elem_of_In.
  - apply IH; [|done]. intros k' b' Hin. apply Hk. by right.
Qed.

(** ** Properties *)

(** C37: the findings are exact. A (version, CVE, product) has a finding if and only if an installed
    version that is not a kernel could be that product, by its name, its source package's, an alias or a
    subpackage's suffix, lies in one of its ranges in the order of version tokens, and no advisory
    of the release names the CVE; there is one finding per triple, it is that of such a match, and none is
    stronger: 60 for a package of the product's own name in a range of versions, else 55, with 15
    more when NVD lists the release. *)
Theorem cpe_findings_exact os_version versions ranges advised :
  let found := evaluate os_version versions ranges advised in
  let matches := cpe_match versions ranges advised in
  (forall k, In k (map finding_key found) <-> exists v t r, matches v t r /\ match_key v r = k)
  /\ NoDup (map finding_key found)
  /\ forall f, In f found ->
       (exists v t r, matches v t r /\ f = finding_of os_version v t r /\ nf_confidence f = strength os_version t r)
       /\ (forall v t r, matches v t r -> match_key v r = finding_key f -> strength os_version t r <= nf_confidence f)
       /\ nf_confidence f <= MAX_CONFIDENCE.
Proof.
  intros found matches. set (l := hits os_version versions ranges advised).
  assert (forall v t r, matches v t r -> In (finding_of os_version v t r) l) as Hl.
  { intros v t r Hm. apply hits_In. eauto. }
  assert (forall f, In f found -> exists v t r, matches v t r /\ f = finding_of os_version v t r) as Hf.
  { intros f H%evaluate_In. pose proof (best_of_spec (finding_key f) l None) as Hs. fold l in H. rewrite H in Hs.
    destruct Hs as ([?|[Hin%hits_In _]] & _); done. }
  split_and!.
  - intros k. rewrite in_map_iff. split.
    + intros (f & <- & (v & t & r & Hm & ->)%Hf). by exists v, t, r.
    + intros (v & t & r & Hm & <-). pose proof (best_of_spec (match_key v r) l None) as Hs.
      destruct (best_of (match_key v r) l None) as [b|] eqn:Eb.
      * destruct Hs as ([?|[Hb Hk]] & _); [done|]. exists b. split; [done|]. apply evaluate_In. fold l. by rewrite Hk.
      * destruct Hs as [_ Hno]. by destruct (Hno _ (Hl _ _ _ Hm)).
  - pose proof (evaluate_keys_NoDup os_version versions ranges advised) as Hnd. fold found in Hnd.
    rewrite <- (map_map finding_key (fun k => (k.1, (os_version, k.2)))) in Hnd. exact (NoDup_fmap_1 _ _ Hnd).
  - intros f Hin. pose proof Hin as Hin'. apply evaluate_In in Hin'. fold l in Hin'.
    pose proof (best_of_spec (finding_key f) l None) as Hs. rewrite Hin' in Hs. destruct Hs as (_ & Hmax & _).
    split_and!.
    + destruct (Hf f Hin) as (v & t & r & Hm & ->). exists v, t, r. split_and!; [done..|]. apply confidence_strength.
    + intros v t r Hm Ek. rewrite <- confidence_strength. by apply (Hmax (finding_of os_version v t r) (Hl _ _ _ Hm)).
    + destruct (Hf f Hin) as (v & t & r & _ & ->). simpl. unfold confidence_of. lia.
Qed.

Lemma wanted_In v versions p t :
  In v versions -> is_kernel (rv_name v) = false -> In (p, t) (products_of (rv_name v) (rv_source v)) ->
  In p (wanted_products (map (fun v => {| in_name := rv_name v; in_source := rv_source v |}) versions)).
Proof.
  intros Hv Hk Hp. unfold wanted_products. apply (bs_of_list_In str_cmp). apply in_flat_map.
  exists {| in_name := rv_name v; in_source := rv_source v |}. split.
  - apply filter_In. simpl. rewrite Hk. split; [|done]. apply in_map_iff. by exists v.
  - simpl. apply list_elem_of_In, list_elem_of_fmap. exists (p, t). split; [done|]. by apply list_elem_of_In.
Qed.

Lemma evaluate_wanted os_version versions ranges advised :
  evaluate os_version versions
    (List.filter (fun r => existsb (String.eqb (product r))
        (wanted_products (map (fun v => {| in_name := rv_name v; in_source := rv_source v |}) versions))) ranges)
    advised
  = evaluate os_version versions ranges advised.
Proof.
  rewrite !evaluate_hits. do 2 f_equal. unfold hits.
  set (w := wanted_products _).
  assert (forall v, In v (List.filter (fun v => negb (is_kernel (rv_name v))) versions) ->
    forall p t, In (p, t) (products_of (rv_name v) (rv_source v)) -> In p w) as Hw.
  { intros v [Hv Hk]%filter_In p t Hp. bprop. by eapply wanted_In. }
  induction (List.filter (fun v => negb (is_kernel (rv_name v))) versions) as [|v vs IH]; [done|].
  cbn [flat_map]. rewrite IH by (intros v' Hv'; apply Hw; by right). f_equal.
  specialize (Hw v (or_introl eq_refl)).
  induction (products_of (rv_name v) (rv_source v)) as [|[p t] ps IHp]; [done|].
  cbn [flat_map]. rewrite IHp by (intros p' t' Hp'; apply (Hw p' t'); by right). f_equal. f_equal.
  assert (In p w) as Hp by (apply (Hw p t); by left). clear - Hp.
  cbn [fst]. induction ranges as [|r rs IHr]; simpl; [done|].
  destruct (String.eqb_spec (product r) p) as [E|E].
  - assert (existsb (String.eqb (product r)) w = true) as ->.
    { apply existsb_exists. exists p. split; [done|]. by apply String.eqb_eq. }
    simpl. destruct (negb (existsb (String.eqb (cve_id r)) advised)); simpl; [|done].
    rewrite E, String.eqb_refl, IHr. done.
  - destruct (existsb (String.eqb (product r)) w); simpl; [|rewrite IHr];
      destruct (negb (existsb (String.eqb (cve_id r)) advised)); simpl; rewrite ?IHr; try done;
      rewrite (proj2 (String.eqb_neq (product r) p) E), ?andb_false_r; done.
Qed.

(** Keeping only the ranges of wanted products loses nothing: the findings from the ranges of
    the products some installed package could be are those from all ranges. *)
Theorem wanted_products_suffice os_version versions ranges advised :
  evaluate os_version versions
    (List.filter (fun r => existsb (String.eqb (product r))
        (wanted_products (map (fun v => {| in_name := rv_name v; in_source := rv_source v |}) versions))) ranges)
    advised
  = evaluate os_version versions ranges advised.
Proof. apply evaluate_wanted. Qed.

Lemma replace_fold_lookup os_version now l m k :
  NoDup (map (stored_key os_version) l) ->
  fold_left (store_finding os_version now) l m !! k
  = match find (fun f => bool_decide (stored_key os_version f = k)) l with
    | Some f => Some (f, from_option snd now (m !! k))
    | None => m !! k
    end.
Proof.
  revert m. induction l as [|f l IH]; intros m Hnd; simpl; [done|].
  inversion Hnd as [|? ? Hn Hnd' E]; subst. rewrite IH by done. case_bool_decide as Hk.
  - subst k. destruct (find _ l) as [g|] eqn:Eg.
    + exfalso. apply find_some in Eg as [Hg Eg%bool_decide_eq_true]. apply Hn. rewrite <- Eg.
      by apply list_elem_of_In, in_map.
    + unfold store_finding. by rewrite lookup_insert_eq.
  - unfold store_finding. by rewrite lookup_insert_ne.
Qed.

(** A refresh (over the ranges in the query's order) makes the release's findings exactly the evaluation of the stored ranges: each
    finding is stored, one that was stored before keeps its first-seen time, the release's other
    findings go, and other releases' findings stay. *)
Theorem refresh_exact os_id os_version now s k :
  let versions := release_versions s os_id os_version in
  let findings := evaluate os_version versions (sort_by range_order (applicability s)) (advised_cves s os_id os_version) in
  let s' := (refresh os_id os_version now s).1 in
  (forall f, In f findings -> stored_key os_version f = k ->
     cpe_findings s' !! k = Some (f, from_option snd now (cpe_findings s !! k)))
  /\ (k ∉ map (stored_key os_version) findings ->
     cpe_findings s' !! k = if bool_decide (k.2.1 = os_version) then None else cpe_findings s !! k).
Proof.
  intros versions findings. unfold refresh, applicability_for. fold versions. rewrite evaluate_wanted.
  fold findings. simpl.
  pose proof (evaluate_keys_NoDup os_version versions (sort_by range_order (applicability s)) (advised_cves s os_id os_version)) as Hnd.
  fold findings in Hnd. rewrite replace_fold_lookup by done. rewrite map_lookup_filter. split.
  - intros f Hf <-. assert (find (fun g => bool_decide (stored_key os_version g = stored_key os_version f)) findings = Some f) as ->.
    { clear - Hf Hnd. induction findings as [|g l IH]; [done|]. simpl in *.
      inversion Hnd as [|? ? Hn Hnd' E]; subst. destruct Hf as [->|Hf].
      - by rewrite bool_decide_eq_true_2.
      - rewrite bool_decide_eq_false_2; [by apply IH|]. intros E. apply Hn. rewrite E.
        by apply list_elem_of_In, in_map. }
    assert (stored_key os_version f ∈ map (stored_key os_version) findings) by by apply list_elem_of_In, in_map.
    destruct (cpe_findings s !! stored_key os_version f); simpl; [|done].
    rewrite option_guard_True; [done|]. naive_solver.
  - intros Hn. destruct (find _ findings) as [g|] eqn:Eg.
    { exfalso. apply find_some in Eg as [Hg Eg%bool_decide_eq_true]. apply Hn. rewrite <- Eg.
      by apply list_elem_of_In, in_map. }
    destruct (cpe_findings s !! k); simpl; [|by case_bool_decide]. case_bool_decide.
    + rewrite option_guard_False; [done|]. naive_solver.
    + rewrite option_guard_True; [done|]. naive_solver.
Qed.

(** ** Examples *)

Definition ex_range (cve product : string) (from fixed last : option string) : Applicability :=
  {| cve_id := cve; vendor := "v"; CpeMatch.product := product; introduced := from;
     CpeMatch.fixed := fixed; last_affected := last; cvss := None; fedora := [] |}.
Definition ex_version (id : Z) (name : string) (source : option string) (v : string) : ReleaseVersion :=
  {| rv_id := id; rv_name := name; rv_source := source; rv_version := v;
     rv_installed := "0:" +:+ v +:+ "-1.fc44" |}.

Example cpe_vectors :
  bt_get str_cmp "openssl" (products_of "openssl-libs" (Some "openssl")) = Some Exact
  /\ bt_get str_cmp "openssl_libs" (products_of "openssl-libs" (Some "openssl")) = Some Exact
  /\ bt_get str_cmp "libcurl" (products_of "curl" None) = Some Derived
  /\ product_key "Python-Requests" = "python_requests"
  /\ map (fun v => length (evaluate "44" [ex_version 1 "libcurl" (Some "curl") v]
             [ex_range "CVE-1" "libcurl" (Some "7.69.0") (Some "8.4.0") None] []))
       ["7.68.9"; "7.69.0"; "8.3.0"; "8.4.0"; "8.10.1"] = [0; 1; 1; 0; 0]%nat
  /\ map nf_confidence (evaluate "44" [ex_version 3 "httpd" None "2.4"]
             [ex_range "CVE-2" "http_server" None (Some "9") None] []) = [55]
  /\ evaluate "44" [ex_version 1 "kernel-core" None "6.1"] [ex_range "CVE-1" "kernel" None (Some "9") None] [] = [].
Proof. vm_compute. done. Qed.

Definition ex_versions : list ReleaseVersion := [ex_version 1 "libcurl" (Some "curl") "8.3.0"].
Definition ex_ranges : list Applicability := [ex_range "CVE-1" "libcurl" (Some "7.69.0") (Some "8.4.0") None].

(** The key of the one match is found, and its finding has the strength of it. *)
Lemma cpe_findings_exact_witness :
  In (1, ("CVE-1", "libcurl")) (map finding_key (evaluate "44" ex_versions ex_ranges []))
  /\ forall f, In f (evaluate "44" ex_versions ex_ranges []) -> 60 <= nf_confidence f <= MAX_CONFIDENCE.
Proof.
  destruct (cpe_findings_exact "44" ex_versions ex_ranges []) as (Hk & _ & Hf).
  set (v := ex_version 1 "libcurl" (Some "curl") "8.3.0").
  set (r := ex_range "CVE-1" "libcurl" (Some "7.69.0") (Some "8.4.0") None).
  assert (cpe_match ex_versions ex_ranges [] v Exact r) as Hm.
  { apply cpe_match_code. split_and!; [by left|by vm_compute|vm_compute; auto|by left|by intros []|by vm_compute]. }
  split; [apply Hk; by exists v, Exact, r|]. intros f Hin. destruct (Hf f Hin) as ((v' & t' & r' & Hm' & -> & E) & Hmax & Hle).
  split; [|exact Hle]. apply (Hmax v Exact r Hm). apply cpe_match_code in Hm' as ([<-|[]] & _ & _ & [<-|[]] & _). reflexivity.
Defined.
