(* ===== verification/CaseData.v ===== *)
(** * Cases: data, references and field checks
      (platform-store/src/console_cases/mod.rs, items.rs, close.rs and outcomes.rs)

    The pure part of the cases component: what an item points at, the shape its reference must
    have, and the checks a request passes before the database is touched. *)
From S2P Require Import Prelude RustStd Text.
From stdpp Require Import prelude strings pretty.
From Stdlib Require Import Ascii ZArith Lia.

Open Scope Z_scope.

Definition MAX_ITEMS_PER_CASE : Z := 500.
Definition MAX_ITEMS_ON_CREATE : nat := 50.
Definition MAX_EVENTS_PER_CASE : Z := 2000.
Definition MAX_TITLE_CHARS : Z := 120.
Definition MAX_NOTE_CHARS : Z := 4000.
Definition EVIDENCE_WATCH_DAYS : Z := 30.
Definition MAX_ACCEPT_DAYS : Z := 365.
Definition OUTCOMES : list string :=
  ["resolved"; "false_positive"; "accepted_risk"; "confirmed_malicious"; "expected"].
Definition REOPEN_BATCH : nat := 100.
Definition FOR_ITEM_LIMIT : nat := 50.
Definition ACTIVE_ITEMS_LIMIT : nat := Z.to_nat 20000.

(** Times are microseconds; [chrono::Duration::days]. *)
Definition days (n : Z) : Z := n * 86400000000.

Inductive ItemKind := Alarm | Finding | Vulnerability | Host | Software | Port | Service.

#[export] Instance ItemKind_eq_dec : EqDecision ItemKind.
Proof. solve_decision. Defined.

Definition as_str (k : ItemKind) : string :=
  match k with
  | Alarm => "alarm"
  | Finding => "compliance_finding"
  | Vulnerability => "vulnerability"
  | Host => "host"
  | Software => "software"
  | Port => "port"
  | Service => "service"
  end.

Definition parse_kind (text : string) : option ItemKind :=
  if String.eqb text "alarm" then Some Alarm
  else if String.eqb text "compliance_finding" then Some Finding
  else if String.eqb text "vulnerability" then Some Vulnerability
  else if String.eqb text "host" then Some Host
  else if String.eqb text "software" then Some Software
  else if String.eqb text "port" then Some Port
  else if String.eqb text "service" then Some Service
  else None.

Definition exclusive (k : ItemKind) : bool :=
  match k with Alarm | Finding | Vulnerability => true | _ => false end.

(** Why a request was refused (not a database failure). *)
Inductive Refusal :=
  | NotFound
  | ItemNotFound
  | Stale
  | Closed
  | Invalid (field code : string)
  | AssigneeUnavailable
  | ItemInCase (number : option Z)
  | AlreadyInCase
  | TooManyItems
  | TimelineFull
  | ItemsUnresolved (n : Z)
  | HiddenItemsUnresolved
  | EvidencePresent.

Record CaseChange := {
  expected_version : Z;
  ch_title : string;
  ch_severity : string;
  ch_status : string;
  ch_assignee : option string;
  closing_note : option string;
}.

Record NewCase := {
  nc_title : string;
  nc_severity : option string;
  nc_assignee : option string;
  nc_items : list (string * string);
}.

Record OutcomeChange := {
  oc_outcome : string;
  oc_note : option string;
  oc_until : option Z;
}.

Definition mem (l : list string) (s : string) : bool := existsb (String.eqb s) l.

(** ** Field checks *)

Definition is_uuid (id : string) : bool :=
  (str_len id =? 36)
  && forallb (fun p : nat * Z =>
       if existsb (Nat.eqb p.1) [8; 13; 18; 23]%nat then p.2 =? 45 else is_ascii_hexdigit p.2)
     (imap pair (bytes id)).

(** A [uuid] compares without regard to case: stored ids are in lower case. *)
Definition canon (id : string) : string := to_ascii_lowercase id.

Definition case_severity_of (item_severity : string) : option string :=
  if String.eqb item_severity "critical" then Some "critical"
  else if mem ["high"; "important"] item_severity then Some "high"
  else if mem ["medium"; "moderate"] item_severity then Some "medium"
  else if mem ["low"; "info"; "unrated"] item_severity then Some "low"
  else None.

Definition severity_rank (severity : string) : Z :=
  if String.eqb severity "critical" then 3
  else if String.eqb severity "high" then 2
  else if String.eqb severity "medium" then 1
  else 0.

(** [max_by_key]: the last of the greatest. *)
Definition max_by_key {A} (key : A -> Z) (l : list A) : option A :=
  fold_left (fun best x => match best with
                           | Some b => if key b <=? key x then Some x else Some b
                           | None => Some x
                           end) l None.

Definition default_severity (items : list (option string)) : string :=
  default "medium" (max_by_key severity_rank (omap (fun s => s ≫= case_severity_of) items)).

Definition identifier_byte (b : Z) : bool :=
  is_ascii_alphanumeric b || existsb (Z.eqb b) [46; 95; 58; 45].
Definition identifier_ok (text : string) : bool :=
  negb (is_empty text) && (str_len text <=? 128) && forallb identifier_byte (bytes text).

Definition free_text_ok (text : string) (longest : Z) : bool :=
  negb (is_empty text) && (char_count text <=? longest)
  && negb (existsb is_control (chars text)).

Definition title_ok (title : string) : bool :=
  free_text_ok title MAX_TITLE_CHARS && is_trimmed title.

Definition severity_ok (severity : string) : bool :=
  mem ["critical"; "high"; "medium"; "low"] severity.

Definition note_ok (text : string) : bool :=
  negb (is_blank text) && (char_count text <=? MAX_NOTE_CHARS)
  && negb (existsb (fun c => is_control c && negb (existsb (Z.eqb c) [10; 13; 9])) (chars text)).

Definition closing_valid (change : CaseChange) : option (string * string) :=
  match String.eqb (ch_status change) "closed", closing_note change with
  | false, Some _ => Some ("closing_note", "closing_note_not_allowed")
  | true, None => Some ("closing_note", "closing_note_required")
  | true, Some note => if note_ok note then None else Some ("closing_note", "invalid_note")
  | false, None => None
  end.

Definition outcome_valid (change : OutcomeChange) (now : Z) : option (string * string) :=
  if negb (mem OUTCOMES (oc_outcome change)) then Some ("outcome", "invalid_outcome")
  else
    let note := match oc_note change with
                | None => if String.eqb (oc_outcome change) "resolved" then None
                          else Some ("note", "note_required")
                | Some note => if note_ok note then None else Some ("note", "invalid_note")
                end in
    match note with
    | Some e => Some e
    | None =>
        match String.eqb (oc_outcome change) "accepted_risk", oc_until change with
        | true, None => Some ("outcome_until", "outcome_until_required")
        | true, Some until =>
            if until <=? now then Some ("outcome_until", "outcome_until_past")
            else if now + days MAX_ACCEPT_DAYS <? until
                 then Some ("outcome_until", "outcome_until_too_far")
                 else None
        | false, Some _ => Some ("outcome_until", "outcome_until_not_allowed")
        | false, None => None
        end
    end.

(** The [C-104], [c104] or [104] a search text may be. *)
Definition case_number (text : string) : option Z :=
  let strip p := str_strip_prefix p text in
  let digits := match strip "C-" with
                | Some d => d
                | None => match strip "c-" with
                          | Some d => d
                          | None => match strip "C" with
                                    | Some d => d
                                    | None => default text (strip "c")
                                    end
                          end
                end in
  match parse_i64 digits with
  | Some number => if 0 <? number then Some number else None
  | None => None
  end.

(** ** References *)

Inductive Parsed :=
  | PAlarm (id : Z)
  | PFinding (agent set rule : string)
  | PVulnerability (agent advisory : string)
  | PHost (agent : string)
  | PSoftware (manager : option string) (name : string)
  | PPort (protocol : string) (port : Z)
  | PService (unit : string).

Definition parse_ref (kind : ItemKind) (reference : string) : option Parsed :=
  match kind with
  | Alarm =>
      match parse_i64 reference with
      | Some id => if (0 <? id) && String.eqb (pretty id) reference then Some (PAlarm id) else None
      | None => None
      end
  | Finding =>
      match RustStd.split "/" reference with
      | agent :: set :: rule :: rest =>
          if bool_decide (rest = []) && identifier_ok agent && (is_empty set || identifier_ok set)
             && identifier_ok rule
          then Some (PFinding agent set rule) else None
      | _ => None
      end
  | Vulnerability =>
      match split_once "/" reference with
      | Some (agent, advisory) =>
          if identifier_ok agent && free_text_ok advisory 256
          then Some (PVulnerability agent advisory) else None
      | None => None
      end
  | Host => if identifier_ok reference then Some (PHost reference) else None
  | Software =>
      match split_once "/" reference with
      | None => if free_text_ok reference 256 then Some (PSoftware None reference) else None
      | Some (manager, name) =>
          if identifier_ok manager && free_text_ok name 256
          then Some (PSoftware (Some manager) name) else None
      end
  | Port =>
      match split_once "/" reference with
      | Some (protocol, number) =>
          match parse_i32 number with
          | Some port =>
              if mem ["tcp"; "udp"] protocol && ((1 <=? port) && (port <=? 65535))
                 && String.eqb (pretty port) number
              then Some (PPort protocol port) else None
          | None => None
          end
      | None => None
      end
  | Service => if free_text_ok reference 200 then Some (PService reference) else None
  end.

(** ** The reference a panel writes *)

Definition parsed_kind (p : Parsed) : ItemKind :=
  match p with
  | PAlarm _ => Alarm | PFinding _ _ _ => Finding | PVulnerability _ _ => Vulnerability
  | PHost _ => Host | PSoftware _ _ => Software | PPort _ _ => Port | PService _ => Service
  end.

Definition show_ref (p : Parsed) : string :=
  match p with
  | PAlarm id => pretty id
  | PFinding agent set rule => agent +:+ "/" +:+ set +:+ "/" +:+ rule
  | PVulnerability agent advisory => agent +:+ "/" +:+ advisory
  | PHost agent => agent
  | PSoftware None name => name
  | PSoftware (Some manager) name => manager +:+ "/" +:+ name
  | PPort protocol port => protocol +:+ "/" +:+ pretty port
  | PService unit => unit
  end.

(** The host whose scope decides who sees the item, as its own panel reports it. *)
Definition ref_agent (p : Parsed) : option string :=
  match p with
  | PFinding agent _ _ | PVulnerability agent _ | PHost agent => Some agent
  | _ => None
  end.

Example ref_vectors :
  parse_ref Alarm "42" = Some (PAlarm 42)
  /\ map (parse_ref Alarm) [""; "0"; "-1"; "042"; "4 2"; "1e3"; "99999999999999999999"]
     = replicate 7 None
  /\ parse_ref Finding "a1/baseline/ssh-root-login" = Some (PFinding "a1" "baseline" "ssh-root-login")
  /\ parse_ref Finding "a1//old-rule" = Some (PFinding "a1" "" "old-rule")
  /\ map (parse_ref Finding) ["a1"; "a1/b"; "a1/b/r/x"; "a1/b/"; "/b/r"; "a1/b l/r"] = replicate 6 None
  /\ parse_ref Vulnerability "a1/RHSA-2026:1234" = Some (PVulnerability "a1" "RHSA-2026:1234")
  /\ parse_ref Software "npm/@scope/pkg" = Some (PSoftware (Some "npm") "@scope/pkg")
  /\ parse_ref Software "openssl" = Some (PSoftware None "openssl")
  /\ parse_ref Port "tcp/22" = Some (PPort "tcp" 22)
  /\ map (parse_ref Port) ["tcp"; "tcp/0"; "tcp/65536"; "tcp/022"; "tcp/+22"; "icmp/22"; "TCP/22"; "tcp/"]
     = replicate 8 None.
Proof. vm_compute. done. Qed.

Example text_vectors :
  title_ok "SSH on web-01" = true /\ title_ok "" = false /\ title_ok " padded " = false
  /\ title_ok "tab	here" = false /\ note_ok "   " = false
  /\ map case_number ["C-104"; "c-7"; "c104"; "104"; "ssh"; "C-0"; "C--1"]
     = [Some 104; Some 7; Some 104; Some 104; None; None; None]
  /\ default_severity [Some "low"; None; Some "important"; Some "moderate"] = "high"
  /\ default_severity [None; Some "weird"] = "medium".
Proof. vm_compute. done. Qed.

(** ** Lemmas *)

Lemma parse_kind_as_str k : parse_kind (as_str k) = Some k.
Proof. by destruct k. Qed.

Lemma parse_kind_Some t k : parse_kind t = Some k -> t = as_str k.
Proof.
  unfold parse_kind. repeat (case_match; [intros [= <-]; by apply String.eqb_eq|]). done.
Qed.

Lemma split_on_concat c s :
  let '(part, rest) := split_on c s in String.concat (char_str c) (part :: rest) = s.
Proof.
  induction s as [|d s IH]; [done|]. simpl. destruct (split_on c s) as [part rest].
  destruct (Ascii.eqb_spec d c) as [->|Hne].
  - change (char_str c +:+ String.concat (char_str c) (part :: rest) = String c s). by rewrite IH.
  - rewrite <- IH. by destruct rest.
Qed.

Lemma split_concat c s : String.concat (char_str c) (RustStd.split c s) = s.
Proof.
  unfold RustStd.split. pose proof (split_on_concat c s) as H. by destruct (split_on c s).
Qed.

Lemma parse_ref_shows kind reference p :
  parse_ref kind reference = Some p -> show_ref p = reference /\ parsed_kind p = kind.
Proof.
  unfold parse_ref. destruct kind.
  - destruct (parse_i64 reference) as [id|]; [|done]. destruct (_ && _) eqn:E; [|done]. bprop.
    intros [= <-]. by apply String.eqb_eq in H0.
  - pose proof (split_concat "/" reference) as Hs.
    destruct (RustStd.split "/" reference) as [|a [|b [|c rest]]]; try done.
    destruct (_ && _) eqn:E; [|done]. bprop. intros [= <-]. subst rest. done.
  - pose proof (split_once_spec "/" reference) as Hs.
    destruct (split_once "/" reference) as [[a b]|]; [|done]. destruct Hs as [-> _].
    destruct (_ && _); [|done]. by intros [= <-].
  - case_match; [|done]. by intros [= <-].
  - pose proof (split_once_spec "/" reference) as Hs.
    destruct (split_once "/" reference) as [[a b]|].
    + destruct Hs as [-> _]. destruct (_ && _); [|done]. by intros [= <-].
    + case_match; [|done]. by intros [= <-].
  - pose proof (split_once_spec "/" reference) as Hs.
    destruct (split_once "/" reference) as [[a b]|]; [|done]. destruct Hs as [-> _].
    destruct (parse_i32 b) as [port|]; [|done]. destruct (_ && _) eqn:E; [|done]. bprop.
    intros [= <-]. apply String.eqb_eq in H0. by rewrite <- H0.
  - case_match; [|done]. by intros [= <-].
Qed.

Lemma default_severity_ok items : severity_ok (default_severity items) = true.
Proof.
  unfold default_severity, max_by_key. set (l := omap _ items).
  assert (Forall (fun s => severity_ok s = true) l) as Hl.
  { apply Forall_forall. intros s Hs. apply list_elem_of_omap in Hs as ([x|] & _ & Hx); [|done].
    simpl in Hx. unfold case_severity_of in Hx. repeat case_match; by simplify_eq. }
  assert (forall o, (match o with Some s => severity_ok s = true | None => True end) ->
    match fold_left (fun best x => match best with
                           | Some b => if severity_rank b <=? severity_rank x then Some x else Some b
                           | None => Some x
                           end) l o with Some s => severity_ok s = true | None => True end) as H.
  { induction Hl as [|s l Hs Hl IH]; intros o Ho; simpl; [done|]. apply IH.
    destruct o as [b|]; [destruct (severity_rank b <=? severity_rank s)|]; done. }
  specialize (H None I). by destruct (fold_left _ l None).
Qed.

(** ** Properties *)

(** An accepted reference is stored exactly as the console's panels would write it: what it
    parses to shows back as the same text, so two spellings of one object are never both
    accepted. *)
Theorem parse_ref_canonical kind r1 r2 p :
  parse_ref kind r1 = Some p -> (show_ref p = r1 /\ parsed_kind p = kind)
  /\ (parse_ref kind r2 = Some p -> r1 = r2).
Proof.
  intros H1. apply parse_ref_shows in H1 as [E1 K1]. split; [done|].
  intros H2. apply parse_ref_shows in H2 as [E2 _]. congruence.
Qed.

Lemma parse_ref_canonical_witness :
  show_ref (PPort "tcp" 22) = "tcp/22" /\ parsed_kind (PPort "tcp" 22) = Port.
Proof.
  apply (parse_ref_canonical Port "tcp/22" "tcp/022"). vm_compute. reflexivity.
Defined.
