(* ===== verification/CaseDb.v ===== *)
(** * Cases: tables, visibility and reading (platform-store/src/console_cases/visibility.rs)

    [World] holds the tables the cases component only reads (hosts and their groups, alarms,
    findings, vulnerabilities, software, listeners, services, users); [Db] the ones it writes.  A
    query is a function of both.  User ids come from the session and are canonical; case, item
    and assignee ids come from requests and are compared as [uuid]s ([canon]). *)
From S2P Require Import Prelude RustStd Text Json CaseData.
From stdpp Require Import prelude strings pretty.
From Stdlib Require Import Ascii ZArith Lia.

Open Scope Z_scope.

(** ** Tables read *)

Record AgentRow := { a_id : string; a_hostname : option string; a_status : string; a_groups : list string }.
Record AlarmRow := { al_id : Z; al_agent : option string; al_severity : string; al_state : string;
                     al_source : string; al_message : string }.
Record FindingRow := { fi_agent : string; fi_set : string; fi_rule : string; fi_severity : string;
                       fi_message : string; fi_ended : bool }.
Record AdvisoryRow := { ad_id : string; ad_severity : string; ad_title : string }.
Record VulnerabilityRow := { vu_agent : string; vu_advisory : string; vu_fixed : bool }.
Record UserRow := { u_id : string; u_username : string; u_display_name : string; u_reads_cases : bool }.

Record World := {
  agents : list AgentRow;
  alarms : list AlarmRow;
  current_findings : list FindingRow;
  advisories : list AdvisoryRow;
  vulnerabilities : list VulnerabilityRow;
  version_vulnerabilities : list (Z * string);
  host_packages : list (string * Z);
  package_versions : list (Z * (string * string));
  host_listeners : list (string * (string * Z));
  host_services : list (string * string);
  console_users : list UserRow;
}.

(** ** Tables written *)

Record CaseRow := {
  c_id : string;
  c_number : Z;
  c_title : string;
  c_status : string;
  c_resolution : option string;
  c_resolution_note : option string;
  c_accepted_until : option Z;
  c_severity : string;
  c_assignee : option string;
  c_opened_by : string;
  c_created_at : Z;
  c_updated_at : Z;
  c_closed_at : option Z;
  c_version : Z;
}.

Record ItemRow := {
  i_id : string;
  i_case : string;
  i_kind : ItemKind;
  i_ref : string;
  i_agent : option string;
  i_active : bool;
  i_outcome : option string;
  i_outcome_note : option string;
  i_outcome_until : option Z;
  i_added_by : string;
  i_added_at : Z;
}.

Record EventRow := {
  e_id : Z;
  e_case : string;
  e_at : Z;
  e_actor : option string;
  e_kind : string;
  e_body : option string;
  e_detail : value;
}.

Record AuditRow := {
  au_actor : option string;
  au_action : string;
  au_target : string;
  au_detail : value;
}.

(** Rows in the order of insertion; [next_number] and [next_event] are the identity columns,
    [draws] counts the random ids taken. *)
Record Db := {
  cases : list CaseRow;
  items : list ItemRow;
  events : list EventRow;
  audit_log : list AuditRow;
  next_number : Z;
  next_event : Z;
  draws : nat;
}.

Definition empty_db : Db :=
  {| cases := []; items := []; events := []; audit_log := []; next_number := 1; next_event := 1;
     draws := 0 |}.

(** ** Who is asking *)

Inductive AgentScope := Global | AssetGroups (ids : list string).

Record Viewer := { v_global : bool; v_groups : list string; v_user : string }.

Definition viewer_new (scope : AgentScope) (user_id : string) : Viewer :=
  match scope with
  | Global => {| v_global := true; v_groups := []; v_user := user_id |}
  | AssetGroups ids => {| v_global := false; v_groups := ids; v_user := user_id |}
  end.

Definition is_closed (c : CaseRow) : bool := String.eqb (c_status c) "closed".
Definition opt_eqb (a b : option string) : bool := bool_decide (a = b).

(** [ORDER BY]: a stable insertion sort. *)
Fixpoint insert_by {A} (le : A -> A -> bool) (x : A) (l : list A) : list A :=
  match l with
  | [] => [x]
  | y :: l' => if le x y then x :: l else y :: insert_by le x l'
  end.
Definition sort_by {A} (le : A -> A -> bool) (l : list A) : list A := fold_right (insert_by le) [] l.

Section queries.
Variable w : World.

(** [agent_visibility] on a row [a] of agents. *)
Definition agent_visibility (v : Viewer) (a : AgentRow) : bool :=
  (v_global v || existsb (fun g => mem (v_groups v) g) (a_groups a))
  && (v_global v || negb (String.eqb (a_status a) "imported")).

Definition agent_visible (v : Viewer) (id : string) : bool :=
  existsb (fun a => String.eqb (a_id a) id && agent_visibility v a) (agents w).

Definition item_in_scope (v : Viewer) (i : ItemRow) : bool :=
  match i_agent i with Some a => agent_visible v a | None => false end.

Definition item_visible (v : Viewer) (i : ItemRow) : bool :=
  match i_agent i with Some _ => item_in_scope v i | None => true end.

Definition items_of (db : Db) (case_id : string) : list ItemRow :=
  List.filter (fun i => String.eqb (i_case i) case_id) (items db).

Definition case_visible (db : Db) (v : Viewer) (c : CaseRow) : bool :=
  String.eqb (c_opened_by c) (v_user v)
  || opt_eqb (c_assignee c) (Some (v_user v))
  || existsb (item_in_scope v) (items_of db (c_id c))
  || (v_global v && negb (existsb (fun i => bool_decide (i_agent i <> None)) (items_of db (c_id c)))).

(** ** Evidence *)

(** [split_part(ref, '/', n)] and the text after the first [/]. *)
Definition ref_part (n : nat) (i : ItemRow) : string :=
  default EmptyString (RustStd.split "/" (i_ref i) !! (n - 1)%nat).
Definition ref_tail (i : ItemRow) : string :=
  match split_once "/" (i_ref i) with Some (_, tail) => tail | None => i_ref i end.

Definition item_alarm (i : ItemRow) : option AlarmRow :=
  find (fun al => bool_decide (parse_i64 (i_ref i) = Some (al_id al)) && String.eqb (al_source al) "agent")
    (alarms w).
Definition item_finding (i : ItemRow) : option FindingRow :=
  find (fun f => opt_eqb (i_agent i) (Some (fi_agent f)) && String.eqb (fi_set f) (ref_part 2 i)
                 && String.eqb (fi_rule f) (ref_part 3 i)) (current_findings w).
Definition item_advisory (i : ItemRow) : option AdvisoryRow :=
  find (fun a => String.eqb (ad_id a) (ref_tail i)) (advisories w).

Definition vulnerable_open (agent : option string) (advisory : string) : bool :=
  existsb (fun v => opt_eqb agent (Some (vu_agent v)) && String.eqb (vu_advisory v) advisory
                    && negb (vu_fixed v)) (vulnerabilities w).
(** A version the host has, with a vulnerability no fix is known for. *)
Definition vulnerable_version (agent : option string) (advisory : string) : bool :=
  existsb (fun hp => opt_eqb agent (Some hp.1)
                     && existsb (fun vv => Z.eqb vv.1 hp.2 && String.eqb vv.2 advisory)
                          (version_vulnerabilities w))
    (host_packages w).

Definition item_gone (i : ItemRow) : bool :=
  match i_kind i with
  | Alarm => negb (existsb (fun al => bool_decide (parse_i64 (i_ref i) = Some (al_id al))
                                      && String.eqb (al_source al) "agent"
                                      && negb (String.eqb (al_state al) "mitigated")) (alarms w))
  | Finding => negb (existsb (fun f => opt_eqb (i_agent i) (Some (fi_agent f))
                                       && String.eqb (fi_set f) (ref_part 2 i)
                                       && String.eqb (fi_rule f) (ref_part 3 i) && negb (fi_ended f))
                       (current_findings w))
  | Vulnerability => negb (vulnerable_open (i_agent i) (ref_tail i))
                     && negb (vulnerable_version (i_agent i) (ref_tail i))
  | _ => false
  end.

Definition is_outcome (o : string) (i : ItemRow) : bool := opt_eqb (i_outcome i) (Some o).

(** [sql_now] is the database's clock, [now()]. *)
Definition blocking_item (sql_now : Z) (i : ItemRow) : bool :=
  exclusive (i_kind i)
  && (opt_eqb (i_outcome i) None
      || (is_outcome "resolved" i && negb (item_gone i))
      || (is_outcome "accepted_risk" i
          && match i_outcome_until i with Some u => u <=? sql_now | None => false end)).

(** ** Reading *)

Record UserRef := { ur_id : string; ur_username : string; ur_display_name : string }.

Definition user (id : string) : option UserRow := find (fun u => String.eqb (u_id u) id) (console_users w).
Definition user_ref (id : string) : option UserRef :=
  (fun u => {| ur_id := u_id u; ur_username := u_username u; ur_display_name := u_display_name u |})
  <$> user id.

Definition assignee_available (id : string) : bool :=
  is_uuid id && match user (canon id) with Some u => u_reads_cases u | None => false end.

Record CaseSummary := {
  s_case : CaseRow;
  s_assignee : option UserRef;
  s_opened_by : UserRef;
  s_items : Z;
  s_pending_items : Z;
}.

Record CaseItem := {
  ci_row : ItemRow;
  ci_hostname : option string;
  ci_added_by : UserRef;
  ci_title : option string;
  ci_severity : option string;
  ci_evidence_gone : bool;
}.

Record CaseEvent := { ce_row : EventRow; ce_actor : option UserRef }.

Record CaseDetail := {
  d_summary : CaseSummary;
  d_items : list CaseItem;
  d_events : list CaseEvent;
}.

Definition hostname (agent : option string) : option string :=
  match agent with
  | Some id => find (fun a => String.eqb (a_id a) id) (agents w) ≫= a_hostname
  | None => None
  end.

Definition item_title (i : ItemRow) : option string :=
  match i_kind i with
  | Alarm => al_message <$> item_alarm i
  | Finding => fi_message <$> item_finding i
  | Vulnerability => ad_title <$> item_advisory i
  | Host => hostname (i_agent i)
  | Port | Service => Some (i_ref i)
  | Software => Some (ref_tail i)
  end.

Definition item_severity (i : ItemRow) : option string :=
  match i_kind i with
  | Alarm => al_severity <$> item_alarm i
  | Finding => fi_severity <$> item_finding i
  | Vulnerability => ad_severity <$> item_advisory i
  | _ => None
  end.

Definition find_case (db : Db) (id : string) : option CaseRow :=
  find (fun c => String.eqb (c_id c) id) (cases db).

Definition summary_of (db : Db) (v : Viewer) (c : CaseRow) : option CaseSummary :=
  opened ← user_ref (c_opened_by c);
  let visible := List.filter (item_visible v) (items_of db (c_id c)) in
  Some {| s_case := c; s_assignee := c_assignee c ≫= user_ref; s_opened_by := opened;
          s_items := Z.of_nat (length visible);
          s_pending_items := Z.of_nat (length (List.filter (fun i =>
              exclusive (i_kind i) && opt_eqb (i_outcome i) None) visible)) |}.

Definition read_summary (db : Db) (v : Viewer) (case_id : string) : option CaseSummary :=
  if is_uuid case_id then
    c ← find_case db (canon case_id);
    if case_visible db v c then summary_of db v c else None
  else None.

Definition item_view (i : ItemRow) : option CaseItem :=
  added ← user_ref (i_added_by i);
  Some {| ci_row := i; ci_hostname := hostname (i_agent i); ci_added_by := added;
          ci_title := item_title i; ci_severity := item_severity i;
          ci_evidence_gone := item_gone i |}.

(** Oldest first; rows added in the same instant stay in the order they were added. *)
Definition read_items (db : Db) (v : Viewer) (case_id : string) (item_id : option string) : list CaseItem :=
  omap item_view (sort_by (fun a b => i_added_at a <=? i_added_at b) (List.filter (fun i =>
      item_visible v i
      && match item_id with Some id => String.eqb (i_id i) (canon id) | None => true end)
    (items_of db (canon case_id)))).

Definition event_agent (e : EventRow) : option string := get (e_detail e) "item_agent_id" ≫= Json.as_str.

Definition read_events (db : Db) (v : Viewer) (case_id : string) : list CaseEvent :=
  map (fun e => {| ce_row := e; ce_actor := e_actor e ≫= user_ref |})
    (List.filter (fun e =>
         String.eqb (e_case e) (canon case_id)
         && match event_agent e with Some a => agent_visible v a | None => true end) (events db)).

Definition read_detail (db : Db) (v : Viewer) (case_id : string) : option CaseDetail :=
  summary ← read_summary db v case_id;
  Some {| d_summary := summary; d_items := read_items db v case_id None;
          d_events := read_events db v case_id |}.

(** ** Lists (list.rs) *)

Inductive AssigneeFilter := Anyone | Nobody | UserFilter (id : string).

Record CaseFilters := {
  fl_status : option string;
  fl_severity : option string;
  fl_assignee : AssigneeFilter;
  fl_q : option string;
}.

(** [(updated_at, case_id)] in the order of the pages, newest first. *)
Definition case_key_cmp (a b : Z * string) : comparison := pair_cmp Z.compare str_cmp a b.
Definition case_key (c : CaseRow) : Z * string := (c_updated_at c, c_id c).
Definition newest_first (a b : CaseRow) : bool := is_ge (case_key_cmp (case_key a) (case_key b)).

Definition occurs_in (needle hay : string) : bool :=
  bool_decide (is_Some (String.index 0 needle hay)).

Variable lower : string -> string.

Definition case_listed (db : Db) (v : Viewer) (filters : CaseFilters) (after : option (Z * string))
    (c : CaseRow) : bool :=
  let status := default "active" (fl_status filters) in
  let q := match trim <$> fl_q filters with
           | Some q => if is_empty q then None else Some q
           | None => None
           end in
  let number := q ≫= case_number in
  case_visible db v c
  && (String.eqb status "all" || (String.eqb status "active" && negb (is_closed c))
      || String.eqb (c_status c) status)
  && match fl_severity filters with Some s => String.eqb (c_severity c) s | None => true end
  && match fl_assignee filters with
     | Anyone => true
     | Nobody => opt_eqb (c_assignee c) None
     | UserFilter id =>
         opt_eqb (c_assignee c)
           (Some (if is_uuid id then canon id else "00000000-0000-0000-0000-000000000000"))
     end
  && match q with
     | None => true
     | Some q => bool_decide (number = Some (c_number c)) || occurs_in (lower q) (lower (c_title c))
     end
  && match after with
     | None => true
     (* a row comparison with NULL for a cursor id that is not a uuid *)
     | Some (at_, id) => if is_uuid id then is_lt (case_key_cmp (case_key c) (at_, canon id))
                         else c_updated_at c <? at_
     end.

Definition list_cases (db : Db) (scope : AgentScope) (user_id : string) (filters : CaseFilters)
    (after : option (Z * string)) (limit : nat) : list CaseSummary :=
  let v := viewer_new scope user_id in
  take limit (omap (summary_of db v)
    (sort_by newest_first (List.filter (case_listed db v filters after) (cases db)))).

Definition get_case (db : Db) (scope : AgentScope) (user_id case_id : string) : option CaseDetail :=
  read_detail db (viewer_new scope user_id) case_id.

Definition assignees : list UserRef :=
  omap (fun u => if u_reads_cases u
                 then Some {| ur_id := u_id u; ur_username := u_username u; ur_display_name := u_display_name u |}
                 else None)
    (sort_by (fun a b => is_le (pair_cmp str_cmp str_cmp (lower (u_display_name a), u_username a)
                                  (lower (u_display_name b), u_username b))) (console_users w)).

Record ItemCase := { ic_case : CaseSummary; ic_item : string; ic_outcome : option string }.

Definition for_item (db : Db) (scope : AgentScope) (user_id kind reference : string)
    : Refusal + list ItemCase :=
  match parse_kind kind with
  | None => inl (Invalid "kind" "invalid_kind")
  | Some kind =>
      match parse_ref kind reference with
      | None => inl (Invalid "ref" "invalid_ref")
      | Some _ =>
          let v := viewer_new scope user_id in
          let held := List.filter (fun i =>
              bool_decide (i_kind i = kind) && String.eqb (i_ref i) reference
              && (negb (exclusive kind) || i_active i) && item_visible v i) (items db) in
          let pairs := omap (fun i => c ← find_case db (i_case i);
                                      if case_visible db v c then Some (c, i) else None) held in
          let sorted := sort_by (fun a b : CaseRow * ItemRow => newest_first a.1 b.1) pairs in
          inr (take FOR_ITEM_LIMIT (omap (fun p : CaseRow * ItemRow =>
              s ← summary_of db v p.1;
              Some {| ic_case := s; ic_item := i_id p.2; ic_outcome := i_outcome p.2 |}) sorted))
      end
  end.

Definition active_items (db : Db) (scope : AgentScope) (user_id kind : string)
    : option (list (string * Z)) :=
  match parse_kind kind with
  | Some kind =>
      if exclusive kind then
        let v := viewer_new scope user_id in
        let held := List.filter (fun i =>
            bool_decide (i_kind i = kind) && i_active i && item_visible v i) (items db) in
        let rows := omap (fun i => c ← find_case db (i_case i);
                                   if case_visible db v c then Some (i_ref i, c_number c) else None) held in
        Some (take ACTIVE_ITEMS_LIMIT (sort_by (fun a b => Z.leb a.2 b.2) rows))
      else None
  | None => None
  end.
End queries.
