(* ===== verification/CaseOps.v ===== *)
(** * Cases: the operations
      (platform-store/src/console_cases/close.rs, items.rs, outcomes.rs, events.rs and reopen.rs)

    A transaction is [Tx]: it reads and writes the tables and ends with a value, a refusal or a
    database failure; [run] keeps its writes only when it ends with a value.  Transactions on one
    case hold that case's row lock to their end, so a run of operations is a sequence of them. *)
From S2P Require Import Prelude RustStd Text Json CaseData CaseDb.
From stdpp Require Import prelude strings pretty.
From Stdlib Require Import Ascii ZArith Lia.

Open Scope Z_scope.

(** ** Transactions *)

Inductive res (A : Type) :=
  | Done (a : A)
  | Refused (r : Refusal)
  | StoreError.
Arguments Done {A} a.
Arguments Refused {A} r.
Arguments StoreError {A}.

Definition Tx (A : Type) := Db -> res (A * Db).

Definition ret {A} (a : A) : Tx A := fun db => Done (a, db).
Definition refuse {A} (r : Refusal) : Tx A := fun _ => Refused r.
Definition failed {A} : Tx A := fun _ => StoreError.
Definition bind {A B} (m : Tx A) (k : A -> Tx B) : Tx B := fun db =>
  match m db with
  | Done (a, db) => k a db
  | Refused r => Refused r
  | StoreError => StoreError
  end.
Definition query {A} (f : Db -> A) : Tx A := fun db => Done (f db, db).
Definition write (f : Db -> Db) : Tx unit := fun db => Done (tt, f db).

Declare Scope tx_scope.
Delimit Scope tx_scope with tx.
Notation "x <- m ;; k" := (bind m (fun x => k)) (at level 100, m at next level, right associativity) : tx_scope.
Notation "m ;;; k" := (bind m (fun _ => k)) (at level 100, right associativity) : tx_scope.
Open Scope tx_scope.

(** [let Some(x) = m else { refuse }] and the guards. *)
Definition require {A} (o : option A) (r : Refusal) : Tx A :=
  match o with Some a => ret a | None => refuse r end.
Definition expect {A} (o : option A) : Tx A := match o with Some a => ret a | None => failed end.
Definition refuse_if (b : bool) (r : Refusal) : Tx unit := if b then refuse r else ret tt.

(** The outcome of one request, and the tables afterwards. *)
Definition run {A} (m : Tx A) (db : Db) : res A * Db :=
  match m db with
  | Done (a, db') => (Done a, db')
  | Refused r => (Refused r, db)
  | StoreError => (StoreError, db)
  end.

(** ** Statements *)

Definition set_cases (f : list CaseRow -> list CaseRow) (db : Db) : Db :=
  {| cases := f (cases db); items := items db; events := events db; audit_log := audit_log db;
     next_number := next_number db; next_event := next_event db; draws := draws db |}.
Definition set_items (f : list ItemRow -> list ItemRow) (db : Db) : Db :=
  {| cases := cases db; items := f (items db); events := events db; audit_log := audit_log db;
     next_number := next_number db; next_event := next_event db; draws := draws db |}.

Definition update_case (id : string) (f : CaseRow -> CaseRow) : Db -> Db :=
  set_cases (map (fun c => if String.eqb (c_id c) id then f c else c)).
Definition update_items (p : ItemRow -> bool) (f : ItemRow -> ItemRow) : Db -> Db :=
  set_items (map (fun i => if p i then f i else i)).

Definition touch_row (now : Z) (c : CaseRow) : CaseRow :=
  {| c_id := c_id c; c_number := c_number c; c_title := c_title c; c_status := c_status c;
     c_resolution := c_resolution c; c_resolution_note := c_resolution_note c;
     c_accepted_until := c_accepted_until c; c_severity := c_severity c;
     c_assignee := c_assignee c; c_opened_by := c_opened_by c; c_created_at := c_created_at c;
     c_updated_at := Z.max (c_updated_at c) now; c_closed_at := c_closed_at c;
     c_version := c_version c |}.

Definition touch (case_id : string) (now : Z) : Tx unit :=
  write (update_case (canon case_id) (touch_row now)).

Definition set_active (active : bool) (i : ItemRow) : ItemRow :=
  {| i_id := i_id i; i_case := i_case i; i_kind := i_kind i; i_ref := i_ref i; i_agent := i_agent i;
     i_active := active; i_outcome := i_outcome i; i_outcome_note := i_outcome_note i;
     i_outcome_until := i_outcome_until i; i_added_by := i_added_by i; i_added_at := i_added_at i |}.
Definition set_outcome_row (outcome note : option string) (until : option Z) (i : ItemRow) : ItemRow :=
  {| i_id := i_id i; i_case := i_case i; i_kind := i_kind i; i_ref := i_ref i; i_agent := i_agent i;
     i_active := i_active i; i_outcome := outcome; i_outcome_note := note;
     i_outcome_until := until; i_added_by := i_added_by i; i_added_at := i_added_at i |}.

(** The unique index over active alarms, findings and vulnerabilities. *)
Definition same_object (a b : ItemRow) : bool :=
  bool_decide (i_kind a = i_kind b) && String.eqb (i_ref a) (i_ref b).
Definition exclusive_clash (l : list ItemRow) : bool :=
  existsb (fun a => i_active a && exclusive (i_kind a)
    && existsb (fun b => i_active b && same_object a b && negb (String.eqb (i_id a) (i_id b))) l) l.

(** The keys of [case_items] a new row may not repeat. *)
Definition item_conflict (l : list ItemRow) (row : ItemRow) : bool :=
  existsb (fun o => String.eqb (i_id o) (i_id row)
    || (String.eqb (i_case o) (i_case row) && same_object o row)
    || (i_active o && i_active row && exclusive (i_kind row) && same_object o row)) l.

Section operations.
Variable w : World.
(** [gen_random_uuid()]: the n-th id drawn; the text of a [uuid] is canonical. *)
Variable gen : nat -> string.

Definition draw : Tx string := fun db =>
  Done (canon (gen (draws db)),
        {| cases := cases db; items := items db; events := events db; audit_log := audit_log db;
           next_number := next_number db; next_event := next_event db; draws := S (draws db) |}).

Definition user_known (id : string) : bool := existsb (fun u => String.eqb (u_id u) id) (console_users w).

(** An actor without a user row inserts no audit row; the platform's own actor is [None]. *)
Definition audit (actor : option string) (action case_id : string) (detail : value) : Tx unit :=
  write (fun db =>
    let known := match actor with Some u => user_known u | None => true end in
    if known
    then {| cases := cases db; items := items db; events := events db;
            audit_log := audit_log db ++ [{| au_actor := actor; au_action := action; au_target := case_id; au_detail := detail |}];
            next_number := next_number db; next_event := next_event db; draws := draws db |}
    else db).

Definition push_event (case_id : string) (at_ : Z) (actor : option string) (kind : string)
    (body : option string) (detail : value) : Tx Z := fun db =>
  let known := match actor with Some u => user_known u | None => true end in
  if known
  then Done (next_event db,
        {| cases := cases db; items := items db;
           events := events db ++ [{| e_id := next_event db; e_case := canon case_id; e_at := at_;
                                      e_actor := actor; e_kind := kind; e_body := body; e_detail := detail |}];
           audit_log := audit_log db; next_number := next_number db; next_event := next_event db + 1;
           draws := draws db |})
  else StoreError.

Definition username (id : option string) : value :=
  match id with
  | None => JNull
  | Some id => match user w (canon id) with Some u => JString (u_username u) | None => JNull end
  end.

(** ** Locking *)

Definition lock_case (v : Viewer) (case_id : string) : Tx (option CaseRow) :=
  query (fun db =>
    if is_uuid case_id then
      match find_case db (canon case_id) with
      | Some c => if case_visible w db v c then Some c else None
      | None => None
      end
    else None).

Definition lock_item (v : Viewer) (case_id item_id : string) : Tx (option ItemRow) :=
  query (fun db =>
    if is_uuid item_id
    then find (fun i => String.eqb (i_id i) (canon item_id) && item_visible w v i)
           (items_of db (canon case_id))
    else None).

(** Blocking items, (visible, hidden). *)
Definition blocking_items (sql_now : Z) (v : Viewer) (case_id : string) (db : Db) : Z * Z :=
  let blocking := List.filter (blocking_item w sql_now) (items_of db (canon case_id)) in
  (Z.of_nat (length (List.filter (item_visible w v) blocking)),
   Z.of_nat (length (List.filter (fun i => negb (item_visible w v i)) blocking))).

(** Another case that holds, active, one of this case's exclusive items; the clashing item. *)
Definition clashes (db : Db) (case_id : string) : list (ItemRow * CaseRow) :=
  flat_map (fun mine =>
      if exclusive (i_kind mine) then
        omap (fun o => c ← find_case db (i_case o); Some (mine, c))
          (List.filter (fun o => same_object o mine && i_active o && negb (String.eqb (i_case o) case_id))
             (items db))
      else [])
    (items_of db case_id).

Definition reopen_conflict (v : Viewer) (case_id : string) (db : Db) : option (option Z) :=
  match sort_by (fun a b : ItemRow * CaseRow => c_number a.2 <=? c_number b.2) (clashes db (canon case_id)) with
  | [] => None
  | (mine, oc) :: _ =>
      Some (if case_visible w db v oc && item_visible w v mine then Some (c_number oc) else None)
  end.

(** ** Changing a case *)

Definition changed_row (change : CaseChange) (now : Z) (c : CaseRow) : CaseRow :=
  let closes := String.eqb (ch_status change) "closed" in
  {| c_id := c_id c; c_number := c_number c; c_title := ch_title change; c_status := ch_status change;
     c_resolution := if closes then c_resolution c else None;
     c_resolution_note := closing_note change;
     c_accepted_until := if closes then c_accepted_until c else None;
     c_severity := ch_severity change; c_assignee := canon <$> ch_assignee change;
     c_opened_by := c_opened_by c; c_created_at := c_created_at c; c_updated_at := now;
     c_closed_at := if closes then Some (default now (c_closed_at c)) else None;
     c_version := c_version c + 1 |}.

(** [UPDATE case_items SET active]: refused when the unique index would be violated. *)
Definition activate (case_id : string) (active : bool) : Tx unit := fun db =>
  let db' := update_items (fun i => String.eqb (i_case i) (canon case_id)) (set_active active) db in
  if exclusive_clash (items db') then Refused (ItemInCase None) else Done (tt, db').

Definition update_events (user_id case_id : string) (change : CaseChange) (current : CaseRow) (now : Z)
    : Tx unit :=
  let was_closed := is_closed current in
  let will_close := String.eqb (ch_status change) "closed" in
  let assignee_changed := negb (opt_eqb (c_assignee current) (ch_assignee change)) in
  let number := JPosInt (c_number current) in
  (if assignee_changed
   then push_event case_id now (Some user_id) "assigned" None
          (JObject [("from", username (c_assignee current)); ("to", username (ch_assignee change))]) ;;;
        ret tt
   else ret tt) ;;;
  (if negb (String.eqb (c_severity current) (ch_severity change))
   then push_event case_id now (Some user_id) "severity" None
          (JObject [("from", JString (c_severity current)); ("to", JString (ch_severity change))]) ;;;
        ret tt
   else ret tt) ;;;
  (if will_close && negb was_closed
   then push_event case_id now (Some user_id) "resolved" (closing_note change) (JObject []) ;;;
        audit (Some user_id) "case.close" case_id (JObject [("number", number)])
   else if was_closed && negb will_close
   then push_event case_id now (Some user_id) "reopened" None
          (JObject [("previous_resolution", json_opt_str (c_resolution current));
                    ("reason", JString "manual"); ("status", JString (ch_status change))]) ;;;
        audit (Some user_id) "case.reopen" case_id
          (JObject [("number", number); ("reason", JString "manual")])
   else if negb (String.eqb (c_status current) (ch_status change))
   then push_event case_id now (Some user_id) "status" None
          (JObject [("from", JString (c_status current)); ("to", JString (ch_status change))]) ;;;
        ret tt
   else ret tt).

Definition update (sql_now : Z) (scope : AgentScope) (user_id case_id : string) (change : CaseChange)
    (now : Z) : Tx CaseDetail :=
  refuse_if (negb (title_ok (ch_title change))) (Invalid "title" "invalid_title") ;;;
  refuse_if (negb (severity_ok (ch_severity change))) (Invalid "severity" "invalid_severity") ;;;
  refuse_if (negb (mem ["open"; "investigating"; "closed"] (ch_status change)))
    (Invalid "status" "invalid_status") ;;;
  match closing_valid change with
  | Some (field, code) => refuse (Invalid field code)
  | None =>
      let v := viewer_new scope user_id in
      locked <- lock_case v case_id ;;
      current <- require locked NotFound ;;
      refuse_if (negb (c_version current =? expected_version change)) Stale ;;;
      let was_closed := is_closed current in
      let will_close := String.eqb (ch_status change) "closed" in
      refuse_if (was_closed && will_close && negb (opt_eqb (c_resolution_note current) (closing_note change)))
        Closed ;;;
      let assignee_changed := negb (opt_eqb (c_assignee current) (ch_assignee change)) in
      refuse_if (assignee_changed
                 && match ch_assignee change with Some a => negb (assignee_available w a) | None => false end)
        AssigneeUnavailable ;;;
      let fields_changed := negb (String.eqb (c_title current) (ch_title change))
                            || negb (String.eqb (c_severity current) (ch_severity change))
                            || assignee_changed in
      if negb fields_changed && String.eqb (c_status current) (ch_status change)
      then unchanged <- query (fun db => read_detail w db v case_id) ;; expect unchanged
      else
        (if negb was_closed && will_close
         then counts <- query (blocking_items sql_now v case_id) ;;
              refuse_if (0 <? counts.1) (ItemsUnresolved counts.1) ;;;
              refuse_if (0 <? counts.2) HiddenItemsUnresolved
         else ret tt) ;;;
        (if was_closed && negb will_close
         then conflict <- query (reopen_conflict v case_id) ;;
              match conflict with Some number => refuse (ItemInCase number) | None => ret tt end
         else ret tt) ;;;
        write (update_case (canon case_id) (changed_row change now)) ;;;
        (if negb (Bool.eqb was_closed will_close) then activate case_id (negb will_close) else ret tt) ;;;
        update_events user_id case_id change current now ;;;
        (if fields_changed
            || (negb (String.eqb (c_status current) (ch_status change)) && negb was_closed && negb will_close)
         then audit (Some user_id) "case.update" case_id
                (JObject [("assigned", JBool assignee_changed); ("number", JPosInt (c_number current));
                          ("severity", JString (ch_severity change)); ("status", JString (ch_status change));
                          ("title", JString (ch_title change))])
         else ret tt) ;;;
        saved <- query (fun db => read_detail w db v case_id) ;; expect saved
  end.

(** ** Adding and removing items *)

Record Resolved := {
  r_kind : ItemKind;
  r_ref : string;
  r_agent : option string;
  r_severity : option string;
}.

Definition visible_agent_row (v : Viewer) (id : string) : bool := agent_visible w v id.

(** An agent that is not revoked and that the viewer sees. *)
Definition live_visible (v : Viewer) (id : string) : bool :=
  existsb (fun a => String.eqb (a_id a) id && negb (String.eqb (a_status a) "revoked")
                    && agent_visibility v a) (agents w).

(** The agent and severity of the object, when it exists where the viewer can see it. *)
Definition find_object (v : Viewer) (p : Parsed) : option (option string * option string) :=
  match p with
  | PAlarm id =>
      al ← find (fun al => Z.eqb (al_id al) id
                           && match al_agent al with Some a => agent_visible w v a | None => false end)
             (alarms w);
      Some (al_agent al, Some (al_severity al))
  | PFinding agent set rule =>
      f ← find (fun f => String.eqb (fi_agent f) agent && String.eqb (fi_set f) set
                         && String.eqb (fi_rule f) rule && agent_visible w v (fi_agent f))
            (current_findings w);
      Some (Some (fi_agent f), Some (fi_severity f))
  | PVulnerability agent advisory =>
      if agent_visible w v agent
         && (existsb (fun u => String.eqb (vu_agent u) agent && String.eqb (vu_advisory u) advisory)
               (vulnerabilities w)
             || vulnerable_version w (Some agent) advisory)
      then Some (Some agent, ad_severity <$> find (fun a => String.eqb (ad_id a) advisory) (advisories w))
      else None
  | PHost agent => if agent_visible w v agent then Some (Some agent, None) else None
  | PSoftware manager name =>
      if existsb (fun pv => match manager with Some m => String.eqb pv.2.1 m | None => true end
                            && String.eqb pv.2.2 name
                            && existsb (fun hp => Z.eqb hp.2 pv.1 && agent_visible w v hp.1) (host_packages w))
           (package_versions w)
      then Some (None, None) else None
  | PPort protocol port =>
      if existsb (fun l => String.eqb l.2.1 protocol && Z.eqb l.2.2 port && live_visible v l.1) (host_listeners w)
      then Some (None, None) else None
  | PService unit =>
      if existsb (fun s => String.eqb s.2 unit && live_visible v s.1) (host_services w)
      then Some (None, None) else None
  end.

Definition resolve_item (v : Viewer) (kind reference : string) : Tx Resolved :=
  match parse_kind kind with
  | None => refuse (Invalid "kind" "invalid_kind")
  | Some kind =>
      match parse_ref kind reference with
      | None => refuse (Invalid "ref" "invalid_ref")
      | Some parsed =>
          match find_object v parsed with
          | Some (agent, severity) =>
              ret {| r_kind := kind; r_ref := reference; r_agent := agent; r_severity := severity |}
          | None => refuse ItemNotFound
          end
      end
  end.

(** [held >= MAX], the same item here, the object in another open case; then the row, whose keys
    the database checks once more. *)
Definition insert_item (v : Viewer) (case_id : string) (item : Resolved) (now : Z) : Tx string :=
  held <- query (fun db => Z.of_nat (length (items_of db (canon case_id)))) ;;
  refuse_if (MAX_ITEMS_PER_CASE <=? held) TooManyItems ;;;
  same <- query (fun db => existsb (fun i => bool_decide (i_kind i = r_kind item)
                                             && String.eqb (i_ref i) (r_ref item)) (items_of db (canon case_id))) ;;
  refuse_if same AlreadyInCase ;;;
  (if exclusive (r_kind item)
   then other <- query (fun db =>
          find (fun o => bool_decide (i_kind o = r_kind item) && String.eqb (i_ref o) (r_ref item)
                         && i_active o && negb (String.eqb (i_case o) (canon case_id))) (items db)
            ≫= (fun o => oc ← find_case db (i_case o);
                         Some (if case_visible w db v oc then Some (c_number oc) else None))) ;;
        match other with Some number => refuse (ItemInCase number) | None => ret tt end
   else ret tt) ;;;
  id <- draw ;;
  let row := {| i_id := id; i_case := canon case_id; i_kind := r_kind item; i_ref := r_ref item;
                i_agent := r_agent item; i_active := true; i_outcome := None; i_outcome_note := None;
                i_outcome_until := None; i_added_by := v_user v; i_added_at := now |} in
  if user_known (v_user v)
  then clash <- query (fun db => item_conflict (items db) row) ;;
       refuse_if clash (ItemInCase None) ;;;
       write (set_items (fun l => l ++ [row])) ;;;
       ret id
  else failed.

Definition item_detail (id : string) (kind : ItemKind) (reference : string) (agent : option string)
    : list (string * value) :=
  [("item_agent_id", json_opt_str agent); ("item_id", JString id);
   ("item_kind", JString (as_str kind)); ("item_ref", JString reference)].

Definition record_item_added (v : Viewer) (case_id : string) (number : Z) (item : Resolved)
    (item_id : string) (now : Z) : Tx unit :=
  push_event case_id now (Some (v_user v)) "item_added" None
    (JObject (item_detail item_id (r_kind item) (r_ref item) (r_agent item))) ;;;
  audit (Some (v_user v)) "case.item.add" case_id
    (JObject [("kind", JString (as_str (r_kind item))); ("number", JPosInt number);
              ("ref", JString (r_ref item))]).

Fixpoint resolve_all (v : Viewer) (l : list (string * string)) : Tx (list Resolved) :=
  match l with
  | [] => ret []
  | (kind, reference) :: l =>
      item <- resolve_item v kind reference ;;
      rest <- resolve_all v l ;;
      ret (item :: rest)
  end.

Fixpoint insert_all (v : Viewer) (case_id : string) (number : Z) (l : list Resolved) (now : Z) : Tx unit :=
  match l with
  | [] => ret tt
  | item :: l =>
      id <- insert_item v case_id item now ;;
      record_item_added v case_id number item id now ;;;
      insert_all v case_id number l now
  end.

(** [INSERT INTO cases]: the identity column numbers it; the database refuses a repeated id. *)
Definition insert_case (title severity : string) (assignee : option string) (user_id : string) (now : Z)
    : Tx (string * Z) :=
  id <- draw ;;
  taken <- query (fun db => existsb (fun c => String.eqb (c_id c) id) (cases db)) ;;
  if taken || negb (user_known user_id) then failed else
  fun db =>
    Done ((id, next_number db),
      {| cases := cases db ++ [{| c_id := id; c_number := next_number db; c_title := title; c_status := "open";
                                  c_resolution := None; c_resolution_note := None; c_accepted_until := None;
                                  c_severity := severity; c_assignee := assignee; c_opened_by := user_id;
                                  c_created_at := now; c_updated_at := now; c_closed_at := None; c_version := 1 |}];
         items := items db; events := events db; audit_log := audit_log db;
         next_number := next_number db + 1; next_event := next_event db; draws := draws db |}).

Definition create (scope : AgentScope) (user_id : string) (new : NewCase) (now : Z) : Tx CaseDetail :=
  refuse_if (negb (title_ok (nc_title new))) (Invalid "title" "invalid_title") ;;;
  refuse_if (match nc_severity new with Some s => negb (severity_ok s) | None => false end)
    (Invalid "severity" "invalid_severity") ;;;
  refuse_if (MAX_ITEMS_ON_CREATE <? length (nc_items new))%nat (Invalid "items" "too_many_items") ;;;
  let v := viewer_new scope user_id in
  refuse_if (match nc_assignee new with Some a => negb (assignee_available w a) | None => false end)
    AssigneeUnavailable ;;;
  resolved <- resolve_all v (nc_items new) ;;
  let severity := default (default_severity (map r_severity resolved)) (nc_severity new) in
  created <- insert_case (nc_title new) severity (canon <$> nc_assignee new) user_id now ;;
  let '(case_id, number) := created in
  push_event case_id now (Some user_id) "created" None (JObject [("severity", JString severity)]) ;;;
  (match nc_assignee new with
   | Some a => push_event case_id now (Some user_id) "assigned" None
                 (JObject [("from", JNull); ("to", username (Some a))]) ;;; ret tt
   | None => ret tt
   end) ;;;
  audit (Some user_id) "case.create" case_id
    (JObject [("items", JPosInt (Z.of_nat (length resolved))); ("number", JPosInt number);
              ("severity", JString severity)]) ;;;
  insert_all v case_id number resolved now ;;;
  saved <- query (fun db => read_detail w db v case_id) ;; expect saved.

Definition add_item (scope : AgentScope) (user_id case_id kind reference : string) (now : Z) : Tx CaseItem :=
  let v := viewer_new scope user_id in
  locked <- lock_case v case_id ;;
  current <- require locked NotFound ;;
  refuse_if (is_closed current) Closed ;;;
  item <- resolve_item v kind reference ;;
  item_id <- insert_item v case_id item now ;;
  record_item_added v case_id (c_number current) item item_id now ;;;
  touch case_id now ;;;
  added <- query (fun db => read_items w db v case_id (Some item_id)) ;;
  expect (last added).

Definition remove_item (scope : AgentScope) (user_id case_id item_id : string) (now : Z) : Tx unit :=
  let v := viewer_new scope user_id in
  locked <- lock_case v case_id ;;
  current <- require locked NotFound ;;
  refuse_if (is_closed current) Closed ;;;
  found <- lock_item v case_id item_id ;;
  item <- require found ItemNotFound ;;
  write (set_items (List.filter (fun i => negb (String.eqb (i_id i) (canon item_id))))) ;;;
  push_event case_id now (Some user_id) "item_removed" None
    (JObject (item_detail item_id (i_kind item) (i_ref item) (i_agent item))) ;;;
  touch case_id now ;;;
  audit (Some user_id) "case.item.remove" case_id
    (JObject [("kind", JString (as_str (i_kind item))); ("number", JPosInt (c_number current));
              ("ref", JString (i_ref item))]).

(** ** Outcomes *)

(** RFC 3339 text of a time: chrono's, a parameter. *)
Variable rfc3339 : Z -> string.

Definition set_outcome (scope : AgentScope) (user_id case_id item_id : string)
    (change : option OutcomeChange) (now : Z) : Tx CaseItem :=
  match change ≫= (fun c => outcome_valid c now) with
  | Some (field, code) => refuse (Invalid field code)
  | None =>
      let v := viewer_new scope user_id in
      locked <- lock_case v case_id ;;
      current <- require locked NotFound ;;
      refuse_if (is_closed current) Closed ;;;
      found <- lock_item v case_id item_id ;;
      item <- require found ItemNotFound ;;
      refuse_if (negb (exclusive (i_kind item))) (Invalid "outcome" "outcome_not_applicable") ;;;
      refuse_if (match change with Some c => String.eqb (oc_outcome c) "resolved" | None => false end
                 && negb (item_gone w item)) EvidencePresent ;;;
      let outcome := oc_outcome <$> change in
      let note := change ≫= oc_note in
      let until := change ≫= oc_until in
      (if negb (opt_eqb (i_outcome item) outcome) || bool_decide (change <> None)
       then write (update_items (fun i => String.eqb (i_id i) (canon item_id)) (set_outcome_row outcome note until)) ;;;
            push_event case_id now (Some user_id) "item_outcome" note
              (JObject ([("from", json_opt_str (i_outcome item))]
                        ++ item_detail item_id (i_kind item) (i_ref item) (i_agent item)
                        ++ [("to", json_opt_str outcome); ("until", json_opt_str (rfc3339 <$> until))])) ;;;
            touch case_id now ;;;
            audit (Some user_id) "case.item.outcome" case_id
              (JObject [("kind", JString (as_str (i_kind item))); ("number", JPosInt (c_number current));
                        ("outcome", json_opt_str outcome); ("ref", JString (i_ref item))])
       else ret tt) ;;;
      saved <- query (fun db => read_items w db v case_id (Some item_id)) ;;
      expect (last saved)
  end.

(** ** Notes *)

Definition add_note (scope : AgentScope) (user_id case_id text : string) (now : Z) : Tx CaseEvent :=
  refuse_if (negb (note_ok text)) (Invalid "body" "invalid_note") ;;;
  let v := viewer_new scope user_id in
  locked <- lock_case v case_id ;;
  current <- require locked NotFound ;;
  held <- query (fun db => Z.of_nat (length (List.filter (fun e => String.eqb (e_case e) (canon case_id)) (events db)))) ;;
  refuse_if (MAX_EVENTS_PER_CASE <=? held) TimelineFull ;;;
  event_id <- push_event case_id now (Some user_id) "note" (Some text) (JObject []) ;;
  touch case_id now ;;;
  audit (Some user_id) "case.note" case_id
    (JObject [("event_id", JPosInt event_id); ("length", JPosInt (char_count text));
              ("number", JPosInt (c_number current))]) ;;;
  found <- query (fun db => find (fun e => Z.eqb (e_id (ce_row e)) event_id) (read_events w db v case_id)) ;;
  expect found.

(** ** The lazy reopen checks *)

Record Trigger := {
  t_reason : string;
  t_case : CaseRow -> bool;
  t_item : ItemRow -> bool;
}.

(** [TAKEN]: another open case holds one of the case's exclusive items. *)
Definition taken (db : Db) (case_id : string) : bool :=
  existsb (fun mine =>
      exclusive (i_kind mine)
      && existsb (fun o => same_object o mine && i_active o && negb (String.eqb (i_case o) case_id)) (items db))
    (items_of db case_id).

Definition due_case (t : Trigger) (db : Db) (c : CaseRow) : bool :=
  is_closed c && t_case t c && existsb (t_item t) (items_of db (c_id c)) && negb (taken db (c_id c)).

Definition by_closed_at (a b : CaseRow) : bool := default 0 (c_closed_at b) <=? default 0 (c_closed_at a).

Definition reopened_row (now : Z) (c : CaseRow) : CaseRow :=
  {| c_id := c_id c; c_number := c_number c; c_title := c_title c; c_status := "open";
     c_resolution := None; c_resolution_note := None; c_accepted_until := None;
     c_severity := c_severity c; c_assignee := c_assignee c; c_opened_by := c_opened_by c;
     c_created_at := c_created_at c; c_updated_at := now; c_closed_at := None;
     c_version := c_version c + 1 |}.

(** [active = true], and the items the condition names lose their outcome. *)
Definition reactivated (p : ItemRow -> bool) (i : ItemRow) : ItemRow :=
  set_active true (if p i then set_outcome_row None None None i else i).

Definition kind_ref (i : ItemRow) : value :=
  JObject [("kind", JString (as_str (i_kind i))); ("ref", JString (i_ref i))].

Fixpoint push_lost (case_id reason : string) (now : Z) (l : list ItemRow) : Tx unit :=
  match l with
  | [] => ret tt
  | i :: l =>
      push_event case_id now None "item_outcome" None
        (JObject ([("from", json_opt_str (i_outcome i))] ++ item_detail (i_id i) (i_kind i) (i_ref i) (i_agent i)
                  ++ [("reason", JString reason); ("to", JNull)])) ;;;
      push_lost case_id reason now l
  end.

(** One due case in its own transaction; [false] when it is skipped (rolled back). *)
Definition reopen_one (t : Trigger) (now : Z) (case_id : string) (db : Db) : Db * option bool :=
  match find_case db case_id with
  | Some c =>
      if due_case t db c then
        let lost := List.filter (fun i => t_item t i) (items_of db case_id) in
        let ids := map i_id lost in
        let db' := update_items (fun i => String.eqb (i_case i) case_id)
                     (reactivated (fun i => mem ids (i_id i))) db in
        if exclusive_clash (items db') then (db, Some false)
        else
          let m :=
            write (update_case case_id (reopened_row now)) ;;;
            push_event case_id now None "reopened" None
              (JObject [("previous_resolution", json_opt_str (c_resolution c));
                        ("reason", JString (t_reason t)); ("status", JString "open")]) ;;;
            push_lost case_id (t_reason t) now lost ;;;
            audit None "case.reopen" case_id
              (JObject [("items", JArray (map kind_ref lost)); ("number", JPosInt (c_number c));
                        ("reason", JString (t_reason t))]) in
          match m db' with
          | Done (_, db'') => (db'', Some true)
          | _ => (db, None)
          end
      else (db, Some false)
  | None => (db, Some false)
  end.

(** Each due case in turn; a database failure ends the run, what was committed stays. *)
Fixpoint each_case (one : string -> Db -> Db * option bool) (ids : list string) (n : Z) (db : Db)
    : Db * option Z :=
  match ids with
  | [] => (db, Some n)
  | id :: ids =>
      match one id db with
      | (db, Some true) => each_case one ids (n + 1) db
      | (db, Some false) => each_case one ids n db
      | (db, None) => (db, None)
      end
  end.

Definition reopen_on_items (t : Trigger) (now : Z) (db : Db) : Db * option Z :=
  let due := take REOPEN_BATCH (sort_by by_closed_at (List.filter (due_case t db) (cases db))) in
  each_case (reopen_one t now) (map c_id due) 0 db.

Definition evidence_returned (now : Z) : Trigger :=
  {| t_reason := "evidence_returned";
     t_case := fun c => match c_closed_at c with
                        | Some at_ => now - days EVIDENCE_WATCH_DAYS <=? at_
                        | None => false
                        end;
     t_item := fun i => is_outcome "resolved" i && exclusive (i_kind i) && negb (item_gone w i) |}.

Definition acceptance_expired (now : Z) : Trigger :=
  {| t_reason := "accepted_risk_expired";
     t_case := fun _ => true;
     t_item := fun i => is_outcome "accepted_risk" i
                        && match i_outcome_until i with Some u => u <=? now | None => false end |}.

Definition reopen_evidence_returned (now : Z) : Db -> Db * option Z :=
  reopen_on_items (evidence_returned now) now.
Definition reopen_item_acceptance_expired (now : Z) : Db -> Db * option Z :=
  reopen_on_items (acceptance_expired now) now.

(** A case closed as accepted risk before outcomes moved to the items. *)
Definition expired_case (now : Z) (c : CaseRow) : bool :=
  is_closed c && opt_eqb (c_resolution c) (Some "accepted_risk")
  && match c_accepted_until c with Some u => u <=? now | None => false end.

Definition by_accepted_until (a b : CaseRow) : bool :=
  default 0 (c_accepted_until a) <=? default 0 (c_accepted_until b).

Definition reopen_expired_one (now : Z) (case_id : string) (db : Db) : Db * option bool :=
  match find_case db case_id with
  | Some c =>
      if expired_case now c && negb (taken db case_id) then
        let db' := update_items (fun i => String.eqb (i_case i) case_id)
                     (reactivated (is_outcome "accepted_risk")) db in
        if exclusive_clash (items db') then (db, Some false)
        else
          let m :=
            write (update_case case_id (reopened_row now)) ;;;
            push_event case_id now None "reopened" None
              (JObject [("previous_resolution", JString "accepted_risk");
                        ("reason", JString "accepted_risk_expired"); ("status", JString "open")]) ;;;
            audit None "case.reopen" case_id
              (JObject [("number", JPosInt (c_number c)); ("reason", JString "accepted_risk_expired")]) in
          match m db' with
          | Done (_, db'') => (db'', Some true)
          | _ => (db, None)
          end
      else (db, Some false)
  | None => (db, Some false)
  end.

Definition reopen_expired (now : Z) (db : Db) : Db * option Z :=
  let due := take REOPEN_BATCH (sort_by by_accepted_until
    (List.filter (fun c => expired_case now c && negb (taken db (c_id c))) (cases db))) in
  each_case (reopen_expired_one now) (map c_id due) 0 db.

(** Accepted risk that ran out on items of cases that are not closed. *)
Definition min_until (db : Db) (now : Z) (c : CaseRow) : option Z :=
  fold_left (fun m u => Some (match m with Some v => Z.min v u | None => u end))
    (omap (fun i => if t_item (acceptance_expired now) i then i_outcome_until i else None)
       (items_of db (c_id c))) None.

Definition clear_one (now : Z) (case_id : string) (db : Db) : Db * option bool :=
  match find_case db case_id with
  | Some c =>
      if is_closed c then (db, Some false)
      else
        let lost := List.filter (t_item (acceptance_expired now)) (items_of db case_id) in
        let m :=
          write (update_items (fun i => String.eqb (i_case i) case_id && t_item (acceptance_expired now) i)
                   (set_outcome_row None None None)) ;;;
          push_lost case_id "accepted_risk_expired" now lost ;;;
          touch case_id now ;;;
          audit None "case.item.outcome" case_id
            (JObject [("items", JArray (map kind_ref lost)); ("number", JPosInt (c_number c));
                      ("reason", JString "accepted_risk_expired")]) in
        match m db with
        | Done (_, db') => (db', Some true)
        | _ => (db, None)
        end
  | None => (db, Some false)
  end.

Definition clear_open_acceptances_expired (now : Z) (db : Db) : Db * option Z :=
  let due := List.filter (fun c => negb (is_closed c) && bool_decide (is_Some (min_until db now c))) (cases db) in
  let sorted := sort_by (fun a b => default 0 (min_until db now a) <=? default 0 (min_until db now b)) due in
  each_case (clear_one now) (map c_id (take REOPEN_BATCH sorted)) 0 db.

Definition reopen_due (now : Z) (db : Db) : Db * option Z :=
  match reopen_expired now db with
  | (db, None) => (db, None)
  | (db, Some a) =>
      match reopen_item_acceptance_expired now db with
      | (db, None) => (db, None)
      | (db, Some b) =>
          match reopen_evidence_returned now db with
          | (db, None) => (db, None)
          | (db, Some c) =>
              match clear_open_acceptances_expired now db with
              | (db, None) => (db, None)
              | (db, Some _) => (db, Some (a + b + c))
              end
          end
      end
  end.
End operations.

(** ** Histories *)

(** One request or check, in whatever world it runs. *)
Inductive step (gen : nat -> string) (rfc3339 : Z -> string) : Db -> Db -> Prop :=
  | step_create w scope user new now db :
      step gen rfc3339 db (run (create w gen scope user new now) db).2
  | step_update w sql_now scope user id change now db :
      step gen rfc3339 db (run (update w sql_now scope user id change now) db).2
  | step_add_item w scope user id kind reference now db :
      step gen rfc3339 db (run (add_item w gen scope user id kind reference now) db).2
  | step_remove_item w scope user id item now db :
      step gen rfc3339 db (run (remove_item w scope user id item now) db).2
  | step_set_outcome w scope user id item change now db :
      step gen rfc3339 db (run (set_outcome w rfc3339 scope user id item change now) db).2
  | step_add_note w scope user id text now db :
      step gen rfc3339 db (run (add_note w scope user id text now) db).2
  | step_reopen_due w now db :
      step gen rfc3339 db (reopen_due w now db).1.

Inductive reachable (gen : nat -> string) (rfc3339 : Z -> string) : Db -> Prop :=
  | reachable_empty : reachable gen rfc3339 empty_db
  | reachable_step db db' :
      reachable gen rfc3339 db -> step gen rfc3339 db db' -> reachable gen rfc3339 db'.
