(* ===== verification/CaseInv.v ===== *)
(** * Cases: the invariant every operation keeps

    [wf] collects what the schema's constraints and the operations maintain together: an item is
    active exactly while its case is not closed, one alarm, finding or vulnerability is active in
    at most one case, a closed case has its closing note and time, and an outcome has the note and
    date it needs.  Transactions are reasoned about with the triples [hoare P m Q]. *)
From S2P Require Import Prelude RustStd Text Json CaseData CaseDb CaseOps.
From stdpp Require Import prelude strings pretty.
From Stdlib Require Import Ascii ZArith Lia.

Open Scope Z_scope.

(** ** Triples *)

Definition hoare {A} (P : Db -> Prop) (m : Tx A) (Q : A -> Db -> Prop) : Prop :=
  forall db, P db -> match m db with Done (a, db') => Q a db' | _ => True end.

Section triples.
Context {A B : Type}.
Implicit Types (P : Db -> Prop) (m : Tx A).

Lemma hoare_bind P m Q (k : A -> Tx B) R :
  hoare P m Q -> (forall a, hoare (Q a) (k a) R) -> hoare P (bind m k) R.
Proof.
  intros Hm Hk db HP. unfold bind. specialize (Hm db HP). destruct (m db) as [[a db']| |]; [|done..].
  by apply Hk.
Qed.

Lemma hoare_ret P (a : A) : hoare P (ret a) (fun b db => b = a /\ P db).
Proof. intros db HP. done. Qed.

Lemma hoare_refuse P r (Q : A -> Db -> Prop) : hoare P (refuse r) Q.
Proof. by intros db HP. Qed.

Lemma hoare_failed P (Q : A -> Db -> Prop) : hoare P failed Q.
Proof. by intros db HP. Qed.

Lemma hoare_query P (f : Db -> A) : hoare P (query f) (fun a db => a = f db /\ P db).
Proof. by intros db HP. Qed.

Lemma hoare_require P (o : option A) r : hoare P (require o r) (fun a db => o = Some a /\ P db).
Proof. intros db HP. by destruct o. Qed.

Lemma hoare_expect P (o : option A) : hoare P (expect o) (fun a db => o = Some a /\ P db).
Proof. intros db HP. by destruct o. Qed.

Lemma hoare_conseq P P' m Q Q' :
  hoare P' m Q' -> (forall db, P db -> P' db) -> (forall a db, Q' a db -> Q a db) -> hoare P m Q.
Proof.
  intros Hm HP HQ db H. specialize (Hm db (HP db H)). destruct (m db) as [[a db']| |]; auto.
Qed.

Lemma hoare_post P m Q Q' : hoare P m Q' -> (forall a db, Q' a db -> Q a db) -> hoare P m Q.
Proof. intros. by eapply hoare_conseq. Qed.

(** The transaction's tables, whatever it ends with. *)
Lemma hoare_run P m db : hoare P m (fun _ => P) -> P db -> P (run m db).2.
Proof.
  intros Hm HP. specialize (Hm db HP). unfold run. by destruct (m db) as [[a db']| |].
Qed.
End triples.

Lemma hoare_refuse_if P b r : hoare P (refuse_if b r) (fun _ db => b = false /\ P db).
Proof. intros db HP. by destruct b. Qed.

Lemma hoare_write P f (Q : Db -> Prop) : (forall db, P db -> Q (f db)) -> hoare P (write f) (fun _ => Q).
Proof. intros H db HP. by apply H. Qed.

(** A step that needs nothing and keeps [P]. *)
Lemma hoare_seq {A B} P (m : Tx A) (k : A -> Tx B) R :
  hoare P m (fun _ => P) -> (forall a, hoare P (k a) R) -> hoare P (bind m k) R.
Proof. intros Hm Hk. by eapply hoare_bind. Qed.

Lemma hoare_if {A} P (b : bool) (m1 m2 : Tx A) Q :
  (b = true -> hoare P m1 Q) -> (b = false -> hoare P m2 Q) -> hoare P (if b then m1 else m2) Q.
Proof. destruct b; auto. Qed.

Lemma hoare_pure {A} (X : Prop) P (m : Tx A) Q :
  (X -> hoare P m Q) -> hoare (fun db => X /\ P db) m Q.
Proof. intros H db [HX HP]. by apply H. Qed.

(** Sequencing rules, one per kind of statement. *)
Section sequencing.
Context {A B : Type}.
Implicit Types (P : Db -> Prop) (R : B -> Db -> Prop).

Lemma seq_refuse_if P b r (k : unit -> Tx B) R :
  (b = false -> hoare P (k tt) R) -> hoare P (bind (refuse_if b r) k) R.
Proof. intros Hk db HP. unfold bind, refuse_if. destruct b; simpl; [done|]. by apply Hk. Qed.

Lemma seq_query P (f : Db -> A) (k : A -> Tx B) R :
  (forall a, hoare (fun db => a = f db /\ P db) (k a) R) -> hoare P (bind (query f) k) R.
Proof. intros Hk db HP. by apply (Hk (f db) db). Qed.

Lemma seq_query_any P (f : Db -> A) (k : A -> Tx B) R :
  (forall a, hoare P (k a) R) -> hoare P (bind (query f) k) R.
Proof. intros Hk db HP. by apply (Hk (f db) db). Qed.

Lemma seq_require P (o : option A) r (k : A -> Tx B) R :
  (forall a, o = Some a -> hoare P (k a) R) -> hoare P (bind (require o r) k) R.
Proof. intros Hk db HP. destruct o as [a|]; simpl; [|done]. by apply (Hk a). Qed.

Lemma seq_write P f (k : unit -> Tx B) P' R :
  (forall db, P db -> P' (f db)) -> hoare P' (k tt) R -> hoare P (bind (write f) k) R.
Proof. intros Hf Hk db HP. by apply Hk, Hf. Qed.

Lemma seq_ret P (a : A) (k : A -> Tx B) R : hoare P (k a) R -> hoare P (bind (ret a) k) R.
Proof. intros Hk db HP. by apply Hk. Qed.

Lemma seq_refuse P r (k : A -> Tx B) R : hoare P (bind (refuse r) k) R.
Proof. by intros db HP. Qed.

Lemma seq_if P (b : bool) (m1 m2 : Tx A) (k : A -> Tx B) R :
  (b = true -> hoare P (bind m1 k) R) -> (b = false -> hoare P (bind m2 k) R) ->
  hoare P (bind (if b then m1 else m2) k) R.
Proof. destruct b; auto. Qed.

Lemma seq_assoc {C} P (m : Tx A) (k : A -> Tx C) (k' : C -> Tx B) R :
  hoare P (bind m (fun a => bind (k a) k')) R -> hoare P (bind (bind m k) k') R.
Proof.
  intros H db HP. specialize (H db HP). unfold bind in *. destruct (m db) as [[a db']| |]; done.
Qed.

Lemma seq_pair {C} P (m1 : Tx C) (m2 : Tx A) (k : A -> Tx B) (Q : A -> Db -> Prop) R :
  hoare P (bind m1 (fun _ => m2)) Q -> (forall a, hoare (Q a) (k a) R) ->
  hoare P (bind m1 (fun _ => bind m2 k)) R.
Proof.
  intros Hm Hk db HP. specialize (Hm db HP). unfold bind in *. destruct (m1 db) as [[c db1]| |]; [|done..].
  destruct (m2 db1) as [[a db2]| |]; [|done..]. by apply Hk.
Qed.

Lemma end_ret P (b : B) : hoare P (ret b) (fun _ => P).
Proof. by intros db HP. Qed.

Lemma end_expect P (o : option B) : hoare P (expect o) (fun _ => P).
Proof. intros db HP. by destruct o. Qed.
End sequencing.

(** ** The invariant *)

Definition status_ok (s : string) : bool := mem ["open"; "investigating"; "closed"] s.

Record case_ok (c : CaseRow) : Prop := {
  co_status : status_ok (c_status c) = true;
  co_note : is_closed c = bool_decide (is_Some (c_resolution_note c));
  co_closed_at : is_closed c = bool_decide (is_Some (c_closed_at c));
  co_resolution : c_resolution c <> None -> is_closed c = true;
  co_accepted : c_resolution c = Some "accepted_risk" <-> c_accepted_until c <> None;
  co_severity : severity_ok (c_severity c) = true;
  co_version : 1 <= c_version c;
}.

Record item_ok (i : ItemRow) : Prop := {
  io_until : i_outcome i = Some "accepted_risk" <-> i_outcome_until i <> None;
  io_outcome : forall o, i_outcome i = Some o ->
    mem OUTCOMES o = true /\ exclusive (i_kind i) = true /\ (o = "resolved" \/ i_outcome_note i <> None);
}.

(** The columns no statement changes. *)
Definition identity (i : ItemRow) : string * string * ItemKind * string * option string :=
  (i_id i, i_case i, i_kind i, i_ref i, i_agent i).

Record wf (db : Db) : Prop := {
  wf_cases : forall c, In c (cases db) -> case_ok c;
  wf_case_ids : NoDup (map c_id (cases db));
  wf_numbers : NoDup (map c_number (cases db));
  wf_next : forall c, In c (cases db) -> c_number c < next_number db;
  wf_items : forall i, In i (items db) -> item_ok i;
  wf_item_ids : NoDup (map i_id (items db));
  wf_home : forall i, In i (items db) -> exists c, In c (cases db) /\ c_id c = i_case i;
  wf_active : forall i c, In i (items db) -> In c (cases db) -> c_id c = i_case i ->
    i_active i = negb (is_closed c);
  wf_unique : forall a b, In a (items db) -> In b (items db) -> same_object a b = true ->
    i_case a = i_case b -> i_id a = i_id b;
  wf_exclusive : exclusive_clash (items db) = false;
}.

Lemma exclusive_clash_spec l :
  exclusive_clash l = false <->
  forall a b, In a l -> In b l -> i_active a = true -> i_active b = true ->
    exclusive (i_kind a) = true -> same_object a b = true -> i_id a = i_id b.
Proof.
  unfold exclusive_clash. split.
  - intros H a b Ha Hb Aa Ab Ea Es.
    destruct (String.eqb_spec (i_id a) (i_id b)) as [|Hne]; [done|]. exfalso.
    rewrite <- Bool.not_true_iff_false in H. apply H. apply existsb_exists. exists a. split; [done|].
    rewrite Aa, Ea. simpl. apply existsb_exists. exists b. split; [done|].
    rewrite Ab, Es. simpl. by destruct (String.eqb_spec (i_id a) (i_id b)).
  - intros Hall. apply Bool.not_true_iff_false. intros (a & Ha & [Ea (b & Hb & Eb)%existsb_exists]%andb_prop)%existsb_exists.
    bprop. match goal with Hn : String.eqb _ _ = false |- _ => apply String.eqb_neq in Hn; apply Hn end.
    by apply Hall.
Qed.

Lemma identity_same a a' b b' :
  identity a = identity a' -> identity b = identity b' -> same_object a b = same_object a' b'.
Proof. unfold identity, same_object. intros [= _ _ -> -> _] [= _ _ -> -> _]. done. Qed.

(** Rewriting rows in place. *)
Lemma wf_rewrite db db' f g :
  wf db -> cases db' = map f (cases db) -> items db' = map g (items db) ->
  next_number db' = next_number db ->
  (forall c, In c (cases db) -> case_ok (f c) /\ c_id (f c) = c_id c /\ c_number (f c) = c_number c) ->
  (forall i, In i (items db) -> item_ok (g i) /\ identity (g i) = identity i) ->
  (forall c i, In c (cases db) -> In i (items db) -> c_id c = i_case i ->
     i_active (g i) = negb (is_closed (f c))) ->
  exclusive_clash (items db') = false -> wf db'.
Proof.
  intros Hwf Ec Ei En Hf Hg Ha Hx. split; rewrite ?Ec, ?Ei, ?En.
  - intros c' (c & <- & Hc)%in_map_iff. by apply Hf.
  - rewrite map_map. rewrite (map_ext_in _ c_id); [apply Hwf|]. intros c Hc. by apply Hf.
  - rewrite map_map. rewrite (map_ext_in _ c_number); [apply Hwf|]. intros c Hc. by apply Hf.
  - intros c' (c & <- & Hc)%in_map_iff. destruct (Hf c Hc) as (_ & _ & ->). by apply Hwf.
  - intros i' (i & <- & Hi)%in_map_iff. by apply Hg.
  - rewrite map_map. rewrite (map_ext_in _ i_id); [apply Hwf|]. intros i Hi.
    destruct (Hg i Hi) as [_ E]. unfold identity in E. congruence.
  - intros i' (i & <- & Hi)%in_map_iff. destruct (wf_home _ Hwf i Hi) as (c & Hc & E).
    exists (f c). split; [by apply in_map|]. destruct (Hf c Hc) as (_ & -> & _).
    destruct (Hg i Hi) as [_ E']. unfold identity in E'. congruence.
  - intros i' c' (i & <- & Hi)%in_map_iff (c & <- & Hc)%in_map_iff E. apply Ha; try done.
    destruct (Hf c Hc) as (_ & E1 & _). destruct (Hg i Hi) as [_ E2]. unfold identity in E2. congruence.
  - intros a' b' (a & <- & Hina)%in_map_iff (b & <- & Hinb)%in_map_iff Es Ec'.
    destruct (Hg a Hina) as [_ Ia]. destruct (Hg b Hinb) as [_ Ib].
    rewrite (identity_same _ _ _ _ Ia Ib) in Es.
    assert (i_id a = i_id b) as E; [|unfold identity in Ia, Ib; congruence].
    apply (wf_unique _ Hwf); try done. unfold identity in Ia, Ib. congruence.
  - by rewrite <- Ei.
Qed.

(** Rewriting items without changing what they are or whether they are active. *)
Lemma exclusive_clash_map g l :
  (forall i, In i l -> identity (g i) = identity i /\ i_active (g i) = i_active i) ->
  exclusive_clash l = false -> exclusive_clash (map g l) = false.
Proof.
  intros Hg H. rewrite exclusive_clash_spec in H |- *.
  intros a' b' (a & <- & Ha)%in_map_iff (b & <- & Hb)%in_map_iff Aa Ab Ea Es.
  destruct (Hg a Ha) as [Ia Aa']. destruct (Hg b Hb) as [Ib Ab'].
  rewrite (identity_same _ _ _ _ Ia Ib) in Es.
  assert (i_id a = i_id b) as E; [|unfold identity in Ia, Ib; congruence].
  apply H; try congruence. unfold identity in Ia. congruence.
Qed.

Lemma map_id_ext {A} (f : A -> A) l : (forall x, f x = x) -> map f l = l.
Proof. intros H. induction l; simpl; by rewrite ?H, ?IHl. Qed.

Lemma find_case_In db id c : find_case db id = Some c -> In c (cases db) /\ c_id c = id.
Proof. intros [H E%String.eqb_eq]%find_some. done. Qed.

Lemma case_by_id db c c' :
  wf db -> In c (cases db) -> In c' (cases db) -> c_id c = c_id c' -> c = c'.
Proof.
  intros Hwf Hc Hc' E. pose proof (wf_case_ids _ Hwf) as Hnd.
  revert Hc Hc' Hnd. generalize (cases db). intros l. induction l as [|x l IH]; [done|].
  intros Hc Hc' Hnd. simpl in Hnd. inversion Hnd as [|? ? Hn Hnd' Eq]; subst.
  destruct Hc as [->|Hc], Hc' as [->|Hc']; try done; [..|by apply IH].
  - exfalso. apply Hn. rewrite E. apply list_elem_of_In. by apply in_map.
  - exfalso. apply Hn. rewrite <- E. apply list_elem_of_In. by apply in_map.
Qed.

Lemma find_case_wf db c : wf db -> In c (cases db) -> find_case db (c_id c) = Some c.
Proof.
  intros Hwf Hc. destruct (find_case db (c_id c)) as [c'|] eqn:E.
  - apply find_case_In in E as [Hc' E]. f_equal. by apply (case_by_id db).
  - exfalso. eapply find_none in E; [|done]. simpl in E. by rewrite String.eqb_refl in E.
Qed.

(** The case exists and is not closed. *)
Definition open_case (id : string) (db : Db) : Prop :=
  exists c, In c (cases db) /\ c_id c = id /\ is_closed c = false.

(** [wf] with an open case. *)
Definition wf_open (id : string) (db : Db) : Prop := wf db /\ open_case id db.

(** ** Statements that only record *)

(** The tables agree but for the timeline, the audit log and the times of the last change. *)
Definition recorded (db db' : Db) : Prop :=
  exists f, (forall c, In c (cases db) -> f c = c \/ exists now, f c = touch_row now c)
    /\ cases db' = map f (cases db) /\ items db' = items db /\ next_number db' = next_number db.

Lemma touch_row_ok now c : case_ok c -> case_ok (touch_row now c).
Proof. intros []. by split. Qed.

Lemma recorded_wf db db' : recorded db db' -> wf db -> wf db'.
Proof.
  intros (f & Hf & Ec & Ei & En) Hwf. apply (wf_rewrite db db' f (fun i => i)); try done.
  - by rewrite Ei, map_id_ext.
  - intros c Hc. pose proof (wf_cases _ Hwf c Hc) as Hok.
    destruct (Hf c Hc) as [->|[now ->]]; split_and!; try done. by apply touch_row_ok.
  - intros i Hi. split; [by apply Hwf|done].
  - intros c i Hc Hi E. rewrite (wf_active _ Hwf i c) by done.
    by destruct (Hf c Hc) as [->|[now ->]].
  - rewrite Ei. apply Hwf.
Qed.

Lemma recorded_open id db db' : recorded db db' -> open_case id db -> open_case id db'.
Proof.
  intros (f & Hf & Ec & _) (c & Hc & E & Ho). exists (f c). rewrite Ec. split; [by apply in_map|].
  by destruct (Hf c Hc) as [->|[now ->]].
Qed.

Lemma recorded_refl db : recorded db db.
Proof. exists (fun c => c). split_and!; try done; [by left|by rewrite map_id_ext]. Qed.

(** A transaction that only records keeps what [recorded] keeps. *)
Definition records {A} (m : Tx A) : Prop :=
  forall db, match m db with Done (_, db') => recorded db db' | _ => True end.

Definition record_stable (P : Db -> Prop) : Prop := forall db db', recorded db db' -> P db -> P db'.

Lemma records_hoare {A} (m : Tx A) P : records m -> record_stable P -> hoare P m (fun _ => P).
Proof. intros Hm HP db H. specialize (Hm db). destruct (m db) as [[a db']| |]; eauto. Qed.

Lemma wf_stable : record_stable wf.
Proof. intros db db'. apply recorded_wf. Qed.
Lemma wf_open_stable id : record_stable (wf_open id).
Proof. intros db db' H [? ?]. split; [by eapply recorded_wf|by eapply recorded_open]. Qed.

Lemma records_bind {A B} (m : Tx A) (k : A -> Tx B) :
  records m -> (forall a, records (k a)) -> records (bind m k).
Proof.
  intros Hm Hk db. unfold bind. specialize (Hm db). destruct (m db) as [[a db1]| |]; [|done..].
  specialize (Hk a db1). destruct (k a db1) as [[b db2]| |]; [|done..].
  destruct Hm as (f & Hf & Ec & Ei & En), Hk as (g & Hg & Ec' & Ei' & En').
  exists (fun c => g (f c)). split_and!; [|by rewrite Ec', Ec, map_map|congruence..].
  intros c Hc. assert (In (f c) (cases db1)) as Hc1 by (rewrite Ec; by apply in_map).
  destruct (Hg _ Hc1) as [->|[now ->]], (Hf c Hc) as [->|[now' ->]]; auto; right.
  - by exists now'.
  - by exists now.
  - exists (Z.max now' now). unfold touch_row; simpl. f_equal. lia.
Qed.

Lemma records_ret {A} (a : A) : records (ret a).
Proof. intros db. apply recorded_refl. Qed.

Lemma records_query {A} (f : Db -> A) : records (query f).
Proof. intros db. apply recorded_refl. Qed.

Lemma records_refuse {A} r : records (@refuse A r).
Proof. by intros db. Qed.

Lemma records_expect {A} (o : option A) : records (expect o).
Proof. intros db. destruct o; simpl; [apply recorded_refl|done]. Qed.

Lemma records_if {A} (b : bool) (m1 m2 : Tx A) : records m1 -> records m2 -> records (if b then m1 else m2).
Proof. by destruct b. Qed.

Lemma records_audit w actor action id detail : records (audit w actor action id detail).
Proof.
  intros db. simpl. destruct (match actor with Some _ => _ | None => _ end); [|apply recorded_refl].
  exists (fun c => c). split_and!; try done; [by left|by rewrite map_id_ext].
Qed.

Lemma records_push_event w id at_ actor kind body detail :
  records (push_event w id at_ actor kind body detail).
Proof.
  intros db. unfold push_event. destruct (match actor with Some _ => _ | None => _ end); [|done].
  exists (fun c => c). split_and!; try done; [by left|]. simpl. by rewrite map_id_ext.
Qed.

Lemma records_touch id now : records (touch id now).
Proof.
  intros db. simpl. exists (fun c => if String.eqb (c_id c) (canon id) then touch_row now c else c).
  split_and!; try done. intros c _. case_match; eauto.
Qed.

Lemma records_push_lost w id reason now l : records (push_lost w id reason now l).
Proof.
  induction l as [|i l IH]; [apply records_ret|].
  apply records_bind; [apply records_push_event|done].
Qed.

Lemma records_update_events w user id change current now :
  records (update_events w user id change current now).
Proof.
  unfold update_events.
  repeat first [apply records_bind; [|intros ?] | apply records_if | apply records_push_event
               | apply records_audit | apply records_ret].
Qed.

Create HintDb cases discriminated.
#[export] Hint Resolve records_bind records_ret records_query records_refuse records_expect records_if
  records_audit records_push_event records_touch records_push_lost records_update_events
  wf_stable wf_open_stable : cases.

(** ** Adding rows *)

Lemma canon_idem s : canon (canon s) = canon s.
Proof.
  unfold canon, to_ascii_lowercase. induction s as [|c s IH]; simpl; [done|]. rewrite IH. f_equal.
  destruct c as [[] [] [] [] [] [] [] []]; vm_compute; reflexivity.
Qed.

Lemma not_In_existsb {A} (key : A -> string) l id :
  existsb (fun x => String.eqb (key x) id) l = false -> id ∉ map key l.
Proof.
  intros H (x & -> & Hx%list_elem_of_In)%list_elem_of_fmap.
  rewrite <- Bool.not_true_iff_false in H. apply H. apply existsb_exists. exists x.
  by rewrite String.eqb_refl.
Qed.

Section adding.
Context (w : World) (gen : nat -> string).

Lemma wf_draw db n : wf db ->
  wf {| cases := cases db; items := items db; events := events db; audit_log := audit_log db;
        next_number := next_number db; next_event := next_event db; draws := n |}.
Proof. intros []. by split. Qed.

Lemma hoare_draw P : (forall db n, P db ->
    P {| cases := cases db; items := items db; events := events db; audit_log := audit_log db;
         next_number := next_number db; next_event := next_event db; draws := n |}) ->
  hoare P (draw gen) (fun id db => canon id = id /\ P db).
Proof. intros H db HP. split; [apply canon_idem|by apply H]. Qed.

Lemma insert_case_wf title severity assignee user now :
  severity_ok severity = true ->
  hoare wf (insert_case w gen title severity assignee user now)
    (fun r db => wf_open (canon r.1) db).
Proof.
  intros Hsev. unfold insert_case.
  eapply hoare_bind; [apply hoare_draw, wf_draw|]. intros id.
  apply seq_query. intros tk db (-> & Hid & Hwf). simpl.
  destruct (existsb _ (cases db)) eqn:Et; simpl; [done|].
  destruct (user_known w user); simpl; [|done].
  apply not_In_existsb in Et. set (c := Build_CaseRow _ _ _ _ _ _ _ _ _ _ _ _ _ _).
  assert (case_ok c) as Hc by (subst c; split; simpl; done).
  split.
  - split; simpl; try apply Hwf.
    + intros c' [|[<-|[]]]%in_app_or; [by apply Hwf|done].
    + rewrite map_app. by apply NoDup_snoc; [apply Hwf|].
    + rewrite map_app. apply NoDup_snoc; [apply Hwf|].
      intros (x & E & Hx%list_elem_of_In)%list_elem_of_fmap. apply (wf_next _ Hwf) in Hx. simpl in E. lia.
    + intros c' [Hin|[<-|[]]]%in_app_or; [apply (wf_next _ Hwf) in Hin; lia|simpl; lia].
    + intros i Hi. destruct (wf_home _ Hwf i Hi) as (c' & ? & ?). exists c'. split; [|done].
      apply in_or_app. by left.
    + intros i c' Hi [Hc'|[<-|[]]]%in_app_or E; [by apply (wf_active _ Hwf)|]. exfalso. apply Et.
      destruct (wf_home _ Hwf i Hi) as (c' & Hc' & E'). simpl in E. rewrite E, <- E'.
      apply list_elem_of_In. by apply in_map.
  - exists c. simpl. split_and!; [apply in_or_app; simpl; auto|done|done].
Qed.

Lemma insert_item_wf v case_id item now :
  hoare (wf_open (canon case_id)) (insert_item w gen v case_id item now)
    (fun _ => wf_open (canon case_id)).
Proof.
  unfold insert_item.
  apply seq_query_any; intros held. apply seq_refuse_if; intros _.
  apply seq_query_any; intros same. apply seq_refuse_if; intros _.
  apply hoare_seq.
  { apply hoare_if; intros _; [|apply end_ret].
    apply seq_query_any; intros [n|]; [apply hoare_refuse|apply end_ret]. }
  intros _. eapply hoare_bind.
  { apply (hoare_draw (wf_open (canon case_id))). intros db n [Hwf Ho]. split; [by apply wf_draw|done]. }
  intros id. apply hoare_if; intros _; [|apply hoare_failed].
  set (row := Build_ItemRow _ _ _ _ _ _ _ _ _ _ _).
  intros db (Hid & Hwf & c & Hc & Eid & Hopen). unfold bind, query, refuse_if, write, ret, refuse. simpl.
  destruct (item_conflict (items db) row) eqn:Ex; simpl; [done|].
  assert (forall o, In o (items db) -> i_id o <> id
    /\ (i_active o = true -> exclusive (i_kind row) = true -> same_object o row = false)
    /\ (i_case o = i_case row -> same_object o row = false)) as Hno.
  { intros o Ho. rewrite <- Bool.not_true_iff_false in Ex. unfold item_conflict in Ex.
    rewrite existsb_exists in Ex. split_and!.
    - intros E. apply Ex. exists o. split; [done|]. by rewrite E, String.eqb_refl.
    - intros Ha He. destruct (same_object o row) eqn:Es; [|done]. exfalso. apply Ex. exists o.
      split; [done|]. rewrite Ha, He, Es. simpl. by rewrite orb_true_r.
    - intros E. destruct (same_object o row) eqn:Es; [|done]. exfalso. apply Ex. exists o.
      split; [done|]. rewrite E, Es, String.eqb_refl. simpl. by rewrite orb_true_r. }
  assert (forall b, same_object b row = same_object row b) as Esym.
  { intros b. unfold same_object. rewrite String.eqb_sym. f_equal. by apply bool_decide_ext. }
  split; [|by exists c].
  split; simpl; try apply Hwf.
  - intros i [Hi|[<-|[]]]%in_app_or; [by apply Hwf|]. split; simpl; done.
  - rewrite map_app. apply NoDup_snoc; [apply Hwf|].
    intros (o & E & Ho%list_elem_of_In)%list_elem_of_fmap. by destruct (Hno o Ho) as (? & _).
  - intros i [Hi|[<-|[]]]%in_app_or; [by apply Hwf|]. by exists c.
  - intros i c' [Hi|[<-|[]]]%in_app_or Hc' E; [by apply Hwf|]. simpl in E.
    assert (c' = c) as -> by (apply (case_by_id db); congruence). by rewrite Hopen.
  - intros a b [Ha|[<-|[]]]%in_app_or [Hb|[<-|[]]]%in_app_or Es Ec; try done; [by apply Hwf|..].
    + destruct (Hno a Ha) as (_ & _ & Hn). by rewrite Hn in Es.
    + destruct (Hno b Hb) as (_ & _ & Hn). by rewrite <- Esym, Hn in Es.
  - apply exclusive_clash_spec. pose proof (wf_exclusive _ Hwf) as Hx. rewrite exclusive_clash_spec in Hx.
    intros a b [Ha|[<-|[]]]%in_app_or [Hb|[<-|[]]]%in_app_or Aa Ab Ea Es; try done; [by apply Hx|..].
    + destruct (Hno a Ha) as (_ & Hn & _). rewrite Hn in Es; [done|done|].
      unfold same_object in Es. bprop. congruence.
    + destruct (Hno b Hb) as (_ & Hn & _). by rewrite <- Esym, Hn in Es.
Qed.
End adding.

(** ** The requests *)

Section requests.
Context (w : World) (gen : nat -> string) (rfc3339 : Z -> string).

Lemma records_hoare_wf {A} (m : Tx A) : records m -> hoare wf m (fun _ => wf).
Proof. intros H. apply records_hoare; auto with cases. Qed.

Lemma records_hoare_open {A} id (m : Tx A) : records m -> hoare (wf_open id) m (fun _ => wf_open id).
Proof. intros H. apply records_hoare; auto with cases. Qed.

Lemma record_item_added_records v id number item item_id now :
  records (record_item_added w v id number item item_id now).
Proof. unfold record_item_added. apply records_bind; [|intros _]; auto with cases. Qed.

Lemma resolve_item_records v kind reference : records (resolve_item w v kind reference).
Proof.
  unfold resolve_item. destruct (parse_kind kind) as [k|]; [|apply records_refuse].
  destruct (parse_ref k reference) as [p|]; [|apply records_refuse].
  destruct (find_object w v p) as [[a s]|]; [apply records_ret|apply records_refuse].
Qed.

Lemma resolve_all_records v l : records (resolve_all w v l).
Proof.
  induction l as [|[kind reference] l IH]; [apply records_ret|].
  apply records_bind; [apply resolve_item_records|]. intros item.
  apply records_bind; [done|]. intros rest. apply records_ret.
Qed.

Lemma insert_all_wf v case_id number l now :
  hoare (wf_open (canon case_id)) (insert_all w gen v case_id number l now)
    (fun _ => wf_open (canon case_id)).
Proof.
  induction l as [|item l IH]; [apply end_ret|]. simpl.
  apply hoare_seq; [apply insert_item_wf|]. intros id.
  apply hoare_seq; [apply records_hoare_open, record_item_added_records|]. by intros _.
Qed.

Lemma create_wf scope user new now : hoare wf (create w gen scope user new now) (fun _ => wf).
Proof.
  unfold create. apply seq_refuse_if; intros _. apply seq_refuse_if; intros Hsev.
  apply seq_refuse_if; intros _. apply seq_refuse_if; intros _.
  apply hoare_seq; [apply records_hoare_wf, resolve_all_records|]. intros resolved.
  eapply hoare_bind.
  { apply insert_case_wf. destruct (nc_severity new) as [s|]; simpl; [by bprop|apply default_severity_ok]. }
  intros [case_id number]. simpl.
  apply (hoare_post _ _ _ (fun _ => wf_open (canon case_id))); [|by intros ?? [? _]].
  apply hoare_seq; [apply records_hoare_open; auto with cases|]. intros _.
  apply hoare_seq.
  { apply records_hoare_open. destruct (nc_assignee new); [|auto with cases].
    apply records_bind; auto with cases. }
  intros _. apply hoare_seq; [apply records_hoare_open; auto with cases|]. intros _.
  apply hoare_seq; [apply insert_all_wf|]. intros _.
  apply seq_query_any; intros saved. apply end_expect.
Qed.

(** What locking a case gives. *)
Lemma seq_lock_case {B} v case_id (k : CaseRow -> Tx B) (R : B -> Db -> Prop) :
  (forall c, is_uuid case_id = true -> hoare (fun db => wf db /\ find_case db (canon case_id) = Some c
                                          /\ case_visible w db v c = true) (k c) R) ->
  hoare wf (bind (lock_case w v case_id) (fun locked => bind (require locked NotFound) k)) R.
Proof.
  intros Hk. unfold lock_case. apply seq_query. intros locked. apply seq_require. intros c ->.
  intros db [E Hwf]. destruct (is_uuid case_id) eqn:Eu; [|done].
  destruct (find_case db (canon case_id)) as [c'|] eqn:Ef; [|done].
  destruct (case_visible w db v c') eqn:Ev; [|done]. injection E as <-. by apply Hk.
Qed.

Lemma locked_open db id c : wf db -> find_case db id = Some c -> is_closed c = false -> wf_open id db.
Proof. intros Hwf [Hc E]%find_case_In Ho. split; [done|]. by exists c. Qed.

Lemma add_item_wf scope user case_id kind reference now :
  hoare wf (add_item w gen scope user case_id kind reference now) (fun _ => wf).
Proof.
  unfold add_item. apply seq_lock_case. intros current _. apply seq_refuse_if; intros Ho.
  apply (hoare_conseq _ (wf_open (canon case_id)) _ _ (fun _ => wf_open (canon case_id))).
  2:{ intros db (? & ? & _). by eapply locked_open. }
  2:{ by intros ?? [? _]. }
  apply hoare_seq; [apply records_hoare_open, resolve_item_records|]. intros item.
  apply hoare_seq; [apply insert_item_wf|]. intros item_id.
  apply hoare_seq; [apply records_hoare_open, record_item_added_records|]. intros _.
  apply hoare_seq; [apply records_hoare_open; auto with cases|]. intros _.
  apply seq_query_any; intros added. apply end_expect.
Qed.

Lemma wf_delete p db : wf db -> wf (set_items (List.filter p) db).
Proof.
  intros Hwf. split; simpl; try apply Hwf.
  - intros i [Hi _]%filter_In. by apply Hwf.
  - pose proof (wf_item_ids _ Hwf) as Hnd. clear Hwf. induction (items db) as [|i l IH]; simpl; [done|].
    simpl in Hnd. inversion Hnd as [|? ? Hn Hnd' E]; subst. destruct (p i); simpl; [|by apply IH].
    constructor; [|by apply IH]. intros (x & Ex & Hx%list_elem_of_In)%list_elem_of_fmap.
    apply filter_In in Hx as [Hx _]. apply Hn. rewrite Ex. by apply list_elem_of_In, in_map.
  - intros i [Hi _]%filter_In. by apply Hwf.
  - intros i c [Hi _]%filter_In. by apply Hwf.
  - intros a b [Ha _]%filter_In [Hb _]%filter_In. by apply Hwf.
  - pose proof (wf_exclusive _ Hwf) as Hx. rewrite exclusive_clash_spec in Hx |- *.
    intros a b [Ha _]%filter_In [Hb _]%filter_In. by apply Hx.
Qed.

Lemma remove_item_wf scope user case_id item_id now :
  hoare wf (remove_item w scope user case_id item_id now) (fun _ => wf).
Proof.
  unfold remove_item. apply seq_lock_case. intros current _. apply seq_refuse_if; intros Ho.
  apply (hoare_conseq _ wf _ _ (fun _ => wf)); [|naive_solver|done].
  apply seq_query_any; intros found. apply seq_require; intros item _.
  eapply seq_write; [intros db; apply wf_delete|].
  apply hoare_seq; [apply records_hoare_wf; auto with cases|]. intros _.
  apply hoare_seq; [apply records_hoare_wf; auto with cases|]. intros _.
  apply records_hoare_wf; auto with cases.
Qed.

Lemma add_note_wf scope user case_id text now :
  hoare wf (add_note w scope user case_id text now) (fun _ => wf).
Proof.
  unfold add_note. apply seq_refuse_if; intros _. apply seq_lock_case. intros current _.
  apply (hoare_conseq _ wf _ _ (fun _ => wf)); [|naive_solver|done].
  apply seq_query_any; intros held. apply seq_refuse_if; intros _.
  apply hoare_seq; [apply records_hoare_wf; auto with cases|]. intros id.
  apply hoare_seq; [apply records_hoare_wf; auto with cases|]. intros _.
  apply hoare_seq; [apply records_hoare_wf; auto with cases|]. intros _.
  apply seq_query_any; intros found. apply end_expect.
Qed.

(** *** Outcomes *)

Lemma outcome_valid_ok change now i :
  outcome_valid change now = None -> exclusive (i_kind i) = true ->
  item_ok (set_outcome_row (Some (oc_outcome change)) (oc_note change) (oc_until change) i).
Proof.
  unfold outcome_valid. destruct (mem OUTCOMES (oc_outcome change)) eqn:Em; simpl; [|done].
  intros H He. split; simpl.
  - destruct (String.eqb_spec (oc_outcome change) "accepted_risk") as [->|Hne].
    + destruct (oc_until change); [done|]. by repeat case_match.
    + destruct (oc_until change).
      * by repeat case_match.
      * split; [congruence|done].
  - intros o [= <-]. split_and!; try done.
    destruct (oc_note change); [by right|]. left.
    destruct (String.eqb_spec (oc_outcome change) "resolved"); [done|]. done.
Qed.

Lemma item_ok_cleared i : item_ok (set_outcome_row None None None i).
Proof. by split. Qed.

(** Setting outcomes on some items. *)
Lemma wf_outcomes p outcome note until db :
  wf db ->
  (forall i, In i (items db) -> p i = true -> item_ok (set_outcome_row outcome note until i)) ->
  wf (update_items p (set_outcome_row outcome note until) db).
Proof.
  intros Hwf Hp.
  set (g := fun i => if p i then set_outcome_row outcome note until i else i).
  assert (forall i, identity (g i) = identity i /\ i_active (g i) = i_active i) as Hg.
  { intros i. unfold g. by destruct (p i). }
  apply (wf_rewrite db _ (fun c => c) g); try done.
  - simpl. by rewrite map_id_ext.
  - intros c Hc. split_and!; [by apply Hwf|done..].
  - intros i Hi. split; [|apply Hg]. unfold g. destruct (p i) eqn:E; [by apply Hp|by apply Hwf].
  - intros c i Hc Hi E. destruct (Hg i) as [_ ->]. by apply (wf_active _ Hwf).
  - apply (exclusive_clash_map g); [by intros i _|apply Hwf].
Qed.

Lemma item_by_id db i j : wf db -> In i (items db) -> In j (items db) -> i_id i = i_id j -> i = j.
Proof.
  intros Hwf Hi Hj E. pose proof (wf_item_ids _ Hwf) as Hnd.
  revert Hi Hj Hnd. generalize (items db). intros l. induction l as [|x l IH]; [done|].
  intros Hi Hj Hnd. simpl in Hnd. inversion Hnd as [|? ? Hn Hnd' Eq]; subst.
  destruct Hi as [->|Hi], Hj as [->|Hj]; try done; [..|by apply IH].
  - exfalso. apply Hn. rewrite E. by apply list_elem_of_In, in_map.
  - exfalso. apply Hn. rewrite <- E. by apply list_elem_of_In, in_map.
Qed.

Lemma lock_item_spec v case_id item_id db item :
  is_uuid item_id = true ->
  find (fun i => String.eqb (i_id i) (canon item_id) && item_visible w v i) (items_of db (canon case_id)) = Some item ->
  In item (items db) /\ i_id item = canon item_id /\ i_case item = canon case_id /\ item_visible w v item = true.
Proof.
  intros _ [Hin E]%find_some. bprop. unfold items_of in Hin. apply filter_In in Hin as [Hin Ec].
  apply String.eqb_eq in H, Ec. done.
Qed.

Lemma set_outcome_wf scope user case_id item_id change now :
  hoare wf (set_outcome w rfc3339 scope user case_id item_id change now) (fun _ => wf).
Proof.
  unfold set_outcome. destruct (change ≫= _) as [[field code]|] eqn:Ev; [apply hoare_refuse|].
  apply seq_lock_case. intros current _. apply seq_refuse_if; intros Ho.
  apply (hoare_conseq _ wf _ _ (fun _ => wf)); [|naive_solver|done].
  unfold lock_item. apply seq_query. intros found. apply seq_require. intros item ->.
  apply seq_refuse_if; intros Hk. apply seq_refuse_if; intros _. bprop.
  apply (hoare_conseq _ (fun db => wf db /\ forall i, In i (items db) ->
            i_id i = canon item_id -> i = item) _ _ (fun _ => wf)).
  2:{ intros db [E Hwf]. split; [done|]. intros i Hi Eid.
      destruct (is_uuid item_id) eqn:Eu; [|done].
      symmetry in E. apply lock_item_spec in E as (Hin & E & _); [|done].
      apply (item_by_id db); congruence. }
  2: done.
  apply (hoare_bind _ _ (fun _ => wf)).
  2:{ intros _. apply seq_query_any; intros saved. apply end_expect. }
  apply hoare_if; intros _.
  2:{ eapply hoare_conseq; [apply (end_ret wf)|naive_solver|done]. }
  eapply seq_write.
  { intros db [Hwf Hitem]. apply wf_outcomes; [done|]. intros i Hi E%String.eqb_eq.
    rewrite (Hitem i Hi E). destruct change as [c|]; simpl in *; [|apply item_ok_cleared].
    by apply (outcome_valid_ok c now). }
  apply hoare_seq; [apply records_hoare_wf; auto with cases|]. intros _.
  apply hoare_seq; [apply records_hoare_wf; auto with cases|]. intros _.
  apply records_hoare_wf; auto with cases.
Qed.
End requests.

(** ** Changing a case *)

Section changing.
Context (w : World).

Lemma changed_row_ok change now c :
  case_ok c -> severity_ok (ch_severity change) = true -> status_ok (ch_status change) = true ->
  closing_valid change = None -> case_ok (changed_row change now c).
Proof.
  intros [] Hsev Hst Hcl. unfold closing_valid in Hcl.
  split; unfold is_closed, changed_row; simpl; try done;
    destruct (String.eqb (ch_status change) "closed"), (closing_note change); try done; lia.
Qed.

Lemma reopened_row_ok now c : case_ok c -> case_ok (reopened_row now c).
Proof. intros []. split; unfold is_closed; simpl; try done. lia. Qed.

(** Rewriting one case with the activity of its items. *)
Lemma wf_case_and_items db id c f p g :
  wf db -> find_case db id = Some c -> case_ok (f c) ->
  c_id (f c) = c_id c -> c_number (f c) = c_number c ->
  (forall i, identity (g i) = identity i) ->
  (forall i, In i (items db) -> i_case i = id -> item_ok (g i) /\ i_active (g i) = negb (is_closed (f c))) ->
  (forall i, p i = String.eqb (i_case i) id) ->
  exclusive_clash (map (fun i => if p i then g i else i) (items db)) = false ->
  wf (update_case id f (update_items p g db)).
Proof.
  intros Hwf Hf Hok Hid Hn Hg Hi Hp Hx. apply find_case_In in Hf as [Hc Eid].
  assert (forall c', In c' (cases db) -> String.eqb (c_id c') id = true -> c' = c) as Hu.
  { intros c' Hc' E%String.eqb_eq. apply (case_by_id db); congruence. }
  apply (wf_rewrite db _ (fun c => if String.eqb (c_id c) id then f c else c)
           (fun i => if p i then g i else i)); try done.
  - intros c' Hc'. destruct (String.eqb (c_id c') id) eqn:E.
    + by rewrite (Hu c' Hc' E).
    + split_and!; [by apply Hwf|done..].
  - intros i Hin. rewrite Hp. destruct (String.eqb_spec (i_case i) id) as [E|E].
    + split; [by apply Hi|done].
    + split; [by apply Hwf|done].
  - intros c' i Hc' Hin E. rewrite Hp, <- E. destruct (String.eqb (c_id c') id) eqn:E'.
    + rewrite (Hu c' Hc' E') in *. apply Hi; [done|]. congruence.
    + by apply (wf_active _ Hwf).
Qed.

Lemma update_case_id_items db id f : update_case id f db = update_case id f (update_items (fun i => String.eqb (i_case i) id) (fun i => i) db).
Proof.
  unfold update_case, update_items, set_cases, set_items. simpl. f_equal.
  rewrite map_id_ext; [done|]. intros i. by case_match.
Qed.

Lemma update_wf sql_now scope user case_id change now :
  hoare wf (update w sql_now scope user case_id change now) (fun _ => wf).
Proof.
  unfold update. apply seq_refuse_if; intros _. apply seq_refuse_if; intros Hsev.
  apply seq_refuse_if; intros Hst. bprop.
  destruct (closing_valid change) as [[field code]|] eqn:Ecl; [apply hoare_refuse|].
  apply seq_lock_case. intros current _.
  apply seq_refuse_if; intros _. apply seq_refuse_if; intros _. apply seq_refuse_if; intros _.
  apply hoare_if; intros _.
  { apply seq_query_any; intros u. eapply hoare_conseq; [apply (end_expect wf)|naive_solver|done]. }
  set (P := fun db => wf db /\ find_case db (canon case_id) = Some current).
  apply (hoare_conseq _ P _ _ (fun _ => wf)); [|unfold P; naive_solver|done].
  apply hoare_seq.
  { apply hoare_if; intros _; [|apply end_ret]. apply seq_query_any; intros counts.
    apply seq_refuse_if; intros _. eapply hoare_post; [apply hoare_refuse_if|by intros ? ? [_ ?]]. }
  intros _. apply hoare_seq.
  { apply hoare_if; intros _; [|apply end_ret]. apply seq_query_any; intros [n|]; [apply hoare_refuse|apply end_ret]. }
  intros _.
  apply (seq_pair _ _ _ _ (fun _ => wf)).
  { intros db [Hwf Hf]. pose proof (proj1 (find_case_In _ _ _ Hf)) as Hc.
    pose proof (changed_row_ok change now current (wf_cases _ Hwf _ Hc) Hsev Hst Ecl) as Hok.
    assert (is_closed (changed_row change now current) = String.eqb (ch_status change) "closed") as Ecd by done.
    unfold bind, write.
    destruct (Bool.eqb (is_closed current) (String.eqb (ch_status change) "closed")) eqn:Eb; simpl.
    - apply Bool.eqb_prop in Eb. unfold ret. rewrite update_case_id_items.
      apply (wf_case_and_items db _ current _ _ (fun i => i)); try done.
      + intros i Hi E. split; [by apply Hwf|]. rewrite Ecd, <- Eb. apply (wf_active _ Hwf); [done..|].
        by apply find_case_In in Hf as [_ ->].
      + rewrite map_id_ext; [apply Hwf|]. intros i. by case_match.
    - unfold activate. destruct (exclusive_clash _) eqn:Ex; [done|].
      set (active := negb (String.eqb (ch_status change) "closed")) in *.
      change (wf (update_case (canon case_id) (changed_row change now)
        (update_items (fun i => String.eqb (i_case i) (canon case_id)) (set_active active) db))).
      apply (wf_case_and_items db _ current); try done.
      intros i Hi E. split; [|done]. destruct (wf_items _ Hwf i Hi). by split. }
  intros _.
  apply hoare_seq; [apply records_hoare_wf; auto with cases|]. intros _.
  apply hoare_seq; [apply records_hoare_wf; auto with cases|]. intros _.
  apply seq_query_any; intros saved. apply end_expect.
Qed.

(** ** The lazy reopen checks *)

Definition wf_one (one : string -> Db -> Db * option bool) : Prop :=
  forall id db, wf db -> wf (one id db).1.

Lemma each_case_wf one ids n db : wf_one one -> wf db -> wf (each_case one ids n db).1.
Proof.
  intros H. revert n db. induction ids as [|id ids IH]; intros n db Hwf; simpl; [done|].
  specialize (H id db Hwf). destruct (one id db) as [db' [[]|]]; simpl in *; auto.
Qed.

Lemma reactivated_identity p i : identity (reactivated p i) = identity i.
Proof. unfold reactivated. by destruct (p i). Qed.

Lemma reactivated_ok p i : item_ok i -> item_ok (reactivated p i).
Proof.
  intros [Hu Ho]. unfold reactivated. destruct (p i); split; simpl; try done.
Qed.

(** Reopening a case with its items, when no other open case holds one of them. *)
Lemma wf_reopen db id c now p :
  wf db -> find_case db id = Some c ->
  exclusive_clash (items (update_items (fun i => String.eqb (i_case i) id) (reactivated p) db)) = false ->
  wf (update_case id (reopened_row now)
        (update_items (fun i => String.eqb (i_case i) id) (reactivated p) db)).
Proof.
  intros Hwf Hf Hx. pose proof (proj1 (find_case_In _ _ _ Hf)) as Hc.
  apply (wf_case_and_items db id c); try done.
  - apply reopened_row_ok. by apply Hwf.
  - apply reactivated_identity.
  - intros i Hi E. split; [apply reactivated_ok; by apply Hwf|]. unfold reactivated. by destruct (p i).
Qed.

Lemma records_from {A} (m : Tx A) db a db' : records m -> m db = Done (a, db') -> wf db -> wf db'.
Proof. intros Hm E Hwf. specialize (Hm db). rewrite E in Hm. by eapply recorded_wf. Qed.

Lemma reopen_one_wf t now : wf_one (reopen_one w t now).
Proof.
  intros id db Hwf. unfold reopen_one. destruct (find_case db id) as [c|] eqn:Ef; [|done].
  destruct (due_case t db c); [|done].
  set (p := fun i => mem _ (i_id i)).
  destruct (exclusive_clash _) eqn:Ex; [done|].
  pose proof (wf_reopen db id c now p Hwf Ef Ex) as Hwf'.
  unfold bind at 1, write. destruct (bind _ _ _) as [[[] db'']| |] eqn:E; simpl; [|done..].
  eapply records_from; [|exact E|done].
  apply records_bind; [auto with cases|]. intros _. apply records_bind; [auto with cases|].
  intros _. auto with cases.
Qed.

Lemma reopen_expired_one_wf now : wf_one (reopen_expired_one w now).
Proof.
  intros id db Hwf. unfold reopen_expired_one. destruct (find_case db id) as [c|] eqn:Ef; [|done].
  destruct (_ && _); [|done]. destruct (exclusive_clash _) eqn:Ex; [done|].
  pose proof (wf_reopen db id c now _ Hwf Ef Ex) as Hwf'.
  unfold bind at 1, write. destruct (bind _ _ _) as [[[] db'']| |] eqn:E; simpl; [|done..].
  eapply records_from; [|exact E|done].
  apply records_bind; [auto with cases|]. intros _. auto with cases.
Qed.

Lemma clear_one_wf now : wf_one (clear_one w now).
Proof.
  intros id db Hwf. unfold clear_one. destruct (find_case db id) as [c|] eqn:Ef; [|done].
  destruct (is_closed c); [done|].
  pose proof (wf_outcomes (fun i => String.eqb (i_case i) id && t_item (acceptance_expired now) i)
    None None None db Hwf (fun i _ _ => item_ok_cleared i)) as Hwf'.
  unfold bind at 1, write. destruct (bind _ _ _) as [[[] db'']| |] eqn:E; simpl; [|done..].
  eapply records_from; [|exact E|done].
  apply records_bind; [auto with cases|]. intros _. apply records_bind; [auto with cases|].
  intros _. auto with cases.
Qed.

Lemma reopen_due_wf now db : wf db -> wf (reopen_due w now db).1.
Proof.
  intros Hwf. unfold reopen_due.
  pose proof (each_case_wf _ (map c_id (take REOPEN_BATCH (sort_by by_accepted_until
    (List.filter (fun c => expired_case now c && negb (taken db (c_id c))) (cases db))))) 0 db
    (reopen_expired_one_wf now) Hwf) as H1.
  change (wf (reopen_expired w now db).1) in H1.
  destruct (reopen_expired w now db) as [db1 [a|]]; [|done]. simpl in H1.
  assert (wf (reopen_item_acceptance_expired w now db1).1) as H2
    by (apply each_case_wf; [apply reopen_one_wf|done]).
  destruct (reopen_item_acceptance_expired w now db1) as [db2 [b|]]; [|done]. simpl in H2.
  assert (wf (reopen_evidence_returned w now db2).1) as H3
    by (apply each_case_wf; [apply reopen_one_wf|done]).
  destruct (reopen_evidence_returned w now db2) as [db3 [c|]]; [|done]. simpl in H3.
  assert (wf (clear_open_acceptances_expired w now db3).1) as H4
    by (apply each_case_wf; [apply clear_one_wf|done]).
  by destruct (clear_open_acceptances_expired w now db3) as [db4 [d|]].
Qed.
End changing.

Lemma step_wf gen rfc3339 db db' : step gen rfc3339 db db' -> wf db -> wf db'.
Proof.
  intros Hs Hwf. destruct Hs.
  - apply hoare_run; [apply create_wf|done].
  - apply hoare_run; [apply update_wf|done].
  - apply hoare_run; [apply add_item_wf|done].
  - apply hoare_run; [apply remove_item_wf|done].
  - apply hoare_run; [apply set_outcome_wf|done].
  - apply hoare_run; [apply add_note_wf|done].
  - by apply reopen_due_wf.
Qed.

Lemma empty_wf : wf empty_db.
Proof. split; simpl; try done; constructor. Qed.

Lemma reachable_wf gen rfc3339 db : reachable gen rfc3339 db -> wf db.
Proof. induction 1; [apply empty_wf|by eapply step_wf]. Qed.
