(* ===== verification/CaseProps.v ===== *)
(** * Cases: properties of the operations

    What every history keeps (the invariant, append-only logs), what closing requires, versioned
    updates without lost changes, the visibility of cases, and the reopen checks. *)
From S2P Require Import Prelude RustStd Text Json CaseData CaseDb CaseOps CaseInv.
From stdpp Require Import prelude strings pretty.
From Stdlib Require Import Ascii ZArith Lia.

Open Scope Z_scope.

(** ** Logs *)

(** The logs of [db] continue those of [db0]. *)
Definition extends (db0 db : Db) : Prop :=
  (exists l, events db = events db0 ++ l) /\ (exists l, audit_log db = audit_log db0 ++ l).

(** A transaction that only ever appends to the timeline and the audit log. *)
Definition appends {A} (m : Tx A) : Prop :=
  forall db, match m db with Done (_, db') => extends db db' | _ => True end.

Lemma extends_refl db : extends db db.
Proof. by split; exists []; rewrite app_nil_r. Qed.

Lemma extends_trans a b c : extends a b -> extends b c -> extends a c.
Proof.
  intros [[l1 E1] [l2 E2]] [[l3 E3] [l4 E4]].
  split; [exists (l1 ++ l3)|exists (l2 ++ l4)]; by rewrite app_assoc, <- ?E1, <- ?E2.
Qed.

Section logs.
Context (w : World) (gen : nat -> string) (rfc3339 : Z -> string).

Lemma appends_bind {A B} (m : Tx A) (k : A -> Tx B) :
  appends m -> (forall a, appends (k a)) -> appends (bind m k).
Proof.
  intros Hm Hk db. unfold bind. specialize (Hm db). destruct (m db) as [[a db1]| |]; [|done..].
  specialize (Hk a db1). destruct (k a db1) as [[b db2]| |]; [|done..]. by eapply extends_trans.
Qed.

Lemma appends_ret {A} (a : A) : appends (ret a).
Proof. intros db. apply extends_refl. Qed.
Lemma appends_refuse {A} r : appends (@refuse A r).
Proof. by intros db. Qed.
Lemma appends_failed {A} : appends (@failed A).
Proof. by intros db. Qed.
Lemma appends_query {A} (f : Db -> A) : appends (query f).
Proof. intros db. apply extends_refl. Qed.
Lemma appends_refuse_if b r : appends (refuse_if b r).
Proof. intros db. destruct b; [done|apply extends_refl]. Qed.
Lemma appends_require {A} (o : option A) r : appends (require o r).
Proof. intros db. destruct o; [apply extends_refl|done]. Qed.
Lemma appends_expect {A} (o : option A) : appends (expect o).
Proof. intros db. destruct o; [apply extends_refl|done]. Qed.
Lemma appends_if {A} (b : bool) (m1 m2 : Tx A) : appends m1 -> appends m2 -> appends (if b then m1 else m2).
Proof. by destruct b. Qed.
Lemma appends_write f : (forall db, extends db (f db)) -> appends (write f).
Proof. intros H db. apply H. Qed.

Lemma extends_set_cases f db : extends db (set_cases f db).
Proof. apply (extends_refl db). Qed.
Lemma extends_set_items f db : extends db (set_items f db).
Proof. apply (extends_refl db). Qed.
Lemma extends_update_case id f db : extends db (update_case id f db).
Proof. apply extends_set_cases. Qed.
Lemma extends_update_items p f db : extends db (update_items p f db).
Proof. apply extends_set_items. Qed.

Lemma appends_draw : appends (draw gen).
Proof. intros db. apply (extends_refl db). Qed.

Lemma appends_audit actor action id detail : appends (audit w actor action id detail).
Proof.
  intros db. simpl. destruct (match actor with Some _ => _ | None => _ end); [|apply extends_refl].
  split; simpl; [exists []; by rewrite app_nil_r|by eexists].
Qed.

Lemma appends_push_event id at_ actor kind body detail :
  appends (push_event w id at_ actor kind body detail).
Proof.
  intros db. unfold push_event. destruct (match actor with Some _ => _ | None => _ end); [|done].
  split; simpl; [by eexists|exists []; by rewrite app_nil_r].
Qed.

Lemma appends_touch id now : appends (touch id now).
Proof. apply appends_write. intros db. apply extends_update_case. Qed.

Lemma appends_activate id active : appends (activate id active).
Proof.
  intros db. unfold activate. destruct (exclusive_clash _); [done|]. apply extends_update_items.
Qed.

Lemma appends_lock_case v id : appends (lock_case w v id).
Proof. apply appends_query. Qed.
Lemma appends_lock_item v id item : appends (lock_item w v id item).
Proof. apply appends_query. Qed.

#[local] Hint Resolve appends_ret appends_refuse appends_failed appends_query appends_refuse_if appends_require
  appends_expect appends_draw appends_audit appends_push_event appends_touch appends_activate
  appends_lock_case appends_lock_item extends_refl extends_set_cases extends_set_items
  extends_update_case extends_update_items : cases.

(** Goes through a transaction statement by statement. *)
Ltac walk :=
  repeat match goal with
  | |- appends (bind _ _) => apply appends_bind; [|intros ?]
  | |- appends (if _ then _ else _) => apply appends_if
  | |- appends (write _) => apply appends_write; intros ?
  | |- appends (match ?x with _ => _ end) => destruct x
  | |- forall _, _ => intros ?
  end; auto with cases.

Lemma appends_push_lost id reason now l : appends (push_lost w id reason now l).
Proof. induction l; simpl; walk. Qed.

Lemma appends_update_events user id change current now :
  appends (update_events w user id change current now).
Proof. unfold update_events. walk. Qed.

Lemma appends_resolve_all v l : appends (resolve_all w v l).
Proof. induction l as [|[k r] l IH]; simpl; unfold resolve_item; walk. Qed.

Lemma appends_insert_item v id item now : appends (insert_item w gen v id item now).
Proof. unfold insert_item. walk. Qed.

Lemma appends_insert_all v id number l now : appends (insert_all w gen v id number l now).
Proof.
  induction l; simpl; [walk|]. apply appends_bind; [apply appends_insert_item|intros ?].
  apply appends_bind; [unfold record_item_added; walk|by intros ?].
Qed.

#[local] Hint Resolve appends_push_lost appends_update_events appends_resolve_all appends_insert_item
  appends_insert_all : cases.

Lemma appends_insert_case t s a u now : appends (insert_case w gen t s a u now).
Proof. unfold insert_case. walk. Qed.
#[local] Hint Resolve appends_insert_case : cases.

Lemma appends_create scope user new now : appends (create w gen scope user new now).
Proof. unfold create. walk. Qed.
Lemma appends_update sql_now scope user id change now : appends (update w sql_now scope user id change now).
Proof. unfold update. walk. Qed.
Lemma appends_add_item scope user id kind reference now :
  appends (add_item w gen scope user id kind reference now).
Proof. unfold add_item, record_item_added, resolve_item. walk. Qed.
Lemma appends_remove_item scope user id item now : appends (remove_item w scope user id item now).
Proof. unfold remove_item. walk. Qed.
Lemma appends_set_outcome scope user id item change now :
  appends (set_outcome w rfc3339 scope user id item change now).
Proof. unfold set_outcome. walk. Qed.
Lemma appends_add_note scope user id text now : appends (add_note w scope user id text now).
Proof. unfold add_note. walk. Qed.

Lemma appends_run {A} (m : Tx A) db : appends m -> extends db (run m db).2.
Proof.
  intros H. specialize (H db). unfold run. destruct (m db) as [[a db']| |]; simpl; auto using extends_refl.
Qed.

Definition extends_one (one : string -> Db -> Db * option bool) : Prop :=
  forall id db, extends db (one id db).1.

Lemma extends_each one ids n db : extends_one one -> extends db (each_case one ids n db).1.
Proof.
  intros H. revert n db. induction ids as [|id ids IH]; intros n db; simpl; [apply extends_refl|].
  specialize (H id db). destruct (one id db) as [db' [[]|]]; simpl in *; eauto using extends_trans.
Qed.

Lemma extends_from {A} (m : Tx A) db0 db a db' :
  appends m -> m db = Done (a, db') -> extends db0 db -> extends db0 db'.
Proof. intros Hm E H. specialize (Hm db). rewrite E in Hm. by eapply extends_trans. Qed.

Ltac from_log E := eapply extends_from; [|exact E|]; [walk|auto with cases].

Lemma extends_reopen_one t now : extends_one (reopen_one w t now).
Proof.
  intros id db. unfold reopen_one. destruct (find_case db id); [|apply extends_refl].
  destruct (due_case t db c); [|apply extends_refl].
  destruct (exclusive_clash _); [apply extends_refl|].
  destruct (bind _ _ _) as [[[] db'']| |] eqn:E; simpl; [|apply extends_refl..]. from_log E.
Qed.

Lemma extends_reopen_expired_one now : extends_one (reopen_expired_one w now).
Proof.
  intros id db. unfold reopen_expired_one. destruct (find_case db id); [|apply extends_refl].
  destruct (_ && _); [|apply extends_refl]. destruct (exclusive_clash _); [apply extends_refl|].
  destruct (bind _ _ _) as [[[] db'']| |] eqn:E; simpl; [|apply extends_refl..]. from_log E.
Qed.

Lemma extends_clear_one now : extends_one (clear_one w now).
Proof.
  intros id db. unfold clear_one. destruct (find_case db id); [|apply extends_refl].
  destruct (is_closed c); [apply extends_refl|].
  destruct (bind _ _ _) as [[[] db'']| |] eqn:E; simpl; [|apply extends_refl..]. from_log E.
Qed.

Lemma extends_reopen_due now db : extends db (reopen_due w now db).1.
Proof.
  unfold reopen_due.
  pose proof (extends_each (reopen_expired_one w now) (map c_id (take REOPEN_BATCH (sort_by by_accepted_until
    (List.filter (fun c => expired_case now c && negb (taken db (c_id c))) (cases db))))) 0 db
    (extends_reopen_expired_one now)) as H1.
  change (extends db (reopen_expired w now db).1) in H1.
  destruct (reopen_expired w now db) as [db1 [a|]]; [|done]. simpl in H1.
  assert (extends db1 (reopen_item_acceptance_expired w now db1).1) as H2
    by apply extends_each, extends_reopen_one.
  destruct (reopen_item_acceptance_expired w now db1) as [db2 [b|]]; simpl in *; [|by eapply extends_trans].
  assert (extends db2 (reopen_evidence_returned w now db2).1) as H3 by apply extends_each, extends_reopen_one.
  destruct (reopen_evidence_returned w now db2) as [db3 [c|]]; simpl in *; [|by eauto using extends_trans].
  assert (extends db3 (clear_open_acceptances_expired w now db3).1) as H4
    by apply extends_each, extends_clear_one.
  destruct (clear_open_acceptances_expired w now db3) as [db4 [d|]]; simpl in *; eauto using extends_trans.
Qed.
End logs.

(** ** What a change did *)

Section changes.
Context (w : World).

(** The rows after a change that was not a no-op. *)
Definition changed_cases (id : string) (change : CaseChange) (now : Z) (db : Db) : list CaseRow :=
  map (fun c => if String.eqb (c_id c) id then changed_row change now c else c) (cases db).
Definition changed_items (id : string) (change : CaseChange) (current : CaseRow) (db : Db) : list ItemRow :=
  if Bool.eqb (is_closed current) (String.eqb (ch_status change) "closed") then items db
  else map (fun i => if String.eqb (i_case i) id
                     then set_active (negb (String.eqb (ch_status change) "closed")) i else i) (items db).

Definition unblocked (sql_now : Z) (id : string) (db : Db) : Prop :=
  forall i, In i (items_of db id) -> blocking_item w sql_now i = false.

Lemma records_same {A} (m : Tx A) (X : list CaseRow) (Y : list ItemRow) :
  (forall db, match m db with Done (_, db') => cases db' = cases db /\ items db' = items db | _ => True end) ->
  hoare (fun db => cases db = X /\ items db = Y) m (fun _ db => cases db = X /\ items db = Y).
Proof.
  intros Hm db [H1 H2]. specialize (Hm db). destruct (m db) as [[a db']| |]; [|done..].
  destruct Hm. split; congruence.
Qed.

(** A transaction that leaves cases and items alone. *)
Definition keeps_rows {A} (m : Tx A) : Prop :=
  forall db, match m db with Done (_, db') => cases db' = cases db /\ items db' = items db | _ => True end.

Lemma keeps_bind {A B} (m : Tx A) (k : A -> Tx B) :
  keeps_rows m -> (forall a, keeps_rows (k a)) -> keeps_rows (bind m k).
Proof.
  intros Hm Hk db. unfold bind. specialize (Hm db). destruct (m db) as [[a db1]| |]; [|done..].
  specialize (Hk a db1). destruct (k a db1) as [[b db2]| |]; [|done..]. intuition congruence.
Qed.

Lemma keeps_push_event id at_ actor kind body detail : keeps_rows (push_event w id at_ actor kind body detail).
Proof. intros db. unfold push_event. by destruct (match actor with Some _ => _ | None => _ end). Qed.
Lemma keeps_audit actor action id detail : keeps_rows (audit w actor action id detail).
Proof. intros db. simpl. by destruct (match actor with Some _ => _ | None => _ end). Qed.
Lemma keeps_ret {A} (a : A) : keeps_rows (ret a).
Proof. by intros db. Qed.

Lemma keeps_update_events user id change current now :
  keeps_rows (update_events w user id change current now).
Proof.
  unfold update_events.
  repeat match goal with
  | |- keeps_rows (bind _ _) => apply keeps_bind; [|intros ?]
  | |- keeps_rows (if ?b then _ else _) => destruct b
  end; auto using keeps_push_event, keeps_audit, keeps_ret.
Qed.

Lemma unblocked_counts sql_now v id db :
  0 <? (blocking_items w sql_now v id db).1 = false -> 0 <? (blocking_items w sql_now v id db).2 = false ->
  unblocked sql_now (canon id) db.
Proof.
  unfold blocking_items; simpl. set (l := List.filter (blocking_item w sql_now) (items_of db (canon id))).
  rewrite !Z.ltb_ge. intros H1 H2 i Hi. apply Bool.not_true_iff_false. intros Hb.
  assert (In i l) as Hl by (apply filter_In; done).
  destruct (item_visible w v i) eqn:Ev.
  - assert (In i (List.filter (item_visible w v) l)) as Hx by (apply filter_In; done).
    destruct (List.filter (item_visible w v) l); [done|simpl in H1; lia].
  - assert (In i (List.filter (fun i => negb (item_visible w v i)) l)) as Hx
      by (apply filter_In; rewrite Ev; done).
    destruct (List.filter (fun i => negb (item_visible w v i)) l); [done|simpl in H2; lia].
Qed.

(** Everything a completed change tells. *)
Definition update_post (sql_now : Z) (scope : AgentScope) (user id : string) (change : CaseChange)
    (now : Z) (db : Db) (d : CaseDetail) (db' : Db) : Prop :=
  exists c, find_case db (canon id) = Some c /\ case_visible w db (viewer_new scope user) c = true
    /\ c_version c = expected_version change
    /\ read_detail w db' (viewer_new scope user) id = Some d
    /\ (db' = db /\ ch_status change = c_status c
        \/ cases db' = changed_cases (canon id) change now db
           /\ items db' = changed_items (canon id) change c db
           /\ (is_closed c = false -> ch_status change = "closed" -> unblocked sql_now (canon id) db)).

Lemma update_done sql_now scope user id change now db d db' :
  update w sql_now scope user id change now db = Done (d, db') ->
  update_post sql_now scope user id change now db d db'.
Proof.
  assert (hoare (fun x => x = db) (update w sql_now scope user id change now)
    (update_post sql_now scope user id change now db)) as H.
  2:{ intros E. specialize (H db eq_refl). by rewrite E in H. }
  unfold update. apply seq_refuse_if; intros _. apply seq_refuse_if; intros _. apply seq_refuse_if; intros _.
  destruct (closing_valid change) as [[? ?]|]; [apply hoare_refuse|].
  unfold lock_case. apply seq_query; intros locked. apply seq_require; intros c ->.
  intros x [Hc ->]. destruct (is_uuid id) eqn:Eu; [|done].
  destruct (find_case db (canon id)) as [c'|] eqn:Ef; [|done].
  destruct (case_visible w db (viewer_new scope user) c') eqn:Ev; [|done]. injection Hc as <-.
  match goal with |- match ?m db with _ => _ end =>
    assert (hoare (fun x => x = db) m (update_post sql_now scope user id change now db)) as Hm; [|exact (Hm db eq_refl)] end.
  apply seq_refuse_if; intros Hver. bprop. apply Z.eqb_eq in Hver.
  apply seq_refuse_if; intros _. apply seq_refuse_if; intros _.
  apply hoare_if; intros Hsame.
  { apply seq_query; intros u x [-> ->]. destruct (read_detail _ _ _ _) as [d0|] eqn:Er; simpl; [|done].
    exists c. bprop. split_and!; try done. left. split; [done|]. symmetry. by apply String.eqb_eq. }
  apply (hoare_bind _ _ (fun _ x => x = db /\
           (is_closed c = false -> ch_status change = "closed" -> unblocked sql_now (canon id) db))).
  { apply hoare_if; intros Hb.
    - apply seq_query; intros counts. apply seq_refuse_if; intros H1. intros x [Ec ->].
      unfold refuse_if. destruct (0 <? counts.2) eqn:H2; [done|]. simpl. split; [done|]. intros _ _.
      subst counts. by apply (unblocked_counts sql_now (viewer_new scope user)).
    - intros x ->. simpl. split; [done|]. intros E1 E2. by rewrite E1, E2 in Hb. }
  intros _.
  apply (hoare_seq _ _).
  { apply hoare_if; intros _; [|apply end_ret]. apply seq_query_any; intros [n|]; [apply hoare_refuse|apply end_ret]. }
  intros _.
  apply (seq_pair _ _ _ _ (fun _ x => (cases x = changed_cases (canon id) change now db
           /\ items x = changed_items (canon id) change c db)
           /\ (is_closed c = false -> ch_status change = "closed" -> unblocked sql_now (canon id) db))).
  { intros x [-> Hun]. unfold bind, write, changed_items.
    destruct (Bool.eqb (is_closed c) _); simpl; [done|]. unfold activate.
    destruct (exclusive_clash _); [done|]. done. }
  intros _.
  set (R := fun x => _ /\ _).
  assert (forall A (m : Tx A), keeps_rows m -> hoare R m (fun _ => R)) as Hk.
  { intros A m Hm x [[Hx1 Hx2] Hx3]. specialize (Hm x). destruct (m x) as [[a x']| |]; [|done..].
    destruct Hm as [E1 E2]. unfold R. by rewrite E1, E2. }
  apply hoare_seq; [apply Hk, keeps_update_events|]. intros _.
  apply hoare_seq.
  { apply Hk. match goal with |- keeps_rows (if ?b then _ else _) => destruct b end;
      [apply keeps_audit|apply keeps_ret]. }
  intros _. apply seq_query; intros saved x [-> [[Hx1 Hx2] Hx3]].
  destruct (read_detail _ _ _ _) as [d0|] eqn:Er; simpl; [|done].
  exists c. split_and!; try done. right. done.
Qed.
End changes.

Lemma find_case_map db db' id f :
  cases db' = map f (cases db) -> (forall c, c_id (f c) = c_id c) ->
  find_case db' id = f <$> find_case db id.
Proof.
  intros E Hf. unfold find_case. rewrite E. clear E.
  induction (cases db) as [|c l IH]; simpl; [done|].
  rewrite Hf. destruct (String.eqb (c_id c) id); [done|by apply IH].
Qed.

Lemma find_changed id change now db db' c :
  find_case db id = Some c -> cases db' = changed_cases id change now db ->
  find_case db' id = Some (changed_row change now c).
Proof.
  intros Hf E. rewrite (find_case_map _ _ _ _ E), Hf.
  - apply find_case_In in Hf as [_ E']. simpl. by rewrite E', String.eqb_refl.
  - intros c'. by case_match.
Qed.

Lemma refuse_if_step {B} b r (k : unit -> Tx B) db :
  bind (refuse_if b r) k db = if b then Refused r else k tt db.
Proof. by destruct b. Qed.

(** A request on a case the viewer cannot see ends before it writes. *)
Definition unseen (w : World) (scope : AgentScope) (user id : string) (db : Db) : Prop :=
  forall c, find_case db (canon id) = Some c -> case_visible w db (viewer_new scope user) c = false.

Lemma lock_unseen {B} w scope user id db (k : CaseRow -> Tx B) :
  unseen w scope user id db ->
  bind (lock_case w (viewer_new scope user) id) (fun locked => bind (require locked NotFound) k) db
  = Refused NotFound.
Proof.
  intros Hu. unfold bind at 1, lock_case, query. destruct (is_uuid id); [|done].
  destruct (find_case db (canon id)) as [c|] eqn:Ef; [|done]. by rewrite (Hu c Ef).
Qed.

(** ** Properties *)

(** C4: every history keeps the invariant: an item is active exactly while its case is not
    closed; an alarm, finding or vulnerability is active in at most one case; a case is closed
    exactly when it has its closing note and time, and only a closed case has a resolution; an
    outcome has the note and date it needs and only evidence items have one; ids and case numbers
    are never reused. *)
Theorem reachable_invariant gen rfc3339 db : reachable gen rfc3339 db -> wf db.
Proof. apply reachable_wf. Qed.

(** The timeline and the audit log are append-only: no request and no check ever changes or
    removes an entry. *)
Theorem history_append_only gen rfc3339 db db' : step gen rfc3339 db db' -> extends db db'.
Proof.
  intros Hs. destruct Hs.
  - apply appends_run, appends_create; assumption.
  - apply appends_run, appends_update; assumption.
  - apply appends_run, appends_add_item; assumption.
  - apply appends_run, appends_remove_item; assumption.
  - apply appends_run, appends_set_outcome; assumption.
  - apply appends_run, appends_add_note; assumption.
  - apply extends_reopen_due; assumption.
Qed.

(** C6: a case only closes when nothing stands in the way.  If a change that asks for [closed]
    completes on a case that was not closed, then every alarm, finding and vulnerability of it,
    hidden ones included, had an outcome, its evidence was gone if that was [resolved], and its
    acceptance had not run out; the case is then closed with the note and its items are inactive. *)
Theorem close_requires_outcomes w sql_now scope user id change now db d db' c :
  run (update w sql_now scope user id change now) db = (Done d, db') ->
  find_case db (canon id) = Some c -> is_closed c = false -> ch_status change = "closed" ->
  unblocked w sql_now (canon id) db
  /\ (exists c', find_case db' (canon id) = Some c' /\ is_closed c' = true
        /\ c_resolution_note c' = closing_note change /\ c_closed_at c' = Some (default now (c_closed_at c)))
  /\ forall i, In i (items_of db' (canon id)) -> i_active i = false.
Proof.
  unfold run. destruct (update _ _ _ _ _ _ _ db) as [[d0 db0]| |] eqn:E; [|done..].
  intros [= <- <-] Hf Ho Hst. apply update_done in E as (c0 & Hf' & _ & _ & _ & H).
  rewrite Hf in Hf'. injection Hf' as <-.
  destruct H as [[_ Es]|(Ec & Ei & Hu)].
  { exfalso. unfold is_closed in Ho. rewrite <- Es, Hst in Ho. done. }
  split_and!; [by apply Hu| |].
  - exists (changed_row change now c). split; [by eapply find_changed|].
    unfold is_closed, changed_row; simpl. by rewrite Hst.
  - intros i. unfold items_of. rewrite Ei. unfold changed_items. rewrite Ho, Hst. simpl.
    intros [Hi E]%filter_In. apply in_map_iff in Hi as (j & Ej & Hj).
    destruct (String.eqb (i_case j) (canon id)) eqn:Ejc; subst i; simpl; [done|congruence].
Qed.

(** Changes are versioned: a change completes only against the version it read, a change
    that wrote anything made a new version, and no second change against the old version completes
    afterwards, whoever sends it, so no update is lost. *)
Theorem update_never_lost w sql_now scope user id change now db d db' :
  run (update w sql_now scope user id change now) db = (Done d, db') -> db' <> db ->
  (exists c c', find_case db (canon id) = Some c /\ find_case db' (canon id) = Some c'
     /\ c_version c = expected_version change /\ c_version c' = expected_version change + 1)
  /\ forall w2 sql_now2 scope2 user2 change2 now2,
       expected_version change2 = expected_version change ->
       forall d2, (run (update w2 sql_now2 scope2 user2 id change2 now2) db').1 <> Done d2.
Proof.
  unfold run at 1. destruct (update _ _ _ _ _ _ _ db) as [[d0 db0]| |] eqn:E; [|done..].
  intros [= <- <-] Hne. apply update_done in E as (c & Hf & _ & Hv & _ & [[-> _]|(Ec & _)]); [done|].
  pose proof (find_changed _ _ _ _ _ _ Hf Ec) as Hf'. split.
  - exists c, (changed_row change now c). split_and!; try done. simpl. lia.
  - intros w2 sn2 s2 u2 ch2 n2 Hev d2. unfold run.
    destruct (update w2 sn2 s2 u2 id ch2 n2 db0) as [[d1 db1]| |] eqn:E2; [|done..].
    apply update_done in E2 as (c2 & Hf2 & _ & Hv2 & _). rewrite Hf' in Hf2. injection Hf2 as <-.
    simpl in Hv2. lia.
Qed.

(** A case the caller cannot see reads as absent: every request on it is refused as not found
    (or, before that, for a field of its own) and changes nothing. *)
Theorem unseen_case_absent w gen rfc3339 scope user id db :
  unseen w scope user id db ->
  (forall kind reference now, run (add_item w gen scope user id kind reference now) db = (Refused NotFound, db))
  /\ (forall item now, run (remove_item w scope user id item now) db = (Refused NotFound, db))
  /\ (forall text now, note_ok text = true -> run (add_note w scope user id text now) db = (Refused NotFound, db))
  /\ (forall item change now, (change ≫= fun c => outcome_valid c now) = None ->
        run (set_outcome w rfc3339 scope user id item change now) db = (Refused NotFound, db))
  /\ (forall sql_now change now, exists r, run (update w sql_now scope user id change now) db = (Refused r, db)
        /\ (r = NotFound \/ exists field code, r = Invalid field code))
  /\ get_case w db scope user id = None.
Proof.
  intros Hu. split_and!.
  - intros. unfold run, add_item. by rewrite lock_unseen.
  - intros. unfold run, remove_item. by rewrite lock_unseen.
  - intros text now Hn. unfold run, add_note. rewrite refuse_if_step, Hn. simpl. by rewrite lock_unseen.
  - intros item change now Hc. unfold run, set_outcome. rewrite Hc. by rewrite lock_unseen.
  - intros sql_now change now. unfold run, update. rewrite refuse_if_step.
    destruct (negb (title_ok _)); [eexists; split; [done|]; right; by do 2 eexists|]. cbv beta. rewrite refuse_if_step.
    destruct (negb (severity_ok _)); [eexists; split; [done|]; right; by do 2 eexists|]. cbv beta. rewrite refuse_if_step.
    destruct (negb (mem _ _)); [eexists; split; [done|]; right; by do 2 eexists|].
    destruct (closing_valid change) as [[f c]|]; [eexists; split; [done|]; right; by do 2 eexists|].
    cbv zeta beta. rewrite lock_unseen by done. eexists. split; [done|]. by left.
  - unfold get_case, read_detail, read_summary. destruct (is_uuid id); [|done].
    destruct (find_case db (canon id)) as [c|] eqn:Ef; simpl; [|done]. by rewrite (Hu c Ef).
Qed.

(** After a change that completes, whoever made it still sees the case: a change that would
    take the case out of its maker's sight (an assignee handing over a case they see only because
    it is assigned to them) never completes, and nothing of it is kept. *)
Theorem update_keeps_sight w sql_now scope user id change now db :
  (exists d db' c, run (update w sql_now scope user id change now) db = (Done d, db')
     /\ find_case db' (canon id) = Some c /\ case_visible w db' (viewer_new scope user) c = true)
  \/ (run (update w sql_now scope user id change now) db).2 = db.
Proof.
  unfold run. destruct (update _ _ _ _ _ _ _ db) as [[d db']| |] eqn:E; [|by right..].
  left. apply update_done in E as (_ & _ & _ & _ & Hr & _). exists d, db'.
  unfold read_detail, read_summary in Hr. destruct (is_uuid id); [|done].
  destruct (find_case db' (canon id)) as [c|]; simpl in Hr; [|done]. exists c. split_and!; try done.
  by destruct (case_visible _ _ _ c).
Qed.

(** A completed note: its entry, the touch and an audit row with the text's length alone. *)
Lemma add_note_outcome w scope user id text now db :
  note_ok text = true ->
  audit_log (run (add_note w scope user id text now) db).2 = audit_log db
    /\ (run (add_note w scope user id text now) db).2 = db
  \/ exists c, find_case db (canon id) = Some c
     /\ audit_log (run (add_note w scope user id text now) db).2
       = audit_log db ++ [{| au_actor := Some user; au_action := "case.note"; au_target := id;
           au_detail := JObject [("event_id", JPosInt (next_event db)); ("length", JPosInt (char_count text));
                                 ("number", JPosInt (c_number c))] |}].
Proof.
  intros Hn. unfold run, add_note. rewrite refuse_if_step, Hn. simpl.
  unfold lock_case, bind, query, require. destruct (is_uuid id); simpl; [|auto].
  destruct (find_case db (canon id)) as [c|]; simpl; [|auto].
  destruct (case_visible _ _ _ _); simpl; [|auto].
  unfold refuse_if. destruct (_ <=? _); simpl; [auto|].
  unfold push_event. destruct (user_known w _) eqn:Ek; simpl; [|auto].
  unfold touch, audit, write. simpl. replace (user_known w user) with true by (by destruct scope).
  destruct (find _ _); simpl; [|auto]. right. by exists c.
Qed.

(** The audit log never holds a note's text: two notes of the same length, sent in the same
    state, leave the same audit log whenever both are added. *)
Theorem audit_log_blind_to_notes w scope user id text1 text2 now db :
  note_ok text1 = true -> note_ok text2 = true -> char_count text1 = char_count text2 ->
  (run (add_note w scope user id text1 now) db).2 <> db ->
  (run (add_note w scope user id text2 now) db).2 <> db ->
  audit_log (run (add_note w scope user id text1 now) db).2
  = audit_log (run (add_note w scope user id text2 now) db).2.
Proof.
  intros H1 H2 Hlen N1 N2.
  destruct (add_note_outcome w scope user id text1 now db H1) as [[_ ?]|(c1 & F1 & ->)]; [done|].
  destruct (add_note_outcome w scope user id text2 now db H2) as [[_ ?]|(c2 & F2 & ->)]; [done|].
  rewrite F1 in F2. injection F2 as <-. by rewrite Hlen.
Qed.


(** ** The reopen checks *)

(** The platform's own entries are always accepted. *)
Lemma platform_event w id at_ kind body detail db :
  exists n db', push_event w id at_ None kind body detail db = Done (n, db')
    /\ cases db' = cases db /\ items db' = items db.
Proof. unfold push_event. by eexists _, _. Qed.

Lemma push_lost_done w id reason now l db :
  exists db', push_lost w id reason now l db = Done (tt, db')
    /\ cases db' = cases db /\ items db' = items db.
Proof.
  revert db. induction l as [|i l IH]; intros db; [by exists db|]. simpl.
  destruct (platform_event w id now "item_outcome" None
    (JObject ([("from", json_opt_str (i_outcome i))] ++ item_detail (i_id i) (i_kind i) (i_ref i) (i_agent i)
              ++ [("reason", JString reason); ("to", JNull)])) db) as (n & db1 & E1 & E2 & E3).
  destruct (IH db1) as (db2 & E4 & E5 & E6). exists db2. unfold bind. simpl in E1. rewrite E1, E4.
  split_and!; congruence.
Qed.

(** Reactivating the items of a case that shares none with an open case breaks no uniqueness. *)
Lemma reactivate_no_clash db id p :
  wf db -> taken db id = false ->
  exclusive_clash (items (update_items (fun i => String.eqb (i_case i) id) (reactivated p) db)) = false.
Proof.
  intros Hwf Ht. apply exclusive_clash_spec. intros a' b' Ha Hb Aa Ab Ea Es. simpl in Ha, Hb.
  apply in_map_iff in Ha as (a & <- & Ha). apply in_map_iff in Hb as (b & <- & Hb).
  assert (forall i, identity (if String.eqb (i_case i) id then reactivated p i else i) = identity i) as Hid.
  { intros i. destruct (String.eqb (i_case i) id); [apply reactivated_identity|done]. }
  rewrite (identity_same _ _ _ _ (Hid a) (Hid b)) in Es.
  pose proof (Hid a) as Ia. pose proof (Hid b) as Ib. unfold identity in Ia, Ib.
  assert (exclusive (i_kind a) = true) as Ea' by congruence.
  assert (i_id a = i_id b) as E; [|congruence]. clear Ea.
  assert (same_object b a = true) as Es'.
  { unfold same_object in *. bprop. rewrite String.eqb_sym, bool_decide_eq_true_2 by done. done. }
  assert (exclusive (i_kind b) = true) as Eb' by (unfold same_object in Es; bprop; congruence).
  assert (forall mine o, In mine (items db) -> In o (items db) -> String.eqb (i_case mine) id = true ->
    exclusive (i_kind mine) = true -> same_object o mine = true -> i_active o = true ->
    String.eqb (i_case o) id = true) as Hno.
  { intros mine o Hm Ho Em Ek Eso Eao. destruct (String.eqb (i_case o) id) eqn:Eo; [done|]. exfalso.
    rewrite <- Bool.not_true_iff_false in Ht. apply Ht. unfold taken. apply existsb_exists. exists mine.
    split; [by apply filter_In|]. rewrite Ek. simpl. apply existsb_exists. exists o.
    split; [done|]. by rewrite Eso, Eao, Eo. }
  destruct (String.eqb (i_case a) id) eqn:Eca, (String.eqb (i_case b) id) eqn:Ecb.
  - apply String.eqb_eq in Eca, Ecb. apply (wf_unique _ Hwf); congruence.
  - by rewrite (Hno a b) in Ecb.
  - by rewrite (Hno b a) in Eca.
  - pose proof (wf_exclusive _ Hwf) as Hex. rewrite exclusive_clash_spec in Hex. by apply Hex.
Qed.

(** One reopen check is exact: a due case becomes open with a new version, its items active
    again and the items that were the reason without their outcome, while every other outcome
    stays; a case that is not due, one that would share an item with another open case among
    them, is left as it is. *)
Theorem reopen_one_exact w t now id db c :
  wf db -> find_case db id = Some c ->
  (due_case t db c = false -> (reopen_one w t now id db).1 = db)
  /\ (due_case t db c = true ->
        cases (reopen_one w t now id db).1
        = map (fun x => if String.eqb (c_id x) id then reopened_row now x else x) (cases db)
        /\ items (reopen_one w t now id db).1
           = map (fun i => if String.eqb (i_case i) id then reactivated (t_item t) i else i) (items db)).
Proof.
  intros Hwf Hf. unfold reopen_one. rewrite Hf. split; [by intros ->|]. intros Hdue. rewrite Hdue.
  set (p := fun i => mem _ (i_id i)).
  assert (forall i, In i (items db) -> String.eqb (i_case i) id = true -> p i = t_item t i) as Hp.
  { intros i Hi Ei. unfold p, mem. apply Bool.eq_iff_eq_true. rewrite existsb_exists. split.
    - intros (x & (j & <- & Hj)%in_map_iff & E%String.eqb_eq). apply filter_In in Hj as [Hj Ht].
      apply filter_In in Hj as [Hj _]. by rewrite (item_by_id db i j).
    - intros Ht. exists (i_id i). rewrite String.eqb_refl. split; [|done]. apply in_map, filter_In.
      split; [|done]. by apply filter_In. }
  assert (taken db id = false) as Ht.
  { unfold due_case in Hdue. bprop. by apply find_case_In in Hf as [_ <-]. }
  rewrite (reactivate_no_clash db id p Hwf Ht).
  set (db1 := update_case id (reopened_row now)
                (update_items (fun i => String.eqb (i_case i) id) (reactivated p) db)).
  match goal with |- cases ?X.1 = _ /\ _ =>
    assert (exists db', X = (db', Some true) /\ cases db' = cases db1 /\ items db' = items db1)
      as (db' & -> & E5 & E6) end.
  { unfold bind at 1, write.
    destruct (platform_event w id now "reopened" None
      (JObject [("previous_resolution", json_opt_str (c_resolution c)); ("reason", JString (t_reason t));
                ("status", JString "open")]) db1) as (n & db2 & E1 & E2 & E3).
    fold db1. unfold bind at 1. rewrite E1. unfold bind at 1.
    destruct (push_lost_done w id (t_reason t) now
      (List.filter (fun i => t_item t i) (items_of db id)) db2) as (db3 & E4 & E5 & E6).
    rewrite E4. eexists. split; [reflexivity|].
    split; [exact (eq_trans E5 E2)|exact (eq_trans E6 E3)]. }
  simpl. rewrite E5, E6. split; [done|]. simpl.
  apply map_ext_in. intros i Hi. destruct (String.eqb (i_case i) id) eqn:E; [|done].
  unfold reactivated. by rewrite Hp.
Qed.

(** ** A concrete history *)

Definition ALICE : string := "00000000-0000-4000-8000-00000000000a".
Definition BOB : string := "00000000-0000-4000-8000-00000000000b".

Definition ex_gen (n : nat) : string :=
  let t := pretty n in
  "11111111-0000-4000-8000-" +:+ String.concat "" (replicate (12 - String.length t) "0") +:+ t.
Definition ex_rfc3339 (t : Z) : string := pretty t.

(** One host in the group [prod] with an open finding; Alice and Bob read cases. *)
Definition ex_world (ended : bool) : World := {|
  agents := [{| a_id := "web-01"; a_hostname := Some "web"; a_status := "active"; a_groups := ["prod"] |}];
  alarms := [];
  current_findings := [{| fi_agent := "web-01"; fi_set := "baseline"; fi_rule := "ssh-root"; fi_severity := "high";
                          fi_message := "root login"; fi_ended := ended |}];
  advisories := []; vulnerabilities := []; version_vulnerabilities := []; host_packages := [];
  package_versions := []; host_listeners := []; host_services := [];
  console_users := [{| u_id := ALICE; u_username := "alice"; u_display_name := "Alice"; u_reads_cases := true |};
                    {| u_id := BOB; u_username := "bob"; u_display_name := "Bob"; u_reads_cases := true |}] |}.

Definition ex_create (assignee : option string) : Tx CaseDetail :=
  create (ex_world false) ex_gen Global ALICE
    {| nc_title := "SSH on web-01"; nc_severity := None; nc_assignee := assignee;
       nc_items := [("compliance_finding", "web-01/baseline/ssh-root")] |} 100.
Definition ex_case : string := ex_gen 0.
Definition ex_item : string := ex_gen 1.

Definition ex_change (version : Z) (status : string) (assignee note : option string) : CaseChange :=
  {| expected_version := version; ch_title := "SSH on web-01"; ch_severity := "high"; ch_status := status;
     ch_assignee := assignee; closing_note := note |}.

(** Created; closing is refused while the finding has no outcome; [resolved] is refused while it
    is still reported; once it ended the item is resolved and the case closes; when the finding
    comes back the platform reopens the case and clears the outcome. *)
Definition ex_created : Db := (run (ex_create None) empty_db).2.
Definition ex_resolve (w : World) : Tx CaseItem :=
  set_outcome w ex_rfc3339 Global ALICE ex_case ex_item
    (Some {| oc_outcome := "resolved"; oc_note := None; oc_until := None |}) 200.
Definition ex_close (w : World) : Tx CaseDetail :=
  update w 250 Global ALICE ex_case (ex_change 1 "closed" None (Some "patched")) 250.
Definition ex_resolved : Db := (run (ex_resolve (ex_world true)) ex_created).2.
Definition ex_closed : Db := (run (ex_close (ex_world true)) ex_resolved).2.
Definition ex_reopened : Db := (reopen_due (ex_world false) 300 ex_closed).1.

Definition refusal_of {A} (r : res A * Db) : option Refusal :=
  match r.1 with Refused r => Some r | _ => None end.

Example ex_history :
  refusal_of (run (ex_close (ex_world false)) ex_created) = Some (ItemsUnresolved 1)
  /\ refusal_of (run (ex_resolve (ex_world false)) ex_created) = Some EvidencePresent
  /\ refusal_of (run (ex_close (ex_world false)) ex_resolved) = Some (ItemsUnresolved 1)
  /\ map c_status (cases ex_closed) = ["closed"] /\ map i_active (items ex_closed) = [false]
  /\ map c_status (cases ex_reopened) = ["open"] /\ map c_version (cases ex_reopened) = [3]
  /\ map (fun i => (i_active i, i_outcome i)) (items ex_reopened) = [(true, None)]
  /\ map e_kind (events ex_reopened)
     = ["created"; "item_added"; "item_outcome"; "resolved"; "reopened"; "item_outcome"]
  /\ map au_action (audit_log ex_reopened)
     = ["case.create"; "case.item.add"; "case.item.outcome"; "case.close"; "case.reopen"].
Proof. vm_compute. done. Qed.

Lemma ex_reachable : reachable ex_gen ex_rfc3339 ex_reopened.
Proof.
  eapply reachable_step; [|apply step_reopen_due].
  eapply reachable_step; [|apply step_update].
  eapply reachable_step; [|apply step_set_outcome].
  eapply reachable_step; [|apply step_create].
  apply reachable_empty.
Defined.

Lemma reachable_invariant_witness : wf ex_reopened.
Proof. exact (reachable_invariant ex_gen ex_rfc3339 ex_reopened ex_reachable). Defined.

Lemma history_append_only_witness : extends ex_closed ex_reopened.
Proof.
  apply (history_append_only ex_gen ex_rfc3339 ex_closed ex_reopened).
  apply (step_reopen_due ex_gen ex_rfc3339 (ex_world false) 300 ex_closed).
Defined.

Definition ex_detail {A} (r : res A * Db) : option A := match r.1 with Done a => Some a | _ => None end.

Lemma ex_done {A} (r : res A * Db) a : ex_detail r = Some a -> r = (Done a, r.2).
Proof. destruct r as [[b| |] db]; simpl; by intros [= <-]. Defined.

Lemma close_requires_outcomes_witness :
  exists d c, unblocked (ex_world true) 250 (canon ex_case) ex_resolved
    /\ run (ex_close (ex_world true)) ex_resolved = (Done d, ex_closed)
    /\ find_case ex_resolved (canon ex_case) = Some c.
Proof.
  assert (exists d, ex_detail (run (ex_close (ex_world true)) ex_resolved) = Some d) as [d Hd]
    by (vm_compute; eexists; reflexivity).
  assert (exists c, find_case ex_resolved (canon ex_case) = Some c /\ is_closed c = false) as (c & Hc & Ho)
    by (vm_compute; eexists; split; reflexivity).
  exists d, c. split; [|split; [exact (ex_done _ _ Hd)|exact Hc]].
  exact (proj1 (close_requires_outcomes (ex_world true) 250 Global ALICE ex_case
    (ex_change 1 "closed" None (Some "patched")) 250 ex_resolved d ex_closed c (ex_done _ _ Hd) Hc Ho eq_refl)).
Defined.

Lemma update_never_lost_witness :
  exists c c', find_case ex_resolved (canon ex_case) = Some c /\ find_case ex_closed (canon ex_case) = Some c'
    /\ c_version c = 1 /\ c_version c' = 1 + 1.
Proof.
  assert (exists d, ex_detail (run (ex_close (ex_world true)) ex_resolved) = Some d) as [d Hd]
    by (vm_compute; eexists; reflexivity).
  assert (ex_closed <> ex_resolved) as Hne by (intros E; apply (f_equal (fun db => map c_version (cases db))) in E; revert E; vm_compute; discriminate).
  exact (proj1 (update_never_lost (ex_world true) 250 Global ALICE ex_case
    (ex_change 1 "closed" None (Some "patched")) 250 ex_resolved d ex_closed (ex_done _ _ Hd) Hne)).
Defined.

(** Bob, who sees no host and did not open the case, does not see it. *)
Lemma unseen_case_absent_witness :
  get_case (ex_world false) ex_created (AssetGroups []) BOB ex_case = None /\ items ex_created <> [].
Proof.
  split; [|vm_compute; discriminate].
  apply (unseen_case_absent (ex_world false) ex_gen ex_rfc3339 (AssetGroups []) BOB ex_case ex_created).
  intros c Hc. vm_compute in Hc. injection Hc as <-. vm_compute. reflexivity.
Defined.

Lemma audit_log_blind_to_notes_witness :
  audit_log (run (add_note (ex_world false) Global ALICE ex_case "secret" 150) ex_created).2
  = audit_log (run (add_note (ex_world false) Global ALICE ex_case "public" 150) ex_created).2.
Proof.
  apply audit_log_blind_to_notes; try reflexivity;
    intros E; apply (f_equal (fun db => length (events db))) in E; revert E; vm_compute; discriminate.
Defined.

Lemma reopen_one_exact_witness :
  map c_status (cases (reopen_one (ex_world false) (evidence_returned (ex_world false) 300) 300 (canon ex_case) ex_closed).1)
  = ["open"].
Proof.
  assert (wf ex_closed) as Hwf.
  { apply (reachable_wf ex_gen ex_rfc3339). eapply reachable_step; [|apply step_update].
    eapply reachable_step; [|apply step_set_outcome]. eapply reachable_step; [|apply step_create].
    apply reachable_empty. }
  assert (exists c, find_case ex_closed (canon ex_case) = Some c
    /\ due_case (evidence_returned (ex_world false) 300) ex_closed c = true) as (c & Hc & Hd)
    by (vm_compute; eexists; split; reflexivity).
  destruct (reopen_one_exact (ex_world false) (evidence_returned (ex_world false) 300) 300 (canon ex_case)
    ex_closed c Hwf Hc) as [_ H].
  destruct (H Hd) as [-> _]. vm_compute. reflexivity.
Defined.

(** Alice opens a case assigned to Bob; Bob sees it only because it is assigned to him, and his
    request to hand it back fails as a database error. *)
Example assignee_cannot_hand_over :
  let db := (run (ex_create (Some BOB)) empty_db).2 in
  let handover := update (ex_world false) 150 (AssetGroups []) BOB ex_case (ex_change 1 "open" (Some ALICE) None) 150 in
  is_Some (get_case (ex_world false) db (AssetGroups []) BOB ex_case)
  /\ run handover db = (StoreError, db).
Proof. vm_compute. split; [by eexists|reflexivity]. Qed.
