(* ===== verification/AccessData.v ===== *)
(** * Access control: the permissions and their catalogue (openvibes-console/src/access/
      permission.rs, catalogue.rs, templates.rs)

    A permission is a constructor; its row of [CATALOGUE] carries what the code looks up by it. *)
From S2P Require Import Prelude RustStd BTree.
From stdpp Require Import prelude strings list.
From Stdlib Require Import Ascii ZArith Lia Sorted.

(** ** Permissions *)

Inductive Permission :=
  | AlarmsRead | AlarmsSuppressionsRead | AlarmsTriage | AlarmsSuppress | AlarmsExport
  | AlarmsSuppressionsApprove | ComplianceRead | ComplianceTriage | ComplianceExport
  | VulnerabilitiesRead | VulnerabilitiesTriage | VulnerabilitiesExport | HostsRead | HostsLabel
  | HostsRevoke | HostsExport | CasesRead | CasesWrite | CasesAssign | RulesRead
  | RulesAssignmentRead | RulesCoverageRead | RulesContentsRead | RulesAssignmentWrite
  | RulesPublish | SiteRulesRead | SiteRulesWrite | SiteRulesTest | SiteRulesPublish
  | DashboardsShare | DashboardsPublish | AssistantUse | AssistantAdmin | AccessRead | AccessUsers
  | AccessRoles | AccessGrant | HostGroupsManage | ServiceAccountsRead | ServiceAccountsManage
  | ServiceAccountsTokens | TokensRead | TokensManage | TokensInstaller | AuditRead
  | AuditRetentionManage | AuditExport | SettingsManage.

Definition ALL : list Permission := [
  AlarmsRead; AlarmsSuppressionsRead; AlarmsTriage; AlarmsSuppress; AlarmsExport;
  AlarmsSuppressionsApprove; ComplianceRead; ComplianceTriage; ComplianceExport;
  VulnerabilitiesRead; VulnerabilitiesTriage; VulnerabilitiesExport; HostsRead; HostsLabel;
  HostsRevoke; HostsExport; CasesRead; CasesWrite; CasesAssign; RulesRead; RulesAssignmentRead;
  RulesCoverageRead; RulesContentsRead; RulesAssignmentWrite; RulesPublish; SiteRulesRead;
  SiteRulesWrite; SiteRulesTest; SiteRulesPublish; DashboardsShare; DashboardsPublish;
  AssistantUse; AssistantAdmin; AccessRead; AccessUsers; AccessRoles; AccessGrant;
  HostGroupsManage; ServiceAccountsRead; ServiceAccountsManage; ServiceAccountsTokens; TokensRead;
  TokensManage; TokensInstaller; AuditRead; AuditRetentionManage; AuditExport; SettingsManage].

Inductive Scope := HostScope | PlatformScope.
Inductive Column := View | Change | Export | Approve.

Record PermissionDef := {
  pd_permission : Permission;
  pd_id : string;
  pd_area : string;
  pd_label : string;
  pd_column : Column;
  pd_scope : Scope;
  pd_needs : list Permission;
}.

Definition d (permission : Permission) (id area label : string) (column : Column) (scope : Scope)
    (needs : list Permission) : PermissionDef :=
  {| pd_permission := permission; pd_id := id; pd_area := area; pd_label := label;
     pd_column := column; pd_scope := scope; pd_needs := needs |}.

Definition CATALOGUE : list PermissionDef := [
  d AlarmsRead "alarms.read" "Alarms" "View alarms" View HostScope [];
  d AlarmsSuppressionsRead "alarms.suppressions.read" "Alarms" "View suppressions" View HostScope [AlarmsRead];
  d AlarmsTriage "alarms.triage" "Alarms" "Triage alarms" Change HostScope [AlarmsRead];
  d AlarmsSuppress "alarms.suppress" "Alarms" "Suppress alarms (with a reason)" Change HostScope [AlarmsRead; AlarmsSuppressionsRead];
  d AlarmsExport "alarms.export" "Alarms" "Export alarms" Export HostScope [AlarmsRead];
  d AlarmsSuppressionsApprove "alarms.suppressions.approve" "Alarms" "Approve suppressions" Approve HostScope [AlarmsSuppressionsRead];
  d ComplianceRead "compliance.read" "Compliance" "View findings" View HostScope [];
  d ComplianceTriage "compliance.triage" "Compliance" "Triage findings" Change HostScope [ComplianceRead];
  d ComplianceExport "compliance.export" "Compliance" "Export findings" Export HostScope [ComplianceRead];
  d VulnerabilitiesRead "vulnerabilities.read" "Vulnerabilities" "View vulnerabilities" View HostScope [];
  d VulnerabilitiesTriage "vulnerabilities.triage" "Vulnerabilities" "Triage vulnerabilities" Change HostScope [VulnerabilitiesRead];
  d VulnerabilitiesExport "vulnerabilities.export" "Vulnerabilities" "Export vulnerabilities" Export HostScope [VulnerabilitiesRead];
  d HostsRead "hosts.read" "Hosts" "View hosts" View HostScope [];
  d HostsLabel "hosts.label" "Hosts" "Label hosts" Change HostScope [HostsRead];
  d HostsRevoke "hosts.revoke" "Hosts" "Revoke a host" Change HostScope [HostsRead];
  d HostsExport "hosts.export" "Hosts" "Export host data" Export HostScope [HostsRead];
  d CasesRead "cases.read" "Cases" "View cases" View HostScope [];
  d CasesWrite "cases.write" "Cases" "Create and edit cases" Change HostScope [CasesRead];
  d CasesAssign "cases.assign" "Cases" "Assign cases" Change HostScope [CasesWrite];
  d RulesRead "rules.read" "Rule sets" "View rule sets and versions" View PlatformScope [];
  d RulesAssignmentRead "rules.assignment.read" "Rule sets" "View where sets run" View PlatformScope [RulesRead];
  d RulesCoverageRead "rules.coverage.read" "Rule sets" "View ATT&CK coverage" View PlatformScope [];
  d RulesContentsRead "rules.contents.read" "Rule sets" "View rule contents" View PlatformScope [RulesRead];
  d RulesAssignmentWrite "rules.assignment.write" "Rule sets" "Change where sets run" Change PlatformScope [RulesAssignmentRead];
  d RulesPublish "rules.publish" "Rule sets" "Publish a rule bundle" Approve PlatformScope [RulesRead];
  d SiteRulesRead "site_rules.read" "Site rules" "View site rule drafts" View PlatformScope [];
  d SiteRulesWrite "site_rules.write" "Site rules" "Edit site rule drafts" Change PlatformScope [SiteRulesRead];
  d SiteRulesTest "site_rules.test" "Site rules" "Test a draft on a host" Change PlatformScope [SiteRulesWrite; HostsRead];
  d SiteRulesPublish "site_rules.publish" "Site rules" "Publish site rules" Approve PlatformScope [SiteRulesWrite];
  d DashboardsShare "dashboards.share" "Dashboards" "Share dashboards with your roles" Change PlatformScope [];
  d DashboardsPublish "dashboards.publish" "Dashboards" "Publish dashboards to everyone" Approve PlatformScope [DashboardsShare];
  d AssistantUse "assistant.use" "Assistant" "Use the assistant" View HostScope [];
  d AssistantAdmin "assistant.admin" "Assistant" "Configure the assistant and internet lookups" Change PlatformScope [];
  d AccessRead "access.read" "Access" "View people and roles" View PlatformScope [];
  d AccessUsers "access.users" "Access" "Create, edit and disable users" Change PlatformScope [AccessRead];
  d AccessRoles "access.roles" "Access" "Create and edit roles" Change PlatformScope [AccessRead];
  d AccessGrant "access.grant" "Access" "Give people roles" Change PlatformScope [AccessRead];
  d HostGroupsManage "host_groups.manage" "Access" "Manage host groups" Change PlatformScope [AccessRead; HostsRead];
  d ServiceAccountsRead "service_accounts.read" "Service accounts" "View service accounts" View PlatformScope [];
  d ServiceAccountsManage "service_accounts.manage" "Service accounts" "Create and disable service accounts" Change PlatformScope [ServiceAccountsRead];
  d ServiceAccountsTokens "service_accounts.tokens" "Service accounts" "Issue and revoke their tokens" Change PlatformScope [ServiceAccountsRead];
  d TokensRead "tokens.read" "Enrollment" "View enrollment tokens" View PlatformScope [];
  d TokensManage "tokens.manage" "Enrollment" "Create and revoke tokens" Change PlatformScope [TokensRead];
  d TokensInstaller "tokens.installer" "Enrollment" "Download the agent installer" Export PlatformScope [TokensRead];
  d AuditRead "audit.read" "Audit log" "View the audit log" View PlatformScope [];
  d AuditRetentionManage "audit.retention.manage" "Audit log" "Change retention" Change PlatformScope [AuditRead];
  d AuditExport "audit.export" "Audit log" "Export the audit log" Export PlatformScope [AuditRead];
  d SettingsManage "settings.manage" "General" "Change general settings" Change PlatformScope []].

(** The position of a permission: its discriminant, and its derived [Ord]. *)
Definition index (p : Permission) : nat :=
  match p with
  | AlarmsRead => 0
  | AlarmsSuppressionsRead => 1
  | AlarmsTriage => 2
  | AlarmsSuppress => 3
  | AlarmsExport => 4
  | AlarmsSuppressionsApprove => 5
  | ComplianceRead => 6
  | ComplianceTriage => 7
  | ComplianceExport => 8
  | VulnerabilitiesRead => 9
  | VulnerabilitiesTriage => 10
  | VulnerabilitiesExport => 11
  | HostsRead => 12
  | HostsLabel => 13
  | HostsRevoke => 14
  | HostsExport => 15
  | CasesRead => 16
  | CasesWrite => 17
  | CasesAssign => 18
  | RulesRead => 19
  | RulesAssignmentRead => 20
  | RulesCoverageRead => 21
  | RulesContentsRead => 22
  | RulesAssignmentWrite => 23
  | RulesPublish => 24
  | SiteRulesRead => 25
  | SiteRulesWrite => 26
  | SiteRulesTest => 27
  | SiteRulesPublish => 28
  | DashboardsShare => 29
  | DashboardsPublish => 30
  | AssistantUse => 31
  | AssistantAdmin => 32
  | AccessRead => 33
  | AccessUsers => 34
  | AccessRoles => 35
  | AccessGrant => 36
  | HostGroupsManage => 37
  | ServiceAccountsRead => 38
  | ServiceAccountsManage => 39
  | ServiceAccountsTokens => 40
  | TokensRead => 41
  | TokensManage => 42
  | TokensInstaller => 43
  | AuditRead => 44
  | AuditRetentionManage => 45
  | AuditExport => 46
  | SettingsManage => 47
  end.
Definition perm_cmp : Permission -> Permission -> comparison := cmp_on index Nat.compare.

#[export] Instance index_inj : Inj (=) (=) index.
Proof.
  assert (forall p, ALL !! index p = Some p) as H by by intros [].
  intros p q E. pose proof (H p) as Hp. rewrite E, H in Hp. congruence.
Qed.
#[export] Instance permission_eq_dec : EqDecision Permission.
Proof. intros p q. destruct (decide (index p = index q)) as [E|E]; [left|right]; [by apply (inj index)|congruence]. Defined.
#[export] Instance perm_cmp_order : CmpOrder perm_cmp.
Proof. split; [unfold perm_cmp; apply _|]. intros p q E. apply (inj index). by apply Nat.compare_eq. Qed.
#[export] Instance scope_eq_dec : EqDecision Scope.
Proof. solve_decision. Defined.

Definition perm_eqb (p q : Permission) : bool := Nat.eqb (index p) (index q).
Definition perm_mem (p : Permission) (l : list Permission) : bool := existsb (perm_eqb p) l.

(** ** The catalogue *)

(** The row of a permission; the source panics when there is none, which [def_permission] excludes. *)
Definition def (p : Permission) : PermissionDef :=
  default (d p "" "" "" View PlatformScope [])
    (find (fun r => perm_eqb (pd_permission r) p) CATALOGUE).
#[global] Arguments def : simpl never.

Definition perm_id (p : Permission) : string := pd_id (def p).
#[global] Arguments perm_id : simpl never.
Definition from_id (id : string) : option Permission := find (fun p => String.eqb (perm_id p) id) ALL.

(** [if out.insert(n) { stack.push(n) }]. *)
Definition need_step (os : list (Permission * unit) * list Permission) (n : Permission)
    : list (Permission * unit) * list Permission :=
  let '(out, stack) := os in
  if bt_contains perm_cmp n out then (out, stack) else (bs_insert perm_cmp n out, n :: stack).

(** The set plus everything it needs: the stack's top is the head of [stack]. *)
Fixpoint needs_loop (fuel : nat) (out : list (Permission * unit)) (stack : list Permission)
    : option (list Permission) :=
  match stack with
  | [] => Some out.*1
  | p :: stack =>
      match fuel with
      | O => None
      | S fuel =>
          let '(out, stack) := fold_left need_step (pd_needs (def p)) (out, stack) in
          needs_loop fuel out stack
      end
  end.

(** Each turn takes one permission that entered the stack once. *)
Definition needs_fuel : nat := 49.
Definition with_needs (set : list Permission) : list Permission :=
  default [] (needs_loop needs_fuel (map (fun p => (p, ())) set) (rev set)).

(** ** Role templates *)

Record Template := { t_name : string; t_description : string; t_permissions : list Permission }.

Definition TEMPLATES : list Template := [
  {| t_name := "Viewer";
     t_description := "Sees alarms, findings, vulnerabilities, hosts and dashboards.";
     t_permissions := [
       AlarmsRead; AlarmsSuppressionsRead; ComplianceRead; VulnerabilitiesRead; HostsRead;
       CasesRead; RulesRead; RulesCoverageRead] |};
  {| t_name := "Analyst";
     t_description := "Viewer, plus triage, cases, suppressing with a reason, and the assistant.";
     t_permissions := [
       AlarmsRead; AlarmsSuppressionsRead; ComplianceRead; VulnerabilitiesRead; HostsRead;
       CasesRead; RulesRead; RulesCoverageRead; AlarmsTriage; AlarmsSuppress; ComplianceTriage;
       VulnerabilitiesTriage; CasesWrite; AssistantUse] |};
  {| t_name := "Operator";
     t_description := "Runs the fleet: enrollment, labels, revoking hosts, publishing rules and where they run.";
     t_permissions := [
       AlarmsRead; ComplianceRead; VulnerabilitiesRead; HostsRead; HostsLabel; HostsRevoke;
       TokensRead; TokensManage; TokensInstaller; RulesRead; RulesAssignmentRead;
       RulesCoverageRead; RulesContentsRead; RulesPublish; RulesAssignmentWrite] |};
  {| t_name := "Team lead";
     t_description := "For a role limited to some groups: Analyst, plus approving suppressions, labels, sharing dashboards and giving roles within its share.";
     t_permissions := [
       AlarmsRead; AlarmsSuppressionsRead; ComplianceRead; VulnerabilitiesRead; HostsRead;
       CasesRead; RulesRead; RulesCoverageRead; AlarmsTriage; AlarmsSuppress; ComplianceTriage;
       VulnerabilitiesTriage; CasesWrite; AssistantUse; AlarmsSuppressionsApprove; HostsLabel;
       DashboardsShare; AccessRead; AccessGrant] |};
  {| t_name := "Auditor";
     t_description := "Reads everything, plus the audit log and its export. Changes nothing.";
     t_permissions := [
       AlarmsRead; AlarmsSuppressionsRead; AlarmsExport; ComplianceRead; ComplianceExport;
       VulnerabilitiesRead; VulnerabilitiesExport; HostsRead; HostsExport; CasesRead; RulesRead;
       RulesAssignmentRead; RulesCoverageRead; RulesContentsRead; SiteRulesRead; AccessRead;
       ServiceAccountsRead; TokensRead; AuditRead; AuditExport] |};
  {| t_name := "Rule author";
     t_description := "Site rule drafts, testing on a host, publishing, and coverage.";
     t_permissions := [
       HostsRead; RulesRead; RulesAssignmentRead; RulesCoverageRead; RulesContentsRead;
       SiteRulesRead; SiteRulesWrite; SiteRulesTest; SiteRulesPublish] |}].

(** ** Lemmas *)

Lemma perm_eqb_eq p q : perm_eqb p q = true <-> p = q.
Proof. unfold perm_eqb. rewrite Nat.eqb_eq. split; [apply (inj index)|by intros ->]. Qed.
Lemma perm_mem_In p l : perm_mem p l = true <-> In p l.
Proof.
  unfold perm_mem. rewrite existsb_exists. split.
  - by intros (q & Hq & ->%perm_eqb_eq).
  - intros Hp. exists p. split; [done|]. by apply perm_eqb_eq.
Qed.

Lemma ALL_In p : In p ALL.
Proof. apply perm_mem_In. by destruct p. Qed.
Lemma def_permission p : pd_permission (def p) = p.
Proof. by destruct p. Qed.
Lemma from_id_perm_id p : from_id (perm_id p) = Some p.
Proof. by destruct p. Qed.
Lemma from_id_Some id p : from_id id = Some p -> perm_id p = id.
Proof. by intros [_ H%String.eqb_eq]%find_some. Qed.
Lemma perm_id_inj p q : perm_id p = perm_id q -> p = q.
Proof. intros E. pose proof (from_id_perm_id p) as H. rewrite E, from_id_perm_id in H. congruence. Qed.

(** [q] is needed by [p] directly, and through any number of needs. *)
Definition needs (p q : Permission) : Prop := In q (pd_needs (def p)).

Lemma need_steps ns out stack :
  bt_sorted perm_cmp out ->
  let '(out', stack') := fold_left need_step ns (out, stack) in
  bt_sorted perm_cmp out'
  /\ (forall q, In q out'.*1 <-> In q ns \/ In q out.*1)
  /\ (forall q, In q stack -> In q stack')
  /\ (forall q, In q stack' -> In q stack \/ In q ns)
  /\ (forall q, In q out'.*1 -> In q out.*1 \/ In q stack')
  /\ (length out' + length stack = length out + length stack')%nat.
Proof.
  revert out stack. induction ns as [|n ns IH]; intros out stack Hs; simpl; [tauto|].
  destruct (bt_contains perm_cmp n out) eqn:En.
  - specialize (IH out stack Hs). destruct (fold_left _ ns _) as [out' stack'].
    apply (bs_mem_get perm_cmp) in En; [|done]. destruct IH as (H1 & H2 & H3 & H4 & H5 & H6).
    split_and!; try done; intros q.
    + rewrite H2. split; [tauto|]. intros [[<-|?]|?]; auto.
    + intros [?|?]%H4; auto.
  - specialize (IH (bs_insert perm_cmp n out) (n :: stack)). rewrite (bs_insert_length perm_cmp n out Hs En) in IH.
    destruct (fold_left _ ns _) as [out' stack'].
    destruct IH as (H1 & H2 & H3 & H4 & H5 & H6); [by apply (bs_insert_sorted perm_cmp)|].
    assert (forall q, In q (bs_insert perm_cmp n out).*1 <-> q = n \/ In q out.*1) as Hi
      by (intros q; by apply (bs_insert_In perm_cmp)).
    simpl in *. split_and!; try done; try lia; intros q.
    + rewrite H2, Hi. intuition congruence.
    + auto.
    + intros [[?|?]|?]%H4; auto.
    + intros Hq%H5. rewrite Hi in Hq. destruct Hq as [[->|?]|?]; auto.
Qed.

Lemma keys_length (out : list (Permission * unit)) : bt_sorted perm_cmp out -> (length out <= 48)%nat.
Proof.
  intros Hs%(bt_keys_NoDup perm_cmp). rewrite <- (length_fmap fst).
  change 48%nat with (length ALL). apply submseteq_length, NoDup_submseteq; [done|].
  intros p _. apply list_elem_of_In, ALL_In.
Qed.

Lemma needs_loop_spec (set : list Permission) fuel out stack :
  bt_sorted perm_cmp out ->
  (length stack + 48 <= fuel + length out)%nat ->
  (forall p, In p set -> In p out.*1) ->
  (forall p, In p out.*1 -> exists s, In s set /\ rtc needs s p) ->
  (forall p, In p stack -> In p out.*1) ->
  (forall p q, In p out.*1 -> In p stack \/ (needs p q -> In q out.*1)) ->
  exists l, needs_loop fuel out stack = Some l /\ NoDup l
    /\ forall p, In p l <-> exists s, In s set /\ rtc needs s p.
Proof.
  revert out stack. induction fuel as [|fuel IH]; intros out [|p stack] Hs Hf Hset Hout Hst Hcl; simpl in *.
  2:{ pose proof (keys_length out Hs). lia. }
  1,2: exists out.*1; split_and!; [done|by apply (bt_keys_NoDup perm_cmp)|]; intros p; split; [apply Hout|];
    intros (s & Hin & Hr); assert (In s out.*1) as Hin' by (by apply Hset); clear Hin;
    induction Hr as [|x y z Hxy _ IHr]; [done|]; apply IHr; by destruct (Hcl x y Hin') as [[]|Hx]; apply Hx.
  pose proof (need_steps (pd_needs (def p)) out stack Hs) as H.
  destruct (fold_left need_step _ _) as [out' stack']. destruct H as (H1 & H2 & H3 & H4 & H5 & H6).
  assert (In p out.*1) as Hp by auto.
  apply IH; [done|lia|..].
  - intros q Hq. apply H2. right. by apply Hset.
  - intros q [Hn|Hq]%H2; [|by apply Hout]. destruct (Hout p Hp) as (s & ? & ?). exists s. split; [done|].
    by apply rtc_r with p.
  - intros q [Hq|Hq]%H4; apply H2; [right|by left]. apply Hst. by right.
  - intros q r Hq. destruct (H5 q Hq) as [Hq'|?]; [|by left].
    destruct (Hcl q r Hq') as [[->|?]|Hn]; [|by auto|]; right; intros Hr; apply H2; auto.
Qed.

Lemma set_keys (set : list Permission) : (map (fun p => (p, ())) set).*1 = set.
Proof. induction set as [|p set IH]; simpl; [done|]. f_equal. exact IH. Qed.

(** [with_needs] always returns, and what it returns is exactly the given set closed under
    needs: the permissions reached from it by any number of direct needs, each once. *)
Theorem with_needs_closure set :
  StronglySorted (fun p q => perm_cmp p q = Lt) set ->
  (exists l, needs_loop needs_fuel (map (fun p => (p, ())) set) (rev set) = Some l /\ with_needs set = l)
  /\ NoDup (with_needs set)
  /\ forall p, In p (with_needs set) <-> exists s, In s set /\ rtc needs s p.
Proof.
  intros Hs.
  assert (bt_sorted perm_cmp (map (fun p => (p, ())) set)) as Hs'.
  { unfold bt_sorted. clear -Hs. induction Hs as [|p l Hs IH Hp]; simpl; constructor; [done|].
    clear -Hp. induction Hp; simpl; by constructor. }
  destruct (needs_loop_spec set needs_fuel (map (fun p => (p, ())) set) (rev set)) as (l & El & Hnd & Hl);
    rewrite ?set_keys; try done.
  - rewrite length_map, length_rev. unfold needs_fuel. lia.
  - intros p Hp. by exists p.
  - intros p. by rewrite <- in_rev.
  - intros p q Hp. left. by apply in_rev in Hp.
  - unfold with_needs. rewrite El. eauto.
Qed.

Lemma with_needs_closure_witness :
  In CasesRead (with_needs [CasesAssign]) <-> exists s, In s [CasesAssign] /\ rtc needs s CasesRead.
Proof. apply (with_needs_closure [CasesAssign]). by repeat constructor. Defined.

(** The templates are closed under needs. *)
Example templates_closed :
  forallb (fun t => forallb (fun p => forallb (fun n => perm_mem n (t_permissions t)) (pd_needs (def p)))
                      (t_permissions t)) TEMPLATES = true
  /\ with_needs [SiteRulesTest] = [HostsRead; SiteRulesRead; SiteRulesWrite; SiteRulesTest]
  /\ from_id "agents.read" = None /\ length (remove_dups (map perm_id ALL)) = 48.
Proof. by vm_compute. Qed.
