(* ===== verification/AccessRules.v ===== *)
(** * Access control: what a principal may do, and the share check (openvibes-console/src/access/
      rbac.rs, share.rs, editor.rs, guard.rs; the roles of platform-store/src/console_roles.rs)

    Pure: roles held become capabilities, and an editor may only give what fits inside theirs. *)
From S2P Require Import Prelude RustStd BTree AccessData.
From stdpp Require Import prelude strings list.
From Stdlib Require Import Ascii ZArith Lia Sorted.

(** ** Roles held *)

Inductive Reach := ReachNone | ReachAll | ReachGroups (groups : list string).

Record Grant := { g_role_id : string; g_permissions : list string; g_reach : Reach }.

(** A role as it is read back; [sr_version] is an [i32], [sr_members] an [i64]. *)
Record StoredRole := {
  sr_role_id : string;
  sr_name : string;
  sr_description : string;
  sr_builtin : bool;
  sr_permissions : list string;
  sr_reach : Reach;
  sr_members : Z;
  sr_version : Z;
}.

Definition reach (all_hosts : bool) (groups : list string) : Reach :=
  if all_hosts then ReachAll else match groups with [] => ReachNone | _ => ReachGroups groups end.

(** ** Capabilities *)

Inductive PermissionScope := Global | AssetGroups (asset_group_ids : list string).
Record EffectiveCapability := { cap_permission : Permission; cap_scope : PermissionScope }.

Definition ADMIN_ROLE : string := "admin".

Definition str_mem (s : string) (l : list string) : bool := existsb (String.eqb s) l.

(** The loop over the roles holding the permission: is it global, and on which groups. *)
Definition hold (p : Permission) (acc : bool * list (string * unit)) (grant : Grant)
    : bool * list (string * unit) :=
  let '(global, groups) := acc in
  match pd_scope (def p), g_reach grant with
  | PlatformScope, _ | HostScope, ReachAll => (true, groups)
  | HostScope, ReachGroups ids => (global, fold_left (fun s g => bs_insert str_cmp g s) ids groups)
  | HostScope, ReachNone => (global, groups)
  end.

Definition resolve_one (grants : list Grant) (p : Permission) : option EffectiveCapability :=
  let admin := existsb (fun grant => String.eqb (g_role_id grant) ADMIN_ROLE) grants in
  let holders := List.filter (fun grant => str_mem (perm_id p) (g_permissions grant)) grants in
  let '(global, groups) := fold_left (hold p) holders (admin, []) in
  if global then Some {| cap_permission := p; cap_scope := Global |}
  else match groups with
       | [] => None
       | _ => Some {| cap_permission := p; cap_scope := AssetGroups groups.*1 |}
       end.

Definition resolve_capabilities (grants : list Grant) : list EffectiveCapability :=
  omap (resolve_one grants) ALL.

(** The scope [capabilities] give a permission: that of the first capability for it. *)
Definition scope_of (capabilities : list EffectiveCapability) (p : Permission) : option PermissionScope :=
  cap_scope <$> find (fun c => perm_eqb (cap_permission c) p) capabilities.

(** ** The share check *)

Record ShareRefusal := { rf_permission : Permission; rf_reason : string }.

Definition covers (held : list EffectiveCapability) (g : string) : bool :=
  existsb (fun c => match cap_scope c with AssetGroups ids => str_mem g ids | Global => true end) held.

Definition is_global (c : EffectiveCapability) : bool :=
  match cap_scope c with Global => true | AssetGroups _ => false end.

(** One permission of the loop. *)
Definition fits_one (editor : list EffectiveCapability) (r : Reach) (p : Permission) : option ShareRefusal :=
  let refuse reason := Some {| rf_permission := p; rf_reason := reason |} in
  let held := List.filter (fun c => perm_eqb (cap_permission c) p) editor in
  match held with
  | [] => refuse "you do not hold this permission"
  | _ =>
      if bool_decide (pd_scope (def p) = PlatformScope) then None
      else if existsb is_global held then None
      else match r with
           | ReachNone => None
           | ReachAll => refuse "you hold it only on some asset groups"
           | ReachGroups groups =>
               if forallb (covers held) groups then None
               else refuse "the role reaches asset groups you do not"
           end
  end.

(** [None]: the role fits; otherwise the first permission that does not. *)
Fixpoint fits (editor : list EffectiveCapability) (permissions : list Permission) (r : Reach)
    : option ShareRefusal :=
  match permissions with
  | [] => None
  | p :: permissions =>
      match fits_one editor r p with Some refusal => Some refusal | None => fits editor permissions r end
  end.

Definition fit (o : option ShareRefusal) : bool := match o with None => true | Some _ => false end.

Definition all_fit (editor : list EffectiveCapability) (roles : list (list Permission * Reach)) : bool :=
  forallb (fun r => fit (fits editor r.1 r.2)) roles.

Definition refusal_message (r : ShareRefusal) : string :=
  "You can only give roles that fit inside your own access (" +:+ pd_label (def (rf_permission r))
  +:+ " is outside it)".

(** ** Problems answered *)

Record ProblemDetails := {
  pb_status : Z;
  pb_code : string;
  pb_title : string;
  pb_field : option (string * string);
  pb_permission : option string;
  pb_needs : option string;
  pb_holders : option Z;
}.

Definition problem (status : Z) (code title : string) : ProblemDetails :=
  {| pb_status := status; pb_code := code; pb_title := title; pb_field := None;
     pb_permission := None; pb_needs := None; pb_holders := None |}.

(** ** The editor *)

Record Editor := { actor : string; capabilities : list EffectiveCapability; admin : bool }.

Definition editor_of (id : string) (grants : list Grant) : Editor :=
  {| actor := id; capabilities := resolve_capabilities grants;
     admin := existsb (fun grant => String.eqb (g_role_id grant) ADMIN_ROLE) grants |}.

Definition holds (e : Editor) (p : Permission) : bool :=
  existsb (fun c => perm_eqb (cap_permission c) p) (capabilities e).

Definition denied (e : Editor) (p : Permission) : option ProblemDetails :=
  if holds e p then None else Some (problem 403 "permission_denied" "Access is not available").

Definition within_share (editor : list EffectiveCapability) (permissions : list Permission) (r : Reach)
    : option ProblemDetails :=
  (fun refusal => problem 403 "permission_denied" (refusal_message refusal)) <$> fits editor permissions r.

(** The stored ids as permissions; the first unknown one refuses everybody but an Administrator. *)
Fixpoint known_permissions (is_admin : bool) (ids : list string) : ProblemDetails + list Permission :=
  match ids with
  | [] => inr []
  | id :: ids =>
      match from_id id with
      | Some p => match known_permissions is_admin ids with inr ps => inr (p :: ps) | inl e => inl e end
      | None =>
          if is_admin then known_permissions is_admin ids
          else inl (problem 403 "permission_denied"
                      ("The role holds a permission this console does not know (" +:+ id +:+ ")"))
      end
  end.

Definition role_fits (e : Editor) (role : StoredRole) : option ProblemDetails :=
  match known_permissions (admin e) (sr_permissions role) with
  | inl refused => Some refused
  | inr permissions => within_share (capabilities e) permissions (sr_reach role)
  end.

Definition typed (role : StoredRole) : option (list Permission) := mapM from_id (sr_permissions role).

Definition roles_fit (e : Editor) (roles : list StoredRole) : bool :=
  if admin e then true
  else match mapM typed roles with
       | None => false
       | Some permissions => all_fit (capabilities e) (zip permissions (map sr_reach roles))
       end.

(** ** What capabilities and roles allow *)

(** A permission allowed in a host group, or ([None]) everywhere. *)
Definition scope_allows (s : PermissionScope) (w : option string) : Prop :=
  match s with Global => True | AssetGroups ids => exists g, w = Some g /\ In g ids end.
Definition allows (caps : list EffectiveCapability) (p : Permission) (w : option string) : Prop :=
  exists c, In c caps /\ cap_permission c = p /\ scope_allows (cap_scope c) w.

Definition reach_allows (r : Reach) (p : Permission) (w : option string) : Prop :=
  match pd_scope (def p), r with
  | PlatformScope, _ | HostScope, ReachAll => True
  | HostScope, ReachGroups ids => exists g, w = Some g /\ In g ids
  | HostScope, ReachNone => False
  end.
Definition grant_allows (g : Grant) (p : Permission) (w : option string) : Prop :=
  g_role_id g = ADMIN_ROLE \/ (In (perm_id p) (g_permissions g) /\ reach_allows (g_reach g) p w).

(** ** Lemmas *)

Lemma str_mem_In s l : str_mem s l = true <-> In s l.
Proof.
  unfold str_mem. rewrite existsb_exists. split.
  - by intros (t & Ht & ->%String.eqb_eq).
  - intros Hs. exists s. split; [done|]. apply String.eqb_refl.
Qed.

Lemma bs_inserts_spec (l : list string) (s : list (string * unit)) :
  bt_sorted str_cmp s ->
  bt_sorted str_cmp (fold_left (fun s g => bs_insert str_cmp g s) l s)
  /\ forall x, In x (fold_left (fun s g => bs_insert str_cmp g s) l s).*1 <-> In x l \/ In x s.*1.
Proof.
  revert s. induction l as [|g l IH]; intros s Hs; simpl; [split; [done|tauto]|].
  destruct (IH (bs_insert str_cmp g s)) as [H1 H2]; [by apply (bs_insert_sorted str_cmp)|].
  split; [done|]. intros x. rewrite H2, (bs_insert_In str_cmp) by done. intuition congruence.
Qed.

Lemma hold_spec p holders b s :
  bt_sorted str_cmp s ->
  let '(global, groups) := fold_left (hold p) holders (b, s) in
  (global = true <-> b = true \/ exists g, In g holders /\ reach_allows (g_reach g) p None)
  /\ (forall x, In x groups.*1 <->
        In x s.*1 \/ (pd_scope (def p) = HostScope
          /\ exists g ids, In g holders /\ g_reach g = ReachGroups ids /\ In x ids)).
Proof.
  revert b s. induction holders as [|h l IH]; intros b s Hs; cbn [fold_left In fst snd].
  { split; [split; [by left|]|intros x; split; [by left|]].
    - intros [?|(? & [] & _)]; done.
    - intros [?|(_ & ? & ? & [] & _)]; done. }
  assert (let acc := hold p (b, s) h in bt_sorted str_cmp acc.2
    /\ (acc.1 = true <-> b = true \/ reach_allows (g_reach h) p None)
    /\ (forall x, In x acc.2.*1 <-> In x s.*1 \/ (pd_scope (def p) = HostScope
          /\ exists ids, g_reach h = ReachGroups ids /\ In x ids))) as (H1 & H2 & H3).
  { unfold hold, reach_allows. destruct (pd_scope (def p)); [destruct (g_reach h) as [| |ids] eqn:Er|]; simpl.
    - split_and!; [done|tauto|]. intros x. split; [auto|]. intros [?|(_ & ? & [=] & _)]; done.
    - split_and!; [done|tauto|]. intros x. split; [auto|]. intros [?|(_ & ? & [=] & _)]; done.
    - destruct (bs_inserts_spec ids s Hs) as [Ha Hb]. split_and!; [done| |].
      + split; [auto|]. intros [?|(? & [=] & _)]; done.
      + intros x. rewrite Hb. split; [|intros [?|(_ & ? & [= ->] & ?)]; auto]. intros [?|?]; [right|by left]. eauto.
    - split_and!; [done|tauto|]. intros x. split; [auto|]. intros [?|([=] & _)]; done. }
  destruct (hold p (b, s) h) as [b' s']. specialize (IH b' s' H1). cbn [fst snd] in *.
  destruct (fold_left (hold p) l (b', s')) as [global groups]. destruct IH as [I1 I2]. split.
  - rewrite I1, H2. split.
    + intros [[?|?]|(g & ? & ?)]; [by left|right; exists h; auto|right; exists g; auto].
    + intros [?|(g & [->|?] & ?)]; [auto|auto|right; eauto].
  - intros x. rewrite I2, H3. split.
    + intros [[?|(? & ids & ? & ?)]|(? & g & ids & ? & ? & ?)]; [by left|right; split; [done|]; exists h, ids; auto|].
      right. split; [done|]. exists g, ids. auto.
    + intros [?|(? & g & ids & [->|?] & ? & ?)]; [auto|left; right; eauto|]. right. eauto 10.
Qed.

Lemma reach_allows_global r p : reach_allows r p None -> forall w, reach_allows r p w.
Proof. unfold reach_allows. destruct (pd_scope (def p)), r; try done. by intros (? & [=] & _). Qed.

Lemma is_admin_In grants :
  existsb (fun g => String.eqb (g_role_id g) ADMIN_ROLE) grants = true
  <-> exists g, In g grants /\ g_role_id g = ADMIN_ROLE.
Proof. rewrite existsb_exists. by setoid_rewrite String.eqb_eq. Qed.

(** The capability of a permission, if any, allows what the roles do. *)
Lemma resolve_one_spec grants p :
  match resolve_one grants p with
  | Some c => cap_permission c = p /\ (forall w, scope_allows (cap_scope c) w <-> exists g, In g grants /\ grant_allows g p w)
              /\ (exists w, scope_allows (cap_scope c) w)
              /\ (pd_scope (def p) = PlatformScope -> cap_scope c = Global)
  | None => forall w g, In g grants -> ~ grant_allows g p w
  end.
Proof.
  unfold resolve_one. set (holders := List.filter _ grants).
  assert (forall g, In g holders <-> In g grants /\ In (perm_id p) (g_permissions g)) as Hh.
  { intros g. unfold holders. by rewrite filter_In, str_mem_In. }
  destruct (existsb _ grants) eqn:Ea.
  all: pose proof (hold_spec p holders) as H.
  - specialize (H true [] (SSorted_nil _)). destruct (fold_left _ _ _) as [global groups].
    destruct H as [H _]. rewrite (proj2 H) by by left. simpl. split_and!; try done; [|by exists None].
    intros w. split; [|done]. intros _. apply is_admin_In in Ea as (g & ? & ?). exists g. split; [done|by left].
  - assert (forall g, In g grants -> g_role_id g <> ADMIN_ROLE) as Hna.
    { intros g Hg E. rewrite (proj2 (is_admin_In grants)) in Ea; [done|eauto]. }
    specialize (H false [] (SSorted_nil _)). destruct (fold_left _ _ _) as [global groups].
    destruct H as [Hg Hgr]. destruct global; simpl.
    + destruct (proj1 Hg eq_refl) as [?|(g & Hin & Hr)]; [done|]. apply Hh in Hin as [? ?].
      split_and!; try done; [|by exists None]. intros w. split; [|done]. intros _. exists g. split; [done|].
      right. split; [done|]. by apply reach_allows_global.
    + assert (forall g, In g holders -> ~ reach_allows (g_reach g) p None) as Hno.
      { intros g Hin Hr. assert (false = true) by (apply Hg; eauto). done. }
      assert (forall w, (exists x, w = Some x /\ In x groups.*1) <-> exists g, In g grants /\ grant_allows g p w) as Hw.
      { intros w. split.
        - intros (x & -> & [[]|(Hp & g & ids & Hin & Er & Hx)]%Hgr). apply Hh in Hin as [? ?].
          exists g. split; [done|]. right. split; [done|]. unfold reach_allows. rewrite Hp, Er. eauto.
        - intros (g & Hin & [E|[Hp Hr]]); [by destruct (Hna g Hin)|].
          assert (In g holders) as Hin' by (by apply Hh). specialize (Hno g Hin'). unfold reach_allows in Hr, Hno.
          destruct (pd_scope (def p)) eqn:Es; [destruct (g_reach g) as [| |ids] eqn:Er|]; try done.
          destruct Hr as (x & -> & Hx). exists x. split; [done|]. apply Hgr. right. eauto 6. }
      destruct groups as [|[x []] groups]; simpl.
      * intros w g Hin Hg'. destruct (proj2 (Hw w)) as (? & _ & []). eauto.
      * split_and!; [done|exact Hw|exists (Some x), x; simpl; auto|]. intros Hp.
        assert (In x (((x, ()) :: groups).*1)) as [[]|(E & _)]%Hgr by (by left). congruence.
Qed.

Lemma resolve_In grants c :
  In c (resolve_capabilities grants) <-> resolve_one grants (cap_permission c) = Some c.
Proof.
  unfold resolve_capabilities. rewrite <- list_elem_of_In, list_elem_of_omap. split.
  - intros (p & _ & E). pose proof (resolve_one_spec grants p) as H. rewrite E in H. by destruct H as [-> _].
  - intros E. exists (cap_permission c). split; [|done]. apply list_elem_of_In, ALL_In.
Qed.

Lemma resolve_allows grants p w :
  allows (resolve_capabilities grants) p w <-> exists g, In g grants /\ grant_allows g p w.
Proof.
  pose proof (resolve_one_spec grants p) as H. unfold allows. split.
  - intros (c & Hc%resolve_In & <- & Hw). rewrite Hc in H. by apply H.
  - intros (g & Hin & Hg). destruct (resolve_one grants p) as [c|] eqn:E; [|by destruct (H w g)].
    destruct H as (Hp & Hw & _). exists c. split_and!; [apply resolve_In; congruence|done|]. apply Hw. eauto.
Qed.

Lemma resolve_holds id grants p :
  holds (editor_of id grants) p = true <-> exists w, allows (resolve_capabilities grants) p w.
Proof.
  unfold holds. rewrite existsb_exists. simpl. split.
  - intros (c & Hc & Ep%perm_eqb_eq). pose proof Hc as Hr%resolve_In.
    pose proof (resolve_one_spec grants (cap_permission c)) as H. rewrite Hr in H.
    destruct H as (_ & _ & (w & Hw) & _). exists w. by exists c.
  - intros (w & c & Hc & Ep & _). exists c. split; [done|]. by apply perm_eqb_eq.
Qed.

(** ** The share *)

(** Everything a role of these permissions and this reach would allow, the capabilities allow. *)
Definition inside (caps : list EffectiveCapability) (permissions : list Permission) (r : Reach) : Prop :=
  forall p, In p permissions ->
    (exists w, allows caps p w) /\ forall w, reach_allows r p w -> allows caps p w.

Lemma resolve_unique grants c p :
  In c (resolve_capabilities grants) -> cap_permission c = p -> resolve_one grants p = Some c.
Proof. by intros H%resolve_In <-. Qed.

(** The share check of one permission, on capabilities that hold it at most once. *)
Lemma fits_one_unique caps (o : option EffectiveCapability) r p :
  (forall c, In c caps /\ cap_permission c = p <-> o = Some c) ->
  (forall c, o = Some c -> (exists w, scope_allows (cap_scope c) w)
                          /\ (pd_scope (def p) = PlatformScope -> cap_scope c = Global)) ->
  fits_one caps r p = None <-> (exists w, allows caps p w) /\ forall w, reach_allows r p w -> allows caps p w.
Proof.
  intros Ho Hs. unfold fits_one, reach_allows. set (held := List.filter _ caps).
  assert (forall c, In c held <-> o = Some c) as Hh.
  { intros c. unfold held. rewrite filter_In, perm_eqb_eq. apply Ho. }
  assert (forall w, allows caps p w <-> exists c, o = Some c /\ scope_allows (cap_scope c) w) as Ha.
  { intros w. unfold allows. split.
    - intros (c & Hc & Hp & Hw). exists c. split; [|done]. by apply Ho.
    - intros (c & E & Hw). exists c. by apply Ho in E as [? ?]. }
  clearbody held. setoid_rewrite Ha. clear Ha Ho.
  destruct o as [c|].
  2:{ destruct held as [|c' l]; [|discriminate (proj1 (Hh c') (or_introl eq_refl))].
      split; [done|]. by intros [(w & c & [=] & _) _]. }
  destruct (Hs c eq_refl) as [(w0 & Hw0) Hpl]. clear Hs.
  destruct held as [|c' l] eqn:Eh; [by destruct (proj2 (Hh c) eq_refl)|]. rewrite <- Eh in *.
  destruct (pd_scope (def p)) eqn:Es; simpl.
  2:{ specialize (Hpl eq_refl). split; [|done]. intros _.
      split; [exists None|intros w _]; exists c; by rewrite Hpl. }
  assert (forall f, existsb f held = true <-> f c = true) as Hex.
  { intros f. rewrite existsb_exists. split; [by intros (x & [= <-]%Hh & ?)|]. intros Hf. exists c. split; [by apply Hh|done]. }
  destruct (existsb is_global held) eqn:Eg.
  { apply Hex in Eg. unfold is_global in Eg. destruct (cap_scope c) eqn:E; [|done].
    split; [|done]. intros _. split; [exists None|intros w _]; exists c; by rewrite E. }
  assert (exists ids, cap_scope c = AssetGroups ids) as [ids Eids].
  { destruct (cap_scope c) eqn:E; [|eauto]. assert (existsb is_global held = true) by (apply Hex; unfold is_global; by rewrite E).
    congruence. }
  destruct r as [| |groups].
  - split; [|done]. intros _. split; [by exists w0, c|]. by intros w [].
  - split; [done|]. intros [_ H]. destruct (H None I) as (? & [= <-] & Hn). rewrite Eids in Hn. by destruct Hn as (? & [=] & _).
  - destruct (forallb (covers held) groups) eqn:Ef.
    + split; [|done]. intros _. split; [by exists w0, c|]. intros w (g & -> & Hg).
      rewrite forallb_forall in Ef. specialize (Ef g Hg). unfold covers in Ef. apply Hex in Ef.
      rewrite Eids in Ef. apply str_mem_In in Ef. exists c. rewrite Eids. simpl. eauto.
    + split; [done|]. intros [_ H]. exfalso. apply Bool.not_true_iff_false in Ef. apply Ef. apply forallb_forall.
      intros g Hg. apply Hex. destruct (H (Some g)) as (? & [= <-] & Hn); [eauto|]. rewrite Eids in *.
      destruct Hn as (? & [= <-] & ?). by apply str_mem_In.
Qed.

Lemma fits_one_inside grants r p :
  fits_one (resolve_capabilities grants) r p = None
  <-> (exists w, allows (resolve_capabilities grants) p w)
      /\ forall w, reach_allows r p w -> allows (resolve_capabilities grants) p w.
Proof.
  pose proof (resolve_one_spec grants p) as Hs. apply (fits_one_unique _ (resolve_one grants p)).
  - intros c. split; [intros [? ?]; by apply (resolve_unique grants)|]. intros E. rewrite E in Hs.
    destruct Hs as [Hp _]. split; [|done]. apply resolve_In. congruence.
  - intros c E. rewrite E in Hs. by destruct Hs as (_ & _ & ? & ?).
Qed.

Lemma fits_inside grants ps r :
  fits (resolve_capabilities grants) ps r = None <-> inside (resolve_capabilities grants) ps r.
Proof.
  induction ps as [|p ps IH]; simpl; [by split|].
  pose proof (fits_one_inside grants r p) as H. destruct (fits_one _ r p) as [e|].
  - split; [done|]. intros Hi. apply H. apply Hi. by left.
  - rewrite IH. split.
    + intros Hi q [<-|Hq]; [|by apply Hi]. by apply H.
    + intros Hi q Hq. apply Hi. by right.
Qed.

Lemma known_permissions_In b ids ps :
  known_permissions b ids = inr ps -> forall p, In (perm_id p) ids -> In p ps.
Proof.
  revert ps. induction ids as [|id ids IH]; intros ps; simpl; [done|].
  destruct (from_id id) as [q|] eqn:Eq.
  - destruct (known_permissions b ids) as [|qs]; [done|]. intros [= <-] p [->|Hp]; [|right; by apply IH].
    rewrite from_id_perm_id in Eq. injection Eq as ->. by left.
  - destruct b; [|done]. intros E p [->|Hp]; [|by apply IH]. by rewrite from_id_perm_id in Eq.
Qed.

(** A role that fits allows nothing its editor is not allowed. *)
Lemma role_fits_inside id grants role p w :
  role_fits (editor_of id grants) role = None ->
  In (perm_id p) (sr_permissions role) -> reach_allows (sr_reach role) p w ->
  allows (resolve_capabilities grants) p w.
Proof.
  unfold role_fits, within_share. destruct (known_permissions _ _) as [|ps] eqn:Ek; [done|].
  simpl. destruct (fits _ ps _) eqn:Ef; [done|]. intros _ Hp Hr.
  apply fits_inside in Ef. apply Ef; [|done]. by eapply known_permissions_In.
Qed.

(** ** Properties *)

(** Capabilities are exactly the union of the roles held.  A permission is allowed in a host
    group, or everywhere, if and only if some role allows it there: Administrator allows
    everything, a platform permission is everywhere, a host permission where the role reaches;
    each permission has at most one capability, in catalogue order, and [scope_of] reads it. *)
Theorem resolve_exact grants p w :
  (allows (resolve_capabilities grants) p w <-> exists g, In g grants /\ grant_allows g p w)
  /\ (scope_of (resolve_capabilities grants) p = cap_scope <$> resolve_one grants p)
  /\ StronglySorted (fun c c' => index (cap_permission c) < index (cap_permission c'))
       (resolve_capabilities grants).
Proof.
  split; [apply resolve_allows|]. split.
  - unfold scope_of. f_equal. destruct (find _ _) as [c|] eqn:E.
    + apply find_some in E as [Hc Hp%perm_eqb_eq]. symmetry. by apply (resolve_unique grants).
    + destruct (resolve_one grants p) as [c|] eqn:Ec; [|done]. exfalso.
      pose proof (resolve_one_spec grants p) as H. rewrite Ec in H. destruct H as [Hp _].
      eapply find_none in E; [|apply resolve_In; by rewrite Hp]. rewrite Hp in E.
      by rewrite (proj2 (perm_eqb_eq p p)) in E.
  - unfold resolve_capabilities.
    assert (StronglySorted (fun p q => index p < index q) ALL) as Hs.
    { clear. repeat (constructor; [|by repeat constructor; vm_compute; lia]). constructor. }
    induction Hs as [|q l Hs IH Hq]; simpl; [constructor|].
    pose proof (resolve_one_spec grants q) as H. destruct (resolve_one grants q) as [c|]; [|done].
    constructor; [done|]. destruct H as [Hp _]. rewrite Forall_forall in Hq. apply Forall_forall.
    intros c' (q' & Hq' & E')%list_elem_of_omap. pose proof (resolve_one_spec grants q') as H'.
    rewrite E' in H'. destruct H' as [Hp' _]. rewrite Hp, Hp'. by apply Hq.
Qed.

(** The share check is exact.  A role's permissions and reach fit a principal's capabilities
    if and only if the principal holds each permission somewhere, and is allowed each one wherever
    the role would allow it. *)
Theorem share_exact grants permissions r :
  fits (resolve_capabilities grants) permissions r = None
  <-> forall p, In p permissions ->
        (exists w, allows (resolve_capabilities grants) p w)
        /\ forall w, reach_allows r p w -> allows (resolve_capabilities grants) p w.
Proof. apply fits_inside. Qed.

Definition ex_grant (role : string) (permissions : list string) (r : Reach) : Grant :=
  {| g_role_id := role; g_permissions := permissions; g_reach := r |}.

Example share_vectors :
  let caps := resolve_capabilities [ex_grant "a" ["hosts.read"; "access.roles"] (ReachGroups ["lab"]);
                                    ex_grant "b" ["hosts.read"] (ReachGroups ["prod"; "lab"]);
                                    ex_grant "c" ["alarms.read"; "audit.read"; "agents.read"] ReachNone] in
  map (fun c => (perm_id (cap_permission c), cap_scope c)) caps
  = [("hosts.read", AssetGroups ["lab"; "prod"]); ("access.roles", Global); ("audit.read", Global)]
  /\ map (fun r => fit (fits caps [HostsRead] r)) [ReachNone; ReachAll; ReachGroups ["prod"]; ReachGroups ["prod"; "x"]]
     = [true; false; true; false]
  /\ fit (fits caps [AuditRead] ReachAll) = true /\ fit (fits caps [AlarmsRead] ReachNone) = false
  /\ length (resolve_capabilities [ex_grant "admin" [] ReachNone]) = 48.
Proof. by vm_compute. Qed.
