(* ===== verification/AccessDb.v ===== *)
(** * Access control: the stored side (platform-store/src/console_roles.rs, console_people.rs,
      console_auth.rs, and the orphaned dashboards of dashboards.rs)

    [Db] holds the tables these statements read and write.  A function that may fail returns
    [None] for the source's [StoreError]; a transaction that is not committed leaves the tables as
    they were.  [lower] and [pg_space] are PostgreSQL's [lower] and the [\s] of its regular
    expressions, [gen] the random ids. *)
From S2P Require Import Prelude RustStd Text BTree Json AccessData AccessRules.
From stdpp Require Import prelude strings list.
From Stdlib Require Import Ascii ZArith Lia.

Open Scope Z_scope.

(** ** Tables *)

Inductive Principal := User (id : string) | ServiceAccount (id : string).
#[export] Instance principal_eq_dec : EqDecision Principal.
Proof. solve_decision. Defined.

Record UserRow := {
  u_id : string;
  u_username : string;
  u_display_name : string;
  u_email : option string;
  u_enabled : bool;
  u_auth_source : string;
  u_password : option string;
  u_must_change : bool;
  u_generation : Z;
}.

Record RoleRow := {
  r_id : string;
  r_name : string;
  r_description : string;
  r_builtin : bool;
  r_all_hosts : bool;
  r_version : Z;
  r_permissions : list string;
  r_groups : list string;
}.

Record BindingRow := {
  b_id : string;
  b_principal : Principal;
  b_role : string;
  b_created_at : Z;
  b_created_by : string;
  b_revoked : option (Z * string);
}.

Record DashboardRow := {
  d_id : string; d_visibility : string; d_roles : list string; d_version : Z; d_updated_at : Z }.
Record SessionRow := {
  s_digest : list Z;
  s_csrf : list Z;
  s_user : string;
  s_generation : Z;
  s_created_at : Z;
  s_last_seen_at : Z;
  s_idle_expires_at : Z;
  s_absolute_expires_at : Z;
  s_revoked_at : option Z;
}.
Record AuditRow := {
  au_actor : string; au_action : string; au_target_kind : string; au_target_id : string; au_detail : value }.

Record Db := {
  users : list UserRow;
  accounts : list string;
  roles : list RoleRow;
  bindings : list BindingRow;
  dashboards : list DashboardRow;
  sessions : list SessionRow;
  audit_log : list AuditRow;
  console_permissions : list string;
  asset_groups : list string;
  draws : nat;
}.

Definition set_users (f : list UserRow -> list UserRow) (db : Db) : Db :=
  {| users := f (users db); accounts := accounts db; roles := roles db; bindings := bindings db;
     dashboards := dashboards db; sessions := sessions db; audit_log := audit_log db;
     console_permissions := console_permissions db; asset_groups := asset_groups db; draws := draws db |}.
Definition set_roles (f : list RoleRow -> list RoleRow) (db : Db) : Db :=
  {| users := users db; accounts := accounts db; roles := f (roles db); bindings := bindings db;
     dashboards := dashboards db; sessions := sessions db; audit_log := audit_log db;
     console_permissions := console_permissions db; asset_groups := asset_groups db; draws := draws db |}.
Definition set_bindings (f : list BindingRow -> list BindingRow) (db : Db) : Db :=
  {| users := users db; accounts := accounts db; roles := roles db; bindings := f (bindings db);
     dashboards := dashboards db; sessions := sessions db; audit_log := audit_log db;
     console_permissions := console_permissions db; asset_groups := asset_groups db; draws := draws db |}.
Definition set_dashboards (f : list DashboardRow -> list DashboardRow) (db : Db) : Db :=
  {| users := users db; accounts := accounts db; roles := roles db; bindings := bindings db;
     dashboards := f (dashboards db); sessions := sessions db; audit_log := audit_log db;
     console_permissions := console_permissions db; asset_groups := asset_groups db; draws := draws db |}.
Definition set_sessions (f : list SessionRow -> list SessionRow) (db : Db) : Db :=
  {| users := users db; accounts := accounts db; roles := roles db; bindings := bindings db;
     dashboards := dashboards db; sessions := f (sessions db); audit_log := audit_log db;
     console_permissions := console_permissions db; asset_groups := asset_groups db; draws := draws db |}.
Definition append_audit (row : AuditRow) (db : Db) : Db :=
  {| users := users db; accounts := accounts db; roles := roles db; bindings := bindings db;
     dashboards := dashboards db; sessions := sessions db; audit_log := audit_log db ++ [row];
     console_permissions := console_permissions db; asset_groups := asset_groups db; draws := draws db |}.
Definition drawn (db : Db) : Db :=
  {| users := users db; accounts := accounts db; roles := roles db; bindings := bindings db;
     dashboards := dashboards db; sessions := sessions db; audit_log := audit_log db;
     console_permissions := console_permissions db; asset_groups := asset_groups db; draws := S (draws db) |}.

Definition active (b : BindingRow) : bool := match b_revoked b with None => true | Some _ => false end.
Definition holds_binding (who : Principal) (role_id : string) (b : BindingRow) : bool :=
  active b && bool_decide (b_principal b = who) && String.eqb (b_role b) role_id.

(** A text parameter PostgreSQL can store. *)
Definition db_text (s : string) : bool := negb (has_char "000" s).

Section store.
Variable lower : string -> string.
Variable pg_space : Z -> bool.
Variable gen : nat -> string.

(** ** Reading roles *)

Definition role_reach (r : RoleRow) : Reach := reach (r_all_hosts r) (bs_of_list str_cmp (r_groups r)).

Definition stored (db : Db) (r : RoleRow) : StoredRole :=
  {| sr_role_id := r_id r; sr_name := r_name r; sr_description := r_description r;
     sr_builtin := r_builtin r; sr_permissions := bs_of_list str_cmp (r_permissions r);
     sr_reach := role_reach r;
     sr_members := Z.of_nat (length (List.filter (fun b => String.eqb (b_role b) (r_id r) && active b) (bindings db)));
     sr_version := r_version r |}.

(** ORDER BY builtin DESC, lower(display_name). *)
Definition role_order (a b : RoleRow) : comparison :=
  (match r_builtin a, r_builtin b with true, false => Lt | false, true => Gt | _, _ => Eq end)
  <then> str_cmp (lower (r_name a)) (lower (r_name b)).
Definition list_roles (db : Db) : list StoredRole := map (stored db) (sort_by role_order (roles db)).

Definition find_role (db : Db) (role_id : string) : option RoleRow :=
  find (fun r => String.eqb (r_id r) role_id) (roles db).
Definition read_role (db : Db) (role_id : string) : option StoredRole := stored db <$> find_role db role_id.

(** One row per role the principal holds through an active binding. *)
Definition grants (db : Db) (who : Principal) : list Grant :=
  map (fun r => {| g_role_id := r_id r; g_permissions := bs_of_list str_cmp (r_permissions r);
                   g_reach := role_reach r |})
    (List.filter (fun r => existsb (holds_binding who (r_id r)) (bindings db)) (roles db)).

(** ** Writing roles *)

Inductive RoleWrite :=
  | Saved (role : StoredRole) | NameTaken | Stale | NotFound | Protected | InUse (members : Z)
  | UnknownReference.

Record RoleInput := {
  in_name : string; in_description : string; in_permissions : list string; in_reach : Reach }.

Definition PROTECTED : string := "admin".

Definition reach_json (r : Reach) : value :=
  match r with
  | ReachNone => JString "none"
  | ReachAll => JString "all"
  | ReachGroups groups => JArray (map JString groups)
  end.

Definition audit_role (action actor_id : string) (role : StoredRole) : Db -> Db :=
  append_audit {| au_actor := actor_id; au_action := action; au_target_kind := "role";
                  au_target_id := sr_role_id role;
                  au_detail := JObject [("name", JString (sr_name role));
                                        ("permissions", JArray (map JString (sr_permissions role)));
                                        ("reach", reach_json (sr_reach role))] |}.

(** The table's checks on a name and a description. *)
Definition name_stored (name : string) : bool :=
  db_text name && (1 <=? char_count name) && (char_count name <=? 64).
Definition description_stored (description : string) : bool :=
  db_text description && (char_count description <=? 500).

(** [console_roles_name_unique]. *)
Definition name_taken (db : Db) (role_id name : string) : bool :=
  existsb (fun r => negb (String.eqb (r_id r) role_id) && String.eqb (lower (r_name r)) (lower name)) (roles db).

Definition with_contents (input : RoleInput) (r : RoleRow) : RoleRow :=
  {| r_id := r_id r; r_name := in_name input; r_description := in_description input;
     r_builtin := r_builtin r;
     r_all_hosts := match in_reach input with ReachAll => true | _ => false end;
     r_version := r_version r; r_permissions := in_permissions input;
     r_groups := match in_reach input with ReachGroups groups => groups | _ => [] end |}.

Definition update_role_row (role_id : string) (f : RoleRow -> RoleRow) : Db -> Db :=
  set_roles (map (fun r => if String.eqb (r_id r) role_id then f r else r)).

Definition groups_of (r : Reach) : list string := match r with ReachGroups groups => groups | _ => [] end.

(** The statements in turn: the row, its permissions, its groups, then the audit. *)
Definition write_contents (role_id : string) (input : RoleInput) (action actor_id : string) (db : Db)
    : option (RoleWrite * Db) :=
  if negb (name_stored (in_name input) && description_stored (in_description input)) then None
  else if name_taken db role_id (in_name input) then Some (NameTaken, db)
  else if negb (forallb (fun p => str_mem p (console_permissions db)) (in_permissions input))
  then Some (UnknownReference, db)
  else if negb (forallb (fun g => str_mem g (asset_groups db)) (groups_of (in_reach input)))
  then Some (UnknownReference, db)
  else
    let db := update_role_row role_id (with_contents input) db in
    match read_role db role_id with
    | Some role => Some (Saved role, audit_role action actor_id role db)
    | None => None
    end.

(** [if matches!(written, RoleWrite::Saved(_)) { tx.commit() }]. *)
Definition commit_saved (before : Db) (written : option (RoleWrite * Db)) : option RoleWrite * Db :=
  match written with
  | Some (Saved role, db) => (Some (Saved role), db)
  | Some (outcome, _) => (Some outcome, before)
  | None => (None, before)
  end.

Definition new_role (id name : string) : RoleRow :=
  {| r_id := id; r_name := name; r_description := EmptyString; r_builtin := false;
     r_all_hosts := false; r_version := 1; r_permissions := []; r_groups := [] |}.

Definition create_role (input : RoleInput) (actor_id : string) (db : Db) : option RoleWrite * Db :=
  let role_id := "r_" +:+ gen (draws db) in
  commit_saved (drawn db)
    (if negb (name_stored (in_name input)) || str_mem role_id (map r_id (roles db)) then None
     else if name_taken db role_id (in_name input) then Some (NameTaken, db)
     else write_contents role_id input "rbac.role.created" actor_id
            (set_roles (fun l => l ++ [new_role role_id (in_name input)]) (drawn db))).

(** The row's version under the lock. *)
Definition locked (role_id : string) (db : Db) : RoleWrite + Z :=
  if String.eqb role_id PROTECTED then inl Protected
  else match find_role db role_id with Some r => inr (r_version r) | None => inl NotFound end.

Definition bump (r : RoleRow) : RoleRow :=
  {| r_id := r_id r; r_name := r_name r; r_description := r_description r; r_builtin := r_builtin r;
     r_all_hosts := r_all_hosts r; r_version := r_version r + 1; r_permissions := r_permissions r;
     r_groups := r_groups r |}.

Definition update_role (role_id : string) (version : Z) (input : RoleInput) (actor_id : string) (db : Db)
    : option RoleWrite * Db :=
  match locked role_id db with
  | inl outcome => (Some outcome, db)
  | inr current =>
      if negb (current =? version) then (Some Stale, db)
      else if i32_max <=? current then (None, db)
      else commit_saved db
             (write_contents role_id input "rbac.role.updated" actor_id (update_role_row role_id bump db))
  end.

(** Dashboards shared with roles but left with none become private, each with an audit row. *)
Definition orphan (d : DashboardRow) : bool :=
  String.eqb (d_visibility d) "roles" && match d_roles d with [] => true | _ => false end.
Definition privatised (now : Z) (d : DashboardRow) : DashboardRow :=
  {| d_id := d_id d; d_visibility := "private"; d_roles := d_roles d; d_version := d_version d + 1;
     d_updated_at := now |}.
Definition privatise_orphans (actor_id deleted_role_id : string) (now : Z) (db : Db) : Db :=
  let ids := map d_id (List.filter orphan (dashboards db)) in
  let detail := JObject [
      ("from", JObject [("roles", JArray [JString deleted_role_id]); ("visibility", JString "roles")]);
      ("reason", JString "role deleted");
      ("to", JObject [("roles", JArray []); ("visibility", JString "private")])] in
  fold_left (fun db id =>
      append_audit {| au_actor := actor_id; au_action := "dashboard.share"; au_target_kind := "dashboard";
                      au_target_id := id; au_detail := detail |} db)
    ids (set_dashboards (map (fun d => if orphan d then privatised now d else d)) db).

(** The row goes with its revoked bindings and its dashboard shares. *)
Definition drop_role (role_id : string) (db : Db) : Db :=
  set_dashboards (map (fun d =>
      {| d_id := d_id d; d_visibility := d_visibility d;
         d_roles := List.filter (fun r => negb (String.eqb r role_id)) (d_roles d);
         d_version := d_version d; d_updated_at := d_updated_at d |}))
    (set_bindings (List.filter (fun b => negb (String.eqb (b_role b) role_id)))
       (set_roles (List.filter (fun r => negb (String.eqb (r_id r) role_id))) db)).

Definition delete_role (role_id actor_id : string) (now : Z) (db : Db) : option RoleWrite * Db :=
  match locked role_id db with
  | inl outcome => (Some outcome, db)
  | inr _ =>
      match read_role db role_id with
      | None => (None, db)
      | Some role =>
          if 0 <? sr_members role then (Some (InUse (sr_members role)), db)
          else (Some (Saved role),
                audit_role "rbac.role.deleted" actor_id role
                  (privatise_orphans actor_id role_id now (drop_role role_id db)))
      end
  end.

(** ** People *)

Record Person := { p_user : UserRow; p_role_ids : list string }.

Definition user_by_id (db : Db) (user_id : string) : option UserRow :=
  find (fun u => String.eqb (u_id u) (to_ascii_lowercase user_id)) (users db).

Definition role_ids_of (db : Db) (who : Principal) : list string :=
  sort_by str_cmp (map b_role (List.filter (fun b => active b && bool_decide (b_principal b = who)) (bindings db))).

Definition person (db : Db) (user_id : string) : option Person :=
  (fun u => {| p_user := u; p_role_ids := role_ids_of db (User (u_id u)) |}) <$> user_by_id db user_id.

Definition username_taken (db : Db) (username : string) : bool :=
  existsb (fun u => String.eqb (u_username u) username) (users db).

Definition principal_exists (db : Db) (who : Principal) : bool :=
  match who with
  | User id => existsb (fun u => String.eqb (u_id u) id) (users db)
  | ServiceAccount id => str_mem id (accounts db)
  end.

Definition principal_json (who : Principal) : list (string * value) :=
  match who with
  | User id => [("service_account_id", JNull); ("user_id", JString id)]
  | ServiceAccount id => [("service_account_id", JString id); ("user_id", JNull)]
  end.

Definition binding_audit (action : string) (who : Principal) (role_id binding_id actor_id : string) : Db -> Db :=
  append_audit {| au_actor := actor_id; au_action := action; au_target_kind := "role_binding";
                  au_target_id := binding_id;
                  au_detail := JObject (("role_id", JString role_id) :: principal_json who) |}.

Definition new_binding (id : string) (who : Principal) (role_id actor_id : string) (now : Z) : BindingRow :=
  {| b_id := id; b_principal := who; b_role := role_id; b_created_at := now; b_created_by := actor_id;
     b_revoked := None |}.

(** [ON CONFLICT DO NOTHING]: nothing is inserted for a held role or a repeated id. *)
Definition bind (who : Principal) (role_id actor_id : string) (now : Z) (db : Db) : bool * Db :=
  let id := gen (draws db) in
  if str_mem role_id (map r_id (roles db)) && principal_exists db who
     && negb (existsb (holds_binding who role_id) (bindings db)) && negb (str_mem id (map b_id (bindings db)))
  then (true, binding_audit "rbac.binding.created" who role_id id actor_id
                (set_bindings (fun l => l ++ [new_binding id who role_id actor_id now]) (drawn db)))
  else (false, drawn db).

Inductive RoleGift := Given | AlreadyHeld | NoSuch.

Definition give_role (who : Principal) (role_id actor_id : string) (now : Z) (db : Db) : RoleGift * Db :=
  let '(given, db') := bind who role_id actor_id now db in
  if given then (Given, db')
  else (if existsb (holds_binding who role_id) (bindings db) then AlreadyHeld else NoSuch, drawn db).

Definition enabled_user (db : Db) (who : Principal) : bool :=
  match who with
  | User id => existsb (fun u => String.eqb (u_id u) id && u_enabled u) (users db)
  | ServiceAccount _ => false
  end.

(** Distinct enabled users with an active binding of Administrator. *)
Definition is_administrator (db : Db) (u : UserRow) : bool :=
  u_enabled u && existsb (holds_binding (User (u_id u)) ADMIN_ROLE) (bindings db).
Definition enabled_administrators (db : Db) : Z :=
  Z.of_nat (length (List.filter (is_administrator db) (users db))).

Inductive BindingRevocation := Revoked | NotHeld | LastAdministrator.

Definition revoke (id : string) (now : Z) (actor_id : string) (b : BindingRow) : BindingRow :=
  if String.eqb (b_id b) id
  then {| b_id := b_id b; b_principal := b_principal b; b_role := b_role b;
          b_created_at := b_created_at b; b_created_by := b_created_by b;
          b_revoked := Some (now, actor_id) |}
  else b.

Definition remove_role (who : Principal) (role_id actor_id : string) (now : Z) (db : Db)
    : BindingRevocation * Db :=
  match find (holds_binding who role_id) (bindings db) with
  | None => (NotHeld, db)
  | Some b =>
      if String.eqb role_id "admin" && enabled_user db who && (enabled_administrators db <=? 1)
      then (LastAdministrator, db)
      else (Revoked, binding_audit "rbac.binding.revoked" who role_id (b_id b) actor_id
                       (set_bindings (map (revoke (b_id b) now actor_id)) db))
  end.

(** ** Accounts of people *)

Definition audit_user (action actor_id user_id : string) (detail : value) : Db -> Db :=
  append_audit {| au_actor := actor_id; au_action := action; au_target_kind := "user";
                  au_target_id := user_id; au_detail := detail |}.

Definition update_user (user_id : string) (f : UserRow -> UserRow) : Db -> Db :=
  set_users (map (fun u => if String.eqb (u_id u) user_id then f u else u)).

Definition set_enabled (enabled : bool) (generation : Z) (u : UserRow) : UserRow :=
  {| u_id := u_id u; u_username := u_username u; u_display_name := u_display_name u;
     u_email := u_email u; u_enabled := enabled; u_auth_source := u_auth_source u;
     u_password := u_password u; u_must_change := u_must_change u;
     u_generation := u_generation u + generation |}.

(** [revoked_at = COALESCE(revoked_at, now)]. *)
Definition end_session (now : Z) (s : SessionRow) : SessionRow :=
  {| s_digest := s_digest s; s_csrf := s_csrf s; s_user := s_user s; s_generation := s_generation s;
     s_created_at := s_created_at s; s_last_seen_at := s_last_seen_at s;
     s_idle_expires_at := s_idle_expires_at s; s_absolute_expires_at := s_absolute_expires_at s;
     s_revoked_at := Some (default now (s_revoked_at s)) |}.
Definition end_sessions (user_id : string) (now : Z) : Db -> Db :=
  set_sessions (map (fun s => if String.eqb (s_user s) user_id then end_session now s else s)).

Inductive DisableOutcome := Disabled | NotEnabled | LastEnabledAdministrator.

Definition disable_local_user (user_id actor_id : string) (now : Z) (db : Db) : DisableOutcome * Db :=
  let is_admin := existsb (fun u => String.eqb (u_id u) user_id && is_administrator db u) (users db) in
  if is_admin && (enabled_administrators db <=? 1) then (LastEnabledAdministrator, db)
  else if existsb (fun u => String.eqb (u_id u) user_id && u_enabled u) (users db)
  then (Disabled, audit_user "user.disabled" actor_id user_id
                    (JObject [("reason_code", JString "administrator_disabled")])
                    (end_sessions user_id now (update_user user_id (set_enabled false 1) db)))
  else (NotEnabled, db).

Definition enable_user (user_id actor_id : string) (db : Db) : bool * Db :=
  if existsb (fun u => String.eqb (u_id u) user_id && negb (u_enabled u)) (users db)
  then (true, audit_user "user.enabled" actor_id user_id (JObject [])
                (update_user user_id (set_enabled true 0) db))
  else (false, db).

Definition with_password (phc : string) (u : UserRow) : UserRow :=
  {| u_id := u_id u; u_username := u_username u; u_display_name := u_display_name u;
     u_email := u_email u; u_enabled := u_enabled u; u_auth_source := u_auth_source u;
     u_password := Some phc; u_must_change := true; u_generation := u_generation u + 1 |}.

Definition reset_password (user_id phc actor_id : string) (now : Z) (db : Db) : bool * Db :=
  if existsb (fun u => String.eqb (u_id u) user_id && is_some (u_password u)) (users db)
  then (true, audit_user "user.password_reset" actor_id user_id (JObject [])
                (end_sessions user_id now (update_user user_id (with_password phc) db)))
  else (false, db).

(** The checks of [console_users]. *)
Definition username_stored (username : string) : bool :=
  match bytes username with
  | [] => false
  | c :: l =>
      (is_ascii_lowercase c || is_ascii_digit c)
      && forallb (fun c => is_ascii_lowercase c || is_ascii_digit c || existsb (Z.eqb c) (bytes "._@+-")) l
      && (char_count username <=? 64)
  end.
Definition display_name_stored (name : string) : bool :=
  db_text name && (1 <=? char_count name) && (char_count name <=? 160).
(** At most 254 characters, and [^[^@\s]+@[^@\s]+$]. *)
Definition email_stored (email : string) : bool :=
  let part s := negb (is_empty s) && forallb (fun c => negb (pg_space c)) (chars s) && negb (has_char "@" s) in
  db_text email && (char_count email <=? 254)
  && match split_once "@" email with Some (local, domain) => part local && part domain | None => false end.

Record NewLocalUser := {
  nu_user_id : string; nu_binding_id : string; nu_username : string; nu_display_name : string;
  nu_password_phc : string; nu_role_id : string; nu_must_change : bool }.

Definition new_user_row (n : NewLocalUser) (email : option string) : UserRow :=
  {| u_id := nu_user_id n; u_username := nu_username n; u_display_name := nu_display_name n;
     u_email := email; u_enabled := true; u_auth_source := "password";
     u_password := Some (nu_password_phc n); u_must_change := nu_must_change n; u_generation := 0 |}.

(** [None] when a check or a key of the tables refuses a row. *)
Definition insert_local_user (n : NewLocalUser) (actor_id : string) (now : Z) (db : Db) : option Db :=
  if negb (username_stored (nu_username n) && display_name_stored (nu_display_name n))
     || str_mem (nu_user_id n) (map u_id (users db)) || username_taken db (nu_username n)
     || negb (str_mem (nu_role_id n) (map r_id (roles db))) || str_mem (nu_binding_id n) (map b_id (bindings db))
  then None
  else Some (append_audit {| au_actor := actor_id; au_action := "user.created"; au_target_kind := "user";
                             au_target_id := nu_username n;
                             au_detail := JObject [("role_id", JString (nu_role_id n))] |}
               (set_bindings (fun l => l ++ [new_binding (nu_binding_id n) (User (nu_user_id n)) (nu_role_id n) actor_id now])
                  (set_users (fun l => l ++ [new_user_row n None]) db))).

Fixpoint bind_all (who : Principal) (role_ids : list string) (actor_id : string) (now : Z) (db : Db) : Db :=
  match role_ids with
  | [] => db
  | id :: role_ids => bind_all who role_ids actor_id now (bind who id actor_id now db).2
  end.

Definition with_email (email : option string) (u : UserRow) : UserRow :=
  {| u_id := u_id u; u_username := u_username u; u_display_name := u_display_name u;
     u_email := email; u_enabled := u_enabled u; u_auth_source := u_auth_source u;
     u_password := u_password u; u_must_change := u_must_change u; u_generation := u_generation u |}.

Definition create_user (n : NewLocalUser) (email : option string) (more_roles : list string)
    (actor_id : string) (now : Z) (db : Db) : option Db :=
  match insert_local_user n actor_id now db with
  | None => None
  | Some db =>
      let bound db := bind_all (User (nu_user_id n)) more_roles actor_id now db in
      match email with
      | None => Some (bound db)
      | Some e => if email_stored e then Some (bound (update_user (nu_user_id n) (with_email email) db)) else None
      end
  end.

Definition with_details (name : option string) (email : option (option string)) (u : UserRow) : UserRow :=
  {| u_id := u_id u; u_username := u_username u; u_display_name := default (u_display_name u) name;
     u_email := default (u_email u) email; u_enabled := u_enabled u; u_auth_source := u_auth_source u;
     u_password := u_password u; u_must_change := u_must_change u; u_generation := u_generation u |}.

(** [None] when a check refuses the row. *)
Definition set_details (user_id : string) (name : option string) (email : option (option string))
    (actor_id : string) (db : Db) : option bool * Db :=
  if negb (existsb (fun u => String.eqb (u_id u) user_id) (users db)) then (Some false, db)
  else if match name with Some n => display_name_stored n | None => true end
          && match email with Some (Some e) => email_stored e | _ => true end
  then (Some true, audit_user "user.updated" actor_id user_id
                     (JObject [("display_name", JBool (is_some name)); ("email", JBool (is_some email))])
                     (update_user user_id (with_details name email) db))
  else (None, db).
End store.

(** [assignee] (console_roles.rs): an enabled person with a role that gives the permission on some
    host, or with Administrator. *)
Definition gives (permission : string) (r : RoleRow) : bool :=
  String.eqb (r_id r) "admin"
  || (existsb (String.eqb permission) (r_permissions r) && (r_all_hosts r || negb (bool_decide (r_groups r = [])))).
Definition assignee (username permission : string) (db : Db) : option (string * string) :=
  u ← find (fun u => String.eqb (u_username u) username && u_enabled u
                     && existsb (fun b => bool_decide (b_principal b = User (u_id u)) && negb (is_some (b_revoked b))
                                          && existsb (fun r => String.eqb (r_id r) (b_role b) && gives permission r)
                                               (roles db))
                          (bindings db)) (users db);
  Some (u_id u, u_username u).
