(* ===== verification/AccessOps.v ===== *)
(** * Access control: the requests (openvibes-console/src/access/roles.rs, people.rs,
      people_admin.rs, people_roles.rs)

    A request is a handler run for a signed-in person ([caller]) on the stored tables; it answers
    and leaves new tables.  Sessions, CSRF and the parsing of bodies happen before; passwords and
    random ids are given. *)
From S2P Require Import Prelude RustStd Text BTree Json AccessData AccessRules AccessDb.
From stdpp Require Import prelude strings list.
From Stdlib Require Import Ascii ZArith Lia.

Open Scope Z_scope.

(** ** Requests and answers *)

Record SaveRole := {
  s_name : string;
  s_description : string;
  s_permissions : list Permission;
  s_reach : Reach;
  s_version : option Z;
}.

Record CreateUserRequest := {
  c_username : string; c_display_name : string; c_role_ids : list string; c_email : option string }.
Record UpdatePerson := { up_display_name : option string; up_email : option string }.

Inductive Holder := HUser (id : string) | HAccount (id : string).

Inductive Response :=
  | Done (status : Z)
  | Role (status : Z) (role : StoredRole)
  | CreatedUser (user_id username display_name : string) (role_ids : list string) (one_time_password : string)
  | OneTimePassword (password : string)
  | Problem (p : ProblemDetails).

Definition unavailable_auth : Response :=
  Problem (problem 503 "authentication_unavailable" "Authentication is temporarily unavailable").
Definition invalid (field message : string) : ProblemDetails :=
  {| pb_status := 400; pb_code := "invalid_role"; pb_title := "The role is invalid";
     pb_field := Some (field, message); pb_permission := None; pb_needs := None; pb_holders := None |}.
Definition unknown_group : ProblemDetails := problem 422 "unknown_group" "A host group does not exist".
Definition conflict (code title : string) : Response := Problem (problem 409 code title).
Definition role_not_found : Response := Problem (problem 404 "role_not_found" "No such role").
Definition protected_role : Response :=
  Problem (problem 403 "protected_role" "Administrator cannot be changed or deleted").
Definition forbidden (title : string) : Response := Problem (problem 403 "permission_denied" title).
Definition last_administrator : Response :=
  Problem (problem 409 "last_administrator" "Someone else must hold Administrator first").
Definition user_not_found : Response := Problem (problem 404 "user_not_found" "No such person").
Definition user_conflict : Response :=
  Problem (problem 409 "user_conflict" "A user with this username already exists").
Definition bad_request (code title : string) : Response := Problem (problem 400 code title).
Definition managed_by_sso : Response :=
  Problem (problem 409 "managed_by_sso"
    "Their name, email and roles come from single sign-on and are set again at each sign-in").

(** ** Checking what is sent *)

(** A [SaveRole] that passed validation. *)
Record Checked := {
  k_name : string; k_description : string; k_ids : list Permission; k_permissions : list string; k_reach : Reach }.

Definition missing_needs (p need : Permission) : ProblemDetails :=
  {| pb_status := 422; pb_code := "missing_needs"; pb_title := "A permission is missing what it needs";
     pb_field := None; pb_permission := Some (perm_id p); pb_needs := Some (perm_id need); pb_holders := None |}.

Fixpoint first_missing (set l : list Permission) : option (Permission * Permission) :=
  match l with
  | [] => None
  | p :: l =>
      match find (fun n => negb (perm_mem n set)) (pd_needs (def p)) with
      | Some need => Some (p, need)
      | None => first_missing set l
      end
  end.

Definition checked_reach (r : Reach) : ProblemDetails + Reach :=
  match r with
  | ReachGroups asset_group_ids =>
      let ids := bs_of_list str_cmp (map to_ascii_lowercase asset_group_ids) in
      if match ids with [] => true | _ => false end || (64 <? length ids)%nat
         || negb (length ids =? length asset_group_ids)%nat
      then inl (invalid "reach.asset_group_ids" "Choose 1 to 64 host groups, each once")
      else if negb (forallb valid_uuid ids) then inl unknown_group
      else inr (ReachGroups ids)
  | r => inr r
  end.

Definition checked_new (request : SaveRole) : ProblemDetails + Checked :=
  let name := trim (s_name request) in
  if is_empty name || (64 <? char_count name) || existsb is_control (chars name)
  then inl (invalid "name" "Use 1 to 64 characters, without control characters")
  else if 500 <? char_count (s_description request)
  then inl (invalid "description" "Use at most 500 characters")
  else
    let set := bs_of_list perm_cmp (s_permissions request) in
    match first_missing set set with
    | Some (p, need) => inl (missing_needs p need)
    | None =>
        match checked_reach (s_reach request) with
        | inl refused => inl refused
        | inr r => inr {| k_name := name; k_description := s_description request; k_ids := set;
                          k_permissions := map perm_id set; k_reach := r |}
        end
    end.

Definition input_of (k : Checked) : RoleInput :=
  {| in_name := k_name k; in_description := k_description k; in_permissions := k_permissions k;
     in_reach := k_reach k |}.

Definition answer (status : Z) (written : option RoleWrite) : Response :=
  match written with
  | Some (Saved role) => Role status role
  | Some NameTaken => conflict "role_name_taken" "Another role has this name"
  | Some Stale => conflict "stale_role" "The role changed since you read it"
  | Some NotFound => role_not_found
  | Some Protected => protected_role
  | Some (InUse holders) =>
      Problem {| pb_status := 409; pb_code := "role_in_use";
                 pb_title := "Take the role away from everyone who holds it first";
                 pb_field := None; pb_permission := None; pb_needs := None; pb_holders := Some holders |}
  | Some UnknownReference => Problem unknown_group
  | None => unavailable_auth
  end.

(** 1 to 64 ASCII letters, digits or [._@+-], lowercased. *)
Definition canonical_username (username : string) : option string :=
  if negb (is_empty username) && (String.length username <=? 64)%nat
     && forallb (fun b => is_ascii_alphanumeric b || existsb (Z.eqb b) (bytes "._@+-")) (bytes username)
  then Some (to_ascii_lowercase username) else None.

Definition display_name (name : string) : option string :=
  let name := trim name in
  if negb (is_empty name) && (char_count name <=? 160) && negb (existsb is_control (chars name))
  then Some name else None.

(** An email as sent: empty clears it. *)
Definition email (e : string) : ProblemDetails + option string :=
  let e := trim e in
  if is_empty e then inr None
  else if (char_count e <=? 254)
          && negb (existsb (fun c => is_whitespace c || is_control c) (chars e))
          && match split_once "@" e with
             | Some (local, domain) => negb (is_empty local) && negb (is_empty domain) && negb (has_char "@" domain)
             | None => false
             end
  then inr (Some e)
  else inl (problem 422 "invalid_email" "Enter an email address such as name@example.com").

Section handlers.
Variable lower : string -> string.
Variable pg_space : Z -> bool.
Variable gen : nat -> string.

(** Everything the signed-in person holds. *)
Definition caller (db : Db) (user_id : string) : Editor := editor_of user_id (grants db (User user_id)).

(** ** Roles *)

Definition create_role_request (request : SaveRole) (user_id : string) (db : Db) : Response * Db :=
  let editor := caller db user_id in
  match denied editor AccessRoles with
  | Some p => (Problem p, db)
  | None =>
      match checked_new request with
      | inl p => (Problem p, db)
      | inr role =>
          match within_share (capabilities editor) (k_ids role) (k_reach role) with
          | Some p => (Problem p, db)
          | None =>
              let '(written, db) := create_role lower gen (input_of role) (actor editor) db in
              (answer 201 written, db)
          end
      end
  end.

(** The role as stored must fit too, at [version] when one is given. *)
Definition stored_role_fits (editor : Editor) (role_id : string) (version : option Z) (db : Db) : option Response :=
  match read_role db role_id with
  | None => Some role_not_found
  | Some role =>
      if match version with Some v => negb (v =? sr_version role) | None => false end
      then Some (conflict "stale_role" "The role changed since you read it")
      else Problem <$> role_fits editor role
  end.

Definition update_role_request (role_id : string) (request : SaveRole) (user_id : string) (db : Db)
    : Response * Db :=
  let editor := caller db user_id in
  match denied editor AccessRoles with
  | Some p => (Problem p, db)
  | None =>
      if String.eqb role_id ADMIN_ROLE then (protected_role, db)
      else match s_version request with
      | None => (Problem (invalid "version" "Send the version you read"), db)
      | Some version =>
          match checked_new request with
          | inl p => (Problem p, db)
          | inr role =>
              match stored_role_fits editor role_id (Some version) db with
              | Some response => (response, db)
              | None =>
                  match within_share (capabilities editor) (k_ids role) (k_reach role) with
                  | Some p => (Problem p, db)
                  | None =>
                      let '(written, db) := update_role lower role_id version (input_of role) (actor editor) db in
                      (answer 200 written, db)
                  end
              end
          end
      end
  end.

Definition delete_role_request (role_id user_id : string) (now : Z) (db : Db) : Response * Db :=
  let editor := caller db user_id in
  match denied editor AccessRoles with
  | Some p => (Problem p, db)
  | None =>
      if String.eqb role_id ADMIN_ROLE then (protected_role, db)
      else match stored_role_fits editor role_id None db with
      | Some response => (response, db)
      | None =>
          match delete_role role_id (actor editor) now db with
          | (Some (Saved _), db) => (Done 204, db)
          | (written, db) => (answer 204 written, db)
          end
      end
  end.

(** ** People *)

(** [held(role_ids, all_roles)]: the map of roles by id, read at the ids held. *)
Definition held (db : Db) (role_ids : list string) : list StoredRole :=
  omap (fun id => find (fun r => String.eqb (sr_role_id r) id) (list_roles lower db)) role_ids.

Definition visible_person (editor : Editor) (user_id : string) (db : Db) : Response + Person :=
  if negb (valid_uuid user_id) then inl user_not_found
  else match person db user_id with
       | None => inl user_not_found
       | Some p =>
           if negb (String.eqb (u_id (p_user p)) (actor editor)) && negb (roles_fit editor (held db (p_role_ids p)))
           then inl user_not_found else inr p
       end.

Definition visible_account (editor : Editor) (id : string) (db : Db) : Response + string :=
  let not_found := Problem (problem 404 "service_account_not_found" "No such service account") in
  if negb (valid_uuid id) then inl not_found
  else match find (fun a => String.eqb (to_ascii_lowercase a) (to_ascii_lowercase id)) (accounts db) with
       | None => inl not_found
       | Some account =>
           if roles_fit editor (held db (role_ids_of db (ServiceAccount account)))
           then inr account else inl not_found
       end.

(** The principal whose roles change, or the answer refusing it. *)
Definition holder_principal (editor : Editor) (holder : Holder) (give : bool) (db : Db) : Response + Principal :=
  match holder with
  | HUser id =>
      match visible_person editor id db with
      | inl r => inl r
      | inr p =>
          if String.eqb (u_id (p_user p)) (actor editor) then inl (forbidden "Nobody can change their own roles")
          else if String.eqb (u_auth_source (p_user p)) "sso" && give then inl managed_by_sso
          else inr (User (u_id (p_user p)))
      end
  | HAccount id =>
      match visible_account editor id db with inl r => inl r | inr a => inr (ServiceAccount a) end
  end.

Definition change (holder : Holder) (role_id : string) (give : bool) (user_id : string) (now : Z) (db : Db)
    : Response * Db :=
  let editor := caller db user_id in
  match denied editor AccessGrant with
  | Some p => (Problem p, db)
  | None =>
      match holder_principal editor holder give db with
      | inl r => (r, db)
      | inr who =>
          match read_role db role_id with
          | None => (role_not_found, db)
          | Some role =>
              match role_fits editor role with
              | Some p => (Problem p, db)
              | None =>
                  if give then
                    match give_role gen who role_id (actor editor) now db with
                    | (Given, db) | (AlreadyHeld, db) => (Done 204, db)
                    | (NoSuch, db) => (user_not_found, db)
                    end
                  else
                    match remove_role who role_id (actor editor) now db with
                    | (Revoked, db) | (NotHeld, db) => (Done 204, db)
                    | (LastAdministrator, db) => (last_administrator, db)
                    end
              end
          end
      end
  end.

(** Every role chosen exists and fits; otherwise the first refusal. *)
Fixpoint roles_refused (editor : Editor) (db : Db) (role_ids : list string) : option Response :=
  match role_ids with
  | [] => None
  | id :: role_ids =>
      match find (fun r => String.eqb (sr_role_id r) id) (list_roles lower db) with
      | None => Some (bad_request "unknown_role" "Choose an existing role")
      | Some role =>
          match role_fits editor role with
          | Some p => Some (Problem p)
          | None => roles_refused editor db role_ids
          end
      end
  end.

Definition create_person (request : CreateUserRequest) (password phc : string) (user_id : string) (now : Z) (db : Db)
    : Response * Db :=
  let editor := caller db user_id in
  match denied editor AccessUsers with
  | Some p => (Problem p, db)
  | None =>
      match canonical_username (c_username request), display_name (c_display_name request) with
      | Some username, Some name =>
          match match c_email request with None => inr None | Some e => email e end with
          | inl p => (Problem p, db)
          | inr e =>
              match bs_of_list str_cmp (c_role_ids request) with
              | [] => (bad_request "invalid_user" "Give the person 1 to 64 roles", db)
              | first :: more =>
                  if (64 <? length (first :: more))%nat
                  then (bad_request "invalid_user" "Give the person 1 to 64 roles", db)
                  else match roles_refused editor db (first :: more) with
                  | Some response => (response, db)
                  | None =>
                      if username_taken db username then (user_conflict, db)
                      else
                        let id := gen (draws db) in
                        let new := {| nu_user_id := id; nu_binding_id := gen (S (draws db));
                                      nu_username := username; nu_display_name := name;
                                      nu_password_phc := phc; nu_role_id := first; nu_must_change := true |} in
                        match create_user pg_space gen new e more (actor editor) now (drawn (drawn db)) with
                        | Some db => (CreatedUser id username name (first :: more) password, db)
                        | None => (if username_taken db username then user_conflict else unavailable_auth,
                                   drawn (drawn db))
                        end
                  end
              end
          end
      | _, _ => (bad_request "invalid_user"
          "Use 1 to 64 letters, digits or ._@+- for the username and 1 to 160 characters for the name", db)
      end
  end.

Definition update_person (target : string) (request : UpdatePerson) (user_id : string) (db : Db) : Response * Db :=
  let editor := caller db user_id in
  match (if String.eqb (to_ascii_lowercase target) (to_ascii_lowercase (actor editor)) then None
         else denied editor AccessUsers) with
  | Some p => (Problem p, db)
  | None =>
      match match up_display_name request with None => Some None | Some n => Some <$> display_name n end with
      | None => (Problem (problem 422 "invalid_user" "Use 1 to 160 characters for the name"), db)
      | Some name =>
          match match up_email request with
                | None => inr None
                | Some e => match email e with inl p => inl p | inr e => inr (Some e) end
                end with
          | inl p => (Problem p, db)
          | inr e =>
              match visible_person editor target db with
              | inl r => (r, db)
              | inr p =>
                  if String.eqb (u_auth_source (p_user p)) "sso" then (managed_by_sso, db)
                  else match set_details pg_space (u_id (p_user p)) name e (actor editor) db with
                       | (Some true, db) => (Done 204, db)
                       | (Some false, db) => (user_not_found, db)
                       | (None, db) => (unavailable_auth, db)
                       end
              end
          end
      end
  end.

(** ** People administration *)

Definition managed (target user_id : string) (db : Db) : Response + Editor * Person :=
  let editor := caller db user_id in
  match denied editor AccessUsers with
  | Some p => inl (Problem p)
  | None => match visible_person editor target db with inl r => inl r | inr p => inr (editor, p) end
  end.

Definition disable_person (target user_id : string) (now : Z) (db : Db) : Response * Db :=
  match managed target user_id db with
  | inl r => (r, db)
  | inr (editor, p) =>
      if String.eqb (u_id (p_user p)) (actor editor)
      then (forbidden "You cannot disable your own account", db)
      else match disable_local_user (u_id (p_user p)) (actor editor) now db with
           | (Disabled, db) | (NotEnabled, db) => (Done 204, db)
           | (LastEnabledAdministrator, db) => (last_administrator, db)
           end
  end.

Definition enable_person (target user_id : string) (db : Db) : Response * Db :=
  match managed target user_id db with
  | inl r => (r, db)
  | inr (editor, p) => (Done 204, (enable_user (u_id (p_user p)) (actor editor) db).2)
  end.

Definition reset_password_request (target password phc user_id : string) (now : Z) (db : Db) : Response * Db :=
  match managed target user_id db with
  | inl r => (r, db)
  | inr (editor, p) =>
      if String.eqb (u_id (p_user p)) (actor editor)
      then (Problem (problem 403 "use_change_password" "Use Change password for your own account"), db)
      else if String.eqb (u_auth_source (p_user p)) "sso" then (managed_by_sso, db)
      else match reset_password (u_id (p_user p)) phc (actor editor) now db with
           | (true, db) => (OneTimePassword password, db)
           | (false, db) => (user_not_found, db)
           end
  end.

(** ** The requests as one step *)

Inductive Request :=
  | CreateRole (request : SaveRole)
  | UpdateRole (role_id : string) (request : SaveRole)
  | DeleteRole (role_id : string)
  | ChangeRole (holder : Holder) (role_id : string) (give : bool)
  | CreatePerson (request : CreateUserRequest) (password phc : string)
  | ChangePerson (target : string) (request : UpdatePerson)
  | DisablePerson (target : string)
  | EnablePerson (target : string)
  | ResetPassword (target password phc : string).

Definition handle (now : Z) (user_id : string) (request : Request) (db : Db) : Response * Db :=
  match request with
  | CreateRole r => create_role_request r user_id db
  | UpdateRole role_id r => update_role_request role_id r user_id db
  | DeleteRole role_id => delete_role_request role_id user_id now db
  | ChangeRole holder role_id give => change holder role_id give user_id now db
  | CreatePerson r password phc => create_person r password phc user_id now db
  | ChangePerson target r => update_person target r user_id db
  | DisablePerson target => disable_person target user_id now db
  | EnablePerson target => enable_person target user_id db
  | ResetPassword target password phc => reset_password_request target password phc user_id now db
  end.

(** A request of one of the people [who], at some time. *)
Definition step (who : string -> Prop) (db db' : Db) : Prop :=
  exists now user_id request, who user_id /\ db' = (handle now user_id request db).2.
End handlers.
