(* ===== verification/AccessProps.v ===== *)
(** * Access control: what the requests guarantee

    The tables' invariant, that no sequence of requests gives anybody more than the people making
    them and the holder already had, that an enabled Administrator always remains, and that a
    refused request changes nothing. *)
From S2P Require Import Prelude RustStd Text BTree Json AccessData AccessRules AccessDb AccessOps.
From stdpp Require Import prelude strings list.
From Stdlib Require Import Ascii ZArith Lia.

Open Scope Z_scope.

(** Conversion need not compare capabilities by computing them. *)
#[local] Opaque resolve_capabilities.

(** ** Invariant *)

Definition exists_role (db : Db) (id : string) : Prop := In id (map r_id (roles db)).

(** Administrator as the migrations leave it: every permission, on every host. *)
Definition complete (r : RoleRow) : Prop :=
  r_all_hosts r = true /\ forall p, In (perm_id p) (r_permissions r).

Record wf (db : Db) : Prop := {
  wf_roles : NoDup (map r_id (roles db));
  wf_users : NoDup (map u_id (users db));
  wf_bindings : NoDup (map b_id (bindings db));
  wf_refers : forall b, In b (bindings db) -> active b = true ->
    exists_role db (b_role b) /\ principal_exists db (b_principal b) = true;
  wf_admin : exists r, In r (roles db) /\ r_id r = ADMIN_ROLE /\ complete r;
}.

(** What a principal is allowed through its roles. *)
Definition power (db : Db) (who : Principal) (p : Permission) (w : option string) : Prop :=
  allows (resolve_capabilities (grants db who)) p w.

Definition grant_of (r : RoleRow) : Grant :=
  {| g_role_id := r_id r; g_permissions := bs_of_list str_cmp (r_permissions r); g_reach := role_reach r |}.

Lemma holds_binding_iff who role b :
  holds_binding who role b = true <-> active b = true /\ b_principal b = who /\ b_role b = role.
Proof. unfold holds_binding. rewrite !andb_true_iff, bool_decide_eq_true, String.eqb_eq. tauto. Qed.

Lemma power_iff db who p w :
  power db who p w <-> exists r b, In r (roles db) /\ In b (bindings db)
    /\ holds_binding who (r_id r) b = true /\ grant_allows (grant_of r) p w.
Proof.
  unfold power. rewrite resolve_allows. unfold grants. split.
  - intros (g & (r & <- & [Hr (b & Hb & Hh)%existsb_exists]%filter_In)%in_map_iff & Hg). by exists r, b.
  - intros (r & b & Hr & Hb & Hh & Hg). exists (grant_of r). split; [|done]. apply in_map_iff. exists r.
    split; [done|]. apply filter_In. split; [done|]. apply existsb_exists. by exists b.
Qed.

Lemma power_same db db' who p w :
  roles db' = roles db -> bindings db' = bindings db -> power db' who p w <-> power db who p w.
Proof. intros Hr Hb. by rewrite !power_iff, Hr, Hb. Qed.

Lemma find_role_In db id r : find_role db id = Some r -> In r (roles db) /\ r_id r = id.
Proof. intros [? ?%String.eqb_eq]%find_some. done. Qed.

Lemma unique_role db r r' :
  wf db -> In r (roles db) -> In r' (roles db) -> r_id r = r_id r' -> r = r'.
Proof.
  intros Hwf. exact (NoDup_map_inj r_id _ _ _ (wf_roles db Hwf)).
Qed.

Lemma find_role_unique db r : wf db -> In r (roles db) -> find_role db (r_id r) = Some r.
Proof.
  intros Hwf Hr. unfold find_role. destruct (find _ _) as [r'|] eqn:E.
  - apply find_some in E as [Hr' E%String.eqb_eq]. f_equal. symmetry. by apply (unique_role db).
  - eapply find_none in E; [|done]. by rewrite String.eqb_refl in E.
Qed.

(** A stored role that fits inside the editor's share allows nothing the editor is not allowed. *)
Lemma role_fits_power db a r p w :
  wf db -> In r (roles db) -> role_fits (caller db a) (stored db r) = None ->
  grant_allows (grant_of r) p w -> power db (User a) p w.
Proof.
  intros Hwf Hr Hf Hg. unfold power. unfold caller in Hf.
  assert (In (perm_id p) (sr_permissions (stored db r)) /\ reach_allows (sr_reach (stored db r)) p w) as [Hp Hw].
  { destruct Hg as [E|[Hp Hw]]; [|done]. simpl in *. destruct (wf_admin db Hwf) as (r' & Hr' & E' & Hall & Hps).
    assert (r = r') as -> by (apply (unique_role db); congruence). split; [by apply (bs_of_list_In str_cmp)|].
    unfold role_reach, reach. rewrite Hall. unfold reach_allows. by destruct (pd_scope (def p)). }
  by eapply role_fits_inside.
Qed.

(** ** What each statement keeps *)

(** [db'] keeps the roles and bindings of [db]. *)
Definition same_roles (db db' : Db) : Prop := roles db' = roles db /\ bindings db' = bindings db.

(** The invariant only reads identities. *)
Lemma wf_same db db' :
  wf db -> roles db' = roles db -> bindings db' = bindings db -> map u_id (users db') = map u_id (users db) ->
  accounts db' = accounts db -> wf db'.
Proof.
  intros [H1 H2 H3 H4 H5] Hr Hb Hu Ha. split; rewrite ?Hr, ?Hb, ?Hu; try done.
  intros b Hin Hact. destruct (H4 b Hin Hact) as [He Hp]. unfold exists_role. rewrite Hr. split; [done|].
  destruct (b_principal b); simpl in *; [|by rewrite Ha].
  apply existsb_exists in Hp as (u & Hin' & E%String.eqb_eq).
  assert (In id (map u_id (users db'))) as (u' & <- & ?)%in_map_iff.
  { rewrite Hu, <- E. by apply in_map. }
  apply existsb_exists. exists u'. split; [done|]. apply String.eqb_refl.
Qed.

Lemma map_ids {A} (id : A -> string) (f : A -> A) l : (forall a, id (f a) = id a) -> map id (map f l) = map id l.
Proof. intros H. induction l as [|a l IH]; simpl; [done|]. by rewrite H, IH. Qed.

Lemma update_user_ids user_id f db :
  (forall u, u_id (f u) = u_id u) -> map u_id (users (update_user user_id f db)) = map u_id (users db).
Proof. intros H. apply map_ids. intros u. destruct (String.eqb _ _); [apply H|done]. Qed.

(** ** Rows of roles *)

Lemma update_row_ids role_id f db :
  (forall r, r_id (f r) = r_id r) -> map r_id (roles (update_role_row role_id f db)) = map r_id (roles db).
Proof. intros H. apply map_ids. intros r. destruct (String.eqb _ _); [apply H|done]. Qed.

Lemma wf_update_row db role_id f :
  wf db -> role_id <> ADMIN_ROLE -> (forall r, r_id (f r) = r_id r) -> wf (update_role_row role_id f db).
Proof.
  intros Hwf Hn Hid. pose proof (update_row_ids role_id f db Hid) as E. destruct Hwf as [H1 H2 H3 H4 H5].
  split; try done; [by rewrite E| |].
  - intros b Hin Hact. destruct (H4 b Hin Hact) as [He Hp]. unfold exists_role. by rewrite E.
  - destruct H5 as (r & Hr & Ea & Hc). exists r. split; [|done]. apply in_map_iff. exists r.
    split; [|done]. by rewrite Ea, (proj2 (String.eqb_neq _ _)) by congruence.
Qed.

(** The outcomes of [write_contents] that are committed. *)
Lemma write_contents_saved lower role_id input action a db role db' :
  write_contents lower role_id input action a db = Some (Saved role, db') ->
  db' = audit_role action a role (update_role_row role_id (with_contents input) db)
  /\ read_role (update_role_row role_id (with_contents input) db) role_id = Some role.
Proof.
  unfold write_contents. repeat (case_match; try done). intros [= <- <-]. done.
Qed.

Lemma commit_saved_db before written :
  (exists role db', written = Some (Saved role, db') /\ commit_saved before written = (Some (Saved role), db'))
  \/ (commit_saved before written).2 = before.
Proof. destruct written as [[[] db']|]; simpl; eauto 6. Qed.

(** ** One request *)

Definition has_admin (db : Db) : Prop := exists u, In u (users db) /\ is_administrator db u = true.

(** What each request of [a] keeps: the invariant, everybody's powers within theirs and [a]'s, and
    an enabled Administrator. *)
Definition good (a : string) (db db' : Db) : Prop :=
  wf db'
  /\ (forall who p w, power db' who p w -> power db who p w \/ power db (User a) p w)
  /\ (has_admin db -> has_admin db').

Lemma is_administrator_iff db u :
  is_administrator db u = true <->
  u_enabled u = true /\ exists b, In b (bindings db) /\ holds_binding (User (u_id u)) ADMIN_ROLE b = true.
Proof. unfold is_administrator. by rewrite andb_true_iff, existsb_exists. Qed.

(** Requests that touch neither roles nor bindings. *)
Lemma good_same a db db' :
  wf db -> roles db' = roles db -> bindings db' = bindings db -> map u_id (users db') = map u_id (users db) ->
  accounts db' = accounts db -> (has_admin db -> has_admin db') -> good a db db'.
Proof.
  intros Hwf Hr Hb Hu Ha Hadm. split; [by apply (wf_same db)|]. split; [|done].
  intros who p w Hp. left. by apply (power_same db db').
Qed.

Lemma good_refl a db : wf db -> good a db db.
Proof. intros. by apply good_same. Qed.

Lemma good_same_users a db db' :
  wf db -> roles db' = roles db -> bindings db' = bindings db -> users db' = users db ->
  accounts db' = accounts db -> good a db db'.
Proof.
  intros Hwf Hr Hb Hu Ha. apply good_same; try done; [by rewrite Hu|].
  intros (u & Hin & Hadm). exists u. rewrite Hu. split; [done|]. unfold is_administrator. by rewrite Hb.
Qed.

Lemma has_admin_bindings db db' :
  users db' = users db ->
  (forall u b, In b (bindings db) -> holds_binding (User (u_id u)) ADMIN_ROLE b = true -> In b (bindings db')) ->
  has_admin db -> has_admin db'.
Proof.
  intros Hu Hb (u & Hin & (He & b & Hinb & Hh)%is_administrator_iff). exists u. rewrite Hu. split; [done|].
  apply is_administrator_iff. split; [done|]. exists b. split; [|done]. by eapply Hb.
Qed.

(** The audit log is not read. *)
Lemma good_audit a db db' row : good a db db' -> good a db (append_audit row db').
Proof. intros (H1 & H2 & H3). split; [by apply (wf_same db')|]. split; [|exact H3].
  intros who p w. rewrite (power_same db') by done. apply H2.
Qed.

Lemma good_trans_same a db db1 db2 :
  wf db -> roles db1 = roles db -> bindings db1 = bindings db -> users db1 = users db -> accounts db1 = accounts db ->
  good a db1 db2 -> good a db db2.
Proof.
  intros Hwf Hr Hb Hu Ha (H1 & H2 & H3). split; [done|]. split.
  - intros who p w [Hp|Hp]%H2; [left|right]; by apply (power_same db db1).
  - intros Hadm. apply H3. destruct (good_same_users a db db1) as (_ & _ & ?); auto.
Qed.

(** Roles whose contents change only for [role_id], to contents the editor is allowed. *)
Lemma good_update_row a db role_id f :
  wf db -> role_id <> ADMIN_ROLE -> (forall r, r_id (f r) = r_id r) ->
  (forall r p w, In r (roles db) -> grant_allows (grant_of (f r)) p w -> r_id r = role_id -> power db (User a) p w) ->
  good a db (update_role_row role_id f db).
Proof.
  intros Hwf Hn Hid Hf. split; [by apply wf_update_row|]. split; [|done].
  intros who p w. rewrite power_iff. intros (r & b & Hr & Hb & Hh & Hg).
  apply in_map_iff in Hr as (r0 & <- & Hr0). destruct (String.eqb_spec (r_id r0) role_id) as [E|E].
  - right. by eapply Hf.
  - left. apply power_iff. eauto 6.
Qed.

Lemma input_allows input r p w :
  r_id r <> ADMIN_ROLE -> grant_allows (grant_of (with_contents input r)) p w ->
  In (perm_id p) (in_permissions input) /\ reach_allows (in_reach input) p w.
Proof.
  intros Hn [E|[Hp Hw]]; simpl in *; [done|]. rewrite (bs_of_list_In str_cmp) in Hp. split; [done|].
  unfold role_reach, reach, reach_allows in *. simpl in Hw. destruct (pd_scope (def p)); [|done].
  destruct (in_reach input) as [| |groups]; simpl in *; try done.
  destruct (bs_of_list str_cmp groups) as [|g l] eqn:E; [done|]. rewrite <- E in Hw.
  destruct Hw as (x & -> & Hx). rewrite (bs_of_list_In str_cmp) in Hx. eauto.
Qed.

(** A checked role inside the share: what its input allows, the editor is allowed. *)
Lemma checked_inside a db request role p w :
  checked_new request = inr role ->
  within_share (capabilities (caller db a)) (k_ids role) (k_reach role) = None ->
  In (perm_id p) (in_permissions (input_of role)) -> reach_allows (in_reach (input_of role)) p w ->
  power db (User a) p w.
Proof.
  intros Hk Hs Hp Hw. unfold within_share in Hs. simpl in *.
  destruct (fits _ _ _) eqn:Ef; [done|]. apply fits_inside in Ef. apply (Ef p); [|done].
  unfold checked_new in Hk. repeat (case_match; try done). injection Hk as <-. simpl in *.
  apply in_map_iff in Hp as (q & E & Hq). apply perm_id_inj in E. congruence.
Qed.

(** ** Requests on roles *)

Section requests.
Variable lower : string -> string.
Variable pg_space : Z -> bool.
Variable gen : nat -> string.

Lemma good_saved a before db written :
  good a before before ->
  (forall role db', written = Some (Saved role, db') -> good a before db') ->
  db = (commit_saved before written).2 -> good a before db.
Proof.
  intros Hb Hs ->. destruct (commit_saved_db before written) as [(role & db' & -> & ->)| ->]; [|done].
  simpl. by eapply Hs.
Qed.

Lemma create_role_good a input db :
  wf db -> good a db (create_role lower gen input a db).2.
Proof.
  intros Hwf. apply (good_trans_same a db (drawn db)); try done. pose proof Hwf as Hwf'.
  apply (wf_same db (drawn db)) in Hwf'; try done. eapply good_saved; [by apply good_refl| |reflexivity].
  intros stored_role db'. set (id := "r_" +:+ gen (draws db)).
  destruct (negb (name_stored _) || str_mem id (map r_id (roles db))) eqn:Eid; [done|].
  destruct (name_taken _ _ _ _); [done|]. intros Hw.
  apply orb_false_iff in Eid as [_ Eid]. apply Bool.not_true_iff_false in Eid. rewrite str_mem_In in Eid.
  assert (id <> ADMIN_ROLE) as Hna by (unfold id; by destruct (gen (draws db))).
  apply write_contents_saved in Hw as [-> _]. apply good_audit.
  set (db1 := set_roles _ (drawn db)).
  assert (wf db1) as Hwf1.
  { destruct Hwf' as [H1 H2 H3 H4 H5]. split; try done.
    - simpl. rewrite map_app. apply NoDup_app. split; [done|]. split; [|apply NoDup_singleton].
      intros x Hx%list_elem_of_In Hx'%list_elem_of_singleton. subst x. done.
    - intros b Hin Hact. destruct (H4 b Hin Hact) as [He Hp]. split; [|done]. unfold exists_role in *. simpl in *.
      rewrite map_app. apply in_or_app. by left.
    - destruct H5 as (r & Hr & ?). exists r. split; [|done]. simpl. apply in_or_app. by left. }
  assert (forall b, In b (bindings db) -> active b = true -> b_role b <> id) as Hfresh.
  { intros b Hin Hact E. destruct (wf_refers db Hwf b Hin Hact) as [He _]. unfold exists_role in He.
    rewrite E in He. done. }
  split; [by apply wf_update_row|]. split; [|done].
  intros who p w. rewrite power_iff. intros (r & b & Hr & Hb & Hh & Hg). left. apply power_iff.
  apply in_map_iff in Hr as (r0 & <- & Hr0). apply holds_binding_iff in Hh as (Hact & Hwho & Hrole).
  destruct (String.eqb_spec (r_id r0) id) as [E|E]; simpl in *; [by destruct (Hfresh b Hb Hact); congruence|].
  apply in_app_or in Hr0 as [Hr0|[<-|[]]]; [|done]. exists r0, b. split_and!; try done. by apply holds_binding_iff.
Qed.

Lemma update_role_good a role_id version input db :
  wf db -> role_id <> ADMIN_ROLE ->
  (forall p w, In (perm_id p) (in_permissions input) -> reach_allows (in_reach input) p w -> power db (User a) p w) ->
  good a db (update_role lower role_id version input a db).2.
Proof.
  intros Hwf Hn Hs. unfold update_role. destruct (locked _ _); [by apply good_refl|].
  destruct (negb _); [by apply good_refl|]. destruct (i32_max <=? _); [by apply good_refl|].
  eapply good_saved; [by apply good_refl| |reflexivity]. intros stored_role db' [-> _]%write_contents_saved.
  apply good_audit. unfold update_role_row, set_roles. simpl. rewrite map_map.
  set (f := fun r => with_contents input (bump r)).
  assert (good a db (update_role_row role_id f db)) as Hgood; [apply good_update_row|].
  1-3: done.
  2:{ replace (map _ (roles db)) with (map (fun r => if String.eqb (r_id r) role_id then f r else r) (roles db)); [exact Hgood|].
    apply map_ext. intros r. destruct (String.eqb (r_id r) role_id) eqn:E; simpl; by rewrite ?E. }
  intros r p w Hr Hg E. apply input_allows in Hg as [Hp Hw]; [|simpl; congruence]. by apply Hs.
Qed.

Lemma fold_audit_keeps ids f db :
  let db' := fold_left (fun db (id : string) => append_audit (f id) db) ids db in
  roles db' = roles db /\ bindings db' = bindings db /\ users db' = users db /\ accounts db' = accounts db.
Proof. revert db. induction ids as [|id ids IH]; intros db; simpl; [done|]. apply (IH (append_audit (f id) db)). Qed.

Lemma delete_role_good a role_id now db :
  wf db -> role_id <> ADMIN_ROLE -> good a db (delete_role role_id a now db).2.
Proof.
  intros Hwf Hn. unfold delete_role. destruct (locked _ _); [by apply good_refl|].
  destruct (read_role _ _) as [role|]; [|by apply good_refl]. destruct (0 <? _); [by apply good_refl|]. simpl.
  apply good_audit. unfold privatise_orphans.
  match goal with |- good _ _ (fold_left (fun db id => append_audit (@?f id) db) ?ids ?db1) =>
    pose proof (fold_audit_keeps ids f db1) as H end.
  cbv zeta in H. set (db' := fold_left _ _ _) in *. clearbody db'. destruct H as (Hr & Hb & Hu & Ha). simpl in *.
  split; [|split].
  - destruct Hwf as [H1 H2 H3 H4 H5]. split.
    + rewrite Hr. clear -H1. induction (roles db) as [|r l IH]; simpl in *; [done|].
      inversion H1 as [|? ? Hx Hnd E]; subst. destruct (negb _); simpl; [|by apply IH]. constructor; [|by apply IH].
      rewrite list_elem_of_In in *. intros (r' & E' & [? _]%filter_In)%in_map_iff. apply Hx. rewrite <- E'. by apply in_map.
    + by rewrite Hu.
    + rewrite Hb. clear -H3. induction (bindings db) as [|r l IH]; simpl in *; [done|].
      inversion H3 as [|? ? Hx Hnd E]; subst. destruct (negb _); simpl; [|by apply IH]. constructor; [|by apply IH].
      rewrite list_elem_of_In in *. intros (r' & E' & [? _]%filter_In)%in_map_iff. apply Hx. rewrite <- E'. by apply in_map.
    + intros b Hin Hact. rewrite Hb in Hin. apply filter_In in Hin as [Hin Hne].
      destruct (H4 b Hin Hact) as [He Hp]. split.
      * unfold exists_role in *. rewrite Hr. apply in_map_iff in He as (r & E & Hr'). apply in_map_iff. exists r.
        split; [done|]. apply filter_In. by rewrite E.
      * unfold principal_exists. by rewrite Hu, Ha.
    + destruct H5 as (r & Hr' & E & Hc). exists r. split; [|done]. rewrite Hr. apply filter_In. split; [done|].
      by rewrite E, (proj2 (String.eqb_neq _ _)) by congruence.
  - intros who p w. rewrite !power_iff. intros (r & b & Hr' & Hb' & Hh & Hg). left.
    rewrite Hr in Hr'. rewrite Hb in Hb'. apply filter_In in Hr' as [? _]. apply filter_In in Hb' as [? _]. eauto 6.
  - apply has_admin_bindings; [done|]. intros u b Hin (_ & _ & E)%holds_binding_iff. rewrite Hb. apply filter_In.
    split; [done|]. by rewrite E, (proj2 (String.eqb_neq _ _)) by congruence.
Qed.

(** ** Requests on bindings *)

(** New bindings of roles the editor may give. *)
Lemma good_bind a db who role_id now :
  wf db -> (forall r p w, In r (roles db) -> r_id r = role_id -> grant_allows (grant_of r) p w -> power db (User a) p w) ->
  good a db (bind gen who role_id a now db).2.
Proof.
  intros Hwf Hr. unfold bind. destruct (_ && _) eqn:E; [|by apply good_same_users]. apply good_audit.
  rewrite !andb_true_iff, !negb_true_iff in E. destruct E as [[[Hrole Hwho] _] Hid].
  apply str_mem_In in Hrole. apply Bool.not_true_iff_false in Hid. rewrite str_mem_In in Hid.
  split; [|split].
  - destruct Hwf as [H1 H2 H3 H4 H5]. split; try done; simpl.
    + rewrite map_app. apply NoDup_app. split; [done|]. split; [|apply NoDup_singleton].
      intros x Hx%list_elem_of_In Hx'%list_elem_of_singleton. by subst x.
    + intros b [Hin|[<-|[]]]%in_app_or Hact; [by apply H4|done].
  - intros q p w. rewrite power_iff. intros (r & b & Hin & Hb & Hh & Hg). simpl in *.
    apply in_app_or in Hb as [Hb|[<-|[]]]; [left; apply power_iff; eauto 6|].
    right. apply holds_binding_iff in Hh as (_ & _ & E). simpl in E. by eapply Hr.
  - apply has_admin_bindings; [done|]. intros u b Hin _. simpl. apply in_or_app. by left.
Qed.

Lemma give_role_good a db who role_id now :
  wf db -> (forall r p w, In r (roles db) -> r_id r = role_id -> grant_allows (grant_of r) p w -> power db (User a) p w) ->
  good a db (give_role gen who role_id a now db).2.
Proof.
  intros Hwf Hr. pose proof (good_bind a db who role_id now Hwf Hr) as H. unfold give_role.
  destruct (bind _ _ _ _ _ _) as [[] db']; simpl in *; [done|by apply good_same_users].
Qed.

Lemma two_of {A} (id : A -> string) (P : A -> bool) l x :
  NoDup (map id l) -> (1 < length (List.filter P l))%nat -> exists y, In y l /\ P y = true /\ id y <> x.
Proof.
  intros Hnd Hlen. destruct (List.filter P l) as [|a [|b k]] eqn:E; simpl in Hlen; [lia..|].
  assert (In a (List.filter P l)) as [Ha Pa]%filter_In by (rewrite E; by left).
  assert (In b (List.filter P l)) as [Hb Pb]%filter_In by (rewrite E; right; by left).
  destruct (decide (id a = x)) as [<-|]; [|by exists a]. exists b. split_and!; [done|done|].
  assert (NoDup (map id (List.filter P l))) as Hf.
  { clear -Hnd. induction l as [|y l IH]; simpl in *; [constructor|]. inversion Hnd as [|? ? Hx Hnd' Ey]; subst.
    destruct (P y); simpl; [|by apply IH]. constructor; [|by apply IH].
    rewrite list_elem_of_In in *. intros (z & Ez & [? _]%filter_In)%in_map_iff. apply Hx. rewrite <- Ez. by apply in_map. }
  rewrite E in Hf. simpl in Hf. inversion Hf as [|? ? Hx _ Ey]; subst. intros Ex. apply Hx. rewrite Ex. by left.
Qed.

Lemma unique_binding db b b' :
  wf db -> In b (bindings db) -> In b' (bindings db) -> b_id b = b_id b' -> b = b'.
Proof.
  intros Hwf. exact (NoDup_map_inj b_id _ _ _ (wf_bindings db Hwf)).
Qed.

Lemma other_administrator db x :
  wf db -> (enabled_administrators db <=? 1) = false ->
  exists u, In u (users db) /\ is_administrator db u = true /\ u_id u <> x.
Proof.
  intros Hwf Hn%Z.leb_gt. apply two_of; [apply (wf_users db Hwf)|]. unfold enabled_administrators in Hn. lia.
Qed.

Lemma remove_role_good a db who role_id now :
  wf db -> good a db (remove_role who role_id a now db).2.
Proof.
  intros Hwf. unfold remove_role. destruct (find _ _) as [b|] eqn:Eb; [|by apply good_refl].
  apply find_some in Eb as [Hb Hh]. apply holds_binding_iff in Hh as (Hact & Hwho & Hrole).
  destruct (_ && (enabled_administrators db <=? 1)) eqn:Elast; [by apply good_refl|]. simpl. apply good_audit.
  split; [|split].
  - destruct Hwf as [H1 H2 H3 H4 H5]. split; try done; simpl.
    + rewrite map_ids; [done|]. intros b'. unfold revoke. by case_match.
    + intros b' (b0 & <- & Hin)%in_map_iff. unfold revoke. case_match; [done|]. by apply H4.
  - intros q p w. rewrite !power_iff. intros (r & b' & Hr & (b0 & <- & Hin)%in_map_iff & Hh & Hg). left.
    exists r, b0. split_and!; try done. revert Hh. unfold revoke. case_match; [|done].
    intros [Hx _]%holds_binding_iff. discriminate Hx.
  - intros (u & Hu & Hadm).
    assert (exists u', In u' (users db) /\ is_administrator db u' = true
              /\ (role_id = ADMIN_ROLE -> User (u_id u') <> who)) as (u' & Hu' & Hadm' & Hne).
    { destruct (decide (role_id = ADMIN_ROLE)) as [->|]; [|by exists u].
      destruct (decide (User (u_id u) = who)) as [<-|]; [|by exists u].
      assert (enabled_user db (User (u_id u)) = true) as Hen.
      { simpl. apply existsb_exists. exists u. rewrite String.eqb_refl.
        apply is_administrator_iff in Hadm as [-> _]. done. }
      rewrite Hen in Elast. simpl in Elast. apply (other_administrator db (u_id u)) in Elast as (u' & ? & ? & ?); [|done].
      exists u'. split_and!; [done..|]. intros _ [=]. done. }
    exists u'. split; [done|]. apply is_administrator_iff in Hadm' as (He & b' & Hb' & Hh').
    apply is_administrator_iff. split; [done|]. exists b'. split; [|done]. simpl. apply in_map_iff. exists b'.
    split; [|done]. unfold revoke. destruct (String.eqb_spec (b_id b') (b_id b)) as [E|]; [|done]. exfalso.
    apply (unique_binding db) in E as ->; try done. apply holds_binding_iff in Hh' as (_ & Ep & Er).
    apply Hne; congruence.
Qed.

(** ** Requests on people *)

Lemma in_update_user user_id f db u :
  In u (users db) -> In (if String.eqb (u_id u) user_id then f u else u) (users (update_user user_id f db)).
Proof. intros Hu. simpl. apply in_map_iff. by exists u. Qed.

Lemma has_admin_update user_id f db db' :
  (forall u, u_id (f u) = u_id u) -> users db' = users (update_user user_id f db) -> bindings db' = bindings db ->
  (exists u, In u (users db) /\ is_administrator db u = true /\ (u_id u = user_id -> u_enabled (f u) = u_enabled u)) ->
  has_admin db'.
Proof.
  intros Hid Hu Hb (u & Hin & (He & b & Hinb & Hh)%is_administrator_iff & Hen).
  exists (if String.eqb (u_id u) user_id then f u else u). split.
  { rewrite Hu. by apply in_update_user. }
  apply is_administrator_iff. destruct (String.eqb_spec (u_id u) user_id) as [E|E].
  - split; [by rewrite Hen|]. exists b. by rewrite Hb, Hid.
  - split; [done|]. exists b. by rewrite Hb.
Qed.

(** Changing a user's row, when an enabled Administrator keeps being enabled. *)
Lemma good_update_user a user_id f db db' :
  wf db -> (forall u, u_id (f u) = u_id u) ->
  roles db' = roles db -> bindings db' = bindings db -> accounts db' = accounts db ->
  users db' = users (update_user user_id f db) ->
  (has_admin db -> exists u, In u (users db) /\ is_administrator db u = true
     /\ (u_id u = user_id -> u_enabled (f u) = u_enabled u)) ->
  good a db db'.
Proof.
  intros Hwf Hid Hr Hb Ha Hu Hadm. apply good_same; try done.
  - rewrite Hu. by apply update_user_ids.
  - intros H%Hadm. by eapply has_admin_update.
Qed.

Lemma disable_good a db user_id now :
  wf db -> good a db (disable_local_user user_id a now db).2.
Proof.
  intros Hwf. unfold disable_local_user. destruct (_ && (_ <=? 1)) eqn:Elast; [by apply good_refl|].
  match goal with |- good _ _ (if ?c then _ else _).2 => destruct c end; [|by apply good_refl].
  simpl. apply good_audit. apply (good_update_user a user_id (set_enabled false 1)); try done.
  intros (u & Hu & Hadm). destruct (decide (u_id u = user_id)) as [E|E]; [|by exists u].
  assert (existsb (fun u => String.eqb (u_id u) user_id && is_administrator db u) (users db) = true) as Hex.
  { apply existsb_exists. exists u. by rewrite E, String.eqb_refl. }
  rewrite Hex in Elast. simpl in Elast. apply (other_administrator db user_id) in Elast as (u' & ? & ? & ?); [|done].
  by exists u'.
Qed.

Lemma enable_good a db user_id : wf db -> good a db (enable_user user_id a db).2.
Proof.
  intros Hwf. unfold enable_user. destruct (existsb _ _); [|by apply good_refl]. simpl. apply good_audit.
  apply (good_update_user a user_id (set_enabled true 0)); try done.
  intros (u & Hu & Hadm). exists u. split_and!; [done..|]. intros _. by apply is_administrator_iff in Hadm as [-> _].
Qed.

Lemma reset_good a db user_id phc now : wf db -> good a db (reset_password user_id phc a now db).2.
Proof.
  intros Hwf. unfold reset_password. destruct (existsb _ _); [|by apply good_refl]. simpl. apply good_audit.
  apply (good_update_user a user_id (with_password phc)); try done.
  intros (u & Hu & Hadm). by exists u.
Qed.

Lemma set_details_good a db user_id name e : wf db -> good a db (set_details pg_space user_id name e a db).2.
Proof.
  intros Hwf. unfold set_details. destruct (negb _); [by apply good_refl|].
  destruct (_ && _); [|by apply good_refl]. simpl. apply good_audit.
  apply (good_update_user a user_id (with_details name e)); try done. intros (u & Hu & Hadm). by exists u.
Qed.

(** ** Adding a person *)

Lemma good_trans a db1 db2 db3 : good a db1 db2 -> good a db2 db3 -> good a db1 db3.
Proof.
  intros (H1 & H2 & H3) (I1 & I2 & I3). split; [done|]. split; [|by intros ?%H3%I3].
  intros who p w [Hp|Hp]%I2; apply H2 in Hp as [?|?]; [by left|by right..].
Qed.

(** The editor is allowed what the roles of these ids allow. *)
Definition may_give (a : string) (db : Db) (ids : list string) : Prop :=
  forall id r p w, In id ids -> In r (roles db) -> r_id r = id -> grant_allows (grant_of r) p w -> power db (User a) p w.

Lemma power_mono db db' who p w :
  roles db' = roles db -> (forall b, In b (bindings db) -> In b (bindings db')) -> power db who p w -> power db' who p w.
Proof. intros Hr Hb. rewrite !power_iff, Hr. intros (r & b & ? & ? & ?). exists r, b. auto. Qed.

Lemma may_give_mono a db db' ids :
  roles db' = roles db -> (forall b, In b (bindings db) -> In b (bindings db')) -> may_give a db ids -> may_give a db' ids.
Proof.
  intros Hr Hb H id r p w Hid Hin E Hg. rewrite Hr in Hin. apply (power_mono db); [done..|]. by eapply H.
Qed.

Lemma bind_grows who role_id a now db :
  let db' := (bind gen who role_id a now db).2 in
  roles db' = roles db /\ users db' = users db /\ (forall b, In b (bindings db) -> In b (bindings db')).
Proof.
  unfold bind. destruct (_ && _); simpl; [|done]. split_and!; [done..|]. intros b Hb. apply in_or_app. by left.
Qed.

Lemma bind_all_good a who ids now db :
  wf db -> may_give a db ids -> good a db (bind_all gen who ids a now db).
Proof.
  revert db. induction ids as [|id ids IH]; intros db Hwf Hg; simpl; [by apply good_refl|].
  assert (good a db (bind gen who id a now db).2) as Hb.
  { apply good_bind; [done|]. intros r p w Hr E Ha. apply (Hg id r); [by left|done..]. }
  eapply good_trans; [exact Hb|]. destruct (bind_grows who id a now db) as (Hr & _ & Hbs).
  apply IH; [apply Hb|]. apply (may_give_mono a db); [done..|]. intros id' r p w Hid. apply (Hg id' r p w). by right.
Qed.

Lemma insert_local_user_good a n now db db' :
  wf db -> may_give a db [nu_role_id n] -> insert_local_user n a now db = Some db' ->
  good a db db' /\ roles db' = roles db /\ (forall b, In b (bindings db) -> In b (bindings db')).
Proof.
  intros Hwf Hg. unfold insert_local_user. destruct (_ || _) eqn:E; [done|].
  rewrite !orb_false_iff in E. destruct E as [[[[_ Hid] _] Hrole] Hbid]. apply negb_false_iff, str_mem_In in Hrole.
  apply Bool.not_true_iff_false in Hid, Hbid. rewrite str_mem_In in Hid, Hbid.
  intros H. injection H as <-. split; [|split; [done|]; intros b Hb; simpl; apply in_or_app; by left].
  apply good_audit. split; [|split].
  - destruct Hwf as [H1 H2 H3 H4 H5]. split; try done; simpl.
    + rewrite map_app. apply NoDup_app. split; [done|]. split; [|apply NoDup_singleton].
      intros x Hx%list_elem_of_In Hx'%list_elem_of_singleton. by subst x.
    + rewrite map_app. apply NoDup_app. split; [done|]. split; [|apply NoDup_singleton].
      intros x Hx%list_elem_of_In Hx'%list_elem_of_singleton. by subst x.
    + intros b [Hin|[<-|[]]]%in_app_or Hact; simpl.
      * destruct (H4 b Hin Hact) as [He Hp]. split; [done|]. destruct (b_principal b); simpl in *; [|done].
        by rewrite existsb_app, Hp.
      * split; [done|]. rewrite existsb_app. simpl. by rewrite String.eqb_refl, !orb_true_r.
  - intros q p w. rewrite power_iff. intros (r & b & Hin & Hb & Hh & Ha). simpl in *.
    apply in_app_or in Hb as [Hb|[<-|[]]]; [left; apply power_iff; eauto 6|].
    right. apply holds_binding_iff in Hh as (_ & _ & E). simpl in E. apply (Hg (nu_role_id n) r); [by left|done..].
  - intros (u & Hu & (He & b & Hb & Hh)%is_administrator_iff). exists u. simpl. split; [apply in_or_app; by left|].
    apply is_administrator_iff. split; [done|]. exists b. simpl. split; [apply in_or_app; by left|done].
Qed.

Lemma create_user_good a n e more now db db' :
  wf db -> may_give a db (nu_role_id n :: more) -> create_user pg_space gen n e more a now db = Some db' ->
  good a db db'.
Proof.
  intros Hwf Hg. unfold create_user. destruct (insert_local_user n a now db) as [db1|] eqn:Ei; [|done].
  assert (may_give a db [nu_role_id n]) as Hg1.
  { intros id r p w [<-|[]]. apply (Hg (nu_role_id n) r p w). by left. }
  apply insert_local_user_good in Ei as (Hgood & Hr & Hb); [|done..].
  assert (may_give a db1 more) as Hg2.
  { apply (may_give_mono a db); [done..|]. intros id r p w Hid. apply (Hg id r p w). by right. }
  destruct e as [e|].
  - destruct (email_stored pg_space e); [|done]. intros H. injection H as <-.
    set (db2 := update_user (nu_user_id n) (with_email (Some e)) db1).
    assert (good a db1 db2) as Hu.
    { apply (good_update_user a (nu_user_id n) (with_email (Some e))); try done; [apply Hgood|].
      intros (u & Hu & Hadm). by exists u. }
    eapply good_trans; [exact Hgood|]. eapply good_trans; [exact Hu|].
    apply bind_all_good; [apply Hu|]. by apply (may_give_mono a db1).
  - intros H. injection H as <-. eapply good_trans; [exact Hgood|]. apply bind_all_good; [apply Hgood|done].
Qed.

Lemma list_roles_find db id role :
  find (fun r => String.eqb (sr_role_id r) id) (list_roles lower db) = Some role ->
  exists r, In r (roles db) /\ r_id r = id /\ role = stored db r.
Proof.
  intros [Hin E%String.eqb_eq]%find_some. unfold list_roles in Hin. apply in_map_iff in Hin as (r & <- & Hr).
  exists r. split; [by apply (sort_by_In (role_order lower))|done].
Qed.

Lemma roles_refused_give a db ids :
  wf db -> roles_refused lower (caller db a) db ids = None -> may_give a db ids.
Proof.
  intros Hwf. induction ids as [|id ids IH]; simpl; [intros _ ? ? ? ? []|].
  destruct (find _ _) as [role|] eqn:Ef; [|discriminate].
  destruct (role_fits (caller db a) role) eqn:Er; [discriminate|]. intros H id' r p w [<-|Hid]; [|by apply IH].
  apply list_roles_find in Ef as (r' & Hr' & E' & ->). intros Hr E Hg.
  assert (r = r') as -> by (apply (unique_role db); congruence). by eapply role_fits_power.
Qed.

(** ** Every request *)

Lemma managed_actor target a db editor p : managed lower target a db = inr (editor, p) -> actor editor = a.
Proof.
  unfold managed. destruct (denied _ _); [discriminate|]. destruct (visible_person _ _ _ _); [discriminate|].
  intros H. by injection H as <- _.
Qed.

Lemma create_person_good a request password phc now db :
  wf db -> good a db (create_person lower pg_space gen request password phc a now db).2.
Proof.
  intros Hwf. unfold create_person. destruct (denied _ _); [by apply good_refl|].
  destruct (canonical_username _) as [username|]; [|by apply good_refl].
  destruct (display_name _) as [name|]; [|by apply good_refl].
  destruct (match c_email request with None => _ | Some _ => _ end) as [|e]; [by apply good_refl|].
  destruct (bs_of_list _ _) as [|first more]; [by apply good_refl|]. destruct (64 <? _)%nat; [by apply good_refl|].
  destruct (roles_refused _ _ _ _) eqn:Er; [by apply good_refl|]. destruct (username_taken _ _); [by apply good_refl|].
  apply roles_refused_give in Er; [|done]. destruct (create_user _ _ _ _ _ _ _ _) as [db'|] eqn:Ec; simpl.
  - apply (good_trans_same a db (drawn (drawn db))); try done. eapply create_user_good; [..|exact Ec].
    + by apply (wf_same db).
    + by apply (may_give_mono a db).
  - by apply good_same_users.
Qed.

Lemma change_good a holder role_id give now db :
  wf db -> good a db (change lower gen holder role_id give a now db).2.
Proof.
  intros Hwf. unfold change. destruct (denied _ _); [by apply good_refl|].
  destruct (holder_principal _ _ _ _ _) as [|who]; [by apply good_refl|].
  destruct (read_role db role_id) as [role|] eqn:Er; [|by apply good_refl].
  destruct (role_fits (caller db a) role) eqn:Ef; [by apply good_refl|].
  unfold read_role in Er. destruct (find_role db role_id) as [r0|] eqn:Efr; [|discriminate]. injection Er as <-.
  apply find_role_In in Efr as [Hr0 E0]. destruct give.
  - pose proof (give_role_good a db who role_id now Hwf) as H. simpl actor in *.
    destruct (give_role gen who role_id a now db) as [[] db']; simpl in *; apply H; intros r p w Hr E Hg;
      (assert (r = r0) as -> by (apply (unique_role db); congruence)); by eapply role_fits_power.
  - pose proof (remove_role_good a db who role_id now Hwf) as H. simpl actor in *.
    destruct (remove_role who role_id a now db) as [[] db']; exact H.
Qed.

Lemma update_role_request_good a role_id request db :
  wf db -> good a db (update_role_request lower role_id request a db).2.
Proof.
  intros Hwf. unfold update_role_request. destruct (denied _ _); [by apply good_refl|].
  destruct (String.eqb_spec role_id ADMIN_ROLE) as [|Hn]; [by apply good_refl|].
  destruct (s_version request) as [version|]; [|by apply good_refl].
  destruct (checked_new request) as [|role] eqn:Ek; [by apply good_refl|].
  destruct (stored_role_fits _ _ _ _); [by apply good_refl|].
  destruct (within_share _ _ _) eqn:Es; [by apply good_refl|].
  pose proof (update_role_good a role_id version (input_of role) db Hwf Hn) as H. simpl actor.
  destruct (update_role _ _ _ _ _ _) as [written db']. apply H. intros p w. by eapply checked_inside.
Qed.

Lemma handle_good now a request db : wf db -> good a db (handle lower pg_space gen now a request db).2.
Proof.
  intros Hwf. destruct request; simpl.
  - unfold create_role_request. destruct (denied _ _); [by apply good_refl|].
    destruct (checked_new _) as [|role]; [by apply good_refl|]. destruct (within_share _ _ _); [by apply good_refl|].
    pose proof (create_role_good a (input_of role) db Hwf) as H. simpl actor.
    destruct (create_role _ _ _ _ _) as [written db']. exact H.
  - by apply update_role_request_good.
  - unfold delete_role_request. destruct (denied _ _); [by apply good_refl|].
    destruct (String.eqb_spec role_id ADMIN_ROLE) as [|Hn]; [by apply good_refl|].
    destruct (stored_role_fits _ _ _ _); [by apply good_refl|].
    pose proof (delete_role_good a role_id now db Hwf Hn) as H. simpl actor.
    destruct (delete_role _ _ _ _) as [[[]|] db']; exact H.
  - by apply change_good.
  - by apply create_person_good.
  - unfold update_person. destruct (if String.eqb _ _ then _ else _); [by apply good_refl|].
    destruct (match up_display_name request with None => _ | Some _ => _ end) as [name|]; [|by apply good_refl].
    destruct (match up_email request with None => _ | Some _ => _ end) as [|e]; [by apply good_refl|].
    destruct (visible_person _ _ _ _) as [|p]; [by apply good_refl|]. destruct (String.eqb _ "sso"); [by apply good_refl|].
    pose proof (set_details_good a db (u_id (p_user p)) name e Hwf) as H. simpl actor.
    destruct (set_details _ _ _ _ _ _) as [[[]|] db']; exact H.
  - unfold disable_person. destruct (managed _ _ _ _) as [|[editor p]] eqn:Em; [by apply good_refl|].
    destruct (String.eqb _ _); [by apply good_refl|].
    assert (actor editor = a) as -> by by apply managed_actor in Em.
    pose proof (disable_good a db (u_id (p_user p)) now Hwf) as H.
    destruct (disable_local_user _ _ _ _) as [[] db']; exact H.
  - unfold enable_person. destruct (managed _ _ _ _) as [|[editor p]] eqn:Em; [by apply good_refl|].
    assert (actor editor = a) as -> by by apply managed_actor in Em. by apply enable_good.
  - unfold reset_password_request. destruct (managed _ _ _ _) as [|[editor p]] eqn:Em; [by apply good_refl|].
    assert (actor editor = a) as -> by by apply managed_actor in Em.
    destruct (String.eqb _ _); [by apply good_refl|]. destruct (String.eqb _ "sso"); [by apply good_refl|].
    pose proof (reset_good a db (u_id (p_user p)) phc now Hwf) as H.
    destruct (reset_password _ _ _ _ _) as [[] db']; exact H.
Qed.
End requests.

(** ** Refusals *)

(** The same rows everywhere: at most random ids were drawn. *)
Definition same_tables (db db' : Db) : Prop :=
  users db' = users db /\ accounts db' = accounts db /\ roles db' = roles db /\ bindings db' = bindings db
  /\ dashboards db' = dashboards db /\ sessions db' = sessions db /\ audit_log db' = audit_log db.

Definition unsaved (w : option RoleWrite) : Prop := match w with Some (Saved _) => False | _ => True end.

Lemma answer_problem status w p : answer status w = Problem p -> unsaved w.
Proof. by destruct w as [[]|]. Qed.

Lemma commit_unsaved before w db :
  commit_saved before w = db -> unsaved db.1 -> same_tables before db.2.
Proof. intros <-. by destruct w as [[[] db']|]. Qed.

Section refusals.
Variable lower : string -> string.
Variable pg_space : Z -> bool.
Variable gen : nat -> string.

Lemma create_role_unsaved input a db :
  unsaved (create_role lower gen input a db).1 -> same_tables db (create_role lower gen input a db).2.
Proof.
  intros H. unfold create_role in *. eapply (commit_unsaved (drawn db)); [reflexivity|exact H].
Qed.

Lemma update_role_unsaved role_id version input a db :
  unsaved (update_role lower role_id version input a db).1 ->
  same_tables db (update_role lower role_id version input a db).2.
Proof.
  unfold update_role. destruct (locked _ _); [done|]. destruct (negb _); [done|]. destruct (i32_max <=? _); [done|].
  intros H. by eapply (commit_unsaved db).
Qed.

Lemma delete_role_unsaved role_id a now db :
  unsaved (delete_role role_id a now db).1 -> same_tables db (delete_role role_id a now db).2.
Proof.
  unfold delete_role. destruct (locked _ _); [done|]. destruct (read_role _ _); [|done]. by destruct (0 <? _).
Qed.

Lemma refused_same now a request db p :
  (handle lower pg_space gen now a request db).1 = Problem p ->
  same_tables db (handle lower pg_space gen now a request db).2.
Proof.
  destruct request; simpl.
  - unfold create_role_request. destruct (denied _ _); [done|]. destruct (checked_new _) as [|role]; [done|].
    destruct (within_share _ _ _); [done|]. pose proof (create_role_unsaved (input_of role) a db) as H. simpl actor.
    destruct (create_role _ _ _ _ _) as [written db']. intros E%answer_problem. by apply H.
  - unfold update_role_request. destruct (denied _ _); [done|]. destruct (String.eqb _ _); [done|].
    destruct (s_version request) as [version|]; [|done]. destruct (checked_new request) as [|role]; [done|].
    destruct (stored_role_fits _ _ _ _); [done|]. destruct (within_share _ _ _); [done|].
    pose proof (update_role_unsaved role_id version (input_of role) a db) as H. simpl actor.
    destruct (update_role _ _ _ _ _ _) as [written db']. intros E%answer_problem. by apply H.
  - unfold delete_role_request. destruct (denied _ _); [done|]. destruct (String.eqb _ _); [done|].
    destruct (stored_role_fits _ _ _ _); [done|]. pose proof (delete_role_unsaved role_id a now db) as H. simpl actor.
    destruct (delete_role _ _ _ _) as [[[]|] db']; try (intros _; by apply H); discriminate.
  - unfold change. destruct (denied _ _); [done|]. destruct (holder_principal _ _ _ _ _) as [|who]; [done|].
    destruct (read_role _ _); [|done]. destruct (role_fits _ _); [done|]. destruct give.
    + unfold give_role. destruct (bind _ _ _ _ _ _) as [[] db']; [discriminate|]. by destruct (existsb _ _).
    + unfold remove_role. destruct (find _ _); [|discriminate]. destruct (_ && _); [done|discriminate].
  - unfold create_person. destruct (denied _ _); [done|]. destruct (canonical_username _); [|done].
    destruct (display_name _); [|done]. destruct (match c_email request with None => _ | Some _ => _ end); [done|].
    destruct (bs_of_list _ _); [done|]. destruct (64 <? _)%nat; [done|]. destruct (roles_refused _ _ _ _); [done|].
    destruct (username_taken _ _); [done|]. by destruct (create_user _ _ _ _ _ _ _ _).
  - unfold update_person. destruct (if String.eqb _ _ then _ else _); [done|].
    destruct (match up_display_name request with None => _ | Some _ => _ end); [|done].
    destruct (match up_email request with None => _ | Some _ => _ end); [done|].
    destruct (visible_person _ _ _ _); [done|]. destruct (String.eqb _ "sso"); [done|].
    unfold set_details. destruct (negb _); [done|]. by destruct (_ && _).
  - unfold disable_person. destruct (managed _ _ _ _) as [|[editor q]]; [done|]. destruct (String.eqb _ _); [done|].
    unfold disable_local_user. destruct (_ && (_ <=? 1)); [done|].
    by match goal with |- context [if ?c then (Disabled, _) else _] => destruct c end.
  - unfold enable_person. by destruct (managed _ _ _ _) as [|[editor q]].
  - unfold reset_password_request. destruct (managed _ _ _ _) as [|[editor q]]; [done|].
    destruct (String.eqb _ _); [done|]. destruct (String.eqb _ "sso"); [done|].
    unfold reset_password. by destruct (existsb _ _).
Qed.

(** ** Properties *)

(** C1: nobody gains by asking.  After any sequence of requests made by a set of people, whatever a
    person or service account is allowed, it was allowed before, or one of those people was: no
    requests, alone or together, give more than their makers had, themselves included. *)
Theorem no_escalation (people : string -> Prop) db db' who p w :
  wf db -> rtc (step lower pg_space gen people) db db' ->
  power db' who p w -> power db who p w \/ exists a, people a /\ power db (User a) p w.
Proof.
  intros Hwf Hr. revert who. induction Hr as [db|db1 db2 db3 (now & a & request & Ha & ->) _ IH]; intros who Hp;
    [by left|].
  destruct (handle_good lower pg_space gen now a request db1 Hwf) as (Hwf2 & Hpow & _).
  destruct (IH Hwf2 who Hp) as [H|(a' & Ha' & H)]; apply Hpow in H as [H|H].
  - left. exact H.
  - right. exists a. split; [exact Ha|exact H].
  - right. exists a'. split; [exact Ha'|exact H].
  - right. exists a. split; [exact Ha|exact H].
Qed.

(** C7: the tables stay well formed and an enabled Administrator remains: after any requests, role,
    user and binding ids are unique, every active binding names an existing role and principal,
    Administrator still has every permission on every host, and somebody enabled holds it. *)
Theorem administrator_remains db db' :
  wf db -> 1 <= enabled_administrators db -> rtc (step lower pg_space gen (fun _ => True)) db db' ->
  wf db' /\ 1 <= enabled_administrators db'.
Proof.
  assert (forall db, 1 <= enabled_administrators db <-> has_admin db) as E.
  { intros d. unfold enabled_administrators, has_admin. split.
    - destruct (List.filter _ _) as [|u l] eqn:El; simpl; [lia|]. intros _. exists u. apply filter_In. rewrite El. by left.
    - intros (u & Hu & Hadm). assert (In u (List.filter (is_administrator d) (users d))) as Hin by by apply filter_In.
      destruct (List.filter _ _); simpl in *; [done|lia]. }
  rewrite !E. intros Hwf Ha Hr. induction Hr as [|db1 db2 db3 (now & a & request & _ & ->) _ IH]; [done|].
  destruct (handle_good lower pg_space gen now a request db1 Hwf) as (Hwf2 & _ & Hadm). auto.
Qed.

(** A request that is answered with a problem changes nothing: no user, role, binding,
    dashboard, session or audit row. *)
Theorem refusal_changes_nothing now a request db p :
  (handle lower pg_space gen now a request db).1 = Problem p ->
  same_tables db (handle lower pg_space gen now a request db).2.
Proof. apply refused_same. Qed.
End refusals.

(** ** Saving a role *)

Lemma first_missing_None set l p n :
  first_missing set l = None -> In p l -> needs p n -> In n set.
Proof.
  induction l as [|q l IH]; simpl; [done|]. destruct (find _ _) eqn:E; [discriminate|].
  intros H [->|Hp] Hn; [|by apply IH]. eapply find_none in E; [|exact Hn].
  apply negb_false_iff in E. by apply perm_mem_In.
Qed.

Lemma checked_closed request k :
  checked_new request = inr k ->
  (forall p, In p (k_ids k) <-> In p (s_permissions request))
  /\ forall p n, In p (k_ids k) -> needs p n -> In n (k_ids k).
Proof.
  unfold checked_new. destruct (_ || _); [discriminate|]. destruct (_ <? _); [discriminate|].
  destruct (first_missing _ _) as [[]|] eqn:E; [discriminate|]. destruct (checked_reach _); [discriminate|].
  intros H. injection H as <-. simpl. split; [intros p; apply (bs_of_list_In perm_cmp)|].
  intros p n. by apply first_missing_None.
Qed.

Lemma find_role_map db id role_id f :
  (forall r, r_id (f r) = r_id r) ->
  find_role (update_role_row role_id f db) id
  = (if String.eqb id role_id then f <$> find_role db id else find_role db id).
Proof.
  intros Hid. unfold find_role. simpl. induction (roles db) as [|r l IH]; simpl; [by destruct (String.eqb id role_id)|].
  destruct (String.eqb_spec (r_id r) role_id) as [E|E]; rewrite ?Hid;
    destruct (String.eqb_spec (r_id r) id) as [E'|E']; subst; rewrite ?String.eqb_refl; try done.
  by rewrite (proj2 (String.eqb_neq _ _)) by congruence.
Qed.

(** A saved role is exactly what was asked, by somebody who may.  When an edit is answered with
    the role, it was made against the stored version; the role as stored and as asked allow nothing
    the editor is not allowed; the permissions asked are closed under needs; and the role alone
    changed, to the contents asked with the next version. *)
Theorem update_role_exact lower role_id request a db status role db' :
  wf db -> update_role_request lower role_id request a db = (Role status role, db') ->
  exists r k, find_role db role_id = Some r /\ checked_new request = inr k
    /\ s_version request = Some (r_version r) /\ role_id <> ADMIN_ROLE
    /\ (forall p, In p (k_ids k) <-> In p (s_permissions request))
    /\ (forall p n, In p (k_ids k) -> needs p n -> In n (k_ids k))
    /\ (forall p w, grant_allows (grant_of r) p w -> power db (User a) p w)
    /\ (forall p w, In p (k_ids k) -> reach_allows (k_reach k) p w -> power db (User a) p w)
    /\ (forall id, find_role db' id = if String.eqb id role_id then Some (with_contents (input_of k) (bump r))
                                      else find_role db id)
    /\ bindings db' = bindings db /\ users db' = users db.
Proof.
  intros Hwf. unfold update_role_request. destruct (denied _ _); [discriminate|].
  destruct (String.eqb_spec role_id ADMIN_ROLE) as [|Hn]; [discriminate|].
  destruct (s_version request) as [version|]; [|discriminate].
  destruct (checked_new request) as [|k] eqn:Ek; [discriminate|].
  destruct (stored_role_fits _ _ _ _) as [e|] eqn:Ef; [intros H; injection H as -> _; exfalso|].
  { unfold stored_role_fits in Ef. destruct (read_role _ _); [|discriminate]. destruct (negb _); [discriminate|].
    by destruct (role_fits _ _). }
  destruct (within_share _ _ _) eqn:Es; [discriminate|]. unfold update_role, locked. simpl actor.
  rewrite (proj2 (String.eqb_neq role_id PROTECTED)) by done.
  unfold stored_role_fits, read_role in Ef. destruct (find_role db role_id) as [r|] eqn:Er; [|discriminate].
  simpl in Ef. destruct (Z.eqb_spec version (r_version r)) as [->|]; [|discriminate]. simpl in Ef.
  destruct (role_fits _ _) eqn:Erf; [discriminate|]. rewrite Z.eqb_refl. simpl.
  destruct (i32_max <=? _); [discriminate|].
  destruct (write_contents _ _ _ _ _ _) as [[[] db1]|] eqn:Ew; try discriminate. intros H. injection H as _ <- <-.
  apply write_contents_saved in Ew as [-> _]. pose proof (checked_closed request k Ek) as [Hids Hcl].
  apply find_role_In in Er as Hr. destruct Hr as [Hr Eid]. exists r, k. repeat (split; [done|]).
  split; [intros p w; by apply role_fits_power|].
  split; [intros p w Hp Hw; apply (checked_inside a db request k); [done..| |done]|].
  { unfold checked_new in Ek. destruct (_ || _); [discriminate|]. destruct (_ <? _); [discriminate|].
    destruct (first_missing _ _) as [[]|]; [discriminate|]. destruct (checked_reach _); [discriminate|].
    injection Ek as <-. simpl in *. by apply in_map. }
  split; [|done]. intros id.
  transitivity (find_role (update_role_row role_id (with_contents (input_of k)) (update_role_row role_id bump db)) id);
    [done|]. rewrite !find_role_map by done. destruct (String.eqb_spec id role_id) as [->|]; [|done]. by rewrite Er.
Qed.

(** ** Examples *)

Definition ex_user (id name : string) : UserRow :=
  {| u_id := id; u_username := name; u_display_name := name; u_email := None; u_enabled := true;
     u_auth_source := "password"; u_password := Some "phc"; u_must_change := false; u_generation := 0 |}.
Definition ex_root := "00000000-0000-4000-8000-000000000001".
Definition ex_lead := "00000000-0000-4000-8000-000000000002".
Definition ex_bob := "00000000-0000-4000-8000-000000000003".
Definition ex_lab := "00000000-0000-4000-8000-00000000000a".
Definition ex_role (id name : string) (builtin all_hosts : bool) (permissions groups : list string) : RoleRow :=
  {| r_id := id; r_name := name; r_description := ""; r_builtin := builtin; r_all_hosts := all_hosts;
     r_version := 1; r_permissions := permissions; r_groups := groups |}.
Definition ex_lead_permissions : list Permission := [HostsRead; AccessRead; AccessUsers; AccessRoles; AccessGrant].
Definition ex_db : Db :=
  {| users := [ex_user ex_root "root"; ex_user ex_lead "lead"; ex_user ex_bob "bob"]; accounts := [];
     roles := [ex_role "admin" "Administrator" true true (map perm_id ALL) [];
               ex_role "r_lead" "Lead" false false (map perm_id ex_lead_permissions) [ex_lab]];
     bindings := [new_binding "b1" (User ex_root) "admin" "cli" 0; new_binding "b2" (User ex_lead) "r_lead" ex_root 0];
     dashboards := [{| d_id := "d"; d_visibility := "roles"; d_roles := ["r_lead"]; d_version := 1; d_updated_at := 0 |}];
     sessions := [{| s_digest := [1]; s_csrf := [2]; s_user := ex_bob; s_generation := 0; s_created_at := 0; s_last_seen_at := 0;
                     s_idle_expires_at := 100; s_absolute_expires_at := 200; s_revoked_at := None |}]; audit_log := [];
     console_permissions := map perm_id ALL; asset_groups := [ex_lab]; draws := 0 |}.
Definition ex_gen (n : nat) : string := String (Ascii.ascii_of_nat (97 + n)) EmptyString.
Definition ex_handle (a : string) (request : Request) (db : Db) : Response * Db :=
  handle to_ascii_lowercase is_whitespace ex_gen 7 a request db.
Definition ex_save (name : string) (permissions : list Permission) (r : Reach) (version : option Z) : SaveRole :=
  {| s_name := name; s_description := ""; s_permissions := permissions; s_reach := r; s_version := version |}.
Definition code_of (r : Response) : string * Z :=
  match r with
  | Problem p => (pb_code p, pb_status p)
  | Done s | Role s _ => ("", s)
  | CreatedUser _ _ _ _ _ => ("created", 201)
  | OneTimePassword _ => ("password", 200)
  end.
Definition ex_codes (l : list (string * Request)) : list (string * Z) :=
  map (fun r => code_of (ex_handle r.1 r.2 ex_db).1) l.

(** A lead of one group gives, edits and adds people only inside the group; nobody changes their
    own roles; the last Administrator stays; and a username the check of the request accepts but
    the table does not is answered as unavailable. *)
Example access_vectors :
  ex_codes [(ex_lead, ChangeRole (HUser ex_bob) "r_lead" true); (ex_lead, ChangeRole (HUser ex_bob) "admin" true);
            (ex_lead, ChangeRole (HUser ex_lead) "r_lead" false); (ex_lead, ChangeRole (HUser ex_root) "r_lead" true);
            (ex_bob, ChangeRole (HUser ex_lead) "r_lead" false); (ex_root, ChangeRole (HUser ex_lead) "r_lead" false)]
  = [("", 204); ("permission_denied", 403); ("permission_denied", 403); ("user_not_found", 404);
     ("permission_denied", 403); ("", 204)]
  /\ ex_codes [(ex_lead, CreateRole (ex_save " Lab " [HostsRead] (ReachGroups [ex_lab]) None));
               (ex_lead, CreateRole (ex_save "All" [HostsRead] ReachAll None));
               (ex_lead, CreateRole (ex_save "lead" [HostsRead] ReachNone None));
               (ex_lead, CreateRole (ex_save "Needs" [HostsLabel] ReachNone None));
               (ex_lead, UpdateRole "r_lead" (ex_save "Lead" [AccessRead] ReachNone (Some 1)));
               (ex_lead, UpdateRole "r_lead" (ex_save "Lead" [AccessRead] ReachNone (Some 2)));
               (ex_root, UpdateRole "admin" (ex_save "Lead" [AccessRead] ReachNone (Some 1)));
               (ex_root, DeleteRole "r_lead")]
     = [("", 201); ("permission_denied", 403); ("role_name_taken", 409); ("missing_needs", 422); ("", 200);
        ("stale_role", 409); ("protected_role", 403); ("role_in_use", 409)]
  /\ ex_codes [(ex_root, DisablePerson ex_root); (ex_root, DisablePerson ex_lead); (ex_lead, DisablePerson ex_root);
               (ex_lead, ResetPassword ex_bob "pw" "phc"); (ex_lead, EnablePerson ex_bob)]
     = [("permission_denied", 403); ("", 204); ("user_not_found", 404); ("password", 200); ("", 204)]
  /\ ex_codes (map (fun name => (ex_lead, CreatePerson {| c_username := name; c_display_name := "N";
                  c_role_ids := ["r_lead"]; c_email := None |} "pw" "phc")) ["Zoe"; "Bob"; ".zoe"; "a b"])
     = [("created", 201); ("user_conflict", 409); ("authentication_unavailable", 503); ("invalid_user", 400)].
Proof. vm_compute. done. Qed.

Lemma ex_wf : wf ex_db.
Proof.
  split.
  - by apply (bool_decide_unpack _); vm_compute.
  - by apply (bool_decide_unpack _); vm_compute.
  - by apply (bool_decide_unpack _); vm_compute.
  - intros b [<-|[<-|[]]] _; (split; [vm_compute; tauto|by vm_compute]).
  - exists (ex_role "admin" "Administrator" true true (map perm_id ALL) []). split; [by left|]. split; [done|].
    split; [done|]. intros p. apply in_map, ALL_In.
Qed.

Definition ex_given : Db := (ex_handle ex_lead (ChangeRole (HUser ex_bob) "r_lead" true) ex_db).2.
Lemma ex_given_step : step to_ascii_lowercase is_whitespace ex_gen (fun a => a = ex_lead) ex_db ex_given.
Proof. by exists 7, ex_lead, (ChangeRole (HUser ex_bob) "r_lead" true). Qed.
Lemma ex_given_power : power ex_given (User ex_bob) HostsRead (Some ex_lab).
Proof.
  exists {| cap_permission := HostsRead; cap_scope := AssetGroups [ex_lab] |}.
  split; [vm_compute; tauto|]. split; [done|]. exists ex_lab. simpl. auto.
Qed.

Lemma no_escalation_witness :
  power ex_db (User ex_bob) HostsRead (Some ex_lab)
  \/ exists a, a = ex_lead /\ power ex_db (User a) HostsRead (Some ex_lab).
Proof.
  apply (no_escalation to_ascii_lowercase is_whitespace ex_gen (fun a => a = ex_lead) ex_db ex_given).
  - exact ex_wf.
  - apply rtc_once. exact ex_given_step.
  - exact ex_given_power.
Defined.

Definition ex_disabled : Db := (ex_handle ex_root (DisablePerson ex_lead) ex_db).2.
Lemma administrator_remains_witness : wf ex_disabled /\ 1 <= enabled_administrators ex_disabled.
Proof.
  apply (administrator_remains to_ascii_lowercase is_whitespace ex_gen ex_db ex_disabled).
  - exact ex_wf.
  - vm_compute. discriminate.
  - apply rtc_once. exists 7, ex_root, (DisablePerson ex_lead). split; [exact I|reflexivity].
Defined.

Lemma refusal_changes_nothing_witness :
  same_tables ex_db (ex_handle ex_lead (ChangeRole (HUser ex_bob) "admin" true) ex_db).2.
Proof.
  eapply (refusal_changes_nothing to_ascii_lowercase is_whitespace ex_gen 7 ex_lead).
  vm_compute. reflexivity.
Defined.

Definition ex_narrow : SaveRole := ex_save "Lead" [AccessRead] ReachNone (Some 1).
Definition ex_narrowed : StoredRole :=
  {| sr_role_id := "r_lead"; sr_name := "Lead"; sr_description := ""; sr_builtin := false;
     sr_permissions := ["access.read"]; sr_reach := ReachNone; sr_members := 1; sr_version := 2 |}.
Lemma update_role_exact_witness :
  exists r k, find_role ex_db "r_lead" = Some r /\ checked_new ex_narrow = inr k
    /\ s_version ex_narrow = Some (r_version r).
Proof.
  destruct (update_role_exact to_ascii_lowercase "r_lead" ex_narrow ex_lead ex_db 200 ex_narrowed
              (update_role_request to_ascii_lowercase "r_lead" ex_narrow ex_lead ex_db).2) as (r & k & H1 & H2 & H3 & _).
  - exact ex_wf.
  - vm_compute. reflexivity.
  - exists r, k. split; [exact H1|]. split; [exact H2|exact H3].
Defined.
