(* ===== verification/NetAddr.v ===== *)
(** * IP addresses as the standard library reads and shows them ([std::net::IpAddr])

    An address is its octets or its segments.  [parse_ip] follows the library's recursive-descent
    parser: an attempt that fails leaves the input where it was. *)
From S2P Require Import Prelude RustStd.
From stdpp Require Import prelude strings list pretty.
From Stdlib Require Import Ascii ZArith Lia.

Open Scope Z_scope.

Inductive IpAddr :=
  | V4 (a b c d : Z)
  | V6 (segments : list Z).

#[export] Instance ip_eq_dec : EqDecision IpAddr.
Proof. solve_decision. Defined.

(** ** Parsing *)

Definition hex_digit (c : Z) : option Z :=
  if is_ascii_digit c then Some (c - 48)
  else if (97 <=? c) && (c <=? 102) then Some (c - 87)
  else if (65 <=? c) && (c <=? 70) then Some (c - 55)
  else None.
Definition dec_digit (c : Z) : option Z := if is_ascii_digit c then Some (c - 48) else None.

(** The digits at the front: their value and number. *)
Fixpoint read_digits (digit : Z -> option Z) (radix : Z) (l : list Z) (value : Z) (n : nat) : Z * nat * list Z :=
  match l with
  | c :: l' =>
      match digit c with
      | Some x => read_digits digit radix l' (value * radix + x) (S n)
      | None => (value, n, l)
      end
  | [] => (value, n, l)
  end.

Definition read_octet (l : list Z) : option (Z * list Z) :=
  let '(value, n, rest) := read_digits dec_digit 10 l 0 0 in
  let leading_zero := match l with c :: _ => c =? 48 | [] => false end in
  if (n =? 0)%nat || (3 <? n)%nat || (leading_zero && (1 <? n)%nat) || (255 <? value) then None
  else Some (value, rest).
Definition read_group (l : list Z) : option (Z * list Z) :=
  let '(value, n, rest) := read_digits hex_digit 16 l 0 0 in
  if (n =? 0)%nat || (4 <? n)%nat then None else Some (value, rest).

Definition read_char (c : Z) (l : list Z) : option (list Z) :=
  match l with d :: l => if d =? c then Some l else None | [] => None end.

Definition dot : Z := Eval cbv in byte_of ".".
Definition colon : Z := Eval cbv in byte_of ":".

Definition read_v4 (l : list Z) : option ((Z * Z * Z * Z) * list Z) :=
  '(a, l) ← read_octet l; l ← read_char dot l;
  '(b, l) ← read_octet l; l ← read_char dot l;
  '(c, l) ← read_octet l; l ← read_char dot l;
  '(d, l) ← read_octet l; Some ((a, b, c, d), l).

(** [read_groups]: up to [limit] groups from the [i]-th on, the last two maybe as an IPv4 address;
    the groups read, whether they end in an IPv4 address, and the rest. *)
Fixpoint read_groups (limit i : nat) (l : list Z) : list Z * bool * list Z :=
  match limit with
  | O => ([], false, l)
  | S limit' =>
      let after_separator := if (i =? 0)%nat then Some l else read_char colon l in
      let v4 := match limit' with
                | O => None
                | S _ => l ← after_separator; read_v4 l
                end in
      match v4 with
      | Some ((a, b, c, d), rest) => ([a * 256 + b; c * 256 + d], true, rest)
      | None =>
          match (l ← after_separator; read_group l) with
          | Some (g, rest) => let '(gs, v4, rest) := read_groups limit' (S i) rest in (g :: gs, v4, rest)
          | None => ([], false, l)
          end
      end
  end.

Definition read_v6 (l : list Z) : option (list Z * list Z) :=
  let '(head, head_v4, rest) := read_groups 8 0 l in
  if (length head =? 8)%nat then Some (head, rest)
  else if head_v4 then None
  else
    rest ← read_char colon rest; rest ← read_char colon rest;
    let '(tail, _, rest) := read_groups (8 - (length head + 1)) 0 rest in
    Some (head ++ repeat 0 (8 - length head - length tail) ++ tail, rest).

Definition parse_ip (s : string) : option IpAddr :=
  match read_v4 (bytes s) with
  | Some ((a, b, c, d), []) => Some (V4 a b c d)
  | Some (_, _ :: _) => None
  | None => match read_v6 (bytes s) with Some (segments, []) => Some (V6 segments) | _ => None end
  end.

(** ** Showing *)

Definition show_v4 (a b c d : Z) : string :=
  pretty a +:+ "." +:+ pretty b +:+ "." +:+ pretty c +:+ "." +:+ pretty d.

Definition hex_char (x : Z) : ascii := Ascii.ascii_of_N (Z.to_N (if x <? 10 then 48 + x else 87 + x)).
(** Lower-case hexadecimal without leading zeros. *)
Definition show_group (x : Z) : string :=
  let digits := [x / 4096; x / 256 mod 16; x / 16 mod 16; x mod 16] in
  let fix strip (l : list Z) := match l with 0 :: ((_ :: _) as l') => strip l' | l => l end in
  foldr (fun x s => String (hex_char x) s) EmptyString (strip digits).

(** The first longest run of zero segments: its start and length. *)
Fixpoint longest_zeros (l : list Z) (i : nat) (current longest : nat * nat) : nat * nat :=
  match l with
  | [] => longest
  | x :: l =>
      if x =? 0 then
        let current := (if (current.2 =? 0)%nat then i else current.1, S current.2) in
        longest_zeros l (S i) current (if (longest.2 <? current.2)%nat then current else longest)
      else longest_zeros l (S i) (0%nat, 0%nat) longest
  end.

Definition show_groups (l : list Z) : string := String.concat ":" (map show_group l).

Definition to_ipv4_mapped (segments : list Z) : option (Z * Z * Z * Z) :=
  match segments with
  | [0; 0; 0; 0; 0; 65535; x; y] => Some (x / 256, x mod 256, y / 256, y mod 256)
  | _ => None
  end.

Definition show_ip (ip : IpAddr) : string :=
  match ip with
  | V4 a b c d => show_v4 a b c d
  | V6 segments =>
      match to_ipv4_mapped segments with
      | Some (a, b, c, d) => "::ffff:" +:+ show_v4 a b c d
      | None =>
          let '(start, len) := longest_zeros segments 0 (0%nat, 0%nat) (0%nat, 0%nat) in
          if (1 <? len)%nat
          then show_groups (take start segments) +:+ "::" +:+ show_groups (drop (start + len) segments)
          else show_groups segments
      end
  end.

(** [IpAddr::to_canonical]: an IPv4-mapped address is its IPv4 address. *)
Definition to_canonical (ip : IpAddr) : IpAddr :=
  match ip with
  | V6 segments => match to_ipv4_mapped segments with Some (a, b, c, d) => V4 a b c d | None => ip end
  | V4 _ _ _ _ => ip
  end.

Example ip_vectors :
  map (fun s => show_ip <$> parse_ip s)
    ["192.168.1.10"; "0.0.0.0"; "256.1.1.1"; "01.2.3.4"; "1.2.3"; "1.2.3.4 "; "::"; "::1"; "fe80::1:0:0:2";
     "2001:DB8:0:0:1:0:0:1"; "1:2:3:4:5:6:7:8"; "1:2:3:4:5:6:7"; "::ffff:10.0.0.1"; "1::2::3"; "nope"; "";
     "1:2:3:4:5:6:1.2.3.4"; "12345::"; "1:2:3:4:5:6:7::"]
  = [Some "192.168.1.10"; Some "0.0.0.0"; None; None; None; None; Some "::"; Some "::1"; Some "fe80::1:0:0:2";
     Some "2001:db8::1:0:0:1"; Some "1:2:3:4:5:6:7:8"; None; Some "::ffff:10.0.0.1"; None; None; None;
     Some "1:2:3:4:5:6:102:304"; None; Some "1:2:3:4:5:6:7:0"]
  /\ to_canonical <$> parse_ip "::ffff:10.0.0.1" = parse_ip "10.0.0.1".
Proof. by vm_compute. Qed.
