(* ===== verification/NetCef.v ===== *)
(** * CEF over syslog (crates/openvibes-netlog/src/cef.rs)

    A datagram is a list of bytes.  The text after the mark is UTF-8, and every character the
    parser looks at is ASCII, so reading it byte by byte is reading it character by character. *)
From S2P Require Import Prelude RustStd Text BTree.
From stdpp Require Import prelude strings list pretty.
From Stdlib Require Import Ascii ZArith Lia Sorted.

Open Scope Z_scope.

Definition MAX_KEYS : nat := 64.

Definition backslash : Z := 92.
Definition pipe : Z := 124.
Definition equals : Z := 61.
Definition space : Z := 32.

Record Cef := {
  vendor : string;
  product : string;
  device_version : string;
  class_id : string;
  name : string;
  severity : string;
  ext : list (string * string);
}.

Inductive Parsed := NotCef | Unparsed | IsCef (cef : Cef).

(** ** UTF-8 *)

Definition is_cont (c : Z) : bool := (128 <=? c) && (c <=? 191).
Definition between (lo hi c : Z) : bool := (lo <=? c) && (c <=? hi).

(** [str::from_utf8] accepts the bytes. *)
Fixpoint utf8_ok (l : list Z) : bool :=
  match l with
  | [] => true
  | a :: l1 =>
      if a <? 128 then utf8_ok l1
      else match l1 with
      | [] => false
      | b :: l2 =>
          if between 194 223 a then is_cont b && utf8_ok l2
          else match l2 with
          | [] => false
          | c :: l3 =>
              if between 224 239 a then
                (if a =? 224 then between 160 191 b else if a =? 237 then between 128 159 b else is_cont b)
                && is_cont c && utf8_ok l3
              else match l3 with
              | [] => false
              | d :: l4 =>
                  between 240 244 a
                  && (if a =? 240 then between 144 191 b else if a =? 244 then between 128 143 b else is_cont b)
                  && is_cont c && is_cont d && utf8_ok l4
              end
          end
      end
  end.

(** ** The header *)

Definition MARK : list Z := bytes "CEF:0|".

(** What follows the first [CEF:0|]. *)
Fixpoint after_mark (l : list Z) : option (list Z) :=
  if bool_decide (take (length MARK) l = MARK) then Some (drop (length MARK) l)
  else match l with [] => None | _ :: l => after_mark l end.

(** Six fields, each ended by a [|]; [\|] and [\\] are decoded. *)
Fixpoint header (l : list Z) (fields : list (list Z)) (current : list Z) : option (list (list Z) * list Z) :=
  match l with
  | [] => None
  | c :: l =>
      if c =? backslash then
        match l with
        | [] => None
        | e :: l =>
            if (e =? pipe) || (e =? backslash) then header l fields (current ++ [e])
            else header l fields (current ++ [backslash; e])
        end
      else if c =? pipe then
        (let fields := fields ++ [current] in
         if (length fields =? 6)%nat then Some (fields, l) else header l fields [])
      else header l fields (current ++ [c])
  end.

(** ** The extension *)

Definition is_key_char (c : Z) : bool := is_ascii_alphanumeric c || (c =? 95).

(** How many key characters [l] starts with. *)
Fixpoint key_length (l : list Z) : nat :=
  match l with c :: l => if is_key_char c then S (key_length l) else 0 | [] => 0 end.

Definition msg_key : list Z := bytes "msg".

(** [l] is the text from position [i] on; [start]: [i] is 0 or follows a space.  The positions of
    each key and of its [=]; [None] after too many keys. *)
Fixpoint scan (fuel : nat) (l : list Z) (i : nat) (start : bool) (keys : list (nat * nat))
    : option (list (nat * nat)) :=
  match fuel, l with
  | _, [] => Some keys
  | O, _ => None
  | S fuel, c :: l' =>
      let n := key_length l in
      if start && (0 <? n)%nat && bool_decide (l !! n = Some equals) then
        (let keys := keys ++ [(i, i + n)%nat] in
         if (MAX_KEYS <? length keys)%nat then None
         else if bool_decide (take n l = msg_key) then Some keys
         else scan fuel (drop (S n) l) (i + n + 1) false keys)
      else scan fuel l' (S i) (c =? space) keys
  end.

Definition slice (a b : nat) (s : list Z) : list Z := take (b - a) (drop a s).

Definition trim_end (p : Z -> bool) (l : list Z) : list Z := rev (drop_while p (rev l)).

(** [\=], [\\], [\n], [\r]; any other escape is kept; a lone backslash at the end is refused. *)
Fixpoint unescape (v : list Z) : option (list Z) :=
  match v with
  | [] => Some []
  | c :: v =>
      if c =? backslash then
        match v with
        | [] => None
        | e :: v =>
            (fun out =>
               if e =? 110 then 10 :: out else if e =? 114 then 13 :: out
               else if (e =? equals) || (e =? backslash) then e :: out else backslash :: e :: out) <$> unescape v
        end
      else cons c <$> unescape v
  end.

(** The values in turn; a repeated key is refused. *)
Fixpoint values (s : list Z) (keys : list (nat * nat)) (m : list (string * string))
    : option (list (string * string)) :=
  match keys with
  | [] => Some m
  | (k, eq) :: keys =>
      let stop := match keys with (next, _) :: _ => next | [] => length s end in
      match unescape (trim_end (fun c => c =? space) (slice (S eq) stop s)) with
      | None => None
      | Some value =>
          let key := of_bytes (slice k eq s) in
          if bt_contains str_cmp key m then None
          else values s keys (bt_insert str_cmp key (of_bytes value) m)
      end
  end.

Definition extensions (s : list Z) : option (list (string * string)) :=
  match scan (S (length s)) s 0 true [] with
  | None => None
  | Some keys =>
      let start := match keys with (k, _) :: _ => k | [] => length s end in
      if is_blank (of_bytes (take start s)) then values s keys [] else None
  end.

Definition cef (text : list Z) : option Cef :=
  match header text [] [] with
  | Some ([vendor; product; device_version; class_id; name; severity], rest) =>
      (fun ext => {| vendor := of_bytes vendor; product := of_bytes product;
                     device_version := of_bytes device_version; class_id := of_bytes class_id;
                     name := of_bytes name; severity := of_bytes severity; ext := ext |}) <$> extensions rest
  | _ => None
  end.

Definition is_line_end (c : Z) : bool := (c =? 10) || (c =? 13) || (c =? 0).

Definition parse (datagram : list Z) : Parsed :=
  match after_mark datagram with
  | None => NotCef
  | Some text =>
      if utf8_ok text then match cef (trim_end is_line_end text) with Some c => IsCef c | None => Unparsed end
      else Unparsed
  end.

Definition ext_get (c : Cef) (k : string) : option string := bt_get str_cmp k (ext c).

(** The source's tests. *)
Example cef_vectors :
  match parse (bytes "<14>x CEF:0|V\|x|P|1|2|N|3|a=1\=2 b=c\\d e=f\ng") with
  | IsCef c => (vendor c, map (ext_get c) ["a"; "b"; "e"])
               = ("V|x", [Some "1=2"; Some "c\d"; Some (of_bytes [102; 10; 103])])
  | _ => False
  end
  /\ match parse (bytes "CEF:0|a|b|c|d|e|f|k=v msg=see url=http://x/?a=1 k=2") with
     | IsCef c => map (ext_get c) ["msg"; "k"; "url"] = [Some "see url=http://x/?a=1 k=2"; Some "v"; None]
     | _ => False
     end
  /\ map parse [bytes "CEF:0|only|three|fields"; bytes "CEF:0|a|b|c|d|e|f|junk before key=v";
                bytes "CEF:0|a|b|c|d|e|f|k=1 k=2"; bytes "CEF:0|a|b|c|d|e|f|k=" ++ [255];
                bytes "CEF:0|a|b|c|d|e|f|trailing\";
                bytes ("CEF:0|a|b|c|d|e|f|" +:+ String.concat " " (map (fun n => "k" +:+ pretty n +:+ "=v") (seq 0 65)))]
     = repeat Unparsed 6
  /\ parse (bytes "plain syslog") = NotCef.
Proof. vm_compute. done. Qed.

(** ** Rendering a CEF event *)

Definition escape_char (c : Z) : list Z :=
  if c =? 10 then [backslash; 110] else if c =? 13 then [backslash; 114]
  else if (c =? equals) || (c =? backslash) then [backslash; c] else [c].
Definition escape (v : list Z) : list Z := flat_map escape_char v.

Definition escape_field (f : list Z) : list Z :=
  flat_map (fun c => if (c =? pipe) || (c =? backslash) then [backslash; c] else [c]) f.

Definition pair : Type := list Z * list Z.
Definition pair_text (p : pair) : list Z := p.1 ++ equals :: escape p.2.
Fixpoint pairs_text (ps : list pair) : list Z :=
  match ps with
  | [] => []
  | [p] => pair_text p
  | p :: ps => pair_text p ++ space :: pairs_text ps
  end.

(** [msg] comes last: it runs to the end. *)
Definition is_msg (e : string * string) : bool := String.eqb e.1 "msg".
Definition ordered (ext : list (string * string)) : list (string * string) :=
  List.filter (fun e => negb (is_msg e)) ext ++ List.filter is_msg ext.

Definition render_text (c : Cef) : list Z :=
  flat_map (fun f => escape_field (bytes f) ++ [pipe])
    [vendor c; product c; device_version c; class_id c; name c; severity c]
  ++ pairs_text (map (fun e => (bytes e.1, bytes e.2)) (ordered (ext c))).

(** ** Lemmas *)

Lemma header_field f rest fields current :
  header (escape_field f ++ pipe :: rest) fields current
  = let fields := fields ++ [current ++ f] in
    if (length fields =? 6)%nat then Some (fields, rest) else header rest fields [].
Proof.
  revert current. induction f as [|c f IH]; intros current; simpl; [by rewrite app_nil_r|].
  destruct ((c =? pipe) || (c =? backslash)) eqn:E; simpl.
  - rewrite E, IH, <- app_assoc. done.
  - apply orb_false_iff in E as [Ep Eb]. rewrite Eb, Ep, IH, <- app_assoc. done.
Qed.

Lemma unescape_escape v : unescape (escape v) = Some v.
Proof.
  induction v as [|c v IH]; [done|]. unfold escape in *. simpl. unfold escape_char at 1.
  destruct (Z.eqb_spec c 10) as [->|]; [simpl; by rewrite IH|].
  destruct (Z.eqb_spec c 13) as [->|]; [simpl; by rewrite IH|].
  destruct (Z.eqb_spec c equals) as [->|]; [simpl; by rewrite IH|].
  destruct (Z.eqb_spec c backslash) as [->|Hb]; [simpl; by rewrite IH|]. simpl.
  apply Z.eqb_neq in Hb. by rewrite Hb, IH.
Qed.

Lemma scan_fuel fuel1 fuel2 l i start keys :
  (length l <= fuel1)%nat -> (length l <= fuel2)%nat ->
  scan fuel1 l i start keys = scan fuel2 l i start keys.
Proof.
  revert fuel2 l i start keys. induction fuel1 as [|f1 IH]; intros [|f2] [|c l] i start keys H1 H2; simpl in *; try done; try lia.
  destruct (_ && _); [|apply IH; lia].
  destruct (MAX_KEYS <? _)%nat; [done|]. destruct (bool_decide _); [done|].
  apply IH; rewrite length_skipn; lia.
Qed.

(** [scan] with enough fuel. *)
Definition scan_all (l : list Z) : nat -> bool -> list (nat * nat) -> option (list (nat * nat)) :=
  scan (length l) l.

Lemma scan_all_skip c l i start keys :
  start && (0 <? key_length (c :: l))%nat && bool_decide ((c :: l) !! key_length (c :: l) = Some equals) = false ->
  scan_all (c :: l) i start keys = scan_all l (S i) (c =? space) keys.
Proof. intros H. unfold scan_all. cbn [length scan]. by rewrite H. Qed.

Definition ends_value (tail : list Z) : Prop := tail = [] \/ exists l, tail = space :: l.

Lemma escape_char_cases c :
  (escape_char c = [c] /\ c <> equals) \/ exists e, escape_char c = [backslash; e].
Proof.
  unfold escape_char. repeat case_match; eauto. bprop. left. split; [done|].
  intros ->. done.
Qed.

Lemma escape_no_eq v tail : ends_value tail -> (escape v ++ tail) !! 0%nat <> Some equals.
Proof.
  intros Ht. destruct v as [|c v]; simpl.
  - by destruct Ht as [->|[l ->]].
  - destruct (escape_char_cases c) as [[-> Hc]|[e ->]]; simpl; [congruence|]. vm_compute. congruence.
Qed.

Lemma escape_no_key v tail :
  ends_value tail -> (0 < key_length (escape v ++ tail))%nat ->
  (escape v ++ tail) !! key_length (escape v ++ tail) <> Some equals.
Proof.
  intros Ht. induction v as [|c v IH].
  - simpl. destruct Ht as [->|[l ->]]; simpl; lia.
  - unfold escape in *. cbn [flat_map]. rewrite <- app_assoc.
    destruct (escape_char_cases c) as [[-> Hc]|[e ->]]; cbn [app key_length]; [|simpl; lia].
    destruct (is_key_char c); [|lia]. intros _.
    cbn. destruct (key_length (flat_map escape_char v ++ tail)) eqn:En; [by apply (escape_no_eq v)|].
    apply IH. lia.
Qed.

Lemma scan_skip c l i start keys :
  start = false \/ key_length (c :: l) = 0%nat ->
  scan_all (c :: l) i start keys = scan_all l (S i) (c =? space) keys.
Proof. intros H. apply scan_all_skip. destruct H as [->| ->]; [done|]. by rewrite andb_false_r. Qed.

(** Scanning over an escaped value finds no key in it. *)
Lemma scan_value v tail i start keys :
  ends_value tail ->
  exists start', scan_all (escape v ++ tail) i start keys = scan_all tail (i + length (escape v))%nat start' keys.
Proof.
  intros Ht. revert i start. induction v as [|c v IH]; intros i start.
  { exists start. simpl. by rewrite Nat.add_0_r. }
  pose proof (escape_no_key (c :: v) tail Ht) as Hn.
  unfold escape in *. cbn [flat_map] in *. rewrite <- app_assoc in *.
  destruct (escape_char_cases c) as [[E _]|[e E]]; rewrite E in *; cbn [app length] in *.
  - destruct (IH (S i) (c =? space)) as [st IH']. exists st. rewrite <- Nat.add_succ_comm, <- IH'.
    apply scan_all_skip. rewrite <- andb_assoc. apply andb_false_iff. right.
    destruct (0 <? _)%nat eqn:En; [|done]. apply Nat.ltb_lt in En. specialize (Hn En).
    by apply bool_decide_eq_false.
  - destruct (IH (S (S i)) (e =? space)) as [st IH']. exists st. rewrite <- !Nat.add_succ_comm, <- IH'.
    rewrite scan_skip by (by right). apply scan_skip. by left.
Qed.

(** ** Scanning rendered pairs *)

Definition is_key (k : list Z) : Prop := k <> [] /\ Forall (fun c => is_key_char c = true) k.

Lemma key_length_app k l :
  Forall (fun c => is_key_char c = true) k -> key_length (k ++ equals :: l) = length k.
Proof. induction 1 as [|c k Hc _ IH]; simpl; [done|]. by rewrite Hc, IH. Qed.

(** The positions of the keys of [pairs_text ps], placed at [i]. *)
Fixpoint positions (i : nat) (ps : list pair) : list (nat * nat) :=
  match ps with
  | [] => []
  | p :: ps => (i, i + length p.1)%nat :: positions (i + length (pair_text p) + 1) ps
  end.

(** [msg] at most last. *)
Fixpoint msg_last (ps : list pair) : Prop :=
  match ps with
  | [] => True
  | p :: ps => (p.1 = msg_key -> ps = []) /\ msg_last ps
  end.

Lemma scan_key k l i keys :
  is_key k -> (length keys < MAX_KEYS)%nat ->
  scan_all (k ++ equals :: l) i true keys
  = if bool_decide (k = msg_key) then Some (keys ++ [(i, i + length k)%nat])
    else scan_all l (i + length k + 1) false (keys ++ [(i, i + length k)%nat]).
Proof.
  intros [Hne Hk] Hl. unfold scan_all at 1.
  destruct (k ++ equals :: l) as [|c s] eqn:Es; [by destruct k|]. cbn [length scan].
  pose proof (f_equal length Es) as Hlen. rewrite length_app in Hlen. simpl in Hlen.
  rewrite <- Es, key_length_app, take_app_length by done.
  rewrite (list_lookup_middle k l equals) by done. rewrite bool_decide_eq_true_2 by done.
  replace (0 <? length k)%nat with true by (symmetry; apply Nat.ltb_lt; destruct k; [done|simpl; lia]).
  cbn [andb]. rewrite length_app.
  replace (MAX_KEYS <? _)%nat with false by (symmetry; apply Nat.ltb_ge; simpl in *; lia).
  case_bool_decide; [done|]. rewrite <- (Nat.add_1_r (length k)), <- drop_drop, drop_app_length. simpl.
  rewrite drop_0. apply scan_fuel; lia.
Qed.

Lemma pairs_text_cons p ps :
  pairs_text (p :: ps) = p.1 ++ equals :: escape p.2 ++ (if ps then [] else space :: pairs_text ps).
Proof.
  destruct ps; simpl; unfold pair_text; [by rewrite app_nil_r|]. by rewrite <- app_assoc.
Qed.

Lemma pairs_text_ne p ps : pairs_text (p :: ps) <> [].
Proof. rewrite pairs_text_cons. by destruct p.1. Qed.

Lemma scan_pairs ps i keys :
  Forall (fun p : pair => is_key p.1) ps -> msg_last ps -> (length keys + length ps <= MAX_KEYS)%nat ->
  scan_all (pairs_text ps) i true keys = Some (keys ++ positions i ps).
Proof.
  intros Hk. revert i keys. induction Hk as [|p ps Hp Hk IH]; intros i keys Hm Hl.
  { simpl. by rewrite app_nil_r. }
  destruct Hm as [Hp' Hm]. simpl in Hl. rewrite pairs_text_cons, scan_key by (done || lia).
  case_bool_decide as Hmsg; [by rewrite (Hp' Hmsg)|].
  destruct (scan_value p.2 (if ps then [] else space :: pairs_text ps) (i + length p.1 + 1) false
              (keys ++ [(i, i + length p.1)%nat])) as [st ->].
  { destruct ps; [by left|right; eauto]. }
  destruct ps as [|q ps]; [done|].
  rewrite scan_skip by (by right). change (space =? space) with true.
  rewrite IH by (rewrite ?length_app; simpl in *; (done || lia)).
  rewrite <- app_assoc. simpl positions. do 5 f_equal; unfold pair_text; rewrite ?length_app; simpl; lia.
Qed.

(** ** The values *)

Definition not_last (p : Z -> bool) (l : list Z) : Prop := match last l with Some c => p c = false | None => True end.

Lemma not_last_app p l1 l2 : l2 <> [] -> not_last p l2 -> not_last p (l1 ++ l2).
Proof. unfold not_last. destruct l2 as [|c l2 _] using rev_ind; [done|]. intros _. by rewrite app_assoc, !last_snoc. Qed.

Lemma trim_end_keep p l : not_last p l -> trim_end p l = l.
Proof.
  unfold not_last, trim_end. destruct l as [|c l _] using rev_ind; [done|].
  rewrite last_snoc, rev_app_distr. intros Hc. simpl. rewrite Hc. simpl. by rewrite rev_involutive.
Qed.

Lemma trim_end_drop p l c : p c = true -> trim_end p (l ++ [c]) = trim_end p l.
Proof. intros Hc. unfold trim_end. rewrite rev_app_distr. simpl. by rewrite Hc. Qed.

Lemma not_last_escape p v :
  p 110 = false -> p 114 = false ->
  match last v with Some c => c = 10 \/ c = 13 \/ p c = false | None => True end -> not_last p (escape v).
Proof.
  intros Hn Hr. destruct v as [|c v _] using rev_ind; [done|]. rewrite last_snoc. intros Hc.
  unfold escape. rewrite flat_map_app. simpl. rewrite app_nil_r.
  apply not_last_app; unfold escape_char; repeat case_match; simpl; try done.
  all: unfold not_last; simpl; bprop; repeat match goal with H : (_ =? _) = false |- _ => apply Z.eqb_neq in H end.
  all: destruct Hc as [?|[?|?]]; done.
Qed.

Definition text_pair (e : string * string) : pair := (bytes e.1, bytes e.2).

(** A value that survives the trimming of spaces and line ends. *)
Definition ends_clean (v : list Z) : Prop := last v <> Some space /\ last v <> Some 0.

Lemma ends_clean_escape v : ends_clean v -> not_last (fun c => c =? space) (escape v) /\ not_last is_line_end (escape v).
Proof.
  intros [Hs Hz]. split; apply not_last_escape; try done; destruct (last v) as [c|]; try done.
  - right; right. apply Z.eqb_neq. congruence.
  - unfold is_line_end. destruct (Z.eqb_spec c 10); [by left|]. destruct (Z.eqb_spec c 13); [by auto|].
    right; right. simpl. apply Z.eqb_neq. congruence.
Qed.

Lemma slice_key pre k rest : slice (length pre) (length pre + length k) (pre ++ k ++ rest) = k.
Proof.
  unfold slice. rewrite drop_app_length. replace (_ - _)%nat with (length k) by lia. apply take_app_length.
Qed.

Lemma slice_value pre k v (ps : list pair) :
  not_last (fun c => c =? space) v ->
  trim_end (fun c => c =? space)
    (slice (S (length pre + length k))
       match positions (length pre + length (k ++ equals :: v) + 1) ps with
       | (next, _) :: _ => next
       | [] => length (pre ++ k ++ equals :: v ++ if ps then [] else space :: pairs_text ps)
       end (pre ++ k ++ equals :: v ++ if ps then [] else space :: pairs_text ps)) = v.
Proof.
  intros Hv. set (tail := if ps then [] else space :: pairs_text ps).
  assert (drop (S (length pre + length k)) (pre ++ k ++ equals :: v ++ tail) = v ++ tail) as Hd.
  { rewrite <- Nat.add_1_r, <- !drop_drop, !drop_app_length. done. }
  unfold slice. rewrite Hd. subst tail. destruct ps as [|p ps]; cbn [positions].
  - rewrite app_nil_r, take_ge by (repeat (rewrite length_app; simpl); lia).
    by apply trim_end_keep.
  - rewrite (cons_middle space v), (app_assoc v).
    rewrite take_app_length' by (repeat (rewrite length_app; simpl); lia).
    rewrite trim_end_drop by done. by apply trim_end_keep.
Qed.

Lemma values_pairs es pre m :
  Forall (fun e => ends_clean (bytes e.2)) es -> NoDup es.*1 -> bt_sorted str_cmp m ->
  Forall (fun e : string * string => bt_get str_cmp e.1 m = None) es ->
  values (pre ++ pairs_text (map text_pair es)) (positions (length pre) (map text_pair es)) m
  = Some (fold_left (fun m e => bt_insert str_cmp e.1 e.2 m) es m).
Proof.
  intros Hv. revert pre m. induction Hv as [|[k v] es Hv1 Hv IH]; intros pre m Hnd Hm Hfr; [done|].
  apply NoDup_cons in Hnd as [Hk Hnd]. apply Forall_cons in Hfr as [Hf Hfr].
  simpl map. simpl positions. rewrite pairs_text_cons. simpl in Hf, Hv1, Hk. cbn [values].
  change (pair_text (text_pair (k, v))) with (bytes k ++ equals :: escape (bytes v)).
  change (text_pair (k, v)).1 with (bytes k). change (text_pair (k, v)).2 with (bytes v).
  rewrite slice_key, slice_value, of_bytes_bytes by by apply ends_clean_escape.
  rewrite unescape_escape. unfold bt_contains. rewrite Hf, of_bytes_bytes. cbn [fold_left fst snd].
  destruct es as [|e es]; [done|].
  rewrite <- (IH (pre ++ bytes k ++ equals :: escape (bytes v) ++ [space])
              (bt_insert str_cmp k v m)); [|exact Hnd|exact (bt_alter_sorted str_cmp k _ m Hm)|].
  - f_equal.
    + simpl. repeat (rewrite <- ?app_assoc; simpl). done.
    + f_equal. repeat (rewrite length_app; simpl). lia.
  - rewrite Forall_forall in Hfr |- *. intros x Hx. unfold bt_insert. rewrite (bt_get_alter_ne str_cmp); [by apply Hfr|].
    intros E%(cmp_eq str_cmp). apply Hk. rewrite <- E. exact (list_elem_of_fmap_2 fst _ _ Hx).
Qed.

(** ** UTF-8 is kept *)

Ltac utf8_bytes :=
  unfold is_cont, between in *; repeat case_match; bprop; repeat constructor; lia.

(** UTF-8 text is a sequence of ASCII characters and of longer characters without ASCII bytes. *)
Lemma utf8_ind (P : list Z -> Prop) :
  P [] ->
  (forall c l, (c <? 128) = true -> utf8_ok l = true -> P l -> P (c :: l)) ->
  (forall ch l, Forall (fun c => 128 <= c) ch -> (forall l', utf8_ok l' = true -> utf8_ok (ch ++ l') = true) ->
     utf8_ok l = true -> P l -> P (ch ++ l)) ->
  forall l, utf8_ok l = true -> P l.
Proof.
  intros Hnil Hascii Hlong. fix IH 1. intros [|c1 a] Ha; [done|]. cbn in Ha.
  destruct (c1 <? 128) eqn:E1; [by auto|].
  destruct a as [|c2 a]; [done|]. cbn in Ha. destruct (between 194 223 c1) eqn:E2.
  { apply andb_prop in Ha as [H2 Ha]. apply (Hlong [c1; c2] a); [utf8_bytes| |done|by apply IH].
    intros l' Hl'. cbn. by rewrite E1, E2, H2. }
  destruct a as [|c3 a]; [done|]. cbn in Ha. destruct (between 224 239 c1) eqn:E3.
  { apply andb_prop in Ha as [H2 Ha]. apply (Hlong [c1; c2; c3] a); [utf8_bytes| |done|by apply IH].
    intros l' Hl'. cbn. by rewrite E1, E2, E3, H2. }
  destruct a as [|c4 a]; [done|]. cbn in Ha. apply andb_prop in Ha as [H2 Ha].
  apply (Hlong [c1; c2; c3; c4] a); [utf8_bytes| |done|by apply IH].
  intros l' Hl'. cbn. by rewrite E1, E2, E3, H2.
Qed.

Lemma utf8_ok_app a b : utf8_ok a = true -> utf8_ok b = true -> utf8_ok (a ++ b) = true.
Proof.
  intros Ha Hb. revert a Ha. apply (utf8_ind (fun a => utf8_ok (a ++ b) = true)); [done| |].
  - intros c l Hc _ IH. cbn. by rewrite Hc.
  - intros ch l _ Hch _ IH. rewrite <- app_assoc. by apply Hch.
Qed.

Lemma utf8_ok_ascii l : Forall (fun c => c < 128) l -> utf8_ok l = true.
Proof. induction 1 as [|c l Hc _ IH]; cbn; [done|]. apply Z.ltb_lt in Hc. by rewrite Hc. Qed.

(** Replacing ASCII characters by ASCII text keeps UTF-8. *)
Lemma utf8_ok_flat_map (f : Z -> list Z) l :
  (forall c, c < 128 -> Forall (fun c => c < 128) (f c)) -> (forall c, 128 <= c -> f c = [c]) ->
  utf8_ok l = true -> utf8_ok (flat_map f l) = true.
Proof.
  intros Hf Hid. revert l. apply (utf8_ind (fun l => utf8_ok (flat_map f l) = true)); [done| |].
  - intros c l Hc _ IH. cbn. apply utf8_ok_app; [|done]. apply utf8_ok_ascii, Hf. by apply Z.ltb_lt.
  - intros ch l Hge Hch _ IH. rewrite flat_map_app. replace (flat_map f ch) with ch; [by apply Hch|].
    clear Hch. induction Hge as [|c ch Hc _ IHc]; [done|]. cbn. rewrite (Hid c Hc). simpl. by f_equal.
Qed.

Lemma utf8_ok_escape v : utf8_ok v = true -> utf8_ok (escape v) = true.
Proof.
  apply utf8_ok_flat_map; intros c Hc; unfold escape_char, backslash, equals.
  - repeat case_match; repeat constructor; lia.
  - repeat case_match; bprop; rewrite ?orb_true_iff in *; done || lia.
Qed.

Lemma utf8_ok_escape_field v : utf8_ok v = true -> utf8_ok (escape_field v) = true.
Proof.
  apply utf8_ok_flat_map; intros c Hc; unfold backslash, pipe.
  - repeat case_match; repeat constructor; lia.
  - repeat case_match; bprop; rewrite ?orb_true_iff in *; done || lia.
Qed.

Lemma is_key_ascii k : is_key k -> Forall (fun c => c < 128) k.
Proof.
  intros [_ Hk]. eapply Forall_impl; [exact Hk|]. intros c Hc. simpl in Hc.
  unfold is_key_char, is_ascii_alphanumeric, is_ascii_alphabetic, is_ascii_lowercase, is_ascii_uppercase,
    is_ascii_digit in Hc.
  rewrite !orb_true_iff, !andb_true_iff in Hc. lia.
Qed.

(** ** The whole event *)

Record cef_ok (c : Cef) : Prop := {
  ok_fields : Forall (fun f => utf8_ok (bytes f) = true)
    [vendor c; product c; device_version c; class_id c; name c; severity c];
  ok_sorted : bt_sorted str_cmp (ext c);
  ok_size : (length (ext c) <= MAX_KEYS)%nat;
  ok_ext : Forall (fun e => is_key (bytes e.1) /\ utf8_ok (bytes e.2) = true /\ ends_clean (bytes e.2)) (ext c);
}.

Lemma ordered_perm m : ordered m ≡ₚ m.
Proof.
  unfold ordered. induction m as [|e m IH]; simpl; [done|]. destruct (is_msg e); simpl.
  - by rewrite <- Permutation_middle, IH.
  - by rewrite IH.
Qed.

Lemma ordered_msg_last m : NoDup m.*1 -> msg_last (map text_pair (ordered m)).
Proof.
  intros Hnd. unfold ordered.
  assert (forall l, Forall (fun e => is_msg e = false) l -> forall r, msg_last (map text_pair r) ->
    msg_last (map text_pair (l ++ r))) as Happ.
  { induction 1 as [|[k v] l Hk _ IH]; intros r Hr; [done|]. split; [|by apply IH].
    intros E. apply (bytes_inj k "msg") in E as ->. done. }
  apply Happ.
  - rewrite Forall_forall. intros e He%list_elem_of_In. apply filter_In in He as [_ He]. by apply negb_true_iff.
  - assert (length (List.filter is_msg m) <= 1)%nat as Hl.
    { induction m as [|[k v] m IH]; simpl in *; [lia|]. apply NoDup_cons in Hnd as [Hk Hnd].
      destruct (is_msg (k, v)) eqn:E; [|by apply IH]. simpl.
      destruct (List.filter is_msg m) as [|[k' v'] l] eqn:El; simpl; [lia|].
      assert (In (k', v') (List.filter is_msg m)) as [Hin Hm]%filter_In by (rewrite El; by left).
      unfold is_msg in E, Hm. apply String.eqb_eq in E, Hm. simpl in E, Hm. subst k k'.
      destruct Hk. rewrite list_elem_of_fmap. exists ("msg", v'). by rewrite list_elem_of_In. }
    destruct (List.filter is_msg m) as [|e [|e' l]]; simpl in *; [done|done|lia].
Qed.

Lemma extensions_pairs m :
  bt_sorted str_cmp m -> (length m <= MAX_KEYS)%nat ->
  Forall (fun e : string * string => is_key (bytes e.1) /\ ends_clean (bytes e.2)) m ->
  extensions (pairs_text (map text_pair (ordered m))) = Some m.
Proof.
  intros Hs Hl Hm. pose proof (bt_keys_NoDup str_cmp m Hs) as Hnd. pose proof (ordered_perm m) as Hp.
  rewrite <- Hp in Hm. unfold extensions.
  set (s := pairs_text (map text_pair (ordered m))).
  replace (scan (S (length s)) s 0 true []) with (Some (positions 0 (map text_pair (ordered m)))).
  2:{ rewrite (scan_fuel _ (length s)) by lia. symmetry. apply (scan_pairs _ 0 []).
      - apply Forall_map. eapply Forall_impl; [exact Hm|]. by intros ? [? _].
      - by apply ordered_msg_last.
      - rewrite length_map, Hp. simpl. lia. }
  cbv match. replace (is_blank _) with true.
  - rewrite <- (bt_rebuild str_cmp (ordered m) m Hp Hs). rewrite (bt_rebuild str_cmp (ordered m) m Hp Hs) at 1.
    apply (values_pairs (ordered m) [] []).
    + eapply Forall_impl; [exact Hm|]. by intros ? [_ ?].
    + by rewrite Hp.
    + constructor.
    + by apply Forall_true.
  - unfold s. destruct (ordered m) as [|e l]; [done|]. simpl positions. by rewrite take_0.
Qed.

Lemma cef_render c : cef_ok c -> cef (render_text c) = Some c.
Proof.
  intros [_ Hs Hl Hm]. unfold cef, render_text. cbn [flat_map]. rewrite <- !app_assoc. cbn [app].
  do 5 (rewrite header_field; cbn [app length Nat.eqb]). rewrite header_field. cbn [app length Nat.eqb].
  cbv zeta. cbn [app length Nat.eqb].
  rewrite extensions_pairs; [by destruct c; simpl; rewrite !of_bytes_bytes|done|done|].
  eapply Forall_impl; [exact Hm|]. intros ? (? & ? & ?). by split.
Qed.

Lemma render_not_line_end c : cef_ok c -> not_last is_line_end (render_text c).
Proof.
  intros [_ _ _ Hm]. unfold render_text. rewrite <- (ordered_perm (ext c)) in Hm.
  change (map (fun e => (bytes e.1, bytes e.2)) (ordered (ext c))) with (map text_pair (ordered (ext c))).
  generalize (ordered (ext c)), Hm. clear Hm. intros l Hm.
  destruct l as [|e l].
  { simpl. rewrite app_nil_r. cbn [flat_map]. rewrite app_nil_r. rewrite ?app_assoc. by apply not_last_app. }
  apply not_last_app; [apply pairs_text_ne|].
  revert e Hm. induction l as [|e' l IH]; intros e Hm; apply Forall_cons in Hm as [(_ & _ & He) Hm].
  - simpl. unfold pair_text. apply not_last_app; [done|]. change (equals :: ?x) with ([equals] ++ x).
    destruct (escape (text_pair e).2) eqn:E; [done|]. rewrite <- E. apply not_last_app; [by rewrite E|].
    by apply ends_clean_escape.
  - cbn [map]. rewrite pairs_text_cons. cbv match. rewrite app_comm_cons, app_assoc, cons_middle, app_assoc.
    apply not_last_app; [apply pairs_text_ne|by apply IH].
Qed.

Lemma utf8_render c : cef_ok c -> utf8_ok (render_text c) = true.
Proof.
  intros [Hf _ _ Hm]. unfold render_text. apply utf8_ok_app.
  - induction Hf as [|f l Hf _ IH]; [done|]. cbn [flat_map]. apply utf8_ok_app; [|done].
    apply utf8_ok_app; [by apply utf8_ok_escape_field|done].
  - rewrite <- (ordered_perm (ext c)) in Hm.
    change (map (fun e => (bytes e.1, bytes e.2)) (ordered (ext c))) with (map text_pair (ordered (ext c))).
    induction Hm as [|e l (Hk & He & _) _ IH]; [done|]. cbn [map]. rewrite pairs_text_cons.
    apply utf8_ok_app; [by apply utf8_ok_ascii, is_key_ascii|]. cbn.
    apply utf8_ok_app; [by apply utf8_ok_escape|]. destruct l; [done|]. exact IH.
Qed.

(** The mark does not overlap itself. *)
Lemma after_mark_prefix prefix l :
  after_mark prefix = None -> after_mark (prefix ++ MARK ++ l) = Some l.
Proof.
  induction prefix as [|c prefix IH]; intros H; [done|].
  cbn [after_mark app] in H |- *. case_bool_decide as Hc; [done|]. rewrite bool_decide_eq_false_2; [by apply IH|].
  intros E. destruct prefix as [|? [|? [|? [|? [|? ?]]]]]; try done.
Qed.

(** ** Properties *)

(** C40: Parsing undoes rendering: an event whose text is UTF-8, with at most 64 extension keys made of
    letters, digits and underscores and values that do not end in a space or a NUL, is read back exactly from
    its CEF line with the escapes written and [msg] last, whatever syslog header without the mark precedes it. *)
Theorem cef_roundtrip (syslog : list Z) (c : Cef) :
  cef_ok c -> after_mark syslog = None -> parse (syslog ++ MARK ++ render_text c) = IsCef c.
Proof.
  intros Hc Hh. unfold parse. rewrite after_mark_prefix by done. rewrite utf8_render by done.
  rewrite trim_end_keep by by apply render_not_line_end. by rewrite cef_render.
Qed.

Definition sample_event : Cef :=
  {| vendor := "Ubi|quiti"; product := "UniFi\Network"; device_version := "10.6.106"; class_id := "201";
     name := "Threat Detected and Blocked"; severity := "9";
     ext := [("UNIFIrisk", "a b=c\d"); ("act", ""); ("msg", "see url=http://x/?a=1 k=2");
             ("src", "192.168.1.10")] |}.

Lemma cef_roundtrip_witness :
  parse (bytes "<14>Oct 10 x " ++ MARK ++ render_text sample_event) = IsCef sample_event.
Proof.
  apply (cef_roundtrip (bytes "<14>Oct 10 x ") sample_event); [|vm_compute; reflexivity].
  split.
  - repeat (apply Forall_cons; split; [reflexivity|]). apply Forall_nil. exact I.
  - unfold bt_sorted. repeat constructor.
  - unfold MAX_KEYS. simpl. lia.
  - repeat (apply Forall_cons; split; [|]); try (apply Forall_nil; exact I).
    all: split; [split; [discriminate|repeat constructor]|split; [reflexivity|split; discriminate]].
Defined.
