(* ===== verification/NetUnifi.v ===== *)
(** * UniFi events (crates/openvibes-netlog/src/unifi.rs)

    A CEF event becomes an IPS/IDS event with checked fields, or the reason it is dropped. *)
From S2P Require Import Prelude RustStd Text BTree Json NetAddr NetCef.
From stdpp Require Import prelude strings list pretty.
From Stdlib Require Import Ascii ZArith Lia.

Open Scope Z_scope.

Record Ips := {
  action : string;
  proto : string;
  app : string;
  src : IpAddr;
  spt : option Z;
  dst : IpAddr;
  dpt : option Z;
  dst_domain : string;
  direction : string;
  policy : string;
  policy_type : string;
  signature : string;
  signature_id : string;
  device_model : string;
  ips_severity : string;
  unknown_risk : option string;
  message : string;
}.

Definition json_port (o : option Z) : value := match o with Some n => JPosInt n | None => JNull end.

(** The alarm's [network] column, members in key order. *)
Definition network (i : Ips) : value :=
  JObject [
    ("action", JString (action i)); ("app", JString (app i)); ("device_model", JString (device_model i));
    ("direction", JString (direction i)); ("dpt", json_port (dpt i)); ("dst", JString (show_ip (dst i)));
    ("dst_domain", JString (dst_domain i)); ("policy", JString (policy i));
    ("policy_type", JString (policy_type i)); ("proto", JString (proto i));
    ("signature", JString (signature i)); ("signature_id", JString (signature_id i));
    ("spt", json_port (spt i)); ("src", JString (show_ip (src i)))
  ].

Inductive Outcome :=
  | OIps (ips : Ips)
  | OOther (key : string)
  | OMismatch
  | OUnparsed.

(** Control characters removed, at most [max] characters. *)
Definition clean (s : string) (max : nat) : string :=
  of_chars (take max (List.filter (fun c => negb (is_control c)) (chars s))).

(** [s.contains(p)]. *)
Fixpoint str_contains (p s : string) : bool :=
  String.prefix p s || match s with EmptyString => false | String _ s => str_contains p s end.

(** No port is fine; a bad one is not. *)
Definition port (v : option string) : option (option Z) :=
  match v with
  | None => Some None
  | Some v => Some <$> parse_uint u16_max v
  end.

Definition known_risk (risk : string) : option string :=
  let risk := to_ascii_lowercase risk in
  if String.eqb risk "low" then Some "low"
  else if String.eqb risk "medium" || String.eqb risk "suspicious" then Some "medium"
  else if String.eqb risk "high" then Some "high"
  else if String.eqb risk "critical" then Some "critical"
  else None.

Definition cef_severity_name (s : string) : string :=
  match parse_uint u8_max (trim s) with
  | Some n => if n <=? 3 then "low" else if n <=? 6 then "medium" else if n <=? 8 then "high"
              else if n <=? 10 then "critical" else "medium"
  | None => "medium"
  end.

(** The severity, and the risk when it is not in the table. *)
Definition severity_of (risk : option string) (cef_severity : string) : string * option string :=
  match risk ≫= known_risk with
  | Some known => (known, None)
  | None => (cef_severity_name cef_severity, (fun r => clean r 32) <$> risk)
  end.

Definition fields (c : Cef) : option Ips :=
  let get := ext_get c in
  let text k := clean (default "" (get k)) 256 in
  signature_id ← get "UNIFIipsSignatureId";
  if is_empty signature_id || (12 <? str_len signature_id) || negb (all_digits signature_id) then None
  else
    let signature := clean (default (name c) (get "UNIFIipsSignature")) 256 in
    let msg := text "msg" in
    let '(severity, unknown_risk) := severity_of (get "UNIFIrisk") (severity c) in
    let action := match get "act" with
                  | Some act => clean act 32
                  | None => if str_contains "Blocked" (name c) then "blocked" else "detected"
                  end in
    let message := if is_empty msg then signature else clean (signature +:+ ": " +:+ msg) 256 in
    src ← get "src" ≫= parse_ip;
    spt ← port (get "spt");
    dst ← get "dst" ≫= parse_ip;
    dpt ← port (get "dpt");
    Some {| action := action; proto := clean (default "" (get "proto")) 16; app := text "app";
            src := src; spt := spt; dst := dst; dpt := dpt;
            dst_domain := text "UNIFIdstDomain"; direction := text "UNIFIdirection";
            policy := text "UNIFIpolicyName"; policy_type := text "UNIFIpolicyType";
            signature := signature; signature_id := signature_id;
            device_model := clean (default "" (get "UNIFIdeviceModel")) 64;
            ips_severity := severity; unknown_risk := unknown_risk; message := message |}.

Definition is_ips (c : Cef) : bool :=
  String.eqb (vendor c) "Ubiquiti"
  && bool_decide (ext_get c "UNIFIcategory" = Some "Security")
  && is_some (ext_get c "UNIFIipsSignatureId").

Definition classify (c : Cef) (device : IpAddr) : Outcome :=
  if negb (is_ips c) then
    let kind := match ext_get c "UNIFIpolicyType" with
                | Some kind => kind
                | None => default "" (ext_get c "UNIFIsubCategory")
                end in
    OOther (clean (class_id c +:+ ":" +:+ kind) 64)
  else
    let mismatch := match ext_get c "UNIFIdeviceIp" with
                    | Some ip => negb (bool_decide (parse_ip ip = Some device))
                    | None => false
                    end in
    if mismatch then OMismatch
    else match fields c with Some ips => OIps ips | None => OUnparsed end.

(** The source's tests. *)
Example severity_vectors :
  [severity_of (Some "high") "9"; severity_of (Some "Suspicious") "7"; severity_of (Some "concerning") "7";
   severity_of None "2"; severity_of None "10"; severity_of None "x"; severity_of None " 5 "; severity_of None "11"]
  = [("high", None); ("medium", None); ("high", Some "concerning"); ("low", None); ("critical", None);
     ("medium", None); ("medium", None); ("medium", None)]
  /\ clean (of_bytes [97; 27; 91; 51; 49; 109; 98; 10]) 256 = "a[31mb".
Proof. vm_compute. done. Qed.

Definition old_line : string :=
  "<14>Oct 10 17:08:29 pandora CEF:0|Ubiquiti|UniFi Network|9.4.19|201|Threat Detected and Blocked|7|proto=TCP src=81.181.129.172 spt=54321 dst=192.168.0.233 dpt=443 UNIFIcategory=Security UNIFIsubCategory=Intrusion Prevention UNIFIhost=Office-UDM-Pro UNIFIdeviceModel=UDM-Pro UNIFIdeviceIp=192.168.0.1 UNIFIrisk=medium UNIFIipsSignature=ET DROP Dshield Block Listed Source group 1 UNIFIipsSignatureId=2402000 msg=A network intrusion attempt has been detected and blocked.".

Example classify_vectors :
  match parse (bytes old_line) with
  | IsCef c =>
      match classify c (V4 192 168 0 1) with
      | OIps i => (action i, ips_severity i, signature_id i, spt i, show_ip (src i), message i)
                  = ("blocked", "medium", "2402000", Some 54321, "81.181.129.172",
                     "ET DROP Dshield Block Listed Source group 1: A network intrusion attempt has been detected and blocked.")
      | _ => False
      end /\ classify c (V4 10 0 0 1) = OMismatch
  | _ => False
  end.
Proof. vm_compute. done. Qed.
