(* ===== verification/NetStore.v ===== *)
(** * What openvibes-netlog stores
    (crates/platform-store/src/device_alarms.rs and devices.rs)

    The rows of [alarms] whose source is a device, the triage history netlog writes and the counters
    of the devices.  A time is in nanoseconds since the epoch, as the program has it; a [timestamptz]
    keeps microseconds, so what is bound to a statement goes through [pg_time].  A statement that a
    CHECK of the schema refuses fails the transaction, and so leaves the tables as they were. *)
From S2P Require Import Prelude RustStd Text BTree Json NetAddr.
From stdpp Require Import prelude strings list pretty.
From Stdlib Require Import ZArith Lia.

Open Scope Z_scope.

Definition RULE_SET : string := "device-unifi".
Definition NETLOG : string := "netlog".

Definition time : Type := Z.
Definition pg_time (t : time) : time := t / 1000 * 1000.
(** [date_naive]: days since the epoch. *)
Definition date_naive (t : time) : Z := t / (86400 * 10 ^ 9).

Record DeviceAlarm := {
  device_id : Z;
  alarm_id : string;
  rule_id : string;
  severity : string;
  confidence : Z;
  message : string;
  first_seen : time;
  last_seen : time;
  count : Z;
  network : value;
}.

(** A row of [alarms] with [source = 'device']: the columns netlog reads or writes. *)
Record AlarmRow := {
  row_id : Z;
  first_seen_day : Z;
  alarm : DeviceAlarm;
  received_at : time;
  suppressed_by : option Z;
  state : string;
  note : option string;
  accepted_until : option time;
  triage_version : Z;
  triage_updated_at : option time;
  triage_updated_by : option string;
}.

(** A row of [alarm_triage_history]. *)
Record HistoryRow := {
  h_alarm_row : Z;
  h_day : Z;
  h_from : option string;
  h_to : string;
  h_note : string;
  h_at : time;
  h_by : string;
}.

(** A live suppression of the device rule set: its id, its rule and its device, if it has one. *)
Record Suppression := { sup_id : Z; sup_rule : string; sup_device : option Z }.

Record Tables := {
  rows : list AlarmRow;
  next_row : Z;
  history : list HistoryRow;
  partitions : list Z;
  suppressions : list Suppression;
}.

Record DeviceStored := { stored : Z; raised : Z; suppressed : Z; unstorable : Z }.
Definition stored_default : DeviceStored := {| stored := 0; raised := 0; suppressed := 0; unstorable := 0 |}.

(** ** One alarm of a batch *)

(** The columns as bound: times in microseconds. *)
Definition bound (a : DeviceAlarm) : DeviceAlarm :=
  {| device_id := device_id a; alarm_id := alarm_id a; rule_id := rule_id a; severity := severity a;
     confidence := confidence a; message := message a; first_seen := pg_time (first_seen a);
     last_seen := pg_time (last_seen a); count := count a; network := network a |}.

Definition same_alarm (device : Z) (id : string) (r : AlarmRow) : bool :=
  (device_id (alarm r) =? device) && String.eqb (alarm_id (alarm r)) id.

Definition known (db : Tables) (a : DeviceAlarm) : option AlarmRow :=
  List.find (same_alarm (device_id a) (alarm_id a)) (rows db).

(** [state = 'accepted_risk' AND accepted_until <= $3]. *)
Definition is_expired (r : AlarmRow) (now : time) : bool :=
  String.eqb (state r) "accepted_risk"
  && match accepted_until r with Some t => t <=? pg_time now | None => false end.

(** The CHECKs of an inserted row. *)
Definition row_checks (a : DeviceAlarm) : bool :=
  existsb (String.eqb (severity a)) ["critical"; "high"; "medium"; "low"; "info"]
  && (0 <=? confidence a) && (confidence a <=? 100)
  && (0 <? count a) && (first_seen a <=? last_seen a).

(** [UPDATE ... SET count = GREATEST, last_seen = GREATEST, network = CASE]. *)
Definition grow (a : DeviceAlarm) (r : AlarmRow) : AlarmRow :=
  let old := alarm r in
  {| row_id := row_id r; first_seen_day := first_seen_day r;
     alarm := {| device_id := device_id old; alarm_id := alarm_id old; rule_id := rule_id old;
                 severity := severity old; confidence := confidence old; message := message old;
                 first_seen := first_seen old;
                 last_seen := Z.max (last_seen old) (pg_time (last_seen a));
                 count := Z.max (count old) (count a);
                 network := if last_seen old <? pg_time (last_seen a) then network a else network old |};
     received_at := received_at r; suppressed_by := suppressed_by r; state := state r; note := note r;
     accepted_until := accepted_until r; triage_version := triage_version r;
     triage_updated_at := triage_updated_at r; triage_updated_by := triage_updated_by r |}.

Definition reopen (now : time) (r : AlarmRow) : AlarmRow :=
  {| row_id := row_id r; first_seen_day := first_seen_day r; alarm := alarm r;
     received_at := received_at r; suppressed_by := suppressed_by r; state := "open"; note := note r;
     accepted_until := None; triage_version := triage_version r + 1;
     triage_updated_at := Some (pg_time now); triage_updated_by := Some NETLOG |}.

(** [UPDATE ... WHERE id = $1 AND first_seen_day = $2]. *)
Definition update_row (id day : Z) (f : AlarmRow -> AlarmRow) (l : list AlarmRow) : list AlarmRow :=
  map (fun r => if (row_id r =? id) && (first_seen_day r =? day) then f r else r) l.

Definition with_rows (f : list AlarmRow -> list AlarmRow) (db : Tables) : Tables :=
  {| rows := f (rows db); next_row := next_row db; history := history db; partitions := partitions db;
     suppressions := suppressions db |}.
Definition add_history (h : HistoryRow) (db : Tables) : Tables :=
  {| rows := rows db; next_row := next_row db; history := history db ++ [h]; partitions := partitions db;
     suppressions := suppressions db |}.

Definition suppression_of (db : Tables) (a : DeviceAlarm) : option Suppression :=
  List.find (fun s => String.eqb (sup_rule s) (rule_id a)
                      && match sup_device s with Some d => d =? device_id a | None => true end)
    (suppressions db).

Definition insert_new (db : Tables) (a : DeviceAlarm) (now : time) : option Tables :=
  let s := suppression_of db a in
  let '(st, nt) := match s with
                   | Some s => ("false_positive", Some ("suppressed by #" +:+ pretty (sup_id s)))
                   | None => ("open", None)
                   end in
  let id := next_row db in
  let day := date_naive (first_seen a) in
  if row_checks (bound a) then
    let db' := {| rows := rows db ++
                    [{| row_id := id; first_seen_day := day; alarm := bound a; received_at := pg_time now;
                        suppressed_by := sup_id <$> s; state := st; note := nt; accepted_until := None;
                        triage_version := 1;
                        triage_updated_at := (fun _ => pg_time now) <$> s;
                        triage_updated_by := (fun _ => NETLOG) <$> s |}];
                  next_row := id + 1; history := history db; partitions := partitions db;
                  suppressions := suppressions db |} in
    Some (match nt with
          | Some note => add_history {| h_alarm_row := id; h_day := day; h_from := None; h_to := st; h_note := note;
                                        h_at := pg_time now; h_by := NETLOG |} db'
          | None => db'
          end)
  else None.

(** The body of the loop of [insert_batch]. *)
Definition insert_one (now : time) (st : Tables * DeviceStored) (a : DeviceAlarm) : option (Tables * DeviceStored) :=
  let '(db, done) := st in
  if negb (existsb (Z.eqb (date_naive (first_seen a))) (partitions db)) then
    Some (db, {| stored := stored done; raised := raised done; suppressed := suppressed done;
                 unstorable := unstorable done + 1 |})
  else match known db a with
  | Some r =>
      if (count a <=? count (alarm r)) && (last_seen a <=? last_seen (alarm r)) then Some (db, done)
      else
        let db := with_rows (update_row (row_id r) (first_seen_day r) (grow a)) db in
        let db := if (count (alarm r) <? count a) && (String.eqb (state r) "mitigated" || is_expired r now) then
                    add_history {| h_alarm_row := row_id r; h_day := first_seen_day r; h_from := Some (state r);
                                   h_to := "open"; h_note := "recurred"; h_at := pg_time now; h_by := NETLOG |}
                      (with_rows (update_row (row_id r) (first_seen_day r) (reopen now)) db)
                  else db in
        Some (db, {| stored := stored done; raised := raised done + 1; suppressed := suppressed done;
                     unstorable := unstorable done |})
  | None =>
      db' ← insert_new db a now;
      Some (db', {| stored := stored done + 1; raised := raised done;
                    suppressed := suppressed done + (if suppression_of db a then 1 else 0);
                    unstorable := unstorable done |})
  end.

(** One transaction: [None] leaves the tables as they were. *)
Fixpoint insert_all (now : time) (st : Tables * DeviceStored) (l : list DeviceAlarm) : option (Tables * DeviceStored) :=
  match l with
  | [] => Some st
  | a :: l => st ← insert_one now st a; insert_all now st l
  end.
Definition insert_batch (db : Tables) (alarms : list DeviceAlarm) (now : time) : option (Tables * DeviceStored) :=
  insert_all now (db, stored_default) alarms.

(** ** The counters of a device (devices.rs) *)

Definition MAX_CLASSES : nat := 64.

Record Counters := {
  received : Z;
  alarms : Z;
  not_cef : Z;
  unparsed : Z;
  dropped_other : Z;
  mismatch : Z;
  classes : list (string * Z);
  seen : option time;
}.
Definition counters_default : Counters :=
  {| received := 0; alarms := 0; not_cef := 0; unparsed := 0; dropped_other := 0; mismatch := 0; classes := [];
     seen := None |}.

(** A row of [devices]: its counters, whose classes are the [dropped_classes] object. *)
Definition devices_table : Type := list (Z * Counters).

(** [GREATEST] ignores NULL. *)
Definition greatest (x y : option time) : option time :=
  match x, y with Some a, Some b => Some (Z.max a b) | None, y => y | x, None => x end.

(** Existing classes grow; new ones are added in key order while there is room. *)
Definition merge_class (m : list (string * Z)) (e : string * Z) : list (string * Z) :=
  let old := bt_get str_cmp e.1 m in
  if is_some old || (length m <? MAX_CLASSES)%nat then bt_insert str_cmp e.1 (default 0 old + e.2) m else m.

Definition flushed (old c : Counters) : Counters :=
  {| received := received old + received c; alarms := alarms old + alarms c; not_cef := not_cef old + not_cef c;
     unparsed := unparsed old + unparsed c; dropped_other := dropped_other old + dropped_other c;
     mismatch := mismatch old + mismatch c; classes := fold_left merge_class (classes c) (classes old);
     seen := greatest (seen old) (pg_time <$> seen c) |}.

(** Nothing for a device without a row. *)
Definition flush (devices : devices_table) (id : Z) (c : Counters) : devices_table :=
  map (fun d => if d.1 =? id then (d.1, flushed d.2 c) else d) devices.

(** ** Devices *)

(** 1 to 64 characters, no control characters. *)
Definition check_name (name : string) : bool :=
  negb ((char_count name =? 0) || (64 <? char_count name) || existsb is_control (chars name)).

Definition NO_EVENTS : string :=
  "No events received yet: check the router's SIEM server setting (this host, port 514) and that UDP 514 is open in this host's firewall".
Definition SILENT : string :=
  "No events for a day: check the router's SIEM server setting (this host, port 514) and that UDP 514 is still open in this host's firewall".

Definition heads_up (created_at : time) (last_seen : option time) (now : time) : option string :=
  match last_seen with
  | None => if 600 * 10 ^ 9 <? now - created_at then Some NO_EVENTS else None
  | Some seen => if 86400 * 10 ^ 9 <? now - seen then Some SILENT else None
  end.
