(* ===== verification/NetCollapse.v ===== *)
(** * Collapsing and counting (crates/openvibes-netlog/src/collapse.rs, handle.rs and service.rs)

    The collapser's map and the counters are hash maps, so their iteration order is a parameter:
    a function that permutes their entries. *)
From S2P Require Import Prelude RustStd Text BTree Json NetAddr NetCef NetUnifi NetStore.
From stdpp Require Import prelude strings list gmap pretty.
From Stdlib Require Import ZArith Lia.

Open Scope Z_scope.

#[export] Instance ip_countable : Countable IpAddr.
Proof.
  refine (inj_countable'
    (fun ip => match ip with V4 a b c d => inl (a, b, c, d) | V6 l => inr l end)
    (fun x => match x with inl (a, b, c, d) => V4 a b c d | inr l => V6 l end) _).
  by intros [].
Defined.

(** ** The collapser (collapse.rs) *)

Record Key := { k_device : Z; k_signature : string; k_src : IpAddr }.
#[export] Instance key_eq_dec : EqDecision Key.
Proof. solve_decision. Defined.
#[export] Instance key_countable : Countable Key.
Proof.
  refine (inj_countable' (fun k => (k_device k, k_signature k, k_src k))
    (fun x => {| k_device := x.1.1; k_signature := x.1.2; k_src := x.2 |}) _).
  by intros [].
Defined.

Record Entry := { e_alarm : DeviceAlarm; e_dirty : bool }.

Record Collapser := { window : Z; max_keys : nat; open : gmap Key Entry }.
Definition collapser_new (window : Z) (max_keys : nat) : Collapser :=
  {| window := window; max_keys := max_keys; open := ∅ |}.

Definition with_open (c : Collapser) (m : gmap Key Entry) : Collapser :=
  {| window := window c; max_keys := max_keys c; open := m |}.

Definition keeps (window now : Z) (e : Entry) : bool :=
  e_dirty e || (now <? last_seen (e_alarm e) + window).
Definition retain (c : Collapser) (now : time) : gmap Key Entry :=
  filter (fun ke : Key * Entry => keeps (window c) now ke.2 = true) (open c).

Definition timestamp_millis (t : time) : Z := t / 10 ^ 6.

Definition key_of (device : Z) (i : Ips) : Key :=
  {| k_device := device; k_signature := signature_id i; k_src := src i |}.
Definition alarm_name (i : Ips) (now : time) : string :=
  signature_id i +:+ "/" +:+ show_ip (src i) +:+ "/" +:+ pretty (timestamp_millis now).

(** A repeat: one more event, seen [now]. *)
Definition again (i : Ips) (now : time) (e : Entry) : Entry :=
  let a := e_alarm e in
  {| e_alarm := {| device_id := device_id a; alarm_id := alarm_id a; rule_id := rule_id a;
                   severity := severity a; confidence := confidence a; message := NetStore.message a;
                   first_seen := first_seen a; last_seen := now; count := count a + 1;
                   network := NetUnifi.network i |};
     e_dirty := true |}.
Definition new_entry (device : Z) (i : Ips) (now : time) : Entry :=
  {| e_alarm := {| device_id := device; alarm_id := alarm_name i now; rule_id := "ips." +:+ signature_id i;
                   severity := ips_severity i; confidence := 80; message := NetUnifi.message i;
                   first_seen := now; last_seen := now; count := 1; network := NetUnifi.network i |};
     e_dirty := true |}.

(** [Iterator::min_by_key]: the first of the least. *)
Fixpoint min_by_key {A} (f : A -> Z) (l : list A) : option A :=
  match l with
  | [] => None
  | x :: l => match min_by_key f l with
              | Some y => if f y <? f x then Some y else Some x
              | None => Some x
              end
  end.

Section order.
(** The order the hash map of the collapser iterates in. *)
Context (order : list (Key * Entry) -> list (Key * Entry)).

Definition entries (m : gmap Key Entry) : list (Key * Entry) := order (map_to_list m).

Definition oldest_stored (m : gmap Key Entry) : option Key :=
  fst <$> min_by_key (fun ke => last_seen (e_alarm ke.2))
            (List.filter (fun ke => negb (e_dirty ke.2)) (entries m)).

(** The new state, and whether the event was counted. *)
Definition add (c : Collapser) (device : Z) (i : Ips) (now : time) : Collapser * bool :=
  let m := retain c now in
  let key := key_of device i in
  match m !! key with
  | Some e => (with_open c (<[key := again i now e]> m), true)
  | None =>
      if (max_keys c <=? size m)%nat then
        match oldest_stored m with
        | Some oldest => (with_open c (<[key := new_entry device i now]> (delete oldest m)), true)
        | None => (with_open c m, false)
        end
      else (with_open c (<[key := new_entry device i now]> m), true)
  end.

(** Alarms changed since they were last stored. *)
Definition dirty (c : Collapser) : list DeviceAlarm :=
  map (fun ke => e_alarm ke.2) (List.filter (fun ke => e_dirty ke.2) (entries (open c))).
End order.

Definition same_count (a b : DeviceAlarm) : bool :=
  (device_id a =? device_id b) && String.eqb (alarm_id a) (alarm_id b) && (count a =? count b).

(** [stored]: entries that did not change since the batch are clean. *)
Definition mark_stored (c : Collapser) (batch : list DeviceAlarm) : Collapser :=
  with_open c ((fun e => if existsb (same_count (e_alarm e)) batch
                         then {| e_alarm := e_alarm e; e_dirty := false |} else e) <$> open c).

(** ** One datagram (handle.rs) *)

Record HostCounters := { unknown_sender : Z; collapse_full : Z; host_unstorable : Z }.
Definition host_default : HostCounters := {| unknown_sender := 0; collapse_full := 0; host_unstorable := 0 |}.

Definition bump (classes : list (string * Z)) (key : string) : list (string * Z) :=
  if (length classes <? MAX_CLASSES)%nat || bt_contains str_cmp key classes
  then bt_alter str_cmp key (fun o => default 0 o + 1) classes else classes.

(** The memory of netlog: the known devices, the counters since the last flush, the collapser. *)
Record Netlog := {
  known : gmap IpAddr Z;
  counters : gmap Z Counters;
  collapser : Collapser;
  host : HostCounters;
}.

(** What one datagram adds to the counters of its device. *)
Inductive Count := CNotCef | CUnparsed | COther (key : string) | CMismatch | CIps (risk : option string) (added : bool).

Definition add_count (k : Count) (now : time) (c : Counters) : Counters :=
  {| received := received c + 1;
     alarms := alarms c + (match k with CIps _ true => 1 | _ => 0 end);
     not_cef := not_cef c + (match k with CNotCef => 1 | _ => 0 end);
     unparsed := unparsed c + (match k with CUnparsed => 1 | _ => 0 end);
     dropped_other := dropped_other c + (match k with COther _ => 1 | _ => 0 end);
     mismatch := mismatch c + (match k with CMismatch => 1 | _ => 0 end);
     classes := match k with
                | COther key => bump (classes c) key
                | CIps (Some risk) _ => bump (classes c) ("risk:" +:+ risk)
                | _ => classes c
                end;
     seen := Some now |}.

Section handle.
Context (order : list (Key * Entry) -> list (Key * Entry)).

Definition handle (datagram : list Z) (sender : IpAddr) (now : time) (s : Netlog) : Netlog :=
  let sender := to_canonical sender in
  match known s !! sender with
  | None =>
      {| known := known s; counters := counters s; collapser := collapser s;
         host := {| unknown_sender := unknown_sender (host s) + 1; collapse_full := collapse_full (host s);
                    host_unstorable := host_unstorable (host s) |} |}
  | Some id =>
      let '(k, collapser') :=
        match parse datagram with
        | NotCef => (CNotCef, collapser s)
        | Unparsed => (CUnparsed, collapser s)
        | IsCef cef =>
            match classify cef sender with
            | OOther key => (COther key, collapser s)
            | OMismatch => (CMismatch, collapser s)
            | OUnparsed => (CUnparsed, collapser s)
            | OIps i => let '(c, added) := add order (collapser s) id i now in (CIps (unknown_risk i) added, c)
            end
        end in
      {| known := known s;
         counters := <[id := add_count k now (default counters_default (counters s !! id))]> (counters s);
         collapser := collapser';
         host := {| unknown_sender := unknown_sender (host s);
                    collapse_full := collapse_full (host s) + (match k with CIps _ false => 1 | _ => 0 end);
                    host_unstorable := host_unstorable (host s) |} |}
  end.

(** ** The loop (service.rs)

    What the database answers: whether a connection is had, whether the batch's transaction is
    let through, and whether each flush is. *)
Record Answers := { connected : bool; batch_ok : bool; flush_ok : Z -> bool }.

Definition store (w : Answers) (now : time) (s : Netlog) (db : Tables) (devices : devices_table)
    : Netlog * Tables * devices_table :=
  if negb (connected w) then (s, db, devices)
  else
    let batch := dirty order (collapser s) in
    let after :=
      match batch with
      | [] => Some (collapser s, host s, db)
      | _ =>
          match (if batch_ok w then insert_batch db batch now else None) with
          | Some (db', done) =>
              Some (mark_stored (collapser s) batch,
                    {| unknown_sender := unknown_sender (host s); collapse_full := collapse_full (host s);
                       host_unstorable := host_unstorable (host s) + unstorable done |}, db')
          | None => None
          end
      end in
    match after with
    | None => (s, db, devices)
    | Some (c, _, db') =>
        ({| known := known s;
            counters := filter (fun ic => flush_ok w ic.1 = false) (counters s);
            collapser := c;
            host := host_default |},
         db',
         map_fold (fun id ct devices => if flush_ok w id then flush devices id ct else devices) devices (counters s))
    end.

(** [load_devices]: the list as read, or nothing when the database does not answer. *)
Definition load_devices (read : option (list (Z * IpAddr))) (s : Netlog) : Netlog :=
  match read with
  | Some l => {| known := list_to_map (rev (map (fun d => (d.2, d.1)) l)); counters := counters s;
                 collapser := collapser s; host := host s |}
  | None => s
  end.
End handle.
