(* ===== verification/NetProps.v ===== *)
(** * Properties of openvibes-netlog

    What the collapser does with one event, how one datagram is counted, and the service as a
    transition system: datagrams, stores that the database may refuse, reloads of the devices and
    what other programs do to the tables. *)
From S2P Require Import Prelude RustStd Text BTree Json NetAddr NetCef NetUnifi NetStore NetCollapse.
From stdpp Require Import prelude strings list gmap pretty.
From Stdlib Require Import ZArith Lia.

Open Scope Z_scope.

(** ** The oldest stored entry *)

Lemma min_by_key_None {A} (f : A -> Z) l : min_by_key f l = None <-> l = [].
Proof.
  split; [|by intros ->]. destruct l as [|x l]; [done|]. simpl.
  destruct (min_by_key f l) as [y|]; [by destruct (f y <? f x)|done].
Qed.

Lemma min_by_key_Some {A} (f : A -> Z) l x :
  min_by_key f l = Some x -> In x l /\ forall y, In y l -> f x <= f y.
Proof.
  revert x. induction l as [|a l IH]; intros x; simpl; [done|].
  destruct (min_by_key f l) as [y|] eqn:E.
  - destruct (IH y eq_refl) as [Hin Hle]. destruct (Z.ltb_spec (f y) (f a)); intros [= <-]; split; auto.
    + intros z [<-|Hz]; [lia|auto].
    + intros z [<-|Hz]; [lia|]. specialize (Hle z Hz). lia.
  - apply min_by_key_None in E as ->. intros [= ->]. split; [by left|]. intros y [->|[]]. lia.
Qed.

Section order.
Context (order : list (Key * Entry) -> list (Key * Entry)) (Horder : forall l, order l ≡ₚ l).
Implicit Types m : gmap Key Entry.

Lemma In_entries m k e : In (k, e) (entries order m) <-> m !! k = Some e.
Proof using Horder.
  unfold entries. rewrite <- list_elem_of_In, Horder. apply elem_of_map_to_list.
Qed.

Lemma oldest_stored_Some m k :
  oldest_stored order m = Some k ->
  exists e, m !! k = Some e /\ e_dirty e = false
    /\ forall k' e', m !! k' = Some e' -> e_dirty e' = false -> last_seen (e_alarm e) <= last_seen (e_alarm e').
Proof using Horder.
  unfold oldest_stored. intros ([k0 e] & E & ->)%fmap_Some.
  apply min_by_key_Some in E as [Hin Hle]. apply filter_In in Hin as [Hin He]. apply In_entries in Hin.
  exists e. split; [done|]. split; [by apply negb_true_iff|]. intros k' e' Hk' He'.
  apply (Hle (k', e')). apply filter_In. split; [by apply In_entries|]. simpl. by rewrite He'.
Qed.

Lemma oldest_stored_None m k e : oldest_stored order m = None -> m !! k = Some e -> e_dirty e = true.
Proof using Horder.
  unfold oldest_stored. intros E%fmap_None Hk. apply min_by_key_None in E.
  destruct (e_dirty e) eqn:He; [done|]. assert (In (k, e) []) as []. rewrite <- E.
  apply filter_In. split; [by apply In_entries|]. simpl. by rewrite He.
Qed.

Lemma In_dirty c a : In a (dirty order c) <-> exists k e, open c !! k = Some e /\ e_dirty e = true /\ e_alarm e = a.
Proof using Horder.
  unfold dirty. rewrite in_map_iff. split.
  - intros ([k e] & <- & Hin). apply filter_In in Hin as [Hin He]. apply In_entries in Hin. eauto.
  - intros (k & e & Hk & He & <-). exists (k, e). split; [done|]. apply filter_In. split; [by apply In_entries|done].
Qed.

Lemma retain_lookup c now k e :
  retain c now !! k = Some e <-> open c !! k = Some e /\ keeps (window c) now e = true.
Proof using Type. unfold retain. by rewrite map_lookup_filter_Some. Qed.

Lemma retain_dirty c now k e : open c !! k = Some e -> e_dirty e = true -> retain c now !! k = Some e.
Proof using Type. intros Hk He. apply retain_lookup. split; [done|]. unfold keeps. by rewrite He. Qed.

Lemma retain_size c now : (size (retain c now) <= size (open c))%nat.
Proof using Type. apply map_size_filter. Qed.

(** The three ways an event can end: counted into its alarm, a new alarm (maybe in the place of the
    oldest stored one), or dropped. *)
Lemma add_cases c device i now :
  let m := retain c now in
  let key := key_of device i in
  (exists e, m !! key = Some e /\ add order c device i now = (with_open c (<[key := again i now e]> m), true))
  \/ (m !! key = None /\ (size m < max_keys c)%nat
      /\ add order c device i now = (with_open c (<[key := new_entry device i now]> m), true))
  \/ (exists k e, m !! key = None /\ (max_keys c <= size m)%nat /\ m !! k = Some e /\ e_dirty e = false
      /\ (forall k' e', m !! k' = Some e' -> e_dirty e' = false -> last_seen (e_alarm e) <= last_seen (e_alarm e'))
      /\ add order c device i now = (with_open c (<[key := new_entry device i now]> (delete k m)), true))
  \/ (m !! key = None /\ (max_keys c <= size m)%nat /\ (forall k e, m !! k = Some e -> e_dirty e = true)
      /\ add order c device i now = (with_open c m, false)).
Proof using Horder.
  unfold add. simpl. set (m := retain c now). destruct (m !! key_of device i) as [e|] eqn:E; [left; eauto|].
  right. destruct (Nat.leb_spec (max_keys c) (size m)); [right|left; by auto].
  destruct (oldest_stored order m) as [k|] eqn:Eo.
  - left. destruct (oldest_stored_Some m k Eo) as (e & Hk & He & Hle). exists k, e. auto 10.
  - right. split; [done|]. split; [done|]. split; [|done]. intros k e. by apply oldest_stored_None.
Qed.

(** One event.  The map keeps within its limit.  No unstored alarm of another key is changed or lost.
    An event that is counted raises the open alarm of its device, signature and source, or opens one; nothing
    else is added, and an alarm that is neither expired nor this one leaves only when a full map needs the room,
    and then it is stored and the least recently seen of those.  An event is dropped only when the map is full
    of unstored alarms. *)
Theorem add_exact c device i now :
  (size (open c) <= max_keys c)%nat ->
  let m := retain c now in
  let key := key_of device i in
  let '(c', counted) := add order c device i now in
  (size (open c') <= max_keys c')%nat
  /\ (forall k e, k <> key -> open c !! k = Some e -> e_dirty e = true -> open c' !! k = Some e)
  /\ if counted then
       open c' !! key = Some (match m !! key with Some e => again i now e | None => new_entry device i now end)
       /\ (forall k e, k <> key -> open c' !! k = Some e -> m !! k = Some e)
       /\ (forall k e, k <> key -> m !! k = Some e -> open c' !! k = None ->
             m !! key = None /\ (max_keys c <= size m)%nat /\ e_dirty e = false
             /\ forall k' e', m !! k' = Some e' -> e_dirty e' = false ->
                  last_seen (e_alarm e) <= last_seen (e_alarm e'))
     else open c' = m /\ m !! key = None /\ (max_keys c <= size m)%nat
          /\ forall k e, m !! k = Some e -> e_dirty e = true.
Proof using Horder.
  intros Hsize m key. pose proof (retain_size c now) as Hr. fold m in Hr.
  pose proof (fun k e => retain_dirty c now k e) as Hd. fold m in Hd.
  destruct (add_cases c device i now) as [(e & Hk & ->)|[(Hk & Hm & ->)|[(k0 & e0 & Hk & Hm & Hk0 & He0 & Hle & ->)|(Hk & Hm & Hall & ->)]]];
    fold m key in Hk |- *; simpl.
  - rewrite map_size_insert_Some by eauto. split; [lia|]. split.
    { intros k e' Hne ? ?. rewrite lookup_insert_ne by done. by apply Hd. }
    rewrite lookup_insert_eq, Hk. split; [done|]. split; intros k e' Hne.
    + by rewrite lookup_insert_ne.
    + rewrite lookup_insert_ne by done. congruence.
  - fold m in Hm. rewrite map_size_insert_None by done. split; [lia|]. split.
    { intros k e' Hne ? ?. rewrite lookup_insert_ne by done. by apply Hd. }
    rewrite lookup_insert_eq, Hk. split; [done|]. split; intros k e' Hne.
    + by rewrite lookup_insert_ne.
    + rewrite lookup_insert_ne by done. congruence.
  - fold m in Hm, Hk0, Hle. split.
    { rewrite map_size_insert_None by (rewrite lookup_delete_ne; [done|congruence]).
      rewrite map_size_delete_Some by eauto.
      assert (size m <> 0)%nat by (intros E%map_size_empty_inv; rewrite E in Hk0; done). lia. }
    split.
    { intros k e' Hne Ho He. rewrite lookup_insert_ne by done. specialize (Hd k e' Ho He).
      destruct (decide (k0 = k)) as [->|]; [congruence|]. by rewrite lookup_delete_ne. }
    rewrite lookup_insert_eq, Hk. split; [done|]. split; intros k e' Hne.
    + rewrite lookup_insert_ne by done. by intros [_ ?]%lookup_delete_Some.
    + rewrite lookup_insert_ne by done. intros Hk' [->|Hn]%lookup_delete_None; [|congruence].
      rewrite Hk' in Hk0. injection Hk0 as ->. auto.
  - split; [lia|]. split; [intros k e' _; apply Hd|]. auto.
Qed.
End order.

(** ** Counting *)

(** The datagrams a device's counters account for. *)
Definition total (c : Counters) : Z := alarms c + not_cef c + unparsed c + dropped_other c + mismatch c.

Definition counters_of (s : Netlog) (id : Z) : Counters := default counters_default (counters s !! id).

Definition classes_ok (c : Counters) : Prop :=
  bt_sorted str_cmp (classes c) /\ (length (classes c) <= MAX_CLASSES)%nat.

Lemma bt_alter_length {K V} (cmp : K -> K -> comparison) `{!CmpOrder cmp} k (f : option V -> V) m :
  bt_sorted cmp m ->
  length (bt_alter cmp k f m) = if bt_contains cmp k m then length m else S (length m).
Proof.
  unfold bt_contains, bt_sorted. induction 1 as [|[k' v] m Hm IH Hall]; simpl; [done|].
  destruct (cmp k k') eqn:E; simpl; [done| |].
  - rewrite (bt_get_below cmp k m); [done|]. eapply Forall_impl; [exact Hall|]. simpl.
    intros e. by apply (cmp_lt_trans cmp).
  - rewrite IH. by destruct (bt_get cmp k m).
Qed.

Lemma bump_ok m key :
  bt_sorted str_cmp m /\ (length m <= MAX_CLASSES)%nat ->
  bt_sorted str_cmp (bump m key) /\ (length (bump m key) <= MAX_CLASSES)%nat.
Proof.
  intros [Hs Hl]. unfold bump. destruct (_ || _) eqn:E; [|done]. split; [by apply (bt_alter_sorted str_cmp)|].
  rewrite (bt_alter_length str_cmp) by done. destruct (bt_contains _ _ _); [done|].
  rewrite orb_false_r in E. apply Nat.ltb_lt in E. lia.
Qed.

Lemma add_count_ok k now c : classes_ok c -> classes_ok (add_count k now c).
Proof.
  intros Hc. unfold classes_ok in *. destruct k as [| |key| |[risk|] ?]; simpl; auto using bump_ok.
Qed.

Lemma add_count_total k now c :
  received (add_count k now c) = received c + 1
  /\ total (add_count k now c) + (match k with CIps _ false => 1 | _ => 0 end) = total c + 1.
Proof. unfold total. destruct k as [| |?| |? [|]]; simpl; lia. Qed.

(** Every datagram of a known device is received once and ends in exactly one count: an alarm, plain
    syslog, unparsed, another event, a mismatch, or the host's count of events dropped because the map was
    full; its device is the one registered for the sender's canonical address.  A datagram of another
    sender is only counted as such.  The class keys of every device stay at most 64. *)
Theorem handle_counts order datagram sender now s :
  (forall id, classes_ok (counters_of s id)) ->
  let s' := handle order datagram sender now s in
  known s' = known s
  /\ (forall id, classes_ok (counters_of s' id))
  /\ host_unstorable (host s') = host_unstorable (host s)
  /\ match known s !! to_canonical sender with
     | None => counters s' = counters s /\ collapser s' = collapser s
               /\ unknown_sender (host s') = unknown_sender (host s) + 1
               /\ collapse_full (host s') = collapse_full (host s)
     | Some id =>
         received (counters_of s' id) = received (counters_of s id) + 1
         /\ seen (counters_of s' id) = Some now
         /\ total (counters_of s' id) + collapse_full (host s') = total (counters_of s id) + collapse_full (host s) + 1
         /\ (forall id', id' <> id -> counters s' !! id' = counters s !! id')
         /\ unknown_sender (host s') = unknown_sender (host s)
     end.
Proof.
  intros Hok. unfold handle. simpl.
  destruct (known s !! to_canonical sender) as [id|]; simpl; [|by auto 10].
  assert (forall k c full unst unk,
    let s' := {| known := known s;
                 counters := <[id := add_count k now (counters_of s id)]> (counters s);
                 collapser := c;
                 host := {| unknown_sender := unk; collapse_full := full; host_unstorable := unst |} |} in
    counters_of s' id = add_count k now (counters_of s id)
    /\ (forall id', id' <> id -> counters s' !! id' = counters s !! id')
    /\ forall id', classes_ok (counters_of s' id')) as Hmain.
  { intros k c full unst unk. simpl.
    assert (Hid : forall id', id' <> id -> <[id:=add_count k now (counters_of s id)]> (counters s) !! id' = counters s !! id')
      by (intros id' Hne; by rewrite lookup_insert_ne).
    split; [unfold counters_of; simpl; by rewrite lookup_insert_eq|]. split; [done|]. intros id'.
    destruct (decide (id' = id)) as [->|Hne].
    - unfold counters_of at 1. simpl. rewrite lookup_insert_eq. apply add_count_ok, Hok.
    - unfold counters_of at 1. simpl. rewrite Hid by done. apply Hok. }
  set (r := match parse datagram with NotCef => _ | _ => _ end). destruct r as [k c]. simpl.
  destruct (Hmain k c (collapse_full (host s) + (match k with CIps _ false => 1 | _ => 0 end))
              (host_unstorable (host s)) (unknown_sender (host s))) as (Hc & Hne & Hcl).
  destruct (add_count_total k now (counters_of s id)) as [Hr Ht].
  split; [done|]. split; [exact Hcl|]. split; [done|].
  fold (counters_of s id). rewrite Hc. split; [done|]. split; [done|]. split; [lia|]. split; [exact Hne|done].
Qed.

(** ** What a batch stores *)

Definition same_id (a b : DeviceAlarm) : Prop := device_id a = device_id b /\ alarm_id a = alarm_id b.

(** The table has the alarm, with at least its count and as recently seen. *)
Definition recorded (db : Tables) (a : DeviceAlarm) : Prop :=
  exists r, In r (rows db) /\ same_id (alarm r) a /\ count a <= count (alarm r)
            /\ pg_time (last_seen a) <= last_seen (alarm r).

(** The alarms of a batch no partition of the table takes. *)
Definition no_partition (db : Tables) (a : DeviceAlarm) : bool :=
  negb (existsb (Z.eqb (date_naive (first_seen a))) (partitions db)).

(** [db'] keeps the alarms of [db]: their counts and times only grow. *)
Definition keeps_rows (db db' : Tables) : Prop :=
  forall r, In r (rows db) -> exists r', In r' (rows db') /\ same_id (alarm r') (alarm r)
    /\ count (alarm r) <= count (alarm r') /\ last_seen (alarm r) <= last_seen (alarm r').

Lemma keeps_rows_refl db : keeps_rows db db.
Proof. intros r Hr. exists r. split; [done|]. split; [done|]. lia. Qed.

Lemma keeps_rows_trans db1 db2 db3 : keeps_rows db1 db2 -> keeps_rows db2 db3 -> keeps_rows db1 db3.
Proof.
  intros H12 H23 r Hr. destruct (H12 r Hr) as (r' & Hr' & [E1 E2] & ? & ?).
  destruct (H23 r' Hr') as (r'' & ? & [E3 E4] & ? & ?). exists r''. split; [done|].
  split; [split; congruence|lia].
Qed.

Lemma recorded_keeps db db' a : keeps_rows db db' -> recorded db a -> recorded db' a.
Proof.
  intros Hk (r & Hr & [E1 E2] & ? & ?). destruct (Hk r Hr) as (r' & ? & [E3 E4] & ? & ?).
  exists r'. split; [done|]. split; [split; congruence|lia].
Qed.

Lemma keeps_rows_update db id day f :
  (forall r, same_id (alarm (f r)) (alarm r) /\ count (alarm r) <= count (alarm (f r))
             /\ last_seen (alarm r) <= last_seen (alarm (f r))) ->
  keeps_rows db (with_rows (update_row id day f) db).
Proof.
  intros Hf r Hr. exists (if (row_id r =? id) && (first_seen_day r =? day) then f r else r).
  split; [by apply (in_map (fun r => if (row_id r =? id) && (first_seen_day r =? day) then f r else r))|].
  destruct (_ && _); [apply Hf|]. split; [done|]. lia.
Qed.

Lemma keeps_rows_grow db id day a : keeps_rows db (with_rows (update_row id day (grow a)) db).
Proof. apply keeps_rows_update. intros r. simpl. split; [done|]. lia. Qed.
Lemma keeps_rows_reopen db id day now : keeps_rows db (with_rows (update_row id day (reopen now)) db).
Proof. apply keeps_rows_update. intros r. simpl. split; [done|]. lia. Qed.

Lemma known_Some db a r : NetStore.known db a = Some r -> In r (rows db) /\ same_id (alarm r) a.
Proof.
  unfold NetStore.known. intros [Hin Hs]%find_some. split; [done|]. unfold same_alarm in Hs. bprop.
  split; [by apply Z.eqb_eq|by apply String.eqb_eq].
Qed.

Lemma pg_time_le t : pg_time t <= t.
Proof. unfold pg_time. pose proof (Z.mul_div_le t 1000). lia. Qed.
Lemma pg_time_mono t u : t <= u -> pg_time t <= pg_time u.
Proof. intros H. unfold pg_time. pose proof (Z.div_le_mono t u 1000). lia. Qed.

Lemma insert_one_rows now db done a db' done' :
  insert_one now (db, done) a = Some (db', done') ->
  keeps_rows db db' /\ partitions db' = partitions db
  /\ (if no_partition db a then unstorable done' = unstorable done + 1
      else recorded db' a /\ unstorable done' = unstorable done).
Proof.
  unfold insert_one. fold (no_partition db a). destruct (no_partition db a).
  { intros [= <- <-]. split; [apply keeps_rows_refl|done]. }
  destruct (NetStore.known db a) as [r|] eqn:Ek.
  - apply known_Some in Ek as [Hin Hid]. destruct (_ && _) eqn:E.
    { intros [= <- <-]. split; [apply keeps_rows_refl|]. split; [done|]. split; [|done]. bprop.
      rewrite !Z.leb_le in *. exists r. split; [done|]. split; [done|]. pose proof (pg_time_le (last_seen a)). lia. }
    assert (recorded (with_rows (update_row (row_id r) (first_seen_day r) (grow a)) db) a) as Hrec.
    { exists (grow a r). split; [|by split; [destruct Hid|simpl; lia]].
      apply in_map_iff. exists r. split; [|done]. by rewrite !Z.eqb_refl. }
    clear E. destruct ((count (alarm r) <? count a) && _); intros [= <- <-]; simpl.
    + split; [eapply keeps_rows_trans; [apply keeps_rows_grow|apply keeps_rows_reopen]|]. split; [done|].
      split; [|done]. exact (recorded_keeps _ _ a (keeps_rows_reopen _ _ _ now) Hrec).
    + split; [apply keeps_rows_grow|done].
  - unfold insert_new. destruct (suppression_of db a) as [s|]; simpl.
    all: destruct (row_checks _); [|done]; intros [= <- <-].
    all: split; [intros r Hr; exists r; split; [by apply in_or_app; left|split; [done|lia]]|].
    all: split; [done|]; split; [|done].
    all: eexists; split; [apply in_or_app; right; by left|]; split; [done|]; simpl; lia.
Qed.

Lemma insert_all_rows now l db done db' done' :
  insert_all now (db, done) l = Some (db', done') ->
  keeps_rows db db' /\ (forall a, In a l -> recorded db' a \/ no_partition db a = true)
  /\ unstorable done' = unstorable done + Z.of_nat (length (List.filter (no_partition db) l)).
Proof.
  revert db done. induction l as [|a l IH]; intros db done; cbn [insert_all].
  { intros [= <- <-]. split; [apply keeps_rows_refl|]. split; [by intros ? []|simpl; lia]. }
  destruct (insert_one now (db, done) a) as [[db1 done1]|] eqn:E1; [|done]. intros E.
  apply insert_one_rows in E1 as (Hk1 & Hp1 & H1). apply IH in E as (Hk & Hl & Hu).
  assert (forall b, no_partition db1 b = no_partition db b) as Hp by (intros b; unfold no_partition; by rewrite Hp1).
  split; [by eapply keeps_rows_trans|]. split.
  - intros b [<-|Hb].
    + destruct (no_partition db a); [by right|]. left. by eapply recorded_keeps; [|apply H1].
    + rewrite <- Hp. by apply Hl.
  - rewrite (filter_ext _ (no_partition db)) in Hu by (intros; apply Hp).
    cbn [List.filter]. destruct (no_partition db a); cbn [length]; lia.
Qed.

(** ** The service as a transition system *)

(** The alarm a datagram was counted into, as it stands after the event. *)
Definition counted_by order (datagram : list Z) (sender : IpAddr) (now : time) (s : Netlog) : list DeviceAlarm :=
  match NetCollapse.known s !! to_canonical sender, parse datagram with
  | Some id, IsCef c =>
      match classify c (to_canonical sender) with
      | OIps i =>
          let '(c', counted) := add order (collapser s) id i now in
          if counted then match open c' !! key_of id i with Some e => [e_alarm e] | None => [] end else []
      | _ => []
      end
  | _, _ => []
  end.

(** The alarms a store leaves out because no partition takes their day. *)
Definition skipped_by order (a : Answers) (now : time) (s : Netlog) (db : Tables) : list DeviceAlarm :=
  let batch := dirty order (collapser s) in
  if connected a && batch_ok a && is_some (insert_batch db batch now)
  then List.filter (no_partition db) batch else [].

(** [w_counted] and [w_skipped] are what happened so far; the program does not read them. *)
Record World := {
  w_net : Netlog;
  w_db : Tables;
  w_devices : devices_table;
  w_clock : time;
  w_counted : list DeviceAlarm;
  w_skipped : list DeviceAlarm;
}.

Definition after_store order (a : Answers) (now : time) (w : World) : World :=
  let '(net, db, devices) := store order a now (w_net w) (w_db w) (w_devices w) in
  {| w_net := net; w_db := db; w_devices := devices; w_clock := now; w_counted := w_counted w;
     w_skipped := w_skipped w ++ skipped_by order a now (w_net w) (w_db w) |}.

Definition after_datagram order (datagram : list Z) (sender : IpAddr) (now : time) (w : World) : World :=
  {| w_net := handle order datagram sender now (w_net w); w_db := w_db w; w_devices := w_devices w;
     w_clock := now; w_counted := w_counted w ++ counted_by order datagram sender now (w_net w);
     w_skipped := w_skipped w |}.

Section system.
Context (order : list (Key * Entry) -> list (Key * Entry)) (Horder : forall l, order l ≡ₚ l).
(** How the wall clock may move between two readings. *)
Context (ticks : time -> time -> Prop).

Inductive step : World -> World -> Prop :=
  | step_datagram w datagram sender now :
      ticks (w_clock w) now -> step w (after_datagram order datagram sender now w)
  | step_store w a now : ticks (w_clock w) now -> step w (after_store order a now w)
  | step_reload w read :
      step w {| w_net := load_devices read (w_net w); w_db := w_db w; w_devices := w_devices w;
                w_clock := w_clock w; w_counted := w_counted w; w_skipped := w_skipped w |}
  (** Another program: triage, new partitions, new suppressions. *)
  | step_other w db :
      keeps_rows (w_db w) db ->
      step w {| w_net := w_net w; w_db := db; w_devices := w_devices w; w_clock := w_clock w;
                w_counted := w_counted w; w_skipped := w_skipped w |}.

Inductive started : World -> Prop :=
  | started_world db devices clock window max_keys :
      started {| w_net := {| NetCollapse.known := ∅; counters := ∅; collapser := collapser_new window max_keys;
                             host := host_default |};
                 w_db := db; w_devices := devices; w_clock := clock; w_counted := []; w_skipped := [] |}.

Inductive reachable : World -> Prop :=
  | reach_start w : started w -> reachable w
  | reach_step w w' : reachable w -> step w w' -> reachable w'.

(** The alarm [a] has reached its count in [b]. *)
Definition covers (b a : DeviceAlarm) : Prop := same_id b a /\ count a <= count b.

Definition in_table (db : Tables) (a : DeviceAlarm) : Prop := exists r, In r (rows db) /\ covers (alarm r) a.
Definition waiting (s : Netlog) (a : DeviceAlarm) : Prop := exists b, In b (dirty order (collapser s)) /\ covers b a.
Definition accounted (w : World) (a : DeviceAlarm) : Prop :=
  in_table (w_db w) a \/ waiting (w_net w) a \/ exists b, In b (w_skipped w) /\ covers b a.

Lemma covers_trans a b c : covers c b -> covers b a -> covers c a.
Proof using Type. intros [[] ?] [[] ?]. split; [split; congruence|lia]. Qed.

Lemma recorded_in_table db a b : recorded db b -> covers b a -> in_table db a.
Proof using Type. intros (r & Hr & Hid & ? & ?) Hb. exists r. split; [done|]. eapply covers_trans; [|done]. by split. Qed.

Lemma in_table_keeps db db' a : keeps_rows db db' -> in_table db a -> in_table db' a.
Proof using Type.
  intros Hk (r & Hr & Hc). destruct (Hk r Hr) as (r' & ? & ? & ? & ?). exists r'. split; [done|].
  eapply covers_trans; [|done]. by split.
Qed.

(** An event leaves what waits in the map waiting, and its own alarm too. *)
Lemma add_waits c device i now c' counted a :
  add order c device i now = (c', counted) ->
  In a (dirty order c) -> exists b, In b (dirty order c') /\ covers b a.
Proof using Horder.
  intros E (k & e & Hk & He & <-)%In_dirty; [|done].
  pose proof (retain_dirty c now k e Hk He) as Hr.
  assert (forall m, m !! k = Some e -> In (e_alarm e) (dirty order (with_open c m))) as Hin.
  { intros m Hm. apply In_dirty; [done|]. eauto. }
  assert (covers (e_alarm e) (e_alarm e)) as Hself by (split; [done|lia]).
  destruct (add_cases order Horder c device i now) as [(e1 & Hk1 & E1)|[(Hk1 & _ & E1)|[(k0 & e0 & Hk1 & _ & Hk0 & He0 & _ & E1)|(_ & _ & _ & E1)]]];
    rewrite E in E1; injection E1 as -> ->.
  - destruct (decide (k = key_of device i)) as [->|Hne].
    + rewrite Hr in Hk1. injection Hk1 as <-. exists (e_alarm (again i now e)). split; [|split; [done|simpl; lia]].
      apply In_dirty; [done|]. exists (key_of device i), (again i now e). simpl. by rewrite lookup_insert_eq.
    + exists (e_alarm e). split; [|done]. apply Hin. by rewrite lookup_insert_ne.
  - exists (e_alarm e). split; [|done]. apply Hin. rewrite lookup_insert_ne by congruence. done.
  - exists (e_alarm e). split; [|done]. apply Hin. rewrite lookup_insert_ne by congruence.
    rewrite lookup_delete_ne by congruence. done.
  - exists (e_alarm e). auto.
Qed.

Lemma add_counted c device i now c' :
  add order c device i now = (c', true) ->
  exists e, open c' !! key_of device i = Some e /\ e_dirty e = true.
Proof using Horder.
  intros E. destruct (add_cases order Horder c device i now) as [(e1 & Hk1 & E1)|[(Hk1 & _ & E1)|[(k0 & e0 & Hk1 & _ & Hk0 & He0 & _ & E1)|(_ & _ & _ & E1)]]];
    rewrite E in E1; injection E1 as ->; simpl; rewrite ?lookup_insert_eq; eauto.
  done.
Qed.

(** [handle] on the collapser. *)
Lemma handle_collapser datagram sender now s :
  (collapser (handle order datagram sender now s) = collapser s /\ counted_by order datagram sender now s = [])
  \/ exists id c i c' counted,
       NetCollapse.known s !! to_canonical sender = Some id /\ parse datagram = IsCef c
       /\ classify c (to_canonical sender) = OIps i
       /\ add order (collapser s) id i now = (c', counted)
       /\ collapser (handle order datagram sender now s) = c'
       /\ counted_by order datagram sender now s
          = if counted then match open c' !! key_of id i with Some e => [e_alarm e] | None => [] end else [].
Proof using Type.
  unfold handle, counted_by. destruct (NetCollapse.known s !! to_canonical sender) as [id|]; [|by left].
  destruct (parse datagram) as [| |c]; [by left..|].
  destruct (classify c (to_canonical sender)) as [i| | |] eqn:Ec; [|by left..].
  destruct (add order (collapser s) id i now) as [c' counted] eqn:E. right.
  exists id, c, i, c', counted. auto 10.
Qed.

(** [store] on the collapser and the tables: the batch goes in, or nothing changes. *)
Lemma store_cases a now s db devices :
  let batch := dirty order (collapser s) in
  let r := store order a now s db devices in
  (exists done, insert_batch db batch now = Some (r.1.2, done)
     /\ connected a = true /\ batch_ok a = true
     /\ collapser r.1.1 = mark_stored (collapser s) batch
     /\ skipped_by order a now s db = List.filter (no_partition db) batch)
  \/ (collapser r.1.1 = collapser s /\ r.1.2 = db
      /\ (batch = [] \/ connected a = false \/ batch_ok a = false \/ insert_batch db batch now = None)
      /\ skipped_by order a now s db = []).
Proof using Type.
  intros batch r. subst r. unfold store, skipped_by. fold batch. clearbody batch.
  destruct (connected a); [|right; simpl; auto 10].
  destruct (batch_ok a); simpl.
  2:{ right. destruct batch; simpl; auto 10. }
  destruct batch as [|b l]; [right; simpl; auto 10|].
  destruct (insert_batch db (b :: l) now) as [[db' done]|] eqn:Ei.
  - left. exists done. auto 10.
  - right. auto 10.
Qed.

Lemma accounted_store a now w b :
  accounted w b -> accounted (after_store order a now w) b.
Proof using Horder.
  unfold after_store. pose proof (store_cases a now (w_net w) (w_db w) (w_devices w)) as Hs. simpl in Hs.
  destruct (store order a now (w_net w) (w_db w) (w_devices w)) as [[net db] devices]. simpl in Hs.
  intros Hb. destruct Hs as [(dn & Hi & _ & _ & Hc & Hsk)|(Hc & -> & _ & _)].
  - apply insert_all_rows in Hi as (Hk & Hl & _). destruct Hb as [Hb|[(b' & Hin & Hb)|(b' & Hin & Hb)]].
    + left. by eapply in_table_keeps.
    + destruct (Hl b' Hin) as [Hr|Hn]; [left; by eapply recorded_in_table|].
      right; right. exists b'. split; [|done]. simpl. apply in_or_app. right. rewrite Hsk.
      apply filter_In. by split.
    + right; right. exists b'. split; [|done]. simpl. apply in_or_app. by left.
  - destruct Hb as [Hb|[(b' & Hin & Hb)|(b' & Hin & Hb)]].
    + by left.
    + right; left. exists b'. unfold dirty. simpl. by rewrite Hc.
    + right; right. exists b'. split; [|done]. simpl. apply in_or_app. by left.
Qed.

Lemma accounted_datagram datagram sender now w b :
  accounted w b \/ In b (counted_by order datagram sender now (w_net w)) ->
  accounted (after_datagram order datagram sender now w) b.
Proof using Horder.
  unfold after_datagram, accounted, waiting. simpl. intros Hb.
  destruct (handle_collapser datagram sender now (w_net w)) as [[Hc Hn]|(id & c & i & c' & counted & _ & _ & _ & E & Hc & Hn)];
    rewrite Hn, Hc in *.
  { by destruct Hb as [Hb|[]]. }
  destruct Hb as [[Hb|[(b' & Hin & Hb)|Hb]]|Hb]; [by left| |by auto|].
  - destruct (add_waits _ _ _ _ _ _ _ E Hin) as (b'' & Hin' & Hb''). right; left. exists b''.
    split; [done|]. by eapply covers_trans.
  - destruct counted; [|done]. destruct (add_counted _ _ _ _ _ E) as (e & He & Hd). rewrite He in Hb.
    destruct Hb as [<-|[]]. right; left. exists (e_alarm e). split; [|split; [done|lia]].
    apply In_dirty; [done|]. eauto.
Qed.

Lemma reachable_accounted w : reachable w -> forall a, In a (w_counted w) -> accounted w a.
Proof using Horder.
  induction 1 as [w Hw|w w' _ IH Hs]; intros b Hb; [by destruct Hw|].
  destruct Hs as [w datagram sender now _|w a now _|w read|w db Hk].
  - apply accounted_datagram. simpl in Hb. apply in_app_or in Hb as [Hb|Hb]; auto.
  - apply accounted_store, IH. unfold after_store in Hb. by destruct (store _ _ _ _ _ _) as [[? ?] ?].
  - specialize (IH b Hb). destruct read; exact IH.
  - destruct (IH b Hb) as [Hb'|[Hb'|Hb']]; [left; by eapply in_table_keeps|by right; left|by right; right].
Qed.

(** C5: No counted event is ever lost.  Whatever the order of datagrams, stores, refusals of the database,
    reloads and clock changes, every event that was counted into an alarm is in the [alarms] table with at
    least the count it raised the alarm to, or waits in the map to be stored, or its alarm was left out,
    and counted as such, because the table had no partition for its day. *)
Theorem no_event_lost w : reachable w -> forall a, In a (w_counted w) -> accounted w a.
Proof using Horder. exact (reachable_accounted w). Qed.
End system.

(** ** While the clock does not go back *)

Definition SEVERITIES : list string := ["critical"; "high"; "medium"; "low"; "info"].

Record alarm_ok (clock : time) (a : DeviceAlarm) : Prop := {
  ok_severity : existsb (String.eqb (NetStore.severity a)) SEVERITIES = true;
  ok_confidence : confidence a = 80;
  ok_count : 1 <= count a;
  ok_seen : first_seen a <= last_seen a <= clock;
}.

Lemma alarm_ok_later clock clock' a : clock <= clock' -> alarm_ok clock a -> alarm_ok clock' a.
Proof. intros Hc [? ? ? ?]. split; [done|done|done|lia]. Qed.

Lemma cef_severity_name_ok s : existsb (String.eqb (cef_severity_name s)) SEVERITIES = true.
Proof. unfold cef_severity_name. destruct (parse_uint _ _) as [n|]; [|done]. by repeat destruct (n <=? _). Qed.

Lemma severity_of_ok risk s : existsb (String.eqb (severity_of risk s).1) SEVERITIES = true.
Proof.
  unfold severity_of. destruct (risk ≫= known_risk) as [k|] eqn:E; [|apply cef_severity_name_ok].
  destruct risk as [r|]; [|done]. simpl in E. unfold known_risk in E.
  repeat (case_match; [by simplify_eq|]). done.
Qed.

Lemma fields_severity c i : fields c = Some i -> existsb (String.eqb (ips_severity i)) SEVERITIES = true.
Proof.
  unfold fields. intros E. pose proof (severity_of_ok (ext_get c "UNIFIrisk") (NetCef.severity c)) as Hs.
  destruct (ext_get c "UNIFIipsSignatureId") as [sig|]; [|done]. simpl in E.
  destruct (_ || _ || _); [done|]. destruct (severity_of _ _) as [sv risk]. simpl in Hs, E.
  destruct (ext_get c "src" ≫= parse_ip) as [src|]; [|done]. simpl in E.
  destruct (port (ext_get c "spt")) as [spt|]; [|done]. simpl in E.
  destruct (ext_get c "dst" ≫= parse_ip) as [dst|]; [|done]. simpl in E.
  destruct (port (ext_get c "dpt")) as [dpt|]; [|done]. simpl in E. by injection E as <-.
Qed.

Lemma classify_severity c ip i : classify c ip = OIps i -> existsb (String.eqb (ips_severity i)) SEVERITIES = true.
Proof.
  unfold classify. destruct (is_ips c); [|done]. cbn [negb].
  destruct (match ext_get c "UNIFIdeviceIp" with Some _ => _ | None => _ end); [done|].
  destruct (fields c) as [j|] eqn:E; [|done]. intros [= <-]. by apply (fields_severity c).
Qed.

Definition collapser_ok (clock : time) (c : Collapser) : Prop :=
  forall k e, open c !! k = Some e -> alarm_ok clock (e_alarm e).

Lemma row_checks_bound clock a : alarm_ok clock a -> row_checks (bound a) = true.
Proof.
  intros [Hs Hc Hn [Hf _]]. unfold row_checks, bound. cbn -[existsb]. fold SEVERITIES. rewrite Hs, Hc. simpl.
  pose proof (pg_time_mono _ _ Hf). apply andb_true_iff. split; [apply Z.ltb_lt; lia|by apply Z.leb_le].
Qed.

Lemma insert_all_ok clock now l st :
  Forall (alarm_ok clock) l -> exists st', insert_all now st l = Some st'.
Proof.
  intros Hl. revert st. induction Hl as [|a l Ha _ IH]; intros st; [by exists st|]. cbn [insert_all].
  assert (exists st1, insert_one now st a = Some st1) as [st1 ->]; [|apply IH].
  destruct st as [db dn]. unfold insert_one. destruct (negb _); [eauto|].
  destruct (NetStore.known db a) as [r|]; [destruct (_ && _); eauto|].
  unfold insert_new. destruct (suppression_of db a) as [s|]; simpl; rewrite (row_checks_bound clock a Ha); simpl; eauto.
Qed.

Section monotone.
Context (order : list (Key * Entry) -> list (Key * Entry)) (Horder : forall l, order l ≡ₚ l).

Lemma add_ok clock c device i now c' counted :
  clock <= now -> existsb (String.eqb (ips_severity i)) SEVERITIES = true ->
  collapser_ok clock c -> add order c device i now = (c', counted) -> collapser_ok now c'.
Proof using Horder.
  intros Hle Hsev Hok E.
  assert (forall k e, retain c now !! k = Some e -> alarm_ok now (e_alarm e)) as Hr.
  { intros k e [Hk _]%retain_lookup. eapply alarm_ok_later; [exact Hle|]. by apply (Hok k). }
  assert (alarm_ok now (e_alarm (new_entry device i now))) as Hnew by (split; simpl; [done|done|lia|lia]).
  destruct (add_cases order Horder c device i now) as [(e1 & Hk1 & E1)|[(_ & _ & E1)|[(k0 & e0 & _ & _ & _ & _ & _ & E1)|(_ & _ & _ & E1)]]];
    rewrite E in E1; injection E1 as -> _; intros k e; simpl.
  - intros [[_ <-]|[_ Hk]]%lookup_insert_Some; [|by apply (Hr k)].
    destruct (Hr _ _ Hk1) as [? ? ? ?]. split; simpl; [done|done|lia|lia].
  - intros [[_ <-]|[_ Hk]]%lookup_insert_Some; [done|by apply (Hr k)].
  - intros [[_ <-]|[_ Hk]]%lookup_insert_Some; [done|]. apply lookup_delete_Some in Hk as [_ Hk]. by apply (Hr k).
  - apply Hr.
Qed.

Lemma mark_stored_lookup c batch k e :
  open (mark_stored c batch) !! k = Some e ->
  exists e0, open c !! k = Some e0 /\ e_alarm e = e_alarm e0
             /\ e_dirty e = e_dirty e0 && negb (existsb (same_count (e_alarm e0)) batch).
Proof using Type.
  unfold mark_stored. simpl. rewrite lookup_fmap, fmap_Some. intros (e0 & Hk & ->). exists e0.
  split; [done|]. destruct (existsb _ _); simpl; [by rewrite andb_false_r|by rewrite andb_true_r].
Qed.

Lemma same_count_refl a : same_count a a = true.
Proof using Type. unfold same_count. by rewrite !Z.eqb_refl, String.eqb_refl. Qed.

Lemma mark_stored_clean c : dirty order (mark_stored c (dirty order c)) = [].
Proof using Horder.
  destruct (dirty order (mark_stored c (dirty order c))) as [|a l] eqn:E; [done|]. exfalso.
  assert (In a (dirty order (mark_stored c (dirty order c)))) as Hin by (rewrite E; by left).
  apply In_dirty in Hin as (k & e & Hk & He & _); [|done].
  apply mark_stored_lookup in Hk as (e0 & Hk & _ & Hd). rewrite He in Hd. symmetry in Hd. bprop.
  assert (existsb (same_count (e_alarm e0)) (dirty order c) = true) as Hx; [|congruence].
  apply existsb_exists. exists (e_alarm e0). split; [|apply same_count_refl]. apply In_dirty; [done|]. eauto.
Qed.

Lemma reachable_ok w : reachable order Z.le w -> collapser_ok (w_clock w) (collapser (w_net w)).
Proof using Horder.
  induction 1 as [w Hw|w w' _ IH Hs]; [by destruct Hw|].
  destruct Hs as [w datagram sender now Ht|w a now Ht|w read|w db Hk].
  - unfold after_datagram. simpl.
    destruct (handle_collapser order datagram sender now (w_net w)) as [[-> _]|(id & c & i & c' & counted & _ & _ & Hi & E & -> & _)].
    + intros k e Hk. eapply alarm_ok_later; [exact Ht|]. by apply (IH k).
    + eapply add_ok; [exact Ht| |exact IH|exact E]. by apply (classify_severity c (to_canonical sender)).
  - unfold after_store. pose proof (store_cases order a now (w_net w) (w_db w) (w_devices w)) as Hs. simpl in Hs.
    destruct (store order a now (w_net w) (w_db w) (w_devices w)) as [[net db] devices]. simpl in Hs |- *.
    intros k e Hk. eapply alarm_ok_later; [exact Ht|].
    destruct Hs as [(dn & _ & _ & _ & Hc & _)|(Hc & _)]; rewrite Hc in Hk; [|by apply (IH k)].
    apply mark_stored_lookup in Hk as (e0 & Hk & -> & _). by apply (IH k).
  - destruct read; exact IH.
  - exact IH.
Qed.

(** C36: The retry buffer drains.  While the clock never goes back, the schema refuses no alarm of a batch: as
    soon as the database answers, a store leaves nothing unstored, and every event counted so far is in the
    table, or left out for want of a partition. *)
Theorem store_drains w a now :
  reachable order Z.le w -> connected a = true -> batch_ok a = true ->
  let w' := after_store order a now w in
  dirty order (collapser (w_net w')) = []
  /\ forall b, In b (w_counted w) -> in_table (w_db w') b \/ exists b', In b' (w_skipped w') /\ covers b' b.
Proof using Horder.
  intros Hw Hc Hb w'. 
  assert (dirty order (collapser (w_net w')) = []) as Hd.
  { unfold w', after_store. pose proof (store_cases order a now (w_net w) (w_db w) (w_devices w)) as Hs. simpl in Hs.
    destruct (store order a now (w_net w) (w_db w) (w_devices w)) as [[net db] devices]. simpl in Hs |- *.
    destruct Hs as [(dn & _ & _ & _ & -> & _)|(-> & _ & Hs & _)]; [apply mark_stored_clean|].
    destruct Hs as [Hs|[Hs|[Hs|Hs]]]; [done|congruence|congruence|].
    destruct (insert_all_ok (w_clock w) now (dirty order (collapser (w_net w))) (w_db w, stored_default)) as [st E];
      [|unfold insert_batch in Hs; congruence].
    rewrite Forall_forall. intros x Hx%list_elem_of_In. apply In_dirty in Hx as (k & e & Hk & _ & <-); [|done].
    by apply (reachable_ok w Hw k). }
  split; [exact Hd|]. intros b Hin.
  destruct (accounted_store order Horder a now w b (reachable_accounted order Horder Z.le w Hw b Hin)) as [Ht|[(x & Hx & _)|Hs]];
    [by left| |by right].
  unfold w' in Hd. by rewrite Hd in Hx.
Qed.
End monotone.

(** ** Witnesses *)

Definition any_order (l : list (Key * Entry)) : list (Key * Entry) := l.
Lemma any_order_perm l : any_order l ≡ₚ l.
Proof. done. Qed.

(** 2026-10-10 17:08:29. *)
Definition noon : time := 1791652109 * 10 ^ 9.

Definition world_start : World :=
  {| w_net := {| NetCollapse.known := ∅; counters := ∅; collapser := collapser_new (600 * 10 ^ 9) 2; host := host_default |};
     w_db := {| rows := []; next_row := 1; history := []; partitions := [date_naive noon];
                suppressions := [{| sup_id := 4; sup_rule := "ips.1"; sup_device := None |}] |};
     w_devices := [(7, counters_default)]; w_clock := noon; w_counted := []; w_skipped := [] |}.
Definition world_loaded : World :=
  {| w_net := load_devices (Some [(7, V4 192 168 0 1)]) (w_net world_start); w_db := w_db world_start;
     w_devices := w_devices world_start; w_clock := noon; w_counted := []; w_skipped := [] |}.

Definition answers (up : bool) : Answers := {| connected := up; batch_ok := true; flush_ok := fun _ => true |}.
Definition event (sender : string) (now : time) (w : World) : World :=
  after_datagram any_order (bytes old_line) (default (V4 0 0 0 0) (parse_ip sender)) now w.

(** Two events, one seen through an IPv4-mapped sender; the database is down, then up; one more event. *)
Definition world_run : World :=
  event "192.168.0.1" (noon + 4)
    (after_store any_order (answers true) (noon + 3)
      (after_store any_order (answers false) (noon + 3)
        (event "::ffff:192.168.0.1" (noon + 2) (event "192.168.0.1" (noon + 1) world_loaded)))).

Lemma reach_event sender now w :
  reachable any_order Z.le w -> w_clock w <= now -> reachable any_order Z.le (event sender now w).
Proof. intros Hw Hn. eapply reach_step; [exact Hw|]. exact (step_datagram any_order Z.le w _ _ now Hn). Qed.
Lemma reach_store a now w :
  reachable any_order Z.le w -> w_clock w <= now -> reachable any_order Z.le (after_store any_order a now w).
Proof. intros Hw Hn. eapply reach_step; [exact Hw|]. exact (step_store any_order Z.le w a now Hn). Qed.
Lemma clock_store a now w : w_clock (after_store any_order a now w) = now.
Proof. unfold after_store. by destruct (store _ _ _ _ _ _) as [[? ?] ?]. Qed.
Lemma clock_event sender now w : w_clock (event sender now w) = now.
Proof. done. Qed.

Lemma world_run_reachable : reachable any_order Z.le world_run.
Proof.
  unfold world_run.
  apply reach_event; [apply reach_store; [apply reach_store; [apply reach_event; [apply reach_event|]|]|]|].
  1: exact (reach_step any_order Z.le world_start world_loaded (reach_start _ _ _ (started_world _ _ _ _ _))
              (step_reload any_order Z.le world_start (Some [(7, V4 192 168 0 1)]))).
  all: rewrite ?clock_store, ?clock_event; unfold world_loaded, w_clock; lia.
Qed.

Lemma no_event_lost_witness :
  map count (w_counted world_run) = [1; 2; 3] /\ map (fun r => count (alarm r)) (rows (w_db world_run)) = [2]
  /\ forall a, In a (w_counted world_run) -> accounted any_order world_run a.
Proof.
  split; [vm_compute; reflexivity|]. split; [vm_compute; reflexivity|].
  exact (no_event_lost any_order any_order_perm Z.le world_run world_run_reachable).
Defined.

Lemma store_drains_witness :
  length (dirty any_order (collapser (w_net world_run))) = 1%nat
  /\ dirty any_order (collapser (w_net (after_store any_order (answers true) (noon + 5) world_run))) = []
  /\ (forall b, In b (w_counted world_run) ->
       in_table (w_db (after_store any_order (answers true) (noon + 5) world_run)) b
       \/ exists b', In b' (w_skipped (after_store any_order (answers true) (noon + 5) world_run)) /\ covers b' b).
Proof.
  split; [vm_compute; reflexivity|].
  exact (store_drains any_order any_order_perm world_run (answers true) (noon + 5) world_run_reachable eq_refl eq_refl).
Defined.

Lemma handle_counts_witness :
  let s := w_net world_loaded in
  let s' := handle any_order (bytes "plain syslog") (V4 192 168 0 1) noon s in
  received (counters_of s' 7) = 1 /\ not_cef (counters_of s' 7) = 1 /\ total (counters_of s' 7) = 1.
Proof.
  intros s s'. destruct (handle_counts any_order (bytes "plain syslog") (V4 192 168 0 1) noon s) as (_ & _ & _ & H).
  - intros id. split; [constructor|vm_compute; lia].
  - split; [vm_compute; reflexivity|]. split; [vm_compute; reflexivity|].
    destruct H as (_ & _ & H & _). revert H. vm_compute. trivial.
Defined.

Definition sample_ips : Ips :=
  {| action := "blocked"; proto := "TCP"; NetUnifi.app := ""; src := V4 10 0 0 1; spt := None; dst := V4 10 0 0 2; dpt := Some 443;
     dst_domain := ""; direction := "incoming"; policy := ""; policy_type := "IDS/IPS"; signature := "scan";
     signature_id := "2402001"; device_model := ""; ips_severity := "high"; unknown_risk := None;
     NetUnifi.message := "scan" |}.

Definition collapser_run : Collapser := collapser (w_net world_run).

(** The map of [world_run] holds an unstored alarm; a new one is opened beside it. *)
Lemma add_exact_witness :
  (size (open collapser_run) <= max_keys collapser_run)%nat
  /\ let '(c', counted) := add any_order collapser_run 7 sample_ips (noon + 5) in (size (open c') <= max_keys c')%nat.
Proof.
  assert (size (open collapser_run) <= max_keys collapser_run)%nat as Hs by (vm_compute; repeat constructor).
  split; [exact Hs|]. pose proof (add_exact any_order any_order_perm collapser_run 7 sample_ips (noon + 5) Hs) as H.
  destruct (add any_order collapser_run 7 sample_ips (noon + 5)) as [c' counted]. exact (proj1 H).
Defined.

(** The schema requires [last_seen >= first_seen], and the map does not keep it when the wall clock goes
    back between two events of one alarm: the whole batch is then refused, at every try, until an event of
    that alarm arrives with a later time. *)
Definition world_back : World :=
  event "192.168.0.1" (noon - 5000) (event "192.168.0.1" noon world_loaded).
Example clock_back_blocks :
  let w := after_store any_order (answers true) (noon + 10 ^ 9) world_back in
  length (dirty any_order (collapser (w_net w))) = 1%nat /\ rows (w_db w) = [] /\ w_skipped w = []
  /\ insert_batch (w_db w) (dirty any_order (collapser (w_net w))) (noon + 10 ^ 12) = None.
Proof. vm_compute. auto. Qed.
