(* ===== verification/SignData.v ===== *)
(** * Signing in: credentials, cookies and passwords (openvibes-console/src/access/auth.rs,
      throttle.rs, guard.rs and users.rs, platform-password/src/lib.rs)

    The pure part.  SHA-256, base64, Argon2id and Unicode normalization are libraries: [Crypto]
    holds what the code calls of them.  A header is its lower-case name with the bytes of its
    value; repeated headers are repeated entries, in order. *)
From S2P Require Import Prelude RustStd Text BTree AccessRules AccessOps.
From stdpp Require Import prelude strings list.
From Stdlib Require Import Ascii ZArith Lia.

Open Scope Z_scope.

(** ** Session lifetimes *)

Definition SESSION_IDLE_TIMEOUT_MS : Z := 30 * 60 * 1000.
Definition SESSION_ABSOLUTE_TIMEOUT_MS : Z := 8 * 60 * 60 * 1000.

(** [u64::checked_add]. *)
Definition u64_checked_add (x y : Z) : option Z := if x + y <=? u64_max then Some (x + y) else None.

Record SessionLifetime := { created_at_ms : Z; last_seen_at_ms : Z }.

Definition start (now_ms : Z) : SessionLifetime := {| created_at_ms := now_ms; last_seen_at_ms := now_ms |}.
Definition restore (created last_seen : Z) : option SessionLifetime :=
  if created <=? last_seen then Some {| created_at_ms := created; last_seen_at_ms := last_seen |} else None.
Definition idle_expires_at_ms (l : SessionLifetime) : option Z :=
  u64_checked_add (last_seen_at_ms l) SESSION_IDLE_TIMEOUT_MS.
Definition absolute_expires_at_ms (l : SessionLifetime) : option Z :=
  u64_checked_add (created_at_ms l) SESSION_ABSOLUTE_TIMEOUT_MS.
Definition is_some_and (p : Z -> bool) (o : option Z) : bool := match o with Some x => p x | None => false end.
Definition is_active_at (l : SessionLifetime) (now_ms : Z) : bool :=
  (last_seen_at_ms l <=? now_ms)
  && is_some_and (fun e => now_ms <? e) (idle_expires_at_ms l)
  && is_some_and (fun e => now_ms <? e) (absolute_expires_at_ms l).
Definition touch (l : SessionLifetime) (now_ms : Z) : SessionLifetime * bool :=
  if is_active_at l now_ms then ({| created_at_ms := created_at_ms l; last_seen_at_ms := now_ms |}, true)
  else (l, false).

(** ** Libraries *)

(** The parts of a PHC string the code looks at; its cost parameters are absent when they do not parse. *)
Record Phc := { phc_algorithm : string; phc_version : option Z; phc_costs : option (Z * Z * Z) }.

Record Crypto := {
  sha256 : list Z -> list Z;
  base64_encode : list Z -> string;
  base64_decode : string -> option (list Z);
  nfc : string -> string;
  phc_parse : string -> option Phc;
  (** The password's bytes match the stored hash. *)
  argon2_verify : list Z -> string -> bool;
}.

Definition Headers : Type := list (string * list Z).
Definition get_all (h : Headers) (name : string) : list (list Z) :=
  map snd (List.filter (fun e => String.eqb e.1 name) h).

(** [HeaderValue::to_str]: visible ASCII and tabs only. *)
Definition to_str (v : list Z) : option string :=
  if forallb (fun b => ((32 <=? b) && (b <? 127)) || (b =? 9)) v then Some (of_bytes v) else None.

Section credentials.
Context (cr : Crypto).

(** ** Secrets and digests *)

Definition session_digest (secret : string) : list Z := sha256 cr (bytes secret).
(** The token and its digest. *)
Definition session_csrf (secret : string) : string * list Z :=
  let token := base64_encode cr (sha256 cr (bytes "openvibes-console-csrf-v1" ++ 0 :: bytes secret)) in
  (token, session_digest token).

Definition valid_session_token (value : string) : bool :=
  (str_len value =? 43)
  && match base64_decode cr value with
     | Some l => (length l =? 32)%nat && String.eqb (base64_encode cr l) value
     | None => false
     end.

(** ** What a request presents *)

Inductive CredentialParseError := Invalid | Conflicting.

(** The loop over the [;]-separated pairs of one header. *)
Fixpoint cookie_pairs (name : string) (pairs : list string) (secret : option string)
    : CredentialParseError + option string :=
  match pairs with
  | [] => inr secret
  | p :: pairs =>
      match split_once "=" (trim p) with
      | None => cookie_pairs name pairs secret
      | Some (cookie_name, value) =>
          if negb (String.eqb (trim cookie_name) name) then cookie_pairs name pairs secret
          else
            let value := trim value in
            if is_some secret || negb (valid_session_token value) then inl Invalid
            else cookie_pairs name pairs (Some value)
      end
  end.
Fixpoint cookie_headers (name : string) (l : list (list Z)) (secret : option string)
    : CredentialParseError + option string :=
  match l with
  | [] => inr secret
  | v :: l =>
      match to_str v with
      | None => inl Invalid
      | Some s =>
          match cookie_pairs name (RustStd.split ";" s) secret with
          | inl e => inl e
          | inr secret => cookie_headers name l secret
          end
      end
  end.
Definition named_cookie (h : Headers) (name : string) : CredentialParseError + option string :=
  cookie_headers name (get_all h "cookie") None.

Definition SESSION_COOKIE : string := "__Host-openvibes-session".
Definition PREAUTH_COOKIE : string := "__Host-openvibes-preauth".
Definition BROWSER_COOKIE : string := "__Host-openvibes-browser".

Inductive PresentedCredentials := Anonymous | Session (secret : string) | Bearer (secret : string).

Definition is_ascii_whitespace (b : Z) : bool := (b =? 32) || (b =? 9) || (b =? 10) || (b =? 12) || (b =? 13).

Definition bearer_of (h : Headers) : CredentialParseError + option string :=
  match get_all h "authorization" with
  | [] => inr None
  | [v] =>
      match to_str v ≫= split_once " " with
      | Some (scheme, token) =>
          if String.eqb (to_ascii_lowercase scheme) "bearer" && negb (is_empty token)
             && negb (existsb is_ascii_whitespace (bytes token))
          then inr (Some token) else inl Invalid
      | None => inl Invalid
      end
  | _ => inl Invalid
  end.

Definition presented_credentials (h : Headers) : CredentialParseError + PresentedCredentials :=
  match named_cookie h SESSION_COOKIE with
  | inl e => inl e
  | inr session =>
      match bearer_of h with
      | inl e => inl e
      | inr bearer =>
          match session, bearer with
          | Some _, Some _ => inl Conflicting
          | Some s, None => inr (Session s)
          | None, Some b => inr (Bearer b)
          | None, None => inr Anonymous
          end
      end
  end.

Definition browser_origin_allowed (h : Headers) (configured_origin : string) : bool :=
  match get_all h "origin" with
  | [v] => bool_decide (to_str v = Some configured_origin)
  | _ => false
  end
  && negb (existsb (fun v => String.eqb (to_ascii_lowercase (of_bytes v)) "cross-site") (get_all h "sec-fetch-site")).

Definition csrf_token_matches (h : Headers) (expected : string) : bool :=
  match get_all h "x-csrf-token" with
  | [v] => bool_decide (v = bytes expected)
  | _ => false
  end.

Definition background_request (h : Headers) : bool :=
  match get_all h "x-openvibes-background" with v :: _ => bool_decide (v = bytes "1") | [] => false end.

(** ** Throttle buckets (throttle.rs) *)

Definition ACCOUNT_FAILURE_LIMIT : Z := 5.
Definition SOURCE_FAILURE_LIMIT : Z := 25.

Definition throttle_digest (kind value : list Z) : list Z :=
  sha256 cr (bytes "openvibes-console-login-throttle-v1" ++ 0 :: kind ++ 0 :: value).
Definition login_throttle_buckets (username source : option string) : list Z * option (list Z) :=
  (throttle_digest (bytes "account") (bytes (default "invalid" username)),
   (fun s => throttle_digest (bytes "source-address") (bytes s)) <$> source).
Definition account_throttle_bucket (username : string) : list Z := (login_throttle_buckets (Some username) None).1.

(** ** Passwords (platform-password) *)

Definition MAX_RAW_PASSWORD_CODE_POINTS : Z := 4096.
Definition MIN_PASSWORD_CODE_POINTS : Z := 15.
Definition MAX_PASSWORD_CODE_POINTS : Z := 128.
Definition BLOCKED_PASSWORDS : list string := [
  "correct horse battery staple"; "correcthorsebatterystaple"; "passwordpassword"; "password1234567";
  "password123456789"; "password123!@#1"; "qwertyuiopasdfghjkl"; "qwerty1234567890"; "123456789012345";
  "1234567890123456"; "12345678901234567890"; "letmeinletmein1"; "iloveyouiloveyou"; "changemechangeme";
  "adminadminadmin"; "welcomehome1234"; "monkeymonkey123"; "trustno1trustno1"; "dragon-dragon-dragon";
  "superman12345678"; "footballfootball"; "baseballbaseball"; "sunshinesunshinesunshine"; "michaelmichael123"].

Inductive PasswordError := TooShort | TooLong | CommonPassword.

(** [NormalizedPassword::new]. *)
Definition normalized_new (password : string) : PasswordError + string :=
  if MAX_RAW_PASSWORD_CODE_POINTS <? char_count password then inl TooLong
  else
    let normalized := nfc cr password in
    let length := char_count normalized in
    if length <? MIN_PASSWORD_CODE_POINTS then inl TooShort
    else if MAX_PASSWORD_CODE_POINTS <? length then inl TooLong
    else if str_mem normalized BLOCKED_PASSWORDS then inl CommonPassword
    else inr normalized.

Definition for_verification (password : string) : PasswordError + string :=
  if MAX_RAW_PASSWORD_CODE_POINTS <? char_count password then inl TooLong else inr (nfc cr password).

Definition ARGON2_MEMORY_KIB : Z := 19456.
Definition ARGON2_ITERATIONS : Z := 2.
Definition ARGON2_PARALLELISM : Z := 1.
Definition ARGON2_MAX_MEMORY_KIB : Z := 65536.
Definition ARGON2_MAX_ITERATIONS : Z := 5.
Definition ARGON2_MAX_PARALLELISM : Z := 4.
Definition MAX_PASSWORD_HASH_LENGTH : Z := 512.

Record PasswordVerification := { valid : bool; needs_rehash : bool }.

(** [None]: the stored credential is malformed, unsupported or too costly. *)
Definition verify_password (password credential : string) : option PasswordVerification :=
  if MAX_PASSWORD_HASH_LENGTH <? str_len credential then None
  else
    parsed ← phc_parse cr credential;
    if negb (String.eqb (phc_algorithm parsed) "argon2id") || negb (bool_decide (phc_version parsed = Some 19)) then None
    else
      '(m_cost, t_cost, p_cost) ← phc_costs parsed;
      if (ARGON2_MAX_MEMORY_KIB <? m_cost) || (ARGON2_MAX_ITERATIONS <? t_cost) || (ARGON2_MAX_PARALLELISM <? p_cost)
      then None
      else Some {| valid := argon2_verify cr (bytes password) credential;
                   needs_rehash := (m_cost <? ARGON2_MEMORY_KIB) || (t_cost <? ARGON2_ITERATIONS)
                                   || (p_cost <? ARGON2_PARALLELISM) |}.

End credentials.

(** [platform_password::canonical_username]. *)
Definition sign_in_username (username : string) : option string :=
  if is_empty username || (64 <? str_len username) || negb (forallb (fun b => b <? 128) (bytes username))
     || negb (forallb (fun b => is_ascii_alphanumeric b || existsb (Z.eqb b) (bytes "._@+-")) (bytes username))
  then None else Some (to_ascii_lowercase username).

(** ** One-time passwords and random ids (users.rs) *)

Definition ONE_TIME_ALPHABET : string := "abcdefghjkmnpqrstuvwxyz23456789".

Fixpoint groups_of_five (l : list Z) : list (list Z) :=
  match l with
  | a :: b :: c :: d :: e :: l => [a; b; c; d; e] :: groups_of_five l
  | [] => []
  | l => [l]
  end.

(** From 20 random bytes. *)
Definition one_time_password (random : list Z) : string :=
  let symbols := map (fun b => default 0 (bytes ONE_TIME_ALPHABET !! Z.to_nat (b mod 31))) random in
  Text.join "-" (map of_bytes (groups_of_five symbols)).

Definition hex_symbol (x : Z) : Z := default 0 (bytes "0123456789abcdef" !! Z.to_nat x).
Definition hex_of (l : list Z) : list Z := flat_map (fun b => [hex_symbol (Z.shiftr b 4); hex_symbol (Z.land b 15)]) l.

(** From 16 random bytes. *)
Definition random_uuid (random : list Z) : string :=
  let b := <[6%nat := Z.lor (Z.land (random !!! 6%nat) 15) 64]>
             (<[8%nat := Z.lor (Z.land (random !!! 8%nat) 63) 128]> random) in
  let hex := hex_of b in
  let part i j := of_bytes (take (j - i) (drop i hex)) in
  Text.join "-" [part 0 8; part 8 12; part 12 16; part 16 20; part 20 32]%nat.

(** ** The source's tests *)

Definition test_crypto : Crypto :=
  {| sha256 := fun l => l; base64_encode := of_bytes; base64_decode := fun s => Some (take 32 (bytes s));
     nfc := fun s => s; phc_parse := fun s => Some {| phc_algorithm := "argon2id"; phc_version := Some 19; phc_costs := Some (19456, 2, 1) |};
     argon2_verify := fun l s => bool_decide (l = bytes s) |}.

Example one_time_vector :
  one_time_password (map Z.of_nat (seq 0 20)) = "abcde-fghjk-mnpqr-stuvw"
  /\ random_uuid (map Z.of_nat (seq 0 16)) = "00010203-0405-4607-8809-0a0b0c0d0e0f"
  /\ valid_uuid (random_uuid (repeat 255 16)) = true
  /\ normalized_new test_crypto "passwordpassword" = inl CommonPassword
  /\ normalized_new test_crypto "fourteen chars" = inl TooShort
  /\ sign_in_username "Alice.B" = Some "alice.b" /\ sign_in_username "a b" = None /\ sign_in_username "é" = None
  /\ presented_credentials test_crypto [("authorization", bytes "bEaReR ovc_x")] = inr (Bearer "ovc_x")
  /\ presented_credentials test_crypto [("authorization", bytes "Bearer ")] = inl Invalid
  /\ presented_credentials test_crypto [("cookie", bytes "a=b; c=d"); ("cookie", bytes "other")] = inr Anonymous.
Proof. vm_compute. auto 15. Qed.

Example lifetime_vector :
  let l := start 1000 in
  is_active_at l 999 = false /\ is_active_at l 1000 = true /\ is_active_at l (1000 + SESSION_IDLE_TIMEOUT_MS) = false
  /\ touch l 2000 = ({| created_at_ms := 1000; last_seen_at_ms := 2000 |}, true)
  /\ idle_expires_at_ms (start u64_max) = None /\ is_active_at (start u64_max) u64_max = false.
Proof. vm_compute. auto 10. Qed.
