(* ===== verification/SignDb.v ===== *)
(** * Signing in: the stored side (platform-store/src/console_auth.rs)

    The tables of people, bindings, sessions and the audit log are the ones of AccessDb; pre-login
    values and throttle buckets are added here.  Each function is one statement or one transaction
    of the source; [None] is a statement the database refuses.  Times are what is bound to the
    statements: microseconds since the epoch. *)
From S2P Require Import Prelude RustStd Text BTree Json AccessData AccessRules AccessDb AccessOps.
From stdpp Require Import prelude strings list.
From Stdlib Require Import Ascii ZArith Lia.

Open Scope Z_scope.

Definition minutes (n : Z) : Z := n * 60 * 1000000.
Definition hours (n : Z) : Z := n * 3600 * 1000000.

(** ** Tables *)

Record PreauthRow := {
  p_token : list Z;
  p_csrf : list Z;
  p_browser : list Z;
  p_created_at : Z;
  p_expires_at : Z;
  p_consumed_at : option Z;
}.

Record ThrottleRow := {
  t_bucket : list Z;
  t_window_started_at : Z;
  t_failures : Z;
  t_locked_until : option Z;
  t_updated_at : Z;
}.

Record SignTables := {
  access : Db;
  preauths : list PreauthRow;
  throttle : list ThrottleRow;
  last_sign_in : list (string * Z);
}.

Definition on_access (f : Db -> Db) (t : SignTables) : SignTables :=
  {| access := f (access t); preauths := preauths t; throttle := throttle t; last_sign_in := last_sign_in t |}.
Definition set_preauths (f : list PreauthRow -> list PreauthRow) (t : SignTables) : SignTables :=
  {| access := access t; preauths := f (preauths t); throttle := throttle t; last_sign_in := last_sign_in t |}.
Definition set_throttle (f : list ThrottleRow -> list ThrottleRow) (t : SignTables) : SignTables :=
  {| access := access t; preauths := preauths t; throttle := f (throttle t); last_sign_in := last_sign_in t |}.

Definition digest_eqb (a b : list Z) : bool := bool_decide (a = b).

(** [append_auth_event]: the columns the models tell apart. *)
Definition auth_event (actor action target_kind target_id : string) (reason_code : option string) : Db -> Db :=
  append_audit {| au_actor := actor; au_action := action; au_target_kind := target_kind; au_target_id := target_id;
                  au_detail := JObject (match reason_code with
                                        | Some r => [("reason_code", JString r)] | None => [] end) |}.

(** ** Pre-login values *)

Record NewPreauth := { n_token : list Z; n_csrf : list Z; n_browser : list Z; n_created_at : Z; n_expires_at : Z }.

Definition create_preauth (n : NewPreauth) (t : SignTables) : option SignTables :=
  if existsb (fun r => digest_eqb (p_token r) (n_token n)) (preauths t) || negb (n_created_at n <? n_expires_at n)
  then None
  else Some (set_preauths (fun l => l ++ [{| p_token := n_token n; p_csrf := n_csrf n; p_browser := n_browser n;
                                             p_created_at := n_created_at n; p_expires_at := n_expires_at n;
                                             p_consumed_at := None |}]) t).

Definition preauth_matches (token csrf browser : list Z) (now : Z) (r : PreauthRow) : bool :=
  digest_eqb (p_token r) token && digest_eqb (p_csrf r) csrf && digest_eqb (p_browser r) browser
  && (now <? p_expires_at r) && negb (is_some (p_consumed_at r)).

Definition consumed (now : Z) (r : PreauthRow) : PreauthRow :=
  {| p_token := p_token r; p_csrf := p_csrf r; p_browser := p_browser r; p_created_at := p_created_at r;
     p_expires_at := p_expires_at r; p_consumed_at := Some now |}.

Definition consume_preauth (token csrf browser : list Z) (now : Z) (t : SignTables) : bool * SignTables :=
  (existsb (preauth_matches token csrf browser now) (preauths t),
   set_preauths (map (fun r => if preauth_matches token csrf browser now r then consumed now r else r)) t).

(** ** Throttling *)

Definition bucket_row (bucket : list Z) (t : SignTables) : option ThrottleRow :=
  find (fun r => digest_eqb (t_bucket r) bucket) (throttle t).
Definition locked (now : Z) (r : ThrottleRow) : bool :=
  match t_locked_until r with Some u => now <? u | None => false end.

Definition login_is_throttled (buckets : list (list Z)) (now : Z) (t : SignTables) : bool :=
  existsb (fun r => existsb (digest_eqb (t_bucket r)) buckets && locked now r) (throttle t).

(** The inserted row, and the updated one: the [CASE]s of [ON CONFLICT DO UPDATE]. *)
Definition first_failure (bucket : list Z) (now failure_limit lock_for : Z) : ThrottleRow :=
  {| t_bucket := bucket; t_window_started_at := now; t_failures := 1;
     t_locked_until := if failure_limit <=? 1 then Some (now + lock_for) else None; t_updated_at := now |}.
Definition next_failure (now window failure_limit lock_for : Z) (r : ThrottleRow) : ThrottleRow :=
  let over := t_window_started_at r <=? now - window in
  {| t_bucket := t_bucket r;
     t_window_started_at := if over then now else t_window_started_at r;
     t_failures := if over then 1 else t_failures r + 1;
     t_locked_until :=
       if over then (if failure_limit <=? 1 then Some (now + lock_for) else None)
       else if failure_limit <=? t_failures r + 1
       then Some (Z.max (default now (t_locked_until r)) (now + lock_for))
       else t_locked_until r;
     t_updated_at := now |}.

Definition count_failure (bucket : list Z) (now window failure_limit lock_for : Z) (t : SignTables) : SignTables :=
  set_throttle (fun l =>
    if is_some (bucket_row bucket t)
    then map (fun r => if digest_eqb (t_bucket r) bucket then next_failure now window failure_limit lock_for r else r) l
    else l ++ [first_failure bucket now failure_limit lock_for]) t.

Fixpoint count_failures (now window lock_for : Z) (l : list (list Z * Z)) (t : SignTables) : SignTables :=
  match l with
  | [] => t
  | (bucket, failure_limit) :: l =>
      count_failures now window lock_for l (count_failure bucket now window failure_limit lock_for t)
  end.

Definition record_login_failure (buckets : list (list Z)) (now window : Z) (failure_limits : list Z) (lock_for : Z)
    (t : SignTables) : option SignTables :=
  if negb (length buckets =? length failure_limits)%nat || existsb (fun l => l <? 1) failure_limits then None
  else Some (on_access (auth_event "console-login" "auth.login.failed" "" "" (Some "invalid_credentials"))
               (count_failures now window lock_for (zip buckets failure_limits) t)).

Definition cleared (now : Z) (r : ThrottleRow) : ThrottleRow :=
  {| t_bucket := t_bucket r; t_window_started_at := now; t_failures := 0; t_locked_until := None; t_updated_at := now |}.
Definition clear_login_throttle (buckets : list (list Z)) (now : Z) : SignTables -> SignTables :=
  set_throttle (map (fun r => if existsb (digest_eqb (t_bucket r)) buckets then cleared now r else r)).

(** ** Credentials *)

Record Credential := {
  c_user_id : string;
  c_password_phc : string;
  c_enabled : bool;
  c_auth_generation : Z;
}.

Definition credential_by_username (username : string) (t : SignTables) : option Credential :=
  u ← find (fun u => String.eqb (u_username u) username && is_some (u_password u)) (users (access t));
  phc ← u_password u;
  Some {| c_user_id := u_id u; c_password_phc := phc; c_enabled := u_enabled u; c_auth_generation := u_generation u |}.

Definition set_password (phc : string) (must_change : bool) (generation : Z) (u : UserRow) : UserRow :=
  {| u_id := u_id u; u_username := u_username u; u_display_name := u_display_name u; u_email := u_email u;
     u_enabled := u_enabled u; u_auth_source := u_auth_source u; u_password := Some phc; u_must_change := must_change;
     u_generation := u_generation u + generation |}.

(** [WHERE user_id = $1] on a table joined with the credentials. *)
Definition has_credential (user_id : string) (u : UserRow) : bool := String.eqb (u_id u) user_id && is_some (u_password u).

Definition rehash_password (user_id : string) (expected_generation : Z) (phc : string) (t : SignTables)
    : bool * SignTables :=
  let hit u := has_credential user_id u && u_enabled u && (u_generation u =? expected_generation) in
  if existsb hit (users (access t))
  then (true, on_access (fun db => auth_event user_id "auth.password.rehashed" "user" user_id None
                (set_users (map (fun u => if hit u then set_password phc (u_must_change u) 0 u else u)) db)) t)
  else (false, t).

Definition replace_password (user_id phc : string) (must_change : bool) (now : Z) (actor_id : string) (t : SignTables)
    : bool * SignTables :=
  if existsb (has_credential user_id) (users (access t))
  then (true, on_access (fun db => auth_event actor_id "auth.password.changed" "user" user_id None
                (end_sessions user_id now (update_user user_id (set_password phc must_change 1) db))) t)
  else (false, t).

(** ** Sessions *)

Record NewSession := {
  ns_digest : list Z;
  ns_previous : option (list Z);
  ns_csrf : list Z;
  ns_user : string;
  ns_generation : Z;
  ns_now : Z;
  ns_idle_expires_at : Z;
  ns_absolute_expires_at : Z;
}.

Definition new_session (n : NewSession) : SessionRow :=
  {| s_digest := ns_digest n; s_csrf := ns_csrf n; s_user := ns_user n; s_generation := ns_generation n;
     s_created_at := ns_now n; s_last_seen_at := ns_now n; s_idle_expires_at := ns_idle_expires_at n;
     s_absolute_expires_at := ns_absolute_expires_at n; s_revoked_at := None |}.

(** [SET revoked_at = now ... AND revoked_at IS NULL]. *)
Definition revoke_if (p : SessionRow -> bool) (now : Z) : Db -> Db :=
  set_sessions (map (fun s => if p s && negb (is_some (s_revoked_at s)) then end_session now s else s)).

Definition current_user (user_id : string) (generation : Z) (u : UserRow) : bool :=
  String.eqb (u_id u) user_id && u_enabled u && (u_generation u =? generation).

(** [None]: the key or a check of [console_sessions] refuses the row. *)
Definition create_session (n : NewSession) (t : SignTables) : option (bool * SignTables) :=
  if negb (existsb (current_user (ns_user n) (ns_generation n)) (users (access t))) then Some (false, t)
  else if existsb (fun s => digest_eqb (s_digest s) (ns_digest n)) (sessions (access t))
          || negb ((ns_idle_expires_at n <=? ns_absolute_expires_at n) && (ns_now n <? ns_absolute_expires_at n))
  then None
  else
    let db := set_sessions (fun l => l ++ [new_session n]) (access t) in
    let db := match ns_previous n with
              | Some previous => revoke_if (fun s => digest_eqb (s_digest s) previous) (ns_now n) db
              | None => db
              end in
    Some (true, {| access := auth_event (ns_user n) "auth.login.succeeded" "user" (ns_user n) None db;
                   preauths := preauths t; throttle := throttle t;
                   last_sign_in := (ns_user n, ns_now n) :: last_sign_in t |}).

(** A session with its user. *)
Record Session := {
  se_user : UserRow;
  se_row : SessionRow;
}.

Definition live_session (digest : list Z) (now : Z) (s : SessionRow) : bool :=
  digest_eqb (s_digest s) digest && negb (is_some (s_revoked_at s))
  && (now <? s_idle_expires_at s) && (now <? s_absolute_expires_at s).

(** The row and the user the statements join. *)
Definition session (digest : list Z) (now : Z) (t : SignTables) : option Session :=
  s ← find (live_session digest now) (sessions (access t));
  u ← find (current_user (s_user s) (s_generation s)) (users (access t));
  Some {| se_user := u; se_row := s |}.

Definition touched (now idle_expires_at : Z) (s : SessionRow) : SessionRow :=
  {| s_digest := s_digest s; s_csrf := s_csrf s; s_user := s_user s; s_generation := s_generation s;
     s_created_at := s_created_at s; s_last_seen_at := now;
     s_idle_expires_at := Z.min (s_absolute_expires_at s) idle_expires_at;
     s_absolute_expires_at := s_absolute_expires_at s; s_revoked_at := s_revoked_at s |}.

Definition touch_session (digest : list Z) (now idle_lifetime : Z) (t : SignTables) : bool * SignTables :=
  let hit s := live_session digest now s
               && existsb (current_user (s_user s) (s_generation s)) (users (access t)) in
  (existsb hit (sessions (access t)),
   on_access (set_sessions (map (fun s => if hit s then touched now (now + idle_lifetime) s else s))) t).

Definition revoke_session (digest : list Z) (now : Z) (t : SignTables) : bool * SignTables :=
  match find (fun s => digest_eqb (s_digest s) digest && negb (is_some (s_revoked_at s))) (sessions (access t)) with
  | Some s => (true, on_access (fun db => auth_event (s_user s) "auth.logout.succeeded" "user" (s_user s) None
                       (revoke_if (fun s => digest_eqb (s_digest s) digest) now db)) t)
  | None => (false, t)
  end.

Definition bump_generation (u : UserRow) : UserRow :=
  {| u_id := u_id u; u_username := u_username u; u_display_name := u_display_name u; u_email := u_email u;
     u_enabled := u_enabled u; u_auth_source := u_auth_source u; u_password := u_password u;
     u_must_change := u_must_change u; u_generation := u_generation u + 1 |}.

Definition revoke_user_sessions (user_id : string) (now : Z) (actor_id reason_code : string) (t : SignTables)
    : bool * SignTables :=
  if existsb (fun u => String.eqb (u_id u) user_id) (users (access t))
  then (true, on_access (fun db => auth_event actor_id "auth.sessions.revoked" "user" user_id (Some reason_code)
                (end_sessions user_id now (update_user user_id bump_generation db))) t)
  else (false, t).

Inductive PasswordChange := Changed | ChangedElsewhere | SessionGone.

(** [SET password_phc]; then [password_must_change = false]: the generation stays. *)
Definition change_own_password (user_id : string) (current_session : list Z) (verified_phc phc : string) (now : Z)
    (t : SignTables) : PasswordChange * SignTables :=
  match find (fun u => has_credential user_id u && u_enabled u) (users (access t)) with
  | None => (SessionGone, t)
  | Some u =>
      if negb (bool_decide (u_password u = Some verified_phc)) then (ChangedElsewhere, t)
      else if negb (existsb (fun s => live_session current_session now s && String.eqb (s_user s) user_id)
                     (sessions (access t))) then (SessionGone, t)
      else (Changed, on_access (fun db => auth_event user_id "auth.password.changed" "user" user_id None
                       (revoke_if (fun s => String.eqb (s_user s) user_id && negb (digest_eqb (s_digest s) current_session)) now
                         (update_user user_id (set_password phc false 0) db))) t)
  end.

(** ** By name, for the command line *)

Definition unlock_local_user (username : string) (account_bucket : list Z) (now : Z) (actor_id : string) (t : SignTables)
    : bool * SignTables :=
  match find (fun u => String.eqb (u_username u) username && u_enabled u) (users (access t)) with
  | None => (false, t)
  | Some u =>
      let hit r := digest_eqb (t_bucket r) account_bucket && locked now r in
      if existsb hit (throttle t)
      then (true, on_access (auth_event actor_id "user.unlocked" "user" (u_id u) (Some "administrator_unlock"))
                    (set_throttle (List.filter (fun r => negb (hit r))) t))
      else (false, t)
  end.

Definition enable_local_user (username actor_id : string) (t : SignTables) : bool * SignTables :=
  match find (fun u => String.eqb (u_username u) username && negb (u_enabled u)) (users (access t)) with
  | None => (false, t)
  | Some u =>
      (true, on_access (fun db => auth_event actor_id "user.enabled" "user" (u_id u) (Some "administrator_enable")
               (set_users (map (fun u => if String.eqb (u_username u) username && negb (u_enabled u)
                                         then set_enabled true 0 u else u)) db)) t)
  end.
