(* ===== verification/SignOps.v ===== *)
(** * Signing in: the handlers (openvibes-console/src/access/login.rs, guard.rs, users.rs)

    A handler awaits the database between its statements, and other handlers run meanwhile.  So a
    handler is a machine: a stage, and a step that runs one statement (or the password check, which
    touches no table) and moves to the next stage.  [Env] is what may go wrong at a step: the
    database does not answer, no password slot is free. *)
From S2P Require Import Prelude RustStd Text BTree Json AccessData AccessRules AccessDb AccessOps SignData SignDb.
From stdpp Require Import prelude strings list.
From Stdlib Require Import Ascii ZArith Lia.

Open Scope Z_scope.

Inductive Answer :=
  | Refused (p : ProblemDetails)
  | LoggedIn (secret : string)
  | NoContent.

Definition refused (status : Z) (code title : string) : Answer := Refused (problem status code title).
Definition auth_unavailable : Answer :=
  refused 503 "authentication_unavailable" "Authentication is temporarily unavailable".
Definition login_rejected : Answer := refused 401 "authentication_failed" "Username or password is incorrect".
Definition request_rejected : Answer := refused 403 "request_rejected" "The authentication request was rejected".
Definition csrf_rejected : Answer := refused 403 "request_rejected" "The request was rejected".
Definition authentication_required : Answer := refused 401 "authentication_required" "Authentication required".
Definition busy : Answer := refused 503 "authentication_busy" "Authentication is temporarily busy".
Definition too_many_attempts : Answer := refused 429 "too_many_attempts" "Too many wrong passwords; wait 15 minutes".
Definition password_change_required : Answer := refused 403 "password_change_required" "Set your own password first".
Definition permission_denied : Answer := refused 403 "permission_denied" "Access is not available".

Record Env := { db_ok : bool; slot_free : bool }.

Section handlers.
Context (cr : Crypto).
(** A fresh Argon2id hash of a normalized password; [None] when hashing fails. *)
Context (hash_password : string -> option string).
(** The credential no account has. *)
Context (dummy_phc : option string).
(** The configured public origin: whether it is valid, and the origin of a request's headers. *)
Context (public_origin_valid : bool) (request_origin : Headers -> string).

(** ** Sign-in *)

Record LoginRequest := {
  lr_headers : Headers;
  lr_body : option (string * string);
  lr_source : option string;
  lr_now : Z;
  lr_secret : string;
}.

(** What the handler keeps once the headers are checked. *)
Record Attempt := {
  at_previous : option (list Z);
  at_token : list Z;
  at_csrf : list Z;
  at_browser : list Z;
  at_username : option string;
  at_password : string;
  at_buckets : list (list Z);
  at_limits : list Z;
  at_now : Z;
  at_secret : string;
  at_dummy : string;
}.

Definition forged (h : Headers) : bool :=
  negb public_origin_valid || negb (browser_origin_allowed h (request_origin h))
  || match get_all h "authorization" with [] => false | _ => true end.

Definition attempt_of (r : LoginRequest) (previous : option string) (preauth browser username password dummy : string)
    : Attempt :=
  let name := sign_in_username username in
  let '(account, source) := login_throttle_buckets cr name (lr_source r) in
  {| at_previous := session_digest cr <$> previous;
     at_token := session_digest cr preauth;
     at_csrf := session_digest cr (session_csrf cr preauth).1;
     at_browser := session_digest cr browser;
     at_username := name;
     at_password := password;
     at_buckets := account :: match source with Some b => [b] | None => [] end;
     at_limits := ACCOUNT_FAILURE_LIMIT :: match source with Some _ => [SOURCE_FAILURE_LIMIT] | None => [] end;
     at_now := lr_now r;
     at_secret := lr_secret r;
     at_dummy := dummy |}.

(** The checks before the database is asked. *)
Definition login_start (r : LoginRequest) : Answer + Attempt :=
  let h := lr_headers r in
  if forged h then inl request_rejected
  else match lr_body r with
  | None => inl (refused 400 "invalid_auth_request" "The authentication request is invalid")
  | Some (username, password) =>
      match named_cookie cr h SESSION_COOKIE, named_cookie cr h PREAUTH_COOKIE, named_cookie cr h BROWSER_COOKIE with
      | inr previous, inr (Some preauth), inr (Some browser) =>
          if negb (csrf_token_matches h (session_csrf cr preauth).1) then inl request_rejected
          else match dummy_phc with
          | None => inl auth_unavailable
          | Some dummy => inr (attempt_of r previous preauth browser username password dummy)
          end
      | _, _, _ => inl login_rejected
      end
  end.

Inductive LoginStage :=
  | LConsume
  | LThrottle
  | LCredential (throttled : bool)
  | LVerify (throttled : bool) (credential : option Credential)
  | LRecord
  | LRehash (credential : Credential) (phc : string)
  | LClear (credential : Credential)
  | LCreate (credential : Credential)
  | LEnd (answer : Answer).

(** The password given, and whether it could be one. *)
Definition verification_input (password : string) : string * bool :=
  match for_verification cr password with
  | inr n => (n, true)
  | inl _ => (nfc cr "invalid bounded input", false)
  end.

(** The check against the enabled account's credential, or against the dummy one. *)
Definition verification (a : Attempt) (credential : option Credential) : option PasswordVerification :=
  let normalized := (verification_input (at_password a)).1 in
  let phc := match credential with Some c => if c_enabled c then c_password_phc c else at_dummy a | None => at_dummy a end in
  match verify_password cr normalized phc with
  | Some v => Some v
  | None => (fun _ => {| valid := false; needs_rehash := false |}) <$> verify_password cr normalized (at_dummy a)
  end.

Definition verify_stage (a : Attempt) (throttled : bool) (credential : option Credential) : LoginStage :=
  let '(normalized, valid_input) := verification_input (at_password a) in
  match verification a credential with
  | None => LEnd auth_unavailable
  | Some v =>
      match (if valid v && needs_rehash v then Some <$> hash_password normalized else Some None) with
      | None => LEnd auth_unavailable
      | Some upgraded =>
          match credential with
          | Some c =>
              if valid_input && negb throttled && c_enabled c && valid v
              then match upgraded with Some phc => LRehash c phc | None => LClear c end
              else LRecord
          | None => LRecord
          end
      end
  end.

Definition login_session (a : Attempt) (c : Credential) : NewSession :=
  {| ns_digest := session_digest cr (at_secret a); ns_previous := at_previous a;
     ns_csrf := (session_csrf cr (at_secret a)).2; ns_user := c_user_id c; ns_generation := c_auth_generation c;
     ns_now := at_now a; ns_idle_expires_at := at_now a + minutes 30;
     ns_absolute_expires_at := at_now a + hours 8 |}.

Definition login_step (e : Env) (a : Attempt) (st : LoginStage) (t : SignTables) : LoginStage * SignTables :=
  match st with
  | LEnd answer => (LEnd answer, t)
  | LVerify throttled credential =>
      (if slot_free e then verify_stage a throttled credential else LEnd busy, t)
  | LCredential throttled =>
      match (if throttled then None else at_username a) with
      | None => (LVerify throttled None, t)
      | Some name => if db_ok e then (LVerify throttled (credential_by_username name t), t) else (LEnd auth_unavailable, t)
      end
  | _ =>
      if negb (db_ok e) then (LEnd auth_unavailable, t)
      else match st with
      | LConsume =>
          let '(found, t) := consume_preauth (at_token a) (at_csrf a) (at_browser a) (at_now a) t in
          (if found then LThrottle else LEnd login_rejected, t)
      | LThrottle => (LCredential (login_is_throttled (at_buckets a) (at_now a) t), t)
      | LRecord =>
          match record_login_failure (at_buckets a) (at_now a) (minutes 15) (at_limits a) (minutes 15) t with
          | Some t => (LEnd login_rejected, t)
          | None => (LEnd auth_unavailable, t)
          end
      | LRehash c phc =>
          let '(done, t) := rehash_password (c_user_id c) (c_auth_generation c) phc t in
          (if done then LClear c else LEnd auth_unavailable, t)
      | LClear c => (LCreate c, clear_login_throttle (at_buckets a) (at_now a) t)
      | LCreate c =>
          match create_session (login_session a c) t with
          | Some (true, t) => (LEnd (LoggedIn (at_secret a)), t)
          | Some (false, t) => (LEnd login_rejected, t)
          | None => (LEnd auth_unavailable, t)
          end
      | _ => (st, t)
      end
  end.

(** ** The session check every request passes (guard.rs) *)

Record SessionRequest := {
  sr_headers : Headers;
  sr_csrf_required : bool;
  sr_now : Z;
}.

Definition csrf_accepted (r : SessionRequest) (secret : string) : bool :=
  negb (sr_csrf_required r)
  || (public_origin_valid && browser_origin_allowed (sr_headers r) (request_origin (sr_headers r))
      && csrf_token_matches (sr_headers r) (session_csrf cr secret).1).

(** [checked_session]: reading the session, then touching it. *)
Definition check_read (r : SessionRequest) (secret : string) (t : SignTables) : Answer + Session :=
  match session (session_digest cr secret) (sr_now r) t with
  | None => inl authentication_required
  | Some active =>
      if negb (digest_eqb (s_csrf (se_row active)) (session_digest cr (session_csrf cr secret).1))
      then inl authentication_required
      else if negb (csrf_accepted r secret) then inl csrf_rejected
      else inr active
  end.
Definition check_touch (r : SessionRequest) (secret : string) (t : SignTables) : bool * SignTables :=
  touch_session (session_digest cr secret) (sr_now r) (minutes 30) t.

(** A request of the API, up to the capabilities its handler gets. *)
Inductive RequestStage :=
  | RRead (secret : string)
  | RTouch (secret : string) (active : Session)
  | RCapabilities (active : Session)
  | RThrough (user_id : string) (capabilities : list EffectiveCapability)
  | REnd (answer : Answer).

Definition request_start (r : SessionRequest) : RequestStage :=
  match presented_credentials cr (sr_headers r) with
  | inr (SignData.Session secret) => RRead secret
  | inr (Bearer _) => REnd permission_denied
  | _ => REnd authentication_required
  end.

(** The gate of [session_capabilities]. *)
Definition after_check (active : Session) : RequestStage :=
  if u_must_change (se_user active) then REnd password_change_required else RCapabilities active.

Definition request_step (e : Env) (r : SessionRequest) (st : RequestStage) (t : SignTables) : RequestStage * SignTables :=
  match st with
  | RThrough _ _ | REnd _ => (st, t)
  | RRead secret =>
      if negb (db_ok e) then (REnd auth_unavailable, t)
      else match check_read r secret t with
      | inl answer => (REnd answer, t)
      | inr active =>
          (if background_request (sr_headers r) then after_check active else RTouch secret active, t)
      end
  | RTouch secret active =>
      (** A failing statement reads as [false]. *)
      if negb (db_ok e) then (REnd authentication_required, t)
      else let '(found, t) := check_touch r secret t in
      (if found then after_check active else REnd authentication_required, t)
  | RCapabilities active =>
      if negb (db_ok e) then (REnd auth_unavailable, t)
      else (RThrough (u_id (se_user active))
              (resolve_capabilities (grants (access t) (User (u_id (se_user active))))), t)
  end.

(** ** Setting one's own password (users.rs) *)

Record PasswordRequest := {
  pr_headers : Headers;
  pr_body : option (string * string);
  (** When the session is checked, and when the throttle is. *)
  pr_checked_at : Z;
  pr_now : Z;
}.
Definition pr_session (r : PasswordRequest) : SessionRequest :=
  {| sr_headers := pr_headers r; sr_csrf_required := true; sr_now := pr_checked_at r |}.

Inductive PasswordStage :=
  | PRead (secret : string)
  | PTouch (secret : string) (active : Session)
  | PThrottle (secret : string) (active : Session) (current new : string)
  | PCredential (secret : string) (active : Session) (current new : string)
  | PVerify (secret : string) (active : Session) (current new : string) (credential : Credential)
  | PRecord (active : Session)
  | PClear (secret : string) (active : Session) (verified phc : string)
  | PChange (secret : string) (active : Session) (verified phc : string)
  | PEnd (answer : Answer).

Definition password_start (r : PasswordRequest) : PasswordStage :=
  match presented_credentials cr (sr_headers (pr_session r)) with
  | inr (SignData.Session secret) => PRead secret
  | inr (Bearer _) => PEnd permission_denied
  | _ => PEnd authentication_required
  end.

(** The checks of the body. *)
Definition password_body (r : PasswordRequest) (secret : string) (active : Session) : PasswordStage :=
  match pr_body r with
  | None => PEnd (refused 400 "invalid_password" "Provide the current and the new password")
  | Some (current, new) =>
      match for_verification cr current, normalized_new cr new with
      | inl _, _ => PEnd (refused 400 "invalid_current_password" "The current password is not right")
      | _, inl _ => PEnd (refused 400 "weak_password" "Use at least 15 characters for the new password")
      | inr current, inr new =>
          if String.eqb current new
          then PEnd (refused 400 "password_unchanged" "Choose a password different from the current one")
          else PThrottle secret active current new
      end
  end.

Definition own_bucket (active : Session) : list Z := account_throttle_bucket cr (u_username (se_user active)).

Definition password_verify (secret : string) (active : Session) (current new : string) (c : Credential) : PasswordStage :=
  match verify_password cr current (c_password_phc c) with
  | None => PEnd auth_unavailable
  | Some v =>
      if valid v then
        match hash_password new with
        | Some phc => PClear secret active (c_password_phc c) phc
        | None => PEnd auth_unavailable
        end
      else PRecord active
  end.

Definition password_step (e : Env) (r : PasswordRequest) (st : PasswordStage) (t : SignTables)
    : PasswordStage * SignTables :=
  match st with
  | PEnd answer => (PEnd answer, t)
  | PVerify secret active current new c =>
      (if slot_free e then password_verify secret active current new c else PEnd busy, t)
  | PTouch secret active =>
      if negb (db_ok e) then (PEnd authentication_required, t)
      else let '(found, t) := check_touch (pr_session r) secret t in
      (if found then password_body r secret active else PEnd authentication_required, t)
  | _ =>
      if negb (db_ok e) then (PEnd auth_unavailable, t)
      else match st with
      | PRead secret =>
          match check_read (pr_session r) secret t with
          | inl answer => (PEnd answer, t)
          | inr active =>
              (if background_request (sr_headers (pr_session r)) then password_body r secret active
               else PTouch secret active, t)
          end
      | PThrottle secret active current new =>
          (if login_is_throttled [own_bucket active] (pr_now r) t then PEnd too_many_attempts
           else PCredential secret active current new, t)
      | PCredential secret active current new =>
          (match credential_by_username (u_username (se_user active)) t with
           | Some c => if c_enabled c then PVerify secret active current new c else PEnd authentication_required
           | None => PEnd authentication_required
           end, t)
      | PRecord active =>
          match record_login_failure [own_bucket active] (pr_now r) (minutes 15) [ACCOUNT_FAILURE_LIMIT] (minutes 15) t with
          | Some t => (PEnd (refused 400 "invalid_current_password" "The current password is not right"), t)
          | None => (PEnd auth_unavailable, t)
          end
      | PClear secret active verified phc =>
          (PChange secret active verified phc, clear_login_throttle [own_bucket active] (pr_now r) t)
      | PChange secret active verified phc =>
          match change_own_password (u_id (se_user active)) (session_digest cr secret) verified phc (pr_now r) t with
          | (Changed, t) => (PEnd NoContent, t)
          | (ChangedElsewhere, t) =>
              (PEnd (refused 409 "password_changed_elsewhere"
                       "Your password was just changed in another session; sign in again"), t)
          | (SessionGone, t) => (PEnd authentication_required, t)
          end
      | _ => (st, t)
      end
  end.

(** ** Pre-login values and sign-out *)

Definition preauth (preauth_secret browser_secret : string) (now : Z) (t : SignTables) : option SignTables :=
  create_preauth {| n_token := session_digest cr preauth_secret; n_csrf := (session_csrf cr preauth_secret).2;
                    n_browser := session_digest cr browser_secret; n_created_at := now; n_expires_at := now + minutes 5 |} t.

Definition logout (e : Env) (h : Headers) (now : Z) (t : SignTables) : Answer * SignTables :=
  if forged h then (request_rejected, t)
  else match named_cookie cr h SESSION_COOKIE with
  | inr (Some secret) =>
      if negb (csrf_token_matches h (session_csrf cr secret).1) then (request_rejected, t)
      else if negb (db_ok e) then (auth_unavailable, t)
      else (NoContent, (revoke_session (session_digest cr secret) now t).2)
  | _ => (login_rejected, t)
  end.
End handlers.
