(* ===== verification/SignInv.v ===== *)
(** * Signing in: what every step keeps

    [kept fresh db db']: accounts stay, and a generation never goes down; a step whose audit rows
    close an account (disable it, reset its password, end all its sessions) raises its generation;
    session rows stay what they were, but for their last use and their end, and new ones are among
    [fresh].  Every request, statement and handler step is shown to keep this. *)
From S2P Require Import Prelude RustStd Text BTree Json AccessData AccessRules AccessDb AccessOps SignData SignDb SignOps.
From stdpp Require Import prelude strings list.
From Stdlib Require Import Ascii ZArith Lia.

Open Scope Z_scope.

(** ** The audit rows that close an account *)

Definition CLOSING : list string := ["user.disabled"; "user.password_reset"; "auth.sessions.revoked"].
(** A password changed by somebody else is the command line's reset. *)
Definition closes (user_id : string) (row : AuditRow) : bool :=
  String.eqb (au_target_id row) user_id
  && (str_mem (au_action row) CLOSING
      || (String.eqb (au_action row) "auth.password.changed" && negb (String.eqb (au_actor row) user_id))).
Definition closed (user_id : string) (log : list AuditRow) : bool := existsb (closes user_id) log.

Lemma closed_app user_id l l' : closed user_id (l ++ l') = closed user_id l || closed user_id l'.
Proof. apply existsb_app. Qed.

(** A row that closes nobody's account. *)
Definition mild (row : AuditRow) : Prop := forall user_id, closes user_id row = false.

Lemma mild_action actor action kind target detail :
  str_mem action CLOSING = false -> String.eqb action "auth.password.changed" = false ->
  mild {| au_actor := actor; au_action := action; au_target_kind := kind; au_target_id := target; au_detail := detail |}.
Proof. intros H1 H2 user_id. unfold closes. cbn [au_action au_actor au_target_id]. by rewrite H1, H2, andb_false_r. Qed.

Lemma mild_own_password user_id kind detail :
  mild {| au_actor := user_id; au_action := "auth.password.changed"; au_target_kind := kind; au_target_id := user_id;
          au_detail := detail |}.
Proof.
  intros x. unfold closes. simpl. by destruct (String.eqb user_id x).
Qed.

(** ** Session rows *)

Definition row_ok (s : SessionRow) : Prop :=
  s_absolute_expires_at s = s_created_at s + hours 8 /\ s_idle_expires_at s <= s_last_seen_at s + minutes 30.

Record follows (s s' : SessionRow) : Prop := {
  f_digest : s_digest s' = s_digest s;
  f_csrf : s_csrf s' = s_csrf s;
  f_user : s_user s' = s_user s;
  f_generation : s_generation s' = s_generation s;
  f_created : s_created_at s' = s_created_at s;
  f_absolute : s_absolute_expires_at s' = s_absolute_expires_at s;
  f_revoked : is_some (s_revoked_at s) = true -> s_revoked_at s' = s_revoked_at s;
  f_ok : row_ok s -> row_ok s';
}.

#[export] Instance follows_preorder : PreOrder follows.
Proof.
  split; [by split|]. intros a b c [] []. split; try congruence; [|tauto].
  intros H. rewrite f_revoked1; [by apply f_revoked0|]. by rewrite f_revoked0.
Qed.

Lemma end_session_follows now s : follows s (end_session now s).
Proof. split; try done. simpl. by destruct (s_revoked_at s). Qed.

Lemma touched_follows now s : s_revoked_at s = None -> follows s (touched now (now + minutes 30) s).
Proof. intros E. split; try done. intros [H _]. split; [done|]. simpl. lia. Qed.

(** ** The relation *)

Definition raised (log : list AuditRow) (u u' : UserRow) : Prop :=
  u_id u' = u_id u /\ u_generation u + Z.b2z (closed (u_id u) log) <= u_generation u'.

Record kept (log : list AuditRow) (fresh : list SessionRow) (db db' : Db) : Prop := {
  k_audit : audit_log db' = audit_log db ++ log;
  k_ids : NoDup (map u_id (users db)) -> NoDup (map u_id (users db'));
  k_users : forall u, In u (users db) -> exists u', In u' (users db') /\ raised log u u';
  k_sessions : Forall2 follows (sessions db ++ fresh) (sessions db');
}.

Lemma follows_refl_list l : Forall2 follows l l.
Proof. by induction l; constructor. Qed.

Lemma kept_trans log log' fresh fresh' a b c :
  kept log fresh a b -> kept log' fresh' b c -> kept (log ++ log') (fresh ++ fresh') a c.
Proof.
  intros [A1 A2 A3 A4] [B1 B2 B3 B4]. split; [|tauto|..].
  - by rewrite B1, A1, app_assoc.
  - intros u (u' & Hu' & E & Hle)%A3. apply B3 in Hu' as (u'' & Hu'' & E' & Hle'). exists u''. split; [done|].
    split; [congruence|]. rewrite closed_app. rewrite E in Hle'.
    destruct (closed (u_id u) log), (closed (u_id u) log'); simpl in *; lia.
  - rewrite app_assoc. etrans; [|exact B4]. apply Forall2_app; [done|apply follows_refl_list].
Qed.

Lemma closed_mild user_id log : Forall mild log -> closed user_id log = false.
Proof. induction 1 as [|row log Hrow _ IH]; [done|]. simpl. by rewrite Hrow. Qed.

Lemma raised_same log u u' : Forall mild log -> u_id u' = u_id u -> u_generation u <= u_generation u' -> raised log u u'.
Proof. intros Hm E Hle. split; [done|]. rewrite closed_mild by done. simpl. lia. Qed.

(** The same accounts and sessions, and rows that close nobody's account. *)
Lemma kept_quiet log db db' :
  users db' = users db -> sessions db' = sessions db -> audit_log db' = audit_log db ++ log ->
  Forall mild log -> kept log [] db db'.
Proof.
  intros Hu Hs Ha Hm. split; [done|by rewrite Hu|..].
  - intros u Hin. exists u. rewrite Hu. split; [done|]. by apply raised_same.
  - rewrite Hs, app_nil_r. apply follows_refl_list.
Qed.

(** A step that closes nobody's account and adds no session. *)
Definition calm (db db' : Db) : Prop := exists log, Forall mild log /\ kept log [] db db'.

Lemma calm_trans a b c : calm a b -> calm b c -> calm a c.
Proof.
  intros (l & Hl & H) (l' & Hl' & H'). exists (l ++ l'). split; [by apply Forall_app|].
  exact (kept_trans _ _ _ _ _ _ _ H H').
Qed.

(** The same accounts, sessions and log. *)
Lemma calm_same db db' :
  users db' = users db -> sessions db' = sessions db -> audit_log db' = audit_log db -> calm db db'.
Proof. intros. exists []. split; [done|]. apply kept_quiet; try done. by rewrite app_nil_r. Qed.
Lemma calm_refl db : calm db db.
Proof. by apply calm_same. Qed.

Lemma calm_audit db db' row : mild row -> calm db db' -> calm db (append_audit row db').
Proof.
  intros Hm H. eapply calm_trans; [exact H|]. exists [row]. split; [by constructor|].
  apply kept_quiet; try done. by constructor.
Qed.

Lemma calm_users db db' :
  sessions db' = sessions db -> audit_log db' = audit_log db ->
  (NoDup (map u_id (users db)) -> NoDup (map u_id (users db'))) ->
  (forall u, In u (users db) -> exists u', In u' (users db') /\ u_id u' = u_id u /\ u_generation u <= u_generation u') ->
  calm db db'.
Proof.
  intros Hs Ha Hids Hu. exists []. split; [done|]. split; [by rewrite Ha, app_nil_r|done|..].
  - intros u (u' & ? & ? & ?)%Hu. exists u'. split; [done|]. by apply raised_same.
  - rewrite Hs, app_nil_r. apply follows_refl_list.
Qed.

Lemma map_row_ids (p : UserRow -> bool) f l :
  (forall u, u_id (f u) = u_id u) -> map u_id (map (fun u => if p u then f u else u) l) = map u_id l.
Proof. intros H. rewrite map_map. apply map_ext. intros u. by destruct (p u). Qed.

Lemma calm_map_users (p : UserRow -> bool) f db :
  (forall u, u_id (f u) = u_id u /\ u_generation u <= u_generation (f u)) ->
  calm db (set_users (map (fun u => if p u then f u else u)) db).
Proof.
  intros H. apply calm_users; try done; simpl.
  - rewrite map_row_ids; [done|]. apply H.
  - intros u Hu. exists (if p u then f u else u). split; [by apply (in_map (fun u => if p u then f u else u))|].
    destruct (p u); [apply H|split; [done|lia]].
Qed.
Lemma calm_update_user user_id f db :
  (forall u, u_id (f u) = u_id u /\ u_generation u <= u_generation (f u)) -> calm db (update_user user_id f db).
Proof. apply (calm_map_users (fun u => String.eqb (u_id u) user_id)). Qed.

Lemma calm_map_sessions (p : SessionRow -> bool) f db :
  (forall s, p s = true -> follows s (f s)) ->
  calm db (set_sessions (map (fun s => if p s then f s else s)) db).
Proof.
  intros H. exists []. split; [done|]. split; simpl; [by rewrite app_nil_r|done|..].
  - intros u Hu. exists u. split; [done|]. by apply raised_same.
  - rewrite app_nil_r. induction (sessions db) as [|s l IH]; simpl; constructor; [|done].
    destruct (p s) eqn:E; [by apply H|done].
Qed.
Lemma calm_end_sessions user_id now db : calm db (end_sessions user_id now db).
Proof. apply calm_map_sessions. intros s _. apply end_session_follows. Qed.
Lemma calm_revoke_if p now db : calm db (revoke_if p now db).
Proof. apply calm_map_sessions. intros s _. apply end_session_follows. Qed.

(** Raising the generation of an account, then a row that closes no other. *)
Lemma closing_kept user_id f db db' row :
  (forall u, u_id (f u) = u_id u /\ u_generation u + 1 <= u_generation (f u)) ->
  (forall x, x <> user_id -> closes x row = false) ->
  calm (update_user user_id f db) db' -> exists log, kept log [] db (append_audit row db').
Proof.
  intros Hf Hrow (log & Hm & [H1 H2 H3 H4]). exists (log ++ [row]). split; simpl.
  - by rewrite H1, app_assoc.
  - intros H. apply H2. simpl. rewrite map_row_ids; [done|]. apply Hf.
  - intros u Hu. destruct (H3 (if String.eqb (u_id u) user_id then f u else u)) as (u' & Hu' & E & Hle).
    { apply (in_map (fun u => if String.eqb (u_id u) user_id then f u else u)), Hu. }
    exists u'. split; [done|]. unfold raised. rewrite closed_app, (closed_mild _ log) by done.
    rewrite (closed_mild _ log) in Hle by done. cbn [orb closed existsb]. rewrite orb_false_r.
    destruct (String.eqb_spec (u_id u) user_id) as [Eu|Eu].
    + destruct (Hf u) as [Ei Hg]. rewrite E. split; [done|]. destruct (closes (u_id u) row); simpl in *; lia.
    + split; [done|]. rewrite Hrow by done. simpl in *. lia.
  - done.
Qed.

Lemma closes_target x row : x <> au_target_id row -> closes x row = false.
Proof. intros Hx. unfold closes. by rewrite (proj2 (String.eqb_neq _ _)) by congruence. Qed.

Lemma calm_kept db db' : calm db db' -> exists log, kept log [] db db'.
Proof. intros (log & _ & H). by exists log. Qed.

(** ** The requests of access control *)

Lemma audit_role_calm action actor_id role db db' :
  str_mem action CLOSING = false -> String.eqb action "auth.password.changed" = false ->
  calm db db' -> calm db (audit_role action actor_id role db').
Proof. intros. apply calm_audit; [by apply mild_action|done]. Qed.

Section requests.
Variable lower : string -> string.
Variable pg_space : Z -> bool.
Variable gen : nat -> string.

Lemma write_contents_calm role_id input action actor_id db role db' :
  str_mem action CLOSING = false -> String.eqb action "auth.password.changed" = false ->
  write_contents lower role_id input action actor_id db = Some (Saved role, db') -> calm db db'.
Proof.
  intros H1 H2. unfold write_contents. split_matches. intros [= <- <-].
  apply audit_role_calm; [done|done|]. by apply calm_same.
Qed.

Lemma commit_saved_calm before db written :
  calm before db -> (forall role db', written = Some (Saved role, db') -> calm db db') ->
  calm before (commit_saved before written).2.
Proof.
  intros Hb H. destruct written as [[[] db']|]; try apply calm_refl. eapply calm_trans; [exact Hb|]. by eapply H.
Qed.

Lemma create_role_calm input a db : calm db (create_role lower gen input a db).2.
Proof.
  unfold create_role. eapply calm_trans; [by apply (calm_same db (drawn db))|].
  apply (commit_saved_calm _ (set_roles (fun l => l ++ [new_role ("r_" +:+ gen (draws db)) (in_name input)]) (drawn db))).
  - by apply calm_same.
  - intros role db'. case_match; [done|]. case_match; [done|]. by apply write_contents_calm.
Qed.

Lemma update_role_calm role_id version input a db : calm db (update_role lower role_id version input a db).2.
Proof.
  unfold update_role. case_match; [apply calm_refl|]. case_match; [apply calm_refl|]. case_match; [apply calm_refl|].
  apply (commit_saved_calm _ (update_role_row role_id bump db)); [by apply calm_same|].
  intros role db'. by apply write_contents_calm.
Qed.

Lemma privatise_calm a role_id now db : calm db (privatise_orphans a role_id now db).
Proof.
  unfold privatise_orphans. apply (calm_trans _ (set_dashboards (map (fun d => if orphan d then privatised now d else d)) db)); [by apply calm_same|].
  generalize (map d_id (List.filter orphan (dashboards db))). intros ids.
  generalize (set_dashboards (map (fun d => if orphan d then privatised now d else d)) db).
  induction ids as [|id ids IH]; intros db'; [apply calm_refl|]. cbn [fold_left]. eapply calm_trans; [|apply IH].
  apply calm_audit; [by apply mild_action|apply calm_refl].
Qed.

Lemma delete_role_calm role_id a now db : calm db (delete_role role_id a now db).2.
Proof.
  unfold delete_role. case_match; [apply calm_refl|]. case_match; [|apply calm_refl]. case_match; [apply calm_refl|].
  apply audit_role_calm; [done|done|]. eapply calm_trans; [|apply privatise_calm]. by apply calm_same.
Qed.

Lemma bind_calm who role_id a now db : calm db (bind gen who role_id a now db).2.
Proof.
  unfold bind. case_match; [|by apply calm_same]. apply calm_audit; [by apply mild_action|by apply calm_same].
Qed.

Lemma give_role_calm who role_id a now db : calm db (give_role gen who role_id a now db).2.
Proof.
  unfold give_role. pose proof (bind_calm who role_id a now db) as H. destruct (bind _ _ _ _ _ _) as [[] db']; [done|].
  by apply calm_same.
Qed.

Lemma remove_role_calm who role_id a now db : calm db (remove_role who role_id a now db).2.
Proof.
  unfold remove_role. case_match; [|apply calm_refl]. case_match; [apply calm_refl|].
  apply calm_audit; [by apply mild_action|by apply calm_same].
Qed.

Lemma bind_all_calm who ids a now db : calm db (bind_all gen who ids a now db).
Proof.
  revert db. induction ids as [|id ids IH]; intros db; [apply calm_refl|]. cbn [bind_all].
  eapply calm_trans; [apply bind_calm|apply IH].
Qed.

Lemma insert_local_user_calm n a now db db' : insert_local_user n a now db = Some db' -> calm db db'.
Proof.
  unfold insert_local_user. destruct (_ || _) eqn:E; [done|]. intros [= <-]. apply calm_audit; [by apply mild_action|].
  rewrite !orb_false_iff in E. destruct E as [[[[_ Hid] _] _] _].
  apply Bool.not_true_iff_false in Hid. rewrite str_mem_In in Hid. apply calm_users; try done; simpl.
  - intros Hnd. rewrite map_app. apply NoDup_snoc; [done|]. by rewrite list_elem_of_In.
  - intros u Hu. exists u. split; [apply in_or_app; by left|]. split; [done|lia].
Qed.

Lemma create_user_calm n e more a now db db' : create_user pg_space gen n e more a now db = Some db' -> calm db db'.
Proof.
  unfold create_user. destruct (insert_local_user _ _ _ _) as [db1|] eqn:E; [|done].
  apply insert_local_user_calm in E. destruct e as [e|]; [case_match; [|done]|]; intros [= <-];
    (eapply calm_trans; [exact E|]); [eapply calm_trans; [|apply bind_all_calm]|apply bind_all_calm].
  apply calm_update_user. intros u. split; [done|simpl; lia].
Qed.

Lemma set_details_calm user_id name e a db : calm db (set_details pg_space user_id name e a db).2.
Proof.
  unfold set_details. case_match; [apply calm_refl|]. case_match; [|apply calm_refl].
  apply calm_audit; [by apply mild_action|]. apply calm_update_user. intros u. split; [done|simpl; lia].
Qed.

Lemma enable_user_calm user_id a db : calm db (enable_user user_id a db).2.
Proof.
  unfold enable_user. case_match; [|apply calm_refl]. apply calm_audit; [by apply mild_action|].
  apply calm_update_user. intros u. split; [done|simpl; lia].
Qed.

Lemma disable_kept user_id a now db : exists log, kept log [] db (disable_local_user user_id a now db).2.
Proof.
  unfold disable_local_user. case_match; [apply calm_kept, calm_refl|].
  case_match; [|apply calm_kept, calm_refl]. apply (closing_kept user_id (set_enabled false 1)).
  - intros u. split; [done|simpl; lia].
  - intros x Hx. by apply closes_target.
  - apply calm_end_sessions.
Qed.

Lemma reset_kept user_id phc a now db : exists log, kept log [] db (reset_password user_id phc a now db).2.
Proof.
  unfold reset_password. case_match; [|apply calm_kept, calm_refl]. apply (closing_kept user_id (with_password phc)).
  - intros u. split; [done|simpl; lia].
  - intros x Hx. by apply closes_target.
  - apply calm_end_sessions.
Qed.

Ltac quiet := try (simpl; apply calm_kept, calm_refl).

Lemma handle_kept now a request db : exists log, kept log [] db (handle lower pg_space gen now a request db).2.
Proof.
  destruct request; cbn [handle].
  - unfold create_role_request. do 3 (case_match; quiet).
    match goal with |- context [create_role ?l ?g ?i ?c ?d] => pose proof (create_role_calm i c d) as Hc end.
    destruct (create_role _ _ _ _ _). by apply calm_kept.
  - unfold update_role_request. do 6 (case_match; quiet).
    match goal with |- context [update_role ?l ?r ?v ?i ?c ?d] => pose proof (update_role_calm r v i c d) as Hc end.
    destruct (update_role _ _ _ _ _ _). by apply calm_kept.
  - unfold delete_role_request. do 3 (case_match; quiet).
    match goal with |- context [delete_role ?r ?c ?n ?d] => pose proof (delete_role_calm r c n d) as Hc end.
    destruct (delete_role _ _ _ _) as [[[]|] db']; by apply calm_kept.
  - unfold change. do 4 (case_match; quiet). destruct give.
    + match goal with |- context [give_role ?l ?r ?v ?i ?c ?d] => pose proof (give_role_calm r v i c d) as Hc end.
      destruct (give_role _ _ _ _ _ _) as [[] db']; by apply calm_kept.
    + match goal with |- context [remove_role ?r ?v ?i ?c ?d] => pose proof (remove_role_calm r v i c d) as Hc end.
      destruct (remove_role _ _ _ _ _) as [[] db']; by apply calm_kept.
  - unfold create_person. do 8 (case_match; quiet).
    all: destruct (username_taken db s); quiet.
    all: match goal with |- context [create_user ?p ?g ?n ?e ?m ?c ?t ?d] =>
           pose proof (create_user_calm n e m c t d) as Hc; destruct (create_user p g n e m c t d) as [db'|] end.
    all: apply calm_kept; eapply calm_trans; [by apply (calm_same db (drawn (drawn db)))|].
    all: try by apply Hc.
    all: by apply calm_same.
  - unfold update_person. repeat (case_match; quiet).
    all: match goal with H : set_details ?p ?i ?n ?e ?c ?d = _ |- _ =>
           pose proof (set_details_calm i n e c d) as Hc; rewrite H in Hc; by apply calm_kept end.
  - unfold disable_person. do 3 (case_match; quiet).
    match goal with |- context [disable_local_user ?i ?c ?n ?d] => pose proof (disable_kept i c n d) as Hc end.
    destruct (disable_local_user _ _ _ _) as [[] db']; done.
  - unfold enable_person. do 2 (case_match; quiet). apply calm_kept, enable_user_calm.
  - unfold reset_password_request. do 4 (case_match; quiet).
    match goal with |- context [reset_password ?i ?p ?c ?n ?d] => pose proof (reset_kept i p c n d) as Hc end.
    destruct (reset_password _ _ _ _ _) as [[] db']; done.
Qed.
End requests.

(** ** The statements of signing in *)

Lemma auth_event_calm actor action kind target reason db db' :
  str_mem action CLOSING = false -> String.eqb action "auth.password.changed" = false ->
  calm db db' -> calm db (auth_event actor action kind target reason db').
Proof. intros. apply calm_audit; [by apply mild_action|done]. Qed.

Lemma clear_access buckets now t : access (clear_login_throttle buckets now t) = access t.
Proof. done. Qed.
Lemma count_failures_access now window lock_for l t : access (count_failures now window lock_for l t) = access t.
Proof. revert t. induction l as [|[b n] l IH]; intros t; [done|]. cbn [count_failures]. by rewrite IH. Qed.

Lemma record_login_failure_calm buckets now window limits lock_for t t' :
  record_login_failure buckets now window limits lock_for t = Some t' -> calm (access t) (access t').
Proof.
  unfold record_login_failure. case_match; [done|]. intros [= <-]. cbn [access on_access].
  apply auth_event_calm; [done|done|]. apply calm_same; by rewrite count_failures_access.
Qed.

Lemma rehash_calm user_id g phc t : calm (access t) (access (rehash_password user_id g phc t).2).
Proof.
  unfold rehash_password. case_match; [|apply calm_refl]. cbn [access on_access snd].
  apply auth_event_calm; [done|done|]. apply calm_map_users. intros u. split; [done|simpl; lia].
Qed.

Lemma replace_kept user_id phc must_change now a t :
  exists log, kept log [] (access t) (access (replace_password user_id phc must_change now a t).2).
Proof.
  unfold replace_password. case_match; [|apply calm_kept, calm_refl]. cbn [access on_access snd].
  apply (closing_kept user_id (set_password phc must_change 1)).
  - intros u. split; [done|simpl; lia].
  - intros x Hx. by apply closes_target.
  - apply calm_end_sessions.
Qed.

Lemma revoke_all_kept user_id now a reason t :
  exists log, kept log [] (access t) (access (revoke_user_sessions user_id now a reason t).2).
Proof.
  unfold revoke_user_sessions. case_match; [|apply calm_kept, calm_refl]. cbn [access on_access snd].
  apply (closing_kept user_id bump_generation).
  - intros u. split; [done|simpl; lia].
  - intros x Hx. by apply closes_target.
  - apply calm_end_sessions.
Qed.

Lemma change_own_calm user_id digest verified phc now t :
  calm (access t) (access (change_own_password user_id digest verified phc now t).2).
Proof.
  unfold change_own_password. case_match; [|apply calm_refl]. case_match; [apply calm_refl|].
  case_match; [apply calm_refl|].
  cbn [access on_access snd]. apply calm_audit; [apply mild_own_password|].
  eapply calm_trans; [|apply calm_revoke_if]. apply calm_update_user. intros u'. split; [done|simpl; lia].
Qed.

Lemma touch_calm digest now t : calm (access t) (access (touch_session digest now (minutes 30) t).2).
Proof.
  unfold touch_session. cbn [access on_access snd]. apply calm_map_sessions. intros s Hs. bprop.
  unfold live_session in *. bprop. apply touched_follows. by destruct (s_revoked_at s).
Qed.

Lemma revoke_session_calm digest now t : calm (access t) (access (revoke_session digest now t).2).
Proof.
  unfold revoke_session. case_match; [|apply calm_refl]. cbn [access on_access snd].
  apply auth_event_calm; [done|done|]. apply calm_revoke_if.
Qed.

Lemma unlock_calm username bucket now a t : calm (access t) (access (unlock_local_user username bucket now a t).2).
Proof.
  unfold unlock_local_user. case_match; [|apply calm_refl]. case_match; [|apply calm_refl]. cbn [access on_access snd].
  apply auth_event_calm; [done|done|]. apply calm_refl.
Qed.

Lemma enable_local_calm username a t : calm (access t) (access (enable_local_user username a t).2).
Proof.
  unfold enable_local_user. case_match; [|apply calm_refl]. cbn [access on_access snd].
  apply auth_event_calm; [done|done|].
  apply (calm_map_users (fun u => String.eqb (u_username u) username && negb (u_enabled u))).
  intros u'. split; [done|simpl; lia].
Qed.

(** A session is added for an enabled account at its generation, under a digest not used before. *)
Lemma create_session_kept n t done t' :
  create_session n t = Some (done, t') -> exists log fresh, kept log fresh (access t) (access t')
    /\ (fresh = [] \/ fresh = [new_session n] /\ ~ In (ns_digest n) (map s_digest (sessions (access t)))
        /\ existsb (current_user (ns_user n) (ns_generation n)) (users (access t)) = true).
Proof.
  unfold create_session. case_match.
  - intros [= <- <-]. exists [], []. split; [|by left]. by apply kept_quiet; rewrite ?app_nil_r.
  - destruct (_ || _) eqn:E; [done|]. intros [= <- <-]. bprop. cbn [access].
    set (db := set_sessions (fun l => l ++ [new_session n]) (access t)).
    assert (kept [] [new_session n] (access t) db) as Hadd.
    { split; simpl; [by rewrite app_nil_r|done|..]; [|apply follows_refl_list].
      intros u Hu. exists u. split; [done|]. by apply raised_same. }
    assert (forall db', calm db db' -> exists log, kept log [new_session n] (access t) db') as Hto.
    { intros db' (log & _ & Hk). exists ([] ++ log). exact (kept_trans _ _ _ _ _ _ _ Hadd Hk). }
    destruct (Hto (auth_event (ns_user n) "auth.login.succeeded" "user" (ns_user n) None
               (match ns_previous n with
                | Some previous => revoke_if (fun s => digest_eqb (s_digest s) previous) (ns_now n) db
                | None => db end))) as [log Hlog].
    { apply auth_event_calm; [done|done|]. destruct (ns_previous n); [apply calm_revoke_if|apply calm_refl]. }
    exists log, [new_session n]. split; [exact Hlog|]. right. split; [done|]. split; [|done].
    intros (s & Es & Hs)%in_map_iff.
    assert (existsb (fun s => digest_eqb (s_digest s) (ns_digest n)) (sessions (access t)) = true) as Hx; [|congruence].
    apply existsb_exists. exists s. split; [done|]. by apply bool_decide_eq_true.
Qed.
