(* ===== verification/SignProps.v ===== *)
(** * Signing in: what every interleaving guarantees

    A world is the tables with the handlers under way; a step runs one statement of one of them, or
    a whole request of access control, or a command of the administrator.  Sessions come only from
    passwords checked against an account nobody closed since; an ended session stays ended; what a
    request is given is what its person holds. *)
From S2P Require Import Prelude RustStd Text BTree Json AccessData AccessRules AccessDb AccessOps SignData SignDb SignOps SignInv.
From stdpp Require Import prelude strings list relations.
From Stdlib Require Import Ascii ZArith Lia.

Open Scope Z_scope.

#[local] Opaque resolve_capabilities.

(** ** Worlds *)

Record World := {
  tables : SignTables;
  logins : list (Attempt * LoginStage);
  requests : list (SessionRequest * RequestStage);
  changes : list (PasswordRequest * PasswordStage);
}.

Section world.
Context (cr : Crypto) (hash_password : string -> option string) (dummy_phc : option string).
Context (public_origin_valid : bool) (request_origin : Headers -> string).
Context (lower : string -> string) (pg_space : Z -> bool) (gen : nat -> string).

#[local] Notation login_start := (login_start cr dummy_phc public_origin_valid request_origin).
#[local] Notation login_step := (login_step cr hash_password).
#[local] Notation request_step := (request_step cr public_origin_valid request_origin).
#[local] Notation password_step := (password_step cr hash_password public_origin_valid request_origin).
#[local] Notation logout := (logout cr public_origin_valid request_origin).

Definition at_tables (t : SignTables) (w : World) : World :=
  {| tables := t; logins := logins w; requests := requests w; changes := changes w |}.

Inductive step (w : World) : World -> Prop :=
  | StepLoginStart r a : login_start r = inr a ->
      step w {| tables := tables w; logins := logins w ++ [(a, LConsume)]; requests := requests w; changes := changes w |}
  | StepLogin e i a st st' t' : logins w !! i = Some (a, st) -> login_step e a st (tables w) = (st', t') ->
      step w {| tables := t'; logins := <[i := (a, st')]> (logins w); requests := requests w; changes := changes w |}
  | StepRequestStart r :
      step w {| tables := tables w; logins := logins w; requests := requests w ++ [(r, request_start cr r)];
                changes := changes w |}
  | StepRequest e i r st st' t' : requests w !! i = Some (r, st) -> request_step e r st (tables w) = (st', t') ->
      step w {| tables := t'; logins := logins w; requests := <[i := (r, st')]> (requests w); changes := changes w |}
  | StepChangeStart r :
      step w {| tables := tables w; logins := logins w; requests := requests w;
                changes := changes w ++ [(r, password_start cr r)] |}
  | StepChange e i r st st' t' : changes w !! i = Some (r, st) -> password_step e r st (tables w) = (st', t') ->
      step w {| tables := t'; logins := logins w; requests := requests w; changes := <[i := (r, st')]> (changes w) |}
  | StepPreauth preauth_secret browser_secret now t' :
      preauth cr preauth_secret browser_secret now (tables w) = Some t' -> step w (at_tables t' w)
  | StepLogout e h now : step w (at_tables (logout e h now (tables w)).2 w)
  | StepAccess now user_id request :
      step w (at_tables (on_access (fun db => (handle lower pg_space gen now user_id request db).2) (tables w)) w)
  | StepReplace user_id phc must_change now actor_id :
      step w (at_tables (replace_password user_id phc must_change now actor_id (tables w)).2 w)
  | StepRevokeAll user_id now actor_id reason :
      step w (at_tables (revoke_user_sessions user_id now actor_id reason (tables w)).2 w)
  | StepUnlock username now actor_id :
      step w (at_tables (unlock_local_user username (account_throttle_bucket cr username) now actor_id (tables w)).2 w)
  | StepEnable username actor_id : step w (at_tables (enable_local_user username actor_id (tables w)).2 w).

(** ** What a step does to the tables *)

Definition advances (fresh : list SessionRow) (t t' : SignTables) : Prop :=
  exists log, kept log fresh (access t) (access t').

Lemma calm_advances t t' : calm (access t) (access t') -> advances [] t t'.
Proof. apply calm_kept. Qed.

(** Only the last statement of a login adds a session. *)
Definition login_fresh (a : Attempt) (st : LoginStage) (t : SignTables) (fresh : list SessionRow) : Prop :=
  fresh = [] \/ exists c, st = LCreate c /\ fresh = [new_session (login_session cr a c)]
    /\ ~ In (session_digest cr (at_secret a)) (map s_digest (sessions (access t))).

Lemma login_step_advances e a st t st' t' :
  login_step e a st t = (st', t') -> exists fresh, advances fresh t t' /\ login_fresh a st t fresh.
Proof.
  assert (forall t', calm (access t) (access t') -> exists fresh, advances fresh t t' /\ login_fresh a st t fresh) as Hcalm.
  { intros t1 Hc. exists []. split; [by apply calm_advances|by left]. }
  intros H. destruct st as [|throttled|throttled|throttled credential| |c phc|c|c|answer]; cbn [SignOps.login_step] in H.
  4,9: by injection H as <- <-; apply Hcalm, calm_refl.
  3: by repeat case_match; injection H as <- <-; apply Hcalm, calm_refl.
  all: destruct (db_ok e); cbn [negb] in H; [|by injection H as <- <-; apply Hcalm, calm_refl].
  - destruct (consume_preauth _ _ _ _ _) as [found t1] eqn:E. injection H as <- <-. injection E as _ <-.
    apply Hcalm. by apply calm_same.
  - injection H as <- <-. apply Hcalm, calm_refl.
  - destruct (record_login_failure _ _ _ _ _ _) eqn:E; injection H as <- <-; apply Hcalm; [|apply calm_refl].
    by apply record_login_failure_calm in E.
  - pose proof (rehash_calm (c_user_id c) (c_auth_generation c) phc t) as Hc.
    destruct (rehash_password _ _ _ _) as [done t1]. injection H as <- <-. by apply Hcalm.
  - injection H as <- <-. apply Hcalm. by apply calm_same.
  - destruct (create_session _ _) as [[done t1]|] eqn:E; [|injection H as <- <-; apply Hcalm, calm_refl].
    assert (t1 = t') as -> by (by destruct done; injection H).
    apply create_session_kept in E as (log & fresh & Hk & Hf). exists fresh. split; [by exists log|].
    destruct Hf as [->|(-> & Hn & _)]; [by left|]. right. by exists c.
Qed.

Lemma request_step_calm e r st t st' t' : request_step e r st t = (st', t') -> calm (access t) (access t').
Proof.
  destruct st; cbn [SignOps.request_step]; intros H.
  4,5: by injection H as <- <-; apply calm_refl.
  1,3: by repeat case_match; injection H as <- <-; apply calm_refl.
  destruct (negb _); [by injection H as <- <-; apply calm_refl|]. unfold check_touch in H.
  pose proof (touch_calm (session_digest cr secret) (sr_now r) t) as Hc.
  destruct (touch_session _ _ _ _). by injection H as _ <-.
Qed.

Lemma password_step_calm e r st t st' t' : password_step e r st t = (st', t') -> calm (access t) (access t').
Proof.
  destruct st as [| | | | |active|secret active verified phc|secret active verified phc|];
    cbn [SignOps.password_step]; intros H.
  5,9: by injection H as <- <-; apply calm_refl.
  all: destruct (negb _); [by injection H as <- <-; apply calm_refl|].
  - by repeat case_match; injection H as <- <-; apply calm_refl.
  - unfold check_touch in H. pose proof (touch_calm (session_digest cr secret) (sr_now (pr_session r)) t) as Hc.
    destruct (touch_session _ _ _ _). by injection H as _ <-.
  - injection H as _ <-. apply calm_refl.
  - injection H as _ <-. apply calm_refl.
  - destruct (record_login_failure _ _ _ _ _ _) eqn:E; injection H as _ <-; [|apply calm_refl].
    by apply record_login_failure_calm in E.
  - injection H as _ <-. by apply calm_same.
  - pose proof (change_own_calm (u_id (se_user active)) (session_digest cr secret) verified phc (pr_now r) t) as Hc.
    destruct (change_own_password _ _ _ _ _ _) as [[] t1]; by injection H as _ <-.
Qed.

Lemma logout_calm e h now t : calm (access t) (access (logout e h now t).2).
Proof. unfold SignOps.logout. repeat case_match; try apply calm_refl. apply revoke_session_calm. Qed.

Lemma step_advances w w' : step w w' -> exists fresh, advances fresh (tables w) (tables w')
  /\ (fresh = [] \/ exists i a st, logins w !! i = Some (a, st) /\ login_fresh a st (tables w) fresh).
Proof.
  assert (forall t t', calm (access t) (access t') -> exists fresh, advances fresh t t'
    /\ (fresh = [] \/ exists i a st, logins w !! i = Some (a, st) /\ login_fresh a st (tables w) fresh)) as Hcalm.
  { intros t t' Hc. exists []. split; [by apply calm_advances|by left]. }
  destruct 1; cbn [tables at_tables]; try (apply Hcalm, calm_refl).
  - apply login_step_advances in H0 as (fresh & Ha & Hf). exists fresh. split; [done|]. right. by exists i, a, st.
  - by eapply Hcalm, request_step_calm.
  - by eapply Hcalm, password_step_calm.
  - apply Hcalm. unfold preauth, create_preauth in H. case_match; [done|]. injection H as <-. by apply calm_same.
  - apply Hcalm, logout_calm.
  - exists []. split; [|by left]. apply handle_kept.
  - exists []. split; [|by left]. apply replace_kept.
  - exists []. split; [|by left]. apply revoke_all_kept.
  - apply Hcalm, unlock_calm.
  - apply Hcalm, enable_local_calm.
Qed.

Lemma steps_kept w w' : rtc step w w' -> exists log fresh, kept log fresh (access (tables w)) (access (tables w')).
Proof.
  induction 1 as [w|w w1 w' Hs _ (log & fresh & IH)].
  - exists [], []. by apply kept_quiet; rewrite ?app_nil_r.
  - apply step_advances in Hs as (fresh1 & [log1 H] & _). exists (log1 ++ log), (fresh1 ++ fresh).
    by eapply kept_trans.
Qed.

(** ** The past of a login *)

#[local] Notation since := (since step).

Section history.
(** The world a history starts from. *)
Variable w0 : World.

(** The pre-login value was consumed; then the account and the source were found not locked; then
    the credential was read. *)
Definition preauth_consumed (a : Attempt) : World -> Prop :=
  since (fun w => rtc step w0 w
    /\ (consume_preauth (at_token a) (at_csrf a) (at_browser a) (at_now a) (tables w)).1 = true).
Definition found_unlocked (a : Attempt) : World -> Prop :=
  since (fun w => preauth_consumed a w /\ login_is_throttled (at_buckets a) (at_now a) (tables w) = false).
Definition credential_read (a : Attempt) (c : Credential) : World -> Prop :=
  since (fun w => found_unlocked a w
    /\ exists name, at_username a = Some name /\ credential_by_username name (tables w) = Some c).
(** The password given is the one stored. *)
Definition password_right (a : Attempt) (c : Credential) : Prop :=
  c_enabled c = true /\ char_count (at_password a) <= MAX_RAW_PASSWORD_CODE_POINTS
  /\ exists v, verify_password cr (nfc cr (at_password a)) (c_password_phc c) = Some v /\ valid v = true.

Definition stage_ok (a : Attempt) (st : LoginStage) (w : World) : Prop :=
  match st with
  | LThrottle => preauth_consumed a w
  | LCredential false => found_unlocked a w
  | LVerify false (Some c) => credential_read a c w
  | LRehash c _ | LClear c | LCreate c => credential_read a c w /\ password_right a c
  | _ => True
  end.

Lemma stage_ok_step a st w w' : stage_ok a st w -> step w w' -> stage_ok a st w'.
Proof.
  intros H Hs. destruct st as [| |[]|[] []| | | | |]; simpl in *; try done; try by eapply since_step.
  all: destruct H; split; [by eapply since_step|done].
Qed.

Lemma verify_stage_ok a throttled credential w :
  stage_ok a (LVerify throttled credential) w -> stage_ok a (verify_stage cr hash_password a throttled credential) w.
Proof.
  intros H. unfold verify_stage, verification, verification_input.
  destruct (for_verification cr (at_password a)) as [err|n] eqn:En; [by repeat case_match|].
  assert (char_count (at_password a) <= MAX_RAW_PASSWORD_CODE_POINTS /\ n = nfc cr (at_password a)) as [Hle ->].
  { unfold for_verification in En. case_match; [done|]. injection En as <-. split; [lia|done]. }
  cbn [fst]. destruct credential as [c|]; [|by repeat case_match].
  destruct throttled; [by rewrite andb_false_r; repeat case_match|]. cbn [negb andb].
  destruct (c_enabled c) eqn:Ec; cbn [andb]; [|by repeat case_match].
  destruct (verify_password cr (nfc cr (at_password a)) (c_password_phc c)) as [v|] eqn:Ev.
  2: { destruct (verify_password cr (nfc cr (at_password a)) (at_dummy a)); by simpl. }
  destruct (valid v) eqn:Hv; [|by simpl].
  assert (password_right a c) by (split; [done|]; split; [done|]; by exists v).
  destruct (needs_rehash v); simpl; [|done]. by destruct (hash_password _).
Qed.

Lemma login_step_ok e a st w w' st' t' :
  rtc step w0 w -> stage_ok a st w -> login_step e a st (tables w) = (st', t') -> step w w' -> stage_ok a st' w'.
Proof.
  intros Hr Hok H Hs.
  destruct st as [| |throttled|throttled credential| |c phc|c|c|answer]; cbn [SignOps.login_step] in H.
  9: by injection H as <- <-.
  4: { injection H as <- <-. destruct (slot_free e); [|done]. eapply stage_ok_step; [|done]. by apply verify_stage_ok. }
  3: { destruct throttled; [by injection H as <- <-|]. simpl in Hok. destruct (at_username a) as [name|] eqn:En;
         [|by injection H as <- <-]. destruct (db_ok e); [|by injection H as <- <-]. injection H as <- <-. simpl.
       destruct (credential_by_username name (tables w)) as [c|] eqn:Ec; [|done]. eapply since_now; [|done]. split; [done|].
       by exists name. }
  all: destruct (db_ok e); cbn [negb] in H; [|by injection H as <- <-].
  - destruct (consume_preauth _ _ _ _ _) as [[] t1] eqn:E; injection H as <- <-; [|done]. simpl. eapply since_now; [|done].
    split; [done|]. by rewrite E.
  - injection H as <- <-. simpl. destruct (login_is_throttled _ _ _) eqn:E; [done|]. by eapply since_now.
  - by destruct (record_login_failure _ _ _ _ _ _); injection H as <- <-.
  - destruct (rehash_password _ _ _ _) as [[] t1]; injection H as <- <-; [|done]. by apply (stage_ok_step a (LRehash c phc) w).
  - injection H as <- <-. by apply (stage_ok_step a (LClear c) w).
  - by destruct (create_session _ _) as [[[] t1]|]; injection H as <- <-.
Qed.

(** ** The invariant *)

(** The login a session row came from. *)
Definition origin (s : SessionRow) (w : World) : Prop :=
  exists r a c, login_start r = inr a /\ credential_read a c w /\ password_right a c
    /\ s_digest s = session_digest cr (at_secret a) /\ s_user s = c_user_id c
    /\ s_generation s = c_auth_generation c /\ s_created_at s = at_now a.

Lemma origin_step s w w' : origin s w -> step w w' -> origin s w'.
Proof.
  intros (r & a & c & H1 & H2 & H3) Hs. exists r, a, c. split; [done|]. split; [by eapply since_step|done].
Qed.
Lemma origin_follows s s' w : follows s s' -> origin s w -> origin s' w.
Proof.
  intros [] (r & a & c & H1 & H2 & H3 & H4 & H5 & H6 & H7). exists r, a, c. split_and!; try done; congruence.
Qed.

Record inv (w : World) : Prop := {
  i_reached : rtc step w0 w;
  i_logins : forall i a st, logins w !! i = Some (a, st) -> (exists r, login_start r = inr a) /\ stage_ok a st w;
  i_sessions : forall s, In s (sessions (access (tables w))) -> row_ok s /\ origin s w;
  i_ids : NoDup (map u_id (users (access (tables w))));
  i_digests : NoDup (map s_digest (sessions (access (tables w))));
}.

Lemma logins_step w w' :
  inv w -> step w w' ->
  forall i a st, logins w' !! i = Some (a, st) -> (exists r, login_start r = inr a) /\ stage_ok a st w'.
Proof.
  intros Hi Hs. pose proof (i_logins w Hi) as Hl.
  assert (forall i a st, logins w !! i = Some (a, st) -> (exists r, login_start r = inr a) /\ stage_ok a st w') as Hold.
  { intros i a st [Hr Hok]%Hl. split; [done|]. by eapply stage_ok_step. }
  pose proof Hs as Hs'. destruct Hs; try exact Hold; cbn [logins].
  - intros i b st [Hin|(_ & E)]%lookup_app_Some; [by eapply Hold|].
    apply list_lookup_singleton_Some in E as [_ [= <- <-]]. split; [by exists r|done].
  - intros j b st1 [(-> & E & _)|[_ Hin]]%list_lookup_insert_Some; [|by eapply Hold]. injection E as <- <-.
    destruct (Hl _ _ _ H) as [Hr Hok]. split; [done|]. eapply login_step_ok; [apply Hi|done|done|done].
Qed.

Lemma Forall2_in_r {A} (R : A -> A -> Prop) l l' y : Forall2 R l l' -> In y l' -> exists x, In x l /\ R x y.
Proof. induction 1 as [|x z l l' Hxz _ IH]; simpl; [done|]. intros [<-|(v & ? & ?)%IH]; eauto. Qed.
Lemma Forall2_in_l {A} (R : A -> A -> Prop) l l' x : Forall2 R l l' -> In x l -> exists y, In y l' /\ R x y.
Proof. induction 1 as [|v z l l' Hxz _ IH]; simpl; [done|]. intros [<-|(y & ? & ?)%IH]; eauto. Qed.
Lemma follows_digests l l' : Forall2 follows l l' -> map s_digest l' = map s_digest l.
Proof. induction 1 as [|s s' l l' [] _ IH]; simpl; congruence. Qed.

Lemma new_session_ok a c w :
  (exists r, login_start r = inr a) -> stage_ok a (LCreate c) w ->
  row_ok (new_session (login_session cr a c)) /\ origin (new_session (login_session cr a c)) w.
Proof. intros [r Hr] [H1 H2]. split; [split; simpl; [done|lia]|]. by exists r, a, c. Qed.

Lemma inv_step w w' : inv w -> step w w' -> inv w'.
Proof.
  intros Hi Hs. pose proof (logins_step w w' Hi Hs) as Hl. destruct (step_advances w w' Hs) as (fresh & [log Hk] & Hf).
  assert (forall s, In s fresh -> row_ok s /\ origin s w) as Hfresh.
  { destruct Hf as [->|(i & a & st & E & [->|(c & -> & -> & _)])]; [done|done|]. intros s [<-|[]].
    destruct (i_logins w Hi _ _ _ E). by apply new_session_ok. }
  split; [eapply rtc_r; [apply Hi|done]|exact Hl|..].
  - intros s' Hin. destruct (Forall2_in_r _ _ _ _ (k_sessions _ _ _ _ Hk) Hin) as (s & Hs' & Hfo).
    assert (row_ok s /\ origin s w) as [Hok Ho].
    { apply in_app_or in Hs' as [Hs'|Hs']; [by apply (i_sessions w Hi)|by apply Hfresh]. }
    split; [by apply Hfo|]. eapply origin_step; [|done]. by eapply origin_follows.
  - apply Hk, Hi.
  - rewrite (follows_digests _ _ (k_sessions _ _ _ _ Hk)), map_app. pose proof (i_digests w Hi) as Hnd.
    destruct Hf as [->|(i & a & st & _ & [->|(c & _ & -> & Hn)])]; [by rewrite app_nil_r..|].
    apply NoDup_snoc; [done|]. by rewrite list_elem_of_In.
Qed.

(** Where a history may start: nobody signed in or signing in. *)
Definition quiet_start : Prop :=
  logins w0 = [] /\ sessions (access (tables w0)) = [] /\ NoDup (map u_id (users (access (tables w0)))).

Lemma inv_reached w : quiet_start -> rtc step w0 w -> inv w.
Proof.
  intros (Hl & Hs & Hu). revert w. apply rtc_ind_r; [|intros w w' _ Hs' IH; by eapply inv_step].
  split; [done|..]; rewrite ?Hl, ?Hs; try done. constructor.
Qed.

(** ** Reading a session *)

Lemma session_live digest now t se :
  session digest now t = Some se ->
  In (se_row se) (sessions (access t)) /\ s_digest (se_row se) = digest /\ s_revoked_at (se_row se) = None
  /\ now < s_idle_expires_at (se_row se) /\ now < s_absolute_expires_at (se_row se)
  /\ In (se_user se) (users (access t)) /\ u_id (se_user se) = s_user (se_row se)
  /\ u_enabled (se_user se) = true /\ u_generation (se_user se) = s_generation (se_row se).
Proof.
  unfold session. destruct (find (live_session _ _) _) as [s|] eqn:Es; [|done]. simpl.
  destruct (find (current_user _ _) _) as [u|] eqn:Eu; [|done]. intros [= <-]. simpl.
  apply find_some in Es as [Hs Hl]. apply find_some in Eu as [Hu Hc]. unfold live_session, digest_eqb in Hl.
  unfold current_user in Hc. bprop.
  split_and!; try done; try lia; [by destruct (s_revoked_at s)|by apply String.eqb_eq].
Qed.

Lemma credential_user name t c :
  credential_by_username name t = Some c ->
  exists u, In u (users (access t)) /\ u_id u = c_user_id c /\ u_generation u = c_auth_generation c
    /\ u_username u = name /\ u_password u = Some (c_password_phc c) /\ u_enabled u = c_enabled c.
Proof.
  unfold credential_by_username. destruct (find _ _) as [u|] eqn:E; [|done]. simpl.
  apply find_some in E as [Hin E]. bprop. destruct (u_password u) as [phc|] eqn:Ep; [|done]. simpl. intros [= <-].
  exists u. split_and!; try done. by apply String.eqb_eq.
Qed.

(** ** Ended sessions *)

Lemma ended_stays w w' s now :
  NoDup (map s_digest (sessions (access (tables w')))) -> rtc step w w' ->
  In s (sessions (access (tables w))) -> is_some (s_revoked_at s) = true ->
  session (s_digest s) now (tables w') = None.
Proof.
  intros Hnd Hr Hs Hrev. destruct (session _ _ _) as [se|] eqn:E; [exfalso|done].
  apply session_live in E as (Hin & Ed & Enone & _). apply steps_kept in Hr as (log & fresh & Hk).
  destruct (Forall2_in_l _ _ _ s (k_sessions _ _ _ _ Hk)) as (s' & Hs' & Hf); [apply in_or_app; by left|].
  assert (s' = se_row se) as ->.
  { apply (NoDup_map_inj s_digest _ _ _ Hnd); try done. rewrite Ed. apply Hf. }
  rewrite (f_revoked _ _ Hf Hrev) in Enone. by rewrite Enone in Hrev.
Qed.

Lemma revoked_row digest now t s :
  In s (sessions (access t)) -> s_digest s = digest -> s_revoked_at s = None ->
  exists s', In s' (sessions (access (revoke_session digest now t).2)) /\ s_digest s' = digest
    /\ is_some (s_revoked_at s') = true.
Proof.
  intros Hs Ed En. unfold revoke_session. destruct (find _ _) as [x|] eqn:E.
  - exists (end_session now s). split; [|done]. cbn. apply in_map_iff. exists s. split; [|done].
    unfold digest_eqb. by rewrite En, Ed, (proj2 (bool_decide_eq_true _)).
  - pose proof (find_none _ _ E s Hs) as Hx. unfold digest_eqb in Hx. by rewrite En, Ed, (proj2 (bool_decide_eq_true _)) in Hx.
Qed.

(** ** The past of a request *)

Definition session_checked (r : SessionRequest) (active : Session) : World -> Prop :=
  since (fun w => rtc step w0 w /\ exists secret,
    presented_credentials cr (sr_headers r) = inr (SignData.Session secret)
    /\ session (session_digest cr secret) (sr_now r) (tables w) = Some active
    /\ csrf_accepted cr public_origin_valid request_origin r secret = true).
Definition person_current (r : SessionRequest) (active : Session) (w : World) : Prop :=
  session_checked r active w /\ u_must_change (se_user active) = false.
Definition capabilities_read (r : SessionRequest) (user_id : string) (caps : list EffectiveCapability) : World -> Prop :=
  since (fun w => exists active, person_current r active w /\ u_id (se_user active) = user_id
    /\ caps = resolve_capabilities (grants (access (tables w)) (User user_id))).

Definition request_ok (r : SessionRequest) (st : RequestStage) (w : World) : Prop :=
  match st with
  | RRead secret => presented_credentials cr (sr_headers r) = inr (SignData.Session secret)
  | RTouch _ active => session_checked r active w
  | RCapabilities active => person_current r active w
  | RThrough user_id caps => capabilities_read r user_id caps w
  | REnd _ => True
  end.

Lemma request_ok_step r st w w' : request_ok r st w -> step w w' -> request_ok r st w'.
Proof.
  intros H Hs. destruct st; simpl in *; try done; try by eapply since_step.
  destruct H. split; [by eapply since_step|done].
Qed.

Lemma after_check_ok r active w : session_checked r active w -> request_ok r (after_check active) w.
Proof. intros H. unfold after_check. destruct (u_must_change _) eqn:E; [done|by split]. Qed.

Lemma request_step_ok e r st w w' st' t' :
  rtc step w0 w -> request_ok r st w -> request_step e r st (tables w) = (st', t') -> step w w' -> request_ok r st' w'.
Proof.
  intros Hr Hok H Hs. destruct st as [secret|secret active|active|user_id caps|answer]; cbn [SignOps.request_step] in H.
  4,5: injection H as <- <-; by eapply request_ok_step.
  all: destruct (db_ok e); cbn [negb] in H; [|by injection H as <- <-].
  - unfold check_read in H. destruct (session _ _ _) as [active|] eqn:E; [|by injection H as <- <-].
    destruct (negb (digest_eqb _ _)); [by injection H as <- <-|].
    destruct (csrf_accepted _ _ _ _ _) eqn:Ec; cbn [negb] in H; [|by injection H as <- <-]. injection H as <- <-.
    assert (session_checked r active w') as Hc by (eapply since_now; [|done]; split; [done|]; by exists secret).
    destruct (background_request _); [by apply after_check_ok|done].
  - destruct (check_touch _ _ _ _) as [[] t1]; injection H as <- <-; [|done]. apply after_check_ok. by eapply since_step.
  - injection H as <- <-. eapply since_now; [|done]. by exists active.
Qed.

Lemma request_start_ok r w : request_ok r (request_start cr r) w.
Proof. unfold request_start. destruct (presented_credentials _ _) as [|[]] eqn:E; done. Qed.

Lemma requests_ok w i r st :
  requests w0 = [] -> rtc step w0 w -> requests w !! i = Some (r, st) -> request_ok r st w.
Proof.
  intros H0 Hr. revert i r st. revert w Hr.
  refine (rtc_ind_r (fun w => forall i r st, requests w !! i = Some (r, st) -> request_ok r st w) w0 _ _);
    [intros i r st; by rewrite H0|].
  intros w w' Hr Hs IH. assert (forall i r st, requests w !! i = Some (r, st) -> request_ok r st w') as Hold.
  { intros i r st H%IH. by eapply request_ok_step. }
  pose proof Hs as Hs'. destruct Hs; try exact Hold; cbn [requests].
  - intros j b st [Hin|(_ & E)]%lookup_app_Some; [by eapply Hold|].
    apply list_lookup_singleton_Some in E as [_ [= <- <-]]. apply request_start_ok.
  - intros j b st1 [(-> & E & _)|[_ Hin]]%list_lookup_insert_Some; [|by eapply Hold]. injection E as <- <-.
    eapply request_step_ok; [done| |done|done]. by eapply IH.
Qed.
End history.

(** ** The properties *)

(** C2: a session that answers belongs to an enabled account, is at most 8 hours old and was used in
    the last 30 minutes; it was made by a sign-in whose pre-login value was consumed, whose account
    and source were then found not locked, and whose password was right for the credential read
    after that; and between that reading and now no row of the audit log closed the account: nobody
    disabled it, reset its password or ended all its sessions, in any interleaving of handlers. *)
Theorem session_provenance w0 w digest now se :
  quiet_start w0 -> rtc step w0 w -> session digest now (tables w) = Some se ->
  u_enabled (se_user se) = true
  /\ now < s_created_at (se_row se) + hours 8 /\ now < s_last_seen_at (se_row se) + minutes 30
  /\ exists r a c w1 log, login_start r = inr a /\ session_digest cr (at_secret a) = digest
     /\ s_created_at (se_row se) = at_now a /\ found_unlocked w0 a w1 /\ rtc step w1 w
     /\ (exists name, at_username a = Some name /\ credential_by_username name (tables w1) = Some c)
     /\ c_user_id c = u_id (se_user se) /\ password_right a c
     /\ audit_log (access (tables w)) = audit_log (access (tables w1)) ++ log
     /\ closed (u_id (se_user se)) log = false.
Proof.
  intros H0 Hr Hs. destruct (inv_reached w0 w H0 Hr) as [_ _ Hsess Hids _].
  apply session_live in Hs as (Hin & Ed & _ & Hidle & Habs & Hu & Eu & Hen & Eg).
  destruct (Hsess _ Hin) as [[Ha Hi] (r & a & c & Hst & (w1 & [Hf Hc] & Hr1) & Hp & E1 & E2 & E3 & E4)].
  split; [done|]. split; [lia|]. split; [lia|]. destruct (steps_kept w1 w Hr1) as (log & fresh & [Hlog _ Hk _]).
  exists r, a, c, w1, log. split_and!; try done; try congruence.
  destruct Hc as (name & _ & (u1 & Hu1 & Ei1 & Eg1 & _)%credential_user).
  destruct (Hk u1 Hu1) as (u' & Hu' & Ei' & Hle).
  assert (u' = se_user se) as -> by (eapply (NoDup_map_inj u_id); [exact Hids|done|done|congruence]).
  rewrite <- Ei' in Hle. destruct (closed _ log); [simpl in Hle; lia|done].
Qed.

(** C10: signing out is final: once the session of the cookie is signed out it never answers again,
    at any time, whatever runs afterwards. *)
Theorem logout_final w0 w w' e h secret now se now1 t' now2 :
  quiet_start w0 -> rtc step w0 w -> named_cookie cr h SESSION_COOKIE = inr (Some secret) ->
  session (session_digest cr secret) now (tables w) = Some se ->
  logout e h now1 (tables w) = (NoContent, t') -> rtc step (at_tables t' w) w' ->
  session (session_digest cr secret) now2 (tables w') = None.
Proof.
  intros H0 Hr Hc Hs Hl Hr'. apply session_live in Hs as (Hin & Ed & Hn & _).
  destruct (revoked_row (session_digest cr secret) now1 (tables w) (se_row se)) as (s' & Hs' & <- & Hrev); [done..|].
  assert (t' = (logout e h now1 (tables w)).2) as -> by (by rewrite Hl).
  assert (inv w0 w') as Hi.
  { apply inv_reached; [done|]. etrans; [|exact Hr']. eapply rtc_r; [exact Hr|]. constructor. }
  eapply ended_stays; [apply Hi|exact Hr'| |exact Hrev]. revert Hl Hs'. unfold SignOps.logout. rewrite Hc.
  repeat case_match; done.
Qed.

(** C11: a request is let through to its handler only with a session cookie whose session answered,
    with the checks against forgery passed when the request needs them, and not while the person
    has to set a password first; and it gets the capabilities stored when they were read, after
    that. *)
Theorem request_through w0 w i r user_id caps :
  requests w0 = [] -> rtc step w0 w -> requests w !! i = Some (r, RThrough user_id caps) ->
  exists w1 w2 secret active, rtc step w0 w1 /\ rtc step w1 w2 /\ rtc step w2 w
    /\ presented_credentials cr (sr_headers r) = inr (SignData.Session secret)
    /\ session (session_digest cr secret) (sr_now r) (tables w1) = Some active
    /\ csrf_accepted cr public_origin_valid request_origin r secret = true
    /\ u_must_change (se_user active) = false /\ u_id (se_user active) = user_id
    /\ caps = resolve_capabilities (grants (access (tables w2)) (User user_id)).
Proof.
  intros H0 Hr Hin. destruct (requests_ok w0 w i r _ H0 Hr Hin) as
    (w2 & (active & [(w1 & (Hr1 & secret & Hp & Hs & Hc) & Hr2) Hm] & Hu & Hcaps) & Hr3).
  by exists w1, w2, secret, active.
Qed.
End world.

(** ** A concrete history *)

(** A digest is the text itself; a token of 43 characters is 32 and a fixed tail. *)
Definition ex_crypto : Crypto :=
  {| sha256 := fun l => l; base64_encode := fun l => of_bytes l +:+ "-----------"; base64_decode := fun s => Some (take 32 (bytes s));
     nfc := fun s => s; phc_parse := fun s => Some {| phc_algorithm := "argon2id"; phc_version := Some 19; phc_costs := Some (19456, 2, 1) |};
     argon2_verify := fun l s => bool_decide (l = bytes s) |}.
Definition ex_origin : string := "https://console.example".
Definition ex_secret (c : string) : string := Text.join "" (repeat c 32) +:+ "-----------".
Definition ex_headers (csrf_of : string) (cookies : string) : Headers :=
  [("origin", bytes ex_origin); ("cookie", bytes cookies); ("x-csrf-token", bytes (session_csrf ex_crypto csrf_of).1)].

Definition ex_alice : UserRow :=
  {| u_id := "00000000-0000-4000-8000-000000000001"; u_username := "alice"; u_display_name := "Alice"; u_email := None;
     u_enabled := true; u_auth_source := "password"; u_password := Some "an honest password"; u_must_change := false;
     u_generation := 0 |}.
Definition ex_tables : SignTables :=
  {| access := {| users := [ex_alice]; accounts := []; roles := []; bindings := []; dashboards := []; sessions := [];
                  audit_log := []; console_permissions := []; asset_groups := []; draws := 0 |};
     preauths := []; throttle := []; last_sign_in := [] |}.
Definition ex_start : World := {| tables := ex_tables; logins := []; requests := []; changes := [] |}.

Definition ex_step : World -> World -> Prop :=
  step ex_crypto Some (Some "dummy") true (fun _ => ex_origin) to_ascii_lowercase is_whitespace (fun _ => "id").
Definition ex_fine : Env := {| db_ok := true; slot_free := true |}.

(** [n] steps of the login [i], and of the request [i]. *)
Fixpoint run_login (n i : nat) (w : World) : World :=
  match n, logins w !! i with
  | S n, Some (a, st) =>
      let '(st', t') := login_step ex_crypto Some ex_fine a st (tables w) in
      run_login n i {| tables := t'; logins := <[i := (a, st')]> (logins w); requests := requests w; changes := changes w |}
  | _, _ => w
  end.
Fixpoint run_request (n i : nat) (w : World) : World :=
  match n, requests w !! i with
  | S n, Some (r, st) =>
      let '(st', t') := request_step ex_crypto true (fun _ => ex_origin) ex_fine r st (tables w) in
      run_request n i {| tables := t'; logins := logins w; requests := <[i := (r, st')]> (requests w); changes := changes w |}
  | _, _ => w
  end.

Lemma run_login_steps n i w : rtc ex_step w (run_login n i w).
Proof.
  revert w. induction n as [|n IH]; intros w; simpl; [done|]. destruct (logins w !! i) as [[a st]|] eqn:E; [|done].
  destruct (login_step _ _ _ _ _ _) as [st' t'] eqn:Es. eapply rtc_l; [|apply IH]. by eapply StepLogin.
Qed.
Lemma run_request_steps n i w : rtc ex_step w (run_request n i w).
Proof.
  revert w. induction n as [|n IH]; intros w; simpl; [done|]. destruct (requests w !! i) as [[r st]|] eqn:E; [|done].
  destruct (request_step _ _ _ _ _ _ _) as [st' t'] eqn:Es. eapply rtc_l; [|apply IH]. by eapply StepRequest.
Qed.

Definition ex_login_request (password secret : string) : LoginRequest :=
  {| lr_headers := ex_headers (ex_secret "p")
       ("__Host-openvibes-preauth=" +:+ ex_secret "p" +:+ "; __Host-openvibes-browser=" +:+ ex_secret "b");
     lr_body := Some ("Alice", password); lr_source := None; lr_now := minutes 1; lr_secret := ex_secret secret |}.
Definition ex_with_preauth : SignTables :=
  default ex_tables (preauth ex_crypto (ex_secret "p") (ex_secret "b") 0 ex_tables).
Definition ex_login (password : string) : Attempt :=
  attempt_of ex_crypto (ex_login_request password "s") None (ex_secret "p") (ex_secret "b") "Alice" password "dummy".
Definition ex_waiting (password : string) : World :=
  {| tables := ex_with_preauth; logins := [(ex_login password, LConsume)]; requests := []; changes := [] |}.
(** Alice has signed in. *)
Definition ex_in : World := run_login 6 0 (ex_waiting "an honest password").

Example login_vector :
  map snd (logins ex_in) = [LEnd (LoggedIn (ex_secret "s"))]
  /\ map snd (logins (run_login 6 0 (ex_waiting "another password"))) = [LEnd login_rejected]
  /\ length (sessions (access (tables ex_in))) = 1%nat
  /\ length (throttle (tables (run_login 6 0 (ex_waiting "another password")))) = 1%nat.
Proof. vm_compute. auto. Qed.

Lemma ex_in_steps : rtc ex_step ex_start ex_in.
Proof.
  etrans; [|apply run_login_steps]. apply (rtc_l _ _ (at_tables ex_with_preauth ex_start)).
  { eapply (StepPreauth _ _ _ _ _ _ _ _ ex_start (ex_secret "p") (ex_secret "b") 0). by vm_compute. }
  apply rtc_once. refine (StepLoginStart ex_crypto Some (Some "dummy") true (fun _ => ex_origin) to_ascii_lowercase
    is_whitespace (fun _ => "id") (at_tables ex_with_preauth ex_start)
    (ex_login_request "an honest password" "s") (ex_login "an honest password") _). by vm_compute.
Qed.
Lemma ex_quiet : quiet_start ex_start.
Proof. split; [done|]. split; [done|]. vm_compute. repeat constructor. set_solver. Qed.

Definition ex_session (now : Z) : option Session := session (session_digest ex_crypto (ex_secret "s")) now (tables ex_in).
Definition ex_answering : Session :=
  default {| se_user := ex_alice; se_row := new_session (login_session ex_crypto (ex_login "") {| c_user_id := ""; c_password_phc := ""; c_enabled := true; c_auth_generation := 0 |}) |}
    (ex_session (minutes 2)).

Lemma session_provenance_witness :
  ex_session (minutes 2) = Some ex_answering
  /\ u_enabled (se_user ex_answering) = true /\ minutes 2 < s_created_at (se_row ex_answering) + hours 8.
Proof.
  assert (ex_session (minutes 2) = Some ex_answering) as E by (by vm_compute).
  split; [exact E|].
  destruct (session_provenance ex_crypto Some (Some "dummy") true (fun _ => ex_origin) to_ascii_lowercase is_whitespace
              (fun _ => "id") ex_start ex_in _ _ _ ex_quiet ex_in_steps E) as (H1 & H2 & _).
  by split.
Defined.

(** Signing out, then anything. *)
Definition ex_out_headers : Headers := ex_headers (ex_secret "s") ("__Host-openvibes-session=" +:+ ex_secret "s").
Definition ex_out : SignTables :=
  (logout ex_crypto true (fun _ => ex_origin) ex_fine ex_out_headers (minutes 3) (tables ex_in)).2.
Lemma logout_final_witness :
  ex_session (minutes 2) = Some ex_answering
  /\ session (session_digest ex_crypto (ex_secret "s")) (minutes 2) ex_out = None.
Proof.
  assert (ex_session (minutes 2) = Some ex_answering) as E by (by vm_compute). split; [exact E|].
  apply (logout_final ex_crypto Some (Some "dummy") true (fun _ => ex_origin) to_ascii_lowercase is_whitespace
    (fun _ => "id") ex_start ex_in (at_tables ex_out ex_in) ex_fine ex_out_headers (ex_secret "s") (minutes 2)
    ex_answering (minutes 3) ex_out (minutes 2)).
  - exact ex_quiet.
  - exact ex_in_steps.
  - by vm_compute.
  - exact E.
  - by vm_compute.
  - apply rtc_refl.
Defined.

(** A request of Alice's. *)
Definition ex_request : SessionRequest := {| sr_headers := ex_out_headers; sr_csrf_required := true; sr_now := minutes 3 |}.
Definition ex_asking : World :=
  {| tables := tables ex_in; logins := logins ex_in; requests := [(ex_request, request_start ex_crypto ex_request)];
     changes := [] |}.
Definition ex_through : World := run_request 3 0 ex_asking.
Lemma ex_through_steps : rtc ex_step ex_start ex_through.
Proof.
  etrans; [|apply run_request_steps]. eapply rtc_r; [exact ex_in_steps|].
  exact (StepRequestStart ex_crypto Some (Some "dummy") true (fun _ => ex_origin) to_ascii_lowercase is_whitespace
    (fun _ => "id") ex_in ex_request).
Qed.
Lemma request_through_witness :
  requests ex_through !! 0%nat = Some (ex_request, RThrough (u_id ex_alice) [])
  /\ exists active, u_must_change (se_user active) = false /\ u_id (se_user active) = u_id ex_alice.
Proof.
  assert (requests ex_through !! 0%nat = Some (ex_request, RThrough (u_id ex_alice) [])) as E by (by vm_compute).
  split; [exact E|].
  destruct (request_through ex_crypto Some (Some "dummy") true (fun _ => ex_origin) to_ascii_lowercase is_whitespace
    (fun _ => "id") ex_start ex_through 0 ex_request (u_id ex_alice) [] eq_refl ex_through_steps E)
    as (w1 & w2 & secret & active & _ & _ & _ & _ & _ & _ & Hm & Hu & _).
  exact (ex_intro _ active (conj Hm Hu)).
Defined.

(** ** A password changed while a sign-in is under way

    [change_own_password] signs the other sessions out but keeps the account's generation, which is
    what [create_session] and [rehash_password] compare: a sign-in that verified the old password
    before the change still gets its session after it, and a rehash of the old password still
    replaces the new one. *)

Definition ex_second : Attempt :=
  attempt_of ex_crypto (ex_login_request "an honest password" "t") None (ex_secret "q") (ex_secret "b") "Alice"
    "an honest password" "dummy".
Definition ex_second_waiting : World :=
  {| tables := default (tables ex_in) (preauth ex_crypto (ex_secret "q") (ex_secret "b") 0 (tables ex_in));
     logins := [(ex_second, LConsume)]; requests := []; changes := [] |}.
Definition ex_changed : PasswordChange * SignTables :=
  change_own_password (u_id ex_alice) (session_digest ex_crypto (ex_secret "s")) "an honest password" "a new password"
    (minutes 2) (tables (run_login 4 0 ex_second_waiting)).
Definition ex_raced : World := run_login 2 0 (at_tables ex_changed.2 (run_login 4 0 ex_second_waiting)).

Example old_password_signs_in_after_change :
  ex_changed.1 = Changed
  /\ map u_password (users (access (tables ex_raced))) = [Some "a new password"]
  /\ map snd (logins ex_raced) = [LEnd (LoggedIn (ex_secret "t"))]
  /\ is_some (session (session_digest ex_crypto (ex_secret "t")) (minutes 3) (tables ex_raced)) = true.
Proof. vm_compute. auto. Qed.

Example rehash_replaces_changed_password :
  let '(done, t) := rehash_password (u_id ex_alice) 0 "an honest password, hashed again" ex_changed.2 in
  done = true /\ map u_password (users (access t)) = [Some "an honest password, hashed again"].
Proof. vm_compute. auto. Qed.
