(* ===== verification/SignLimit.v ===== *)
(** * Signing in: how many passwords can be tried

    A campaign is a sequence of sign-in attempts on one account, one after the other, with wrong
    passwords.  The throttle keeps the number of passwords compared in any 15 minutes below twice
    the limit. *)
From S2P Require Import Prelude RustStd Text BTree Json AccessData AccessRules AccessDb AccessOps SignData SignDb SignOps.
From stdpp Require Import prelude strings list.
From Stdlib Require Import Ascii ZArith Lia Sorted.

Open Scope Z_scope.

(** ** Buckets *)

Definition is_bucket (b : list Z) (r : ThrottleRow) : bool := digest_eqb (t_bucket r) b.

Lemma bucket_row_bucket b t r : bucket_row b t = Some r -> In r (throttle t) /\ t_bucket r = b.
Proof. intros [H E]%find_some. split; [done|]. by apply bool_decide_eq_true in E. Qed.

Lemma next_failure_bucket now window n lock_for r : t_bucket (next_failure now window n lock_for r) = t_bucket r.
Proof. done. Qed.

Lemma find_map_key (l : list ThrottleRow) b f :
  (forall r, t_bucket (f r) = t_bucket r) ->
  find (fun r => digest_eqb (t_bucket r) b) (map f l) = f <$> find (fun r => digest_eqb (t_bucket r) b) l.
Proof.
  intros Hf. induction l as [|r l IH]; [done|]. cbn [map find]. rewrite Hf.
  destruct (digest_eqb (t_bucket r) b); [done|exact IH].
Qed.

Lemma count_failure_row b x now window n lock_for t :
  bucket_row b (count_failure x now window n lock_for t)
  = if decide (x = b) then Some (match bucket_row b t with
                                 | Some r => next_failure now window n lock_for r
                                 | None => first_failure b now n lock_for end)
    else bucket_row b t.
Proof.
  unfold count_failure. destruct (bucket_row x t) as [rx|] eqn:Ex; cbn [is_some].
  - unfold bucket_row at 1. cbn [throttle set_throttle]. rewrite find_map_key by (intros r; by destruct (digest_eqb _ _)).
    fold (bucket_row b t). destruct (decide (x = b)) as [<-|Hne].
    + rewrite Ex. cbn. apply bucket_row_bucket in Ex as [_ E]. unfold digest_eqb. by rewrite (proj2 (bool_decide_eq_true _) E).
    + destruct (bucket_row b t) as [r|] eqn:Eb; [|done]. apply bucket_row_bucket in Eb as [_ E]. cbn.
      unfold digest_eqb. by rewrite (proj2 (bool_decide_eq_false _)) by congruence.
  - unfold bucket_row in *. cbn [throttle set_throttle]. destruct (decide (x = b)) as [<-|Hne].
    + rewrite Ex. induction (throttle t) as [|r l IH]; cbn [app find] in *.
      * unfold digest_eqb. by rewrite (proj2 (bool_decide_eq_true _)).
      * destruct (digest_eqb _ _); [done|by apply IH].
    + clear Ex. induction (throttle t) as [|r l IH]; cbn [app find].
      * unfold digest_eqb. by rewrite (proj2 (bool_decide_eq_false _)) by (cbn; congruence).
      * by destruct (digest_eqb _ _).
Qed.

Lemma count_failure_keys x now window n lock_for t :
  NoDup (map t_bucket (throttle t)) -> NoDup (map t_bucket (throttle (count_failure x now window n lock_for t))).
Proof.
  intros Hnd. unfold count_failure. destruct (bucket_row x t) as [rx|] eqn:Ex; cbn [throttle set_throttle is_some].
  - rewrite map_map, (map_ext _ t_bucket); [done|]. intros r. by destruct (digest_eqb _ _).
  - rewrite map_app. apply NoDup_snoc; [done|]. rewrite list_elem_of_In. intros (r & E & Hr)%in_map_iff.
    pose proof (find_none _ _ Ex r Hr) as Hx. cbn in Hx, E. unfold digest_eqb in Hx.
    by rewrite (proj2 (bool_decide_eq_true _)) in Hx.
Qed.

Lemma count_failures_keys now window lock_for l t :
  NoDup (map t_bucket (throttle t)) -> NoDup (map t_bucket (throttle (count_failures now window lock_for l t))).
Proof.
  revert t. induction l as [|[x n] l IH]; intros t H; [done|]. cbn [count_failures]. by apply IH, count_failure_keys.
Qed.
Lemma count_failures_other b now window lock_for l t :
  ~ In b (map fst l) -> bucket_row b (count_failures now window lock_for l t) = bucket_row b t.
Proof.
  revert t. induction l as [|[x n] l IH]; intros t H; [done|]. cbn [count_failures]. simpl in H.
  rewrite IH by tauto. rewrite count_failure_row. destruct (decide (x = b)); [tauto|done].
Qed.

Lemma throttled_locked b buckets now t r :
  In b buckets -> bucket_row b t = Some r -> locked now r = true -> login_is_throttled buckets now t = true.
Proof.
  intros Hb Hr Hl. apply bucket_row_bucket in Hr as [Hin E]. apply existsb_exists. exists r. split; [done|].
  rewrite Hl, andb_true_r. apply existsb_exists. exists b. split; [done|]. by apply bool_decide_eq_true.
Qed.

(** ** The guesses left

    [left_over t0 row]: a bound on the passwords compared against the bucket before
    [t0 + 15 minutes], when its row is [row]. *)
Definition left_over (t0 : Z) (row : option ThrottleRow) : Z :=
  match row with
  | None => 5
  | Some r =>
      let locked_out := match t_locked_until r with Some u => t0 + minutes 15 <=? u | None => false end in
      if t_window_started_at r <? t0
      then if t_failures r <? 5 then 9 - t_failures r else if locked_out then 4 else 5
      else if t_failures r <? 5 then 5 - t_failures r else 0
  end.

Definition after_failure (b : list Z) (now : Z) (row : option ThrottleRow) : ThrottleRow :=
  match row with
  | Some r => next_failure now (minutes 15) ACCOUNT_FAILURE_LIMIT (minutes 15) r
  | None => first_failure b now ACCOUNT_FAILURE_LIMIT (minutes 15)
  end.

(** Five failures lock the bucket for as long as their window lasts. *)
Definition row_wf (now : Z) (row : option ThrottleRow) : Prop :=
  forall r, row = Some r -> 0 <= t_failures r /\ t_window_started_at r <= now
    /\ (ACCOUNT_FAILURE_LIMIT <= t_failures r -> exists u, t_locked_until r = Some u
        /\ t_window_started_at r + minutes 15 <= u).

Lemma row_wf_later now now' row : row_wf now row -> now <= now' -> row_wf now' row.
Proof. intros H Hle r E. destruct (H r E) as (H1 & H2 & H3). split; [done|]. split; [lia|done]. Qed.

Lemma after_failure_wf b now row : row_wf now row -> row_wf now (Some (after_failure b now row)).
Proof.
  intros H r [= <-]. unfold after_failure. destruct row as [r|].
  - destruct (H r eq_refl) as (H1 & H2 & H3). unfold next_failure, ACCOUNT_FAILURE_LIMIT, minutes in *.
    cbn [t_failures t_window_started_at t_locked_until].
    destruct (Z.leb_spec (t_window_started_at r) (now - 15 * 60 * 1000000)); [split_and!; lia|].
    split; [lia|]. split; [lia|]. intros Hf. destruct (Z.leb_spec 5 (t_failures r + 1)); [|lia].
    eexists. split; [done|]. lia.
  - unfold first_failure, ACCOUNT_FAILURE_LIMIT. cbn. split_and!; lia.
Qed.

(** One failure more: it uses up a guess, unless the bucket is locked. *)
Lemma left_over_step b t0 now row :
  row_wf now row -> t0 <= now < t0 + minutes 15 ->
  left_over t0 (Some (after_failure b now row))
  + Z.b2z (match row with Some r => negb (locked now r) | None => true end) <= left_over t0 row.
Proof.
  intros H Ht. unfold after_failure. destruct row as [r|].
  - destruct (H r eq_refl) as (H1 & H2 & H3). clear H. unfold next_failure, left_over, locked.
    unfold ACCOUNT_FAILURE_LIMIT, minutes in *. cbn [t_failures t_window_started_at t_locked_until].
    destruct (Z.ltb_spec (t_failures r) 5); [|destruct (H3 ltac:(lia)) as (u & -> & Hu)];
      [destruct (t_locked_until r)|]; zcases; cbn -[Z.add Z.sub Z.mul Z.max]; zcases; cbn -[Z.add Z.sub Z.mul Z.max]; lia.
  - unfold first_failure, left_over, ACCOUNT_FAILURE_LIMIT. cbn. destruct (Z.ltb_spec now t0); lia.
Qed.

(** ** Campaigns *)

Section campaign.
Context (cr : Crypto) (hash_password : string -> option string).

Definition fine : Env := {| db_ok := true; slot_free := true |}.

(** [n] steps of a sign-in with nothing else running: the stages passed and the tables left. *)
Fixpoint run_alone (n : nat) (a : Attempt) (st : LoginStage) (t : SignTables) : list LoginStage * SignTables :=
  match n with
  | O => ([st], t)
  | S n =>
      let '(st', t') := login_step cr hash_password fine a st t in
      let '(l, t'') := run_alone n a st' t' in
      (st :: l, t'')
  end.

(** A password was compared with the credential of the account. *)
Definition compares (st : LoginStage) : bool := match st with LVerify false _ => true | _ => false end.

Fixpoint guesses (l : list Attempt) (t : SignTables) : Z :=
  match l with
  | [] => 0
  | a :: l => let '(stages, t') := run_alone 5 a LConsume t in Z.b2z (existsb compares stages) + guesses l t'
  end.

(** A wrong password, whatever is stored. *)
Definition wrong (a : Attempt) : Prop :=
  forall credential, exists v, verification cr a credential = Some v /\ valid v = false.

(** An attempt on the bucket of an account, as [attempt_of] makes it. *)
Definition attempts_on (b : list Z) (a : Attempt) : Prop :=
  exists rest, at_buckets a = b :: rest /\ ~ In b rest
    /\ at_limits a = ACCOUNT_FAILURE_LIMIT :: map (fun _ => SOURCE_FAILURE_LIMIT) rest.

Lemma wrong_records a throttled credential :
  wrong a -> verify_stage cr hash_password a throttled credential = LRecord.
Proof.
  intros H. destruct (H credential) as (v & Hv & E). unfold verify_stage. rewrite Hv, E.
  destruct (verification_input _ _). cbn [andb]. destruct credential; [|done]. by rewrite andb_false_r.
Qed.

Lemma consume_throttle token csrf browser now t : throttle (consume_preauth token csrf browser now t).2 = throttle t.
Proof. done. Qed.

Lemma limits_accepted b a :
  attempts_on b a ->
  negb (length (at_buckets a) =? length (at_limits a))%nat || existsb (fun l => l <? 1) (at_limits a) = false.
Proof.
  intros (rest & -> & _ & ->). cbn [length]. rewrite length_map, Nat.eqb_refl. simpl. by induction rest.
Qed.

(** An attempt that ends at the pre-login value, or one that counts a failure. *)
Lemma run_alone_wrong b a t :
  wrong a -> attempts_on b a ->
  let '(stages, t') := run_alone 5 a LConsume t in
  (existsb compares stages = false /\ throttle t' = throttle t)
  \/ (existsb compares stages = negb (login_is_throttled (at_buckets a) (at_now a) t)
      /\ throttle t' = throttle (count_failures (at_now a) (minutes 15) (minutes 15) (zip (at_buckets a) (at_limits a)) t)).
Proof.
  intros Hw Hb. cbn [run_alone login_step fine db_ok negb].
  destruct (consume_preauth _ _ _ _ _) as [found t1] eqn:E. assert (throttle t1 = throttle t) as Et by (by injection E as _ <-).
  destruct found; [|left; by cbn]. cbn [run_alone login_step fine db_ok negb].
  assert (login_is_throttled (at_buckets a) (at_now a) t1 = login_is_throttled (at_buckets a) (at_now a) t) as ->
    by (unfold login_is_throttled; by rewrite Et).
  set (th := login_is_throttled _ _ t). assert (exists credential,
    (match (if th then None else at_username a) with
     | None => (LVerify th None, t1)
     | Some name => (LVerify th (credential_by_username name t1), t1) end) = (LVerify th credential, t1)) as [credential ->].
  { destruct (if th then None else at_username a); eauto. }
  cbn [run_alone login_step fine slot_free db_ok negb]. rewrite wrong_records by done.
  cbn [login_step fine db_ok negb]. unfold record_login_failure. rewrite (limits_accepted b a Hb).
  right. cbn [existsb compares orb throttle on_access]. split; [by destruct th|].
  revert Et. clear. revert t t1. induction (zip (at_buckets a) (at_limits a)) as [|[x n] l IH]; intros t t1 Et; [done|].
  cbn [count_failures]. apply IH. unfold count_failure, bucket_row. cbn [throttle set_throttle]. by rewrite Et.
Qed.

Lemma zip_fst_not_in {A B} (x : A) l (l' : list B) : ~ In x l -> ~ In x (map fst (zip l l')).
Proof.
  intros Hx (p & <- & Hp)%in_map_iff. apply Hx. destruct p as [y z]. by apply list_elem_of_In, elem_of_zip_l, list_elem_of_In in Hp.
Qed.

(** The row of the account after a failure counted. *)
Lemma counted_row b a t :
  attempts_on b a ->
  bucket_row b (count_failures (at_now a) (minutes 15) (minutes 15) (zip (at_buckets a) (at_limits a)) t)
  = Some (after_failure b (at_now a) (bucket_row b t)).
Proof.
  intros (rest & -> & Hn & ->). cbn [zip zip_with count_failures].
  rewrite count_failures_other by (by apply zip_fst_not_in). rewrite count_failure_row. destruct (decide (b = b)); [|done].
  unfold after_failure. by destruct (bucket_row b t).
Qed.

(** ** The bound *)

Lemma left_over_nonneg t0 now row : row_wf now row -> 0 <= left_over t0 row <= 9.
Proof.
  intros H. unfold left_over. destruct row as [r|]; [|lia]. destruct (H r eq_refl) as [H1 _].
  zcases; destruct (t_locked_until r); zcases; lia.
Qed.

Lemma guesses_left b t0 l t now :
  row_wf now (bucket_row b t) -> Forall (fun a => now <= at_now a) l ->
  StronglySorted (fun a a' => at_now a <= at_now a') l ->
  Forall (fun a => wrong a /\ attempts_on b a /\ t0 <= at_now a < t0 + minutes 15) l ->
  guesses l t <= left_over t0 (bucket_row b t).
Proof.
  intros Hwf Hnow Hs Hl. revert t now Hwf Hnow. induction Hl as [|a l (Hw & Hb & Ht) _ IH]; intros t now Hwf Hnow;
    cbn [guesses]; [by eapply left_over_nonneg|].
  apply StronglySorted_inv in Hs as [Hs Hle]. apply Forall_inv in Hnow.
  apply (row_wf_later _ (at_now a)) in Hwf; [|done].
  pose proof (run_alone_wrong b a t Hw Hb) as Hrun. destruct (run_alone 5 a LConsume t) as [stages t'].
  destruct Hrun as [[-> Et]|[-> Et]].
  - assert (bucket_row b t' = bucket_row b t) as E by (unfold bucket_row; by rewrite Et).
    rewrite <- E. specialize (IH Hs t' (at_now a)). rewrite E in IH at 1. specialize (IH Hwf Hle). simpl. lia.
  - assert (bucket_row b t' = Some (after_failure b (at_now a) (bucket_row b t))) as E.
    { rewrite <- (counted_row b a t Hb). unfold bucket_row. by rewrite Et. }
    specialize (IH Hs t' (at_now a)). rewrite E in IH. specialize (IH (after_failure_wf b (at_now a) _ Hwf) Hle).
    pose proof (left_over_step b t0 (at_now a) _ Hwf Ht) as Hstep.
    assert (Z.b2z (negb (login_is_throttled (at_buckets a) (at_now a) t))
            <= Z.b2z (match bucket_row b t with Some r => negb (locked (at_now a) r) | None => true end)).
    { destruct (bucket_row b t) as [r|] eqn:Er; [|by destruct (login_is_throttled _ _ _)].
      destruct (locked (at_now a) r) eqn:El; [|by destruct (login_is_throttled _ _ _)].
      destruct Hb as (rest & Hb & _). rewrite (throttled_locked b _ _ _ r); [done|rewrite Hb; by left|done|done]. }
    lia.
Qed.

(** C8: whatever attempts with wrong passwords are made on one account, one after the other within
    15 minutes, at most nine passwords are compared with its credential: the limit of five
    failures, and four more when the window ends in between. *)
Theorem guesses_bounded b t0 l t :
  row_wf t0 (bucket_row b t) -> StronglySorted (fun a a' => at_now a <= at_now a') l ->
  Forall (fun a => wrong a /\ attempts_on b a /\ t0 <= at_now a < t0 + minutes 15) l ->
  guesses l t <= 2 * ACCOUNT_FAILURE_LIMIT - 1.
Proof.
  intros Hwf Hs Hl. assert (Forall (fun a => t0 <= at_now a) l) as Ht.
  { eapply Forall_impl; [exact Hl|]. intros a (_ & _ & Ha). lia. }
  pose proof (guesses_left b t0 l t t0 Hwf Ht Hs Hl). pose proof (left_over_nonneg t0 t0 _ Hwf).
  unfold ACCOUNT_FAILURE_LIMIT. lia.
Qed.
End campaign.

(** ** Concrete campaigns *)

Definition deaf_crypto : Crypto :=
  {| sha256 := fun l => l; base64_encode := of_bytes; base64_decode := fun s => Some (bytes s); nfc := fun s => s;
     phc_parse := fun s => Some {| phc_algorithm := "argon2id"; phc_version := Some 19; phc_costs := Some (19456, 2, 1) |};
     argon2_verify := fun _ _ => false |}.
Definition ex_bucket : list Z := account_throttle_bucket deaf_crypto "alice".
(** The attempt with the pre-login value [i], at [now]. *)
Definition ex_attempt (i now : Z) : Attempt :=
  {| at_previous := None; at_token := [i]; at_csrf := []; at_browser := []; at_username := Some "alice"; at_password := "guess";
     at_buckets := [ex_bucket]; at_limits := [ACCOUNT_FAILURE_LIMIT]; at_now := now; at_secret := ""; at_dummy := "dummy" |}.
Definition ex_preauth (i : Z) : PreauthRow :=
  {| p_token := [i]; p_csrf := []; p_browser := []; p_created_at := 0; p_expires_at := hours 1; p_consumed_at := None |}.
Definition ex_limit_tables (row : list ThrottleRow) : SignTables :=
  {| access := {| users := []; accounts := []; roles := []; bindings := []; dashboards := []; sessions := []; audit_log := [];
                  console_permissions := []; asset_groups := []; draws := 0 |};
     preauths := map ex_preauth (map Z.of_nat (seq 0 40)); throttle := row; last_sign_in := [] |}.
(** A bucket cleared by a sign-in at the epoch. *)
Definition ex_cleared : ThrottleRow :=
  {| t_bucket := ex_bucket; t_window_started_at := 0; t_failures := 0; t_locked_until := None; t_updated_at := 0 |}.
Definition ex_campaign : list Attempt :=
  map (fun p => ex_attempt p.1 (minutes p.2))
    [(0, 1); (1, 2); (2, 3); (3, 4); (4, 15); (5, 15); (6, 15); (7, 15); (8, 15); (9, 15); (10, 15)].

(** The bound is reached; a source that never stops gets five per window. *)
Example nine_guesses :
  guesses deaf_crypto Some ex_campaign (ex_limit_tables [ex_cleared]) = 9
  /\ guesses deaf_crypto Some (map (fun i => ex_attempt i (minutes i)) (map Z.of_nat (seq 0 15))) (ex_limit_tables []) = 5.
Proof. vm_compute. auto. Qed.

(** A lock ends early: five failures at minute 14 lock the bucket up to minute 29, and a failure
    counted at minute 16, while it is locked, starts a new window and clears the lock. *)
Example lock_ends_early :
  let run l := count_failures 0 0 0 [] (fold_left (fun t p =>
    count_failure ex_bucket (minutes p) (minutes 15) ACCOUNT_FAILURE_LIMIT (minutes 15) t) l (ex_limit_tables [])) in
  login_is_throttled [ex_bucket] (minutes 16) (run [0; 1; 2; 3; 14]) = true
  /\ login_is_throttled [ex_bucket] (minutes 16) (run [0; 1; 2; 3; 14; 16]) = false.
Proof. vm_compute. auto. Qed.

Lemma deaf_wrong i now : wrong deaf_crypto (ex_attempt i now).
Proof.
  intros credential. unfold verification. cbn [at_password at_dummy ex_attempt].
  destruct (verify_password deaf_crypto _ (match credential with Some c => if c_enabled c then c_password_phc c else "dummy"
                                           | None => "dummy" end)) as [v|] eqn:E.
  - exists v. split; [done|]. unfold verify_password in E. destruct (_ <? _); [done|].
    by injection E as <-.
  - by eexists.
Qed.

Lemma ex_attempt_fits i n :
  1 <= n < 16 -> wrong deaf_crypto (ex_attempt i (minutes n)) /\ attempts_on ex_bucket (ex_attempt i (minutes n))
    /\ minutes 1 <= at_now (ex_attempt i (minutes n)) < minutes 1 + minutes 15.
Proof. intros Hn. split; [apply deaf_wrong|]. split; [exists []; split; [reflexivity|]; split; [simpl; tauto|reflexivity]|]. unfold minutes. simpl. lia. Qed.

Lemma guesses_bounded_witness :
  row_wf (minutes 1) (bucket_row ex_bucket (ex_limit_tables [ex_cleared]))
  /\ guesses deaf_crypto Some ex_campaign (ex_limit_tables [ex_cleared]) <= 9.
Proof.
  assert (row_wf (minutes 1) (bucket_row ex_bucket (ex_limit_tables [ex_cleared]))) as H.
  { intros r E. vm_compute in E. injection E as <-. vm_compute. split; [done|]. split; [done|]. intros Hx. by destruct Hx. }
  split; [exact H|]. apply (guesses_bounded deaf_crypto Some ex_bucket (minutes 1)); [exact H|..].
  - repeat constructor; unfold ex_attempt, minutes; cbn [at_now fst snd map]; lia.
  - apply Forall_map, Forall_forall. intros p Hp%list_elem_of_In.
    repeat destruct Hp as [<-|Hp]; try (by destruct Hp); apply ex_attempt_fits; simpl; lia.
Defined.

(** ** One-time passwords and random ids *)

Definition byte_list (l : list Z) : Prop := Forall (fun b => 0 <= b < 256) l.

(** A fact of every byte, by trying them all. *)
Lemma every_byte (P : Z -> bool) b : forallb P (map Z.of_nat (seq 0 256)) = true -> 0 <= b < 256 -> P b = true.
Proof.
  rewrite forallb_forall. intros H Hb. apply H. apply in_map_iff. exists (Z.to_nat b). split; [lia|]. apply in_seq. lia.
Qed.

Definition hyphened (groups : list (list Z)) : list Z :=
  match groups with [] => [] | g :: groups => g ++ flat_map (fun g => 45 :: g) groups end.
Lemma bytes_join groups :
  Forall byte_list groups -> bytes (Text.join "-" (map of_bytes groups)) = hyphened groups.
Proof.
  intros [|g l Hg Hl]; [done|]. cbn [map hyphened]. revert g Hg. induction Hl as [|g' l Hg' _ IH]; intros g Hg.
  - simpl. by rewrite app_nil_r, bytes_of_bytes.
  - cbn [map]. change (Text.join "-" (of_bytes g :: of_bytes g' :: map of_bytes l))
      with (of_bytes g +:+ ("-" +:+ Text.join "-" (of_bytes g' :: map of_bytes l))).
    rewrite !bytes_app, IH, bytes_of_bytes by done. done.
Qed.

(** A symbol of the alphabet: lower case or a digit, without i, l, o, 0 and 1. *)
Definition one_time_symbol (b : Z) : bool :=
  (is_ascii_lowercase b || is_ascii_digit b) && negb (existsb (Z.eqb b) (bytes "ilo01")).
Lemma alphabet_symbol b : one_time_symbol (default 0 (bytes ONE_TIME_ALPHABET !! Z.to_nat (b mod 31))) = true.
Proof.
  pose proof (Z.mod_pos_bound b 31 ltac:(lia)) as Hb.
  assert (negb (b mod 31 <? 31)
          || one_time_symbol (default 0 (bytes ONE_TIME_ALPHABET !! Z.to_nat (b mod 31))) = true) as H.
  { apply (every_byte (fun x => negb (x <? 31) || one_time_symbol (default 0 (bytes ONE_TIME_ALPHABET !! Z.to_nat x))));
      [by vm_compute|lia]. }
  by rewrite (proj2 (Z.ltb_lt _ _)) in H by lia.
Qed.
Lemma symbol_byte b : one_time_symbol b = true -> 0 <= b < 128 /\ 0 <= b < 256.
Proof.
  unfold one_time_symbol, is_ascii_lowercase, is_ascii_digit. intros [H _]%andb_prop.
  apply orb_prop in H as [H|H]; bprop; lia.
Qed.

Lemma hex_symbol_hex x : 0 <= x < 16 -> is_ascii_hexdigit (hex_symbol x) = true /\ 0 <= hex_symbol x < 256.
Proof.
  intros Hx. assert (negb (x <? 16) || (is_ascii_hexdigit (hex_symbol x) && (0 <=? hex_symbol x) && (hex_symbol x <? 256)) = true) as H.
  { apply (every_byte (fun x => negb (x <? 16) || (is_ascii_hexdigit (hex_symbol x) && (0 <=? hex_symbol x) && (hex_symbol x <? 256))));
      [by vm_compute|lia]. }
  rewrite (proj2 (Z.ltb_lt _ _)) in H by lia. simpl in H. bprop. split; [done|lia].
Qed.

Lemma char_count_ascii s : Forall (fun c => 0 <= c < 128) (bytes s) -> char_count s = Z.of_nat (String.length s).
Proof. intros H. unfold char_count, chars. rewrite decode_ascii by done. by rewrite bytes_length. Qed.

Lemma one_time_bytes random :
  length random = 20%nat ->
  Forall (fun b => one_time_symbol b = true \/ b = 45) (bytes (one_time_password random))
  /\ String.length (one_time_password random) = 23%nat.
Proof.
  intros Hl. unfold one_time_password. rewrite <- bytes_length.
  set (f := fun b => default 0 (bytes ONE_TIME_ALPHABET !! Z.to_nat (b mod 31))).
  assert (forall b, one_time_symbol (f b) = true) as Hf by exact alphabet_symbol. clearbody f.
  assert (forall b, 0 <= f b < 256) as Hb by (intros b; by apply symbol_byte).
  do 20 (destruct random as [|? random]; [done|]). destruct random; [|done].
  rewrite bytes_join by (cbn; unfold byte_list; repeat (apply Forall_cons; split); try apply Forall_nil; done).
  cbn [map groups_of_five hyphened flat_map app]. split; [|done]. repeat (constructor; [auto|]). constructor.
Qed.

Lemma not_blocked s : String.length s = 23%nat -> str_mem s BLOCKED_PASSWORDS = false.
Proof.
  intros Hl. apply Bool.not_true_iff_false. rewrite str_mem_In. intros Hin.
  assert (forallb (fun p => negb (String.length p =? 23)%nat) BLOCKED_PASSWORDS = true) as H by (by vm_compute).
  rewrite forallb_forall in H. specialize (H s Hin). by rewrite Hl in H.
Qed.

(** The bytes of a generated id, from its 16 bytes once the version is set. *)
Lemma uuid_bytes l :
  byte_list l -> length l = 16%nat ->
  let hex := hex_of l in
  Forall (fun b => is_ascii_hexdigit b = true /\ 0 <= b < 256) hex /\ length hex = 32%nat.
Proof.
  intros Hb Hl. split.
  - apply Forall_flat_map. eapply Forall_impl; [exact Hb|]. intros b Hbb. cbn beta in *.
    assert (0 <= Z.shiftr b 4 < 16).
    { rewrite Z.shiftr_div_pow2 by lia. change (2 ^ 4) with 16. split; [apply Z.div_pos; lia|apply Z.div_lt_upper_bound; lia]. }
    assert (0 <= Z.land b 15 < 16) by (change 15 with (Z.ones 4); rewrite Z.land_ones by lia; apply Z.mod_pos_bound; lia).
    repeat constructor; by apply hex_symbol_hex.
  - do 16 (destruct l as [|? l]; [done|]). by destruct l.
Qed.

Definition versioned (random : list Z) : list Z :=
  <[6%nat := Z.lor (Z.land (random !!! 6%nat) 15) 64]> (<[8%nat := Z.lor (Z.land (random !!! 8%nat) 63) 128]> random).
Lemma versioned_bytes random : byte_list random -> length random = 16%nat ->
  byte_list (versioned random) /\ length (versioned random) = 16%nat
  /\ Z.shiftr (versioned random !!! 6%nat) 4 = 4 /\ 8 <= Z.shiftr (versioned random !!! 8%nat) 4 < 12.
Proof.
  intros Hb Hl. unfold versioned. assert (0 <= random !!! 6%nat < 256 /\ 0 <= random !!! 8%nat < 256) as [H6 H8].
  { do 16 (destruct random as [|? random]; [done|]). repeat (apply Forall_cons in Hb as [? Hb]). by split. }
  assert (forall b, 0 <= b < 256 -> 0 <= Z.lor (Z.land b 15) 64 < 256 /\ Z.shiftr (Z.lor (Z.land b 15) 64) 4 = 4
    /\ 0 <= Z.lor (Z.land b 63) 128 < 256 /\ 8 <= Z.shiftr (Z.lor (Z.land b 63) 128) 4 < 12) as Hbits.
  { intros b Hbb. set (v := Z.lor (Z.land b 15) 64). set (w := Z.lor (Z.land b 63) 128).
    assert ((0 <=? v) && (v <? 256) && (Z.shiftr v 4 =? 4) && (0 <=? w) && (w <? 256) && (8 <=? Z.shiftr w 4)
            && (Z.shiftr w 4 <? 12) = true) as H.
    { apply (every_byte (fun b => let v := Z.lor (Z.land b 15) 64 in let w := Z.lor (Z.land b 63) 128 in
        (0 <=? v) && (v <? 256) && (Z.shiftr v 4 =? 4) && (0 <=? w) && (w <? 256) && (8 <=? Z.shiftr w 4)
            && (Z.shiftr w 4 <? 12))); [by vm_compute|done]. }
    bprop. lia. }
  destruct (Hbits _ H6) as (Ha & Hb6 & _). destruct (Hbits _ H8) as (_ & _ & Hc & Hd).
  split; [by repeat apply Forall_insert|]. split; [by rewrite !length_insert|].
  rewrite list_lookup_total_insert_eq by (rewrite length_insert; lia).
  rewrite list_lookup_total_insert_ne, list_lookup_total_insert_eq by lia. done.
Qed.

(** The text of an id, from its 32 symbols. *)
Definition uuid_text (hex : list Z) : string :=
  Text.join "-" (map of_bytes [take 8 hex; take 4 (drop 8 hex); take 4 (drop 12 hex); take 4 (drop 16 hex); take 12 (drop 20 hex)]).

Lemma uuid_layout hex :
  Forall (fun b => is_ascii_hexdigit b = true /\ 0 <= b < 256) hex -> length hex = 32%nat ->
  valid_uuid (uuid_text hex) = true
  /\ bytes (uuid_text hex) !! 14%nat = hex !! 12%nat /\ bytes (uuid_text hex) !! 19%nat = hex !! 16%nat.
Proof.
  intros Hhex Hlen. unfold valid_uuid. rewrite <- bytes_length. unfold uuid_text.
  assert (byte_list hex) as Hb by (eapply Forall_impl; [exact Hhex|]; by intros b [_ ?]).
  rewrite bytes_join by (repeat (apply Forall_cons; split); try apply Forall_nil; try done;
    by repeat first [apply Forall_take|apply Forall_drop]).
  do 32 (destruct hex as [|? hex]; [done|]). destruct hex; [|done]. split_and!; try done.
  repeat (apply Forall_cons in Hhex as [[? _] Hhex]).
  cbn -[is_ascii_hexdigit]. repeat match goal with H : is_ascii_hexdigit ?z = true |- _ => rewrite H; clear H end. done.
Qed.

(** What the console makes up for a person is what it accepts: a one-time password of any random
    bytes passes the password rules, and a random id of any bytes is a UUID of version 4. *)
Theorem made_up_values_accepted cr random random' :
  length random = 20%nat -> length random' = 16%nat -> byte_list random' ->
  (forall s, Forall (fun c => 0 <= c < 128) (bytes s) -> nfc cr s = s) ->
  normalized_new cr (one_time_password random) = inr (one_time_password random)
  /\ valid_uuid (random_uuid random') = true
  /\ bytes (random_uuid random') !! 14%nat = Some 52
  /\ (exists b, bytes (random_uuid random') !! 19%nat = Some b /\ In b (bytes "89ab")).
Proof.
  intros Hl Hl' Hb Hnfc. split.
  { destruct (one_time_bytes random Hl) as [Hs Hlen].
    assert (Forall (fun c => 0 <= c < 128) (bytes (one_time_password random))) as Hascii.
    { eapply Forall_impl; [exact Hs|]. intros b [H| ->]; [by apply symbol_byte|lia]. }
    unfold normalized_new. rewrite Hnfc, char_count_ascii, Hlen, not_blocked by done. done. }
  destruct (versioned_bytes random' Hb Hl') as (Hvb & Hvl & H6 & H8).
  destruct (uuid_bytes _ Hvb Hvl) as [Hhex Hlen].
  assert (hex_of (versioned random') !! 12%nat = Some 52 /\ exists b, hex_of (versioned random') !! 16%nat = Some b
    /\ In b (bytes "89ab")) as [H12 H16].
  { clear Hhex Hlen. revert Hvl H6 H8. generalize (versioned random'). intros l Hvl H6 H8.
    do 16 (destruct l as [|? l]; [done|]). destruct l; [|done]. cbn in H6, H8 |- *. rewrite H6. split; [done|].
    eexists. split; [done|]. match goal with H : 8 <= ?x < 12 |- _ => revert H; generalize x end. intros x Hx.
    assert (x = 8 \/ x = 9 \/ x = 10 \/ x = 11) as [-> |[-> |[-> | ->]]] by lia; vm_compute; tauto. }
  unfold random_uuid. fold (versioned random'). revert Hhex Hlen H12 H16. generalize (hex_of (versioned random')).
  intros hex Hhex Hlen H12 H16.
  destruct (uuid_layout hex Hhex Hlen) as (Hv & E14 & E19). rewrite <- E14 in H12. rewrite <- E19 in H16.
  exact (conj Hv (conj H12 H16)).
Qed.

Lemma made_up_values_accepted_witness :
  length (repeat 255 20) = 20%nat /\ normalized_new test_crypto (one_time_password (repeat 255 20)) = inr "hhhhh-hhhhh-hhhhh-hhhhh".
Proof.
  split; [done|].
  destruct (made_up_values_accepted test_crypto (repeat 255 20) (repeat 255 16)) as [H _]; [done|done| |done|exact H].
  repeat constructor; lia.
Defined.
