(* ===== verification/AgentServer.v ===== *)
(** * Agents: tokens, requests for certificates and certificates (platform-pki/src/token.rs,
      client.rs); below, the server agents talk to

    What reads and writes X.509 is a library: [Pki] holds what the code asks of it.  Times are
    microseconds since the epoch. *)
From S2P Require Import Prelude RustStd Text SignData.
From stdpp Require Import prelude strings list.
From Stdlib Require Import Ascii ZArith Lia.

Open Scope Z_scope.

Inductive PkiError :=
  | InvalidPem | InvalidCsr | UnsupportedKey | NonEmptySubject | Generation | InvalidValidity | IssuerExpired
  | InvalidAgentId.

(** A parsed certification request: the checks' subjects. *)
Record CsrInfo := {
  csr_signature_verifies : bool;
  csr_key_algorithm : string;
  csr_key_curve : option string;
  csr_subject_attributes : Z;
  csr_spki : list Z;
}.

Definition OID_KEY_TYPE_EC_PUBLIC_KEY : string := "1.2.840.10045.2.1".
Definition OID_EC_P256 : string := "1.2.840.10045.3.1.7".

(** The leaf to sign: key, name, serial and validity. *)
Record LeafParams := {
  lp_key : list Z;
  lp_uri : string;
  lp_serial : list Z;
  lp_not_before : Z;
  lp_not_after : Z;
}.

Record Pki := {
  pki_crypto : Crypto;
  (** PEM and DER of a request. *)
  read_csr : string -> option CsrInfo;
  (** [rcgen::SubjectPublicKeyInfo::from_der]. *)
  rcgen_reads : list Z -> bool;
  (** [OffsetDateTime::from_unix_timestamp]. *)
  representable : Z -> bool;
  (** [CertificateParams::signed_by], as PEM. *)
  sign_leaf : LeafParams -> option string;
  (** The key info of a certificate in PEM. *)
  read_spki : string -> option (list Z);
}.

(** The issuing CA. *)
Record Issuer := { iss_not_after : Z; iss_cert_pem : string }.

Section pki.
Context (pki : Pki).

(** ** Enrollment tokens *)

Definition TOKEN_CHARS : Z := 43.
Definition enrollment_token_sha256 (token : string) : option (list Z) :=
  if negb (str_len token =? TOKEN_CHARS) then None
  else
    decoded ← base64_decode (pki_crypto pki) token;
    if negb (length decoded =? 32)%nat then None else Some (sha256 (pki_crypto pki) decoded).

Definition is_agent_id (id : string) : bool :=
  match str_strip_prefix "agent." id with
  | None => false
  | Some uuid =>
      (str_len uuid =? 36)
      && forallb (fun e => if bool_decide (e.1 ∈ [8; 13; 18; 23]%nat) then e.2 =? byte_of "-"
                           else is_ascii_digit e.2 || ((97 <=? e.2) && (e.2 <=? 102)))
           (zip (seq 0 36) (bytes uuid))
  end.

(** ** Requests *)

Definition MAX_CSR_BYTES : Z := 1024 * 1024.
Definition MAX_CLIENT_DAYS : Z := 365.

Record CheckedCsr := { public_key : list Z; checked_spki_sha256 : list Z }.

Definition is_p256 (c : CsrInfo) : bool :=
  String.eqb (csr_key_algorithm c) OID_KEY_TYPE_EC_PUBLIC_KEY
  && match csr_key_curve c with Some curve => String.eqb curve OID_EC_P256 | None => false end.

Definition spki_sha256 (spki : list Z) : list Z := sha256 (pki_crypto pki) spki.

Definition check_csr (csr_pem : string) : PkiError + CheckedCsr :=
  if MAX_CSR_BYTES <? str_len csr_pem then inl InvalidCsr
  else match read_csr pki csr_pem with
  | None => inl InvalidCsr
  | Some info =>
      if negb (csr_signature_verifies info) then inl InvalidCsr
      else if negb (is_p256 info) then inl UnsupportedKey
      else if negb (csr_subject_attributes info =? 0) then inl NonEmptySubject
      else if negb (rcgen_reads pki (csr_spki info)) then inl UnsupportedKey
      else inr {| public_key := csr_spki info; checked_spki_sha256 := spki_sha256 (csr_spki info) |}
  end.

(** ** Certificates *)

(** [IssuedClient], and [IssuedCert] of the store, which [to_store] copies it to. *)
Record IssuedCert := {
  ic_serial : list Z;
  ic_spki_sha256 : list Z;
  ic_not_before : Z;
  ic_not_after : Z;
  ic_chain_pem : list string;
}.

(** 16 random bytes, [None] when there are none to be had: the top bit cleared, the next one set. *)
Definition random_serial (random : option (list Z)) : PkiError + list Z :=
  match random with
  | None => inl Generation
  | Some [] => inr []
  | Some (b :: l) => inr (Z.lor (Z.land b 127) 64 :: l)
  end.

Definition timestamp (t : Z) : Z := t / 1000000.
Definition DAY : Z := 86400 * 1000000.
Definition offset (t : Z) : PkiError + Z :=
  if representable pki (timestamp t) then inr (timestamp t) else inl Generation.

Definition spki_sha256_of_cert (pem : string) : PkiError + list Z :=
  match read_spki pki pem with Some spki => inr (spki_sha256 spki) | None => inl InvalidPem end.

Definition issue_client (issuer : Issuer) (csr : CheckedCsr) (agent_id : string) (now days : Z) (random : option (list Z))
    : PkiError + IssuedCert :=
  if negb (is_agent_id agent_id) then inl InvalidAgentId
  else if negb ((1 <=? days) && (days <=? MAX_CLIENT_DAYS)) then inl InvalidValidity
  else if iss_not_after issuer <=? now then inl IssuerExpired
  else match random_serial random with
  | inl e => inl e
  | inr serial =>
      let not_before := timestamp now * 1000000 in
      let not_after := Z.min (not_before + days * DAY) (iss_not_after issuer) in
      match offset not_before, offset not_after with
      | inr nb, inr na =>
          match sign_leaf pki {| lp_key := public_key csr; lp_uri := "openvibes:agent:" +:+ agent_id; lp_serial := serial;
                                 lp_not_before := nb; lp_not_after := na |} with
          | None => inl Generation
          | Some leaf =>
              match spki_sha256_of_cert leaf with
              | inl e => inl e
              | inr certified =>
                  if negb (bool_decide (certified = checked_spki_sha256 csr)) then inl Generation
                  else inr {| ic_serial := serial; ic_spki_sha256 := checked_spki_sha256 csr; ic_not_before := not_before;
                              ic_not_after := not_after; ic_chain_pem := [leaf; iss_cert_pem issuer] |}
              end
          end
      | inl e, _ | _, inl e => inl e
      end
  end.

(** A certificate names the key of the request, starts at most now, and ends with its issuer. *)
Lemma issue_client_ok issuer csr agent_id now days random cert :
  issue_client issuer csr agent_id now days random = inr cert ->
  is_agent_id agent_id = true /\ ic_spki_sha256 cert = checked_spki_sha256 csr /\ ic_not_before cert <= now
  /\ ic_not_after cert <= iss_not_after issuer /\ ic_not_after cert <= now + MAX_CLIENT_DAYS * DAY.
Proof.
  unfold issue_client. repeat (case_match; try done). intros [= <-]; cbn. bprop.
  assert (timestamp now * 1000000 <= now) by (unfold timestamp; pose proof (Z.mul_div_le now 1000000); lia).
  split_and!; try done; unfold MAX_CLIENT_DAYS, DAY in *; lia.
Qed.
End pki.

Example agent_id_vectors :
  is_agent_id "agent.00010203-0405-4607-8809-0a0b0c0d0e0f" = true
  /\ is_agent_id "agent.00010203-0405-4607-8809-0A0b0c0d0e0f" = false
  /\ is_agent_id "agent.00010203-0405-4607-8809-0a0b0c0d0e0" = false
  /\ is_agent_id "import.00010203-0405-4607-8809-0a0b0c0d0e0f" = false
  /\ random_serial (Some [255; 1]) = inr [127; 1] /\ random_serial (Some [0; 1]) = inr [64; 1].
Proof. vm_compute. auto 10. Qed.

(** * Agents: the server they talk to (platform-agent-server/src/error.rs, request.rs, limits.rs,
      auth.rs and the routes of openvibes-ingest/src/server.rs)

    What happens to a request before its handler: its length, the slots, the body, its document. *)

Open Scope Z_scope.

Inductive ApiError :=
  | BadRequest | TooLarge | Unauthorized | Revoked | NotFound | Unavailable | Busy | Timeout | Resync | FindingsResync.

(** [into_response]: the status, and the code of the document for the three errors that have one. *)
Definition into_response (e : ApiError) : Z * option string :=
  match e with
  | Revoked => (403, Some "identity_revoked")
  | BadRequest => (400, None)
  | TooLarge => (413, None)
  | Unauthorized => (401, None)
  | NotFound => (404, None)
  | Unavailable => (503, None)
  | Busy => (503, None)
  | Timeout => (408, None)
  | Resync => (409, Some "inventory_resync")
  | FindingsResync => (409, Some "findings_resync")
  end.

Section server.
(** [ResourceLimits::V1.inventory_document_bytes] of the protocol's crate. *)
Context (inventory_document_bytes : Z).
(** The first bytes a gzip stream decompresses to, at most as many as asked; [None]: a broken stream. *)
Context (gunzip : list Z -> Z -> option (list Z)).

Definition MAX_BODY_BYTES : Z := 1024 * 1024.
Definition MAX_INVENTORY_BYTES : Z := inventory_document_bytes.
Definition INVENTORY_PATHS : list string := ["/v1/inventory"; "/v1/inventory/changes"].

Definition body_limit (path : string) : Z :=
  if existsb (String.eqb path) INVENTORY_PATHS then MAX_INVENTORY_BYTES else MAX_BODY_BYTES.

(** [HeaderMap::get]: the first value. *)
Definition header (h : Headers) (name : string) : option (list Z) := head (get_all h name).
Definition eq_ignore_ascii_case (a b : string) : bool := String.eqb (to_ascii_lowercase a) (to_ascii_lowercase b).

Definition length_of (body : list Z) : Z := Z.of_nat (length body).

Definition decoded_body (h : Headers) (body : list Z) (limit : Z) : ApiError + list Z :=
  match header h "content-encoding" with
  | None => inr body
  | Some v =>
      match to_str v with
      | None => inl BadRequest
      | Some text =>
          let value := Text.trim text in
          if eq_ignore_ascii_case value "identity" then inr body
          else if eq_ignore_ascii_case value "gzip" then
            match gunzip body (limit + 1) with
            | None => inl BadRequest
            | Some out => if limit <? length_of out then inl TooLarge else inr out
            end
          else inl BadRequest
      end
  end.

(** A document: what reads it from JSON, and what its type asks of it. *)
Definition parse_with_limit {A} (from_slice : list Z -> option A) (validate : A -> bool) (body : list Z) (limit : Z)
    : ApiError + A :=
  if limit <? length_of body then inl BadRequest
  else match from_slice body with
  | None => inl BadRequest
  | Some value => if validate value then inr value else inl BadRequest
  end.
Definition parse {A} (from_slice : list Z -> option A) (validate : A -> bool) (body : list Z) : ApiError + A :=
  parse_with_limit from_slice validate body MAX_BODY_BYTES.

(** ** Load limits *)

(** What the deadline makes of the rest of the pipeline: its status, or none when it is missed. *)
Definition bound (in_flight_free : bool) (path : string) (h : Headers) (next : option Z) : Z :=
  let declared := v ← header h "content-length"; s ← to_str v; parse_uint u64_max s in
  if match declared with Some length => body_limit path <? length | None => false end
  then (into_response BadRequest).1
  else if negb in_flight_free then (into_response Busy).1
  else
    let keeps_413 := existsb (String.eqb path) ["/v1/alarms"; "/v1/services"] in
    let status := match next with Some status => status | None => (into_response Timeout).1 end in
    if (status =? 413) && negb keeps_413 then (into_response BadRequest).1 else status.

Definition deadline (path : string) (request_timeout inventory_request_timeout : Z) : Z :=
  if existsb (String.eqb path) INVENTORY_PATHS then inventory_request_timeout else request_timeout.

(** The three routes of [inventory_route] take bodies of the inventory limit. *)
Definition inventory_route (path : string) : bool :=
  existsb (String.eqb path) ["/v1/inventory"; "/v1/inventory/changes"; "/v1/findings/changes"].
Definition route_limit (path : string) : Z :=
  if inventory_route path then MAX_INVENTORY_BYTES else MAX_BODY_BYTES.

(** [inventory_slot], then the [Bytes] extractor under [DefaultBodyLimit]; [handler] is the status
    of the handler on the body. *)
Definition routed (slot_free : bool) (path : string) (body : list Z) (handler : Z) : Z :=
  if inventory_route path && negb slot_free then (into_response Busy).1
  else if route_limit path <? length_of body then (into_response TooLarge).1
  else handler.

(** A body over the limit of its path never reaches the handler, and only two paths say so with 413. *)
Lemma over_limit_refused free slot path h body handler :
  route_limit path < length_of body ->
  existsb (String.eqb path) ["/v1/alarms"; "/v1/services"] = false ->
  bound free path h (Some (routed slot path body handler)) = 400
  \/ bound free path h (Some (routed slot path body handler)) = 503.
Proof.
  intros Hover Hk. unfold bound, routed. rewrite Hk. apply Z.ltb_lt in Hover. rewrite Hover. cbn [into_response fst].
  repeat case_match; simplify_eq; auto.
Qed.
End server.

(** ** Who sends a request *)

(** What the server reads of a presented certificate: serial and key info, and the validity. *)
Record Leaf := {
  leaf_identity : option (list Z * list Z);
  leaf_validity : option (Z * Z);
}.

Definition currently_valid (leaf : Leaf) (now : Z) : bool :=
  match leaf_validity leaf with
  | Some (not_before, not_after) => (not_before <=? now) && (now <? not_after)
  | None => false
  end.

(** A change of findings that declares its length is held to 1 MiB, one that does not to the limit
    of its route. *)
Example findings_changes_limits :
  let mib := 1024 * 1024 in
  bound (8 * mib) true "/v1/findings/changes" [("content-length", bytes "2000000")] (Some 204) = 400
  /\ bound (8 * mib) true "/v1/findings/changes" [] (Some 204) = 204
  /\ route_limit (8 * mib) "/v1/findings/changes" = 8 * mib
  /\ bound (8 * mib) true "/v1/inventory/changes" [("content-length", bytes "2000000")] (Some 204) = 204
  /\ bound (8 * mib) true "/v1/alarms" [] (Some 413) = 413 /\ bound (8 * mib) true "/v1/enroll" [] (Some 413) = 400
  /\ bound (8 * mib) false "/v1/enroll" [] (Some 200) = 503 /\ bound (8 * mib) true "/v1/enroll" [] None = 408.
Proof. vm_compute. auto 10. Qed.
