(* ===== verification/AgentDb.v ===== *)
(** * Agents: the stored side (platform-store/src/ingest.rs, tokens.rs, agents.rs, imports.rs,
      status.rs and the enrollment tokens of console_auth.rs)

    The tables of agents, certificates and enrollment tokens, and the statements on them.  [None] is
    a statement the database refuses, which rolls its transaction back.  Times are microseconds since
    the epoch. *)
From S2P Require Import Prelude RustStd Text Json SignData AgentServer.
From stdpp Require Import prelude strings list.
From Stdlib Require Import Ascii ZArith Lia.

Open Scope Z_scope.

(** ** Tables *)

Inductive AgentStatus := SActive | SRevoked | SImported.
#[export] Instance AgentStatus_eq_dec : EqDecision AgentStatus.
Proof. solve_decision. Defined.

Record AgentRow := {
  ag_id : string;
  ag_status : AgentStatus;
  ag_enrolled_at : Z;
  ag_revoked_at : option Z;
  ag_last_seen_at : option Z;
  ag_scanner_version : option string;
  ag_capabilities : list string;
  ag_hostname : option string;
  ag_last_address : option string;
  ag_health : option value;
  ag_health_previous : option value;
  ag_health_at : option Z;
  ag_hardening_facts_ok_at : option Z;
  ag_claimed_agent_id : option string;
}.

Record CertificateRow := {
  ce_serial : list Z;
  ce_agent : string;
  ce_spki : list Z;
  ce_not_before : Z;
  ce_not_after : Z;
  ce_issued_at : Z;
  ce_chain : string;
}.

Record TokenRow := {
  tk_id : string;
  tk_sha256 : list Z;
  tk_label : option string;
  tk_created_at : Z;
  tk_created_by : string;
  tk_expires_at : Z;
  tk_max_uses : Z;
  tk_revoked_at : option Z;
  tk_standing : bool;
}.

Record UseRow := { us_token : string; us_spki : list Z; us_agent : string; us_serial : list Z; us_used_at : Z }.

(** [response_body] is the token's id and the text of its expiry. *)
Record IdempotencyRow := {
  im_actor : string;
  im_key : list Z;
  im_request : list Z;
  im_token_id : string;
  im_expiry : string;
  im_expires_at : Z;
}.

Record LogRow := { lo_actor : string; lo_action : string; lo_target : string; lo_reason : option string }.

Record AgentTables := {
  agents : list AgentRow;
  certificates : list CertificateRow;
  enrollment_tokens : list TokenRow;
  token_uses : list UseRow;
  standing_token_secret : list (string * string);
  idempotency : list IdempotencyRow;
  agent_presence : list (string * Z);
  group_membership : list (string * string);
  agent_log : list LogRow;
}.

Definition set_agents (f : list AgentRow -> list AgentRow) (t : AgentTables) : AgentTables :=
  {| agents := f (agents t); certificates := certificates t; enrollment_tokens := enrollment_tokens t;
     token_uses := token_uses t; standing_token_secret := standing_token_secret t; idempotency := idempotency t;
     agent_presence := agent_presence t; group_membership := group_membership t; agent_log := agent_log t |}.
Definition add_certificate_row (r : CertificateRow) (t : AgentTables) : AgentTables :=
  {| agents := agents t; certificates := certificates t ++ [r]; enrollment_tokens := enrollment_tokens t;
     token_uses := token_uses t; standing_token_secret := standing_token_secret t; idempotency := idempotency t;
     agent_presence := agent_presence t; group_membership := group_membership t; agent_log := agent_log t |}.
Definition set_tokens (f : list TokenRow -> list TokenRow) (t : AgentTables) : AgentTables :=
  {| agents := agents t; certificates := certificates t; enrollment_tokens := f (enrollment_tokens t);
     token_uses := token_uses t; standing_token_secret := standing_token_secret t; idempotency := idempotency t;
     agent_presence := agent_presence t; group_membership := group_membership t; agent_log := agent_log t |}.
Definition add_use (r : UseRow) (t : AgentTables) : AgentTables :=
  {| agents := agents t; certificates := certificates t; enrollment_tokens := enrollment_tokens t;
     token_uses := token_uses t ++ [r]; standing_token_secret := standing_token_secret t; idempotency := idempotency t;
     agent_presence := agent_presence t; group_membership := group_membership t; agent_log := agent_log t |}.
Definition add_secret (id secret : string) (t : AgentTables) : AgentTables :=
  {| agents := agents t; certificates := certificates t; enrollment_tokens := enrollment_tokens t;
     token_uses := token_uses t; standing_token_secret := standing_token_secret t ++ [(id, secret)];
     idempotency := idempotency t; agent_presence := agent_presence t; group_membership := group_membership t;
     agent_log := agent_log t |}.
Definition set_idempotency (f : list IdempotencyRow -> list IdempotencyRow) (t : AgentTables) : AgentTables :=
  {| agents := agents t; certificates := certificates t; enrollment_tokens := enrollment_tokens t;
     token_uses := token_uses t; standing_token_secret := standing_token_secret t; idempotency := f (idempotency t);
     agent_presence := agent_presence t; group_membership := group_membership t; agent_log := agent_log t |}.
Definition set_presence (f : list (string * Z) -> list (string * Z)) (t : AgentTables) : AgentTables :=
  {| agents := agents t; certificates := certificates t; enrollment_tokens := enrollment_tokens t;
     token_uses := token_uses t; standing_token_secret := standing_token_secret t; idempotency := idempotency t;
     agent_presence := f (agent_presence t); group_membership := group_membership t; agent_log := agent_log t |}.
Definition log_row (r : LogRow) (t : AgentTables) : AgentTables :=
  {| agents := agents t; certificates := certificates t; enrollment_tokens := enrollment_tokens t;
     token_uses := token_uses t; standing_token_secret := standing_token_secret t; idempotency := idempotency t;
     agent_presence := agent_presence t; group_membership := group_membership t; agent_log := agent_log t ++ [r] |}.

Definition bytes_eqb (a b : list Z) : bool := bool_decide (a = b).
Definition agent_of (id : string) (t : AgentTables) : option AgentRow :=
  find (fun a => String.eqb (ag_id a) id) (agents t).
Definition certificate_of (serial : list Z) (t : AgentTables) : option CertificateRow :=
  find (fun c => bytes_eqb (ce_serial c) serial) (certificates t).
Definition token_of (id : string) (t : AgentTables) : option TokenRow :=
  find (fun k => String.eqb (tk_id k) id) (enrollment_tokens t).

(** ** The constraints of the tables *)

Definition id_tail (p : Z -> bool) (low high : Z) (s : string) : bool :=
  forallb p (bytes s) && (low <=? str_len s) && (str_len s <=? high).
(** [agents_agent_id_check]. *)
Definition agent_id_stored (status : AgentStatus) (id : string) : bool :=
  match status with
  | SImported => match str_strip_prefix "import." id with
                 | Some s => id_tail (fun b => is_ascii_alphanumeric b || existsb (Z.eqb b) (bytes "._:-")) 1 128 s
                 | None => false end
  | _ => match str_strip_prefix "agent." id with
         | Some s => id_tail (fun b => is_ascii_digit b || ((97 <=? b) && (b <=? 102)) || (b =? 45)) 36 36 s
         | None => false end
  end.

Definition insert_agent (a : AgentRow) (t : AgentTables) : option AgentTables :=
  if is_some (agent_of (ag_id a) t) || negb (agent_id_stored (ag_status a) (ag_id a)) then None
  else Some (set_agents (fun l => l ++ [a]) t).

Definition update_agent (id : string) (f : AgentRow -> AgentRow) : AgentTables -> AgentTables :=
  set_agents (map (fun a => if String.eqb (ag_id a) id then f a else a)).

(** [token_id] and [token_sha256] are unique, and at most one standing token is live. *)
Definition insert_token (k : TokenRow) (t : AgentTables) : option AgentTables :=
  if existsb (fun k' => String.eqb (tk_id k') (tk_id k) || bytes_eqb (tk_sha256 k') (tk_sha256 k)) (enrollment_tokens t)
     || negb (length (tk_sha256 k) =? 32)%nat || (tk_max_uses k <=? 0)
  then None else Some (set_tokens (fun l => l ++ [k]) t).

Definition insert_use (u : UseRow) (t : AgentTables) : option AgentTables :=
  if existsb (fun u' => String.eqb (us_token u') (us_token u) && bytes_eqb (us_spki u') (us_spki u)) (token_uses t)
     || negb (is_some (token_of (us_token u) t)) || negb (is_some (agent_of (us_agent u) t))
     || negb (is_some (certificate_of (us_serial u) t))
  then None else Some (add_use u t).

(** [query_opt]: no row, a row, or the error of several. *)
Definition query_opt {A} (rows : list A) : option (option A) :=
  match rows with [] => Some None | [r] => Some (Some r) | _ => None end.

(** ** Certificates *)

(** The chain as the text of a JSON array, and back. *)
Record ChainCodec := {
  chain_json : list string -> option string;
  chain_from_json : string -> option (list string);
}.

Record Identity := { id_agent : string; id_chain : list string; id_not_after : Z }.

Definition insert_certificate (cc : ChainCodec) (agent_id : string) (cert : IssuedCert) (now : Z) (t : AgentTables)
    : option AgentTables :=
  chain ← chain_json cc (ic_chain_pem cert);
  if is_some (certificate_of (ic_serial cert) t) || negb (length (ic_serial cert) =? 16)%nat
     || negb (length (ic_spki_sha256 cert) =? 32)%nat || negb (is_some (agent_of agent_id t))
  then None
  else Some (add_certificate_row {| ce_serial := ic_serial cert; ce_agent := agent_id; ce_spki := ic_spki_sha256 cert;
                                    ce_not_before := ic_not_before cert; ce_not_after := ic_not_after cert;
                                    ce_issued_at := now; ce_chain := chain |} t).

Definition add_certificate := insert_certificate.

Inductive Authenticated := Active (agent_id : string) | RevokedAgent | Unknown.

(** The certificate with its agent; a serial is that of one certificate. *)
Definition authenticate (serial spki_sha256 : list Z) (t : AgentTables) : Authenticated :=
  match (c ← certificate_of serial t; a ← agent_of (ce_agent c) t; Some (a, c)) with
  | None => Unknown
  | Some (a, c) =>
      if negb (bytes_eqb (ce_spki c) spki_sha256) then Unknown
      else if decide (ag_status a = SActive) then Active (ag_id a) else RevokedAgent
  end.

(** ** Enrollment *)

Record TokenSeen := { ts_id : string; ts_expires_at : Z; ts_max_uses : Z; ts_revoked : bool; ts_standing : bool }.

Definition token_by_hash (hash : list Z) (t : AgentTables) : option TokenSeen :=
  k ← find (fun k => bytes_eqb (tk_sha256 k) hash) (enrollment_tokens t);
  Some {| ts_id := tk_id k; ts_expires_at := tk_expires_at k; ts_max_uses := tk_max_uses k;
          ts_revoked := is_some (tk_revoked_at k); ts_standing := tk_standing k |}.

Inductive Enrolled :=
  | New (identity : Identity) | Existing (identity : Identity) | Exhausted | TokenInvalid | AgentRevoked.

(** The uses of a token with the certificate and the agent of each. *)
Definition use_of (token_id : string) (spki_sha256 : list Z) (t : AgentTables) : list (UseRow * CertificateRow * AgentRow) :=
  omap (fun u => if String.eqb (us_token u) token_id && bytes_eqb (us_spki u) spki_sha256
                 then c ← certificate_of (us_serial u) t; a ← agent_of (us_agent u) t; Some (u, c, a) else None)
       (token_uses t).

Definition uses_of (token_id : string) (t : AgentTables) : Z :=
  Z.of_nat (length (List.filter (fun u => String.eqb (us_token u) token_id) (token_uses t))).

Definition token_valid (now : Z) (k : TokenRow) : bool :=
  negb (is_some (tk_revoked_at k)) && (tk_standing k || (now <? tk_expires_at k)).

Definition new_agent (agent_id : string) (now : Z) : AgentRow :=
  {| ag_id := agent_id; ag_status := SActive; ag_enrolled_at := now; ag_revoked_at := None; ag_last_seen_at := None;
     ag_scanner_version := None; ag_capabilities := []; ag_hostname := None; ag_last_address := None;
     ag_health := None; ag_health_previous := None; ag_health_at := None; ag_hardening_facts_ok_at := None;
     ag_claimed_agent_id := None |}.

(** The agent, its certificate, the use and the log entry of a new enrollment. *)
Definition record_enrollment (cc : ChainCodec) (token_id : string) (spki_sha256 : list Z) (now : Z) (agent_id : string)
    (cert : IssuedCert) (t : AgentTables) : option AgentTables :=
  t ← insert_agent (new_agent agent_id now) t;
  t ← insert_certificate cc agent_id cert now t;
  t ← insert_use {| us_token := token_id; us_spki := spki_sha256; us_agent := agent_id; us_serial := ic_serial cert;
                    us_used_at := now |} t;
  Some (log_row {| lo_actor := "openvibes-ingest"; lo_action := "enroll"; lo_target := agent_id; lo_reason := None |} t).

(** One transaction; [uuid] is [gen_random_uuid()]. *)
Definition enroll (cc : ChainCodec) (token_id : string) (spki_sha256 : list Z) (now : Z) (uuid : string)
    (issue : string -> option IssuedCert) (t : AgentTables) : option (Enrolled * AgentTables) :=
  existing ← query_opt (use_of token_id spki_sha256 t);
  match existing with
  | Some (_, c, a) =>
      if decide (ag_status a = SRevoked) then Some (AgentRevoked, t)
      else
        chain ← chain_from_json cc (ce_chain c);
        Some (Existing {| id_agent := ag_id a; id_chain := chain; id_not_after := ce_not_after c |}, t)
  | None =>
      k ← token_of token_id t;
      if negb (token_valid now k) then Some (TokenInvalid, t)
      else if negb (tk_standing k) && (tk_max_uses k <=? uses_of token_id t) then Some (Exhausted, t)
      else
        let agent_id := "agent." +:+ uuid in
        cert ← issue agent_id;
        t' ← record_enrollment cc token_id spki_sha256 now agent_id cert t;
        Some (New {| id_agent := agent_id; id_chain := ic_chain_pem cert; id_not_after := ic_not_after cert |}, t')
  end.

(** ** Tokens *)

Record NewToken := {
  nt_sha256 : list Z; nt_label : option string; nt_created_by : string; nt_expires_at : Z; nt_max_uses : Z }.

(** [tokens::create]: [now] is the database's clock. *)
Definition create (n : NewToken) (token_id : string) (now : Z) (t : AgentTables) : option AgentTables :=
  insert_token {| tk_id := token_id; tk_sha256 := nt_sha256 n; tk_label := nt_label n; tk_created_at := now;
                  tk_created_by := nt_created_by n; tk_expires_at := nt_expires_at n; tk_max_uses := nt_max_uses n;
                  tk_revoked_at := None; tk_standing := false |} t.

Definition STANDING_YEARS : Z := 100.
Definition live (k : TokenRow) : bool := tk_standing k && negb (is_some (tk_revoked_at k)).

(** The new token's id, or none beside a live standing token. *)
Definition create_standing (secret : string) (token_sha256 : list Z) (created_by token_id : string) (now : Z) (t : AgentTables)
    : option (option string * AgentTables) :=
  if existsb live (enrollment_tokens t) then Some (None, t)
  else
    t ← insert_token {| tk_id := token_id; tk_sha256 := token_sha256; tk_label := Some "standing token"; tk_created_at := now;
                        tk_created_by := created_by; tk_expires_at := now + 365 * STANDING_YEARS * DAY;
                        tk_max_uses := i32_max; tk_revoked_at := None; tk_standing := true |} t;
    Some (Some token_id, add_secret token_id secret t).

Definition live_standing (t : AgentTables) : option (option (string * string)) :=
  query_opt (omap (fun k => if live k then s ← find (fun e => String.eqb e.1 (tk_id k)) (standing_token_secret t);
                                           Some (tk_id k, s.2) else None) (enrollment_tokens t)).

Definition with_revoked_at (now : Z) (k : TokenRow) : TokenRow :=
  {| tk_id := tk_id k; tk_sha256 := tk_sha256 k; tk_label := tk_label k; tk_created_at := tk_created_at k;
     tk_created_by := tk_created_by k; tk_expires_at := tk_expires_at k; tk_max_uses := tk_max_uses k;
     tk_revoked_at := Some now; tk_standing := tk_standing k |}.
Definition revocable (token_id : string) (k : TokenRow) : bool :=
  String.eqb (tk_id k) token_id && negb (is_some (tk_revoked_at k)).
Definition revoke_row (token_id : string) (now : Z) (t : AgentTables) : bool * AgentTables :=
  (existsb (revocable token_id) (enrollment_tokens t),
   set_tokens (map (fun k => if revocable token_id k then with_revoked_at now k else k)) t).

(** [tokens::revoke]: [uuid_of] is PostgreSQL's reading of a uuid. *)
Definition revoke_token (uuid_of : string -> option string) (token_id : string) (now : Z) (t : AgentTables)
    : option (bool * AgentTables) :=
  id ← uuid_of token_id; Some (revoke_row id now t).

(** [console_auth::revoke_enrollment_token]. *)
Definition revoke_enrollment_token (token_id actor_id : string) (now : Z) (t : AgentTables) : bool * AgentTables :=
  let '(changed, t') := revoke_row token_id now t in
  if changed then
    (true, log_row {| lo_actor := actor_id; lo_action := "enrollment_token.revoked"; lo_target := token_id; lo_reason := None |} t')
  else (false, t).

(** [console_auth::create_enrollment_token]; [rfc3339] and [from_rfc3339] write and read a time. *)
Record TimeText := { rfc3339 : Z -> string; from_rfc3339 : string -> option Z }.

Record NewConsoleEnrollmentToken := {
  ct_secret_sha256 : list Z;
  ct_label : option string;
  ct_actor_id : string;
  ct_now : Z;
  ct_expires_at : Z;
  ct_max_uses : Z;
  ct_idempotency_key_sha256 : list Z;
  ct_request_sha256 : list Z;
}.

Inductive EnrollmentTokenCreation := Created (token_id : string) | Replayed (token_id : string) (expires_at : Z) | Conflict.

Definition keyed (r : NewConsoleEnrollmentToken) (i : IdempotencyRow) : bool :=
  String.eqb (im_actor i) (ct_actor_id r) && bytes_eqb (im_key i) (ct_idempotency_key_sha256 r).
Definition remembered (r : NewConsoleEnrollmentToken) (i : IdempotencyRow) : bool := keyed r i && (ct_now r <? im_expires_at i).
Definition forget_expired (r : NewConsoleEnrollmentToken) : AgentTables -> AgentTables :=
  set_idempotency (List.filter (fun i => negb (keyed r i && (im_expires_at i <=? ct_now r)))).

Definition create_enrollment_token (tt : TimeText) (r : NewConsoleEnrollmentToken) (token_id : string) (t : AgentTables)
    : option (EnrollmentTokenCreation * AgentTables) :=
  let t1 := forget_expired r t in
  existing ← query_opt (List.filter (remembered r) (idempotency t1));
  match existing with
  | Some i =>
      if negb (bytes_eqb (im_request i) (ct_request_sha256 r)) then Some (Conflict, t)
      else expires_at ← from_rfc3339 tt (im_expiry i); Some (Replayed (im_token_id i) expires_at, t)
  | None =>
      t2 ← insert_token {| tk_id := token_id; tk_sha256 := ct_secret_sha256 r; tk_label := ct_label r; tk_created_at := ct_now r;
                           tk_created_by := ct_actor_id r; tk_expires_at := ct_expires_at r; tk_max_uses := ct_max_uses r;
                           tk_revoked_at := None; tk_standing := false |} t1;
      if negb (length (ct_idempotency_key_sha256 r) =? 32)%nat || negb (length (ct_request_sha256 r) =? 32)%nat
         || existsb (keyed r) (idempotency t2)
      then None
      else Some (Created token_id,
        log_row {| lo_actor := ct_actor_id r; lo_action := "enrollment_token.created"; lo_target := token_id; lo_reason := None |}
          (set_idempotency (fun l => l ++ [{| im_actor := ct_actor_id r; im_key := ct_idempotency_key_sha256 r;
                                              im_request := ct_request_sha256 r; im_token_id := token_id;
                                              im_expiry := rfc3339 tt (ct_expires_at r);
                                              im_expires_at := ct_now r + 24 * 3600 * 1000000 |}]) t2))
  end.

(** ** Revoking agents *)

Inductive Revoke := RevokedNow | AlreadyRevoked | UnknownAgent | ImportedHost.

Definition revoked_row (now : Z) (a : AgentRow) : AgentRow :=
  {| ag_id := ag_id a; ag_status := SRevoked; ag_enrolled_at := ag_enrolled_at a; ag_revoked_at := Some now;
     ag_last_seen_at := ag_last_seen_at a; ag_scanner_version := ag_scanner_version a;
     ag_capabilities := ag_capabilities a; ag_hostname := ag_hostname a; ag_last_address := ag_last_address a;
     ag_health := ag_health a; ag_health_previous := ag_health_previous a; ag_health_at := ag_health_at a;
     ag_hardening_facts_ok_at := ag_hardening_facts_ok_at a; ag_claimed_agent_id := ag_claimed_agent_id a |}.

Definition not_revoked (status : AgentStatus) : Revoke :=
  match status with SImported => ImportedHost | _ => AlreadyRevoked end.

(** [agents::revoke]. *)
Definition revoke (agent_id : string) (now : Z) (t : AgentTables) : Revoke * AgentTables :=
  match agent_of agent_id t with
  | None => (UnknownAgent, t)
  | Some a => if decide (ag_status a = SActive) then (RevokedNow, update_agent agent_id (revoked_row now) t)
              else (not_revoked (ag_status a), t)
  end.

(** [AgentScope] and [agent_visibility]. *)
Inductive AgentScope := ScopeGlobal | AssetGroups (ids : list string).
Definition visible (scope : AgentScope) (a : AgentRow) (t : AgentTables) : bool :=
  match scope with
  | ScopeGlobal => true
  | AssetGroups ids =>
      existsb (fun m => String.eqb m.1 (ag_id a) && existsb (String.eqb m.2) ids) (group_membership t)
      && bool_decide (ag_status a <> SImported)
  end.

(** [revoke_agent_in_scope]. *)
Definition revoke_in_scope (agent_id : string) (scope : AgentScope) (actor_id reason : string) (now : Z) (t : AgentTables)
    : Revoke * AgentTables :=
  match agent_of agent_id t with
  | None => (UnknownAgent, t)
  | Some a =>
      if negb (visible scope a t) then (UnknownAgent, t)
      else if decide (ag_status a = SActive) then
        (RevokedNow, log_row {| lo_actor := actor_id; lo_action := "agent.revoked"; lo_target := agent_id; lo_reason := Some reason |}
                       (update_agent agent_id (revoked_row now) t))
      else (not_revoked (ag_status a), t)
  end.

(** ** Heartbeats *)

Definition HEARTBEAT_WRITE_MINUTES : Z := 5.
Definition MINUTE : Z := 60 * 1000000.

Record Beat := {
  hb_version : string;
  hb_hostname : option string;
  hb_capabilities : list string;
  hb_health : option value;
  hb_address : option string;
}.

Definition or_stored {A} (new stored : option A) : option A := match new with Some _ => new | None => stored end.
(** The JSON operator [->] on a column that may be null. *)
Definition field (v : option value) (key : string) : option value := v ← v; get v key.
Definition rule_sets (health : option value) : option value := field health "rule_sets".
Definition hardening_ok (health : option value) : bool :=
  match field (field (field health "last_scan") "collectors") "hardening" with
  | Some (JString s) => String.eqb s "ok" | _ => false end.

Definition beaten (now : Z) (b : Beat) (a : AgentRow) : AgentRow :=
  {| ag_id := ag_id a; ag_status := ag_status a; ag_enrolled_at := ag_enrolled_at a; ag_revoked_at := ag_revoked_at a;
     ag_last_seen_at := Some now; ag_scanner_version := Some (hb_version b); ag_capabilities := hb_capabilities b;
     ag_hostname := or_stored (hb_hostname b) (ag_hostname a);
     ag_last_address := or_stored (hb_address b) (ag_last_address a);
     ag_health := or_stored (hb_health b) (ag_health a);
     ag_health_previous := if is_some (hb_health b) then ag_health a else ag_health_previous a;
     ag_health_at := if is_some (hb_health b) then Some now else ag_health_at a;
     ag_hardening_facts_ok_at := if hardening_ok (hb_health b) then Some now else ag_hardening_facts_ok_at a;
     ag_claimed_agent_id := ag_claimed_agent_id a |}.

(** Whether the row is written: it is old, or something of the report that shows changed. *)
Definition beat_writes (now : Z) (b : Beat) (a : AgentRow) : bool :=
  match ag_last_seen_at a with None => true | Some at_ => at_ <? now - HEARTBEAT_WRITE_MINUTES * MINUTE end
  || negb (bool_decide (ag_hostname a = or_stored (hb_hostname b) (ag_hostname a)))
  || negb (bool_decide (ag_last_address a = or_stored (hb_address b) (ag_last_address a)))
  || negb (bool_decide (ag_capabilities a = hb_capabilities b))
  || negb (bool_decide (rule_sets (ag_health a) = or_stored (rule_sets (hb_health b)) (rule_sets (ag_health a)))).

Definition presence (agent_id : string) (now : Z) : AgentTables -> AgentTables :=
  set_presence (fun l =>
    if existsb (fun p => String.eqb p.1 agent_id) l
    then map (fun p => if String.eqb p.1 agent_id then (p.1, Z.max p.2 now) else p) l
    else l ++ [(agent_id, now)]).

Definition heartbeat (agent_id : string) (b : Beat) (now : Z) (t : AgentTables) : bool * AgentTables :=
  let writes a := String.eqb (ag_id a) agent_id && beat_writes now b a in
  (existsb writes (agents t),
   presence agent_id now (set_agents (map (fun a => if writes a then beaten now b a else a)) t)).

(** The SQL function [agent_seen_at]; [GREATEST] passes over nulls. *)
Definition agent_seen_at (agent_id : string) (saved : option Z) (t : AgentTables) : option Z :=
  match saved, snd <$> find (fun p => String.eqb p.1 agent_id) (agent_presence t) with
  | Some a, Some b => Some (Z.max a b)
  | Some a, None => Some a
  | None, seen => seen
  end.

(** ** Imported hosts *)

Record HostImport := {
  ih_install_id : string;
  ih_claimed_agent_id : option string;
  ih_hostname : option string;
  ih_scanner_version : string;
  ih_seen_at : Z;
}.

Definition imported_agent (h : HostImport) (now : Z) : AgentRow :=
  {| ag_id := "import." +:+ ih_install_id h; ag_status := SImported; ag_enrolled_at := now; ag_revoked_at := None;
     ag_last_seen_at := Some (ih_seen_at h); ag_scanner_version := Some (ih_scanner_version h); ag_capabilities := [];
     ag_hostname := ih_hostname h; ag_last_address := None; ag_health := None; ag_health_previous := None;
     ag_health_at := None; ag_hardening_facts_ok_at := None; ag_claimed_agent_id := ih_claimed_agent_id h |}.

(** The update of a host imported before: labels come from the newest file.  A stored null time is
    never the case of an imported row. *)
Definition imported_again (h : HostImport) (a : AgentRow) : AgentRow :=
  let newest := match ag_last_seen_at a with Some at_ => at_ <=? ih_seen_at h | None => false end in
  {| ag_id := ag_id a; ag_status := ag_status a; ag_enrolled_at := ag_enrolled_at a; ag_revoked_at := ag_revoked_at a;
     ag_last_seen_at := Some (match ag_last_seen_at a with Some at_ => Z.max at_ (ih_seen_at h) | None => ih_seen_at h end);
     ag_scanner_version := if newest then Some (ih_scanner_version h) else ag_scanner_version a;
     ag_capabilities := ag_capabilities a;
     ag_hostname := if newest then ih_hostname h else ag_hostname a;
     ag_last_address := ag_last_address a; ag_health := ag_health a; ag_health_previous := ag_health_previous a;
     ag_health_at := ag_health_at a; ag_hardening_facts_ok_at := ag_hardening_facts_ok_at a;
     ag_claimed_agent_id := if newest then ih_claimed_agent_id h else ag_claimed_agent_id a |}.

Definition upsert_host (h : HostImport) (now : Z) (t : AgentTables) : option (string * AgentTables) :=
  let id := "import." +:+ ih_install_id h in
  match agent_of id t with
  | Some a => if decide (ag_status a = SImported) then Some (id, update_agent id (imported_again h) t) else None
  | None => t' ← insert_agent (imported_agent h now) t; Some (id, t')
  end.
