(* ===== verification/AgentOps.v ===== *)
(** * Agents: enrolling and renewing (openvibes-ingest/src/enroll.rs and
      platform-agent-server/src/auth.rs)

    A handler awaits the database between its statements, so a handler is a machine: a stage, and a
    step that runs one statement.  [db_ok] says whether the database answers at that step. *)
From S2P Require Import Prelude RustStd Text Json SignData AgentServer AgentDb.
From stdpp Require Import prelude strings list.
From Stdlib Require Import Ascii ZArith Lia.

Open Scope Z_scope.

(** The answer of [enroll] and [renew]: the identity with its expiry in milliseconds, or an error. *)
Inductive Reply := Issued (agent_id : string) (chain : list string) (expires_at_unix_ms : Z) | Failed (e : ApiError).

Section handlers.
Context (pki : Pki) (cc : ChainCodec).
(** [Identifier::new] of the protocol's crate: what an identifier may be. *)
Context (identifier : string -> bool).
(** The issuer and the configured days of a client certificate. *)
Context (issuer : Issuer) (client_certificate_days : Z).

Definition respond (i : Identity) : Reply :=
  if identifier (id_agent i) then Issued (id_agent i) (id_chain i) (id_not_after i / 1000) else Failed Unavailable.

(** [issue]: every error is a failed query. *)
Definition issue (csr : CheckedCsr) (now : Z) (random : option (list Z)) (agent_id : string) : option IssuedCert :=
  match issue_client pki issuer csr agent_id now client_certificate_days random with inr cert => Some cert | inl _ => None end.

(** ** Enrolling *)

(** The parsed body, the times of the handler and of the certificate, and the randomness. *)
Record EnrollRequest := {
  er_body : option (string * string);
  er_now : Z;
  er_issued_at : Z;
  er_uuid : string;
  er_random : option (list Z);
}.

Inductive EnrollStage :=
  | ELookup (hash : list Z) (csr_pem : string)
  | ETransaction (token_id : string) (csr : CheckedCsr)
  | EEnd (reply : Reply).

Definition enroll_start (r : EnrollRequest) : EnrollStage :=
  match er_body r with
  | None => EEnd (Failed BadRequest)
  | Some (token, csr_pem) =>
      match enrollment_token_sha256 pki token with
      | None => EEnd (Failed Unauthorized)
      | Some hash => ELookup hash csr_pem
      end
  end.

Definition seen_valid (now : Z) (k : TokenSeen) : bool := negb (ts_revoked k) && (ts_standing k || (now <? ts_expires_at k)).

Definition enrolled_reply (e : Enrolled) : Reply :=
  match e with
  | New i | Existing i => respond i
  | Exhausted | TokenInvalid | AgentRevoked => Failed Unauthorized
  end.

Definition enroll_step (db_ok : bool) (r : EnrollRequest) (st : EnrollStage) (t : AgentTables) : EnrollStage * AgentTables :=
  match st with
  | EEnd _ => (st, t)
  | ELookup hash csr_pem =>
      if negb db_ok then (EEnd (Failed Unavailable), t)
      else match token_by_hash hash t with
      | Some k =>
          if negb (seen_valid (er_now r) k) then (EEnd (Failed Unauthorized), t)
          else match check_csr pki csr_pem with
          | inl _ => (EEnd (Failed BadRequest), t)
          | inr csr => (ETransaction (ts_id k) csr, t)
          end
      | None => (EEnd (Failed Unauthorized), t)
      end
  | ETransaction token_id csr =>
      if negb db_ok then (EEnd (Failed Unavailable), t)
      else match enroll cc token_id (checked_spki_sha256 csr) (er_now r) (er_uuid r) (issue csr (er_issued_at r) (er_random r)) t with
      | None => (EEnd (Failed Unavailable), t)
      | Some (e, t') => (EEnd (enrolled_reply e), t')
      end
  end.

(** ** Who is calling *)

(** [AuthenticatedAgent]: the certificate's check, at the time the check is made. *)
Definition authenticated (leaf : option Leaf) (now : Z) (t : AgentTables) : ApiError + string :=
  match leaf with
  | None => inl Unauthorized
  | Some l =>
      match leaf_identity l with
      | None => inl Unauthorized
      | Some (serial, spki) =>
          match authenticate serial spki t with
          | Active agent_id => if currently_valid l now then inr agent_id else inl Unauthorized
          | RevokedAgent => inl Revoked
          | Unknown => inl Unauthorized
          end
      end
  end.

(** ** Renewing *)

Record RenewRequest := {
  rr_leaf : option Leaf;
  rr_body : option string;
  rr_checked_at : Z;
  rr_now : Z;
  rr_issued_at : Z;
  rr_random : option (list Z);
}.

Inductive RenewStage :=
  | RAuthenticate
  | RInsert (agent_id : string) (cert : IssuedCert)
  | REnd (reply : Reply).

(** After the caller is known: the body, the request's check and the certificate. *)
Definition renew_checked (r : RenewRequest) (agent_id : string) : RenewStage :=
  match rr_body r with
  | None => REnd (Failed BadRequest)
  | Some csr_pem =>
      match check_csr pki csr_pem with
      | inl _ => REnd (Failed BadRequest)
      | inr csr =>
          match issue csr (rr_issued_at r) (rr_random r) agent_id with
          | None => REnd (Failed Unavailable)
          | Some cert => RInsert agent_id cert
          end
      end
  end.

Definition renew_step (db_ok : bool) (r : RenewRequest) (st : RenewStage) (t : AgentTables) : RenewStage * AgentTables :=
  match st with
  | REnd _ => (st, t)
  | RAuthenticate =>
      if negb db_ok then (REnd (Failed (match rr_leaf r with
                                        | Some {| leaf_identity := Some _ |} => Unavailable
                                        | _ => Unauthorized end)), t)
      else match authenticated (rr_leaf r) (rr_checked_at r) t with
      | inl e => (REnd (Failed e), t)
      | inr agent_id => (renew_checked r agent_id, t)
      end
  | RInsert agent_id cert =>
      if negb db_ok then (REnd (Failed Unavailable), t)
      else match add_certificate cc agent_id cert (rr_now r) t with
      | None => (REnd (Failed Unavailable), t)
      | Some t' => (REnd (respond {| id_agent := agent_id; id_chain := ic_chain_pem cert; id_not_after := ic_not_after cert |}), t')
      end
  end.
End handlers.

(** ** The console's requests on tokens and agents
      (openvibes-console/src/hosts/enrollment.rs, agents.rs)

    [caller] is what [authenticated_permission] answers: the scope and the person, or the status and
    the code of a refusal. *)

Definition idempotency_key (h : Headers) : option string :=
  v ← header h "idempotency-key"; key ← to_str v;
  if (16 <=? str_len key) && (str_len key <=? 128) && forallb (fun b => (33 <=? b) && (b <=? 126)) (bytes key)
  then Some key else None.

Record CreateEnrollmentTokenRequest := { cq_expires_in_hours : Z; cq_max_uses : Z; cq_label : option string }.

Definition settings_valid (q : CreateEnrollmentTokenRequest) : bool :=
  (1 <=? cq_expires_in_hours q) && (cq_expires_in_hours q <=? 8760) && (1 <=? cq_max_uses q) && (cq_max_uses q <=? 100000)
  && match cq_label q with
     | Some label => (char_count label <=? 128) && negb (existsb is_control (chars label)) | None => true end.

Inductive Console :=
  | Problem (status : Z) (code : string)
  | TokenCreated (token_id token : string) (expires_at : Z)
  | TokenReplayed (token_id : string) (expires_at : Z)
  | Done.

Definition unavailable_auth : Console := Problem 503 "authentication_unavailable".
Definition permission_refused : Console := Problem 403 "permission_denied".
Definition HOUR : Z := 3600 * 1000000.

(** [json] is the text of the settings, which the digest of the request is taken over; [secret] the
    random bytes, [token_id] the database's. *)
Definition create_authenticated_enrollment_token (cr : Crypto) (tt : TimeText) (json : CreateEnrollmentTokenRequest -> list Z)
    (h : Headers) (q : CreateEnrollmentTokenRequest) (caller : (Z * string) + (AgentScope * string)) (secret : option (list Z))
    (db_ok : bool) (now : Z) (token_id : string) (t : AgentTables) : Console * AgentTables :=
  match idempotency_key h with
  | None => (Problem 400 "idempotency_key_required", t)
  | Some key =>
      if negb (settings_valid q) then (Problem 400 "invalid_enrollment_token", t)
      else match caller with
      | inl (status, code) => (Problem status code, t)
      | inr (AssetGroups _, _) => (permission_refused, t)
      | inr (ScopeGlobal, actor) =>
          match secret with
          | None => (unavailable_auth, t)
          | Some secret =>
              let expires_at := now + cq_expires_in_hours q * HOUR in
              match (if negb db_ok then None else create_enrollment_token tt
                  {| ct_secret_sha256 := sha256 cr secret; ct_label := cq_label q; ct_actor_id := actor; ct_now := now;
                     ct_expires_at := expires_at; ct_max_uses := cq_max_uses q;
                     ct_idempotency_key_sha256 := sha256 cr (bytes key); ct_request_sha256 := sha256 cr (json q) |} token_id t) with
              | None => (unavailable_auth, t)
              | Some (Created id, t') => (TokenCreated id (base64_encode cr secret) expires_at, t')
              | Some (Replayed id expires, t') => (TokenReplayed id expires, t')
              | Some (Conflict, t') => (Problem 409 "idempotency_conflict", t')
              end
          end
      end
  end.

Definition revoke_authenticated_enrollment_token (token_id : string)
    (caller : (Z * string) + (AgentScope * string)) (db_ok : bool) (now : Z) (t : AgentTables) : Console * AgentTables :=
  if negb (valid_uuid token_id) then (Problem 404 "token_not_found", t)
  else match caller with
  | inl (status, code) => (Problem status code, t)
  | inr (AssetGroups _, _) => (permission_refused, t)
  | inr (ScopeGlobal, actor) =>
      if negb db_ok then (unavailable_auth, t)
      else match revoke_enrollment_token token_id actor now t with
      | (true, t') => (Done, t')
      | (false, t') => (Problem 404 "token_not_found", t')
      end
  end.

Definition valid_agent_id (value : string) : bool :=
  negb (is_empty value) && (str_len value <=? 256) && negb (existsb is_control (chars value)).

Definition revoke_authenticated_agent (agent_id reason : string) (caller : (Z * string) + (AgentScope * string)) (db_ok : bool) (now : Z)
    (t : AgentTables) : Console * AgentTables :=
  if negb (valid_agent_id agent_id) || is_empty (Text.trim reason) || (500 <? char_count reason)
     || existsb is_control (chars reason)
  then (Problem 400 "invalid_revoke_reason", t)
  else match caller with
  | inl (status, code) => (Problem status code, t)
  | inr (scope, actor) =>
      if negb db_ok then (unavailable_auth, t)
      else match revoke_in_scope agent_id scope actor (Text.trim reason) now t with
      | (RevokedNow, t') | (AlreadyRevoked, t') => (Done, t')
      | (UnknownAgent, t') => (Problem 404 "agent_not_found", t')
      | (ImportedHost, t') => (Problem 409 "imported_host_cannot_be_revoked", t')
      end
  end.
