(* ===== verification/AgentInv.v ===== *)
(** * Agents: what every statement keeps

    [inv] is the invariant of the tables: the keys, every use of a token with its agent and its
    certificate, no token used more often than it allows.  [grew] is what a run can only do: certificates
    and uses stay, an agent never comes back from being revoked, nor a token. *)
From S2P Require Import Prelude RustStd Text Json SignData AgentServer AgentDb AgentOps.
From stdpp Require Import prelude strings list.
From Stdlib Require Import Ascii ZArith Lia.

Open Scope Z_scope.

(** ** Finding rows *)

Lemma find_none_not_in {A} (p : A -> bool) l x : find p l = None -> In x l -> p x = false.
Proof. intros H Hx. by eapply find_none in H. Qed.

Lemma bytes_eqb_eq a b : bytes_eqb a b = true <-> a = b.
Proof. unfold bytes_eqb. by rewrite bool_decide_eq_true. Qed.
Lemma bytes_eqb_refl a : bytes_eqb a a = true.
Proof. by apply bytes_eqb_eq. Qed.

Lemma agent_of_some id t a : agent_of id t = Some a -> In a (agents t) /\ ag_id a = id.
Proof. intros [Hin E]%find_some. by apply String.eqb_eq in E. Qed.
Lemma agent_of_none id t a : is_some (agent_of id t) = false -> In a (agents t) -> ag_id a <> id.
Proof.
  unfold agent_of. destruct (find _ _) eqn:E; [done|]. intros _ Hin <-. eapply find_none_not_in in E; [|exact Hin].
  by rewrite String.eqb_refl in E.
Qed.
Lemma certificate_of_some s t c : certificate_of s t = Some c -> In c (certificates t) /\ ce_serial c = s.
Proof. intros [Hin E]%find_some. by apply bytes_eqb_eq in E. Qed.
Lemma certificate_of_none s t c : is_some (certificate_of s t) = false -> In c (certificates t) -> ce_serial c <> s.
Proof.
  unfold certificate_of. destruct (find _ _) eqn:E; [done|]. intros _ Hin <-. eapply find_none_not_in in E; [|exact Hin].
  by rewrite bytes_eqb_refl in E.
Qed.
Lemma token_of_some id t k : token_of id t = Some k -> In k (enrollment_tokens t) /\ tk_id k = id.
Proof. intros [Hin E]%find_some. by apply String.eqb_eq in E. Qed.

(** A row with the key looked for is the row found. *)
Lemma filter_none {A} (p : A -> bool) l : (forall x, In x l -> p x = false) -> List.filter p l = [].
Proof.
  induction l as [|x l IH]; simpl; [done|]. intros Hp. rewrite Hp by (by left). apply IH. intros y Hy. apply Hp. by right.
Qed.

Lemma find_unique {A B} (key : A -> B) (p : A -> bool) l x :
  (forall y, In y l -> p y = true -> key y = key x) -> NoDup (map key l) -> In x l -> p x = true -> find p l = Some x.
Proof.
  intros Hp Hnd Hin Hx. destruct (find p l) as [y|] eqn:E.
  - apply find_some in E as [Hy Ey]. f_equal. by eapply (NoDup_map_inj key); [..|apply Hp].
  - eapply find_none_not_in in E; [|exact Hin]. congruence.
Qed.

Lemma NoDup_map_snoc {A B} (key : A -> B) l x :
  NoDup (map key l) -> (forall y, In y l -> key y <> key x) -> NoDup (map key (l ++ [x])).
Proof.
  intros Hl Hx. rewrite map_app. apply NoDup_snoc; [done|]. intros (y & Ey & Hy)%list_elem_of_In%in_map_iff. by apply (Hx y).
Qed.

Lemma in_snoc {A} (x y : A) l : In x (l ++ [y]) <-> In x l \/ x = y.
Proof. rewrite in_app_iff. simpl. naive_solver. Qed.

(** ** What can only grow *)

Definition follows_agent (a a' : AgentRow) : Prop :=
  ag_id a' = ag_id a /\ ag_enrolled_at a' = ag_enrolled_at a
  /\ (ag_status a' = ag_status a \/ (ag_status a = SActive /\ ag_status a' = SRevoked)).
Definition follows_token (k k' : TokenRow) : Prop :=
  tk_id k' = tk_id k /\ tk_sha256 k' = tk_sha256 k /\ tk_expires_at k' = tk_expires_at k /\ tk_max_uses k' = tk_max_uses k
  /\ tk_standing k' = tk_standing k /\ (tk_revoked_at k = None \/ tk_revoked_at k' = tk_revoked_at k).

Record grew (t t' : AgentTables) : Prop := {
  gr_agents : forall a, In a (agents t) -> exists a', In a' (agents t') /\ follows_agent a a';
  gr_tokens : forall k, In k (enrollment_tokens t) -> exists k', In k' (enrollment_tokens t') /\ follows_token k k';
  gr_certificates : forall c, In c (certificates t) -> In c (certificates t');
  gr_uses : forall u, In u (token_uses t) -> In u (token_uses t');
}.

Lemma follows_agent_refl a : follows_agent a a.
Proof. split_and!; auto. Qed.
Lemma follows_token_refl k : follows_token k k.
Proof. split_and!; auto. Qed.
Lemma follows_agent_trans a b c : follows_agent a b -> follows_agent b c -> follows_agent a c.
Proof. intros (? & ? & ?) (? & ? & ?). split_and!; [congruence..|]. naive_solver congruence. Qed.
Lemma follows_token_trans a b c : follows_token a b -> follows_token b c -> follows_token a c.
Proof. intros (? & ? & ? & ? & ? & ?) (? & ? & ? & ? & ? & ?). split_and!; [congruence..|]. naive_solver congruence. Qed.

#[export] Instance grew_preorder : PreOrder grew.
Proof.
  split.
  - intros t. split; eauto using follows_agent_refl, follows_token_refl.
  - intros t1 t2 t3 [A1 B1 C1 D1] [A2 B2 C2 D2]. split; [| |auto..].
    + intros a (a' & Ha' & Fa)%A1. apply A2 in Ha' as (a2 & Ha2 & Fa2). eauto using follows_agent_trans.
    + intros k (k' & Hk' & Fk)%B1. apply B2 in Hk' as (k2 & Hk2 & Fk2). eauto using follows_token_trans.
Qed.

(** ** The invariant *)

Record inv (t : AgentTables) : Prop := {
  inv_agents : NoDup (map ag_id (agents t));
  inv_serials : NoDup (map ce_serial (certificates t));
  inv_tokens : NoDup (map tk_id (enrollment_tokens t));
  inv_hashes : NoDup (map tk_sha256 (enrollment_tokens t));
  inv_use_keys : NoDup (map (fun u => (us_token u, us_spki u)) (token_uses t));
  inv_use_agents : NoDup (map us_agent (token_uses t));
  inv_uses : forall u, In u (token_uses t) ->
    (exists k, In k (enrollment_tokens t) /\ tk_id k = us_token u)
    /\ (exists a, In a (agents t) /\ ag_id a = us_agent u /\ ag_status a <> SImported)
    /\ (exists c, In c (certificates t) /\ ce_serial c = us_serial u /\ ce_agent c = us_agent u /\ ce_spki c = us_spki u);
  inv_certificates : forall c, In c (certificates t) -> exists u, In u (token_uses t) /\ us_agent u = ce_agent c;
  inv_bounded : forall k, In k (enrollment_tokens t) -> tk_standing k = false -> uses_of (tk_id k) t <= tk_max_uses k;
  inv_standing : (length (List.filter live (enrollment_tokens t)) <= 1)%nat;
}.

Definition kept (t t' : AgentTables) : Prop := inv t -> inv t' /\ grew t t'.

Lemma kept_then t1 t2 t3 : kept t1 t2 -> kept t2 t3 -> kept t1 t3.
Proof. intros H1 H2 Hi. destruct (H1 Hi) as [Hi2 G1]. destruct (H2 Hi2) as [Hi3 G2]. split; [done|by etrans]. Qed.

(** The tables of identities. *)
Definition core (t : AgentTables) := (agents t, certificates t, enrollment_tokens t, token_uses t).

Lemma kept_core t t' : core t' = core t -> kept t t'.
Proof.
  intros [= Ea Ec Ek Eu] Hi. split.
  - destruct Hi. split; rewrite ?Ea, ?Ec, ?Ek, ?Eu; try done. intros k Hk Hs. unfold uses_of in *. rewrite Eu. auto.
  - split; rewrite ?Ea, ?Ec, ?Ek, ?Eu; eauto using follows_agent_refl, follows_token_refl.
Qed.
Lemma kept_refl t : kept t t.
Proof. by apply kept_core. Qed.

Lemma map_same {A B} (key : A -> B) (f : A -> A) l : (forall x, key (f x) = key x) -> map key (map f l) = map key l.
Proof. intros H. rewrite map_map. by apply map_ext. Qed.

(** ** Updates of rows *)

Lemma kept_agents f t : (forall a, In a (agents t) -> follows_agent a (f a)) -> kept t (set_agents (map f) t).
Proof.
  intros Hf Hi. split.
  - destruct Hi. split; simpl; try done.
    + rewrite map_map, (map_ext_in _ ag_id); [done|]. intros a Ha. by apply Hf.
    + intros u Hu. destruct (inv_uses0 u Hu) as (Hk & (a & Ha & Ei & Es) & Hc). split_and!; try done.
      exists (f a). split; [by apply in_map|]. destruct (Hf a Ha) as (-> & _ & Hs). split; [done|].
      destruct Hs as [->|[_ ->]]; done.
  - split; simpl; eauto using follows_token_refl. intros a Ha. exists (f a). split; [by apply in_map|auto].
Qed.

Lemma filter_map_length {A} (p : A -> bool) f l : (forall x, p (f x) = true -> p x = true) ->
  (length (List.filter p (map f l)) <= length (List.filter p l))%nat.
Proof. intros H. induction l as [|x l IH]; simpl; [done|]. destruct (p (f x)) eqn:E, (p x) eqn:E'; simpl; try lia. by rewrite H in E'. Qed.

Lemma kept_tokens f t : (forall k, follows_token k (f k)) -> kept t (set_tokens (map f) t).
Proof.
  intros Hf Hi. split.
  - destruct Hi. split; simpl; try done.
    + rewrite map_same; [done|]. intros k. apply Hf.
    + rewrite map_same; [done|]. intros k. apply Hf.
    + intros u Hu. destruct (inv_uses0 u Hu) as ((k & Hk & Ek) & Ha & Hc). split_and!; try done.
      exists (f k). split; [by apply in_map|]. by destruct (Hf k) as (-> & _).
    + intros k' (k & <- & Hk)%in_map_iff Hs. destruct (Hf k) as (Ei & _ & _ & -> & Es & _). rewrite Ei. apply inv_bounded0; congruence.
    + etrans; [apply filter_map_length|done]. intros k. unfold live. destruct (Hf k) as (_ & _ & _ & _ & -> & [Hn| ->]); [|done].
      rewrite Hn. by destruct (tk_standing k).
  - split; simpl; eauto using follows_agent_refl. intros k Hk. exists (f k). split; [by apply in_map|done].
Qed.

(** ** New rows *)

Lemma kept_insert_agent a t t' : insert_agent a t = Some t' -> kept t t'.
Proof.
  unfold insert_agent. case_match eqn:E; [done|]. intros [= <-] Hi. bprop. split.
  - destruct Hi. split; simpl; try done.
    + apply NoDup_map_snoc; [done|]. intros y Hy. by eapply agent_of_none.
    + intros u Hu. destruct (inv_uses0 u Hu) as (Hk & (a' & Ha' & Ea) & Hc). split_and!; try done.
      exists a'. rewrite in_snoc. auto.
  - split; simpl; eauto using follows_token_refl. intros a' Ha'. exists a'. rewrite in_snoc. auto using follows_agent_refl.
Qed.

Lemma token_clash k t :
  existsb (fun k' => String.eqb (tk_id k') (tk_id k) || bytes_eqb (tk_sha256 k') (tk_sha256 k)) (enrollment_tokens t) = false ->
  forall k', In k' (enrollment_tokens t) -> tk_id k' <> tk_id k /\ tk_sha256 k' <> tk_sha256 k.
Proof.
  intros H k' Hk'. split; intros E; apply not_true_iff_false in H; apply H, existsb_exists; exists k'; split; [done| |done|];
    rewrite E, ?String.eqb_refl, ?bytes_eqb_refl; [done|apply orb_true_r].
Qed.

Lemma uses_of_fresh id t : inv t -> (forall k, In k (enrollment_tokens t) -> tk_id k <> id) -> uses_of id t = 0.
Proof.
  intros Hi Hk. unfold uses_of. destruct (List.filter _ _) as [|u l] eqn:E; [done|].
  assert (In u (token_uses t) /\ us_token u = id) as [Hu Eu].
  { assert (In u (u :: l)) as H by (by left). rewrite <- E in H. apply filter_In in H as [H1 H2]. by apply String.eqb_eq in H2. }
  destruct (inv_uses t Hi u Hu) as ((k & Hin & Ek) & _). exfalso. apply (Hk k Hin). congruence.
Qed.

Lemma kept_insert_token k t t' :
  (live k = false \/ existsb live (enrollment_tokens t) = false) -> insert_token k t = Some t' -> kept t t'.
Proof.
  intros Hl. unfold insert_token. case_match eqn:E; [done|]. intros [= <-] Hi. bprop.
  pose proof (token_clash k t ltac:(done)) as Hc. split.
  - destruct Hi as []. assert (inv t) as Hi by done. split; simpl; try done.
    + apply NoDup_map_snoc; [done|]. apply Hc.
    + apply NoDup_map_snoc; [done|]. apply Hc.
    + intros u Hu. destruct (inv_uses0 u Hu) as ((k' & Hk' & Ek) & Ha & Hc'). split_and!; try done.
      exists k'. rewrite in_snoc. auto.
    + intros k' Hk' Hs. change (uses_of (tk_id k') (set_tokens _ t)) with (uses_of (tk_id k') t).
      apply in_snoc in Hk' as [Hk'|<-]; [auto|]. rewrite uses_of_fresh; [lia|done|apply Hc].
    + rewrite List.filter_app, length_app. simpl. destruct Hl as [-> | Hl]; [simpl; lia|].
      replace (List.filter live (enrollment_tokens t)) with (@nil TokenRow); [destruct (live k); simpl; lia|].
      clear -Hl. induction (enrollment_tokens t) as [|y l IH]; simpl in *; [done|]. bprop. by rewrite H, <- IH.
  - split; simpl; eauto using follows_agent_refl. intros k' Hk'. exists k'. rewrite in_snoc. auto using follows_token_refl.
Qed.

Lemma insert_certificate_some cc id cert now t t' : insert_certificate cc id cert now t = Some t' ->
  exists chain, chain_json cc (ic_chain_pem cert) = Some chain /\ is_some (certificate_of (ic_serial cert) t) = false
  /\ is_some (agent_of id t) = true
  /\ t' = add_certificate_row {| ce_serial := ic_serial cert; ce_agent := id; ce_spki := ic_spki_sha256 cert;
                                 ce_not_before := ic_not_before cert; ce_not_after := ic_not_after cert;
                                 ce_issued_at := now; ce_chain := chain |} t.
Proof.
  unfold insert_certificate. destruct (chain_json _ _) as [chain|]; [|done]. simpl. case_match eqn:E; [done|].
  intros [= <-]. bprop. by exists chain.
Qed.

(** A certificate for an agent that enrolled. *)
Lemma kept_insert_certificate cc id cert now t t' u :
  In u (token_uses t) -> us_agent u = id -> insert_certificate cc id cert now t = Some t' -> kept t t'.
Proof.
  intros Hu Eu (chain & _ & Hs & _ & ->)%insert_certificate_some Hi. split.
  - destruct Hi. split; simpl; try done.
    + apply NoDup_map_snoc; [done|]. intros y Hy. by eapply certificate_of_none.
    + intros u' Hu'. destruct (inv_uses0 u' Hu') as (Hk & Ha & (c & Hc & Ec)). split_and!; try done.
      exists c. rewrite in_snoc. auto.
    + intros c [Hc| ->]%in_snoc; [auto|]. by exists u.
  - split; simpl; eauto using follows_agent_refl, follows_token_refl. intros c Hc. rewrite in_snoc. auto.
Qed.

(** A new enrollment: the rows of it, and why the token allows it. *)
Lemma record_enrollment_some cc token_id spki now agent_id cert t t' :
  record_enrollment cc token_id spki now agent_id cert t = Some t' ->
  is_some (agent_of agent_id t) = false /\ is_some (certificate_of (ic_serial cert) t) = false
  /\ (forall u, In u (token_uses t) -> (us_token u, us_spki u) <> (token_id, spki))
  /\ (exists k, In k (enrollment_tokens t) /\ tk_id k = token_id)
  /\ agents t' = agents t ++ [new_agent agent_id now]
  /\ enrollment_tokens t' = enrollment_tokens t
  /\ token_uses t' = token_uses t ++ [{| us_token := token_id; us_spki := spki; us_agent := agent_id;
                                         us_serial := ic_serial cert; us_used_at := now |}]
  /\ exists chain, chain_json cc (ic_chain_pem cert) = Some chain
     /\ certificates t' = certificates t ++ [{| ce_serial := ic_serial cert; ce_agent := agent_id; ce_spki := ic_spki_sha256 cert;
                                               ce_not_before := ic_not_before cert; ce_not_after := ic_not_after cert;
                                               ce_issued_at := now; ce_chain := chain |}].
Proof.
  unfold record_enrollment. destruct (insert_agent _ t) as [t1|] eqn:E1; [|done]. simpl.
  destruct (insert_certificate _ _ _ _ t1) as [t2|] eqn:E2; [|done]. simpl.
  destruct (insert_use _ t2) as [t3|] eqn:E3; [|done]. simpl. intros [= <-].
  unfold insert_agent in E1. case_match eqn:C1; [done|]. injection E1 as <-. bprop.
  apply insert_certificate_some in E2 as (chain & Ech & Hs & _ & ->).
  unfold insert_use in E3. case_match eqn:C3; [done|]. injection E3 as <-. bprop. simpl in *.
  split_and!; try done.
  - intros u Hu [= E1 E2]. match goal with H : existsb _ _ = false |- _ => apply not_true_iff_false in H; apply H end.
    apply existsb_exists. exists u. split; [done|]. by rewrite E1, E2, String.eqb_refl, bytes_eqb_refl.
  - match goal with H : is_some (token_of _ _) = true |- _ => unfold token_of in H; simpl in H end.
    destruct (find _ (enrollment_tokens t)) as [k|] eqn:Ek; [|done]. exists k. by apply token_of_some.
  - by exists chain.
Qed.

Lemma uses_of_snoc id u t t' : token_uses t' = token_uses t ++ [u] ->
  uses_of id t' = uses_of id t + (if String.eqb (us_token u) id then 1 else 0).
Proof.
  intros E. unfold uses_of. rewrite E, List.filter_app, length_app. simpl. case_match; simpl; lia.
Qed.

Lemma kept_enrollment cc token_id spki now agent_id cert t t' :
  ic_spki_sha256 cert = spki ->
  (forall k, In k (enrollment_tokens t) -> tk_id k = token_id -> tk_standing k = false -> uses_of token_id t < tk_max_uses k) ->
  record_enrollment cc token_id spki now agent_id cert t = Some t' -> kept t t'.
Proof.
  intros Espki Hmax (Ha & Hs & Hu & Hk & Ea & Ek & Eu & chain & _ & Ec)%record_enrollment_some Hi. split.
  - destruct Hi. split; rewrite ?Ea, ?Ek, ?Eu, ?Ec; try done.
    + apply NoDup_map_snoc; [done|]. intros y Hy. by eapply agent_of_none.
    + apply NoDup_map_snoc; [done|]. intros y Hy. by eapply certificate_of_none.
    + apply NoDup_map_snoc; [done|]. simpl. intros u H. by apply Hu.
    + apply NoDup_map_snoc; [done|]. simpl. intros u (_ & (a & Hin & <- & _) & _)%inv_uses0. by eapply agent_of_none.
    + intros u [H| ->]%in_snoc.
      * destruct (inv_uses0 u H) as (Hk' & (a & Hin & Ei) & (c & Hc & Ei')). split_and!; [done|exists a|exists c];
          rewrite in_snoc; auto.
      * split_and!; [done|eexists; rewrite in_snoc; auto..].
    + intros c [Hc| ->]%in_snoc.
      * destruct (inv_certificates0 c Hc) as (u & H & E). exists u. rewrite in_snoc. auto.
      * eexists. rewrite in_snoc. auto.
    + intros k Hin Hst. rewrite (uses_of_snoc _ _ _ _ Eu). simpl. case_match eqn:E; [|rewrite Z.add_0_r; auto].
      apply String.eqb_eq in E. specialize (Hmax k Hin (eq_sym E) Hst). rewrite <- E. lia.
  - split; rewrite ?Ea, ?Ek, ?Eu, ?Ec; eauto using follows_token_refl.
    + intros a H. exists a. rewrite in_snoc. auto using follows_agent_refl.
    + intros c H. rewrite in_snoc. auto.
    + intros u H. rewrite in_snoc. auto.
Qed.

(** The token a new enrollment used, at that moment. *)
Lemma enroll_new cc token_id spki now uuid issue t i t' : inv t ->
  enroll cc token_id spki now uuid issue t = Some (New i, t') ->
  id_agent i = "agent." +:+ uuid /\ use_of token_id spki t = []
  /\ (exists k, In k (enrollment_tokens t) /\ tk_id k = token_id /\ token_valid now k = true
      /\ (tk_standing k = true \/ uses_of token_id t < tk_max_uses k))
  /\ exists cert, issue (id_agent i) = Some cert /\ record_enrollment cc token_id spki now (id_agent i) cert t = Some t'
     /\ id_chain i = ic_chain_pem cert /\ id_not_after i = ic_not_after cert.
Proof.
  intros Hi. unfold enroll. destruct (use_of _ _ t) as [|[[u c] a] [|]] eqn:Eu; simpl;
    [|case_match; [done|]; by destruct (chain_from_json _ _)|done].
  destruct (token_of _ t) as [k|] eqn:Ek; simpl; [|done]. apply token_of_some in Ek as [Hk Ei].
  destruct (negb (token_valid now k)) eqn:Ev; [done|]. destruct (negb (tk_standing k) && _) eqn:Em; [done|].
  destruct (issue _) as [cert|] eqn:Ec; simpl; [|done]. destruct (record_enrollment _ _ _ _ _ _ _) as [t1|] eqn:Er; simpl; [|done].
  intros [= <- <-]. simpl. apply negb_false_iff in Ev. split_and!; try done.
  - exists k. split_and!; try done. apply andb_false_iff in Em as [Em|Em]; [left; by apply negb_false_iff|right; lia].
  - by exists cert.
Qed.

(** Only a new enrollment writes. *)
Lemma enroll_cases cc token_id spki now uuid issue t e t' :
  enroll cc token_id spki now uuid issue t = Some (e, t') -> t' = t \/ exists i, e = New i.
Proof.
  unfold enroll. destruct (query_opt _) as [[[[u c] a]|]|]; simpl; try done.
  - case_match; [naive_solver|]. destruct (chain_from_json _ _); simpl; naive_solver.
  - destruct (token_of _ _); simpl; [|done]. case_match; [naive_solver|]. case_match; [naive_solver|].
    destruct (issue _); simpl; [|done]. destruct (record_enrollment _ _ _ _ _ _ _); simpl; naive_solver.
Qed.

Lemma enroll_kept cc token_id spki now uuid issue t e t' :
  (forall id cert, issue id = Some cert -> ic_spki_sha256 cert = spki) ->
  enroll cc token_id spki now uuid issue t = Some (e, t') -> kept t t'.
Proof.
  intros Hissue He Hi.
  pose proof (enroll_cases _ _ _ _ _ _ _ _ _ He) as [-> |[i ->]].
  - by apply kept_refl.
  - apply enroll_new in He as (_ & _ & (k & Hk & Ek & _ & Hm) & cert & Hc & Hr & _); [|done].
    eapply kept_enrollment; [by eapply Hissue| |exact Hr|done]. intros k' Hk' Ek' Hs.
    assert (k' = k) as -> by (eapply (NoDup_map_inj tk_id); [apply Hi|done..|congruence]).
    destruct Hm; [congruence|done].
Qed.

(** ** The other statements *)

Lemma create_kept n id now t t' : create n id now t = Some t' -> kept t t'.
Proof. apply kept_insert_token. by left. Qed.

Lemma create_standing_kept secret hash by_ id now t r t' : create_standing secret hash by_ id now t = Some (r, t') -> kept t t'.
Proof.
  unfold create_standing. case_match eqn:E; [intros [= _ <-]; apply kept_refl|].
  destruct (insert_token _ t) as [t1|] eqn:E1; [|done]. simpl. intros [= _ <-].
  eapply kept_then; [eapply kept_insert_token; [by right|exact E1]|by apply kept_core].
Qed.

Lemma revoke_row_kept id now t : kept t (revoke_row id now t).2.
Proof.
  unfold revoke_row. simpl. apply kept_tokens. intros k. unfold revocable. case_match eqn:E; [|apply follows_token_refl].
  bprop. split_and!; try done. left. by destruct (tk_revoked_at k).
Qed.

Lemma revoke_token_kept uuid_of id now t r t' : revoke_token uuid_of id now t = Some (r, t') -> kept t t'.
Proof.
  unfold revoke_token. destruct (uuid_of id) as [u|]; [|done]. simpl. intros [= E <-]. apply (revoke_row_kept u now).
Qed.

Lemma revoke_enrollment_token_kept id actor now t : kept t (revoke_enrollment_token id actor now t).2.
Proof.
  unfold revoke_enrollment_token. destruct (revoke_row id now t) as [changed t'] eqn:E. destruct changed; [|apply kept_refl].
  pose proof (revoke_row_kept id now t) as H. rewrite E in H. eapply kept_then; [exact H|by apply kept_core].
Qed.

Lemma create_enrollment_token_kept tt r id t c t' : create_enrollment_token tt r id t = Some (c, t') -> kept t t'.
Proof.
  unfold create_enrollment_token. destruct (query_opt _) as [[i|]|]; simpl; [| |done].
  - case_match; [intros [= _ <-]; apply kept_refl|]. destruct (from_rfc3339 _ _); simpl; [|done].
    intros [= _ <-]. apply kept_refl.
  - destruct (insert_token _ _) as [t2|] eqn:E; simpl; [|done]. case_match; [done|]. intros [= _ <-].
    eapply kept_then; [apply (kept_core t (forget_expired r t)); done|].
    eapply kept_then; [eapply kept_insert_token; [|exact E]; by left|by apply kept_core].
Qed.

Lemma follows_revoked now a : ag_status a = SActive -> follows_agent a (revoked_row now a).
Proof. intros H. split_and!; simpl; auto. Qed.

Lemma update_agent_kept id f t a : agent_of id t = Some a -> follows_agent a (f a) -> kept t (update_agent id f t).
Proof.
  intros [Hin Ei]%agent_of_some Hf Hi. apply kept_agents; [|done]. intros a' Ha'. case_match eqn:E; [|apply follows_agent_refl].
  apply String.eqb_eq in E. assert (a' = a) as -> by (eapply (NoDup_map_inj ag_id); [apply Hi|done..|congruence]). done.
Qed.

Lemma revoke_kept id now t : kept t (revoke id now t).2.
Proof.
  unfold revoke. destruct (agent_of id t) as [a|] eqn:E; [|apply kept_refl]. case_match; [|apply kept_refl].
  by eapply update_agent_kept, follows_revoked.
Qed.

Lemma revoke_in_scope_kept id scope actor reason now t : kept t (revoke_in_scope id scope actor reason now t).2.
Proof.
  unfold revoke_in_scope. destruct (agent_of id t) as [a|] eqn:E; [|apply kept_refl]. case_match; [apply kept_refl|].
  case_match; [|apply kept_refl]. eapply kept_then; [by eapply update_agent_kept, (follows_revoked now)|by apply kept_core].
Qed.

Lemma heartbeat_kept id b now t : kept t (heartbeat id b now t).2.
Proof.
  unfold heartbeat. simpl. set (f := fun a => if _ && _ then beaten now b a else a).
  apply (kept_then t (set_agents (map f) t)); [|by apply kept_core]. apply kept_agents. intros a _. unfold f.
  case_match; [|apply follows_agent_refl]. split_and!; auto.
Qed.

Lemma upsert_host_kept h now t id t' : upsert_host h now t = Some (id, t') -> kept t t'.
Proof.
  unfold upsert_host. destruct (agent_of _ t) as [a|] eqn:E.
  - case_match; [|done]. intros [= _ <-]. eapply update_agent_kept; [done|]. split_and!; auto.
  - destruct (insert_agent _ t) as [t1|] eqn:E1; simpl; [|done]. intros [= _ <-]. by eapply kept_insert_agent.
Qed.
