(* ===== verification/AgentProps.v ===== *)
(** * Agents: what every interleaving guarantees

    A world is the tables with the enrollments and renewals under way; a step runs one statement of
    one of them, or a whole transaction of the console, of the administrator or of a heartbeat.  An
    identity comes only from a token that allowed it; a revoked agent is out for good; a token gives
    one identity to a key, again and again. *)
From S2P Require Import Prelude RustStd Text Json SignData AgentServer AgentDb AgentOps AgentInv.
From stdpp Require Import prelude strings list relations.
From Stdlib Require Import Ascii ZArith Lia.

Open Scope Z_scope.

(** ** Worlds *)

Record World := {
  tables : AgentTables;
  enrolls : list (EnrollRequest * EnrollStage);
  renewals : list (RenewRequest * RenewStage);
}.

Definition at_tables (t : AgentTables) (w : World) : World :=
  {| tables := t; enrolls := enrolls w; renewals := renewals w |}.

Section world.
Context (pki : Pki) (cc : ChainCodec) (identifier : string -> bool) (issuer : Issuer) (days : Z).
Context (tt : TimeText) (uuid_of : string -> option string).

#[local] Notation enroll_step := (enroll_step pki cc identifier issuer days).
#[local] Notation renew_step := (renew_step pki cc identifier issuer days).

Inductive step (w : World) : World -> Prop :=
  | StepEnrollStart r :
      step w {| tables := tables w; enrolls := enrolls w ++ [(r, enroll_start pki r)]; renewals := renewals w |}
  | StepEnroll db_ok i r st st' t' : enrolls w !! i = Some (r, st) -> enroll_step db_ok r st (tables w) = (st', t') ->
      step w {| tables := t'; enrolls := <[i := (r, st')]> (enrolls w); renewals := renewals w |}
  | StepRenewStart r :
      step w {| tables := tables w; enrolls := enrolls w; renewals := renewals w ++ [(r, RAuthenticate)] |}
  | StepRenew db_ok i r st st' t' : renewals w !! i = Some (r, st) -> renew_step db_ok r st (tables w) = (st', t') ->
      step w {| tables := t'; enrolls := enrolls w; renewals := <[i := (r, st')]> (renewals w) |}
  | StepCreate n id now t' : create n id now (tables w) = Some t' -> step w (at_tables t' w)
  | StepStanding secret hash created_by id now r t' :
      create_standing secret hash created_by id now (tables w) = Some (r, t') -> step w (at_tables t' w)
  | StepRevokeToken id now r t' : revoke_token uuid_of id now (tables w) = Some (r, t') -> step w (at_tables t' w)
  | StepConsoleCreate r id c t' : create_enrollment_token tt r id (tables w) = Some (c, t') -> step w (at_tables t' w)
  | StepConsoleRevokeToken id actor_id now : step w (at_tables (revoke_enrollment_token id actor_id now (tables w)).2 w)
  | StepRevoke id now : step w (at_tables (revoke id now (tables w)).2 w)
  | StepRevokeInScope id scope actor_id reason now :
      step w (at_tables (revoke_in_scope id scope actor_id reason now (tables w)).2 w)
  | StepHeartbeat id b now : step w (at_tables (heartbeat id b now (tables w)).2 w)
  | StepImport h now id t' : upsert_host h now (tables w) = Some (id, t') -> step w (at_tables t' w).

(** The world a history starts from; [past P w]: [P] held in a world between the two. *)
Context (w0 : World).

Definition past (P : World -> Prop) : World -> Prop := since step (fun w => rtc step w0 w /\ P w).

Lemma past_now (P : World -> Prop) w w' : rtc step w0 w -> P w -> step w w' -> past P w'.
Proof. intros Hr HP. by apply since_now. Qed.
Lemma past_step P w w' : past P w -> step w w' -> past P w'.
Proof. apply since_step. Qed.

(** ** The past of a row and of a request *)

(** A token that is in the tables and valid, with a use left. *)
Definition allows (k : TokenRow) (now : Z) (t : AgentTables) : Prop :=
  In k (enrollment_tokens t) /\ token_valid now k = true
  /\ (tk_standing k = true \/ uses_of (tk_id k) t < tk_max_uses k).

(** What the body of an enrollment says: the token's row, and the checked request. *)
Definition presents (r : EnrollRequest) (k : TokenRow) (csr : CheckedCsr) : Prop :=
  exists token csr_pem, er_body r = Some (token, csr_pem)
  /\ enrollment_token_sha256 pki token = Some (tk_sha256 k) /\ check_csr pki csr_pem = inr csr.

Definition enrolled_in (id : string) (spki : list Z) (w : World) : Prop :=
  exists r k csr, presents r k csr /\ checked_spki_sha256 csr = spki /\ allows k (er_now r) (tables w)
  /\ agent_of id (tables w) = None.

(** The caller of a renewal, by an earlier certificate. *)
Definition renewed_in (id : string) (spki : list Z) (w : World) : Prop :=
  exists r csr_pem csr, authenticated (rr_leaf r) (rr_checked_at r) (tables w) = inr id
  /\ rr_body r = Some csr_pem /\ check_csr pki csr_pem = inr csr /\ checked_spki_sha256 csr = spki.

Definition origin (c : CertificateRow) (w : World) : Prop :=
  past (enrolled_in (ce_agent c) (ce_spki c)) w \/ past (renewed_in (ce_agent c) (ce_spki c)) w.

(** An identity handed out, as the tables hold it. *)
Definition handed_out (r : EnrollRequest) (id : string) (chain : list string) (expires : Z) (t : AgentTables) : Prop :=
  exists k csr u c, presents r k csr /\ In k (enrollment_tokens t)
  /\ In u (token_uses t) /\ us_token u = tk_id k /\ us_spki u = checked_spki_sha256 csr /\ us_agent u = id
  /\ In c (certificates t) /\ ce_serial c = us_serial u /\ chain_from_json cc (ce_chain c) = Some chain
  /\ expires = ce_not_after c / 1000 /\ identifier id = true.

Definition enroll_ok (r : EnrollRequest) (st : EnrollStage) (w : World) : Prop :=
  match st with
  | ELookup hash csr_pem => exists token, er_body r = Some (token, csr_pem) /\ enrollment_token_sha256 pki token = Some hash
  | ETransaction token_id csr => exists k, presents r k csr /\ In k (enrollment_tokens (tables w)) /\ tk_id k = token_id
  | EEnd (Issued id chain expires) => handed_out r id chain expires (tables w)
  | EEnd (Failed _) => True
  end.

Definition renew_ok (r : RenewRequest) (st : RenewStage) (w : World) : Prop :=
  match st with
  | RInsert id cert => past (renewed_in id (ic_spki_sha256 cert)) w
      /\ exists u, In u (token_uses (tables w)) /\ us_agent u = id
  | _ => True
  end.

Record winv (w : World) : Prop := {
  w_reached : rtc step w0 w;
  w_tables : inv (tables w);
  w_origin : forall c, In c (certificates (tables w)) -> origin c w;
  w_uses : forall u, In u (token_uses (tables w)) -> past (enrolled_in (us_agent u) (us_spki u)) w;
  w_enrolls : forall i r st, enrolls w !! i = Some (r, st) -> enroll_ok r st w;
  w_renewals : forall i r st, renewals w !! i = Some (r, st) -> renew_ok r st w;
}.

(** ** What a step keeps *)

Lemma presents_follows r k k' csr : follows_token k k' -> presents r k csr -> presents r k' csr.
Proof. intros (_ & E & _) (token & pem & H1 & H2 & H3). exists token, pem. by rewrite E. Qed.

Lemma handed_out_grew r id chain expires t t' : grew t t' -> handed_out r id chain expires t -> handed_out r id chain expires t'.
Proof.
  intros [_ Gk Gc Gu] (k & csr & u & c & Hp & Hk & Hu & Ek & H). destruct (Gk k Hk) as (k' & Hk' & Hf).
  exists k', csr, u, c. destruct H as (H1 & H2 & H3 & H4).
  split_and!; auto; try (by apply H4); [by eapply presents_follows|]. destruct Hf as (-> & _). done.
Qed.

Lemma enroll_ok_grew r st w w' : grew (tables w) (tables w') -> enroll_ok r st w -> enroll_ok r st w'.
Proof.
  intros G H. destruct st as [| |[]]; simpl in *; try done; [|by eapply handed_out_grew].
  destruct H as (k & Hp & Hk & Ek). destruct (gr_tokens _ _ G k Hk) as (k' & Hk' & Hf). exists k'.
  split_and!; [by eapply presents_follows|done|]. by destruct Hf as (-> & _).
Qed.

Lemma renew_ok_grew r st w w' : step w w' -> grew (tables w) (tables w') -> renew_ok r st w -> renew_ok r st w'.
Proof.
  intros Hs G H. destruct st; simpl in *; try done. destruct H as [H (u & Hu & Eu)].
  split; [by eapply past_step|]. exists u. split; [by apply G|done].
Qed.

Lemma issue_spki csr now random id cert :
  issue pki issuer days csr now random id = Some cert -> ic_spki_sha256 cert = checked_spki_sha256 csr.
Proof.
  unfold issue. destruct (issue_client _ _ _ _ _ _ _) as [|cert'] eqn:E; [done|]. intros [= ->].
  by apply issue_client_ok in E as (_ & E & _).
Qed.

(** A statement of an enrollment. *)
Lemma enroll_step_kept db_ok r st t st' t' : enroll_step db_ok r st t = (st', t') -> kept t t'.
Proof.
  destruct st as [hash pem|id csr|]; cbn [AgentOps.enroll_step]; intros H.
  - repeat (case_match; simplify_eq; try apply kept_refl).
  - destruct (negb db_ok); [simplify_eq; apply kept_refl|]. destruct (enroll _ _ _ _ _ _ _) as [[e t1]|] eqn:E; simplify_eq.
    + eapply enroll_kept; [|exact E]. intros. by eapply issue_spki.
    + apply kept_refl.
  - simplify_eq. apply kept_refl.
Qed.

Lemma renew_step_kept db_ok r st w st' t' : renew_ok r st w -> renew_step db_ok r st (tables w) = (st', t') -> kept (tables w) t'.
Proof.
  intros Hok H. destruct st as [|id cert|]; cbn [AgentOps.renew_step] in H.
  - repeat (case_match; simplify_eq; try apply kept_refl).
  - destruct (negb db_ok); [simplify_eq; apply kept_refl|]. unfold add_certificate in H.
    destruct (insert_certificate _ _ _ _ _) as [t1|] eqn:E; simplify_eq; [|apply kept_refl].
    destruct Hok as [_ (u & Hu & Eu)]. by eapply kept_insert_certificate.
  - simplify_eq. apply kept_refl.
Qed.

Lemma step_kept w w' : winv w -> step w w' -> kept (tables w) (tables w').
Proof.
  intros Hw Hs. destruct Hs; simpl; try apply kept_refl.
  - by eapply enroll_step_kept.
  - eapply renew_step_kept; [by eapply w_renewals|done].
  - by eapply create_kept.
  - by eapply create_standing_kept.
  - by eapply revoke_token_kept.
  - by eapply create_enrollment_token_kept.
  - apply revoke_enrollment_token_kept.
  - apply revoke_kept.
  - apply revoke_in_scope_kept.
  - apply heartbeat_kept.
  - by eapply upsert_host_kept.
Qed.

(** The certificates and uses a step adds. *)
Definition rows (t : AgentTables) := (certificates t, token_uses t).

Inductive adds (w w' : World) : Prop :=
  | AddsNothing : rows (tables w') = rows (tables w) -> adds w w'
  | AddsEnrolled r id csr i : enroll_ok r (ETransaction id csr) w ->
      enroll cc id (checked_spki_sha256 csr) (er_now r) (er_uuid r) (issue pki issuer days csr (er_issued_at r) (er_random r))
        (tables w) = Some (New i, tables w') -> adds w w'
  | AddsRenewed r c cert : renew_ok r (RInsert (ce_agent c) cert) w -> ce_spki c = ic_spki_sha256 cert ->
      certificates (tables w') = certificates (tables w) ++ [c] -> token_uses (tables w') = token_uses (tables w) -> adds w w'.

Lemma insert_token_rows k t t' : insert_token k t = Some t' -> rows t' = rows t.
Proof. unfold insert_token. case_match; [done|]. by intros [= <-]. Qed.
Lemma insert_agent_rows a t t' : insert_agent a t = Some t' -> rows t' = rows t.
Proof. unfold insert_agent. case_match; [done|]. by intros [= <-]. Qed.

Lemma step_adds w w' : winv w -> step w w' -> adds w w'.
Proof.
  intros Hw Hs.
  destruct Hs as [r|db_ok i r st st' t' Hi He|r|db_ok i r st st' t' Hi He|n id now t' E|secret hash by_ id now r t' E
    |id now r t' E|r id c t' E|id actor now|id now|id scope actor reason now|id b now|h now id t' E]; try by apply AddsNothing.
  - pose proof (w_enrolls w Hw i r st Hi) as Hok. destruct st as [hash pem|id csr|]; cbn [AgentOps.enroll_step] in He.
    + apply AddsNothing. simpl. repeat (case_match; simplify_eq; try done).
    + destruct (negb db_ok); [simplify_eq; by apply AddsNothing|].
      destruct (enroll _ _ _ _ _ _ _) as [[e t1]|] eqn:E; simplify_eq; [|by apply AddsNothing].
      pose proof (enroll_cases _ _ _ _ _ _ _ _ _ E) as [-> |[i' ->]]; [by apply AddsNothing|].
      by eapply AddsEnrolled; [exact Hok|].
    + simplify_eq. by apply AddsNothing.
  - pose proof (w_renewals w Hw i r st Hi) as Hok. destruct st as [|id cert|]; cbn [AgentOps.renew_step] in He.
    + apply AddsNothing. simpl. repeat (case_match; simplify_eq; try done).
    + destruct (negb db_ok); [simplify_eq; by apply AddsNothing|]. unfold add_certificate in He.
      destruct (insert_certificate _ _ _ _ _) as [t1|] eqn:E; simplify_eq; [|by apply AddsNothing].
      apply insert_certificate_some in E as (chain & _ & _ & _ & ->).
      match goal with |- adds _ {| tables := add_certificate_row ?c _ |} => by apply (AddsRenewed _ _ r c cert) end.
    + simplify_eq. by apply AddsNothing.
  - apply AddsNothing. by eapply insert_token_rows.
  - apply AddsNothing. revert E. unfold create_standing. case_match; [by intros [= _ <-]|].
    destruct (insert_token _ _) as [t1|] eqn:E1; [|done]. intros [= _ <-]. apply insert_token_rows in E1. exact E1.
  - apply AddsNothing. revert E. unfold revoke_token. destruct (uuid_of id); [|done]. by intros [= _ <-].
  - apply AddsNothing. revert E. unfold create_enrollment_token. destruct (query_opt _) as [[i|]|]; simpl; [| |done].
    + case_match; [by intros [= _ <-]|]. destruct (from_rfc3339 _ _); simpl; [|done]. by intros [= _ <-].
    + destruct (insert_token _ _) as [t1|] eqn:E1; simpl; [|done]. case_match; [done|]. intros [= _ <-].
      apply insert_token_rows in E1. exact E1.
  - apply AddsNothing. simpl. unfold revoke_enrollment_token, revoke_row. by case_match.
  - apply AddsNothing. simpl. unfold revoke. by repeat case_match.
  - apply AddsNothing. simpl. unfold revoke_in_scope. by repeat case_match.
  - apply AddsNothing. revert E. simpl. unfold upsert_host. destruct (agent_of _ _); [case_match; [by intros [= _ <-]|done]|].
    destruct (insert_agent _ _) as [t1|] eqn:E1; simpl; [|done]. intros [= _ <-]. by eapply insert_agent_rows.
Qed.

Lemma enrolled_now w r id csr i t' : winv w -> enroll_ok r (ETransaction id csr) w ->
  enroll cc id (checked_spki_sha256 csr) (er_now r) (er_uuid r) (issue pki issuer days csr (er_issued_at r) (er_random r))
    (tables w) = Some (New i, t') ->
  enrolled_in (id_agent i) (checked_spki_sha256 csr) w
  /\ (exists c, certificates t' = certificates (tables w) ++ [c] /\ ce_agent c = id_agent i
        /\ ce_spki c = checked_spki_sha256 csr)
  /\ exists u, token_uses t' = token_uses (tables w) ++ [u] /\ us_agent u = id_agent i /\ us_spki u = checked_spki_sha256 csr.
Proof.
  intros Hw (k & Hp & Hk & Ek) He.
  apply enroll_new in He as (_ & _ & (k' & Hk' & Ek' & Hv & Hm) & cert & Hcert & Hr & _); [|apply Hw].
  assert (k' = k) as -> by (eapply (NoDup_map_inj tk_id); [apply (w_tables w Hw)|done..|congruence]).
  apply record_enrollment_some in Hr as (Hn & _ & _ & _ & _ & _ & Eu & chain & _ & Ec). split; [|split].
  - exists r, k, csr. split; [done|]. split; [done|]. split; [|by destruct (agent_of _ _)].
    split; [done|]. split; [done|]. by rewrite Ek.
  - eexists. split; [exact Ec|]. split; [done|]. by eapply issue_spki.
  - eexists. by split; [exact Eu|].
Qed.

(** New rows have their origin. *)
Lemma adds_origin w w' c : winv w -> step w w' -> In c (certificates (tables w')) -> origin c w'.
Proof.
  intros Hw Hs Hc. assert (forall c, In c (certificates (tables w)) -> origin c w') as Hold.
  { intros c' [H|H]%(w_origin w Hw); [left|right]; by eapply past_step. }
  destruct (step_adds w w' Hw Hs) as [E|r id csr i Hok He|r c' cert [Hok _] Es Ec _].
  - injection E as E _. apply Hold. by rewrite <- E.
  - apply enrolled_now in He as (Hn & (c' & Ec & Ea & Es) & _); [|done..]. rewrite Ec in Hc.
    apply in_snoc in Hc as [Hc| ->]; [by apply Hold|]. left. rewrite Ea, Es. eapply past_now; [apply Hw|done..].
  - rewrite Ec in Hc. apply in_snoc in Hc as [Hc| ->]; [by apply Hold|]. right. rewrite Es. by eapply past_step.
Qed.
Lemma adds_uses w w' u : winv w -> step w w' -> In u (token_uses (tables w')) -> past (enrolled_in (us_agent u) (us_spki u)) w'.
Proof.
  intros Hw Hs Hu. assert (forall u, In u (token_uses (tables w)) -> past (enrolled_in (us_agent u) (us_spki u)) w') as Hold.
  { intros u' H%(w_uses w Hw). by eapply past_step. }
  destruct (step_adds w w' Hw Hs) as [E|r id csr i Hok He|r c' cert _ _ _ E].
  - injection E as _ E. apply Hold. by rewrite <- E.
  - apply enrolled_now in He as (Hn & _ & (u' & Eu & Ea & Es)); [|done..]. rewrite Eu in Hu.
    apply in_snoc in Hu as [Hu| ->]; [by apply Hold|]. rewrite Ea, Es. eapply past_now; [apply Hw|done..].
  - apply Hold. by rewrite <- E.
Qed.

(** ** What a statement of a handler leaves *)

Lemma use_of_in id spki t u c a : In (u, c, a) (use_of id spki t) ->
  In u (token_uses t) /\ us_token u = id /\ us_spki u = spki
  /\ certificate_of (us_serial u) t = Some c /\ agent_of (us_agent u) t = Some a.
Proof.
  unfold use_of. rewrite <- list_elem_of_In, list_elem_of_omap. intros (u' & Hu & E). case_match eqn:Eb; [|done].
  destruct (certificate_of _ _) eqn:Ec; [|done]. destruct (agent_of _ _) eqn:Ea; [|done]. simplify_eq/=. bprop.
  apply list_elem_of_In in Hu. apply String.eqb_eq in H. by apply bytes_eqb_eq in H0.
Qed.

Context (codec_ok : forall l s, chain_json cc l = Some s -> chain_from_json cc s = Some l).

Lemma respond_issued i id chain expires : respond identifier i = Issued id chain expires ->
  id = id_agent i /\ chain = id_chain i /\ expires = id_not_after i / 1000 /\ identifier id = true.
Proof. unfold respond. case_match; [|done]. intros [= <- <- <-]. done. Qed.

(** The agent of an identity answered: new, or recorded and not revoked. *)
Lemma enrolled_identity tid spki now uuid iss e t t' id chain expires : inv t ->
  enroll cc tid spki now uuid iss t = Some (e, t') -> enrolled_reply identifier e = Issued id chain expires ->
  agent_of id t = None \/ exists a u, agent_of id t = Some a /\ ag_status a <> SRevoked /\ In u (token_uses t) /\ us_agent u = id.
Proof.
  intros Hi He Hr. destruct e as [i|i| | |]; try done; simpl in Hr; apply respond_issued in Hr as (-> & _).
  - left. apply enroll_new in He as (_ & _ & _ & cert & _ & Hrec & _); [|done].
    apply record_enrollment_some in Hrec as (Hn & _). by destruct (agent_of _ _).
  - right. revert He. unfold enroll. destruct (use_of _ _ _) as [|[[u c] a] [|]] eqn:Eu; simpl; [| |done].
    { destruct (token_of _ _); simpl; [|done]. case_match; [done|]. case_match; [done|].
      destruct (iss _); simpl; [|done]. by destruct (record_enrollment _ _ _ _ _ _ _). }
    case_match; [done|]. destruct (chain_from_json _ _) as [l|] eqn:El; simpl; [|done]. intros [= <- _]. simpl.
    assert (In (u, c, a) (use_of tid spki t)) as Hin by (rewrite Eu; by left).
    apply use_of_in in Hin as (Hu & _ & _ & _ & Ha). exists a, u. destruct (agent_of_some _ _ _ Ha) as [_ Eid].
    rewrite Eid. split_and!; done.
Qed.

Lemma enroll_handed_out w r tid csr e t' id chain expires : inv (tables w) -> enroll_ok r (ETransaction tid csr) w ->
  enroll cc tid (checked_spki_sha256 csr) (er_now r) (er_uuid r)
    (issue pki issuer days csr (er_issued_at r) (er_random r)) (tables w) = Some (e, t') ->
  enrolled_reply identifier e = Issued id chain expires -> handed_out r id chain expires t'.
Proof using codec_ok.
  intros Hi (k & Hp & Hk & Ek) He Hr. pose proof (enroll_cases _ _ _ _ _ _ _ _ _ He) as [-> |[i ->]].
  - revert He. unfold enroll. destruct (use_of _ _ _) as [|[[u c] a] [|]] eqn:Eu; simpl; [|clear Hi|done].
    { destruct (token_of _ _); simpl; [|done]. case_match; [intros [= <-]; done|]. case_match; [intros [= <-]; done|].
      destruct (issue _ _ _ _ _ _ _) as [cert|]; simpl; [|done]. destruct (record_enrollment _ _ _ _ _ _ _) as [t1|] eqn:E; simpl; [|done].
      intros [= <- ->]. apply record_enrollment_some in E as (_ & _ & _ & _ & Ea & _).
      exfalso. apply (f_equal length) in Ea. rewrite length_app in Ea. simpl in Ea. lia. }
    case_match; [intros [= <-]; done|]. destruct (chain_from_json _ _) as [l|] eqn:El; simpl; [|done]. intros [= <-]. simpl in Hr.
    apply respond_issued in Hr as (-> & -> & -> & Hid). simpl in *.
    assert (In (u, c, a) (use_of tid (checked_spki_sha256 csr) (tables w))) as Hin by (rewrite Eu; by left).
    apply use_of_in in Hin as (Hu & Et & Es & [Hc Ec]%certificate_of_some & [Ha Eid]%agent_of_some).
    exists k, csr, u, c. split_and!; try done; congruence.
  - apply enroll_new in He as (_ & _ & _ & cert & Hc & Hrec & E1 & E2); [|done]. simpl in Hr.
    apply respond_issued in Hr as (-> & -> & -> & Hid).
    apply record_enrollment_some in Hrec as (_ & _ & _ & _ & _ & Ek' & Eu' & l & El & Ec').
    eexists k, csr, _, _. rewrite Ek', Eu', Ec', !in_snoc. split_and!; try done; [by right|done..|by right|done| |].
    + simpl. rewrite E1. by apply codec_ok.
    + simpl. by rewrite E2.
Qed.

Lemma enroll_step_ok db_ok r st w w' st' t' : inv (tables w) -> enroll_ok r st w -> tables w' = t' ->
  enroll_step db_ok r st (tables w) = (st', t') -> enroll_ok r st' w'.
Proof using codec_ok.
  intros Hi Hok <- H. destruct st as [hash pem|tid csr|reply]; cbn [AgentOps.enroll_step] in H.
  - destruct (negb db_ok); [by simplify_eq|]. destruct (token_by_hash _ _) as [k|] eqn:Ek; [|by simplify_eq].
    case_match; [by simplify_eq|]. destruct (check_csr _ _) as [|csr] eqn:Ec; simplify_eq; [done|]. simpl.
    destruct Hok as (token & Eb & Eh). revert Ek. unfold token_by_hash. destruct (find _ _) as [k'|] eqn:Ef; [|done].
    simpl. intros [= <-]. apply find_some in Ef as [Hin Es%bytes_eqb_eq]. exists k'. split_and!; [|congruence|done].
    exists token, pem. rewrite Es. done.
  - destruct (negb db_ok); [by simplify_eq|]. destruct (enroll _ _ _ _ _ _ _) as [[e t1]|] eqn:E; simplify_eq; [|done].
    simpl. destruct (enrolled_reply _ e) as [id chain expires|] eqn:Er; [|done]. by eapply enroll_handed_out.
  - simplify_eq. destruct reply; [|done]. simpl in *. congruence.
Qed.

Lemma authenticated_in leaf now t id : inv t -> authenticated leaf now t = inr id ->
  exists l serial spki c a, leaf = Some l /\ leaf_identity l = Some (serial, spki) /\ currently_valid l now = true
  /\ In c (certificates t) /\ ce_serial c = serial /\ ce_spki c = spki /\ ce_agent c = id
  /\ In a (agents t) /\ ag_id a = id /\ ag_status a = SActive.
Proof.
  intros Hi. unfold authenticated. destruct leaf as [l|]; [|done]. destruct (leaf_identity l) as [[serial spki]|] eqn:El; [|done].
  unfold authenticate. destruct (certificate_of serial t) as [c|] eqn:Ec; [|done]. simpl.
  destruct (agent_of (ce_agent c) t) as [a|] eqn:Ea; [|done]. simpl. destruct (bytes_eqb (ce_spki c) spki) eqn:E1; simpl; [|done]. destruct (decide _) as [E2|]; [|done].
  destruct (currently_valid l now) eqn:E3; [|done]. intros [= <-]. apply certificate_of_some in Ec as [Hc Es]. apply agent_of_some in Ea as [Ha Eid].
  apply bytes_eqb_eq in E1. exists l, serial, spki, c, a. split_and!; try done.
Qed.

Lemma renew_step_ok db_ok r st w w' st' t' : rtc step w0 w -> inv (tables w) -> renew_ok r st w -> step w w' -> grew (tables w) (tables w') ->
  renew_step db_ok r st (tables w) = (st', t') -> renew_ok r st' w'.
Proof.
  intros Hr0 Hi Hok Hs G H. destruct st as [|id cert|reply]; cbn [AgentOps.renew_step] in H.
  - destruct (negb db_ok); [by simplify_eq|]. destruct (authenticated _ _ _) as [e|id] eqn:Ea; simplify_eq; [done|].
    unfold renew_checked. destruct (rr_body r) as [pem|] eqn:Eb; [|done]. destruct (check_csr pki pem) as [|csr] eqn:Ec; [done|].
    destruct (issue _ _ _ _ _ _ _) as [cert|] eqn:Ei; [|done]. apply issue_spki in Ei. simpl. split.
    + eapply past_now; [done| |exact Hs]. by exists r, pem, csr.
    + apply authenticated_in in Ea as (l & serial & spki & c & a & _ & _ & _ & Hc & _ & _ & <- & _); [|done].
      destruct (inv_certificates _ Hi c Hc) as (u & Hu & Eu). exists u. split; [by apply G|done].
  - destruct (negb db_ok); [by simplify_eq|]. by destruct (add_certificate _ _ _ _ _); simplify_eq.
  - by simplify_eq.
Qed.

Lemma enroll_start_ok r w : enroll_ok r (enroll_start pki r) w.
Proof.
  unfold enroll_start. destruct (er_body r) as [[token pem]|] eqn:E; [|done].
  destruct (enrollment_token_sha256 _ _) eqn:Eh; [|done]. by exists token.
Qed.

Lemma winv_step w w' : winv w -> step w w' -> winv w'.
Proof using codec_ok.
  intros Hw Hs. destruct (step_kept w w' Hw Hs (w_tables w Hw)) as [Hi' G]. 
  split; [eapply rtc_r; [apply Hw|done]|done| | | |].
  - intros c. by apply (adds_origin w).
  - intros u. by apply (adds_uses w).
  - assert (forall i r st, enrolls w !! i = Some (r, st) -> enroll_ok r st w') as Hold.
    { intros i r st H. eapply enroll_ok_grew; [exact G|by apply (w_enrolls w Hw i)]. }
    intros i r st. destruct Hs; simpl; try apply Hold.
    + intros [H|[= -> ->]]%lookup_snoc; [by eapply Hold|apply enroll_start_ok].
    + intros [H'|[-> [= -> ->]]]%lookup_inserted; [by eapply Hold|]. eapply enroll_step_ok; [apply Hw| |done|exact H0].
      by apply (w_enrolls w Hw i).
  - assert (forall i r st, renewals w !! i = Some (r, st) -> renew_ok r st w') as Hold.
    { intros i r st H. eapply renew_ok_grew; [exact Hs|exact G|by apply (w_renewals w Hw i)]. }
    intros i r st. pose proof Hs as Hs'. destruct Hs; simpl; try apply Hold.
    + intros [H|[= -> ->]]%lookup_snoc; [by eapply Hold|done].
    + intros [H'|[-> [= -> ->]]]%lookup_inserted; [by eapply Hold|]. eapply renew_step_ok; [apply Hw|apply Hw| |exact Hs'|done|exact H0].
      by apply (w_renewals w Hw i).
Qed.

(** The empty platform. *)
Definition installed (w : World) : Prop :=
  agents (tables w) = [] /\ certificates (tables w) = [] /\ enrollment_tokens (tables w) = [] /\ token_uses (tables w) = []
  /\ enrolls w = [] /\ renewals w = [].

Lemma winv_reached w : installed w0 -> rtc step w0 w -> winv w.
Proof using codec_ok.
  intros (Ea & Ec & Ek & Eu & Ee & Er). apply rtc_ind_r.
  - split; rewrite ?Ec, ?Eu, ?Ee, ?Er; try done. split; rewrite ?Ea, ?Ec, ?Ek, ?Eu; simpl; try done; try apply NoDup_nil_2. lia.
  - intros w1 w2 _ Hs Hw. by eapply winv_step.
Qed.

Lemma steps_grew w w' : winv w -> rtc step w w' -> grew (tables w) (tables w').
Proof using codec_ok.
  intros Hw Hr. induction Hr as [|w1 w2 w3 Hs _ IH]; [done|].
  etrans; [apply (step_kept w1 w2 Hw Hs (w_tables w1 Hw))|apply IH; by eapply winv_step].
Qed.

(** ** The properties *)

Lemma omap_unique {A B K} (key : A -> K) (f : A -> option B) l x y :
  NoDup (map key l) -> In x l -> f x = Some y -> (forall x', In x' l -> is_some (f x') = true -> key x' = key x) ->
  omap f l = [y].
Proof.
  intros Hnd Hin Hf Hk. induction l as [|z l IH]; simpl in *; [done|]. apply NoDup_cons in Hnd as [Hz Hnd].
  assert (forall x', In x' l -> key x' = key z -> False) as Hne.
  { intros x' Hx' E. apply Hz, list_elem_of_In. rewrite <- E. by apply in_map. }
  destruct Hin as [->|Hin].
  - rewrite Hf. f_equal. destruct (omap f l) as [|y' l'] eqn:E; [done|]. exfalso.
    assert (y' ∈ omap f l) as (x' & Hx' & Ex')%list_elem_of_omap by (rewrite E; by left).
    apply list_elem_of_In in Hx'. eapply (Hne x' Hx'), Hk; [by right|by rewrite Ex'].
  - destruct (f z) eqn:Ez; [|apply IH; auto]. exfalso. eapply (Hne x Hin). symmetry. apply Hk; [by left|by rewrite Ez].
Qed.

Lemma use_of_unique id spki t u c a : inv t -> In u (token_uses t) -> us_token u = id -> us_spki u = spki ->
  certificate_of (us_serial u) t = Some c -> agent_of (us_agent u) t = Some a -> use_of id spki t = [(u, c, a)].
Proof.
  intros Hi Hu <- <- Hc Ha. unfold use_of.
  apply (omap_unique (fun u => (us_token u, us_spki u)) _ _ u); [apply Hi|done| |].
  - by rewrite String.eqb_refl, bytes_eqb_refl, Hc, Ha.
  - intros u' Hu' H. case_match eqn:E; [|done]. bprop. apply String.eqb_eq in H0. apply bytes_eqb_eq in H1. congruence.
Qed.

Lemma agent_found t a : inv t -> In a (agents t) -> agent_of (ag_id a) t = Some a.
Proof.
  intros Hi Hin. apply (find_unique ag_id); [|apply Hi|done|apply String.eqb_refl]. intros y _ E. by apply String.eqb_eq in E.
Qed.
Lemma certificate_found t c : inv t -> In c (certificates t) -> certificate_of (ce_serial c) t = Some c.
Proof.
  intros Hi Hin. apply (find_unique ce_serial); [|apply Hi|done|apply bytes_eqb_refl]. intros y _ E. by apply bytes_eqb_eq in E.
Qed.
Lemma hash_found t k : inv t -> In k (enrollment_tokens t) ->
  find (fun k' => bytes_eqb (tk_sha256 k') (tk_sha256 k)) (enrollment_tokens t) = Some k.
Proof.
  intros Hi Hin. apply (find_unique tk_sha256); [|apply Hi|done|apply bytes_eqb_refl]. intros y _ E. by apply bytes_eqb_eq in E.
Qed.

(** C12: an agent that a request is let through as holds the key of a certificate issued for it: to an
    enrollment with a token that was valid and had a use left, for an agent that did not exist, or to
    a renewal by that same agent; and the agent itself came from such an enrollment, with the token its
    one use names. *)
Theorem identity_provenance w leaf now id :
  installed w0 -> rtc step w0 w -> authenticated leaf now (tables w) = inr id ->
  exists l serial spki, leaf = Some l /\ leaf_identity l = Some (serial, spki) /\ currently_valid l now = true
  /\ (past (enrolled_in id spki) w \/ past (renewed_in id spki) w)
  /\ exists u k, In u (token_uses (tables w)) /\ us_agent u = id /\ In k (enrollment_tokens (tables w)) /\ tk_id k = us_token u
     /\ past (enrolled_in id (us_spki u)) w
     /\ forall u', In u' (token_uses (tables w)) -> us_agent u' = id -> u' = u.
Proof using codec_ok.
  intros H0 Hr Ha. pose proof (winv_reached w H0 Hr) as Hw. pose proof (w_tables w Hw) as Hi.
  apply authenticated_in in Ha as (l & serial & spki & c & a & -> & Hl & Hv & Hc & _ & <- & <- & _); [|done].
  exists l, serial, (ce_spki c). split_and!; try done; [by apply (w_origin w Hw)|].
  destruct (inv_certificates _ Hi c Hc) as (u & Hu & <-). destruct (inv_uses _ Hi u Hu) as ((k & Hk & Ek) & _).
  exists u, k. split_and!; try done; [by apply (w_uses w Hw)|].
  intros u' Hu' E. by eapply (NoDup_map_inj us_agent); [apply Hi|..].
Qed.

(** C14: a token never gives more identities than it allows: the uses of a token that is not standing are
    at most its limit, each agent let through has one use, no two uses are of one agent, and at most
    one standing token is live. *)
Theorem enrollments_bounded w :
  installed w0 -> rtc step w0 w ->
  (forall k, In k (enrollment_tokens (tables w)) -> tk_standing k = false -> uses_of (tk_id k) (tables w) <= tk_max_uses k)
  /\ NoDup (map us_agent (token_uses (tables w)))
  /\ (forall leaf now id, authenticated leaf now (tables w) = inr id -> In id (map us_agent (token_uses (tables w))))
  /\ (length (List.filter live (enrollment_tokens (tables w))) <= 1)%nat.
Proof using codec_ok.
  intros H0 Hr. pose proof (winv_reached w H0 Hr) as Hw. pose proof (w_tables w Hw) as Hi. split_and!; try apply Hi.
  intros leaf now id Ha. apply authenticated_in in Ha as (l & serial & spki & c & a & _ & _ & _ & Hc & _ & _ & <- & _); [|done].
  destruct (inv_certificates _ Hi c Hc) as (u & Hu & <-). by apply in_map.
Qed.

(** A renewal that carries an identity: its caller was checked, or it was answered. *)
Definition carries (id : string) (st : RenewStage) : Prop :=
  match st with
  | RAuthenticate => False
  | RInsert id' _ => id' = id
  | REnd (Issued id' _ _) => id' = id
  | REnd (Failed _) => False
  end.

(** An agent that is not active is not let through. *)
Lemma not_let_through w a leaf now : winv w -> In a (agents (tables w)) -> ag_status a <> SActive ->
  authenticated leaf now (tables w) <> inr (ag_id a).
Proof.
  intros Hw Ha Hs H. pose proof (w_tables w Hw) as Hi.
  apply authenticated_in in H as (_ & _ & _ & _ & a2 & _ & _ & _ & _ & _ & _ & _ & Ha2 & E2 & S2); [|done].
  assert (a2 = a) as -> by (eapply (NoDup_map_inj ag_id); [apply Hi|done..]). done.
Qed.

(** No enrollment answers with it. *)
Lemma not_enrolled db_ok w a r st chain expires t' : winv w -> In a (agents (tables w)) -> ag_status a <> SActive ->
  enroll_step db_ok r st (tables w) = (EEnd (Issued (ag_id a) chain expires), t') -> st = EEnd (Issued (ag_id a) chain expires).
Proof using codec_ok.
  intros Hw Ha Hs H. pose proof (w_tables w Hw) as Hi.
  destruct st as [hash pem|tid csr|reply]; cbn [AgentOps.enroll_step] in H; [| |by simplify_eq].
  { by repeat (case_match; simplify_eq). }
  destruct (negb db_ok); [done|]. destruct (enroll _ _ _ _ _ _ _) as [[e t1]|] eqn:E; [|done]. injection H as He <-. exfalso.
  apply agent_found in Ha as Hfound; [|done].
  destruct (enrolled_identity _ _ _ _ _ _ _ _ _ _ _ Hi E He) as [E'|(a2 & u & E2 & Hs2 & Hu & Eu)]; [congruence|].
  assert (a2 = a) as -> by congruence. destruct (inv_uses _ Hi u Hu) as (_ & (a3 & Ha3 & E3 & S3) & _).
  assert (a3 = a) as -> by (eapply (NoDup_map_inj ag_id); [apply Hi|done..|congruence]).
  destruct (ag_status a); congruence.
Qed.

(** No renewal takes it up. *)
Lemma not_renewed db_ok w a r st st' t' : winv w -> In a (agents (tables w)) -> ag_status a <> SActive ->
  renew_step db_ok r st (tables w) = (st', t') -> carries (ag_id a) st' -> carries (ag_id a) st.
Proof.
  intros Hw Ha Hs H Hc. destruct st as [|id cert|reply]; cbn [AgentOps.renew_step] in H; [| |by simplify_eq].
  - destruct (negb db_ok); [by simplify_eq|]. destruct (authenticated _ _ _) as [e|id] eqn:Ea; simplify_eq.
    exfalso. apply (not_let_through w a (rr_leaf r) (rr_checked_at r) Hw Ha Hs). rewrite Ea. f_equal.
    revert Hc. unfold renew_checked. by repeat (case_match; try done).
  - destruct (negb db_ok); [by simplify_eq|]. destruct (add_certificate _ _ _ _ _); simplify_eq.
    destruct (respond _ _) eqn:E; [|done]. by apply respond_issued in E as (-> & _).
Qed.

Lemma unactive_step w w' a : winv w -> In a (agents (tables w)) -> ag_status a <> SActive -> step w w' ->
  (forall i r chain expires, enrolls w' !! i = Some (r, EEnd (Issued (ag_id a) chain expires)) ->
     enrolls w !! i = Some (r, EEnd (Issued (ag_id a) chain expires)))
  /\ (forall i r st, renewals w' !! i = Some (r, st) -> carries (ag_id a) st ->
     exists st0, renewals w !! i = Some (r, st0) /\ carries (ag_id a) st0).
Proof using codec_ok.
  intros Hw Ha Hs H. destruct H; simpl; split; try (by intros; eauto).
  - intros i r' chain expires [H|[= -> E]]%lookup_snoc; [done|].
    revert E. unfold enroll_start. by repeat case_match.
  - intros j r' chain expires [H1|[-> [= -> <-]]]%lookup_inserted; [done|]. rewrite H.
    by rewrite (not_enrolled _ _ _ _ _ _ _ _ Hw Ha Hs H0).
  - intros i r' st [H|[= -> ->]]%lookup_snoc Hc; [by exists st|done].
  - intros j r' st0 [H1|[-> [= -> ->]]]%lookup_inserted Hc; [by exists st0|].
    exists st. split; [done|]. by eapply not_renewed.
Qed.

(** C13: revoking is final: once an agent is not active, no request is ever let through as it, with any
    certificate at any time; no enrollment is answered with its identity unless it was answered so
    before; and no renewal is, or comes to hold a certificate for it, unless its caller had been let
    through before. (A renewal caught between the check of its caller and its insert still gets its
    certificate, see [renewal_in_flight]; no request is let through with it.) *)
Theorem revocation_final w w' a :
  installed w0 -> rtc step w0 w -> In a (agents (tables w)) -> ag_status a <> SActive -> rtc step w w' ->
  (forall leaf now, authenticated leaf now (tables w') <> inr (ag_id a))
  /\ (forall i r chain expires, enrolls w' !! i = Some (r, EEnd (Issued (ag_id a) chain expires)) ->
        enrolls w !! i = Some (r, EEnd (Issued (ag_id a) chain expires)))
  /\ (forall i r st, renewals w' !! i = Some (r, st) -> carries (ag_id a) st ->
        exists st0, renewals w !! i = Some (r, st0) /\ carries (ag_id a) st0).
Proof using codec_ok.
  intros H0 Hr Ha Hs Hr'. pose proof (winv_reached w H0 Hr) as Hw. clear Hr.
  revert a Ha Hs. induction Hr' as [w|w w1 w' H Hr' IH]; intros a Ha Hs.
  { split_and!; [intros; by apply not_let_through|done|by eauto]. }
  assert (winv w1) as Hw1 by (by eapply winv_step).
  destruct (gr_agents _ _ (steps_grew w w1 Hw (rtc_once _ _ H)) a Ha) as (a1 & Ha1 & Ei & _ & Hst).
  assert (ag_status a1 <> SActive) as Hs1 by (by destruct Hst as [->|[? _]]).
  destruct (IH Hw1 a1 Ha1 Hs1) as (I1 & I2 & I3). rewrite Ei in I1, I2, I3.
  destruct (unactive_step w w1 a Hw Ha Hs H) as [S1 S2]. split_and!; [done|by auto|].
  intros i r st Hi Hc. destruct (I3 i r st Hi Hc) as (st0 & Hi0 & Hc0). by eapply S2.
Qed.

(** Both statements of an enrollment, with nothing between them. *)
Definition enroll_alone (r : EnrollRequest) (t : AgentTables) : EnrollStage * AgentTables :=
  let '(st, t) := enroll_step true r (enroll_start pki r) t in enroll_step true r st t.

(** A retry gets the identity handed out before: as long as the token is valid and the agent active, an
    enrollment with a token and a key that gave an identity answers with that identity, its chain and
    its expiry again, and writes nothing. *)
Theorem retry_same_identity w i r r' id chain expires token pem pem' csr csr' hash k a :
  installed w0 -> rtc step w0 w -> enrolls w !! i = Some (r, EEnd (Issued id chain expires)) ->
  er_body r = Some (token, pem) -> check_csr pki pem = inr csr ->
  er_body r' = Some (token, pem') -> check_csr pki pem' = inr csr' -> checked_spki_sha256 csr' = checked_spki_sha256 csr ->
  enrollment_token_sha256 pki token = Some hash -> token_by_hash hash (tables w) = Some k -> seen_valid (er_now r') k = true ->
  agent_of id (tables w) = Some a -> ag_status a = SActive ->
  enroll_alone r' (tables w) = (EEnd (Issued id chain expires), tables w).
Proof using codec_ok.
  intros H0 Hr Hi Hb Hc Hb' Hc' Ekey Hh Hk Hv Ha Hs. pose proof (winv_reached w H0 Hr) as Hw. pose proof (w_tables w Hw) as Ht.
  destruct (w_enrolls w Hw i r _ Hi) as (k0 & csr0 & u & c & (token0 & pem0 & Hb0 & Hh0 & Hc0) & Hk0 & Hu & Et & Es & Eu & Hcin & Ec & Hch & Ex & Hid).
  simplify_eq. unfold enroll_alone, enroll_start. rewrite Hb', Hh. cbn [AgentOps.enroll_step negb].
  rewrite Hk. unfold token_by_hash in Hk. rewrite hash_found in Hk by done. injection Hk as <-.
  rewrite Hv. cbn [negb]. rewrite Hc'. cbn [AgentOps.enroll_step negb ts_id]. unfold enroll.
  rewrite (use_of_unique _ _ _ u c a); [|done|done|done|congruence|rewrite <- Ec; by apply certificate_found|done]. simpl.
  rewrite decide_False by congruence. rewrite Hch. simpl. unfold respond. simpl.
  apply agent_of_some in Ha as [_ ->]. by rewrite Hid.
Qed.
End world.

(** ** Creating tokens *)

Lemma filter_nil {A} (p : A -> bool) l : (forall x, In x l -> p x = false) -> List.filter p l = [].
Proof. intros H. induction l as [|x l IH]; simpl; [done|]. rewrite (H x) by (by left). apply IH. intros y Hy. apply H. by right. Qed.

Lemma create_enrollment_token_again tt r r' id id' x t t' :
  (forall e, from_rfc3339 tt (rfc3339 tt e) = Some e) ->
  create_enrollment_token tt r id t = Some (Created x, t') ->
  ct_actor_id r' = ct_actor_id r -> ct_idempotency_key_sha256 r' = ct_idempotency_key_sha256 r -> ct_now r' < ct_now r + 24 * HOUR ->
  create_enrollment_token tt r' id' t'
  = Some (if bytes_eqb (ct_request_sha256 r) (ct_request_sha256 r') then Replayed x (ct_expires_at r) else Conflict, t').
Proof.
  intros Htt H Ea Ek Hnow. assert (forall i, keyed r' i = keyed r i) as Hkey by (intros i; unfold keyed; by rewrite Ea, Ek).
  unfold create_enrollment_token in H. destruct (query_opt _) as [[i|]|]; simpl in H; [| |done].
  { destruct (negb _); [done|]. by destruct (from_rfc3339 _ _). }
  destruct (insert_token _ _) as [t2|] eqn:Et; simpl in H; [|done].
  destruct (_ || existsb (keyed r) _) eqn:Eb; [done|]. injection H as <- <-. apply orb_false_iff in Eb as [_ Hnone].
  assert (forall i, In i (idempotency t2) -> keyed r i = false) as Hno.
  { intros i Hi. destruct (keyed r i) eqn:E; [|done]. apply not_true_iff_false in Hnone. exfalso. apply Hnone, existsb_exists. eauto. }
  set (i := {| im_actor := ct_actor_id r; im_key := ct_idempotency_key_sha256 r; im_request := ct_request_sha256 r;
               im_token_id := id; im_expiry := rfc3339 tt (ct_expires_at r); im_expires_at := ct_now r + 24 * 3600 * 1000000 |}).
  assert (keyed r i = true) as Hi by (unfold keyed; simpl; by rewrite String.eqb_refl, bytes_eqb_refl).
  assert ((im_expires_at i <=? ct_now r') = false) as Hold by (simpl; unfold HOUR in *; lia).
  assert ((ct_now r' <? im_expires_at i) = true) as Hnew by (simpl; unfold HOUR in *; lia).
  assert (List.filter (remembered r') (List.filter (fun i => negb (keyed r' i && (im_expires_at i <=? ct_now r')))
            (idempotency t2 ++ [i])) = [i]) as Hfound.
  { rewrite !List.filter_app. rewrite filter_nil.
    - cbn [List.filter app]. rewrite Hkey, Hi, Hold. cbn [andb negb List.filter]. unfold remembered. by rewrite Hkey, Hi, Hnew.
    - intros y [Hy _]%filter_In. unfold remembered. by rewrite Hkey, Hno. }
  unfold create_enrollment_token, forget_expired, set_idempotency, log_row in *. cbn [idempotency] in *.
  fold i. rewrite Hfound. simpl. destruct (bytes_eqb _ _); simpl; [|done]. by rewrite Htt.
Qed.

(** A request to create a token that is sent again within a day with the same key answers with the token
    it made, without its secret, and makes no other. *)
Theorem create_retried cr tt json h q caller secret secret' now now' id id' id1 t token expires t' :
  (forall e, from_rfc3339 tt (rfc3339 tt e) = Some e) ->
  create_authenticated_enrollment_token cr tt json h q caller (Some secret) true now id t = (TokenCreated id1 token expires, t') ->
  now' < now + 24 * HOUR ->
  create_authenticated_enrollment_token cr tt json h q caller (Some secret') true now' id' t' = (TokenReplayed id1 expires, t').
Proof.
  intros Htt. unfold create_authenticated_enrollment_token. destruct (idempotency_key h) as [key|]; [|done].
  destruct (negb (settings_valid q)); [done|]. destruct caller as [[]|[[|ids] actor]]; [done| |done].
  cbn [negb]. destruct (create_enrollment_token _ _ _ _) as [[[]]|] eqn:E; try done. intros [= <- <- <- <-] Hnow.
  erewrite create_enrollment_token_again; [|exact Htt|exact E|done..]. simpl. by rewrite bytes_eqb_refl.
Qed.

(** ** A platform, an agent *)

(** A chain as text that can be read back: every character marked, every certificate closed. *)
Fixpoint ex_item (s : string) : string :=
  match s with EmptyString => "0" | String c s => String "1" (String c (ex_item s)) end.
Definition ex_chain_json (l : list string) : string := fold_right (fun s t => ex_item s +:+ t) "" l.
Fixpoint ex_chain_from (s : string) : option (list string) :=
  match s with
  | EmptyString => Some []
  | String "0"%char s => (fun l => "" :: l) <$> ex_chain_from s
  | String _ (String c s) =>
      match ex_chain_from s with Some (i :: l) => Some (String c i :: l) | _ => None end
  | String _ EmptyString => None
  end.
Definition ex_codec : ChainCodec := {| chain_json := fun l => Some (ex_chain_json l); chain_from_json := ex_chain_from |}.

Lemma ex_codec_ok l s : chain_json ex_codec l = Some s -> chain_from_json ex_codec s = Some l.
Proof.
  intros [= <-]. simpl. induction l as [|x l IH]; [done|]. simpl. induction x as [|c x IHx]; simpl.
  - by rewrite IH.
  - cbn in IHx. by rewrite IHx.
Qed.

Definition ex_pki : Pki :=
  {| pki_crypto := test_crypto;
     read_csr := fun pem => Some {| csr_signature_verifies := true; csr_key_algorithm := OID_KEY_TYPE_EC_PUBLIC_KEY;
                                    csr_key_curve := Some OID_EC_P256; csr_subject_attributes := 0; csr_spki := bytes pem |};
     rcgen_reads := fun _ => true; representable := fun _ => true;
     sign_leaf := fun p => Some (of_bytes (lp_key p)); read_spki := fun pem => Some (bytes pem) |}.
Definition ex_issuer : Issuer := {| iss_not_after := 1000 * DAY; iss_cert_pem := "issuer" |}.
Definition ex_times : TimeText := {| rfc3339 := fun _ => ""; from_rfc3339 := fun _ => None |}.

Definition ex_step : World -> World -> Prop := step ex_pki ex_codec (fun _ => true) ex_issuer 90 ex_times Some.

Definition ex_start : World :=
  {| tables := {| agents := []; certificates := []; enrollment_tokens := []; token_uses := []; standing_token_secret := [];
                  idempotency := []; agent_presence := []; group_membership := []; agent_log := [] |};
     enrolls := []; renewals := [] |}.
Lemma ex_installed : installed ex_start.
Proof. by split_and!. Qed.

Definition ex_chars (c : string) (n : nat) : string := Text.join "" (repeat c n).
Definition ex_token : string := ex_chars "t" 43.
Definition ex_key : string := ex_chars "k" 32.
Definition ex_new_token : NewToken :=
  {| nt_sha256 := bytes (ex_chars "t" 32); nt_label := None; nt_created_by := "root"; nt_expires_at := 2 * DAY; nt_max_uses := 1 |}.
Definition ex_uuid : string := "00010203-0405-4607-8809-0a0b0c0d0e0f".
Definition ex_id : string := "agent." +:+ ex_uuid.
Definition ex_enroll (now : Z) (uuid : string) (random : list Z) : EnrollRequest :=
  {| er_body := Some (ex_token, ex_key); er_now := now; er_issued_at := now; er_uuid := uuid; er_random := Some random |}.
Definition ex_request : EnrollRequest := ex_enroll DAY ex_uuid (repeat 1 16).

(** The token created, the request begun, its two statements run. *)
Definition ex_tokened : World := at_tables (default (tables ex_start) (create ex_new_token "token" 0 (tables ex_start))) ex_start.
Definition ex_begun : World :=
  {| tables := tables ex_tokened; enrolls := [(ex_request, enroll_start ex_pki ex_request)]; renewals := [] |}.
Definition run_enroll (i : nat) (w : World) : World :=
  match enrolls w !! i with
  | Some (r, st) =>
      let '(st', t') := enroll_step ex_pki ex_codec (fun _ => true) ex_issuer 90 true r st (tables w) in
      {| tables := t'; enrolls := <[i := (r, st')]> (enrolls w); renewals := renewals w |}
  | None => w
  end.
Definition ex_enrolled : World := run_enroll 0 (run_enroll 0 ex_begun).

Lemma run_enroll_steps i w : rtc ex_step w (run_enroll i w).
Proof.
  unfold run_enroll. destruct (enrolls w !! i) as [[r st]|] eqn:E; [|apply rtc_refl].
  destruct (enroll_step _ _ _ _ _ _ _ _ _) as [st' t'] eqn:Es. apply rtc_once. by eapply StepEnroll.
Qed.
Lemma ex_enrolled_steps : rtc ex_step ex_start ex_enrolled.
Proof.
  apply (rtc_l _ _ ex_tokened).
  { apply (StepCreate _ _ _ _ _ _ _ _ ex_new_token "token" 0). by vm_compute. }
  apply (rtc_l _ _ ex_begun); [exact (StepEnrollStart _ _ _ _ _ _ _ ex_tokened ex_request)|].
  etrans; apply run_enroll_steps.
Qed.

Definition ex_leaf : Leaf :=
  {| leaf_identity := Some (65 :: repeat 1 15, bytes ex_key); leaf_validity := Some (DAY, 91 * DAY) |}.

Lemma identity_provenance_witness :
  authenticated (Some ex_leaf) (2 * DAY) (tables ex_enrolled) = inr ex_id
  /\ currently_valid ex_leaf (2 * DAY) = true
  /\ exists u, In u (token_uses (tables ex_enrolled)) /\ us_agent u = ex_id.
Proof.
  assert (authenticated (Some ex_leaf) (2 * DAY) (tables ex_enrolled) = inr ex_id) as E by (by vm_compute).
  split; [exact E|].
  destruct (identity_provenance ex_pki ex_codec (fun _ => true) ex_issuer 90 ex_times Some ex_start ex_codec_ok ex_enrolled
              (Some ex_leaf) (2 * DAY) ex_id ex_installed ex_enrolled_steps E)
    as (l & serial & spki & El & _ & Hv & _ & u & k & Hu & Eu & _).
  injection El as <-. split; [exact Hv|]. exists u. by split.
Defined.

Lemma enrollments_bounded_witness :
  length (enrollment_tokens (tables ex_enrolled)) = 1%nat /\ NoDup (map us_agent (token_uses (tables ex_enrolled)))
  /\ In ex_id (map us_agent (token_uses (tables ex_enrolled))).
Proof.
  destruct (enrollments_bounded ex_pki ex_codec (fun _ => true) ex_issuer 90 ex_times Some ex_start ex_codec_ok ex_enrolled
              ex_installed ex_enrolled_steps) as (_ & Hnd & Ha & _).
  split; [by vm_compute|]. split; [exact Hnd|]. apply (Ha (Some ex_leaf) (2 * DAY)). by vm_compute.
Defined.

(** Revoked, and the retry refused. *)
Definition ex_revoked : World := at_tables (revoke ex_id (3 * DAY) (tables ex_enrolled)).2 ex_enrolled.
Lemma revocation_final_witness :
  (exists a, agents (tables ex_revoked) = [a] /\ ag_id a = ex_id /\ ag_status a = SRevoked)
  /\ forall leaf now, authenticated leaf now (tables ex_revoked) <> inr ex_id.
Proof.
  destruct (agents (tables ex_revoked)) as [|a [|]] eqn:E; [by vm_compute in E| |by vm_compute in E].
  assert (ag_id a = ex_id /\ ag_status a = SRevoked) as [Ei Es] by (vm_compute in E; injection E as <-; by split).
  split; [by exists a|]. rewrite <- Ei.
  apply (revocation_final ex_pki ex_codec (fun _ => true) ex_issuer 90 ex_times Some ex_start ex_codec_ok ex_revoked ex_revoked a).
  - exact ex_installed.
  - eapply rtc_r; [exact ex_enrolled_steps|]. exact (StepRevoke _ _ _ _ _ _ _ ex_enrolled ex_id (3 * DAY)).
  - rewrite E. by left.
  - by rewrite Es.
  - apply rtc_refl.
Defined.

(** A renewal whose caller was checked before the revocation writes its certificate after it and is
    answered; nobody is let through with that certificate. *)
Definition ex_renew : RenewRequest :=
  {| rr_leaf := Some ex_leaf; rr_body := Some (ex_chars "n" 32); rr_checked_at := 2 * DAY; rr_now := 3 * DAY + 1;
     rr_issued_at := 2 * DAY; rr_random := Some (repeat 3 16) |}.
Definition ex_renewed (st : RenewStage) (t : AgentTables) : RenewStage * AgentTables :=
  renew_step ex_pki ex_codec (fun _ => true) ex_issuer 90 true ex_renew st t.
Example renewal_in_flight :
  match ex_renewed RAuthenticate (tables ex_enrolled) with
  | (RInsert id cert, t) =>
      let t := (revoke id (3 * DAY) t).2 in
      let '(st, t') := ex_renewed (RInsert id cert) t in
      (exists chain expires, st = REnd (Issued ex_id chain expires))
      /\ length (certificates t') = 2%nat
      /\ authenticated (Some {| leaf_identity := Some (ic_serial cert, ic_spki_sha256 cert); leaf_validity := Some (0, 91 * DAY) |}) (4 * DAY) t'
         = inl Revoked
      /\ (ex_renewed RAuthenticate t).1 = REnd (Failed Revoked)
  | _ => False
  end.
Proof. vm_compute. split_and!; [by eexists _, _|done..]. Qed.

(** The same token and key again, with the token's one use gone. *)
Definition ex_retry : EnrollRequest := ex_enroll (DAY + 1) "other" (repeat 2 16).
Lemma retry_same_identity_witness :
  uses_of "token" (tables ex_enrolled) = 1
  /\ enroll_alone ex_pki ex_codec (fun _ => true) ex_issuer 90 ex_retry (tables ex_enrolled)
     = (EEnd (Issued ex_id [ex_key; "issuer"] (91 * 86400 * 1000)), tables ex_enrolled).
Proof.
  split; [by vm_compute|].
  destruct (token_by_hash (bytes (ex_chars "t" 32)) (tables ex_enrolled)) as [k|] eqn:Ek; [|by vm_compute in Ek].
  destruct (agent_of ex_id (tables ex_enrolled)) as [a|] eqn:Ea; [|by vm_compute in Ea].
  apply (retry_same_identity ex_pki ex_codec (fun _ => true) ex_issuer 90 ex_times Some ex_start ex_codec_ok ex_enrolled 0
           ex_request ex_retry ex_id [ex_key; "issuer"] (91 * 86400 * 1000) ex_token ex_key ex_key
           {| public_key := bytes ex_key; checked_spki_sha256 := bytes ex_key |}
           {| public_key := bytes ex_key; checked_spki_sha256 := bytes ex_key |} (bytes (ex_chars "t" 32)) k a).
  - exact ex_installed.
  - exact ex_enrolled_steps.
  - by vm_compute.
  - by vm_compute.
  - by vm_compute.
  - by vm_compute.
  - by vm_compute.
  - by vm_compute.
  - by vm_compute.
  - exact Ek.
  - vm_compute in Ek. injection Ek as <-. by vm_compute.
  - exact Ea.
  - vm_compute in Ea. injection Ea as <-. by vm_compute.
Defined.

(** A second key finds the token used up, a retry after the revocation nothing. *)
Example exhausted_and_revoked :
  let enroll := enroll_alone ex_pki ex_codec (fun _ => true) ex_issuer 90 in
  (enroll {| er_body := Some (ex_token, ex_chars "q" 32); er_now := DAY; er_issued_at := DAY; er_uuid := "u"; er_random := None |}
     (tables ex_enrolled)).1 = EEnd (Failed Unauthorized)
  /\ (enroll ex_retry (tables ex_revoked)).1 = EEnd (Failed Unauthorized)
  /\ authenticated (Some ex_leaf) (2 * DAY) (tables ex_revoked) = inl Revoked
  /\ authenticated (Some ex_leaf) (91 * DAY) (tables ex_enrolled) = inl Unauthorized.
Proof. vm_compute. auto. Qed.
