(* ===== verification/AlarmData.v ===== *)
(** * Agents' alarms: what is stored of them, and what a suppression covers
      (platform-store/src/alarms.rs, rules.rs, wire.rs, console_triage.rs) *)
From S2P Require Import Prelude RustStd Text BTree Json SignData.
From stdpp Require Import prelude strings list.
From Stdlib Require Import Ascii ZArith Lia.

Open Scope Z_scope.

Definition INGEST : string := "ingest".
Definition TEST_NOTE : string := "Test: closed automatically".
Definition TEST_RULES : list (string * string) :=
  [("baseline-alarms", "alarm.openvibes.test"); ("baseline", "test.openvibes.running")].
Definition is_test_rule (set_ rule : string) : bool := bool_decide ((set_, rule) ∈ TEST_RULES).

Inductive Severity := Info | Low | Medium | High | Critical.
Definition severity (s : Severity) : string :=
  match s with Info => "info" | Low => "low" | Medium => "medium" | High => "high" | Critical => "critical" end.

Record StoredAlarm := {
  sa_detection : option value;
  sa_alarm_id : string;
  sa_rule_set_id : string;
  sa_rule_set_version : Z;
  sa_rule_id : string;
  sa_rule_version : Z;
  sa_severity : string;
  sa_confidence : Z;
  sa_message : string;
  sa_first_seen : Z;
  sa_last_seen : Z;
  sa_count : Z;
  sa_process : value;
  sa_ancestors : value;
  sa_exe : string;
  sa_args_sha256 : string;
}.

(** ** Reading an alarm of a batch

    [Alarm] is the document of the protocol's crate; [to_value] of its parts is given with it. *)
Record Alarm := {
  wa_detection : option (option value);
  wa_alarm_id : string;
  wa_rule_set_id : string;
  wa_rule_set_version : Z;
  wa_rule_id : string;
  wa_rule_version : Z;
  wa_severity : Severity;
  wa_confidence : Z;
  wa_message : string;
  wa_first_seen_unix_ms : Z;
  wa_last_seen_unix_ms : Z;
  wa_count : Z;
  wa_process : option value;
  wa_ancestors : option value;
  wa_exe : string;
  wa_args : list string;
}.

Definition i64_try_from (n : Z) : option Z := if (i64_min <=? n) && (n <=? i64_max) then Some n else None.
Definition DAY_US : Z := 86400 * 1000000.
Definition date_naive (t : Z) : Z := t / DAY_US.

Section reading.
Context (cr : Crypto).
(** [serde_json::to_vec] of a list of strings. *)
Context (json_args : list string -> list Z).
(** [DateTime::from_timestamp_millis], in microseconds. *)
Context (from_timestamp_millis : Z -> option Z).

Definition args_sha256 (args : list string) : string := of_bytes (hex_of (sha256 cr (json_args args))).

Definition row (a : Alarm) (oldest latest : Z) (partitions : list Z) : string + StoredAlarm :=
  match from_timestamp_millis (wa_first_seen_unix_ms a), from_timestamp_millis (wa_last_seen_unix_ms a) with
  | Some first_seen, Some last_seen =>
      if (latest <? first_seen) || (latest <? last_seen) then inl "future_observation"
      else if first_seen <? oldest then inl "retention_expired"
      else if negb (existsb (Z.eqb (date_naive first_seen)) partitions) then inl "unstorable"
      else match (match wa_detection a with None => Some None | Some None => None | Some (Some v) => Some (Some v) end),
                 i64_try_from (wa_rule_set_version a), i64_try_from (wa_rule_version a), wa_process a, wa_ancestors a with
      | Some detection, Some set_version, Some version, Some process, Some ancestors =>
          inr {| sa_detection := detection; sa_alarm_id := wa_alarm_id a; sa_rule_set_id := wa_rule_set_id a;
                 sa_rule_set_version := set_version; sa_rule_id := wa_rule_id a; sa_rule_version := version;
                 sa_severity := severity (wa_severity a); sa_confidence := wa_confidence a; sa_message := wa_message a;
                 sa_first_seen := first_seen; sa_last_seen := last_seen; sa_count := wa_count a; sa_process := process;
                 sa_ancestors := ancestors; sa_exe := wa_exe a; sa_args_sha256 := args_sha256 (wa_args a) |}
      | _, _, _, _, _ => inl "out_of_range"
      end
  | _, _ => inl "out_of_range"
  end.

(** The handler's sorting of a batch: what can be stored, and the skips by reason. *)
Fixpoint rows (l : list Alarm) (oldest latest : Z) (partitions : list Z) (skipped : list (string * Z))
    : list StoredAlarm * list (string * Z) :=
  match l with
  | [] => ([], skipped)
  | a :: l =>
      match row a oldest latest partitions with
      | inr r => let '(kept, skipped) := rows l oldest latest partitions skipped in (r :: kept, skipped)
      | inl reason => rows l oldest latest partitions
                        (bt_alter str_cmp reason (fun n => default 0 n + 1) skipped)
      end
  end.
End reading.

(** ** Suppressions *)

Definition suppression_matches (scope : string) (exe args_sha256 agent_id : option string) (alarm_agent : string)
    (alarm : string * string) : bool :=
  let host := match agent_id with None => true | Some agent => String.eqb agent alarm_agent end in
  if String.eqb scope "host" then bool_decide (agent_id = Some alarm_agent)
  else if String.eqb scope "program" then host && bool_decide (exe = Some alarm.1)
  else if String.eqb scope "command" then host && bool_decide (exe = Some alarm.1) && bool_decide (args_sha256 = Some alarm.2)
  else false.

(** ** Triage *)

Definition STATES : list string := ["open"; "mitigated"; "accepted_risk"; "false_positive"].
Definition known_state (state : string) : bool := existsb (String.eqb state) STATES.

Definition fields_valid (state : string) (note : option string) (accepted_until : option Z) (now : Z) : bool :=
  known_state state
  && match note with None => true | Some v => negb (is_blank v) && (char_count v <=? 4000) end
  && Bool.eqb (String.eqb state "accepted_risk") (is_some accepted_until)
  && match accepted_until with None => true | Some v => (now <? v) && (v <=? now + 366 * DAY_US) end.

Definition transition_allowed (from to : string) : bool := known_state from && known_state to.

Definition valid_reason (reason : string) : bool := negb (is_empty reason) && (char_count reason <=? 4000).
