(* ===== verification/AlarmDb.v ===== *)
(** * Agents' alarms: the stored side (platform-store/src/alarms.rs, console_alarms.rs,
      alarm_suppressions.rs, alarm_suppression_writes.rs)

    One row per alarm of an agent, its triage beside it, the starts per hour, and the suppressions
    that close alarms on arrival.  Every function is one transaction; [None] is a failed statement,
    which leaves the tables as they were.  Times are microseconds since the epoch. *)
From S2P Require Import Prelude RustStd Text Json SignData AccessDb AgentDb AlarmData.
From stdpp Require Import prelude strings list pretty.
From Stdlib Require Import Ascii ZArith Lia.

Open Scope Z_scope.

(** ** Tables *)

Record Triage := {
  tr_suppressed_by : option Z;
  tr_state : string;
  tr_assigned_to : option string;
  tr_note : option string;
  tr_accepted_until : option Z;
  tr_version : Z;
  tr_updated_at : option Z;
  tr_updated_by : option string;
}.

Record AlarmRow := {
  al_id : Z;
  al_day : Z;
  al_agent : string;
  al_alarm_id : string;
  al_rule_set_id : string;
  al_rule_set_version : Z;
  al_rule_id : string;
  al_rule_version : Z;
  al_severity : string;
  al_confidence : Z;
  al_message : string;
  al_first_seen : Z;
  al_last_seen : Z;
  al_count : Z;
  al_process : value;
  al_ancestors : value;
  al_received_at : Z;
  al_detection : option value;
  al_triage : Triage;
}.

Record HistoryRow := {
  hy_alarm : Z;
  hy_day : Z;
  hy_from : option string;
  hy_to : string;
  hy_assigned_to : option string;
  hy_accepted_until : option Z;
  hy_note : option string;
  hy_at : Z;
  hy_by : string;
}.

Inductive State := Waiting | Applied | Rejected | Withdrawn | Removed.
#[export] Instance State_eq_dec : EqDecision State.
Proof. solve_decision. Defined.
Definition state_as_str (s : State) : string :=
  match s with
  | Waiting => "waiting" | Applied => "active" | Rejected => "rejected" | Withdrawn => "withdrawn" | Removed => "removed"
  end.

Record SuppressionRow := {
  sp_id : Z;
  sp_rule_set_id : string;
  sp_rule_id : string;
  sp_scope : string;
  sp_agent_id : option string;
  sp_exe : option string;
  sp_args_sha256 : option string;
  sp_device_id : option Z;
  sp_note : string;
  sp_created_by : string;
  sp_created_at : Z;
  sp_state : State;
  sp_host_group_id : option string;
  sp_for_days : option Z;
  sp_activated_at : option Z;
  sp_expires_at : option Z;
  sp_decided_by : option string;
  sp_decided_at : option Z;
  sp_decision_reason : option string;
  sp_removed : option (Z * string);
  sp_alarm_id : option Z;
}.

Record AlarmLog := { ay_actor : string; ay_action : string; ay_target : Z }.

Record AlarmTables := {
  people : Db;
  hosts : AgentTables;
  alarms : list AlarmRow;
  alarm_history : list HistoryRow;
  (** [alarm_hourly_starts]: the alarm's row and the hour, and the starts. *)
  hourly_starts : list ((Z * Z) * Z);
  (** [agents.alarms_dropped_total]. *)
  dropped_totals : list (string * Z);
  suppressions : list SuppressionRow;
  require_approval : bool;
  next_alarm : Z;
  next_suppression : Z;
  alarm_log : list AlarmLog;
}.

Definition set_alarms (f : list AlarmRow -> list AlarmRow) (t : AlarmTables) : AlarmTables :=
  {| people := people t; hosts := hosts t; alarms := f (alarms t); alarm_history := alarm_history t;
     hourly_starts := hourly_starts t; dropped_totals := dropped_totals t; suppressions := suppressions t;
     require_approval := require_approval t; next_alarm := next_alarm t; next_suppression := next_suppression t;
     alarm_log := alarm_log t |}.
Definition add_alarm (r : AlarmRow) (t : AlarmTables) : AlarmTables :=
  {| people := people t; hosts := hosts t; alarms := alarms t ++ [r]; alarm_history := alarm_history t;
     hourly_starts := hourly_starts t; dropped_totals := dropped_totals t; suppressions := suppressions t;
     require_approval := require_approval t; next_alarm := next_alarm t + 1; next_suppression := next_suppression t;
     alarm_log := alarm_log t |}.
Definition add_history (h : list HistoryRow) (t : AlarmTables) : AlarmTables :=
  {| people := people t; hosts := hosts t; alarms := alarms t; alarm_history := alarm_history t ++ h;
     hourly_starts := hourly_starts t; dropped_totals := dropped_totals t; suppressions := suppressions t;
     require_approval := require_approval t; next_alarm := next_alarm t; next_suppression := next_suppression t;
     alarm_log := alarm_log t |}.
Definition set_hourly (f : list ((Z * Z) * Z) -> list ((Z * Z) * Z)) (t : AlarmTables) : AlarmTables :=
  {| people := people t; hosts := hosts t; alarms := alarms t; alarm_history := alarm_history t;
     hourly_starts := f (hourly_starts t); dropped_totals := dropped_totals t; suppressions := suppressions t;
     require_approval := require_approval t; next_alarm := next_alarm t; next_suppression := next_suppression t;
     alarm_log := alarm_log t |}.
Definition set_dropped (f : list (string * Z) -> list (string * Z)) (t : AlarmTables) : AlarmTables :=
  {| people := people t; hosts := hosts t; alarms := alarms t; alarm_history := alarm_history t;
     hourly_starts := hourly_starts t; dropped_totals := f (dropped_totals t); suppressions := suppressions t;
     require_approval := require_approval t; next_alarm := next_alarm t; next_suppression := next_suppression t;
     alarm_log := alarm_log t |}.
Definition set_suppressions (f : list SuppressionRow -> list SuppressionRow) (t : AlarmTables) : AlarmTables :=
  {| people := people t; hosts := hosts t; alarms := alarms t; alarm_history := alarm_history t;
     hourly_starts := hourly_starts t; dropped_totals := dropped_totals t; suppressions := f (suppressions t);
     require_approval := require_approval t; next_alarm := next_alarm t; next_suppression := next_suppression t;
     alarm_log := alarm_log t |}.
Definition add_suppression (r : SuppressionRow) (t : AlarmTables) : AlarmTables :=
  {| people := people t; hosts := hosts t; alarms := alarms t; alarm_history := alarm_history t;
     hourly_starts := hourly_starts t; dropped_totals := dropped_totals t; suppressions := suppressions t ++ [r];
     require_approval := require_approval t; next_alarm := next_alarm t; next_suppression := next_suppression t + 1;
     alarm_log := alarm_log t |}.
Definition log_alarm (r : AlarmLog) (t : AlarmTables) : AlarmTables :=
  {| people := people t; hosts := hosts t; alarms := alarms t; alarm_history := alarm_history t;
     hourly_starts := hourly_starts t; dropped_totals := dropped_totals t; suppressions := suppressions t;
     require_approval := require_approval t; next_alarm := next_alarm t; next_suppression := next_suppression t;
     alarm_log := alarm_log t ++ [r] |}.

(** The rows of a table's alarm: [WHERE id = $1 AND first_seen_day = $2]. *)
Definition update_alarm (id day : Z) (f : AlarmRow -> AlarmRow) : AlarmTables -> AlarmTables :=
  set_alarms (map (fun r => if (al_id r =? id) && (al_day r =? day) then f r else r)).
Definition update_suppression (id : Z) (f : SuppressionRow -> SuppressionRow) : AlarmTables -> AlarmTables :=
  set_suppressions (map (fun s => if sp_id s =? id then f s else s)).

(** [console_host_in_group]. *)
Definition host_in_group (agent group : string) (t : AlarmTables) : bool :=
  existsb (fun m => String.eqb m.1 agent && String.eqb m.2 group) (group_membership (hosts t)).

(** The host of an alarm within a reach: the join with [agents] and [agent_visibility]. *)
Definition host_visible (scope : AgentScope) (agent : string) (t : AlarmTables) : bool :=
  match agent_of agent (hosts t) with Some a => visible scope a (hosts t) | None => false end.

(** ** The constraints of [alarms] *)

Definition note_stored (state : string) (note : option string) : bool :=
  String.eqb state "open" || match note with Some n => (1 <=? char_count n) && (char_count n <=? 4000) | None => false end.
Definition triage_stored (tr : Triage) : bool :=
  known_state (tr_state tr) && note_stored (tr_state tr) (tr_note tr)
  && Bool.eqb (String.eqb (tr_state tr) "accepted_risk") (is_some (tr_accepted_until tr)) && (0 <? tr_version tr).
Definition alarm_stored (r : AlarmRow) : bool :=
  (0 <=? al_rule_set_version r) && (0 <=? al_rule_version r)
  && existsb (String.eqb (al_severity r)) ["critical"; "high"; "medium"; "low"; "info"]
  && (0 <=? al_confidence r) && (al_confidence r <=? 100) && (0 <? al_count r)
  && (al_day r =? date_naive (al_first_seen r)) && (al_first_seen r <=? al_last_seen r) && triage_stored (al_triage r).

(** ** What agents deliver *)

Record Stored := { stored : Z; raised : Z; suppressed : Z }.
Definition nothing_stored : Stored := {| stored := 0; raised := 0; suppressed := 0 |}.

(** [date_trunc('hour', ...)], in a time zone of whole hours. *)
Definition HOUR_US : Z := 3600 * 1000000.
Definition hour_of (t : Z) : Z := t / HOUR_US * HOUR_US.

Definition hourly (alarm now starts : Z) (t : AlarmTables) : option AlarmTables :=
  let key := (alarm, hour_of now) in
  match find (fun e => bool_decide (e.1 = key)) (hourly_starts t) with
  | Some e => if i64_max <? e.2 + starts then None
              else Some (set_hourly (map (fun e => if bool_decide (e.1 = key) then (e.1, e.2 + starts) else e)) t)
  | None => if starts <=? 0 then None else Some (set_hourly (fun l => l ++ [(key, starts)]) t)
  end.

Definition history (alarm day : Z) (from : option string) (to note : string) (now : Z) (by_ : string) : AlarmTables -> AlarmTables :=
  add_history [{| hy_alarm := alarm; hy_day := day; hy_from := from; hy_to := to; hy_assigned_to := None;
                  hy_accepted_until := None; hy_note := Some note; hy_at := now; hy_by := by_ |}].

(** The suppressions a batch of [agent] is held against, in the order of their ids. *)
Definition applies (agent : string) (now : Z) (t : AlarmTables) (s : SuppressionRow) : bool :=
  bool_decide (sp_state s = Applied)
  && match sp_expires_at s with None => true | Some e => now <? e end
  && match sp_agent_id s with None => true | Some a => String.eqb a agent end
  && match sp_host_group_id s with None => true | Some g => host_in_group agent g t end.
Definition of_rules (batch : list StoredAlarm) (s : SuppressionRow) : bool :=
  existsb (fun a => String.eqb (sa_rule_set_id a) (sp_rule_set_id s) && String.eqb (sa_rule_id a) (sp_rule_id s)) batch.
Definition batch_suppressions (agent : string) (batch : list StoredAlarm) (now : Z) (t : AlarmTables) : list SuppressionRow :=
  sort_by (cmp_on sp_id Z.compare) (List.filter (fun s => applies agent now t s && of_rules batch s) (suppressions t)).

(** [Suppression::matches]. *)
Definition matches (s : SuppressionRow) (agent : string) (a : StoredAlarm) : bool :=
  String.eqb (sp_rule_set_id s) (sa_rule_set_id a) && String.eqb (sp_rule_id s) (sa_rule_id a)
  && suppression_matches (sp_scope s) (sp_exe s) (sp_args_sha256 s) (sp_agent_id s) agent (sa_exe a, sa_args_sha256 a).

Definition same_rule (a : StoredAlarm) (r : AlarmRow) : bool :=
  String.eqb (al_rule_set_id r) (sa_rule_set_id a) && (al_rule_set_version r =? sa_rule_set_version a)
  && String.eqb (al_rule_id r) (sa_rule_id a) && (al_rule_version r =? sa_rule_version a).

Definition grown (a : StoredAlarm) (r : AlarmRow) : AlarmRow :=
  let newer := al_last_seen r <? sa_last_seen a in
  {| al_id := al_id r; al_day := al_day r; al_agent := al_agent r; al_alarm_id := al_alarm_id r;
     al_rule_set_id := al_rule_set_id r; al_rule_set_version := al_rule_set_version r; al_rule_id := al_rule_id r;
     al_rule_version := al_rule_version r; al_severity := al_severity r; al_confidence := al_confidence r;
     al_message := al_message r; al_first_seen := al_first_seen r; al_last_seen := Z.max (al_last_seen r) (sa_last_seen a);
     al_count := Z.max (al_count r) (sa_count a); al_process := if newer then sa_process a else al_process r;
     al_ancestors := if newer then sa_ancestors a else al_ancestors r; al_received_at := al_received_at r;
     al_detection := if newer then sa_detection a else al_detection r; al_triage := al_triage r |}.

Definition with_triage (f : Triage -> Triage) (r : AlarmRow) : AlarmRow :=
  {| al_id := al_id r; al_day := al_day r; al_agent := al_agent r; al_alarm_id := al_alarm_id r;
     al_rule_set_id := al_rule_set_id r; al_rule_set_version := al_rule_set_version r; al_rule_id := al_rule_id r;
     al_rule_version := al_rule_version r; al_severity := al_severity r; al_confidence := al_confidence r;
     al_message := al_message r; al_first_seen := al_first_seen r; al_last_seen := al_last_seen r;
     al_count := al_count r; al_process := al_process r; al_ancestors := al_ancestors r;
     al_received_at := al_received_at r; al_detection := al_detection r; al_triage := f (al_triage r) |}.

Definition reopened (now : Z) (tr : Triage) : Triage :=
  {| tr_suppressed_by := tr_suppressed_by tr; tr_state := "open"; tr_assigned_to := tr_assigned_to tr; tr_note := tr_note tr;
     tr_accepted_until := None; tr_version := tr_version tr + 1; tr_updated_at := Some now; tr_updated_by := Some INGEST |}.

Definition risk_expired (now : Z) (tr : Triage) : bool :=
  String.eqb (tr_state tr) "accepted_risk" && match tr_accepted_until tr with Some u => u <=? now | None => false end.

(** A resend, or a recurrence, of an alarm the table holds. *)
Definition insert_known (a : StoredAlarm) (known : AlarmRow) (now : Z) (t : AlarmTables) (done : Stored)
    : option (AlarmTables * Stored) :=
  if negb (same_rule a known) then Some (t, done)
  else if (sa_count a <=? al_count known) && (sa_last_seen a <=? al_last_seen known) then Some (t, done)
  else
    let t := update_alarm (al_id known) (al_day known) (grown a) t in
    t ← (if al_count known <? sa_count a then hourly (al_id known) now (sa_count a - al_count known) t else Some t);
    let recurs := negb (is_test_rule (sa_rule_set_id a) (sa_rule_id a)) && (al_count known <? sa_count a)
                  && (String.eqb (tr_state (al_triage known)) "mitigated" || risk_expired now (al_triage known)) in
    let t := if recurs
             then history (al_id known) (al_day known) (Some (tr_state (al_triage known))) "open" "recurred" now INGEST
                    (update_alarm (al_id known) (al_day known) (with_triage (reopened now)) t)
             else t in
    Some (t, {| stored := stored done; raised := raised done + 1; suppressed := suppressed done |}).

Definition suppressed_note (id : Z) : string := "suppressed by #" +:+ pretty id.

Definition first_triage (by_ : option SuppressionRow) (test : bool) (now : Z) : Triage :=
  let '(state, note) := match by_ with
    | Some s => ("false_positive", Some (suppressed_note (sp_id s)))
    | None => if test then ("mitigated", Some TEST_NOTE) else ("open", None) end in
  let closed := is_some by_ || test in
  {| tr_suppressed_by := sp_id <$> by_; tr_state := state; tr_assigned_to := None; tr_note := note; tr_accepted_until := None;
     tr_version := 1; tr_updated_at := if closed then Some now else None;
     tr_updated_by := if closed then Some INGEST else None |}.

Definition new_row (agent : string) (a : StoredAlarm) (id now : Z) (tr : Triage) : AlarmRow :=
  {| al_id := id; al_day := date_naive (sa_first_seen a); al_agent := agent; al_alarm_id := sa_alarm_id a;
     al_rule_set_id := sa_rule_set_id a; al_rule_set_version := sa_rule_set_version a; al_rule_id := sa_rule_id a;
     al_rule_version := sa_rule_version a; al_severity := sa_severity a; al_confidence := sa_confidence a;
     al_message := sa_message a; al_first_seen := sa_first_seen a; al_last_seen := sa_last_seen a; al_count := sa_count a;
     al_process := sa_process a; al_ancestors := sa_ancestors a; al_received_at := now; al_detection := sa_detection a;
     al_triage := tr |}.

Definition insert_new (agent : string) (supps : list SuppressionRow) (a : StoredAlarm) (now : Z) (t : AlarmTables) (done : Stored)
    : option (AlarmTables * Stored) :=
  let by_ := find (fun s => matches s agent a) supps in
  let test := is_test_rule (sa_rule_set_id a) (sa_rule_id a) in
  let tr := first_triage by_ test now in
  let r := new_row agent a (next_alarm t) now tr in
  if negb (alarm_stored r) then None
  else
    t ← hourly (al_id r) now (sa_count a) (add_alarm r t);
    let t := match tr_note tr with
             | Some note => history (al_id r) (al_day r) None (tr_state tr) note now INGEST t
             | None => t end in
    Some (t, {| stored := stored done + 1; raised := raised done;
                suppressed := suppressed done + (if is_some by_ then 1 else 0) |}).

Definition known_alarm (agent alarm_id : string) (t : AlarmTables) : option AlarmRow :=
  find (fun r => String.eqb (al_agent r) agent && String.eqb (al_alarm_id r) alarm_id) (alarms t).

Fixpoint insert_all (agent : string) (supps : list SuppressionRow) (now : Z) (l : list StoredAlarm) (st : AlarmTables * Stored)
    : option (AlarmTables * Stored) :=
  match l with
  | [] => Some st
  | a :: l =>
      st ← match known_alarm agent (sa_alarm_id a) st.1 with
           | Some known => insert_known a known now st.1 st.2
           | None => insert_new agent supps a now st.1 st.2
           end;
      insert_all agent supps now l st
  end.

(** The largest total an agent reported: one update of its row. *)
Definition keep_dropped (agent : string) (dropped_total : Z) (t : AlarmTables) : AlarmTables :=
  let dropped := match i64_try_from dropped_total with Some n => n | None => i64_max end in
  if negb (is_some (agent_of agent (hosts t))) then t
  else set_dropped (fun l =>
    if existsb (fun e => String.eqb e.1 agent) l
    then map (fun e => if String.eqb e.1 agent then (e.1, Z.max e.2 dropped) else e) l
    else l ++ [(agent, Z.max 0 dropped)]) t.

Definition insert_batch (agent : string) (dropped_total : Z) (batch : list StoredAlarm) (now : Z) (t : AlarmTables)
    : option (AlarmTables * Stored) :=
  let t := keep_dropped agent dropped_total t in
  insert_all agent (batch_suppressions agent batch now t) now batch (t, nothing_stored).

(** ** Triage *)

Record TriageChange := {
  tc_expected_version : Z;
  tc_state : string;
  tc_assigned_to_username : option string;
  tc_note : option string;
  tc_accepted_until : option Z;
}.

Inductive TriageOutcome :=
  | Updated (version : Z) | TriageNotFound | Stale | InvalidTransition | InvalidFields | AssigneeUnavailable.

(** The alarm of an agent within the caller's reach. *)
Definition alarm_in_scope (scope : AgentScope) (id : Z) (t : AlarmTables) : option AlarmRow :=
  find (fun r => (al_id r =? id) && host_visible scope (al_agent r) t) (alarms t).

Definition changed_triage (c : TriageChange) (assigned : option string) (now : Z) (actor : string) (tr : Triage) : Triage :=
  {| tr_suppressed_by := tr_suppressed_by tr; tr_state := tc_state c; tr_assigned_to := assigned; tr_note := tc_note c;
     tr_accepted_until := tc_accepted_until c; tr_version := tr_version tr + 1; tr_updated_at := Some now;
     tr_updated_by := Some actor |}.

Definition closes_with_note (state : string) : bool := existsb (String.eqb state) ["mitigated"; "accepted_risk"; "false_positive"].

Definition update_triage (scope : AgentScope) (id : Z) (c : TriageChange) (actor : string) (now : Z) (t : AlarmTables)
    : TriageOutcome * AlarmTables :=
  if negb (fields_valid (tc_state c) (tc_note c) (tc_accepted_until c) now)
     || (closes_with_note (tc_state c) && negb (is_some (tc_note c)))
  then (InvalidFields, t)
  else match alarm_in_scope scope id t with
  | None => (TriageNotFound, t)
  | Some r =>
      let tr := al_triage r in
      if negb (tr_version tr =? tc_expected_version c) then (Stale, t)
      else if negb (transition_allowed (tr_state tr) (tc_state c)) then (InvalidTransition, t)
      else match (match tc_assigned_to_username c with
                  | None => Some None
                  | Some username => Some <$> assignee username "alarms.triage" (people t) end) with
      | None => (AssigneeUnavailable, t)
      | Some assigned =>
          let assigned_id := fst <$> assigned in
          if String.eqb (tr_state tr) (tc_state c) && bool_decide (tr_assigned_to tr = assigned_id)
             && bool_decide (tr_note tr = tc_note c) && bool_decide (tr_accepted_until tr = tc_accepted_until c)
          then (Updated (tr_version tr), t)
          else
            (Updated (tr_version tr + 1),
             log_alarm {| ay_actor := actor; ay_action := "alarm.triage.changed"; ay_target := id |}
               (add_history [{| hy_alarm := id; hy_day := al_day r; hy_from := Some (tr_state tr); hy_to := tc_state c;
                                hy_assigned_to := assigned_id; hy_accepted_until := tc_accepted_until c;
                                hy_note := tc_note c; hy_at := now; hy_by := actor |}]
                  (update_alarm id (al_day r) (with_triage (changed_triage c assigned_id now actor)) t)))
      end
  end.

(** ** Suppressions *)

Inductive What := Program | Command.
Inductive Where := OnHost | OnGroup (group : string) | Everywhere.
#[export] Instance Where_eq_dec : EqDecision Where.
Proof. solve_decision. Defined.

Record Request := {
  rq_alarm_row_id : Z;
  rq_what : What;
  rq_place : Where;
  rq_for_days : option Z;
  rq_reason : string;
}.

Inductive Change :=
  | Done (s : SuppressionRow) | NotFound | NeedsGlobalScope | NotInReach | Invalid (field : string) | WrongState | OwnRequest.

Definition scope_is_global (s : AgentScope) : bool := match s with ScopeGlobal => true | AssetGroups _ => false end.
Definition scope_groups (s : AgentScope) : list string := match s with ScopeGlobal => [] | AssetGroups ids => ids end.

(** [in_reach] for a writer; the all-hosts case asks for a global caller, which comes first. *)
Definition in_reach (scope : AgentScope) (s : SuppressionRow) (t : AlarmTables) : bool :=
  scope_is_global scope
  || match sp_agent_id s with Some a => host_visible scope a t | None => false end
  || match sp_host_group_id s with Some g => existsb (String.eqb g) (scope_groups scope) | None => false end.

Definition suppression_of (id : Z) (t : AlarmTables) : option SuppressionRow :=
  find (fun s => sp_id s =? id) (suppressions t).

Section writes.
Context (cr : Crypto) (json_args : list string -> list Z).
(** The text PostgreSQL gives a JSON value that is neither a string nor null. *)
Context (json_text : value -> string).

(** [Vec<String>] read from a JSON value. *)
Fixpoint strings_of (l : list value) : option (list string) :=
  match l with
  | [] => Some []
  | JString s :: l => (cons s) <$> strings_of l
  | _ => None
  end.
Definition string_list (v : value) : option (list string) :=
  match v with JArray l => strings_of l | _ => None end.

(** The alarms [close_source] closes. *)
Definition closable (s : SuppressionRow) (ids : list Z) (scope : AgentScope) (t : AlarmTables) (r : AlarmRow) : bool :=
  existsb (Z.eqb (al_id r)) ids && bool_decide (sp_state s = Applied)
  && existsb (String.eqb (tr_state (al_triage r))) ["open"; "investigating"]
  && String.eqb (al_rule_set_id r) (sp_rule_set_id s) && String.eqb (al_rule_id r) (sp_rule_id s)
  && bool_decide (text_field json_text (al_process r) "exe" = sp_exe s)
  && (String.eqb (sp_scope s) "program" || bool_decide (sp_alarm_id s = Some (al_id r)))
  && match sp_agent_id s with None => true | Some a => String.eqb (al_agent r) a end
  && match sp_host_group_id s with None => true | Some g => host_in_group (al_agent r) g t end
  && host_visible scope (al_agent r) t.

Definition closed_by (id : Z) (note : string) (now : Z) (actor : string) (tr : Triage) : Triage :=
  {| tr_suppressed_by := Some id; tr_state := "false_positive"; tr_assigned_to := tr_assigned_to tr; tr_note := Some note;
     tr_accepted_until := tr_accepted_until tr; tr_version := tr_version tr + 1; tr_updated_at := Some now;
     tr_updated_by := Some actor |}.

Definition close_source (id : Z) (ids : list Z) (scope : AgentScope) (actor : string) (now : Z) (t : AlarmTables) : AlarmTables :=
  match suppression_of id t with
  | None => t
  | Some s =>
      let note := suppressed_note id in
      let rows := List.filter (closable s ids scope t) (alarms t) in
      add_history (map (fun r => {| hy_alarm := al_id r; hy_day := al_day r; hy_from := Some (tr_state (al_triage r));
                                    hy_to := "false_positive"; hy_assigned_to := None; hy_accepted_until := None;
                                    hy_note := Some note; hy_at := now; hy_by := actor |}) rows)
        (set_alarms (map (fun r => if closable s ids scope t r then with_triage (closed_by id note now actor) r else r)) t)
  end.

Definition suppression_log (action actor : string) (id : Z) : AlarmTables -> AlarmTables :=
  log_alarm {| ay_actor := actor; ay_action := action; ay_target := id |}.

(** The suppression as it is now, with its audit line. *)
Definition made (action actor : string) (id : Z) (t : AlarmTables) : option (Change * AlarmTables) :=
  s ← suppression_of id t; Some (Done s, suppression_log action actor id t).

(** [make_interval(hours => 24 * for_days)] after the activation. *)
Definition expiry (activated_at : option Z) (for_days : option Z) : option Z :=
  a ← activated_at; d ← for_days; Some (a + 24 * d * HOUR_US).

Definition request (suppress : AgentScope) (q : Request) (actor : string) (now : Z) (t : AlarmTables)
    : option (Change * AlarmTables) :=
  let reason := Text.trim (rq_reason q) in
  if negb (valid_reason reason) then Some (Invalid "reason", t)
  else if negb (bool_decide (rq_for_days q ∈ [None; Some 7; Some 30])) then Some (Invalid "for", t)
  else if bool_decide (rq_place q = Everywhere) && negb (scope_is_global suppress) then Some (NeedsGlobalScope, t)
  else
      let group := match rq_place q with OnGroup g => Some g | _ => None end in
      if match group with
         | Some g => negb (scope_is_global suppress) && negb (existsb (String.eqb g) (scope_groups suppress))
         | None => false end
      then Some (NotInReach, t)
      else if match group with Some g => negb (existsb (String.eqb g) (asset_groups (people t))) | None => false end
      then Some (Invalid "group", t)
      else match alarm_in_scope suppress (rq_alarm_row_id q) t with
      | None => Some (NotFound, t)
      | Some r =>
          scope_hash ← (match rq_what q with
            | Program => Some (Some ("program", None))
            | Command => args ← get (al_process r) "args";
                         Some ((fun l => ("command", Some (args_sha256 cr json_args l))) <$> string_list args)
            end : option (option (string * option string)));
          match scope_hash with
          | None => Some (Invalid "command", t)
          | Some (scope, hash) =>
              let state := if require_approval t then Waiting else Applied in
              let activated_at := if decide (state = Applied) then Some now else None in
              let id := next_suppression t in
              exe ← text_field json_text (al_process r) "exe";
              let s := {| sp_id := id; sp_rule_set_id := al_rule_set_id r; sp_rule_id := al_rule_id r; sp_scope := scope;
                          sp_agent_id := match rq_place q with OnHost => Some (al_agent r) | _ => None end;
                          sp_exe := Some exe; sp_args_sha256 := hash; sp_device_id := None; sp_note := reason;
                          sp_created_by := actor; sp_created_at := now; sp_state := state; sp_host_group_id := group;
                          sp_for_days := rq_for_days q; sp_activated_at := activated_at;
                          sp_expires_at := expiry activated_at (rq_for_days q); sp_decided_by := None; sp_decided_at := None;
                          sp_decision_reason := None; sp_removed := None; sp_alarm_id := Some (rq_alarm_row_id q) |} in
              let t := add_suppression s t in
              if decide (state = Applied)
              then made "alarm.suppression.created" actor id (close_source id [rq_alarm_row_id q] suppress actor now t)
              else made "alarm.suppression.requested" actor id t
          end
      end.

Definition decided (state : State) (actor : string) (now : Z) (reason : option string) (s : SuppressionRow) : SuppressionRow :=
  {| sp_id := sp_id s; sp_rule_set_id := sp_rule_set_id s; sp_rule_id := sp_rule_id s; sp_scope := sp_scope s;
     sp_agent_id := sp_agent_id s; sp_exe := sp_exe s; sp_args_sha256 := sp_args_sha256 s; sp_device_id := sp_device_id s;
     sp_note := sp_note s; sp_created_by := sp_created_by s; sp_created_at := sp_created_at s; sp_state := state;
     sp_host_group_id := sp_host_group_id s; sp_for_days := sp_for_days s;
     sp_activated_at := if decide (state = Applied) then Some now else None;
     sp_expires_at := if decide (state = Applied) then expiry (Some now) (sp_for_days s) else None;
     sp_decided_by := Some actor; sp_decided_at := Some now; sp_decision_reason := reason; sp_removed := sp_removed s;
     sp_alarm_id := sp_alarm_id s |}.

Definition decide_request (approve : AgentScope) (id : Z) (approve_it : bool) (reason : option string) (actor : string) (now : Z)
    (t : AlarmTables) : option (Change * AlarmTables) :=
  match find (fun s => (sp_id s =? id) && in_reach approve s t) (suppressions t) with
  | None => Some (NotFound, t)
  | Some s =>
      if negb (bool_decide (sp_state s = Waiting)) then Some (WrongState, t)
      else if String.eqb (sp_created_by s) actor then Some (OwnRequest, t)
      else
        let reason := match Text.trim <$> reason with Some r => if is_empty r then None else Some r | None => None end in
        if match reason with Some r => negb (valid_reason r) | None => negb approve_it end then Some (Invalid "reason", t)
        else if approve_it && match sp_host_group_id s with Some g => negb (existsb (String.eqb g) (asset_groups (people t)))
                                                          | None => false end
        then Some (Invalid "group", t)
        else
          let state := if approve_it then Applied else Rejected in
          let t := update_suppression id (decided state actor now reason) t in
          let t := match approve_it, sp_alarm_id s with
                   | true, Some alarm => close_source id [alarm] ScopeGlobal actor now t
                   | _, _ => t end in
          made (if approve_it then "alarm.suppression.approved" else "alarm.suppression.rejected") actor id t
  end.

Definition ended (state : State) (now : Z) (actor : string) (s : SuppressionRow) : SuppressionRow :=
  {| sp_id := sp_id s; sp_rule_set_id := sp_rule_set_id s; sp_rule_id := sp_rule_id s; sp_scope := sp_scope s;
     sp_agent_id := sp_agent_id s; sp_exe := sp_exe s; sp_args_sha256 := sp_args_sha256 s; sp_device_id := sp_device_id s;
     sp_note := sp_note s; sp_created_by := sp_created_by s; sp_created_at := sp_created_at s; sp_state := state;
     sp_host_group_id := sp_host_group_id s; sp_for_days := sp_for_days s; sp_activated_at := sp_activated_at s;
     sp_expires_at := sp_expires_at s;
     sp_decided_by := if decide (state = Withdrawn) then Some actor else sp_decided_by s;
     sp_decided_at := if decide (state = Withdrawn) then Some now else sp_decided_at s;
     sp_decision_reason := sp_decision_reason s;
     sp_removed := if decide (state = Removed) then Some (now, actor) else sp_removed s; sp_alarm_id := sp_alarm_id s |}.

Definition withdraw (id : Z) (actor : string) (now : Z) (t : AlarmTables) : option (Change * AlarmTables) :=
  match find (fun s => (sp_id s =? id) && String.eqb (sp_created_by s) actor) (suppressions t) with
  | None => Some (NotFound, t)
  | Some s =>
      if negb (bool_decide (sp_state s = Waiting)) then Some (WrongState, t)
      else made "alarm.suppression.withdrawn" actor id (update_suppression id (ended Withdrawn now actor) t)
  end.

Definition remove (suppress : AgentScope) (id : Z) (actor : string) (now : Z) (t : AlarmTables) : option (Change * AlarmTables) :=
  match find (fun s => (sp_id s =? id) && bool_decide (sp_state s = Applied) && in_reach suppress s t) (suppressions t) with
  | None => Some (NotFound, t)
  | Some s => made "alarm.suppression.removed" actor id (update_suppression id (ended Removed now actor) t)
  end.

(** [close_covered]: the alarms now closed, and the tables. *)
Definition close_covered (suppress : AgentScope) (id : Z) (ids : list Z) (actor : string) (now : Z) (t : AlarmTables)
    : list Z * AlarmTables :=
  let t := close_source id ids suppress actor now t in
  (map al_id (List.filter (fun r => existsb (Z.eqb (al_id r)) ids && bool_decide (tr_suppressed_by (al_triage r) = Some id)) (alarms t)), t).

(** A suppression made from the alarm of a network device, for that device or for every one. [alarm] is what the read of the
    alarm's row answers, its rule set, its rule and its device: those rows are the collector's. It is active at once. *)
Definition create_for_device (alarm : option (string * string * Z)) (alarm_row_id : Z) (kind note actor : string) (now : Z)
    (t : AlarmTables) : option (Change * AlarmTables) :=
  if negb (existsb (String.eqb kind) ["device"; "signature"]) then Some (Invalid "scope", t)
  else if negb (valid_reason (Text.trim note)) then Some (Invalid "reason", t)
  else match alarm with
  | None => Some (NotFound, t)
  | Some (rule_set, rule, device) =>
      let id := next_suppression t in
      let s := {| sp_id := id; sp_rule_set_id := rule_set; sp_rule_id := rule; sp_scope := kind; sp_agent_id := None;
                  sp_exe := None; sp_args_sha256 := None; sp_device_id := if String.eqb kind "device" then Some device else None;
                  sp_note := Text.trim note; sp_created_by := actor; sp_created_at := now; sp_state := Applied;
                  sp_host_group_id := None; sp_for_days := None; sp_activated_at := Some now; sp_expires_at := None;
                  sp_decided_by := None; sp_decided_at := None; sp_decision_reason := None; sp_removed := None;
                  sp_alarm_id := Some alarm_row_id |} in
      if negb (RustStd.starts_with rule_set "device-") then None
      else made "alarm.suppression.created" actor id (add_suppression s t)
  end.
End writes.

(** ** What the deletion of a host group does to them (host_group_writes.rs) *)

(** The suppressions of a group that goes, in one of the two states. *)
Definition end_suppressions (id : string) (from to : State) (action actor : string) (now : Z) (s : AlarmTables) : AlarmTables :=
  let goes sp := bool_decide (sp_host_group_id sp = Some id) && bool_decide (sp_state sp = from) in
  fold_left (fun s sp => suppression_log action actor (sp_id sp) s) (List.filter goes (suppressions s))
    (set_suppressions (map (fun sp => if goes sp then ended to now actor sp else sp)) s).
Definition suppressions_ended (id : string) (s : AlarmTables) : Z :=
  Z.of_nat (length (List.filter (fun sp => bool_decide (sp_host_group_id sp = Some id)
    && (bool_decide (sp_state sp = Waiting) || bool_decide (sp_state sp = Applied))) (suppressions s))).
Definition end_group_suppressions (id actor : string) (now : Z) (s : AlarmTables) : AlarmTables :=
  end_suppressions id Applied Removed "alarm.suppression.removed" actor now
    (end_suppressions id Waiting Withdrawn "alarm.suppression.withdrawn" actor now s).
