(* ===== verification/AlarmInv.v ===== *)
(** * Agents' alarms: what every transaction keeps, and the reachable tables

    Three invariants.  [counted]: the rows are the maxima of what was delivered, and the starts per hour
    sum up to the counts.  [recorded]: the history accounts for every change of triage.  [proper]: the
    suppressions went through their states, and close only alarms of their rule. *)
From S2P Require Import Prelude RustStd Text Json AccessDb SignData AgentDb AgentInv AlarmData AlarmDb.
From stdpp Require Import prelude strings list pretty.
From Stdlib Require Import Ascii ZArith Lia.

Open Scope Z_scope.

(** What is not triage. *)
Definition untriaged : Triage :=
  {| tr_suppressed_by := None; tr_state := ""; tr_assigned_to := None; tr_note := None; tr_accepted_until := None;
     tr_version := 0; tr_updated_at := None; tr_updated_by := None |}.
Definition core (r : AlarmRow) : AlarmRow := with_triage (fun _ => untriaged) r.

Lemma core_with_triage f r : core (with_triage f r) = core r.
Proof. done. Qed.

(** ** Starts per hour *)

Definition starts_in (id : Z) (l : list ((Z * Z) * Z)) : Z :=
  foldr (fun e n => (if e.1.1 =? id then e.2 else 0) + n) 0 l.

Lemma starts_in_app id l l' : starts_in id (l ++ l') = starts_in id l + starts_in id l'.
Proof. induction l as [|e l IH]; simpl; [done|]. lia. Qed.

Lemma starts_in_map id key n l : NoDup (map fst l) ->
  starts_in id (map (fun e => if bool_decide (e.1 = key) then (e.1, e.2 + n) else e) l)
  = starts_in id l + (if (key.1 =? id) && existsb (fun e => bool_decide (e.1 = key)) l then n else 0).
Proof.
  induction l as [|e l IH]; simpl; [intros _; by rewrite andb_false_r|]. intros [Hn Hnd]%NoDup_cons. rewrite IH by done.
  destruct (bool_decide (e.1 = key)) eqn:E; [|simpl; lia]. apply bool_decide_eq_true in E. simpl. rewrite E.
  assert (existsb (fun e => bool_decide (e.1 = key)) l = false) as ->.
  { apply not_true_iff_false. intros (e' & Hin & E'%bool_decide_eq_true)%existsb_exists. apply Hn, list_elem_of_In.
    rewrite E, <- E'. by apply in_map. }
  rewrite andb_false_r, andb_true_r. destruct (key.1 =? id); lia.
Qed.

Lemma find_existsb {A} (p : A -> bool) l : is_some (find p l) = existsb p l.
Proof. induction l as [|x l IH]; simpl; [done|]. by destruct (p x). Qed.

Lemma hourly_some id now n t t' : NoDup (map fst (hourly_starts t)) -> hourly id now n t = Some t' ->
  exists f, t' = set_hourly f t /\ NoDup (map fst (f (hourly_starts t)))
  /\ (forall id', starts_in id' (f (hourly_starts t)) = starts_in id' (hourly_starts t) + (if id =? id' then n else 0))
  /\ forall e, In e (f (hourly_starts t)) -> e.1.1 = id \/ exists e', In e' (hourly_starts t) /\ e.1 = e'.1.
Proof.
  intros Hnd. unfold hourly. set (key := (id, hour_of now)). pose proof (find_existsb (fun e => bool_decide (e.1 = key)) (hourly_starts t)) as Hf.
  destruct (find _ (hourly_starts t)) as [e|]; simpl in Hf; case_match; try done; intros [= <-]; (eexists; split; [done|]).
  - split; [|split].
    + rewrite map_map, (map_ext _ fst); [done|]. intros e'. by case_match.
    + intros id'. rewrite starts_in_map by done. rewrite <- Hf, andb_true_r. done.
    + intros e' (e0 & <- & Hin)%in_map_iff. right. exists e0. split; [done|]. by case_match.
  - split; [|split].
    + rewrite map_app. apply NoDup_snoc; [done|]. intros (e & Ee & Hin)%list_elem_of_In%in_map_iff. symmetry in Hf.
      apply not_true_iff_false in Hf. apply Hf, existsb_exists. exists e. split; [done|]. by apply bool_decide_eq_true.
    + intros id'. rewrite starts_in_app. simpl. lia.
    + intros e [Hin| ->]%in_snoc; [right; by exists e|by left].
Qed.

(** ** The rows are what was delivered *)

Definition Log : Type := list (string * StoredAlarm).

(** A delivered alarm that counts for a row. *)
Definition of_row (r : AlarmRow) (d : string * StoredAlarm) : Prop :=
  d.1 = al_agent r /\ sa_alarm_id d.2 = al_alarm_id r /\ same_rule d.2 r = true.

Record counted (log : Log) (t : AlarmTables) : Prop := {
  c_ids : NoDup (map al_id (alarms t));
  c_keys : NoDup (map (fun r => (al_agent r, al_alarm_id r)) (alarms t));
  c_next : forall r, In r (alarms t) -> al_id r < next_alarm t;
  c_hours : NoDup (map fst (hourly_starts t));
  c_hours_next : forall e, In e (hourly_starts t) -> e.1.1 < next_alarm t;
  c_sum : forall r, In r (alarms t) -> starts_in (al_id r) (hourly_starts t) = al_count r;
  c_row : forall d, In d log -> exists r, In r (alarms t) /\ al_agent r = d.1 /\ al_alarm_id r = sa_alarm_id d.2;
  c_max : forall r d, In r (alarms t) -> In d log -> of_row r d -> sa_count d.2 <= al_count r /\ sa_last_seen d.2 <= al_last_seen r;
  c_attained : forall r, In r (alarms t) ->
    (exists d, In d log /\ of_row r d /\ sa_count d.2 = al_count r)
    /\ exists d, In d log /\ of_row r d /\ sa_last_seen d.2 = al_last_seen r;
}.

(** Triage changes none of it. *)
Definition same_rows (t t' : AlarmTables) : Prop :=
  map core (alarms t') = map core (alarms t) /\ hourly_starts t' = hourly_starts t /\ next_alarm t' = next_alarm t.

Lemma same_rows_refl t : same_rows t t.
Proof. done. Qed.
Lemma same_rows_trans t1 t2 t3 : same_rows t1 t2 -> same_rows t2 t3 -> same_rows t1 t3.
Proof. intros (? & ? & ?) (? & ? & ?). split_and!; congruence. Qed.

Lemma same_rows_map f t : (forall r, core (f r) = core r) -> same_rows t (set_alarms (map f) t).
Proof. intros Hf. split_and!; [|done..]. simpl. rewrite map_map. by apply map_ext. Qed.

Lemma same_core r r' : core r' = core r -> al_id r' = al_id r /\ al_day r' = al_day r /\ al_agent r' = al_agent r
  /\ al_alarm_id r' = al_alarm_id r /\ al_count r' = al_count r /\ al_last_seen r' = al_last_seen r
  /\ al_first_seen r' = al_first_seen r /\ al_rule_set_id r' = al_rule_set_id r /\ al_rule_id r' = al_rule_id r
  /\ al_rule_set_version r' = al_rule_set_version r /\ al_rule_version r' = al_rule_version r.
Proof. intros E. unfold core, with_triage in E. injection E. intros. split_and!; done. Qed.

Lemma same_rows_in t t' r' : same_rows t t' -> In r' (alarms t') -> exists r, In r (alarms t) /\ core r' = core r.
Proof.
  intros (E & _) Hin. assert (In (core r') (map core (alarms t))) as (r & Er & Hr)%in_map_iff by (rewrite <- E; by apply in_map).
  by exists r.
Qed.
Lemma same_rows_sym t t' : same_rows t t' -> same_rows t' t.
Proof. by intros (? & ? & ?). Qed.

Lemma same_core_rule a r r' : core r' = core r -> same_rule a r' = same_rule a r.
Proof. intros (_ & _ & _ & _ & _ & _ & _ & E1 & E2 & E3 & E4)%same_core. unfold same_rule. by rewrite E1, E2, E3, E4. Qed.

Lemma of_row_core r r' d : core r' = core r -> of_row r' d <-> of_row r d.
Proof.
  intros E. unfold of_row. rewrite (same_core_rule _ _ _ E). destruct (same_core _ _ E) as (_ & _ & -> & -> & _). done.
Qed.

Lemma counted_same log t t' : same_rows t t' -> counted log t -> counted log t'.
Proof.
  intros Hs [H1 H2 H3 H4 H5 H6 H7 H8 H9]. pose proof Hs as (E & Eh & En).
  assert (forall {K} (f : AlarmRow -> K), (forall r, f (core r) = f r) -> map f (alarms t') = map f (alarms t)) as Hmap.
  { intros K f Hf. transitivity (map f (map core (alarms t'))); [rewrite map_map; symmetry; by apply map_ext|].
    rewrite E, map_map. by apply map_ext. }
  split; rewrite ?Eh, ?En; try done.
  - by rewrite (Hmap _ al_id).
  - by rewrite (Hmap _ (fun r => (al_agent r, al_alarm_id r))).
  - intros r' (r & Hr & Ec)%(same_rows_in t); [|done]. destruct (same_core _ _ Ec) as (-> & _). auto.
  - intros r' (r & Hr & Ec)%(same_rows_in t); [|done]. destruct (same_core _ _ Ec) as (-> & _ & _ & _ & -> & _). auto.
  - intros d Hd. destruct (H7 d Hd) as (r & Hr & Ea & Ei). destruct (same_rows_in t' t r (same_rows_sym _ _ Hs) Hr) as (r' & Hr' & Ec).
    exists r'. destruct (same_core _ _ Ec) as (_ & _ & <- & <- & _). done.
  - intros r' d (r & Hr & Ec)%(same_rows_in t) Hd Ho; [|done]. apply (of_row_core r) in Ho; [|done].
    destruct (same_core _ _ Ec) as (_ & _ & _ & _ & -> & -> & _). auto.
  - intros r' (r & Hr & Ec)%(same_rows_in t); [|done]. destruct (same_core _ _ Ec) as (_ & _ & _ & _ & -> & -> & _).
    destruct (H9 r Hr) as [(d & Hd & Ho & Ed) (d' & Hd' & Ho' & Ed')].
    split; [exists d|exists d']; by rewrite (of_row_core r).
Qed.

(** ** A batch is counted *)

#[export] Instance of_row_dec r d : Decision (of_row r d).
Proof. unfold of_row. apply _. Defined.

(** One more delivery of a row raises it to the maximum. *)
Lemma counted_raise log t t' agent a known (g : AlarmRow -> AlarmRow) : counted log t -> In known (alarms t) ->
  al_agent known = agent -> al_alarm_id known = sa_alarm_id a -> alarms t' = map g (alarms t) -> next_alarm t' = next_alarm t ->
  NoDup (map fst (hourly_starts t')) -> (forall e, In e (hourly_starts t') -> e.1.1 < next_alarm t') ->
  (forall r, In r (alarms t) -> starts_in (al_id r) (hourly_starts t') = al_count (g r)) ->
  (forall r, In r (alarms t) -> al_id (g r) = al_id r /\ al_agent (g r) = al_agent r /\ al_alarm_id (g r) = al_alarm_id r
     /\ forall d, of_row (g r) d <-> of_row r d) ->
  (forall r, In r (alarms t) -> of_row r (agent, a) ->
     al_count (g r) = Z.max (al_count r) (sa_count a) /\ al_last_seen (g r) = Z.max (al_last_seen r) (sa_last_seen a)) ->
  (forall r, In r (alarms t) -> ~ of_row r (agent, a) -> al_count (g r) = al_count r /\ al_last_seen (g r) = al_last_seen r) ->
  counted (log ++ [(agent, a)]) t'.
Proof.
  intros [H1 H2 H3 H4 H5 H6 H7 H8 H9] Hk Hag Hid Eal En Hnd Hlt Hsum Hkeep Hof Hnot.
  assert (forall {K} (f : AlarmRow -> K), (forall r, In r (alarms t) -> f (g r) = f r) -> map f (alarms t') = map f (alarms t)) as Hmap.
  { intros K f Hf. rewrite Eal, map_map. by apply map_ext_in. }
  assert (forall r', In r' (alarms t') -> exists r, In r (alarms t) /\ r' = g r) as Hin.
  { rewrite Eal. intros r' (r & <- & Hr)%in_map_iff. by exists r. }
  split; try done.
  - rewrite (Hmap _ al_id); [done|]. intros r Hr. by apply Hkeep.
  - rewrite (Hmap _ (fun r => (al_agent r, al_alarm_id r))); [done|]. intros r Hr. by destruct (Hkeep r Hr) as (_ & -> & -> & _).
  - rewrite En. intros r' (r & Hr & ->)%Hin. destruct (Hkeep r Hr) as (-> & _). auto.
  - intros r' (r & Hr & ->)%Hin. destruct (Hkeep r Hr) as (-> & _). auto.
  - intros d Hd. assert (exists r, In r (alarms t) /\ al_agent r = d.1 /\ al_alarm_id r = sa_alarm_id d.2) as (r & Hr & Ea & Ei).
    { apply in_snoc in Hd as [Hd| ->]; [by apply H7|]. by exists known. }
    exists (g r). destruct (Hkeep r Hr) as (_ & -> & -> & _). rewrite Eal. split; [by apply in_map|done].
  - intros r' d (r & Hr & ->)%Hin Hd Ho. destruct (Hkeep r Hr) as (_ & _ & _ & Hiff). apply Hiff in Ho.
    destruct (decide (of_row r (agent, a))) as [Hn|Hn].
    + destruct (Hof r Hr Hn) as [-> ->]. apply in_snoc in Hd as [Hd| ->]; [|simpl; lia]. destruct (H8 r d Hr Hd Ho). lia.
    + destruct (Hnot r Hr Hn) as [-> ->]. apply in_snoc in Hd as [Hd| ->]; [|done]. by apply H8.
  - intros r' (r & Hr & ->)%Hin. destruct (Hkeep r Hr) as (_ & _ & _ & Hiff).
    destruct (H9 r Hr) as [(d & Hd & Ho & Ed) (d' & Hd' & Ho' & Ed')].
    assert (forall d, In d log -> In d (log ++ [(agent, a)])) as Hl by (intros; apply in_snoc; auto).
    assert (In (agent, a) (log ++ [(agent, a)])) as Hnew by (apply in_snoc; auto).
    destruct (decide (of_row r (agent, a))) as [Hn|Hn].
    + destruct (Hof r Hr Hn) as [-> ->]. split.
      * destruct (Z.max_spec (al_count r) (sa_count a)) as [[_ ->]|[_ ->]]; [exists (agent, a)|exists d]; rewrite Hiff; auto.
      * destruct (Z.max_spec (al_last_seen r) (sa_last_seen a)) as [[_ ->]|[_ ->]]; [exists (agent, a)|exists d']; rewrite Hiff; auto.
    + destruct (Hnot r Hr Hn) as [-> ->]. split; [exists d|exists d']; rewrite Hiff; auto.
Qed.

Lemma known_spec agent id t r : known_alarm agent id t = Some r -> In r (alarms t) /\ al_agent r = agent /\ al_alarm_id r = id.
Proof. intros [Hin [E1%String.eqb_eq E2%String.eqb_eq]%andb_prop]%find_some. done. Qed.

Lemma same_rows_update id day f t : same_rows t (update_alarm id day (with_triage f) t).
Proof. apply same_rows_map. intros r. by case_match. Qed.
Lemma same_rows_history h t : same_rows t (add_history h t).
Proof. done. Qed.

(** A row of the known alarm's key is that alarm. *)
Lemma of_row_known log t agent a known r : counted log t -> In known (alarms t) -> al_agent known = agent ->
  al_alarm_id known = sa_alarm_id a -> In r (alarms t) -> of_row r (agent, a) -> r = known.
Proof.
  intros [_ H2 _ _ _ _ _ _ _] Hk Ea Ei Hr (E1 & E2 & _). simpl in *. apply (NoDup_map_inj (fun r => (al_agent r, al_alarm_id r)) (alarms t)); try done. congruence.
Qed.

Lemma counted_resend log t agent a known : counted log t -> In known (alarms t) -> al_agent known = agent ->
  al_alarm_id known = sa_alarm_id a -> (same_rule a known = true -> sa_count a <= al_count known /\ sa_last_seen a <= al_last_seen known) ->
  counted (log ++ [(agent, a)]) t.
Proof.
  intros Hc Hk Ea Ei Hle. pose proof Hc as [H1 H2 H3 H4 H5 H6 H7 H8 H9].
  apply (counted_raise log t t agent a known (fun r => r)); try done; [by rewrite map_id|].
  intros r Hr Ho. pose proof (of_row_known _ _ _ _ _ _ Hc Hk Ea Ei Hr Ho) as ->. destruct Ho as (_ & _ & Hs).
  destruct (Hle Hs). lia.
Qed.

Lemma counted_grown log t t' agent a known now : counted log t -> In known (alarms t) -> al_agent known = agent ->
  al_alarm_id known = sa_alarm_id a -> same_rule a known = true ->
  (if al_count known <? sa_count a
   then hourly (al_id known) now (sa_count a - al_count known) (update_alarm (al_id known) (al_day known) (grown a) t)
   else Some (update_alarm (al_id known) (al_day known) (grown a) t)) = Some t' ->
  counted (log ++ [(agent, a)]) t' /\ alarms t' = alarms (update_alarm (al_id known) (al_day known) (grown a) t).
Proof.
  intros Hc Hk Ea Ei Hs E. pose proof Hc as [H1 H2 H3 H4 H5 H6 H7 H8 H9].
  set (u := update_alarm (al_id known) (al_day known) (grown a) t) in *.
  assert (exists h, t' = set_hourly (fun _ => h) u /\ NoDup (map fst h) /\ (forall e, In e h -> e.1.1 < next_alarm t)
    /\ forall id, starts_in id h = starts_in id (hourly_starts t)
                  + (if al_id known =? id then Z.max (al_count known) (sa_count a) - al_count known else 0))
    as (h & -> & Hnd & Hlt & Hsum).
  { destruct (al_count known <? sa_count a) eqn:El.
    - apply hourly_some in E as (f & -> & Hnd & Hsum & Hids); [|done]. exists (f (hourly_starts t)). split; [done|]. split; [done|].
      split; [|intros id; rewrite Hsum; simpl; case_match; lia].
      intros e He. destruct (Hids e He) as [->|(e' & He' & ->)]; [by apply H3|by apply H5].
    - injection E as <-. exists (hourly_starts t). split_and!; try done. intros id. case_match; lia. }
  split; [|done].
  set (g := fun r => if (al_id r =? al_id known) && (al_day r =? al_day known) then grown a r else r).
  assert (forall r, In r (alarms t) -> r = known \/ (al_id r =? al_id known) = false) as Hcase.
  { intros r Hr. destruct (al_id r =? al_id known) eqn:E'; [left|by right]. apply (NoDup_map_inj al_id (alarms t)); try done. lia. }
  assert (g known = grown a known) as Hgk by (unfold g; by rewrite !Z.eqb_refl).
  apply (counted_raise log t _ agent a known g); try done.
  - intros r Hr. simpl. rewrite Hsum, H6 by done. destruct (Hcase r Hr) as [->|En].
    + rewrite Z.eqb_refl, Hgk. simpl. lia.
    + unfold g. rewrite Z.eqb_sym, En. simpl. lia.
  - intros r Hr. unfold g. destruct (_ && _); split_and!; (done || (intros d; unfold of_row, same_rule; reflexivity)).
  - intros r Hr Ho. pose proof (of_row_known _ _ _ _ _ _ Hc Hk Ea Ei Hr Ho) as ->. by rewrite Hgk.
  - intros r Hr Hno. destruct (Hcase r Hr) as [->|En]; [|unfold g; by rewrite En]. destruct Hno. by split_and!.
Qed.

Lemma insert_known_counted log a agent known now t done t' done' : counted log t ->
  known_alarm agent (sa_alarm_id a) t = Some known -> insert_known a known now t done = Some (t', done') ->
  counted (log ++ [(agent, a)]) t'.
Proof.
  intros Hc (Hk & Ea & Ei)%known_spec. unfold insert_known. destruct (same_rule a known) eqn:Es; simpl.
  2: { intros [= <- <-]. apply (counted_resend _ _ _ _ known); try done. by rewrite Es. }
  destruct (_ && _) eqn:El.
  { intros [= <- <-]. apply (counted_resend _ _ _ _ known); [done..|]. intros _. apply andb_prop in El. lia. }
  destruct (if _ <? _ then _ else _) as [t1|] eqn:E1; [|done]. simpl.
  destruct (counted_grown _ _ _ _ _ _ _ Hc Hk Ea Ei Es E1) as [Hc1 _].
  intros [= <- <-]. clear El. destruct (_ && _); [|done].
  eapply counted_same; [|exact Hc1]. unfold history. eapply same_rows_trans; [|apply same_rows_history]. apply same_rows_update.
Qed.

Lemma insert_new_counted log agent supps a now t done t' done' : counted log t -> known_alarm agent (sa_alarm_id a) t = None ->
  insert_new agent supps a now t done = Some (t', done') -> counted (log ++ [(agent, a)]) t'.
Proof.
  intros Hc Hno. unfold insert_new. set (r := new_row _ _ _ _ _). destruct (alarm_stored r) eqn:Est; [|done]. simpl.
  destruct (hourly _ _ _ _) as [t1|] eqn:Eh; [|done]. intros [= <- <-].
  pose proof Hc as [H1 H2 H3 H4 H5 H6 H7 H8 H9].
  assert (counted (log ++ [(agent, a)]) t1) as Hc1; [|eapply counted_same; [|exact Hc1]; by case_match].
  apply hourly_some in Eh as (f & -> & Hnd & Hsum & Hids); [|done]. simpl in *.
  assert (forall r', In r' (alarms t) -> al_agent r' = agent -> al_alarm_id r' = sa_alarm_id a -> False) as Hnew.
  { intros r' Hr' Ea Ei. unfold known_alarm in Hno. pose proof (find_none _ _ Hno _ Hr') as E. simpl in E.
    by rewrite Ea, Ei, !String.eqb_refl in E. }
  assert (forall d, In d log -> ~ of_row r d) as Hold.
  { intros d Hd (E1 & E2 & _). destruct (H7 d Hd) as (r' & Hr' & Ea & Ei). apply (Hnew r' Hr'); [by rewrite Ea, E1|by rewrite Ei, E2]. }
  assert (of_row r (agent, a)) as Hself.
  { split_and!; [done..|]. unfold same_rule. simpl. by rewrite !String.eqb_refl, !Z.eqb_refl. }
  assert (starts_in (next_alarm t) (hourly_starts t) = 0) as Hz.
  { clear -H5. induction (hourly_starts t) as [|e l IH]; simpl; [done|]. rewrite IH by (intros; apply H5; by right).
    pose proof (H5 e (or_introl eq_refl)). destruct (e.1.1 =? next_alarm t) eqn:E; lia. }
  split; simpl.
  - rewrite map_app. apply NoDup_snoc; [done|]. intros (r' & Er' & Hr')%list_elem_of_In%in_map_iff. specialize (H3 r' Hr'). simpl in Er'. lia.
  - rewrite map_app. apply NoDup_snoc; [done|]. intros (r' & Er' & Hr')%list_elem_of_In%in_map_iff. injection Er'. intros. by apply (Hnew r').
  - intros r' [Hr'| ->]%in_snoc; [specialize (H3 r' Hr')|simpl]; lia.
  - done.
  - intros e He. destruct (Hids e He) as [->|(e' & He' & ->)]; [lia|specialize (H5 e' He'); lia].
  - intros r' [Hr'| ->]%in_snoc; rewrite Hsum.
    + rewrite H6 by done. specialize (H3 r' Hr'). destruct (next_alarm t =? al_id r') eqn:E; lia.
    + simpl. rewrite Hz, Z.eqb_refl. lia.
  - intros d [Hd| ->]%in_snoc.
    + destruct (H7 d Hd) as (r' & Hr' & E). exists r'. split; [apply in_snoc; by left|done].
    + exists r. split; [apply in_snoc; by right|done].
  - intros r' d [Hr'| ->]%in_snoc [Hd| ->]%in_snoc Ho; [by apply H8|..].
    + destruct Ho as (E1 & E2 & _). exfalso. by apply (Hnew r').
    + by destruct (Hold d).
    + simpl. lia.
  - intros r' [Hr'| ->]%in_snoc.
    + destruct (H9 r' Hr') as [(d & Hd & Ho) (d' & Hd' & Ho')]. split; [exists d|exists d']; (split; [apply in_snoc; by left|done]).
    + split; exists (agent, a); (split; [apply in_snoc; by right|done]).
Qed.

Lemma insert_all_counted agent supps now l : forall log t done t' done', counted log t ->
  insert_all agent supps now l (t, done) = Some (t', done') -> counted (log ++ map (pair agent) l) t'.
Proof.
  induction l as [|a l IH]; intros log t d t' d' Hc; simpl; [intros [= <- <-]; by rewrite app_nil_r|].
  change ((agent, a) :: map (pair agent) l) with ([(agent, a)] ++ map (pair agent) l). rewrite app_assoc.
  destruct (known_alarm agent (sa_alarm_id a) t) as [known|] eqn:Ek.
  - destruct (insert_known a known now t d) as [[t1 d1]|] eqn:E; [|done]. simpl. apply IH. by eapply insert_known_counted.
  - destruct (insert_new agent supps a now t d) as [[t1 d1]|] eqn:E; [|done]. simpl. apply IH. by eapply insert_new_counted.
Qed.

Lemma insert_batch_counted log agent dropped l now t t' done : counted log t ->
  insert_batch agent dropped l now t = Some (t', done) -> counted (log ++ map (pair agent) l) t'.
Proof.
  intros Hc. unfold insert_batch. apply insert_all_counted. eapply counted_same; [|exact Hc]. unfold keep_dropped. by case_match.
Qed.

(** ** The history accounts for the triage *)

(** The history of an alarm, played from a row just stored: its state and the version of its triage.  A row
    without a state before it is the closing of an alarm on arrival. *)
Fixpoint replay (l : list HistoryRow) (st : string * Z) : option (string * Z) :=
  match l with
  | [] => Some st
  | h :: l =>
      match hy_from h with
      | None => if st.2 =? 1 then replay l (hy_to h, 1) else None
      | Some from => if String.eqb from st.1 then replay l (hy_to h, st.2 + 1) else None
      end
  end.
Definition history_of (id : Z) (l : list HistoryRow) : list HistoryRow := List.filter (fun h => hy_alarm h =? id) l.

Lemma replay_app l : forall l' st, replay (l ++ l') st = (replay l st ≫= replay l').
Proof. induction l as [|h l IH]; intros l' st; simpl; [done|]. destruct (hy_from h); case_match; done. Qed.
Lemma history_of_app id l l' : history_of id (l ++ l') = history_of id l ++ history_of id l'.
Proof. apply List.filter_app. Qed.

Definition recorded (t : AlarmTables) : Prop :=
  (forall r, In r (alarms t) ->
     replay (history_of (al_id r) (alarm_history t)) ("open", 1) = Some (tr_state (al_triage r), tr_version (al_triage r)))
  /\ forall h, In h (alarm_history t) -> hy_alarm h < next_alarm t.

(** Nothing of the triage changes. *)
Lemma recorded_same t t' : map (fun r => (al_id r, al_triage r)) (alarms t') = map (fun r => (al_id r, al_triage r)) (alarms t) ->
  alarm_history t' = alarm_history t -> next_alarm t' = next_alarm t -> recorded t -> recorded t'.
Proof.
  intros Ea Eh En [H1 H2]. split; rewrite ?Eh, ?En; [|done]. intros r' Hr'.
  apply (in_map (fun r => (al_id r, al_triage r))) in Hr'. rewrite Ea in Hr'. apply in_map_iff in Hr' as (r & [= <- <-] & Hr). by apply H1.
Qed.

Lemma history_of_rows {A} (key : A -> Z) (h : A -> HistoryRow) (p : A -> bool) l r : (forall x, In x l -> p x = true -> hy_alarm (h x) = key x) ->
  NoDup (map key l) -> In r l -> history_of (key r) (map h (List.filter p l)) = if p r then [h r] else [].
Proof.
  induction l as [|x l IH]; simpl; [done|]. intros Hh [Hx Hnd]%NoDup_cons Hin.
  assert (forall y, In y l -> p y = true -> hy_alarm (h y) = key y) as Hh' by auto. destruct Hin as [->|Hr].
  - assert (history_of (key r) (map h (List.filter p l)) = []) as E.
    { apply filter_none. intros y (z & <- & [Hz Ez]%filter_In)%in_map_iff. rewrite Hh' by done. apply Z.eqb_neq. intros E.
      apply Hx, list_elem_of_In. rewrite <- E. by apply in_map. }
    destruct (p r) eqn:Ep; [|done]. simpl. by rewrite Hh, Z.eqb_refl, E by auto.
  - assert (key x <> key r) as Hne by (intros E; apply Hx, list_elem_of_In; rewrite E; by apply in_map).
    destruct (p x) eqn:Ep; [|by apply IH]. simpl. rewrite Hh by auto. destruct (key x =? key r) eqn:E; [lia|]. by apply IH.
Qed.

(** Some alarms move to a state, each with a row of history. *)
Lemma recorded_moved t t' (p : AlarmRow -> bool) f (h : AlarmRow -> HistoryRow) : NoDup (map al_id (alarms t)) ->
  (forall r, In r (alarms t) -> al_id r < next_alarm t) ->
  alarms t' = map (fun r => if p r then with_triage f r else r) (alarms t) ->
  alarm_history t' = alarm_history t ++ map h (List.filter p (alarms t)) -> next_alarm t' = next_alarm t ->
  (forall r, In r (alarms t) -> p r = true -> hy_alarm (h r) = al_id r /\ hy_from (h r) = Some (tr_state (al_triage r)) /\ hy_to (h r) = tr_state (f (al_triage r))
     /\ tr_version (f (al_triage r)) = tr_version (al_triage r) + 1) ->
  recorded t -> recorded t'.
Proof.
  intros Hnd Hlt Ea Eh En Hh [H1 H2]. split; rewrite ?Eh, ?En.
  - rewrite Ea. intros r' (r & <- & Hr)%in_map_iff.
    assert (al_id (if p r then with_triage f r else r) = al_id r) as -> by (by case_match).
    rewrite history_of_app, replay_app, (H1 r Hr). simpl.
    rewrite history_of_rows; [|intros; by apply Hh|done..]. destruct (p r) eqn:Ep; [|done].
    destruct (Hh r Hr Ep) as (_ & E1 & E2 & E3). simpl. rewrite E1, E2, E3. simpl. by rewrite String.eqb_refl.
  - intros x [Hx|(r & <- & [Hr Ep]%filter_In)%in_map_iff]%in_app_iff; [by apply H2|]. destruct (Hh r Hr Ep) as (-> & _). auto.
Qed.

Lemma filter_unique {A B} (key : A -> B) (p : A -> bool) l x : NoDup (map key l) -> In x l -> p x = true ->
  (forall y, In y l -> p y = true -> key y = key x) -> List.filter p l = [x].
Proof.
  induction l as [|y l IH]; simpl; [done|]. intros [Hy Hnd]%NoDup_cons [->|Hx] Hp Hkey.
  - rewrite Hp. f_equal. apply filter_none. intros z Hz. apply not_true_iff_false. intros Ez. apply Hy, list_elem_of_In.
    rewrite <- (Hkey z (or_intror Hz) Ez). by apply in_map.
  - destruct (p y) eqn:Ey; [|apply IH; auto]. exfalso. apply Hy, list_elem_of_In. rewrite (Hkey y (or_introl eq_refl) Ey). by apply in_map.
Qed.

(** One alarm moves. *)
Lemma recorded_one t r f h : NoDup (map al_id (alarms t)) -> (forall r, In r (alarms t) -> al_id r < next_alarm t) ->
  In r (alarms t) -> hy_alarm h = al_id r -> hy_from h = Some (tr_state (al_triage r)) -> hy_to h = tr_state (f (al_triage r)) ->
  tr_version (f (al_triage r)) = tr_version (al_triage r) + 1 ->
  recorded t -> recorded (add_history [h] (update_alarm (al_id r) (al_day r) (with_triage f) t)).
Proof.
  intros Hnd Hlt Hr Hid Hfrom Hto Hver Hrec.
  set (p := fun x => (al_id x =? al_id r) && (al_day x =? al_day r)).
  assert (forall x, In x (alarms t) -> p x = true -> x = r) as Hp.
  { intros x Hx [E _]%andb_prop. apply (NoDup_map_inj al_id (alarms t)); try done. lia. }
  assert (List.filter p (alarms t) = [r]) as Efl.
  { apply (filter_unique al_id); try done; [unfold p; by rewrite !Z.eqb_refl|]. intros x Hx Ex. by rewrite (Hp x). }
  apply (recorded_moved t _ p f (fun _ => h)); try done; [simpl; by rewrite Efl|]. intros x Hx Ex. rewrite (Hp x) by done. done.
Qed.

Lemma hourly_frame id now n t t' : hourly id now n t = Some t' -> exists f, t' = set_hourly f t.
Proof. unfold hourly. destruct (find _ _); case_match; try done; intros [= <-]; by eexists. Qed.

Lemma grown_triage a id day t : map (fun r => (al_id r, al_triage r)) (alarms (update_alarm id day (grown a) t))
  = map (fun r => (al_id r, al_triage r)) (alarms t).
Proof. simpl. rewrite map_map. apply map_ext. intros r. by case_match. Qed.

Lemma insert_known_recorded log a agent known now t done t' done' : counted log t -> recorded t ->
  known_alarm agent (sa_alarm_id a) t = Some known -> insert_known a known now t done = Some (t', done') -> recorded t'.
Proof.
  intros Hc Hrec Hk. pose proof (known_spec _ _ _ _ Hk) as (Hin & Ea & Ei). unfold insert_known.
  destruct (same_rule a known) eqn:Es; simpl; [|by intros [= <- <-]].
  destruct (_ && _) eqn:El; [by intros [= <- <-]|].
  destruct (if _ <? _ then _ else _) as [t1|] eqn:E1; [|done]. simpl. clear El.
  destruct (counted_grown _ _ _ _ _ _ _ Hc Hin Ea Ei Es E1) as [Hc1 Eal].
  assert (alarm_history t1 = alarm_history t /\ next_alarm t1 = next_alarm t) as [Eh En].
  { destruct (_ <? _); [apply hourly_frame in E1 as [f ->]|injection E1 as <-]; done. }
  assert (recorded t1) as Hrec1 by (apply (recorded_same t); [rewrite Eal; apply grown_triage|done..]).
  intros [= <- <-]. destruct (_ && _); [|done].
  apply (recorded_one t1 (grown a known)); try done; [apply Hc1..|].
  rewrite Eal. apply in_map_iff. exists known. rewrite !Z.eqb_refl. done.
Qed.

Lemma insert_new_recorded agent supps a now t done t' done' : (forall r, In r (alarms t) -> al_id r < next_alarm t) -> recorded t ->
  insert_new agent supps a now t done = Some (t', done') -> recorded t'.
Proof.
  intros Hlt [H1 H2]. unfold insert_new. set (r := new_row _ _ _ _ _). destruct (alarm_stored r); [|done]. simpl.
  destruct (hourly _ _ _ _) as [t1|] eqn:Eh; [|done]. apply hourly_frame in Eh as [f ->]. intros [= <- <-].
  assert (history_of (next_alarm t) (alarm_history t) = []) as Enew.
  { apply filter_none. intros h Hh. specialize (H2 h Hh). lia. }
  set (hs := match tr_note (al_triage r) with
             | Some note => [{| hy_alarm := next_alarm t; hy_day := al_day r; hy_from := None; hy_to := tr_state (al_triage r);
                                hy_assigned_to := None; hy_accepted_until := None; hy_note := Some note; hy_at := now; hy_by := INGEST |}]
             | None => [] end).
  assert (forall u, (match tr_note (al_triage r) with
    | Some note => history (al_id r) (al_day r) None (tr_state (al_triage r)) note now INGEST u
    | None => u end) = add_history hs u) as E.
  { intros u. unfold hs, history. destruct (tr_note _); [done|]. destruct u. unfold add_history. simpl. by rewrite app_nil_r. }
  simpl in E. rewrite E. split; simpl.
  - intros r' [Hr'| ->]%in_snoc; rewrite history_of_app.
    + specialize (Hlt r' Hr'). assert (history_of (al_id r') hs = []) as ->.
      { apply filter_none. unfold hs. destruct (tr_note _); [|done]. intros h [<-|[]]. simpl. lia. }
      rewrite app_nil_r. auto.
    + simpl. rewrite Enew. unfold hs, r. simpl. unfold first_triage.
      destruct (find _ supps); [|destruct (is_test_rule _ _)]; simpl; by rewrite ?Z.eqb_refl.
  - intros h [Hh|Hh]%in_app_iff; [specialize (H2 h Hh); lia|]. unfold hs in Hh. destruct (tr_note _); [|done]. destruct Hh as [<-|[]]. simpl. lia.
Qed.

Lemma insert_all_recorded agent supps now l : forall log t done t' done', counted log t -> recorded t ->
  insert_all agent supps now l (t, done) = Some (t', done') -> recorded t'.
Proof.
  induction l as [|a l IH]; intros log t d t' d' Hc Hrec; simpl; [by intros [= <- <-]|].
  destruct (known_alarm agent (sa_alarm_id a) t) as [known|] eqn:Ek.
  - destruct (insert_known a known now t d) as [[t1 d1]|] eqn:E; [|done]. simpl. apply (IH (log ++ [(agent, a)])).
    + by eapply insert_known_counted.
    + by eapply insert_known_recorded.
  - destruct (insert_new agent supps a now t d) as [[t1 d1]|] eqn:E; [|done]. simpl. apply (IH (log ++ [(agent, a)])).
    + by eapply insert_new_counted.
    + eapply insert_new_recorded; [apply Hc|done..].
Qed.

(** * Agents' alarms: the suppressions through their states, and the reachable tables

    [proper] is the invariant of the suppressions: each went through its states with the people the
    rules ask for, and an alarm is closed by a suppression of its own rule and host.  [reachable] are
    the tables and the deliveries stored so far, after any sequence of the transactions. *)

Open Scope Z_scope.

(** A suppression's columns fit the state it is in. One of a group may be withdrawn by who deletes the group. *)
Definition lifecycle (s : SuppressionRow) : Prop :=
  match sp_state s with
  | Waiting => sp_activated_at s = None /\ sp_expires_at s = None /\ sp_decided_by s = None /\ sp_removed s = None
  | Rejected => sp_activated_at s = None /\ sp_expires_at s = None /\ sp_removed s = None
      /\ (exists by_, sp_decided_by s = Some by_ /\ by_ <> sp_created_by s)
      /\ exists reason, sp_decision_reason s = Some reason /\ valid_reason reason = true
  | Withdrawn => sp_activated_at s = None /\ sp_expires_at s = None /\ sp_removed s = None
      /\ (sp_decided_by s = Some (sp_created_by s) \/ (is_some (sp_host_group_id s) = true /\ is_some (sp_decided_by s) = true))
  | Applied => (exists at_, sp_activated_at s = Some at_ /\ sp_expires_at s = expiry (Some at_) (sp_for_days s))
      /\ sp_removed s = None /\ sp_decided_by s <> Some (sp_created_by s)
  | Removed => (exists at_, sp_activated_at s = Some at_ /\ sp_expires_at s = expiry (Some at_) (sp_for_days s))
      /\ is_some (sp_removed s) = true /\ sp_decided_by s <> Some (sp_created_by s)
  end.

(** A suppression that was once active, of the alarm's rule and host. *)
Definition covers (s : SuppressionRow) (r : AlarmRow) : Prop :=
  (sp_state s = Applied \/ sp_state s = Removed) /\ al_rule_set_id r = sp_rule_set_id s /\ al_rule_id r = sp_rule_id s
  /\ match sp_agent_id s with None => True | Some a => al_agent r = a end.

Record proper (t : AlarmTables) : Prop := {
  p_ids : NoDup (map sp_id (suppressions t));
  p_next : forall s, In s (suppressions t) -> sp_id s < next_suppression t;
  p_state : forall s, In s (suppressions t) -> lifecycle s;
  p_closed : forall r id, In r (alarms t) -> tr_suppressed_by (al_triage r) = Some id ->
    exists s, In s (suppressions t) /\ sp_id s = id /\ covers s r;
}.

Lemma same_core_covers s r r' : core r' = core r -> covers s r' <-> covers s r.
Proof. intros (_ & _ & Ea & _ & _ & _ & _ & E1 & E2 & _)%same_core. unfold covers. by rewrite Ea, E1, E2. Qed.

(** The alarms change, the suppressions do not. *)
Lemma proper_alarms t t' : suppressions t' = suppressions t -> next_suppression t' = next_suppression t ->
  (forall r' id, In r' (alarms t') -> tr_suppressed_by (al_triage r') = Some id ->
     (exists r, In r (alarms t) /\ tr_suppressed_by (al_triage r) = Some id /\ forall s, covers s r -> covers s r')
     \/ exists s, In s (suppressions t) /\ sp_id s = id /\ covers s r') ->
  proper t -> proper t'.
Proof.
  intros Es En Hr [H1 H2 H3 H4]. split; rewrite ?Es, ?En; try done. intros r' id Hin Hid.
  destruct (Hr r' id Hin Hid) as [(r & Hin' & Hid' & Hc)|(s & Hs & Hsid & Hc)]; [|by exists s].
  destruct (H4 r id Hin' Hid') as (s & Hs & Hsid & Hc'). exists s. auto.
Qed.

Lemma find_in {A} (p : A -> bool) l x : find p l = Some x -> In x l /\ p x = true.
Proof. apply find_some. Qed.

Lemma update_triage_frame scope id c actor now t o t' : update_triage scope id c actor now t = (o, t') -> t' = t \/
  exists r assigned, In r (alarms t) /\ al_id r = id /\
  t' = log_alarm {| ay_actor := actor; ay_action := "alarm.triage.changed"; ay_target := id |}
         (add_history [{| hy_alarm := al_id r; hy_day := al_day r; hy_from := Some (tr_state (al_triage r)); hy_to := tc_state c;
                          hy_assigned_to := assigned; hy_accepted_until := tc_accepted_until c;
                          hy_note := tc_note c; hy_at := now; hy_by := actor |}]
            (update_alarm (al_id r) (al_day r) (with_triage (changed_triage c assigned now actor)) t)).
Proof.
  unfold update_triage. destruct (_ || _); [intros [= <- <-]; by left|].
  destruct (alarm_in_scope scope id t) as [r|] eqn:Er; [|intros [= <- <-]; by left].
  destruct (negb _); [intros [= <- <-]; by left|]. destruct (negb _); [intros [= <- <-]; by left|].
  destruct (match tc_assigned_to_username c with None => _ | Some _ => _ end) as [assigned|]; [|intros [= <- <-]; by left].
  destruct (_ && _); intros [= <- <-]; [by left|]. right. exists r, (fst <$> assigned).
  apply find_some in Er as [Hin [E _]%andb_prop]. assert (al_id r = id) as <- by lia. done.
Qed.

(** ** Deliveries *)

Lemma insert_known_closed a known now t done t' done' : insert_known a known now t done = Some (t', done') ->
  suppressions t' = suppressions t /\ next_suppression t' = next_suppression t
  /\ forall r', In r' (alarms t') -> exists r, In r (alarms t) /\ tr_suppressed_by (al_triage r) = tr_suppressed_by (al_triage r')
       /\ forall s, covers s r -> covers s r'.
Proof.
  assert (forall r' l, In r' l -> exists r, In r l /\ tr_suppressed_by (al_triage r) = tr_suppressed_by (al_triage r')
       /\ forall s, covers s r -> covers s r') as Hid by (intros r' l Hr'; by exists r').
  unfold insert_known. destruct (negb _); [intros [= <- <-]; auto|]. destruct (_ && _); [intros [= <- <-]; auto|].
  destruct (if _ <? _ then _ else _) as [t1|] eqn:E1; [|done]. simpl.
  assert (suppressions t1 = suppressions t /\ next_suppression t1 = next_suppression t
    /\ alarms t1 = alarms (update_alarm (al_id known) (al_day known) (grown a) t)) as (Es & En & Ea).
  { destruct (_ <? _); [apply hourly_frame in E1 as [f ->]|injection E1 as <-]; done. }
  assert (forall r', In r' (alarms t1) -> exists r, In r (alarms t) /\ tr_suppressed_by (al_triage r) = tr_suppressed_by (al_triage r')
       /\ forall s, covers s r -> covers s r') as H1.
  { rewrite Ea. intros r' (r & <- & Hr)%in_map_iff. exists r. destruct (_ && _); auto. }
  intros [= <- <-]. destruct (_ && _); [|auto]. split; [done|]. split; [done|]. intros r' (r1 & <- & Hr1)%in_map_iff.
  destruct (H1 r1 Hr1) as (r & Hr & E & Hc). exists r. destruct (_ && _); auto.
Qed.

Lemma insert_new_closed agent supps a now t done t' done' : insert_new agent supps a now t done = Some (t', done') ->
  suppressions t' = suppressions t /\ next_suppression t' = next_suppression t
  /\ forall r', In r' (alarms t') -> In r' (alarms t) \/
       r' = new_row agent a (next_alarm t) now (first_triage (find (fun s => matches s agent a) supps)
              (is_test_rule (sa_rule_set_id a) (sa_rule_id a)) now).
Proof.
  unfold insert_new. destruct (negb _); [done|]. destruct (hourly _ _ _ _) as [t1|] eqn:E1; [|done]. simpl.
  apply hourly_frame in E1 as [f ->]. intros [= <- <-].
  destruct (tr_note _); (split; [done|]; split; [done|]); by intros r' [Hr'| ->]%in_snoc; auto.
Qed.

Lemma first_triage_closed by_ test now id : tr_suppressed_by (first_triage by_ test now) = Some id ->
  exists s, by_ = Some s /\ sp_id s = id.
Proof. unfold first_triage. destruct by_ as [s|]; [|by destruct test]. simpl. intros [= <-]. by exists s. Qed.

Lemma matches_covers s agent a id now tr : sp_state s = Applied -> matches s agent a = true -> covers s (new_row agent a id now tr).
Proof.
  unfold matches, suppression_matches. intros Ha [[E1%String.eqb_eq E2%String.eqb_eq]%andb_prop Hm]%andb_prop.
  split_and!; [by left|done|done|]. simpl. destruct (sp_agent_id s) as [g|]; [|done].
  repeat destruct (String.eqb (sp_scope s) _); try done.
  - apply bool_decide_eq_true in Hm. congruence.
  - by apply andb_prop in Hm as [E%String.eqb_eq _].
  - by apply andb_prop in Hm as [[E%String.eqb_eq _]%andb_prop _].
Qed.

Lemma insert_all_proper agent supps now l : forall t done t' done', proper t ->
  (forall s, In s supps -> In s (suppressions t) /\ sp_state s = Applied) ->
  insert_all agent supps now l (t, done) = Some (t', done') -> proper t'.
Proof.
  induction l as [|a l IH]; intros t d t' d' Hp Hs; simpl; [by intros [= <- <-]|].
  destruct (match known_alarm agent (sa_alarm_id a) t with Some _ => _ | None => _ end) as [[t1 d1]|] eqn:E; [|done]. simpl.
  assert (proper t1 /\ suppressions t1 = suppressions t) as [Hp1 Es]; [|apply IH; [done|by rewrite Es]].
  destruct (known_alarm agent (sa_alarm_id a) t) as [known|].
  - apply insert_known_closed in E as (Es & En & Hr). split; [|done]. apply (proper_alarms t); try done.
    intros r' id Hin Hid. left. destruct (Hr r' Hin) as (r & Hin' & Eq & Hc). exists r. by rewrite Eq.
  - apply insert_new_closed in E as (Es & En & Hr). split; [|done]. apply (proper_alarms t); try done.
    intros r' id Hin Hid. destruct (Hr r' Hin) as [Hin'| ->]; [left; by exists r'|]. right.
    apply first_triage_closed in Hid as (s & [Hin' Hm]%find_in & Hsid). destruct (Hs s Hin') as [Hin'' Ha].
    exists s. split; [done|]. split; [done|]. by apply matches_covers.
Qed.

Lemma batch_suppressions_in agent batch now t s : In s (batch_suppressions agent batch now t) ->
  In s (suppressions t) /\ sp_state s = Applied.
Proof.
  unfold batch_suppressions. rewrite sort_by_In. intros [Hin [[[[E _]%andb_prop _]%andb_prop _]%andb_prop _]%andb_prop]%filter_In.
  by apply bool_decide_eq_true in E.
Qed.

Lemma insert_batch_proper agent dropped l now t t' done : proper t -> insert_batch agent dropped l now t = Some (t', done) -> proper t'.
Proof.
  unfold insert_batch. intros Hp. set (t0 := keep_dropped agent dropped t).
  assert (alarms t0 = alarms t /\ suppressions t0 = suppressions t /\ next_suppression t0 = next_suppression t) as (Ea & Es & En).
  { unfold t0, keep_dropped. by case_match. }
  apply insert_all_proper; [|intros s; apply batch_suppressions_in].
  apply (proper_alarms t); try done. intros r' id Hin Hid. left. exists r'. by rewrite <- Ea.
Qed.

(** ** Closing what a suppression covers *)

Lemma close_source_rows text id ids scope actor now t : same_rows t (close_source text id ids scope actor now t)
  /\ suppressions (close_source text id ids scope actor now t) = suppressions t
  /\ next_suppression (close_source text id ids scope actor now t) = next_suppression t
  /\ alarm_log (close_source text id ids scope actor now t) = alarm_log t.
Proof.
  unfold close_source. destruct (suppression_of id t) as [s|]; [|done]. split; [|done].
  eapply same_rows_trans; [|apply same_rows_history]. apply same_rows_map. intros r. by case_match.
Qed.

Lemma close_source_recorded text id ids scope actor now t : NoDup (map al_id (alarms t)) ->
  (forall r, In r (alarms t) -> al_id r < next_alarm t) -> recorded t -> recorded (close_source text id ids scope actor now t).
Proof.
  intros Hnd Hlt. unfold close_source. destruct (suppression_of id t) as [s|]; [|done]. intros Hrec.
  by eapply (recorded_moved t).
Qed.

Lemma closable_covers text s ids scope t r : closable text s ids scope t r = true -> sp_state s = Applied /\ covers s r.
Proof.
  unfold closable. intros H. repeat (apply andb_prop in H as [H ?]).
  match goal with H : bool_decide (sp_state s = Applied) = true |- _ => apply bool_decide_eq_true in H end.
  split; [done|]. split_and!; [by left|by apply String.eqb_eq..|]. destruct (sp_agent_id s); [|done]. by apply String.eqb_eq.
Qed.

Lemma close_source_proper text id ids scope actor now t : proper t -> proper (close_source text id ids scope actor now t).
Proof.
  intros Hp. unfold close_source. destruct (suppression_of id t) as [s|] eqn:Es; [|done].
  apply find_in in Es as [Hs Eid]. assert (sp_id s = id) as <- by lia. apply (proper_alarms t); try done.
  intros r' id Hin Hid. apply in_map_iff in Hin as (r & Er & Hr). destruct (closable _ _ _ _ _ r) eqn:Ec.
  - right. exists s. apply closable_covers in Ec as [_ Hc]. rewrite <- Er in Hid. injection Hid as <-.
    split; [done|]. split; [done|]. apply (same_core_covers s r); [by rewrite <- Er|done].
  - left. exists r. by subst.
Qed.

(** ** A suppression moves to another state *)

Lemma proper_moved t s f : proper t -> In s (suppressions t) -> (forall x, sp_id (f x) = sp_id x) -> lifecycle (f s) ->
  (forall r, covers s r -> covers (f s) r) -> proper (update_suppression (sp_id s) f t).
Proof.
  intros [H1 H2 H3 H4] Hs Hid Hl Hc.
  assert (forall x, In x (suppressions t) -> (sp_id x =? sp_id s) = true -> x = s) as Hu.
  { intros x Hx E. apply (NoDup_map_inj sp_id (suppressions t)); try done. lia. }
  split; simpl.
  - rewrite map_map, (map_ext _ sp_id); [done|]. intros x. by case_match.
  - intros x' (x & <- & Hx)%in_map_iff. case_match; rewrite ?Hid; auto.
  - intros x' (x & <- & Hx)%in_map_iff. destruct (sp_id x =? sp_id s) eqn:E; [by rewrite (Hu x)|auto].
  - intros r id Hr E. destruct (H4 r id Hr E) as (x & Hx & Hxid & Hcx).
    exists (if sp_id x =? sp_id s then f x else x). split; [by apply (in_map (fun x => if sp_id x =? sp_id s then f x else x))|].
    destruct (sp_id x =? sp_id s) eqn:Ex; [|done]. rewrite Hid. split; [done|].
    pose proof (Hu x Hx Ex) as ->. by apply Hc.
Qed.

Lemma waiting_covers_none s r : sp_state s = Waiting -> ~ covers s r.
Proof. intros E [[?|?] _]; congruence. Qed.

Lemma made_spec action actor id t c t' : made action actor id t = Some (c, t') ->
  exists s, suppression_of id t = Some s /\ c = Done s /\ t' = suppression_log action actor id t.
Proof. unfold made. destruct (suppression_of id t) as [s|]; [|done]. intros [= <- <-]. by exists s. Qed.

Lemma log_keeps action actor id t : (forall log, counted log t -> counted log (suppression_log action actor id t))
  /\ (recorded t -> recorded (suppression_log action actor id t)) /\ (proper t -> proper (suppression_log action actor id t)).
Proof.
  split_and!; [intros log; by apply counted_same|done|]. intros [H1 H2 H3 H4]. by split.
Qed.

(** What an operation on suppressions keeps. *)
Definition keeps (t t' : AlarmTables) : Prop :=
  (forall log, counted log t -> counted log t') /\ (forall log, counted log t -> recorded t -> recorded t') /\ (proper t -> proper t').
Lemma keeps_refl t : keeps t t.
Proof. by split_and!. Qed.
Lemma keeps_trans t1 t2 t3 : keeps t1 t2 -> keeps t2 t3 -> keeps t1 t3.
Proof. intros (A1 & A2 & A3) (B1 & B2 & B3). split_and!; eauto. Qed.
Lemma keeps_log action actor id t : keeps t (suppression_log action actor id t).
Proof. destruct (log_keeps action actor id t) as (? & ? & ?). by split_and!. Qed.
Lemma keeps_close text id ids scope actor now t : keeps t (close_source text id ids scope actor now t).
Proof.
  split_and!; [|intros log Hc; apply close_source_recorded; apply Hc|apply close_source_proper].
  intros log. apply counted_same, close_source_rows.
Qed.
Lemma keeps_made action actor id t c t' : made action actor id t = Some (c, t') -> keeps t t'.
Proof. intros (s & _ & _ & ->)%made_spec. apply keeps_log. Qed.

(** ** The operations *)

Lemma keeps_triage scope id c actor now t o t' : update_triage scope id c actor now t = (o, t') -> keeps t t'.
Proof.
  intros [->|(r & assigned & Hr & _ & ->)]%update_triage_frame; [apply keeps_refl|]. split_and!.
  - intros log. apply counted_same. eapply (same_rows_trans _ (update_alarm _ _ _ t)); [apply same_rows_update|done].
  - intros log Hc Hrec. eapply (recorded_same (add_history _ (update_alarm _ _ _ t))); [done..|].
    by apply recorded_one; try apply Hc.
  - intros Hp. apply (proper_alarms t); try done. intros r' id' (x & <- & Hx)%in_map_iff E. left. exists x.
    destruct (_ && _); [|done]. split; [done|]. split; [done|]. auto.
Qed.

Lemma keeps_add s t : sp_id s = next_suppression t -> lifecycle s -> keeps t (add_suppression s t).
Proof.
  intros Hid Hl. split_and!; [intros log; by apply counted_same|done|]. intros [H1 H2 H3 H4]. split; simpl.
  - rewrite map_app. apply NoDup_snoc; [done|]. intros (x & Ex & Hx)%list_elem_of_In%in_map_iff. specialize (H2 x Hx). lia.
  - intros x [Hx| ->]%in_snoc; [specialize (H2 x Hx)|]; lia.
  - by intros x [Hx| ->]%in_snoc; [apply H3|].
  - intros r id Hr E. destruct (H4 r id Hr E) as (x & Hx & Ex). exists x. split; [apply in_snoc; by left|done].
Qed.

Lemma keeps_moved t s f : In s (suppressions t) -> (forall x, sp_id (f x) = sp_id x) -> (proper t -> lifecycle (f s)) ->
  (forall r, covers s r -> covers (f s) r) -> keeps t (update_suppression (sp_id s) f t).
Proof.
  intros Hs Hid Hl Hc. split_and!; [intros log; by apply counted_same|done|]. intros Hp. apply proper_moved; auto.
Qed.

(** What a request does: nothing, or one more suppression that waits, or is active, and then closes its alarm. *)
Lemma request_frame cr ja jt suppress q actor now t c t' : request cr ja jt suppress q actor now t = Some (c, t') -> t' = t \/
  exists s, sp_id s = next_suppression t /\ sp_created_by s = actor /\ lifecycle s
    /\ sp_state s = (if require_approval t then Waiting else Applied)
    /\ suppressions t' = suppressions t ++ [s] /\ keeps t t'.
Proof.
  unfold request. destruct (negb _); [intros [= <- <-]; by left|]. destruct (negb _); [intros [= <- <-]; by left|].
  destruct (bool_decide _ && _); [intros [= <- <-]; by left|]. cbv zeta.
  set (group := match rq_place q with OnGroup g => Some g | _ => None end).
  destruct (match group with Some g => negb (scope_is_global suppress) && _ | None => _ end); [intros [= <- <-]; by left|].
  destruct (match group with Some g => _ | None => _ end); [intros [= <- <-]; by left|].
  destruct (alarm_in_scope suppress (rq_alarm_row_id q) t) as [r|]; [|intros [= <- <-]; by left].
  match goal with |- (?x ≫= _) = _ -> _ => destruct x as [[[scope hash]|]|] end; [|intros [= <- <-]; by left|done].
  simpl. destruct (text_field jt (al_process r) "exe") as [exe|]; [|done]. simpl.
  match goal with |- context [add_suppression ?s t] => set (s0 := s) end. intros H. right. exists s0.
  assert (lifecycle s0) as Hl.
  { unfold lifecycle, s0; simpl. destruct (require_approval t); simpl; split_and!; try done. by exists now. }
  assert (keeps t (add_suppression s0 t)) as Hk by by apply keeps_add.
  split_and!; try done.
  - destruct (decide _); apply made_spec in H as (? & _ & _ & ->); [|done]. simpl.
    by destruct (close_source_rows jt (next_suppression t) [rq_alarm_row_id q] suppress actor now (add_suppression s0 t)) as (_ & -> & _).
  - eapply keeps_trans; [exact Hk|]. destruct (decide _); [|by eapply keeps_made].
    eapply keeps_trans; [apply keeps_close|by eapply keeps_made].
Qed.

Lemma decide_frame text approve id yes reason actor now t c t' : decide_request text approve id yes reason actor now t = Some (c, t') ->
  t' = t \/ exists s reason, In s (suppressions t) /\ sp_id s = id /\ sp_state s = Waiting /\ sp_created_by s <> actor
    /\ suppressions t' = suppressions (update_suppression id (decided (if yes then Applied else Rejected) actor now reason) t) /\ keeps t t'.
Proof.
  unfold decide_request. destruct (find _ (suppressions t)) as [s|] eqn:Es; [|intros [= <- <-]; by left].
  apply find_in in Es as [Hs [Eid _]%andb_prop]. assert (sp_id s = id) as <- by lia.
  destruct (bool_decide (sp_state s = Waiting)) eqn:Ew; [|intros [= <- <-]; by left]. apply bool_decide_eq_true in Ew. simpl.
  destruct (String.eqb_spec (sp_created_by s) actor) as [|Hne]; [intros [= <- <-]; by left|].
  set (why := match Text.trim <$> reason with Some r => _ | None => None end). cbv zeta.
  destruct (match why with Some r => _ | None => _ end) eqn:Ewhy; [intros [= <- <-]; by left|].
  destruct (_ && _); [intros [= <- <-]; by left|]. intros H. right. exists s, why.
  set (t1 := update_suppression (sp_id s) (decided (if yes then Applied else Rejected) actor now why) t) in *.
  assert (keeps t t1) as Hk.
  { apply keeps_moved; [done|done| |intros r Hc; by apply waiting_covers_none in Hc]. intros Hp. pose proof (p_state t Hp s Hs) as Hl.
    unfold lifecycle in *. rewrite Ew in Hl. destruct Hl as (Ha & He & Hd & Hr). destruct yes; simpl.
    - split_and!; [by exists now|done|congruence].
    - split_and!; try done; [by exists actor|]. destruct why as [w|]; [|done]. exists w. split; [done|]. by apply negb_false_iff. }
  split_and!; try done.
  - apply made_spec in H as (? & _ & _ & ->). simpl. destruct yes, (sp_alarm_id s) as [al|]; try done.
    by destruct (close_source_rows text (sp_id s) [al] ScopeGlobal actor now t1) as (_ & -> & _).
  - eapply keeps_trans; [exact Hk|]. eapply keeps_trans; [|by eapply keeps_made]. destruct yes, (sp_alarm_id s); apply keeps_refl || apply keeps_close.
Qed.

Lemma withdraw_frame id actor now t c t' : withdraw id actor now t = Some (c, t') -> t' = t \/
  exists s, In s (suppressions t) /\ sp_id s = id /\ sp_state s = Waiting
    /\ suppressions t' = suppressions (update_suppression id (ended Withdrawn now actor) t) /\ keeps t t'.
Proof.
  unfold withdraw. destruct (find _ (suppressions t)) as [s|] eqn:Es; [|intros [= <- <-]; by left].
  apply find_in in Es as [Hs [Eid Ec%String.eqb_eq]%andb_prop]. assert (sp_id s = id) as <- by lia.
  destruct (bool_decide (sp_state s = Waiting)) eqn:Ew; [|intros [= <- <-]; by left]. apply bool_decide_eq_true in Ew. simpl.
  intros H. right. exists s. split_and!; try done; [by apply made_spec in H as (? & _ & _ & ->)|].
  eapply keeps_trans; [|by eapply keeps_made]. apply keeps_moved; [done|done| |intros r Hc; by apply waiting_covers_none in Hc].
  intros Hp. pose proof (p_state t Hp s Hs) as Hl. unfold lifecycle in *. rewrite Ew in Hl. destruct Hl as (Ha & He & Hd & Hr).
  simpl. rewrite Ec. auto.
Qed.

Lemma remove_frame suppress id actor now t c t' : AlarmDb.remove suppress id actor now t = Some (c, t') -> t' = t \/
  exists s, In s (suppressions t) /\ sp_id s = id /\ sp_state s = Applied
    /\ suppressions t' = suppressions (update_suppression id (ended Removed now actor) t) /\ keeps t t'.
Proof.
  unfold AlarmDb.remove. destruct (find _ (suppressions t)) as [s|] eqn:Es; [|intros [= <- <-]; by left].
  apply find_in in Es as [Hs [[Eid Ew]%andb_prop _]%andb_prop]. assert (sp_id s = id) as <- by lia. apply bool_decide_eq_true in Ew.
  intros H. right. exists s. split_and!; try done; [by apply made_spec in H as (? & _ & _ & ->)|].
  eapply keeps_trans; [|by eapply keeps_made]. apply keeps_moved; [done|done| |].
  - intros Hp. pose proof (p_state t Hp s Hs) as Hl. unfold lifecycle in *. rewrite Ew in Hl. destruct Hl as (Ha & Hr & Hd). done.
  - intros r (_ & Hc). split; [by right|done].
Qed.

Lemma create_for_device_frame alarm row kind note actor now t c t' : create_for_device alarm row kind note actor now t = Some (c, t') -> t' = t \/
  exists s, sp_id s = next_suppression t /\ sp_created_by s = actor /\ (sp_scope s = "device" \/ sp_scope s = "signature")
    /\ suppressions t' = suppressions t ++ [s] /\ keeps t t'.
Proof.
  unfold create_for_device. destruct (existsb _ _) eqn:Ek; [|intros [= <- <-]; by left]. simpl.
  destruct (negb _); [intros [= <- <-]; by left|]. destruct alarm as [[[rule_set rule] device]|]; [|intros [= <- <-]; by left].
  cbv zeta. destruct (negb _); [done|]. match goal with |- context [add_suppression ?s t] => set (s0 := s) end. intros H. right. exists s0.
  split_and!; [done|done| | |].
  - simpl. apply existsb_exists in Ek as (k & [<-|[<-|[]]] & ->%String.eqb_eq); auto.
  - apply made_spec in H as (? & _ & _ & ->). done.
  - eapply keeps_trans; [|by eapply keeps_made]. apply keeps_add; [done|]. unfold lifecycle, s0. simpl. split_and!; try done. by exists now.
Qed.

(** The deletion of a group. *)
Lemma end_suppressions_rows id from to action actor now s : suppressions (end_suppressions id from to action actor now s)
  = map (fun sp => if bool_decide (sp_host_group_id sp = Some id) && bool_decide (sp_state sp = from) then ended to now actor sp else sp) (suppressions s).
Proof.
  unfold end_suppressions. cbv zeta. generalize (List.filter (fun sp => bool_decide (sp_host_group_id sp = Some id) && bool_decide (sp_state sp = from)) (suppressions s)).
  match goal with |- forall l, suppressions (fold_left _ l ?u) = ?r => change r with (suppressions u); generalize u end.
  intros u l. revert u. induction l as [|sp l IH]; intros u; [done|]. apply (IH (suppression_log action actor (sp_id sp) u)).
Qed.


Lemma keeps_mapped f t : (forall x, sp_id (f x) = sp_id x) -> (forall x, lifecycle x -> lifecycle (f x)) ->
  (forall x r, covers x r -> covers (f x) r) -> keeps t (set_suppressions (map f) t).
Proof.
  intros Hid Hl Hc. split_and!; [intros log; by apply counted_same|done|]. intros [H1 H2 H3 H4]. split; simpl.
  - rewrite map_map, (map_ext _ sp_id); [done|]. exact Hid.
  - intros x' (x & <- & Hx)%in_map_iff. rewrite Hid. by apply H2.
  - intros x' (x & <- & Hx)%in_map_iff. by apply Hl, H3.
  - intros r id Hr E. destruct (H4 r id Hr E) as (x & Hx & <- & Hcx). exists (f x). split; [by apply in_map|]. auto.
Qed.
Lemma keeps_end_suppressions id from to action actor now t :
  (from = Waiting /\ to = Withdrawn) \/ (from = Applied /\ to = Removed) -> keeps t (end_suppressions id from to action actor now t).
Proof.
  intros Hst. unfold end_suppressions. cbv zeta. match goal with |- keeps t (fold_left _ ?ls ?u) => assert (keeps t u) as Hu; [|revert Hu; generalize u; clear Hst; generalize ls] end.
  - apply keeps_mapped.
    + intros x. by destruct (_ && _).
    + intros x Hl. destruct (bool_decide_reflect (sp_host_group_id x = Some id)) as [Eg|]; [|done].
      destruct (bool_decide_reflect (sp_state x = from)) as [Es|]; [|done]. simpl. unfold lifecycle in *. rewrite Es in Hl.
      destruct Hst as [[-> ->]|[-> ->]]; simpl.
      * destruct Hl as (? & ? & ? & ?). split_and!; try done. right. by rewrite Eg.
      * destruct Hl as (? & ? & ?). by split_and!.
    + intros x r Hc. destruct (bool_decide_reflect (sp_host_group_id x = Some id)) as [Eg|]; [|done].
      destruct (bool_decide_reflect (sp_state x = from)) as [Es|]; [|done]. simpl. destruct Hst as [[-> ->]|[-> ->]].
      * by apply waiting_covers_none in Hc.
      * destruct Hc as [_ Hc]. split; [by right|done].
  - intros l. induction l as [|sp l IH]; [done|]. intros u Hu. simpl. apply IH. eapply keeps_trans; [exact Hu|apply keeps_log].
Qed.
Lemma keeps_end_group id actor now t : keeps t (end_group_suppressions id actor now t).
Proof. unfold end_group_suppressions. eapply keeps_trans; apply keeps_end_suppressions; auto. Qed.
(** None becomes active by it. *)
Lemma end_group_active id actor now t s : In s (suppressions (end_group_suppressions id actor now t)) -> sp_state s = Applied -> In s (suppressions t).
Proof.
  unfold end_group_suppressions. rewrite !end_suppressions_rows, map_map. intros (x & <- & Hx)%in_map_iff.
  destruct (bool_decide_reflect (sp_host_group_id x = Some id)) as [Eg|Eg]; simpl; [|by rewrite (bool_decide_eq_false_2 _ Eg)].
  destruct (sp_state x) eqn:Es; simpl; rewrite ?Eg, ?Es, ?(bool_decide_eq_true_2 (Some id = Some id) eq_refl); simpl; rewrite ?Es; done.
Qed.

(** ** What can happen to the tables *)

Definition no_alarms (p : Db) (h : AgentTables) (approval : bool) : AlarmTables :=
  {| people := p; hosts := h; alarms := []; alarm_history := []; hourly_starts := []; dropped_totals := []; suppressions := [];
     require_approval := approval; next_alarm := 1; next_suppression := 1; alarm_log := [] |}.

(** People, hosts and the setting change by other transactions. *)
Definition surroundings (p : Db) (h : AgentTables) (approval : bool) (t : AlarmTables) : AlarmTables :=
  {| people := p; hosts := h; alarms := alarms t; alarm_history := alarm_history t; hourly_starts := hourly_starts t;
     dropped_totals := dropped_totals t; suppressions := suppressions t; require_approval := approval;
     next_alarm := next_alarm t; next_suppression := next_suppression t; alarm_log := alarm_log t |}.

Section world.
Context (cr : Crypto) (json_args : list string -> list Z) (json_text : value -> string).

Inductive step : Log * AlarmTables -> Log * AlarmTables -> Prop :=
  | step_deliver log t agent dropped batch now t' done : insert_batch agent dropped batch now t = Some (t', done) ->
      step (log, t) (log ++ map (pair agent) batch, t')
  | step_triage log t scope id c actor now : step (log, t) (log, (update_triage scope id c actor now t).2)
  | step_request log t suppress q actor now c t' : request cr json_args json_text suppress q actor now t = Some (c, t') ->
      step (log, t) (log, t')
  | step_decide log t approve id yes reason actor now c t' :
      decide_request json_text approve id yes reason actor now t = Some (c, t') -> step (log, t) (log, t')
  | step_withdraw log t id actor now c t' : withdraw id actor now t = Some (c, t') -> step (log, t) (log, t')
  | step_remove log t suppress id actor now c t' : AlarmDb.remove suppress id actor now t = Some (c, t') -> step (log, t) (log, t')
  | step_create_for_device log t alarm row kind note actor now c t' : create_for_device alarm row kind note actor now t = Some (c, t') ->
      step (log, t) (log, t')
  (** A host group is deleted. *)
  | step_end_group log t id actor now : step (log, t) (log, end_group_suppressions id actor now t)
  | step_cover log t suppress id ids actor now : step (log, t) (log, (close_covered json_text suppress id ids actor now t).2)
  | step_surroundings log t p h approval : step (log, t) (log, surroundings p h approval t).

Inductive reachable : Log -> AlarmTables -> Prop :=
  | reachable_new p h approval : reachable [] (no_alarms p h approval)
  | reachable_step log t log' t' : reachable log t -> step (log, t) (log', t') -> reachable log' t'.

Definition invariant (log : Log) (t : AlarmTables) : Prop := counted log t /\ recorded t /\ proper t.

Lemma keeps_invariant log t t' : keeps t t' -> invariant log t -> invariant log t'.
Proof. intros (H1 & H2 & H3) (C & R & P). split_and!; eauto. Qed.

Lemma keeps_or_same t t' (P : Prop) : (t' = t \/ P) -> (P -> keeps t t') -> keeps t t'.
Proof. intros [->|H] Hk; [apply keeps_refl|auto]. Qed.

Lemma step_invariant log t log' t' : step (log, t) (log', t') -> invariant log t -> invariant log' t'.
Proof.
  intros Hs Hi. inversion Hs; subst; clear Hs.
  - destruct Hi as (C & R & P). split_and!.
    + by eapply insert_batch_counted.
    + match goal with H : insert_batch _ _ _ _ _ = _ |- _ => revert H end. unfold insert_batch.
      assert (keeps t (keep_dropped agent dropped t)) as (K1 & K2 & _).
      { unfold keep_dropped. destruct (negb _); [apply keeps_refl|]. split_and!; [intros ?; by apply counted_same|done|].
        intros []. by split. }
      apply (insert_all_recorded _ _ _ _ log); [by apply K1|by apply (K2 log)].
    + by eapply insert_batch_proper.
  - eapply keeps_invariant; [|exact Hi]. destruct (update_triage _ _ _ _ _ _) eqn:E. by eapply keeps_triage.
  - eapply keeps_invariant; [|exact Hi]. eapply keeps_or_same; [by eapply request_frame|]. by intros (? & _ & _ & _ & _ & _ & ?).
  - eapply keeps_invariant; [|exact Hi]. eapply keeps_or_same; [by eapply decide_frame|]. by intros (? & ? & _ & _ & _ & _ & _ & ?).
  - eapply keeps_invariant; [|exact Hi]. eapply keeps_or_same; [by eapply withdraw_frame|]. by intros (? & _ & _ & _ & _ & ?).
  - eapply keeps_invariant; [|exact Hi]. eapply keeps_or_same; [by eapply remove_frame|]. by intros (? & _ & _ & _ & _ & ?).
  - eapply keeps_invariant; [|exact Hi]. eapply keeps_or_same; [by eapply create_for_device_frame|]. by intros (? & _ & _ & _ & _ & ?).
  - eapply keeps_invariant; [|exact Hi]. apply keeps_end_group.
  - eapply keeps_invariant; [|exact Hi]. apply keeps_close.
  - destruct Hi as (C & R & [P1 P2 P3 P4]). split_and!; [by apply (counted_same log' t)|done|by split].
Qed.

Lemma tables_invariant log t : reachable log t -> invariant log t.
Proof.
  induction 1 as [p h approval|log t log' t' _ IH Hs]; [|by eapply step_invariant].
  split_and!; split; simpl; (apply NoDup_nil_2 || by intros; exfalso).
Qed.
End world.
