(* ===== verification/AlarmProps.v ===== *)
(** * Agents' alarms: the properties

    Over every sequence of deliveries, triage changes, suppressions (of hosts and of network devices) and deletions
    of host groups ([reachable]). *)
From S2P Require Import Prelude RustStd Text Json SignData AccessDb AgentDb AgentInv AlarmData AlarmDb AlarmInv.
From stdpp Require Import prelude strings list pretty.
From Stdlib Require Import Ascii ZArith Lia.

Open Scope Z_scope.

(** ** A batch changes neither suppressions nor its surroundings *)

Definition frame (t t' : AlarmTables) : Prop :=
  people t' = people t /\ hosts t' = hosts t /\ suppressions t' = suppressions t /\ dropped_totals t' = dropped_totals t.

Lemma hourly_same id now n t t' : hourly id now n t = Some t' -> frame t t'.
Proof. by intros [f ->]%hourly_frame. Qed.

Lemma insert_all_frame agent supps now l : forall t done t' done',
  insert_all agent supps now l (t, done) = Some (t', done') -> frame t t'.
Proof.
  induction l as [|a l IH]; intros t d t' d'; simpl; [by intros [= <- <-]|].
  destruct (match known_alarm agent (sa_alarm_id a) t with Some _ => _ | None => _ end) as [[t1 d1]|] eqn:E; [|done]. simpl.
  intros (A1 & A2 & A3 & A4)%IH. assert (frame t t1) as (B1 & B2 & B3 & B4); [|split_and!; congruence]. clear -E.
  destruct (known_alarm agent (sa_alarm_id a) t) as [known|].
  - revert E. unfold insert_known. destruct (negb _); [by intros [= <- <-]|]. destruct (_ && _); [by intros [= <- <-]|].
    destruct (if _ <? _ then _ else _) as [t2|] eqn:E1; [|done]. simpl.
    assert (frame t t2) as H2 by (destruct (_ <? _); [by apply hourly_same in E1|injection E1 as <-; done]).
    intros [= <- <-]. by destruct (_ && _).
  - revert E. unfold insert_new. destruct (negb _); [done|]. destruct (hourly _ _ _ _) as [t2|] eqn:E1; [|done]. simpl.
    apply hourly_same in E1. intros [= <- <-]. by destruct (tr_note _).
Qed.

Lemma keep_dropped_again agent n t t' : hosts t' = hosts t -> dropped_totals t' = dropped_totals (keep_dropped agent n t) ->
  keep_dropped agent n t' = t'.
Proof.
  unfold keep_dropped. intros Eh. rewrite Eh. destruct (is_some _); simpl; [|done]. set (d := match i64_try_from n with Some n => n | None => i64_max end).
  intros Ed. assert (forall l, dropped_totals t' = l ->
    (if existsb (fun e => String.eqb e.1 agent) l
     then map (fun e => if String.eqb e.1 agent then (e.1, Z.max e.2 d) else e) l else l ++ [(agent, Z.max 0 d)]) = l ->
    set_dropped (fun l => if existsb (fun e => String.eqb e.1 agent) l
      then map (fun e => if String.eqb e.1 agent then (e.1, Z.max e.2 d) else e) l else l ++ [(agent, Z.max 0 d)]) t' = t') as Hset.
  { intros l El E. destruct t'. unfold set_dropped. simpl in *. by rewrite El, E. }
  apply (Hset _ Ed). clear.
  assert (forall l : list (string * Z), (forall e, In e l -> String.eqb e.1 agent = true -> Z.max e.2 d = e.2) ->
    map (fun e => if String.eqb e.1 agent then (e.1, Z.max e.2 d) else e) l = l) as Hmap.
  { intros l Hl. rewrite <- (map_id l) at 2. apply map_ext_in. intros [a m] Hin. destruct (String.eqb _ _) eqn:E; [|done].
    by rewrite (Hl _ Hin E). }
  destruct (existsb (fun e => String.eqb e.1 agent) (dropped_totals t)) eqn:E.
  - match goal with |- (if existsb ?p (map ?f ?l) then _ else _) = _ => assert (existsb p (map f l) = true) as -> end.
    { apply existsb_exists in E as (e & Hin & Ee). apply existsb_exists. eexists. split; [by apply (in_map _ _ e)|].
      simpl. by rewrite Ee. }
    apply (Hmap (map _ _)). intros e (e' & <- & Hin)%in_map_iff. destruct (String.eqb e'.1 agent) eqn:E'; simpl; [lia|congruence].
  - rewrite existsb_app. simpl. rewrite String.eqb_refl, orb_true_r. apply Hmap.
    intros e [Hin| ->]%in_snoc E'; [|simpl; lia]. exfalso. apply not_true_iff_false in E. apply E, existsb_exists. by exists e.
Qed.

(** What was counted stays as it is when it is sent again. *)
Lemma insert_all_again log agent supps now t done l : counted log t -> (forall a, In a l -> In (agent, a) log) ->
  insert_all agent supps now l (t, done) = Some (t, done).
Proof.
  intros Hc. induction l as [|a l IH]; [done|]. intros Hl. simpl.
  destruct (c_row _ _ Hc (agent, a)) as (r & Hr & Ea & Ei); [apply Hl; by left|]. simpl in Ea, Ei.
  destruct (known_alarm agent (sa_alarm_id a) t) as [known|] eqn:Ek.
  2: { pose proof (find_none _ _ Ek r Hr) as E. simpl in E. by rewrite Ea, Ei, !String.eqb_refl in E. }
  apply known_spec in Ek as (Hk & Ea' & Ei'). unfold insert_known. destruct (same_rule a known) eqn:Es; simpl.
  - destruct (c_max _ _ Hc known (agent, a) Hk) as [H1 H2]; [apply Hl; by left|done|]. simpl in H1, H2.
    apply Z.leb_le in H1, H2. rewrite H1, H2. simpl. apply IH. intros a' Ha'. apply Hl. by right.
  - apply IH. intros a' Ha'. apply Hl. by right.
Qed.

Section claims.
Context (cr : Crypto) (json_args : list string -> list Z) (json_text : value -> string).
Notation reachable := (reachable cr json_args json_text).
Notation step := (step cr json_args json_text).

(** Over any history of deliveries, triage and suppression requests, there is one row per alarm of an
    agent, and each row is what its rule's deliveries amount to: its count and its last start are the
    maxima of what was delivered for it, never summed up or lowered by a resend, and the starts kept per
    hour add up to the count, whatever hours the deliveries fell in. *)
Theorem deliveries_counted log t : reachable log t ->
  NoDup (map (fun r => (al_agent r, al_alarm_id r)) (alarms t))
  /\ (forall d, In d log -> exists r, In r (alarms t) /\ al_agent r = d.1 /\ al_alarm_id r = sa_alarm_id d.2)
  /\ forall r, In r (alarms t) ->
       (forall d, In d log -> of_row r d -> sa_count d.2 <= al_count r /\ sa_last_seen d.2 <= al_last_seen r)
       /\ (exists d, In d log /\ of_row r d /\ sa_count d.2 = al_count r)
       /\ (exists d, In d log /\ of_row r d /\ sa_last_seen d.2 = al_last_seen r)
       /\ starts_in (al_id r) (hourly_starts t) = al_count r.
Proof.
  intros ([H1 H2 H3 H4 H5 H6 H7 H8 H9] & _)%tables_invariant. split; [done|]. split; [done|]. intros r Hr.
  split; [by intros d; apply H8|]. destruct (H9 r Hr) as [Hc Hl]. auto.
Qed.

(** Over any such history, the triage history of an alarm accounts for its triage: played from an open
    alarm of version 1, each row starts from the state the rows before it lead to, and together they give
    the state the alarm has and the version of its triage; no operation changes one without the other. *)
Theorem triage_accounted log t r : reachable log t -> In r (alarms t) ->
  replay (history_of (al_id r) (alarm_history t)) ("open", 1) = Some (tr_state (al_triage r), tr_version (al_triage r)).
Proof. intros (_ & [H _] & _)%tables_invariant Hr. by apply H. Qed.

(** C35: over any such history, every suppression's columns fit the state it is in (one that waits has no
    decision and no activation, one that is active or was removed runs from its activation for its days and
    was not approved by its author, a rejected one has another person's decision and reason, a withdrawn
    one its author's, or went with its host group); and a step leaves an active suppression only where it was
    active, where it is new and the setting asks for no approval or it is one of network devices, which are
    active at once whatever the setting says, or where it waited and someone other than its author approved it. *)
Theorem four_eyes log t log' t' : reachable log t -> step (log, t) (log', t') ->
  (forall s', In s' (suppressions t') -> lifecycle s')
  /\ forall s', In s' (suppressions t') -> sp_state s' = Applied ->
       In s' (suppressions t)
       \/ (sp_id s' = next_suppression t
           /\ (require_approval t = false \/ sp_scope s' = "device" \/ sp_scope s' = "signature"))
       \/ exists s by_, In s (suppressions t) /\ sp_id s = sp_id s' /\ sp_state s = Waiting
            /\ sp_created_by s = sp_created_by s' /\ sp_decided_by s' = Some by_ /\ by_ <> sp_created_by s'.
Proof.
  intros Hr Hs. split.
  { assert (reachable log' t') as (_ & _ & Hp)%tables_invariant by (by eapply reachable_step). apply Hp. }
  apply tables_invariant in Hr as (_ & _ & Hp). intros s' Hin Ha. inversion Hs; subst; clear Hs.
  - match goal with H : insert_batch _ _ _ _ _ = _ |- _ => apply insert_all_frame in H as (_ & _ & Es & _) end.
    left. rewrite Es in Hin. revert Hin. unfold keep_dropped. by case_match.
  - left. destruct (update_triage scope id c actor now t) eqn:E.
    by apply update_triage_frame in E as [->|(r & assigned & _ & _ & ->)].
  - match goal with H : request _ _ _ _ _ _ _ _ = _ |- _ => apply request_frame in H as [->|(s & Eid & _ & _ & Est & Es & _)] end; [by left|].
    rewrite Es in Hin. apply in_snoc in Hin as [Hin| ->]; [by left|]. right; left. split; [done|]. left. destruct (require_approval t); [congruence|done].
  - match goal with H : decide_request _ _ _ _ _ _ _ _ = _ |- _ =>
      apply decide_frame in H as [->|(s & why & Hs & Eid & Ew & Hne & Es & _)] end; [by left|].
    rewrite Es in Hin. apply in_map_iff in Hin as (x & <- & Hx). destruct (sp_id x =? id) eqn:Ex; [|by left].
    assert (x = s) as -> by (apply (NoDup_map_inj sp_id (suppressions t)); try done; [apply Hp|lia]).
    right; right. exists s, actor. split_and!; done || (simpl; congruence).
  - match goal with H : withdraw _ _ _ _ = _ |- _ => apply withdraw_frame in H as [->|(s & Hs & Eid & Ew & Es & _)] end; [by left|].
    rewrite Es in Hin. apply in_map_iff in Hin as (x & <- & Hx). destruct (sp_id x =? id); [done|by left].
  - match goal with H : AlarmDb.remove _ _ _ _ _ = _ |- _ => apply remove_frame in H as [->|(s & Hs & Eid & Ew & Es & _)] end; [by left|].
    rewrite Es in Hin. apply in_map_iff in Hin as (x & <- & Hx). destruct (sp_id x =? id); [done|by left].
  - match goal with H : create_for_device _ _ _ _ _ _ _ = _ |- _ => apply create_for_device_frame in H as [->|(s & Eid & _ & Ek & Es & _)] end; [by left|].
    rewrite Es in Hin. apply in_snoc in Hin as [Hin| ->]; [by left|]. right; left. split; [done|]. by right.
  - left. by eapply end_group_active.
  - left. revert Hin. unfold close_covered. simpl.
    by destruct (close_source_rows json_text id ids suppress actor now t) as (_ & -> & _).
  - by left.
Qed.

(** Over any such history, an alarm a suppression closed is an alarm of that suppression's rule, on its
    host where it names one, and the suppression was active: it is so still, or was removed; a request that
    waits, was rejected or withdrawn never closed anything. *)
Theorem closes_only_its_rule log t r id : reachable log t -> In r (alarms t) -> tr_suppressed_by (al_triage r) = Some id ->
  exists s, In s (suppressions t) /\ sp_id s = id /\ (sp_state s = Applied \/ sp_state s = Removed)
    /\ al_rule_set_id r = sp_rule_set_id s /\ al_rule_id r = sp_rule_id s
    /\ match sp_agent_id s with None => True | Some a => al_agent r = a end.
Proof. intros (_ & _ & Hp)%tables_invariant Hr Hid. by apply (p_closed t Hp). Qed.

(** A batch that was stored and is delivered once more, at any later time and whatever suppressions then
    apply, changes nothing and reports nothing stored, raised or suppressed. *)
Theorem resend_changes_nothing log t agent dropped batch now later t' done : reachable log t ->
  insert_batch agent dropped batch now t = Some (t', done) ->
  insert_batch agent dropped batch later t' = Some (t', nothing_stored).
Proof.
  intros (Hc & _)%tables_invariant H. pose proof (insert_batch_counted _ _ _ _ _ _ _ _ Hc H) as Hc'.
  pose proof (insert_all_frame _ _ _ _ _ _ _ _ H) as (_ & Eh & _ & Ed). unfold insert_batch.
  rewrite (keep_dropped_again agent dropped t); [|rewrite Eh; unfold keep_dropped; by case_match|done].
  apply (insert_all_again (log ++ map (pair agent) batch)); [done|]. intros a Ha. apply in_app_iff. right. by apply in_map.
Qed.
End claims.

(** ** A concrete history *)

Definition ex_host : AgentRow :=
  {| ag_id := "agent.h1"; ag_status := SActive; ag_enrolled_at := 0; ag_revoked_at := None; ag_last_seen_at := None;
     ag_scanner_version := None; ag_capabilities := []; ag_hostname := None; ag_last_address := None; ag_health := None;
     ag_health_previous := None; ag_health_at := None; ag_hardening_facts_ok_at := None; ag_claimed_agent_id := None |}.
Definition ex_hosts : AgentTables :=
  {| agents := [ex_host]; certificates := []; enrollment_tokens := []; token_uses := []; standing_token_secret := [];
     idempotency := []; agent_presence := []; group_membership := []; agent_log := [] |}.
Definition ex_people : Db :=
  {| users := []; accounts := []; roles := []; bindings := []; dashboards := []; sessions := []; audit_log := [];
     console_permissions := []; asset_groups := []; draws := 0 |}.
Definition ex_json_args (l : list string) : list Z := bytes (Text.join " " l).
Definition ex_json_text (v : value) : string := "".
Definition ex_alarm (id : string) (count last : Z) : StoredAlarm :=
  {| sa_detection := None; sa_alarm_id := id; sa_rule_set_id := "linux"; sa_rule_set_version := 3; sa_rule_id := "shell";
     sa_rule_version := 1; sa_severity := "high"; sa_confidence := 80; sa_message := "a shell"; sa_first_seen := DAY_US;
     sa_last_seen := last; sa_count := count;
     sa_process := JObject [("args", JArray [JString "sh"]); ("exe", JString "/bin/sh")]; sa_ancestors := JArray [];
     sa_exe := "/bin/sh"; sa_args_sha256 := "none" |}.
Definition ex_batch : list StoredAlarm := [ex_alarm "a1" 2 (DAY_US + 60)].
Definition ex_batch2 : list StoredAlarm := [ex_alarm "a1" 5 (DAY_US + 90); ex_alarm "a2" 1 (DAY_US + 90)].

Definition ex_then (o : option (AlarmTables * Stored)) : AlarmTables := match o with Some (t, _) => t | None => no_alarms ex_people ex_hosts true end.
Definition ex_changed (o : option (Change * AlarmTables)) : AlarmTables := match o with Some (_, t) => t | None => no_alarms ex_people ex_hosts true end.

Definition ex_empty : AlarmTables := no_alarms ex_people ex_hosts true.
Definition ex_one : AlarmTables := ex_then (insert_batch "agent.h1" 0 ex_batch (DAY_US + 100) ex_empty).
Definition ex_mitigate : TriageChange :=
  {| tc_expected_version := 1; tc_state := "mitigated"; tc_assigned_to_username := None; tc_note := Some "patched"; tc_accepted_until := None |}.
Definition ex_triaged : AlarmTables := (update_triage ScopeGlobal 1 ex_mitigate "bob" (DAY_US + 200) ex_one).2.
(** The alarm recurs an hour later, and another one comes. *)
Definition ex_two : AlarmTables := ex_then (insert_batch "agent.h1" 7 ex_batch2 (DAY_US + HOUR_US) ex_triaged).
Definition ex_ask : Request :=
  {| rq_alarm_row_id := 1; rq_what := Program; rq_place := OnHost; rq_for_days := Some 7; rq_reason := "our own tool" |}.
Definition ex_asked : AlarmTables :=
  ex_changed (request test_crypto ex_json_args ex_json_text ScopeGlobal ex_ask "alice" (DAY_US + 2 * HOUR_US) ex_two).
Definition ex_decide (actor : string) : option (Change * AlarmTables) :=
  decide_request ex_json_text ScopeGlobal 1 true None actor (DAY_US + 3 * HOUR_US) ex_asked.
Definition ex_approved : AlarmTables := ex_changed (ex_decide "bob").
Definition ex_log : Log := [("agent.h1", ex_alarm "a1" 2 (DAY_US + 60)); ("agent.h1", ex_alarm "a1" 5 (DAY_US + 90));
                            ("agent.h1", ex_alarm "a2" 1 (DAY_US + 90))].

Example ex_history_vector :
  map (fun r => (tr_state (al_triage r), tr_version (al_triage r), al_count r)) (alarms ex_two) = [("open", 3, 5); ("open", 1, 1)]
  /\ hourly_starts ex_two = [((1, DAY_US), 2); ((1, DAY_US + HOUR_US), 3); ((2, DAY_US + HOUR_US), 1)]
  /\ dropped_totals ex_two = [("agent.h1", 7)]
  /\ (ex_decide "alice" = Some (OwnRequest, ex_asked))
  /\ map (fun r => (tr_state (al_triage r), tr_suppressed_by (al_triage r))) (alarms ex_approved) = [("false_positive", Some 1); ("open", None)]
  /\ map (fun h => (hy_alarm h, hy_from h, hy_to h, hy_by h)) (alarm_history ex_approved)
     = [(1, Some "open", "mitigated", "bob"); (1, Some "mitigated", "open", "ingest"); (1, Some "open", "false_positive", "bob")].
Proof. vm_compute. auto 10. Qed.

Notation ex_reachable := (reachable test_crypto ex_json_args ex_json_text).

Lemma ex_triaged_reachable : ex_reachable [("agent.h1", ex_alarm "a1" 2 (DAY_US + 60))] ex_triaged.
Proof.
  apply (reachable_step _ _ _ [("agent.h1", ex_alarm "a1" 2 (DAY_US + 60))] ex_one); [|apply step_triage].
  apply (reachable_step _ _ _ [] ex_empty); [apply reachable_new|].
  apply (step_deliver _ _ _ [] ex_empty "agent.h1" 0 ex_batch (DAY_US + 100) ex_one {| stored := 1; raised := 0; suppressed := 0 |}).
  vm_compute. reflexivity.
Qed.

Lemma ex_two_reachable : ex_reachable ex_log ex_two.
Proof.
  eapply reachable_step; [exact ex_triaged_reachable|].
  apply (step_deliver _ _ _ [("agent.h1", ex_alarm "a1" 2 (DAY_US + 60))] ex_triaged "agent.h1" 7 ex_batch2 (DAY_US + HOUR_US) ex_two
           {| stored := 1; raised := 1; suppressed := 0 |}).
  vm_compute. reflexivity.
Qed.

Lemma ex_asked_reachable : ex_reachable ex_log ex_asked.
Proof.
  eapply reachable_step; [exact ex_two_reachable|].
  eapply (step_request _ _ _ ex_log ex_two ScopeGlobal ex_ask "alice" (DAY_US + 2 * HOUR_US)). vm_compute. reflexivity.
Qed.

Lemma ex_approval : step test_crypto ex_json_args ex_json_text (ex_log, ex_asked) (ex_log, ex_approved).
Proof.
  eapply (step_decide _ _ _ ex_log ex_asked ScopeGlobal 1 true None "bob" (DAY_US + 3 * HOUR_US)). vm_compute. reflexivity.
Qed.

Lemma ex_approved_reachable : ex_reachable ex_log ex_approved.
Proof. eapply reachable_step; [exact ex_asked_reachable|exact ex_approval]. Qed.

Definition ex_first (t : AlarmTables) : AlarmRow := default (new_row "" (ex_alarm "" 0 0) 0 0 untriaged) (head (alarms t)).

Lemma ex_first_two : In (ex_first ex_two) (alarms ex_two).
Proof. vm_compute. left. reflexivity. Qed.
Lemma ex_first_approved : In (ex_first ex_approved) (alarms ex_approved).
Proof. vm_compute. left. reflexivity. Qed.

Lemma deliveries_counted_witness : ex_reachable ex_log ex_two /\ al_count (ex_first ex_two) = 5
  /\ starts_in (al_id (ex_first ex_two)) (hourly_starts ex_two) = al_count (ex_first ex_two).
Proof.
  split; [exact ex_two_reachable|]. split; [vm_compute; reflexivity|].
  exact (proj2 (proj2 (proj2 (proj2 (proj2 (deliveries_counted _ _ _ ex_log ex_two ex_two_reachable)) (ex_first ex_two) ex_first_two)))).
Defined.

Lemma triage_accounted_witness :
  replay (history_of 1 (alarm_history ex_approved)) ("open", 1) = Some ("false_positive", 4).
Proof.
  pose proof (triage_accounted _ _ _ ex_log ex_approved (ex_first ex_approved) ex_approved_reachable ex_first_approved) as H.
  vm_compute in H |- *. exact H.
Defined.

Lemma ex_applied : exists s', In s' (suppressions ex_approved) /\ sp_state s' = Applied /\ ~ In s' (suppressions ex_asked).
Proof.
  vm_compute. eexists. split; [left; reflexivity|]. split; [reflexivity|]. intros [H|[]]. discriminate H.
Qed.

Lemma four_eyes_witness : exists s by_, In s (suppressions ex_asked) /\ sp_state s = Waiting /\ by_ <> sp_created_by s.
Proof.
  destruct ex_applied as (s' & Hin & Ha & Hno).
  destruct (proj2 (four_eyes _ _ _ ex_log ex_asked ex_log ex_approved ex_asked_reachable ex_approval) s' Hin Ha)
    as [H|[[_ [H|[H|H]]]|(s & by_ & Hs & _ & Hw & Ec & _ & Hne)]].
  - destruct (Hno H).
  - vm_compute in H. discriminate H.
  - vm_compute in Hin. destruct Hin as [<-|[]]. discriminate H.
  - vm_compute in Hin. destruct Hin as [<-|[]]. discriminate H.
  - exists s, by_. rewrite Ec. split; [exact Hs|]. split; [exact Hw|exact Hne].
Defined.

Lemma closes_only_its_rule_witness : exists s, In s (suppressions ex_approved) /\ sp_id s = 1 /\ "shell" = sp_rule_id s.
Proof.
  assert (tr_suppressed_by (al_triage (ex_first ex_approved)) = Some 1) as Hs by (vm_compute; reflexivity).
  destruct (closes_only_its_rule _ _ _ ex_log ex_approved (ex_first ex_approved) 1 ex_approved_reachable ex_first_approved Hs)
    as (s & Hin & Eid & _ & _ & Er & _).
  exists s. split; [exact Hin|]. split; [exact Eid|]. rewrite <- Er. vm_compute. reflexivity.
Defined.

Lemma resend_changes_nothing_witness : insert_batch "agent.h1" 7 ex_batch2 (40 * DAY_US) ex_two = Some (ex_two, nothing_stored).
Proof.
  apply (resend_changes_nothing _ _ _ _ ex_triaged "agent.h1" 7 ex_batch2 (DAY_US + HOUR_US) (40 * DAY_US) ex_two
           {| stored := 1; raised := 1; suppressed := 0 |} ex_triaged_reachable).
  vm_compute. reflexivity.
Defined.
