(* ===== verification/FindData.v ===== *)
(** * Findings: what agents send, and what is stored of it
      (platform-store/src/wire.rs, ingest.rs, finding_changes.rs; openvibes-ingest/src/delivery.rs)

    [Finding] and [FindingChanges] are documents of the protocol's crate, read; [to_value] of a finding's
    detection is given with it. *)
From S2P Require Import Prelude RustStd Text BTree Json AgentServer AlarmData.
From stdpp Require Import prelude strings list.
From Stdlib Require Import Ascii ZArith Lia.

Open Scope Z_scope.

Record Finding := {
  fi_detection : option (option value);
  fi_finding_id : string;
  fi_scan_id : string;
  fi_rule_set_id : option string;
  fi_rule_id : string;
  fi_rule_version : Z;
  fi_observed_at_unix_ms : Z;
  fi_severity : Severity;
  fi_confidence : Z;
  fi_message : string;
  fi_evidence : list string;
}.

Record StoredFinding := {
  sf_detection : option value;
  sf_finding_id : string;
  sf_scan_id : string;
  sf_rule_set_id : string;
  sf_rule_id : string;
  sf_rule_version : Z;
  sf_observed_at : Z;
  sf_severity : string;
  sf_confidence : Z;
  sf_message : string;
  sf_evidence : list string;
}.

Inductive Origin := Online | Import.

Record FindingBatch := { fb_findings : list Finding }.

Record EndedMatch := { em_rule_set_id : string; em_rule_id : string; em_ended_at_unix_ms : Z }.
Record TransientMatch := { tm_finding : Finding; tm_ended_at_unix_ms : Z }.
Record FindingChanges := {
  fc_agent_id : string;
  fc_base_sha256 : string;
  fc_sha256 : string;
  fc_replace : bool;
  fc_scanned_at_unix_ms : Z;
  fc_started : list Finding;
  fc_changed : list Finding;
  fc_ended : list EndedMatch;
  fc_transient : list TransientMatch;
}.

(** The rows of a change set, read by the handler. *)
Record Rows := {
  rw_started : list StoredFinding;
  rw_changed : list StoredFinding;
  rw_transient : list (StoredFinding * Z);
}.

Definition Key : Type := string * string.
Definition key_cmp : Key -> Key -> comparison := pair_cmp str_cmp str_cmp.
#[export] Instance key_cmp_order : CmpOrder key_cmp.
Proof. unfold key_cmp. apply _. Qed.

Definition wire_key (f : Finding) : Key := (default "" (fi_rule_set_id f), fi_rule_id f).
Definition row_key (f : StoredFinding) : Key := (sf_rule_set_id f, sf_rule_id f).

Section reading.
(** [DateTime::from_timestamp_millis], in microseconds. *)
Context (from_timestamp_millis : Z -> option Z).

(** [wire::finding]. *)
Definition finding (f : Finding) (oldest latest : Z) (partitions : list Z) : string + StoredFinding :=
  match from_timestamp_millis (fi_observed_at_unix_ms f), i64_try_from (fi_rule_version f) with
  | Some observed_at, Some rule_version =>
      if latest <? observed_at then inl "future_observation"
      else if observed_at <? oldest then inl "retention_expired"
      else if negb (existsb (Z.eqb (date_naive observed_at)) partitions) then inl "unstorable"
      else match fi_detection f with
      | Some None => inl "out_of_range"
      | detection =>
          inr {| sf_detection := match detection with Some v => v | None => None end; sf_finding_id := fi_finding_id f;
                 sf_scan_id := fi_scan_id f; sf_rule_set_id := default "" (fi_rule_set_id f); sf_rule_id := fi_rule_id f;
                 sf_rule_version := rule_version; sf_observed_at := observed_at; sf_severity := severity (fi_severity f);
                 sf_confidence := fi_confidence f; sf_message := fi_message f; sf_evidence := fi_evidence f |}
      end
  | _, _ => inl "out_of_range"
  end.

(** The handler of /v1/findings sorts a batch: what to store, and the ids refused with their reasons. *)
Fixpoint sorted_batch (l : list Finding) (oldest latest : Z) (partitions : list Z)
    : list StoredFinding * list (string * string) :=
  match l with
  | [] => ([], [])
  | f :: l =>
      let '(keep, rejected) := sorted_batch l oldest latest partitions in
      match finding f oldest latest partitions with
      | inr row => (row :: keep, rejected)
      | inl reason => (keep, (fi_finding_id f, reason) :: rejected)
      end
  end.

Definition observed_now (now : Z) (f : Finding) : Finding :=
  {| fi_detection := fi_detection f; fi_finding_id := fi_finding_id f; fi_scan_id := fi_scan_id f;
     fi_rule_set_id := fi_rule_set_id f; fi_rule_id := fi_rule_id f; fi_rule_version := fi_rule_version f;
     fi_observed_at_unix_ms := now / 1000; fi_severity := fi_severity f; fi_confidence := fi_confidence f;
     fi_message := fi_message f; fi_evidence := fi_evidence f |}.

(** A finding of a change set: one the store cannot date is stored at receipt. *)
Definition changed_row (now oldest latest : Z) (partitions : list Z) (f : Finding) : ApiError + StoredFinding :=
  match finding f oldest latest partitions with
  | inr row => inr row
  | inl reason =>
      if String.eqb reason "out_of_range" then inl BadRequest
      else match finding (observed_now now f) oldest latest partitions with inr row => inr row | inl _ => inl Unavailable end
  end.

(** [collect] of results: the first error, in order. *)
Fixpoint collected {A B} (f : A -> ApiError + B) (l : list A) : ApiError + list B :=
  match l with
  | [] => inr []
  | x :: l => match f x with
              | inl e => inl e
              | inr y => match collected f l with inl e => inl e | inr r => inr (y :: r) end
              end
  end.

Definition transient_row (now oldest latest : Z) (partitions : list Z) (m : TransientMatch) : ApiError + (StoredFinding * Z) :=
  match from_timestamp_millis (tm_ended_at_unix_ms m) with
  | None => inl BadRequest
  | Some ended => match changed_row now oldest latest partitions (tm_finding m) with
                  | inl e => inl e
                  | inr row => inr (row, ended) end
  end.

Definition rows_of (now oldest latest : Z) (partitions : list Z) (c : FindingChanges) : ApiError + Rows :=
  match collected (changed_row now oldest latest partitions) (fc_started c) with
  | inl e => inl e
  | inr started =>
  match collected (changed_row now oldest latest partitions) (fc_changed c) with
  | inl e => inl e
  | inr changed =>
  match collected (transient_row now oldest latest partitions) (fc_transient c) with
  | inl e => inl e
  | inr transient => inr {| rw_started := started; rw_changed := changed; rw_transient := transient |}
  end end end.
End reading.

(** ** The digest of the open matches *)

Definition severity_parse (s : string) : option Severity :=
  find (fun v => String.eqb (severity v) s) [Info; Low; Medium; High; Critical].

Section digest.
(** [Identifier::new] of the protocol's crate, as a test. *)
Context (identifier : string -> bool).

Definition checked (s : string) : option string := if identifier s then Some s else None.
Fixpoint all_checked (l : list string) : option (list string) :=
  match l with
  | [] => Some []
  | s :: l => s ← checked s; l ← all_checked l; Some (s :: l)
  end.

(** A stored open match as the digest sees it. *)
Definition digest_finding (set_ rule : string) (version : Z) (sev message : string) (evidence : list string) : option Finding :=
  finding_id ← checked "finding.stored";
  scan_id ← checked "scan.stored";
  set_ ← checked set_;
  rule ← checked rule;
  version ← (if version <? 0 then None else Some version);
  sev ← severity_parse sev;
  evidence ← all_checked evidence;
  Some {| fi_detection := None; fi_finding_id := finding_id; fi_scan_id := scan_id; fi_rule_set_id := Some set_;
          fi_rule_id := rule; fi_rule_version := version; fi_observed_at_unix_ms := 0; fi_severity := sev;
          fi_confidence := 100; fi_message := message; fi_evidence := evidence |}.
End digest.

(** What the digest is made of. *)
Record Match := {
  ma_rule_set_id : string;
  ma_rule_id : string;
  ma_rule_version : Z;
  ma_severity : string;
  ma_message : string;
  ma_evidence : list string;
}.
Definition match_of (f : Finding) : Match :=
  {| ma_rule_set_id := default "" (fi_rule_set_id f); ma_rule_id := fi_rule_id f; ma_rule_version := fi_rule_version f;
     ma_severity := severity (fi_severity f); ma_message := fi_message f; ma_evidence := fi_evidence f |}.
Definition match_of_row (f : StoredFinding) : Match :=
  {| ma_rule_set_id := sf_rule_set_id f; ma_rule_id := sf_rule_id f; ma_rule_version := sf_rule_version f;
     ma_severity := sf_severity f; ma_message := sf_message f; ma_evidence := sf_evidence f |}.

Lemma severity_parse_spec s v : severity_parse s = Some v -> severity v = s.
Proof. unfold severity_parse. intros [_ E]%find_some. by apply String.eqb_eq. Qed.

Lemma all_checked_same ok l l' : all_checked ok l = Some l' -> l' = l.
Proof.
  revert l'. induction l as [|s l IH]; simpl; [by intros l' [= <-]|]. intros l'. unfold checked. destruct (ok s); simpl; [|done].
  destruct (all_checked ok l) as [l1|]; simpl; [|done]. intros [= <-]. f_equal. by apply IH.
Qed.

Lemma digest_finding_match ok set_ rule version sev message evidence f :
  digest_finding ok set_ rule version sev message evidence = Some f ->
  match_of f = {| ma_rule_set_id := set_; ma_rule_id := rule; ma_rule_version := version; ma_severity := sev;
                  ma_message := message; ma_evidence := evidence |}.
Proof.
  unfold digest_finding, checked. destruct (ok "finding.stored"), (ok "scan.stored"), (ok set_), (ok rule); simpl; try done.
  destruct (version <? 0); simpl; [done|]. destruct (severity_parse sev) as [v|] eqn:Ev; simpl; [|done].
  destruct (all_checked ok evidence) as [l|] eqn:El; simpl; [|done]. intros [= <-]. unfold match_of. simpl.
  apply severity_parse_spec in Ev. apply all_checked_same in El. by subst.
Qed.

Lemma finding_match ms f oldest latest partitions row : finding ms f oldest latest partitions = inr row ->
  match_of_row row = match_of f /\ row_key row = wire_key f.
Proof.
  unfold finding, i64_try_from. destruct (ms _) as [at_|]; [|done].
  destruct ((i64_min <=? fi_rule_version f) && (fi_rule_version f <=? i64_max)); [|done].
  destruct (latest <? at_); [done|]. destruct (at_ <? oldest); [done|]. destruct (negb _); [done|].
  destruct (fi_detection f) as [[v|]|]; [|done|]; by intros [= <-].
Qed.

Lemma changed_row_match ms now oldest latest partitions f row : changed_row ms now oldest latest partitions f = inr row ->
  match_of_row row = match_of f /\ row_key row = wire_key f.
Proof.
  unfold changed_row. destruct (finding ms f oldest latest partitions) as [reason|row'] eqn:E.
  - destruct (String.eqb _ _); [done|]. destruct (finding ms (observed_now now f) oldest latest partitions) eqn:E'; [done|].
    intros [= <-]. by apply finding_match in E'.
  - intros [= <-]. by apply finding_match in E.
Qed.

Lemma collected_Forall2 {A B} (f : A -> ApiError + B) l r : collected f l = inr r -> Forall2 (fun x y => f x = inr y) l r.
Proof.
  revert r. induction l as [|x l IH]; intros r; simpl; [intros [= <-]; constructor|]. destruct (f x) eqn:E; [done|].
  destruct (collected f l); [done|]. intros [= <-]. constructor; auto.
Qed.
