(* ===== verification/FindDb.v ===== *)
(** * Findings: the stored side (store_findings of platform-store/src/ingest.rs, finding_changes.rs,
      console_triage.rs)

    Each observation once, one current row per rule and agent, its triage and the digest of the open
    matches.  Every function is one transaction; [None] is a failed statement, which leaves the tables as
    they were.  Times are microseconds since the epoch. *)
From S2P Require Import Prelude RustStd Text BTree Json AgentServer AccessDb AgentDb AlarmData FindData.
From stdpp Require Import prelude strings list.
From Stdlib Require Import Ascii ZArith Lia.

Open Scope Z_scope.

(** ** Tables *)

(** [findings]: every observation. *)
Record FoundRow := {
  ff_agent : string;
  ff_finding : StoredFinding;
  ff_received_at : Z;
  ff_origin : Origin;
}.
Definition ff_day (r : FoundRow) : Z := date_naive (sf_observed_at (ff_finding r)).

(** [current_findings.source]. *)
Inductive Source := Scan | Changes.
#[export] Instance Source_eq_dec : EqDecision Source.
Proof. solve_decision. Defined.

(** [current_findings]. *)
Record CurrentRow := {
  cf_agent : string;
  cf_rule_set_id : string;
  cf_rule_id : string;
  cf_last_finding_id : string;
  cf_rule_version : Z;
  cf_severity : string;
  cf_first_observed_at : Z;
  cf_last_observed_at : Z;
  cf_last_observed_day : Z;
  cf_scan_id : string;
  cf_confidence : Z;
  cf_message : string;
  cf_evidence : list string;
  cf_received_at : Z;
  cf_origin : Origin;
  cf_detection : option value;
  cf_source : Source;
  cf_ended_at : option Z;
  cf_end_approximate : bool;
  cf_end_recorded_at : option Z;
}.
Definition cf_key (r : CurrentRow) : Key := (cf_rule_set_id r, cf_rule_id r).

(** [console_finding_triage] and its history. *)
Record TriageRow := {
  tg_agent : string;
  tg_rule_set_id : string;
  tg_rule_id : string;
  tg_state : string;
  tg_rule_version : Z;
  tg_assigned_to : option string;
  tg_note : option string;
  tg_accepted_until : option Z;
  tg_version : Z;
  tg_updated_at : Z;
  tg_updated_by : string;
  tg_mitigated_at : option Z;
}.
Definition tg_key (r : TriageRow) : Key := (tg_rule_set_id r, tg_rule_id r).

Record TriageHistory := {
  hf_agent : string;
  hf_key : Key;
  hf_from : option string;
  hf_to : string;
  hf_note : option string;
  hf_at : Z;
  hf_by : string;
  hf_assigned_to : option string;
  hf_accepted_until : option Z;
  hf_rule_version : option Z;
}.

(** The audit log: who, what, and the finding. *)
Record FindLog := { fl_actor : string; fl_action : string; fl_agent : string; fl_key : Key }.

Record FindTables := {
  people : Db;
  hosts : AgentTables;
  findings : list FoundRow;
  current : list CurrentRow;
  (** [agents.match_sha256]. *)
  match_sha256 : list (string * list Z);
  triage : list TriageRow;
  triage_history : list TriageHistory;
  (** [rule_set_assignment]. *)
  assignable : list string;
  (** The days [findings] has a partition for. *)
  partitions : list Z;
  find_log : list FindLog;
}.

Definition set_hosts (f : AgentTables -> AgentTables) (t : FindTables) : FindTables :=
  {| people := people t; hosts := f (hosts t); findings := findings t; current := current t; match_sha256 := match_sha256 t;
     triage := triage t; triage_history := triage_history t; assignable := assignable t; partitions := partitions t;
     find_log := find_log t |}.
Definition add_finding (r : FoundRow) (t : FindTables) : FindTables :=
  {| people := people t; hosts := hosts t; findings := findings t ++ [r]; current := current t; match_sha256 := match_sha256 t;
     triage := triage t; triage_history := triage_history t; assignable := assignable t; partitions := partitions t;
     find_log := find_log t |}.
Definition set_current (f : list CurrentRow -> list CurrentRow) (t : FindTables) : FindTables :=
  {| people := people t; hosts := hosts t; findings := findings t; current := f (current t); match_sha256 := match_sha256 t;
     triage := triage t; triage_history := triage_history t; assignable := assignable t; partitions := partitions t;
     find_log := find_log t |}.
Definition set_match_sha256 (agent : string) (d : list Z) (t : FindTables) : FindTables :=
  {| people := people t; hosts := hosts t; findings := findings t; current := current t;
     match_sha256 := (agent, d) :: List.filter (fun e => negb (String.eqb e.1 agent)) (match_sha256 t);
     triage := triage t; triage_history := triage_history t; assignable := assignable t; partitions := partitions t;
     find_log := find_log t |}.
Definition set_triage (f : list TriageRow -> list TriageRow) (t : FindTables) : FindTables :=
  {| people := people t; hosts := hosts t; findings := findings t; current := current t; match_sha256 := match_sha256 t;
     triage := f (triage t); triage_history := triage_history t; assignable := assignable t; partitions := partitions t;
     find_log := find_log t |}.
Definition add_triage_history (l : list TriageHistory) (t : FindTables) : FindTables :=
  {| people := people t; hosts := hosts t; findings := findings t; current := current t; match_sha256 := match_sha256 t;
     triage := triage t; triage_history := triage_history t ++ l; assignable := assignable t; partitions := partitions t;
     find_log := find_log t |}.
Definition log_finding (r : FindLog) (t : FindTables) : FindTables :=
  {| people := people t; hosts := hosts t; findings := findings t; current := current t; match_sha256 := match_sha256 t;
     triage := triage t; triage_history := triage_history t; assignable := assignable t; partitions := partitions t;
     find_log := find_log t ++ [r] |}.

Definition at_current (agent : string) (k : Key) (r : CurrentRow) : bool :=
  String.eqb (cf_agent r) agent && bool_decide (cf_key r = k).
Definition current_of (agent : string) (k : Key) (t : FindTables) : option CurrentRow := find (at_current agent k) (current t).
Definition update_current (p : CurrentRow -> bool) (f : CurrentRow -> CurrentRow) : FindTables -> FindTables :=
  set_current (map (fun r => if p r then f r else r)).

Definition at_triage (agent : string) (k : Key) (r : TriageRow) : bool :=
  String.eqb (tg_agent r) agent && bool_decide (tg_key r = k).
Definition triage_of (agent : string) (k : Key) (t : FindTables) : option TriageRow := find (at_triage agent k) (triage t).

Definition agent_digest (agent : string) (t : FindTables) : option (list Z) :=
  snd <$> find (fun e => String.eqb e.1 agent) (match_sha256 t).

(** ** Observations *)

(** The constraints of a row of [findings] and [current_findings]. *)
Definition finding_stored (f : StoredFinding) : bool :=
  existsb (String.eqb (sf_severity f)) ["critical"; "high"; "medium"; "low"; "info"]
  && (0 <=? sf_confidence f) && (sf_confidence f <=? 100).

(** [INSERT INTO findings ... ON CONFLICT DO NOTHING]: whether the row is new. *)
Definition insert_finding (agent : string) (f : StoredFinding) (origin : Origin) (now : Z) (t : FindTables)
    : option (bool * FindTables) :=
  if negb (existsb (Z.eqb (date_naive (sf_observed_at f))) (partitions t)) || negb (finding_stored f) then None
  else if existsb (fun r => String.eqb (sf_finding_id (ff_finding r)) (sf_finding_id f)
                            && (ff_day r =? date_naive (sf_observed_at f))) (findings t) then Some (false, t)
  else Some (true, add_finding {| ff_agent := agent; ff_finding := f; ff_received_at := now; ff_origin := origin |} t).

Definition fresh_row (agent : string) (f : StoredFinding) (origin : Origin) (now : Z) : CurrentRow :=
  {| cf_agent := agent; cf_rule_set_id := sf_rule_set_id f; cf_rule_id := sf_rule_id f; cf_last_finding_id := sf_finding_id f;
     cf_rule_version := sf_rule_version f; cf_severity := sf_severity f; cf_first_observed_at := sf_observed_at f;
     cf_last_observed_at := sf_observed_at f; cf_last_observed_day := date_naive (sf_observed_at f); cf_scan_id := sf_scan_id f;
     cf_confidence := sf_confidence f; cf_message := sf_message f; cf_evidence := sf_evidence f; cf_received_at := now;
     cf_origin := origin; cf_detection := sf_detection f; cf_source := Scan; cf_ended_at := None; cf_end_approximate := false;
     cf_end_recorded_at := None |}.

(** [DO UPDATE]: a later observation takes the row over, any one widens its span. *)
Definition observed (f : StoredFinding) (origin : Origin) (now : Z) (r : CurrentRow) : CurrentRow :=
  let newer := cf_last_observed_at r <? sf_observed_at f in
  {| cf_agent := cf_agent r; cf_rule_set_id := cf_rule_set_id r; cf_rule_id := cf_rule_id r;
     cf_last_finding_id := if newer then sf_finding_id f else cf_last_finding_id r;
     cf_rule_version := if newer then sf_rule_version f else cf_rule_version r;
     cf_severity := if newer then sf_severity f else cf_severity r;
     cf_first_observed_at := Z.min (cf_first_observed_at r) (sf_observed_at f);
     cf_last_observed_at := Z.max (cf_last_observed_at r) (sf_observed_at f);
     cf_last_observed_day := if newer then date_naive (sf_observed_at f) else cf_last_observed_day r;
     cf_scan_id := if newer then sf_scan_id f else cf_scan_id r;
     cf_confidence := if newer then sf_confidence f else cf_confidence r;
     cf_message := if newer then sf_message f else cf_message r;
     cf_evidence := if newer then sf_evidence f else cf_evidence r;
     cf_received_at := if newer then now else cf_received_at r;
     cf_origin := if newer then origin else cf_origin r;
     cf_detection := if newer then sf_detection f else cf_detection r;
     cf_source := cf_source r; cf_ended_at := cf_ended_at r; cf_end_approximate := cf_end_approximate r;
     cf_end_recorded_at := cf_end_recorded_at r |}.

(** [INSERT INTO current_findings ... ON CONFLICT DO UPDATE]; the agent is a foreign key. *)
Definition upsert_current (agent : string) (f : StoredFinding) (origin : Origin) (now : Z) (t : FindTables) : option FindTables :=
  if is_some (current_of agent (row_key f) t) then Some (update_current (at_current agent (row_key f)) (observed f origin now) t)
  else if is_some (agent_of agent (hosts t)) then Some (set_current (fun l => l ++ [fresh_row agent f origin now]) t)
  else None.

(** ** Automatic reopening *)

Definition due (row : TriageRow) (current_rule_version observed_at : Z) : option string :=
  if String.eqb (tg_state row) "mitigated" && match tg_mitigated_at row with Some m => m <? observed_at | None => false end
  then Some "new_observation"
  else if String.eqb (tg_state row) "accepted_risk" && match tg_accepted_until row with Some e => e <? observed_at | None => false end
  then Some "accepted_risk_expired"
  else if String.eqb (tg_state row) "false_positive" && (tg_rule_version row <? current_rule_version)
  then Some "rule_version_changed"
  else None.

Definition reopened (rule_version now : Z) (row : TriageRow) : TriageRow :=
  {| tg_agent := tg_agent row; tg_rule_set_id := tg_rule_set_id row; tg_rule_id := tg_rule_id row; tg_state := "open";
     tg_rule_version := rule_version; tg_assigned_to := None; tg_note := None; tg_accepted_until := None;
     tg_version := tg_version row + 1; tg_updated_at := now; tg_updated_by := "system"; tg_mitigated_at := None |}.

Definition reopen_if_due (agent : string) (k : Key) (current_rule_version observed_at now : Z) (t : FindTables) : option FindTables :=
  match triage_of agent k t with
  | None => Some t
  | Some row =>
      match due row current_rule_version observed_at with
      | None => Some t
      | Some _ =>
          if current_rule_version <? 0 then None
          else Some
            (log_finding {| fl_actor := "system"; fl_action := "finding.triage.reopened"; fl_agent := agent; fl_key := k |}
               (add_triage_history
                  [{| hf_agent := agent; hf_key := k; hf_from := Some (tg_state row); hf_to := "open"; hf_note := None; hf_at := now;
                      hf_by := "system"; hf_assigned_to := None; hf_accepted_until := None;
                      hf_rule_version := Some current_rule_version |}]
                  (set_triage (map (fun r => if at_triage agent k r then reopened current_rule_version now r else r)) t)))
      end
  end.

Definition reopen_on_observation (agent : string) (k : Key) (finding_id : string) (observed_at now : Z) (t : FindTables)
    : option FindTables :=
  match current_of agent k t with
  | None => Some t
  | Some r => if negb (String.eqb (cf_last_finding_id r) finding_id) then Some t
              else reopen_if_due agent k (cf_rule_version r) observed_at now t
  end.

Definition store_finding (agent : string) (f : StoredFinding) (origin : Origin) (now : Z) (t : FindTables)
    : option (Z * FindTables) :=
  r ← insert_finding agent f origin now t;
  t ← upsert_current agent f origin now r.2;
  if r.1 : bool then t ← reopen_on_observation agent (row_key f) (sf_finding_id f) (sf_observed_at f) now t; Some (1, t)
  else Some (0, t).

Fixpoint store_findings_in (agent : string) (l : list StoredFinding) (origin : Origin) (now : Z) (t : FindTables)
    : option (Z * FindTables) :=
  match l with
  | [] => Some (0, t)
  | f :: l =>
      r ← store_finding agent f origin now t;
      r' ← store_findings_in agent l origin now r.2;
      Some (r.1 + r'.1, r'.2)
  end.

(** [store_findings], a transaction of its own. *)
Definition store_findings : string -> list StoredFinding -> Origin -> Z -> FindTables -> option (Z * FindTables) := store_findings_in.

(** ** Change sets (finding_changes.rs) *)

Inductive Outcome := Stored | Resync.

Section changes.
Context (from_timestamp_millis : Z -> option Z) (identifier : string -> bool).
(** [digest_from_hex] and [match_digest] of the protocol's crate. *)
Context (digest_from_hex : string -> option (list Z)) (match_digest : list Finding -> list Z).

Definition Open : Type := list (Key * Finding).
Definition bt_remove (k : Key) : Open -> Open := List.filter (fun e => match key_cmp k e.1 with Eq => false | _ => true end).

Definition open_row (agent : string) (r : CurrentRow) : bool :=
  String.eqb (cf_agent r) agent && bool_decide (cf_source r = Changes) && negb (is_some (cf_ended_at r)).

Fixpoint insert_open (l : list CurrentRow) (open : Open) : option Open :=
  match l with
  | [] => Some open
  | r :: l =>
      f ← digest_finding identifier (cf_rule_set_id r) (cf_rule_id r) (cf_rule_version r) (cf_severity r) (cf_message r) (cf_evidence r);
      insert_open l (bt_insert key_cmp (cf_key r) f open)
  end.
Definition open_matches (agent : string) (t : FindTables) : option Open := insert_open (List.filter (open_row agent) (current t)) [].

Definition inserted (l : list Finding) (open : Open) : Open :=
  fold_left (fun m f => bt_insert key_cmp (wire_key f) f m) l open.

Definition Ends : Type := list (Key * Z * bool).

(** [None] is a resync. *)
Fixpoint start_all (l : list Finding) (open : Open) : option Open :=
  match l with
  | [] => Some open
  | f :: l => if bt_contains key_cmp (wire_key f) open then None else start_all l (bt_insert key_cmp (wire_key f) f open)
  end.
Fixpoint change_all (l : list Finding) (open : Open) : option Open :=
  match l with
  | [] => Some open
  | f :: l => if negb (bt_contains key_cmp (wire_key f) open) then None else change_all l (bt_insert key_cmp (wire_key f) f open)
  end.
Definition em_key (e : EndedMatch) : Key := (em_rule_set_id e, em_rule_id e).
Fixpoint end_all (l : list EndedMatch) (open : Open) (ends : Ends) : option (option (Open * Ends)) :=
  match l with
  | [] => Some (Some (open, ends))
  | e :: l =>
      if negb (bt_contains key_cmp (em_key e) open) then Some None
      else at_ ← from_timestamp_millis (em_ended_at_unix_ms e);
           end_all l (bt_remove (em_key e) open) (ends ++ [(em_key e, at_, false)])
  end.

(** The open matches after the change set, and what ends. *)
Definition advance (c : FindingChanges) (scanned_at : Z) (open : Open) : option (option (Open * Ends)) :=
  if fc_replace c then
    let next := inserted (fc_started c) [] in
    Some (Some (next, map (fun k => (k, scanned_at, true))
                        (List.filter (fun k => negb (bt_contains key_cmp k next)) (map fst open))))
  else match start_all (fc_started c) open with
  | None => Some None
  | Some open => match change_all (fc_changed c) open with
                 | None => Some None
                 | Some open => end_all (fc_ended c) open []
                 end
  end.

Definition marked (row : StoredFinding) (ended_at : option Z) (now : Z) (r : CurrentRow) : CurrentRow :=
  let seen := default now ended_at in
  {| cf_agent := cf_agent r; cf_rule_set_id := cf_rule_set_id r; cf_rule_id := cf_rule_id r;
     cf_last_finding_id := sf_finding_id row; cf_rule_version := sf_rule_version row; cf_severity := sf_severity row;
     cf_first_observed_at := cf_first_observed_at r; cf_last_observed_at := seen; cf_last_observed_day := date_naive seen;
     cf_scan_id := sf_scan_id row; cf_confidence := sf_confidence row; cf_message := sf_message row;
     cf_evidence := sf_evidence row; cf_received_at := cf_received_at r; cf_origin := cf_origin r;
     cf_detection := sf_detection row; cf_source := Changes; cf_ended_at := ended_at; cf_end_approximate := false;
     cf_end_recorded_at := match ended_at with None => None | Some _ => Some now end |}.
Definition mark (agent : string) (row : StoredFinding) (ended_at : option Z) (now : Z) : FindTables -> FindTables :=
  update_current (at_current agent (row_key row)) (marked row ended_at now).

Definition ended_row (at_ : Z) (approximate : bool) (now : Z) (r : CurrentRow) : CurrentRow :=
  {| cf_agent := cf_agent r; cf_rule_set_id := cf_rule_set_id r; cf_rule_id := cf_rule_id r;
     cf_last_finding_id := cf_last_finding_id r; cf_rule_version := cf_rule_version r; cf_severity := cf_severity r;
     cf_first_observed_at := cf_first_observed_at r; cf_last_observed_at := cf_last_observed_at r;
     cf_last_observed_day := cf_last_observed_day r; cf_scan_id := cf_scan_id r; cf_confidence := cf_confidence r;
     cf_message := cf_message r; cf_evidence := cf_evidence r; cf_received_at := cf_received_at r; cf_origin := cf_origin r;
     cf_detection := cf_detection r; cf_source := cf_source r; cf_ended_at := Some at_; cf_end_approximate := approximate;
     cf_end_recorded_at := Some now |}.
Definition end_match (agent : string) (now : Z) (t : FindTables) (e : Key * Z * bool) : FindTables :=
  update_current (at_current agent e.1.1) (ended_row e.1.2 e.2 now) t.

Definition mark_open (agent : string) (now : Z) (t : FindTables) (row : StoredFinding) : FindTables := mark agent row None now t.
Definition mark_transient (agent : string) (open : Open) (now : Z) (t : FindTables) (e : StoredFinding * Z) : FindTables :=
  if bt_contains key_cmp (row_key e.1) open then t else mark agent e.1 (Some e.2) now t.

(** The writes of [apply], once the digests agree. *)
Definition written (agent : string) (rows : Rows) (open : Open) (ends : Ends) (expected : list Z) (now : Z) (t : FindTables)
    : option FindTables :=
  s1 ← store_findings_in agent (rw_started rows) Online now t;
  s2 ← store_findings_in agent (rw_changed rows) Online now s1.2;
  s3 ← store_findings_in agent (map fst (rw_transient rows)) Online now s2.2;
  let t := fold_left (mark_open agent now) (rw_started rows ++ rw_changed rows) s3.2 in
  let t := fold_left (mark_transient agent open now) (rw_transient rows) t in
  let t := fold_left (end_match agent now) ends t in
  Some (set_match_sha256 agent expected t).

Definition stored_digest (agent : string) (t : FindTables) : list Z := default (match_digest []) (agent_digest agent t).

Definition apply (agent : string) (c : FindingChanges) (rows : Rows) (now : Z) (t : FindTables) : option (Outcome * FindTables) :=
  match digest_from_hex (fc_base_sha256 c), digest_from_hex (fc_sha256 c) with
  | Some base, Some expected =>
      scanned_at ← from_timestamp_millis (fc_scanned_at_unix_ms c);
      if negb (is_some (agent_of agent (hosts t))) then None
      else if negb (fc_replace c) && negb (bool_decide (stored_digest agent t = base)) then Some (Resync, t)
      else
        open ← open_matches agent t;
        next ← advance c scanned_at open;
        match next with
        | None => Some (Resync, t)
        | Some (open, ends) =>
            if negb (bool_decide (match_digest (map snd open) = expected)) then Some (Resync, t)
            else t ← written agent rows open ends expected now t; Some (Stored, t)
        end
  | _, _ => Some (Resync, t)
  end.

(** The handler of /v1/findings/changes, from the document on. *)
Definition finding_changes (validate : FindingChanges -> bool) (agent : string) (c : FindingChanges) (now oldest latest : Z)
    (t : FindTables) : (ApiError + unit) * FindTables :=
  if negb (String.eqb (fc_agent_id c) agent) || negb (validate c) then (inl BadRequest, t)
  else match rows_of from_timestamp_millis now oldest latest (partitions t) c with
  | inl e => (inl e, t)
  | inr rows =>
      match apply agent c rows now t with
      | None => (inl Unavailable, t)
      | Some (Stored, t) => (inr tt, t)
      | Some (Resync, t) => (inl FindingsResync, t)
      end
  end.

(** ** Heartbeats *)

Definition HOUR_OF_US : Z := 3600 * 1000000.
Definition seen_now (now : Z) (r : CurrentRow) : CurrentRow :=
  {| cf_agent := cf_agent r; cf_rule_set_id := cf_rule_set_id r; cf_rule_id := cf_rule_id r;
     cf_last_finding_id := cf_last_finding_id r; cf_rule_version := cf_rule_version r; cf_severity := cf_severity r;
     cf_first_observed_at := cf_first_observed_at r; cf_last_observed_at := now; cf_last_observed_day := date_naive now;
     cf_scan_id := cf_scan_id r; cf_confidence := cf_confidence r; cf_message := cf_message r; cf_evidence := cf_evidence r;
     cf_received_at := cf_received_at r; cf_origin := cf_origin r; cf_detection := cf_detection r; cf_source := cf_source r;
     cf_ended_at := cf_ended_at r; cf_end_approximate := cf_end_approximate r; cf_end_recorded_at := cf_end_recorded_at r |}.

(** The open matches with a triage a scan may reopen. *)
Definition confirmable (agent : string) (t : FindTables) (r : CurrentRow) : bool :=
  open_row agent r
  && match triage_of agent (cf_key r) t with
     | Some row => existsb (String.eqb (tg_state row)) ["mitigated"; "accepted_risk"] | None => false end.

Fixpoint reopen_all (agent : string) (l : list CurrentRow) (confirmed_at now : Z) (t : FindTables) : option FindTables :=
  match l with
  | [] => Some t
  | r :: l => t ← reopen_if_due agent (cf_key r) (cf_rule_version r) confirmed_at now t; reopen_all agent l confirmed_at now t
  end.

(** [finding_changes::heartbeat]: whether the agent must send everything. *)
Definition match_heartbeat (agent : string) (digest : list Z) (last_scan_at : option Z) (now : Z) (t : FindTables)
    : option (bool * FindTables) :=
  if negb (is_some (agent_of agent (hosts t))) then None
  else if negb (bool_decide (stored_digest agent t = digest)) then Some (true, t)
  else
    let t := update_current (fun r => open_row agent r && (cf_last_observed_at r <? now - HOUR_OF_US)) (seen_now now) t in
    match last_scan_at with
    | None => Some (false, t)
    | Some at_ => t ← reopen_all agent (List.filter (confirmable agent t) (current t)) (Z.min at_ now) now t; Some (false, t)
    end.
End changes.

(** ** Rule sets switched off for a host *)

Definition NOT_ASSIGNED_NOTE : string := "rule set no longer assigned to this host".

Section unassigned.
Context (json_text : value -> string).

Definition reported_unassigned (set_ : string) (r : value) : bool :=
  bool_decide (text_field json_text r "id" = Some set_) && bool_decide (text_field json_text r "state" = Some "not_assigned").

(** [None]: the stored report has something else than an array there. *)
Definition stored_sets (health : option value) : option (list value) :=
  match rule_sets health with None => Some [] | Some (JArray l) => Some l | Some _ => None end.

Definition switched_off (sets : list string) (a : AgentRow) (t : FindTables) : option (list string) :=
  let named := List.filter (fun s => existsb (String.eqb s) (assignable t)) sets in
  if bool_decide (named = []) then Some []
  else stored ← stored_sets (ag_health a);
       Some (List.filter (fun s => negb (existsb (reported_unassigned s) stored)) named).

Definition of_sets (agent : string) (sets : list string) (r : CurrentRow) : bool :=
  String.eqb (cf_agent r) agent && existsb (String.eqb (cf_rule_set_id r)) sets.

Definition noted (agent : string) (k : Key) (since : Z) (t : FindTables) : bool :=
  existsb (fun h => String.eqb (hf_agent h) agent && bool_decide (hf_key h = k) && bool_decide (hf_note h = Some NOT_ASSIGNED_NOTE)
                    && (since <=? hf_at h)) (triage_history t).

Definition to_note (agent : string) (sets : list string) (since : Z) (t : FindTables) (r : CurrentRow) : bool :=
  of_sets agent sets r
  && match cf_end_recorded_at r with None => false | Some e => (since <=? e) && negb (noted agent (cf_key r) e t) end.

Definition off_note (agent : string) (now : Z) (t : FindTables) (r : CurrentRow) : TriageHistory :=
  let state := match triage_of agent (cf_key r) t with Some row => tg_state row | None => "open" end in
  {| hf_agent := agent; hf_key := cf_key r; hf_from := Some state; hf_to := state; hf_note := Some NOT_ASSIGNED_NOTE; hf_at := now;
     hf_by := "system"; hf_assigned_to := None; hf_accepted_until := None; hf_rule_version := Some (cf_rule_version r) |}.

Definition end_unassigned (agent : string) (sets : list string) (now : Z) (t : FindTables) : option (Z * FindTables) :=
  match agent_of agent (hosts t) with
  | None => Some (0, t)
  | Some a =>
      let since := default now (ag_health_at a) in
      switched ← switched_off sets a t;
      if bool_decide (switched = []) then Some (0, t)
      else
        let t := update_current (fun r => of_sets agent switched r && negb (is_some (cf_ended_at r))) (ended_row now true now) t in
        let rows := List.filter (to_note agent switched since t) (current t) in
        Some (Z.of_nat (length rows), add_triage_history (map (off_note agent now t) rows) t)
  end.
End unassigned.

(** ** Triage by a person (console_triage.rs) *)

Record TriageRecord := {
  rc_state : string;
  rc_rule_version : Z;
  rc_assigned_to_id : option string;
  rc_assigned_to_username : option string;
  rc_note : option string;
  rc_accepted_until : option Z;
  rc_version : Z;
  rc_updated_at : option Z;
  rc_updated_by : option string;
  rc_mitigated_at : option Z;
}.

Inductive TriageUpdate :=
  | Updated (r : TriageRecord) | TriageNotFound | Stale (r : TriageRecord) | InvalidTransition (r : TriageRecord)
  | AssigneeUnavailable | InvalidFields.

(** What a person asks of a finding's triage. *)
Record TriageChange := {
  tc_state : string;
  tc_assigned_to_username : option string;
  tc_note : option string;
  tc_accepted_until : option Z;
}.

Definition username_of (id : string) (db : Db) : option string := u_username <$> find (fun u => String.eqb (u_id u) id) (users db).

Definition record_from_triage_row (r : TriageRow) (db : Db) : TriageRecord :=
  {| rc_state := tg_state r; rc_rule_version := tg_rule_version r; rc_assigned_to_id := tg_assigned_to r;
     rc_assigned_to_username := (id ← tg_assigned_to r; username_of id db); rc_note := tg_note r;
     rc_accepted_until := tg_accepted_until r; rc_version := tg_version r; rc_updated_at := Some (tg_updated_at r);
     rc_updated_by := Some (tg_updated_by r); rc_mitigated_at := tg_mitigated_at r |}.
Definition default_record (rule_version : Z) : TriageRecord :=
  {| rc_state := "open"; rc_rule_version := rule_version; rc_assigned_to_id := None; rc_assigned_to_username := None;
     rc_note := None; rc_accepted_until := None; rc_version := 0; rc_updated_at := None; rc_updated_by := None;
     rc_mitigated_at := None |}.
Definition previous_record (agent : string) (k : Key) (rule_version : Z) (t : FindTables) : TriageRecord :=
  match triage_of agent k t with Some r => record_from_triage_row r (people t) | None => default_record rule_version end.

Definition closing (state : string) : bool := existsb (String.eqb state) ["mitigated"; "accepted_risk"; "false_positive"].

Definition changes_record (c : TriageChange) (assigned : option string) (p : TriageRecord) : bool :=
  negb (String.eqb (rc_state p) (tc_state c)) || negb (bool_decide (rc_assigned_to_id p = assigned))
  || negb (bool_decide (rc_note p = tc_note c)) || negb (bool_decide (rc_accepted_until p = tc_accepted_until c)).

Definition mitigated_since (c : TriageChange) (now : Z) (p : TriageRecord) : option Z :=
  if String.eqb (tc_state c) "mitigated"
  then if String.eqb (rc_state p) "mitigated" then rc_mitigated_at p else Some now
  else None.

Definition saved_row (agent : string) (k : Key) (rule_version : Z) (c : TriageChange) (assigned : option string) (actor : string) (now : Z)
    (p : TriageRecord) : TriageRow :=
  {| tg_agent := agent; tg_rule_set_id := k.1; tg_rule_id := k.2; tg_state := tc_state c; tg_rule_version := rule_version;
     tg_assigned_to := assigned; tg_note := tc_note c; tg_accepted_until := tc_accepted_until c; tg_version := rc_version p + 1;
     tg_updated_at := now; tg_updated_by := actor; tg_mitigated_at := mitigated_since c now p |}.

(** [INSERT INTO console_finding_triage ... ON CONFLICT DO UPDATE]. *)
Definition save_triage (r : TriageRow) : FindTables -> FindTables :=
  set_triage (fun l => if existsb (at_triage (tg_agent r) (tg_key r)) l
                       then map (fun x => if at_triage (tg_agent r) (tg_key r) x then r else x) l
                       else l ++ [r]).

(** The writes of one change: its row, its history, its audit line. *)
Definition save (agent : string) (k : Key) (rule_version : Z) (c : TriageChange) (assigned : option string) (actor : string) (now : Z)
    (p : TriageRecord) (t : FindTables) : FindTables :=
  log_finding {| fl_actor := actor; fl_action := "finding.triage.changed"; fl_agent := agent; fl_key := k |}
    (add_triage_history [{| hf_agent := agent; hf_key := k; hf_from := Some (rc_state p); hf_to := tc_state c; hf_note := tc_note c;
                            hf_at := now; hf_by := actor; hf_assigned_to := assigned; hf_accepted_until := tc_accepted_until c;
                            hf_rule_version := Some rule_version |}]
       (save_triage (saved_row agent k rule_version c assigned actor now p) t)).

Definition saved_record (rule_version : Z) (c : TriageChange) (assigned : option (string * string)) (actor : string) (now : Z)
    (p : TriageRecord) : TriageRecord :=
  {| rc_state := tc_state c; rc_rule_version := rule_version; rc_assigned_to_id := fst <$> assigned;
     rc_assigned_to_username := snd <$> assigned; rc_note := tc_note c; rc_accepted_until := tc_accepted_until c;
     rc_version := rc_version p + 1; rc_updated_at := Some now; rc_updated_by := Some actor;
     rc_mitigated_at := mitigated_since c now p |}.

Definition wanted_assignee (c : TriageChange) (t : FindTables) : option (option (string * string)) :=
  match tc_assigned_to_username c with
  | None => Some None
  | Some username => Some <$> assignee username "compliance.triage" (people t)
  end.

(** [update]; a rule version below zero is refused by the table. *)
Definition update (agent : string) (k : Key) (expected_version : Z) (c : TriageChange) (actor : string) (now : Z) (t : FindTables)
    : option (TriageUpdate * FindTables) :=
  if negb (fields_valid (tc_state c) (tc_note c) (tc_accepted_until c) now) then Some (InvalidFields, t)
  else match current_of agent k t with
  | None => Some (TriageNotFound, t)
  | Some r =>
      let p := previous_record agent k (cf_rule_version r) t in
      if negb (rc_version p =? expected_version) then Some (Stale p, t)
      else if negb (transition_allowed (rc_state p) (tc_state c)) then Some (InvalidTransition p, t)
      else if closing (tc_state c) && negb (is_some (tc_note c)) then Some (InvalidFields, t)
      else match wanted_assignee c t with
      | None => Some (AssigneeUnavailable, t)
      | Some assigned =>
          if negb (changes_record c (fst <$> assigned) p) then Some (Updated p, t)
          else if cf_rule_version r <? 0 then None
          else Some (Updated (saved_record (cf_rule_version r) c assigned actor now p),
                     save agent k (cf_rule_version r) c (fst <$> assigned) actor now p t)
      end
  end.

Inductive BulkTriageUpdate :=
  | BulkUpdated (l : list TriageRecord) | BulkNotFound | BulkStale (l : list (string * Z)) | BulkInvalidTransition
  | BulkInvalidFields | BulkAssigneeUnavailable.

(** The checks of [update_many] before the transaction. *)
Definition bulk_fields_valid (changes : list (string * Z)) (c : TriageChange) (now : Z) : bool :=
  negb (bool_decide (changes = [])) && (Z.of_nat (length changes) <=? 100)
  && forallb (fun e => 0 <=? e.2) changes && bool_decide (NoDup (map fst changes)) && known_state (tc_state c)
  && match tc_note c with None => true | Some v => negb (is_blank v) && (char_count v <=? 4000) end
  && Bool.eqb (String.eqb (tc_state c) "accepted_risk") (is_some (tc_accepted_until c))
  && match tc_accepted_until c with None => true | Some u => now <? u end
  && negb (closing (tc_state c) && negb (is_some (tc_note c))).

(** The current rows of the rule on the hosts named, within reach. *)
Definition latest_rows (k : Key) (ids : list string) (scope : AgentScope) (t : FindTables) : list (string * Z) :=
  map (fun r => (cf_agent r, cf_rule_version r))
    (List.filter (fun r => bool_decide (cf_key r = k) && existsb (String.eqb (cf_agent r)) ids
                           && match agent_of (cf_agent r) (hosts t) with Some a => visible scope a (hosts t) | None => false end)
       (current t)).

(** What there is to change, or the answer that ends it; the stale ones are collected. *)
Fixpoint gather (k : Key) (latest : list (string * Z)) (c : TriageChange) (t : FindTables) (changes : list (string * Z))
    : BulkTriageUpdate + (list (string * Z * TriageRecord) * list (string * Z)) :=
  match changes with
  | [] => inr ([], [])
  | (agent, expected) :: changes =>
      match find (fun e => String.eqb e.1 agent) latest with
      | None => inl BulkNotFound
      | Some (_, rule_version) =>
          let p := previous_record agent k rule_version t in
          if negb (transition_allowed (rc_state p) (tc_state c)) then inl BulkInvalidTransition
          else match gather k latest c t changes with
               | inl e => inl e
               | inr (previous, stale) =>
                   inr ((agent, rule_version, p) :: previous, if rc_version p =? expected then stale else (agent, rc_version p) :: stale)
               end
      end
  end.

Fixpoint save_all (k : Key) (c : TriageChange) (assigned : option (string * string)) (actor : string) (now : Z)
    (l : list (string * Z * TriageRecord)) (t : FindTables) : option (list TriageRecord * FindTables) :=
  match l with
  | [] => Some ([], t)
  | (agent, rule_version, p) :: l =>
      if negb (changes_record c (fst <$> assigned) p)
      then r ← save_all k c assigned actor now l t; Some (p :: r.1, r.2)
      else if rule_version <? 0 then None
      else r ← save_all k c assigned actor now l (save agent k rule_version c (fst <$> assigned) actor now p t);
           Some (saved_record rule_version c assigned actor now p :: r.1, r.2)
  end.

(** [update_many_with_request_id]; the request id is only in the audit lines. *)
Definition update_many (k : Key) (changes : list (string * Z)) (scope : AgentScope) (c : TriageChange) (actor : string) (now : Z)
    (t : FindTables) : option (BulkTriageUpdate * FindTables) :=
  if negb (bulk_fields_valid changes c now) then Some (BulkInvalidFields, t)
  else
    let latest := latest_rows k (map fst changes) scope t in
    if negb (Nat.eqb (length latest) (length changes)) then Some (BulkNotFound, t)
    else match gather k latest c t changes with
    | inl e => Some (e, t)
    | inr (previous, stale) =>
        if negb (bool_decide (stale = [])) then Some (BulkStale stale, t)
        else match wanted_assignee c t with
        | None => Some (BulkAssigneeUnavailable, t)
        | Some assigned => r ← save_all k c assigned actor now previous t; Some (BulkUpdated r.1, r.2)
        end
    end.
