(* ===== verification/FindWorld.v ===== *)
(** * Findings: what every transaction keeps, what a change set does, and the reachable tables

    A current row is found by its agent and key; each statement is described by what it does to that
    lookup. *)
From S2P Require Import Prelude RustStd Text BTree Json AccessDb AgentServer AgentDb AgentInv AlarmData FindData FindDb.
From stdpp Require Import prelude strings list.
From Stdlib Require Import Ascii ZArith Lia.

Open Scope Z_scope.

Lemma find_map_same {A} (p : A -> bool) (g : A -> A) l : (forall x, p (g x) = p x) -> find p (map g l) = g <$> find p l.
Proof. intros Hp. induction l as [|x l IH]; simpl; [done|]. rewrite Hp. by destruct (p x). Qed.
Lemma find_app {A} (p : A -> bool) l l' : find p (l ++ l') = match find p l with Some x => Some x | None => find p l' end.
Proof. induction l as [|x l IH]; simpl; [done|]. by destruct (p x). Qed.

(** ** Current rows by agent and key *)

Definition row_id (r : CurrentRow) : string * Key := (cf_agent r, cf_key r).
Definition unique (t : FindTables) : Prop := NoDup (map row_id (current t)).

Lemma at_current_spec a k r : at_current a k r = true <-> row_id r = (a, k).
Proof.
  unfold at_current, row_id. rewrite andb_true_iff, String.eqb_eq, bool_decide_eq_true. split; [by intros [-> ->]|by intros [= -> ->]].
Qed.

Lemma current_of_spec a k t r : current_of a k t = Some r -> In r (current t) /\ row_id r = (a, k).
Proof. intros [Hin Hk]%find_some. split; [done|]. by apply at_current_spec. Qed.

Lemma current_of_in t r : unique t -> In r (current t) -> current_of (cf_agent r) (cf_key r) t = Some r.
Proof.
  intros Hu Hin. apply (find_unique row_id); try done; [|by apply at_current_spec]. intros y _ Hy. by apply at_current_spec in Hy.
Qed.

Lemma current_of_none a k t r : current_of a k t = None -> In r (current t) -> row_id r <> (a, k).
Proof. intros Hn Hin E. apply at_current_spec in E. pose proof (find_none _ _ Hn r Hin). congruence. Qed.

Lemma current_of_update a k p f t : (forall r, row_id (f r) = row_id r) ->
  current_of a k (update_current p f t) = (fun r => if p r then f r else r) <$> current_of a k t.
Proof.
  intros Hf. unfold current_of, update_current. simpl. apply (find_map_same (at_current a k) (fun r => if p r then f r else r)).
  intros r. destruct (p r); [|done]. apply Bool.eq_iff_eq_true. by rewrite !at_current_spec, Hf.
Qed.

Lemma unique_update p f t : (forall r, row_id (f r) = row_id r) -> unique t -> unique (update_current p f t).
Proof.
  intros Hf. unfold unique. simpl. rewrite map_map. intros Hu.
  rewrite (map_ext (fun r => row_id (if p r then f r else r)) row_id); [done|]. intros r. by destruct (p r).
Qed.

Lemma current_of_add a k r t : current_of a k (set_current (fun l => l ++ [r]) t)
  = match current_of a k t with Some x => Some x | None => if at_current a k r then Some r else None end.
Proof. unfold current_of. simpl. rewrite find_app. simpl. by destruct (find _ _), (at_current a k r). Qed.

Lemma unique_add r t : current_of (cf_agent r) (cf_key r) t = None -> unique t -> unique (set_current (fun l => l ++ [r]) t).
Proof.
  intros Hn Hu. unfold unique. simpl. rewrite map_app. apply NoDup_snoc; [done|].
  intros (x & Ex & Hx)%list_elem_of_In%in_map_iff. by apply (current_of_none _ _ _ _ Hn Hx).
Qed.

(** ** What storing observations does to the current rows *)

(** The parts only change sets write. *)
Definition same_match_state (r r' : CurrentRow) : Prop :=
  cf_source r' = cf_source r /\ cf_ended_at r' = cf_ended_at r /\ cf_end_recorded_at r' = cf_end_recorded_at r.

Record stored_rows (agent : string) (keys : list Key) (t t' : FindTables) : Prop := {
  so_unique : unique t -> unique t';
  so_same : forall a k, ~ (a = agent /\ In k keys) -> current_of a k t' = current_of a k t;
  so_kept : forall a k r, current_of a k t = Some r -> exists r', current_of a k t' = Some r' /\ same_match_state r r';
  so_made : forall k, In k keys -> exists r, current_of agent k t' = Some r;
  so_new : forall k r', current_of agent k t = None -> current_of agent k t' = Some r' -> cf_source r' = Scan;
  so_else : people t' = people t /\ hosts t' = hosts t /\ match_sha256 t' = match_sha256 t /\ partitions t' = partitions t
            /\ assignable t' = assignable t;
}.

Lemma stored_rows_refl agent t : stored_rows agent [] t t.
Proof. split; try done; [|congruence]. intros a k r Hr. by exists r. Qed.

Lemma stored_rows_trans agent k1 k2 t1 t2 t3 : stored_rows agent k1 t1 t2 -> stored_rows agent k2 t2 t3 ->
  stored_rows agent (k1 ++ k2) t1 t3.
Proof.
  intros [A1 A2 A3 A4 A5 A6] [B1 B2 B3 B4 B5 B6]. split.
  - auto.
  - intros a k Hn. rewrite B2, A2; [done|..]; intros [-> Hk]; apply Hn; (split; [done|]); apply in_app_iff; auto.
  - intros a k r Hr. destruct (A3 a k r Hr) as (r2 & H2 & (E1 & E2 & E3)). destruct (B3 a k r2 H2) as (r3 & H3 & (F1 & F2 & F3)).
    exists r3. split; [done|]. split_and!; congruence.
  - intros k [Hk|Hk]%in_app_iff; [|by apply B4]. destruct (A4 k Hk) as (r & Hr). destruct (B3 agent k r Hr) as (r' & Hr' & _). by exists r'.
  - intros k r' Hn Hr'. destruct (current_of agent k t2) as [r2|] eqn:E2; [|by apply (B5 k)].
    destruct (B3 _ _ _ E2) as (r3 & H3 & (E & _)). assert (r' = r3) as -> by congruence. rewrite E. by apply (A5 k).
  - destruct A6 as (? & ? & ? & ? & ?), B6 as (? & ? & ? & ? & ?). split_and!; congruence.
Qed.

Lemma stored_rows_quiet agent t t' : current t' = current t ->
  (people t' = people t /\ hosts t' = hosts t /\ match_sha256 t' = match_sha256 t /\ partitions t' = partitions t
   /\ assignable t' = assignable t) -> stored_rows agent [] t t'.
Proof.
  intros Ec He. assert (forall a k, current_of a k t' = current_of a k t) as Hk by (intros; unfold current_of; by rewrite Ec).
  split; try done.
  - unfold unique. by rewrite Ec.
  - intros a k r Hr. exists r. by rewrite Hk.
  - intros k r' Hn. rewrite Hk. congruence.
Qed.

Lemma insert_finding_rows agent f origin now t b t' : insert_finding agent f origin now t = Some (b, t') -> stored_rows agent [] t t'.
Proof. unfold insert_finding. destruct (_ || _); [done|]. destruct (existsb _ _); intros [= <- <-]; by apply stored_rows_quiet. Qed.

Lemma row_id_observed f origin now r : row_id (observed f origin now r) = row_id r.
Proof. done. Qed.

Lemma upsert_rows agent f origin now t t' : upsert_current agent f origin now t = Some t' -> stored_rows agent [row_key f] t t'.
Proof.
  unfold upsert_current. destruct (current_of agent (row_key f) t) as [r0|] eqn:E; simpl.
  - intros [= <-]. assert (forall a k, current_of a k (update_current (at_current agent (row_key f)) (observed f origin now) t)
      = (fun r => if at_current agent (row_key f) r then observed f origin now r else r) <$> current_of a k t) as Hk
      by (intros; by apply current_of_update).
    split; try done.
    + by apply unique_update.
    + intros a k Hn. rewrite Hk. destruct (current_of a k t) as [r|] eqn:Er; [|done]. simpl.
      destruct (at_current agent (row_key f) r) eqn:Ea; [|done]. exfalso. apply Hn. apply at_current_spec in Ea.
      apply current_of_spec in Er as [_ Er]. rewrite Er in Ea. injection Ea as -> ->. split; [done|by left].
    + intros a k r Hr. rewrite Hk, Hr. simpl. eexists. split; [done|]. by destruct (at_current _ _ r).
    + intros k [<-|[]]. rewrite Hk, E. by eexists.
    + intros k r' Hn. rewrite Hk, Hn. done.
  - destruct (is_some _); [|done]. intros [= <-].
    assert (forall a k, current_of a k (set_current (fun l => l ++ [fresh_row agent f origin now]) t)
      = match current_of a k t with Some x => Some x
        | None => if at_current a k (fresh_row agent f origin now) then Some (fresh_row agent f origin now) else None end) as Hk
      by (intros; apply current_of_add).
    split; try done.
    + by apply unique_add.
    + intros a k Hn. rewrite Hk. destruct (current_of a k t); [done|]. destruct (at_current a k _) eqn:Ea; [|done].
      apply at_current_spec in Ea. exfalso. apply Hn. injection Ea. intros. subst. split; [done|by left].
    + intros a k r Hr. rewrite Hk, Hr. by exists r.
    + intros k [<-|[]]. rewrite Hk, E. assert (at_current agent (row_key f) (fresh_row agent f origin now) = true) as ->
        by by apply at_current_spec. by eexists.
    + intros k r' Hn. rewrite Hk, Hn. destruct (at_current _ _ _); [|done]. by intros [= <-].
Qed.

(** ** The triage history accounts for the triage *)

(** The note of a rule set switched off: a line of history that changes nothing. *)
Definition off_line (h : TriageHistory) : bool := String.eqb (hf_by h) "system" && bool_decide (hf_note h = Some NOT_ASSIGNED_NOTE).

(** The history of a finding, played from no triage: open, version 0. *)
Fixpoint replay (l : list TriageHistory) (st : string * Z) : option (string * Z) :=
  match l with
  | [] => Some st
  | h :: l => if negb (bool_decide (hf_from h = Some st.1)) then None
              else if off_line h then if String.eqb (hf_to h) st.1 then replay l st else None
              else replay l (hf_to h, st.2 + 1)
  end.
Definition history_of (a : string) (k : Key) (l : list TriageHistory) : list TriageHistory :=
  List.filter (fun h => String.eqb (hf_agent h) a && bool_decide (hf_key h = k)) l.
Definition state_of (a : string) (k : Key) (t : FindTables) : string * Z :=
  match triage_of a k t with Some r => (tg_state r, tg_version r) | None => ("open", 0) end.
Definition recorded (t : FindTables) : Prop :=
  forall a k, replay (history_of a k (triage_history t)) ("open", 0) = Some (state_of a k t).

Lemma finding_replay_app l : forall l' st, replay (l ++ l') st = (replay l st ≫= replay l').
Proof.
  induction l as [|h l IH]; intros l' st; simpl; [done|]. destruct (negb _); [done|]. destruct (off_line h); [|apply IH].
  destruct (String.eqb _ _); [apply IH|done].
Qed.

Lemma recorded_quiet t t' : triage t' = triage t -> triage_history t' = triage_history t -> recorded t -> recorded t'.
Proof. intros E1 E2 H a k. unfold state_of, triage_of. rewrite E1, E2. apply H. Qed.

(** One finding's triage moves, with its line of history. *)
Lemma triage_recorded_moved t t' h : (forall a k, (a, k) <> (hf_agent h, hf_key h) -> triage_of a k t' = triage_of a k t) ->
  triage_history t' = triage_history t ++ [h] -> hf_from h = Some (state_of (hf_agent h) (hf_key h) t).1 -> off_line h = false ->
  state_of (hf_agent h) (hf_key h) t' = (hf_to h, (state_of (hf_agent h) (hf_key h) t).2 + 1) -> recorded t -> recorded t'.
Proof.
  intros Hne Eh Hf Ho Hs H a k. rewrite Eh. unfold history_of. rewrite List.filter_app. simpl.
  change (List.filter (fun h => String.eqb (hf_agent h) a && bool_decide (hf_key h = k)) (triage_history t))
    with (history_of a k (triage_history t)).
  rewrite finding_replay_app, H. simpl. destruct (_ && _) eqn:E.
  - apply andb_prop in E as [<-%String.eqb_eq <-%bool_decide_eq_true]. simpl. rewrite Hf, bool_decide_eq_true_2 by done. simpl.
    by rewrite Ho, Hs.
  - simpl. unfold state_of. rewrite Hne; [done|]. intros [= -> ->]. by rewrite String.eqb_refl, bool_decide_eq_true_2 in E by done.
Qed.

(** A line that changes nothing. *)
Lemma recorded_noted t t' h : triage t' = triage t -> triage_history t' = triage_history t ++ [h] ->
  hf_from h = Some (state_of (hf_agent h) (hf_key h) t).1 -> hf_to h = (state_of (hf_agent h) (hf_key h) t).1 -> off_line h = true ->
  recorded t -> recorded t'.
Proof.
  intros Et Eh Hf Hto Ho H a k. rewrite Eh. unfold history_of. rewrite List.filter_app. simpl.
  change (List.filter (fun h => String.eqb (hf_agent h) a && bool_decide (hf_key h = k)) (triage_history t))
    with (history_of a k (triage_history t)).
  assert (state_of a k t' = state_of a k t) as -> by (unfold state_of, triage_of; by rewrite Et).
  rewrite finding_replay_app, H. simpl. destruct (_ && _) eqn:E; [|done].
  apply andb_prop in E as [<-%String.eqb_eq <-%bool_decide_eq_true]. simpl. rewrite Hf, bool_decide_eq_true_2 by done. simpl.
  by rewrite Ho, Hto, String.eqb_refl.
Qed.

Lemma at_triage_spec a k r : at_triage a k r = true <-> tg_agent r = a /\ tg_key r = k.
Proof. unfold at_triage. by rewrite andb_true_iff, String.eqb_eq, bool_decide_eq_true. Qed.
Lemma triage_of_spec a k t r : triage_of a k t = Some r -> In r (triage t) /\ tg_agent r = a /\ tg_key r = k.
Proof. intros [Hin Hk]%find_some. split; [done|]. by apply at_triage_spec. Qed.

(** The rows of one finding are replaced by rows of the same finding. *)
Lemma triage_of_map a k a' k' f t : (forall r, at_triage a k r = true -> tg_agent (f r) = a /\ tg_key (f r) = k) ->
  triage_of a' k' (set_triage (map (fun r => if at_triage a k r then f r else r)) t)
  = (fun r => if at_triage a k r then f r else r) <$> triage_of a' k' t.
Proof.
  intros Hf. unfold triage_of. simpl. apply (find_map_same (at_triage a' k') (fun r => if at_triage a k r then f r else r)).
  intros r. destruct (at_triage a k r) eqn:E; [|done]. apply Bool.eq_iff_eq_true. rewrite !at_triage_spec.
  destruct (Hf r E) as [-> ->]. apply at_triage_spec in E as [-> ->]. done.
Qed.

Lemma triage_of_other a k a' k' f t : (forall r, at_triage a k r = true -> tg_agent (f r) = a /\ tg_key (f r) = k) -> (a', k') <> (a, k) ->
  triage_of a' k' (set_triage (map (fun r => if at_triage a k r then f r else r)) t) = triage_of a' k' t.
Proof.
  intros Hf Hne. rewrite triage_of_map by done. destruct (triage_of a' k' t) as [r|] eqn:E; [|done]. simpl.
  apply triage_of_spec in E as (_ & <- & <-). destruct (at_triage a k r) eqn:E'; [|done]. apply at_triage_spec in E' as [<- <-]. done.
Qed.

Lemma reopen_if_due_cases a k v at_ now t t' : reopen_if_due a k v at_ now t = Some t' -> t' = t \/
  exists row why, triage_of a k t = Some row /\ due row v at_ = Some why /\
  t' = log_finding {| fl_actor := "system"; fl_action := "finding.triage.reopened"; fl_agent := a; fl_key := k |}
         (add_triage_history
            [{| hf_agent := a; hf_key := k; hf_from := Some (tg_state row); hf_to := "open"; hf_note := None; hf_at := now;
                hf_by := "system"; hf_assigned_to := None; hf_accepted_until := None; hf_rule_version := Some v |}]
            (set_triage (map (fun r => if at_triage a k r then reopened v now r else r)) t)).
Proof.
  unfold reopen_if_due. destruct (triage_of a k t) as [row|]; [|intros [= <-]; by left].
  destruct (due row v at_) as [why|] eqn:Ed; [|intros [= <-]; by left]. destruct (v <? 0); [done|]. intros [= <-]. right. by exists row, why.
Qed.

Lemma reopened_same a k v now r : at_triage a k r = true -> tg_agent (reopened v now r) = a /\ tg_key (reopened v now r) = k.
Proof. by intros [<- <-]%at_triage_spec. Qed.

Lemma reopen_recorded a k v at_ now t t' : reopen_if_due a k v at_ now t = Some t' -> recorded t -> recorded t'.
Proof.
  intros [->|(row & why & Er & _ & ->)]%reopen_if_due_cases; [done|]. pose proof (triage_of_spec _ _ _ _ Er) as (_ & Ea & Ek).
  intros H. eapply (triage_recorded_moved t); [|reflexivity| |reflexivity| |exact H]; simpl.
  - intros a' k' Hne. by apply (triage_of_other a k a' k' (reopened v now)); [apply reopened_same|].
  - unfold state_of. by rewrite Er.
  - unfold state_of. rewrite Er. simpl.
    change (triage_of a k _) with (triage_of a k (set_triage (map (fun r => if at_triage a k r then reopened v now r else r)) t)).
    rewrite triage_of_map by apply reopened_same. rewrite Er. simpl.
    assert (at_triage a k row = true) as -> by by apply at_triage_spec. done.
Qed.

Lemma reopen_rows agent a k v at_ now t t' : reopen_if_due a k v at_ now t = Some t' -> stored_rows agent [] t t'.
Proof. by intros [->|(row & why & _ & _ & ->)]%reopen_if_due_cases; apply stored_rows_quiet. Qed.

Lemma reopen_observation_is a k id at_ now t t' : reopen_on_observation a k id at_ now t = Some t' ->
  t' = t \/ exists v, reopen_if_due a k v at_ now t = Some t'.
Proof.
  unfold reopen_on_observation. destruct (current_of a k t); [|intros [= <-]; by left]. destruct (negb _); [intros [= <-]; by left|].
  right. by eexists.
Qed.

Lemma insert_finding_triage agent f origin now t b t' : insert_finding agent f origin now t = Some (b, t') ->
  triage t' = triage t /\ triage_history t' = triage_history t.
Proof. unfold insert_finding. destruct (_ || _); [done|]. by destruct (existsb _ _); intros [= <- <-]. Qed.
Lemma upsert_triage agent f origin now t t' : upsert_current agent f origin now t = Some t' ->
  triage t' = triage t /\ triage_history t' = triage_history t.
Proof. unfold upsert_current. destruct (is_some (current_of _ _ _)); [by intros [= <-]|]. destruct (is_some _); [by intros [= <-]|done]. Qed.

Lemma store_finding_keeps agent f origin now t n t' : store_finding agent f origin now t = Some (n, t') ->
  stored_rows agent [row_key f] t t' /\ (recorded t -> recorded t').
Proof.
  unfold store_finding. destruct (insert_finding agent f origin now t) as [[b t1]|] eqn:E1; [|done]. simpl.
  destruct (upsert_current agent f origin now t1) as [t2|] eqn:E2; [|done]. simpl. intros H.
  assert (t' = t2 \/ exists v, reopen_if_due agent (row_key f) v (sf_observed_at f) now t2 = Some t') as Hr.
  { destruct b; [|injection H as <- <-; by left].
    destruct (reopen_on_observation _ _ _ _ _ _) as [t3|] eqn:E3; [|done]. injection H as <- <-. by apply reopen_observation_is in E3. }
  destruct (insert_finding_triage _ _ _ _ _ _ _ E1) as [T1 H1]. destruct (upsert_triage _ _ _ _ _ _ E2) as [T2 H2]. split.
  - apply (stored_rows_trans agent [] [row_key f] t t1); [by eapply insert_finding_rows|].
    apply (stored_rows_trans agent [row_key f] [] t1 t2); [by eapply upsert_rows|].
    destruct Hr as [->|(v & Hr)]; [apply stored_rows_refl|by eapply reopen_rows].
  - intros Hrec. assert (recorded t2) as Hrec2 by (apply (recorded_quiet t); congruence).
    destruct Hr as [->|(v & Hr)]; [done|by eapply reopen_recorded].
Qed.

Lemma store_findings_keeps agent origin now l : forall t n t', store_findings_in agent l origin now t = Some (n, t') ->
  stored_rows agent (map row_key l) t t' /\ (recorded t -> recorded t').
Proof.
  induction l as [|f l IH]; intros t n t'; simpl; [intros [= <- <-]; split; [apply stored_rows_refl|done]|].
  destruct (store_finding agent f origin now t) as [[n1 t1]|] eqn:E1; [|done]. simpl.
  destruct (store_findings_in agent l origin now t1) as [[n2 t2]|] eqn:E2; [|done]. simpl. intros [= <- <-].
  apply store_finding_keeps in E1 as [A1 A2]. apply IH in E2 as [B1 B2]. split; [|auto].
  by apply (stored_rows_trans agent [row_key f] (map row_key l) t t1).
Qed.

(** ** What a change set shows of an agent *)

Definition match_of_current (r : CurrentRow) : Match :=
  {| ma_rule_set_id := cf_rule_set_id r; ma_rule_id := cf_rule_id r; ma_rule_version := cf_rule_version r;
     ma_severity := cf_severity r; ma_message := cf_message r; ma_evidence := cf_evidence r |}.

(** The open match of a key, as the digest sees it. *)
Definition view (agent : string) (k : Key) (t : FindTables) : option Match :=
  match current_of agent k t with
  | Some r => if open_row agent r then Some (match_of_current r) else None
  | None => None
  end.

(** All of them, by key. *)
Definition view_map (agent : string) (t : FindTables) : list (Key * Match) :=
  fold_left (fun m r => bt_insert key_cmp (cf_key r) (match_of_current r) m) (List.filter (open_row agent) (current t)) [].

Lemma view_map_sorted agent t : bt_sorted key_cmp (view_map agent t).
Proof. apply (bt_fold_sorted key_cmp cf_key (fun r _ => match_of_current r)). constructor. Qed.

Lemma fold_rows_get {V} (g : CurrentRow -> V) (l : list CurrentRow) k m : bt_sorted key_cmp m -> NoDup (map cf_key l) ->
  bt_get key_cmp k (fold_left (fun m r => bt_insert key_cmp (cf_key r) (g r) m) l m)
  = match find (fun r => bool_decide (cf_key r = k)) l with Some r => Some (g r) | None => bt_get key_cmp k m end.
Proof.
  revert m. induction l as [|r l IH]; intros m Hm; simpl; [done|]. intros [Hr Hnd]%NoDup_cons.
  rewrite IH by (done || by apply (bt_alter_sorted key_cmp)). destruct (bool_decide_reflect (cf_key r = k)) as [<-|Hne].
  - destruct (find _ l) as [r'|] eqn:E.
    + exfalso. apply find_some in E as [Hin E%bool_decide_eq_true]. apply Hr, list_elem_of_In. rewrite <- E. by apply in_map.
    + unfold bt_insert. by rewrite (bt_get_alter_eq key_cmp).
  - destruct (find _ l); [done|]. unfold bt_insert. rewrite (bt_get_alter_ne key_cmp); [done|]. rewrite (cmp_Eq_iff key_cmp). congruence.
Qed.

Lemma open_keys_NoDup agent t : unique t -> NoDup (map cf_key (List.filter (open_row agent) (current t))).
Proof.
  unfold unique. induction (current t) as [|r l IH]; simpl; [constructor|]. intros [Hr Hnd]%NoDup_cons.
  destruct (open_row agent r) eqn:Eo; [|by apply IH]. simpl. apply NoDup_cons. split; [|by apply IH].
  intros (r' & Ek & [Hin Eo']%filter_In)%list_elem_of_In%in_map_iff. apply Hr, list_elem_of_In, in_map_iff. exists r'. split; [|done].
  unfold open_row in Eo, Eo'. apply andb_prop in Eo as [[Ea%String.eqb_eq _]%andb_prop _].
  apply andb_prop in Eo' as [[Ea'%String.eqb_eq _]%andb_prop _]. unfold row_id. congruence.
Qed.

Lemma find_open agent k t : unique t ->
  find (fun r => bool_decide (cf_key r = k)) (List.filter (open_row agent) (current t))
  = match current_of agent k t with Some r => if open_row agent r then Some r else None | None => None end.
Proof.
  intros Hu. destruct (current_of agent k t) as [r|] eqn:E.
  - apply current_of_spec in E as [Hin E]. injection E as Ea Ek. destruct (open_row agent r) eqn:Eo.
    + apply (find_unique cf_key).
      * intros y _ Hy%bool_decide_eq_true. congruence.
      * by apply open_keys_NoDup.
      * by apply filter_In.
      * by apply bool_decide_eq_true.
    + destruct (find _ _) as [r'|] eqn:E'; [|done]. exfalso. apply find_some in E' as [[Hin' Eo']%filter_In Ek'%bool_decide_eq_true].
      assert (r' = r) as ->; [|congruence]. apply (NoDup_map_inj row_id (current t)); try done. unfold row_id.
      apply andb_prop in Eo' as [[Ea'%String.eqb_eq _]%andb_prop _]. congruence.
  - destruct (find _ _) as [r'|] eqn:E'; [|done]. exfalso. apply find_some in E' as [[Hin' Eo']%filter_In Ek'%bool_decide_eq_true].
    apply (current_of_none _ _ _ _ E Hin'). unfold row_id. apply andb_prop in Eo' as [[Ea'%String.eqb_eq _]%andb_prop _]. congruence.
Qed.

Lemma view_map_get agent k t : unique t -> bt_get key_cmp k (view_map agent t) = view agent k t.
Proof.
  intros Hu. unfold view_map. rewrite fold_rows_get; [|constructor|by apply open_keys_NoDup]. rewrite find_open by done.
  unfold view. destruct (current_of agent k t) as [r|]; [|done]. by destruct (open_row agent r).
Qed.

(** The open matches as [apply] reads them are the view. *)
Lemma insert_open_map ok l : forall open open', insert_open ok l open = Some open' ->
  map (prod_map id match_of) open' = fold_left (fun m r => bt_insert key_cmp (cf_key r) (match_of_current r) m) l (map (prod_map id match_of) open).
Proof.
  induction l as [|r l IH]; intros open open'; simpl; [by intros [= <-]|].
  destruct (digest_finding ok _ _ _ _ _ _) as [f|] eqn:E; [|done]. simpl. intros H. rewrite (IH _ _ H). f_equal.
  apply digest_finding_match in E. assert (match_of f = match_of_current r) as <- by done. clear.
  unfold bt_insert. induction open as [|[k v] open IH]; simpl; [done|]. destruct (key_cmp (cf_key r) k); simpl; [done..|]. by rewrite <- IH.
Qed.

Lemma open_matches_map ok agent t open : open_matches ok agent t = Some open -> map (prod_map id match_of) open = view_map agent t.
Proof. intros H. by apply insert_open_map in H. Qed.

(** * Findings: a change set leaves exactly the matches the agent has; the reachable tables *)

Open Scope Z_scope.

(** The last element of a key. *)
Definition last_at {A} (key : A -> Key) (k : Key) (l : list A) : option A :=
  fold_left (fun acc x => if bool_decide (key x = k) then Some x else acc) l None.

Lemma last_at_snoc {A} (key : A -> Key) k l x : last_at key k (l ++ [x]) = if bool_decide (key x = k) then Some x else last_at key k l.
Proof. unfold last_at. by rewrite fold_left_app. Qed.

Lemma last_at_In {A} (key : A -> Key) k l x : last_at key k l = Some x -> In x l /\ key x = k.
Proof.
  induction l as [|y l IH] using rev_ind; [done|]. rewrite last_at_snoc. destruct (bool_decide_reflect (key y = k)).
  - intros [= <-]. split; [apply in_snoc; by right|done].
  - intros [? ?]%IH. split; [apply in_snoc; by left|done].
Qed.
Lemma last_at_None {A} (key : A -> Key) k l : last_at key k l = None <-> ~ In k (map key l).
Proof.
  induction l as [|y l IH] using rev_ind; [split; [by intros _ []|done]|]. rewrite last_at_snoc, map_app. simpl. rewrite in_snoc.
  destruct (bool_decide_reflect (key y = k)) as [<-|Hne]; [split; [done|intros []; by right]|]. rewrite IH.
  split; [intros Hn [?| ->]; auto|auto].
Qed.

(** Two lists with the same matches have the same last ones. *)
Lemma last_at_app {A} (key : A -> Key) k l l' :
  last_at key k (l ++ l') = match last_at key k l' with Some x => Some x | None => last_at key k l end.
Proof.
  induction l' as [|x l' IH] using rev_ind; [by rewrite app_nil_r|]. rewrite app_assoc, !last_at_snoc, IH. by case_bool_decide.
Qed.

Lemma last_at_same {A B} (ka : A -> Key) (kb : B -> Key) (ma : A -> Match) (mb : B -> Match) k l l' :
  Forall2 (fun x y => mb y = ma x /\ kb y = ka x) l l' -> mb <$> last_at kb k l' = ma <$> last_at ka k l.
Proof.
  intros H. assert (forall acc acc', mb <$> acc' = ma <$> acc ->
    mb <$> fold_left (fun acc x => if bool_decide (kb x = k) then Some x else acc) l' acc'
    = ma <$> fold_left (fun acc x => if bool_decide (ka x = k) then Some x else acc) l acc) as Hg; [|by apply Hg].
  induction H as [|x y l l' [Em Ek] H IH]; intros acc acc' Ha; simpl; [done|]. apply IH. rewrite Ek.
  destruct (bool_decide _); simpl; congruence.
Qed.

(** ** The rows marked and ended *)

Lemma row_id_marked row e now r : row_id (marked row e now r) = row_id r.
Proof. done. Qed.
Lemma row_id_ended at_ ap now r : row_id (ended_row at_ ap now r) = row_id r.
Proof. done. Qed.

Lemma view_update agent k k0 f t : (forall r, row_id (f r) = row_id r) ->
  view agent k (update_current (at_current agent k0) f t)
  = if bool_decide (k0 = k)
    then match current_of agent k t with
         | Some r => if open_row agent (f r) then Some (match_of_current (f r)) else None | None => None end
    else view agent k t.
Proof.
  intros Hf. unfold view. rewrite current_of_update by done. destruct (current_of agent k t) as [r|] eqn:E; simpl; [|by case_bool_decide].
  apply current_of_spec in E as [_ E]. destruct (bool_decide_reflect (k0 = k)) as [->|Hne].
  - assert (at_current agent k r = true) as -> by by apply at_current_spec. done.
  - destruct (at_current agent k0 r) eqn:E'; [|done]. apply at_current_spec in E'. congruence.
Qed.

Lemma current_update_some agent k p f t : (forall r, row_id (f r) = row_id r) ->
  is_some (current_of agent k (update_current p f t)) = is_some (current_of agent k t).
Proof. intros Hf. rewrite current_of_update by done. by destruct (current_of agent k t). Qed.

Lemma open_marked agent row e now r : cf_agent r = agent -> open_row agent (marked row e now r) = negb (is_some e).
Proof. intros <-. unfold open_row. simpl. by rewrite String.eqb_refl. Qed.

Lemma marks_some agent now k l t : is_some (current_of agent k (fold_left (mark_open agent now) l t)) = is_some (current_of agent k t).
Proof.
  revert t. induction l as [|x l IH]; intros t; simpl; [done|]. rewrite IH. unfold mark_open, mark.
  by apply current_update_some, row_id_marked.
Qed.

Lemma marks_view agent now k l t : (forall x, In x l -> is_some (current_of agent (row_key x) t) = true) ->
  view agent k (fold_left (mark_open agent now) l t)
  = match last_at row_key k l with Some f => Some (match_of_row f) | None => view agent k t end.
Proof.
  induction l as [|x l IH] using rev_ind; [done|]. intros Hex. rewrite fold_left_app, last_at_snoc. simpl.
  set (t1 := fold_left (mark_open agent now) l t). unfold mark_open, mark. rewrite view_update by apply row_id_marked.
  destruct (bool_decide_reflect (row_key x = k)) as [<-|Hne]; [|apply IH; intros y Hy; apply Hex, in_snoc; by left].
  assert (is_some (current_of agent (row_key x) t1) = true) as Hs.
  { unfold t1. rewrite marks_some. apply Hex, in_snoc. by right. }
  destruct (current_of agent (row_key x) t1) as [r|] eqn:E; [|done]. apply current_of_spec in E as [_ E]. injection E as Ea Ek Ek'.
  rewrite open_marked by done. simpl. f_equal. unfold match_of_current, match_of_row. simpl. by rewrite Ek, Ek'.
Qed.

Lemma transients_view agent open now k l t :
  view agent k (fold_left (mark_transient agent open now) l t)
  = if negb (bt_contains key_cmp k open) && existsb (fun e => bool_decide (row_key e.1 = k)) l then None else view agent k t.
Proof.
  induction l as [|x l IH] using rev_ind; [by rewrite andb_false_r|]. rewrite fold_left_app, existsb_app. simpl. unfold mark_transient at 1.
  destruct (bt_contains key_cmp (row_key x.1) open) eqn:Ec.
  - rewrite IH. destruct (bool_decide_reflect (row_key x.1 = k)) as [<-|]; [by rewrite Ec|]. by rewrite !orb_false_r.
  - unfold mark. rewrite view_update by apply row_id_marked. destruct (bool_decide_reflect (row_key x.1 = k)) as [<-|].
    + rewrite Ec, orb_true_r. simpl. destruct (current_of _ _ _) as [r|] eqn:E; [|done]. apply current_of_spec in E as [_ E].
      injection E as Ea _ _. by rewrite open_marked.
    + by rewrite IH, !orb_false_r.
Qed.

Lemma ends_view agent now k l t : view agent k (fold_left (end_match agent now) l t)
  = if existsb (fun e => bool_decide (e.1.1 = k)) l then None else view agent k t.
Proof.
  induction l as [|x l IH] using rev_ind; [done|]. rewrite fold_left_app, existsb_app. simpl. unfold end_match at 1.
  rewrite view_update by apply row_id_ended. destruct (bool_decide_reflect (x.1.1 = k)) as [<-|]; [|by rewrite IH, !orb_false_r].
  rewrite orb_true_r. simpl. destruct (current_of _ _ _) as [r|]; [|done]. unfold open_row. simpl. by rewrite andb_false_r.
Qed.

(** ** The map of open matches moves on *)

Lemma start_all_is l : forall open open', start_all l open = Some open' -> open' = inserted l open.
Proof. induction l as [|f l IH]; intros open open'; simpl; [by intros [= <-]|]. destruct (bt_contains _ _ _); [done|]. apply IH. Qed.
Lemma change_all_is l : forall open open', change_all l open = Some open' -> open' = inserted l open.
Proof. induction l as [|f l IH]; intros open open'; simpl; [by intros [= <-]|]. destruct (negb _); [done|]. apply IH. Qed.

Lemma inserted_sorted l open : bt_sorted key_cmp open -> bt_sorted key_cmp (inserted l open).
Proof. apply (bt_fold_sorted key_cmp wire_key (fun f _ => f)). Qed.

Lemma inserted_get k l open : bt_sorted key_cmp open ->
  bt_get key_cmp k (inserted l open) = match last_at wire_key k l with Some f => Some f | None => bt_get key_cmp k open end.
Proof.
  intros Hs. induction l as [|f l IH] using rev_ind; [done|]. unfold inserted. rewrite fold_left_app, last_at_snoc. simpl.
  fold (inserted l open). unfold bt_insert. destruct (bool_decide_reflect (wire_key f = k)) as [<-|Hne].
  - rewrite (bt_get_alter_eq key_cmp); [done|]. by apply inserted_sorted.
  - rewrite (bt_get_alter_ne key_cmp); [done|]. rewrite (cmp_Eq_iff key_cmp). congruence.
Qed.

Lemma bt_remove_sorted k m : bt_sorted key_cmp m -> bt_sorted key_cmp (bt_remove k m).
Proof. apply (bt_filter_sorted key_cmp). Qed.
Lemma bt_remove_get k k' m : bt_get key_cmp k (bt_remove k' m) = if bool_decide (k' = k) then None else bt_get key_cmp k m.
Proof.
  unfold bt_remove. rewrite (bt_filter_get key_cmp (fun x => match key_cmp k' x with Eq => false | _ => true end)).
  destruct (bool_decide_reflect (k' = k)) as [->|Hne].
  - by rewrite (cmp_refl key_cmp).
  - destruct (key_cmp k' k) eqn:E; [|done..]. by apply (cmp_Eq_iff key_cmp) in E.
Qed.

Lemma end_all_is ms l : forall open ends open' ends', end_all ms l open ends = Some (Some (open', ends')) -> bt_sorted key_cmp open ->
  bt_sorted key_cmp open' /\ map (fun e => e.1.1) ends' = map (fun e => e.1.1) ends ++ map em_key l
  /\ forall k, bt_get key_cmp k open' = if existsb (fun e => bool_decide (em_key e = k)) l then None else bt_get key_cmp k open.
Proof.
  induction l as [|e l IH]; intros open ends open' ends'; simpl; [intros [= <- <-]; by rewrite app_nil_r|].
  destruct (negb _); [done|]. destruct (ms _) as [at_|]; [|done]. simpl. intros H Hs.
  destruct (IH _ _ _ _ H (bt_remove_sorted _ _ Hs)) as (Hs' & He & Hg). split; [done|]. split.
  - rewrite He, map_app. simpl. by rewrite <- app_assoc.
  - intros k. rewrite Hg, bt_remove_get. destruct (existsb _ l); [by rewrite orb_true_r|]. rewrite orb_false_r. done.
Qed.

(** What the document says is open afterwards. *)
Definition open_after (c : FindingChanges) (before : Key -> option Match) (k : Key) : option Match :=
  if fc_replace c then match_of <$> last_at wire_key k (fc_started c)
  else if existsb (fun e => bool_decide (em_key e = k)) (fc_ended c) then None
  else match last_at wire_key k (fc_started c ++ fc_changed c) with
       | Some f => Some (match_of f)
       | None => before k
       end.

Lemma existsb_keys {A} (key : A -> Key) k l : existsb (fun e => bool_decide (key e = k)) l = bool_decide (k ∈ map key l).
Proof.
  apply Bool.eq_iff_eq_true. rewrite existsb_exists, bool_decide_eq_true, list_elem_of_In, in_map_iff. split.
  - intros (x & Hx & E%bool_decide_eq_true). by exists x.
  - intros (x & E & Hx). exists x. split; [done|]. by apply bool_decide_eq_true.
Qed.

Lemma bt_keys_get {V} k (m : list (Key * V)) : bt_sorted key_cmp m -> In k (map fst m) <-> is_some (bt_get key_cmp k m) = true.
Proof.
  intros Hs. split.
  - intros ([k' v] & <- & Hin)%in_map_iff. simpl. by rewrite (bt_In_get key_cmp k' v m Hs Hin).
  - destruct (bt_get key_cmp k m) as [v|] eqn:E; [|done]. intros _. apply bt_get_In in E; [|apply _]. by apply (in_map fst) in E.
Qed.

(** What the map becomes, and what ends with it. *)
Lemma advance_spec ms c at_ open open' ends : bt_sorted key_cmp open -> advance ms c at_ open = Some (Some (open', ends)) ->
  bt_sorted key_cmp open'
  /\ (forall k, match_of <$> bt_get key_cmp k open' = open_after c (fun k => match_of <$> bt_get key_cmp k open) k)
  /\ (forall k, existsb (fun e => bool_decide (e.1.1 = k)) ends
        = if fc_replace c then is_some (bt_get key_cmp k open) && negb (is_some (bt_get key_cmp k open'))
          else existsb (fun e => bool_decide (em_key e = k)) (fc_ended c)).
Proof.
  intros Hs. unfold advance, open_after. destruct (fc_replace c).
  - intros [= <- <-]. set (next := inserted (fc_started c) []).
    assert (bt_sorted key_cmp next) as Hn by (apply inserted_sorted; constructor). split; [done|]. split.
    + intros k. unfold next. rewrite inserted_get by constructor. by destruct (last_at _ _ _).
    + intros k. apply Bool.eq_iff_eq_true. rewrite existsb_exists, andb_true_iff, <- (bt_keys_get k open Hs), negb_true_iff. split.
      * intros (e & (k' & <- & [Hin Hc]%filter_In)%in_map_iff & E%bool_decide_eq_true). simpl in E. subst k'.
        split; [done|]. unfold bt_contains in Hc. by destruct (bt_get key_cmp k next).
      * intros [Hin Hc]. exists (k, at_, true). split; [|by apply bool_decide_eq_true]. apply in_map_iff. exists k. split; [done|].
        apply filter_In. split; [done|]. unfold bt_contains. by destruct (bt_get key_cmp k next).
  - destruct (start_all _ _) as [o1|] eqn:E1; [|done]. destruct (change_all _ _) as [o2|] eqn:E2; [|done]. intros H.
    apply start_all_is in E1 as ->. apply change_all_is in E2 as ->.
    assert (bt_sorted key_cmp (inserted (fc_changed c) (inserted (fc_started c) open))) as Hs2 by (by repeat apply inserted_sorted).
    destruct (end_all_is _ _ _ _ _ _ H Hs2) as (Hs' & He & Hg). split; [done|]. split.
    + intros k. rewrite Hg. destruct (existsb _ _); [done|].
      unfold inserted. rewrite <- fold_left_app. change (fold_left _ (?a ++ ?b) open) with (inserted (a ++ b) open).
      rewrite inserted_get by done. by destruct (last_at _ _ _).
    + intros k. rewrite !existsb_keys, He. done.
Qed.

(** ** The whole change set *)

Definition same_finding (f : Finding) (r : StoredFinding) : Prop := match_of_row r = match_of f /\ row_key r = wire_key f.

Lemma rows_of_same ms now oldest latest days c rows : rows_of ms now oldest latest days c = inr rows ->
  Forall2 same_finding (fc_started c) (rw_started rows) /\ Forall2 same_finding (fc_changed c) (rw_changed rows)
  /\ map (fun e => row_key e.1) (rw_transient rows) = map (fun m => wire_key (tm_finding m)) (fc_transient c).
Proof.
  unfold rows_of. destruct (collected _ (fc_started c)) as [|l1] eqn:E1; [done|]. destruct (collected _ (fc_changed c)) as [|l2] eqn:E2; [done|].
  destruct (collected _ (fc_transient c)) as [|l3] eqn:E3; [done|]. intros [= <-]. simpl.
  apply collected_Forall2 in E1, E2, E3. split_and!.
  - eapply Forall2_impl; [exact E1|]. intros x y H. exact (changed_row_match _ _ _ _ _ _ _ H).
  - eapply Forall2_impl; [exact E2|]. intros x y H. exact (changed_row_match _ _ _ _ _ _ _ H).
  - induction E3 as [|x y l l' H _ IH]; simpl; [done|]. f_equal; [|done]. unfold transient_row in H.
    destruct (ms (tm_ended_at_unix_ms x)); [|done]. destruct (changed_row _ _ _ _ _ _) eqn:E; [done|]. injection H as <-. simpl.
    by apply changed_row_match in E as [_ E].
Qed.

(** The writes seen from one agent's open matches. *)
Lemma written_view agent rows open ends expected now t t' k : written agent rows open ends expected now t = Some t' -> unique t ->
  unique t' /\ agent_digest agent t' = Some expected
  /\ exists s, stored_rows agent (map row_key (rw_started rows) ++ map row_key (rw_changed rows) ++ map (fun e => row_key e.1) (rw_transient rows)) t s
     /\ view agent k t' =
        if existsb (fun e => bool_decide (e.1.1 = k)) ends then None
        else if negb (bt_contains key_cmp k open) && existsb (fun e => bool_decide (row_key e.1 = k)) (rw_transient rows) then None
        else match last_at row_key k (rw_started rows ++ rw_changed rows) with
             | Some f => Some (match_of_row f) | None => view agent k s end.
Proof.
  unfold written. destruct (store_findings_in agent (rw_started rows) _ _ t) as [[n1 t1]|] eqn:E1; [|done]. simpl.
  destruct (store_findings_in agent (rw_changed rows) _ _ t1) as [[n2 t2]|] eqn:E2; [|done]. simpl.
  destruct (store_findings_in agent (map fst (rw_transient rows)) _ _ t2) as [[n3 t3]|] eqn:E3; [|done]. simpl. intros H Hu.
  apply store_findings_keeps in E1 as [A1 _]. apply store_findings_keeps in E2 as [A2 _]. apply store_findings_keeps in E3 as [A3 _].
  rewrite map_map in A3. pose proof (stored_rows_trans _ _ _ _ _ _ A2 A3) as A23. pose proof (stored_rows_trans _ _ _ _ _ _ A1 A23) as A.
  set (u1 := fold_left (mark_open agent now) (rw_started rows ++ rw_changed rows) t3) in H.
  set (u2 := fold_left (mark_transient agent open now) (rw_transient rows) u1) in H.
  set (u3 := fold_left (end_match agent now) ends u2) in H. injection H as <-. split; [|split].
  - assert (unique t3) as U by by apply A. change (unique u3).
    assert (forall l u, unique u -> unique (fold_left (mark_open agent now) l u)) as M1.
    { induction l as [|x l IH]; intros u Hu'; simpl; [done|]. apply IH. by apply unique_update. }
    assert (forall l u, unique u -> unique (fold_left (mark_transient agent open now) l u)) as M2.
    { induction l as [|x l IH]; intros u Hu'; simpl; [done|]. apply IH. unfold mark_transient. destruct (bt_contains _ _ _); [done|].
      by apply unique_update. }
    assert (forall l u, unique u -> unique (fold_left (end_match agent now) l u)) as M3.
    { induction l as [|x l IH]; intros u Hu'; simpl; [done|]. apply IH. by apply unique_update. }
    unfold u3, u2, u1. auto.
  - unfold agent_digest. simpl. by rewrite String.eqb_refl.
  - exists t3. split; [done|]. change (view agent k (set_match_sha256 agent expected u3)) with (view agent k u3).
    unfold u3. rewrite ends_view. destruct (existsb _ ends); [done|]. unfold u2. rewrite transients_view. destruct (_ && _); [done|].
    unfold u1. apply marks_view. intros x Hx. assert (exists r, current_of agent (row_key x) t3 = Some r) as [r ->]; [|done].
    apply A. rewrite app_assoc. apply in_app_iff. left. rewrite <- map_app. by apply in_map.
Qed.

Lemma view_same agent keys t s k : stored_rows agent keys t s -> ~ In k keys -> view agent k s = view agent k t.
Proof. intros H Hn. unfold view. rewrite (so_same _ _ _ _ H); [done|]. by intros [_ ?]. Qed.

(** An observation alone opens nothing. *)
Lemma view_none agent keys t s k : stored_rows agent keys t s -> view agent k t = None -> view agent k s = None.
Proof.
  intros H Hn. unfold view in *. destruct (current_of agent k s) as [r'|] eqn:E'; [|done].
  destruct (open_row agent r') eqn:Eo; [|done]. exfalso. unfold open_row in Eo.
  apply andb_prop in Eo as [[Ea%String.eqb_eq Es%bool_decide_eq_true]%andb_prop Ee].
  destruct (current_of agent k t) as [r|] eqn:E.
  - destruct (so_kept _ _ _ _ H _ _ _ E) as (r2 & E2 & (S1 & S2 & _)). assert (r2 = r') as -> by congruence.
    apply current_of_spec in E as [_ [= Ea' _]]. unfold open_row in Hn. rewrite <- S1, <- S2, Es in Hn.
    by rewrite Ee, Ea', String.eqb_refl, bool_decide_eq_true_2 in Hn.
  - pose proof (so_new _ _ _ _ H _ _ E E'). congruence.
Qed.

Section digest.
Context (from_timestamp_millis : Z -> option Z) (identifier : string -> bool).
Context (digest_from_hex : string -> option (list Z)) (match_digest : list Finding -> list Z) (digest_of : list Match -> list Z).
Hypothesis Hdigest : forall l, match_digest l = digest_of (map match_of l).

Notation apply := (FindDb.apply from_timestamp_millis identifier digest_from_hex match_digest).

(** A match that is open before and after has no transient: those it has are among the others. *)
Definition transients_apart (agent : string) (c : FindingChanges) (t : FindTables) : Prop :=
  forall m, In m (fc_transient c) ->
    view agent (wire_key (tm_finding m)) t = None
    \/ In (wire_key (tm_finding m)) (map wire_key (fc_started c ++ fc_changed c) ++ map em_key (fc_ended c))
    \/ fc_replace c = true.

(** The document says one thing of the match: a replacement does not list it as changed, and it has a
    transient only when it was not open, or is among the others too, or the document is a replacement. *)
Definition plain (agent : string) (c : FindingChanges) (t : FindTables) (k : Key) : Prop :=
  (fc_replace c = true -> ~ In k (map wire_key (fc_changed c)))
  /\ (In k (map (fun m => wire_key (tm_finding m)) (fc_transient c)) ->
     view agent k t = None \/ In k (map wire_key (fc_started c ++ fc_changed c) ++ map em_key (fc_ended c)) \/ fc_replace c = true).

Lemma apart_plain agent c t k : transients_apart agent c t -> (fc_replace c = true -> fc_changed c = []) -> plain agent c t k.
Proof.
  intros Htr Hrep. split; [intros H; rewrite (Hrep H); by intros []|]. intros (m & <- & Hm)%in_map_iff. by apply Htr.
Qed.

Lemma open_matches_sorted agent t open : open_matches identifier agent t = Some open -> bt_sorted key_cmp open.
Proof.
  unfold open_matches. generalize (List.filter (open_row agent) (current t)). intros l.
  assert (bt_sorted key_cmp ([] : Open)) as H by constructor. revert H. generalize ([] : Open).
  induction l as [|r l IH]; intros o Ho; simpl; [by intros [= <-]|].
  destruct (digest_finding _ _ _ _ _ _ _); [|done]. simpl. apply IH. by apply (bt_alter_sorted key_cmp).
Qed.

Lemma matches_get (m : Open) k : bt_get key_cmp k (map (prod_map id match_of) m) = match_of <$> bt_get key_cmp k m.
Proof. induction m as [|[k' v] m IH]; simpl; [done|]. by destruct (key_cmp k k'). Qed.
Lemma matches_sorted (m : Open) : bt_sorted key_cmp m -> bt_sorted key_cmp (map (prod_map id match_of) m).
Proof.
  unfold bt_sorted. induction 1 as [|x m Hm IH Hall]; simpl; [constructor|]. constructor; [done|].
  apply Forall_forall. intros y (z & -> & Hz)%list_elem_of_fmap. rewrite Forall_forall in Hall. by apply Hall.
Qed.

(** One key, case by case. *)
Lemma written_key agent c rows open open' ends expected now t t' k :
  written agent rows open' ends expected now t = Some t' -> unique t ->
  Forall2 same_finding (fc_started c) (rw_started rows) -> Forall2 same_finding (fc_changed c) (rw_changed rows) ->
  map (fun e => row_key e.1) (rw_transient rows) = map (fun m => wire_key (tm_finding m)) (fc_transient c) ->
  plain agent c t k ->
  match_of <$> bt_get key_cmp k open = view agent k t ->
  match_of <$> bt_get key_cmp k open' = open_after c (fun k => match_of <$> bt_get key_cmp k open) k ->
  existsb (fun e => bool_decide (e.1.1 = k)) ends
  = (if fc_replace c then is_some (bt_get key_cmp k open) && negb (is_some (bt_get key_cmp k open'))
     else existsb (fun e => bool_decide (em_key e = k)) (fc_ended c)) ->
  view agent k t' = match_of <$> bt_get key_cmp k open'.
Proof.
  intros Hw Hu R1 R2 R3 [Hrep Htr] Hv Ho He. destruct (written_view _ _ _ _ _ _ _ _ k Hw Hu) as (_ & _ & s & Hst & ->).
  rewrite (existsb_keys (fun e => row_key e.1)), R3, He. unfold bt_contains.
  assert (Forall2 same_finding (fc_started c ++ fc_changed c) (rw_started rows ++ rw_changed rows)) as R by by apply Forall2_app.
  assert (match_of_row <$> last_at row_key k (rw_started rows ++ rw_changed rows)
          = match_of <$> last_at wire_key k (fc_started c ++ fc_changed c)) as Hlast by by apply last_at_same.
  assert (map row_key (rw_started rows ++ rw_changed rows) = map wire_key (fc_started c ++ fc_changed c)) as Hkeys.
  { clear -R. induction R as [|x y l l' [_ E] _ IH]; simpl; [done|]. by rewrite E, IH. }
  rewrite R3, app_assoc, <- map_app, Hkeys in Hst.
  assert (last_at wire_key k (fc_started c ++ fc_changed c) = None -> k ∉ map (fun m => wire_key (tm_finding m)) (fc_transient c) ->
          view agent k s = view agent k t) as Hsame.
  { intros Hn Hm. eapply view_same; [exact Hst|]. intros [Hk|Hk]%in_app_iff; [by apply last_at_None in Hn|]. by apply Hm, list_elem_of_In. }
  unfold open_after in Ho. destruct (fc_replace c) eqn:Er.
  - assert (last_at wire_key k (fc_changed c) = None) as Hch.
    { apply last_at_None. by apply Hrep. }
    rewrite (last_at_app wire_key), Hch in Hlast, Hsame. destruct (last_at wire_key k (fc_started c)) as [f|] eqn:El; simpl in Ho.
    + destruct (bt_get key_cmp k open') as [f'|]; [|done]. rewrite andb_false_r. simpl.
      destruct (last_at row_key k _) as [r|]; [|done]. simpl in Hlast, Ho. congruence.
    + destruct (bt_get key_cmp k open') as [f'|]; [done|]. destruct (bt_get key_cmp k open) as [f|]; simpl; [done|].
      case_bool_decide; [done|]. destruct (last_at row_key k _) as [r|]; [done|]. rewrite Hsame by done. by rewrite <- Hv.
  - destruct (existsb (fun e => bool_decide (em_key e = k)) (fc_ended c)) eqn:Een; [done|].
    destruct (last_at wire_key k (fc_started c ++ fc_changed c)) as [f|] eqn:El; simpl in Ho.
    + destruct (bt_get key_cmp k open') as [f'|]; [|done]. simpl. destruct (last_at row_key k _) as [r|]; [|done].
      simpl in Hlast, Ho. congruence.
    + destruct (last_at row_key k _) as [r|]; [done|]. rewrite Ho, Hv. destruct (view agent k t) as [m|] eqn:Evw.
      * destruct (bt_get key_cmp k open') as [f'|]; [|rewrite Hv in Ho; done]. simpl.
        destruct (decide (k ∈ map (fun m => wire_key (tm_finding m)) (fc_transient c))) as [Hm|Hm]; [|by apply Hsame].
        exfalso. apply list_elem_of_In in Hm. destruct (Htr Hm) as [H|[H|H]]; [congruence|..|congruence].
        apply in_app_iff in H as [H|H]; [by apply last_at_None in El|].
        rewrite (existsb_keys em_key) in Een. by apply bool_decide_eq_false in Een; rewrite list_elem_of_In in Een.
      * destruct (_ && _); [done|]. by eapply view_none.
Qed.

Lemma apply_view agent c rows now oldest latest days t t' : rows_of from_timestamp_millis now oldest latest days c = inr rows ->
  apply agent c rows now t = Some (Stored, t') -> unique t ->
  unique t' /\ (forall k, plain agent c t k -> view agent k t' = open_after c (fun k => view agent k t) k)
  /\ exists d, digest_from_hex (fc_sha256 c) = Some d /\ agent_digest agent t' = Some d
     /\ ((forall k, plain agent c t k) -> digest_of (map snd (view_map agent t')) = d).
Proof.
  intros Hrows Ha Hu. apply rows_of_same in Hrows as (R1 & R2 & R3). unfold FindDb.apply in Ha.
  destruct (digest_from_hex (fc_base_sha256 c)) as [base|]; [|done]. destruct (digest_from_hex (fc_sha256 c)) as [expected|]; [|done].
  destruct (from_timestamp_millis (fc_scanned_at_unix_ms c)) as [at_|]; [|done]. simpl in Ha.
  destruct (negb _); [done|]. destruct (_ && _); [done|].
  destruct (open_matches identifier agent t) as [open|] eqn:Eo; [|done]. simpl in Ha.
  destruct (advance _ c at_ open) as [[[open' ends]|]|] eqn:Ead; [|done..]. simpl in Ha.
  destruct (bool_decide_reflect (match_digest (map snd open') = expected)) as [Ed|]; [|done]. simpl in Ha.
  destruct (written _ _ _ _ _ _ _) as [t1|] eqn:Ew; [|done]. injection Ha as <-.
  pose proof (open_matches_sorted _ _ _ Eo) as Hso.
  assert (forall k, match_of <$> bt_get key_cmp k open = view agent k t) as Hview.
  { intros k. rewrite <- matches_get, (open_matches_map _ _ _ _ Eo). by apply view_map_get. }
  destruct (advance_spec _ _ _ _ _ _ Hso Ead) as (Hso' & Hopen & Hends).
  assert (forall k, plain agent c t k -> view agent k t1 = match_of <$> bt_get key_cmp k open') as Hall
    by (intros k Hk; by eapply (written_key agent c rows open open')).
  destruct (written_view _ _ _ _ _ _ _ _ ("", "") Ew Hu) as (Hu' & Hd & _). split; [done|]. split.
  - intros k Hk. rewrite Hall, Hopen by done. unfold open_after. destruct (fc_replace c); [done|]. destruct (existsb _ _); [done|].
    destruct (last_at _ _ _); [done|]. apply Hview.
  - exists expected. split; [done|]. split; [done|]. intros Hp. rewrite <- Ed, Hdigest. f_equal.
    assert (view_map agent t1 = map (prod_map id match_of) open') as ->; [|by rewrite !map_map].
    apply (bt_ext key_cmp); [apply view_map_sorted|by apply matches_sorted|]. intros k.
    rewrite view_map_get, matches_get by done. by apply Hall.
Qed.
End digest.

(** * Findings: the reachable tables

    What a person's change, a heartbeat and a rule set switched off keep, and two transition systems: all
    transactions ([step]), and those of agents whose matches come by change sets only ([in_sync]). *)

Open Scope Z_scope.

(** ** A person's change *)

Lemma save_frame agent k v c assigned actor now p t : let t' := save agent k v c assigned actor now p t in
  people t' = people t /\ hosts t' = hosts t /\ findings t' = findings t /\ current t' = current t /\ match_sha256 t' = match_sha256 t
  /\ assignable t' = assignable t /\ partitions t' = partitions t.
Proof. done. Qed.

Lemma triage_of_save agent k v c assigned actor now p t a' k' :
  triage_of a' k' (save agent k v c assigned actor now p t)
  = if bool_decide ((a', k') = (agent, k)) then Some (saved_row agent k v c assigned actor now p) else triage_of a' k' t.
Proof.
  set (r := saved_row agent k v c assigned actor now p).
  assert (tg_agent r = agent /\ tg_key r = k) as [Ea Ek] by (split; [done|by destruct k]).
  change (triage_of a' k' (save agent k v c assigned actor now p t)) with (triage_of a' k' (save_triage r t)).
  unfold save_triage. rewrite Ea, Ek. unfold triage_of at 1. simpl. destruct (existsb (at_triage agent k) (triage t)) eqn:Ex.
  - change (find (at_triage a' k') (map (fun x => if at_triage agent k x then r else x) (triage t)))
      with (triage_of a' k' (set_triage (map (fun x => if at_triage agent k x then (fun _ => r) x else x)) t)).
    rewrite (triage_of_map agent k a' k' (fun _ => r)) by (by intros). destruct (bool_decide_reflect ((a', k') = (agent, k))) as [[= -> ->]|Hne].
    + unfold triage_of. apply existsb_exists in Ex as (x & Hin & Hx). destruct (find (at_triage agent k) (triage t)) as [y|] eqn:Ef.
      * simpl. apply find_some in Ef as [_ ->]. done.
      * pose proof (find_none _ _ Ef x Hin). congruence.
    + destruct (triage_of a' k' t) as [y|] eqn:Ey; [|done]. simpl. apply triage_of_spec in Ey as (_ & <- & <-).
      destruct (at_triage agent k y) eqn:E'; [|done]. apply at_triage_spec in E' as [<- <-]. done.
  - rewrite find_app. simpl. destruct (bool_decide_reflect ((a', k') = (agent, k))) as [[= -> ->]|Hne].
    + assert (find (at_triage agent k) (triage t) = None) as ->.
      { destruct (find _ _) as [y|] eqn:Ef; [|done]. apply find_some in Ef as [Hin Hy]. apply not_true_iff_false in Ex.
        exfalso. apply Ex, existsb_exists. by exists y. }
      assert (at_triage agent k r = true) as -> by by apply at_triage_spec. done.
    + unfold triage_of. destruct (find _ (triage t)); [done|]. destruct (at_triage a' k' r) eqn:E'; [|done].
      apply at_triage_spec in E' as [E1 E2]. congruence.
Qed.

Lemma save_recorded agent k v c assigned actor now t : actor <> "system" -> recorded t ->
  recorded (save agent k v c assigned actor now (previous_record agent k v t) t).
Proof.
  intros Hact H. set (p := previous_record agent k v t).
  assert (state_of agent k t = (rc_state p, rc_version p)) as Est.
  { unfold state_of, p, previous_record. by destruct (triage_of agent k t). }
  eapply (triage_recorded_moved t); [|reflexivity|..|exact H]; simpl.
  - intros a' k' Hne. rewrite triage_of_save. case_bool_decide; done.
  - by rewrite Est.
  - unfold off_line. simpl. destruct (String.eqb_spec actor "system"); done.
  - unfold state_of at 1. rewrite triage_of_save, bool_decide_eq_true_2 by done. simpl. by rewrite Est.
Qed.

Lemma update_cases agent k e c actor now t o t' : update agent k e c actor now t = Some (o, t') -> t' = t \/
  exists r assigned, current_of agent k t = Some r
    /\ t' = save agent k (cf_rule_version r) c assigned actor now (previous_record agent k (cf_rule_version r) t) t.
Proof.
  unfold update. destruct (negb _); [intros [= <- <-]; by left|]. destruct (current_of agent k t) as [r|] eqn:Er; [|intros [= <- <-]; by left].
  destruct (negb _); [intros [= <- <-]; by left|]. destruct (negb _); [intros [= <- <-]; by left|].
  destruct (_ && _); [intros [= <- <-]; by left|]. destruct (wanted_assignee c t) as [assigned|]; [|intros [= <- <-]; by left].
  destruct (negb _); [intros [= <- <-]; by left|]. destruct (_ <? _); [done|]. intros [= <- <-]. right. by exists r, (fst <$> assigned).
Qed.

(** ** A change to many hosts is a change to each *)

Lemma gather_spec k latest c t changes : forall previous stale, gather k latest c t changes = inr (previous, stale) ->
  Forall2 (fun e x => x.1.1 = e.1 /\ find (fun y => String.eqb y.1 e.1) latest = Some (e.1, x.1.2)
                      /\ x.2 = previous_record e.1 k x.1.2 t /\ transition_allowed (rc_state x.2) (tc_state c) = true) changes previous
  /\ (stale = [] -> Forall2 (fun e x => rc_version x.2 = e.2) changes previous).
Proof.
  induction changes as [|[agent e] changes IH]; intros previous stale; simpl; [intros [= <- <-]; split; constructor|].
  destruct (find _ latest) as [[a v]|] eqn:Ef; [|done]. destruct (negb _) eqn:Et; [done|]. apply negb_false_iff in Et.
  destruct (gather k latest c t changes) as [|[prev st]] eqn:Eg; [done|]. intros [= <- <-].
  destruct (IH _ _ eq_refl) as [H1 H2]. split.
  - constructor; [|done]. simpl. split; [done|]. pose proof (find_some _ _ Ef) as [_ Ea%String.eqb_eq]. simpl in Ea. subst a. done.
  - destruct (_ =? _) eqn:Ee; [|done]. intros Hs. constructor; [simpl; lia|auto].
Qed.

(** The state of the hosts not yet saved. *)
Lemma save_all_others k c assigned actor now l : forall t r t', save_all k c assigned actor now l t = Some (r, t') ->
  people t' = people t /\ hosts t' = hosts t /\ findings t' = findings t /\ current t' = current t /\ match_sha256 t' = match_sha256 t
  /\ assignable t' = assignable t /\ partitions t' = partitions t.
Proof.
  induction l as [|[[agent v] p] l IH]; intros t r t'; simpl; [by intros [= <- <-]|]. destruct (negb _).
  - destruct (save_all k c assigned actor now l t) as [[r1 t1]|] eqn:E; [|done]. simpl. intros [= <- <-]. by eapply IH.
  - destruct (_ <? _); [done|]. destruct (save_all _ _ _ _ _ _ _) as [[r1 t1]|] eqn:E; [|done]. simpl. intros [= <- <-]. by apply IH in E.
Qed.

Lemma save_all_recorded k c assigned actor now l : actor <> "system" -> NoDup (map (fun x => x.1.1) l) -> forall t r t',
  Forall (fun x => x.2 = previous_record x.1.1 k x.1.2 t) l -> save_all k c assigned actor now l t = Some (r, t') -> recorded t -> recorded t'.
Proof.
  intros Hact. induction l as [|[[agent v] p] l IH]; intros Hnd t r t' Hp; simpl; [by intros [= <- <-]|].
  simpl in Hnd. apply NoDup_cons in Hnd as [Hn Hnd]. apply Forall_cons in Hp as [Ep Hp]. simpl in Ep. destruct (negb _).
  - destruct (save_all k c assigned actor now l t) as [[r1 t1]|] eqn:E; [|done]. simpl. intros [= <- <-]. by eapply IH.
  - destruct (_ <? _); [done|]. destruct (save_all _ _ _ _ _ _ _) as [[r1 t1]|] eqn:E; [|done]. simpl. intros [= <- <-] Hrec.
    refine (IH Hnd _ _ _ _ E _); [|rewrite Ep; by apply save_recorded].
    rewrite Forall_forall in Hp |- *. intros x Hx. rewrite (Hp x Hx). unfold previous_record. rewrite triage_of_save.
    case_bool_decide as E'; [|done]. injection E' as E'. exfalso. apply Hn. rewrite <- E'. apply list_elem_of_fmap. by exists x.
Qed.

Lemma gather_no_update k latest c t changes r : gather k latest c t changes <> inl (BulkUpdated r).
Proof.
  induction changes as [|[agent e] changes IH]; simpl; [done|]. destruct (find _ latest) as [[a v]|]; [|done]. destruct (negb _); [done|].
  by destruct (gather k latest c t changes) as [|[]].
Qed.

Lemma update_many_cases k changes scope c actor now t o t' : update_many k changes scope c actor now t = Some (o, t') ->
  (t' = t /\ forall r, o <> BulkUpdated r) \/
  exists previous assigned r, NoDup (map fst changes) /\ bulk_fields_valid changes c now = true
    /\ wanted_assignee c t = Some assigned
    /\ Forall2 (fun e x => x.1.1 = e.1 /\ find (fun y => String.eqb y.1 e.1) (latest_rows k (map fst changes) scope t) = Some (e.1, x.1.2)
                      /\ x.2 = previous_record e.1 k x.1.2 t /\ transition_allowed (rc_state x.2) (tc_state c) = true) changes previous
    /\ Forall2 (fun e x => rc_version x.2 = e.2) changes previous
    /\ save_all k c assigned actor now previous t = Some (r, t') /\ o = BulkUpdated r.
Proof.
  unfold update_many. destruct (bulk_fields_valid changes c now) eqn:Ev; simpl; [|by intros [= <- <-]; left].
  destruct (negb _); [by intros [= <- <-]; left|].
  destruct (gather _ _ _ _ _) as [b|[previous stale]] eqn:Eg; [intros [= <- <-]; left; split; [done|]; intros r ->; by apply gather_no_update in Eg|].
  destruct (bool_decide_reflect (stale = [])) as [Es|]; simpl; [|by intros [= <- <-]; left].
  destruct (wanted_assignee c t) as [assigned|] eqn:Ew; [|by intros [= <- <-]; left].
  destruct (save_all _ _ _ _ _ _ _) as [[r t1]|] eqn:E; [|done]. simpl. intros [= <- <-]. right.
  apply gather_spec in Eg as [H1 H2]. exists previous, assigned, r. split_and!; auto.
  unfold bulk_fields_valid in Ev. repeat (apply andb_prop in Ev as [Ev ?]). by eapply bool_decide_eq_true.
Qed.

(** ** Change sets and heartbeats *)

(** What is not the current rows. *)
Definition beside (t t' : FindTables) : Prop :=
  people t' = people t /\ hosts t' = hosts t /\ triage t' = triage t /\ triage_history t' = triage_history t
  /\ assignable t' = assignable t /\ partitions t' = partitions t.
Lemma beside_trans t1 t2 t3 : beside t1 t2 -> beside t2 t3 -> beside t1 t3.
Proof. intros (? & ? & ? & ? & ? & ?) (? & ? & ? & ? & ? & ?). split_and!; congruence. Qed.
Lemma beside_fold {A} (f : FindTables -> A -> FindTables) l : (forall t x, beside t (f t x)) -> forall t, beside t (fold_left f l t).
Proof. intros Hf. induction l as [|x l IH]; intros t; simpl; [done|]. eapply beside_trans; [apply Hf|apply IH]. Qed.

Lemma mark_transient_beside agent open now t e : beside t (mark_transient agent open now t e).
Proof. unfold mark_transient. by destruct (bt_contains _ _ _). Qed.

Lemma marks_beside agent open now l1 l2 ends t :
  beside t (fold_left (end_match agent now) ends (fold_left (mark_transient agent open now) l2 (fold_left (mark_open agent now) l1 t))).
Proof.
  refine (beside_trans _ _ _ (beside_trans _ _ _ (beside_fold (mark_open agent now) l1 _ t)
            (beside_fold (mark_transient agent open now) l2 _ _)) (beside_fold (end_match agent now) ends _ _)); [done| |done].
  intros u e. apply mark_transient_beside.
Qed.

Lemma update_others agent u k0 f : (forall r, row_id (f r) = row_id r) ->
  match_sha256 (update_current (at_current agent k0) f u) = match_sha256 u
  /\ forall b k, b <> agent -> current_of b k (update_current (at_current agent k0) f u) = current_of b k u.
Proof.
  intros Hf. split; [done|]. intros b k Hne. rewrite current_of_update by done. destruct (current_of b k u) as [r|] eqn:E; [|done].
  apply current_of_spec in E as [_ E]. simpl. destruct (at_current agent k0 r) eqn:E'; [|done]. apply at_current_spec in E'. congruence.
Qed.

Lemma fold_others {B} agent (g : FindTables -> B -> FindTables) l : (forall u x, match_sha256 (g u x) = match_sha256 u
    /\ forall b k, b <> agent -> current_of b k (g u x) = current_of b k u) ->
  forall u, match_sha256 (fold_left g l u) = match_sha256 u
    /\ forall b k, b <> agent -> current_of b k (fold_left g l u) = current_of b k u.
Proof.
  intros Hg. induction l as [|x l IH]; intros u; simpl; [done|]. destruct (IH (g u x)) as [I1 I2]. destruct (Hg u x) as [G1 G2].
  split; [congruence|]. intros b k Hne. by rewrite I2, G2.
Qed.

(** Marks and ends are of one agent. *)
Lemma marks_others agent open now l1 l2 ends t :
  let u := fold_left (end_match agent now) ends (fold_left (mark_transient agent open now) l2 (fold_left (mark_open agent now) l1 t)) in
  match_sha256 u = match_sha256 t /\ forall b k, b <> agent -> current_of b k u = current_of b k t.
Proof.
  set (u1 := fold_left (mark_open agent now) l1 t). set (u2 := fold_left (mark_transient agent open now) l2 u1). simpl.
  destruct (fold_others agent (end_match agent now) ends) with (u := u2) as [F1 F2]; [by intros; apply update_others|].
  destruct (fold_others agent (mark_transient agent open now) l2) with (u := u1) as [G1 G2].
  { intros u x. unfold mark_transient. destruct (bt_contains _ _ _); [done|]. by apply update_others. }
  destruct (fold_others agent (mark_open agent now) l1) with (u := t) as [K1 K2]; [by intros; apply update_others|].
  split; [unfold u2, u1 in *; congruence|]. intros b k Hne. rewrite F2 by done. unfold u2. rewrite G2 by done. unfold u1. by apply K2.
Qed.

Lemma written_keeps agent rows open ends expected now t t' : written agent rows open ends expected now t = Some t' ->
  (recorded t -> recorded t') /\ (unique t -> unique t') /\ hosts t' = hosts t /\ people t' = people t
  /\ forall b k, b <> agent -> current_of b k t' = current_of b k t /\ agent_digest b t' = agent_digest b t.
Proof.
  intros Hw. split; [|split; [intros Hu; by apply (written_view _ _ _ _ _ _ _ _ ("", "") Hw Hu)|]].
  all: revert Hw; unfold written; destruct (store_findings_in agent (rw_started rows) _ _ t) as [[n1 t1]|] eqn:E1; [|done]; simpl;
    destruct (store_findings_in agent (rw_changed rows) _ _ t1) as [[n2 t2]|] eqn:E2; [|done]; simpl;
    destruct (store_findings_in agent (map fst (rw_transient rows)) _ _ t2) as [[n3 t3]|] eqn:E3; [|done]; simpl; intros [= <-];
    apply store_findings_keeps in E1 as [A1 B1]; apply store_findings_keeps in E2 as [A2 B2]; apply store_findings_keeps in E3 as [A3 B3].
  - intros Hrec. match goal with |- recorded (set_match_sha256 _ _ ?u) => assert (beside t3 u) as (_ & _ & Et & Eh & _) by apply marks_beside end.
    eapply (recorded_quiet t3); [exact Et|exact Eh|auto].
  - pose proof (stored_rows_trans _ _ _ _ _ _ (stored_rows_trans _ _ _ _ _ _ A1 A2) A3) as A. clear A1 A2 A3 B1 B2 B3.
    match goal with |- context [set_match_sha256 _ _ ?u] => set (u0 := u); assert (beside t3 u0) as (Ep & Eh & _) by apply marks_beside end.
    destruct (so_else _ _ _ _ A) as (P & H & M & _). split; [simpl; congruence|]. split; [simpl; congruence|].
    destruct (marks_others agent open now (rw_started rows ++ rw_changed rows) (rw_transient rows) ends t3) as [Em Hc]. fold u0 in Em, Hc.
    intros b k Hne. split.
    + change (current_of b k (set_match_sha256 agent expected u0)) with (current_of b k u0). rewrite Hc by done.
      apply (so_same _ _ _ _ A). by intros [-> _].
    + unfold agent_digest. simpl. destruct (String.eqb_spec agent b); [congruence|]. rewrite Em, M. f_equal.
      clear -Hne. induction (match_sha256 t) as [|e l IH]; simpl; [done|]. destruct (String.eqb_spec e.1 agent) as [->|]; simpl.
      * destruct (String.eqb_spec agent b); [congruence|done].
      * by destruct (String.eqb_spec e.1 b).
Qed.

Lemma reopen_all_keeps agent at_ now l : forall t t', reopen_all agent l at_ now t = Some t' ->
  (recorded t -> recorded t') /\ current t' = current t /\ match_sha256 t' = match_sha256 t /\ hosts t' = hosts t /\ people t' = people t.
Proof.
  induction l as [|r l IH]; intros t t'; simpl; [by intros [= <-]|]. destruct (reopen_if_due _ _ _ _ _ _) as [t1|] eqn:E; [|done].
  simpl. intros (H1 & H2 & H3 & H4 & H5)%IH. pose proof (reopen_recorded _ _ _ _ _ _ _ E) as Hr.
  apply reopen_if_due_cases in E as [->|(row & why & _ & _ & ->)]; [done|]. split_and!; auto.
Qed.

Lemma row_id_seen now r : row_id (seen_now now r) = row_id r.
Proof. done. Qed.

Section digest.
Context (from_timestamp_millis : Z -> option Z) (identifier : string -> bool).
Context (digest_from_hex : string -> option (list Z)) (match_digest : list Finding -> list Z).

Lemma heartbeat_keeps agent d last now t b t' : match_heartbeat match_digest agent d last now t = Some (b, t') ->
  (recorded t -> recorded t') /\ (unique t -> unique t') /\ match_sha256 t' = match_sha256 t /\ hosts t' = hosts t /\ people t' = people t
  /\ (forall a k, view a k t' = view a k t) /\ (b = false -> stored_digest match_digest agent t = d)
  /\ forall a k, current_of a k t' = current_of a k t \/ exists r, current_of a k t = Some r /\ current_of a k t' = Some (seen_now now r).
Proof.
  unfold match_heartbeat. destruct (negb _); [done|]. destruct (bool_decide_reflect (stored_digest match_digest agent t = d)) as [Ed|]; simpl.
  2: { intros [= <- <-]. split_and!; auto. done. }
  set (p := fun r => open_row agent r && (cf_last_observed_at r <? now - HOUR_OF_US)). set (t1 := update_current p (seen_now now) t).
  assert (forall t2, current t2 = current t1 -> forall a k, current_of a k t2 = (fun r => if p r then seen_now now r else r) <$> current_of a k t) as Hc.
  { intros t2 E a k. rewrite <- (current_of_update a k p (seen_now now) t) by apply row_id_seen. unfold current_of. by rewrite E. }
  assert (forall t2, current t2 = current t1 -> match_sha256 t2 = match_sha256 t1 -> hosts t2 = hosts t1 -> people t2 = people t1 ->
    (recorded t1 -> recorded t2) -> b = false ->
    (recorded t -> recorded t2) /\ (unique t -> unique t2) /\ match_sha256 t2 = match_sha256 t /\ hosts t2 = hosts t /\ people t2 = people t
    /\ (forall a k, view a k t2 = view a k t) /\ (b = false -> stored_digest match_digest agent t = d)
    /\ forall a k, current_of a k t2 = current_of a k t \/ exists r, current_of a k t = Some r /\ current_of a k t2 = Some (seen_now now r)) as Hfin.
  { intros t2 E1 E2 E3 E4 Hr _. split_and!; auto.
    - intros Hu. unfold unique. rewrite E1. by apply unique_update.
    - intros a k. unfold view. rewrite (Hc _ E1). destruct (current_of a k t) as [r|]; [|done]. simpl. by destruct (p r).
    - intros a k. rewrite (Hc _ E1). destruct (current_of a k t) as [r|]; [|by left]. simpl. destruct (p r); [right; by exists r|by left]. }
  destruct last as [at_|].
  - destruct (reopen_all _ _ _ _ _) as [t2|] eqn:E; [|done]. simpl. intros [= <- <-].
    apply reopen_all_keeps in E as (R & C & M & H & P). by apply Hfin.
  - intros [= <- <-]. by apply Hfin.
Qed.
End digest.

(** ** A rule set switched off *)

Lemma end_unassigned_cases jt agent sets now t n t' : end_unassigned jt agent sets now t = Some (n, t') -> t' = t /\ n = 0 \/
  exists a switched, agent_of agent (hosts t) = Some a /\ switched_off jt sets a t = Some switched /\ switched <> [] /\
    let t1 := update_current (fun r => of_sets agent switched r && negb (is_some (cf_ended_at r))) (ended_row now true now) t in
    let rows := List.filter (to_note agent switched (default now (ag_health_at a)) t1) (current t1) in
    t' = add_triage_history (map (off_note agent now t1) rows) t1 /\ n = Z.of_nat (length rows).
Proof.
  unfold end_unassigned. destruct (agent_of agent (hosts t)) as [a|]; [|intros [= <- <-]; by left].
  destruct (switched_off jt sets a t) as [switched|] eqn:Es; [|done]. simpl. destruct (bool_decide_reflect (switched = [])); [intros [= <- <-]; by left|].
  intros [= <- <-]. right. by exists a, switched.
Qed.

Lemma noted_recorded l : forall t, (forall h, In h l -> off_line h = true /\ hf_from h = Some (state_of (hf_agent h) (hf_key h) t).1
  /\ hf_to h = (state_of (hf_agent h) (hf_key h) t).1) -> recorded t -> recorded (add_triage_history l t).
Proof.
  induction l as [|h l IH]; intros t Hl Hr.
  - eapply (recorded_quiet t); [done| |done]. simpl. by rewrite app_nil_r.
  - destruct (Hl h (or_introl eq_refl)) as (H1 & H2 & H3).
    assert (recorded (add_triage_history [h] t)) as Hr1 by by eapply (recorded_noted t).
    eapply (recorded_quiet (add_triage_history l (add_triage_history [h] t))); [done| |].
    + simpl. by rewrite <- app_assoc.
    + apply IH; [|done]. intros h' Hh'. by apply (Hl h' (or_intror Hh')).
Qed.

Lemma off_line_note agent now t r : off_line (off_note agent now t r) = true.
Proof. reflexivity. Qed.

Lemma end_unassigned_keeps jt agent sets now t n t' : end_unassigned jt agent sets now t = Some (n, t') ->
  (recorded t -> recorded t') /\ (unique t -> unique t').
Proof.
  intros [[-> _]|(a & switched & _ & _ & _ & -> & _)]%end_unassigned_cases; [done|]. set (t1 := update_current _ _ t). split.
  - intros Hr. apply noted_recorded; [|by eapply (recorded_quiet t)]. intros h (r & <- & _)%in_map_iff.
    split; [apply off_line_note|]. unfold off_note, state_of. simpl. by destruct (triage_of agent (cf_key r) t1).
  - intros Hu. assert (unique t1) as Hu1 by by apply unique_update. done.
Qed.

(** ** The transactions *)

Definition no_findings (p : Db) (h : AgentTables) (sets : list string) (days : list Z) : FindTables :=
  {| people := p; hosts := h; findings := []; current := []; match_sha256 := []; triage := []; triage_history := [];
     assignable := sets; partitions := days; find_log := [] |}.
(** People, hosts, assignable sets and partitions change by other transactions. *)
Definition surroundings (p : Db) (h : AgentTables) (sets : list string) (days : list Z) (t : FindTables) : FindTables :=
  {| people := p; hosts := h; findings := findings t; current := current t; match_sha256 := match_sha256 t; triage := triage t;
     triage_history := triage_history t; assignable := sets; partitions := days; find_log := find_log t |}.

Section world.
Context (from_timestamp_millis : Z -> option Z) (identifier : string -> bool).
Context (digest_from_hex : string -> option (list Z)) (match_digest : list Finding -> list Z) (validate : FindingChanges -> bool).
Context (json_text : value -> string).

Notation finding_changes := (finding_changes from_timestamp_millis identifier digest_from_hex match_digest validate).

Inductive step (t : FindTables) : FindTables -> Prop :=
  | step_store agent l origin now n t' : store_findings agent l origin now t = Some (n, t') -> step t t'
  | step_changes agent c now oldest latest : step t (finding_changes agent c now oldest latest t).2
  | step_heartbeat agent d last now b t' : match_heartbeat match_digest agent d last now t = Some (b, t') -> step t t'
  | step_unassigned agent sets now n t' : end_unassigned json_text agent sets now t = Some (n, t') -> step t t'
  | step_update agent k e c actor now o t' : actor <> "system" -> update agent k e c actor now t = Some (o, t') -> step t t'
  | step_update_many k changes scope c actor now o t' : actor <> "system" ->
      update_many k changes scope c actor now t = Some (o, t') -> step t t'
  | step_surroundings p h sets days : step t (surroundings p h sets days t).

Lemma changes_cases agent c now oldest latest t : (finding_changes agent c now oldest latest t).2 = t \/
  exists rows t', validate c = true /\ rows_of from_timestamp_millis now oldest latest (partitions t) c = inr rows
    /\ FindDb.apply from_timestamp_millis identifier digest_from_hex match_digest agent c rows now t = Some (Stored, t')
    /\ finding_changes agent c now oldest latest t = (inr tt, t').
Proof.
  unfold FindDb.finding_changes. destruct (negb (String.eqb _ _)); [by left|]. destruct (validate c); [|by left]. simpl.
  destruct (rows_of _ _ _ _ _ _) as [e|rows]; [by left|]. destruct (FindDb.apply _ _ _ _ _ _ _ _ _) as [[[] t']|] eqn:E; [|left|by left].
  - right. by exists rows, t'.
  - simpl. revert E. unfold FindDb.apply. destruct (digest_from_hex (fc_base_sha256 c)); [|by intros [= ->]].
    destruct (digest_from_hex (fc_sha256 c)); [|by intros [= ->]]. destruct (from_timestamp_millis _); [|done]. simpl.
    destruct (negb _); [done|]. destruct (_ && _); [by intros [= ->]|]. destruct (open_matches _ _ _); [|done]. simpl.
    destruct (advance _ _ _ _) as [[[open' ends]|]|]; simpl; [|by intros [= ->]|done]. destruct (negb _); [by intros [= ->]|].
    by destruct (written _ _ _ _ _ _ _).
Qed.

Lemma apply_written agent c rows now t t' :
  FindDb.apply from_timestamp_millis identifier digest_from_hex match_digest agent c rows now t = Some (Stored, t') ->
  exists open ends expected, written agent rows open ends expected now t = Some t'.
Proof.
  unfold FindDb.apply. destruct (digest_from_hex (fc_base_sha256 c)); [|done]. destruct (digest_from_hex (fc_sha256 c)) as [d|]; [|done].
  destruct (from_timestamp_millis _); [|done]. simpl. destruct (negb _); [done|]. destruct (_ && _); [done|].
  destruct (open_matches _ _ _); [|done]. simpl. destruct (advance _ _ _ _) as [[[open' ends]|]|]; simpl; [|done..].
  destruct (negb _); [done|]. destruct (written _ _ _ _ _ _ _) as [t1|] eqn:E; [|done]. intros [= <-]. by exists open', ends, d.
Qed.

Lemma save_all_unique (t t' : FindTables) : current t' = current t -> unique t -> unique t'.
Proof. unfold unique. by intros ->. Qed.

Lemma NoDup_previous {B} (l : list (string * Z)) (l' : list (string * Z * B)) :
  Forall2 (fun e x => x.1.1 = e.1) l l' -> NoDup (map fst l) -> NoDup (map (fun x => x.1.1) l').
Proof.
  intros H. assert (map (fun x => x.1.1) l' = map fst l) as ->; [|done]. induction H as [|x y l l' E _ IH]; simpl; [done|]. by rewrite E, IH.
Qed.

(** Every transaction keeps the rows unique and the triage accounted for. *)
Lemma step_keeps t t' : step t t' -> (unique t -> unique t') /\ (recorded t -> recorded t').
Proof.
  destruct 1 as [agent l origin now n t' H|agent c now oldest latest|agent d last now b t' H|agent sets now n t' H
                |agent k e c actor now o t' Ha H|k changes scope c actor now o t' Ha H|p h sets days].
  - apply store_findings_keeps in H as [H1 H2]. split; [apply H1|done].
  - destruct (changes_cases agent c now oldest latest t) as [->|(rows & t' & _ & _ & H & E)]; [done|]. rewrite E. simpl.
    apply apply_written in H as (open & ends & d & H). destruct (written_keeps _ _ _ _ _ _ _ _ H) as (H1 & H2 & _). auto.
  - apply heartbeat_keeps in H as (H1 & H2 & _). auto.
  - apply end_unassigned_keeps in H as [H1 H2]. auto.
  - apply update_cases in H as [->|(r & assigned & _ & ->)]; [done|]. split; [done|]. by apply save_recorded.
  - apply update_many_cases in H as [[-> _]|(previous & assigned & r & Hnd & _ & _ & Hg & _ & Hs & _)]; [done|]. split.
    + apply save_all_others in Hs as (_ & _ & _ & Ec & _). by apply save_all_unique.
    + refine (save_all_recorded _ _ _ _ _ _ Ha _ _ _ _ _ Hs).
      * eapply NoDup_previous; [|exact Hnd]. eapply Forall2_impl; [exact Hg|]. by intros x y (E & _).
      * apply Forall_forall. intros x Hx. apply list_elem_of_In in Hx. clear -Hg Hx.
        induction Hg as [|e y l l' (E1 & _ & E2 & _) _ IH]; [done|]. destruct Hx as [<-|Hx]; [by rewrite E1|by apply IH].
  - done.
Qed.

Inductive reachable : FindTables -> Prop :=
  | reachable_new p h sets days : reachable (no_findings p h sets days)
  | reachable_step t t' : reachable t -> step t t' -> reachable t'.

Lemma reachable_keeps t : reachable t -> unique t /\ recorded t.
Proof.
  induction 1 as [p h sets days|t t' _ [H1 H2] Hs]; [split; [constructor|done]|]. apply step_keeps in Hs as [S1 S2]. auto.
Qed.

(** The transactions while matches come by change sets: an agent that sends batches has no match open by a
    change set, a match open before and after has no transient, and a replacement has nothing changed. *)
Inductive synced_step (t : FindTables) : FindTables -> Prop :=
  | synced_store agent l origin now n t' : (forall k, view agent k t = None) -> store_findings agent l origin now t = Some (n, t') ->
      synced_step t t'
  | synced_changes agent c now oldest latest : transients_apart agent c t -> (fc_replace c = true -> fc_changed c = []) ->
      synced_step t (finding_changes agent c now oldest latest t).2
  | synced_heartbeat agent d last now b t' : match_heartbeat match_digest agent d last now t = Some (b, t') -> synced_step t t'
  | synced_update agent k e c actor now o t' : update agent k e c actor now t = Some (o, t') -> synced_step t t'
  | synced_update_many k changes scope c actor now o t' : update_many k changes scope c actor now t = Some (o, t') -> synced_step t t'
  | synced_surroundings p h sets days : synced_step t (surroundings p h sets days t).

Inductive in_sync : FindTables -> Prop :=
  | in_sync_new p h sets days : in_sync (no_findings p h sets days)
  | in_sync_step t t' : in_sync t -> synced_step t t' -> in_sync t'.

Context (digest_of : list Match -> list Z).
Hypothesis Hdigest : forall l, match_digest l = digest_of (map match_of l).

(** The digest on record is the digest of the open matches. *)
Definition agreed (t : FindTables) : Prop :=
  unique t /\ forall agent, digest_of (map snd (view_map agent t)) = stored_digest match_digest agent t.

Lemma view_map_same agent t t' : unique t -> unique t' -> (forall k, view agent k t' = view agent k t) -> view_map agent t' = view_map agent t.
Proof.
  intros Hu Hu' Hv. apply (bt_ext key_cmp); [apply view_map_sorted..|]. intros k. by rewrite !view_map_get.
Qed.

Lemma agreed_same t t' : unique t' -> (forall a k, view a k t' = view a k t) -> (forall a, agent_digest a t' = agent_digest a t) ->
  agreed t -> agreed t'.
Proof.
  intros Hu' Hv Hd [Hu Ha]. split; [done|]. intros agent. rewrite (view_map_same agent t t') by done. rewrite Ha.
  unfold stored_digest. by rewrite Hd.
Qed.

Lemma view_current t t' a k : current t' = current t -> view a k t' = view a k t.
Proof. unfold view, current_of. by intros ->. Qed.

Lemma synced_step_agreed t t' : synced_step t t' -> agreed t -> agreed t'.
Proof.
  intros Hs Ht. pose proof Ht as [Hu Ha].
  destruct Hs as [agent l origin now n t' Hv H|agent c now oldest latest Htr Hrep|agent d last now b t' H
                 |agent k e c actor now o t' H|k changes scope c actor now o t' H|p h sets days].
  - apply store_findings_keeps in H as [H _]. apply (agreed_same t); [by apply H|..|done].
    + intros a k. destruct (decide (a = agent)) as [->|Hne]; [rewrite Hv; by eapply view_none|]. unfold view.
      rewrite (so_same _ _ _ _ H); [done|]. by intros [-> _].
    + intros a. unfold agent_digest. by destruct (so_else _ _ _ _ H) as (_ & _ & -> & _).
  - destruct (changes_cases agent c now oldest latest t) as [->|(rows & t' & _ & Hr & H & E)]; [done|]. rewrite E. simpl.
    pose proof (apply_written _ _ _ _ _ _ H) as (open & ends & d & Hw).
    destruct (apply_view _ _ _ _ digest_of Hdigest agent c rows now oldest latest _ t t' Hr H Hu) as (Hu' & _ & d' & _ & Hd & Hd').
    specialize (Hd' (fun k => apart_plain agent c t k Htr Hrep)).
    split; [done|]. intros a. destruct (decide (a = agent)) as [->|Hne].
    + rewrite Hd'. unfold stored_digest. by rewrite Hd.
    + destruct (written_keeps _ _ _ _ _ _ _ _ Hw) as (_ & _ & _ & _ & Ho).
      rewrite (view_map_same a t t'); [|done|done|]; [|intros k; unfold view; by destruct (Ho a k Hne) as [-> _]].
      rewrite Ha. unfold stored_digest. by destruct (Ho a ("", "") Hne) as [_ ->].
  - apply heartbeat_keeps in H as (_ & H2 & H3 & _ & _ & H4 & _). apply (agreed_same t); auto. intros a. unfold agent_digest. by rewrite H3.
  - apply update_cases in H as [->|(r & assigned & _ & ->)]; [done|]. by apply (agreed_same t).
  - apply update_many_cases in H as [[-> _]|(previous & assigned & r & _ & _ & _ & _ & _ & H & _)]; [done|].
    apply save_all_others in H as (_ & _ & _ & Ec & Em & _). apply (agreed_same t); [by apply (save_all_unique t)|..|done].
    + intros a k'. by apply view_current.
    + intros a. unfold agent_digest. by rewrite Em.
  - by apply (agreed_same t).
Qed.

Lemma in_sync_agreed t : in_sync t -> agreed t.
Proof.
  induction 1 as [p h sets days|t t' _ IH Hs]; [|by eapply synced_step_agreed]. split; [constructor|]. intros agent.
  unfold stored_digest. simpl. by rewrite Hdigest.
Qed.
End world.
