(* ===== verification/FindProps.v ===== *)
(** * Findings: the properties *)
From S2P Require Import Prelude RustStd Text BTree Json AgentServer SignData AccessDb AgentDb AgentInv AlarmData FindData FindDb FindWorld.
From stdpp Require Import prelude strings list.
From Stdlib Require Import Ascii ZArith Lia.

Open Scope Z_scope.

(** ** Batches of observations *)

Record Delivery := { dv_agent : string; dv_findings : list StoredFinding; dv_origin : Origin; dv_now : Z }.

Fixpoint delivered (l : list Delivery) (t : FindTables) : option FindTables :=
  match l with
  | [] => Some t
  | d :: l => r ← store_findings (dv_agent d) (dv_findings d) (dv_origin d) (dv_now d) t; delivered l r.2
  end.
Definition observations (l : list Delivery) : list (string * StoredFinding) :=
  flat_map (fun d => map (pair (dv_agent d)) (dv_findings d)) l.

Definition of_finding (r : CurrentRow) (d : string * StoredFinding) : Prop := row_id r = (d.1, row_key d.2).
Definition found_id (r : FoundRow) : string * Z := (sf_finding_id (ff_finding r), ff_day r).

(** A row shows one observation. *)
Definition shows (r : CurrentRow) (f : StoredFinding) : Prop :=
  cf_last_finding_id r = sf_finding_id f /\ cf_rule_version r = sf_rule_version f /\ cf_severity r = sf_severity f
  /\ cf_scan_id r = sf_scan_id f /\ cf_confidence r = sf_confidence f /\ cf_message r = sf_message f
  /\ cf_evidence r = sf_evidence f /\ cf_detection r = sf_detection f /\ cf_last_observed_at r = sf_observed_at f
  /\ cf_last_observed_day r = date_naive (sf_observed_at f).

Record kept (log : list (string * StoredFinding)) (t : FindTables) : Prop := {
  k_unique : unique t;
  k_ids : NoDup (map found_id (findings t));
  k_found : forall d, In d log -> In (sf_finding_id d.2, date_naive (sf_observed_at d.2)) (map found_id (findings t));
  k_row : forall d, In d log -> exists r, In r (current t) /\ of_finding r d;
  k_span : forall r d, In r (current t) -> In d log -> of_finding r d ->
    cf_first_observed_at r <= sf_observed_at d.2 <= cf_last_observed_at r;
  k_first : forall r, In r (current t) -> exists d, In d log /\ of_finding r d /\ cf_first_observed_at r = sf_observed_at d.2;
  k_last : forall r, In r (current t) -> exists d, In d log /\ of_finding r d /\ shows r d.2;
}.

Lemma kept_upsert log agent f origin now t t' : kept log t -> upsert_current agent f origin now t = Some t' ->
  In (sf_finding_id f, date_naive (sf_observed_at f)) (map found_id (findings t)) -> kept (log ++ [(agent, f)]) t'.
Proof.
  intros [H1 H2 H3 H4 H5 H6 H7] H Hf. pose proof (upsert_rows _ _ _ _ _ _ H) as Hst.
  assert (forall d, In d (log ++ [(agent, f)]) -> In (sf_finding_id d.2, date_naive (sf_observed_at d.2)) (map found_id (findings t))) as Hfound
    by (intros d [Hd| ->]%in_snoc; auto).
  assert (In (agent, f) (log ++ [(agent, f)])) as Hnew by (apply in_snoc; auto).
  assert (forall d, In d log -> In d (log ++ [(agent, f)])) as Hold by (intros d Hd; apply in_snoc; auto).
  pose proof (so_unique _ _ _ _ Hst H1) as Hu'. revert H Hu'. clear Hst. unfold upsert_current.
  destruct (current_of agent (row_key f) t) as [r0|] eqn:E; simpl.
  - intros [= <-] Hu'. apply current_of_spec in E as [Hin0 E0].
    set (g := fun r => if at_current agent (row_key f) r then observed f origin now r else r).
    assert (forall r, In r (current t) -> g r = r /\ row_id r <> (agent, row_key f) \/ g r = observed f origin now r /\ of_finding r (agent, f)) as Hg.
    { intros r _. unfold g. destruct (at_current agent (row_key f) r) eqn:Ea; [right|left]; (split; [done|]).
      - by apply at_current_spec in Ea.
      - intros Er. apply at_current_spec in Er. congruence. }
    assert (forall r d, of_finding (g r) d <-> of_finding r d) as Hof by (intros r d; unfold g; by destruct (at_current _ _ r)).
    split; [done|done|done|..].
    + intros d [Hd| ->]%in_snoc.
      * destruct (H4 d Hd) as (r & Hr & Ho). exists (g r). split; [by apply (in_map g)|by apply Hof].
      * exists (g r0). split; [by apply (in_map g)|by apply Hof].
    + intros r' d (r & <- & Hr)%in_map_iff Hd Ho. change (of_finding (g r) d) in Ho. rewrite Hof in Ho.
      change (if at_current agent (row_key f) r then observed f origin now r else r) with (g r).
      destruct (Hg r Hr) as [[-> Hne]|[-> Ho']].
      * apply in_snoc in Hd as [Hd| ->]; [by apply H5|done].
      * simpl. apply in_snoc in Hd as [Hd| ->]; [specialize (H5 r d Hr Hd Ho); lia|simpl; lia].
    + intros r' (r & <- & Hr)%in_map_iff. change (if at_current agent (row_key f) r then observed f origin now r else r) with (g r).
      destruct (H6 r Hr) as (d & Hd & Ho & Ed). destruct (Hg r Hr) as [[Eg _]|[Eg Ho']].
      * exists d. rewrite Eg. auto.
      * destruct (Z.min_spec (cf_first_observed_at r) (sf_observed_at f)) as [[_ Em]|[_ Em]]; [exists d|exists (agent, f)];
          rewrite Hof, Eg; simpl; rewrite Em; auto.
    + intros r' (r & <- & Hr)%in_map_iff. change (if at_current agent (row_key f) r then observed f origin now r else r) with (g r).
      destruct (H7 r Hr) as (d & Hd & Ho & Hs). destruct (Hg r Hr) as [[Eg _]|[Eg Ho']].
      * exists d. rewrite Eg. auto.
      * destruct (cf_last_observed_at r <? sf_observed_at f) eqn:El; [exists (agent, f)|exists d]; rewrite Hof, Eg; (split; [auto|]);
          (split; [done|]); unfold shows, observed; simpl; rewrite El.
        -- split_and!; try done. lia.
        -- destruct Hs as (? & ? & ? & ? & ? & ? & ? & ? & Hlast & ?). split_and!; try done. lia.
  - destruct (is_some _); [|done]. intros [= <-] Hu'. set (r0 := fresh_row agent f origin now).
    assert (of_finding r0 (agent, f)) as Ho0 by done.
    assert (forall r, In r (current t) -> ~ of_finding r (agent, f)) as Hne by (intros r Hr; by apply (current_of_none _ _ _ _ E)).
    split; [done|done|done|..].
    + intros d [Hd| ->]%in_snoc.
      * destruct (H4 d Hd) as (r & Hr & Ho). exists r. split; [apply in_snoc; by left|done].
      * exists r0. split; [apply in_snoc; by right|done].
    + intros r d [Hr| ->]%in_snoc [Hd| ->]%in_snoc Ho; [by apply H5|by apply Hne in Ho|..|simpl; lia].
      exfalso. destruct (H4 d Hd) as (r & Hr & Hod). apply (Hne r Hr). unfold of_finding in *. congruence.
    + intros r [Hr| ->]%in_snoc; [|by exists (agent, f)]. destruct (H6 r Hr) as (d & Hd & Ho). exists d. auto.
    + intros r [Hr| ->]%in_snoc; [|exists (agent, f); by split_and!]. destruct (H7 r Hr) as (d & Hd & Ho). exists d. auto.
Qed.

Lemma kept_same log t t' : findings t' = findings t -> current t' = current t -> kept log t -> kept log t'.
Proof. intros Ef Ec [H1 H2 H3 H4 H5 H6 H7]. split; rewrite ?Ef, ?Ec; try done. unfold unique. by rewrite Ec. Qed.

Lemma kept_store log agent f origin now t n t' : kept log t -> store_finding agent f origin now t = Some (n, t') ->
  kept (log ++ [(agent, f)]) t'.
Proof.
  intros Hk. unfold store_finding. destruct (insert_finding agent f origin now t) as [[b t1]|] eqn:E1; [|done]. simpl.
  destruct (upsert_current agent f origin now t1) as [t2|] eqn:E2; [|done]. simpl. intros H.
  assert (kept log t1 /\ In (sf_finding_id f, date_naive (sf_observed_at f)) (map found_id (findings t1))) as [Hk1 Hf].
  { revert E1. unfold insert_finding. destruct (_ || _); [done|]. destruct (existsb _ (findings t)) eqn:Ex; intros [= <- <-].
    - split; [done|]. apply existsb_exists in Ex as (r & Hr & [E%String.eqb_eq Ed%Z.eqb_eq]%andb_prop). apply in_map_iff. exists r.
      split; [|done]. unfold found_id. by rewrite E, Ed.
    - split; [|simpl; rewrite map_app; apply in_snoc; by right]. destruct Hk as [H1 H2 H3 H4 H5 H6 H7]. split; try done.
      + simpl. rewrite map_app. apply NoDup_snoc; [done|]. intros (r & Er & Hr)%list_elem_of_In%in_map_iff. injection Er as Ei Ed.
        apply not_true_iff_false in Ex. apply Ex, existsb_exists. exists r. split; [done|].
        rewrite Ei, Ed, String.eqb_refl. simpl. apply Z.eqb_refl.
      + intros d Hd. simpl. rewrite map_app. apply in_app_iff. left. by apply H3. }
  pose proof (kept_upsert _ _ _ _ _ _ _ Hk1 E2 Hf) as Hk2.
  destruct b; [|by injection H as <- <-]. destruct (reopen_on_observation _ _ _ _ _ _) as [t3|] eqn:E3; [|done]. injection H as <- <-.
  apply reopen_observation_is in E3 as [->|(v & [->|(row & why & _ & _ & ->)]%reopen_if_due_cases)]; [done..|].
  by apply (kept_same _ t2).
Qed.

Lemma kept_batch agent origin now l : forall log t n t', kept log t -> store_findings_in agent l origin now t = Some (n, t') ->
  kept (log ++ map (pair agent) l) t'.
Proof.
  induction l as [|f l IH]; intros log t n t' Hk; simpl; [intros [= <- <-]; by rewrite app_nil_r|].
  destruct (store_finding agent f origin now t) as [[n1 t1]|] eqn:E1; [|done]. simpl.
  destruct (store_findings_in agent l origin now t1) as [[n2 t2]|] eqn:E2; [|done]. simpl. intros [= <- <-].
  change ((agent, f) :: map (pair agent) l) with ([(agent, f)] ++ map (pair agent) l). rewrite app_assoc.
  eapply IH; [|exact E2]. by eapply kept_store.
Qed.

Lemma kept_delivered l : forall log t t', kept log t -> delivered l t = Some t' -> kept (log ++ observations l) t'.
Proof.
  induction l as [|d l IH]; intros log t t' Hk; simpl; [intros [= <-]; by rewrite app_nil_r|].
  destruct (store_findings _ _ _ _ _) as [[n t1]|] eqn:E; [|done]. simpl. rewrite app_assoc. apply IH. by eapply kept_batch.
Qed.

(** After any batches of observations, in whatever order and however often they come, every observation is
    held exactly once (per id and day), every rule that an agent reported has one current row, its span is
    exactly from the first to the last observation of it, and it shows the content of an observation of that
    last time. *)
Theorem observations_kept p h sets days l t : delivered l (no_findings p h sets days) = Some t ->
  unique t /\ NoDup (map found_id (findings t))
  /\ (forall d, In d (observations l) -> In (sf_finding_id d.2, date_naive (sf_observed_at d.2)) (map found_id (findings t)))
  /\ (forall d, In d (observations l) -> exists r, In r (current t) /\ of_finding r d)
  /\ forall r, In r (current t) ->
       (forall d, In d (observations l) -> of_finding r d -> cf_first_observed_at r <= sf_observed_at d.2 <= cf_last_observed_at r)
       /\ (exists d, In d (observations l) /\ of_finding r d /\ cf_first_observed_at r = sf_observed_at d.2)
       /\ exists d, In d (observations l) /\ of_finding r d /\ shows r d.2.
Proof.
  intros H. assert (kept [] (no_findings p h sets days)) as Hk by (split; simpl; (apply NoDup_nil_2 || by intros; exfalso)).
  destruct (kept_delivered _ _ _ _ Hk H) as [H1 H2 H3 H4 H5 H6 H7]. simpl in *. split_and!; try done.
  intros r Hr. split; [|split; auto]. intros d Hd Ho. by apply H5.
Qed.

(** ** Change sets *)

Lemma start_all_ok l : forall open, bt_sorted key_cmp open -> (forall f, In f l -> bt_get key_cmp (wire_key f) open = None) ->
  NoDup (map wire_key l) -> start_all l open = Some (inserted l open).
Proof.
  induction l as [|f l IH]; intros open Hs Hn Hnd; simpl; [done|]. apply NoDup_cons in Hnd as [Hf Hnd].
  unfold bt_contains. rewrite Hn by (by left). apply IH; [by apply (bt_alter_sorted key_cmp)| |done].
  intros g Hg. unfold bt_insert. rewrite (bt_get_alter_ne key_cmp); [apply Hn; by right|]. rewrite (cmp_Eq_iff key_cmp). intros E.
  apply Hf, list_elem_of_In. rewrite <- E. by apply in_map.
Qed.

Lemma change_all_ok l : forall open, bt_sorted key_cmp open -> (forall f, In f l -> is_some (bt_get key_cmp (wire_key f) open) = true) ->
  change_all l open = Some (inserted l open).
Proof.
  induction l as [|f l IH]; intros open Hs Hn; simpl; [done|]. pose proof (Hn f (or_introl eq_refl)) as Hf. unfold bt_contains.
  destruct (bt_get key_cmp (wire_key f) open); [|done]. simpl. apply IH; [by apply (bt_alter_sorted key_cmp)|].
  intros g Hg. unfold bt_insert. destruct (decide (wire_key g = wire_key f)) as [->|Hne].
  - by rewrite (bt_get_alter_eq key_cmp).
  - rewrite (bt_get_alter_ne key_cmp); [apply Hn; by right|]. by rewrite (cmp_Eq_iff key_cmp).
Qed.

Lemma end_all_ok ms l : forall open ends, (forall e, In e l -> is_some (bt_get key_cmp (em_key e) open) = true) ->
  NoDup (map em_key l) -> end_all ms l open ends <> Some None.
Proof.
  induction l as [|e l IH]; intros open ends Hn Hnd; simpl; [done|]. apply NoDup_cons in Hnd as [He Hnd].
  pose proof (Hn e (or_introl eq_refl)) as Hf. unfold bt_contains. destruct (bt_get key_cmp (em_key e) open); [|done]. simpl.
  destruct (ms _) as [at_|]; [|done]. simpl. apply IH; [|done]. intros g Hg. rewrite bt_remove_get. case_bool_decide as E; [|apply Hn; by right].
  exfalso. apply He, list_elem_of_In. rewrite E. by apply in_map.
Qed.

Section changes.
Context (from_timestamp_millis : Z -> option Z) (identifier : string -> bool).
Context (digest_from_hex : string -> option (list Z)) (match_digest : list Finding -> list Z) (digest_of : list Match -> list Z).
Context (validate : FindingChanges -> bool) (json_text : value -> string).
(** The digest covers a match's rule, version, severity, message and evidence, and nothing else. *)
Hypothesis Hdigest : forall l, match_digest l = digest_of (map match_of l).

Notation finding_changes := (finding_changes from_timestamp_millis identifier digest_from_hex match_digest validate).
Notation in_sync := (in_sync from_timestamp_millis identifier digest_from_hex match_digest validate).
Notation reachable := (reachable from_timestamp_millis identifier digest_from_hex match_digest validate json_text).

(** C15: a change set that is accepted leaves exactly the open matches it says: what was open before, less what
    ended, with what started and changed as reported, or for a replacement exactly what it lists. This holds
    of every match the document says one thing of ([plain]: a transient of a match that was open and stays so
    untouched, or a changed one in a replacement, is written over that match, see [transient_over_open]). The
    digest on record is the one the agent sent, and the one of those matches when they are all so; and no
    other agent's matches or digest change. Observations stored with it open or close nothing by themselves. *)
Theorem changes_exact agent c now oldest latest t t' : unique t ->
  finding_changes agent c now oldest latest t = (inr tt, t') ->
  (forall k, plain agent c t k -> view agent k t' = open_after c (fun k => view agent k t) k)
  /\ (exists d, digest_from_hex (fc_sha256 c) = Some d /\ agent_digest agent t' = Some d
       /\ ((forall k, plain agent c t k) -> digest_of (map snd (view_map agent t')) = d))
  /\ forall b k, b <> agent -> current_of b k t' = current_of b k t /\ agent_digest b t' = agent_digest b t.
Proof.
  intros Hu H. destruct (changes_cases from_timestamp_millis identifier digest_from_hex match_digest validate agent c now oldest latest t)
    as [E|(rows & t1 & _ & Hr & Ha & E)]; rewrite H in *.
  - revert H. simpl in E. subst t'. unfold FindDb.finding_changes. destruct (_ || _); [done|].
    destruct (rows_of _ _ _ _ _ _) as [|rows] eqn:Er; [done|]. destruct (FindDb.apply _ _ _ _ _ _ _ _ _) as [[[] t1]|] eqn:E; [|done..].
    intros [= ->]. destruct (apply_view _ _ _ _ digest_of Hdigest agent c rows now oldest latest _ t t Er E Hu) as (_ & Hv & Hd).
    split; [done|]. split; [done|]. done.
  - injection E as <-. destruct (apply_view _ _ _ _ digest_of Hdigest agent c rows now oldest latest _ t t' Hr Ha Hu) as (_ & Hv & Hd).
    split; [done|]. split; [done|]. apply apply_written in Ha as (open & ends & d & Hw). by apply (written_keeps _ _ _ _ _ _ _ _ Hw).
Qed.

(** An agent in step is never asked to resend: when the recorded digest is the base of the change set, what
    started was not open and each is named once, what changed or ended is open, and the announced digest is
    the one of the matches so reached, the answer is not a resync. *)
Theorem in_step_never_resyncs agent c now oldest latest t base m : unique t ->
  fc_replace c = false -> digest_from_hex (fc_base_sha256 c) = Some base -> base = stored_digest match_digest agent t ->
  NoDup (map wire_key (fc_started c)) -> (forall f, In f (fc_started c) -> view agent (wire_key f) t = None) ->
  (forall f, In f (fc_changed c) -> is_some (view agent (wire_key f) t) = true \/ In (wire_key f) (map wire_key (fc_started c))) ->
  NoDup (map em_key (fc_ended c)) ->
  (forall e, In e (fc_ended c) -> is_some (view agent (em_key e) t) = true \/ In (em_key e) (map wire_key (fc_started c))) ->
  bt_sorted key_cmp m -> (forall k, bt_get key_cmp k m = open_after c (fun k => view agent k t) k) ->
  digest_from_hex (fc_sha256 c) = Some (digest_of (map snd m)) ->
  (finding_changes agent c now oldest latest t).1 <> inl FindingsResync.
Proof.
  intros Hu Hrep Hbase -> Hnd Hst Hch Hnde Hen Hm Hget Hsha. unfold FindDb.finding_changes.
  destruct (_ || _); [done|]. destruct (rows_of _ _ _ _ _ _) as [e|rows] eqn:Er.
  { simpl. intros [= ->]. revert Er. unfold rows_of.
    assert (forall l, collected (changed_row from_timestamp_millis now oldest latest (partitions t)) l <> inl FindingsResync) as H1.
    { induction l as [|f l IH]; simpl; [done|]. unfold changed_row at 1. destruct (finding _ f _ _ _) as [why|]; [destruct (String.eqb _ _); [done|];
        destruct (finding _ (observed_now now f) _ _ _); [done|]|]; by destruct (collected _ l). }
    assert (forall l, collected (transient_row from_timestamp_millis now oldest latest (partitions t)) l <> inl FindingsResync) as H2.
    { induction l as [|f l IH]; simpl; [done|]. unfold transient_row at 1. destruct (from_timestamp_millis _); [|done].
      specialize (H1 [tm_finding f]). simpl in H1. destruct (changed_row _ _ _ _ _ _); [congruence|]. by destruct (collected _ l). }
    destruct (collected _ (fc_started c)) eqn:C1; [intros [= ->]; by apply H1 in C1|].
    destruct (collected _ (fc_changed c)) eqn:C2; [intros [= ->]; by apply H1 in C2|].
    destruct (collected _ (fc_transient c)) eqn:C3; [intros [= ->]; by apply H2 in C3|done]. }
  unfold FindDb.apply. rewrite Hbase, Hsha. destruct (from_timestamp_millis (fc_scanned_at_unix_ms c)) as [at_|]; [|done]. simpl.
  destruct (negb _); [done|]. rewrite Hrep. simpl. rewrite bool_decide_eq_true_2 by done. simpl.
  destruct (open_matches identifier agent t) as [open|] eqn:Eo; [|done]. simpl.
  pose proof (open_matches_sorted _ _ _ _ Eo) as Hso.
  assert (forall k, match_of <$> bt_get key_cmp k open = view agent k t) as Hview.
  { intros k. rewrite <- matches_get, (open_matches_map _ _ _ _ Eo). by apply view_map_get. }
  assert (forall k, is_some (bt_get key_cmp k open) = is_some (view agent k t)) as Hsome by (intros k; rewrite <- Hview; by destruct (bt_get _ _ _)).
  destruct (advance from_timestamp_millis c at_ open) as [[[open' ends]|]|] eqn:Ead; simpl; [|exfalso|done].
  - destruct (advance_spec _ _ _ _ _ _ Hso Ead) as (Hso' & Hopen & _).
    assert (map (prod_map id match_of) open' = m) as Em.
    { apply (bt_ext key_cmp); [by apply matches_sorted|done|]. intros k. rewrite matches_get, Hopen, Hget. unfold open_after. rewrite Hrep.
      destruct (existsb _ _); [done|]. destruct (last_at _ _ _); [done|]. apply Hview. }
    rewrite bool_decide_eq_true_2; [|rewrite Hdigest, <- Em, !map_map; done]. simpl. by destruct (written _ _ _ _ _ _ _).
  - revert Ead. unfold advance. rewrite Hrep.
    assert (forall l (o : Open) k, bt_sorted key_cmp o -> is_some (bt_get key_cmp k o) = true \/ In k (map wire_key l) ->
      is_some (bt_get key_cmp k (inserted l o)) = true) as Hin.
    { intros l o k Ho H. rewrite inserted_get by done. destruct (last_at wire_key k l) eqn:El; [done|]. apply last_at_None in El. by destruct H. }
    rewrite start_all_ok; [|done| |done].
    2: { intros f Hf. specialize (Hst f Hf). rewrite <- Hview in Hst. by destruct (bt_get _ _ open). }
    rewrite change_all_ok; [|by apply inserted_sorted|].
    2: { intros f Hf. apply Hin; [done|]. rewrite Hsome. auto. }
    apply end_all_ok; [|done]. intros e He. apply Hin; [by apply inserted_sorted|]. left. apply Hin; [done|]. rewrite Hsome. auto.
Qed.

(** As long as the matches of an agent come by change sets, the digest on record is the digest of its open
    matches, whatever heartbeats, change sets, triage and other agents' batches come in between; so a
    heartbeat that is not answered with a resync means that the agent and the platform have the same
    matches. *)
Theorem digest_agrees agent t d last now t' : in_sync t ->
  digest_of (map snd (view_map agent t)) = stored_digest match_digest agent t
  /\ (match_heartbeat match_digest agent d last now t = Some (false, t') ->
      digest_of (map snd (view_map agent t)) = d /\ forall k, view agent k t' = view agent k t).
Proof.
  intros H. apply (in_sync_agreed _ _ _ _ _ digest_of Hdigest) in H as [Hu Ha]. split; [apply Ha|].
  intros (_ & _ & _ & _ & _ & Hv & Hd & _)%heartbeat_keeps. split; [|intros; apply Hv]. rewrite Ha. by apply Hd.
Qed.

(** Over every history of batches, change sets, heartbeats, rule sets switched off and changes by people,
    one by one or many at once, the triage history of a finding accounts for its triage: played from no
    triage, each line starts from the state the lines before it lead to, together they give its state and its
    version, and the note of a rule set switched off changes neither. *)
Theorem finding_triage_accounted a k t : reachable t ->
  replay (history_of a k (triage_history t)) ("open", 0) = Some (state_of a k t).
Proof. intros (_ & H)%reachable_keeps. apply H. Qed.
End changes.

(** ** Many hosts at once *)

Fixpoint one_by_one (k : Key) (changes : list (string * Z)) (c : TriageChange) (actor : string) (now : Z) (t : FindTables)
    : option (list TriageUpdate * FindTables) :=
  match changes with
  | [] => Some ([], t)
  | (agent, expected) :: changes =>
      u ← update agent k expected c actor now t;
      r ← one_by_one k changes c actor now u.2;
      Some (u.1 :: r.1, r.2)
  end.

Lemma latest_current k ids scope t a v : unique t -> find (fun y => String.eqb y.1 a) (latest_rows k ids scope t) = Some (a, v) ->
  exists r, current_of a k t = Some r /\ cf_rule_version r = v.
Proof.
  intros Hu [Hin _]%find_some. apply in_map_iff in Hin as (r & [= <- <-] & [Hr Hp]%filter_In). exists r. split; [|done].
  apply andb_prop in Hp as [[Ek%bool_decide_eq_true _]%andb_prop _]. rewrite <- Ek. by apply current_of_in.
Qed.

(** An item of a bulk change, ready to save. *)
Definition ready (k : Key) (c : TriageChange) (t : FindTables) (e : string * Z) (x : string * Z * TriageRecord) : Prop :=
  x.1.1 = e.1 /\ (exists row, current_of e.1 k t = Some row /\ cf_rule_version row = x.1.2)
  /\ x.2 = previous_record e.1 k x.1.2 t /\ transition_allowed (rc_state x.2) (tc_state c) = true /\ rc_version x.2 = e.2.

Lemma ready_after_save k c t a v assigned actor now p changes previous : Forall2 (ready k c t) changes previous -> a ∉ map fst changes ->
  Forall2 (ready k c (save a k v c assigned actor now p t)) changes previous.
Proof.
  induction 1 as [|e x changes previous (H1 & H2 & H3 & H4 & H5) _ IH]; [constructor|]. simpl. intros [Hne Ha]%not_elem_of_cons.
  constructor; [|auto]. split; [done|]. split; [done|]. split; [|done]. rewrite H3. unfold previous_record. rewrite triage_of_save.
  case_bool_decide as E; [|done]. by injection E as <-.
Qed.

Lemma save_all_one_by_one k c assigned actor now : fields_valid (tc_state c) (tc_note c) (tc_accepted_until c) now = true ->
  closing (tc_state c) && negb (is_some (tc_note c)) = false -> forall changes previous t r t',
  NoDup (map fst changes) -> wanted_assignee c t = Some assigned -> Forall2 (ready k c t) changes previous ->
  save_all k c assigned actor now previous t = Some (r, t') -> one_by_one k changes c actor now t = Some (map Updated r, t').
Proof.
  intros Hf Hc changes. induction changes as [|[a e] changes IH]; intros previous t r t' Hnd Hw H; inversion H as [|? x ? prev Hx Hall]; subst.
  { simpl. by intros [= <- <-]. }
  destruct x as [[a' v] p], Hx as (Ha' & (row & Er & Ev) & Ep & Ht & Ee). simpl in Ha', Er, Ev, Ep, Ht, Ee. subst a'.
  simpl in Hnd. apply NoDup_cons in Hnd as [Ha Hnd].
  simpl. unfold update. rewrite Hf, Er. simpl. rewrite Ev, <- Ep. rewrite (proj2 (Z.eqb_eq _ _) Ee), Ht, Hc, Hw. simpl.
  destruct (changes_record c (fst <$> assigned) p); simpl.
  - destruct (v <? 0); [done|]. destruct (save_all _ _ _ _ _ prev _) as [[r1 t1]|] eqn:E; [|done]. simpl. intros [= <- <-].
    pose proof (ready_after_save k c t a v (fst <$> assigned) actor now p _ _ Hall Ha) as Hall'.
    by rewrite (IH prev (save a k v c (fst <$> assigned) actor now p t) r1 t1 Hnd Hw Hall' E).
  - destruct (save_all _ _ _ _ _ prev _) as [[r1 t1]|] eqn:E; [|done]. simpl. intros [= <- <-]. by rewrite (IH prev _ _ _ Hnd Hw Hall E).
Qed.

(** What the group change checks of the fields, against what every change checks. *)
Lemma bulk_fields changes c now : bulk_fields_valid changes c now = true ->
  fields_valid (tc_state c) (tc_note c) (tc_accepted_until c) now = true
  \/ exists u, tc_state c = "accepted_risk" /\ tc_accepted_until c = Some u /\ now + 366 * DAY_US < u.
Proof.
  unfold bulk_fields_valid, fields_valid. intros H. repeat (apply andb_prop in H as [H ?]).
  destruct (tc_accepted_until c) as [u|] eqn:Eu; [|left; by rewrite !andb_true_iff].
  destruct (Z.leb_spec u (now + 366 * DAY_US)).
  - left. rewrite !andb_true_iff. by split_and!.
  - right. exists u. split_and!; [|done|done]. apply String.eqb_eq. by apply eqb_prop in H2.
Qed.

(** C16: changing the triage of many hosts at once either changes nothing, or is the same as changing them one by
    one, in the order given: the same answers, the same tables, history and audit lines; or it accepts a risk
    for more than 366 days, which a single change refuses and the group change does not check
    ([bulk_takes_long_risk]). *)
Theorem bulk_is_one_by_one k changes scope c actor now t o t' : unique t ->
  update_many k changes scope c actor now t = Some (o, t') ->
  (exists r, o = BulkUpdated r /\ one_by_one k changes c actor now t = Some (map Updated r, t'))
  \/ (t' = t /\ forall r, o <> BulkUpdated r)
  \/ exists u, tc_state c = "accepted_risk" /\ tc_accepted_until c = Some u /\ now + 366 * DAY_US < u.
Proof.
  intros Hu [[-> Hn]|(previous & assigned & r & Hnd & Hv & Hw & Hg & Hver & Hs & ->)]%update_many_cases; [by right; left|].
  destruct (bulk_fields _ _ _ Hv) as [Hf|H]; [|by right; right]. left. exists r.
  split; [done|]. apply (save_all_one_by_one _ _ assigned) with (previous := previous); try done.
  - unfold bulk_fields_valid in Hv. apply andb_prop in Hv as [_ Hv]. by apply negb_true_iff.
  - assert (forall ids, Forall2 (fun e x => x.1.1 = e.1 /\ find (fun y => String.eqb y.1 e.1) (latest_rows k ids scope t) = Some (e.1, x.1.2)
        /\ x.2 = previous_record e.1 k x.1.2 t /\ transition_allowed (rc_state x.2) (tc_state c) = true) changes previous ->
      Forall2 (ready k c t) changes previous) as Hall; [|by eapply Hall].
    intros ids Hg'. clear Hg Hs Hnd Hv. induction Hg' as [|e x l l' (E1 & E2 & E3 & E4) _ IH]; [constructor|]. inversion Hver; subst.
    constructor; [|auto]. split_and!; try done. by eapply latest_current.
Qed.

(** ** A rule set switched off *)

Lemma update_none p f t : (forall r, In r (current t) -> p r = false) -> update_current p f t = t.
Proof.
  intros Hp. unfold update_current, set_current. assert (map (fun r => if p r then f r else r) (current t) = current t) as ->; [|by destruct t].
  rewrite <- (map_id (current t)) at 2. apply map_ext_in. intros r Hr. by rewrite Hp.
Qed.

Lemma noted_add agent k e l t : noted agent k e (add_triage_history l t)
  = noted agent k e t || existsb (fun h => String.eqb (hf_agent h) agent && bool_decide (hf_key h = k)
                                           && bool_decide (hf_note h = Some NOT_ASSIGNED_NOTE) && (e <=? hf_at h)) l.
Proof. apply existsb_app. Qed.

(** A report that a host stopped running a rule set takes effect once: handled again at any later time, with the
    report the host has on record still the same, it ends nothing more and writes no further note. *)
Theorem unassigned_once json_text agent sets now later t n t' : now <= later ->
  (forall r e, In r (current t) -> cf_end_recorded_at r = Some e -> e <= now) ->
  end_unassigned json_text agent sets now t = Some (n, t') ->
  end_unassigned json_text agent sets later t' = Some (0, t').
Proof.
  intros Hle Hrec. unfold end_unassigned at 1. destruct (agent_of agent (hosts t)) as [a|] eqn:Ea.
  2: { intros [= <- <-]. unfold end_unassigned. by rewrite Ea. }
  destruct (switched_off json_text sets a t) as [switched|] eqn:Esw; [|done]. cbn [mbind option_bind]. destruct (bool_decide_reflect (switched = [])) as [->|Hne].
  { intros [= <- <-]. unfold end_unassigned. by rewrite Ea, Esw. }
  set (p := fun r => of_sets agent switched r && negb (is_some (cf_ended_at r))). set (t1 := update_current p (ended_row now true now) t).
  set (rows := List.filter (to_note agent switched (default now (ag_health_at a)) t1) (current t1)). intros [= <- <-].
  set (t2 := add_triage_history (map (off_note agent now t1) rows) t1).
  unfold end_unassigned. change (hosts t2) with (hosts t). rewrite Ea.
  change (switched_off json_text sets a t2) with (switched_off json_text sets a t). rewrite Esw. cbn [mbind option_bind]. rewrite bool_decide_eq_false_2 by done.
  assert (forall r e, In r (current t1) -> cf_end_recorded_at r = Some e -> e <= now) as Hrec1.
  { intros r' e (r & <- & Hr)%in_map_iff. destruct (p r); simpl; [intros [= <-]; lia|by apply Hrec]. }
  rewrite (update_none _ _ t2).
  2: { intros r' (r & <- & Hr)%in_map_iff. destruct (p r) eqn:Ep; [|done]. unfold of_sets. simpl. by rewrite andb_false_r. }
  assert (List.filter (to_note agent switched (default later (ag_health_at a)) t2) (current t2) = []) as ->.
  2: { simpl. unfold add_triage_history at 1. rewrite app_nil_r. done. }
  apply filter_none. intros r Hr. apply not_true_iff_false. intros H. unfold to_note in H. apply andb_prop in H as [Hs H].
  destruct (cf_end_recorded_at r) as [e|] eqn:Ee; [|done]. apply andb_prop in H as [Hsince Hno]. apply negb_true_iff in Hno.
  specialize (Hrec1 r e Hr Ee).
  unfold t2 in Hno. rewrite noted_add in Hno. apply orb_false_iff in Hno as [Hno1 Hno].
  assert (In r rows) as Hin.
  { apply filter_In. split; [done|]. unfold to_note. rewrite Hs, Ee, Hno1. simpl. rewrite andb_true_r.
    destruct (ag_health_at a); simpl in *; lia. }
  apply not_true_iff_false in Hno. apply Hno. apply existsb_exists. exists (off_note agent now t1 r). split; [by apply in_map|].
  simpl. rewrite String.eqb_refl, bool_decide_eq_true_2 by done. simpl. lia.
Qed.

(** ** A concrete history *)

Definition ex_ms (n : Z) : option Z := Some (n * 1000).
Definition ex_identifier (s : string) : bool := negb (is_empty s).
Definition ex_from_hex (s : string) : option (list Z) := Some (bytes s).
Definition ex_digest_of (l : list Match) : list Z := flat_map (fun m => bytes (ma_rule_id m) ++ [ma_rule_version m]) l.
Definition ex_match_digest (l : list Finding) : list Z := ex_digest_of (map match_of l).
Definition ex_validate (c : FindingChanges) : bool := true.
Definition ex_json_text (v : value) : string := "".
Lemma ex_digest l : ex_match_digest l = ex_digest_of (map match_of l).
Proof. done. Qed.

Definition ex_host (id : string) : AgentRow :=
  {| ag_id := id; ag_status := SActive; ag_enrolled_at := 0; ag_revoked_at := None; ag_last_seen_at := None;
     ag_scanner_version := None; ag_capabilities := []; ag_hostname := None; ag_last_address := None; ag_health := None;
     ag_health_previous := None; ag_health_at := None; ag_hardening_facts_ok_at := None; ag_claimed_agent_id := None |}.
Definition ex_hosts : AgentTables :=
  {| agents := [ex_host "agent.h1"; ex_host "agent.h2"]; certificates := []; enrollment_tokens := []; token_uses := [];
     standing_token_secret := []; idempotency := []; agent_presence := []; group_membership := []; agent_log := [] |}.
Definition ex_people : Db :=
  {| users := []; accounts := []; roles := []; bindings := []; dashboards := []; sessions := []; audit_log := [];
     console_permissions := []; asset_groups := []; draws := 0 |}.
Definition ex_start : FindTables := no_findings ex_people ex_hosts ["base"] [1; 2].

Definition ex_finding (rule : string) (version ms : Z) : Finding :=
  {| fi_detection := None; fi_finding_id := "f." +:+ rule; fi_scan_id := "s1"; fi_rule_set_id := Some "base"; fi_rule_id := rule;
     fi_rule_version := version; fi_observed_at_unix_ms := 86400000 + ms; fi_severity := High; fi_confidence := 90;
     fi_message := "m"; fi_evidence := ["e"] |}.
Definition ex_doc (base sha : list Z) (replace : bool) (started changed : list Finding) (ended : list EndedMatch)
    (transient : list TransientMatch) : FindingChanges :=
  {| fc_agent_id := "agent.h1"; fc_base_sha256 := of_bytes base; fc_sha256 := of_bytes sha; fc_replace := replace;
     fc_scanned_at_unix_ms := 86400000; fc_started := started; fc_changed := changed; fc_ended := ended; fc_transient := transient |}.
(** Everything: a and b; then c started, b ended, a changed and d came and went. *)
Definition ex_all : FindingChanges := ex_doc [] [97; 1; 98; 1] true [ex_finding "a" 1 0; ex_finding "b" 1 0] [] [] [].
Definition ex_more : FindingChanges :=
  ex_doc [97; 1; 98; 1] [97; 2; 99; 1] false [ex_finding "c" 1 10] [ex_finding "a" 2 10]
    [{| em_rule_set_id := "base"; em_rule_id := "b"; em_ended_at_unix_ms := 86400009 |}]
    [{| tm_finding := ex_finding "d" 1 5; tm_ended_at_unix_ms := 86400008 |}].

Notation ex_changes c now t :=
  (finding_changes ex_ms ex_identifier ex_from_hex ex_match_digest ex_validate "agent.h1" c now 0 (3 * DAY_US) t).
Definition ex_first : FindTables := (ex_changes ex_all (DAY_US + 100) ex_start).2.
Definition ex_second : FindTables := (ex_changes ex_more (DAY_US + 20000) ex_first).2.

Definition ex_mitigate : TriageChange :=
  {| tc_state := "mitigated"; tc_assigned_to_username := None; tc_note := Some "patched"; tc_accepted_until := None |}.
Definition ex_out {A} (o : option (A * FindTables)) : FindTables := match o with Some (_, t) => t | None => ex_start end.
Definition ex_third : FindTables := ex_out (update "agent.h1" ("base", "a") 0 ex_mitigate "alice" (DAY_US + 30000) ex_second).
(** A scan confirms the match after it was mitigated. *)
Definition ex_beat : option (bool * FindTables) :=
  match_heartbeat ex_match_digest "agent.h1" [97; 2; 99; 1] (Some (DAY_US + 40000)) (DAY_US + 50000) ex_third.
Definition ex_fourth : FindTables := ex_out ex_beat.

Example ex_vector :
  (ex_changes ex_all (DAY_US + 100) ex_start).1 = inr tt /\ (ex_changes ex_more (DAY_US + 20000) ex_first).1 = inr tt
  /\ (ex_changes ex_more (DAY_US + 20000) ex_second).1 = inl FindingsResync
  /\ map (fun k => ma_rule_version <$> view "agent.h1" ("base", k) ex_second) ["a"; "b"; "c"; "d"] = [Some 2; None; Some 1; None]
  /\ map (fun r => (cf_rule_id r, cf_ended_at r)) (current ex_second)
     = [("a", None); ("b", Some (DAY_US + 9000)); ("c", None); ("d", Some (DAY_US + 8000))]
  /\ state_of "agent.h1" ("base", "a") ex_third = ("mitigated", 1) /\ state_of "agent.h1" ("base", "a") ex_fourth = ("open", 2)
  /\ fst <$> ex_beat = Some false.
Proof. vm_compute. auto 15. Qed.

Notation ex_reachable := (reachable ex_ms ex_identifier ex_from_hex ex_match_digest ex_validate ex_json_text).
Notation ex_in_sync := (in_sync ex_ms ex_identifier ex_from_hex ex_match_digest ex_validate).

Ltac one_of H := vm_compute in H; destruct H as [<-|[]].

Lemma ex_apart : transients_apart "agent.h1" ex_more ex_first.
Proof. intros ? H. one_of H. left. vm_compute. reflexivity. Qed.

Lemma ex_plain k : plain "agent.h1" ex_more ex_first k.
Proof. exact (apart_plain _ _ _ k ex_apart (fun H => match diff_false_true H with end)). Qed.

Lemma ex_first_sync : ex_in_sync ex_first.
Proof.
  eapply in_sync_step; [apply (in_sync_new _ _ _ _ _ ex_people ex_hosts ["base"] [1; 2])|].
  apply synced_changes; [by intros m []|done].
Qed.
Lemma ex_second_sync : ex_in_sync ex_second.
Proof. eapply in_sync_step; [exact ex_first_sync|]. apply synced_changes; [exact ex_apart|done]. Qed.
Lemma ex_first_unique : unique ex_first.
Proof. apply (in_sync_agreed _ _ _ _ _ ex_digest_of ex_digest _ ex_first_sync). Qed.

Lemma ex_second_unique : unique ex_second.
Proof. apply (in_sync_agreed _ _ _ _ _ ex_digest_of ex_digest _ ex_second_sync). Qed.
Lemma ex_second_view k : view "agent.h1" k ex_second = open_after ex_more (fun k => view "agent.h1" k ex_first) k.
Proof.
  assert (exists rows, rows_of ex_ms (DAY_US + 20000) 0 (3 * DAY_US) (partitions ex_first) ex_more = inr rows
    /\ FindDb.apply ex_ms ex_identifier ex_from_hex ex_match_digest "agent.h1" ex_more rows (DAY_US + 20000) ex_first = Some (Stored, ex_second))
    as (rows & Hr & Ha) by (eexists; split; [vm_compute; reflexivity|vm_compute; reflexivity]).
  exact (proj1 (proj2 (apply_view ex_ms ex_identifier ex_from_hex ex_match_digest ex_digest_of ex_digest "agent.h1" ex_more rows
    (DAY_US + 20000) 0 (3 * DAY_US) (partitions ex_first) ex_first ex_second Hr Ha ex_first_unique)) k (ex_plain k)).
Qed.

Lemma ex_third_sync : ex_in_sync ex_third.
Proof.
  eapply in_sync_step; [exact ex_second_sync|].
  assert (exists o, update "agent.h1" ("base", "a") 0 ex_mitigate "alice" (DAY_US + 30000) ex_second = Some (o, ex_third)) as [o Ho]
    by (eexists; vm_compute; reflexivity).
  by eapply synced_update.
Qed.

Lemma ex_beat_quiet :
  match_heartbeat ex_match_digest "agent.h1" [97; 2; 99; 1] (Some (DAY_US + 40000)) (DAY_US + 50000) ex_third = Some (false, ex_fourth).
Proof. vm_compute. reflexivity. Qed.

Lemma ex_fourth_reachable : ex_reachable ex_fourth.
Proof.
  assert (ex_reachable ex_second) as H2.
  { eapply reachable_step; [|apply step_changes]. eapply reachable_step; [|apply step_changes]. apply reachable_new. }
  assert (ex_reachable ex_third) as H3.
  { assert (exists o, update "agent.h1" ("base", "a") 0 ex_mitigate "alice" (DAY_US + 30000) ex_second = Some (o, ex_third)) as [o Ho]
      by (eexists; vm_compute; reflexivity).
    eapply reachable_step; [exact H2|]. eapply step_update; [|exact Ho]. discriminate. }
  apply (reachable_step _ _ _ _ _ _ _ _ H3). eapply step_heartbeat. exact ex_beat_quiet.
Qed.

Lemma changes_exact_witness : view "agent.h1" ("base", "b") ex_second = None /\ agent_digest "agent.h1" ex_second = Some [97; 2; 99; 1]
  /\ ex_digest_of (map snd (view_map "agent.h1" ex_second)) = [97; 2; 99; 1].
Proof.
  assert (ex_changes ex_more (DAY_US + 20000) ex_first = (inr tt, ex_second)) as E by (vm_compute; reflexivity).
  destruct (changes_exact ex_ms ex_identifier ex_from_hex ex_match_digest ex_digest_of ex_validate ex_digest "agent.h1" ex_more
              (DAY_US + 20000) 0 (3 * DAY_US) ex_first ex_second ex_first_unique E)
    as (Hv & (d & Hd & Ha & Hm) & _).
  split; [rewrite Hv by exact (ex_plain _); vm_compute; reflexivity|]. rewrite Ha, (Hm ex_plain).
  injection Hd as <-. split; vm_compute; reflexivity.
Defined.

(** A transient of a match that stays open is written over it: the digest on record is then not the one of
    the stored matches. *)
Definition ex_over : FindingChanges :=
  ex_doc [97; 1; 98; 1] [97; 1; 98; 1; 99; 1] false [ex_finding "c" 1 10] [] []
    [{| tm_finding := ex_finding "a" 7 5; tm_ended_at_unix_ms := 86400008 |}].
Example transient_over_open :
  let '(reply, t) := ex_changes ex_over (DAY_US + 20000) ex_first in
  reply = inr tt /\ agent_digest "agent.h1" t = Some [97; 1; 98; 1; 99; 1]
  /\ ex_digest_of (map snd (view_map "agent.h1" t)) = [97; 7; 98; 1; 99; 1].
Proof. vm_compute. auto. Qed.

Lemma in_step_never_resyncs_witness : (ex_changes ex_more (DAY_US + 20000) ex_first).1 <> inl FindingsResync.
Proof.
  apply (in_step_never_resyncs ex_ms ex_identifier ex_from_hex ex_match_digest ex_digest_of ex_validate ex_digest "agent.h1" ex_more
           (DAY_US + 20000) 0 (3 * DAY_US) ex_first [97; 1; 98; 1] (view_map "agent.h1" ex_second)).
  - exact ex_first_unique.
  - reflexivity.
  - vm_compute. reflexivity.
  - vm_compute. reflexivity.
  - apply NoDup_singleton.
  - intros ? H. one_of H. vm_compute. reflexivity.
  - intros ? H. one_of H. left. vm_compute. reflexivity.
  - apply NoDup_singleton.
  - intros ? H. one_of H. left. vm_compute. reflexivity.
  - apply view_map_sorted.
  - intros k. rewrite view_map_get by exact ex_second_unique. apply ex_second_view.
  - vm_compute. reflexivity.
Defined.

Lemma digest_agrees_witness : ex_digest_of (map snd (view_map "agent.h1" ex_third)) = [97; 2; 99; 1].
Proof.
  destruct (digest_agrees ex_ms ex_identifier ex_from_hex ex_match_digest ex_digest_of ex_validate ex_digest "agent.h1" ex_third
              [97; 2; 99; 1] (Some (DAY_US + 40000)) (DAY_US + 50000) ex_fourth ex_third_sync) as [_ H].
  exact (proj1 (H ex_beat_quiet)).
Defined.

Lemma finding_triage_accounted_witness :
  replay (history_of "agent.h1" ("base", "a") (triage_history ex_fourth)) ("open", 0) = Some ("open", 2).
Proof.
  rewrite (finding_triage_accounted ex_ms ex_identifier ex_from_hex ex_match_digest ex_validate ex_json_text "agent.h1" ("base", "a")
             ex_fourth ex_fourth_reachable).
  vm_compute. reflexivity.
Defined.

(** Batches: two hosts report the same rule, the first one again with an older time. *)
Definition ex_sight (id rule : string) (version ms : Z) : StoredFinding :=
  {| sf_detection := None; sf_finding_id := id; sf_scan_id := "s1"; sf_rule_set_id := "base"; sf_rule_id := rule;
     sf_rule_version := version; sf_observed_at := DAY_US + ms * 1000; sf_severity := "high"; sf_confidence := 90;
     sf_message := "m"; sf_evidence := ["e"] |}.
Definition ex_batch (agent : string) (l : list StoredFinding) : Delivery :=
  {| dv_agent := agent; dv_findings := l; dv_origin := Online; dv_now := DAY_US + 100000 |}.
Definition ex_batches : list Delivery :=
  [ex_batch "agent.h1" [ex_sight "f1" "a" 2 9; ex_sight "f2" "b" 1 9]; ex_batch "agent.h2" [ex_sight "f3" "a" 2 7];
   ex_batch "agent.h1" [ex_sight "f4" "a" 1 3; ex_sight "f2" "b" 1 9]].
Definition ex_reported : FindTables := default ex_start (delivered ex_batches ex_start).
Lemma ex_reported_is : delivered ex_batches (no_findings ex_people ex_hosts ["base"] [1; 2]) = Some ex_reported.
Proof. vm_compute. reflexivity. Qed.

Lemma observations_kept_witness : (forall r, In r (current ex_reported) -> exists d, In d (observations ex_batches) /\ of_finding r d /\ shows r d.2)
  /\ length (findings ex_reported) = 4%nat
  /\ map (fun r => (cf_agent r, cf_rule_version r, cf_first_observed_at r - DAY_US)) (current ex_reported)
     = [("agent.h1", 2, 3000); ("agent.h1", 1, 9000); ("agent.h2", 2, 7000)].
Proof.
  destruct (observations_kept ex_people ex_hosts ["base"] [1; 2] ex_batches ex_reported ex_reported_is) as (_ & _ & _ & _ & H).
  split; [intros r Hr; exact (proj2 (proj2 (H r Hr)))|]. split; vm_compute; reflexivity.
Defined.

Lemma ex_reported_unique : unique ex_reported.
Proof.
  assert (kept [] (no_findings ex_people ex_hosts ["base"] [1; 2])) as Hk by (split; simpl; (apply NoDup_nil_2 || by intros; exfalso)).
  exact (k_unique _ _ (kept_delivered _ _ _ _ Hk ex_reported_is)).
Qed.
Definition ex_both : list (string * Z) := [("agent.h2", 0); ("agent.h1", 0)].
Notation ex_bulk t := (update_many ("base", "a") ex_both ScopeGlobal ex_mitigate "alice" (DAY_US + 200000) t).
Definition ex_bulk_done : FindTables := ex_out (ex_bulk ex_reported).

Lemma bulk_is_one_by_one_witness :
  exists r, one_by_one ("base", "a") ex_both ex_mitigate "alice" (DAY_US + 200000) ex_reported = Some (r, ex_bulk_done).
Proof.
  assert (exists o, ex_bulk ex_reported = Some (o, ex_bulk_done)) as [o Ho] by (eexists; vm_compute; reflexivity).
  destruct (bulk_is_one_by_one ("base", "a") ex_both ScopeGlobal ex_mitigate "alice" (DAY_US + 200000) ex_reported o ex_bulk_done
              ex_reported_unique Ho) as [(r & _ & H)|[[H _]|(u & _ & H & _)]].
  - exists (map Updated r). exact H.
  - exfalso. apply (f_equal (fun t => length (triage t))) in H. vm_compute in H. discriminate H.
  - discriminate H.
Defined.

Notation ex_off later t := (end_unassigned ex_json_text "agent.h1" ["base"] later t).
Definition ex_switched : FindTables := ex_out (ex_off (DAY_US + 300000) ex_reported).
Lemma unassigned_once_witness : ex_off (DAY_US + 300000) ex_reported = Some (2, ex_switched)
  /\ ex_off (DAY_US + 400000) ex_switched = Some (0, ex_switched).
Proof.
  assert (ex_off (DAY_US + 300000) ex_reported = Some (2, ex_switched)) as E by (vm_compute; reflexivity).
  split; [exact E|].
  refine (unassigned_once ex_json_text "agent.h1" ["base"] (DAY_US + 300000) (DAY_US + 400000) ex_reported 2 ex_switched _ _ E).
  - vm_compute. discriminate.
  - intros r e Hr He. vm_compute in Hr. destruct Hr as [<-|[<-|[<-|[]]]]; discriminate He.
Defined.

(** A group change takes an accepted risk for ten years; the change of one host refuses it. *)
Definition ex_long_risk : TriageChange :=
  {| tc_state := "accepted_risk"; tc_assigned_to_username := None; tc_note := Some "later"; tc_accepted_until := Some (3660 * DAY_US) |}.
Notation ex_expiries o := (match o with Some (BulkUpdated l, _) => map rc_accepted_until l | _ => [] end).
Example bulk_takes_long_risk :
  ex_expiries (update_many ("base", "a") ex_both ScopeGlobal ex_long_risk "alice" (2 * DAY_US) ex_reported)
  = [Some (3660 * DAY_US); Some (3660 * DAY_US)]
  /\ fst <$> update "agent.h1" ("base", "a") 0 ex_long_risk "alice" (2 * DAY_US) ex_reported = Some InvalidFields.
Proof. split; vm_compute; reflexivity. Qed.
