(* ===== verification/GroupData.v ===== *)
(** * Host groups: rules, what a rule matches, and the checks of what a person sends
      (platform-store/src/host_groups.rs, host_group_writes.rs, host_group_facts.rs, host_labels.rs;
      openvibes-console/src/hosts/group_checks.rs; the functions of src/migrations/0053)

    [lower] is PostgreSQL's [lower], [contained] its [<<=] on two addresses in text. *)
From S2P Require Import Prelude RustStd Text Json AlarmData AgentDb NetAddr.
From stdpp Require Import prelude strings list.
From Stdlib Require Import Ascii ZArith Lia.

Open Scope Z_scope.

(** ** Kinds and conditions *)

Inductive GroupKind := Automatic | Rule | Manual.
#[export] Instance GroupKind_eq_dec : EqDecision GroupKind.
Proof. solve_decision. Defined.

Definition kind_as_str (k : GroupKind) : string :=
  match k with Automatic => "automatic" | Rule => "rule" | Manual => "manual" end.
Definition kind_parse (s : string) : GroupKind :=
  if String.eqb s "automatic" then Automatic else if String.eqb s "rule" then Rule else Manual.

Record Condition := { co_field : string; co_negate : bool; co_values : list string }.

(** ** What a host reports of itself *)

(** [agents.os_id] and [agents.os_version]. *)
Record OsFacts := { of_os_id : option string; of_os_version : option string }.

Section facts.
Context (lower : string -> string) (contained : string -> string -> bool).

(** The generated columns. *)
Definition os_family (f : OsFacts) : option string :=
  match of_os_id f with
  | None => None
  | Some id => Some (if String.eqb id "windows" then "windows" else "linux")
  end.
Definition distribution (f : OsFacts) : option string :=
  match of_os_id f, of_os_version f with
  | Some id, Some version =>
      let release := if existsb (String.eqb id) ["rocky"; "almalinux"] then default "" (head (RustStd.split "." version)) else version in
      Some (lower (id +:+ " " +:+ release))
  | _, _ => None
  end.

(** ** Patterns *)

Definition percent : Z := Eval cbv in byte_of "%".
Definition underscore : Z := Eval cbv in byte_of "_".
Definition backslash : Z := Eval cbv in byte_of "\".
Definition star : Z := Eval cbv in byte_of "*".

(** [console_glob_like]: the replacements in turn leave each character as one of these. *)
Definition glob_char (c : Z) : list Z :=
  if c =? backslash then [backslash; backslash]
  else if c =? percent then [backslash; percent]
  else if c =? underscore then [backslash; underscore]
  else if c =? star then [percent] else [c].
Definition glob_like (pattern : string) : list Z := flat_map glob_char (chars (lower pattern)).

(** [LIKE ... ESCAPE '\'] on characters; a pattern that ends in the escape is an error, here false. *)
Fixpoint like (p : list Z) : list Z -> bool :=
  match p with
  | [] => fun t => match t with [] => true | _ => false end
  | c :: p =>
      if c =? percent then
        (fix any (t : list Z) : bool := like p t || match t with [] => false | _ :: t => any t end)
      else if c =? underscore then fun t => match t with [] => false | _ :: t => like p t end
      else if c =? backslash then
        match p with
        | [] => fun _ => false
        | d :: p => fun t => match t with [] => false | x :: t => (x =? d) && like p t end
        end
      else fun t => match t with [] => false | x :: t => (x =? c) && like p t end
  end.

(** [console_condition_holds]; [NULL] facts hold no condition. *)
Definition condition_holds (f : OsFacts) (a : AgentRow) (c : Condition) : bool :=
  let holds_any (p : string -> bool) := negb (Bool.eqb (co_negate c) (existsb p (co_values c))) in
  if String.eqb (co_field c) "os_family" then
    match os_family f with None => false | Some v => holds_any (String.eqb v) end
  else if String.eqb (co_field c) "distribution" then
    match distribution f with None => false | Some v => holds_any (String.eqb v) end
  else if String.eqb (co_field c) "hostname" then
    match ag_hostname a with None => false | Some v => holds_any (fun p => like (glob_like p) (chars (lower v))) end
  else if String.eqb (co_field c) "ip" then
    match ag_last_address a with None => false | Some v => holds_any (contained v) end
  else false.
End facts.

(** What a pattern means: [*] stands for any text, every other character for itself. *)
Fixpoint glob (p t : list Z) : Prop :=
  match p with
  | [] => t = []
  | c :: p => if c =? star then exists t1 t2, t = t1 ++ t2 /\ glob p t2 else exists t2, t = c :: t2 /\ glob p t2
  end.

Lemma like_any p t : (fix any (t : list Z) : bool := like p t || match t with [] => false | _ :: t => any t end) t = true
  <-> exists t1 t2, t = t1 ++ t2 /\ like p t2 = true.
Proof.
  induction t as [|x t IH]; cbn -[like].
  - rewrite orb_false_r. split; [intros H; by exists [], []|]. by intros ([|] & [|] & E & H).
  - rewrite orb_true_iff, IH. split.
    + intros [H|(t1 & t2 & -> & H)]; [by exists [], (x :: t)|by exists (x :: t1), t2].
    + intros ([|y t1] & t2 & E & H); simpl in E; [subst; by left|]. injection E as -> ->. right. by exists t1, t2.
Qed.

(** The escaping is right: the pattern matches as written. *)
Lemma like_glob p t : like (flat_map glob_char p) t = true <-> glob p t.
Proof.
  revert t. induction p as [|c p IH]; intros t; [simpl; by destruct t|]. simpl flat_map. cbn [glob]. unfold glob_char.
  destruct (c =? backslash) eqn:E1; [apply Z.eqb_eq in E1 as ->|destruct (c =? percent) eqn:E2;
    [apply Z.eqb_eq in E2 as ->|destruct (c =? underscore) eqn:E3; [apply Z.eqb_eq in E3 as ->|destruct (c =? star) eqn:E4]]].
  1-3: simpl; destruct t as [|x t]; [split; [done|by intros (? & ? & _)]|]; rewrite andb_true_iff, Z.eqb_eq, IH;
    split; [intros [-> H]; by exists t|by intros (? & [= -> ->] & H)].
  - change ([percent] ++ flat_map glob_char p) with (percent :: flat_map glob_char p). cbn -[flat_map].
    etransitivity; [apply like_any|]. by setoid_rewrite IH.
  - change ([c] ++ flat_map glob_char p) with (c :: flat_map glob_char p). cbn -[flat_map]. rewrite E2, E3, E1.
    destruct t as [|x t]; [split; [done|by intros (? & ? & _)]|]. rewrite andb_true_iff, Z.eqb_eq, IH.
    split; [intros [-> H]; by exists t|by intros (? & [= -> ->] & H)].
Qed.

Example like_vectors :
  let l p t := like (glob_like (fun s => s) p) (chars t) in
  l "web-*" "web-01" = true /\ l "*.example" "a.example" = true /\ l "a_b" "axb" = false /\ l "a_b" "a_b" = true
  /\ l "50%" "50%" = true /\ l "50%" "50x" = false /\ l "a\b" "a\b" = true /\ l "" "" = true /\ l "*" "" = true.
Proof. vm_compute. auto 15. Qed.

(** ** What a person sends *)

Definition MAX_CONDITIONS : Z := 16.
Definition MAX_VALUES : Z := 64.

Inductive GroupContent := RuleContent (conditions : list Condition) | ManualContent (picked : list string).

Record GroupInput := { gi_name : string; gi_description : string; gi_content : GroupContent }.

(** [prefix.parse::<u8>()] of digits: at most 255. *)
Definition is_cidr (value : string) : bool :=
  let '(address, prefix) := match split_once "/" value with Some (a, p) => (a, Some p) | None => (value, None) end in
  match parse_ip address with
  | None => false
  | Some ip =>
      let max := match ip with V4 _ _ _ _ => 32 | V6 _ => 128 end in
      match prefix with
      | None => true
      | Some p => (1 <=? str_len p) && (str_len p <=? 3) && all_digits p
                  && match parse_uint u8_max p with Some n => n <=? max | None => false end
      end
  end.

Definition value_ok (field value : string) : bool :=
  if String.eqb field "os_family" then existsb (String.eqb value) ["linux"; "windows"]
  else if String.eqb field "ip" then is_cidr value
  else if existsb (String.eqb field) ["distribution"; "hostname"] then
    (1 <=? char_count value) && (char_count value <=? 255) && negb (existsb is_control (chars value))
  else false.

Definition condition_ok (c : Condition) : bool :=
  (1 <=? Z.of_nat (length (co_values c))) && (Z.of_nat (length (co_values c)) <=? MAX_VALUES)
  && forallb (value_ok (co_field c)) (co_values c).

Definition invalid_content (content : GroupContent) : option string :=
  match content with
  | ManualContent _ => None
  | RuleContent conditions =>
      if MAX_CONDITIONS <? Z.of_nat (length conditions) then Some "conditions"
      else co_field <$> find (fun c => negb (condition_ok c)) conditions
  end.

Definition invalid_part (input : GroupInput) : option string :=
  let name := gi_name input in
  if negb (is_trimmed name) || negb ((1 <=? char_count name) && (char_count name <=? 128)) || existsb is_control (chars name)
  then Some "name"
  else if 500 <? char_count (gi_description input) then Some "description"
  else invalid_content (gi_content input).

(** Picked ids without repeats, in the order given. *)
Fixpoint distinct_from (seen picked : list string) : list string :=
  match picked with
  | [] => []
  | id :: picked => if existsb (String.eqb id) seen then distinct_from seen picked else id :: distinct_from (id :: seen) picked
  end.
Definition distinct : list string -> list string := distinct_from [].

(** ** The console's checks (group_checks.rs) *)

Definition MAX_PICKED : Z := 10000.

Definition distribution_part (part : string) : bool :=
  negb (is_empty part)
  && forallb (fun b => is_ascii_lowercase b || is_ascii_digit b || existsb (Z.eqb b) (bytes "._-")) (bytes part).
Definition distribution_value (v : string) : bool :=
  match split_once " " v with Some (id, release) => distribution_part id && distribution_part release | None => false end.

Definition invalid_rule (conditions : list Condition) : option string :=
  match conditions with
  | [] => Some "conditions"
  | _ =>
      match find (fun c => String.eqb (co_field c) "distribution" && negb (forallb distribution_value (co_values c))) conditions with
      | Some c => Some (co_field c)
      | None => invalid_content (RuleContent conditions)
      end
  end.

(** [Content::checked]: the status and code of the refusal. *)
Definition checked (content : GroupContent) : option (Z * string) :=
  match content with
  | RuleContent conditions => match invalid_rule conditions with Some _ => Some (422, "invalid_condition") | None => None end
  | ManualContent picked =>
      if MAX_PICKED <? Z.of_nat (length picked) then Some (400, "invalid_group")
      else if existsb (fun id => negb ((1 <=? str_len id) && (str_len id <=? 255))) picked then Some (400, "invalid_group")
      else None
  end.

(** ** Automatic groups (host_group_facts.rs) *)

Definition MAX_AUTOMATIC_GROUPS : Z := 200.
Definition KNOWN_OS_IDS : list string := ["debian"; "ubuntu"; "fedora"; "rocky"; "almalinux"].
Definition MAX_RELEASES_PER_OS_ID : Z := 20.

Definition is_release (release : string) : bool :=
  let parts := RustStd.split "." release in
  (Z.of_nat (length parts) <=? 3)
  && forallb (fun p => (1 <=? str_len p) && (str_len p <=? 4) && all_digits p) parts.
Definition is_distribution (distribution : string) : bool :=
  match split_once " " distribution with
  | Some (id, release) => existsb (String.eqb id) KNOWN_OS_IDS && is_release release
  | None => false
  end.

Definition os_family_name (os_family : string) : string :=
  if String.eqb os_family "linux" then "Linux" else if String.eqb os_family "windows" then "Windows" else os_family.
Definition distribution_name (distribution : string) : string :=
  let '(first, rest) := match split_once " " distribution with Some (a, b) => (a, " " +:+ b) | None => (distribution, "") end in
  let named name := name +:+ rest in
  if String.eqb first "debian" then named "Debian"
  else if String.eqb first "ubuntu" then named "Ubuntu"
  else if String.eqb first "fedora" then named "Fedora"
  else if String.eqb first "rocky" then named "Rocky Linux"
  else if String.eqb first "almalinux" then named "AlmaLinux"
  else distribution.

(** ** Labels (host_labels.rs) *)

Definition MAX_LABELS : Z := 32.
Definition valid_label (label : string) : option string :=
  let label := Text.trim label in
  if (1 <=? char_count label) && (char_count label <=? 64) && negb (existsb is_control (chars label))
     && negb (existsb (String.eqb label) ["."; ".."])
  then Some label else None.

Lemma distinct_from_spec picked : forall seen, NoDup (distinct_from seen picked)
  /\ forall x, In x (distinct_from seen picked) <-> In x picked /\ ~ In x seen.
Proof.
  induction picked as [|id picked IH]; intros seen; simpl; [split; [constructor|tauto]|].
  destruct (existsb (String.eqb id) seen) eqn:E.
  - destruct (IH seen) as [H1 H2]. split; [done|]. intros x. rewrite H2. apply existsb_exists in E as (y & Hy & ->%String.eqb_eq).
    split; [tauto|]. intros [[->|?] ?]; [done|tauto].
  - assert (~ In id seen) as Hn.
    { intros H. apply not_true_iff_false in E. apply E, existsb_exists. exists id. split; [done|]. apply String.eqb_refl. }
    destruct (IH (id :: seen)) as [H1 H2]. split.
    + constructor; [|done]. rewrite list_elem_of_In, H2. simpl. tauto.
    + intros x. simpl. rewrite H2. simpl. destruct (decide (x = id)) as [->|]; [tauto|]. intuition congruence.
Qed.

Lemma distinct_spec picked : NoDup (distinct picked) /\ forall x, In x (distinct picked) <-> In x picked.
Proof. destruct (distinct_from_spec picked []) as [H1 H2]. split; [done|]. intros x. unfold distinct. rewrite H2. simpl. tauto. Qed.

Example group_vectors :
  is_cidr "10.0.0.0/8" = true /\ is_cidr "10.0.0.0/33" = false /\ is_cidr "fe80::1/64" = true /\ is_cidr "10.0.0.1/" = false
  /\ is_cidr "10.0.0.1/008" = true /\ is_distribution "debian 12" = true /\ is_distribution "debian 24.04.1" = true
  /\ is_distribution "debian prod" = false /\ is_distribution "arch 1" = false /\ is_distribution "debian 12." = false
  /\ distribution_name "rocky 9" = "Rocky Linux 9" /\ distribution_name "arch 1" = "arch 1"
  /\ invalid_content (RuleContent [{| co_field := "ip"; co_negate := false; co_values := ["x"] |}]) = Some "ip"
  /\ checked (RuleContent []) = Some (422, "invalid_condition") /\ valid_label " a " = Some "a" /\ valid_label ".." = None
  /\ distinct ["a"; "b"; "a"] = ["a"; "b"].
Proof. vm_compute. auto 30. Qed.
