(* ===== verification/GroupDb.v ===== *)
(** * Host groups: the stored side (platform-store/src/host_group_writes.rs, host_groups.rs,
      host_group_facts.rs, host_labels.rs; the triggers of src/migrations/0061)

    Every write keeps the stored pairs of hosts and groups by the triggers of its statements, which
    are part of the statement here.  [None] is a failed statement, which leaves the tables as they were. *)
From S2P Require Import Prelude RustStd Text BTree Json AccessData AccessRules AccessDb AlarmData AgentDb AlarmDb GroupData.
From stdpp Require Import prelude strings list pretty.
From Stdlib Require Import Ascii ZArith Lia.

Open Scope Z_scope.

(** ** Tables *)

(** [console_asset_groups]. *)
Record GroupRow := {
  gr_id : string;
  gr_name : string;
  gr_kind : GroupKind;
  gr_description : string;
  gr_auto_key : option string;
  gr_version : Z;
  gr_created_at : Z;
  gr_created_by : string;
  gr_changed : option (Z * string);
}.

(** The stored pairs of hosts and groups are [group_membership] of the hosts' tables. *)
Record GroupTables := {
  store : AlarmTables;
  (** [agents.os_id] and [agents.os_version]. *)
  facts : list (string * OsFacts);
  groups : list GroupRow;
  (** [console_host_group_conditions], in the order of their positions. *)
  conditions : list (string * Condition);
  (** [console_host_group_members]: group and host. *)
  picks : list (string * string);
  dismissed : list string;
  (** [console_host_labels]: host and label. *)
  labels : list (string * string);
  (** [rule_set_assignment]: a set and its default. *)
  assignment : list (string * bool);
  (** [rule_set_group_assignment]: set, group, on or off. *)
  overrides : list (string * string * bool);
}.

Definition with_store (f : AlarmTables -> AlarmTables) (t : GroupTables) : GroupTables :=
  {| store := f (store t); facts := facts t; groups := groups t; conditions := conditions t; picks := picks t;
     dismissed := dismissed t; labels := labels t; assignment := assignment t; overrides := overrides t |}.
Definition set_facts (f : list (string * OsFacts) -> list (string * OsFacts)) (t : GroupTables) : GroupTables :=
  {| store := store t; facts := f (facts t); groups := groups t; conditions := conditions t; picks := picks t;
     dismissed := dismissed t; labels := labels t; assignment := assignment t; overrides := overrides t |}.
Definition set_groups (f : list GroupRow -> list GroupRow) (t : GroupTables) : GroupTables :=
  {| store := store t; facts := facts t; groups := f (groups t); conditions := conditions t; picks := picks t;
     dismissed := dismissed t; labels := labels t; assignment := assignment t; overrides := overrides t |}.
Definition set_conditions (f : list (string * Condition) -> list (string * Condition)) (t : GroupTables) : GroupTables :=
  {| store := store t; facts := facts t; groups := groups t; conditions := f (conditions t); picks := picks t;
     dismissed := dismissed t; labels := labels t; assignment := assignment t; overrides := overrides t |}.
Definition set_picks (f : list (string * string) -> list (string * string)) (t : GroupTables) : GroupTables :=
  {| store := store t; facts := facts t; groups := groups t; conditions := conditions t; picks := f (picks t);
     dismissed := dismissed t; labels := labels t; assignment := assignment t; overrides := overrides t |}.
Definition set_dismissed (f : list string -> list string) (t : GroupTables) : GroupTables :=
  {| store := store t; facts := facts t; groups := groups t; conditions := conditions t; picks := picks t;
     dismissed := f (dismissed t); labels := labels t; assignment := assignment t; overrides := overrides t |}.
Definition set_labels (f : list (string * string) -> list (string * string)) (t : GroupTables) : GroupTables :=
  {| store := store t; facts := facts t; groups := groups t; conditions := conditions t; picks := picks t;
     dismissed := dismissed t; labels := f (labels t); assignment := assignment t; overrides := overrides t |}.
Definition set_assignment (f : list (string * bool) -> list (string * bool)) (t : GroupTables) : GroupTables :=
  {| store := store t; facts := facts t; groups := groups t; conditions := conditions t; picks := picks t;
     dismissed := dismissed t; labels := labels t; assignment := f (assignment t); overrides := overrides t |}.
Definition set_overrides (f : list (string * string * bool) -> list (string * string * bool)) (t : GroupTables) : GroupTables :=
  {| store := store t; facts := facts t; groups := groups t; conditions := conditions t; picks := picks t;
     dismissed := dismissed t; labels := labels t; assignment := assignment t; overrides := f (overrides t) |}.

(** The shared tables of people and hosts. *)
Definition on_people (f : Db -> Db) (t : AlarmTables) : AlarmTables :=
  {| people := f (people t); hosts := hosts t; alarms := alarms t; alarm_history := alarm_history t;
     hourly_starts := hourly_starts t; dropped_totals := dropped_totals t; suppressions := suppressions t;
     require_approval := require_approval t; next_alarm := next_alarm t; next_suppression := next_suppression t;
     alarm_log := alarm_log t |}.
Definition on_hosts (f : AgentTables -> AgentTables) (t : AlarmTables) : AlarmTables :=
  {| people := people t; hosts := f (hosts t); alarms := alarms t; alarm_history := alarm_history t;
     hourly_starts := hourly_starts t; dropped_totals := dropped_totals t; suppressions := suppressions t;
     require_approval := require_approval t; next_alarm := next_alarm t; next_suppression := next_suppression t;
     alarm_log := alarm_log t |}.
Definition set_asset_groups (f : list string -> list string) (db : Db) : Db :=
  {| users := users db; accounts := accounts db; roles := roles db; bindings := bindings db;
     dashboards := dashboards db; sessions := sessions db; audit_log := audit_log db;
     console_permissions := console_permissions db; asset_groups := f (asset_groups db); draws := draws db |}.
Definition set_membership (f : list (string * string) -> list (string * string)) (t : AgentTables) : AgentTables :=
  {| agents := agents t; certificates := certificates t; enrollment_tokens := enrollment_tokens t;
     token_uses := token_uses t; standing_token_secret := standing_token_secret t; idempotency := idempotency t;
     agent_presence := agent_presence t; group_membership := f (group_membership t); agent_log := agent_log t |}.

Definition audit_group (action actor id : string) (detail : value) : GroupTables -> GroupTables :=
  with_store (on_people (append_audit {| au_actor := actor; au_action := action; au_target_kind := "host_group";
                                         au_target_id := id; au_detail := detail |})).

Definition group_of (id : string) (t : GroupTables) : option GroupRow := find (fun g => String.eqb (gr_id g) id) (groups t).
Definition os_of (agent : string) (t : GroupTables) : OsFacts :=
  match find (fun e => String.eqb e.1 agent) (facts t) with Some e => e.2 | None => {| of_os_id := None; of_os_version := None |} end.
Definition agents_of (t : GroupTables) : list AgentRow := agents (hosts (store t)).
Definition members (t : GroupTables) : list (string * string) := group_membership (hosts (store t)).
(** [console_host_in_group]. *)
Definition in_group (agent gid : string) (t : GroupTables) : bool :=
  existsb (fun m => String.eqb m.1 agent && String.eqb m.2 gid) (members t).
Definition conditions_of (gid : string) (t : GroupTables) : list Condition :=
  map snd (List.filter (fun e => String.eqb e.1 gid) (conditions t)).
(** The roles that reach a group. *)
Definition reaching (gid : string) (t : GroupTables) : list RoleRow :=
  List.filter (fun r => str_mem gid (r_groups r)) (roles (people (store t))).

Section groups.
Context (lower : string -> string) (contained : string -> string -> bool) (gen : nat -> string).

(** ** Membership, kept by triggers *)

(** The rule: a manual group holds its picked hosts, another the active hosts all its conditions hold for. *)
Definition belongs (t : GroupTables) (g : GroupRow) (a : AgentRow) : bool :=
  bool_decide (ag_status a = SActive)
  && match gr_kind g with
     | Manual => existsb (fun p => String.eqb p.1 (gr_id g) && String.eqb p.2 (ag_id a)) (picks t)
     | _ => negb (bool_decide (conditions_of (gr_id g) t = []))
            && forallb (condition_holds lower contained (os_of (ag_id a) t) a) (conditions_of (gr_id g) t)
     end.

Definition str_in (l : list string) (s : string) : bool := existsb (String.eqb s) l.

(** [console_membership_refresh_group]. *)
Definition wanted_hosts (gid : string) (t : GroupTables) : list string :=
  match group_of gid t with None => [] | Some g => map ag_id (List.filter (belongs t g) (agents_of t)) end.
Definition refresh_group (gid : string) (t : GroupTables) : GroupTables :=
  let want := wanted_hosts gid t in
  let missing := List.filter (fun a => negb (in_group a gid t)) want in
  with_store (on_hosts (set_membership (fun l =>
    List.filter (fun m => negb (String.eqb m.2 gid) || str_in want m.1) l ++ map (fun a => (a, gid)) missing))) t.

(** [console_membership_refresh_agent]. *)
Definition wanted_groups (aid : string) (t : GroupTables) : list string :=
  match agent_of aid (hosts (store t)) with None => [] | Some a => map gr_id (List.filter (fun g => belongs t g a) (groups t)) end.
Definition refresh_agent (aid : string) (t : GroupTables) : GroupTables :=
  let want := wanted_groups aid t in
  let missing := List.filter (fun g => negb (in_group aid g t)) want in
  with_store (on_hosts (set_membership (fun l =>
    List.filter (fun m => negb (String.eqb m.1 aid) || str_in want m.2) l ++ map (pair aid) missing))) t.

(** The triggers of the agents' rows: a new active host, a change to what conditions read; a host
    that goes takes its pairs, picks and labels with it. *)
Definition host_changed (before t : GroupTables) (a : AgentRow) : bool :=
  match agent_of (ag_id a) (hosts (store before)) with
  | None => bool_decide (ag_status a = SActive)
  | Some b =>
      (bool_decide (ag_status b = SActive) || bool_decide (ag_status a = SActive))
      && negb (bool_decide (ag_status b = ag_status a)
               && bool_decide (os_family (os_of (ag_id a) before) = os_family (os_of (ag_id a) t))
               && bool_decide (distribution lower (os_of (ag_id a) before) = distribution lower (os_of (ag_id a) t))
               && bool_decide (ag_hostname b = ag_hostname a) && bool_decide (ag_last_address b = ag_last_address a))
  end.
Definition agents_triggers (before t : GroupTables) : GroupTables :=
  let gone := map ag_id (List.filter (fun b => negb (is_some (agent_of (ag_id b) (hosts (store t))))) (agents_of before)) in
  let t' := set_labels (List.filter (fun l => negb (str_in gone l.1)))
              (set_picks (List.filter (fun p => negb (str_in gone p.2)))
                 (with_store (on_hosts (set_membership (List.filter (fun m => negb (str_in gone m.1))))) t)) in
  fold_left (fun u a => refresh_agent (ag_id a) u) (List.filter (host_changed before t) (agents_of t)) t'.

(** Statements on conditions and picked hosts, each with its trigger. *)
Definition delete_conditions (gid : string) (t : GroupTables) : GroupTables :=
  if existsb (fun e => String.eqb e.1 gid) (conditions t)
  then refresh_group gid (set_conditions (List.filter (fun e => negb (String.eqb e.1 gid))) t) else t.
Definition insert_condition (gid : string) (c : Condition) (t : GroupTables) : GroupTables :=
  refresh_group gid (set_conditions (fun l => l ++ [(gid, c)]) t).
Definition delete_picks (gid : string) (keep : list string) (t : GroupTables) : GroupTables :=
  let goes p := String.eqb p.1 gid && negb (str_in keep p.2) in
  if existsb goes (picks t) then refresh_group gid (set_picks (List.filter (fun p => negb (goes p))) t) else t.
Definition insert_picks (gid : string) (picked : list string) (t : GroupTables) : GroupTables :=
  let fresh := List.filter (fun a => negb (existsb (fun p => String.eqb p.1 gid && String.eqb p.2 a) (picks t))) picked in
  if bool_decide (fresh = []) then t else refresh_group gid (set_picks (fun l => l ++ map (pair gid) fresh) t).
Definition update_group_row (gid : string) (f : GroupRow -> GroupRow) (t : GroupTables) : GroupTables :=
  let t' := set_groups (map (fun g => if String.eqb (gr_id g) gid then f g else g)) t in
  if bool_decide (gr_kind <$> group_of gid t = gr_kind <$> group_of gid t') then t' else refresh_group gid t'.
(** [DELETE FROM console_asset_groups] and its cascades. *)
Definition delete_group_row (gid : string) (t : GroupTables) : GroupTables :=
  with_store (fun s => on_people (set_asset_groups (List.filter (fun g => negb (String.eqb g gid))))
                         (on_hosts (set_membership (List.filter (fun m => negb (String.eqb m.2 gid)))) s))
    (set_overrides (List.filter (fun o => negb (String.eqb o.1.2 gid)))
      (set_picks (List.filter (fun p => negb (String.eqb p.1 gid)))
        (set_conditions (List.filter (fun e => negb (String.eqb e.1 gid)))
          (set_groups (List.filter (fun g => negb (String.eqb (gr_id g) gid))) t)))).
End groups.

(** ** Reading *)

Record GroupSummary := {
  gs_asset_group_id : string;
  gs_name : string;
  gs_kind : GroupKind;
  gs_description : string;
  gs_conditions : list Condition;
  gs_picked : Z;
  gs_hosts : Z;
  gs_open_alarms : Z;
  gs_roles : list (string * string);
  gs_people : Z;
  gs_version : Z;
  gs_changed : option (Z * string);
}.

Definition open_agent_alarms (agent : string) (t : GroupTables) : Z :=
  Z.of_nat (length (List.filter (fun al => bool_decide (al_agent al = agent) && String.eqb (tr_state (al_triage al)) "open") (alarms (store t)))).

Definition role_name_order (a b : RoleRow) : comparison := str_cmp (r_name a) (r_name b) <then> str_cmp (r_id a) (r_id b).

(** Enabled people who hold one of the roles. *)
Definition people_reached (roles : list RoleRow) (db : Db) : list UserRow :=
  List.filter (fun u => u_enabled u && existsb (fun r => existsb (holds_binding (User (u_id u)) (r_id r)) (bindings db)) roles) (users db).

(** One row of the summaries, less what presence and vulnerabilities add to it. *)
Definition summary (scope : AgentScope) (t : GroupTables) (g : GroupRow) : GroupSummary :=
  let seen a := bool_decide (ag_status a = SActive) && visible scope a (hosts (store t)) in
  let inside := List.filter (fun a => seen a && in_group (ag_id a) (gr_id g) t) (agents_of t) in
  let rs := Prelude.sort_by role_name_order (reaching (gr_id g) t) in
  {| gs_asset_group_id := gr_id g; gs_name := gr_name g; gs_kind := gr_kind g; gs_description := gr_description g;
     gs_conditions := conditions_of (gr_id g) t;
     gs_picked := Z.of_nat (length (List.filter (fun p => String.eqb p.1 (gr_id g)
                    && match agent_of p.2 (hosts (store t)) with Some a => seen a | None => false end) (picks t)));
     gs_hosts := Z.of_nat (length inside); gs_open_alarms := foldr Z.add 0 (map (fun a => open_agent_alarms (ag_id a) t) inside);
     gs_roles := map (fun r => (r_id r, r_name r)) rs;
     gs_people := Z.of_nat (length (people_reached rs (people (store t))));
     gs_version := gr_version g; gs_changed := gr_changed g |}.
Definition detail (id : string) (scope : AgentScope) (t : GroupTables) : option GroupSummary := summary scope t <$> group_of id t.

(** [picked_ids]: the active hosts picked by hand, by agent id. *)
Definition picked_ids (id : string) (t : GroupTables) : list string :=
  Prelude.sort_by str_cmp
    (map snd (List.filter (fun p => String.eqb p.1 id
       && match agent_of p.2 (hosts (store t)) with Some a => bool_decide (ag_status a = SActive) | None => false end) (picks t))).

(** ** Writing *)

Inductive GroupWrite :=
  | GroupSaved (group : GroupSummary) | GroupNameTaken | GroupStale | GroupNotFound | GroupInUse (roles : list string)
  | UnknownHost (agent_id : string) | GroupInvalid (part : string).

Definition condition_json (c : Condition) : value :=
  JObject [("field", JString (co_field c)); ("negate", JBool (co_negate c)); ("values", JArray (map JString (co_values c)))].
Definition content_json (name : string) (kind : GroupKind) (content : GroupContent) : value :=
  match content with
  | RuleContent cs => JObject [("conditions", JArray (map condition_json cs)); ("kind", JString (kind_as_str kind)); ("name", JString name)]
  | ManualContent picked =>
      JObject [("kind", JString (kind_as_str kind)); ("name", JString name); ("picked", JArray (map JString (distinct picked)))]
  end.

Definition unknown_host (picked : list string) (t : GroupTables) : option string :=
  find (fun id => negb match agent_of id (hosts (store t)) with Some a => bool_decide (ag_status a = SActive) | None => false end) picked.

(** Whether exactly these roles reach the group. *)
Definition same_roles (id : string) (expected : list string) (t : GroupTables) : bool :=
  bool_decide (Prelude.sort_by str_cmp (map r_id (reaching id t)) = bs_of_list str_cmp expected).

(** The key of an automatic group that goes or is taken over. *)
Definition dismiss (id : string) (t : GroupTables) : GroupTables :=
  match group_of id t with
  | Some g => match gr_auto_key g with
              | Some key => set_dismissed (fun l => if str_in l key then l else l ++ [key]) t
              | None => t
              end
  | None => t
  end.

Section writes.
Context (lower : string -> string) (contained : string -> string -> bool) (gen : nat -> string).

Definition group_name_taken (id name : string) (t : GroupTables) : bool :=
  existsb (fun g => negb (String.eqb (gr_id g) id) && String.eqb (lower (gr_name g)) (lower name)) (groups t).

Definition edited (input : GroupInput) (kind : GroupKind) (actor : string) (now : Z) (g : GroupRow) : GroupRow :=
  {| gr_id := gr_id g; gr_name := gi_name input; gr_kind := kind; gr_description := gi_description input; gr_auto_key := None;
     gr_version := gr_version g + 1; gr_created_at := gr_created_at g; gr_created_by := gr_created_by g; gr_changed := Some (now, actor) |}.
Definition created (id : string) (input : GroupInput) (kind : GroupKind) (actor : string) (now : Z) : GroupRow :=
  {| gr_id := id; gr_name := gi_name input; gr_kind := kind; gr_description := gi_description input; gr_auto_key := None;
     gr_version := 1; gr_created_at := now; gr_created_by := actor; gr_changed := Some (now, actor) |}.

Definition add_group_row (g : GroupRow) (t : GroupTables) : GroupTables :=
  with_store (on_people (set_asset_groups (fun l => l ++ [gr_id g]))) (set_groups (fun l => l ++ [g]) t).

(** The version of a group that exists, and the roles that reach it. *)
Definition not_current (existing : option (string * Z)) (expected_roles : option (list string)) (t : GroupTables) : option GroupWrite :=
  match existing with
  | None => None
  | Some (id, version) =>
      match group_of id t with
      | None => Some GroupNotFound
      | Some g =>
          if negb (gr_version g =? version) then Some GroupStale
          else match expected_roles with
               | Some expected => if same_roles id expected t then None else Some GroupStale
               | None => None
               end
      end
  end.

(** The content replaced, statement by statement. *)
Definition write_content (id : string) (content : GroupContent) (picked : list string) (t : GroupTables) : GroupTables :=
  let t := delete_conditions lower contained id t in
  let t := delete_picks lower contained id picked t in
  let t := insert_picks lower contained id picked t in
  match content with
  | RuleContent cs => fold_left (fun t c => insert_condition lower contained id c t) cs t
  | ManualContent _ => t
  end.

Definition write (existing : option (string * Z)) (expected_roles : option (list string)) (input : GroupInput) (actor : string) (now : Z)
    (t : GroupTables) : option (GroupWrite * GroupTables) :=
  match invalid_part input with
  | Some part => Some (GroupInvalid part, t)
  | None =>
      let kind := match gi_content input with RuleContent _ => Rule | ManualContent _ => Manual end in
      let picked := match gi_content input with RuleContent _ => [] | ManualContent picked => distinct picked end in
      match not_current existing expected_roles t with
      | Some refused => Some (refused, t)
      | None =>
          if negb (forallb db_text picked) then None
          else match unknown_host picked t with
          | Some agent_id => Some (UnknownHost agent_id, t)
          | None =>
          if negb (db_text (gi_description input)) then None
          else
            let id := match existing with Some (id, _) => id | None => gen (draws (people (store t))) end in
            if group_name_taken id (gi_name input) t then Some (GroupNameTaken, t)
            else
              head ← match existing with
                     | Some (_, version) =>
                         if i32_max <=? version then None
                         else Some (update_group_row lower contained id (edited input kind actor now) (dismiss id t))
                     | None =>
                         if is_some (group_of id t) then None
                         else Some (with_store (on_people drawn) (add_group_row (created id input kind actor now) t))
                     end;
              let t := write_content id (gi_content input) picked head in
              let action := match existing with Some _ => "host_group.updated" | None => "host_group.created" end in
              let t := audit_group action actor id (content_json (gi_name input) kind (gi_content input)) t in
              saved ← detail id ScopeGlobal t;
              Some (GroupSaved saved, t)
          end
      end
  end.

Definition create (input : GroupInput) (actor : string) (now : Z) : GroupTables -> option (GroupWrite * GroupTables) :=
  write None None input actor now.
Definition update (id : string) (version : Z) (expected_roles : option (list string)) (input : GroupInput) (actor : string) (now : Z)
    : GroupTables -> option (GroupWrite * GroupTables) :=
  write (Some (id, version)) expected_roles input actor now.

Definition overrides_of (id : string) (t : GroupTables) : Z :=
  Z.of_nat (length (List.filter (fun o => String.eqb o.1.2 id) (overrides t))).

Definition delete (id : string) (version : Z) (actor : string) (now : Z) (t : GroupTables) : option (GroupWrite * GroupTables) :=
  match group_of id t with
  | None => Some (GroupNotFound, t)
  | Some g =>
      if negb (gr_version g =? version) then Some (GroupStale, t)
      else match Prelude.sort_by role_name_order (reaching id t) with
      | (_ :: _) as rs => Some (GroupInUse (map r_name rs), t)
      | [] =>
          let group := summary ScopeGlobal t g in
          let count := overrides_of id t in
          let ended_count := suppressions_ended id (store t) in
          let t := with_store (end_group_suppressions id actor now) t in
          let t := delete_group_row id (dismiss id t) in
          Some (GroupSaved group,
                audit_group "host_group.deleted" actor id
                  (JObject [("kind", JString (kind_as_str (gs_kind group))); ("name", JString (gs_name group));
                            ("overrides_removed", JPosInt count); ("suppressions_ended", JPosInt ended_count)]) t)
      end
  end.
End writes.

(** ** Automatic groups *)

Section automatic.
Context (lower : string -> string) (contained : string -> string -> bool) (gen : nat -> string).

(** [left(text, n)] of PostgreSQL, for a length that is not negative. *)
Definition left_chars (n : Z) (s : string) : string := of_chars (firstn (Z.to_nat n) (chars s)).

(** The [n]-th name [console_free_group_name] tries, with suffix [automatic]. *)
Definition name_candidate (display : string) (n : nat) : string :=
  match n with
  | O => left_chars 128 display
  | S m => let tail := " (" +:+ (if Nat.eqb m 0 then "automatic" else "automatic " +:+ pretty n) +:+ ")" in
           left_chars (128 - char_count tail) display +:+ tail
  end.
Definition name_free (t : GroupTables) (name : string) : bool :=
  negb (existsb (fun g => String.eqb (lower (gr_name g)) (lower name)) (groups t)).
(** The loop stops at the first free name; one of as many as there are groups, and one more, is free. *)
Definition console_free_group_name (display : string) (t : GroupTables) : option string :=
  find (name_free t) (map (name_candidate display) (seq 0 (S (length (groups t))))).

Definition auto_key (field value : string) : string := field +:+ ":" +:+ value.
Definition key_missing (key : string) (t : GroupTables) : bool :=
  negb (existsb (fun g => bool_decide (gr_auto_key g = Some key)) (groups t)) && negb (str_in (dismissed t) key).
Definition automatic_groups (t : GroupTables) : list GroupRow :=
  List.filter (fun g => bool_decide (gr_kind g = Automatic)) (groups t).
(** [starts_with(auto_key, 'distribution:<os id> ')]. *)
Definition releases_of (os_id : string) (t : GroupTables) : list GroupRow :=
  List.filter (fun g => match gr_auto_key g with Some k => starts_with k ("distribution:" +:+ os_id +:+ " ") | None => false end)
    (automatic_groups t).

Definition automatic_row (id name key description : string) (now : Z) : GroupRow :=
  {| gr_id := id; gr_name := name; gr_kind := Automatic; gr_description := description; gr_auto_key := Some key; gr_version := 1;
     gr_created_at := now; gr_created_by := "openvibes"; gr_changed := None |}.

(** One turn of the loop of [ensure_automatic_groups]. *)
Definition ensure_one (field value display : string) (now : Z) (t : GroupTables) : option GroupTables :=
  let key := auto_key field value in
  if (String.eqb field "distribution" && negb (is_distribution value))
     || (String.eqb field "os_family" && negb (str_in ["linux"; "windows"] value)) then Some t
  else if negb (key_missing key t) then Some t
  else if MAX_AUTOMATIC_GROUPS <=? Z.of_nat (length (automatic_groups t)) then Some t
  else if String.eqb field "distribution"
          && (MAX_RELEASES_PER_OS_ID <=? Z.of_nat (length (releases_of (default "" (head (RustStd.split " " value))) t))) then Some t
  else
    let description := if String.eqb field "os_family"
                       then "Every host that reports " +:+ display +:+ ". Kept up to date by OpenVIBES."
                       else "Hosts running " +:+ display +:+ "." in
    name ← console_free_group_name display t;
    let id := gen (draws (people (store t))) in
    if is_some (group_of id t) then None
    else
      let t := with_store (on_people drawn) (add_group_row (automatic_row id name key (left_chars 500 description) now) t) in
      let t := insert_condition lower contained id {| co_field := field; co_negate := false; co_values := [value] |} t in
      Some (with_store (on_people (append_audit
              {| au_actor := "openvibes"; au_action := "host_group.created_automatically"; au_target_kind := "host_group";
                 au_target_id := id; au_detail := JObject [("auto_key", JString key)] |})) t).

Definition ensure_automatic_groups (os_family distribution : string) (now : Z) (t : GroupTables) : option GroupTables :=
  t ← ensure_one "os_family" os_family (os_family_name os_family) now t;
  ensure_one "distribution" distribution (distribution_name distribution) now t.
End automatic.

(** ** Labels *)

Inductive LabelWrite := LabelAdded | LabelAlreadyThere | LabelTooMany | LabelNotFound | LabelInvalid.

Definition has_label (agent label : string) (t : GroupTables) : bool :=
  existsb (fun l => String.eqb l.1 agent && String.eqb l.2 label) (labels t).
Definition labels_of (agent : string) (t : GroupTables) : list string :=
  Prelude.sort_by str_cmp (map snd (List.filter (fun l => String.eqb l.1 agent) (labels t))).
Definition audit_label (action actor agent label : string) : GroupTables -> GroupTables :=
  with_store (on_people (append_audit {| au_actor := actor; au_action := action; au_target_kind := "agent"; au_target_id := agent;
                                         au_detail := JObject [("label", JString label)] |})).

Definition add_label (agent label actor : string) (t : GroupTables) : option (LabelWrite * GroupTables) :=
  match valid_label label with
  | None => Some (LabelInvalid, t)
  | Some label =>
      if negb (db_text agent) then None
      else if negb match agent_of agent (hosts (store t)) with Some a => bool_decide (ag_status a = SActive) | None => false end
      then Some (LabelNotFound, t)
      else if has_label agent label t then Some (LabelAlreadyThere, t)
      else if MAX_LABELS <=? Z.of_nat (length (labels_of agent t)) then Some (LabelTooMany, t)
      else Some (LabelAdded, audit_label "host.label_added" actor agent label (set_labels (fun l => l ++ [(agent, label)]) t))
  end.

Definition remove_label (agent label actor : string) (t : GroupTables) : option (bool * GroupTables) :=
  let label := Text.trim label in
  if negb (db_text agent && db_text label) then None
  else if negb (has_label agent label t) then Some (false, t)
  else Some (true, audit_label "host.label_removed" actor agent label
                     (set_labels (List.filter (fun l => negb (String.eqb l.1 agent && String.eqb l.2 label))) t)).

(** [reachable]: whether it is a host other than a revoked one inside [scope]. *)
Definition reachable_host (scope : AgentScope) (agent : string) (t : GroupTables) : bool :=
  match agent_of agent (hosts (store t)) with
  | Some a => negb (bool_decide (ag_status a = SRevoked)) && visible scope a (hosts (store t)) | None => false end.
Definition host_labels (scope : AgentScope) (agent : string) (t : GroupTables) : option (list string) :=
  if reachable_host scope agent t then Some (labels_of agent t) else None.
