(* ===== verification/RuleAssign.v ===== *)
(** * Which rule sets run on which hosts (platform-store/src/rule_assignment.rs; the handlers of
      openvibes-console/src/rules/assignment.rs)

    An assignable set has a default, and overrides per host group; [collate] is the order PostgreSQL's
    [min] takes names in, [published] whether a live bundle of the set is there. *)
From S2P Require Import Prelude RustStd Text BTree Json AccessDb AlarmData AgentDb AlarmDb GroupData GroupDb.
From stdpp Require Import prelude strings list.
From Stdlib Require Import Ascii ZArith Lia.

Open Scope Z_scope.

Record GroupOverride := { go_asset_group_id : string; go_name : string; go_enabled : bool }.

Record Assignment := {
  as_rule_set_id : string;
  as_default_enabled : bool;
  as_published : bool;
  as_hosts_on : Z;
  as_hosts_off : Z;
  as_groups : list GroupOverride;
}.

Inductive Change := Done (a : Assignment) | UnknownSet | UnknownGroup.

Section assignment.
Context (collate : string -> string -> comparison) (published : string -> bool).

(** An active host whose inventory reported an operating system. *)
Definition linux (t : GroupTables) (a : AgentRow) : bool :=
  bool_decide (ag_status a = SActive) && is_some (of_os_id (os_of (ag_id a) t)).

(** The overrides of the host's groups, and [bool_or] over them. *)
Definition host_overrides (agent set_ : string) (t : GroupTables) : list (string * string * bool) :=
  List.filter (fun o => String.eqb o.1.1 set_ && in_group agent o.1.2 t) (overrides t).
Definition bool_or (l : list bool) : option bool := match l with [] => None | _ => Some (existsb id l) end.
Definition decided (agent set_ : string) (t : GroupTables) : option bool := bool_or (map snd (host_overrides agent set_ t)).
Definition host_enabled (agent : string) (set_ : string * bool) (t : GroupTables) : bool := default set_.2 (decided agent set_.1 t).

Definition assignment_of (set_ : string) (t : GroupTables) : option (string * bool) :=
  find (fun e => String.eqb e.1 set_) (assignment t).

(** The set as the overview shows it. *)
Definition overview_of (t : GroupTables) (set_ : string * bool) : Assignment :=
  let fleet := List.filter (linux t) (agents_of t) in
  let on := List.filter (fun a => host_enabled (ag_id a) set_ t) fleet in
  let off := List.filter (fun a => negb (host_enabled (ag_id a) set_ t)) fleet in
  let named := omap (fun o => g ← group_of o.1.2 t; Some {| go_asset_group_id := o.1.2; go_name := gr_name g; go_enabled := o.2 |})
                 (List.filter (fun o => String.eqb o.1.1 set_.1) (overrides t)) in
  {| as_rule_set_id := set_.1; as_default_enabled := set_.2; as_published := published set_.1;
     as_hosts_on := Z.of_nat (length on); as_hosts_off := Z.of_nat (length off);
     as_groups := Prelude.sort_by (fun a b => collate (go_name a) (go_name b)) named |}.
Definition current_assignment (set_ : string) (t : GroupTables) : Change :=
  match assignment_of set_ t with Some e => Done (overview_of t e) | None => UnknownSet end.

(** One audit row; without the console user there is none and the change fails. *)
Definition audit_assignment (user_id set_ : string) (group : option (string * string)) (old new : option bool) (t : GroupTables)
    : option GroupTables :=
  let opt (o : option bool) := match o with Some b => JBool b | None => JNull end in
  if negb (existsb (fun u => String.eqb (u_id u) user_id) (users (people (store t)))) then None
  else Some (with_store (on_people (append_audit
         {| au_actor := user_id; au_action := "rules.assignment.change"; au_target_kind := "rule_set"; au_target_id := set_;
            au_detail := JObject [("asset_group_id", json_opt_str (fst <$> group)); ("asset_group_name", json_opt_str (snd <$> group));
                                  ("new", opt new); ("old", opt old); ("rule_set_id", JString set_)] |})) t).

Definition set_default (user_id set_ : string) (enabled : bool) (t : GroupTables) : option (Change * GroupTables) :=
  if negb (db_text set_) then None
  else match assignment_of set_ t with
  | None => Some (UnknownSet, t)
  | Some (_, old) =>
      t ← (if Bool.eqb old enabled then Some t
           else audit_assignment user_id set_ None (Some old) (Some enabled)
                  (set_assignment (map (fun e => if String.eqb e.1 set_ then (e.1, enabled) else e)) t));
      Some (current_assignment set_ t, t)
  end.

Definition at_override (set_ gid : string) (o : string * string * bool) : bool := String.eqb o.1.1 set_ && String.eqb o.1.2 gid.
Definition override_of (set_ gid : string) (t : GroupTables) : option bool := snd <$> find (at_override set_ gid) (overrides t).
Definition put_override (set_ gid : string) (enabled : option bool) (t : GroupTables) : GroupTables :=
  match enabled with
  | Some on => if is_some (override_of set_ gid t)
               then set_overrides (map (fun o => if at_override set_ gid o then (o.1, on) else o)) t
               else set_overrides (fun l => l ++ [(set_, gid, on)]) t
  | None => set_overrides (List.filter (fun o => negb (at_override set_ gid o))) t
  end.

Definition set_group (user_id set_ gid : string) (enabled : option bool) (t : GroupTables) : option (Change * GroupTables) :=
  if negb (db_text set_) then None
  else match assignment_of set_ t with
  | None => Some (UnknownSet, t)
  | Some _ =>
      if negb (db_text gid) then None
      else match group_of gid t with
      | None => Some (UnknownGroup, t)
      | Some g =>
          let old := override_of set_ gid t in
          t ← (if bool_decide (old = enabled) then Some t
               else audit_assignment user_id set_ (Some (gid, gr_name g)) old enabled (put_override set_ gid enabled t));
          Some (current_assignment set_ t, t)
      end
  end.

(** ** What a host runs *)

Inductive AssignSource := FromDefault | FromGroup.

Record HostAssignment := {
  ha_rule_set_id : string;
  ha_enabled : bool;
  ha_source : AssignSource;
  ha_group : option string;
  ha_published : bool;
}.

(** [assigned]: a set that is not assignable is always assigned. *)
Definition assigned (agent set_ : string) (t : GroupTables) : bool :=
  match assignment_of set_ t with Some e => host_enabled agent e t | None => true end.

Definition min_name (names : list string) : option string := head (Prelude.sort_by collate names).
Definition host_assignment (agent : string) (t : GroupTables) (e : string * bool) : HostAssignment :=
  let enabled := host_enabled agent e t in
  {| ha_rule_set_id := e.1; ha_enabled := enabled;
     ha_source := if is_some (decided agent e.1 t) then FromGroup else FromDefault;
     ha_group := min_name (omap (fun o => if Bool.eqb o.2 enabled then gr_name <$> group_of o.1.2 t else None) (host_overrides agent e.1 t));
     ha_published := published e.1 |}.

Definition for_agent (scope : AgentScope) (agent : string) (t : GroupTables) : option (list HostAssignment) :=
  match agent_of agent (hosts (store t)) with
  | Some a => if visible scope a (hosts (store t))
              then Some (map (host_assignment agent t) (Prelude.sort_by (fun a b => collate a.1 b.1) (assignment t)))
              else None
  | None => None
  end.
End assignment.
