(* ===== verification/GroupInv.v ===== *)
(** * Host groups: the stored membership is the rule, whatever is written

    Every statement that touches what the rule reads runs its triggers; each lemma takes one of them. *)
From S2P Require Import Prelude RustStd Text BTree Json AccessDb AlarmData AgentDb AgentInv AlarmDb GroupData GroupDb.
From stdpp Require Import prelude strings list.
From Stdlib Require Import Ascii ZArith Lia.

Open Scope Z_scope.

Record unique_ids (t : GroupTables) : Prop := {
  u_agents : NoDup (map ag_id (agents_of t));
  u_groups : NoDup (map gr_id (groups t));
}.

Lemma find_unique_id {A} (key : A -> string) l x : NoDup (map key l) -> In x l -> find (fun y => String.eqb (key y) (key x)) l = Some x.
Proof.
  induction l as [|y l IH]; simpl; [done|]. intros [Hy Hnd]%NoDup_cons [->|Hx]; [by rewrite String.eqb_refl|].
  destruct (String.eqb_spec (key y) (key x)) as [E|]; [|auto]. exfalso. apply Hy, list_elem_of_In. rewrite E. by apply in_map.
Qed.

Lemma agent_of_id id t a : agent_of id t = Some a -> ag_id a = id /\ In a (agents t).
Proof. intros [Hin E%String.eqb_eq]%find_some. done. Qed.
Lemma group_of_id id t g : group_of id t = Some g -> gr_id g = id /\ In g (groups t).
Proof. intros [Hin E%String.eqb_eq]%find_some. done. Qed.

Lemma str_in_In l s : str_in l s = true <-> In s l.
Proof.
  unfold str_in. rewrite existsb_exists. split; [by intros (x & Hx & ->%String.eqb_eq)|]. intros H. exists s. by rewrite String.eqb_refl.
Qed.
Lemma in_group_In a g t : in_group a g t = true <-> In (a, g) (members t).
Proof.
  unfold in_group. rewrite existsb_exists. split.
  - intros ([a' g'] & H & E). simpl in E. by apply andb_prop in E as [<-%String.eqb_eq <-%String.eqb_eq].
  - intros H. exists (a, g). split; [done|]. simpl. by rewrite !String.eqb_refl.
Qed.

Lemma forallb_same {A} (p q : A -> bool) l : (forall x, p x = q x) -> forallb p l = forallb q l.
Proof. intros H. induction l as [|x l IH]; simpl; [done|]. by rewrite H, IH. Qed.

Lemma filter_all {A} (p : A -> bool) l : (forall x, In x l -> p x = true) -> List.filter p l = l.
Proof. intros H. induction l as [|x l IH]; simpl; [done|]. rewrite H by (by left). f_equal. apply IH. intros y Hy. apply H. by right. Qed.

Section groups.
Context (lower : string -> string) (contained : string -> string -> bool).

Notation belongs := (belongs lower contained).
Notation refresh_group := (refresh_group lower contained).
Notation refresh_agent := (refresh_agent lower contained).

(** The rule: the group holds the host. *)
Definition ruled (t : GroupTables) (agent gid : string) : Prop :=
  exists a g, agent_of agent (hosts (store t)) = Some a /\ group_of gid t = Some g /\ belongs t g a = true.
(** The stored membership is the rule. *)
Definition settled (t : GroupTables) : Prop := forall agent gid, In (agent, gid) (members t) <-> ruled t agent gid.

Lemma wanted_hosts_spec t gid agent : unique_ids t -> In agent (wanted_hosts lower contained gid t) <-> ruled t agent gid.
Proof.
  intros [Ha Hg]. unfold wanted_hosts, ruled. split.
  - destruct (group_of gid t) as [g|] eqn:Eg; [|done]. intros (a & <- & [Hin Hb]%filter_In)%in_map_iff. exists a, g.
    split; [by apply find_unique_id|done].
  - intros (a & g & Ea & -> & Hb). apply agent_of_id in Ea as [<- Hin]. apply in_map. by apply filter_In.
Qed.

Lemma wanted_groups_spec t gid agent : unique_ids t -> In gid (wanted_groups lower contained agent t) <-> ruled t agent gid.
Proof.
  intros [Ha Hg]. unfold wanted_groups, ruled. split.
  - destruct (agent_of agent _) as [a|] eqn:Ea; [|done]. intros (g & <- & [Hin Hb]%filter_In)%in_map_iff. exists a, g.
    split_and!; [done|by apply find_unique_id|done].
  - intros (a & g & -> & Eg & Hb). apply group_of_id in Eg as [<- Hin]. apply in_map. by apply filter_In.
Qed.

Lemma refresh_group_members t gid agent gid' :
  In (agent, gid') (members (refresh_group gid t))
  <-> if String.eqb gid' gid then In agent (wanted_hosts lower contained gid t) else In (agent, gid') (members t).
Proof.
  unfold members at 1. simpl. rewrite in_app_iff, filter_In, in_map_iff. simpl. fold (members t).
  destruct (String.eqb_spec gid' gid) as [->|Hne]; simpl.
  - rewrite str_in_In. split.
    + intros [[_ H]|(x & [= ->] & [H _]%filter_In)]; done.
    + intros H. destruct (in_group agent gid t) eqn:E; [left; split; [by apply in_group_In|done]|].
      right. exists agent. split; [done|]. apply filter_In. by rewrite E.
  - split; [intros [[H _]|(x & [= _ <-] & _)]; done|]. auto.
Qed.

Lemma refresh_agent_members t aid agent gid :
  In (agent, gid) (members (refresh_agent aid t))
  <-> if String.eqb agent aid then In gid (wanted_groups lower contained aid t) else In (agent, gid) (members t).
Proof.
  unfold members at 1. simpl. rewrite in_app_iff, filter_In, in_map_iff. simpl. fold (members t).
  destruct (String.eqb_spec agent aid) as [->|Hne]; simpl.
  - rewrite str_in_In. split.
    + intros [[_ H]|(x & [= ->] & [H _]%filter_In)]; done.
    + intros H. destruct (in_group aid gid t) eqn:E; [left; split; [by apply in_group_In|done]|].
      right. exists gid. split; [done|]. apply filter_In. by rewrite E.
  - split; [intros [[H _]|(x & [= <- _] & _)]; done|]. auto.
Qed.

(** ** What the rule reads *)

Definition picks_of (gid : string) (t : GroupTables) : list (string * string) := List.filter (fun p => String.eqb p.1 gid) (picks t).
(** Two states with the same hosts, and the same rule for a group. *)
Definition same_hosts (t t' : GroupTables) : Prop := agents_of t' = agents_of t /\ facts t' = facts t.
Definition same_rule (gid : string) (t t' : GroupTables) : Prop :=
  gr_kind <$> group_of gid t' = gr_kind <$> group_of gid t /\ conditions_of gid t' = conditions_of gid t
  /\ forall a, existsb (fun p => String.eqb p.1 gid && String.eqb p.2 a) (picks t')
             = existsb (fun p => String.eqb p.1 gid && String.eqb p.2 a) (picks t).

Lemma same_hosts_os t t' agent : same_hosts t t' -> os_of agent t' = os_of agent t.
Proof. intros [_ E]. unfold os_of. by rewrite E. Qed.

Lemma ruled_same t t' agent gid : same_hosts t t' -> same_rule gid t t' -> ruled t' agent gid <-> ruled t agent gid.
Proof.
  intros Hh (Hk & Hc & Hp). pose proof Hh as [Ha _]. unfold agents_of in Ha. unfold ruled, agent_of. rewrite Ha.
  assert (forall a g g', gr_id g = gid -> gr_id g' = gid -> gr_kind g' = gr_kind g -> belongs t' g' a = belongs t g a) as Hb.
  { intros a g g' E E' Ek. unfold GroupDb.belongs. rewrite Ek, E, E', Hc, (same_hosts_os _ _ _ Hh), Hp. done. }
  destruct (group_of gid t) as [g|] eqn:Eg, (group_of gid t') as [g'|] eqn:Eg'; simpl in Hk; try done.
  - injection Hk as Hk. pose proof (group_of_id _ _ _ Eg) as [E _]. pose proof (group_of_id _ _ _ Eg') as [E' _].
    split; intros (a & h & H1 & [= <-] & H2); [exists a, g|exists a, g']; (split; [done|split; [done|]]);
      [rewrite <- (Hb a g g')|rewrite (Hb a g g')]; done.
  - split; by intros (a & h & _ & ? & _).
Qed.

(** A statement on one group, then its refresh. *)
Lemma settled_group gid t t' : settled t -> unique_ids t' -> same_hosts t t' -> members t' = members t ->
  (forall gid', gid' <> gid -> same_rule gid' t t') -> settled (refresh_group gid t').
Proof.
  intros Hs Hu Hh Hm Hr agent gid'. rewrite refresh_group_members. transitivity (ruled t' agent gid').
  - destruct (String.eqb_spec gid' gid) as [->|Hne]; [by apply wanted_hosts_spec|]. rewrite Hm, (Hs agent gid'). symmetry.
    apply ruled_same; auto.
  - symmetry. apply ruled_same; [done|done].
Qed.

(** A statement that touches no rule. *)
Lemma settled_still t t' : settled t -> same_hosts t t' -> members t' = members t -> (forall gid, same_rule gid t t') -> settled t'.
Proof. intros Hs Hh Hm Hr agent gid. rewrite Hm, (Hs agent gid). symmetry. by apply ruled_same. Qed.

(** ** The invariant *)

(** Pairs, conditions, picks and overrides are of groups that are there. *)
Record owned (t : GroupTables) : Prop := {
  o_conditions : forall e, In e (conditions t) -> In e.1 (map gr_id (groups t));
  o_picks : forall p, In p (picks t) -> In p.1 (map gr_id (groups t));
  o_overrides : forall o, In o (overrides t) -> In o.1.2 (map gr_id (groups t));
  o_asset_groups : asset_groups (people (store t)) = map gr_id (groups t);
}.
Record sound (t : GroupTables) : Prop := {
  s_unique : unique_ids t;
  s_owned : owned t;
  s_settled : settled t;
}.

Lemma group_of_In gid t : In gid (map gr_id (groups t)) <-> exists g, group_of gid t = Some g.
Proof.
  split.
  - intros (g & <- & Hin)%in_map_iff. unfold group_of. destruct (find _ (groups t)) as [h|] eqn:E; [by exists h|].
    exfalso. pose proof (find_none _ _ E g Hin) as H. simpl in H. by rewrite String.eqb_refl in H.
  - intros (g & [<- Hin]%group_of_id). by apply in_map.
Qed.

Lemma conditions_of_filter gid gid' l : gid' <> gid ->
  map snd (List.filter (fun e : string * Condition => String.eqb e.1 gid') (List.filter (fun e => negb (String.eqb e.1 gid)) l))
  = map snd (List.filter (fun e => String.eqb e.1 gid') l).
Proof.
  intros Hne. induction l as [|e l IH]; simpl; [done|]. destruct (String.eqb_spec e.1 gid) as [E|E]; simpl.
  - rewrite IH. destruct (String.eqb_spec e.1 gid'); [congruence|done].
  - destruct (String.eqb e.1 gid'); simpl; by rewrite IH.
Qed.

Lemma existsb_filter {A} (p q : A -> bool) l : (forall x, p x = true -> q x = true) -> existsb p (List.filter q l) = existsb p l.
Proof.
  intros H. induction l as [|x l IH]; simpl; [done|]. destruct (q x) eqn:E; simpl; rewrite IH; [done|].
  destruct (p x) eqn:Ep; [|done]. apply H in Ep. congruence.
Qed.

Lemma sound_group gid t t' : sound t -> groups t' = groups t -> overrides t' = overrides t -> store t' = store t -> facts t' = facts t ->
  (forall gid', gid' <> gid -> same_rule gid' t t') ->
  (forall e, In e (conditions t') -> In e.1 (map gr_id (groups t))) -> (forall p, In p (picks t') -> In p.1 (map gr_id (groups t))) ->
  sound (refresh_group gid t').
Proof.
  intros [[U1 U2] [O1 O2 O3 O4] Hs] Eg Eo Es Ef Hr Hc Hp.
  assert (unique_ids t') as Hu by (split; unfold agents_of; rewrite ?Es, ?Eg; done).
  assert (owned t') as Ho by (split; rewrite ?Eg, ?Eo, ?Es; done).
  split; [destruct Hu; by split|destruct Ho; by split|]. apply (settled_group gid t); try done.
  - split; [|done]. unfold agents_of. by rewrite Es.
  - unfold members. by rewrite Es.
Qed.

Lemma delete_conditions_sound gid t : sound t -> sound (delete_conditions lower contained gid t).
Proof.
  intros Hs. unfold delete_conditions. destruct (existsb _ _); [|done]. pose proof Hs as [Hu [O1 O2 O3 O4] Hset].
  apply (sound_group _ t); try done.
  - intros gid' Hne. split_and!; [done| |done]. by apply conditions_of_filter.
  - intros e [He _]%filter_In. by apply O1.
Qed.

Lemma insert_condition_sound gid c t : sound t -> In gid (map gr_id (groups t)) -> sound (insert_condition lower contained gid c t).
Proof.
  intros Hs Hg. pose proof Hs as [Hu [O1 O2 O3 O4] Hset]. apply (sound_group _ t); try done.
  - intros gid' Hne. split_and!; [done| |done]. unfold conditions_of. simpl. rewrite List.filter_app, map_app. simpl.
    destruct (String.eqb_spec gid gid'); [congruence|]. simpl. by rewrite app_nil_r.
  - intros e [He|[<-|[]]]%in_app_iff; [by apply O1|done].
Qed.

Lemma delete_picks_sound gid keep t : sound t -> sound (delete_picks lower contained gid keep t).
Proof.
  intros Hs. unfold delete_picks. destruct (existsb _ _); [|done]. pose proof Hs as [Hu [O1 O2 O3 O4] Hset].
  apply (sound_group _ t); try done.
  - intros gid' Hne. split_and!; [done|done|]. intros a. apply existsb_filter. intros p [E%String.eqb_eq _]%andb_prop.
    destruct (String.eqb_spec p.1 gid); [congruence|done].
  - intros p [Hp _]%filter_In. by apply O2.
Qed.

Lemma insert_picks_sound gid picked t : sound t -> In gid (map gr_id (groups t)) -> sound (insert_picks lower contained gid picked t).
Proof.
  intros Hs Hg. unfold insert_picks. case_bool_decide; [done|]. pose proof Hs as [Hu [O1 O2 O3 O4] Hset].
  apply (sound_group _ t); try done.
  - intros gid' Hne. split_and!; [done|done|]. intros a. simpl. rewrite existsb_app.
    match goal with |- _ || ?b = _ => assert (b = false) as ->; [|apply orb_false_r] end. apply not_true_iff_false.
    intros (p & (x & <- & _)%in_map_iff & [E%String.eqb_eq _]%andb_prop)%existsb_exists. simpl in E. congruence.
  - intros p [Hp|(x & <- & _)%in_map_iff]%in_app_iff; [by apply O2|done].
Qed.

(** *** Rows of groups *)

Definition keeps_id (f : GroupRow -> GroupRow) : Prop := forall g, gr_id (f g) = gr_id g.

Lemma map_rows_ids gid f l : keeps_id f -> map gr_id (map (fun g => if String.eqb (gr_id g) gid then f g else g) l) = map gr_id l.
Proof. intros Hf. rewrite map_map. apply map_ext. intros g. by destruct (String.eqb _ _). Qed.

Lemma group_of_map gid gid' f t : keeps_id f ->
  group_of gid' (set_groups (map (fun g => if String.eqb (gr_id g) gid then f g else g)) t)
  = (fun g => if String.eqb gid' gid then f g else g) <$> group_of gid' t.
Proof.
  intros Hf. unfold group_of. simpl. induction (groups t) as [|g l IH]; simpl; [done|].
  assert (gr_id (if String.eqb (gr_id g) gid then f g else g) = gr_id g) as -> by (destruct (String.eqb (gr_id g) gid); [apply Hf|done]).
  by destruct (String.eqb_spec (gr_id g) gid') as [<-|].
Qed.

Lemma update_group_row_sound gid f t : keeps_id f -> sound t -> sound (update_group_row lower contained gid f t).
Proof.
  intros Hf [[U1 U2] [O1 O2 O3 O4] Hs]. unfold update_group_row. set (t' := set_groups _ t).
  assert (map gr_id (groups t') = map gr_id (groups t)) as Eids by (by apply map_rows_ids).
  assert (unique_ids t') as Hu by (split; [done|by rewrite Eids]).
  assert (owned t') as Ho by (split; rewrite Eids; done).
  assert (forall gid', gid' <> gid -> same_rule gid' t t') as Hr.
  { intros gid' Hne. split_and!; [|done|done]. unfold t'. rewrite group_of_map by done. destruct (String.eqb_spec gid' gid); [done|].
    by destruct (group_of gid' t). }
  case_bool_decide as Ek.
  - split; [done|done|]. apply (settled_still t); try done. intros gid'. destruct (decide (gid' = gid)) as [->|Hne]; [|auto].
    split_and!; done.
  - split; [destruct Hu; by split|destruct Ho; by split|]. by apply (settled_group gid t).
Qed.

Lemma add_group_row_sound g t : sound t -> group_of (gr_id g) t = None -> sound (add_group_row g t).
Proof.
  intros [[U1 U2] [O1 O2 O3 O4] Hs] Hn.
  assert (~ In (gr_id g) (map gr_id (groups t))) as Hni by (rewrite group_of_In; intros [h Hh]; congruence).
  assert (forall gid', gid' <> gr_id g -> group_of gid' (add_group_row g t) = group_of gid' t) as Hof.
  { intros gid' Hne. unfold group_of. simpl. clear -Hne. induction (groups t) as [|h l IH]; simpl.
    - destruct (String.eqb_spec (gr_id g) gid'); [congruence|done].
    - destruct (String.eqb (gr_id h) gid'); [done|]. apply IH. }
  split.
  - split; [done|]. simpl. rewrite map_app. apply NoDup_snoc; [done|]. by rewrite list_elem_of_In.
  - split; simpl; rewrite ?map_app, ?O4; [| | |done].
    + intros e He. apply in_app_iff. left. by apply O1.
    + intros p Hp. apply in_app_iff. left. by apply O2.
    + intros o Ho. apply in_app_iff. left. by apply O3.
  - intros agent gid'. change (members (add_group_row g t)) with (members t). rewrite (Hs agent gid').
    destruct (decide (gid' = gr_id g)) as [->|Hne].
    + split; [intros (a & h & _ & E & _); congruence|]. intros (a & h & Ea & Eh & Hb). exfalso. apply group_of_id in Eh as [Eid _].
      unfold GroupDb.belongs in Hb. rewrite Eid in Hb. apply andb_prop in Hb as [_ Hb].
      assert (existsb (fun p => String.eqb p.1 (gr_id g) && String.eqb p.2 (ag_id a)) (picks (add_group_row g t)) = false) as Ep.
      { apply not_true_iff_false. intros (p & Hp & [E%String.eqb_eq _]%andb_prop)%existsb_exists. apply Hni. rewrite <- E. by apply O2. }
      assert (conditions_of (gr_id g) (add_group_row g t) = []) as Ec.
      { unfold conditions_of. simpl. rewrite filter_none; [done|]. intros e He. destruct (String.eqb_spec e.1 (gr_id g)) as [E|]; [|done].
        exfalso. apply Hni. rewrite <- E. by apply O1. }
      rewrite Ep, Ec in Hb. by destruct (gr_kind h).
    + symmetry. apply ruled_same; [done|]. split_and!; [by rewrite Hof|done|done].
Qed.

Lemma filter_ids (p : string -> bool) l : map gr_id (List.filter (fun g => p (gr_id g)) l) = List.filter p (map gr_id l).
Proof. induction l as [|g l IH]; simpl; [done|]. destruct (p (gr_id g)); simpl; by rewrite IH. Qed.

Lemma delete_group_row_sound gid t : sound t -> sound (delete_group_row gid t).
Proof.
  intros [[U1 U2] [O1 O2 O3 O4] Hs]. set (t' := delete_group_row gid t).
  assert (map gr_id (groups t') = List.filter (fun g => negb (String.eqb g gid)) (map gr_id (groups t))) as Eids
    by (apply (filter_ids (fun g => negb (String.eqb g gid)))).
  assert (forall gid', group_of gid' t' = if String.eqb gid' gid then None else group_of gid' t) as Hof.
  { intros gid'. unfold group_of. simpl. clear. induction (groups t) as [|g l IH]; simpl; [by destruct (String.eqb gid' gid)|].
    destruct (String.eqb_spec (gr_id g) gid) as [E|E]; simpl; destruct (String.eqb_spec (gr_id g) gid') as [E'|E']; try done;
      rewrite ?IH; destruct (String.eqb_spec gid' gid); try done; congruence. }
  assert (forall x, negb (String.eqb x gid) = true -> In x (map gr_id (groups t)) -> In x (map gr_id (groups t'))) as Hin.
  { intros x Hx H. rewrite Eids. by apply filter_In. }
  split.
  - split; [done|]. rewrite Eids. apply NoDup_ListNoDup. by apply List.NoDup_filter, NoDup_ListNoDup.
  - split.
    + intros e [He Hx]%filter_In. apply Hin; [done|by apply O1].
    + intros p [Hp Hx]%filter_In. apply Hin; [done|by apply O2].
    + intros o [Ho Hx]%filter_In. apply Hin; [done|by apply O3].
    + rewrite Eids. simpl. by rewrite O4.
  - intros agent gid'. unfold members. simpl. rewrite filter_In. simpl. fold (members t). destruct (String.eqb_spec gid' gid) as [->|Hne]; simpl.
    + split; [by intros [_ ?]|]. intros (a & g & _ & E & _). rewrite Hof, String.eqb_refl in E. done.
    + rewrite (Hs agent gid'). transitivity (ruled t agent gid'); [tauto|]. symmetry. apply ruled_same; [done|]. split_and!.
      * rewrite Hof. by destruct (String.eqb_spec gid' gid).
      * by apply conditions_of_filter.
      * intros a. apply existsb_filter. intros p [E%String.eqb_eq _]%andb_prop. destruct (String.eqb_spec p.1 gid); [congruence|done].
Qed.

(** *** Hosts *)

Lemma refresh_agent_ruled aid t agent gid : ruled (refresh_agent aid t) agent gid <-> ruled t agent gid.
Proof. apply ruled_same; [done|]. done. Qed.

Lemma refresh_agents_members l : forall t agent gid, unique_ids t ->
  In (agent, gid) (members (fold_left (fun u a => refresh_agent (ag_id a) u) l t))
  <-> if str_in (map ag_id l) agent then ruled t agent gid else In (agent, gid) (members t).
Proof.
  induction l as [|a l IH]; intros t agent gid Hu; [done|]. cbn [fold_left map str_in existsb]. fold (str_in (map ag_id l) agent).
  etransitivity; [apply IH; destruct Hu; by split|]. destruct (str_in (map ag_id l) agent) eqn:E.
  - rewrite orb_true_r. apply refresh_agent_ruled.
  - rewrite orb_false_r. etransitivity; [apply refresh_agent_members|].
    destruct (String.eqb_spec agent (ag_id a)) as [->|]; [|done]. by apply wanted_groups_spec.
Qed.

Lemma refresh_agents_frame l t : let t' := fold_left (fun u a => refresh_agent (ag_id a) u) l t in
  agents_of t' = agents_of t /\ facts t' = facts t /\ groups t' = groups t /\ conditions t' = conditions t /\ picks t' = picks t
  /\ overrides t' = overrides t /\ people (store t') = people (store t).
Proof. revert t. induction l as [|a l IH]; intros t; simpl; [done|]. apply (IH (refresh_agent (ag_id a) t)). Qed.

(** What a host's changed row can leave as it was. *)
Lemma belongs_unchanged before t g a b : ag_id b = ag_id a -> conditions t = conditions before ->
  agent_of (ag_id a) (hosts (store before)) = Some b -> host_changed lower before t a = false ->
  existsb (fun p => String.eqb p.1 (gr_id g) && String.eqb p.2 (ag_id a)) (picks t)
  = existsb (fun p => String.eqb p.1 (gr_id g) && String.eqb p.2 (ag_id a)) (picks before) ->
  belongs t g a = belongs before g b.
Proof.
  intros Eid Ec Eb Hch Hp. unfold host_changed in Hch. rewrite Eb in Hch. unfold GroupDb.belongs. rewrite Eid, Hp.
  apply andb_false_iff in Hch as [[H1 H2]%orb_false_iff|H].
  - by rewrite H1, H2.
  - apply negb_false_iff in H. rewrite !andb_true_iff, !bool_decide_eq_true in H. destruct H as [[[[Es Ef] Ed] Eh] Ea].
    rewrite Es. f_equal. destruct (gr_kind g); try done;
      (replace (conditions_of (gr_id g) t) with (conditions_of (gr_id g) before) by (unfold conditions_of; by rewrite Ec); f_equal;
       apply forallb_same; intros c; unfold condition_holds; by rewrite Ef, Ed, Eh, Ea).
Qed.

(** Hosts enrolled, revoked, gone, renamed, with other facts: the triggers bring the pairs in line. *)
Lemma agents_triggers_sound before t : sound before -> NoDup (map ag_id (agents_of t)) ->
  groups t = groups before -> conditions t = conditions before -> picks t = picks before -> overrides t = overrides before ->
  members t = members before -> asset_groups (people (store t)) = asset_groups (people (store before)) ->
  sound (agents_triggers lower contained before t).
Proof.
  intros [[U1 U2] [O1 O2 O3 O4] Hs] Hnd Eg Ec Ep Eo Em Ea. unfold agents_triggers. cbv zeta.
  set (gone := map ag_id _). set (changed := List.filter _ _). set (t' := set_labels _ _).
  destruct (refresh_agents_frame changed t') as (F1 & F2 & F3 & F4 & F5 & F6 & F7). set (final := fold_left _ changed t') in *.
  assert (unique_ids t') as Hu by (split; [done|by rewrite <- Eg in U2]).
  assert (forall id a, agent_of id (hosts (store t)) = Some a -> str_in gone id = false) as Hgone.
  { intros id a Ha. apply not_true_iff_false. rewrite str_in_In. intros (b & <- & [_ Hb]%filter_In)%in_map_iff. by rewrite Ha in Hb. }
  split.
  - split; [by rewrite F1|by rewrite F3; destruct Hu].
  - split; rewrite ?F4, ?F5, ?F6, ?F3, ?F7; simpl; rewrite ?Ec, ?Eo, ?Eg, ?Ea; try done.
    intros p [Hp _]%filter_In. rewrite Ep in Hp. by apply O2.
  - intros agent gid. etransitivity; [by apply refresh_agents_members|].
    transitivity (ruled t' agent gid); [|symmetry; apply ruled_same; [by split|]; unfold same_rule, group_of, conditions_of; by rewrite F3, F4, F5].
    destruct (str_in (map ag_id changed) agent) eqn:Ech; [done|]. unfold members. simpl. rewrite filter_In. simpl. fold (members t).
    rewrite Em, (Hs agent gid). unfold ruled. simpl. unfold group_of. simpl. rewrite Eg. fold (group_of gid before).
    change (agent_of agent (set_membership _ (hosts (store t)))) with (agent_of agent (hosts (store t))).
    destruct (agent_of agent (hosts (store t))) as [a|] eqn:Eat.
    + rewrite (Hgone _ _ Eat). pose proof (agent_of_id _ _ _ Eat) as [<- Hin].
      assert (host_changed lower before t a = false) as Hch.
      { apply not_true_iff_false. intros H. apply not_true_iff_false in Ech. apply Ech, str_in_In, in_map, filter_In. done. }
      destruct (agent_of (ag_id a) (hosts (store before))) as [b|] eqn:Eab.
      * pose proof (agent_of_id _ _ _ Eab) as [Eid _].
        assert (forall g, belongs t' g a = belongs before g b) as Hb.
        { intros g. apply (belongs_unchanged before t'); try done. simpl. rewrite Ep. apply existsb_filter.
          intros p [_ E%String.eqb_eq]%andb_prop. by rewrite E, (Hgone _ _ Eat). }
        split; [intros [(x & g & [= <-] & E & H) _]; exists a, g; by rewrite Hb|].
        intros (x & g & [= <-] & E & H). rewrite Hb in H. split; [by exists b, g|done].
      * split; [by intros [(x & g & ? & _) _]|]. intros (x & g & [= <-] & E & H). unfold host_changed in Hch. rewrite Eab in Hch.
        unfold GroupDb.belongs in H. by rewrite Hch in H.
    + split; [|by intros (x & g & ? & _)]. intros [(b & g & Eb & _) Hg]. apply agent_of_id in Eb as [<- Hin].
      apply negb_true_iff, not_true_iff_false in Hg. exfalso. apply Hg, str_in_In, in_map, filter_In. by rewrite Eat.
Qed.

(** ** Operations *)

(** A change to nothing the rule reads. *)
Record quiet_groups (t t' : GroupTables) : Prop := {
  q_groups : groups t' = groups t;
  q_conditions : conditions t' = conditions t;
  q_picks : picks t' = picks t;
  q_overrides : overrides t' = overrides t;
  q_hosts : hosts (store t') = hosts (store t);
  q_facts : facts t' = facts t;
  q_asset_groups : asset_groups (people (store t')) = asset_groups (people (store t));
}.
Lemma quiet_sound t t' : quiet_groups t t' -> sound t -> sound t'.
Proof.
  intros [Q1 Q2 Q3 Q4 Q5 Q6 Q7] [[U1 U2] [O1 O2 O3 O4] Hs].
  assert (agents_of t' = agents_of t) as Qa by (unfold agents_of; by rewrite Q5).
  split; [split; by rewrite ?Qa, ?Q1|split; by rewrite ?Q1, ?Q2, ?Q3, ?Q4, ?Q7|].
  apply (settled_still t); try done; [by unfold members; rewrite Q5|]. intros gid. unfold same_rule, group_of, conditions_of.
  by rewrite Q1, Q2, Q3.
Qed.

Lemma dismiss_quiet id t : quiet_groups t (dismiss id t).
Proof. unfold dismiss. destruct (group_of id t) as [g|]; [destruct (gr_auto_key g)|]; by split. Qed.
Lemma audit_group_quiet action actor id d t : quiet_groups t (audit_group action actor id d t).
Proof. by split. Qed.

Lemma groups_update_group_row gid f t : groups (update_group_row lower contained gid f t)
  = map (fun g => if String.eqb (gr_id g) gid then f g else g) (groups t).
Proof. unfold update_group_row. by case_bool_decide. Qed.
Lemma groups_delete_conditions gid t : groups (delete_conditions lower contained gid t) = groups t.
Proof. unfold delete_conditions. by destruct (existsb _ _). Qed.
Lemma groups_delete_picks gid keep t : groups (delete_picks lower contained gid keep t) = groups t.
Proof. unfold delete_picks. by destruct (existsb _ _). Qed.
Lemma groups_insert_picks gid picked t : groups (insert_picks lower contained gid picked t) = groups t.
Proof. unfold insert_picks. by case_bool_decide. Qed.

Lemma insert_conditions_sound gid cs : forall t, sound t -> In gid (map gr_id (groups t)) ->
  sound (fold_left (fun t c => insert_condition lower contained gid c t) cs t)
  /\ groups (fold_left (fun t c => insert_condition lower contained gid c t) cs t) = groups t.
Proof.
  induction cs as [|c cs IH]; intros t Hs Hg; [done|]. simpl.
  apply (IH (insert_condition lower contained gid c t)); [by apply insert_condition_sound|done].
Qed.

Lemma write_content_sound gid content picked t : sound t -> In gid (map gr_id (groups t)) ->
  sound (write_content lower contained gid content picked t) /\ groups (write_content lower contained gid content picked t) = groups t.
Proof.
  intros Hs Hg. unfold write_content. cbv zeta. set (t2 := insert_picks _ _ _ _ _).
  assert (groups t2 = groups t) as Eg by (by unfold t2; rewrite groups_insert_picks, groups_delete_picks, groups_delete_conditions).
  assert (sound t2) as Hs2.
  { apply insert_picks_sound; [by apply delete_picks_sound, delete_conditions_sound|].
    by rewrite groups_delete_picks, groups_delete_conditions. }
  destruct content as [cs|]; [|done]. rewrite <- Eg in Hg |- *. by apply insert_conditions_sound.
Qed.

Lemma write_sound gen existing expected input actor now t r t' :
  write lower contained gen existing expected input actor now t = Some (r, t') -> sound t -> sound t'.
Proof.
  intros Hw Hs. unfold write in Hw. destruct (invalid_part input); [by injection Hw as _ <-|]. cbv zeta in Hw.
  set (picked := match gi_content input with RuleContent _ => [] | ManualContent p => distinct p end) in *.
  set (kind := match gi_content input with RuleContent _ => Rule | ManualContent _ => Manual end) in *.
  destruct (not_current existing expected t) eqn:Enc; [by injection Hw as _ <-|]. destruct (negb (forallb db_text picked)); [done|].
  destruct (unknown_host picked t); [by injection Hw as _ <-|]. destruct (negb (db_text _)); [done|].
  destruct (group_name_taken lower _ _ t); [by injection Hw as _ <-|].
  apply bind_Some in Hw as (head & Hhead & (saved & _ & [= _ <-])%bind_Some).
  eapply quiet_sound; [apply audit_group_quiet|]. apply write_content_sound; destruct existing as [[id version]|].
  - destruct (i32_max <=? version); [done|]. injection Hhead as <-. apply update_group_row_sound; [done|].
    eapply quiet_sound; [apply dismiss_quiet|done].
  - destruct (group_of _ t) eqn:Eg; [done|]. injection Hhead as <-. eapply (quiet_sound (add_group_row (created _ input kind actor now) t)); [by split|by apply add_group_row_sound].
  - destruct (i32_max <=? version); [done|]. injection Hhead as <-. rewrite groups_update_group_row, map_rows_ids by done.
    rewrite (q_groups _ _ (dismiss_quiet id t)). simpl in Enc. destruct (group_of id t) as [g|] eqn:Eg; [|done].
    apply group_of_In. by exists g.
  - destruct (group_of _ t) eqn:Eg; [done|]. injection Hhead as <-. simpl. rewrite map_app, in_app_iff. right. by left.
Qed.

Lemma suppression_logs_frame action actor l : forall s,
  let s' := fold_left (fun s sp => suppression_log action actor (sp_id sp) s) l s in people s' = people s /\ hosts s' = hosts s.
Proof. induction l as [|sp l IH]; intros s; simpl; [done|]. apply (IH (suppression_log action actor (sp_id sp) s)). Qed.
Lemma end_suppressions_frame id from to action actor now s :
  let s' := end_suppressions id from to action actor now s in people s' = people s /\ hosts s' = hosts s.
Proof.
  unfold end_suppressions. cbv zeta. set (l := List.filter _ _). set (s1 := set_suppressions _ s). apply (suppression_logs_frame action actor l s1).
Qed.

Lemma delete_sound id version actor now t r t' : GroupDb.delete id version actor now t = Some (r, t') -> sound t -> sound t'.
Proof.
  intros Hd Hs. unfold GroupDb.delete in Hd. destruct (group_of id t) as [g|]; [|by injection Hd as _ <-].
  destruct (negb _); [by injection Hd as _ <-|]. destruct (Prelude.sort_by _ _); [|by injection Hd as _ <-].
  cbv zeta in Hd. unfold end_group_suppressions in Hd. injection Hd as _ <-. eapply quiet_sound; [apply audit_group_quiet|]. apply delete_group_row_sound.
  eapply quiet_sound; [apply dismiss_quiet|]. eapply quiet_sound; [|done].
  pose proof (end_suppressions_frame id Waiting Withdrawn "alarm.suppression.withdrawn" actor now (store t)) as F.
  destruct F as [F3 F4]. set (s1 := end_suppressions id Waiting Withdrawn "alarm.suppression.withdrawn" actor now (store t)) in *.
  destruct (end_suppressions_frame id Applied Removed "alarm.suppression.removed" actor now s1) as [F1 F2].
  split; simpl; try done; fold s1; [by rewrite F2|by rewrite F1, F3].
Qed.

Lemma ensure_one_sound gen field value display now t t' : ensure_one lower contained gen field value display now t = Some t' -> sound t -> sound t'.
Proof.
  unfold ensure_one. intros H Hs. repeat (destruct (_ : bool); [by injection H as <-|]).
  apply bind_Some in H as (name & _ & H). destruct (group_of _ t) eqn:Eg; [done|]. injection H as <-.
  set (row := automatic_row _ _ _ _ _). eapply (quiet_sound (insert_condition lower contained (gr_id row) _ _)); [by split|].
  apply insert_condition_sound.
  - eapply (quiet_sound (add_group_row row t)); [by split|]. by apply add_group_row_sound.
  - simpl. rewrite map_app, in_app_iff. right. by left.
Qed.
Lemma ensure_automatic_groups_sound gen os_family distribution now t t' :
  ensure_automatic_groups lower contained gen os_family distribution now t = Some t' -> sound t -> sound t'.
Proof. intros (u & H1 & H2)%bind_Some Hs. eapply ensure_one_sound; [done|]. by eapply ensure_one_sound. Qed.

Lemma add_label_quiet agent label actor t r t' : add_label agent label actor t = Some (r, t') -> quiet_groups t t'.
Proof.
  unfold add_label. destruct (valid_label label); [|by intros [= _ <-]]. destruct (negb _); [done|].
  repeat (destruct (_ : bool); [by intros [= _ <-]|]). by intros [= _ <-].
Qed.
Lemma remove_label_quiet agent label actor t r t' : remove_label agent label actor t = Some (r, t') -> quiet_groups t t'.
Proof. unfold remove_label. destruct (negb _); [done|]. destruct (negb _); by intros [= _ <-]. Qed.

(** ** What a write leaves *)

Definition picked_in (gid agent : string) (t : GroupTables) : bool :=
  existsb (fun p => String.eqb p.1 gid && String.eqb p.2 agent) (picks t).

Lemma delete_conditions_effect gid t : let t' := delete_conditions lower contained gid t in
  conditions_of gid t' = [] /\ picks t' = picks t /\ agents_of t' = agents_of t /\ facts t' = facts t.
Proof.
  unfold delete_conditions, conditions_of. destruct (existsb _ (conditions t)) eqn:E; split_and!; try done; simpl.
  - rewrite filter_none; [done|]. intros e [_ H]%filter_In. by apply negb_true_iff.
  - rewrite filter_none; [done|]. intros e He. apply not_true_iff_false. intros H. apply not_true_iff_false in E. apply E, existsb_exists. by exists e.
Qed.

Lemma delete_picks_effect gid keep t : let t' := delete_picks lower contained gid keep t in
  (forall a, picked_in gid a t' = picked_in gid a t && str_in keep a) /\ conditions t' = conditions t /\ agents_of t' = agents_of t /\ facts t' = facts t.
Proof.
  set (goes := fun p : string * string => String.eqb p.1 gid && negb (str_in keep p.2)).
  assert (forall l a, existsb (fun p => String.eqb p.1 gid && String.eqb p.2 a) (List.filter (fun p => negb (goes p)) l)
                      = existsb (fun p => String.eqb p.1 gid && String.eqb p.2 a) l && str_in keep a) as Hl.
  { intros l a. induction l as [|p l IH]; [done|]. cbn [List.filter existsb]. destruct (goes p) eqn:Eg; cbn [negb existsb]; rewrite IH.
    - apply andb_prop in Eg as [_ Eg%negb_true_iff]. rewrite andb_orb_distrib_l. destruct (String.eqb_spec p.2 a) as [E|].
      + by rewrite <- E, Eg, !andb_false_r.
      + by rewrite andb_false_r.
    - rewrite andb_orb_distrib_l. f_equal. unfold goes in Eg. destruct (String.eqb p.1 gid); [|done].
      destruct (String.eqb_spec p.2 a) as [E|]; [|done]. apply negb_false_iff in Eg. simpl. by rewrite <- E, Eg. }
  unfold delete_picks. fold goes. destruct (existsb goes (picks t)) eqn:E; split_and!; try done.
  - intros a. apply Hl.
  - intros a. unfold picked_in. rewrite <- Hl. f_equal. symmetry. apply filter_all. intros p Hp. apply negb_true_iff, not_true_iff_false. intros H.
    apply not_true_iff_false in E. apply E, existsb_exists. by exists p.
Qed.

Lemma insert_picks_effect gid picked t : let t' := insert_picks lower contained gid picked t in
  (forall a, picked_in gid a t' = picked_in gid a t || str_in picked a) /\ conditions t' = conditions t /\ agents_of t' = agents_of t /\ facts t' = facts t.
Proof.
  unfold insert_picks. fold (picked_in gid). set (fresh := List.filter _ picked).
  assert (forall a, picked_in gid a t || str_in fresh a = picked_in gid a t || str_in picked a) as Hf.
  { intros a. apply eq_iff_eq_true. rewrite !orb_true_iff, !str_in_In. unfold fresh. rewrite filter_In.
    destruct (picked_in gid a t) eqn:E; [tauto|]. unfold picked_in in E. rewrite E. simpl. tauto. }
  case_bool_decide as En; split_and!; try done; intros a; rewrite <- Hf.
  - rewrite En. simpl. by rewrite orb_false_r.
  - unfold picked_in. simpl. rewrite existsb_app. f_equal. clear. induction fresh as [|x l IH]; simpl; [done|].
    by rewrite String.eqb_refl, (String.eqb_sym x a), IH.
Qed.

Lemma insert_conditions_effect gid cs : forall t, let t' := fold_left (fun t c => insert_condition lower contained gid c t) cs t in
  conditions_of gid t' = conditions_of gid t ++ cs /\ picks t' = picks t /\ agents_of t' = agents_of t /\ facts t' = facts t.
Proof.
  induction cs as [|c cs IH]; intros t; simpl; [by rewrite app_nil_r|].
  destruct (IH (insert_condition lower contained gid c t)) as (H1 & H2 & H3 & H4). rewrite H1, H2, H3, H4. split; [|done].
  unfold conditions_of. simpl. rewrite List.filter_app, map_app. simpl. rewrite String.eqb_refl. simpl. by rewrite <- app_assoc.
Qed.

Lemma write_content_effect gid content picked t : let t' := write_content lower contained gid content picked t in
  conditions_of gid t' = match content with RuleContent cs => cs | ManualContent _ => [] end
  /\ (forall a, picked_in gid a t' = str_in picked a) /\ agents_of t' = agents_of t /\ facts t' = facts t.
Proof.
  unfold write_content. cbv zeta. set (t1 := delete_conditions _ _ gid t). set (t2 := delete_picks _ _ gid picked t1). set (t3 := insert_picks _ _ gid picked t2).
  destruct (delete_conditions_effect gid t) as (A1 & A2 & A3 & A4). destruct (delete_picks_effect gid picked t1) as (B1 & B2 & B3 & B4).
  destruct (insert_picks_effect gid picked t2) as (C1 & C2 & C3 & C4). fold t1 in A1, A2, A3, A4. fold t2 in B1, B2, B3, B4. fold t3 in C1, C2, C3, C4.
  assert (conditions_of gid t3 = []) as Ec by (unfold conditions_of; rewrite C2, B2; apply A1).
  assert (forall a, picked_in gid a t3 = str_in picked a) as Ep.
  { intros a. rewrite C1, B1. destruct (picked_in gid a t1); [|done]. simpl. by destruct (str_in picked a). }
  destruct content as [cs|]; [|split_and!; congruence].
  destruct (insert_conditions_effect gid cs t3) as (D1 & D2 & D3 & D4). cbv zeta in *. split_and!; try congruence; [by rewrite D1, Ec|].
  intros a. unfold picked_in. rewrite D2. apply Ep.
Qed.
End groups.

(** Soundness in words. *)
Lemma member_spec lower contained t agent gid : sound lower contained t -> in_group agent gid t = true <-> exists a g, agent_of agent (hosts (store t)) = Some a
  /\ group_of gid t = Some g /\ ag_status a = SActive
  /\ match gr_kind g with
     | Manual => In (gid, agent) (picks t)
     | _ => conditions_of gid t <> [] /\ forall c, In c (conditions_of gid t) -> condition_holds lower contained (os_of agent t) a c = true
     end.
Proof.
  intros [_ _ Hm]. rewrite in_group_In, (Hm agent gid).
  apply exist_proper; intros a. apply exist_proper; intros g. split; intros (Ha & Hg & H); (split; [done|split; [done|]]);
    pose proof (agent_of_id _ _ _ Ha) as [Ea _]; pose proof (group_of_id _ _ _ Hg) as [Eg _].
  - apply andb_prop in H as [Hact%bool_decide_eq_true H]. split; [done|]. rewrite Ea, Eg in H. destruct (gr_kind g).
    3: { apply existsb_exists in H as ([g1 a1] & Hp & [E1%String.eqb_eq E2%String.eqb_eq]%andb_prop). simpl in *. by subst. }
    all: apply andb_prop in H as [H1%negb_true_iff H2]; apply bool_decide_eq_false in H1; by rewrite forallb_forall in H2.
  - destruct H as [Hact H]. unfold GroupDb.belongs. rewrite bool_decide_eq_true_2 by done. simpl. rewrite Ea, Eg. destruct (gr_kind g).
    3: { apply existsb_exists. exists (gid, agent). simpl. by rewrite !String.eqb_refl. }
    all: destruct H as [H1 H2]; rewrite bool_decide_eq_false_2 by done; simpl; by apply forallb_forall.
Qed.
