(* ===== verification/GroupOps.v ===== *)
(** * Host groups: the console's requests (openvibes-console/src/hosts/groups.rs, group_checks.rs,
      group_words.rs, labels.rs, rules/assignment.rs; platform-store/src/host_group_preview.rs)

    An edit reads the group and the roles that reach it first and writes afterwards: the two are
    separate definitions here, each on the tables as they are then.  A lost connection answers
    [unavailable_auth] before anything is written and is left out. *)
From S2P Require Import Prelude RustStd Text BTree Json AccessData AccessRules AccessDb AccessOps AlarmData AgentDb AlarmDb GroupData GroupDb RuleAssign.
From stdpp Require Import prelude strings list pretty.
From Stdlib Require Import Ascii ZArith Lia.

Open Scope Z_scope.

(** ** A group in words *)

Definition condition_words (c : Condition) : string :=
  let '(field, op, negated) :=
    if String.eqb (co_field c) "os_family" then ("OS family", "is", "is not")
    else if String.eqb (co_field c) "distribution" then ("distribution", "is", "is not")
    else if String.eqb (co_field c) "hostname" then ("hostname", "matches", "does not match")
    else if String.eqb (co_field c) "ip" then ("IP address", "is in", "is not in")
    else (co_field c, "is", "is not") in
  let values := map (fun v => if String.eqb (co_field c) "os_family" then os_family_name v
                              else if String.eqb (co_field c) "distribution" then distribution_name v else v) (co_values c) in
  let values := match rev values with
                | last :: (_ :: _) as rest => String.concat ", " (rev rest) +:+ " or " +:+ last
                | _ => String.concat "" values
                end in
  field +:+ " " +:+ (if co_negate c then negated else op) +:+ " " +:+ values.

Definition membership_sentence (kind : GroupKind) (conditions : list Condition) (picked : Z) : string :=
  if bool_decide (kind = Manual)
  then pretty picked +:+ " " +:+ (if picked =? 1 then "host" else "hosts") +:+ " picked by hand"
  else "Hosts where " +:+ String.concat " and " (map condition_words conditions).

Example sentences :
  let c field negate values := {| co_field := field; co_negate := negate; co_values := values |} in
  membership_sentence Rule [c "os_family" false ["windows"]; c "hostname" true ["*test*"]] 0
    = "Hosts where OS family is Windows and hostname does not match *test*"
  /\ membership_sentence Automatic [c "distribution" true ["debian 12"; "fedora 44"; "x 1"]; c "ip" true ["10.0.0.0/8"]] 0
    = "Hosts where distribution is not Debian 12, Fedora 44 or x 1 and IP address is not in 10.0.0.0/8"
  /\ membership_sentence Manual [] 1 = "1 host picked by hand" /\ membership_sentence Manual [] 3 = "3 hosts picked by hand".
Proof. vm_compute. auto. Qed.

(** ** What a write would change (host_group_preview.rs) *)

Definition PREVIEW_CAP : nat := 50.

Record Preview := {
  pv_joins : list (string * option string);
  pv_leaves : list (string * option string);
  pv_gains : list UserRow;
  pv_loses : list UserRow;
  pv_joins_total : Z;
  pv_leaves_total : Z;
  pv_people_total : Z;
  pv_overrides_removed : Z;
  pv_suppressions_ended : Z;
}.
Inductive PreviewOutcome := PreviewReady (p : Preview) | PreviewNotFound | PreviewInvalid (part : string).

Section preview.
Context (lower : string -> string) (contained : string -> string -> bool) (collate : string -> string -> comparison).

(** The hosts of [cur] and of [prop]. *)
Definition holds_now (id : option string) (t : GroupTables) (a : AgentRow) : bool :=
  bool_decide (ag_status a = SActive) && match id with Some id => in_group (ag_id a) id t | None => false end.
Definition would_hold (proposed : option GroupContent) (t : GroupTables) (a : AgentRow) : bool :=
  bool_decide (ag_status a = SActive)
  && match proposed with
     | Some (RuleContent cs) => negb (bool_decide (cs = [])) && forallb (condition_holds lower contained (os_of (ag_id a) t) a) cs
     | Some (ManualContent picked) => str_in picked (ag_id a)
     | None => false
     end.
Definition host_order (a b : AgentRow) : comparison :=
  let name a := match ag_hostname a with Some h => lower h | None => "" end in
  collate (name a) (name b) <then> str_cmp (ag_id a) (ag_id b).
Definition preview_joins (id : option string) (proposed : option GroupContent) (t : GroupTables) : list AgentRow :=
  Prelude.sort_by host_order (List.filter (fun a => would_hold proposed t a && negb (holds_now id t a)) (agents_of t)).
Definition preview_leaves (id : option string) (proposed : option GroupContent) (t : GroupTables) : list AgentRow :=
  Prelude.sort_by host_order (List.filter (fun a => holds_now id t a && negb (would_hold proposed t a)) (agents_of t)).

(** Enabled people with a role that reaches the group, and none that reaches every host. *)
Definition preview_people (id : string) (t : GroupTables) : list UserRow :=
  let db := people (store t) in
  let anywhere := List.filter (fun r => r_all_hosts r || String.eqb (r_id r) ADMIN_ROLE) (roles db) in
  let holder rs u := existsb (fun r => existsb (holds_binding (User (u_id u)) (r_id r)) (bindings db)) rs in
  Prelude.sort_by (fun a b => collate (u_username a) (u_username b))
    (List.filter (fun u => u_enabled u && holder (reaching id t) u && negb (holder anywhere u)) (users db)).

Definition preview (id : option string) (proposed : option GroupContent) (t : GroupTables) : PreviewOutcome :=
  match match proposed with Some content => invalid_content content | None => None end with
  | Some part => PreviewInvalid part
  | None =>
      if match id with Some id => negb (is_some (group_of id t)) | None => false end then PreviewNotFound
      else
        let ref a := (ag_id a, ag_hostname a) in
        let joins := preview_joins id proposed t in
        let leaves := preview_leaves id proposed t in
        let people := match id with Some id => preview_people id t | None => [] end in
        let ends f := match id, proposed with Some id, None => f id | _, _ => 0 end in
        PreviewReady
          {| pv_joins := map ref (firstn PREVIEW_CAP joins); pv_leaves := map ref (firstn PREVIEW_CAP leaves);
             pv_gains := match joins with [] => [] | _ => firstn PREVIEW_CAP people end;
             pv_loses := match leaves with [] => [] | _ => firstn PREVIEW_CAP people end;
             pv_joins_total := Z.of_nat (length joins); pv_leaves_total := Z.of_nat (length leaves);
             pv_people_total := Z.of_nat (length people);
             pv_overrides_removed := ends (fun id => overrides_of id t);
             pv_suppressions_ended := ends (fun id => suppressions_ended id (store t)) |}
  end.
End preview.

(** ** Answers and checks of the group handlers *)

Inductive GroupAnswer :=
  | GroupShown (status : Z) (group : GroupSummary)
  | GroupGone
  | PreviewShown (p : Preview)
  | RolesUse (roles : list string)
  | GroupProblem (p : ProblemDetails).

Definition group_problem (status : Z) (code title : string) : GroupAnswer := GroupProblem (problem status code title).
Definition unavailable : GroupAnswer := group_problem 503 "authentication_unavailable" "Authentication is temporarily unavailable".
Definition field_problem (status : Z) (code title field message : string) : GroupAnswer :=
  GroupProblem {| pb_status := status; pb_code := code; pb_title := title; pb_field := Some (field, message);
                  pb_permission := None; pb_needs := None; pb_holders := None |}.
Definition invalid_group (field message : string) : GroupAnswer :=
  field_problem 400 "invalid_group" "The host group is invalid" field message.
Definition invalid_condition (field : string) : GroupAnswer :=
  field_problem 422 "invalid_condition" "A condition is invalid" field
    "Use 1 to 16 conditions on os_family, distribution, hostname or ip, each with 1 to 64 valid values".
Definition group_not_found : GroupAnswer := group_problem 404 "group_not_found" "No such host group".

(** [Content::checked], answered. *)
Definition checked_content (content : GroupContent) : GroupAnswer + GroupContent :=
  match checked content with
  | None => inr content
  | Some (422, _) =>
      inl (invalid_condition (match content with
                              | RuleContent cs => default "" (invalid_rule cs) | ManualContent _ => "" end))
  | Some _ =>
      inl (invalid_group "agent_ids" (match content with
                                      | ManualContent picked => if MAX_PICKED <? Z.of_nat (length picked)
                                                                then "Pick at most 10000 hosts" else "Host ids are 1–255 characters"
                                      | RuleContent _ => "" end))
  end.

Definition answer (status : Z) (written : GroupWrite) : GroupAnswer :=
  match written with
  | GroupSaved group => GroupShown status group
  | GroupNameTaken => group_problem 409 "group_name_taken" "Another group has this name"
  | GroupStale => group_problem 409 "stale_group" "The group changed since you read it"
  | GroupNotFound => group_not_found
  | GroupInUse roles => RolesUse roles
  | UnknownHost agent_id =>
      field_problem 422 "unknown_host" "A picked host does not exist" "agent_ids" ("No active host " +:+ agent_id)
  | GroupInvalid part =>
      if String.eqb part "name" then invalid_group "name" "Use 1 to 128 characters, without control characters"
      else if String.eqb part "description" then invalid_group "description" "Use at most 500 characters"
      else invalid_condition part
  end.
Definition answered (status : Z) (t : GroupTables) (written : option (GroupWrite * GroupTables)) : GroupAnswer * GroupTables :=
  match written with Some (w, t) => (answer status w, t) | None => (unavailable, t) end.

Definition every_host (e : Editor) : bool :=
  existsb (fun c => perm_eqb (cap_permission c) HostsRead && is_global c) (capabilities e).

(** [writer]: the editor, or the refusal. *)
Definition writer (user_id : string) (t : GroupTables) : GroupAnswer + Editor :=
  let editor := caller (people (store t)) user_id in
  match denied editor HostGroupsManage with
  | Some p => inl (GroupProblem p)
  | None => if every_host editor then inr editor
            else inl (group_problem 403 "permission_denied" "Changing host groups needs access to every host")
  end.

(** The host permissions of a stored role; the first id the catalogue does not know. *)
Fixpoint host_permissions (ids : list string) : string + list Permission :=
  match ids with
  | [] => inr []
  | id :: ids =>
      match from_id id with
      | None => inl id
      | Some p => match host_permissions ids with
                  | inl bad => inl bad
                  | inr host => inr (if bool_decide (pd_scope (def p) = HostScope) then p :: host else host)
                  end
      end
  end.

Fixpoint roles_cover (editor : Editor) (roles : list string) (db : Db) : option GroupAnswer :=
  match roles with
  | [] => None
  | role_id :: roles =>
      match read_role db role_id with
      | None => roles_cover editor roles db
      | Some role =>
          match host_permissions (sr_permissions role) with
          | inl id => Some (group_problem 403 "permission_denied"
                              ("A role using this group holds a permission this console does not know (" +:+ id +:+ ")"))
          | inr host =>
              match fits (capabilities editor) host ReachAll with
              | Some refusal => Some (group_problem 403 "permission_denied" (refusal_message refusal))
              | None => roles_cover editor roles db
              end
          end
      end
  end.
Definition reaching_roles_fit (editor : Editor) (roles : list string) (db : Db) : option GroupAnswer :=
  if admin editor then None else roles_cover editor roles db.

(** ** Create, edit, delete, preview *)

Record CreateHostGroup := {
  cg_name : string; cg_description : string; cg_kind : GroupKind;
  cg_conditions : option (list Condition); cg_agent_ids : option (list string) }.
Record UpdateHostGroup := {
  ug_name : option string; ug_description : option string;
  ug_conditions : option (list Condition); ug_agent_ids : option (list string); ug_version : Z }.
Record PreviewHostGroup := { pg_conditions : option (list Condition); pg_agent_ids : option (list string) }.

(** What an edit writes, once read and checked. *)
Record Edit := { ed_input : GroupInput; ed_roles : option (list string); ed_actor : string }.

Section handlers.
Context (lower : string -> string) (contained : string -> string -> bool) (collate : string -> string -> comparison) (gen : nat -> string).

(** A body that could not be read is [None]. *)
Definition bad_body : GroupAnswer := invalid_group "body" "The request body is invalid".

Definition create_group (request : option CreateHostGroup) (user_id : string) (now : Z) (t : GroupTables) : GroupAnswer * GroupTables :=
  match writer user_id t with
  | inl refused => (refused, t)
  | inr editor =>
      match request with
      | None => (bad_body, t)
      | Some q =>
          match match cg_kind q, cg_conditions q, cg_agent_ids q with
                | Rule, conditions, None => Some (RuleContent (default [] conditions))
                | Manual, None, picked => Some (ManualContent (default [] picked))
                | _, _, _ => None
                end with
          | None => (invalid_group "kind" "A rule group takes conditions, a manual group agent_ids", t)
          | Some content =>
              match checked_content content with
              | inl refused => (refused, t)
              | inr content =>
                  let input := {| gi_name := Text.trim (cg_name q); gi_description := cg_description q; gi_content := content |} in
                  answered 201 t (create lower contained gen input (actor editor) now t)
              end
          end
      end
  end.

Definition membership_changes (q : UpdateHostGroup) : bool := is_some (ug_conditions q) || is_some (ug_agent_ids q).

(** An edit up to its write, on the tables as they are then. *)
Definition prepare_update (group_id : string) (request : option UpdateHostGroup) (user_id : string) (t : GroupTables)
    : GroupAnswer + (Z * Edit) :=
  match writer user_id t with
  | inl refused => inl refused
  | inr editor =>
      match request with
      | None => inl bad_body
      | Some q =>
          if negb (db_text group_id) then inl unavailable
          else match detail group_id ScopeGlobal t with
          | None => inl group_not_found
          | Some current =>
              let roles := map fst (gs_roles current) in
              match (if membership_changes q then reaching_roles_fit editor roles (people (store t)) else None) with
              | Some refused => inl refused
              | None =>
                  match match ug_conditions q, ug_agent_ids q with
                        | Some conditions, None => checked_content (RuleContent conditions)
                        | None, Some picked => checked_content (ManualContent picked)
                        | None, None => inr (if bool_decide (gs_kind current = Manual) then ManualContent (picked_ids group_id t)
                                             else RuleContent (gs_conditions current))
                        | Some _, Some _ => inl (invalid_group "agent_ids" "Send conditions or agent_ids, not both")
                        end with
                  | inl refused => inl refused
                  | inr content =>
                      inr (ug_version q,
                           {| ed_input := {| gi_name := match ug_name q with Some name => Text.trim name | None => gs_name current end;
                                             gi_description := default (gs_description current) (ug_description q);
                                             gi_content := content |};
                              ed_roles := if membership_changes q then Some roles else None; ed_actor := actor editor |})
                  end
              end
          end
      end
  end.

(** Its write. *)
Definition save_update (group_id : string) (version : Z) (edit : Edit) (now : Z) (t : GroupTables) : GroupAnswer * GroupTables :=
  answered 200 t (update lower contained gen group_id version (ed_roles edit) (ed_input edit) (ed_actor edit) now t).

Definition update_group (group_id : string) (request : option UpdateHostGroup) (user_id : string) (now : Z) (t : GroupTables)
    : GroupAnswer * GroupTables :=
  match prepare_update group_id request user_id t with
  | inl refused => (refused, t)
  | inr (version, edit) => save_update group_id version edit now t
  end.

Definition delete_group (group_id : string) (version : option Z) (user_id : string) (now : Z) (t : GroupTables) : GroupAnswer * GroupTables :=
  match writer user_id t with
  | inl refused => (refused, t)
  | inr editor =>
      match version with
      | None => (invalid_group "version" "Send the version you read", t)
      | Some version =>
          if negb (db_text group_id) then (unavailable, t)
          else match GroupDb.delete group_id version (actor editor) now t with
          | Some (GroupSaved _, t) => (GroupGone, t)
          | written => answered 204 t written
          end
      end
  end.

(** [people_in_share]. *)
Definition in_share (editor : Editor) (db : Db) (u : UserRow) : bool :=
  String.eqb (u_id u) (actor editor)
  || roles_fit editor (held lower db (role_ids_of db (User (u_id u)))).

Definition preview_request (group_id : option string) (request : option PreviewHostGroup) (user_id : string) (t : GroupTables) : GroupAnswer :=
  match writer user_id t with
  | inl refused => refused
  | inr editor =>
      match request with
      | None => bad_body
      | Some q =>
          match match pg_conditions q, pg_agent_ids q with
                | Some conditions, None => Some (Some (RuleContent conditions))
                | None, Some picked => Some (Some (ManualContent picked))
                | None, None => if is_some group_id then Some None else None
                | Some _, Some _ => None
                end with
          | None => invalid_group "body" "Send conditions or agent_ids"
          | Some content =>
              match match content with
                    | Some content => match checked_content content with inl refused => inl refused | inr c => inr (Some c) end
                    | None => inr None
                    end with
              | inl refused => refused
              | inr proposed =>
                  match preview lower contained collate group_id proposed t with
                  | PreviewReady p =>
                      let visible := if admin editor then fun _ => true else in_share editor (people (store t)) in
                      PreviewShown
                        {| pv_joins := pv_joins p; pv_leaves := pv_leaves p;
                           pv_gains := List.filter visible (pv_gains p); pv_loses := List.filter visible (pv_loses p);
                           pv_joins_total := pv_joins_total p; pv_leaves_total := pv_leaves_total p;
                           pv_people_total := pv_people_total p; pv_overrides_removed := pv_overrides_removed p;
                           pv_suppressions_ended := pv_suppressions_ended p |}
                  | PreviewNotFound => group_not_found
                  | PreviewInvalid part => invalid_condition part
                  end
              end
          end
      end
  end.
End handlers.

(** ** Labels *)

Definition host_not_found : GroupAnswer := group_problem 404 "host_not_found" "No such host".

(** [caller] is what [authenticated_permission] answers for [hosts.label], with the other checks before it. *)
Definition labeler (caller : (Z * string) + (AgentScope * string)) (agent_id : string) (t : GroupTables) : GroupAnswer + string :=
  match caller with
  | inl (status, code) => inl (group_problem status code "")
  | inr (scope, actor) =>
      if negb (db_text agent_id) then inl unavailable
      else if reachable_host scope agent_id t then inr actor else inl host_not_found
  end.

Definition add_label_request (agent_id label : string) (caller : (Z * string) + (AgentScope * string)) (t : GroupTables)
    : GroupAnswer * GroupTables :=
  match labeler caller agent_id t with
  | inl refused => (refused, t)
  | inr actor =>
      match add_label agent_id label actor t with
      | Some (LabelAdded, t) | Some (LabelAlreadyThere, t) => (GroupGone, t)
      | Some (LabelTooMany, t) => (group_problem 409 "too_many_labels" "A host has at most 32 labels", t)
      | Some (LabelNotFound, t) => (host_not_found, t)
      | Some (LabelInvalid, t) =>
          (group_problem 400 "invalid_label" "Use 1 to 64 characters, without control characters, and not . or ..", t)
      | None => (unavailable, t)
      end
  end.

Definition remove_label_request (agent_id label : string) (caller : (Z * string) + (AgentScope * string)) (t : GroupTables)
    : GroupAnswer * GroupTables :=
  match labeler caller agent_id t with
  | inl refused => (refused, t)
  | inr actor => match remove_label agent_id label actor t with Some (_, t) => (GroupGone, t) | None => (unavailable, t) end
  end.

(** ** Rule set assignment *)

Inductive AssignAnswer := AssignShown (a : Assignment) | AssignProblem (p : ProblemDetails).

Section assignment.
Context (collate : string -> string -> comparison) (published : string -> bool).

(** [writer]: [rules.assignment.write] on every host. *)
Definition assignment_writer (caller : (Z * string) + (AgentScope * string)) : AssignAnswer + string :=
  match caller with
  | inr (ScopeGlobal, actor) => inr actor
  | inr (_, _) => inl (AssignProblem (problem 403 "permission_denied" "Access is not available"))
  | inl (status, code) => inl (AssignProblem (problem status code ""))
  end.

Definition change_response (t : GroupTables) (result : option (RuleAssign.Change * GroupTables)) : AssignAnswer * GroupTables :=
  match result with
  | Some (RuleAssign.Done assignment, t) => (AssignShown assignment, t)
  | Some (UnknownSet, t) => (AssignProblem (problem 404 "rule_set_not_assignable" "Rule set is not assignable"), t)
  | Some (UnknownGroup, t) => (AssignProblem (problem 404 "asset_group_not_found" "Asset group not found"), t)
  | None => (AssignProblem (problem 503 "authentication_unavailable" "Authentication is temporarily unavailable"), t)
  end.

(** The body is the default asked for, [None] when it could not be read. *)
Definition set_default_request (rule_set_id : string) (body : option bool) (caller : (Z * string) + (AgentScope * string)) (t : GroupTables)
    : AssignAnswer * GroupTables :=
  match assignment_writer caller with
  | inl refused => (refused, t)
  | inr actor =>
      match body with
      | None => (AssignProblem (problem 400 "invalid_request" "The request body is not valid"), t)
      | Some enabled => change_response t (set_default collate published actor rule_set_id enabled t)
      end
  end.
Definition set_group_request (rule_set_id asset_group_id : string) (body : option bool) (caller : (Z * string) + (AgentScope * string))
    (t : GroupTables) : AssignAnswer * GroupTables :=
  match assignment_writer caller with
  | inl refused => (refused, t)
  | inr actor =>
      match body with
      | None => (AssignProblem (problem 400 "invalid_request" "The request body is not valid"), t)
      | Some enabled => change_response t (set_group collate published actor rule_set_id asset_group_id (Some enabled) t)
      end
  end.
Definition clear_group_request (rule_set_id asset_group_id : string) (caller : (Z * string) + (AgentScope * string)) (t : GroupTables)
    : AssignAnswer * GroupTables :=
  match assignment_writer caller with
  | inl refused => (refused, t)
  | inr actor => change_response t (set_group collate published actor rule_set_id asset_group_id None t)
  end.
Definition host_assignments (agent_id : string) (caller : (Z * string) + (AgentScope * string)) (t : GroupTables)
    : ProblemDetails + list HostAssignment :=
  match caller with
  | inl (status, code) => inl (problem status code "")
  | inr (scope, _) =>
      if negb (db_text agent_id) then inl (problem 503 "authentication_unavailable" "Authentication is temporarily unavailable")
      else match for_agent collate published scope agent_id t with
           | Some sets => inr sets
           | None => inl (problem 404 "agent_not_found" "Agent not found")
           end
  end.
End assignment.
