(* ===== verification/GroupWorld.v ===== *)
(** * Host groups: everything that happens to the tables, one step at a time

    A step is an operation on groups, labels or switches, a change to hosts' rows with its triggers, or
    one that touches nothing a group reads.  Both invariants, membership and automatic groups, hold along steps. *)
From S2P Require Import Prelude RustStd Text BTree Json AccessDb AlarmData AgentDb AgentInv AlarmDb GroupData GroupDb RuleAssign GroupInv.
From stdpp Require Import prelude strings list.
From Stdlib Require Import Ascii ZArith Lia.

Open Scope Z_scope.

Section world.
Context (lower : string -> string) (contained : string -> string -> bool) (collate : string -> string -> comparison)
  (published : string -> bool) (gen : nat -> string).

Notation sound := (sound lower contained).

(** Hosts' rows changed: nothing else of the tables has. *)
Record hosts_moved (t t' : GroupTables) : Prop := {
  h_agents : NoDup (map ag_id (agents_of t'));
  h_groups : groups t' = groups t;
  h_conditions : conditions t' = conditions t;
  h_picks : picks t' = picks t;
  h_overrides : overrides t' = overrides t;
  h_members : members t' = members t;
  h_dismissed : dismissed t' = dismissed t;
  h_asset_groups : asset_groups (people (store t')) = asset_groups (people (store t));
}.

Inductive group_step : GroupTables -> GroupTables -> Prop :=
  | step_write existing expected input actor now t r t' :
      write lower contained gen existing expected input actor now t = Some (r, t') -> group_step t t'
  | step_delete id version actor now t r t' : GroupDb.delete id version actor now t = Some (r, t') -> group_step t t'
  | step_ensure os_family distribution now t t' :
      ensure_automatic_groups lower contained gen os_family distribution now t = Some t' -> group_step t t'
  | step_add_label agent label actor t r t' : add_label agent label actor t = Some (r, t') -> group_step t t'
  | step_remove_label agent label actor t r t' : remove_label agent label actor t = Some (r, t') -> group_step t t'
  | step_default user set_ enabled t r t' : set_default collate published user set_ enabled t = Some (r, t') -> group_step t t'
  | step_switch user set_ gid enabled t r t' : set_group collate published user set_ gid enabled t = Some (r, t') -> group_step t t'
  | step_hosts t t' : hosts_moved t t' -> group_step t (agents_triggers lower contained t t')
  | step_other t t' : quiet_groups t t' -> dismissed t' = dismissed t -> group_step t t'.
Definition group_steps : GroupTables -> GroupTables -> Prop := rtc group_step.

(** ** Membership *)

Lemma set_default_quiet user set_ enabled t r t' :
  set_default collate published user set_ enabled t = Some (r, t') -> quiet_groups t t' /\ dismissed t' = dismissed t.
Proof.
  unfold set_default. destruct (negb _); [done|]. destruct (assignment_of set_ t) as [[s old]|]; [|by intros [= _ <-]].
  intros (u & Hu & [= _ <-])%bind_Some. destruct (Bool.eqb old enabled); [injection Hu as <-; by split|].
  unfold audit_assignment in Hu. destruct (negb _); [done|]. injection Hu as <-. by split.
Qed.

Lemma put_override_gids set_ gid enabled t o : In o (overrides (put_override set_ gid enabled t)) ->
  o.1.2 = gid \/ exists o', In o' (overrides t) /\ o'.1.2 = o.1.2.
Proof.
  unfold put_override. destruct enabled as [on|]; [destruct (is_some _)|]; simpl.
  - intros (o' & <- & Ho')%in_map_iff. right. exists o'. split; [done|]. by destruct (at_override _ _ o').
  - intros [Ho|[<-|[]]]%in_app_iff; [right; by exists o|by left].
  - intros [Ho _]%filter_In. right. by exists o.
Qed.

Lemma set_group_frame user set_ gid enabled t r t' :
  set_group collate published user set_ gid enabled t = Some (r, t') -> groups t' = groups t /\ dismissed t' = dismissed t.
Proof.
  unfold set_group. destruct (negb _); [done|]. destruct (assignment_of set_ t); [|by intros [= _ <-]]. destruct (negb _); [done|].
  destruct (group_of gid t) as [g|]; [|by intros [= _ <-]]. cbv zeta. intros (u & Hu & [= _ <-])%bind_Some.
  destruct (bool_decide _); [by injection Hu as <-|]. unfold audit_assignment in Hu. destruct (negb _); [done|]. injection Hu as <-.
  unfold put_override. destruct enabled; [destruct (is_some _)|]; done.
Qed.
Lemma triggers_frame before t : groups (agents_triggers lower contained before t) = groups t /\ dismissed (agents_triggers lower contained before t) = dismissed t.
Proof.
  unfold agents_triggers. cbv zeta. generalize (List.filter (host_changed lower before t) (agents_of t)). intros l.
  match goal with |- groups (fold_left _ _ ?u) = _ /\ _ => change (groups t) with (groups u); change (dismissed t) with (dismissed u); generalize u end.
  induction l as [|a l IH]; intros u; [done|]. apply (IH (refresh_agent lower contained (ag_id a) u)).
Qed.

Lemma set_group_sound user set_ gid enabled t r t' :
  set_group collate published user set_ gid enabled t = Some (r, t') -> sound t -> sound t'.
Proof.
  unfold set_group. destruct (negb _); [done|]. destruct (assignment_of set_ t); [|by intros [= _ <-]]. destruct (negb _); [done|].
  destruct (group_of gid t) as [g|] eqn:Eg; [|by intros [= _ <-]]. cbv zeta. intros (u & Hu & [= _ <-])%bind_Some Hs.
  destruct (bool_decide _); [by injection Hu as <-|]. unfold audit_assignment in Hu. destruct (negb _); [done|]. injection Hu as <-.
  set (t1 := put_override set_ gid enabled t).
  assert (groups t1 = groups t /\ conditions t1 = conditions t /\ picks t1 = picks t /\ store t1 = store t /\ facts t1 = facts t) as (E1 & E2 & E3 & E4 & E5).
  { unfold t1, put_override. destruct enabled; [destruct (is_some _)|]; done. }
  apply (quiet_sound lower contained t1); [by split|]. destruct Hs as [[U1 U2] [O1 O2 O3 O4] Hset].
  assert (agents_of t1 = agents_of t) as Ea by (unfold agents_of; by rewrite E4). split.
  - by split; rewrite ?Ea, ?E1.
  - split; rewrite ?E1, ?E2, ?E3, ?E4; try done. intros o Ho. unfold t1 in Ho.
    destruct (put_override_gids _ _ _ _ _ Ho) as [->|(o' & Ho' & <-)]; [|by apply O3]. apply group_of_In. by exists g.
  - apply (settled_still lower contained t); [done|by split|by unfold members; rewrite E4|]. intros gid'. unfold same_rule, group_of, conditions_of.
    by rewrite E1, E2, E3.
Qed.

Lemma step_sound t t' : group_step t t' -> sound t -> sound t'.
Proof.
  intros H Hs. destruct H as [? ? ? ? ? ? ? ? H|? ? ? ? ? ? ? H|? ? ? ? ? H|? ? ? ? ? ? H|? ? ? ? ? ? H|? ? ? ? ? ? H|? ? ? ? ? ? ? H|? ? H|? ? H _].
  - by eapply write_sound.
  - by eapply delete_sound.
  - by eapply ensure_automatic_groups_sound.
  - eapply quiet_sound; [by eapply add_label_quiet|done].
  - eapply quiet_sound; [by eapply remove_label_quiet|done].
  - eapply quiet_sound; [by eapply set_default_quiet|done].
  - by eapply set_group_sound.
  - destruct H. by apply agents_triggers_sound.
  - by eapply quiet_sound.
Qed.
Lemma steps_sound t t' : group_steps t t' -> sound t -> sound t'.
Proof. induction 1 as [|? ? ? H1 _ IH]; [done|]. intros Hs. apply IH. by eapply step_sound. Qed.

(** ** Automatic groups *)

Record auto_ok (t : GroupTables) : Prop := {
  a_total : Z.of_nat (length (automatic_groups t)) <= MAX_AUTOMATIC_GROUPS;
  a_releases : forall os, In os KNOWN_OS_IDS -> Z.of_nat (length (releases_of os t)) <= MAX_RELEASES_PER_OS_ID;
  a_keys : forall g g' key, In g (groups t) -> In g' (groups t) -> gr_auto_key g = Some key -> gr_auto_key g' = Some key -> g = g';
  a_dismissed : forall g key, In g (groups t) -> gr_auto_key g = Some key -> ~ In key (dismissed t);
}.

(** The rows the bounds count. *)
Definition counted (g : GroupRow) : bool := bool_decide (gr_kind g = Automatic) || is_some (gr_auto_key g).

Lemma filter_filter_le {A} (p q : A -> bool) l : (length (List.filter q (List.filter p l)) <= length (List.filter q l))%nat.
Proof. induction l as [|x l IH]; simpl; [done|]. destruct (p x); simpl; destruct (q x); simpl; lia. Qed.
Lemma filter_and {A} (p q : A -> bool) l : List.filter q (List.filter p l) = List.filter (fun x => p x && q x) l.
Proof. induction l as [|x l IH]; simpl; [done|]. destruct (p x); simpl; by rewrite IH. Qed.
Lemma filter_counted q l : (forall g, q g = true -> counted g = true) -> List.filter q (List.filter counted l) = List.filter q l.
Proof.
  intros H. induction l as [|g l IH]; simpl; [done|]. destruct (counted g) eqn:Ec; simpl; rewrite IH; [done|].
  destruct (q g) eqn:Eq; [|done]. apply H in Eq. congruence.
Qed.

(** Some of the counted rows may have gone. *)
Definition fewer (t t' : GroupTables) : Prop := exists p, List.filter counted (groups t') = List.filter p (List.filter counted (groups t)).

Lemma fewer_In t t' g key : fewer t t' -> In g (groups t') -> gr_auto_key g = Some key -> In g (groups t).
Proof.
  intros [p E] Hg Hk. assert (In g (List.filter counted (groups t'))) as H.
  { apply filter_In. split; [done|]. unfold counted. rewrite Hk. apply orb_true_r. }
  rewrite E in H. by apply filter_In in H as [[? _]%filter_In _].
Qed.
Lemma fewer_length t t' q : fewer t t' -> (forall g, q g = true -> counted g = true) ->
  (length (List.filter q (groups t')) <= length (List.filter q (groups t)))%nat.
Proof.
  intros [p E] Hq. rewrite <- (filter_counted q (groups t')), <- (filter_counted q (groups t)), E by done. apply filter_filter_le.
Qed.

Definition release_row (os : string) (g : GroupRow) : bool :=
  bool_decide (gr_kind g = Automatic)
  && match gr_auto_key g with Some k => starts_with k ("distribution:" +:+ os +:+ " ") | None => false end.
Lemma releases_rows os t : releases_of os t = List.filter (release_row os) (groups t).
Proof.
  unfold releases_of, automatic_groups, release_row. apply filter_and.
Qed.

Lemma fewer_ok t t' : fewer t t' -> auto_ok t -> (forall key, In key (dismissed t') -> In key (dismissed t)
    \/ forall g, In g (groups t') -> gr_auto_key g <> Some key) -> auto_ok t'.
Proof.
  intros Hf [A1 A2 A3 A4] Hd. split.
  - assert (length (automatic_groups t') <= length (automatic_groups t))%nat; [|lia]. apply fewer_length; [done|].
    intros g H. unfold counted. by rewrite H.
  - intros os Hos. specialize (A2 os Hos). rewrite releases_rows in *.
    assert (length (List.filter (release_row os) (groups t')) <= length (List.filter (release_row os) (groups t)))%nat; [|lia].
    apply fewer_length; [done|]. intros g [H _]%andb_prop. unfold counted. by rewrite H.
  - intros g g' key Hg Hg' Hk Hk'. apply (A3 g g' key); try done; by eapply fewer_In.
  - intros g key Hg Hk Hin. destruct (Hd key Hin) as [H|H]; [|by apply (H g)]. apply (A4 g key); try done. by eapply fewer_In.
Qed.

Lemma edit_counted gid f l : (forall g, counted (f g) = false) ->
  List.filter counted (map (fun g => if String.eqb (gr_id g) gid then f g else g) l)
  = List.filter (fun g => negb (String.eqb (gr_id g) gid)) (List.filter counted l).
Proof.
  intros Hf. induction l as [|g l IH]; simpl; [done|]. destruct (String.eqb (gr_id g) gid) eqn:E; simpl.
  - rewrite Hf, IH. destruct (counted g); simpl; [by rewrite E|done].
  - destruct (counted g); simpl; rewrite IH; [by rewrite E|done].
Qed.
Lemma remove_counted gid l : List.filter counted (List.filter (fun g => negb (String.eqb (gr_id g) gid)) l)
  = List.filter (fun g => negb (String.eqb (gr_id g) gid)) (List.filter counted l).
Proof.
  induction l as [|g l IH]; simpl; [done|]. destruct (String.eqb (gr_id g) gid) eqn:E; simpl; destruct (counted g); simpl; rewrite ?E; simpl; by rewrite IH.
Qed.

Lemma dismiss_dismissed id t key : In key (dismissed (dismiss id t)) <->
  In key (dismissed t) \/ exists g, group_of id t = Some g /\ gr_auto_key g = Some key.
Proof.
  unfold dismiss. destruct (group_of id t) as [g|]; [|naive_solver]. destruct (gr_auto_key g) as [k|] eqn:Ek; [|naive_solver].
  simpl. destruct (str_in (dismissed t) k) eqn:E.
  - rewrite str_in_In in E. naive_solver.
  - rewrite in_app_iff. simpl. naive_solver.
Qed.

(** The group taken over or deleted, and its key dismissed. *)
Lemma gone_ok gid t t' :
  List.filter counted (groups t') = List.filter (fun g => negb (String.eqb (gr_id g) gid)) (List.filter counted (groups t)) ->
  dismissed t' = dismissed (dismiss gid t) -> auto_ok t -> auto_ok t'.
Proof.
  intros Eg Ed Ha. assert (fewer t t') as Hf by (by eexists). apply (fewer_ok t); [done|done|]. intros key Hk. rewrite Ed in Hk.
  apply dismiss_dismissed in Hk as [Hk|(g & Hg & Ek)]; [by left|]. right. intros g' Hg' Ek'.
  pose proof (fewer_In _ _ _ _ Hf Hg' Ek') as Hin. apply group_of_id in Hg as [<- Hg]. destruct Ha as [_ _ A3 _].
  assert (g' = g) as -> by (by apply (A3 g' g key)).
  assert (In g (List.filter counted (groups t'))) as H.
  { apply filter_In. split; [done|]. unfold counted. rewrite Ek'. apply orb_true_r. }
  rewrite Eg in H. apply filter_In in H as [_ H]. by rewrite String.eqb_refl in H.
Qed.

Lemma same_ok t t' : List.filter counted (groups t') = List.filter counted (groups t) -> dismissed t' = dismissed t -> auto_ok t -> auto_ok t'.
Proof.
  intros Eg Ed Ha. apply (fewer_ok t); [|done|].
  - exists (fun _ => true). by rewrite Eg, (filter_all (fun _ => true)).
  - intros key. rewrite Ed. auto.
Qed.

Lemma write_content_dismissed gid content picked t : dismissed (write_content lower contained gid content picked t) = dismissed t
  /\ groups (write_content lower contained gid content picked t) = groups t.
Proof.
  unfold write_content. cbv zeta. set (t3 := insert_picks _ _ _ _ _).
  assert (dismissed t3 = dismissed t /\ groups t3 = groups t) as [E1 E2].
  { unfold t3, insert_picks, delete_picks, delete_conditions. by case_bool_decide; repeat destruct (existsb _ _). }
  destruct content as [cs|]; [|done]. rewrite <- E1, <- E2. clear. generalize t3. clear t3. induction cs as [|c cs IH]; intros u; [done|].
  apply (IH (insert_condition lower contained gid c u)).
Qed.

Lemma write_frame existing expected input actor now t r t' :
  write lower contained gen existing expected input actor now t = Some (r, t') ->
  t' = t \/ match existing with
             | Some (id, _) => exists f, (forall g, counted (f g) = false) /\ dismissed t' = dismissed (dismiss id t)
                 /\ groups t' = map (fun g => if String.eqb (gr_id g) id then f g else g) (groups t)
             | None => exists g, counted g = false /\ dismissed t' = dismissed t /\ groups t' = groups t ++ [g]
             end.
Proof.
  intros Hw. unfold write in Hw. destruct (invalid_part input); [left; by injection Hw|]. cbv zeta in Hw.
  destruct (not_current existing expected t); [left; by injection Hw|]. destruct (negb (forallb db_text _)); [done|].
  destruct (unknown_host _ t); [left; by injection Hw|]. destruct (negb (db_text _)); [done|].
  destruct (group_name_taken lower _ _ t); [left; by injection Hw|]. right.
  apply bind_Some in Hw as (head & Hhead & (saved & _ & [= _ <-])%bind_Some).
  destruct existing as [[id version]|].
  - destruct (i32_max <=? version); [done|]. injection Hhead as <-.
    exists (edited input (match gi_content input with RuleContent _ => Rule | _ => Manual end) actor now). split_and!.
    + intros g. unfold counted. simpl. by destruct (gi_content input).
    + simpl. destruct (write_content_dismissed id (gi_content input) (match gi_content input with RuleContent _ => [] | ManualContent p => distinct p end)
        (update_group_row lower contained id (edited input (match gi_content input with RuleContent _ => Rule | _ => Manual end) actor now) (dismiss id t))) as [-> _].
      unfold update_group_row. by case_bool_decide.
    + simpl. destruct (write_content_dismissed id (gi_content input) (match gi_content input with RuleContent _ => [] | ManualContent p => distinct p end)
        (update_group_row lower contained id (edited input (match gi_content input with RuleContent _ => Rule | _ => Manual end) actor now) (dismiss id t))) as [_ ->].
      rewrite groups_update_group_row. by rewrite (q_groups _ _ (dismiss_quiet id t)).
  - destruct (is_some _); [done|]. injection Hhead as <-. simpl.
    match goal with |- context [write_content lower contained ?i ?c ?p ?u] => destruct (write_content_dismissed i c p u) as [E1 E2] end.
    eexists. split_and!; [|exact E1|rewrite E2; simpl; reflexivity]. unfold counted. simpl. by destruct (gi_content input).
Qed.

(** A key counts for the release's own operating system. *)
Lemma release_key os value : is_distribution value = true -> In os KNOWN_OS_IDS ->
  starts_with (auto_key "distribution" value) ("distribution:" +:+ os +:+ " ") = true -> os = default "" (head (RustStd.split " " value)).
Proof.
  unfold is_distribution. pose proof (split_once_spec " " value) as Hsp. destruct (split_once " " value) as [[id release]|]; [|done].
  destruct Hsp as [-> _]. intros [(k & Hk & E%String.eqb_eq)%existsb_exists _]%andb_prop. subst k.
  unfold RustStd.split. intros Hos Hst. simpl in Hk, Hos.
  repeat (destruct Hk as [<-|Hk]); try done; repeat (destruct Hos as [<-|Hos]); try done; cbn in Hst |- *; by destruct (split_on " " release).
Qed.

(** One more automatic group, when there is room for it. *)
Lemma ensure_one_ok field value display now t t' : ensure_one lower contained gen field value display now t = Some t' ->
  field = "os_family" \/ field = "distribution" -> auto_ok t -> auto_ok t' /\ dismissed t' = dismissed t.
Proof.
  intros H Hfield. revert H. unfold ensure_one. destruct (_ || _) eqn:Ekind; [by intros [= <-]|]. destruct (negb (key_missing _ t)) eqn:Ekey; [by intros [= <-]|].
  destruct (MAX_AUTOMATIC_GROUPS <=? _) eqn:Emax; [by intros [= <-]|]. destruct (String.eqb field "distribution" && (_ <=? _)) eqn:Erel; [by intros [= <-]|].
  intros (name & _ & H)%bind_Some. destruct (is_some _); [done|]. injection H as <-. intros [A1 A2 A3 A4]. split; [|done].
  set (key := auto_key field value) in *. set (row := automatic_row _ _ _ _ _).
  apply negb_false_iff, andb_prop in Ekey as [Hlive%negb_true_iff Hdis%negb_true_iff].
  assert (forall g, In g (groups t) -> gr_auto_key g <> Some key) as Hnew.
  { intros g Hg E. apply not_true_iff_false in Hlive. apply Hlive, existsb_exists. exists g. split; [done|]. by apply bool_decide_eq_true. }
  split; simpl.
  - unfold automatic_groups. simpl. rewrite List.filter_app, length_app. apply Z.leb_gt in Emax. unfold automatic_groups in Emax. simpl. lia.
  - intros os Hos. specialize (A2 os Hos). rewrite releases_rows in *. simpl. rewrite List.filter_app, length_app. simpl.
    destruct (release_row os row) eqn:Er; [|simpl; lia]. simpl.
    assert (os = default "" (head (RustStd.split " " value)) /\ field = "distribution") as [-> Ef].
    { unfold release_row in Er. simpl in Er. unfold key in Er. destruct Hfield as [-> | ->]; [done|]. split; [|done].
      apply release_key; [|done|done]. simpl in Ekind. destruct (is_distribution value); [done|]. done. }
    rewrite Ef in Erel. simpl in Erel. apply Z.leb_gt in Erel. lia.
  - intros g g' k [Hg|[<-|[]]]%in_app_iff [Hg'|[<-|[]]]%in_app_iff Hk Hk'; simpl in *; try done.
    + by apply (A3 g g' k).
    + injection Hk' as <-. by destruct (Hnew g Hg).
    + injection Hk as <-. by destruct (Hnew g' Hg').
  - intros g k [Hg|[<-|[]]]%in_app_iff Hk; [by apply (A4 g)|]. simpl in Hk. injection Hk as <-. rewrite <- str_in_In.
    by apply not_true_iff_false.
Qed.

Lemma step_auto t t' : group_step t t' -> auto_ok t -> auto_ok t' /\ forall key, In key (dismissed t) -> In key (dismissed t').
Proof.
  intros H Ha.
  destruct H as [existing ? ? ? ? ? ? ? H|id ? ? ? ? ? ? H|? ? ? ? ? H|? ? ? ? ? ? H|? ? ? ? ? ? H|? ? ? ? ? ? H|? ? ? ? ? ? ? H|? ? H|? ? H Hd].
  - apply write_frame in H as [->|H]; [done|]. destruct existing as [[id version]|].
    + destruct H as (f & Hf & Ed & Eg). split; [|intros key Hk; rewrite Ed; apply dismiss_dismissed; by left].
      apply (gone_ok id t); [|done|done]. rewrite Eg. by apply edit_counted.
    + destruct H as (g & Hg & Ed & Eg). rewrite Ed. split; [|done]. apply (same_ok t); [|done|done].
      rewrite Eg, List.filter_app. simpl. by rewrite Hg, app_nil_r.
  - unfold GroupDb.delete in H. destruct (group_of id t) as [g|]; [|by injection H as _ <-].
    destruct (negb _); [by injection H as _ <-|]. destruct (Prelude.sort_by _ _); [|by injection H as _ <-]. cbv zeta in H. injection H as _ <-.
    match goal with |- auto_ok (audit_group _ _ _ _ (delete_group_row id (dismiss id ?u))) /\ _ => set (t1 := u) end.
    assert (dismissed (dismiss id t1) = dismissed (dismiss id t)) as Ed.
    { unfold dismiss. change (group_of id t1) with (group_of id t). destruct (group_of id t) as [h|]; [|done]. by destruct (gr_auto_key h). }
    assert (groups (dismiss id t1) = groups t) as Eg by (apply (dismiss_quiet id t1)).
    split; [|intros key Hk; change (In key (dismissed (dismiss id t1))); rewrite Ed; apply dismiss_dismissed; by left].
    apply (gone_ok id t); [|exact Ed|done]. simpl. rewrite Eg. apply remove_counted.
  - apply bind_Some in H as (u & H1 & H2). destruct (ensure_one_ok _ _ _ _ _ _ H1) as [Hu E1]; [by left|done|].
    destruct (ensure_one_ok _ _ _ _ _ _ H2) as [Ht E2]; [by right|done|]. by rewrite E2, E1.
  - revert H. unfold add_label. destruct (valid_label _); [|by intros [= _ <-]]. destruct (negb _); [done|].
    repeat match goal with |- (if ?b then _ else _) = _ -> _ => destruct b; [by intros [= _ <-]|] end. intros [= _ <-].
    split; [by apply (same_ok t)|done].
  - revert H. unfold remove_label. destruct (negb _); [done|]. destruct (negb _); intros [= _ <-]; [done|]. split; [by apply (same_ok t)|done].
  - apply set_default_quiet in H as [[Q _] Hd]. rewrite Hd. split; [|done]. apply (same_ok t); [by rewrite Q|done|done].
  - apply set_group_frame in H as [Eg Ed]. rewrite Ed. split; [|done]. apply (same_ok t); [by rewrite Eg|done|done].
  - destruct (triggers_frame t t') as [Eg Ed]. rewrite Ed, (h_dismissed _ _ H). split; [|done].
    apply (same_ok t); [by rewrite Eg, (h_groups _ _ H)|by rewrite Ed, (h_dismissed _ _ H)|done].
  - rewrite Hd. split; [|done]. apply (same_ok t); [by rewrite (q_groups _ _ H)|done|done].
Qed.
Lemma steps_auto t t' : group_steps t t' -> auto_ok t -> auto_ok t' /\ forall key, In key (dismissed t) -> In key (dismissed t').
Proof.
  induction 1 as [|t u t' H1 _ IH]; [done|]. intros Ha. destruct (step_auto _ _ H1 Ha) as [Hu Hd]. destruct (IH Hu) as [Ht Hd']. auto.
Qed.
End world.
