(* ===== verification/GroupProps.v ===== *)
(** * Host groups and rule assignment: what the code promises

    Membership is the rule at every time, edits need the editor's own access to every host, previews say
    what saving does, automatic groups stay few, and a host runs what its groups' switches say. *)
From S2P Require Import Prelude RustStd Text BTree Json AccessData AccessRules AccessDb AccessOps AccessProps AlarmData AgentDb AgentInv AlarmDb AlarmInv GroupData GroupDb RuleAssign GroupInv GroupOps GroupWorld.
From stdpp Require Import prelude strings list.
From Stdlib Require Import Ascii ZArith Lia.

Open Scope Z_scope.

#[local] Opaque resolve_capabilities.

Section groups.
Context (lower : string -> string) (contained : string -> string -> bool) (collate : string -> string -> comparison) (gen : nat -> string).

(** ** What a write leaves *)

Lemma write_head existing expected input actor now t g t' :
  write lower contained gen (Some existing) expected input actor now t = Some (GroupSaved g, t') ->
  exists g0 picked, group_of existing.1 t = Some g0 /\ gr_version g0 = existing.2
    /\ picked = match gi_content input with RuleContent _ => [] | ManualContent p => distinct p end
    /\ unknown_host picked t = None
    /\ (forall expected', expected = Some expected' -> GroupDb.same_roles existing.1 expected' t = true)
    /\ let head := update_group_row lower contained existing.1
                     (edited input (match gi_content input with RuleContent _ => Rule | ManualContent _ => Manual end) actor now)
                     (dismiss existing.1 t) in
       quiet_groups (write_content lower contained existing.1 (gi_content input) picked head) t'.
Proof.
  destruct existing as [id version]. unfold write. destruct (invalid_part input); [done|]. cbv zeta.
  destruct (not_current (Some (id, version)) expected t) as [refused|] eqn:Enc.
  { intros [= -> <-]. unfold not_current in Enc. destruct (group_of id t); [|done]. destruct (negb _); [done|].
    destruct expected; [|done]. by destruct (GroupDb.same_roles _ _ _). }
  destruct (negb (forallb db_text _)); [done|]. destruct (unknown_host _ t) eqn:Eu; [done|]. destruct (negb (db_text _)); [done|].
  destruct (group_name_taken lower _ _ t); [done|]. destruct (i32_max <=? version); [done|]. simpl.
  intros (saved & _ & [= _ <-])%bind_Some. simpl in Enc. destruct (group_of id t) as [g0|] eqn:Eg; [|done].
  destruct (gr_version g0 =? version) eqn:Ev; [|done]. apply Z.eqb_eq in Ev. simpl in Enc.
  eexists g0, _. split_and!; try done.
  intros expected' ->. by destruct (GroupDb.same_roles _ _ _).
Qed.

Lemma str_in_distinct l a : str_in (distinct l) a = str_in l a.
Proof. apply eq_iff_eq_true. rewrite !str_in_In. apply distinct_spec. Qed.

Lemma in_group_ruled t a id : sound lower contained t -> In a (agents_of t) ->
  in_group (ag_id a) id t = match group_of id t with Some g => belongs lower contained t g a | None => false end.
Proof.
  intros [[U1 U2] _ Hs] Ha. apply eq_iff_eq_true. rewrite in_group_In, (Hs (ag_id a) id). unfold ruled.
  unfold agent_of. rewrite (find_unique_id ag_id) by done. split.
  - by intros (b & g & [= <-] & -> & H).
  - destruct (group_of id t) as [g|]; [|done]. intros H. by exists a, g.
Qed.

(** A saved group holds the hosts its content says. *)
Lemma write_holds id version expected input actor now t g t' :
  write lower contained gen (Some (id, version)) expected input actor now t = Some (GroupSaved g, t') -> sound lower contained t ->
  agents_of t' = agents_of t /\ facts t' = facts t /\
  forall a, In a (agents_of t) -> in_group (ag_id a) id t' = would_hold lower contained (Some (gi_content input)) t a.
Proof.
  intros Hw Hs. pose proof (write_sound _ _ _ _ _ _ _ _ _ _ _ Hw Hs) as Hs'.
  destruct (write_head _ _ _ _ _ _ _ _ Hw) as (g0 & picked & Eg & _ & Ep & _ & _ & Hq). simpl in Eg, Hq. revert Hq.
  set (kind := match gi_content input with RuleContent _ => Rule | _ => Manual end). set (row := edited input kind actor now).
  set (head := update_group_row _ _ _ _ _). set (t1 := write_content _ _ _ _ _ _). intros [Q1 Q2 Q3 _ Q5 Q6 _].
  assert (agents_of head = agents_of t /\ facts head = facts t) as [Hh1 Hh2].
  { unfold head, update_group_row. destruct (dismiss_quiet id t) as [_ _ _ _ D5 D6 _]. unfold agents_of.
    case_bool_decide; simpl; by rewrite ?D5, ?D6. }
  assert (In id (map gr_id (groups head))) as Hin.
  { unfold head. rewrite groups_update_group_row, map_rows_ids by done. rewrite (q_groups _ _ (dismiss_quiet id t)).
    apply group_of_In. by exists g0. }
  assert (sound lower contained head) as Hsh by (apply update_group_row_sound; [done|eapply quiet_sound; [apply dismiss_quiet|done]]).
  destruct (write_content_sound lower contained id (gi_content input) picked head Hsh Hin) as [_ G1].
  destruct (write_content_effect lower contained id (gi_content input) picked head) as (W1 & W2 & W3 & W4).
  fold t1 in G1, W1, W2, W3, W4.
  assert (group_of id t' = Some (row g0)) as Eg'.
  { unfold group_of. rewrite Q1, G1. unfold head. rewrite groups_update_group_row, (q_groups _ _ (dismiss_quiet id t)).
    change (group_of id (set_groups (map (fun g => if String.eqb (gr_id g) id then row g else g)) t) = Some (row g0)).
    rewrite group_of_map by done. by rewrite Eg, String.eqb_refl. }
  assert (agents_of t' = agents_of t) as Ea by (unfold agents_of in *; by rewrite Q5, W3).
  assert (facts t' = facts t) as Ef by (by rewrite Q6, W4). split_and!; [done|done|]. intros a Ha.
  rewrite (in_group_ruled t') by (try done; by rewrite Ea). rewrite Eg'. unfold belongs, would_hold. f_equal.
  assert (gr_id (row g0) = id) as -> by (by apply group_of_id in Eg as [? _]).
  replace (conditions_of id t') with (conditions_of id t1) by (unfold conditions_of; by rewrite Q2). rewrite W1.
  replace (os_of (ag_id a) t') with (os_of (ag_id a) t) by (unfold os_of; by rewrite Ef).
  change (gr_kind (row g0)) with kind. unfold kind. destruct (gi_content input) as [cs|l]; [done|].
  rewrite Q3. fold (picked_in id (ag_id a) t1). rewrite W2, Ep. apply str_in_distinct.
Qed.

(** ** Edits need the access they give *)

Lemma host_permissions_In ids host : host_permissions ids = inr host ->
  forall p, In (perm_id p) ids -> pd_scope (def p) = HostScope -> In p host.
Proof.
  revert host. induction ids as [|id ids IH]; intros host; simpl; [done|].
  destruct (from_id id) as [q|] eqn:Eq; [|done]. destruct (host_permissions ids) as [|l]; [done|].
  intros [= <-] p [->|Hp] Hs.
  - rewrite from_id_perm_id in Eq. injection Eq as ->. rewrite bool_decide_true by done. by left.
  - specialize (IH l eq_refl p Hp Hs). case_bool_decide; [by right|done].
Qed.

Lemma admin_power db user p w : admin (caller db user) = true -> power db (User user) p w.
Proof.
  intros (g & Hg & E%String.eqb_eq)%existsb_exists. unfold power. apply resolve_allows. exists g. split; [done|]. by left.
Qed.

Lemma roles_cover_power db user roles : roles_cover (caller db user) roles db = None ->
  forall id role p w, In id roles -> read_role db id = Some role -> In (perm_id p) (sr_permissions role) -> pd_scope (def p) = HostScope ->
  power db (User user) p w.
Proof.
  induction roles as [|id roles IH]; simpl; [done|]. intros Hc id' role p w [->|Hin] Er Hp Hs.
  - rewrite Er in Hc. destruct (host_permissions (sr_permissions role)) as [|host] eqn:Eh; [done|].
    destruct (fits _ _ _) eqn:Ef; [done|]. apply fits_inside in Ef. unfold power.
    apply (Ef p); [by eapply host_permissions_In|]. unfold reach_allows. by rewrite Hs.
  - destruct (read_role db id) as [r|]; [|by apply (IH Hc id' role)].
    destruct (host_permissions _); [done|]. destruct (fits _ _ _); [done|]. by apply (IH Hc id' role).
Qed.

Lemma writer_spec user t e : writer user t = inr e ->
  e = caller (people (store t)) user /\ power (people (store t)) (User user) HostsRead None
  /\ exists w, power (people (store t)) (User user) HostGroupsManage w.
Proof.
  unfold writer. destruct (denied _ _) eqn:Ed; [done|]. destruct (every_host _) eqn:Eh; [|done]. intros [= <-]. split; [done|]. split.
  - apply existsb_exists in Eh as (c & Hc & [Ep%perm_eqb_eq Eg]%andb_prop). exists c. split_and!; [done|done|].
    unfold is_global in Eg. by destruct (cap_scope c).
  - unfold denied in Ed. destruct (holds _ _) eqn:E; [|done]. by apply resolve_holds in E.
Qed.

Lemma prepare_update_spec id q user t version edit : prepare_update id (Some q) user t = inr (version, edit) ->
  exists current, detail id ScopeGlobal t = Some current /\ writer user t = inr (caller (people (store t)) user) /\ version = ug_version q
    /\ (membership_changes q = true ->
          reaching_roles_fit (caller (people (store t)) user) (map fst (gs_roles current)) (people (store t)) = None
          /\ ed_roles edit = Some (map fst (gs_roles current)))
    /\ (membership_changes q = false ->
          gi_content (ed_input edit) = if bool_decide (gs_kind current = Manual) then ManualContent (picked_ids id t) else RuleContent (gs_conditions current)).
Proof.
  unfold prepare_update. destruct (writer user t) as [|e] eqn:Ew; [done|]. pose proof (writer_spec _ _ _ Ew) as (-> & _).
  destruct (negb _); [done|]. destruct (detail id ScopeGlobal t) as [current|] eqn:Ed; [|done]. cbv zeta.
  destruct (if membership_changes q then _ else None) eqn:Ec; [done|].
  destruct (ug_conditions q) eqn:E1, (ug_agent_ids q) eqn:E2; try done; unfold membership_changes in *; rewrite E1, E2 in *; simpl in *.
  1,2: destruct (checked_content _); [done|]; intros [= <- <-]; exists current; split_and!; done.
  intros [= <- <-]. exists current. split_and!; done.
Qed.

Lemma expected_reach id t current : detail id ScopeGlobal t = Some current ->
  forall x, In x (map fst (gs_roles current)) <-> exists r, In r (roles (people (store t))) /\ str_mem id (r_groups r) = true /\ r_id r = x.
Proof.
  unfold detail. destruct (group_of id t) as [g|] eqn:Eg; [|done]. intros [= <-]. apply group_of_id in Eg as [Eid _]. intros x. simpl.
  rewrite Eid, map_map, in_map_iff. simpl. setoid_rewrite sort_by_In. unfold reaching. setoid_rewrite filter_In. naive_solver.
Qed.

(** C25: Nobody widens a role's hosts beyond their own access. When an edit that sends conditions or picked hosts is saved,
    whatever happened between reading the group and writing it, each role that reaches the group at the write was a role
    whose every host permission the editor held on every host when the edit was checked; and the editor held
    host_groups.manage, and hosts.read on all hosts. *)
Theorem content_needs_cover id q user t0 version edit now t1 g t2 :
  prepare_update id (Some q) user t0 = inr (version, edit) -> membership_changes q = true ->
  save_update lower contained gen id version edit now t1 = (GroupShown 200 g, t2) ->
  let db0 := people (store t0) in
  power db0 (User user) HostsRead None /\ (exists w, power db0 (User user) HostGroupsManage w)
  /\ forall r, In r (roles (people (store t1))) -> str_mem id (r_groups r) = true ->
     exists role, read_role db0 (r_id r) = Some role
       /\ forall p w, In (perm_id p) (sr_permissions role) -> pd_scope (def p) = HostScope -> power db0 (User user) p w.
Proof.
  intros Hp Hm Hs db0. destruct (prepare_update_spec _ _ _ _ _ _ Hp) as (current & Ed & Hw & -> & Hc & _). destruct (Hc Hm) as [Hf He].
  apply writer_spec in Hw as (_ & H1 & H2). split_and!; [done|done|]. intros r Hr Hg.
  unfold save_update, answered, update in Hs. destruct (write _ _ _ _ _ _ _ _ _) as [[w u]|] eqn:Ew; [|done].
  assert (exists s, w = GroupSaved s) as [s ->].
  { destruct w; try done; [by eexists|]. simpl in Hs. by destruct (String.eqb part "name"), (String.eqb part "description"). }
  destruct (write_head _ _ _ _ _ _ _ _ Ew) as (_ & _ & _ & _ & _ & _ & Hroles & _). simpl in Hroles.
  specialize (Hroles _ He). apply bool_decide_eq_true in Hroles.
  assert (In (r_id r) (map fst (gs_roles current))) as Hin.
  { rewrite <- (bs_of_list_In str_cmp), <- Hroles, sort_by_In. apply in_map. unfold reaching. by apply filter_In. }
  pose proof Hin as (r0 & Hr0 & _ & E0)%(expected_reach _ _ _ Ed).
  destruct (find_role db0 (r_id r)) as [r1|] eqn:Ef.
  2: { exfalso. eapply find_none in Ef; [|exact Hr0]. simpl in Ef. by rewrite E0, String.eqb_refl in Ef. }
  exists (AccessDb.stored db0 r1). unfold read_role. rewrite Ef. split; [done|]. intros p w Hpin Hsc. unfold reaching_roles_fit in Hf.
  destruct (admin (caller db0 user)) eqn:Ea; [by apply admin_power|]. fold db0 in Hf. rewrite Ea in Hf.
  eapply roles_cover_power; try done. unfold read_role. by rewrite Ef.
Qed.

(** ** Previews *)

Lemma filter_same {A} (p q : A -> bool) l : (forall x, In x l -> p x = q x) -> List.filter p l = List.filter q l.
Proof.
  intros H. induction l as [|x l IH]; simpl; [done|]. rewrite H by (by left). rewrite IH; [done|]. intros y Hy. apply H. by right.
Qed.
Lemma holds_now_group t a id : sound lower contained t -> In a (agents_of t) -> holds_now (Some id) t a = in_group (ag_id a) id t.
Proof.
  intros Hs Ha. unfold holds_now. rewrite (in_group_ruled t) by done. destruct (group_of id t); [|by rewrite andb_false_r].
  unfold belongs. by destruct (bool_decide _).
Qed.

(** Hosts that are in the group in the second state and not in the first, in the order previews list them. *)
Definition newly_in (id : string) (t t' : GroupTables) : list AgentRow :=
  Prelude.sort_by (host_order lower collate)
    (List.filter (fun a => in_group (ag_id a) id t' && negb (in_group (ag_id a) id t)) (agents_of t)).

(** A preview says what saving does. When an edit with the previewed content is saved on the tables previewed, the hosts listed as
    joining (the first 50, by name) and counted are exactly those the group has gained, and the hosts listed as leaving and counted
    exactly those it has lost. *)
Theorem preview_exact id version expected input actor now t g t' p :
  sound lower contained t -> preview lower contained collate (Some id) (Some (gi_content input)) t = PreviewReady p ->
  write lower contained gen (Some (id, version)) expected input actor now t = Some (GroupSaved g, t') ->
  let gained := newly_in id t t' in
  let lost := newly_in id t' t in
  pv_joins p = map (fun a => (ag_id a, ag_hostname a)) (firstn PREVIEW_CAP gained) /\ pv_joins_total p = Z.of_nat (length gained)
  /\ pv_leaves p = map (fun a => (ag_id a, ag_hostname a)) (firstn PREVIEW_CAP lost) /\ pv_leaves_total p = Z.of_nat (length lost).
Proof.
  intros Hs Hp Hw. destruct (write_holds _ _ _ _ _ _ _ _ _ Hw Hs) as (Ea & _ & Hin). unfold preview in Hp.
  destruct (invalid_content _); [done|]. destruct (negb _); [done|]. injection Hp as <-. simpl.
  assert (preview_joins lower contained collate (Some id) (Some (gi_content input)) t = newly_in id t t') as ->.
  { unfold preview_joins, newly_in. f_equal. apply filter_same. intros a Ha. by rewrite Hin, holds_now_group. }
  assert (preview_leaves lower contained collate (Some id) (Some (gi_content input)) t = newly_in id t' t) as ->.
  { unfold preview_leaves, newly_in. rewrite Ea. f_equal. apply filter_same. intros a Ha. by rewrite Hin, holds_now_group. }
  done.
Qed.

Lemma picked_ids_In id t agent : In agent (picked_ids id t)
  <-> picked_in id agent t = true /\ exists a, agent_of agent (hosts (store t)) = Some a /\ ag_status a = SActive.
Proof.
  unfold picked_ids, picked_in. rewrite sort_by_In, in_map_iff, existsb_exists. setoid_rewrite filter_In. setoid_rewrite andb_true_iff. split.
  - intros (p & <- & Hp & E & H). split; [exists p; by rewrite String.eqb_refl|]. destruct (agent_of _ _) as [a|]; [|done].
    exists a. by apply bool_decide_eq_true in H.
  - intros ((p & Hp & E & E'%String.eqb_eq) & a & Ha & Hact). exists p. rewrite E', Ha. split_and!; try done. by apply bool_decide_eq_true.
Qed.

(** A rename keeps the hosts. An edit that sends neither conditions nor picked hosts, prepared and saved on the same tables, leaves
    the group with exactly the hosts it had. *)
Theorem rename_keeps_hosts id q user version edit now t g t' :
  sound lower contained t -> prepare_update id (Some q) user t = inr (version, edit) -> membership_changes q = false ->
  save_update lower contained gen id version edit now t = (GroupShown 200 g, t') ->
  agents_of t' = agents_of t /\ forall agent, in_group agent id t' = in_group agent id t.
Proof.
  intros Hs Hp Hm Hsave. destruct (prepare_update_spec _ _ _ _ _ _ Hp) as (current & Ed & _ & _ & _ & Hc). specialize (Hc Hm).
  unfold save_update, answered, update in Hsave. destruct (write _ _ _ _ _ _ _ _ _) as [[w u]|] eqn:Ew; [|done].
  assert (exists s, w = GroupSaved s) as [s ->].
  { destruct w; try done; [by eexists|]. simpl in Hsave. by destruct (String.eqb part "name"), (String.eqb part "description"). }
  simpl in Hsave. injection Hsave as _ ->. pose proof (write_sound _ _ _ _ _ _ _ _ _ _ _ Ew Hs) as Hs'.
  destruct (write_holds _ _ _ _ _ _ _ _ _ Ew Hs) as (Ea & _ & Hin). split; [done|]. intros agent.
  destruct (agent_of agent (hosts (store t))) as [a|] eqn:Eag.
  2: { destruct Hs as [_ _ Hst], Hs' as [_ _ Hst']. transitivity false; [|symmetry]; apply not_true_iff_false; rewrite in_group_In.
       - rewrite (Hst' agent id). unfold ruled, agent_of. unfold agents_of in Ea. rewrite Ea. fold (agent_of agent (hosts (store t))).
         rewrite Eag. by intros (? & ? & ? & _).
       - rewrite (Hst agent id). unfold ruled. rewrite Eag. by intros (? & ? & ? & _). }
  pose proof (agent_of_id _ _ _ Eag) as [<- Ha]. rewrite Hin by done. rewrite (in_group_ruled t) by done.
  unfold detail in Ed. destruct (group_of id t) as [g0|] eqn:Eg; [|done]. injection Ed as <-. simpl in Hc. rewrite Hc.
  apply group_of_id in Eg as [<- _]. unfold belongs, would_hold.
  destruct (ag_status a) eqn:Eact; try done. simpl. case_bool_decide as Ek.
  - rewrite Ek. fold (picked_in (gr_id g0) (ag_id a) t). apply eq_iff_eq_true. rewrite str_in_In, picked_ids_In.
    split; [by intros [? _]|]. intros H. split; [done|]. by exists a.
  - by destruct (gr_kind g0).
Qed.

(** ** All the time *)

Context (published : string -> bool).
Notation group_steps := (group_steps lower contained collate published gen).

(** C24: Membership is the rule. After any sequence of group writes and deletions, automatic groups, labels, switches, and changes to hosts
    (enrolled, revoked, gone, renamed, moved, with another operating system), from tables where it holds, a host is stored as a
    member of a group exactly when it is active and was picked by hand for a manual group, or all the conditions of a group with
    conditions hold for what it reports now. *)
Theorem membership_is_rule t t' : sound lower contained t -> group_steps t t' ->
  forall agent gid, in_group agent gid t' = true <-> exists a g, agent_of agent (hosts (store t')) = Some a /\ group_of gid t' = Some g
    /\ ag_status a = SActive
    /\ match gr_kind g with
       | Manual => In (gid, agent) (picks t')
       | _ => conditions_of gid t' <> [] /\ forall c, In c (conditions_of gid t') -> condition_holds lower contained (os_of agent t') a c = true
       end.
Proof.
  intros Hs Hr agent gid. apply member_spec. by eapply steps_sound.
Qed.

(** Automatic groups stay few and stay away when removed. Along any sequence of steps there are never more than 200 automatic groups,
    nor more than 20 for the releases of one operating system; two groups never have the same key; and a key once dismissed,
    by deleting its group or making it one's own, is never given to a group again. *)
Theorem automatic_bounded t t' : auto_ok t -> group_steps t t' ->
  Z.of_nat (length (automatic_groups t')) <= 200
  /\ (forall os, In os KNOWN_OS_IDS -> Z.of_nat (length (releases_of os t')) <= 20)
  /\ (forall g g' key, In g (groups t') -> In g' (groups t') -> gr_auto_key g = Some key -> gr_auto_key g' = Some key -> g = g')
  /\ (forall g key, In key (dismissed t) -> In g (groups t') -> gr_auto_key g <> Some key).
Proof.
  intros Ha Hr. destruct (steps_auto _ _ _ _ _ _ _ Hr Ha) as [[A1 A2 A3 A4] Hd]. split_and!; [done|done|done|].
  intros g key Hk Hg E. apply (A4 g key); auto.
Qed.

(** ** What a host runs *)

Lemma host_enabled_spec agent e t : host_enabled agent e t = true
  <-> (exists gid, In (e.1, gid, true) (overrides t) /\ in_group agent gid t = true)
      \/ ((forall gid b, In (e.1, gid, b) (overrides t) -> in_group agent gid t = false) /\ e.2 = true).
Proof.
  unfold host_enabled, decided.
  assert (forall gid b, In (e.1, gid, b) (host_overrides agent e.1 t) <-> In (e.1, gid, b) (overrides t) /\ in_group agent gid t = true) as Hin.
  { intros gid b. unfold host_overrides. rewrite filter_In. simpl. by rewrite String.eqb_refl. }
  assert (forall o, In o (host_overrides agent e.1 t) -> o.1.1 = e.1) as Hset.
  { intros o [_ [E%String.eqb_eq _]%andb_prop]%filter_In. done. }
  destruct (host_overrides agent e.1 t) as [|o l] eqn:El; simpl.
  - split; [intros E; right; split; [|done]|].
    + intros gid b Hg. apply not_true_iff_false. intros H. by apply (Hin gid b).
    + intros [(gid & Hg)|[_ H]]; [by apply Hin in Hg|done].
  - rewrite orb_true_iff, existsb_exists. split.
    + intros H. left. assert (exists o', In o' (o :: l) /\ o'.2 = true) as ([[s gid] b] & Ho & E).
      { destruct H as [H|(b & (o' & <- & Ho')%in_map_iff & E)]; [exists o; split; [by left|done]|exists o'; split; [by right|done]]. }
      pose proof (Hset _ Ho) as E1. simpl in *. subst. exists gid. by apply Hin.
    + intros [(gid & Hg)|[H _]].
      * apply Hin in Hg as [->|Hg]; [by left|]. right. exists true. split; [|done]. apply in_map_iff. by exists (e.1, gid, true).
      * exfalso. destruct o as [[s gid] b]. pose proof (Hset _ (or_introl eq_refl)) as E1. simpl in E1. subst s.
        assert (In (e.1, gid, b) ((e.1, gid, b) :: l)) as Ho by (by left). apply Hin in Ho as [Ho Hg]. rewrite (H gid b) in Hg; done.
Qed.

Lemma filter_split {A} (p : A -> bool) l : (length (List.filter p l) + length (List.filter (fun x => negb (p x)) l) = length l)%nat.
Proof. induction l as [|x l IH]; simpl; [done|]. destruct (p x); simpl; lia. Qed.

Lemma assignment_of_In set_ e t : assignment_of set_ t = Some e -> e.1 = set_ /\ In e (assignment t).
Proof. intros [Hin E%String.eqb_eq]%find_some. done. Qed.

(** A host runs what its groups say. A set that is not assignable runs everywhere. An assignable one runs on a host when a group
    of the host switches it on, else not when one switches it off, else by its default: the same answer is served to the
    agent, shown on the host's page, and counted, each active Linux host once, in the overview. *)
Theorem assignment_exact t scope agent : NoDup (map fst (assignment t)) ->
  let run_on agent set_ := match assignment_of set_ t with
    | None => True
    | Some e => (exists gid, In (set_, gid, true) (overrides t) /\ in_group agent gid t = true)
                \/ ((forall gid b, In (set_, gid, b) (overrides t) -> in_group agent gid t = false) /\ e.2 = true)
    end in
  (forall set_, assigned agent set_ t = true <-> run_on agent set_)
  /\ (forall sets, for_agent collate published scope agent t = Some sets ->
        Permutation (map ha_rule_set_id sets) (map fst (assignment t))
        /\ forall ha, In ha sets -> ha_enabled ha = assigned agent (ha_rule_set_id ha) t)
  /\ (forall set_ a, current_assignment collate published set_ t = RuleAssign.Done a ->
        as_hosts_on a = Z.of_nat (length (List.filter (fun h => linux t h && assigned (ag_id h) set_ t) (agents_of t)))
        /\ as_hosts_on a + as_hosts_off a = Z.of_nat (length (List.filter (linux t) (agents_of t)))).
Proof.
  intros Hnd run_on. split_and!.
  - intros set_. unfold assigned, run_on. destruct (assignment_of set_ t) as [e|] eqn:Ee; [|done].
    apply assignment_of_In in Ee as [<- _]. apply host_enabled_spec.
  - intros sets. unfold for_agent. destruct (agent_of agent _) as [a|]; [|done]. destruct (visible _ _ _); [|done]. intros [= <-]. split.
    + rewrite map_map. simpl. by rewrite (sort_by_perm (fun a b => collate a.1 b.1) (assignment t)).
    + intros ha (e & <- & He%sort_by_In)%in_map_iff. unfold assigned. simpl. unfold assignment_of.
      by rewrite (find_unique_id fst).
  - intros set_ a. unfold current_assignment. destruct (assignment_of set_ t) as [e|] eqn:Ee; [|done]. intros [= <-]. simpl.
    unfold assigned. rewrite Ee. rewrite filter_and. split; [done|].
    pose proof (filter_split (fun a => host_enabled (ag_id a) e t) (List.filter (linux t) (agents_of t))) as H. rewrite filter_and in H. lia.
Qed.

(** What a changed switch leaves of the others. *)
Lemma put_override_filter set_ gid enabled t q : (forall o, at_override set_ gid o = true -> q o = false) ->
  List.filter q (overrides (put_override set_ gid enabled t)) = List.filter q (overrides t).
Proof.
  intros Hq. unfold put_override. destruct enabled as [on|]; [destruct (is_some _)|]; simpl.
  - induction (overrides t) as [|o l IH]; simpl; [done|]. destruct (at_override set_ gid o) eqn:E; simpl; rewrite IH; [|done].
    by rewrite (Hq o E), (Hq (o.1, on)).
  - rewrite List.filter_app. simpl. rewrite Hq; [by rewrite app_nil_r|]. unfold at_override. simpl. by rewrite !String.eqb_refl.
  - rewrite filter_and. apply filter_same. intros o _. destruct (at_override set_ gid o) eqn:E; [by rewrite Hq|done].
Qed.
Lemma find_filter {A} (q : A -> bool) l : find q l = head (List.filter q l).
Proof. induction l as [|x l IH]; simpl; [done|]. by destruct (q x). Qed.

Lemma put_override_same set_ gid enabled t : override_of set_ gid (put_override set_ gid enabled t) = enabled.
Proof.
  unfold put_override. destruct enabled as [on|]; [destruct (override_of set_ gid t) eqn:E; simpl|].
  - unfold override_of in *. simpl. induction (overrides t) as [|o l IH]; simpl in *; [done|].
    destruct (at_override set_ gid o) eqn:Eo; simpl; [|rewrite Eo; by apply IH].
    replace (at_override set_ gid (o.1, on)) with true by (symmetry; exact Eo). done.
  - unfold override_of in *. simpl. rewrite find_filter, List.filter_app. rewrite find_filter in E.
    destruct (List.filter _ (overrides t)); [|done]. simpl. unfold at_override. simpl. by rewrite !String.eqb_refl.
  - unfold override_of. simpl. rewrite find_filter, filter_and, filter_none; [done|]. intros o _. by destruct (at_override _ _ o).
Qed.

(** A switch does what it says and no more. Switching a set on, off or back to its default for a group stores exactly that for the pair,
    and changes what runs neither for any other set nor on any host outside the group. *)
Theorem switch_exact user set_ gid enabled t a t' :
  set_group collate published user set_ gid enabled t = Some (RuleAssign.Done a, t') ->
  override_of set_ gid t' = enabled /\ (forall s g, (s, g) <> (set_, gid) -> override_of s g t' = override_of s g t)
  /\ members t' = members t
  /\ forall agent s, s <> set_ \/ in_group agent gid t = false -> assigned agent s t' = assigned agent s t.
Proof.
  unfold set_group. destruct (negb _); [done|]. destruct (assignment_of set_ t) as [e|]; [|done]. destruct (negb _); [done|].
  destruct (group_of gid t) as [g|]; [|done]. cbv zeta. intros (u & Hu & H)%bind_Some. injection H as _ <-.
  assert (overrides u = overrides (put_override set_ gid enabled t) \/ u = t /\ override_of set_ gid t = enabled) as Ho.
  { case_bool_decide; [right; by injection Hu as <-|]. left. unfold audit_assignment in Hu. destruct (negb _); [done|]. by injection Hu as <-. }
  assert (members u = members t /\ assignment u = assignment t) as [Em Eas].
  { destruct Ho as [_|[-> _]]; [|done]. case_bool_decide; [by injection Hu as <-|]. unfold audit_assignment in Hu. destruct (negb _); [done|].
    injection Hu as <-. unfold put_override. destruct enabled; [destruct (is_some _)|]; done. }
  destruct Ho as [Eo|[-> ?]]; [|done]. split_and!.
  - unfold override_of. rewrite Eo. apply put_override_same.
  - intros s g' Hne. unfold override_of. rewrite Eo, !find_filter, put_override_filter; [done|].
    intros o [E1%String.eqb_eq E2%String.eqb_eq]%andb_prop. unfold at_override. rewrite E1, E2.
    destruct (String.eqb_spec set_ s), (String.eqb_spec gid g'); [congruence|done..].
  - done.
  - intros agent s Hs. unfold assigned, assignment_of. rewrite Eas. destruct (find _ (assignment t)) as [e'|] eqn:Ee; [|done].
    apply find_some in Ee as [_ E%String.eqb_eq]. unfold host_enabled, decided, host_overrides. rewrite E, Eo. f_equal. f_equal. f_equal.
    transitivity (List.filter (fun o => String.eqb o.1.1 s && in_group agent o.1.2 t) (overrides (put_override set_ gid enabled t))).
    + apply filter_same. intros o _. unfold in_group. by rewrite Em.
    + apply put_override_filter. intros o [E1%String.eqb_eq E2%String.eqb_eq]%andb_prop. rewrite E1, E2.
      destruct Hs as [Hs| ->]; [|by rewrite andb_false_r]. destruct (String.eqb_spec set_ s); [congruence|done].
Qed.

(** ** Deletion and labels *)

(** The tables of a deletion before the row goes. *)
Lemma delete_saved id version actor now t g t' : GroupDb.delete id version actor now t = Some (GroupSaved g, t') ->
  reaching id t = [] /\ exists t2, quiet_groups t t2 /\ quiet_groups (delete_group_row id t2) t'
    /\ forall sp, In sp (suppressions (store t')) -> sp_host_group_id sp = Some id -> sp_state sp <> Waiting /\ sp_state sp <> Applied.
Proof.
  unfold GroupDb.delete. destruct (group_of id t); [|done]. destruct (negb _); [done|].
  destruct (Prelude.sort_by _ _) as [|r l] eqn:Er; [|done]. cbv zeta. unfold end_group_suppressions. intros [= _ <-].
  assert (reaching id t = []) as -> by (apply Permutation_nil_r; by rewrite <- (sort_by_perm role_name_order), Er).
  split; [done|]. match goal with |- context [dismiss id ?u] => set (t1 := u) end. exists (dismiss id t1).
  assert (quiet_groups t t1) as [Q1 Q2 Q3 Q4 Q5 Q6 Q7].
  { pose proof (end_suppressions_frame id Waiting Withdrawn "alarm.suppression.withdrawn" actor now (store t)) as [F1 F2].
    set (s1 := end_suppressions id Waiting Withdrawn "alarm.suppression.withdrawn" actor now (store t)) in *.
    destruct (end_suppressions_frame id Applied Removed "alarm.suppression.removed" actor now s1) as [F3 F4].
    split; try done; unfold t1; simpl; fold s1; [by rewrite F4|by rewrite F3, F1]. }
  destruct (dismiss_quiet id t1) as [D1 D2 D3 D4 D5 D6 D7]. split; [by split; congruence|]. split; [by split|].
  intros sp Hsp Hid. change (In sp (suppressions (store (dismiss id t1)))) in Hsp.
  assert (store (dismiss id t1) = store t1) as E by (unfold dismiss; destruct (group_of id t1) as [h|]; [|done]; by destruct (gr_auto_key h)).
  rewrite E in Hsp. unfold t1 in Hsp. simpl in Hsp. rewrite !end_suppressions_rows, map_map in Hsp. apply in_map_iff in Hsp as (sp0 & <- & _).
  clear - Hid. revert Hid. destruct (decide (sp_host_group_id sp0 = Some id)) as [Eg|Eg].
  - rewrite (bool_decide_eq_true_2 (sp_host_group_id sp0 = Some id) Eg). destruct (sp_state sp0) eqn:Es; simpl; rewrite ?Eg, ?Es; simpl;
      rewrite ?(bool_decide_eq_true_2 (Some id = Some id) eq_refl); simpl; rewrite ?Es; done.
  - rewrite (bool_decide_eq_false_2 _ Eg). simpl. rewrite (bool_decide_eq_false_2 _ Eg). done.
Qed.

(** A deleted group leaves nothing behind. A group is only deleted when no role reaches it; then its row, its hosts, conditions, picked
    hosts and rule set switches are gone, none of its alarm suppressions waits or is active any more, and every other group, its
    hosts and its switches are as they were. *)
Theorem deleted_leaves_nothing id version actor now t g t' :
  GroupDb.delete id version actor now t = Some (GroupSaved g, t') ->
  reaching id t = [] /\ group_of id t' = None
  /\ (forall agent, in_group agent id t' = false)
  /\ conditions_of id t' = [] /\ (forall agent, picked_in id agent t' = false) /\ (forall set_, override_of set_ id t' = None)
  /\ (forall sp, In sp (suppressions (store t')) -> sp_host_group_id sp = Some id -> sp_state sp <> Waiting /\ sp_state sp <> Applied)
  /\ forall gid, gid <> id -> group_of gid t' = group_of gid t
       /\ (forall agent, in_group agent gid t' = in_group agent gid t) /\ (forall set_, override_of set_ gid t' = override_of set_ gid t).
Proof.
  intros (Hr & t2 & [Q1 Q2 Q3 Q4 Q5 _ _] & [R1 R2 R3 R4 R5 _ _] & Hsp)%delete_saved. simpl in *. split; [done|].
  assert (forall b, negb b = true -> b = false) as Hb by (by intros []).
  split_and!; try done.
  - unfold group_of. by rewrite R1, find_filter, filter_and, filter_none by (intros g0 _; by destruct (String.eqb _ _)).
  - intros agent. unfold in_group, members. rewrite R5. simpl. apply not_true_iff_false.
    intros (m & [_ Hm]%filter_In & [_ E]%andb_prop)%existsb_exists. simpl in Hm. by rewrite E in Hm.
  - unfold conditions_of. rewrite R2, filter_and, filter_none; [done|]. intros e _. by destruct (String.eqb _ _).
  - intros agent. unfold picked_in. rewrite R3. apply not_true_iff_false.
    intros (m & [_ Hm]%filter_In & [E _]%andb_prop)%existsb_exists. simpl in Hm. by rewrite E in Hm.
  - intros set_. unfold override_of. rewrite R4, find_filter, filter_and, filter_none; [done|]. intros o _. unfold at_override.
    destruct (String.eqb o.1.2 id); simpl; [done|by rewrite andb_false_r].
  - intros gid Hne. split_and!.
    + unfold group_of. rewrite R1, Q1, !find_filter, filter_and. f_equal. apply filter_same. intros g0 _.
      destruct (String.eqb_spec (gr_id g0) gid) as [->|]; [|by rewrite andb_false_r]. by destruct (String.eqb_spec gid id).
    + intros agent. unfold in_group, members. rewrite R5. simpl. rewrite Q5. apply existsb_filter. intros m [_ E%String.eqb_eq]%andb_prop.
      rewrite E. by destruct (String.eqb_spec gid id).
    + intros set_. unfold override_of. rewrite R4, Q4, !find_filter, filter_and. f_equal. f_equal. apply filter_same. intros o _. unfold at_override.
      destruct (String.eqb_spec o.1.2 gid) as [->|]; [|by rewrite !andb_false_r]. by destruct (String.eqb_spec gid id).
Qed.

(** Labels are few, and each is there once. *)
Lemma add_label_bounded agent label actor t r t' : add_label agent label actor t = Some (r, t') ->
  (forall a, Z.of_nat (length (labels_of a t)) <= MAX_LABELS) -> forall a, Z.of_nat (length (labels_of a t')) <= MAX_LABELS.
Proof.
  intros H Hb a. unfold add_label in H. destruct (valid_label label) as [l|]; [|by injection H as _ <-]. destruct (negb _); [done|].
  destruct (negb _); [by injection H as _ <-|]. destruct (has_label _ _ _); [by injection H as _ <-|].
  destruct (MAX_LABELS <=? _) eqn:E; [by injection H as _ <-|]. injection H as _ <-. apply Z.leb_gt in E. specialize (Hb a).
  unfold labels_of in *. simpl. rewrite !(Permutation_length (sort_by_perm _ _)), !length_map in *. rewrite List.filter_app, length_app. simpl.
  destruct (String.eqb_spec agent a) as [->|]; simpl; lia.
Qed.
End groups.

(** ** A concrete platform *)

Definition ex_contained (address range : string) : bool := String.eqb address range.
(** Ops may change groups and read every host, no more; the role of the web team also reaches the first group made. *)
Definition ex_web_permissions : list Permission := [HostsRead; HostsLabel].
Definition ex_db : Db :=
  {| users := [ex_user ex_root "root"; ex_user ex_lead "ops"; ex_user ex_bob "bob"]; accounts := [];
     roles := [ex_role "admin" "Administrator" true true (map perm_id ALL) [];
               ex_role "r_ops" "Ops" false true (map perm_id [HostGroupsManage; HostsRead]) [];
               ex_role "r_web" "Web" false false (map perm_id ex_web_permissions) ["a"]];
     bindings := [new_binding "b1" (User ex_root) "admin" "cli" 0; new_binding "b2" (User ex_lead) "r_ops" ex_root 0;
                  new_binding "b3" (User ex_bob) "r_web" ex_root 0];
     dashboards := []; sessions := []; audit_log := []; console_permissions := map perm_id ALL; asset_groups := []; draws := 0 |}.
Definition ex_agent (id name : string) : AgentRow :=
  {| ag_id := id; ag_status := SActive; ag_enrolled_at := 0; ag_revoked_at := None; ag_last_seen_at := None;
     ag_scanner_version := None; ag_capabilities := []; ag_hostname := Some name; ag_last_address := None; ag_health := None;
     ag_health_previous := None; ag_health_at := None; ag_hardening_facts_ok_at := None; ag_claimed_agent_id := None |}.
Definition ex_tables (name : string) : AgentTables :=
  {| agents := [ex_agent "h1" name; ex_agent "h2" "db-01"]; certificates := []; enrollment_tokens := []; token_uses := [];
     standing_token_secret := []; idempotency := []; agent_presence := []; group_membership := []; agent_log := [] |}.
Definition ex_none : AlarmTables :=
  {| people := ex_db; hosts := ex_tables "web-01"; alarms := []; alarm_history := []; hourly_starts := []; dropped_totals := [];
     suppressions := []; require_approval := true; next_alarm := 1; next_suppression := 1; alarm_log := [] |}.
Definition ex_groups0 : GroupTables :=
  {| store := ex_none; facts := [("h1", {| of_os_id := Some "debian"; of_os_version := Some "12" |})]; groups := []; conditions := [];
     picks := []; dismissed := []; labels := []; assignment := [("hardening", false)]; overrides := [] |}.
Definition ex_rule (pattern : string) : GroupContent :=
  RuleContent [{| co_field := "hostname"; co_negate := false; co_values := [pattern] |}].
Definition ex_input (name : string) (content : GroupContent) : GroupInput :=
  {| gi_name := name; gi_description := ""; gi_content := content |}.
Definition ex_kept {A} (o : option (A * GroupTables)) : GroupTables := match o with Some (_, t) => t | None => ex_groups0 end.
Notation ex_write e q := (write to_ascii_lowercase ex_contained ex_gen e None q ex_root 5).
Definition ex_groups1 : GroupTables := ex_kept (ex_write None (ex_input "Web" (ex_rule "web-*")) ex_groups0).
Definition ex_groups2 : GroupTables :=
  default ex_groups0 (ensure_automatic_groups to_ascii_lowercase ex_contained ex_gen "linux" "debian 12" 6 ex_groups1).
(** The first host is renamed. *)
Definition ex_renamed : GroupTables :=
  with_store (on_hosts (set_agents (fun _ => agents (ex_tables "old-01")))) ex_groups2.
Definition ex_groups3 : GroupTables := agents_triggers to_ascii_lowercase ex_contained ex_groups2 ex_renamed.

Example group_run :
  members ex_groups1 = [("h1", "a")] /\ members ex_groups2 = [("h1", "a"); ("h1", "b"); ("h1", "c")]
  /\ members ex_groups3 = [("h1", "b"); ("h1", "c")]
  /\ map gr_name (groups ex_groups3) = ["Web"; "Linux"; "Debian 12"] /\ map gr_kind (groups ex_groups3) = [Rule; Automatic; Automatic].
Proof. vm_compute. auto 10. Qed.

Notation ex_steps := (group_steps to_ascii_lowercase ex_contained str_cmp (fun _ => true) ex_gen).
Lemma ex_sound : sound to_ascii_lowercase ex_contained ex_groups0.
Proof.
  split; [split; vm_compute; repeat constructor; set_solver|split; done|].
  intros agent gid. split; [done|]. by intros (a & g & _ & ? & _).
Qed.
Lemma ex_auto : auto_ok ex_groups0.
Proof. split; [done|vm_compute|done|done]. intros os _ H. done. Qed.
Lemma ex_run : ex_steps ex_groups0 ex_groups3.
Proof.
  apply (rtc_l _ _ ex_groups1).
  { apply (step_write _ _ _ _ _ None None (ex_input "Web" (ex_rule "web-*")) ex_root 5 ex_groups0
             (match ex_write None (ex_input "Web" (ex_rule "web-*")) ex_groups0 with Some (r, _) => r | None => GroupStale end)).
    vm_compute. reflexivity. }
  apply (rtc_l _ _ ex_groups2).
  { apply (step_ensure _ _ _ _ _ "linux" "debian 12" 6). vm_compute. reflexivity. }
  apply rtc_once, step_hosts. split; try (vm_compute; reflexivity). vm_compute. repeat constructor; set_solver.
Qed.

Lemma membership_is_rule_witness :
  in_group "h1" "a" ex_groups3 = false /\ (in_group "h1" "a" ex_groups3 = true <-> False) /\ in_group "h1" "c" ex_groups3 = true.
Proof.
  split; [vm_compute; reflexivity|]. split; [|vm_compute; reflexivity].
  split; [|done]. intros H.
  apply (membership_is_rule to_ascii_lowercase ex_contained str_cmp ex_gen (fun _ => true) ex_groups0 ex_groups3 ex_sound ex_run "h1" "a") in H.
  destruct H as (a & g & Ha & Hg & _ & H). vm_compute in Ha, Hg. injection Ha as <-. injection Hg as <-. destruct H as [_ H].
  specialize (H {| co_field := "hostname"; co_negate := false; co_values := ["web-*"] |}). vm_compute in H. assert (false = true); [apply H; by left|done].
Defined.

Lemma automatic_bounded_witness : length (automatic_groups ex_groups3) = 2%nat /\ Z.of_nat (length (automatic_groups ex_groups3)) <= 200.
Proof.
  split; [vm_compute; reflexivity|].
  exact (proj1 (automatic_bounded to_ascii_lowercase ex_contained str_cmp ex_gen (fun _ => true) ex_groups0 ex_groups3 ex_auto ex_run)).
Defined.

Definition ex_change (name : option string) (content : option GroupContent) (version : Z) : UpdateHostGroup :=
  {| ug_name := name; ug_description := None;
     ug_conditions := match content with Some (RuleContent cs) => Some cs | _ => None end;
     ug_agent_ids := match content with Some (ManualContent l) => Some l | _ => None end; ug_version := version |}.
Definition ex_prepared (user : string) (q : UpdateHostGroup) (t : GroupTables) : Edit :=
  match prepare_update "a" (Some q) user t with
  | inr (_, edit) => edit
  | inl _ => {| ed_input := ex_input "" (ManualContent []); ed_roles := None; ed_actor := "" |}
  end.
Notation ex_save_edit version edit t := (save_update to_ascii_lowercase ex_contained ex_gen "a" version edit 9 t).
Definition ex_wider : UpdateHostGroup := ex_change None (Some (ex_rule "db-*")) 1.
Definition ex_rename : UpdateHostGroup := ex_change (Some "Webs") None 1.
Notation ex_shown t := (match detail "a" ScopeGlobal t with Some g => g | None => summary ScopeGlobal t (automatic_row "" "" "" "" 0) end).

(** Ops, without [hosts.label], may not widen the web team's group; an Administrator may. *)
Lemma content_needs_cover_witness :
  prepare_update "a" (Some ex_wider) ex_lead ex_groups1
    = inl (group_problem 403 "permission_denied" (refusal_message {| rf_permission := HostsLabel; rf_reason := "" |}))
  /\ exists role, read_role ex_db "r_web" = Some role
     /\ forall p w, In (perm_id p) (sr_permissions role) -> pd_scope (def p) = HostScope -> power ex_db (User ex_root) p w.
Proof.
  split; [vm_compute; reflexivity|].
  refine (proj2 (proj2 (content_needs_cover to_ascii_lowercase ex_contained str_cmp ex_gen "a" ex_wider ex_root ex_groups1 1 (ex_prepared ex_root ex_wider ex_groups1) 9
            ex_groups1 (ex_shown (ex_save_edit 1 (ex_prepared ex_root ex_wider ex_groups1) ex_groups1).2)
            (ex_save_edit 1 (ex_prepared ex_root ex_wider ex_groups1) ex_groups1).2 _ _ _))
            (ex_role "r_web" "Web" false false (map perm_id ex_web_permissions) ["a"]) _ _); [vm_compute; reflexivity..|simpl; auto|vm_compute; reflexivity].
Defined.

Lemma ex_sound1 : sound to_ascii_lowercase ex_contained ex_groups1.
Proof.
  refine (steps_sound to_ascii_lowercase ex_contained str_cmp (fun _ => true) ex_gen ex_groups0 ex_groups1 _ ex_sound). apply rtc_once.
  apply (step_write _ _ _ _ _ None None (ex_input "Web" (ex_rule "web-*")) ex_root 5 ex_groups0
           (match ex_write None (ex_input "Web" (ex_rule "web-*")) ex_groups0 with Some (r, _) => r | None => GroupStale end)).
  vm_compute. reflexivity.
Qed.

Lemma rename_keeps_hosts_witness :
  let t' := (ex_save_edit 1 (ex_prepared ex_lead ex_rename ex_groups1) ex_groups1).2 in
  map gr_name (groups t') = ["Webs"] /\ in_group "h1" "a" t' = in_group "h1" "a" ex_groups1.
Proof.
  split; [vm_compute; reflexivity|].
  refine (proj2 (rename_keeps_hosts to_ascii_lowercase ex_contained ex_gen "a" ex_rename ex_lead 1 (ex_prepared ex_lead ex_rename ex_groups1) 9 ex_groups1
            (ex_shown (ex_save_edit 1 (ex_prepared ex_lead ex_rename ex_groups1) ex_groups1).2) _ _ _ _ _) "h1").
  - exact ex_sound1.
  - vm_compute. reflexivity.
  - reflexivity.
  - vm_compute. reflexivity.
Defined.

(** A rename sent with the version an edit of someone else is about to make writes back what it read before that edit, hosts included,
    and no share check is made: the version is compared with the group written to, not with the group read. *)
Example rename_race :
  let ahead := ex_change (Some "Web") None 2 in
  let edited := (ex_save_edit 1 (ex_prepared ex_root ex_wider ex_groups1) ex_groups1).2 in
  let after := ex_save_edit 2 (ex_prepared ex_lead ahead ex_groups1) edited in
  members ex_groups1 = [("h1", "a")] /\ members edited = [("h2", "a")] /\ members after.2 = [("h1", "a")]
  /\ match after.1 with GroupShown 200 _ => true | _ => false end = true
  /\ match update_group to_ascii_lowercase ex_contained ex_gen "a" (Some (ex_change None (Some (ex_rule "web-*")) 2)) ex_lead 9 edited with
     | (GroupProblem p, _) => pb_status p = 403 | _ => False end.
Proof. vm_compute. auto 10. Qed.

(** The rule replaced by hosts picked by hand, and what the preview says of it. *)
Definition ex_picks : GroupContent := ManualContent ["h2"].
Notation ex_preview := (preview to_ascii_lowercase ex_contained str_cmp (Some "a") (Some ex_picks) ex_groups1).
Definition ex_previewed : Preview :=
  match ex_preview with
  | PreviewReady p => p
  | _ => {| pv_joins := []; pv_leaves := []; pv_gains := []; pv_loses := []; pv_joins_total := 0; pv_leaves_total := 0;
            pv_people_total := 0; pv_overrides_removed := 0; pv_suppressions_ended := 0 |}
  end.
Definition ex_groups4 : GroupTables := ex_kept (ex_write (Some ("a", 1)) (ex_input "Web" ex_picks) ex_groups1).

Lemma preview_exact_witness :
  pv_joins ex_previewed = [("h2", Some "db-01")] /\ pv_leaves ex_previewed = [("h1", Some "web-01")]
  /\ map u_username (pv_gains ex_previewed) = ["bob"] /\ members ex_groups4 = [("h2", "a")]
  /\ pv_joins_total ex_previewed = Z.of_nat (length (newly_in to_ascii_lowercase str_cmp "a" ex_groups1 ex_groups4)).
Proof.
  split; [vm_compute; reflexivity|]. split; [vm_compute; reflexivity|]. split; [vm_compute; reflexivity|]. split; [vm_compute; reflexivity|].
  refine (proj1 (proj2 (preview_exact to_ascii_lowercase ex_contained str_cmp ex_gen "a" 1 None (ex_input "Web" ex_picks) ex_root 5 ex_groups1 (ex_shown ex_groups4)
            ex_groups4 ex_previewed ex_sound1 _ _))); vm_compute; reflexivity.
Defined.

(** The set is switched on for the group. *)
Notation ex_switch enabled t := (set_group str_cmp (fun _ => true) ex_root "hardening" "a" enabled t).
Definition ex_switched : GroupTables := ex_kept (ex_switch (Some true) ex_groups1).
Notation ex_overview t := (match assignment_of "hardening" t with Some e => overview_of str_cmp (fun _ => true) t e
                           | None => overview_of str_cmp (fun _ => true) t ("", false) end).

Lemma switch_exact_witness :
  assigned "h1" "hardening" ex_groups1 = false /\ assigned "h1" "hardening" ex_switched = true
  /\ assigned "h2" "hardening" ex_switched = assigned "h2" "hardening" ex_groups1.
Proof.
  split; [vm_compute; reflexivity|]. split; [vm_compute; reflexivity|].
  refine (proj2 (proj2 (proj2 (switch_exact str_cmp (fun _ => true) ex_root "hardening" "a" (Some true) ex_groups1 (ex_overview ex_switched) ex_switched _)))
            "h2" "hardening" (or_intror _)); vm_compute; reflexivity.
Defined.

Lemma assignment_exact_witness :
  as_hosts_on (ex_overview ex_switched) = 1
  /\ as_hosts_on (ex_overview ex_switched) + as_hosts_off (ex_overview ex_switched)
     = Z.of_nat (length (List.filter (linux ex_switched) (agents_of ex_switched))).
Proof.
  split; [vm_compute; reflexivity|].
  refine (proj2 (proj2 (proj2 (assignment_exact str_cmp (fun _ => true) ex_switched ScopeGlobal "h1" _)) "hardening" (ex_overview ex_switched) _));
    [vm_compute; repeat constructor; set_solver|vm_compute; reflexivity].
Defined.

(** No role reaches the automatic group. *)
Definition ex_deleted : GroupTables := ex_kept (GroupDb.delete "b" 1 ex_root 9 ex_groups2).
Lemma deleted_leaves_nothing_witness :
  members ex_groups2 = [("h1", "a"); ("h1", "b"); ("h1", "c")] /\ members ex_deleted = [("h1", "a"); ("h1", "c")]
  /\ dismissed ex_deleted = ["os_family:linux"] /\ group_of "b" ex_deleted = None
  /\ match GroupDb.delete "a" 1 ex_root 9 ex_groups2 with Some (GroupInUse roles, _) => roles = ["Web"] | _ => False end.
Proof.
  split; [vm_compute; reflexivity|]. split; [vm_compute; reflexivity|]. split; [vm_compute; reflexivity|]. split; [|vm_compute; reflexivity].
  refine (proj1 (proj2 (deleted_leaves_nothing "b" 1 ex_root 9 ex_groups2
    (match detail "b" ScopeGlobal ex_groups2 with Some g => g | None => ex_shown ex_groups2 end) ex_deleted _))). vm_compute. reflexivity.
Defined.
