(* ===== verification/InvData.v ===== *)
(** * Inventories: packages, ports and services, and what the change log tells of them
      (platform-store/src/inventory.rs, wire.rs, change_log.rs, host_services.rs)

    Pure.  [InstalledPackage] and the records its fingerprint is computed over are the protocol crate's:
    [normalize] and the order of the records [np_cmp] are parameters. *)
From S2P Require Import Prelude RustStd Text BTree Json NetAddr.
From stdpp Require Import prelude strings list pretty.
From Stdlib Require Import Ascii ZArith Lia.

Open Scope Z_scope.

(** ** Packages *)

Record PackageRow := {
  pr_manager : string;
  pr_name : string;
  pr_epoch : Z;
  pr_version : string;
  pr_release : string;
  pr_arch : string;
  pr_source : option string;
  pr_source_version : option string;
}.
#[export] Instance PackageRow_eq_dec : EqDecision PackageRow.
Proof. solve_decision. Defined.

(** The protocol's record: the same fields, its epoch a [u32]. *)
Record NormalizedPackage := {
  np_manager : string;
  np_name : string;
  np_epoch : Z;
  np_version : string;
  np_release : string;
  np_arch : string;
  np_source : option string;
  np_source_version : option string;
}.

(** [i32::try_from] of a [u32], and back. *)
Definition epoch_stored (e : Z) : Z := if e <=? i32_max then e else 0.
Definition epoch_sent (e : Z) : Z := if 0 <=? e then e else 0.

Definition normalized (p : PackageRow) : NormalizedPackage :=
  {| np_manager := pr_manager p; np_name := pr_name p; np_epoch := epoch_sent (pr_epoch p); np_version := pr_version p;
     np_release := pr_release p; np_arch := pr_arch p; np_source := pr_source p; np_source_version := pr_source_version p |}.
Definition row_of (p : NormalizedPackage) : PackageRow :=
  {| pr_manager := np_manager p; pr_name := np_name p; pr_epoch := epoch_stored (np_epoch p); pr_version := np_version p;
     pr_release := np_release p; pr_arch := np_arch p; pr_source := np_source p; pr_source_version := np_source_version p |}.

(** The derived order of rows: field by field. *)
Definition row_key (p : PackageRow) :=
  (pr_manager p, (pr_name p, (pr_epoch p, (pr_version p, (pr_release p, (pr_arch p, (pr_source p, pr_source_version p))))))).
Definition row_cmp (p q : PackageRow) : comparison :=
  pair_cmp str_cmp (pair_cmp str_cmp (pair_cmp Z.compare (pair_cmp str_cmp (pair_cmp str_cmp (pair_cmp str_cmp
    (pair_cmp (option_cmp str_cmp) (option_cmp str_cmp))))))) (row_key p) (row_key q).

#[export] Instance option_cmp_order {A} (cmp : A -> A -> comparison) : CmpOrder cmp -> CmpOrder (option_cmp cmp).
Proof. intros H. split; [apply _|]. intros [x|] [y|]; simpl; try done. intros E. by rewrite (cmp_eq cmp x y E). Qed.
#[export] Instance row_cmp_order : CmpOrder row_cmp.
Proof.
  split.
  - change (CmpPreorder (cmp_on row_key (pair_cmp str_cmp (pair_cmp str_cmp (pair_cmp Z.compare (pair_cmp str_cmp (pair_cmp str_cmp (pair_cmp str_cmp
      (pair_cmp (option_cmp str_cmp) (option_cmp str_cmp)))))))))). apply _.
  - intros [] [] E. unfold row_cmp in E. apply cmp_eq in E; [|apply _]. unfold row_key in E. simpl in E. by injection E as -> -> -> -> -> -> -> ->.
Qed.

Section wire.
Context {InstalledPackage : Type} (normalize : InstalledPackage -> NormalizedPackage) (np_cmp : NormalizedPackage -> NormalizedPackage -> comparison).

(** The distinct normalised records, as stored. *)
Definition package_rows (packages : list InstalledPackage) : list PackageRow :=
  map row_of (bs_of_list np_cmp (map normalize packages)).
End wire.

(** ** Ports and services *)

Record Listener := {
  ls_protocol : string;
  ls_address : IpAddr;
  ls_port : Z;
  ls_exposed : bool;
  ls_service : option string;
  ls_program : option string;
}.
Record Service := { sv_unit : string; sv_programs : list string; sv_processes : Z; sv_run_as : option string }.
Record Report := {
  rp_sha256 : string; rp_owners : string; rp_truncated : bool; rp_listeners : list Listener; rp_services : list Service }.

Inductive Refusal := TooLarge | Invalid | WrongAgent.
Definition refusal_code (r : Refusal) : string :=
  match r with TooLarge => "too_large" | Invalid => "invalid" | WrongAgent => "wrong_agent" end.

(** ** The change log *)

Inductive ChangeKind := PackageChange | ListenerChange | ServiceChange.
#[export] Instance ChangeKind_eq_dec : EqDecision ChangeKind.
Proof. solve_decision. Defined.
Definition kind_code (k : ChangeKind) : string :=
  match k with PackageChange => "package" | ListenerChange => "listener" | ServiceChange => "service" end.

Inductive Change := Appeared | WentAway | Exposed | Local.
#[export] Instance Change_eq_dec : EqDecision Change.
Proof. solve_decision. Defined.
Definition change_code (c : Change) : string :=
  match c with Appeared => "appeared" | WentAway => "went_away" | Exposed => "exposed" | Local => "local" end.

Record Event := { ev_key : string; ev_change : Change; ev_detail : option value }.

Definition listener_key (protocol : string) (port : Z) : string := protocol +:+ "/" +:+ pretty port.

(** Per port: is any bound address non-loopback? *)
Definition exposure (rows : list (string * Z * bool)) : list (string * bool) :=
  fold_left (fun ports r => bt_alter str_cmp (listener_key r.1.1 r.1.2) (fun o => default false o || r.2) ports) rows [].

Definition plain (change : Change) (key : string) : Event := {| ev_key := key; ev_change := change; ev_detail := None |}.

Definition listener_diff (old : list (string * Z * bool)) (new : list Listener) : list Event :=
  let before := exposure old in
  let after := exposure (map (fun l => (ls_protocol l, ls_port l, ls_exposed l)) new) in
  omap (fun e => match bt_get str_cmp e.1 before with
                 | None => Some (plain Appeared e.1)
                 | Some was => if Bool.eqb was e.2 then None else Some (plain (if e.2 : bool then Exposed else Local) e.1)
                 end) after
  ++ map (plain WentAway) (List.filter (fun k => negb (bt_contains str_cmp k after)) before.*1).

(** Sets of keys, in order. *)
Definition key_diff (old new : list string) : list Event :=
  map (plain Appeared) (List.filter (fun k => negb (existsb (String.eqb k) old)) new)
  ++ map (plain WentAway) (List.filter (fun k => negb (existsb (String.eqb k) new)) old).

Definition package_version (p : PackageRow) : string :=
  pretty (pr_epoch p) +:+ ":" +:+ pr_version p +:+ (if is_empty (pr_release p) then "" else "-" +:+ pr_release p).

(** [PackageId]: name, manager, version and architecture. *)
Definition PackageId : Type := string * (string * (string * string)).
Definition id_cmp : PackageId -> PackageId -> comparison := pair_cmp str_cmp (pair_cmp str_cmp (pair_cmp str_cmp str_cmp)).
Definition package_id (p : PackageRow) : PackageId := (pr_name p, (pr_manager p, (package_version p, pr_arch p))).
Definition package_ids (rows : list PackageRow) : list PackageId := bs_of_list id_cmp (map package_id rows).

Definition id_event (change : Change) (i : PackageId) : Event :=
  {| ev_key := i.1; ev_change := change;
     ev_detail := Some (JObject [("arch", JString i.2.2.2); ("manager", JString i.2.1); ("version", JString i.2.2.1)]) |}.
Definition difference (l l' : list PackageId) : list PackageId := List.filter (fun i => negb (bool_decide (i ∈ l'))) l.
Definition package_diff (old new : list PackageRow) : list Event :=
  let before := package_ids old in
  let after := package_ids new in
  map (id_event Appeared) (difference after before) ++ map (id_event WentAway) (difference before after).

Example diff_vectors :
  let l protocol port exposed := {| ls_protocol := protocol; ls_address := V4 0 0 0 0; ls_port := port; ls_exposed := exposed;
                                    ls_service := None; ls_program := None |} in
  let row name version := {| pr_manager := "rpm"; pr_name := name; pr_epoch := 0; pr_version := version; pr_release := "1"; pr_arch := "x86_64";
                             pr_source := None; pr_source_version := None |} in
  map (fun e => (ev_key e, ev_change e)) (listener_diff [("tcp", 22, true); ("tcp", 5432, true); ("tcp", 80, false)]
    [l "tcp" 22 true; l "tcp" 5432 false; l "tcp" 80 true; l "udp" 53 true])
  = [("tcp/5432", Local); ("tcp/80", Exposed); ("udp/53", Appeared)]
  /\ listener_diff [("tcp", 22, false); ("tcp", 22, true)] [l "tcp" 22 true] = []
  /\ key_diff ["a.service"; "b.service"] ["b.service"; "c.service"] = [plain Appeared "c.service"; plain WentAway "a.service"]
  /\ package_diff [row "openssl" "3.0.1"; row "bash" "5.2"] [row "openssl" "3.0.2"; row "bash" "5.2"]
     = [id_event Appeared ("openssl", ("rpm", ("0:3.0.2-1", "x86_64"))); id_event WentAway ("openssl", ("rpm", ("0:3.0.1-1", "x86_64")))]
  /\ package_diff [row "bash" "5.2"] [row "bash" "5.2"] = [].
Proof. vm_compute. auto 10. Qed.
