(* ===== verification/InvDb.v ===== *)
(** * Inventories: the stored side (platform-store/src/inventory.rs, change_log.rs, host_services.rs) and
      the requests that bring them (openvibes-ingest/src/delivery.rs)

    A host's packages are links to versions the fleet shares; its ports and services are rows of their
    own.  [None] is a failed statement, which leaves the tables as they were.  [fingerprint] is
    [inventory_fingerprint] of the protocol crate, [services_digest] its digest of ports and services, [lower], [contained] and [gen] are those of the host groups. *)
From S2P Require Import Prelude RustStd Text BTree Json SignData AgentServer AccessDb AlarmData AgentDb AlarmDb GroupData GroupDb NetAddr InvData.
From stdpp Require Import prelude strings list.
From Stdlib Require Import Ascii ZArith Lia.

Open Scope Z_scope.

(** ** Tables *)

(** The columns of [agents] an inventory sets, less [os_id] and [os_version]. *)
Record InventoryState := {
  iv_sha256 : list Z;
  iv_at : Z;
  iv_running_kernel : option string;
  iv_match_version : Z;
}.
(** The columns a services report sets. *)
Record ServicesState := {
  ss_sha256 : option string;
  ss_at : option Z;
  ss_owners : option string;
  ss_truncated : bool;
  ss_refused : option (Z * string);
}.
Definition no_services : ServicesState :=
  {| ss_sha256 := None; ss_at := None; ss_owners := None; ss_truncated := false; ss_refused := None |}.

Record ChangeRow := { ch_at : Z; ch_agent : string; ch_kind : ChangeKind; ch_event : Event }.

Record InvTables := {
  grouped : GroupTables;
  (** [package_versions], by id. *)
  versions : list (Z * PackageRow);
  next_version : Z;
  (** [host_packages]. *)
  host_packages : list (string * Z);
  inventories : list (string * InventoryState);
  listeners : list (string * Listener);
  services : list (string * Service);
  services_states : list (string * ServicesState);
  change_log : list ChangeRow;
  (** Payloads of [inventory_changed]. *)
  notified : list string;
}.

Definition set_grouped (f : GroupTables -> GroupTables) (t : InvTables) : InvTables :=
  {| grouped := f (grouped t); versions := versions t; next_version := next_version t; host_packages := host_packages t;
     inventories := inventories t; listeners := listeners t; services := services t; services_states := services_states t;
     change_log := change_log t; notified := notified t |}.
Definition set_links (f : list (string * Z) -> list (string * Z)) (t : InvTables) : InvTables :=
  {| grouped := grouped t; versions := versions t; next_version := next_version t; host_packages := f (host_packages t);
     inventories := inventories t; listeners := listeners t; services := services t; services_states := services_states t;
     change_log := change_log t; notified := notified t |}.
Definition set_inventories (f : list (string * InventoryState) -> list (string * InventoryState)) (t : InvTables) : InvTables :=
  {| grouped := grouped t; versions := versions t; next_version := next_version t; host_packages := host_packages t;
     inventories := f (inventories t); listeners := listeners t; services := services t; services_states := services_states t;
     change_log := change_log t; notified := notified t |}.
Definition set_lists (f : list (string * Listener) -> list (string * Listener)) (g : list (string * Service) -> list (string * Service))
    (t : InvTables) : InvTables :=
  {| grouped := grouped t; versions := versions t; next_version := next_version t; host_packages := host_packages t;
     inventories := inventories t; listeners := f (listeners t); services := g (services t); services_states := services_states t;
     change_log := change_log t; notified := notified t |}.
Definition set_services_states (f : list (string * ServicesState) -> list (string * ServicesState)) (t : InvTables) : InvTables :=
  {| grouped := grouped t; versions := versions t; next_version := next_version t; host_packages := host_packages t;
     inventories := inventories t; listeners := listeners t; services := services t; services_states := f (services_states t);
     change_log := change_log t; notified := notified t |}.
Definition add_changes (l : list ChangeRow) (t : InvTables) : InvTables :=
  {| grouped := grouped t; versions := versions t; next_version := next_version t; host_packages := host_packages t;
     inventories := inventories t; listeners := listeners t; services := services t; services_states := services_states t;
     change_log := change_log t ++ l; notified := notified t |}.
Definition notify (agent : string) (t : InvTables) : InvTables :=
  {| grouped := grouped t; versions := versions t; next_version := next_version t; host_packages := host_packages t;
     inventories := inventories t; listeners := listeners t; services := services t; services_states := services_states t;
     change_log := change_log t; notified := notified t ++ [agent] |}.

Definition agent_known (agent : string) (t : InvTables) : bool := is_some (agent_of agent (hosts (store (grouped t)))).
Definition inventory_of (agent : string) (t : InvTables) : option InventoryState :=
  snd <$> find (fun e => String.eqb e.1 agent) (inventories t).
Definition services_of (agent : string) (t : InvTables) : ServicesState :=
  match find (fun e => String.eqb e.1 agent) (services_states t) with Some e => e.2 | None => no_services end.
Definition put {A} (agent : string) (a : A) (l : list (string * A)) : list (string * A) :=
  List.filter (fun e => negb (String.eqb e.1 agent)) l ++ [(agent, a)].

(** ** Packages *)

Definition version_of (row : PackageRow) (t : InvTables) : option Z := fst <$> find (fun v => bool_decide (v.2 = row)) (versions t).
Definition row_at (id : Z) (t : InvTables) : option PackageRow := snd <$> find (fun v => v.1 =? id) (versions t).

(** [insert_versions]: rows the fleet has, and repeats, are left out. *)
Definition insert_version (row : PackageRow) (t : InvTables) : InvTables :=
  match version_of row t with
  | Some _ => t
  | None => {| grouped := grouped t; versions := versions t ++ [(next_version t, row)]; next_version := next_version t + 1;
               host_packages := host_packages t; inventories := inventories t; listeners := listeners t; services := services t;
               services_states := services_states t; change_log := change_log t; notified := notified t |}
  end.
Definition insert_versions (rows : list PackageRow) (t : InvTables) : InvTables := fold_left (fun t row => insert_version row t) rows t.

Definition stored_rows (agent : string) (t : InvTables) : list PackageRow :=
  omap (fun l => if String.eqb l.1 agent then row_at l.2 t else None) (host_packages t).

(** [DISTINCT] ids, each a link; a link that is there already is a failed statement. *)
Definition linked (agent : string) (id : Z) (t : InvTables) : bool :=
  existsb (fun l => String.eqb l.1 agent && (l.2 =? id)) (host_packages t).
Definition link (agent : string) (rows : list PackageRow) (t : InvTables) : option InvTables :=
  let ids := remove_dups (omap (fun row => version_of row t) rows) in
  if existsb (fun id => linked agent id t) ids then None else Some (set_links (fun l => l ++ map (pair agent) ids) t).
Definition unlink (agent : string) (rows : list PackageRow) (t : InvTables) : InvTables :=
  set_links (List.filter (fun l => negb (String.eqb l.1 agent && match row_at l.2 t with Some row => bool_decide (row ∈ rows) | None => false end))) t.

Definition record (agent : string) (kind : ChangeKind) (now : Z) (events : list Event) : InvTables -> InvTables :=
  add_changes (map (fun e => {| ch_at := now; ch_agent := agent; ch_kind := kind; ch_event := e |}) events).

Inductive ChangesOutcome := Stored | Resync.
Inductive InventoryOutcome := InventoryStored | Unchanged.

Record OsRelease := { os_id_of : string; os_version_of : string }.

(** Texts PostgreSQL can store. *)
Definition opt_text (o : option string) : bool := match o with Some s => db_text s | None => true end.
Definition row_text (p : PackageRow) : bool :=
  db_text (pr_manager p) && db_text (pr_name p) && db_text (pr_version p) && db_text (pr_release p) && db_text (pr_arch p)
  && opt_text (pr_source p) && opt_text (pr_source_version p).

Section store.
Context (fingerprint : OsRelease -> option string -> list NormalizedPackage -> list Z)
  (lower : string -> string) (contained : string -> string -> bool) (gen : nat -> string).

(** [finish]: the update of the host fires the triggers of host groups, then automatic groups are made. *)
Definition finish (agent : string) (os : OsRelease) (running_kernel : option string) (sha256 : list Z) (now : Z) (t : InvTables)
    : option InvTables :=
  if negb (opt_text running_kernel && db_text (os_id_of os) && db_text (os_version_of os)) then None else
  let before := grouped t in
  let os_facts := {| of_os_id := Some (os_id_of os); of_os_version := Some (os_version_of os) |} in
  let moved := agents_triggers lower contained before (set_facts (put agent os_facts) before) in
  family ← os_family os_facts;
  release ← distribution lower os_facts;
  g ← ensure_automatic_groups lower contained gen family release now moved;
  Some (notify agent (set_inventories (put agent {| iv_sha256 := sha256; iv_at := now; iv_running_kernel := running_kernel; iv_match_version := 0 |})
          (set_grouped (fun _ => g) t))).

Definition replace (agent : string) (os : OsRelease) (running_kernel : option string) (packages : list PackageRow) (sha256 : list Z) (now : Z)
    (t : InvTables) : option (InventoryOutcome * InvTables) :=
  if negb (agent_known agent t) then None
  else
    let stored := iv_sha256 <$> inventory_of agent t in
    if bool_decide (stored = Some sha256) then Some (Unchanged, t)
    else if negb (forallb row_text packages) then None
    else
      let t := insert_versions packages t in
      let old := match stored with Some _ => Some (stored_rows agent t) | None => None end in
      t ← link agent packages (set_links (List.filter (fun l => negb (String.eqb l.1 agent))) t);
      let t := match old with Some old => record agent PackageChange now (package_diff old packages) t | None => t end in
      t ← finish agent os running_kernel sha256 now t;
      Some (InventoryStored, t).

(** The set after the removals and the additions, in turn, of an ordered set. *)
Fixpoint remove_all (rows set : list PackageRow) : option (list PackageRow) :=
  match rows with
  | [] => Some set
  | row :: rows => if bool_decide (row ∈ set) then remove_all rows (List.filter (fun r => negb (bool_decide (r = row))) set) else None
  end.
Fixpoint insert_all (rows set : list PackageRow) : option (list PackageRow) :=
  match rows with
  | [] => Some set
  | row :: rows => if bool_decide (row ∈ set) then None else insert_all rows (bs_of_list row_cmp (row :: set))
  end.

Definition apply_changes (agent : string) (os : OsRelease) (running_kernel : option string) (added removed : list PackageRow)
    (base expected : list Z) (now : Z) (t : InvTables) : option (ChangesOutcome * InvTables) :=
  if negb (agent_known agent t) then None
  else if negb (bool_decide (iv_sha256 <$> inventory_of agent t = Some base)) then Some (Resync, t)
  else match (set ← remove_all removed (bs_of_list row_cmp (stored_rows agent t)); insert_all added set) with
  | None => Some (Resync, t)
  | Some set =>
      if negb (bool_decide (fingerprint os running_kernel (map normalized set) = expected)) then Some (Resync, t)
      else if negb (forallb row_text added) then None
      else
        let t := insert_versions added t in
        t ← link agent added (unlink agent removed t);
        let t := record agent PackageChange now (package_diff removed added) t in
        t ← finish agent os running_kernel expected now t;
        Some (Stored, t)
  end.
End store.

(** ** Ports and services *)

Definition same_listener (agent : string) (l : Listener) (e : string * Listener) : bool :=
  String.eqb e.1 agent && String.eqb (ls_protocol e.2) (ls_protocol l) && bool_decide (ls_address e.2 = ls_address l) && (ls_port e.2 =? ls_port l).
Definition insert_listener (agent : string) (l : Listener) (t : InvTables) : option InvTables :=
  if negb (existsb (String.eqb (ls_protocol l)) ["tcp"; "udp"] && (1 <=? ls_port l) && (ls_port l <=? 65535)
           && opt_text (ls_service l) && opt_text (ls_program l)) then None
  else if existsb (same_listener agent l) (listeners t) then Some t
  else Some (set_lists (fun ls => ls ++ [(agent, l)]) id t).
Definition insert_service (agent : string) (s : Service) (t : InvTables) : option InvTables :=
  if (sv_processes s <? 0) || negb (db_text (sv_unit s) && forallb db_text (sv_programs s) && opt_text (sv_run_as s)) then None
  else if existsb (fun e => String.eqb e.1 agent && String.eqb (sv_unit e.2) (sv_unit s)) (services t) then Some t
  else Some (set_lists id (fun ss => ss ++ [(agent, s)]) t).
Fixpoint each {A} (f : A -> InvTables -> option InvTables) (l : list A) (t : InvTables) : option InvTables :=
  match l with [] => Some t | x :: l => t ← f x t; each f l t end.

Definition listeners_of (agent : string) (t : InvTables) : list Listener := map snd (List.filter (fun e => String.eqb e.1 agent) (listeners t)).
Definition units_of (agent : string) (t : InvTables) : list Service := map snd (List.filter (fun e => String.eqb e.1 agent) (services t)).
Definition unit_set (l : list Service) : list string := bs_of_list str_cmp (map sv_unit l).

(** [services_sha256 ~ '^[0-9a-f]{64}$'] and [services_owners]. *)
Definition services_columns (r : Report) : bool :=
  (String.length (rp_sha256 r) =? 64)%nat
  && forallb (fun c => (byte_of "0" <=? c) && (c <=? byte_of "9") || (byte_of "a" <=? c) && (c <=? byte_of "f")) (bytes (rp_sha256 r))
  && existsb (String.eqb (rp_owners r)) ["complete"; "partial"].

Definition replace_services (agent : string) (report : Report) (now : Z) (t : InvTables) : option InvTables :=
  if negb (agent_known agent t) then
    (* rows of an unknown agent fail, an update of it does nothing *)
    match rp_listeners report, rp_services report with [], [] => Some t | _, _ => None end
  else
    let current := ss_sha256 (services_of agent t) in
    t ← (if bool_decide (current = Some (rp_sha256 report)) then Some t
         else
           let old_listeners := map (fun l => (ls_protocol l, ls_port l, ls_exposed l)) (listeners_of agent t) in
           let old_units := unit_set (units_of agent t) in
           let t := set_lists (List.filter (fun e => negb (String.eqb e.1 agent))) (List.filter (fun e => negb (String.eqb e.1 agent))) t in
           let t := match current with
                    | Some _ => record agent ServiceChange now (key_diff old_units (unit_set (rp_services report)))
                                  (record agent ListenerChange now (listener_diff old_listeners (rp_listeners report)) t)
                    | None => t
                    end in
           t ← each (insert_listener agent) (rp_listeners report) t;
           each (insert_service agent) (rp_services report) t);
    if negb (services_columns report) then None else Some (set_services_states (put agent {| ss_sha256 := Some (rp_sha256 report); ss_at := Some now; ss_owners := Some (rp_owners report);
                                            ss_truncated := rp_truncated report; ss_refused := None |}) t).

Definition refused (agent : string) (refusal : Refusal) (now : Z) (t : InvTables) : InvTables :=
  if negb (agent_known agent t) then t
  else let s := services_of agent t in
       set_services_states (put agent {| ss_sha256 := ss_sha256 s; ss_at := ss_at s; ss_owners := ss_owners s; ss_truncated := ss_truncated s;
                                         ss_refused := Some (now, refusal_code refusal) |}) t.

(** [change_log::prune]. *)
Definition prune (now : Z) (t : InvTables) : Z * InvTables :=
  let old r := ch_at r <? now - 90 * 24 * 3600 * 1000000 in
  (Z.of_nat (length (List.filter old (change_log t))),
   {| grouped := grouped t; versions := versions t; next_version := next_version t; host_packages := host_packages t;
      inventories := inventories t; listeners := listeners t; services := services t; services_states := services_states t;
      change_log := List.filter (fun r => negb (old r)) (change_log t); notified := notified t |}).

(** ** Requests (delivery.rs) *)

(** The reports the protocol crate parses, by what the handlers read of them. *)
Record InventoryReport (P : Type) := { ir_agent_id : string; ir_os : OsRelease; ir_running_kernel : option string; ir_packages : list P }.
Arguments ir_agent_id {_}. Arguments ir_os {_}. Arguments ir_running_kernel {_}. Arguments ir_packages {_}.
Record InventoryChanges (P : Type) := {
  ic_agent_id : string; ic_os : OsRelease; ic_running_kernel : option string; ic_added : list P; ic_removed : list P;
  ic_base_sha256 : string; ic_sha256 : string }.
Arguments ic_agent_id {_}. Arguments ic_os {_}. Arguments ic_running_kernel {_}. Arguments ic_added {_}. Arguments ic_removed {_}.
Arguments ic_base_sha256 {_}. Arguments ic_sha256 {_}.
(** The protocol's services report. *)
Inductive ListenerProtocol := Tcp | Udp.
Inductive Owners := Complete | Partial.
Record WireListener := {
  wl_protocol : ListenerProtocol; wl_address : IpAddr; wl_port : Z; wl_exposed : bool; wl_service : option string; wl_program : option string }.
Record WireService := { ws_unit : string; ws_programs : list string; ws_processes : Z; ws_user : option string }.
Record HostServices := {
  hs_agent_id : string; hs_sha256 : string; hs_owners : Owners; hs_truncated : bool; hs_listeners : list WireListener; hs_services : list WireService }.

Definition stored_listener (l : WireListener) : Listener :=
  {| ls_protocol := match wl_protocol l with Tcp => "tcp" | Udp => "udp" end; ls_address := wl_address l; ls_port := wl_port l;
     ls_exposed := wl_exposed l; ls_service := wl_service l; ls_program := wl_program l |}.
Definition stored_service (s : WireService) : Service :=
  {| sv_unit := ws_unit s; sv_programs := ws_programs s; sv_processes := if ws_processes s <=? i32_max then ws_processes s else i32_max;
     sv_run_as := ws_user s |}.
Definition stored_report (r : HostServices) : Report :=
  {| rp_sha256 := hs_sha256 r; rp_owners := match hs_owners r with Complete => "complete" | Partial => "partial" end;
     rp_truncated := hs_truncated r; rp_listeners := map stored_listener (hs_listeners r); rp_services := map stored_service (hs_services r) |}.

Section requests.
Context {InstalledPackage : Type} (normalize : InstalledPackage -> NormalizedPackage) (np_cmp : NormalizedPackage -> NormalizedPackage -> comparison)
  (fingerprint : OsRelease -> option string -> list NormalizedPackage -> list Z) (digest_from_hex : string -> option (list Z))
  (services_digest : list WireListener -> list WireService -> list Z)
  (gunzip : list Z -> Z -> option (list Z)) (inventory_document_bytes HOST_SERVICES_BYTES : Z)
  (parse_report : list Z -> option (InventoryReport InstalledPackage)) (parse_changes : list Z -> option (InventoryChanges InstalledPackage))
  (parse_services : list Z -> option HostServices)
  (lower : string -> string) (contained : string -> string -> bool) (gen : nat -> string).

(** [wire::inventory]. *)
Definition wire_inventory (os : OsRelease) (running_kernel : option string) (packages : list InstalledPackage) : list PackageRow * list Z :=
  (package_rows normalize np_cmp packages, fingerprint os running_kernel (map normalize packages)).

Definition inventory (agent : string) (h : Headers) (body : list Z) (now : Z) (t : InvTables) : (ApiError + unit) * InvTables :=
  match decoded_body gunzip h body (MAX_INVENTORY_BYTES inventory_document_bytes) with
  | inl e => (inl e, t)
  | inr body =>
      match parse_with_limit parse_report (fun _ => true) body (MAX_INVENTORY_BYTES inventory_document_bytes) with
      | inl e => (inl e, t)
      | inr report =>
          if negb (String.eqb (ir_agent_id report) agent) then (inl BadRequest, t)
          else
            let '(rows, digest) := wire_inventory (ir_os report) (ir_running_kernel report) (ir_packages report) in
            match replace lower contained gen agent (ir_os report) (ir_running_kernel report) rows digest now t with
            | Some (_, t) => (inr tt, t)
            | None => (inl Unavailable, t)
            end
      end
  end.

Definition inventory_changes (agent : string) (h : Headers) (body : list Z) (now : Z) (t : InvTables) : (ApiError + unit) * InvTables :=
  match decoded_body gunzip h body (MAX_INVENTORY_BYTES inventory_document_bytes) with
  | inl e => (inl e, t)
  | inr body =>
      match parse_with_limit parse_changes (fun _ => true) body (MAX_INVENTORY_BYTES inventory_document_bytes) with
      | inl e => (inl e, t)
      | inr c =>
          if negb (String.eqb (ic_agent_id c) agent) then (inl BadRequest, t)
          else match digest_from_hex (ic_base_sha256 c), digest_from_hex (ic_sha256 c) with
          | Some base, Some expected =>
              match apply_changes fingerprint lower contained gen agent (ic_os c) (ic_running_kernel c)
                      (package_rows normalize np_cmp (ic_added c)) (package_rows normalize np_cmp (ic_removed c)) base expected now t with
              | Some (Stored, t) => (inr tt, t)
              | Some (Resync, t) => (inl AgentServer.Resync, t)
              | None => (inl Unavailable, t)
              end
          | _, _ => (inl BadRequest, t)
          end
      end
  end.

Definition checked_services (agent : string) (h : Headers) (body : list Z) : (ApiError * Refusal) + HostServices :=
  match decoded_body gunzip h body HOST_SERVICES_BYTES with
  | inl AgentServer.TooLarge => inl (AgentServer.TooLarge, TooLarge)
  | inl e => inl (e, Invalid)
  | inr body =>
      if HOST_SERVICES_BYTES <? Z.of_nat (length body) then inl (AgentServer.TooLarge, TooLarge)
      else match parse parse_services (fun _ => true) body with
      | inl e => inl (e, Invalid)
      | inr s =>
          if negb (String.eqb (hs_agent_id s) agent) then inl (BadRequest, WrongAgent)
          else if negb (String.eqb (of_bytes (hex_of (services_digest (hs_listeners s) (hs_services s)))) (hs_sha256 s))
          then inl (BadRequest, Invalid)
          else inr s
      end
  end.
Definition services_request (agent : string) (h : Headers) (body : list Z) (now : Z) (t : InvTables) : (ApiError + unit) * InvTables :=
  match checked_services agent h body with
  | inl (e, refusal) => (inl e, refused agent refusal now t)
  | inr report =>
      match replace_services agent (stored_report report) now t with
      | Some t => (inr tt, t)
      | None => (inl Unavailable, t)
      end
  end.
End requests.
