(* ===== verification/InvInv.v ===== *)
(** * Inventories: the rows of a host through versions and links, and what the change log tells

    The invariant of the shared versions, and what each statement does to the rows of each host; then the log. *)
From S2P Require Import Prelude RustStd Text BTree Json AccessDb NetAddr AgentDb AlarmData AlarmDb GroupData GroupDb InvData InvDb.
From stdpp Require Import prelude strings list.
From Stdlib Require Import Ascii ZArith Lia.

Open Scope Z_scope.

Record wf_versions (t : InvTables) : Prop := {
  wv_ids : NoDup (map fst (versions t));
  wv_rows : NoDup (map snd (versions t));
  wv_next : forall v, In v (versions t) -> v.1 < next_version t;
  wv_links : NoDup (host_packages t);
  wv_refer : forall l, In l (host_packages t) -> exists row, In (l.2, row) (versions t);
}.

Lemma row_at_In id row t : wf_versions t -> (row_at id t = Some row <-> In (id, row) (versions t)).
Proof.
  intros [H1 _ _ _ _]. unfold row_at. rewrite fmap_Some. split.
  - intros ([i r] & [Hin E%Z.eqb_eq]%find_some & ->). simpl in E. by subst.
  - intros Hin. exists (id, row). split; [|done]. revert H1 Hin. induction (versions t) as [|v l IH]; simpl; [done|].
    intros [Hv Hnd]%NoDup_cons [->|Hin]; simpl; [by rewrite Z.eqb_refl|]. destruct (Z.eqb_spec v.1 id) as [E|]; [|by apply IH].
    exfalso. apply Hv. rewrite E. apply list_elem_of_In. apply (in_map fst _ _ Hin).
Qed.
Lemma version_of_In id row t : wf_versions t -> (version_of row t = Some id <-> In (id, row) (versions t)).
Proof.
  intros [_ H1 _ _ _]. unfold version_of. rewrite fmap_Some. split.
  - intros ([i r] & [Hin E%bool_decide_eq_true]%find_some & ->). simpl in *. by subst.
  - intros Hin. exists (id, row). split; [|done]. revert H1 Hin. induction (versions t) as [|v l IH]; simpl; [done|].
    intros [Hv Hnd]%NoDup_cons [->|Hin]; simpl; [by rewrite bool_decide_eq_true_2|]. case_bool_decide as E; [|by apply IH].
    exfalso. apply Hv. rewrite E. apply list_elem_of_In. apply (in_map snd _ _ Hin).
Qed.

Lemma stored_rows_In agent t row : In row (stored_rows agent t) <-> exists id, In (agent, id) (host_packages t) /\ row_at id t = Some row.
Proof.
  unfold stored_rows. rewrite <- list_elem_of_In, list_elem_of_omap. setoid_rewrite list_elem_of_In. split.
  - intros ([a id] & Hl & H). simpl in H. destruct (String.eqb_spec a agent) as [->|]; [|done]. by exists id.
  - intros (id & Hl & H). exists (agent, id). simpl. by rewrite String.eqb_refl.
Qed.

(** A host's rows, as the statements see them. *)
Definition has_row (agent : string) (t : InvTables) (row : PackageRow) : Prop := exists id, In (agent, id) (host_packages t) /\ In (id, row) (versions t).
Lemma has_row_stored agent t row : wf_versions t -> In row (stored_rows agent t) <-> has_row agent t row.
Proof. intros Hw. rewrite stored_rows_In. unfold has_row. by setoid_rewrite (row_at_In _ _ _ Hw). Qed.

(** ** Versions *)

Lemma insert_version_spec row t : wf_versions t -> let t' := insert_version row t in
  wf_versions t' /\ host_packages t' = host_packages t /\ (exists id, In (id, row) (versions t'))
  /\ (forall v, In v (versions t) -> In v (versions t'))
  /\ (forall agent r, has_row agent t' r <-> has_row agent t r)
  /\ grouped t' = grouped t /\ inventories t' = inventories t /\ change_log t' = change_log t.
Proof.
  intros Hw. unfold insert_version. destruct (version_of row t) as [id|] eqn:E; cbv zeta.
  { apply version_of_In in E; [|done]. split_and!; try done. by exists id. }
  pose proof Hw as [H1 H2 H3 H4 H5].
  assert (~ In row (map snd (versions t))) as Hn.
  { intros ([id r] & Er & Hin)%in_map_iff. simpl in Er. subst r. apply (version_of_In _ _ _ Hw) in Hin. congruence. }
  split; [|split_and!; simpl; try done].
  - split; simpl; rewrite ?map_app; simpl.
    + apply NoDup_snoc; [done|]. intros (v & E' & Hin)%list_elem_of_In%in_map_iff. apply H3 in Hin. simpl in *. lia.
    + apply NoDup_snoc; [done|]. by rewrite list_elem_of_In.
    + intros v [Hv|[<-|[]]]%in_app_iff; simpl; [apply H3 in Hv|]; lia.
    + done.
    + intros l Hl. destruct (H5 l Hl) as [r Hr]. exists r. apply in_app_iff. by left.
  - exists (next_version t). apply in_app_iff. right. by left.
  - intros v Hv. apply in_app_iff. by left.
  - intros agent r. unfold has_row. simpl. split; intros (id & Hl & Hv); exists id; (split; [done|]); [|apply in_app_iff; by left].
    apply in_app_iff in Hv as [Hv|[[= <- <-]|[]]]; [done|]. destruct (H5 _ Hl) as [r' Hr']. apply H3 in Hr'. simpl in Hr'. lia.
Qed.

Lemma insert_versions_spec rows : forall t, wf_versions t -> let t' := insert_versions rows t in
  wf_versions t' /\ host_packages t' = host_packages t /\ (forall row, In row rows -> exists id, In (id, row) (versions t'))
  /\ (forall v, In v (versions t) -> In v (versions t'))
  /\ (forall agent r, has_row agent t' r <-> has_row agent t r)
  /\ grouped t' = grouped t /\ inventories t' = inventories t /\ change_log t' = change_log t.
Proof.
  induction rows as [|row rows IH]; intros t Hw; cbv zeta; [by split_and!|].
  destruct (insert_version_spec row t Hw) as (W & H1 & (id & H2) & H3 & H4 & H5 & H6 & H7).
  change (insert_versions (row :: rows) t) with (insert_versions rows (insert_version row t)).
  destruct (IH _ W) as (W' & K1 & K2 & K3 & K4 & K5 & K6 & K7). cbv zeta in *.
  rewrite K1, K5, K6, K7. split; [exact W'|]. split; [exact H1|]. split; [|split; [|split; [|done]]].
  - intros r [<-|Hr]; [exists id; by apply K3|by apply K2].
  - intros v Hv. by apply K3, H3.
  - intros agent r. by rewrite K4, H4.
Qed.

(** ** Links *)

Lemma link_spec agent rows t t' : wf_versions t -> (forall row, In row rows -> exists id, In (id, row) (versions t)) ->
  link agent rows t = Some t' ->
  wf_versions t' /\ (forall a row, has_row a t' row <-> has_row a t row \/ a = agent /\ In row rows)
  /\ grouped t' = grouped t /\ inventories t' = inventories t /\ change_log t' = change_log t.
Proof.
  intros Hw Hv Hl. unfold link in Hl. set (ids := remove_dups _) in *. destruct (existsb _ ids) eqn:Ee; [done|]. injection Hl as <-.
  assert (forall id, In id ids <-> exists row, In row rows /\ In (id, row) (versions t)) as Hids.
  { intros id. unfold ids. rewrite <- list_elem_of_In, elem_of_remove_dups, list_elem_of_omap. setoid_rewrite list_elem_of_In.
    by setoid_rewrite (version_of_In _ _ _ Hw). }
  assert (forall id, In id ids -> ~ In (agent, id) (host_packages t)) as Hfresh.
  { intros id Hid Hin. apply not_true_iff_false in Ee. apply Ee, existsb_exists. exists id. split; [done|].
    apply existsb_exists. exists (agent, id). simpl. by rewrite String.eqb_refl, Z.eqb_refl. }
  pose proof Hw as [H1 H2 H3 H4 H5]. split; [|split; [|done]].
  - split; simpl; try done.
    + apply NoDup_app. split_and!; [done| |].
      * intros l Hl (id & <- & Hid)%list_elem_of_In%in_map_iff. apply (Hfresh id Hid). by apply list_elem_of_In.
      * apply NoDup_fmap; [by intros ? ? [=]|apply NoDup_remove_dups].
    + intros l [Hl|(id & <- & Hid)%in_map_iff]%in_app_iff; [by apply H5|]. apply Hids in Hid as (row & _ & Hr). by exists row.
  - intros a row. unfold has_row. simpl. setoid_rewrite in_app_iff. setoid_rewrite in_map_iff. split.
    + intros (id & [Hl|(x & [= -> ->] & Hx)] & Hr); [left; by exists id|]. right. split; [done|]. apply Hids in Hx as (row' & Hin & Hr').
      assert (row = row') as ->; [|done]. apply (row_at_In _ _ _ Hw) in Hr, Hr'. congruence.
    + intros [(id & Hl & Hr)|[-> Hin]]; [exists id; by auto|]. destruct (Hv row Hin) as [id Hid]. exists id. split; [|done]. right.
      exists id. split; [done|]. apply Hids. by exists row.
Qed.

Lemma drop_links_spec (p : string * Z -> bool) t : wf_versions t -> let t' := set_links (List.filter p) t in
  wf_versions t' /\ (forall a row, has_row a t' row <-> exists id, In (a, id) (host_packages t) /\ p (a, id) = true /\ In (id, row) (versions t)).
Proof.
  intros [H1 H2 H3 H4 H5]. split.
  - split; simpl; try done; [by apply NoDup_ListNoDup, List.NoDup_filter, NoDup_ListNoDup|]. intros l [Hl _]%filter_In. by apply H5.
  - intros a row. unfold has_row. simpl. setoid_rewrite filter_In. naive_solver.
Qed.

Lemma unlink_spec agent rows t : wf_versions t -> let t' := unlink agent rows t in
  wf_versions t' /\ forall a row, has_row a t' row <-> has_row a t row /\ ~ (a = agent /\ In row rows).
Proof.
  intros Hw. unfold unlink. cbv zeta. set (p := fun l : string * Z => negb _). destruct (drop_links_spec p t Hw) as [W H]. split; [exact W|].
  intros a row. rewrite (H a row). unfold has_row. split.
  - intros (id & Hl & Hp & Hr). split; [by exists id|]. intros [-> Hin]. unfold p in Hp. simpl in Hp.
    rewrite String.eqb_refl, (proj2 (row_at_In _ _ _ Hw) Hr), bool_decide_eq_true_2 in Hp; [done|]. by apply list_elem_of_In.
  - intros [(id & Hl & Hr) Hn]. exists id. split_and!; [done| |done]. unfold p. simpl. rewrite (proj2 (row_at_In _ _ _ Hw) Hr).
    destruct (String.eqb_spec a agent) as [->|]; [|done]. simpl. rewrite bool_decide_eq_false_2; [done|].
    rewrite list_elem_of_In. intros Hin. by apply Hn.
Qed.

(** ** Sets of rows *)

Lemma remove_all_spec rows : forall set set', remove_all rows set = Some set' ->
  (forall r, In r set' <-> In r set /\ ~ In r rows) /\ (forall r, In r rows -> In r set).
Proof.
  induction rows as [|row rows IH]; intros set set'; simpl; [intros [= <-]; split; [tauto|done]|].
  case_bool_decide as Hin; [|done]. rewrite list_elem_of_In in Hin. intros H. destruct (IH _ _ H) as [H1 H2]. split.
  - intros r. rewrite H1, filter_In, negb_true_iff, bool_decide_eq_false. intuition congruence.
  - intros r [<-|Hr]; [done|]. by apply H2, filter_In in Hr as [? _].
Qed.
Lemma remove_all_succeeds rows : forall set, NoDup rows -> (forall r, In r rows -> In r set) -> is_Some (remove_all rows set).
Proof.
  induction rows as [|row rows IH]; intros set Hnd Hin; simpl; [done|]. apply NoDup_cons in Hnd as [Hn Hnd].
  rewrite bool_decide_eq_true_2 by (apply list_elem_of_In, Hin; by left). apply IH; [done|]. intros r Hr. apply filter_In. split; [apply Hin; by right|].
  apply negb_true_iff, bool_decide_eq_false. intros ->. apply Hn. by apply list_elem_of_In.
Qed.
Lemma insert_all_spec rows : forall set set', insert_all rows set = Some set' ->
  (forall r, In r set' <-> In r set \/ In r rows) /\ (forall r, In r rows -> ~ In r set).
Proof.
  induction rows as [|row rows IH]; intros set set'; simpl; [intros [= <-]; split; [tauto|done]|].
  case_bool_decide as Hin; [done|]. rewrite list_elem_of_In in Hin. intros H. destruct (IH _ _ H) as [H1 H2]. split.
  - intros r. rewrite H1, (bs_of_list_In row_cmp). simpl. tauto.
  - intros r [<-|Hr]; [done|]. intros Hs. apply (H2 r Hr). apply (bs_of_list_In row_cmp). by right.
Qed.
Lemma insert_all_succeeds rows : forall set, NoDup rows -> (forall r, In r rows -> ~ In r set) -> is_Some (insert_all rows set).
Proof.
  induction rows as [|row rows IH]; intros set Hnd Hin; simpl; [done|]. apply NoDup_cons in Hnd as [Hn Hnd].
  rewrite bool_decide_eq_false_2 by (rewrite list_elem_of_In; apply Hin; by left). apply IH; [done|]. intros r Hr.
  rewrite (bs_of_list_In row_cmp). intros [<-|Hs]; [apply Hn; by apply list_elem_of_In|]. apply (Hin r); [by right|done].
Qed.

Lemma remove_all_once rows : forall set set', remove_all rows set = Some set' -> NoDup rows.
Proof.
  induction rows as [|row rows IH]; intros set set'; simpl; [constructor|]. case_bool_decide; [|done]. intros H'. constructor; [|by eapply IH].
  rewrite list_elem_of_In. intros Hr. apply (proj2 (remove_all_spec _ _ _ H')), filter_In in Hr as [_ Hr]. by rewrite bool_decide_eq_true_2 in Hr.
Qed.
Lemma insert_all_once rows : forall set set', insert_all rows set = Some set' -> NoDup rows.
Proof.
  induction rows as [|row rows IH]; intros set set'; simpl; [constructor|]. case_bool_decide; [done|]. intros H'. constructor; [|by eapply IH].
  rewrite list_elem_of_In. intros Hr. apply (proj2 (insert_all_spec _ _ _ H') row Hr), (bs_of_list_In row_cmp). by left.
Qed.

(** ** Operations *)

Lemma omap_same {A B} (f g : A -> option B) l : (forall x, In x l -> f x = g x) -> omap f l = omap g l.
Proof.
  induction l as [|x l IH]; [done|]. intros H.
  change (match f x with Some y => y :: omap f l | None => omap f l end = match g x with Some y => y :: omap g l | None => omap g l end).
  rewrite IH by (intros y Hy; apply H; by right). by rewrite H by (by left).
Qed.

Section store.
Context (fingerprint : OsRelease -> option string -> list NormalizedPackage -> list Z)
  (lower : string -> string) (contained : string -> string -> bool) (gen : nat -> string).

Lemma find_put {A} agent a (x : A) l : find (fun e => String.eqb e.1 a) (put agent x l)
  = if String.eqb agent a then Some (agent, x) else find (fun e => String.eqb e.1 a) l.
Proof.
  unfold put. induction l as [|e l IH]; simpl; [by destruct (String.eqb agent a)|]. destruct (String.eqb_spec e.1 agent) as [E|E]; simpl; rewrite IH.
  - rewrite E. by destruct (String.eqb agent a).
  - destruct (String.eqb_spec agent a) as [Ea|Ea]; [|done]. destruct (String.eqb_spec e.1 a); [congruence|done].
Qed.

(** Facts are set by inventories alone. *)
Lemma ensure_one_facts field value display now t t' : ensure_one lower contained gen field value display now t = Some t' -> facts t' = facts t.
Proof.
  unfold ensure_one. intros H. repeat (destruct (_ : bool); [by injection H as <-|]).
  apply bind_Some in H as (name & _ & H). destruct (is_some _); [done|]. by injection H as <-.
Qed.
Lemma triggers_facts before t : facts (agents_triggers lower contained before t) = facts t.
Proof.
  unfold agents_triggers. cbv zeta. generalize (List.filter (host_changed lower before t) (agents_of t)). intros l.
  match goal with |- facts (fold_left _ _ ?u) = _ => change (facts t) with (facts u); generalize u end.
  induction l as [|a l IH]; intros u; [done|]. apply (IH (refresh_agent lower contained (ag_id a) u)).
Qed.

Lemma finish_spec agent os kernel sha now t t' : finish lower contained gen agent os kernel sha now t = Some t' ->
  versions t' = versions t /\ next_version t' = next_version t /\ host_packages t' = host_packages t /\ change_log t' = change_log t
  /\ inventory_of agent t' = Some {| iv_sha256 := sha; iv_at := now; iv_running_kernel := kernel; iv_match_version := 0 |}
  /\ os_of agent (grouped t') = {| of_os_id := Some (os_id_of os); of_os_version := Some (os_version_of os) |}
  /\ forall a, a <> agent -> inventory_of a t' = inventory_of a t /\ os_of a (grouped t') = os_of a (grouped t).
Proof.
  unfold finish. destruct (negb _); [done|]. cbv zeta. intros (family & _ & (release & _ & (g & Hg & [= <-])%bind_Some)%bind_Some)%bind_Some.
  simpl. assert (facts g = put agent {| of_os_id := Some (os_id_of os); of_os_version := Some (os_version_of os) |} (facts (grouped t))) as Ef.
  { apply bind_Some in Hg as (u & H1 & H2). by rewrite (ensure_one_facts _ _ _ _ _ _ H2), (ensure_one_facts _ _ _ _ _ _ H1), triggers_facts. }
  split_and!; try done.
  - unfold inventory_of. simpl. by rewrite find_put, String.eqb_refl.
  - unfold os_of. by rewrite Ef, find_put, String.eqb_refl.
  - intros a Hne. unfold inventory_of, os_of. simpl. rewrite Ef, !find_put. by destruct (String.eqb_spec agent a).
Qed.

(** The rows and the versions, less the rest of the tables. *)
Lemma versions_same t t' : versions t' = versions t -> next_version t' = next_version t -> host_packages t' = host_packages t ->
  wf_versions t -> wf_versions t' /\ forall a row, has_row a t' row <-> has_row a t row.
Proof. intros E1 E2 E3 [H1 H2 H3 H4 H5]. unfold has_row. rewrite E1, E3. split; [|done]. split; by rewrite ?E1, ?E2, ?E3. Qed.

Lemma replace_spec agent os kernel packages sha now t o t' : wf_versions t ->
  replace lower contained gen agent os kernel packages sha now t = Some (o, t') ->
  wf_versions t' /\ match o with
  | Unchanged => t' = t /\ iv_sha256 <$> inventory_of agent t = Some sha
  | InventoryStored =>
      (forall row, has_row agent t' row <-> In row packages)
      /\ inventory_of agent t' = Some {| iv_sha256 := sha; iv_at := now; iv_running_kernel := kernel; iv_match_version := 0 |}
      /\ os_of agent (grouped t') = {| of_os_id := Some (os_id_of os); of_os_version := Some (os_version_of os) |}
      /\ change_log t' = change_log t ++ match inventory_of agent t with
           | Some _ => map (fun e => {| ch_at := now; ch_agent := agent; ch_kind := PackageChange; ch_event := e |})
                         (package_diff (stored_rows agent t) packages)
           | None => [] end
      /\ forall a, a <> agent -> inventory_of a t' = inventory_of a t /\ os_of a (grouped t') = os_of a (grouped t)
           /\ forall row, has_row a t' row <-> has_row a t row
  end.
Proof.
  intros Hw. unfold replace. destruct (negb _); [done|]. cbv zeta. case_bool_decide as Ed; [by intros [= <- <-]|].
  destruct (negb (forallb _ _)); [done|]. set (t1 := insert_versions packages t).
  destruct (insert_versions_spec packages t Hw) as (W1 & A1 & A2 & A3 & A4 & A5 & A6 & A7). fold t1 in W1, A1, A2, A3, A4, A5, A6, A7.
  assert (stored_rows agent t1 = stored_rows agent t) as Est.
  { unfold stored_rows. rewrite A1. apply omap_same. intros l Hl. destruct (String.eqb l.1 agent); [|done].
    destruct (wv_refer _ Hw l Hl) as [row Hr]. by rewrite (proj2 (row_at_In _ _ _ Hw) Hr), (proj2 (row_at_In _ _ _ W1) (A3 _ Hr)). }
  set (t2 := set_links _ t1). intros (t3 & Hl & H)%bind_Some.
  destruct (drop_links_spec (fun l => negb (String.eqb l.1 agent)) t1 W1) as [W2 B2]. fold t2 in W2, B2.
  destruct (link_spec _ _ _ _ W2 A2 Hl) as (W3 & C1 & C2 & C3 & C4).
  match type of H with context [finish _ _ _ _ _ _ _ _ ?u] => set (t4 := u) in H end. apply bind_Some in H as (t5 & Hf & [= <- <-]).
  assert (versions t4 = versions t3 /\ next_version t4 = next_version t3 /\ host_packages t4 = host_packages t3 /\ grouped t4 = grouped t3 /\ inventories t4 = inventories t3
    /\ change_log t4 = change_log t3 ++ match inventory_of agent t with
         | Some _ => map (fun e => {| ch_at := now; ch_agent := agent; ch_kind := PackageChange; ch_event := e |}) (package_diff (stored_rows agent t) packages)
         | None => [] end) as (D1 & D2 & D3 & D4 & D5 & D6).
  { unfold t4. destruct (inventory_of agent t); simpl; [by rewrite Est|]. by rewrite app_nil_r. }
  destruct (finish_spec _ _ _ _ _ _ _ Hf) as (F1 & F2 & F3 & F4 & F5 & F6 & F7).
  destruct (versions_same t3 t5) as [W5 G]; [congruence..|done|]. split; [done|]. split_and!; try done.
  - intros row. rewrite G, C1, B2. split; [|by right]. intros [(id & _ & Hp & _)|[_ ?]]; [|done]. simpl in Hp. by rewrite String.eqb_refl in Hp.
  - rewrite F4, D6, C4. by change (change_log t2) with (change_log t1); rewrite A7.
  - intros a Hne. destruct (F7 a Hne) as [-> ->]. unfold inventory_of. rewrite D4, D5, C2, C3. change (grouped t2) with (grouped t1).
    change (inventories t2) with (inventories t1). rewrite A5, A6. split_and!; [done|done|]. intros row. rewrite G, C1, B2. rewrite <- A4. unfold has_row. split.
    + intros [(id & Hl' & _ & Hr)|[-> _]]; [by exists id|done].
    + intros (id & Hl' & Hr). left. exists id. split_and!; [done| |done]. simpl. by destruct (String.eqb_spec a agent).
Qed.

Lemma apply_changes_spec agent os kernel added removed base expected now t o t' : wf_versions t ->
  apply_changes fingerprint lower contained gen agent os kernel added removed base expected now t = Some (o, t') ->
  wf_versions t' /\ match o with
  | Resync => t' = t
  | Stored =>
      iv_sha256 <$> inventory_of agent t = Some base /\ NoDup added /\ NoDup removed
      /\ (forall row, In row removed -> has_row agent t row) /\ (forall row, In row added -> has_row agent t row -> In row removed)
      /\ (forall row, has_row agent t' row <-> has_row agent t row /\ ~ In row removed \/ In row added)
      /\ (exists set, (forall row, In row set <-> has_row agent t' row) /\ fingerprint os kernel (map normalized set) = expected)
      /\ inventory_of agent t' = Some {| iv_sha256 := expected; iv_at := now; iv_running_kernel := kernel; iv_match_version := 0 |}
      /\ os_of agent (grouped t') = {| of_os_id := Some (os_id_of os); of_os_version := Some (os_version_of os) |}
      /\ change_log t' = change_log t ++ map (fun e => {| ch_at := now; ch_agent := agent; ch_kind := PackageChange; ch_event := e |}) (package_diff removed added)
      /\ forall a, a <> agent -> inventory_of a t' = inventory_of a t /\ os_of a (grouped t') = os_of a (grouped t)
           /\ forall row, has_row a t' row <-> has_row a t row
  end.
Proof.
  intros Hw. unfold apply_changes. destruct (negb _); [done|]. case_bool_decide as Eb; simpl; [|by intros [= <- <-]].
  destruct (remove_all _ _) as [set0|] eqn:Er; simpl; [|by intros [= <- <-]]. destruct (insert_all _ _) as [set|] eqn:Ei; simpl; [|by intros [= <- <-]].
  case_bool_decide as Efp; simpl; [|by intros [= <- <-]]. destruct (negb (forallb _ _)); [done|].
  pose proof (remove_all_once _ _ _ Er) as Hn1. pose proof (insert_all_once _ _ _ Ei) as Hn2.
  apply remove_all_spec in Er as [R1 R2]. apply insert_all_spec in Ei as [I1 I2].
  assert (forall row, In row (bs_of_list row_cmp (stored_rows agent t)) <-> has_row agent t row) as Hset.
  { intros row. rewrite (bs_of_list_In row_cmp). by apply has_row_stored. }
  set (t1 := insert_versions added t). destruct (insert_versions_spec added t Hw) as (W1 & A1 & A2 & A3 & A4 & A5 & A6 & A7).
  fold t1 in W1, A1, A2, A3, A4, A5, A6, A7. destruct (unlink_spec agent removed t1 W1) as [W2 B2]. set (t2 := unlink agent removed t1) in *.
  intros (t3 & Hl & H)%bind_Some. destruct (link_spec _ _ _ _ W2 A2 Hl) as (W3 & C1 & C2 & C3 & C4).
  apply bind_Some in H as (t5 & Hf & [= <- <-]). destruct (finish_spec _ _ _ _ _ _ _ Hf) as (F1 & F2 & F3 & F4 & F5 & F6 & F7). simpl in F1, F2, F3, F4.
  destruct (versions_same t3 t5) as [W5 G]; [done..|]. split; [done|].
  assert (forall row, has_row agent t5 row <-> has_row agent t row /\ ~ In row removed \/ In row added) as Hrows.
  { intros row. rewrite G, C1, B2, A4. tauto. }
  split_and!; try done.
  - intros row Hr. apply Hset. by apply R2.
  - intros row Ha Hh. destruct (decide (row ∈ removed)) as [Hr|Hr]; rewrite list_elem_of_In in Hr; [done|]. exfalso. apply (I2 row Ha), R1.
    split; [by apply Hset|done].
  - exists set. split; [|done]. intros row. by rewrite I1, R1, Hset, Hrows.
  - rewrite F4, C4. change (change_log t2) with (change_log t1). by rewrite A7.
  - intros a Hne. destruct (F7 a Hne) as [-> ->]. unfold inventory_of. simpl. rewrite C2, C3. change (grouped t2) with (grouped t1).
    change (inventories t2) with (inventories t1). rewrite A5, A6. split_and!; [done|done|]. intros row. rewrite G, C1, B2, A4. intuition congruence.
Qed.
End store.

(** * Inventories: the change log tells what is there

    Playing the events of a host since its first report gives the ports and the services it has now. *)

Open Scope Z_scope.

(** ** Playing events *)

(** Whether a key is there, told by the events from what it was. *)
Definition told (k : string) (events : list Event) (before : bool) : bool :=
  fold_left (fun b e => if String.eqb (ev_key e) k then negb (bool_decide (ev_change e = WentAway)) else b) events before.

Lemma told_app k l l' b : told k (l ++ l') b = told k l' (told k l b).
Proof. apply fold_left_app. Qed.
Lemma told_plain k change ks b : told k (map (plain change) ks) b
  = if existsb (String.eqb k) ks then negb (bool_decide (change = WentAway)) else b.
Proof.
  revert b. induction ks as [|x ks IH]; intros b; [done|].
  change (told k (map (plain change) (x :: ks)) b) with (told k (map (plain change) ks) (if String.eqb x k then negb (bool_decide (change = WentAway)) else b)).
  rewrite IH. simpl.
  rewrite (String.eqb_sym x k). destruct (String.eqb k x); simpl; [by destruct (existsb _ ks)|done].
Qed.
Lemma has_key k ks : existsb (String.eqb k) ks = true <-> In k ks.
Proof. rewrite existsb_exists. split; [by intros (x & Hx & ->%String.eqb_eq)|]. intros H. exists k. by rewrite String.eqb_refl. Qed.

Lemma key_diff_told k old new : told k (key_diff old new) (existsb (String.eqb k) old) = existsb (String.eqb k) new.
Proof.
  unfold key_diff. rewrite told_app, !told_plain. simpl.
  assert (forall l l', existsb (String.eqb k) (List.filter (fun x => negb (existsb (String.eqb x) l')) l)
                       = existsb (String.eqb k) l && negb (existsb (String.eqb k) l')) as H.
  { intros l l'. apply eq_iff_eq_true. rewrite andb_true_iff, !has_key, filter_In. done. }
  rewrite !H. by destruct (existsb (String.eqb k) old), (existsb (String.eqb k) new).
Qed.

(** ** Ports *)

Definition port_keys (rows : list (string * Z * bool)) : list string := (exposure rows).*1.

Lemma exposure_sorted rows : bt_sorted str_cmp (exposure rows).
Proof. apply (bt_fold_sorted str_cmp (fun r => listener_key r.1.1 r.1.2) (fun r o => default false o || r.2)). constructor. Qed.

Lemma keys_contains k m : bt_sorted str_cmp m -> existsb (String.eqb k) (m : list (string * bool)).*1 = bt_contains str_cmp k m.
Proof.
  intros Hs. apply eq_iff_eq_true. rewrite has_key, <- list_elem_of_In, list_elem_of_fmap. unfold bt_contains. split.
  - intros ([k' v] & -> & Hin%list_elem_of_In). apply (bt_In_get str_cmp) in Hin; [|done]. simpl. by rewrite Hin.
  - destruct (bt_get str_cmp k m) as [v|] eqn:E; [|done]. intros _. apply (bt_get_In str_cmp), list_elem_of_In in E. by exists (k, v).
Qed.

Lemma port_keys_In k rows : In k (port_keys rows) <-> exists r, In r rows /\ listener_key r.1.1 r.1.2 = k.
Proof.
  rewrite <- has_key. unfold port_keys. rewrite keys_contains by apply exposure_sorted. unfold bt_contains, exposure.
  rewrite (bt_fold_get str_cmp (fun r => listener_key r.1.1 r.1.2) (fun r o => default false o || r.2)) by constructor. simpl.
  assert (forall o, (if fold_left (fun o (a : string * Z * bool) => match str_cmp k (listener_key a.1.1 a.1.2) with Eq => Some (default false o || a.2) | _ => o end) rows o
            is Some _ then true else false) = true <-> is_Some o \/ exists r, In r rows /\ listener_key r.1.1 r.1.2 = k) as H.
  { induction rows as [|r rows IH]; intros o; simpl.
    - destruct o; split; try done; [by left|]. intros [[? ?]|(? & [] & _)]. done.
    - rewrite IH. destruct (str_cmp k (listener_key r.1.1 r.1.2)) eqn:E.
      + apply (cmp_eq str_cmp) in E. split; [intros _; right; exists r; auto|]. intros _. by left.
      + split; [naive_solver|]. intros [H|(r' & [->|Hr] & E')]; [by left| |eauto]. rewrite <- E', (cmp_refl str_cmp) in E. done.
      + split; [naive_solver|]. intros [H|(r' & [->|Hr] & E')]; [by left| |eauto]. rewrite <- E', (cmp_refl str_cmp) in E. done. }
  specialize (H None). destruct (fold_left _ rows None); simpl in *; rewrite H; split; try tauto; intros [[? ?]|?]; done.
Qed.

Lemma told_omap {A} (key : A -> string) (f : A -> option Event) k l b :
  (forall x ev, f x = Some ev -> ev_key ev = key x /\ ev_change ev <> WentAway) ->
  told k (omap f l) b = existsb (fun x => String.eqb (key x) k && is_some (f x)) l || b.
Proof.
  intros Hf. revert b. induction l as [|x l IH]; intros b; [done|].
  change (omap f (x :: l)) with (match f x with Some y => y :: omap f l | None => omap f l end). destruct (f x) as [ev|] eqn:E; simpl; rewrite E.
  - destruct (Hf _ _ E) as [Hk Hc]. change (told k (ev :: omap f l) b) with (told k (omap f l) (if String.eqb (ev_key ev) k then negb (bool_decide (ev_change ev = WentAway)) else b)).
    rewrite IH, Hk, bool_decide_eq_false_2 by done. destruct (String.eqb (key x) k); simpl; [apply orb_true_r|done].
  - rewrite IH. by rewrite andb_false_r.
Qed.

Lemma listener_diff_told k old new :
  told k (listener_diff old new) (existsb (String.eqb k) (port_keys old))
  = existsb (String.eqb k) (port_keys (map (fun l => (ls_protocol l, ls_port l, ls_exposed l)) new)).
Proof.
  unfold listener_diff. cbv zeta. rewrite told_app, told_plain. set (rows := map _ new). unfold port_keys.
  pose proof (exposure_sorted old) as Hb. pose proof (exposure_sorted rows) as Ha. set (before := exposure old) in *. set (after := exposure rows) in *.
  rewrite (told_omap fst).
  2: { intros [x e] ev. simpl. destruct (bt_get str_cmp x before) as [was|]; [destruct (Bool.eqb was e)|]; intros [= <-]; [|done]. by destruct e. }
  assert (existsb (String.eqb k) (List.filter (fun k => negb (bt_contains str_cmp k after)) before.*1)
          = existsb (String.eqb k) before.*1 && negb (existsb (String.eqb k) after.*1)) as ->.
  { apply eq_iff_eq_true. rewrite andb_true_iff, !has_key, filter_In, (keys_contains k after) by done. done. }
  rewrite bool_decide_eq_true_2 by done. simpl. destruct (existsb (String.eqb k) after.*1) eqn:Ea.
  - rewrite andb_false_r. destruct (existsb (String.eqb k) before.*1) eqn:Eb; [apply orb_true_r|]. rewrite orb_false_r.
    apply has_key, list_elem_of_In, list_elem_of_fmap in Ea as ([k' v] & E & Hin%list_elem_of_In). simpl in E. subst k'. apply existsb_exists.
    exists (k, v). split; [done|]. simpl. rewrite String.eqb_refl. rewrite (keys_contains k before) in Eb by done. unfold bt_contains in Eb.
    by destruct (bt_get str_cmp k before).
  - rewrite andb_true_r. destruct (existsb (String.eqb k) before.*1); [done|]. rewrite orb_false_r. apply not_true_iff_false.
    intros (e & He & [E%String.eqb_eq _]%andb_prop)%existsb_exists. apply not_true_iff_false in Ea. apply Ea, has_key, list_elem_of_In, list_elem_of_fmap.
    exists e. split; [done|]. by apply list_elem_of_In.
Qed.

(** ** Reports *)

Definition ports (agent : string) (t : InvTables) : list string :=
  port_keys (map (fun l => (ls_protocol l, ls_port l, ls_exposed l)) (listeners_of agent t)).
Definition units (agent : string) (t : InvTables) : list string := unit_set (units_of agent t).
Definition events_of (agent : string) (kind : ChangeKind) (log : list ChangeRow) : list Event :=
  map ch_event (List.filter (fun r => String.eqb (ch_agent r) agent && bool_decide (ch_kind r = kind)) log).

Lemma ports_In k agent t : In k (ports agent t) <-> exists l, In (agent, l) (listeners t) /\ listener_key (ls_protocol l) (ls_port l) = k.
Proof.
  unfold ports, listeners_of. rewrite port_keys_In. split.
  - intros (r & (l & <- & (e & <- & [He E%String.eqb_eq]%filter_In)%in_map_iff)%in_map_iff & Hk). exists e.2. rewrite <- E. by destruct e.
  - intros (l & Hl & Hk). exists (ls_protocol l, ls_port l, ls_exposed l). split; [|done]. apply in_map_iff. exists l. split; [done|].
    apply in_map_iff. exists (agent, l). split; [done|]. apply filter_In. simpl. by rewrite String.eqb_refl.
Qed.
Lemma units_In k agent t : In k (units agent t) <-> exists s, In (agent, s) (services t) /\ sv_unit s = k.
Proof.
  unfold units, unit_set, units_of. rewrite (bs_of_list_In str_cmp), in_map_iff. setoid_rewrite in_map_iff. setoid_rewrite filter_In. split.
  - intros (s & <- & [a s0] & <- & He & E%String.eqb_eq). simpl in *. subst a. by exists s0.
  - intros (s & Hs & <-). exists s. split; [done|]. exists (agent, s). simpl. by rewrite String.eqb_refl.
Qed.

Lemma insert_listeners_spec agent ls : forall t t', each (insert_listener agent) ls t = Some t' ->
  services t' = services t /\ change_log t' = change_log t /\ services_states t' = services_states t /\ grouped t' = grouped t
  /\ forall a k, In k (ports a t') <-> In k (ports a t) \/ a = agent /\ exists l, In l ls /\ listener_key (ls_protocol l) (ls_port l) = k.
Proof.
  induction ls as [|l ls IH]; intros t t'; simpl; [intros [= <-]; split_and!; try done; intros; naive_solver|].
  intros (u & Hu & H)%bind_Some. destruct (IH _ _ H) as (E1 & E2 & E3 & E4 & E5). unfold insert_listener in Hu. destruct (negb _); [done|].
  destruct (existsb _ (listeners t)) eqn:Ee; injection Hu as <-.
  - split_and!; try done. intros a k. rewrite E5. split; [naive_solver|]. intros [H1|(-> & l' & [->|Hl'] & Hk)]; [by left| |right; naive_solver].
    left. apply existsb_exists in Ee as ([a' l0] & Hin & Hsame). apply ports_In. unfold same_listener in Hsame. simpl in Hsame.
    rewrite !andb_true_iff, !String.eqb_eq, bool_decide_eq_true, Z.eqb_eq in Hsame. destruct Hsame as [[[-> Ep] _] En]. exists l0.
    split; [done|]. by rewrite Ep, En.
  - simpl in *. split_and!; try done. intros a k. rewrite E5, !ports_In. simpl. setoid_rewrite in_app_iff. simpl. naive_solver.
Qed.
Lemma insert_services_spec agent ss : forall t t', each (insert_service agent) ss t = Some t' ->
  listeners t' = listeners t /\ change_log t' = change_log t /\ services_states t' = services_states t /\ grouped t' = grouped t
  /\ forall a k, In k (units a t') <-> In k (units a t) \/ a = agent /\ exists s, In s ss /\ sv_unit s = k.
Proof.
  induction ss as [|s ss IH]; intros t t'; simpl; [intros [= <-]; split_and!; try done; intros; naive_solver|].
  intros (u & Hu & H)%bind_Some. destruct (IH _ _ H) as (E1 & E2 & E3 & E4 & E5). unfold insert_service in Hu. destruct (_ || _); [done|].
  destruct (existsb _ (services t)) eqn:Ee; injection Hu as <-.
  - split_and!; try done. intros a k. rewrite E5. split; [naive_solver|]. intros [H1|(-> & s' & [->|Hs'] & Hk)]; [by left| |right; naive_solver].
    left. apply existsb_exists in Ee as ([a' s0] & Hin & [Ea%String.eqb_eq Eu%String.eqb_eq]%andb_prop). apply units_In. simpl in *. subst a'. exists s0.
    split; [done|]. by rewrite Eu.
  - simpl in *. split_and!; try done. intros a k. rewrite E5, !units_In. simpl. setoid_rewrite in_app_iff. simpl. naive_solver.
Qed.

(** What a services report never touches. *)
Record same_packages (t t' : InvTables) : Prop := {
  sp_grouped : grouped t' = grouped t;
  sp_versions : versions t' = versions t;
  sp_next : next_version t' = next_version t;
  sp_links : host_packages t' = host_packages t;
  sp_inventories : inventories t' = inventories t;
}.
#[export] Instance same_packages_preorder : PreOrder same_packages.
Proof. split; [by split|]. intros t u v [] []. split; congruence. Qed.

Lemma each_same {A} (f : A -> InvTables -> option InvTables) l : (forall x t t', f x t = Some t' -> same_packages t t') ->
  forall t t', each f l t = Some t' -> same_packages t t'.
Proof.
  intros Hf. induction l as [|x l IH]; intros t t'; simpl; [by intros [= <-]|]. intros (u & Hu & H)%bind_Some. etrans; [by eapply Hf|by apply IH].
Qed.
Lemma insert_listener_same agent l t t' : insert_listener agent l t = Some t' -> same_packages t t'.
Proof. unfold insert_listener. destruct (negb _); [done|]. destruct (existsb _ _); intros [= <-]; by split. Qed.
Lemma insert_service_same agent s t t' : insert_service agent s t = Some t' -> same_packages t t'.
Proof. unfold insert_service. destruct (_ || _); [done|]. destruct (existsb _ _); intros [= <-]; by split. Qed.

Lemma events_app a k l l' : events_of a k (l ++ l') = events_of a k l ++ events_of a k l'.
Proof. unfold events_of. by rewrite List.filter_app, map_app. Qed.
Definition rows_of (agent : string) (kind : ChangeKind) (now : Z) (events : list Event) : list ChangeRow :=
  map (fun e => {| ch_at := now; ch_agent := agent; ch_kind := kind; ch_event := e |}) events.
Lemma events_rows a k agent kind now events :
  events_of a k (rows_of agent kind now events) = if String.eqb agent a && bool_decide (kind = k) then events else [].
Proof.
  unfold events_of, rows_of. induction events as [|e l IH]; simpl; [by destruct (_ && _)|].
  destruct (String.eqb agent a && bool_decide (kind = k)); simpl; by rewrite IH.
Qed.

(** A list of keys, told by the events from what it was. *)
Definition tells (events : list Event) (before after : list string) : Prop :=
  forall k, told k events (existsb (String.eqb k) before) = existsb (String.eqb k) after.
Lemma tells_nothing l l' : (forall k, In k l' <-> In k l) -> tells [] l l'.
Proof. intros H k. unfold told. simpl. apply eq_iff_eq_true. by rewrite !has_key, H. Qed.
Lemma tells_app e e' l l' l'' : tells e l l' -> tells e' l' l'' -> tells (e ++ e') l l''.
Proof. intros H H' k. by rewrite told_app, H, H'. Qed.
Lemma tells_to e l l' l'' : (forall k, In k l'' <-> In k l') -> tells e l l' -> tells e l l''.
Proof. intros H H' k. rewrite H'. apply eq_iff_eq_true. by rewrite !has_key, H. Qed.

Lemma services_put agent s t a : services_of a (set_services_states (put agent s) t) = if String.eqb agent a then s else services_of a t.
Proof.
  unfold services_of. simpl. rewrite find_put. by destruct (String.eqb agent a).
Qed.

Lemma same_listeners a t t' : listeners t' = listeners t -> ports a t' = ports a t.
Proof. unfold ports, listeners_of. by intros ->. Qed.
Lemma same_services a t t' : services t' = services t -> units a t' = units a t.
Proof. unfold units, units_of. by intros ->. Qed.

Definition baseline (agent : string) (t : InvTables) : bool := is_some (ss_sha256 (services_of agent t)).

(** A report accepted: what it leaves, and what the log gains. *)
Lemma replace_services_spec agent report now t t' : replace_services agent report now t = Some t' ->
  same_packages t t'
  /\ exists l, change_log t' = change_log t ++ l
  /\ (forall a, baseline a t = true -> baseline a t' = true)
  /\ (forall a, baseline a t = true -> tells (events_of a ListenerChange l) (ports a t) (ports a t') /\ tells (events_of a ServiceChange l) (units a t) (units a t'))
  /\ (agent_known agent t = true -> ss_sha256 (services_of agent t') = Some (rp_sha256 report)
      /\ (ss_sha256 (services_of agent t) <> Some (rp_sha256 report) ->
          (forall k, In k (ports agent t') <-> exists l, In l (rp_listeners report) /\ listener_key (ls_protocol l) (ls_port l) = k)
          /\ (forall k, In k (units agent t') <-> exists s, In s (rp_services report) /\ sv_unit s = k))).
Proof.
  unfold replace_services. destruct (agent_known agent t) eqn:Ek; simpl.
  2: { destruct (rp_listeners report), (rp_services report); try done. intros [= <-]. split; [done|]. exists []. rewrite app_nil_r.
       split_and!; try done; intros a Ha; split; by apply tells_nothing. }
  intros (u & Hu & Hc)%bind_Some. destruct (negb _); [done|]. injection Hc as <-. case_bool_decide as Ed.
  { injection Hu as <-. split; [by split|]. exists []. simpl. rewrite app_nil_r. split_and!; try done.
    - intros a Ha. unfold baseline. rewrite services_put. by destruct (String.eqb_spec agent a).
    - intros _. rewrite services_put, String.eqb_refl. by split. }
  set (t1 := set_lists _ _ t) in Hu. match type of Hu with context [each _ _ ?v] => set (t2 := v) in Hu end.
  apply bind_Some in Hu as (t3 & Hl & Hs). assert (same_packages t t3) as S3.
  { etrans; [|eapply each_same; [apply insert_listener_same|exact Hl]]. unfold t2. destruct (ss_sha256 _); by split. }
  assert (same_packages t u) as Su by (etrans; [exact S3|eapply each_same; [apply insert_service_same|exact Hs]]).
  destruct (insert_listeners_spec _ _ _ _ Hl) as (A1 & A2 & A3 & A4 & A5). destruct (insert_services_spec _ _ _ _ Hs) as (B1 & B2 & B3 & B4 & B5).
  split; [by destruct Su; split|].
  assert (forall a k, In k (ports a t2) <-> a <> agent /\ In k (ports a t)) as P2.
  { intros a k. rewrite !ports_In. assert (listeners t2 = List.filter (fun e => negb (String.eqb e.1 agent)) (listeners t)) as -> by (unfold t2; by destruct (ss_sha256 _)).
    setoid_rewrite filter_In. simpl. setoid_rewrite negb_true_iff. setoid_rewrite String.eqb_neq. naive_solver. }
  assert (forall a k, In k (units a t2) <-> a <> agent /\ In k (units a t)) as U2.
  { intros a k. rewrite !units_In. assert (services t2 = List.filter (fun e => negb (String.eqb e.1 agent)) (services t)) as -> by (unfold t2; by destruct (ss_sha256 _)).
    setoid_rewrite filter_In. simpl. setoid_rewrite negb_true_iff. setoid_rewrite String.eqb_neq. naive_solver. }
  assert (forall a k, In k (ports a u) <-> a <> agent /\ In k (ports a t) \/ a = agent /\ exists l, In l (rp_listeners report) /\ listener_key (ls_protocol l) (ls_port l) = k) as Pu.
  { intros a k. rewrite (same_listeners _ _ _ B1), A5, P2. done. }
  assert (forall a k, In k (units a u) <-> a <> agent /\ In k (units a t) \/ a = agent /\ exists s, In s (rp_services report) /\ sv_unit s = k) as Uu.
  { intros a k. rewrite B5, (same_services _ _ _ A1), U2. done. }
  exists (if baseline agent t then
        rows_of agent ListenerChange now (listener_diff (map (fun l => (ls_protocol l, ls_port l, ls_exposed l)) (listeners_of agent t)) (rp_listeners report))
        ++ rows_of agent ServiceChange now (key_diff (unit_set (units_of agent t)) (unit_set (rp_services report))) else []).
  split_and!.
  - simpl. rewrite B2, A2. unfold t2, baseline. destruct (ss_sha256 (services_of agent t)); simpl; [by rewrite <- app_assoc|by rewrite app_nil_r].
  - intros a Ha. unfold baseline. rewrite services_put. destruct (String.eqb_spec agent a) as [->|]; [done|]. unfold services_of in *.
    rewrite B3, A3. unfold t2. unfold baseline in Ha. by destruct (ss_sha256 _).
  - intros a Ha. change (ports a (set_services_states _ u)) with (ports a u). change (units a (set_services_states _ u)) with (units a u).
    destruct (String.eqb_spec agent a) as [->|Hne].
    + rewrite Ha, !events_app, !events_rows, String.eqb_refl. simpl. rewrite app_nil_r. split.
      * eapply tells_to; [|intros k; apply listener_diff_told]. intros k. rewrite Pu, port_keys_In. split.
        -- intros [[? _]|(_ & l & Hin & Hk)]; [done|]. exists (ls_protocol l, ls_port l, ls_exposed l). split; [|done]. apply in_map_iff. by exists l.
        -- intros (r & (l & <- & Hin)%in_map_iff & Hk). right. split; [done|]. by exists l.
      * eapply tells_to; [|intros k; apply key_diff_told]. intros k. rewrite Uu. unfold unit_set. rewrite (bs_of_list_In str_cmp), in_map_iff. naive_solver.
    + assert (forall k, events_of a k (if baseline agent t then
          rows_of agent ListenerChange now (listener_diff (map (fun l => (ls_protocol l, ls_port l, ls_exposed l)) (listeners_of agent t)) (rp_listeners report))
          ++ rows_of agent ServiceChange now (key_diff (unit_set (units_of agent t)) (unit_set (rp_services report))) else []) = []) as E.
      { intros k. destruct (baseline agent t); [|done]. rewrite events_app, !events_rows. by destruct (String.eqb_spec agent a). }
      rewrite !E. split; apply tells_nothing; intros k; [rewrite Pu|rewrite Uu]; naive_solver.
  - intros _. rewrite services_put, String.eqb_refl. split; [done|]. intros _. split; intros k; [rewrite (Pu agent k)|rewrite (Uu agent k)]; naive_solver.
Qed.

(** What an inventory never touches. *)
Record same_lists (t t' : InvTables) : Prop := {
  sl_listeners : listeners t' = listeners t;
  sl_services : services t' = services t;
  sl_states : services_states t' = services_states t;
  sl_log : exists l, change_log t' = change_log t ++ l /\ Forall (fun r => ch_kind r = PackageChange) l;
}.
#[export] Instance same_lists_preorder : PreOrder same_lists.
Proof.
  split; [intros t; split; try done; exists []; by rewrite app_nil_r|]. intros t u v [] []. split; try congruence.
  destruct sl_log0 as (l & E & Hl), sl_log1 as (l' & E' & Hl'). exists (l ++ l'). rewrite E', E, app_assoc. split; [done|by apply Forall_app].
Qed.
Lemma same_lists_still t t' : listeners t' = listeners t -> services t' = services t -> services_states t' = services_states t ->
  change_log t' = change_log t -> same_lists t t'.
Proof. intros E1 E2 E3 E4. split; try done. exists []. by rewrite app_nil_r. Qed.

Lemma insert_versions_lists rows : forall t, same_lists t (insert_versions rows t).
Proof.
  induction rows as [|row rows IH]; intros t; [done|]. change (same_lists t (insert_versions rows (insert_version row t))). etrans; [|apply IH].
  unfold insert_version. destruct (version_of row t); by apply same_lists_still.
Qed.
Lemma link_lists agent rows t t' : link agent rows t = Some t' -> same_lists t t'.
Proof. unfold link. cbv zeta. destruct (existsb _ _); [done|]. intros [= <-]. by apply same_lists_still. Qed.
Lemma record_lists agent now events t : same_lists t (record agent PackageChange now events t).
Proof. split; try done. eexists. split; [done|]. apply List.Forall_forall. by intros r (e & <- & _)%in_map_iff. Qed.

Section inventories.
Context (fingerprint : OsRelease -> option string -> list NormalizedPackage -> list Z)
  (lower : string -> string) (contained : string -> string -> bool) (gen : nat -> string).

Lemma finish_lists agent os kernel sha now t t' : finish lower contained gen agent os kernel sha now t = Some t' -> same_lists t t'.
Proof.
  unfold finish. destruct (negb _); [done|]. cbv zeta. intros (family & _ & (release & _ & (g & _ & [= <-])%bind_Some)%bind_Some)%bind_Some.
  by apply same_lists_still.
Qed.
Lemma replace_lists agent os kernel packages sha now t o t' :
  replace lower contained gen agent os kernel packages sha now t = Some (o, t') -> same_lists t t'.
Proof.
  unfold replace. destruct (negb _); [done|]. cbv zeta. case_bool_decide; [by intros [= _ <-]|]. destruct (negb _); [done|].
  intros (t3 & Hl%link_lists & (t5 & Hf%finish_lists & [= _ <-])%bind_Some)%bind_Some. etrans; [apply (insert_versions_lists packages)|].
  etrans; [|etrans; [exact Hl|etrans; [|exact Hf]]]; [by apply same_lists_still|]. destruct (iv_sha256 <$> _); [apply record_lists|done].
Qed.
Lemma apply_changes_lists agent os kernel added removed base expected now t o t' :
  apply_changes fingerprint lower contained gen agent os kernel added removed base expected now t = Some (o, t') -> same_lists t t'.
Proof.
  unfold apply_changes. destruct (negb _); [done|]. destruct (negb _); [by intros [= _ <-]|].
  destruct (set ← remove_all _ _; _) as [set|]; [|by intros [= _ <-]]. destruct (negb _); [by intros [= _ <-]|]. destruct (negb _); [done|]. cbv zeta.
  intros (t3 & Hl%link_lists & (t5 & Hf%finish_lists & [= _ <-])%bind_Some)%bind_Some. etrans; [apply (insert_versions_lists added)|].
  etrans; [|etrans; [exact Hl|etrans; [apply record_lists|exact Hf]]]. by apply same_lists_still.
Qed.
End inventories.

(** ** What the log tells from one time to another *)

Record log_tells (t t' : InvTables) : Prop := {
  lt_baseline : forall a, baseline a t = true -> baseline a t' = true;
  lt_log : exists l, change_log t' = change_log t ++ l /\ forall a, baseline a t = true ->
    tells (events_of a ListenerChange l) (ports a t) (ports a t') /\ tells (events_of a ServiceChange l) (units a t) (units a t');
}.
#[export] Instance log_tells_preorder : PreOrder log_tells.
Proof.
  split.
  - intros t. split; [done|]. exists []. rewrite app_nil_r. split; [done|]. intros a _. split; by apply tells_nothing.
  - intros t u v [H1 (l & E & H2)] [H1' (l' & E' & H2')]. split; [by auto|]. exists (l ++ l'). rewrite E', E, app_assoc. split; [done|].
    intros a Ha. destruct (H2 a Ha), (H2' a (H1 a Ha)). rewrite !events_app. split; by eapply tells_app.
Qed.

Lemma no_events a k l : k <> PackageChange -> Forall (fun r => ch_kind r = PackageChange) l -> events_of a k l = [].
Proof.
  intros Hk Hl. unfold events_of. induction Hl as [|r l Hr _ IH]; [done|]. simpl. rewrite Hr, (bool_decide_eq_false_2 (PackageChange = k)) by congruence.
  by rewrite andb_false_r.
Qed.
Lemma same_lists_tell t t' : same_lists t t' -> log_tells t t'.
Proof.
  intros [E1 E2 E3 (l & E & Hl)]. split.
  - intros a. unfold baseline, services_of. by rewrite E3.
  - exists l. split; [done|]. intros a _. rewrite !no_events by done. rewrite (same_listeners a t t'), (same_services a t t') by done.
    split; by apply tells_nothing.
Qed.
