(* ===== verification/InvProps.v ===== *)
(** * Inventories: what the code promises

    A change set does exactly what it says or nothing, the digest on record is that of the packages stored,
    the change log tells the ports and services a host has, and groups follow what an inventory says of a host. *)
From S2P Require Import Prelude RustStd Text BTree Json SignData AgentServer AccessDb AlarmData AgentDb AlarmDb GroupData GroupDb GroupInv GroupWorld GroupProps NetAddr InvData InvDb InvInv.
From stdpp Require Import prelude strings list.
From Stdlib Require Import Ascii ZArith Lia.

Open Scope Z_scope.

(** ** Groups *)

Section groups.
Context (fingerprint : OsRelease -> option string -> list NormalizedPackage -> list Z)
  (lower : string -> string) (contained : string -> string -> bool) (collate : string -> string -> comparison)
  (published : string -> bool) (gen : nat -> string).

Notation steps := (group_steps lower contained collate published gen).

Lemma finish_groups agent os kernel sha now t t' : NoDup (map ag_id (agents_of (grouped t))) ->
  finish lower contained gen agent os kernel sha now t = Some t' -> steps (grouped t) (grouped t').
Proof.
  intros Hn. unfold finish. destruct (negb _); [done|]. cbv zeta. intros (family & _ & (release & _ & (g & Hg & [= <-])%bind_Some)%bind_Some)%bind_Some.
  simpl. match type of Hg with ensure_automatic_groups _ _ _ _ _ _ ?u = _ => apply (rtc_l _ _ u) end; [by apply step_hosts; split|].
  by eapply rtc_once, step_ensure.
Qed.

Lemma insert_versions_grouped rows : forall t, grouped (insert_versions rows t) = grouped t.
Proof.
  induction rows as [|row rows IH]; intros t; [done|]. change (grouped (insert_versions rows (insert_version row t)) = grouped t). rewrite IH.
  unfold insert_version. by destruct (version_of row t).
Qed.
Lemma link_grouped agent rows t t' : link agent rows t = Some t' -> grouped t' = grouped t.
Proof. unfold link. cbv zeta. destruct (existsb _ _); [done|]. by intros [= <-]. Qed.

Lemma replace_groups agent os kernel packages sha now t o t' : NoDup (map ag_id (agents_of (grouped t))) ->
  replace lower contained gen agent os kernel packages sha now t = Some (o, t') -> steps (grouped t) (grouped t').
Proof.
  intros Hn. unfold replace. destruct (negb _); [done|]. cbv zeta. case_bool_decide; [by intros [= _ <-]|]. destruct (negb _); [done|].
  intros (t3 & Hl%link_grouped & (t5 & Hf & [= _ <-])%bind_Some)%bind_Some. simpl in Hl. rewrite insert_versions_grouped in Hl.
  match type of Hf with finish _ _ _ _ _ _ _ _ ?u = _ => assert (grouped u = grouped t) as E by (destruct (iv_sha256 <$> _); simpl; congruence) end.
  rewrite <- E. eapply finish_groups; [by rewrite E|exact Hf].
Qed.

Lemma apply_changes_groups agent os kernel added removed base expected now t o t' : NoDup (map ag_id (agents_of (grouped t))) ->
  apply_changes fingerprint lower contained gen agent os kernel added removed base expected now t = Some (o, t') -> steps (grouped t) (grouped t').
Proof.
  intros Hn. unfold apply_changes. destruct (negb _); [done|]. destruct (negb _); [by intros [= _ <-]|].
  destruct (set ← remove_all _ _; _) as [set|]; [|by intros [= _ <-]]. destruct (negb _); [by intros [= _ <-]|]. destruct (negb _); [done|]. cbv zeta.
  intros (t3 & Hl%link_grouped & (t5 & Hf & [= _ <-])%bind_Some)%bind_Some. simpl in Hl. rewrite insert_versions_grouped in Hl.
  match type of Hf with finish _ _ _ _ _ _ _ _ ?u = _ => assert (grouped u = grouped t) as E by (simpl; congruence) end.
  rewrite <- E. eapply finish_groups; [by rewrite E|exact Hf].
Qed.
End groups.

(** ** What is stored *)

Lemma normalized_row_of p : 0 <= np_epoch p <= i32_max -> normalized (row_of p) = p.
Proof.
  intros [H1 H2]. destruct p. unfold normalized, row_of, epoch_stored, epoch_sent in *. simpl in *.
  rewrite (proj2 (Z.leb_le _ _) H2). by rewrite (proj2 (Z.leb_le _ _) H1).
Qed.

Lemma parsed {A} (from_slice : list Z -> option A) body limit a :
  parse_with_limit from_slice (fun _ => true) body limit = inr a -> from_slice body = Some a.
Proof. unfold parse_with_limit. destruct (_ <? _); [done|]. destruct (from_slice body); [by intros [= ->]|done]. Qed.

Lemma decoded_answers gunzip h body limit : decoded_body gunzip h body limit <> inl AgentServer.Resync.
Proof. unfold decoded_body. by repeat case_match. Qed.
Lemma parse_answers {A} (from_slice : list Z -> option A) validate body limit : parse_with_limit from_slice validate body limit <> inl AgentServer.Resync.
Proof. unfold parse_with_limit. by repeat case_match. Qed.
Lemma normalized_set l l' : (forall row : PackageRow, In row l <-> In row l') -> forall p, In p (map normalized l) <-> In p (map normalized l').
Proof. intros H p. rewrite !in_map_iff. by setoid_rewrite H. Qed.

Section packages.
Context {InstalledPackage : Type} (normalize : InstalledPackage -> NormalizedPackage) (np_cmp : NormalizedPackage -> NormalizedPackage -> comparison)
  `{Hord : !CmpOrder np_cmp}
  (fingerprint : OsRelease -> option string -> list NormalizedPackage -> list Z) (digest_from_hex : string -> option (list Z))
  (gunzip : list Z -> Z -> option (list Z)) (inventory_document_bytes : Z) (parse_changes : list Z -> option (InventoryChanges InstalledPackage))
  (lower : string -> string) (contained : string -> string -> bool) (gen : nat -> string).

Notation inventory_changes := (inventory_changes normalize np_cmp fingerprint digest_from_hex gunzip inventory_document_bytes parse_changes lower contained gen).
Notation rows := (package_rows normalize np_cmp).

(** The fingerprint is of the distinct records, in an order of its own. *)
Definition of_the_set : Prop := forall os kernel l l', (forall p, In p l <-> In p l') -> fingerprint os kernel l = fingerprint os kernel l'.
(** A change set of this host, read from a request. *)
Definition read_changes (agent : string) (h : Headers) (body : list Z) : option (InventoryChanges InstalledPackage * list Z * list Z) :=
  match decoded_body gunzip h body (MAX_INVENTORY_BYTES inventory_document_bytes) with
  | inl _ => None
  | inr body =>
      match parse_with_limit parse_changes (fun _ => true) body (MAX_INVENTORY_BYTES inventory_document_bytes) with
      | inl _ => None
      | inr c => if negb (String.eqb (ic_agent_id c) agent) then None
                 else base ← digest_from_hex (ic_base_sha256 c); expected ← digest_from_hex (ic_sha256 c); Some (c, base, expected)
      end
  end.

(** It applies to what is stored. *)
Record applies (agent : string) (c : InventoryChanges InstalledPackage) (base expected : list Z) (t : InvTables) : Prop := {
  ap_base : iv_sha256 <$> inventory_of agent t = Some base;
  ap_added_once : NoDup (rows (ic_added c));
  ap_removed_once : NoDup (rows (ic_removed c));
  ap_removed : forall row, In row (rows (ic_removed c)) -> In row (stored_rows agent t);
  ap_added : forall row, In row (rows (ic_added c)) -> In row (stored_rows agent t) -> In row (rows (ic_removed c));
  ap_expected : forall set, (forall row, In row set <-> (In row (stored_rows agent t) /\ ~ In row (rows (ic_removed c))) \/ In row (rows (ic_added c))) ->
    fingerprint (ic_os c) (ic_running_kernel c) (map normalized set) = expected;
}.

Lemma applies_stored agent c base expected now t : of_the_set -> applies agent c base expected t ->
  forall t', apply_changes fingerprint lower contained gen agent (ic_os c) (ic_running_kernel c) (rows (ic_added c)) (rows (ic_removed c)) base expected now t
    <> Some (Resync, t').
Proof.
  intros Hfp [H1 H2 H3 H4 H5 H6] t'. unfold apply_changes. destruct (negb (agent_known agent t)); [done|]. rewrite bool_decide_eq_true_2 by done. simpl.
  destruct (remove_all_succeeds (rows (ic_removed c)) (bs_of_list row_cmp (stored_rows agent t))) as [set1 E1]; [done| |].
  { intros r Hr. apply (bs_of_list_In row_cmp). by apply H4. }
  rewrite E1. simpl. destruct (remove_all_spec _ _ _ E1) as [R _].
  destruct (insert_all_succeeds (rows (ic_added c)) set1) as [set2 E2]; [done| |].
  { intros r Hr Hin. apply R in Hin as [Hs Hn]. rewrite (bs_of_list_In row_cmp) in Hs. exact (Hn (H5 r Hr Hs)). }
  rewrite E2. destruct (insert_all_spec _ _ _ E2) as [I _]. rewrite bool_decide_eq_true_2.
  2: { apply H6. intros row. rewrite I, R, (bs_of_list_In row_cmp). tauto. }
  simpl. destruct (negb _); [done|]. intros (u & _ & H)%bind_Some. apply bind_Some in H as (v & _ & H). discriminate.
Qed.

(** C26: A change set is applied whole or not at all. When it is answered with success, it came from this host and applied: its base was the
    digest on record, what it removes was stored and what it adds was not, and the packages it leaves have the digest it names; the packages
    stored are then exactly those, under that digest, and nothing of another host has changed. Any other answer leaves the tables as they
    were, and a resend is asked for only when the change set did not apply, so an agent in step is never asked. *)
Theorem changes_all_or_nothing agent h body now t r t' : of_the_set -> wf_versions t -> inventory_changes agent h body now t = (r, t') ->
  match r with
  | inr _ => exists c base expected, read_changes agent h body = Some (c, base, expected) /\ applies agent c base expected t
      /\ (forall row, In row (stored_rows agent t') <-> (In row (stored_rows agent t) /\ ~ In row (rows (ic_removed c))) \/ In row (rows (ic_added c)))
      /\ iv_sha256 <$> inventory_of agent t' = Some expected
      /\ os_of agent (grouped t') = {| of_os_id := Some (os_id_of (ic_os c)); of_os_version := Some (os_version_of (ic_os c)) |}
      /\ forall a, a <> agent -> inventory_of a t' = inventory_of a t /\ os_of a (grouped t') = os_of a (grouped t)
           /\ forall row, In row (stored_rows a t') <-> In row (stored_rows a t)
  | inl e => t' = t /\ (e = AgentServer.Resync -> exists c base expected, read_changes agent h body = Some (c, base, expected)
                         /\ ~ applies agent c base expected t)
  end.
Proof using Hord.
  intros Hfp Hw. unfold inventory_changes, InvDb.inventory_changes, read_changes.
  destruct (decoded_body gunzip h body _) as [e|body'] eqn:Ed.
  { intros [= <- <-]. split; [done|]. intros ->. by apply decoded_answers in Ed. }
  destruct (parse_with_limit _ _ body' _) as [e|c] eqn:Ep.
  { intros [= <- <-]. split; [done|]. intros ->. by apply parse_answers in Ep. }
  destruct (negb _); [by intros [= <- <-]|]. destruct (digest_from_hex (ic_base_sha256 c)) as [base|]; [|by intros [= <- <-]].
  destruct (digest_from_hex (ic_sha256 c)) as [expected|]; [|by intros [= <- <-]]. simpl.
  destruct (apply_changes _ _ _ _ _ _ _ _ _ _ _ _ t) as [[[] u]|] eqn:Ea; intros [= <- <-]; [| |by split].
  - destruct (apply_changes_spec _ _ _ _ _ _ _ _ _ _ _ _ _ _ _ Hw Ea) as (W & H1 & H2 & H3 & H4 & H5 & H6 & (set & Hset & H7) & H8 & H9 & _ & H10).
    setoid_rewrite <- (has_row_stored _ _ _ Hw) in H4. setoid_rewrite <- (has_row_stored _ _ _ Hw) in H5.
    setoid_rewrite <- (has_row_stored _ _ _ Hw) in H6. setoid_rewrite <- (has_row_stored _ _ _ W) in H6.
    setoid_rewrite <- (has_row_stored _ _ _ W) in Hset.
    exists c, base, expected. split; [done|]. split_and!; try done.
    + split; try done. intros set' Hs'. rewrite <- H7. apply Hfp, normalized_set. intros row. by rewrite Hs', Hset, H6.
    + by rewrite H8.
    + intros a Ha. destruct (H10 a Ha) as (K1 & K2 & K3). split_and!; [done|done|]. intros row.
      by rewrite (has_row_stored _ _ _ W), (has_row_stored _ _ _ Hw), K3.
  - destruct (apply_changes_spec _ _ _ _ _ _ _ _ _ _ _ _ _ _ _ Hw Ea) as [_ ->]. split; [done|]. intros _. exists c, base, expected.
    split; [done|]. intros Happ. by apply (applies_stored _ _ _ _ now _ Hfp Happ) in Ea.
Qed.
End packages.

(** ** Everything that happens *)

Section world.
Context {InstalledPackage : Type} (normalize : InstalledPackage -> NormalizedPackage) (np_cmp : NormalizedPackage -> NormalizedPackage -> comparison)
  `{Hord : !CmpOrder np_cmp}
  (fingerprint : OsRelease -> option string -> list NormalizedPackage -> list Z) (digest_from_hex : string -> option (list Z))
  (services_digest : list WireListener -> list WireService -> list Z)
  (gunzip : list Z -> Z -> option (list Z)) (inventory_document_bytes HOST_SERVICES_BYTES : Z)
  (parse_report : list Z -> option (InventoryReport InstalledPackage)) (parse_changes : list Z -> option (InventoryChanges InstalledPackage))
  (parse_services : list Z -> option HostServices)
  (lower : string -> string) (contained : string -> string -> bool) (collate : string -> string -> comparison)
  (published : string -> bool) (gen : nat -> string).

Notation inventory := (inventory normalize np_cmp fingerprint gunzip inventory_document_bytes parse_report lower contained gen).
Notation inventory_changes := (inventory_changes normalize np_cmp fingerprint digest_from_hex gunzip inventory_document_bytes parse_changes lower contained gen).
Notation services_request := (services_request services_digest gunzip HOST_SERVICES_BYTES parse_services).

(** Epochs a package manager has fit the column. *)
Definition epochs_fit : Prop := forall body r, parse_report body = Some r ->
  Forall (fun p => 0 <= np_epoch (normalize p) <= i32_max) (ir_packages r).

(** The matcher marks an inventory it has matched. *)
Definition matched (agent : string) (version : Z) (t : InvTables) : InvTables :=
  set_inventories (map (fun e => if String.eqb e.1 agent
    then (e.1, {| iv_sha256 := iv_sha256 e.2; iv_at := iv_at e.2; iv_running_kernel := iv_running_kernel e.2; iv_match_version := version |}) else e)) t.

Inductive inv_step : InvTables -> InvTables -> Prop :=
  | step_inventory agent h body now t : inv_step t (inventory agent h body now t).2
  | step_inventory_changes agent h body now t : inv_step t (inventory_changes agent h body now t).2
  | step_services agent h body now t : inv_step t (services_request agent h body now t).2
  | step_matched agent version t : inv_step t (matched agent version t)
  | step_groups t g : group_step lower contained collate published gen (grouped t) g -> facts g = facts (grouped t) ->
      inv_step t (set_grouped (fun _ => g) t).
Definition inv_steps : InvTables -> InvTables -> Prop := rtc inv_step.

(** What each request leaves. *)
Lemma inventory_cases agent h body now t : (inventory agent h body now t).2 = t
  \/ exists body' r o, parse_report body' = Some r
     /\ replace lower contained gen agent (ir_os r) (ir_running_kernel r) (package_rows normalize np_cmp (ir_packages r))
          (fingerprint (ir_os r) (ir_running_kernel r) (map normalize (ir_packages r))) now t = Some (o, (inventory agent h body now t).2).
Proof.
  unfold inventory, InvDb.inventory. destruct (decoded_body gunzip h body _) as [|body']; [by left|].
  destruct (parse_with_limit parse_report _ body' _) as [|r] eqn:Ep; [by left|]. apply parsed in Ep. destruct (negb _); [by left|]. simpl.
  destruct (replace _ _ _ _ _ _ _ _ _ t) as [[o u]|] eqn:Er; [|by left]. right. by exists body', r, o.
Qed.
Lemma inventory_changes_cases agent h body now t : (inventory_changes agent h body now t).2 = t
  \/ exists os kernel added removed base expected,
       apply_changes fingerprint lower contained gen agent os kernel added removed base expected now t = Some (Stored, (inventory_changes agent h body now t).2).
Proof.
  unfold inventory_changes, InvDb.inventory_changes. destruct (decoded_body gunzip h body _) as [|body']; [by left|].
  destruct (parse_with_limit parse_changes _ body' _) as [|c]; [by left|]. destruct (negb _); [by left|].
  destruct (digest_from_hex (ic_base_sha256 c)) as [base|]; [|by left]. destruct (digest_from_hex (ic_sha256 c)) as [expected|]; [|by left].
  destruct (apply_changes _ _ _ _ _ _ _ _ _ _ _ _ t) as [[[] u]|] eqn:Ea; [right|left|by left].
  - by exists (ic_os c), (ic_running_kernel c), (package_rows normalize np_cmp (ic_added c)), (package_rows normalize np_cmp (ic_removed c)), base, expected.
  - simpl. revert Ea. unfold apply_changes. destruct (negb _); [done|]. destruct (negb _); [by intros [= <-]|].
    destruct (set ← remove_all _ _; _); [|by intros [= <-]]. destruct (negb _); [by intros [= <-]|]. destruct (negb _); [done|]. cbv zeta.
    intros (v & _ & H)%bind_Some. by apply bind_Some in H as (w & _ & H).
Qed.
Lemma services_cases agent h body now t : (services_request agent h body now t).2 = t
  \/ (exists refusal, (services_request agent h body now t).2 = refused agent refusal now t)
  \/ exists report, replace_services agent report now t = Some (services_request agent h body now t).2.
Proof.
  unfold services_request, InvDb.services_request. destruct (checked_services _ _ _ _ _ _ _) as [[e refusal]|report]; [right; left; by exists refusal|].
  destruct (replace_services agent (stored_report report) now t) eqn:E; [right; right; by exists (stored_report report)|by left].
Qed.
Lemma refused_keeps agent refusal now t : same_packages t (refused agent refusal now t) /\ change_log (refused agent refusal now t) = change_log t
  /\ listeners (refused agent refusal now t) = listeners t /\ services (refused agent refusal now t) = services t
  /\ forall a, ss_sha256 (services_of a (refused agent refusal now t)) = ss_sha256 (services_of a t).
Proof.
  unfold refused. destruct (negb _); [by split_and!|]. cbv zeta. split_and!; try done. intros a. rewrite services_put.
  by destruct (String.eqb_spec agent a) as [->|].
Qed.

(** ** The digest on record *)

Record agrees (t : InvTables) : Prop := {
  ag_wf : wf_versions t;
  ag_digest : forall a iv, inventory_of a t = Some iv -> exists os, os_of a (grouped t) = {| of_os_id := Some (os_id_of os); of_os_version := Some (os_version_of os) |}
    /\ iv_sha256 iv = fingerprint os (iv_running_kernel iv) (map normalized (stored_rows a t));
}.

Lemma same_stored a t t' : versions t' = versions t -> host_packages t' = host_packages t -> stored_rows a t' = stored_rows a t.
Proof. unfold stored_rows, row_at. by intros -> ->. Qed.
Lemma agrees_same t t' : same_packages t t' -> agrees t -> agrees t'.
Proof.
  intros [S1 S2 S3 S4 S5] [H1 H2]. destruct (versions_same _ _ S2 S3 S4 H1) as [W _]. split; [done|]. intros a iv. unfold inventory_of. rewrite S5, S1.
  intros Hi. rewrite (same_stored a t t') by done. by apply H2.
Qed.

Lemma find_matched a agent version l :
  find (fun e : string * InventoryState => String.eqb e.1 a) (map (fun e => if String.eqb e.1 agent
    then (e.1, {| iv_sha256 := iv_sha256 e.2; iv_at := iv_at e.2; iv_running_kernel := iv_running_kernel e.2; iv_match_version := version |}) else e) l)
  = (fun e => if String.eqb e.1 agent then (e.1, {| iv_sha256 := iv_sha256 e.2; iv_at := iv_at e.2; iv_running_kernel := iv_running_kernel e.2; iv_match_version := version |}) else e)
    <$> find (fun e => String.eqb e.1 a) l.
Proof. induction l as [|e l IH]; [done|]. simpl. rewrite IH. destruct (String.eqb e.1 agent) eqn:E; simpl; destruct (String.eqb e.1 a); simpl; by rewrite ?E. Qed.
Lemma matched_of agent version a t : match inventory_of a (matched agent version t) with
  | None => inventory_of a t = None
  | Some iv => exists iv0, inventory_of a t = Some iv0 /\ iv_sha256 iv = iv_sha256 iv0 /\ iv_running_kernel iv = iv_running_kernel iv0 end.
Proof.
  unfold inventory_of, matched. simpl. rewrite find_matched. destruct (find _ (inventories t)) as [e|]; simpl; [|done].
  exists e.2. by destruct (String.eqb e.1 agent).
Qed.

Lemma full_records packages : Forall (fun p => 0 <= np_epoch (normalize p) <= i32_max) packages ->
  forall p, In p (map normalized (package_rows normalize np_cmp packages)) <-> In p (map normalize packages).
Proof using Hord.
  intros Hf p. unfold package_rows. rewrite map_map, in_map_iff. setoid_rewrite (bs_of_list_In np_cmp). rewrite in_map_iff.
  assert (forall x, In x (map normalize packages) -> normalized (row_of x) = x) as H.
  { intros x (q & <- & Hq)%in_map_iff. apply normalized_row_of. by apply (proj1 (List.Forall_forall _ _) Hf). }
  split.
  - intros (x & <- & Hx). rewrite H by done. by apply in_map_iff in Hx.
  - intros Hp. exists p. apply in_map_iff in Hp. split; [by apply H|done].
Qed.

Lemma replace_agrees agent os kernel packages now t o t' : of_the_set fingerprint ->
  Forall (fun p => 0 <= np_epoch (normalize p) <= i32_max) packages -> agrees t ->
  replace lower contained gen agent os kernel (package_rows normalize np_cmp packages) (fingerprint os kernel (map normalize packages)) now t = Some (o, t') ->
  agrees t'.
Proof using Hord.
  intros Hfp Hf [Hw Hd] Hr. destruct (replace_spec _ _ _ _ _ _ _ _ _ _ _ _ Hw Hr) as [W H]. destruct o; [|by destruct H as [-> _]].
  destruct H as (H1 & H2 & H3 & _ & H4). split; [done|]. intros a iv Hi. destruct (decide (a = agent)) as [->|Hne].
  - exists os. split; [done|]. rewrite H2 in Hi. injection Hi as <-. simpl. apply Hfp. intros p. rewrite <- (full_records packages Hf).
    apply normalized_set. intros row. by rewrite (has_row_stored _ _ _ W), H1.
  - destruct (H4 a Hne) as (K1 & K2 & K3). rewrite K1 in Hi. destruct (Hd a iv Hi) as (os0 & E1 & E2). exists os0. rewrite K2. split; [done|].
    rewrite E2. apply Hfp, normalized_set. intros row. by rewrite (has_row_stored _ _ _ W), (has_row_stored _ _ _ Hw), K3.
Qed.

Lemma changes_agrees agent os kernel added removed base expected now t t' : of_the_set fingerprint -> agrees t ->
  apply_changes fingerprint lower contained gen agent os kernel added removed base expected now t = Some (Stored, t') -> agrees t'.
Proof.
  intros Hfp [Hw Hd] Ha. destruct (apply_changes_spec _ _ _ _ _ _ _ _ _ _ _ _ _ _ _ Hw Ha) as (W & _ & _ & _ & _ & _ & _ & (set & Hset & H7) & H8 & H9 & _ & H10).
  split; [done|]. intros a iv Hi. destruct (decide (a = agent)) as [->|Hne].
  - exists os. split; [done|]. rewrite H8 in Hi. injection Hi as <-. simpl. rewrite <- H7. apply Hfp, normalized_set. intros row.
    by rewrite Hset, (has_row_stored _ _ _ W).
  - destruct (H10 a Hne) as (K1 & K2 & K3). rewrite K1 in Hi. destruct (Hd a iv Hi) as (os0 & E1 & E2). exists os0. rewrite K2. split; [done|].
    rewrite E2. apply Hfp, normalized_set. intros row. by rewrite (has_row_stored _ _ _ W), (has_row_stored _ _ _ Hw), K3.
Qed.

Lemma step_agrees t t' : of_the_set fingerprint -> epochs_fit -> inv_step t t' -> agrees t -> agrees t'.
Proof using Hord.
  intros Hfp Hfit H Hg. destruct H as [agent h body now t|agent h body now t|agent h body now t|agent version t|t g _ Eg].
  - destruct (inventory_cases agent h body now t) as [->|(body' & r & o & Hp & Hr)]; [done|]. by eapply (replace_agrees _ _ _ _ _ _ _ _ Hfp (Hfit _ _ Hp) Hg Hr).
  - destruct (inventory_changes_cases agent h body now t) as [->|(os & kernel & added & removed & base & expected & Ha)]; [done|]. by eapply changes_agrees.
  - destruct (services_cases agent h body now t) as [->|[[refusal ->]|[report Hr]]]; [done| |].
    + eapply agrees_same; [apply refused_keeps|done].
    + eapply agrees_same; [by eapply replace_services_spec|done].
  - destruct Hg as [Hw Hd]. split; [by destruct (versions_same t (matched agent version t)) as [? _]|]. intros a iv Hi.
    pose proof (matched_of agent version a t) as Hm. rewrite Hi in Hm. destruct Hm as (iv0 & H0 & -> & ->). by apply Hd.
  - destruct Hg as [Hw Hd]. split; [by destruct (versions_same t (set_grouped (fun _ => g) t)) as [? _]|]. intros a iv Hi.
    unfold os_of. simpl. rewrite Eg. by apply Hd.
Qed.

(** The digest on record is the inventory's. Along any sequence of inventories, change sets, services reports, matching and changes to
    groups and hosts, the digest kept for a host is the fingerprint of the system on record for it, of the kernel on record, and of exactly the
    packages stored. So a host that computes its next change set against that digest computes it against what is stored. *)
Theorem inventory_digest_agrees t t' : of_the_set fingerprint -> epochs_fit -> agrees t -> inv_steps t t' ->
  forall a iv, inventory_of a t' = Some iv -> exists os,
    os_of a (grouped t') = {| of_os_id := Some (os_id_of os); of_os_version := Some (os_version_of os) |}
    /\ iv_sha256 iv = fingerprint os (iv_running_kernel iv) (map normalized (stored_rows a t')).
Proof using Hord.
  intros Hfp Hfit Hg Hr. assert (agrees t') as H; [|apply H]. induction Hr as [|t u t' H _ IH]; [done|]. apply IH. by eapply step_agrees.
Qed.

(** ** The change log *)

Lemma step_tells t t' : inv_step t t' -> log_tells t t'.
Proof.
  intros [agent h body now u|agent h body now u|agent h body now u|agent version u|u g _ _].
  - destruct (inventory_cases agent h body now u) as [->|(body' & r & o & _ & Hr)]; [done|]. by eapply same_lists_tell, replace_lists.
  - destruct (inventory_changes_cases agent h body now u) as [->|(os & kernel & added & removed & base & expected & Ha)]; [done|].
    by eapply same_lists_tell, apply_changes_lists.
  - destruct (services_cases agent h body now u) as [->|[[refusal ->]|[report Hr]]]; [done| |].
    + destruct (refused_keeps agent refusal now u) as (_ & E1 & E2 & E3 & E4). split; [intros a; unfold baseline; by rewrite E4|]. exists [].
      rewrite app_nil_r. split; [done|]. intros a _. rewrite (same_listeners _ _ _ E2), (same_services _ _ _ E3). split; by apply tells_nothing.
    + destruct (replace_services_spec _ _ _ _ _ Hr) as (_ & l & H1 & H2 & H3 & _). split; [done|]. by exists l.
  - by apply same_lists_tell, same_lists_still.
  - by apply same_lists_tell, same_lists_still.
Qed.

(** The change log tells what a host runs. Once a host has reported its ports and services, play over them the changes logged for it
    since: the result is the ports and the services stored for it now, after any sequence of reports, refused ones, inventories and change
    sets of any hosts, and of changes to groups. Nothing that came or went is missing from the log, and nothing is told of another host. *)
Theorem services_log_exact t t' : inv_steps t t' -> exists l, change_log t' = change_log t ++ l
  /\ forall a, baseline a t = true -> forall k,
       (told k (events_of a ListenerChange l) (existsb (String.eqb k) (ports a t)) = true <->
          exists r, In (a, r) (listeners t') /\ listener_key (ls_protocol r) (ls_port r) = k)
       /\ (told k (events_of a ServiceChange l) (existsb (String.eqb k) (units a t)) = true <->
          exists s, In (a, s) (services t') /\ sv_unit s = k).
Proof.
  intros Hr. assert (log_tells t t') as [_ (l & E & H)] by (induction Hr as [|t u t' Hs%step_tells _ IH]; [done|by etrans]).
  exists l. split; [done|]. intros a Ha k. destruct (H a Ha) as [H1 H2]. by rewrite H1, H2, !has_key, ports_In, units_In.
Qed.

(** ** Groups *)

Lemma step_group_steps t t' : inv_step t t' -> NoDup (map ag_id (agents_of (grouped t))) ->
  group_steps lower contained collate published gen (grouped t) (grouped t').
Proof.
  intros [agent h body now u|agent h body now u|agent h body now u|agent version u|u g Hg _] Hn.
  - destruct (inventory_cases agent h body now u) as [->|(body' & r & o & _ & Hr)]; [done|]. by eapply replace_groups.
  - destruct (inventory_changes_cases agent h body now u) as [->|(os & kernel & added & removed & base & expected & Ha)]; [done|].
    by eapply apply_changes_groups.
  - destruct (services_cases agent h body now u) as [->|[[refusal ->]|[report Hr]]]; [done| |].
    + by rewrite (sp_grouped _ _ (proj1 (refused_keeps agent refusal now u))).
    + by rewrite (sp_grouped _ _ (proj1 (replace_services_spec _ _ _ _ _ Hr))).
  - done.
  - by apply rtc_once.
Qed.

(** Groups follow what inventories say. Along any sequence of inventories, change sets and services reports of any hosts, and of
    changes to groups and hosts, a group of conditions holds exactly the active hosts whose system, as their last inventory gave it, and whose
    other facts satisfy all its conditions; there are never more than 200 automatic groups, and one that was deleted is not made again. *)
Theorem inventory_keeps_groups t t' : sound lower contained (grouped t) -> auto_ok (grouped t) -> inv_steps t t' ->
  (forall agent gid g, group_of gid (grouped t') = Some g -> gr_kind g <> Manual ->
     (in_group agent gid (grouped t') = true <-> exists a, agent_of agent (hosts (store (grouped t'))) = Some a /\ ag_status a = SActive
        /\ conditions_of gid (grouped t') <> []
        /\ forall c, In c (conditions_of gid (grouped t')) -> condition_holds lower contained (os_of agent (grouped t')) a c = true))
  /\ Z.of_nat (length (automatic_groups (grouped t'))) <= 200
  /\ (forall g key, In key (dismissed (grouped t)) -> In g (groups (grouped t')) -> gr_auto_key g <> Some key).
Proof.
  intros Hs Ha Hr. assert (group_steps lower contained collate published gen (grouped t) (grouped t')) as Hg.
  { induction Hr as [|t u t' H _ IH]; [done|]. pose proof (step_group_steps _ _ H (u_agents _ (s_unique _ _ _ Hs))) as Hg.
    etrans; [exact Hg|]. apply IH; [by eapply steps_sound|by eapply steps_auto]. }
  destruct (steps_auto _ _ _ _ _ _ _ Hg Ha) as [[A1 _ _ A4] Hd]. split_and!; [|done|intros g key Hk Hin E; by apply (A4 g key); auto].
  intros agent gid g Eg Hk. rewrite member_spec by (by eapply steps_sound). split.
  - intros (a & h & Ha' & Eh & Hact & H). rewrite Eg in Eh. injection Eh as <-. exists a. by destruct (gr_kind g).
  - intros (a & Ha' & Hact & H1 & H2). exists a, g. by destruct (gr_kind g).
Qed.
End world.

(** ** Examples *)

Definition ex_np (p : NormalizedPackage) : PackageRow :=
  {| pr_manager := np_manager p; pr_name := np_name p; pr_epoch := np_epoch p; pr_version := np_version p; pr_release := np_release p;
     pr_arch := np_arch p; pr_source := np_source p; pr_source_version := np_source_version p |}.
Definition ex_np_cmp : NormalizedPackage -> NormalizedPackage -> comparison := cmp_on ex_np row_cmp.
#[local] Instance ex_np_order : CmpOrder ex_np_cmp.
Proof.
  split; [unfold ex_np_cmp; apply _|]. intros [] [] E. unfold ex_np_cmp, cmp_on in E. apply (cmp_eq row_cmp) in E. unfold ex_np in E. simpl in E.
  by injection E as -> -> -> -> -> -> -> ->.
Qed.
Definition ex_fp (os : OsRelease) (kernel : option string) (l : list NormalizedPackage) : list Z :=
  bytes (os_version_of os) ++ map (fun v => if existsb (fun p => String.eqb (np_version p) v) l then 1 else 0) ["5.2"; "5.3"; "9.1"].
Lemma ex_fp_set : of_the_set ex_fp.
Proof.
  intros os kernel l l' H. unfold ex_fp. f_equal. apply map_ext. intros v.
  assert (existsb (fun p => String.eqb (np_version p) v) l = existsb (fun p => String.eqb (np_version p) v) l') as ->; [|done].
  apply eq_iff_eq_true. rewrite !existsb_exists. by setoid_rewrite H.
Qed.

Definition ex_package (name version : string) : NormalizedPackage :=
  {| np_manager := "dpkg"; np_name := name; np_epoch := 0; np_version := version; np_release := "1"; np_arch := "amd64"; np_source := None; np_source_version := None |}.
Definition ex_os (version : string) : OsRelease := {| os_id_of := "debian"; os_version_of := version |}.
Definition ex_report (body : list Z) : option (InventoryReport NormalizedPackage) :=
  match body with
  | [1] => Some {| ir_agent_id := "h1"; ir_os := ex_os "12"; ir_running_kernel := None; ir_packages := [ex_package "vim" "9.1"; ex_package "bash" "5.2"] |}
  | _ => None
  end.
Definition ex_changes (body : list Z) : option (InventoryChanges NormalizedPackage) :=
  match body with
  | [2] => Some {| ic_agent_id := "h1"; ic_os := ex_os "13"; ic_running_kernel := None; ic_added := [ex_package "bash" "5.3"];
                   ic_removed := [ex_package "bash" "5.2"]; ic_base_sha256 := "one"; ic_sha256 := "two" |}
  | _ => None
  end.
Definition ex_hex (s : string) : option (list Z) :=
  if String.eqb s "one" then Some (ex_fp (ex_os "12") None [ex_package "bash" "5.2"; ex_package "vim" "9.1"])
  else if String.eqb s "two" then Some (ex_fp (ex_os "13") None [ex_package "bash" "5.3"; ex_package "vim" "9.1"]) else None.
Definition ex_listener (port : Z) (exposed : bool) : WireListener :=
  {| wl_protocol := Tcp; wl_address := if exposed then V4 0 0 0 0 else V4 127 0 0 1; wl_port := port; wl_exposed := exposed; wl_service := None; wl_program := None |}.
Definition ex_unit (name : string) : WireService := {| ws_unit := name; ws_programs := []; ws_processes := 1; ws_user := None |}.
(** A digest of the two lists by their lengths. *)
Definition ex_lists_digest (ls : list WireListener) (ss : list WireService) : list Z :=
  repeat (Z.of_nat (length ls)) 16 ++ repeat (Z.of_nat (length ss)) 16.
Definition ex_services_report (ls : list WireListener) (ss : list WireService) : HostServices :=
  {| hs_agent_id := "h1"; hs_sha256 := of_bytes (hex_of (ex_lists_digest ls ss)); hs_owners := Complete; hs_truncated := false;
     hs_listeners := ls; hs_services := ss |}.
Definition ex_services (body : list Z) : option HostServices :=
  match body with
  | [3] => Some (ex_services_report [ex_listener 22 true; ex_listener 5432 false] [ex_unit "sshd.service"])
  | [4] => Some (ex_services_report [ex_listener 22 true; ex_listener 443 true] [ex_unit "sshd.service"; ex_unit "nginx.service"])
  | _ => None
  end.

Definition ex_ids (n : nat) : string := String (Ascii.ascii_of_nat (97 + n)) EmptyString.
Definition ex_gunzip (body : list Z) (limit : Z) : option (list Z) := None.
Notation ex_inventory := (inventory id ex_np_cmp ex_fp ex_gunzip 1000 ex_report to_ascii_lowercase ex_contained ex_ids "h1" []).
Notation ex_inventory_changes := (inventory_changes id ex_np_cmp ex_fp ex_hex ex_gunzip 1000 ex_changes to_ascii_lowercase ex_contained ex_ids "h1" []).
Notation ex_services_request := (services_request ex_lists_digest ex_gunzip 1000 ex_services "h1" []).
Definition ex_inv0 : InvTables :=
  {| grouped := ex_groups0; versions := []; next_version := 1; host_packages := []; inventories := []; listeners := []; services := [];
     services_states := []; change_log := []; notified := [] |}.
Definition ex_inv1 : InvTables := (ex_inventory [1] 5 ex_inv0).2.
Definition ex_inv2 : InvTables := (ex_inventory_changes [2] 6 ex_inv1).2.
Definition ex_inv3 : InvTables := (ex_services_request [3] 7 ex_inv2).2.
Definition ex_inv4 : InvTables := (ex_services_request [4] 8 ex_inv3).2.

Example inventory_run :
  (ex_inventory [1] 5 ex_inv0).1 = inr tt /\ (ex_inventory_changes [2] 6 ex_inv1).1 = inr tt
  /\ (ex_inventory_changes [2] 7 ex_inv2).1 = inl AgentServer.Resync
  /\ (ex_services_request [3] 7 ex_inv2).1 = inr tt /\ (ex_services_request [4] 8 ex_inv3).1 = inr tt
  /\ map (fun r => (pr_name r, pr_version r)) (stored_rows "h1" ex_inv1) = [("bash", "5.2"); ("vim", "9.1")]
  /\ map (fun r => (pr_name r, pr_version r)) (stored_rows "h1" ex_inv4) = [("vim", "9.1"); ("bash", "5.3")]
  /\ map (fun r => (kind_code (ch_kind r), ev_key (ch_event r), change_code (ev_change (ch_event r)))) (change_log ex_inv4)
     = [("package", "bash", "appeared"); ("package", "bash", "went_away"); ("listener", "tcp/443", "appeared");
        ("listener", "tcp/5432", "went_away"); ("service", "nginx.service", "appeared")]
  /\ map gr_name (groups (grouped ex_inv4)) = ["Linux"; "Debian 12"; "Debian 13"]
  /\ members (grouped ex_inv1) = [("h1", "a"); ("h1", "b")] /\ members (grouped ex_inv4) = [("h1", "a"); ("h1", "c")].
Proof. vm_compute. auto 20. Qed.

Lemma ex_wf0 : wf_versions ex_inv0.
Proof. split; try constructor; done. Qed.
Lemma ex_agrees0 : agrees ex_fp ex_inv0.
Proof. split; [apply ex_wf0|done]. Qed.
Lemma ex_fit : epochs_fit id ex_report.
Proof.
  intros body r. unfold ex_report. repeat (case_match; try done). intros [= <-].
  apply List.Forall_cons; [by split|]. apply List.Forall_cons; [by split|]. constructor.
Qed.
Notation ex_inv_steps := (inv_steps id ex_np_cmp ex_fp ex_hex ex_lists_digest ex_gunzip 1000 1000 ex_report ex_changes ex_services
  to_ascii_lowercase ex_contained str_cmp (fun _ => true) ex_ids).
Lemma ex_first_steps : ex_inv_steps ex_inv0 ex_inv3.
Proof.
  apply (rtc_l _ _ ex_inv1); [apply step_inventory|]. apply (rtc_l _ _ ex_inv2); [apply step_inventory_changes|].
  apply rtc_once, step_services.
Qed.
Lemma ex_last_step : ex_inv_steps ex_inv3 ex_inv4.
Proof. apply rtc_once, step_services. Qed.
Lemma ex_all_steps : ex_inv_steps ex_inv0 ex_inv4.
Proof. etrans; [apply ex_first_steps|apply ex_last_step]. Qed.
Lemma ex_wf1 : wf_versions ex_inv1.
Proof.
  exact (ag_wf ex_fp _ (step_agrees id ex_np_cmp ex_fp ex_hex ex_lists_digest ex_gunzip 1000 1000 ex_report ex_changes ex_services to_ascii_lowercase ex_contained
    str_cmp (fun _ => true) ex_ids ex_inv0 ex_inv1 ex_fp_set ex_fit
    (step_inventory id ex_np_cmp ex_fp ex_hex ex_lists_digest ex_gunzip 1000 1000 ex_report ex_changes ex_services to_ascii_lowercase ex_contained
       str_cmp (fun _ => true) ex_ids "h1" [] [1] 5 ex_inv0) ex_agrees0)).
Qed.

Lemma changes_all_or_nothing_witness :
  (ex_inventory_changes [2] 6 ex_inv1).1 = inr tt /\ iv_sha256 <$> inventory_of "h1" ex_inv2 = ex_hex "two"
  /\ exists c base expected, read_changes ex_hex ex_gunzip 1000 ex_changes "h1" [] [2] = Some (c, base, expected)
     /\ applies id ex_np_cmp ex_fp "h1" c base expected ex_inv1.
Proof.
  split; [vm_compute; reflexivity|]. split; [vm_compute; reflexivity|].
  destruct (changes_all_or_nothing id ex_np_cmp ex_fp ex_hex ex_gunzip 1000 ex_changes to_ascii_lowercase ex_contained ex_ids "h1" [] [2] 6 ex_inv1
    (inr tt) ex_inv2 ex_fp_set ex_wf1 ltac:(vm_compute; reflexivity)) as (c & base & expected & H1 & H2 & _).
  exists c, base, expected. exact (conj H1 H2).
Defined.

Lemma inventory_digest_agrees_witness :
  exists iv os, inventory_of "h1" ex_inv4 = Some iv /\ iv_sha256 iv = ex_fp os (iv_running_kernel iv) (map normalized (stored_rows "h1" ex_inv4)).
Proof.
  destruct (inventory_of "h1" ex_inv4) as [iv|] eqn:E; [|vm_compute in E; discriminate E].
  destruct (inventory_digest_agrees id ex_np_cmp ex_fp ex_hex ex_lists_digest ex_gunzip 1000 1000 ex_report ex_changes ex_services
    to_ascii_lowercase ex_contained str_cmp (fun _ => true) ex_ids ex_inv0 ex_inv4 ex_fp_set ex_fit ex_agrees0 ex_all_steps "h1" iv E) as (os & _ & H).
  exists iv, os. exact (conj eq_refl H).
Defined.

Lemma services_log_exact_witness :
  ports "h1" ex_inv3 = ["tcp/22"; "tcp/5432"]
  /\ exists l, change_log ex_inv4 = change_log ex_inv3 ++ l
     /\ (told "tcp/443" (events_of "h1" ListenerChange l) false = true <-> exists r, In ("h1", r) (listeners ex_inv4) /\ listener_key (ls_protocol r) (ls_port r) = "tcp/443").
Proof.
  split; [vm_compute; reflexivity|].
  destruct (services_log_exact id ex_np_cmp ex_fp ex_hex ex_lists_digest ex_gunzip 1000 1000 ex_report ex_changes ex_services
    to_ascii_lowercase ex_contained str_cmp (fun _ => true) ex_ids ex_inv3 ex_inv4 ex_last_step) as (l & E & H).
  exists l. split; [exact E|]. exact (proj1 (H "h1" ltac:(vm_compute; reflexivity) "tcp/443")).
Defined.

Lemma inventory_keeps_groups_witness :
  in_group "h1" "b" (grouped ex_inv4) = false /\ in_group "h1" "c" (grouped ex_inv4) = true /\ Z.of_nat (length (automatic_groups (grouped ex_inv4))) <= 200.
Proof.
  split; [vm_compute; reflexivity|]. split; [vm_compute; reflexivity|].
  exact (proj1 (proj2 (inventory_keeps_groups id ex_np_cmp ex_fp ex_hex ex_lists_digest ex_gunzip 1000 1000 ex_report ex_changes ex_services
    to_ascii_lowercase ex_contained str_cmp (fun _ => true) ex_ids ex_inv0 ex_inv4 ex_sound ex_auto ex_all_steps))).
Defined.

(** Two rows the log cannot tell apart, of one of which the host is rid: the log says the package went away while the other is still there. *)
Example same_package_logged_gone :
  let kept := {| pr_manager := "dpkg"; pr_name := "libfoo"; pr_epoch := 0; pr_version := "1"; pr_release := "1"; pr_arch := "amd64";
                 pr_source := None; pr_source_version := None |} in
  let gone := {| pr_manager := "dpkg"; pr_name := "libfoo"; pr_epoch := 0; pr_version := "1"; pr_release := "1"; pr_arch := "amd64";
                 pr_source := Some "foo"; pr_source_version := None |} in
  let t := {| grouped := ex_groups0; versions := [(1, kept); (2, gone)]; next_version := 3; host_packages := [("h1", 1); ("h1", 2)];
              inventories := [("h1", {| iv_sha256 := [1]; iv_at := 0; iv_running_kernel := None; iv_match_version := 0 |})];
              listeners := []; services := []; services_states := []; change_log := []; notified := [] |} in
  match apply_changes (fun _ _ _ => [2]) to_ascii_lowercase ex_contained ex_ids "h1" (ex_os "12") None [] [gone] [1] [2] 5 t with
  | Some (Stored, t') => stored_rows "h1" t' = [kept] /\ map (fun r => (ev_key (ch_event r), ev_change (ch_event r))) (change_log t') = [("libfoo", WentAway)]
                         /\ package_diff [kept; gone] [kept] = []
  | _ => False
  end.
Proof. vm_compute. auto. Qed.
