(* ===== verification/SvcOps.v ===== *)
(** * Service accounts: the stored side (platform-store/src/console_auth.rs; src/migrations/0017); below, the requests

    Service accounts are principals of [AccessDb] with a name; a token is the digest of a bearer secret,
    live until it expires or is revoked.  [None] is a failed statement: the tables stay as they were.
    [collate] is the order PostgreSQL sorts names in, [rfc3339] and [from_rfc3339] write and read a time. *)
From S2P Require Import Prelude RustStd Text BTree Json AccessData AccessRules AccessDb AccessOps SignData.
From stdpp Require Import prelude strings list.
From Stdlib Require Import Ascii ZArith Lia.

Open Scope Z_scope.

(** ** Tables *)

Record AccountRow := {
  sa_id : string;
  sa_name : string;
  sa_enabled : bool;
  sa_created_at : Z;
  sa_created_by : string;
  sa_disabled_at : option Z;
}.
Record ServiceToken := {
  sk_id : string;
  sk_account : string;
  sk_sha256 : list Z;
  sk_label : string;
  sk_created_at : Z;
  sk_expires_at : Z;
  sk_revoked_at : option Z;
  sk_created_by : string;
}.
(** [console_idempotency]: the answer kept for a key. *)
Record KeptAnswer := {
  ka_actor : string;
  ka_operation : string;
  ka_key : list Z;
  ka_request : list Z;
  ka_token_id : string;
  ka_expiry : string;
  ka_expires_at : Z;
}.

(** [accounts] of [db] are the ids of the account rows. *)
Record SvcTables := { db : Db; account_rows : list AccountRow; service_tokens : list ServiceToken; kept : list KeptAnswer }.

Definition set_accounts (f : list string -> list string) (d : Db) : Db :=
  {| users := users d; accounts := f (accounts d); roles := roles d; bindings := bindings d;
     dashboards := dashboards d; sessions := sessions d; audit_log := audit_log d;
     console_permissions := console_permissions d; asset_groups := asset_groups d; draws := draws d |}.
Definition on_db (f : Db -> Db) (t : SvcTables) : SvcTables :=
  {| db := f (db t); account_rows := account_rows t; service_tokens := service_tokens t; kept := kept t |}.
Definition set_account_rows (f : list AccountRow -> list AccountRow) (t : SvcTables) : SvcTables :=
  {| db := db t; account_rows := f (account_rows t); service_tokens := service_tokens t; kept := kept t |}.
Definition set_service_tokens (f : list ServiceToken -> list ServiceToken) (t : SvcTables) : SvcTables :=
  {| db := db t; account_rows := account_rows t; service_tokens := f (service_tokens t); kept := kept t |}.
Definition set_kept (f : list KeptAnswer -> list KeptAnswer) (t : SvcTables) : SvcTables :=
  {| db := db t; account_rows := account_rows t; service_tokens := service_tokens t; kept := f (kept t) |}.

Definition audit_service (actor_id action kind target : string) (detail : value) : SvcTables -> SvcTables :=
  on_db (append_audit {| au_actor := actor_id; au_action := action; au_target_kind := kind; au_target_id := target; au_detail := detail |}).

Section store.
Context (gen : nat -> string) (collate : string -> string -> comparison) (rfc3339 : Z -> string) (from_rfc3339 : string -> option Z).

(** ** Accounts *)

(** The insert of a row per role: a role held already or a repeated id fails the statement. *)
Fixpoint insert_bindings (who : Principal) (role_ids : list string) (actor_id : string) (now : Z) (d : Db) : option Db :=
  match role_ids with
  | [] => Some d
  | role_id :: role_ids =>
      let id := gen (draws d) in
      if negb (str_mem role_id (map r_id (roles d)) && principal_exists d who)
         || existsb (holds_binding who role_id) (bindings d) || str_mem id (map b_id (bindings d))
      then None
      else insert_bindings who role_ids actor_id now (set_bindings (fun l => l ++ [new_binding id who role_id actor_id now]) (drawn d))
  end.

Definition new_account (id name actor_id : string) (now : Z) : AccountRow :=
  {| sa_id := id; sa_name := name; sa_enabled := true; sa_created_at := now; sa_created_by := actor_id; sa_disabled_at := None |}.

(** The id, or none when the name is taken or a role does not exist. *)
Definition create_service_account (name : string) (role_ids : list string) (actor_id : string) (now : Z) (t : SvcTables)
    : option (option string * SvcTables) :=
  let id := gen (draws (db t)) in
  let known := Z.of_nat (length (List.filter (fun r => str_mem (r_id r) role_ids) (roles (db t)))) in
  if (Z.of_nat (length role_ids) =? 0) || negb (known =? Z.of_nat (length role_ids)) then Some (None, t)
  else if negb ((1 <=? char_count name) && (char_count name <=? 128) && db_text name) then None
  else if existsb (fun a => String.eqb (sa_name a) name) (account_rows t) then Some (None, t)
  else if str_mem id (accounts (db t)) then None
  else
    d ← insert_bindings (ServiceAccount id) role_ids actor_id now (set_accounts (fun l => l ++ [id]) (drawn (db t)));
    Some (Some id, audit_service actor_id "service_account.created" "service_account" id
            (JObject [("name", JString name); ("role_ids", JArray (map JString role_ids))])
            (on_db (fun _ => d) (set_account_rows (fun l => l ++ [new_account id name actor_id now]) t))).

Record ServiceAccountInfo := {
  si_account : AccountRow;
  si_active_tokens : Z;
  si_role_ids : list string;
}.
Definition token_live (now : Z) (k : ServiceToken) : bool := negb (is_some (sk_revoked_at k)) && (now <? sk_expires_at k).
Definition account_order (a b : AccountRow) : comparison := collate (sa_name a) (sa_name b) <then> str_cmp (sa_id a) (sa_id b).
Definition list_service_accounts (now : Z) (t : SvcTables) : list ServiceAccountInfo :=
  map (fun a => {| si_account := a;
                   si_active_tokens := Z.of_nat (length (List.filter (fun k => String.eqb (sk_account k) (sa_id a) && token_live now k) (service_tokens t)));
                   si_role_ids := role_ids_of (db t) (ServiceAccount (sa_id a)) |})
    (sort_by account_order (account_rows t)).

Definition disabled_row (now : Z) (a : AccountRow) : AccountRow :=
  {| sa_id := sa_id a; sa_name := sa_name a; sa_enabled := false; sa_created_at := sa_created_at a; sa_created_by := sa_created_by a;
     sa_disabled_at := Some now |}.
Definition revoked_token (now : Z) (k : ServiceToken) : ServiceToken :=
  {| sk_id := sk_id k; sk_account := sk_account k; sk_sha256 := sk_sha256 k; sk_label := sk_label k; sk_created_at := sk_created_at k;
     sk_expires_at := sk_expires_at k; sk_revoked_at := Some now; sk_created_by := sk_created_by k |}.

Definition disable_service_account (id actor_id : string) (now : Z) (t : SvcTables) : bool * SvcTables :=
  match find (fun a => String.eqb (sa_id a) id && sa_enabled a) (account_rows t) with
  | None => (false, t)
  | Some a =>
      (true, audit_service actor_id "service_account.disabled" "service_account" id (JObject [("name", JString (sa_name a))])
        (set_service_tokens (map (fun k => if String.eqb (sk_account k) id && negb (is_some (sk_revoked_at k)) then revoked_token now k else k))
          (set_account_rows (map (fun a => if String.eqb (sa_id a) id && sa_enabled a then disabled_row now a else a)) t)))
  end.

(** ** Tokens *)

Definition token_order (a b : ServiceToken) : comparison := Z.compare (sk_created_at b) (sk_created_at a) <then> str_cmp (sk_id a) (sk_id b).
Definition list_service_tokens (id : string) (t : SvcTables) : option (list ServiceToken) :=
  if existsb (fun a => String.eqb (sa_id a) id) (account_rows t)
  then Some (sort_by token_order (List.filter (fun k => String.eqb (sk_account k) id) (service_tokens t))) else None.

Inductive ServiceTokenCreation := Created (token_id : string) | Replayed (token_id : string) (expires_at : Z) | MissingAccount | Conflict.

Record NewServiceToken := {
  nt_account : string;
  nt_secret_sha256 : list Z;
  nt_label : string;
  nt_actor_id : string;
  nt_now : Z;
  nt_expires_at : Z;
  nt_key_sha256 : list Z;
  nt_request_sha256 : list Z;
}.

Definition operation (account : string) : string := "service_token.create:" +:+ account.
Definition under_key (r : NewServiceToken) (a : KeptAnswer) : bool :=
  String.eqb (ka_actor a) (nt_actor_id r) && String.eqb (ka_operation a) (operation (nt_account r)) && bool_decide (ka_key a = nt_key_sha256 r).

Definition new_token (r : NewServiceToken) (id : string) : ServiceToken :=
  {| sk_id := id; sk_account := nt_account r; sk_sha256 := nt_secret_sha256 r; sk_label := nt_label r; sk_created_at := nt_now r;
     sk_expires_at := nt_expires_at r; sk_revoked_at := None; sk_created_by := nt_actor_id r |}.
(** The constraints of [console_service_tokens]. *)
Definition token_stored (k : ServiceToken) (t : SvcTables) : bool :=
  (1 <=? char_count (sk_label k)) && (char_count (sk_label k) <=? 128) && db_text (sk_label k) && (sk_created_at k <? sk_expires_at k)
  && (length (sk_sha256 k) =? 32)%nat
  && negb (existsb (fun k' => String.eqb (sk_id k') (sk_id k) || bool_decide (sk_sha256 k' = sk_sha256 k)) (service_tokens t)).

Definition create_service_token (r : NewServiceToken) (t : SvcTables) : option (ServiceTokenCreation * SvcTables) :=
  match find (fun a => under_key r a && (nt_now r <? ka_expires_at a)) (kept t) with
  | Some a =>
      if negb (bool_decide (ka_request a = nt_request_sha256 r)) then Some (Conflict, t)
      else expires_at ← from_rfc3339 (ka_expiry a); Some (Replayed (ka_token_id a) expires_at, t)
  | None =>
      if negb (existsb (fun a => String.eqb (sa_id a) (nt_account r) && sa_enabled a) (account_rows t)) then Some (MissingAccount, t)
      else
        let id := gen (draws (db t)) in
        let k := new_token r id in
        if negb (token_stored k t) || negb (length (nt_key_sha256 r) =? 32)%nat || negb (length (nt_request_sha256 r) =? 32)%nat then None
        else Some (Created id, audit_service (nt_actor_id r) "service_token.created" "service_token" id
               (JObject [("expires_at", JString (rfc3339 (nt_expires_at r))); ("label", JString (nt_label r))])
               (set_kept (fun l => List.filter (fun a => negb (under_key r a && (ka_expires_at a <=? nt_now r))) l
                                   ++ [{| ka_actor := nt_actor_id r; ka_operation := operation (nt_account r); ka_key := nt_key_sha256 r;
                                          ka_request := nt_request_sha256 r; ka_token_id := id; ka_expiry := rfc3339 (nt_expires_at r);
                                          ka_expires_at := nt_now r + 24 * 3600 * 1000000 |}])
                 (set_service_tokens (fun l => l ++ [k]) (on_db drawn t))))
  end.

Definition token_at (account token_id : string) (k : ServiceToken) : bool :=
  String.eqb (sk_account k) account && String.eqb (sk_id k) token_id && negb (is_some (sk_revoked_at k)).
Definition revoke_service_token (account token_id actor_id : string) (now : Z) (t : SvcTables) : bool * SvcTables :=
  if existsb (token_at account token_id) (service_tokens t) then
    (true, audit_service actor_id "service_token.revoked" "service_token" token_id (JObject [])
       (set_service_tokens (map (fun k => if token_at account token_id k then revoked_token now k else k)) t))
  else (false, t).

Record ActiveServiceToken := { at_token_id : string; at_account : string; at_name : string; at_bindings : list string }.
(** Digests are unique, so at most one row answers. *)
Definition active_service_token (token_sha256 : list Z) (now : Z) (t : SvcTables) : option ActiveServiceToken :=
  k ← find (fun k => bool_decide (sk_sha256 k = token_sha256) && token_live now k
                     && existsb (fun a => String.eqb (sa_id a) (sk_account k) && sa_enabled a) (account_rows t)) (service_tokens t);
  a ← find (fun a => String.eqb (sa_id a) (sk_account k)) (account_rows t);
  Some {| at_token_id := sk_id k; at_account := sa_id a; at_name := sa_name a; at_bindings := role_ids_of (db t) (ServiceAccount (sa_id a)) |}.
End store.

(** * Service accounts: the requests (openvibes-console/src/access/service_accounts.rs, service_tokens.rs,
      people_roles.rs, guard.rs, editor.rs)

    A request comes from a person whose session was let in ([SignOps] models that), or with a bearer secret.
    It runs alone; a lost connection answers [unavailable_auth] before anything is written and is left out.
    [pg_uuid] is PostgreSQL's reading of a uuid, [json] the text the digest of a request is taken over. *)

Open Scope Z_scope.

(** ** Answers *)

Record ServiceAccountView := { sv_account : AccountRow; sv_active_tokens : Z; sv_roles : list (string * string) }.

Inductive SvcAnswer :=
  | SvcDone (status : Z)
  | AccountsPage (items : list ServiceAccountView)
  | AccountMade (item : ServiceAccountView)
  | TokensPage (items : list ServiceToken)
  (** The secret is shown once. *)
  | TokenIssued (status : Z) (token_id : string) (secret : option string) (expires_at : Z)
  | SvcProblem (p : ProblemDetails).

Definition svc_refused (status : Z) (code title : string) : SvcAnswer := SvcProblem (problem status code title).
Definition svc_denied : SvcAnswer := svc_refused 403 "permission_denied" "Access is not available".
Definition svc_unavailable : SvcAnswer := svc_refused 503 "authentication_unavailable" "Authentication is temporarily unavailable".
Definition svc_unauthenticated : SvcAnswer := svc_refused 401 "authentication_required" "Authentication required".
Definition invalid_service_account : SvcAnswer := svc_refused 400 "invalid_service_account" "Provide a valid name and 1 to 64 roles".
Definition invalid_service_token : SvcAnswer :=
  svc_refused 400 "invalid_service_token" "Provide a label of at most 128 characters and expiry from 1 to 8760 hours".
(** [Response] of the access requests, which only refuses here. *)
Definition as_refusal (r : Response) : SvcAnswer := match r with Problem p => SvcProblem p | _ => svc_unavailable end.

Record CreateServiceAccountRequest := { cs_name : string; cs_role_ids : list string }.
Record CreateServiceTokenRequest := { cn_label : string; cn_expires_in_hours : Z }.

(** What a request presents, once a session was checked. *)
Inductive Credentials := BySession (user_id : string) | ByBearer (secret : string).

Section handlers.
Context (lower : string -> string) (gen : nat -> string) (collate : string -> string -> comparison)
  (rfc3339 : Z -> string) (from_rfc3339 : string -> option Z) (pg_uuid : string -> option string)
  (cr : Crypto) (json : string -> CreateServiceTokenRequest -> list Z).

Notation list_accounts := (list_service_accounts collate).

(** ** Who is calling *)

(** [authenticated_capabilities]: a bearer secret is only good for reading. *)
Definition authenticated_capabilities (c : Credentials) (csrf_required : bool) (now : Z) (t : SvcTables)
    : SvcAnswer + (list EffectiveCapability * Principal) :=
  match c with
  | BySession user_id => inr (resolve_capabilities (grants (db t) (User user_id)), User user_id)
  | ByBearer secret =>
      if csrf_required then inl svc_denied
      else match active_service_token (session_digest cr secret) now t with
      | None => inl svc_unauthenticated
      | Some token =>
          inr (resolve_capabilities (grants (db t) (ServiceAccount (at_account token))), ServiceAccount (at_account token))
      end
  end.
Definition principal_id (who : Principal) : string := match who with User id | ServiceAccount id => id end.

Definition authenticated_permission (c : Credentials) (p : Permission) (csrf_required : bool) (now : Z) (t : SvcTables)
    : SvcAnswer + (PermissionScope * Principal) :=
  match authenticated_capabilities c csrf_required now t with
  | inl r => inl r
  | inr (capabilities, who) => match scope_of capabilities p with Some s => inr (s, who) | None => inl svc_denied end
  end.

(** [p] everywhere. *)
Definition global_permission (c : Credentials) (p : Permission) (csrf_required : bool) (now : Z) (t : SvcTables) : SvcAnswer + Principal :=
  match authenticated_permission c p csrf_required now t with
  | inl r => inl r
  | inr (Global, who) => inr who
  | inr (AssetGroups _, _) => inl svc_denied
  end.

Definition authenticated_editor (who : Principal) (t : SvcTables) : Editor := editor_of (principal_id who) (grants (db t) who).

Definition account_in_share (who : Principal) (id : string) (t : SvcTables) : SvcAnswer + string :=
  match visible_account lower (authenticated_editor who t) id (db t) with
  | inl r => inl (as_refusal r)
  | inr id => inr id
  end.

(** ** Accounts *)

Definition role_names (role_ids : list string) (d : Db) : list (string * string) :=
  map (fun id => (id, match find (fun r => String.eqb (sr_role_id r) id) (list_roles lower d) with Some r => sr_name r | None => id end)) role_ids.
Definition account_view (i : ServiceAccountInfo) (d : Db) : ServiceAccountView :=
  {| sv_account := si_account i; sv_active_tokens := si_active_tokens i; sv_roles := role_names (si_role_ids i) d |}.

(** [audit::record]: a target by its display text, of no kind. *)
Definition viewed (actor_id action target : string) : SvcTables -> SvcTables := audit_service actor_id action "" target JNull.

Definition service_accounts (c : Credentials) (now : Z) (t : SvcTables) : SvcAnswer * SvcTables :=
  match global_permission c ServiceAccountsRead false now t with
  | inl r => (r, t)
  | inr who =>
      let editor := authenticated_editor who t in
      let shown := List.filter (fun i => roles_fit editor (held lower (db t) (si_role_ids i))) (list_accounts now t) in
      (AccountsPage (map (fun i => account_view i (db t)) shown), viewed (principal_id who) "service_accounts.viewed" "service_accounts" t)
  end.

(** The first role that does not exist or does not fit. *)
Fixpoint account_roles_refused (editor : Editor) (d : Db) (ids : list string) : option ProblemDetails :=
  match ids with
  | [] => None
  | id :: ids =>
      match find (fun r => String.eqb (sr_role_id r) id) (list_roles lower d) with
      | None => Some (problem 400 "unknown_role" "Choose an existing role")
      | Some role => match role_fits editor role with Some p => Some p | None => account_roles_refused editor d ids end
      end
  end.

(** Only a session gets here: [caller] refuses a bearer secret. *)
Definition create_account_request (c : Credentials) (payload : option CreateServiceAccountRequest) (now : Z) (t : SvcTables)
    : SvcAnswer * SvcTables :=
  match c with
  | ByBearer _ => (svc_denied, t)
  | BySession user_id =>
      let editor := caller (db t) user_id in
      match denied editor ServiceAccountsManage with
      | Some p => (SvcProblem p, t)
      | None =>
          match payload with
          | None => (invalid_service_account, t)
          | Some request =>
              let name := trim (cs_name request) in
              let role_ids := bs_of_list str_cmp (cs_role_ids request) in
              if is_empty name || (128 <? char_count name) || existsb is_control (chars name)
                 || (Z.of_nat (length role_ids) =? 0) || (64 <? Z.of_nat (length role_ids))
              then (invalid_service_account, t)
              else match account_roles_refused editor (db t) role_ids with
              | Some p => (SvcProblem p, t)
              | None =>
                  match create_service_account gen name role_ids (actor editor) now t with
                  | None => (svc_unavailable, t)
                  | Some (None, t) => (svc_refused 409 "service_account_conflict" "A service account with this name already exists", t)
                  | Some (Some id, t) =>
                      (AccountMade {| sv_account := new_account id name (actor editor) now; sv_active_tokens := 0;
                                      sv_roles := role_names role_ids (db t) |}, t)
                  end
              end
          end
      end
  end.

Definition disable_account_request (c : Credentials) (id : string) (now : Z) (t : SvcTables) : SvcAnswer * SvcTables :=
  match global_permission c ServiceAccountsManage true now t with
  | inl r => (r, t)
  | inr who =>
      match account_in_share who id t with
      | inl r => (r, t)
      | inr account =>
          match disable_service_account account (principal_id who) now t with
          | (true, t) => (SvcDone 204, t)
          | (false, t) => (svc_refused 404 "service_account_not_found" "Service account not found or already disabled", t)
          end
      end
  end.

(** ** Tokens *)

Definition tokens_request (c : Credentials) (id : string) (now : Z) (t : SvcTables) : SvcAnswer * SvcTables :=
  match global_permission c ServiceAccountsRead false now t with
  | inl r => (r, t)
  | inr who =>
      match account_in_share who id t with
      | inl r => (r, t)
      | inr account =>
          match list_service_tokens account t with
          | None => (svc_refused 404 "service_account_not_found" "Service account not found", t)
          | Some tokens => (TokensPage tokens, viewed (principal_id who) "service_tokens.viewed" account t)
          end
      end
  end.

Definition idempotency_key (h : Headers) : option string :=
  v ← head (get_all h "idempotency-key"); key ← to_str v;
  if (16 <=? str_len key) && (str_len key <=? 128) && forallb (fun b => (33 <=? b) && (b <=? 126)) (bytes key) then Some key else None.

Definition HOUR : Z := 3600 * 1000000.
Definition token_settings_valid (label : string) (hours : Z) : bool :=
  (1 <=? hours) && (hours <=? 8760) && (char_count label <=? 128) && negb (existsb is_control (chars label)).

(** [random] are 32 random bytes, none when there are none to have. *)
Definition issue_token_request (c : Credentials) (id : string) (h : Headers) (payload : option CreateServiceTokenRequest)
    (random : option (list Z)) (now : Z) (t : SvcTables) : SvcAnswer * SvcTables :=
  match global_permission c ServiceAccountsTokens true now t with
  | inl r => (r, t)
  | inr who =>
      match account_in_share who id t with
      | inl r => (r, t)
      | inr account =>
          match payload with
          | None => (invalid_service_token, t)
          | Some request =>
              let label := trim (cn_label request) in
              if negb (token_settings_valid label (cn_expires_in_hours request)) then (invalid_service_token, t)
              else match idempotency_key h with
              | None => (svc_refused 400 "idempotency_key_required"
                           "Provide an Idempotency-Key header between 16 and 128 visible ASCII characters", t)
              | Some key =>
                  match random with
                  | None => (svc_unavailable, t)
                  | Some random =>
                      let token := "ovc_" +:+ base64_encode cr random in
                      let expires_at := now + cn_expires_in_hours request * HOUR in
                      match create_service_token gen rfc3339 from_rfc3339
                              {| nt_account := account; nt_secret_sha256 := session_digest cr token; nt_label := label;
                                 nt_actor_id := principal_id who; nt_now := now; nt_expires_at := expires_at;
                                 nt_key_sha256 := sha256 cr (bytes key);
                                 nt_request_sha256 := sha256 cr (json account {| cn_label := label; cn_expires_in_hours := cn_expires_in_hours request |}) |} t with
                      | None => (svc_unavailable, t)
                      | Some (Created token_id, t) => (TokenIssued 201 token_id (Some token) expires_at, t)
                      | Some (Replayed token_id expires_at, t) => (TokenIssued 200 token_id None expires_at, t)
                      | Some (Conflict, t) =>
                          (svc_refused 409 "idempotency_conflict" "This Idempotency-Key was already used with different token settings", t)
                      | Some (MissingAccount, t) => (svc_refused 404 "service_account_not_found" "Service account not found or disabled", t)
                      end
                  end
              end
          end
      end
  end.

(** A token id that is no uuid fails the statement. *)
Definition revoke_token_request (c : Credentials) (id token_id : string) (now : Z) (t : SvcTables) : SvcAnswer * SvcTables :=
  match global_permission c ServiceAccountsTokens true now t with
  | inl r => (r, t)
  | inr who =>
      match account_in_share who id t with
      | inl r => (r, t)
      | inr account =>
          match pg_uuid token_id with
          | None => (svc_unavailable, t)
          | Some token_id =>
              match revoke_service_token account token_id (principal_id who) now t with
              | (true, t) => (SvcDone 204, t)
              | (false, t) => (svc_refused 404 "service_token_not_found" "Service token not found or already revoked", t)
              end
          end
      end
  end.

(** ** Every request *)

Inductive SvcRequest :=
  | ListAccounts
  | CreateAccount (payload : option CreateServiceAccountRequest)
  | DisableAccount (id : string)
  | ListTokens (id : string)
  | IssueToken (id : string) (h : Headers) (payload : option CreateServiceTokenRequest) (random : option (list Z))
  | RevokeToken (id token_id : string).

Definition svc_handle (c : Credentials) (request : SvcRequest) (now : Z) (t : SvcTables) : SvcAnswer * SvcTables :=
  match request with
  | ListAccounts => service_accounts c now t
  | CreateAccount payload => create_account_request c payload now t
  | DisableAccount id => disable_account_request c id now t
  | ListTokens id => tokens_request c id now t
  | IssueToken id h payload random => issue_token_request c id h payload random now t
  | RevokeToken id token_id => revoke_token_request c id token_id now t
  end.
End handlers.
