(* ===== verification/SvcInv.v ===== *)
(** * Service accounts: what each request keeps

    The invariant of the tables, and that nobody and no account gains by a request. *)
From S2P Require Import Prelude RustStd Text BTree Json AccessData AccessRules AccessDb AccessOps AccessProps SignData SvcOps.
From stdpp Require Import prelude strings list.
From Stdlib Require Import Ascii ZArith Lia.

Open Scope Z_scope.

#[local] Opaque resolve_capabilities.

(** ** The share of whole roles *)

Lemma admin_has_all d who p w : admin (editor_of (principal_id who) (grants d who)) = true -> power d who p w.
Proof.
  simpl. intros (g & Hg & E%String.eqb_eq)%existsb_exists. unfold power. apply resolve_allows. exists g. split; [done|]. by left.
Qed.

Lemma mapM_typed_In l perms role : mapM typed l = Some perms -> In role l -> exists ps, typed role = Some ps /\ In (ps, sr_reach role) (zip perms (map sr_reach l)).
Proof.
  revert perms. induction l as [|r l IH]; intros perms H Hin; [done|]. simpl in H. apply bind_Some in H as (ps & E & H).
  apply bind_Some in H as (qs & E' & [= <-]). destruct Hin as [->|Hin]; [exists ps; split; [done|by left]|].
  destruct (IH qs E' Hin) as (ps' & ? & ?). exists ps'. split; [done|by right].
Qed.
Lemma typed_In role ps p : typed role = Some ps -> In (perm_id p) (sr_permissions role) -> In p ps.
Proof.
  unfold typed. revert ps. induction (sr_permissions role) as [|id l IH]; intros ps H Hin; [done|]. simpl in H.
  apply bind_Some in H as (q & E & H). apply bind_Some in H as (qs & E' & [= <-]).
  destruct Hin as [->|Hin]; [|right; by apply IH]. left. rewrite from_id_perm_id in E. by injection E.
Qed.

Section access.
Context (lower : string -> string) (pg_space : Z -> bool) (gen : nat -> string).

Lemma held_In d ids r : wf d -> In r (roles d) -> In (r_id r) ids -> In (stored d r) (held lower d ids).
Proof.
  intros Hwf Hr Hin. unfold held. apply list_elem_of_In, list_elem_of_omap. exists (r_id r). split; [by apply list_elem_of_In|].
  destruct (find _ _) as [role|] eqn:E.
  - apply list_roles_find in E as (r' & Hr' & E' & ->). f_equal. f_equal. by apply (unique_role d).
  - assert (In (stored d r) (list_roles lower d)) as Hl. { unfold list_roles. apply in_map. by apply (sort_by_In (role_order lower)). }
    eapply find_none in E; [|exact Hl]. simpl in E. by rewrite String.eqb_refl in E.
Qed.

Lemma roles_fit_power d who who' p w : wf d ->
  roles_fit (editor_of (principal_id who) (grants d who)) (held lower d (role_ids_of d who')) = true -> power d who' p w -> power d who p w.
Proof.
  intros Hwf Hf Hp. unfold roles_fit in Hf. destruct (admin _) eqn:Ea; [by apply admin_has_all|].
  destruct (mapM typed _) as [perms|] eqn:Em; [|discriminate Hf]. apply power_iff in Hp as (r & b & Hr & Hb & Hh & Hg).
  assert (In (r_id r) (role_ids_of d who')) as Hid.
  { unfold role_ids_of. apply (sort_by_In str_cmp), in_map_iff. apply holds_binding_iff in Hh as (H1 & H2 & H3). exists b. split; [done|].
    apply filter_In. split; [done|]. by rewrite H1, bool_decide_eq_true_2. }
  destruct (mapM_typed_In _ _ _ Em (held_In d _ r Hwf Hr Hid)) as (ps & Et & Hz).
  unfold all_fit in Hf. rewrite forallb_forall in Hf. specialize (Hf _ Hz). simpl in Hf. destruct (fits _ ps _) eqn:Ef; [discriminate Hf|].
  apply fits_inside in Ef.
  assert (In (perm_id p) (sr_permissions (stored d r)) /\ reach_allows (sr_reach (stored d r)) p w) as [Hp' Hw].
  { destruct Hg as [E|[Hp' Hw]]; [|done]. simpl in *. destruct (wf_admin d Hwf) as (r' & Hr' & E' & Hall & Hps).
    assert (r = r') as -> by (apply (unique_role d); congruence). split; [by apply (bs_of_list_In str_cmp)|].
    unfold role_reach, reach. rewrite Hall. unfold reach_allows. by destruct (pd_scope (def p)). }
  by apply Ef; [eapply typed_In|].
Qed.

(** ** Accounts made *)

Lemma good_accounts a d id : wf d -> good a d (set_accounts (fun l => l ++ [id]) d).
Proof.
  intros [H1 H2 H3 H4 H5]. split; [|split; [intros who p w Hp; left; by apply (power_same d)|done]]. split; try done. intros b Hin Hact.
  destruct (H4 b Hin Hact) as [He Hp]. split; [done|]. destruct (b_principal b); simpl in *; [done|]. apply str_mem_In in Hp.
  apply str_mem_In, in_or_app. by left.
Qed.

Lemma insert_bindings_good a who ids now : forall d d', wf d -> may_give a d ids -> insert_bindings gen who ids a now d = Some d' -> good a d d'.
Proof.
  induction ids as [|id ids IH]; intros d d' Hwf Hg; simpl; [intros [= <-]; by apply good_refl|].
  destruct (negb _ || _ || _) eqn:E; [done|]. rewrite !orb_false_iff, negb_false_iff in E. destruct E as [[E1 E2] E3].
  set (d1 := set_bindings _ (drawn d)). intros H.
  assert (good a d d1) as G1.
  { assert (good a d (bind gen who id a now d).2) as Hb. { apply good_bind; [done|]. intros r p w Hr E Ha. apply (Hg id r); [by left|done..]. }
    unfold bind in Hb. rewrite E1, E2, E3 in Hb. simpl in Hb. eapply good_trans; [exact Hb|]. by apply good_same_users; [apply Hb|..]. }
  eapply good_trans; [exact G1|]. apply IH; [apply G1| |done]. apply (may_give_mono a d); [done| |].
  - intros b Hb. simpl. apply in_or_app. by left.
  - intros id' r p w Hid. apply (Hg id' r p w). by right.
Qed.

Lemma account_roles_give d a ids : wf d -> account_roles_refused lower (caller d a) d ids = None -> may_give a d ids.
Proof.
  intros Hwf. induction ids as [|id ids IH]; simpl; [intros _ ? ? ? ? []|].
  destruct (find _ _) as [role|] eqn:Ef; [|discriminate].
  destruct (role_fits (caller d a) role) eqn:Er; [discriminate|]. intros H id' r p w [<-|Hid]; [|by apply IH].
  apply list_roles_find in Ef as (r' & Hr' & E' & ->). intros Hr E Hg.
  assert (r = r') as -> by (apply (unique_role d); congruence). by eapply role_fits_power.
Qed.

Lemma create_account_good a name ids now t o t' : wf (db t) -> may_give a (db t) ids ->
  create_service_account gen name ids a now t = Some (o, t') -> good a (db t) (db t').
Proof.
  intros Hwf Hg. unfold create_service_account. cbv zeta. destruct (_ || negb _); [intros [= _ <-]; by apply good_refl|].
  destruct (negb _); [done|]. destruct (existsb _ _); [intros [= _ <-]; by apply good_refl|]. destruct (str_mem _ _); [done|].
  intros (d & Hd & [= _ <-])%bind_Some. simpl. apply good_audit.
  assert (good a (db t) (set_accounts (fun l => l ++ [gen (draws (db t))]) (drawn (db t)))) as G.
  { eapply good_trans; [|apply good_accounts; by apply (wf_same (db t))]. by apply good_same_users. }
  eapply good_trans; [exact G|]. eapply insert_bindings_good; [apply G| |exact Hd]. by apply (may_give_mono a (db t)).
Qed.

(** ** The people's requests keep the accounts *)

Lemma bind_accounts who id a now d : accounts (bind gen who id a now d).2 = accounts d.
Proof. unfold bind. by destruct (_ && _). Qed.
Lemma bind_all_accounts who ids a now : forall d, accounts (bind_all gen who ids a now d) = accounts d.
Proof. induction ids as [|id ids IH]; intros d; simpl; [done|]. by rewrite IH, bind_accounts. Qed.
Lemma write_contents_accounts id input action a d w d' : write_contents lower id input action a d = Some (w, d') -> accounts d' = accounts d.
Proof. unfold write_contents. repeat (case_match; try done); by intros [= _ <-]. Qed.
Lemma commit_accounts before w : (forall r d, w = Some (r, d) -> accounts d = accounts before) -> accounts (commit_saved before w).2 = accounts before.
Proof. intros H. destruct w as [[r d]|]; [|done]. specialize (H r d eq_refl). by destruct r. Qed.

Lemma privatise_accounts a role_id now d : accounts (privatise_orphans a role_id now d) = accounts d.
Proof.
  unfold privatise_orphans. cbv zeta. match goal with |- accounts (fold_left _ ?l ?d0) = _ => change (accounts d) with (accounts d0); generalize l, d0 end.
  intros l. induction l as [|id l IH]; intros d0; simpl; [done|]. by rewrite IH.
Qed.

Lemma create_user_accounts n e more a now d d' : create_user pg_space gen n e more a now d = Some d' -> accounts d' = accounts d.
Proof.
  unfold create_user, insert_local_user. destruct (_ || _); [done|]. cbv zeta. destruct e as [e|]; [destruct (email_stored pg_space e); [|done]|];
    intros [= <-]; by rewrite bind_all_accounts.
Qed.

Lemma handle_accounts now a request d : accounts (handle lower pg_space gen now a request d).2 = accounts d.
Proof.
  destruct request; simpl.
  - unfold create_role_request. destruct (denied _ _); [done|]. destruct (checked_new _); [done|]. destruct (within_share _ _ _); [done|].
    unfold create_role. match goal with |- context [commit_saved ?b ?w] => pose proof (commit_accounts b w) as H; destruct (commit_saved b w) as [x y] end.
    simpl in *. apply H. intros r d'. repeat (case_match; try done); intros E; first [by injection E as _ <-|by apply write_contents_accounts in E as ->].
  - unfold update_role_request. destruct (denied _ _); [done|]. destruct (String.eqb _ _); [done|].
    destruct (s_version request); [|done]. destruct (checked_new request); [done|].
    destruct (stored_role_fits _ _ _ _); [done|]. destruct (within_share _ _ _); [done|].
    unfold update_role. destruct (locked _ _); [done|]. destruct (negb _); [done|]. destruct (i32_max <=? _); [done|].
    match goal with |- context [commit_saved ?b ?w] => pose proof (commit_accounts b w) as H; destruct (commit_saved b w) as [x y] end.
    simpl in *. apply H. intros r d' E. by apply write_contents_accounts in E as ->.
  - unfold delete_role_request. destruct (denied _ _); [done|]. destruct (String.eqb _ _); [done|].
    destruct (stored_role_fits _ _ _ _); [done|]. unfold delete_role. destruct (locked _ _) as [[]|]; try done. destruct (read_role _ _); [|done].
    destruct (0 <? _); [done|]. simpl. by rewrite privatise_accounts.
  - unfold change. destruct (denied _ _); [done|]. destruct (holder_principal _ _ _ _ _); [done|].
    destruct (read_role _ _); [|done]. destruct (role_fits _ _); [done|]. destruct give.
    + unfold give_role. pose proof (bind_accounts p role_id (actor (caller d a)) now d) as H. by destruct (bind _ _ _ _ _ _) as [[] db']; [|destruct (existsb _ _)].
    + unfold remove_role. repeat (case_match; simplify_eq/=; try done).
  - unfold create_person. destruct (denied _ _); [done|]. destruct (canonical_username _) as [username|]; [|done].
    destruct (display_name _) as [name|]; [|done]. destruct (match c_email request with None => _ | Some _ => _ end) as [|e]; [done|].
    destruct (bs_of_list _ _) as [|first more]; [done|]. destruct (64 <? _)%nat; [done|]. destruct (roles_refused _ _ _ _); [done|].
    destruct (username_taken _ _); [done|]. destruct (create_user _ _ _ _ _ _ _ _) as [db'|] eqn:Ec; [|done]. simpl. by rewrite (create_user_accounts _ _ _ _ _ _ _ Ec).
  - unfold update_person, set_details. repeat (case_match; simplify_eq/=; try done).
  - unfold disable_person, disable_local_user. repeat (case_match; simplify_eq/=; try done).
  - unfold enable_person, enable_user. repeat (case_match; simplify_eq/=; try done).
  - unfold reset_password_request, reset_password. repeat (case_match; simplify_eq/=; try done).
Qed.
End access.

(** ** Tables of accounts and tokens *)

Definition enabled_in (id : string) (t : SvcTables) : bool := existsb (fun a => String.eqb (sa_id a) id && sa_enabled a) (account_rows t).

Record svc_wf (t : SvcTables) : Prop := {
  sw_db : wf (db t);
  sw_accounts : accounts (db t) = map sa_id (account_rows t);
  sw_rows : NoDup (map sa_id (account_rows t));
  sw_digests : NoDup (map sk_sha256 (service_tokens t));
  sw_refer : forall k, In k (service_tokens t) -> In (sk_account k) (map sa_id (account_rows t));
}.

(** The same token, at another time. *)
Record same_token (k k' : ServiceToken) : Prop := {
  st_id : sk_id k' = sk_id k;
  st_account : sk_account k' = sk_account k;
  st_sha256 : sk_sha256 k' = sk_sha256 k;
  st_expires : sk_expires_at k' = sk_expires_at k;
  st_revoked : is_some (sk_revoked_at k) = true -> is_some (sk_revoked_at k') = true;
}.
#[export] Instance same_token_preorder : PreOrder same_token.
Proof. split; [by split|]. intros k k' k'' [] []. split; try congruence. auto. Qed.

(** Rows stay: tokens may be revoked, accounts disabled. *)
Record kept_rows (t t' : SvcTables) : Prop := {
  kr_tokens : forall k, In k (service_tokens t) -> exists k', In k' (service_tokens t') /\ same_token k k';
  kr_rows : forall id, In id (map sa_id (account_rows t)) -> In id (map sa_id (account_rows t')) /\ (enabled_in id t' = true -> enabled_in id t = true);
}.
#[export] Instance kept_rows_preorder : PreOrder kept_rows.
Proof.
  split.
  - intros t. split; [|done]. intros k Hk. by exists k.
  - intros t u v [H1 H2] [H1' H2']. split.
    + intros k (k' & Hk' & Hs)%H1. destruct (H1' _ Hk') as (k'' & Hk'' & Hs'). exists k''. split; [done|by etrans].
    + intros id Hid. destruct (H2 id Hid) as [Hu He]. destruct (H2' id Hu) as [Hv He']. auto.
Qed.

(** Only the tables of people change. *)
Lemma on_db_wf f t : svc_wf t -> wf (f (db t)) -> accounts (f (db t)) = accounts (db t) -> svc_wf (on_db f t).
Proof. intros [H1 H2 H3 H4 H5] Hf Ha. split; try done. simpl. by rewrite Ha. Qed.
Lemma on_db_kept f t : kept_rows t (on_db f t).
Proof. split; [|done]. intros k Hk. by exists k. Qed.
Lemma audit_wf a x y z d t : svc_wf t -> svc_wf (audit_service a x y z d t).
Proof. intros Hw. apply on_db_wf; [done| |done]. by apply (wf_same (db t)); [apply Hw|..]. Qed.

Lemma mapped_rows (p : AccountRow -> bool) now l : map sa_id (map (fun a => if p a then disabled_row now a else a) l) = map sa_id l.
Proof. rewrite map_map. apply map_ext. intros a. by destruct (p a). Qed.
Lemma mapped_digests (p : ServiceToken -> bool) now l : map sk_sha256 (map (fun k => if p k then revoked_token now k else k) l) = map sk_sha256 l.
Proof. rewrite map_map. apply map_ext. intros k. by destruct (p k). Qed.
Lemma revoked_same now k : same_token k (revoked_token now k).
Proof. by split. Qed.

(** Tokens revoked. *)
Lemma revoked_effect (p : ServiceToken -> bool) now t : svc_wf t ->
  let t' := set_service_tokens (map (fun k => if p k then revoked_token now k else k)) t in
  svc_wf t' /\ kept_rows t t' /\ forall k', In k' (service_tokens t') -> exists k, In k (service_tokens t) /\ same_token k k'.
Proof.
  intros [H1 H2 H3 H4 H5]. split; [|split].
  - split; try done; simpl; [by rewrite mapped_digests|]. intros k' (k & <- & Hk)%in_map_iff. specialize (H5 k Hk). by destruct (p k).
  - split; [|done]. intros k Hk. exists (if p k then revoked_token now k else k). split; [|destruct (p k); [apply revoked_same|done]].
    by apply (in_map (fun k => if p k then revoked_token now k else k)).
  - intros k' (k & <- & Hk)%in_map_iff. exists k. split; [done|]. destruct (p k); [apply revoked_same|done].
Qed.

Definition old_tokens (t t' : SvcTables) : Prop := forall k', In k' (service_tokens t') -> exists k, In k (service_tokens t) /\ same_token k k'.
Lemma same_tokens_old t t' : service_tokens t' = service_tokens t -> old_tokens t t'.
Proof. intros E k'. rewrite E. intros Hk. by exists k'. Qed.

Lemma disable_effect id a now t : svc_wf t ->
  let t' := (disable_service_account id a now t).2 in
  svc_wf t' /\ kept_rows t t' /\ old_tokens t t' /\ (roles (db t') = roles (db t) /\ bindings (db t') = bindings (db t) /\ users (db t') = users (db t)).
Proof.
  intros Hw. unfold disable_service_account. destruct (find _ _) as [row|]; simpl; [|split_and!; try done; by apply same_tokens_old].
  set (t1 := set_account_rows _ t).
  assert (svc_wf t1) as W1.
  { destruct Hw as [H1 H2 H3 H4 H5]. split; simpl; try done; rewrite mapped_rows; done. }
  assert (kept_rows t t1) as K1.
  { split; [intros k Hk; by exists k|]. intros id' Hid. split; [simpl; by rewrite mapped_rows|]. unfold enabled_in. simpl.
    rewrite !existsb_exists. intros (r & (r0 & <- & Hr)%in_map_iff & [E He]%andb_prop). exists r0.
    destruct (String.eqb (sa_id r0) id && sa_enabled r0); [done|]. split; [done|]. by rewrite E, He. }
  destruct (revoked_effect (fun k => String.eqb (sk_account k) id && negb (is_some (sk_revoked_at k))) now t1 W1) as (W2 & K2 & O2).
  split_and!; try done; [by apply audit_wf|etrans; [exact K1|etrans; [exact K2|apply on_db_kept]]].
Qed.

Lemma revoke_effect account id a now t : svc_wf t ->
  let t' := (revoke_service_token account id a now t).2 in
  svc_wf t' /\ kept_rows t t' /\ old_tokens t t' /\ (roles (db t') = roles (db t) /\ bindings (db t') = bindings (db t) /\ users (db t') = users (db t)).
Proof.
  intros Hw. unfold revoke_service_token. destruct (existsb _ _); simpl; [|split_and!; try done; by apply same_tokens_old].
  destruct (revoked_effect (token_at account id) now t Hw) as (W & K & O). split_and!; try done; [by apply audit_wf|].
  etrans; [exact K|apply on_db_kept].
Qed.

Section create.
Context (gen : nat -> string) (rfc3339 : Z -> string) (from_rfc3339 : string -> option Z).

Lemma insert_bindings_accounts who ids a now : forall d d', insert_bindings gen who ids a now d = Some d' -> accounts d' = accounts d.
Proof.
  induction ids as [|id ids IH]; intros d d'; simpl; [by intros [= <-]|]. destruct (_ || _); [done|]. intros H. by rewrite (IH _ _ H).
Qed.

Lemma create_account_effect a name ids now t o t' : svc_wf t -> may_give a (db t) ids ->
  create_service_account gen name ids a now t = Some (o, t') -> svc_wf t' /\ kept_rows t t' /\ old_tokens t t' /\ good a (db t) (db t').
Proof.
  intros Hw Hg H. pose proof (create_account_good gen a name ids now t o t' (sw_db _ Hw) Hg H) as G. split_and!; [| | |exact G].
  all: unfold create_service_account in H; cbv zeta in H; destruct (_ || negb _) in H; [injection H as _ <-; try done; by apply same_tokens_old|].
  all: destruct (negb _) in H; [done|]; destruct (existsb _ (account_rows t)) in H; [injection H as _ <-; try done; by apply same_tokens_old|].
  all: destruct (str_mem _ (accounts (db t))) eqn:Ei in H; [done|]; apply bind_Some in H as (d & Hd & H); injection H as _ <-.
  - destruct Hw as [H1 H2 H3 H4 H5]. split; simpl.
    + apply G.
    + rewrite (insert_bindings_accounts _ _ _ _ _ _ Hd). simpl. by rewrite map_app, H2.
    + rewrite map_app. apply NoDup_snoc; [done|]. simpl. rewrite <- H2, list_elem_of_In. intros Hin%str_mem_In. congruence.
    + done.
    + intros k Hk. rewrite map_app. apply in_or_app. left. by apply H5.
  - split; [intros k Hk; by exists k|]. intros id Hid. simpl. rewrite map_app. split; [apply in_or_app; by left|].
    unfold enabled_in. simpl. rewrite existsb_app. simpl. rewrite orb_false_r. intros [He|[E%String.eqb_eq _]%andb_prop]%orb_prop; [done|].
    exfalso. rewrite <- (sw_accounts _ Hw), <- E in Hid. apply str_mem_In in Hid. simpl in Hid. congruence.
  - by apply same_tokens_old.
Qed.

Lemma create_token_effect r t o t' : svc_wf t -> create_service_token gen rfc3339 from_rfc3339 r t = Some (o, t') ->
  svc_wf t' /\ kept_rows t t' /\ (roles (db t') = roles (db t) /\ bindings (db t') = bindings (db t) /\ users (db t') = users (db t))
  /\ forall k', In k' (service_tokens t') -> (exists k, In k (service_tokens t) /\ same_token k k')
       \/ exists id, o = Created id /\ k' = new_token r id /\ enabled_in (nt_account r) t = true /\ nt_now r < nt_expires_at r.
Proof.
  intros Hw. unfold create_service_token. destruct (find _ (kept t)) as [a|].
  { destruct (negb _); [intros [= _ <-]; split_and!; try done; left; by eapply same_tokens_old|].
    intros (e & _ & [= _ <-])%bind_Some. split_and!; try done. left. by eapply same_tokens_old. }
  destruct (negb (existsb _ _)) eqn:Ee; [intros [= _ <-]; split_and!; try done; left; by eapply same_tokens_old|].
  apply negb_false_iff in Ee. cbv zeta. destruct (_ || _) eqn:Ek; [done|]. intros [= <- <-].
  rewrite !orb_false_iff, !negb_false_iff in Ek. destruct Ek as [[Ek _] _]. unfold token_stored in Ek. rewrite !andb_true_iff, negb_true_iff in Ek.
  destruct Ek as [[[[[_ _] _] Elt%Z.ltb_lt] _] Eu]. simpl in Elt.
  set (k := new_token r (gen (draws (db t)))) in *. split_and!; try done.
  - destruct Hw as [H1 H2 H3 H4 H5]. split; simpl; try done.
    + by apply (wf_same (db t)).
    + rewrite map_app. apply NoDup_snoc; [done|]. simpl. rewrite list_elem_of_In. intros (k' & E & Hk')%in_map_iff.
      apply not_true_iff_false in Eu. apply Eu, existsb_exists. exists k'. split; [done|]. apply orb_true_iff. right. by apply bool_decide_eq_true.
    + intros k' [Hk'|[<-|[]]]%in_app_iff; [by apply H5|]. simpl. apply existsb_exists in Ee as (a & Ha & [E%String.eqb_eq _]%andb_prop).
      apply in_map_iff. by exists a.
  - split; [|done]. intros k' Hk'. exists k'. split; [simpl; apply in_or_app; by left|done].
  - simpl. intros k' [Hk'|[<-|[]]]%in_app_iff; [left; by exists k'|]. right. by eexists.
Qed.
End create.
