(* ===== verification/SvcProps.v ===== *)
(** * Service accounts: what the code promises

    A bearer secret answers for an account only as long as the token someone entitled issued for it is live,
    and what it may do is what the account may do, which nobody raised above the people who made the requests. *)
From S2P Require Import Prelude RustStd Text BTree Json AccessData AccessRules AccessDb AccessOps AccessProps SignData SvcOps SvcInv.
From stdpp Require Import prelude strings list pretty.
From Stdlib Require Import Ascii ZArith Lia.

Open Scope Z_scope.

#[local] Opaque resolve_capabilities.

Section service.
Context (lower : string -> string) (pg_space : Z -> bool) (gen : nat -> string) (collate : string -> string -> comparison)
  (rfc3339 : Z -> string) (from_rfc3339 : string -> option Z) (pg_uuid : string -> option string)
  (cr : Crypto) (json : string -> CreateServiceTokenRequest -> list Z).

Notation svc_handle := (svc_handle lower gen collate rfc3339 from_rfc3339 pg_uuid cr json).
Notation authenticated_capabilities := (authenticated_capabilities cr).
Notation global_permission := (global_permission cr).

(** ** One request *)

(** The token was issued by [a] at [now]: [a] held the permission everywhere and everything the account held then. *)
Record issued_by (a : string) (now : Z) (k : ServiceToken) (t : SvcTables) : Prop := {
  ib_permission : power (db t) (User a) ServiceAccountsTokens None;
  ib_share : forall p w, power (db t) (ServiceAccount (sk_account k)) p w -> power (db t) (User a) p w;
  ib_enabled : enabled_in (sk_account k) t = true;
  ib_times : now < sk_expires_at k <= now + 8760 * HOUR;
  ib_secret : exists random, sk_sha256 k = session_digest cr ("ovc_" +:+ base64_encode cr random);
  ib_live : sk_revoked_at k = None;
}.

Lemma global_session user_id p csrf now t who : global_permission (BySession user_id) p csrf now t = inr who ->
  who = User user_id /\ power (db t) (User user_id) p None.
Proof.
  unfold SvcOps.global_permission, authenticated_permission. simpl. unfold scope_of.
  destruct (find _ _) as [c|] eqn:E; simpl; [|discriminate]. destruct (cap_scope c) eqn:Es; [|discriminate]. intros [= <-]. split; [done|].
  apply find_some in E as [Hc Ep%perm_eqb_eq]. exists c. split; [done|]. split; [done|]. by rewrite Es.
Qed.
Lemma global_bearer secret p now t : global_permission (ByBearer secret) p true now t = inl svc_denied.
Proof. done. Qed.

Lemma visible_account_share editor id d account : visible_account lower editor id d = inr account ->
  In account (accounts d) /\ roles_fit editor (held lower d (role_ids_of d (ServiceAccount account))) = true.
Proof.
  unfold visible_account. destruct (negb _); [discriminate|]. destruct (find _ _) as [a|] eqn:E; [|discriminate].
  destruct (roles_fit _ _) eqn:Ef; [|discriminate]. intros [= <-]. by apply find_some in E as [? _].
Qed.
Lemma account_in_share_inr user_id id t account : wf (db t) -> account_in_share lower (User user_id) id t = inr account ->
  forall p w, power (db t) (ServiceAccount account) p w -> power (db t) (User user_id) p w.
Proof.
  intros Hw. unfold account_in_share. destruct (visible_account _ _ _ _) as [r|x] eqn:E; [discriminate|]. intros [= <-] p w.
  apply visible_account_share in E as [_ Hf]. by apply (roles_fit_power lower (db t) (User user_id)).
Qed.

(** What a request leaves: whose tokens it issued, and powers within its maker's. *)
Record request_effect (c : Credentials) (now : Z) (t t' : SvcTables) : Prop := {
  re_wf : svc_wf t';
  re_kept : kept_rows t t';
  re_tokens : forall k', In k' (service_tokens t') -> (exists k, In k (service_tokens t) /\ same_token k k')
                \/ exists a, c = BySession a /\ issued_by a now k' t;
  re_good : match c with BySession a => good a (db t) (db t') | ByBearer _ => exists row, t' = t \/ t' = on_db (append_audit row) t end;
}.

Lemma effect_none c now t : svc_wf t -> request_effect c now t t.
Proof.
  intros Hw. split; [done|done|left; by exists k'|]. destruct c; [by apply good_refl, Hw|].
  exists {| au_actor := ""; au_action := ""; au_target_kind := ""; au_target_id := ""; au_detail := JNull |}. by left.
Qed.
Lemma effect_viewed c now actor action target t : svc_wf t -> request_effect c now t (viewed actor action target t).
Proof.
  intros Hw. split; [by apply audit_wf|apply on_db_kept|left; by exists k'|]. destruct c; [apply good_audit, good_refl, Hw|].
  eexists. by right.
Qed.
Lemma effect_old a now t t' : svc_wf t -> svc_wf t' -> kept_rows t t' -> old_tokens t t' ->
  roles (db t') = roles (db t) /\ bindings (db t') = bindings (db t) /\ users (db t') = users (db t) ->
  request_effect (BySession a) now t t'.
Proof.
  intros Hw Hw' Hk Ho (E1 & E2 & E3). split; try done; [by intros k' Hk'; left; apply Ho|]. simpl. split; [apply Hw'|]. split.
  - intros who p w Hp. left. by apply (power_same (db t) (db t')).
  - intros (u & Hu & Ha). exists u. rewrite E3. split; [done|]. unfold is_administrator in *. by rewrite E2.
Qed.

Lemma create_request_effect c payload now t : svc_wf t -> request_effect c now t (create_account_request lower gen c payload now t).2.
Proof.
  intros Hw. unfold create_account_request. destruct c as [a|]; [|by apply effect_none]. destruct (denied _ _); [by apply effect_none|].
  destruct payload as [request|]; [|by apply effect_none]. cbv zeta. destruct (_ || _); [by apply effect_none|].
  destruct (account_roles_refused _ _ _ _) eqn:Er; [by apply effect_none|].
  apply account_roles_give in Er; [|by apply Hw]. simpl actor.
  destruct (create_service_account _ _ _ _ _ _) as [[o t']|] eqn:Ec; [|by apply effect_none].
  destruct (create_account_effect gen a _ _ now t o t' Hw Er Ec) as (W & K & O & G).
  assert (request_effect (BySession a) now t t') by (split; try done; intros k' Hk'; left; by apply O).
  by destruct o.
Qed.

Lemma issue_request_effect c id h payload random now t : svc_wf t ->
  request_effect c now t (issue_token_request lower gen rfc3339 from_rfc3339 cr json c id h payload random now t).2.
Proof.
  intros Hw. unfold issue_token_request. destruct c as [a|]; [|by apply effect_none].
  destruct (global_permission _ _ _ _ _) as [r|who] eqn:Eg; [by apply effect_none|]. apply global_session in Eg as [-> Hp].
  destruct (account_in_share _ _ _ _) as [r|account] eqn:Ea; [by apply effect_none|].
  pose proof (account_in_share_inr _ _ _ _ (sw_db _ Hw) Ea) as Hs.
  destruct payload as [request|]; [|by apply effect_none]. cbv zeta. destruct (negb _) eqn:Ev; [by apply effect_none|].
  destruct (idempotency_key h) as [key|]; [|by apply effect_none]. destruct random as [random|]; [|by apply effect_none].
  destruct (create_service_token _ _ _ _ _) as [[o t']|] eqn:Ec; [|by apply effect_none].
  destruct (create_token_effect gen rfc3339 from_rfc3339 _ t o t' Hw Ec) as (W & K & (E1 & E2 & E3) & O).
  assert (request_effect (BySession a) now t t') as H.
  { split; try done.
    - intros k' [H|(id' & -> & -> & He & Hlt)]%O; [by left|]. right. exists a. split; [done|]. simpl in *. split; try done.
      + simpl. split; [done|]. apply negb_false_iff in Ev. unfold token_settings_valid in Ev. rewrite !andb_true_iff, !Z.leb_le in Ev.
        destruct Ev as [[[_ Hh] _] _]. unfold HOUR. lia.
      + simpl. by exists random.
    - simpl. split; [apply W|]. split.
      + intros who p w Hpw. left. by apply (power_same (db t) (db t')).
      + intros (u & Hu & Ha). exists u. rewrite E3. split; [done|]. unfold is_administrator in *. by rewrite E2. }
  by destruct o.
Qed.

Lemma handle_effect c request now t : svc_wf t -> request_effect c now t (svc_handle c request now t).2.
Proof.
  intros Hw. destruct request as [|payload|id|id|id h payload random|id token_id]; simpl.
  - unfold service_accounts. destruct (global_permission _ _ _ _ _); [by apply effect_none|]. by apply effect_viewed.
  - by apply create_request_effect.
  - unfold disable_account_request. destruct c as [a|]; [|by apply effect_none].
    destruct (global_permission _ _ _ _ _) as [|who] eqn:Eg; [by apply effect_none|]. apply global_session in Eg as [-> _].
    destruct (account_in_share _ _ _ _) as [|account]; [by apply effect_none|]. simpl principal_id.
    destruct (disable_effect account a now t Hw) as (W & K & O & E). destruct (disable_service_account _ _ _ _) as [[] t']; by apply effect_old.
  - unfold tokens_request. destruct (global_permission _ _ _ _ _); [by apply effect_none|]. destruct (account_in_share _ _ _ _); [by apply effect_none|].
    destruct (list_service_tokens _ _); [by apply effect_viewed|by apply effect_none].
  - by apply issue_request_effect.
  - unfold revoke_token_request. destruct c as [a|]; [|by apply effect_none].
    destruct (global_permission _ _ _ _ _) as [|who] eqn:Eg; [by apply effect_none|]. apply global_session in Eg as [-> _].
    destruct (account_in_share _ _ _ _) as [|account]; [by apply effect_none|]. destruct (pg_uuid token_id) as [tid|]; [|by apply effect_none].
    simpl principal_id. destruct (revoke_effect account tid a now t Hw) as (W & K & O & E).
    destruct (revoke_service_token _ _ _ _ _) as [[] t']; by apply effect_old.
Qed.

(** ** Any sequence of requests *)

(** Requests on service accounts and on people and roles, made by a set of people; bearer secrets are anyone's. *)
Inductive svc_step (people : string -> Prop) (t : SvcTables) : SvcTables -> Prop :=
  | step_service now c request : match c with BySession a => people a | ByBearer _ => True end ->
      svc_step people t (svc_handle c request now t).2
  | step_access now a request : people a -> svc_step people t (on_db (fun d => (handle lower pg_space gen now a request d).2) t).

Lemma access_effect now a request t : svc_wf t ->
  request_effect (BySession a) now t (on_db (fun d => (handle lower pg_space gen now a request d).2) t).
Proof.
  intros Hw. pose proof (handle_good lower pg_space gen now a request (db t) (sw_db _ Hw)) as G. split.
  - apply on_db_wf; [done|apply G|apply handle_accounts].
  - apply on_db_kept.
  - intros k' Hk. left. by exists k'.
  - exact G.
Qed.
Lemma step_effect people t t' : svc_wf t -> svc_step people t t' -> exists c now, request_effect c now t t'
  /\ match c with BySession a => people a | ByBearer _ => True end.
Proof.
  intros Hw [now c request Hc|now a request Ha].
  - exists c, now. split; [by apply handle_effect|done].
  - exists (BySession a), now. split; [by apply access_effect|done].
Qed.
Lemma steps_keep people t t' : svc_wf t -> rtc (svc_step people) t t' -> svc_wf t' /\ kept_rows t t'.
Proof.
  intros Hw Hr. induction Hr as [|t u t' H _ IH]; [done|]. destruct (step_effect _ _ _ Hw H) as (c & now & [W K _ _] & _).
  destruct (IH W) as [W' K']. split; [done|by etrans].
Qed.

(** The token a bearer secret answers with. *)
Lemma bearer_token secret now t caps who : svc_wf t -> authenticated_capabilities (ByBearer secret) false now t = inr (caps, who) ->
  exists k, In k (service_tokens t) /\ sk_sha256 k = session_digest cr secret /\ sk_revoked_at k = None /\ now < sk_expires_at k
    /\ enabled_in (sk_account k) t = true /\ who = ServiceAccount (sk_account k) /\ caps = resolve_capabilities (grants (db t) who).
Proof.
  intros Hw. unfold SvcOps.authenticated_capabilities. destruct (active_service_token _ _ _) as [token|] eqn:E; [|discriminate]. intros [= <- <-].
  unfold active_service_token in E. apply bind_Some in E as (k & Hk & E). apply bind_Some in E as (a & Ha & [= <-]).
  apply find_some in Hk as [Hin [[Hd%bool_decide_eq_true Hl]%andb_prop He]%andb_prop]. apply find_some in Ha as [_ Ea%String.eqb_eq]. simpl. rewrite Ea.
  unfold token_live in Hl. apply andb_prop in Hl as [Hl%negb_true_iff Hx%Z.ltb_lt]. exists k. split_and!; try done.
  by destruct (sk_revoked_at k).
Qed.

(** C27: What a bearer secret may do was given. After any sequence of requests on service accounts, people and roles, made by a set of people
    and with any bearer secrets, whatever a bearer secret is allowed to do, its account or one of those people was allowed before. A request
    that changes something is refused to a bearer secret; one that reads adds at most a line to the audit log. *)
Theorem bearer_no_escalation people t t' secret now : svc_wf t -> rtc (svc_step people) t t' ->
  (forall caps who p w, authenticated_capabilities (ByBearer secret) false now t' = inr (caps, who) -> allows caps p w ->
     power (db t) who p w \/ exists a, people a /\ power (db t) (User a) p w)
  /\ (forall request, exists row, (svc_handle (ByBearer secret) request now t').2 = t'
        \/ (svc_handle (ByBearer secret) request now t').2 = on_db (append_audit row) t').
Proof.
  intros Hw Hr. destruct (steps_keep _ _ _ Hw Hr) as [Hw' _]. split.
  - intros caps who p w H Ha. apply bearer_token in H as (k & _ & _ & _ & _ & _ & _ & ->); [|done]. change (power (db t') who p w) in Ha.
    clear Hw'. revert who Ha. induction Hr as [|t u t' Hs _ IH]; intros who Ha; [by left|].
    destruct (step_effect _ _ _ Hw Hs) as (c & now' & [W _ _ G] & Hc). specialize (IH W).
    assert (forall who p w, power (db u) who p w -> power (db t) who p w \/ exists a, people a /\ power (db t) (User a) p w) as Hp.
    { intros x q v Hx. destruct c as [a|]; simpl in G.
      - apply G in Hx as [Hx|Hx]; [by left|right; by exists a].
      - left. destruct G as (row & [->| ->]); [done|]. by apply (power_same (db t)) in Hx. }
    destruct (IH who Ha) as [H|(a & Hpa & H)]; [by apply Hp|]. apply Hp in H as [H|H]; [right; by exists a|by right].
  - intros request. exact (re_good _ _ _ _ (handle_effect (ByBearer secret) request now t' Hw')).
Qed.

(** C28: A bearer secret answers for an account only through a token somebody entitled issued. Starting with no tokens, after any sequence of
    requests: when a bearer secret is accepted, some person issued a token with its digest, by a request at a time when that person held the
    permission to issue tokens everywhere and held everything the account's roles gave; the token was issued for that account, for at most a
    year that is not over, the account is enabled, and the capabilities are those of the account's roles now. *)
Theorem bearer_provenance people t t' secret now caps who : svc_wf t -> service_tokens t = [] -> rtc (svc_step people) t t' ->
  authenticated_capabilities (ByBearer secret) false now t' = inr (caps, who) ->
  exists account, who = ServiceAccount account /\ caps = resolve_capabilities (grants (db t') who) /\ enabled_in account t' = true
    /\ exists t1 t2 a issued k, rtc (svc_step people) t t1 /\ svc_step people t1 t2 /\ rtc (svc_step people) t2 t'
         /\ people a /\ issued_by a issued k t1 /\ In k (service_tokens t2)
         /\ sk_account k = account /\ sk_sha256 k = session_digest cr secret /\ now < sk_expires_at k.
Proof.
  intros Hw Hnil Hr H. destruct (steps_keep _ _ _ Hw Hr) as [Hw' _]. apply bearer_token in H as (k' & Hk' & Hd & _ & Hx & He & -> & ->); [|done].
  exists (sk_account k'). split_and!; try done.
  assert (forall k', In k' (service_tokens t') -> exists t1 t2 a issued k, rtc (svc_step people) t t1 /\ svc_step people t1 t2 /\ rtc (svc_step people) t2 t'
    /\ people a /\ issued_by a issued k t1 /\ In k (service_tokens t2) /\ same_token k k') as Hall.
  { clear -Hw Hnil Hr. revert t' Hr. refine (rtc_ind_r _ t _ _); [intros k'; by rewrite Hnil|]. intros u t' Hs Hr IH k' Hk'.
    destruct (steps_keep _ _ _ Hw Hs) as [Wu _]. destruct (step_effect _ _ _ Wu Hr) as (c & now & [W K T G] & Hc).
    destruct (T k' Hk') as [(k & Hk & Hst)|(a & -> & Hi)].
    - destruct (IH k Hk) as (t1 & t2 & a & i & k0 & R1 & S & R2 & Hp & Hi & Hin & Hst0). exists t1, t2, a, i, k0. split_and!; try done; [by eapply rtc_r|by etrans].
    - exists u, t', a, now, k'. by split_and!. }
  destruct (Hall k' Hk') as (t1 & t2 & a & i & k & R1 & S & R2 & Hp & Hi & Hin & Hst). exists t1, t2, a, i, k. split_and!; try done.
  - by rewrite (st_account _ _ Hst).
  - by rewrite <- (st_sha256 _ _ Hst).
  - by rewrite <- (st_expires _ _ Hst).
Qed.

(** A token revoked, run out or of a disabled account is out for good. When a bearer secret is that of a stored token that was revoked, has
    expired, or belongs to a disabled account, it is refused at that time and, whatever requests follow, at every later one. *)
Theorem token_final people t t' k secret now now' : svc_wf t -> In k (service_tokens t) -> sk_sha256 k = session_digest cr secret ->
  is_some (sk_revoked_at k) = true \/ sk_expires_at k <= now \/ enabled_in (sk_account k) t = false ->
  rtc (svc_step people) t t' -> now <= now' ->
  authenticated_capabilities (ByBearer secret) false now' t' = inl svc_unauthenticated.
Proof.
  intros Hw Hk Hd Hdead Hr Hn. destruct (steps_keep _ _ _ Hw Hr) as [Hw' [K1 K2]].
  destruct (authenticated_capabilities (ByBearer secret) false now' t') as [r|[caps who]] eqn:E.
  { unfold SvcOps.authenticated_capabilities in E. destruct (active_service_token _ _ _); [discriminate|]. by injection E as <-. }
  exfalso. apply bearer_token in E as (k' & Hk' & Hd' & Hrev & Hx & He & _); [|done]. destruct (K1 k Hk) as (k2 & Hk2 & [_ Ea Es Ex Er]).
  assert (k2 = k') as ->. { apply (NoDup_map_inj sk_sha256 _ _ _ (sw_digests _ Hw')); [done|done|congruence]. }
  destruct Hdead as [H|[H|H]].
  - apply Er in H. by rewrite Hrev in H.
  - lia.
  - rewrite Ea in He. apply (K2 _ (sw_refer _ Hw k Hk)) in He. congruence.
Qed.
End service.

(** ** Examples *)

Definition ex_uuids (n : nat) : string := "00000000-0000-4000-8000-0000000000" +:+ String (Ascii.ascii_of_nat (97 + n)) "0".
(** A digest of 32 bytes: the first of the text, filled up. *)
Definition ex_crypto : Crypto :=
  {| sha256 := fun l => take 32 (l ++ repeat 0 32); base64_encode := of_bytes; base64_decode := fun s => Some (take 32 (bytes s));
     nfc := nfc test_crypto; phc_parse := phc_parse test_crypto; argon2_verify := argon2_verify test_crypto |}.
Definition ex_json (account : string) (q : CreateServiceTokenRequest) : list Z := bytes (cn_label q) ++ [cn_expires_in_hours q].
Definition ex_uuid (s : string) : option string := if valid_uuid s then Some (to_ascii_lowercase s) else None.
Definition ex_time (x : Z) : string := pretty x.
Notation ex_svc := (svc_handle to_ascii_lowercase ex_uuids str_cmp ex_time (fun _ => Some 5) ex_uuid ex_crypto ex_json).
Notation ex_bearer secret now t := (authenticated_capabilities ex_crypto (ByBearer secret) false now t).
Definition ex_svc0 : SvcTables := {| db := ex_db; account_rows := []; service_tokens := []; kept := [] |}.
Definition ex_backup : CreateServiceAccountRequest := {| cs_name := " backup "; cs_role_ids := ["r_lead"] |}.
Definition ex_made := ex_svc (BySession ex_root) (CreateAccount (Some ex_backup)) 5 ex_svc0.
Definition ex_svc1 : SvcTables := ex_made.2.
Definition ex_key : Headers := [("idempotency-key", bytes "0123456789abcdef")].
Definition ex_ask : CreateServiceTokenRequest := {| cn_label := "nightly"; cn_expires_in_hours := 24 |}.
Definition ex_account : string := ex_uuids 0.
Definition ex_issue (label : string) (now : Z) (t : SvcTables) : SvcAnswer * SvcTables :=
  ex_svc (BySession ex_root) (IssueToken ex_account ex_key (Some {| cn_label := label; cn_expires_in_hours := 24 |}) (Some (bytes "secret"))) now t.
Definition ex_svc2 : SvcTables := (ex_issue "nightly" 6 ex_svc1).2.
Definition ex_svc3 : SvcTables := (ex_svc (BySession ex_root) (DisableAccount ex_account) 9 ex_svc2).2.
Definition svc_code (r : SvcAnswer) : Z * string :=
  match r with
  | SvcDone s => (s, "") | AccountsPage l => (200, pretty (length l)) | AccountMade _ => (201, "account") | TokensPage l => (200, pretty (length l))
  | TokenIssued s _ secret _ => (s, default "" secret) | SvcProblem p => (pb_status p, pb_code p) end.
Definition bearer_code (r : SvcAnswer + (list EffectiveCapability * Principal)) : Z :=
  match r with inl r => (svc_code r).1 | inr (caps, _) => Z.of_nat (length caps) end.

(** An empty label passes the check of the request and not that of the table, and a token id that is no uuid is not looked for: both are
    answered as if sign-in were down. *)
Example service_run :
  svc_code ex_made.1 = (201, "account")
  /\ svc_code (ex_svc (BySession ex_bob) (CreateAccount (Some ex_backup)) 5 ex_svc0).1 = (403, "permission_denied")
  /\ svc_code (ex_svc (BySession ex_root) (CreateAccount (Some ex_backup)) 5 ex_svc1).1 = (409, "service_account_conflict")
  /\ svc_code (ex_issue "nightly" 6 ex_svc1).1 = (201, "ovc_secret")
  /\ svc_code (ex_issue "nightly" 7 ex_svc2).1 = (200, "") /\ svc_code (ex_issue "weekly" 7 ex_svc2).1 = (409, "idempotency_conflict")
  /\ bearer_code (ex_bearer "ovc_secret" 8 ex_svc2) = 5 /\ bearer_code (ex_bearer "ovc_secret" (6 + 24 * HOUR) ex_svc2) = 401
  /\ bearer_code (ex_bearer "ovc_secret" 8 ex_svc3) = 401 /\ bearer_code (ex_bearer "ovc_other" 8 ex_svc2) = 401
  /\ svc_code (ex_svc (ByBearer "ovc_secret") (CreateAccount (Some ex_backup)) 8 ex_svc2).1 = (403, "permission_denied")
  /\ svc_code (ex_issue "nightly" 8 ex_svc3).1 = (200, "")
  /\ svc_code (ex_issue "" 6 ex_svc1).1 = (503, "authentication_unavailable")
  /\ svc_code (ex_svc (BySession ex_root) (RevokeToken ex_account "no-uuid") 8 ex_svc2).1 = (503, "authentication_unavailable")
  /\ svc_code (ex_svc (BySession ex_root) (RevokeToken ex_account (ex_uuids 5)) 8 ex_svc2).1 = (404, "service_token_not_found").
Proof. vm_compute. auto 20. Qed.

Lemma ex_svc_wf : svc_wf ex_svc0.
Proof. split; [exact ex_wf|done|constructor|constructor|done]. Qed.
Notation ex_svc_step := (svc_step to_ascii_lowercase is_whitespace ex_uuids str_cmp ex_time (fun _ => Some 5) ex_uuid ex_crypto ex_json (fun a => a = ex_root)).
Lemma ex_svc_steps : rtc ex_svc_step ex_svc0 ex_svc2.
Proof.
  apply (rtc_l _ _ ex_svc1).
  - exact (step_service _ _ _ _ _ _ _ _ _ _ _ 5 (BySession ex_root) (CreateAccount (Some ex_backup)) eq_refl).
  - apply rtc_once. exact (step_service _ _ _ _ _ _ _ _ _ _ _ 6 (BySession ex_root)
      (IssueToken ex_account ex_key (Some ex_ask) (Some (bytes "secret"))) eq_refl).
Qed.
Lemma ex_svc_disabled : rtc ex_svc_step ex_svc2 ex_svc3.
Proof. apply rtc_once. exact (step_service _ _ _ _ _ _ _ _ _ _ _ 9 (BySession ex_root) (DisableAccount ex_account) eq_refl). Qed.
Lemma ex_svc_wf3 : svc_wf ex_svc3.
Proof.
  apply (steps_keep to_ascii_lowercase is_whitespace ex_uuids str_cmp ex_time (fun _ => Some 5) ex_uuid ex_crypto ex_json (fun a => a = ex_root) ex_svc0);
    [exact ex_svc_wf|]. etrans; [exact ex_svc_steps|exact ex_svc_disabled].
Qed.

Lemma bearer_no_escalation_witness :
  exists caps who, ex_bearer "ovc_secret" 8 ex_svc2 = inr (caps, who) /\ allows caps HostsRead (Some ex_lab)
    /\ (power ex_db who HostsRead (Some ex_lab) \/ exists a, a = ex_root /\ power ex_db (User a) HostsRead (Some ex_lab)).
Proof.
  destruct (ex_bearer "ovc_secret" 8 ex_svc2) as [r|[caps who]] eqn:E; [vm_compute in E; discriminate E|].
  exists caps, who. split; [reflexivity|].
  assert (allows caps HostsRead (Some ex_lab)) as Ha.
  { vm_compute in E. injection E as <- <-. exists {| cap_permission := HostsRead; cap_scope := AssetGroups [ex_lab] |}.
    split; [vm_compute; tauto|]. split; [reflexivity|]. exists ex_lab. split; [reflexivity|left; reflexivity]. }
  split; [exact Ha|].
  exact (proj1 (bearer_no_escalation to_ascii_lowercase is_whitespace ex_uuids str_cmp ex_time (fun _ => Some 5) ex_uuid ex_crypto ex_json
    (fun a => a = ex_root) ex_svc0 ex_svc2 "ovc_secret" 8 ex_svc_wf ex_svc_steps) caps who HostsRead (Some ex_lab) E Ha).
Defined.

Lemma bearer_provenance_witness :
  exists caps, ex_bearer "ovc_secret" 8 ex_svc2 = inr (caps, ServiceAccount ex_account)
    /\ exists t1 t2 a issued k, ex_svc_step t1 t2 /\ a = ex_root /\ sk_account k = ex_account /\ In k (service_tokens t2) /\ 8 < sk_expires_at k
       /\ issued_by ex_crypto a issued k t1.
Proof.
  destruct (ex_bearer "ovc_secret" 8 ex_svc2) as [r|[caps who]] eqn:E; [vm_compute in E; discriminate E|].
  assert (who = ServiceAccount ex_account) as Hwho by (vm_compute in E; injection E as _ <-; reflexivity).
  exists caps. split; [rewrite Hwho; reflexivity|].
  destruct (bearer_provenance to_ascii_lowercase is_whitespace ex_uuids str_cmp ex_time (fun _ => Some 5) ex_uuid ex_crypto ex_json
    (fun a => a = ex_root) ex_svc0 ex_svc2 "ovc_secret" 8 caps who ex_svc_wf eq_refl ex_svc_steps E)
    as (account & H1 & _ & _ & t1 & t2 & a & issued & k & _ & S & _ & Hp & Hi & Hin & Ha & _ & Hx).
  rewrite Hwho in H1. injection H1 as <-. exists t1, t2, a, issued, k.
  exact (conj S (conj Hp (conj Ha (conj Hin (conj Hx Hi))))).
Defined.

Definition ex_token : ServiceToken := default (new_token {| nt_account := ""; nt_secret_sha256 := []; nt_label := ""; nt_actor_id := ""; nt_now := 0;
  nt_expires_at := 0; nt_key_sha256 := []; nt_request_sha256 := [] |} "") (head (service_tokens ex_svc3)).
Lemma token_final_witness : ex_bearer "ovc_secret" 11 ex_svc3 = inl svc_unauthenticated.
Proof.
  apply (token_final to_ascii_lowercase is_whitespace ex_uuids str_cmp ex_time (fun _ => Some 5) ex_uuid ex_crypto ex_json
    (fun a => a = ex_root) ex_svc3 ex_svc3 ex_token "ovc_secret" 10 11 ex_svc_wf3).
  - vm_compute. left. reflexivity.
  - vm_compute. reflexivity.
  - left. vm_compute. reflexivity.
  - constructor.
  - lia.
Defined.
