(* ===== verification/SetData.v ===== *)
(** * Platform settings: the catalogue and the check of a value (platform-settings/src)

    Every setting with its wording, type, range and default, and whether a new value fits.  An error
    is the words shown next to the field. *)
From S2P Require Import Prelude RustStd Text Json Lines.
From stdpp Require Import prelude strings list pretty.
From Stdlib Require Import Ascii ZArith Lia.

Open Scope Z_scope.

(** ** A setting *)

Inductive Applies := Live | Restart.
#[export] Instance applies_eq_dec : EqDecision Applies.
Proof. solve_decision. Defined.

(** [Text] of the source. *)
Inductive TextShape := HttpsUrl | HttpsUrlOrEmpty | ProxyOrEmpty | Arch | HttpUrlOrEmpty | Plain | CertificatesOrEmpty.

Inductive Kind :=
  | KBool (default : bool)
  | KInt (min max default : Z)
  | KText (check : TextShape) (default : string)
  | KChoice (options : list string) (default : string)
  | KSecret.

(** [Definition] of the source. *)
Record SettingDefinition := {
  sd_key : string;
  sd_section : string;
  sd_label : string;
  sd_help : string;
  sd_kind : Kind;
  sd_applies : Applies;
}.
Definition setting (key section label help : string) (kind : Kind) (applies : Applies) : SettingDefinition :=
  {| sd_key := key; sd_section := section; sd_label := label; sd_help := help; sd_kind := kind; sd_applies := applies |}.

Definition MAX_TEXT : Z := 2048.
Definition MAX_SECRET : Z := 512.

(** [Value::from(i64)]. *)
Definition json_int (n : Z) : value := if n <? 0 then JNegInt n else JPosInt n.
Definition default_value (d : SettingDefinition) : value :=
  match sd_kind d with
  | KBool b => JBool b
  | KInt _ _ n => json_int n
  | KText _ s | KChoice _ s => JString s
  | KSecret => JNull
  end.
Definition options (d : SettingDefinition) : option (list string) := match sd_kind d with KChoice o _ => Some o | _ => None end.
Definition is_secret (d : SettingDefinition) : bool := match sd_kind d with KSecret => true | _ => false end.
Definition kind_name (d : SettingDefinition) : string :=
  match sd_kind d with KBool _ => "bool" | KInt _ _ _ => "int" | KText _ _ => "text" | KChoice _ _ => "choice" | KSecret => "secret" end.

(** ** The check of a text *)

Definition BEGIN_CERTIFICATE : string := "-----BEGIN CERTIFICATE-----".
Definition END_CERTIFICATE : string := "-----END CERTIFICATE-----".
Definition MAX_CERTIFICATES : Z := 3.
Definition MAX_CERTIFICATES_TEXT : Z := 16 * 1024.

Definition wrong_certificates : string :=
  "Paste up to " +:+ pretty MAX_CERTIFICATES +:+ " certificates in PEM form (-----BEGIN CERTIFICATE-----)".
Definition base64_byte (b : Z) : bool := is_ascii_alphanumeric b || (b =? 43) || (b =? 47) || (b =? 61).

(** The loop over the lines: whether a block is open, and the blocks begun; [None] is a line out of place. *)
Fixpoint certificate_lines (inside : bool) (blocks : Z) (l : list string) : option (bool * Z) :=
  match l with
  | [] => Some (inside, blocks)
  | line :: l =>
      if negb inside && String.eqb line BEGIN_CERTIFICATE then certificate_lines true (blocks + 1) l
      else if inside && String.eqb line END_CERTIFICATE then certificate_lines false blocks l
      else if inside && forallb base64_byte (bytes line) then certificate_lines inside blocks l
      else None
  end.
Definition check_certificates (text : string) : string + unit :=
  if MAX_CERTIFICATES_TEXT <? str_len text then inl wrong_certificates
  else match certificate_lines false 0 (List.filter (fun line => negb (is_empty line)) (map trim (lines text))) with
       | Some (inside, blocks) => if inside || (MAX_CERTIFICATES <? blocks) then inl wrong_certificates else inr tt
       | None => inl wrong_certificates
       end.

(** [text.split_once("://")], then what comes before the first of [/ ? #]. *)
Fixpoint before_any (stops : list Z) (l : list Z) : list Z :=
  match l with [] => [] | b :: l => if existsb (Z.eqb b) stops then [] else b :: before_any stops l end.
Definition has_userinfo (text : string) : bool :=
  match find_str "://" text with
  | Some (_, from) => existsb (Z.eqb 64) (before_any [47; 63; 35] (bytes (str_from 3 from)))
  | None => false
  end.
Definition is_https (text : string) : bool :=
  match str_strip_prefix "https://" text with Some rest => negb (is_empty rest) | None => false end.
Definition is_loopback_http (text : string) : bool :=
  existsb (fun prefix => match str_strip_prefix prefix text with
                         | Some rest => is_empty rest || RustStd.starts_with rest ":" || RustStd.starts_with rest "/"
                         | None => false end)
    ["http://127.0.0.1"; "http://localhost"; "http://[::1]"].
Definition is_web (text : string) : bool := RustStd.starts_with text "http://" || RustStd.starts_with text "https://".

Definition check_text (shape : TextShape) (text : string) : string + unit :=
  match shape with
  | CertificatesOrEmpty => check_certificates text
  | _ =>
      if (MAX_TEXT <? str_len text) || existsb (fun c => is_control c || (c =? 32)) (chars text) then inl "Use one line without spaces"
      else if has_userinfo text then inl "Leave out the user name and password"
      else match shape with
           | HttpsUrl | HttpsUrlOrEmpty =>
               if match shape with HttpsUrl => is_empty text | _ => false end then inl "This cannot be empty"
               else if is_empty text || is_https text || is_loopback_http text then inr tt
               else inl "Use an address that starts with https://, or leave it empty to turn it off"
           | ProxyOrEmpty =>
               if is_empty text || is_web text then inr tt else inl "Use an address like http://proxy.example:3128, or leave it empty"
           | HttpUrlOrEmpty =>
               if is_empty text || is_web text then inr tt else inl "Use an address like https://llm.example:8443/v1, or leave it empty"
           | Plain | CertificatesOrEmpty => inr tt
           | Arch =>
               if negb (is_empty text) && forallb (fun b => is_ascii_alphanumeric b || (b =? 95)) (bytes text) then inr tt
               else inl "Use an architecture name like x86_64"
           end
  end.

(** [u8::is_ascii_graphic]. *)
Definition is_ascii_graphic (b : Z) : bool := (33 <=? b) && (b <=? 126).

(** [Definition::check]. *)
Definition check (d : SettingDefinition) (v : value) : string + unit :=
  match sd_kind d with
  | KBool _ => match v with JBool _ => inr tt | _ => inl "Use true or false" end
  | KInt min max _ =>
      match as_i64 v with
      | Some n => if (min <=? n) && (n <=? max) then inr tt else inl ("Use a whole number from " +:+ pretty min +:+ " to " +:+ pretty max)
      | None => inl ("Use a whole number from " +:+ pretty min +:+ " to " +:+ pretty max)
      end
  | KText shape _ => match as_str v with Some text => check_text shape text | None => inl "Use text" end
  | KChoice options _ =>
      match as_str v with
      | Some text => if existsb (String.eqb text) options then inr tt else inl ("Use one of: " +:+ Text.join ", " options)
      | None => inl ("Use one of: " +:+ Text.join ", " options)
      end
  | KSecret =>
      match as_str v with
      | Some text =>
          if is_empty text then inl "Type the value, or remove it"
          else if (MAX_SECRET <? str_len text) || negb (forallb is_ascii_graphic (bytes text))
          then inl "Use letters, digits and symbols without spaces, at most 512 characters"
          else inr tt
      | None => inl "Use text"
      end
  end.

(** ** The catalogue *)

Definition GENERAL_DEFINITIONS : list SettingDefinition := [
  setting "suppressions.require_approval" "Alarm suppressions" "Suppressions need approval"
    "A new suppression waits until someone else who can approve on those hosts accepts it. Matching alarms keep arriving while it waits."
    (KBool false) Live].

Definition sso_ENABLED : string := "sso.enabled".
Definition sso_IDP_ENTITY_ID : string := "sso.idp_entity_id".
Definition sso_IDP_SSO_URL : string := "sso.idp_sso_url".
Definition sso_IDP_CERTIFICATES : string := "sso.idp_certificates".
Definition sso_GROUP_ATTRIBUTE : string := "sso.group_attribute".
Definition sso_NAME_ATTRIBUTE : string := "sso.name_attribute".
Definition sso_EMAIL_ATTRIBUTE : string := "sso.email_attribute".
Definition sso_REMOVE_INACTIVE_DAYS : string := "sso.remove_inactive_days".
Definition sso_SECTION : string := "Single sign-on".
Definition SSO_DEFINITIONS : list SettingDefinition := [
  setting sso_ENABLED sso_SECTION "Single sign-on"
    "Needs the entity ID, sign-in address and a current certificate below. The login page then offers single sign-on. The local admin always signs in with a password."
    (KBool false) Live;
  setting sso_IDP_ENTITY_ID sso_SECTION "Identity provider entity ID"
    "The identity provider's name for itself, from its metadata (Issuer)."
    (KText Plain "") Live;
  setting sso_IDP_SSO_URL sso_SECTION "Sign-in address"
    "The identity provider's single sign-on address (https; plain http only for this machine, for testing)."
    (KText HttpsUrlOrEmpty "") Live;
  setting sso_IDP_CERTIFICATES sso_SECTION "Identity provider signing certificates"
    "Public certificate(s) in PEM form that sign its responses. Add the new one before the old one expires (up to three)."
    (KText CertificatesOrEmpty "") Live;
  setting sso_GROUP_ATTRIBUTE sso_SECTION "Group attribute name"
    "The attribute that lists a person's groups. A group named like a role gives that role."
    (KText Plain "groups") Live;
  setting sso_NAME_ATTRIBUTE sso_SECTION "Name attribute name"
    "The attribute that holds the person's display name."
    (KText Plain "displayName") Live;
  setting sso_EMAIL_ATTRIBUTE sso_SECTION "Email attribute name"
    "The attribute that holds the person's email address."
    (KText Plain "email") Live;
  setting sso_REMOVE_INACTIVE_DAYS sso_SECTION "Remove inactive single sign-on users"
    "Days without a sign-in before a single sign-on user is removed. Takes effect once single sign-on is set up."
    (KInt 1 3650 90) Live].

Definition ingest_PREFIX : string := "ingest.".
Definition ingest_CLIENT_CERTIFICATE_DAYS : string := "ingest.client_certificate_days".
Definition ingest_MAX_IN_FLIGHT : string := "ingest.max_in_flight".
Definition ingest_INVENTORY_REQUEST_TIMEOUT_SECONDS : string := "ingest.inventory_request_timeout_seconds".
Definition ingest_MAX_INVENTORY_IN_FLIGHT : string := "ingest.max_inventory_in_flight".
Definition ingest_FINDING_RETENTION_DAYS : string := "ingest.finding_retention_days".
Definition ingest_REQUEST_TIMEOUT_SECONDS : string := "ingest.request_timeout_seconds".
Definition ingest_MAX_CONNECTIONS : string := "ingest.max_connections".
Definition ingest_SECTION : string := "Agent connections".
Definition INGEST_DEFINITIONS : list SettingDefinition := [
  setting ingest_CLIENT_CERTIFICATE_DAYS ingest_SECTION "Agent certificate lifetime (days)"
    "How long an agent certificate is valid before it renews itself."
    (KInt 1 365 30) Restart;
  setting ingest_MAX_IN_FLIGHT ingest_SECTION "Requests served at once"
    "Above this, an agent gets 503 and retries."
    (KInt 1 100000 4096) Restart;
  setting ingest_INVENTORY_REQUEST_TIMEOUT_SECONDS ingest_SECTION "Inventory upload deadline (seconds)"
    "The whole upload of one host's package list. The default carries 8 MiB at 500 kbit/s."
    (KInt 1 900 180) Restart;
  setting ingest_MAX_INVENTORY_IN_FLIGHT ingest_SECTION "Inventory uploads at once"
    "Each upload can be up to 8 MiB, so this bounds the memory they use."
    (KInt 1 128 4) Restart;
  setting ingest_FINDING_RETENTION_DAYS ingest_SECTION "Keep findings (days)"
    "Findings older than this are not stored. Keep it equal to the maintenance timer's --retention-days."
    (KInt 1 36500 90) Restart;
  setting ingest_REQUEST_TIMEOUT_SECONDS ingest_SECTION "Request deadline (seconds)"
    "The TLS handshake, the headers and each request."
    (KInt 1 300 10) Restart;
  setting ingest_MAX_CONNECTIONS ingest_SECTION "Open agent connections"
    "Further connections wait. Keep it below the service's file limit."
    (KInt 1 65536 1024) Restart].

Definition distribution_PREFIX : string := "distribution.".
Definition distribution_MAX_IN_FLIGHT : string := "distribution.max_in_flight".
Definition distribution_REQUEST_TIMEOUT_SECONDS : string := "distribution.request_timeout_seconds".
Definition distribution_MAX_CONNECTIONS : string := "distribution.max_connections".
Definition distribution_SECTION : string := "Rule distribution".
Definition DISTRIBUTION_DEFINITIONS : list SettingDefinition := [
  setting distribution_MAX_IN_FLIGHT distribution_SECTION "Requests served at once"
    "Above this, an agent gets 503 and retries."
    (KInt 1 100000 4096) Restart;
  setting distribution_REQUEST_TIMEOUT_SECONDS distribution_SECTION "Request deadline (seconds)"
    "The TLS handshake, the headers and each request."
    (KInt 1 300 10) Restart;
  setting distribution_MAX_CONNECTIONS distribution_SECTION "Open agent connections"
    "Further connections wait. Keep it below the service's file limit."
    (KInt 1 65536 1024) Restart].

Definition vulns_PREFIX : string := "vulns.".
Definition vulns_CHECK_INTERVAL_MINUTES : string := "vulns.check_interval_minutes".
Definition vulns_METALINK_URL : string := "vulns.metalink_url".
Definition vulns_ARCH : string := "vulns.arch".
Definition vulns_PROXY_URL : string := "vulns.proxy_url".
Definition vulns_MAX_DOWNLOAD_MIB : string := "vulns.max_download_mib".
Definition vulns_KEV_URL : string := "vulns.kev_url".
Definition vulns_EPSS_URL : string := "vulns.epss_url".
Definition vulns_NVD_URL : string := "vulns.nvd_url".
Definition vulns_EUVD_URL : string := "vulns.euvd_url".
Definition vulns_OSV_URL : string := "vulns.osv_url".
Definition vulns_OSV_MAX_DOWNLOAD_MIB : string := "vulns.osv_max_download_mib".
Definition vulns_NVD_API_KEY : string := "vulns.nvd_api_key".
Definition vulns_SECTION : string := "Vulnerability feeds".
Definition VULNS_DEFINITIONS : list SettingDefinition := [
  setting vulns_CHECK_INTERVAL_MINUTES vulns_SECTION "Check for new advisories every"
    "Minutes between feed checks, 15 to 1440. A check downloads only what changed."
    (KInt 15 1440 60) Live;
  setting vulns_METALINK_URL vulns_SECTION "Fedora mirror list"
    "Where Fedora's advisories come from. {release} and {arch} are filled in."
    (KText HttpsUrl "https://mirrors.fedoraproject.org/metalink?repo=updates-released-f{release}&arch={arch}") Live;
  setting vulns_ARCH vulns_SECTION "Repository architecture"
    "The advisory feed for this architecture is read; it covers every architecture."
    (KText Arch "x86_64") Live;
  setting vulns_PROXY_URL vulns_SECTION "Outbound proxy"
    "Every feed download goes through this proxy, e.g. http://proxy.example:3128. Empty means none."
    (KText ProxyOrEmpty "") Live;
  setting vulns_MAX_DOWNLOAD_MIB vulns_SECTION "Largest feed download (MiB)"
    "A compressed feed bigger than this is refused."
    (KInt 1 1024 64) Live;
  setting vulns_KEV_URL vulns_SECTION "CISA known exploited list"
    "Marks CVEs that attackers are using."
    (KText HttpsUrlOrEmpty "https://www.cisa.gov/sites/default/files/feeds/known_exploited_vulnerabilities.json") Live;
  setting vulns_EPSS_URL vulns_SECTION "EPSS scores"
    "FIRST's likelihood that a CVE is exploited."
    (KText HttpsUrlOrEmpty "https://epss.empiricalsecurity.com/epss_scores-current.csv.gz") Live;
  setting vulns_NVD_URL vulns_SECTION "NVD CVE API"
    "Scores and affected products for CVEs."
    (KText HttpsUrlOrEmpty "https://services.nvd.nist.gov/rest/json/cves/2.0") Live;
  setting vulns_NVD_API_KEY vulns_SECTION "NVD API key"
    "Raises the NVD rate limit tenfold. Stored apart; it is never shown again."
    (KSecret) Live;
  setting vulns_EUVD_URL vulns_SECTION "ENISA EUVD"
    "The European vulnerability database."
    (KText HttpsUrlOrEmpty "https://euvdservices.enisa.europa.eu/api/search") Live;
  setting vulns_OSV_URL vulns_SECTION "OSV.dev"
    "Advisories for Debian, Ubuntu, Rocky Linux and AlmaLinux."
    (KText HttpsUrlOrEmpty "https://osv-vulnerabilities.storage.googleapis.com") Live;
  setting vulns_OSV_MAX_DOWNLOAD_MIB vulns_SECTION "Largest OSV download (MiB)"
    "Ubuntu's is about 760 MiB."
    (KInt 1 8192 2048) Live].

Definition assistant_PREFIX : string := "assistant.".
Definition assistant_ENABLED : string := "assistant.enabled".
Definition assistant_PROFILE : string := "assistant.profile".
Definition assistant_LOOKUP_MODE : string := "assistant.lookup_mode".
Definition assistant_CONVERSATION_RETENTION_DAYS : string := "assistant.conversation_retention_days".
Definition assistant_MAX_LOOKUPS : string := "assistant.max_lookups".
Definition assistant_QUESTIONS_PER_USER_PER_HOUR : string := "assistant.questions_per_user_per_hour".
Definition assistant_CONCURRENCY : string := "assistant.concurrency".
Definition assistant_URL : string := "assistant.backend.url".
Definition assistant_MODEL : string := "assistant.backend.model".
Definition assistant_API_KEY : string := "assistant.backend.api_key".
Definition assistant_ALLOW_REMOTE : string := "assistant.backend.allow_remote".
Definition assistant_DATA_LOCATION : string := "assistant.backend.data_location".
Definition assistant_PSEUDONYMIZE : string := "assistant.backend.pseudonymize".
Definition assistant_PROXY_URL : string := "assistant.backend.proxy_url".
Definition assistant_DEADLINE_SECONDS : string := "assistant.backend.deadline_seconds".
Definition assistant_SECTION : string := "Assistant".
Definition ASSISTANT_DEFINITIONS : list SettingDefinition := [
  setting assistant_ENABLED assistant_SECTION "Assistant"
    "Turns the assistant on. It stays off, and nothing connects to a model, until a backend is set."
    (KBool false) Restart;
  setting assistant_URL assistant_SECTION "Backend address"
    "Base address of an OpenAI-compatible API, e.g. http://127.0.0.1:8080/v1. A local backend is on this host."
    (KText HttpUrlOrEmpty "") Restart;
  setting assistant_MODEL assistant_SECTION "Model"
    "The model name sent with each request."
    (KText Plain "") Restart;
  setting assistant_API_KEY assistant_SECTION "Backend API key"
    "Sent to the backend with each request. It is never shown again after you save it."
    (KSecret) Restart;
  setting assistant_PROFILE assistant_SECTION "Hardware profile"
    "How much of each question is sent: small for a CPU and a 2 to 4B model, medium for a GPU or an 8 to 14B model, large for a remote GPU server or a provider."
    (KChoice ["small"; "medium"; "large"] "small") Restart;
  setting assistant_LOOKUP_MODE assistant_SECTION "How the model asks for lookups"
    "Auto lets a capability check at start choose."
    (KChoice ["auto"; "native"; "json_schema"; "prompted"] "auto") Restart;
  setting assistant_CONVERSATION_RETENTION_DAYS assistant_SECTION "Keep conversations (days)"
    "Days a conversation is kept, 1 to 3650."
    (KInt 1 3650 30) Restart;
  setting assistant_MAX_LOOKUPS assistant_SECTION "Lookups per question"
    "How many lookups the assistant may run to answer one question, 1 to 8."
    (KInt 1 8 4) Restart;
  setting assistant_QUESTIONS_PER_USER_PER_HOUR assistant_SECTION "Questions per person per hour"
    "How many questions one person may ask in an hour, 1 to 1000."
    (KInt 1 1000 30) Restart;
  setting assistant_CONCURRENCY assistant_SECTION "Questions answered at once"
    "1 to 64. When nobody set it: 1 for a local backend, 4 for a remote one."
    (KInt 1 64 1) Restart;
  setting assistant_ALLOW_REMOTE assistant_SECTION "Allow a backend off this host"
    "Must be on before prompts are sent to a backend that is not on this host."
    (KBool false) Restart;
  setting assistant_DATA_LOCATION assistant_SECTION "Where a remote backend runs"
    "own-network for a server on your network (needs a CA file in the configuration file), external for a third party. Leave unset for a local backend."
    (KChoice ["unset"; "own-network"; "external"] "unset") Restart;
  setting assistant_PSEUDONYMIZE assistant_SECTION "Replace host names and addresses"
    "Replaces host names, agent IDs and addresses before a prompt is sent. Automatic means on for an external backend, off otherwise."
    (KChoice ["automatic"; "on"; "off"] "automatic") Restart;
  setting assistant_PROXY_URL assistant_SECTION "Outbound proxy"
    "Used for a remote backend only, e.g. http://proxy.example:3128. Empty means none."
    (KText ProxyOrEmpty "") Restart;
  setting assistant_DEADLINE_SECONDS assistant_SECTION "Request deadline (seconds)"
    "How long one request to the backend may take, 2 to 600. When nobody set it: 60 for a local backend, 120 for a remote one."
    (KInt 2 600 60) Restart].

(** Every setting, in display order. *)
Definition all_settings : list SettingDefinition :=
  GENERAL_DEFINITIONS ++ SSO_DEFINITIONS ++ INGEST_DEFINITIONS ++ DISTRIBUTION_DEFINITIONS ++ VULNS_DEFINITIONS ++ ASSISTANT_DEFINITIONS.
Definition find_setting (key : string) : option SettingDefinition := find (fun d => String.eqb (sd_key d) key) all_settings.

(** ** The catalogue is well made *)

(** A secret has no default; every other default fits its own setting. *)
Lemma defaults_fit : forallb (fun d => if is_secret d then true else match check d (default_value d) with inr _ => true | inl _ => false end) all_settings = true.
Proof. vm_compute. done. Qed.
Lemma setting_keys_unique : NoDup (map sd_key all_settings).
Proof. apply (bool_decide_unpack (NoDup (map sd_key all_settings))). vm_compute. done. Qed.
Lemma find_setting_key key d : find_setting key = Some d -> sd_key d = key /\ In d all_settings.
Proof. intros [Hin E%String.eqb_eq]%find_some. done. Qed.

Example check_vectors :
  let c key v := match find_setting key with Some d => match check d v with inr _ => true | inl _ => false end | None => false end in
  c sso_ENABLED (JBool true) = true /\ c sso_ENABLED (JString "on") = false
  /\ c sso_REMOVE_INACTIVE_DAYS (JPosInt 3650) = true /\ c sso_REMOVE_INACTIVE_DAYS (JPosInt 0) = false /\ c sso_REMOVE_INACTIVE_DAYS JFloat = false
  /\ c sso_IDP_SSO_URL (JString "https://user:pw@idp.example/sso") = false /\ c sso_IDP_SSO_URL (JString "http://localhost:8080") = true
  /\ c sso_IDP_SSO_URL (JString "http://localhost.example") = false /\ c vulns_METALINK_URL (JString "") = false
  /\ c sso_IDP_CERTIFICATES (JString ("  -----BEGIN CERTIFICATE-----" +:+ cr_lf +:+ "AAAA" +:+ cr_lf +:+ "-----END CERTIFICATE-----")) = true
  /\ c sso_IDP_CERTIFICATES (JString "hello") = false /\ c sso_IDP_CERTIFICATES (JString BEGIN_CERTIFICATE) = false
  /\ c assistant_PROFILE (JString "large") = true /\ c assistant_PROFILE (JString "huge") = false
  /\ c vulns_NVD_API_KEY (JString "a b") = false /\ c vulns_NVD_API_KEY JNull = false /\ c vulns_ARCH (JString "x86_64") = true.
Proof. vm_compute. auto 20. Qed.
