(* ===== verification/SetDb.v ===== *)
(** * Platform settings: the stored side (platform-store/src/console_settings.rs; migrations 0052, 0070, 0072, 0073)

    The tables of settings, secrets and single sign-on stand beside those of [SignDb]; single sign-on's
    own statements are in SsoDb.  Each function is one statement or one transaction. *)
From S2P Require Import Prelude RustStd Text BTree Json AccessDb SignDb Lines SetData.
From stdpp Require Import prelude strings list.
From Stdlib Require Import Ascii ZArith Lia.

Open Scope Z_scope.

(** ** Tables *)

Record StoredSetting := { ss_key : string; ss_value : value; ss_changed_at : Z; ss_changed_by : string }.
Record SecretRow := { sr_key : string; sr_secret : string; sr_changed_at : Z; sr_changed_by : string }.
(** The rows [settings.changed] of the audit log, with the id and the time [recent] orders by. *)
Record SettingEvent := { sv_id : Z; sv_at : Z; sv_actor : string; sv_key : string; sv_detail : value }.

(** [console_sso_users]; the person's own row has the same [created_at]. *)
Record SsoUser := { su_user : string; su_issuer : string; su_subject : string; su_created_at : Z }.
Record SamlRequest := {
  rq_relay : list Z;
  rq_id : string;
  rq_browser : list Z;
  rq_created_at : Z;
  rq_expires_at : Z;
  rq_consumed_at : option Z;
}.
Record SeenAssertion := { sn_sha256 : list Z; sn_expires_at : Z }.

Record Tables := {
  signs : SignTables;
  settings : list StoredSetting;
  service_secrets : list SecretRow;
  console_secrets : list SecretRow;
  setting_events : list SettingEvent;
  sso_users : list SsoUser;
  saml_requests : list SamlRequest;
  saml_seen : list SeenAssertion;
  (** The ids of the role bindings whose [source] is ['sso']. *)
  sso_bindings : list string;
}.

Definition on_signs (f : SignTables -> SignTables) (t : Tables) : Tables :=
  {| signs := f (signs t); settings := settings t; service_secrets := service_secrets t; console_secrets := console_secrets t;
     setting_events := setting_events t; sso_users := sso_users t; saml_requests := saml_requests t; saml_seen := saml_seen t;
     sso_bindings := sso_bindings t |}.
Definition set_settings (f : list StoredSetting -> list StoredSetting) (t : Tables) : Tables :=
  {| signs := signs t; settings := f (settings t); service_secrets := service_secrets t; console_secrets := console_secrets t;
     setting_events := setting_events t; sso_users := sso_users t; saml_requests := saml_requests t; saml_seen := saml_seen t;
     sso_bindings := sso_bindings t |}.
Definition set_setting_events (f : list SettingEvent -> list SettingEvent) (t : Tables) : Tables :=
  {| signs := signs t; settings := settings t; service_secrets := service_secrets t; console_secrets := console_secrets t;
     setting_events := f (setting_events t); sso_users := sso_users t; saml_requests := saml_requests t; saml_seen := saml_seen t;
     sso_bindings := sso_bindings t |}.
Definition set_secrets (console : bool) (f : list SecretRow -> list SecretRow) (t : Tables) : Tables :=
  {| signs := signs t; settings := settings t;
     service_secrets := if console then service_secrets t else f (service_secrets t);
     console_secrets := if console then f (console_secrets t) else console_secrets t;
     setting_events := setting_events t; sso_users := sso_users t; saml_requests := saml_requests t; saml_seen := saml_seen t;
     sso_bindings := sso_bindings t |}.
Definition set_sso_users (f : list SsoUser -> list SsoUser) (t : Tables) : Tables :=
  {| signs := signs t; settings := settings t; service_secrets := service_secrets t; console_secrets := console_secrets t;
     setting_events := setting_events t; sso_users := f (sso_users t); saml_requests := saml_requests t; saml_seen := saml_seen t;
     sso_bindings := sso_bindings t |}.
Definition set_saml (f : list SamlRequest -> list SamlRequest) (g : list SeenAssertion -> list SeenAssertion) (t : Tables) : Tables :=
  {| signs := signs t; settings := settings t; service_secrets := service_secrets t; console_secrets := console_secrets t;
     setting_events := setting_events t; sso_users := sso_users t; saml_requests := f (saml_requests t); saml_seen := g (saml_seen t);
     sso_bindings := sso_bindings t |}.
Definition set_sso_bindings (f : list string -> list string) (t : Tables) : Tables :=
  {| signs := signs t; settings := settings t; service_secrets := service_secrets t; console_secrets := console_secrets t;
     setting_events := setting_events t; sso_users := sso_users t; saml_requests := saml_requests t; saml_seen := saml_seen t;
     sso_bindings := f (sso_bindings t) |}.

Notation people t := (access (signs t)).
Definition on_people (f : Db -> Db) : Tables -> Tables := on_signs (on_access f).

(** ** Settings *)

Definition setting_order (a b : StoredSetting) : comparison := str_cmp (ss_key a) (ss_key b).
(** [all]: ORDER BY key. *)
Definition all_stored (t : Tables) : list StoredSetting := sort_by setting_order (settings t).
(** [values], asked for a key. *)
Definition stored_value (t : Tables) (key : string) : option value :=
  ss_value <$> find (fun s => String.eqb (ss_key s) key) (all_stored t).
(** [read_with_prefix]: the same, of the keys that start with [prefix]. *)
Definition read_with_prefix (prefix : string) (t : Tables) (key : string) : option value :=
  if RustStd.starts_with key prefix then stored_value t key else None.

(** One [settings.changed] row. *)
Definition setting_changed (key actor : string) (detail : value) (now : Z) (t : Tables) : Tables :=
  set_setting_events (fun l => l ++ [{| sv_id := Z.of_nat (length l) + 1; sv_at := now; sv_actor := actor; sv_key := key; sv_detail := detail |}]) t.
Definition opt_json (o : option value) : value := default JNull o.
Definition audit_setting (key : string) (old : option value) (new : value) (actor : string) (now : Z) : Tables -> Tables :=
  setting_changed key actor (JObject [("key", JString key); ("new", new); ("old", opt_json old)]) now.

Definition signs_in_by_sso (t : Tables) (user_id : string) : bool := existsb (fun s => String.eqb (su_user s) user_id) (sso_users t).
Definition live_sso_session (t : Tables) (s : SessionRow) : bool := negb (is_some (s_revoked_at s)) && signs_in_by_sso t (s_user s).

(** Switching single sign-on off ends its sessions; the count, when this change is that flip. *)
Definition end_sso_sessions (key : string) (old : option value) (new : value) (now : Z) (t : Tables) : option Z * Tables :=
  if negb (String.eqb key sso_ENABLED) || negb (bool_decide (old = Some (JBool true))) || bool_decide (new = JBool true) then (None, t)
  else (Some (Z.of_nat (length (List.filter (live_sso_session t) (sessions (people t))))),
        on_people (set_sessions (map (fun s => if live_sso_session t s then end_session now s else s))) t).

Definition store_row (row : StoredSetting) (l : list StoredSetting) : list StoredSetting :=
  if existsb (fun s => String.eqb (ss_key s) (ss_key row)) l
  then map (fun s => if String.eqb (ss_key s) (ss_key row) then row else s) l
  else l ++ [row].

(** [set]. *)
Definition set_setting (key : string) (v : value) (actor : string) (now : Z) (t : Tables) : option value * Tables :=
  let old := stored_value t key in
  let t := set_settings (store_row {| ss_key := key; ss_value := v; ss_changed_at := now; ss_changed_by := actor |}) t in
  let '(revoked, t) := end_sso_sessions key old v now t in
  let detail := JObject ([("key", JString key); ("new", v); ("old", opt_json old)]
                         ++ match revoked with Some n => [("sso_sessions_revoked", JPosInt n)] | None => [] end) in
  (old, setting_changed key actor detail now t).

(** [reset]. *)
Definition reset_setting (key actor : string) (now : Z) (t : Tables) : option value * Tables :=
  let old := stored_value t key in
  match old with
  | None => (None, t)
  | Some _ =>
      let t := set_settings (List.filter (fun s => negb (String.eqb (ss_key s) key))) t in
      (old, (end_sso_sessions key old JNull now (audit_setting key old JNull actor now t)).2)
  end.

(** Newest first; the limit is held to 1..100. *)
Definition newest_first (a b : SettingEvent) : comparison := Z.compare (sv_at b) (sv_at a) <then> Z.compare (sv_id b) (sv_id a).
Definition recent (limit : Z) (t : Tables) : list SettingEvent :=
  take (Z.to_nat (Z.max 1 (Z.min 100 limit))) (sort_by newest_first (setting_events t)).

(** [as_bool] of a stored value, false when it is none. *)
Definition require_approval (t : Tables) : bool :=
  match stored_value t "suppressions.require_approval" with Some (JBool b) => b | _ => false end.

(** ** Secrets *)

(** [secret_table]: whether it is the console's own. *)
Definition in_console_secrets (key : string) : bool := RustStd.starts_with key "assistant.".
Definition secret_rows (console : bool) (t : Tables) : list SecretRow := if console then console_secrets t else service_secrets t.

Record SecretInfo := { si_key : string; si_changed_at : Z; si_changed_by : string }.
Definition secret_info (r : SecretRow) : SecretInfo := {| si_key := sr_key r; si_changed_at := sr_changed_at r; si_changed_by := sr_changed_by r |}.
Definition secret_order (a b : SecretInfo) : comparison := str_cmp (si_key a) (si_key b).
Definition secrets_set (t : Tables) : list SecretInfo := sort_by secret_order (map secret_info (service_secrets t ++ console_secrets t)).

Definition set_words (b : bool) : value := JString (if b then "set" else "not set").
Definition set_secret (key : string) (secret : option string) (actor : string) (now : Z) (t : Tables) : Tables :=
  let console := in_console_secrets key in
  let was_set := existsb (fun r => String.eqb (sr_key r) key) (secret_rows console t) in
  let row s := {| sr_key := key; sr_secret := s; sr_changed_at := now; sr_changed_by := actor |} in
  let write := match secret with
               | Some s => if was_set then map (fun r => if String.eqb (sr_key r) key then row s else r) else fun l => l ++ [row s]
               | None => List.filter (fun r => negb (String.eqb (sr_key r) key))
               end in
  audit_setting key (Some (set_words was_set)) (set_words (is_some secret)) actor now (set_secrets console write t).

Definition secret (key : string) (t : Tables) : option string :=
  sr_secret <$> find (fun r => String.eqb (sr_key r) key) (secret_rows (in_console_secrets key) t).
