(* ===== verification/SsoDb.v ===== *)
(** * Single sign-on: the stored side (platform-store/src/console_sso.rs; migrations 0017, 0052, 0073)

    Sign-ins waiting for their answer, assertions accepted, and the people who sign in through the
    identity provider, beside the tables of people and sessions.  [None] is a statement the database
    refuses: nothing is kept.  [lower] and [pg_space] are PostgreSQL's [lower] and [\s], [gen] the random
    ids, [owner] the owner of a dashboard. *)
From S2P Require Import Prelude RustStd Text BTree Json AccessData AccessRules AccessDb SignData SignDb Lines SetData SetDb.
From stdpp Require Import prelude strings list.
From Stdlib Require Import Ascii ZArith Lia.

Open Scope Z_scope.

Definition MAX_PENDING : Z := 2000.

Section store.
Context (lower : string -> string) (pg_space : Z -> bool) (gen : nat -> string) (owner : string -> string) (cr : Crypto).

(** [sha]: each part ends with a zero byte. *)
Definition sso_sha (parts : list string) : list Z :=
  sha256 cr (bytes "openvibes-console-sso-v1" ++ [0] ++ flat_map (fun part => bytes part ++ [0]) parts).
Definition hex (l : list Z) : string := of_bytes (hex_of l).

(** ** Requests *)

Record NewRequest := { nr_relay : list Z; nr_id : string; nr_browser : list Z; nr_now : Z; nr_expires_at : Z }.

Definition forget_expired (now : Z) : Tables -> Tables :=
  set_saml (List.filter (fun r => negb (rq_expires_at r <? now))) (List.filter (fun s => negb (sn_expires_at s <? now))).

Definition request_of (n : NewRequest) : SamlRequest :=
  {| rq_relay := nr_relay n; rq_id := nr_id n; rq_browser := nr_browser n; rq_created_at := nr_now n; rq_expires_at := nr_expires_at n;
     rq_consumed_at := None |}.
(** The checks and the key of [console_saml_requests]. *)
Definition request_stored (n : NewRequest) (t : Tables) : bool :=
  (length (nr_relay n) =? 32)%nat && (length (nr_browser n) =? 32)%nat && (8 <=? char_count (nr_id n)) && (char_count (nr_id n) <=? 128)
  && negb (existsb (fun r => digest_eqb (rq_relay r) (nr_relay n)) (saml_requests t)).

(** Each statement stands alone: the expired rows go even when the insert fails. *)
Definition start_request (n : NewRequest) (t : Tables) : option bool * Tables :=
  let t := forget_expired (nr_now n) t in
  if MAX_PENDING <=? Z.of_nat (length (saml_requests t)) then (Some false, t)
  else if request_stored n t then (Some true, set_saml (fun l => l ++ [request_of n]) id t)
  else (None, t).

Definition takeable (relay browser : list Z) (now : Z) (r : SamlRequest) : bool :=
  digest_eqb (rq_relay r) relay && digest_eqb (rq_browser r) browser && negb (is_some (rq_consumed_at r)) && (now <? rq_expires_at r).
Definition consumed_request (now : Z) (r : SamlRequest) : SamlRequest :=
  {| rq_relay := rq_relay r; rq_id := rq_id r; rq_browser := rq_browser r; rq_created_at := rq_created_at r; rq_expires_at := rq_expires_at r;
     rq_consumed_at := Some now |}.
Definition take_request (relay browser : list Z) (now : Z) (t : Tables) : option string * Tables :=
  (rq_id <$> find (takeable relay browser now) (saml_requests t),
   set_saml (map (fun r => if takeable relay browser now r then consumed_request now r else r)) id t).

(** ** Signing in *)

Record SsoPerson := {
  ps_issuer : string;
  ps_subject : string;
  ps_display_name : string;
  ps_email : option string;
  ps_assertion_id : string;
  ps_assertion_expires_at : Z;
  ps_groups : list string;
  ps_now : Z;
}.

Inductive SignIn := Allowed (user_id : string) (auth_generation : Z) (created : bool) | Replay | NoRole | Disabled.

Definition SSO_ACTOR : string := "console-sso".
Definition audit_sso (action kind target_id : string) (detail : value) : Tables -> Tables :=
  on_people (append_audit {| au_actor := SSO_ACTOR; au_action := action; au_target_kind := kind; au_target_id := target_id; au_detail := detail |}).
Definition binding_detail (role_id user_id : string) : value :=
  JObject [("role_id", JString role_id); ("source", JString "sso"); ("user_id", JString user_id)].

(** The email check of [console_users]: [^[^@\s]+@[^@\s]+$], of 254 characters at most. *)
Definition email_stored (email : string) : bool :=
  db_text email && (char_count email <=? 254)
  && match split_once "@" email with
     | Some (local, domain) =>
         negb (is_empty local) && negb (is_empty domain) && negb (has_char "@" domain)
         && forallb (fun c => negb (pg_space c)) (chars local ++ chars domain)
     | None => false
     end.
Definition name_and_email_stored (p : SsoPerson) : bool :=
  db_text (ps_display_name p) && (1 <=? char_count (ps_display_name p)) && (char_count (ps_display_name p) <=? 160)
  && match ps_email p with Some e => email_stored e | None => true end.

(** ORDER BY role_id. *)
Definition wanted_roles (groups : list string) (d : Db) : list string :=
  sort_by str_cmp (map r_id (List.filter (fun r => str_mem (lower (r_name r)) groups) (roles d))).

Definition link_of (issuer subject : string) (s : SsoUser) : bool := String.eqb (su_issuer s) issuer && String.eqb (su_subject s) subject.
Definition linked_user (issuer subject : string) (t : Tables) : option UserRow :=
  s ← find (link_of issuer subject) (sso_users t);
  find (fun u => String.eqb (u_id u) (su_user s)) (users (people t)).

Definition sso_username (issuer subject : string) : string := "sso." +:+ hex (take 8 (sso_sha [issuer; subject])).
Definition new_sso_user (id : string) (p : SsoPerson) : UserRow :=
  {| u_id := id; u_username := sso_username (ps_issuer p) (ps_subject p); u_display_name := ps_display_name p; u_email := ps_email p;
     u_enabled := true; u_auth_source := "sso"; u_password := None; u_must_change := false; u_generation := 0 |}.
Definition create_sso_user (p : SsoPerson) (t : Tables) : option (string * Tables) :=
  let d := people t in
  let id := gen (draws d) in
  let u := new_sso_user id p in
  if existsb (fun u' => String.eqb (u_id u') id || String.eqb (u_username u') (u_username u)) (users d)
     || negb (name_and_email_stored p)
     || negb ((1 <=? char_count (ps_issuer p)) && (char_count (ps_issuer p) <=? 1024)
              && (1 <=? char_count (ps_subject p)) && (char_count (ps_subject p) <=? 512))
     || existsb (fun s => String.eqb (su_user s) id || link_of (ps_issuer p) (ps_subject p) s) (sso_users t)
  then None
  else Some (id, audit_sso "user.created" "user" id (JObject [("source", JString "sso")])
         (set_sso_users (fun l => l ++ [{| su_user := id; su_issuer := ps_issuer p; su_subject := ps_subject p; su_created_at := ps_now p |}])
           (on_people (fun d => set_users (fun l => l ++ [u]) (drawn d)) t))).

Definition with_name (p : SsoPerson) (u : UserRow) : UserRow :=
  {| u_id := u_id u; u_username := u_username u; u_display_name := ps_display_name p; u_email := ps_email p; u_enabled := u_enabled u;
     u_auth_source := u_auth_source u; u_password := u_password u; u_must_change := u_must_change u; u_generation := u_generation u |}.

(** The person's active bindings that came from the identity provider. *)
Definition sso_binding_of (t : Tables) (user_id : string) (b : BindingRow) : bool :=
  active b && bool_decide (b_principal b = User user_id) && str_mem (b_id b) (sso_bindings t).

(** The loop over [current]. *)
Fixpoint revoke_unwanted (user_id : string) (wanted : list string) (now : Z) (current : list (string * string)) (t : Tables) : Tables :=
  match current with
  | [] => t
  | (binding_id, role_id) :: current =>
      revoke_unwanted user_id wanted now current
        (if str_mem role_id wanted then t
         else audit_sso "rbac.binding.revoked" "role_binding" binding_id (binding_detail role_id user_id)
                (on_people (set_bindings (map (revoke binding_id now SSO_ACTOR))) t))
  end.
(** The loop over [wanted]. *)
Fixpoint give_wanted (user_id : string) (wanted : list string) (now : Z) (t : Tables) : option Tables :=
  match wanted with
  | [] => Some t
  | role_id :: wanted =>
      if existsb (holds_binding (User user_id) role_id) (bindings (people t)) then give_wanted user_id wanted now t
      else
        let id := gen (draws (people t)) in
        if str_mem id (map b_id (bindings (people t))) then None
        else give_wanted user_id wanted now
               (audit_sso "rbac.binding.created" "role_binding" id (binding_detail role_id user_id)
                 (set_sso_bindings (fun l => l ++ [id])
                   (on_people (fun d => set_bindings (fun l => l ++ [new_binding id (User user_id) role_id SSO_ACTOR now]) (drawn d)) t)))
  end.
Definition follow_groups (user_id : string) (wanted : list string) (now : Z) (t : Tables) : option Tables :=
  let current := map (fun b => (b_id b, b_role b)) (List.filter (sso_binding_of t user_id) (bindings (people t))) in
  give_wanted user_id wanted now (revoke_unwanted user_id wanted now current t).

Definition holds_any (t : Tables) (user_id : string) : bool :=
  existsb (fun b => active b && bool_decide (b_principal b = User user_id)) (bindings (people t)).

(** The rest of the transaction, for a person found or created. *)
Definition admit_person (p : SsoPerson) (user_id : string) (auth_generation : Z) (created : bool) (t : Tables) : option (SignIn * Tables) :=
  if negb created && negb (name_and_email_stored p) then None
  else
    let t := if created then t else on_people (update_user user_id (with_name p)) t in
    t ← follow_groups user_id (wanted_roles (ps_groups p) (people t)) (ps_now p) t;
    Some (if holds_any t user_id then Allowed user_id auth_generation created else NoRole, t).

Definition remember (p : SsoPerson) : Tables -> Tables :=
  set_saml id (fun l => l ++ [{| sn_sha256 := sso_sha [ps_issuer p; ps_assertion_id p]; sn_expires_at := ps_assertion_expires_at p |}]).
Definition sign_in (p : SsoPerson) (t : Tables) : option (SignIn * Tables) :=
  if existsb (fun s => digest_eqb (sn_sha256 s) (sso_sha [ps_issuer p; ps_assertion_id p])) (saml_seen t) then Some (Replay, t)
  else if negb (forallb db_text (ps_issuer p :: ps_subject p :: ps_groups p)) then None
  else match linked_user (ps_issuer p) (ps_subject p) t with
  | Some u => if u_enabled u then admit_person p (u_id u) (u_generation u) false (remember p t) else Some (Disabled, t)
  | None =>
      match wanted_roles (ps_groups p) (people t) with
      | [] => Some (NoRole, t)
      | _ => '(user_id, t) ← create_sso_user p (remember p t); admit_person p user_id 0 true t
      end
  end.

Definition refuse (reason : string) : Tables -> Tables :=
  audit_sso "auth.saml.refused" "" "" (JObject [("reason_code", JString reason)]).

Definition remember_until (not_on_or_after : Z) : Z := not_on_or_after + hours 1.

(** ** The daily cleanup *)

(** [COALESCE(last_sign_in_at, created_at) < cutoff]. *)
Definition last_seen (s : SsoUser) (t : Tables) : Z :=
  match find (fun e => String.eqb e.1 (su_user s)) (last_sign_in (signs t)) with Some e => e.2 | None => su_created_at s end.
Definition idle (cutoff : Z) (t : Tables) (s : SsoUser) : bool :=
  existsb (fun u => String.eqb (u_id u) (su_user s)) (users (people t)) && (last_seen s t <? cutoff).

(** The row, with what refers to it by [ON DELETE CASCADE]. *)
Definition delete_user (user_id : string) (t : Tables) : Tables :=
  let d := people t in
  let gone := List.filter (fun b => bool_decide (b_principal b = User user_id)) (bindings d) in
  set_sso_bindings (List.filter (fun id => negb (str_mem id (map b_id gone))))
   (set_sso_users (List.filter (fun s => negb (String.eqb (su_user s) user_id)))
    (on_signs (fun s => {| access := access s; preauths := preauths s; throttle := throttle s;
                           last_sign_in := List.filter (fun e => negb (String.eqb e.1 user_id)) (last_sign_in s) |})
     (on_people (fun d =>
        set_users (List.filter (fun u => negb (String.eqb (u_id u) user_id)))
         (set_bindings (List.filter (fun b => negb (bool_decide (b_principal b = User user_id))))
          (set_sessions (List.filter (fun s => negb (String.eqb (s_user s) user_id)))
           (set_dashboards (List.filter (fun b => negb (String.eqb (owner (d_id b)) user_id))) d)))) t))).

Record Cleaned := { cl_expired : Z; cl_removed : Z; cl_access_removed : Z }.

Definition inactive_detail (days : Z) (deleted : bool) : value :=
  JObject [("days", json_int days); ("deleted", JBool deleted); ("reason", JString "inactive")].

Definition revoke_all (user_id : string) (now : Z) (b : BindingRow) : BindingRow :=
  if active b && bool_decide (b_principal b = User user_id)
  then {| b_id := b_id b; b_principal := b_principal b; b_role := b_role b; b_created_at := b_created_at b; b_created_by := b_created_by b;
          b_revoked := Some (now, SSO_ACTOR) |} else b.
(** Every role and session goes; audited when there was one. *)
Definition take_access (user_id : string) (days now : Z) (t : Tables) : bool * Tables :=
  let d := people t in
  let held := holds_any t user_id in
  let live := existsb (fun s => String.eqb (s_user s) user_id && negb (is_some (s_revoked_at s))) (sessions d) in
  let t := on_people (fun d => revoke_if (fun s => String.eqb (s_user s) user_id) now (set_bindings (map (revoke_all user_id now)) d)) t in
  if held || live then (true, audit_sso "user.access_removed" "user" user_id (inactive_detail days false) t) else (false, t).

(** One row of the list: its own transactions. [pointed_at]: cases, alarms or triage refer to the person. *)
Definition clean_one (pointed_at : string -> bool) (cutoff days now : Z) (s : SsoUser) (t : Tables) : Cleaned -> Cleaned * Tables :=
  fun done =>
  if negb (idle cutoff t s) then (done, t)
  else if pointed_at (su_user s) then
    let '(taken, t) := take_access (su_user s) days now t in
    ({| cl_expired := cl_expired done; cl_removed := cl_removed done;
        cl_access_removed := cl_access_removed done + (if taken then 1 else 0) |}, t)
  else ({| cl_expired := cl_expired done; cl_removed := cl_removed done + 1; cl_access_removed := cl_access_removed done |},
        audit_sso "user.removed" "user" (su_user s) (inactive_detail days true) (delete_user (su_user s) t)).

(** ORDER BY user_id LIMIT 500: a uuid's order is the one of its text. *)
Definition user_order (a b : SsoUser) : comparison := str_cmp (su_user a) (su_user b).
Definition idle_page (cutoff : Z) (after : string) (t : Tables) : list SsoUser :=
  take 500 (sort_by user_order (List.filter (fun s => idle cutoff t s && is_gt (str_cmp (su_user s) after)) (sso_users t))).

Fixpoint clean_page (pointed_at : string -> bool) (cutoff days now : Z) (l : list SsoUser) (done : Cleaned) (t : Tables) : Cleaned * Tables :=
  match l with
  | [] => (done, t)
  | s :: l => let '(done, t) := clean_one pointed_at cutoff days now s t done in clean_page pointed_at cutoff days now l done t
  end.
(** [None]: the fuel ran out. *)
Fixpoint clean_loop (fuel : nat) (pointed_at : string -> bool) (cutoff days now : Z) (after : string) (done : Cleaned) (t : Tables)
    : option (Cleaned * Tables) :=
  match fuel with
  | O => None
  | S fuel =>
      match List.last (map Some (idle_page cutoff after t)) None with
      | None => Some (done, t)
      | Some last =>
          let '(done, t) := clean_page pointed_at cutoff days now (idle_page cutoff after t) done t in
          clean_loop fuel pointed_at cutoff days now (su_user last) done t
      end
  end.

Definition days (n : Z) : Z := hours (24 * n).
Definition NIL_UUID : string := "00000000-0000-0000-0000-000000000000".
Definition clean (fuel : nat) (pointed_at : string -> bool) (inactive_days now : Z) (t : Tables) : option (Cleaned * Tables) :=
  let t' := forget_expired now t in
  let expired := (length (saml_requests t) + length (saml_seen t) - length (saml_requests t') - length (saml_seen t'))%nat in
  clean_loop fuel pointed_at (now - days inactive_days) inactive_days now NIL_UUID
    {| cl_expired := Z.of_nat expired; cl_removed := 0; cl_access_removed := 0 |} t'.
End store.
