(* ===== verification/SetOps.v ===== *)
(** * Platform settings: the requests (openvibes-console/src/settings, src/sso/certificates.rs, change.rs;
      openvibes-admin/src/sso.rs; platform-pki/src/ca.rs)

    Reading PEM and X.509 is a library's work: [X509] holds what the code calls of it.  A request comes from
    a person whose session was let in; a lost connection is left out. *)
From S2P Require Import Prelude RustStd Text BTree Json AccessData AccessRules AccessDb AccessOps SignData SignDb Lines SetData SetDb.
From stdpp Require Import prelude strings list pretty.
From Stdlib Require Import Ascii ZArith Lia.

Open Scope Z_scope.

(** ** Certificates *)

Record X509 := {
  (** [parse_x509_pem]: the DER contents. *)
  pem_contents : string -> option (list Z);
  (** [parse_x509_certificate]: the seconds of its validity. *)
  der_validity : list Z -> option (Z * Z);
  (** [DateTime::from_timestamp]. *)
  from_timestamp : Z -> option Z;
}.

Section certificates.
Context (x : X509) (cr : Crypto) (rfc3339 : Z -> string).

Definition begin_end (text : string) : option (option (string * string)) :=
  '(_, from) ← find_str BEGIN_CERTIFICATE text;
  Some ('(before, rest) ← find_str END_CERTIFICATE from; Some (before +:+ END_CERTIFICATE, str_from (String.length END_CERTIFICATE) rest)).

Definition first_certificate (pem : string) : option string :=
  found ← begin_end pem; '(block, _) ← found;
  _ ← pem_contents x block; Some (replace_crlf block +:+ String "010" EmptyString).
Definition not_before (pem : string) : option Z := der ← pem_contents x pem; v ← der_validity x der; from_timestamp x v.1.
Definition not_after (pem : string) : option Z := der ← pem_contents x pem; v ← der_validity x der; from_timestamp x v.2.
Definition sha256_fingerprint (pem : string) : option (list Z) := der ← pem_contents x pem; _ ← der_validity x der; Some (sha256 cr der).

(** The loop over the blocks of a text; pasted lines are trimmed.  [true]: the last one is cut off. *)
Definition bare_lines (block : string) : string := Text.join (String "010" EmptyString) (map trim (lines block)).
Fixpoint cert_blocks (fuel : nat) (rest : string) : list string * bool :=
  match fuel with
  | O => ([], false)
  | S fuel =>
      match begin_end rest with
      | None => ([], false)
      | Some None => ([], true)
      | Some (Some (block, rest)) => let '(l, cut) := cert_blocks fuel rest in (bare_lines block :: l, cut)
      end
  end.
(** A turn takes at least one byte off the text. *)
Definition blocks_of (text : string) : list string * bool := cert_blocks (S (String.length text)) text.

Record IdpCertificateView := { iv_fingerprint : string; iv_not_before : string; iv_not_after : string; iv_expired : bool }.
Definition fingerprint (digest : list Z) : string :=
  Text.join ":" (map (fun b => to_ascii_uppercase (of_bytes (hex_of [b]))) digest).

Definition read_certificate (block : string) : option (list Z * Z * Z) :=
  pem ← first_certificate block; digest ← sha256_fingerprint pem; from ← not_before pem; until ← not_after pem; Some (digest, from, until).
Definition numbered (n : nat) (what : string) : string := "Certificate " +:+ pretty (Z.of_nat n) +:+ what.

Fixpoint read_certificates (now : Z) (strict : bool) (cut : bool) (l : list string) (seen : list (list Z)) (views : list IdpCertificateView)
    : string + list IdpCertificateView :=
  match l with
  | [] => if cut then inl "A certificate is cut off" else inr views
  | block :: l =>
      let number := S (length views) in
      match read_certificate block with
      | None => inl (numbered number " cannot be read")
      | Some (digest, from, until) =>
          if strict && (until <=? now) then inl (numbered number " has expired")
          else if strict && (now + minutes 2 <? from) then inl (numbered number " is not valid yet")
          else if existsb (digest_eqb digest) seen then inl (numbered number " is listed twice")
          else read_certificates now strict cut l (seen ++ [digest])
                 (views ++ [{| iv_fingerprint := fingerprint digest; iv_not_before := rfc3339 from; iv_not_after := rfc3339 until;
                               iv_expired := until <=? now |}])
      end
  end.
Definition summaries (text : string) (now : Z) (strict : bool) : string + list IdpCertificateView :=
  read_certificates now strict (blocks_of text).2 (blocks_of text).1 [] [].

(** The base64 body of a block on one line, when the certificate is valid now. *)
Definition current_body (now : Z) (block : string) : option string :=
  pem ← first_certificate block; from ← not_before pem; until ← not_after pem;
  if (until <=? now) || (now + minutes 2 <? from) then None
  else Some (String.concat EmptyString
               (flat_map split_whitespace (List.filter (fun line => negb (RustStd.starts_with line "-----")) (lines block)))).
Definition current_bodies (text : string) (now : Z) : list string := omap (current_body now) (blocks_of text).1.

(** ** A change to a single sign-on setting *)

Definition NEEDED : list string := [sso_IDP_ENTITY_ID; sso_IDP_SSO_URL; sso_IDP_CERTIFICATES].
Definition has_text (o : option value) : bool := match o ≫= as_str with Some text => negb (is_blank text) | None => false end.

Definition certificate_current (stored : string -> option value) (now : Z) : bool :=
  match stored sso_IDP_CERTIFICATES ≫= as_str with
  | Some pem => match summaries pem now false with inr l => existsb (fun c => negb (iv_expired c)) l | inl _ => false end
  | None => false
  end.

Definition check_change_at (stored : string -> option value) (key : string) (v : value) (now : Z) : string + unit :=
  let needed := existsb (String.eqb key) NEEDED in
  match (if String.eqb key sso_IDP_CERTIFICATES then match as_str v with Some text => summaries text now true | None => inr [] end else inr []) with
  | inl message => inl message
  | inr _ =>
      if String.eqb key sso_ENABLED then
        let ready := forallb (fun name => has_text (stored name)) NEEDED in
        if bool_decide (v = JBool true) && ready && negb (certificate_current stored now)
        then inl "Every stored certificate has expired; add a current one first"
        else if bool_decide (v = JBool true) && negb ready then inl "Set the entity ID, the sign-in address and a certificate first"
        else inr tt
      else if negb needed then inr tt
      else if bool_decide (stored sso_ENABLED = Some (JBool true)) && negb (has_text (Some v))
      then inl "Turn single sign-on off before removing this"
      else inr tt
  end.

(** ** The settings page *)

Record SettingView := {
  vw_key : string;
  vw_section : string;
  vw_label : string;
  vw_help : string;
  vw_kind : string;
  vw_applies : string;
  vw_min : option Z;
  vw_max : option Z;
  vw_options : option (list string);
  vw_default : value;
  vw_value : value;
  vw_is_set : option bool;
  vw_certificates : option (list IdpCertificateView);
  vw_changed_at : option string;
  vw_changed_by : option string;
}.
Record SettingChangeView := { cv_at : string; cv_actor : string; cv_key : string; cv_old : value; cv_new : value }.

Definition view (d : SettingDefinition) (stored : option StoredSetting) (secret : option SecretInfo) (now : Z) : SettingView :=
  let changed := match stored, secret with
                 | Some s, _ => Some (rfc3339 (ss_changed_at s), ss_changed_by s)
                 | None, Some s => Some (rfc3339 (si_changed_at s), si_changed_by s)
                 | None, None => None
                 end in
  {| vw_key := sd_key d; vw_section := sd_section d; vw_label := sd_label d; vw_help := sd_help d; vw_kind := kind_name d;
     vw_applies := match sd_applies d with Live => "live" | Restart => "restart" end;
     vw_min := match sd_kind d with KInt min _ _ => Some min | _ => None end;
     vw_max := match sd_kind d with KInt _ max _ => Some max | _ => None end;
     vw_options := options d; vw_default := default_value d;
     vw_value := match stored with Some s => ss_value s | None => default_value d end;
     vw_is_set := if is_secret d then Some (is_some secret) else None;
     vw_certificates := if String.eqb (sd_key d) sso_IDP_CERTIFICATES
                        then Some (match stored ≫= (fun s => as_str (ss_value s)) with
                                   | Some text => match summaries text now false with inr l => l | inl _ => [] end
                                   | None => []
                                   end) else None;
     vw_changed_at := fst <$> changed; vw_changed_by := snd <$> changed |}.

Inductive SettingAnswer :=
  | SettingsPage (items : list SettingView) (recent : list SettingChangeView)
  | SettingSaved (item : SettingView)
  | SettingProblem (p : ProblemDetails).

Definition invalid_setting (message : string) : SettingAnswer :=
  SettingProblem {| pb_status := 422; pb_code := "invalid_setting"; pb_title := "The setting value is invalid";
                    pb_field := Some ("value", message); pb_permission := None; pb_needs := None; pb_holders := None |}.

Definition change_view (e : SettingEvent) : SettingChangeView :=
  {| cv_at := rfc3339 (sv_at e); cv_actor := sv_actor e;
     cv_key := default EmptyString (get (sv_detail e) "key" ≫= as_str);
     cv_old := opt_json (get (sv_detail e) "old"); cv_new := opt_json (get (sv_detail e) "new") |}.

Definition list_settings (user_id : string) (now : Z) (t : Tables) : SettingAnswer :=
  match denied (caller (people t) user_id) SettingsManage with
  | Some p => SettingProblem p
  | None =>
      SettingsPage
        (map (fun d => view d (find (fun s => String.eqb (ss_key s) (sd_key d)) (all_stored t))
                            (find (fun s => String.eqb (si_key s) (sd_key d)) (secrets_set t)) now) all_settings)
        (map change_view (recent 5 t))
  end.

(** A pasted secret often carries a trailing newline. *)
Definition sent_value (d : SettingDefinition) (v : value) : value :=
  if is_secret d then match as_str v with Some text => JString (trim text) | None => v end else v.

(** A request that changes a setting; [None] is a body that is not a request. Its time is read once, before the
    stored values are. *)
Record SettingRequest := { gr_user : string; gr_key : string; gr_payload : option value; gr_now : Z }.

(** What it does next. *)
Inductive SettingStage :=
  (** Read the stored values ([store::values]) and check the change against them; only for a key of single sign-on. *)
  | SRead (d : SettingDefinition) (v : value)
  (** The one transaction that writes: [set_secret], [reset] or [set]. *)
  | SWrite (d : SettingDefinition) (v : value)
  | SEnd (a : SettingAnswer).

(** Up to the value's own check. *)
Definition setting_start (r : SettingRequest) (t : Tables) : SettingStage :=
  match denied (caller (people t) (gr_user r)) SettingsManage with
  | Some p => SEnd (SettingProblem p)
  | None =>
      match find_setting (gr_key r) with
      | None => SEnd (SettingProblem (problem 404 "setting_not_found" "No such setting"))
      | Some d =>
          match gr_payload r with
          | None => SEnd (invalid_setting "The request body is invalid")
          | Some v =>
              let v := sent_value d v in
              match (if is_null v then inr tt else check d v) with
              | inl message => SEnd (invalid_setting message)
              | inr _ => if RustStd.starts_with (sd_key d) "sso." then SRead d v else SWrite d v
              end
          end
      end
  end.

(** [check_change] reads the clock itself. *)
Definition setting_read (now : Z) (d : SettingDefinition) (v : value) (t : Tables) : SettingStage :=
  match check_change_at (stored_value t) (sd_key d) v now with
  | inl message => SEnd (invalid_setting message)
  | inr _ => SWrite d v
  end.

Definition setting_write (now : Z) (r : SettingRequest) (d : SettingDefinition) (v : value) (t : Tables) : SettingAnswer * Tables :=
  if is_secret d then
    let info := match as_str v with
                | Some _ => Some {| si_key := gr_key r; si_changed_at := gr_now r; si_changed_by := gr_user r |} | None => None end in
    (SettingSaved (view d None info now), set_secret (sd_key d) (as_str v) (gr_user r) (gr_now r) t)
  else if is_null v then (SettingSaved (view d None None now), (reset_setting (sd_key d) (gr_user r) (gr_now r) t).2)
  else (SettingSaved (view d (Some {| ss_key := gr_key r; ss_value := v; ss_changed_at := gr_now r; ss_changed_by := gr_user r |}) None now),
        (set_setting (sd_key d) v (gr_user r) (gr_now r) t).2).

Definition setting_step (now : Z) (r : SettingRequest) (st : SettingStage) (t : Tables) : SettingStage * Tables :=
  match st with
  | SRead d v => (setting_read now d v t, t)
  | SWrite d v => let '(a, t) := setting_write now r d v t in (SEnd a, t)
  | SEnd _ => (st, t)
  end.

(** The request with nothing between its statements: two steps at most. *)
Definition update_setting (user_id key : string) (payload : option value) (now : Z) (t : Tables) : SettingStage * Tables :=
  let r := {| gr_user := user_id; gr_key := key; gr_payload := payload; gr_now := now |} in
  let '(st, t) := setting_step now r (setting_start r t) t in setting_step now r st t.
End certificates.

(** ** The administration command *)

Inductive SsoState := SsoOn | SsoOff | NotSetUp.
(** [state]. *)
Definition sso_state (t : Tables) : SsoState :=
  if bool_decide (stored_value t sso_ENABLED = Some (JBool true)) then SsoOn
  else if forallb (fun key => has_text (stored_value t key)) NEEDED then SsoOff else NotSetUp.
(** The write of [sso off], once the command has read that it is on. *)
Definition off_write (actor : string) (now : Z) (t : Tables) : Tables := (set_setting sso_ENABLED (JBool false) actor now t).2.
Definition sso_off (actor : string) (now : Z) (t : Tables) : string * Tables :=
  match sso_state t with
  | SsoOn => ("off", off_write actor now t)
  | SsoOff => ("already off", t)
  | NotSetUp => ("not set up", t)
  end.
(** [stored_sso_inactive_days]. *)
Definition stored_sso_inactive_days (t : Tables) : Z :=
  match stored_value t sso_REMOVE_INACTIVE_DAYS ≫= as_i64 with
  | Some n => if (1 <=? n) && (n <=? 3650) then n else 90
  | None => 90
  end.
