(* ===== verification/SsoOps.v ===== *)
(** * Single sign-on: the requests (openvibes-console/src/sso/signin.rs, provider.rs, service_provider.rs)

    Checking a SAML response is samael's work: [Saml] holds what the code calls of it.  Receiving a response
    is several statements, and others run in between: [acs_step] is one of them.  [to_lowercase] is Rust's. *)
From S2P Require Import Prelude RustStd Text BTree Json AccessData AccessRules AccessDb AccessOps SignData SignDb Lines SetData SetDb SetOps SsoDb.
From stdpp Require Import prelude strings list.
From Stdlib Require Import Ascii ZArith Lia.

Open Scope Z_scope.

(** ** Our side *)

Record ServiceProviderView := { pv_entity_id : string; pv_acs_url : string; pv_metadata_url : string }.
(** [trim_end_matches('/')]. *)
Definition trim_end_slash (s : string) : string := of_bytes (rev (drop_while (Z.eqb 47) (rev (bytes s)))).
Definition addresses (origin : string) : ServiceProviderView :=
  let origin := trim_end_slash origin in
  {| pv_entity_id := origin +:+ "/auth/saml/metadata"; pv_acs_url := origin +:+ "/auth/saml/acs"; pv_metadata_url := origin +:+ "/auth/saml/metadata" |}.

Definition quote : string := char_str "034".
Definition xml_attribute (text : string) : string :=
  replace_with "034" "&quot;" (replace_with ">" "&gt;" (replace_with "<" "&lt;" (replace_with "&" "&amp;" text))).
Definition attribute_text (name v : string) : string := " " +:+ name +:+ "=" +:+ quote +:+ v +:+ quote.
Definition newline : string := char_str "010".
(** The body of [metadata]. *)
Definition metadata_body (origin : string) : string :=
  let ours := addresses origin in
  "<?xml" +:+ attribute_text "version" "1.0" +:+ attribute_text "encoding" "UTF-8" +:+ "?>" +:+ newline
  +:+ "<md:EntityDescriptor" +:+ attribute_text "xmlns:md" "urn:oasis:names:tc:SAML:2.0:metadata"
  +:+ attribute_text "entityID" (xml_attribute (pv_entity_id ours)) +:+ ">" +:+ newline
  +:+ "  <md:SPSSODescriptor" +:+ attribute_text "AuthnRequestsSigned" "false" +:+ attribute_text "WantAssertionsSigned" "true"
  +:+ attribute_text "protocolSupportEnumeration" "urn:oasis:names:tc:SAML:2.0:protocol" +:+ ">" +:+ newline
  +:+ "    <md:NameIDFormat>urn:oasis:names:tc:SAML:2.0:nameid-format:persistent</md:NameIDFormat>" +:+ newline
  +:+ "    <md:AssertionConsumerService" +:+ attribute_text "Binding" "urn:oasis:names:tc:SAML:2.0:bindings:HTTP-POST"
  +:+ attribute_text "Location" (xml_attribute (pv_acs_url ours)) +:+ attribute_text "index" "0" +:+ attribute_text "isDefault" "true" +:+ "/>" +:+ newline
  +:+ "  </md:SPSSODescriptor>" +:+ newline
  +:+ "</md:EntityDescriptor>" +:+ newline.

Definition origin_unusable : ProblemDetails := problem 503 "public_origin_invalid" "The console's public address is not set up".
Definition metadata (origin_valid : bool) (origin : string) : ProblemDetails + string :=
  if origin_valid then inr (metadata_body origin) else inl origin_unusable.
Definition service_provider (origin_valid : bool) (origin user_id : string) (t : Tables) : ProblemDetails + ServiceProviderView :=
  match denied (caller (people t) user_id) SettingsManage with
  | Some p => inl p
  | None => if origin_valid then inr (addresses origin) else inl origin_unusable
  end.

(** ** What the settings say *)

Record Config := {
  cf_entity_id : string;
  cf_sso_url : string;
  cf_group_attribute : string;
  cf_name_attribute : string;
  cf_email_attribute : string;
  cf_certificates : list string;
}.

Definition text_of (stored : string -> option value) (key : string) : string :=
  trim (default EmptyString
    match stored key ≫= as_str with
    | Some s => Some s
    | None => d ← find_setting key; as_str (default_value d)
    end).
(** [Value::as_bool(..) == Some(true)]. *)
Definition config (x : X509) (stored : string -> option value) (now : Z) : option Config :=
  if negb (bool_decide (stored sso_ENABLED = Some (JBool true))) then None
  else
    let entity_id := text_of stored sso_IDP_ENTITY_ID in
    let sso_url := text_of stored sso_IDP_SSO_URL in
    let certificates := current_bodies x (text_of stored sso_IDP_CERTIFICATES) now in
    if is_empty entity_id || is_empty sso_url || bool_decide (certificates = []) then None
    else Some {| cf_entity_id := entity_id; cf_sso_url := sso_url; cf_group_attribute := text_of stored sso_GROUP_ATTRIBUTE;
                 cf_name_attribute := text_of stored sso_NAME_ATTRIBUTE; cf_email_attribute := text_of stored sso_EMAIL_ATTRIBUTE;
                 cf_certificates := certificates |}.

(** ** The checker *)

Inductive Algorithm := RsaSha256 | RsaSha384 | RsaSha512 | EcdsaSha256 | EcdsaSha384.
(** The fields the code sets; the others are the library's defaults. *)
Record ServiceProvider := {
  sp_entity_id : string;
  sp_acs_url : string;
  sp_metadata_url : string;
  sp_idp_entity_id : string;
  sp_idp_certificates : list string;
  sp_allow_idp_initiated : bool;
  sp_force_authn : bool;
  sp_max_issue_delay : Z;
  sp_max_clock_skew : Z;
  sp_algorithms : list Algorithm;
}.
Definition seconds (n : Z) : Z := n * 1000000.
Definition provider (c : Config) (public_origin : string) : ServiceProvider :=
  let ours := addresses public_origin in
  {| sp_entity_id := pv_entity_id ours; sp_acs_url := pv_acs_url ours; sp_metadata_url := pv_metadata_url ours;
     sp_idp_entity_id := cf_entity_id c; sp_idp_certificates := cf_certificates c; sp_allow_idp_initiated := false; sp_force_authn := false;
     sp_max_issue_delay := seconds 300; sp_max_clock_skew := seconds 120;
     sp_algorithms := [RsaSha256; RsaSha384; RsaSha512; EcdsaSha256; EcdsaSha384] |}.

Record Attribute := { an_name : option string; an_friendly_name : option string; an_values : list (option string) }.
Record Conditions := { cd_not_on_or_after : option Z; cd_audience_restrictions : option (list (list string)) }.
Record Assertion := {
  as_id : string;
  as_conditions : option Conditions;
  (** The NameID of the subject. *)
  as_name_id : option string;
  as_attribute_statements : option (list (list Attribute));
}.

Inductive SamlError :=
  | FailedToValidateSignature | ResponseInResponseToInvalid | AssertionInResponseToInvalid | DestinationValidationError
  | AssertionRecipientMismatch | AssertionConditionAudienceRestrictionFailed | AssertionIssuerMismatch | ResponseIssuerMismatch
  | AssertionExpired | ResponseExpired | AssertionConditionExpired | AssertionConditionExpiredBefore
  | AssertionSubjectConfirmationExpired | AssertionSubjectConfirmationExpiredBefore | ResponseBadStatusCode | OtherSamlError.

Record Saml := {
  (** [parse_xml_response] with the one request id allowed, at the time the library reads the clock. *)
  parse_xml_response : ServiceProvider -> string -> string -> Z -> SamlError + Assertion;
  (** [idp_signing_certs]: [None] when it fails or finds no field. *)
  idp_signing_certs : ServiceProvider -> option (list (list Z));
  (** [make_authentication_request] to an address, given an id, then [redirect] with a relay token. *)
  authn_redirect : ServiceProvider -> string -> string -> string -> option string;
  (** The standard base64 alphabet. *)
  standard_decode : string -> option (list Z);
}.

Definition MAX_RESPONSE_BYTES : Z := 256 * 1024.
Definition MAX_GROUPS : nat := 200.
Definition REQUEST_MINUTES : Z := 5.
Definition COOKIE : string := "__Host-openvibes-saml".

Section handlers.
Context (lower to_lowercase : string -> string) (pg_space : Z -> bool) (gen : nat -> string) (cr : Crypto) (x : X509) (saml : Saml).
(** The public origin, and whether it is usable. *)
Context (public_origin_valid : bool) (public_origin : string).

Definition decode_response (encoded : string) : string + string :=
  if MAX_RESPONSE_BYTES * 2 <? str_len encoded then inl "too_large"
  else match standard_decode saml (String.concat EmptyString (split_whitespace encoded)) with
  | None => inl "invalid_response"
  | Some l =>
      if MAX_RESPONSE_BYTES <? Z.of_nat (length l) then inl "too_large"
      else if negb (valid_utf8 l) then inl "invalid_response"
      else
        let xml := of_bytes l in
        let upper := to_ascii_uppercase xml in
        if contains_str "<!DOCTYPE" upper || contains_str "<!ENTITY" upper then inl "invalid_response" else inr xml
  end.

Definition error_word (e : SamlError) : string :=
  match e with
  | FailedToValidateSignature => "bad_signature"
  | ResponseInResponseToInvalid | AssertionInResponseToInvalid => "wrong_request"
  | DestinationValidationError | AssertionRecipientMismatch => "wrong_destination"
  | AssertionConditionAudienceRestrictionFailed => "wrong_audience"
  | AssertionIssuerMismatch | ResponseIssuerMismatch => "wrong_issuer"
  | AssertionExpired | ResponseExpired | AssertionConditionExpired | AssertionConditionExpiredBefore
  | AssertionSubjectConfirmationExpired | AssertionSubjectConfirmationExpiredBefore => "expired"
  | ResponseBadStatusCode => "idp_refused"
  | OtherSamlError => "invalid_response"
  end.
Definition verify (c : Config) (xml request_id : string) (clock : Z) : string + Assertion :=
  let sp := provider c public_origin in
  match idp_signing_certs saml sp with
  | Some (_ :: _) => match parse_xml_response saml sp xml request_id clock with inl e => inl (error_word e) | inr a => inr a end
  | _ => inl "sso_off"
  end.

Record Facts := { fa_subject : string; fa_display_name : string; fa_email : option string; fa_groups : list string }.

Definition plausible_email (email : string) : bool :=
  (str_len email <=? 254) && negb (existsb is_whitespace (chars email))
  && match split_once "@" email with
     | Some (local, domain) => negb (is_empty local) && negb (is_empty domain) && negb (has_char "@" domain)
     | None => false
     end.

Definition named (name : string) (a : Attribute) : bool :=
  bool_decide (an_name a = Some name) || bool_decide (an_friendly_name a = Some name).
(** [values]: in document order, trimmed, the empty ones left out. *)
Definition attribute_values (a : Assertion) (name : string) : list string :=
  List.filter (fun v => negb (is_empty v))
    (map trim (omap id (flat_map an_values (List.filter (named name) (concat (default [] (as_attribute_statements a))))))).

Definition for_us (restrictions : list (list string)) : bool :=
  negb (bool_decide (restrictions = [])) && forallb (str_mem (pv_entity_id (addresses public_origin))) restrictions.
Definition groups_of_person (c : Config) (a : Assertion) : list string :=
  take MAX_GROUPS (bs_of_list str_cmp (map to_lowercase (List.filter (fun g => char_count g <=? 256) (attribute_values a (cf_group_attribute c))))).

Definition facts (c : Config) (a : Assertion) : string + Facts :=
  match as_conditions a with
  | None => inl "invalid_response"
  | Some conditions =>
      if negb (is_some (cd_not_on_or_after conditions)) then inl "invalid_response"
      else if negb (for_us (default [] (cd_audience_restrictions conditions))) then inl "wrong_audience"
      else match trim <$> as_name_id a with
      | Some subject =>
          if negb (negb (is_empty subject) && (char_count subject <=? 512)) then inl "invalid_response"
          else
            let email := match attribute_values a (cf_email_attribute c) with
                         | e :: _ => if plausible_email e then Some e else None | [] => None end in
            let display_name := match attribute_values a (cf_name_attribute c), email with
                                | n :: _, _ => n | [], Some e => e | [], None => subject end in
            inr {| fa_subject := subject; fa_display_name := of_chars (take 160 (chars display_name)); fa_email := email;
                   fa_groups := groups_of_person c a |}
      | None => inl "invalid_response"
      end
  end.

(** ** Starting *)

Definition status (now : Z) (t : Tables) : bool := public_origin_valid && is_some (config x (stored_value t) now).

Inductive StartAnswer := StartFailed | StartBusy | StartGo (url browser : string).
(** Three random values: 16, 24 and 32 bytes; [None] when there is no randomness. *)
Definition start_sso (random : option (list Z * list Z * list Z)) (now : Z) (t : Tables) : StartAnswer * Tables :=
  if negb public_origin_valid then (StartFailed, t)
  else match config x (stored_value t) now, random with
  | Some c, Some (i, r, b) =>
      let request_id := "_" +:+ hex i in
      let relay := base64_encode cr r in
      let browser := base64_encode cr b in
      match authn_redirect saml (provider c public_origin) (cf_sso_url c) request_id relay with
      | None => (StartFailed, t)
      | Some url =>
          match start_request {| nr_relay := session_digest cr relay; nr_id := request_id; nr_browser := session_digest cr browser;
                                 nr_now := now; nr_expires_at := now + minutes REQUEST_MINUTES |} t with
          | (Some true, t) => (StartGo url browser, t)
          | (Some false, t) => (StartBusy, t)
          | (None, t) => (StartFailed, t)
          end
      end
  | _, _ => (StartFailed, t)
  end.

(** ** Receiving the response *)

Record AcsRequest := {
  ar_headers : Headers;
  ar_response : option string;
  ar_relay_state : option string;
  ar_now : Z;
  (** The clock the library reads, after [ar_now]. *)
  ar_clock : Z;
  (** The new session's secret, when there is randomness. *)
  ar_secret : option string;
}.

Inductive AcsStage :=
  | ARead
  | ATake (c : Config)
  | ASign (c : Config) (p : SsoPerson)
  | ASession (user_id : string) (auth_generation : Z)
  | ARecord (reason : string)
  (** To the console with this session, or to the login page. *)
  | AEnd (secret : option string).

Definition person_of (c : Config) (r : AcsRequest) (request_id : string) : string + SsoPerson :=
  match decode_response (default EmptyString (ar_response r)) with
  | inl e => inl e
  | inr xml =>
      match verify c xml request_id (ar_clock r) with
      | inl e => inl e
      | inr a =>
          match facts c a with
          | inl e => inl e
          | inr f =>
              match as_conditions a ≫= cd_not_on_or_after with
              | None => inl "invalid_response"
              | Some e => inr {| ps_issuer := cf_entity_id c; ps_subject := fa_subject f; ps_display_name := fa_display_name f;
                                 ps_email := fa_email f; ps_assertion_id := as_id a; ps_assertion_expires_at := remember_until e;
                                 ps_groups := fa_groups f; ps_now := ar_now r |}
              end
          end
      end
  end.

(** The digest of the cookie that ties the answer to this browser. *)
Definition browser_digest (h : Headers) : option (list Z) :=
  match named_cookie cr h COOKIE with inr (Some secret) => Some (session_digest cr secret) | _ => None end.
Definition acs_start (r : AcsRequest) : AcsStage :=
  match ar_response r, ar_relay_state r with
  | Some _, Some _ => match browser_digest (ar_headers r) with Some _ => ARead | None => ARecord "other_browser" end
  | _, _ => ARecord "incomplete"
  end.

Definition acs_session (r : AcsRequest) (secret user_id : string) (auth_generation : Z) : NewSession :=
  {| ns_digest := session_digest cr secret; ns_previous := None; ns_csrf := (session_csrf cr secret).2; ns_user := user_id;
     ns_generation := auth_generation; ns_now := ar_now r; ns_idle_expires_at := ar_now r + minutes 30;
     ns_absolute_expires_at := ar_now r + hours 8 |}.

(** One statement or transaction; [db_ok] false is a lost connection. *)
Definition acs_step (db_ok : bool) (r : AcsRequest) (st : AcsStage) (t : Tables) : AcsStage * Tables :=
  match st with
  | AEnd secret => (AEnd secret, t)
  | ARecord reason => (AEnd None, if db_ok then refuse reason t else t)
  | _ =>
      if negb db_ok then (ARecord "unavailable", t)
      else match st with
      | ARead => (match config x (stored_value t) (ar_now r) with Some c => ATake c | None => ARecord "sso_off" end, t)
      | ATake c =>
          let '(taken, t) := take_request (session_digest cr (default EmptyString (ar_relay_state r)))
                                (default [] (browser_digest (ar_headers r))) (ar_now r) t in
          (match taken with
           | None => ARecord "unknown_request"
           | Some request_id => match person_of c r request_id with inl e => ARecord e | inr p => ASign c p end
           end, t)
      | ASign _ p =>
          match sign_in lower pg_space gen cr p t with
          | None => (ARecord "unavailable", t)
          | Some (Allowed user_id auth_generation _, t) => (ASession user_id auth_generation, t)
          | Some (Replay, t) => (ARecord "replay", t)
          | Some (NoRole, t) => (ARecord "no_role", t)
          | Some (Disabled, t) => (ARecord "disabled", t)
          end
      | ASession user_id auth_generation =>
          match ar_secret r with
          | None => (ARecord "unavailable", t)
          | Some secret =>
              match create_session (acs_session r secret user_id auth_generation) (signs t) with
              | None => (ARecord "unavailable", t)
              | Some (true, s) => (AEnd (Some secret), on_signs (fun _ => s) t)
              | Some (false, s) => (ARecord "disabled", on_signs (fun _ => s) t)
              end
          end
      | ARecord _ | AEnd _ => (st, t)
      end
  end.
End handlers.

Example sso_vectors :
  addresses "https://vibes.example/" = {| pv_entity_id := "https://vibes.example/auth/saml/metadata";
    pv_acs_url := "https://vibes.example/auth/saml/acs"; pv_metadata_url := "https://vibes.example/auth/saml/metadata" |}
  /\ xml_attribute ("a&b" +:+ quote +:+ "<>") = "a&amp;b&quot;&lt;&gt;"
  /\ plausible_email "ada@example.org" = true /\ plausible_email "ada" = false /\ plausible_email "@x" = false
  /\ plausible_email "a@b@c" = false /\ plausible_email "a b@c" = false.
Proof. vm_compute. auto 10. Qed.
