(* ===== verification/SsoInv.v ===== *)
(** * Single sign-on: what a sign-in and the cleanup do to the tables, and every interleaving

    The roles a sign-in leaves are the ones its groups name and the ones given by hand; the cleanup
    leaves nothing of the people who stayed away. *)
From S2P Require Import Prelude RustStd Text BTree Json AccessData AccessRules AccessDb AccessOps AccessProps SignData SignDb Lines SetData SetDb SsoDb SetOps SsoOps.
From stdpp Require Import prelude strings list relations.
From Stdlib Require Import Ascii ZArith Lia.

Open Scope Z_scope.

(** ** Well-formed tables *)

Record sso_wf (t : Tables) : Prop := {
  sw_access : wf (people t);
  sw_people : NoDup (map su_user (sso_users t));
  sw_links : NoDup (map (fun s => (su_issuer s, su_subject s)) (sso_users t));
  sw_refers : forall s, In s (sso_users t) -> exists u, In u (users (people t)) /\ u_id u = su_user s;
  sw_tagged : forall id, In id (sso_bindings t) -> In id (map b_id (bindings (people t)));
  sw_bindings : forall b, In b (bindings (people t)) -> In (b_id b) (sso_bindings t) -> exists s, In s (sso_users t) /\ b_principal b = User (su_user s);
}.

Definition holds_role (t : Tables) (user_id role_id : string) : Prop :=
  exists b, In b (bindings (people t)) /\ holds_binding (User user_id) role_id b = true.
(** Active, and not from the identity provider. *)
Definition by_hand (t : Tables) (b : BindingRow) : Prop := active b = true /\ ~ In (b_id b) (sso_bindings t).

Lemma holds_role_dec t user_id role_id : existsb (holds_binding (User user_id) role_id) (bindings (people t)) = true <-> holds_role t user_id role_id.
Proof. unfold holds_role. by rewrite existsb_exists. Qed.
Lemma holds_any_iff t user_id : holds_any t user_id = true <-> exists role_id, holds_role t user_id role_id.
Proof.
  unfold holds_any, holds_role. rewrite existsb_exists. split.
  - intros (b & Hb & [Ha Hp%bool_decide_eq_true]%andb_true_iff). exists (b_role b), b. split; [done|]. by apply holds_binding_iff.
  - intros (role & b & Hb & (Ha & Hp & _)%holds_binding_iff). exists b. split; [done|]. rewrite Ha. simpl. by apply bool_decide_eq_true.
Qed.

Lemma existsb_none {A} (p : A -> bool) l x : existsb p l = false -> In x l -> p x = false.
Proof. intros H Hx. destruct (p x) eqn:E; [|done]. rewrite <- H. symmetry. apply existsb_exists. by exists x. Qed.

(** ** Revoking what the groups no longer name *)

Section groups.
Context (lower : string -> string) (gen : nat -> string).

(** What the loops over bindings leave alone. *)
Record beside (t t' : Tables) : Prop := {
  bs_users : users (people t') = users (people t);
  bs_roles : roles (people t') = roles (people t);
  bs_accounts : accounts (people t') = accounts (people t);
  bs_sessions : sessions (people t') = sessions (people t);
  bs_rest : settings t' = settings t /\ sso_users t' = sso_users t /\ saml_requests t' = saml_requests t /\ saml_seen t' = saml_seen t
            /\ last_sign_in (signs t') = last_sign_in (signs t);
}.
Lemma beside_refl t : beside t t.
Proof. by split. Qed.
Lemma sso_beside_trans a b c : beside a b -> beside b c -> beside a c.
Proof.
  intros [? ? ? ? (? & ? & ? & ? & ?)] [? ? ? ? (? & ? & ? & ? & ?)]. split; [congruence..|]. repeat split; congruence.
Qed.

Definition unwanted (user_id : string) (wanted : list string) (t : Tables) (b : BindingRow) : bool :=
  sso_binding_of t user_id b && negb (str_mem (b_role b) wanted).

Lemma revoke_id id now actor b : b_id (revoke id now actor b) = b_id b.
Proof. unfold revoke. by destruct (String.eqb _ _). Qed.
Lemma revoke_other id now actor b : id <> b_id b -> revoke id now actor b = b.
Proof. intros H. unfold revoke. rewrite (proj2 (String.eqb_neq (b_id b) id)); congruence. Qed.

Lemma revoke_unwanted_bindings user_id wanted now : forall current t,
  bindings (people (revoke_unwanted user_id wanted now current t))
  = map (fun b => if existsb (fun c => String.eqb c.1 (b_id b) && negb (str_mem c.2 wanted)) current then revoke (b_id b) now SSO_ACTOR b else b) (bindings (people t))
  /\ beside t (revoke_unwanted user_id wanted now current t) /\ sso_bindings (revoke_unwanted user_id wanted now current t) = sso_bindings t.
Proof.
  induction current as [|[id role] current IH]; intros t; simpl.
  { split; [by rewrite map_id|]. split; [apply beside_refl|done]. }
  destruct (str_mem role wanted) eqn:Em.
  - destruct (IH t) as (E & H & Hs). split; [|done]. rewrite E. apply map_ext. intros b. by rewrite andb_false_r.
  - match goal with |- context [revoke_unwanted _ _ _ _ ?t1] => set (t1' := t1); destruct (IH t1') as (E & H & Hs) end.
    split; [|split; [by eapply sso_beside_trans; [|exact H]|done]]. rewrite E. subst t1'. simpl. rewrite map_map. apply map_ext. intros b.
    rewrite andb_true_r, revoke_id. destruct (String.eqb_spec id (b_id b)) as [->|Hne]; simpl.
    + destruct (existsb _ _); [|done]. unfold revoke. by rewrite !String.eqb_refl.
    + destruct (existsb _ _); [|by apply revoke_other]. by rewrite (revoke_other id).
Qed.

Lemma revoke_unwanted_exact user_id wanted now t t' : wf (people t) ->
  t' = revoke_unwanted user_id wanted now (map (fun b => (b_id b, b_role b)) (List.filter (sso_binding_of t user_id) (bindings (people t)))) t ->
  bindings (people t') = map (fun b => if unwanted user_id wanted t b then revoke (b_id b) now SSO_ACTOR b else b) (bindings (people t))
  /\ beside t t' /\ sso_bindings t' = sso_bindings t.
Proof.
  intros Hw ->. match goal with |- context [revoke_unwanted _ _ _ ?c _] => destruct (revoke_unwanted_bindings user_id wanted now c t) as (E & H & Hs) end.
  split; [|done]. rewrite E. apply map_ext_in. intros b Hb.
  match goal with |- (if ?x then _ else _) = (if ?y then _ else _) => replace x with y; [done|] end. unfold unwanted.
  apply eq_true_iff_eq. rewrite andb_true_iff, existsb_exists. split.
  - intros [H1 H2]. exists (b_id b, b_role b). rewrite String.eqb_refl. split; [|done]. apply in_map_iff. exists b. split; [done|]. by apply filter_In.
  - intros ([id role] & (b' & [= <- <-] & [Hb' Hs']%filter_In)%in_map_iff & [Ei%String.eqb_eq Hm]%andb_true_iff). simpl in *.
    assert (b' = b) as -> by (by apply (NoDup_map_inj b_id _ _ _ (wf_bindings _ Hw))). done.
Qed.

(** ** Giving what they name *)

Record given (user_id : string) (wanted : list string) (now : Z) (t t' : Tables) (fresh : list BindingRow) : Prop := {
  gv_bindings : bindings (people t') = bindings (people t) ++ fresh;
  gv_fresh : forall b, In b fresh -> exists role_id, In role_id wanted /\ ~ holds_role t user_id role_id
                /\ b = new_binding (b_id b) (User user_id) role_id SSO_ACTOR now;
  gv_ids : NoDup (map b_id (bindings (people t))) -> NoDup (map b_id (bindings (people t')));
  gv_sso : sso_bindings t' = sso_bindings t ++ map b_id fresh;
  gv_held : forall role_id, In role_id wanted -> holds_role t' user_id role_id;
  gv_beside : beside t t';
}.

Lemma give_wanted_given user_id now : forall wanted t t', give_wanted gen user_id wanted now t = Some t' -> exists fresh, given user_id wanted now t t' fresh.
Proof.
  induction wanted as [|role wanted IH]; intros t t'; simpl.
  { intros [= <-]. exists []. split; simpl; rewrite ?app_nil_r; try done. }
  destruct (existsb _ _) eqn:Eh.
  - intros H. destruct (IH t t' H) as (fresh & [E F D S K B]). exists fresh. split; try done.
    + intros b (r & Hr & Hn & Eb)%F. exists r. split; [by right|done].
    + intros r [<-|Hr]; [|by apply K]. apply holds_role_dec in Eh as (b & Hb & Hh). exists b. split; [|done]. rewrite E. apply in_or_app. by left.
  - destruct (str_mem _ _) eqn:Em; [done|]. set (id := gen (draws (people t))) in *. set (t1 := audit_sso _ _ _ _ _). intros H.
    destruct (IH t1 t' H) as (fresh & [E F D S K B]). assert (forall r, holds_role t user_id r -> holds_role t1 user_id r) as Hmono.
    { intros r (b & Hb & Hh). exists b. split; [|done]. simpl. apply in_or_app. by left. }
    assert (~ In id (map b_id (bindings (people t)))) as Hid. { intros Hin%str_mem_In. congruence. }
    exists (new_binding id (User user_id) role SSO_ACTOR now :: fresh). split.
    + rewrite E. simpl. by rewrite <- app_assoc.
    + intros b [<-|Hb].
      * exists role. split; [by left|]. split; [|done]. intros Hh%holds_role_dec. congruence.
      * destruct (F b Hb) as (r & Hr & Hn & Eb). exists r. split; [by right|]. split; [by intros ?%Hmono|done].
    + intros Hnd. apply D. simpl. rewrite map_app. simpl. apply NoDup_snoc; [done|]. by rewrite list_elem_of_In.
    + rewrite S. simpl. by rewrite <- app_assoc.
    + intros r [<-|Hr]; [|by apply K]. exists (new_binding id (User user_id) role SSO_ACTOR now). split.
      * rewrite E. simpl. apply in_or_app. left. apply in_or_app. right. by left.
      * apply holds_binding_iff. done.
    + eapply sso_beside_trans; [|exact B]. by split.
Qed.

(** ** Following the groups *)

Lemma wanted_roles_In groups d role_id :
  In role_id (wanted_roles lower groups d) <-> exists r, In r (roles d) /\ r_id r = role_id /\ In (lower (r_name r)) groups.
Proof.
  unfold wanted_roles. rewrite (sort_by_In str_cmp), in_map_iff. split.
  - intros (r & <- & [Hr Hn%str_mem_In]%filter_In). by exists r.
  - intros (r & Hr & <- & Hn). exists r. split; [done|]. apply filter_In. split; [done|]. by apply str_mem_In.
Qed.

(** The roles are the wanted ones and the ones given by hand; every other binding stays as it is. *)
Record roles_follow (user_id : string) (wanted : list string) (t t' : Tables) : Prop := {
  rf_roles : forall role_id, holds_role t' user_id role_id <->
    In role_id wanted \/ exists b, In b (bindings (people t)) /\ by_hand t b /\ holds_binding (User user_id) role_id b = true;
  rf_kept : forall b, In b (bindings (people t)) -> sso_binding_of t user_id b = false -> In b (bindings (people t'));
  rf_new : forall b, In b (bindings (people t')) -> In b (bindings (people t)) \/ b_principal b = User user_id;
}.
Record followed (user_id : string) (wanted : list string) (t t' : Tables) : Prop := {
  fl_follow : roles_follow user_id wanted t t';
  fl_wf : wf (people t');
  fl_sso : forall b, In b (bindings (people t')) -> In (b_id b) (sso_bindings t') ->
    (exists b0, In b0 (bindings (people t)) /\ In (b_id b0) (sso_bindings t) /\ b_principal b = b_principal b0) \/ b_principal b = User user_id;
  fl_tagged : forall id, In id (sso_bindings t') -> In id (map b_id (bindings (people t')));
  fl_beside : beside t t';
}.

Lemma follow_groups_followed user_id wanted now t t' :
  wf (people t) -> (forall role_id, In role_id wanted -> exists_role (people t) role_id) ->
  existsb (fun u => String.eqb (u_id u) user_id) (users (people t)) = true ->
  (forall id, In id (sso_bindings t) -> In id (map b_id (bindings (people t)))) ->
  follow_groups gen user_id wanted now t = Some t' -> followed user_id wanted t t'.
Proof.
  intros Hw Hr Hu Hs. unfold follow_groups. set (t1 := revoke_unwanted _ _ _ _ _). intros Hg.
  destruct (revoke_unwanted_exact user_id wanted now t t1 Hw eq_refl) as (E1 & B1 & S1).
  destruct (give_wanted_given user_id now wanted t1 t' Hg) as (fresh & [E F D S K B]).
  set (kept b := if unwanted user_id wanted t b then revoke (b_id b) now SSO_ACTOR b else b) in *.
  assert (forall b, b_id (kept b) = b_id b) as Hid. { intros b. unfold kept. destruct (unwanted _ _ _ b); [apply revoke_id|done]. }
  assert (forall b, In b (bindings (people t')) -> (exists b0, In b0 (bindings (people t)) /\ b = kept b0) \/ In b fresh) as Hold.
  { intros b. rewrite E, E1. intros [(b0 & <- & Hb)%in_map_iff|Hb]%in_app_or; [left; by exists b0|by right]. }
  assert (forall b, active (kept b) = true -> unwanted user_id wanted t b = false /\ kept b = b) as Hact.
  { intros b. unfold kept. destruct (unwanted _ _ _ b) eqn:Eu; [|done]. unfold revoke. by rewrite String.eqb_refl. }
  assert (forall b, b_principal (kept b) = b_principal b) as Hpr.
  { intros b. unfold kept. destruct (unwanted _ _ _ b); [|done]. unfold revoke. by destruct (String.eqb _ _). }
  split; [split| | | |].
  - intros role. split.
    + intros (b & [(b0 & Hb0 & ->)|Hb]%Hold & (Ha & Hp & Er)%holds_binding_iff).
      * destruct (Hact b0 Ha) as [Hun Hk]. rewrite Hk in *. unfold unwanted, sso_binding_of in Hun.
        rewrite Ha, Hp, bool_decide_true in Hun by done. simpl in Hun. destruct (str_mem (b_id b0) (sso_bindings t)) eqn:Em; simpl in Hun.
        -- left. apply negb_false_iff, str_mem_In in Hun. by rewrite <- Er.
        -- right. exists b0. split; [done|]. split; [|by apply holds_binding_iff]. split; [done|]. intros Hin%str_mem_In. congruence.
      * left. destruct (F b Hb) as (r & Hin & _ & Eb). rewrite Eb in Er. simpl in Er. by rewrite <- Er.
    + intros [Hin|(b & Hb & [Ha Hn] & Hh)]; [by apply K|]. exists b. split; [|done]. rewrite E, E1. apply in_or_app. left.
      apply in_map_iff. exists b. split; [|done]. unfold kept, unwanted, sso_binding_of.
      destruct (str_mem (b_id b) (sso_bindings t)) eqn:Em; [by apply str_mem_In in Em|]. by rewrite !andb_false_r.
  - intros b Hb Hn. rewrite E, E1. apply in_or_app. left. apply in_map_iff. exists b. split; [|done]. unfold kept, unwanted. by rewrite Hn.
  - intros b [(b0 & Hb0 & ->)|Hb]%Hold.
    + unfold kept. destruct (unwanted _ _ _ b0) eqn:Eu; [right|by left]. unfold unwanted, sso_binding_of in Eu.
      rewrite !andb_true_iff, bool_decide_eq_true in Eu. unfold revoke. rewrite String.eqb_refl. simpl. tauto.
    + right. destruct (F b Hb) as (r & _ & _ & ->). done.
  - pose proof (sso_beside_trans _ _ _ B1 B) as [Bu Br Ba _ _]. destruct Hw as [W1 W2 W3 W4 W5]. split; rewrite ?Br, ?Bu; try done.
    + apply D. rewrite E1, map_map. by erewrite map_ext by exact Hid.
    + intros b [(b0 & Hb0 & ->)|Hb]%Hold Ha.
      * destruct (Hact b0 Ha) as [_ Hk]. rewrite Hk in *. destruct (W4 b0 Hb0 Ha) as [He Hp]. unfold exists_role. rewrite Br. split; [done|].
        destruct (b_principal b0); simpl in *; [by rewrite Bu|by rewrite Ba].
      * destruct (F b Hb) as (r & Hin & _ & ->). simpl. unfold exists_role. rewrite Br, Bu. split; [by apply Hr|done].
  - intros b [(b0 & Hb0 & ->)|Hb]%Hold Hin; [|right; destruct (F b Hb) as (r & _ & _ & ->); done].
    left. exists b0. split; [done|]. rewrite Hid in Hin. split; [|by rewrite Hpr]. rewrite S, S1 in Hin. apply in_app_or in Hin as [Hin|Hin]; [done|].
    exfalso. assert (NoDup (map b_id (bindings (people t')))) as Hnd. { apply D. rewrite E1, map_map. erewrite map_ext by exact Hid. apply Hw. }
    rewrite E, map_app in Hnd. apply NoDup_app in Hnd as (_ & Hdis & _). apply (Hdis (b_id b0)); [|by apply list_elem_of_In].
    apply list_elem_of_In. rewrite E1, map_map. apply in_map_iff. by exists b0.
  - intros id. rewrite S, S1, E, E1, !map_app, map_map. intros [Hin|Hin]%in_app_or; apply in_or_app; [left|by right].
    erewrite map_ext by exact Hid. by apply Hs.
  - by eapply sso_beside_trans.
Qed.

(** ** One sign-in *)

Context (pg_space : Z -> bool) (cr : Crypto).
#[local] Notation sign_in := (sign_in lower pg_space gen cr).

Lemma linked_user_In issuer subject t u : linked_user issuer subject t = Some u ->
  exists s, In s (sso_users t) /\ su_issuer s = issuer /\ su_subject s = subject /\ In u (users (people t)) /\ u_id u = su_user s.
Proof.
  unfold linked_user. intros (s & Hs & Hu)%bind_Some. apply find_some in Hs as [Hs [E1%String.eqb_eq E2%String.eqb_eq]%andb_true_iff].
  apply find_some in Hu as [Hu E3%String.eqb_eq]. by exists s.
Qed.
Lemma linked_user_is t s u : sso_wf t -> In s (sso_users t) -> In u (users (people t)) -> u_id u = su_user s ->
  linked_user (su_issuer s) (su_subject s) t = Some u.
Proof.
  intros Hw Hs Hu E. unfold linked_user. destruct (find (link_of _ _) (sso_users t)) as [s'|] eqn:Ef.
  - apply find_some in Ef as [Hs' [E1%String.eqb_eq E2%String.eqb_eq]%andb_true_iff].
    assert (s' = s) as ->. { apply (NoDup_map_inj (fun s => (su_issuer s, su_subject s)) _ _ _ (sw_links _ Hw)); [done..|]. by rewrite E1, E2. }
    simpl. destruct (find _ (users (people t))) as [u'|] eqn:Eu.
    + apply find_some in Eu as [Hu' E'%String.eqb_eq]. f_equal. apply (NoDup_map_inj u_id _ _ _ (wf_users _ (sw_access _ Hw))); [done..|]. congruence.
    + eapply find_none in Eu; [|exact Hu]. by rewrite E, String.eqb_refl in Eu.
  - eapply find_none in Ef; [|exact Hs]. unfold link_of in Ef. by rewrite !String.eqb_refl in Ef.
Qed.
Lemma linked_none issuer subject t s : sso_wf t -> linked_user issuer subject t = None -> In s (sso_users t) -> link_of issuer subject s = false.
Proof.
  intros Hw Hn Hs. destruct (link_of issuer subject s) eqn:E; [|done]. unfold link_of in E. apply andb_true_iff in E as [<-%String.eqb_eq <-%String.eqb_eq].
  destruct (sw_refers _ Hw s Hs) as (u & Hu & Eu). by rewrite (linked_user_is t s u) in Hn.
Qed.

(** The tables but for the remembered assertion and the log. *)
Lemma create_sso_user_ok p t id t1 : sso_wf t -> linked_user (ps_issuer p) (ps_subject p) t = None -> create_sso_user pg_space gen cr p t = Some (id, t1) ->
  sso_wf t1 /\ ~ In id (map u_id (users (people t))) /\ users (people t1) = users (people t) ++ [new_sso_user cr id p]
  /\ sso_users t1 = sso_users t ++ [{| su_user := id; su_issuer := ps_issuer p; su_subject := ps_subject p; su_created_at := ps_now p |}]
  /\ bindings (people t1) = bindings (people t) /\ roles (people t1) = roles (people t) /\ sso_bindings t1 = sso_bindings t
  /\ saml_seen t1 = saml_seen t /\ saml_requests t1 = saml_requests t.
Proof.
  intros Hw Hl. unfold create_sso_user. cbv zeta. destruct (_ || _) eqn:E; [done|]. intros [= <- <-]. simpl.
  apply orb_false_iff in E as [E E4]. apply orb_false_iff in E as [E E3]. apply orb_false_iff in E as [E1 E2].
  set (id := gen (draws (people t))) in *.
  assert (~ In id (map u_id (users (people t)))) as Hid.
  { intros (u & Eu & Hu)%in_map_iff. eapply existsb_none in E1; [|exact Hu]. rewrite Eu, String.eqb_refl in E1. done. }
  assert (forall s, In s (sso_users t) -> su_user s <> id /\ link_of (ps_issuer p) (ps_subject p) s = false) as Hs.
  { intros s Hs. eapply existsb_none in E4; [|exact Hs]. apply orb_false_iff in E4 as [E4 E5]. by apply String.eqb_neq in E4. }
  split; [|done]. destruct Hw as [[W1 W2 W3 W4 W5] H2 H3 H4 H5 H6]. split; simpl; try done.
  - split; simpl; try done.
    + rewrite map_app. apply NoDup_snoc; [done|]. by rewrite list_elem_of_In.
    + intros b Hb Ha. destruct (W4 b Hb Ha) as [He Hp]. split; [done|]. destruct (b_principal b); simpl in *; [|done].
      rewrite existsb_app, Hp. done.
  - rewrite map_app. apply NoDup_snoc; [done|]. rewrite list_elem_of_In. intros (s & Es & Hin)%in_map_iff. by apply (Hs s Hin).
  - rewrite map_app. apply NoDup_snoc; [done|]. rewrite list_elem_of_In. intros (s & [= Ei Es] & Hin)%in_map_iff.
    destruct (Hs s Hin) as [_ Hl']. unfold link_of in Hl'. by rewrite Ei, Es, !String.eqb_refl in Hl'.
  - intros s [Hin|[<-|[]]]%in_app_or.
    + destruct (H4 s Hin) as (u & Hu & Eu). exists u. split; [|done]. apply in_or_app. by left.
    + exists (new_sso_user cr id p). split; [|done]. apply in_or_app. right. by left.
  - intros b Hb Hin. destruct (H6 b Hb Hin) as (s & Hs' & Ep). exists s. split; [|done]. apply in_or_app. by left.
Qed.

(** What a sign-in that goes through leaves for the person [u]. *)
Record signed (p : SsoPerson) (u : UserRow) (t t' : Tables) : Prop := {
  sg_link : linked_user (ps_issuer p) (ps_subject p) t' = Some u;
  sg_person : u_enabled u = true /\ u_display_name u = ps_display_name p /\ u_email u = ps_email p;
  sg_follow : roles_follow (u_id u) (wanted_roles lower (ps_groups p) (people t)) t t';
  sg_seen : saml_seen t' = saml_seen t ++ [{| sn_sha256 := sso_sha cr [ps_issuer p; ps_assertion_id p]; sn_expires_at := ps_assertion_expires_at p |}];
}.

Lemma remember_wf p t : sso_wf t -> sso_wf (remember cr p t).
Proof. by intros []. Qed.
Lemma with_name_wf p user_id t : sso_wf t -> sso_wf (on_people (update_user user_id (with_name p)) t).
Proof.
  intros [H1 H2 H3 H4 H5 H6]. split; simpl; try done.
  - apply (wf_same (people t)); try done. by apply (update_user_ids user_id (with_name p)).
  - intros s Hs. destruct (H4 s Hs) as (u & Hu & Eu). exists (if String.eqb (u_id u) user_id then with_name p u else u).
    split; [by apply (in_map (fun u => if String.eqb (u_id u) user_id then with_name p u else u))|]. by destruct (String.eqb _ _).
Qed.

(** From the tables where the person's row is up to date. *)
Lemma follow_signed p u t t1 t' s :
  sso_wf t1 -> bindings (people t1) = bindings (people t) -> roles (people t1) = roles (people t) -> sso_bindings t1 = sso_bindings t ->
  saml_seen t1 = saml_seen (remember cr p t) -> In s (sso_users t1) -> su_issuer s = ps_issuer p -> su_subject s = ps_subject p ->
  In u (users (people t1)) -> u_id u = su_user s -> u_enabled u = true /\ u_display_name u = ps_display_name p /\ u_email u = ps_email p ->
  follow_groups gen (u_id u) (wanted_roles lower (ps_groups p) (people t1)) (ps_now p) t1 = Some t' ->
  sso_wf t' /\ signed p u t t' /\ beside t1 t'.
Proof.
  intros Hw Eb Er Es En Hs Ei Ej Hu Eu Hp Hf. assert (wanted_roles lower (ps_groups p) (people t1) = wanted_roles lower (ps_groups p) (people t)) as Ew.
  { unfold wanted_roles. by rewrite Er. }
  destruct (follow_groups_followed (u_id u) (wanted_roles lower (ps_groups p) (people t1)) (ps_now p) t1 t' (sw_access _ Hw)) as [[F1 F2 F3] G1 G2 G3 G4]; [| | |exact Hf|].
  { intros role (r & Hr & <- & _)%wanted_roles_In. unfold exists_role. by apply in_map. }
  { apply existsb_exists. exists u. by rewrite String.eqb_refl. }
  { apply Hw. }
  pose proof G4 as [Bu Br Ba Bs (B1 & B2 & B3 & B4 & B5)]. assert (sso_wf t') as Hw'.
  { split; [done|by rewrite B2; apply Hw|by rewrite B2; apply Hw| |done|].
    - intros s' Hs'. rewrite Bu. rewrite B2 in Hs'. by apply Hw.
    - intros b Hb Hin. rewrite B2. destruct (G2 b Hb Hin) as [(b0 & Hb0 & Hin0 & ->)| ->]; [by eapply Hw|]. exists s. by rewrite Eu. }
  split; [done|]. split; [|done]. split; [|done| |by rewrite B4].
  - rewrite <- Ei, <- Ej. apply linked_user_is; [done|by rewrite B2|by rewrite Bu|done].
  - rewrite Ew in *. split.
    + intros role. rewrite F1, Eb. unfold by_hand. by rewrite Es.
    + intros b Hb Hn. apply F2; [by rewrite Eb|]. unfold sso_binding_of in *. by rewrite Es.
    + intros b Hb. rewrite <- Eb. by apply F3.
Qed.

(** The four outcomes. *)
Inductive sign_in_outcome (p : SsoPerson) (t : Tables) : SignIn -> Tables -> Prop :=
  | OutReplay : In (sso_sha cr [ps_issuer p; ps_assertion_id p]) (map sn_sha256 (saml_seen t)) -> sign_in_outcome p t Replay t
  | OutDisabled u : linked_user (ps_issuer p) (ps_subject p) t = Some u -> u_enabled u = false -> sign_in_outcome p t Disabled t
  | OutStranger : linked_user (ps_issuer p) (ps_subject p) t = None -> wanted_roles lower (ps_groups p) (people t) = [] ->
      sign_in_outcome p t NoRole t
  | OutSigned u created t' : ~ In (sso_sha cr [ps_issuer p; ps_assertion_id p]) (map sn_sha256 (saml_seen t)) -> signed p u t t' ->
      match linked_user (ps_issuer p) (ps_subject p) t with
      | Some u0 => created = false /\ u = with_name p u0 /\ u_enabled u0 = true
      | None => created = true /\ ~ In (u_id u) (map u_id (users (people t))) /\ wanted_roles lower (ps_groups p) (people t) <> []
      end ->
      saml_requests t' = saml_requests t ->
      sign_in_outcome p t (if holds_any t' (u_id u) then Allowed (u_id u) (u_generation u) created else NoRole) t'.

Lemma sign_in_outcomes p t o t' : sso_wf t -> sign_in p t = Some (o, t') -> sso_wf t' /\ sign_in_outcome p t o t'.
Proof.
  intros Hw. unfold SsoDb.sign_in. destruct (existsb _ (saml_seen t)) eqn:Es.
  { intros [= <- <-]. split; [done|]. constructor. apply existsb_exists in Es as (s & Hs & E%bool_decide_eq_true). rewrite <- E. by apply in_map. }
  assert (~ In (sso_sha cr [ps_issuer p; ps_assertion_id p]) (map sn_sha256 (saml_seen t))) as Hn.
  { intros (s & E & Hs)%in_map_iff. eapply existsb_none in Es; [|exact Hs]. apply bool_decide_eq_false in Es. done. }
  destruct (negb _); [done|]. destruct (linked_user _ _ t) as [u|] eqn:El.
  - destruct (u_enabled u) eqn:Ee; [|intros [= <- <-]; split; [done|by econstructor]]. unfold admit_person. simpl negb.
    destruct (negb _); [done|]. set (t1 := on_people _ _). intros (t2 & Hf & [= <- <-])%bind_Some.
    destruct (linked_user_In _ _ _ _ El) as (s & Hs & Ei & Ej & Hu & Eu).
    destruct (follow_signed p (with_name p u) t t1 t2 s) as (W & S & B); try done; [by apply with_name_wf, remember_wf| |].
    { subst t1. simpl. apply in_map_iff. exists u. by rewrite String.eqb_refl. }
    split; [done|]. apply (OutSigned p t (with_name p u) false t2); [done|done|by rewrite El|by apply B].
  - destruct (wanted_roles lower (ps_groups p) (people t)) as [|w ws] eqn:Ew; [intros [= <- <-]; split; [done|by constructor]|].
    intros ([id t1] & Hc & Ha)%bind_Some. unfold admit_person in Ha. simpl in Ha. apply bind_Some in Ha as (t2 & Hf & [= <- <-]).
    destruct (create_sso_user_ok p (remember cr p t) id t1) as (W1 & Hid & Eus & Esu & Eb & Er & Esb & Ess & Erq); [by apply remember_wf|done..|].
    destruct (follow_signed p (new_sso_user cr id p) t t1 t2 {| su_user := id; su_issuer := ps_issuer p; su_subject := ps_subject p; su_created_at := ps_now p |})
      as (W & S & B); try done; [rewrite Esu; apply in_or_app; right; by left|rewrite Eus; apply in_or_app; right; by left|].
    split; [done|]. apply (OutSigned p t (new_sso_user cr id p) true t2); [done|done|by rewrite El, Ew|]. destruct B as [_ _ _ _ (_ & _ & -> & _)]. done.
Qed.
End groups.

(** * Single sign-on: the daily cleanup

    Everyone idle is either gone with all that was theirs, or, when history points at them, left without
    a role or a session; nobody else is touched, and the paging reaches everyone. *)

From Stdlib Require Import Ascii ZArith Lia Sorting.Sorted.

Open Scope Z_scope.

#[local] Instance sso_user_eq_dec : EqDecision SsoUser.
Proof. solve_decision. Defined.

(** ** Rows by person *)

Lemma filter_filter_same {A} (p q : A -> bool) l : (forall x, p x = true -> q x = true) -> List.filter p (List.filter q l) = List.filter p l.
Proof.
  intros H. induction l as [|x l IH]; [done|]. simpl. destruct (q x) eqn:Eq; simpl; [by rewrite IH|].
  destruct (p x) eqn:Ep; [|done]. apply H in Ep. congruence.
Qed.
Lemma filter_map_same {A} (p : A -> bool) f l : (forall x, p (f x) = p x) -> (forall x, p x = true -> f x = x) -> List.filter p (map f l) = List.filter p l.
Proof. intros Hp Hf. induction l as [|x l IH]; [done|]. simpl. rewrite Hp, IH. destruct (p x) eqn:E; [|done]. by rewrite Hf. Qed.
Lemma filter_empty {A} (p : A -> bool) l : (forall x, In x l -> p x = false) -> List.filter p l = [].
Proof.
  intros H. induction l as [|x l IH]; [done|]. simpl. rewrite (H x) by (by left). apply IH. intros y Hy. apply H. by right.
Qed.

Lemma NoDup_map_filter {A B} (f : A -> B) (p : A -> bool) l : NoDup (map f l) -> NoDup (map f (List.filter p l)).
Proof.
  induction l as [|x l IH]; simpl; [done|]. intros [Hx Hl]%NoDup_cons. destruct (p x); [|by apply IH]. simpl. apply NoDup_cons. split; [|by apply IH].
  intros (y & Hf & Hy)%list_elem_of_In%in_map_iff. apply Hx, list_elem_of_In. rewrite <- Hf. apply in_map. by apply filter_In in Hy as [? _].
Qed.

Lemma filter_length_perm {A} (p : A -> bool) l l' : l ≡ₚ l' -> length (List.filter p l) = length (List.filter p l').
Proof. induction 1; simpl; repeat case_match; simpl; congruence. Qed.

Definition user_rows (t : Tables) (id : string) : list UserRow := List.filter (fun u => String.eqb (u_id u) id) (users (people t)).
Definition binding_rows (t : Tables) (who : Principal) : list BindingRow := List.filter (fun b => bool_decide (b_principal b = who)) (bindings (people t)).
Definition session_rows (t : Tables) (id : string) : list SessionRow := List.filter (fun s => String.eqb (s_user s) id) (sessions (people t)).
Definition link_rows (t : Tables) (id : string) : list SsoUser := List.filter (fun s => String.eqb (su_user s) id) (sso_users t).
Definition sign_in_rows (t : Tables) (id : string) : list (string * Z) := List.filter (fun e => String.eqb e.1 id) (last_sign_in (signs t)).

(** Only rows of the people in [gone] change. *)
Record kept_but (gone : string -> Prop) (t t' : Tables) : Prop := {
  kb_users : forall id, ~ gone id -> user_rows t' id = user_rows t id;
  kb_bindings : forall who, (forall id, gone id -> who <> User id) -> binding_rows t' who = binding_rows t who;
  kb_sessions : forall id, ~ gone id -> session_rows t' id = session_rows t id;
  kb_links : forall id, ~ gone id -> link_rows t' id = link_rows t id;
  kb_sign_ins : forall id, ~ gone id -> sign_in_rows t' id = sign_in_rows t id;
}.
Lemma kept_but_refl gone t : kept_but gone t t.
Proof. by split. Qed.
Lemma kept_but_trans (g1 g2 g3 : string -> Prop) a b c : (forall id, g1 id -> g3 id) -> (forall id, g2 id -> g3 id) ->
  kept_but g1 a b -> kept_but g2 b c -> kept_but g3 a c.
Proof.
  intros H1 H2 [A1 A2 A3 A4 A5] [B1 B2 B3 B4 B5]. split.
  - intros id Hn. rewrite B1, A1 by auto. done.
  - intros who Hn. rewrite B2, A2; auto.
  - intros id Hn. rewrite B3, A3 by auto. done.
  - intros id Hn. rewrite B4, A4 by auto. done.
  - intros id Hn. rewrite B5, A5 by auto. done.
Qed.
Lemma kept_but_mono (g g' : string -> Prop) a b : (forall id, g id -> g' id) -> kept_but g a b -> kept_but g' a b.
Proof. intros H K. by apply (kept_but_trans g g g' a b b H H); [|apply kept_but_refl]. Qed.

Section clean.
Context (owner : string -> string).

(** What is left of a person the cleanup reached. *)
Definition out (pointed_at : string -> bool) (t : Tables) (id : string) : Prop :=
  if pointed_at id
  then (exists u, In u (user_rows t id)) /\ (forall b, In b (binding_rows t (User id)) -> active b = false)
       /\ forall s, In s (session_rows t id) -> is_some (s_revoked_at s) = true
  else user_rows t id = [] /\ binding_rows t (User id) = [] /\ session_rows t id = [] /\ link_rows t id = [].

Lemma out_kept pointed_at gone t t' id : kept_but gone t t' -> ~ gone id -> out pointed_at t id -> out pointed_at t' id.
Proof.
  intros [K1 K2 K3 K4 _] Hn. unfold out.
  rewrite K1, (K2 (User id)), K3, K4; try done. intros id' Hg [= ->]. done.
Qed.

Lemma sso_find_filter {A} (p : A -> bool) l : find p l = head (List.filter p l).
Proof. induction l as [|x l IH]; [done|]. simpl. by destruct (p x). Qed.
Lemma idle_same cutoff t t' s : user_rows t' (su_user s) = user_rows t (su_user s) -> sign_in_rows t' (su_user s) = sign_in_rows t (su_user s) ->
  idle cutoff t' s = idle cutoff t s.
Proof.
  unfold idle, last_seen, user_rows, sign_in_rows. intros Hu Hl. rewrite !sso_find_filter, Hl. f_equal.
  assert (forall l : list UserRow, existsb (fun u => String.eqb (u_id u) (su_user s)) l = negb (bool_decide (List.filter (fun u => String.eqb (u_id u) (su_user s)) l = []))) as E.
  { intros l. induction l as [|u l IH]; [done|]. simpl. by destruct (String.eqb _ _). }
  by rewrite !E, Hu.
Qed.

(** ** One person *)

Lemma audit_kept gone t t' action kind id detail : kept_but gone t t' -> kept_but gone t (audit_sso action kind id detail t').
Proof. by intros []. Qed.
Lemma audit_out pointed_at t id action kind id' detail : out pointed_at t id -> out pointed_at (audit_sso action kind id' detail t) id.
Proof. done. Qed.
Lemma sso_audit_wf t action kind id detail : sso_wf t -> sso_wf (audit_sso action kind id detail t).
Proof. intros [H1 H2 H3 H4 H5 H6]. split; try done. by apply (wf_same (people t)). Qed.

Lemma delete_user_kept id t : kept_but (eq id) t (delete_user owner id t).
Proof.
  split; unfold user_rows, binding_rows, session_rows, link_rows, sign_in_rows; simpl; intros x Hn; apply filter_filter_same.
  - intros u E%String.eqb_eq. apply negb_true_iff, String.eqb_neq. congruence.
  - intros b E%bool_decide_eq_true. apply negb_true_iff, bool_decide_eq_false. specialize (Hn id eq_refl). congruence.
  - intros s E%String.eqb_eq. apply negb_true_iff, String.eqb_neq. congruence.
  - intros s E%String.eqb_eq. apply negb_true_iff, String.eqb_neq. congruence.
  - intros e E%String.eqb_eq. apply negb_true_iff, String.eqb_neq. congruence.
Qed.
Lemma delete_user_gone id t : user_rows (delete_user owner id t) id = [] /\ binding_rows (delete_user owner id t) (User id) = []
  /\ session_rows (delete_user owner id t) id = [] /\ link_rows (delete_user owner id t) id = [].
Proof.
  unfold user_rows, binding_rows, session_rows, link_rows. simpl.
  repeat split; apply filter_empty; intros x [_ E%negb_true_iff]%filter_In; done.
Qed.
Lemma delete_user_wf id t : sso_wf t -> sso_wf (delete_user owner id t).
Proof.
  intros [[W1 W2 W3 W4 W5] H2 H3 H4 H5 H6]. split; simpl.
  - split; simpl; try done.
    + apply NoDup_map_filter, W2.
    + apply NoDup_map_filter, W3.
    + intros b [Hb Hn%negb_true_iff%bool_decide_eq_false]%filter_In Ha. destruct (W4 b Hb Ha) as [He Hp]. split; [done|].
      destruct (b_principal b) as [u|] eqn:E; [|done]. simpl in *. apply existsb_exists in Hp as (r & Hr & Er). apply existsb_exists. exists r.
      split; [|done]. apply filter_In. split; [done|]. apply negb_true_iff, String.eqb_neq. apply String.eqb_eq in Er. congruence.
  - apply NoDup_map_filter, H2.
  - apply NoDup_map_filter, H3.
  - intros s [Hs Hn]%filter_In. destruct (H4 s Hs) as (u & Hu & Eu). exists u. split; [|done]. apply filter_In. by rewrite Eu.
  - intros x [Hx Hn%negb_true_iff]%filter_In. apply H5, in_map_iff in Hx as (b & <- & Hb). apply in_map, filter_In. split; [done|].
    apply negb_true_iff, bool_decide_eq_false. intros Ep. assert (str_mem (b_id b) (map b_id (List.filter (fun b => bool_decide (b_principal b = User id)) (bindings (people t)))) = true) as E; [|congruence].
    apply str_mem_In, in_map, filter_In. split; [done|]. by apply bool_decide_eq_true.
  - intros b [Hb Hn%negb_true_iff%bool_decide_eq_false]%filter_In [Hin _]%filter_In. destruct (H6 b Hb Hin) as (s & Hs & Ep). exists s.
    split; [|done]. apply filter_In. split; [done|]. apply negb_true_iff, String.eqb_neq. congruence.
Qed.

Lemma revoke_if_rows p now l (q : SessionRow -> bool) : (forall s, q s = true -> p s = false) -> (forall s, q (end_session now s) = q s) ->
  List.filter q (map (fun s => if p s && negb (is_some (s_revoked_at s)) then end_session now s else s) l) = List.filter q l.
Proof.
  intros Hp Hq. apply filter_map_same; intros s.
  - by destruct (_ && _).
  - intros E. by rewrite (Hp s E).
Qed.

Definition without_access (id : string) (now : Z) (t : Tables) : Tables :=
  on_people (fun d => revoke_if (fun s => String.eqb (s_user s) id) now (set_bindings (map (revoke_all id now)) d)) t.
Lemma revoke_all_id id now b : b_id (revoke_all id now b) = b_id b /\ b_principal (revoke_all id now b) = b_principal b.
Proof. unfold revoke_all. by destruct (_ && _). Qed.

Lemma without_access_kept id now t : kept_but (eq id) t (without_access id now t).
Proof.
  split; try done.
  - intros who Hn. unfold binding_rows. simpl. apply filter_map_same; intros b.
    + by rewrite (proj2 (revoke_all_id id now b)).
    + intros E%bool_decide_eq_true. unfold revoke_all. rewrite bool_decide_false, andb_false_r; [done|]. rewrite E. by apply Hn.
  - intros id' Hn. unfold session_rows. simpl. apply revoke_if_rows; [|done]. intros s E%String.eqb_eq. apply String.eqb_neq. congruence.
Qed.
Lemma without_access_out id now t :
  (forall b, In b (binding_rows (without_access id now t) (User id)) -> active b = false)
  /\ (forall s, In s (session_rows (without_access id now t) id) -> is_some (s_revoked_at s) = true).
Proof.
  unfold binding_rows, session_rows. simpl. split.
  - intros b [(b0 & <- & Hb)%in_map_iff E%bool_decide_eq_true]%filter_In. rewrite (proj2 (revoke_all_id id now b0)) in E. unfold revoke_all.
    rewrite bool_decide_true, andb_true_r by done. by destruct (active b0) eqn:Ea.
  - intros s [(s0 & <- & Hs)%in_map_iff E]%filter_In. destruct (is_some (s_revoked_at s0)) eqn:Er; [by rewrite andb_false_r|].
    rewrite andb_true_r in *. destruct (String.eqb (s_user s0) id) eqn:Es; [done|]. simpl in *. congruence.
Qed.
Lemma without_access_wf id now t : sso_wf t -> sso_wf (without_access id now t).
Proof.
  intros [[W1 W2 W3 W4 W5] H2 H3 H4 H5 H6].
  assert (map b_id (map (revoke_all id now) (bindings (people t))) = map b_id (bindings (people t))) as E. { apply map_ids. intros b. apply revoke_all_id. }
  split; simpl; try done.
  - split; simpl; try done; [by rewrite E|]. intros b (b0 & <- & Hb)%in_map_iff Ha. destruct (revoke_all_id id now b0) as [_ ->].
    unfold revoke_all in *. destruct (_ && _) eqn:Ea; [done|]. by apply W4.
  - intros x. rewrite E. apply H5.
  - intros b (b0 & <- & Hb)%in_map_iff. destruct (revoke_all_id id now b0) as [-> ->]. by apply H6.
Qed.

Context (pointed_at : string -> bool) (cutoff n now : Z).
#[local] Notation clean_one := (clean_one owner pointed_at cutoff n now).
#[local] Notation clean_page := (clean_page owner pointed_at cutoff n now).

Lemma clean_one_out s t done t' done' : sso_wf t -> idle cutoff t s = true -> clean_one s t done = (done', t') ->
  out pointed_at t' (su_user s) /\ kept_but (eq (su_user s)) t t' /\ sso_wf t'
  /\ cl_removed done' = cl_removed done + (if pointed_at (su_user s) then 0 else 1).
Proof.
  intros Hw Hi. unfold SsoDb.clean_one, out. rewrite Hi. simpl negb. cbv iota. destruct (pointed_at (su_user s)) eqn:Ep.
  - unfold take_access. cbv zeta. change (on_people _ t) with (without_access (su_user s) now t).
    pose proof (without_access_kept (su_user s) now t) as K. destruct (without_access_out (su_user s) now t) as [O1 O2].
    pose proof (without_access_wf (su_user s) now t Hw) as W.
    assert (exists u, In u (user_rows t (su_user s))) as Hu.
    { unfold idle in Hi. apply andb_true_iff in Hi as [(u & Hu & E)%existsb_exists _]. exists u. by apply filter_In. }
    destruct (_ || _); intros [= <- <-]; (split; [by split|]); simpl; (split; [by try apply audit_kept|]); (split; [by try apply sso_audit_wf|lia]).
  - intros [= <- <-]. split; [by apply (delete_user_gone (su_user s) t)|]. split; [apply audit_kept, delete_user_kept|].
    split; [by apply sso_audit_wf, delete_user_wf|simpl; lia].
Qed.

Lemma clean_page_out : forall l t done t' done', sso_wf t -> NoDup (map su_user l) -> (forall s, In s l -> idle cutoff t s = true) ->
  clean_page l done t = (done', t') ->
  (forall s, In s l -> out pointed_at t' (su_user s)) /\ kept_but (fun id => In id (map su_user l)) t t' /\ sso_wf t'
  /\ cl_removed done' = cl_removed done + Z.of_nat (length (List.filter (fun s => negb (pointed_at (su_user s))) l)).
Proof.
  induction l as [|s l IH]; intros t done t' done' Hw Hnd Hi; simpl.
  { intros [= <- <-]. split; [done|]. split; [apply kept_but_refl|]. split; [done|simpl; lia]. }
  apply NoDup_cons in Hnd as [Hs Hnd]. rewrite list_elem_of_In in Hs. destruct (clean_one s t done) as [done1 t1] eqn:E1. intros E.
  destruct (clean_one_out s t done t1 done1) as (O1 & K1 & W1 & C1); [done|by apply Hi; left|done|].
  assert (forall s', In s' l -> su_user s <> su_user s') as Hne. { intros s' Hs' Eq. apply Hs. rewrite Eq. by apply in_map. }
  destruct (IH t1 done1 t' done') as (O & K & W & C); try done.
  { intros s' Hs'. rewrite (idle_same cutoff t t1); [by apply Hi; right|..]; apply K1; by apply Hne. }
  split; [|split; [|split; [done|]]].
  - intros s' [<-|Hs']; [|by apply O]. by apply (out_kept pointed_at _ t1 t' _ K).
  - apply (kept_but_trans (eq (su_user s)) (fun id => In id (map su_user l)) _ t t1 t'); [intros id <-; by left|intros id ?; by right|done|done].
  - rewrite C, C1. destruct (pointed_at (su_user s)); simpl; lia.
Qed.

(** ** The pages *)

#[local] Instance user_order_pre : CmpPreorder user_order := cmp_on_preorder su_user str_cmp _.

Definition pending (after : string) (t : Tables) : list SsoUser :=
  List.filter (fun s => idle cutoff t s && is_gt (str_cmp (su_user s) after)) (sso_users t).
Lemma pending_In after t s : In s (pending after t) <-> In s (sso_users t) /\ idle cutoff t s = true /\ str_cmp (su_user s) after = Gt.
Proof.
  unfold pending. rewrite filter_In, andb_true_iff. unfold is_gt. split; intros (H1 & H2 & H3); (split; [done|]); (split; [done|]).
  - by destruct (str_cmp _ _).
  - by rewrite H3.
Qed.
Lemma pending_ids after t : sso_wf t -> NoDup (map su_user (pending after t)).
Proof. intros Hw. apply NoDup_map_filter, Hw. Qed.

Lemma sorted_pages (page rest : list SsoUser) : StronglySorted (fun a b => user_order a b <> Gt) (page ++ rest) ->
  (forall a b, In a page -> In b rest -> user_order a b <> Gt).
Proof.
  induction page as [|x page IH]; simpl; intros Hs a b Ha Hb; [done|]. apply StronglySorted_inv in Hs as [Hs Hx]. destruct Ha as [<-|Ha].
  - rewrite Forall_forall in Hx. apply Hx, list_elem_of_In, in_or_app. by right.
  - by apply IH.
Qed.

Lemma page_last after t lst : sso_wf t -> List.last (map Some (idle_page cutoff after t)) None = Some lst ->
  In lst (idle_page cutoff after t) /\ (forall s, In s (idle_page cutoff after t) -> In s (pending after t))
  /\ (forall s, In s (pending after t) -> In s (idle_page cutoff after t) \/ str_cmp (su_user s) (su_user lst) = Gt)
  /\ NoDup (map su_user (idle_page cutoff after t))
  /\ (forall s, In s (idle_page cutoff after t) -> str_cmp (su_user s) (su_user lst) <> Gt).
Proof.
  intros Hw. unfold idle_page. change (List.filter _ (sso_users t)) with (pending after t). set (l := sort_by user_order (pending after t)).
  assert (forall s, In s l <-> In s (pending after t)) as Hl by (intros s; apply sort_by_In).
  assert (NoDup (map su_user l)) as Hnd.
  { assert (map su_user l ≡ₚ map su_user (pending after t)) as -> by (apply Permutation_map; apply (sort_by_perm user_order)). by apply pending_ids. }
  pose proof (sort_by_sorted user_order (pending after t)) as Hs. fold l in Hs. pose proof (take_drop 500 l) as Etd.
  set (page := take 500 l) in *. set (rest := drop 500 l) in *. rewrite <- Etd in Hs, Hnd. intros Hlast.
  assert (exists init, page = init ++ [lst]) as (init & Ei).
  { destruct (decide (page = [])) as [E|(init & x & Ei)%exists_last]; [by rewrite E in Hlast|]. rewrite Ei, map_app in Hlast. simpl map in Hlast.
    rewrite List.last_last in Hlast. exists init. by injection Hlast as <-. }
  split; [rewrite Ei; apply in_or_app; right; by left|]. split; [intros s Hs'; apply Hl; rewrite <- Etd; apply in_or_app; by left|].
  rewrite map_app in Hnd. apply NoDup_app in Hnd as (Hnp & Hdis & _). split; [|split; [done|]].
  - intros s Hin%Hl. rewrite <- Etd in Hin. apply in_app_or in Hin as [Hin|Hin]; [by left|right].
    assert (user_order lst s <> Gt) as Ho by (apply (sorted_pages page rest Hs); [rewrite Ei; apply in_or_app; right; by left|done]).
    assert (su_user lst <> su_user s) as Hne.
    { intros Eq. apply (Hdis (su_user lst)); apply list_elem_of_In; [rewrite Ei, map_app; apply in_or_app; right; by left|]. rewrite Eq. by apply in_map. }
    unfold user_order in Ho. rewrite (cmp_antisym str_cmp (su_user lst)). destruct (str_cmp (su_user lst) (su_user s)) eqn:E; [|done|done].
    apply str_cmp_Eq in E. congruence.
  - intros s. rewrite Ei. intros [Hin|[<-|[]]]%in_app_or.
    + rewrite Ei, <- app_assoc in Hs. by apply (sorted_pages init ([lst] ++ rest) Hs s lst); [|left].
    + by rewrite (cmp_refl str_cmp).
Qed.

(** A page takes its people out of what is left. *)
Lemma pending_next after t t' lst : sso_wf t -> sso_wf t' -> List.last (map Some (idle_page cutoff after t)) None = Some lst ->
  kept_but (fun id => In id (map su_user (idle_page cutoff after t))) t t' ->
  (forall s, In s (pending (su_user lst) t') <-> In s (pending after t) /\ ~ In s (idle_page cutoff after t)).
Proof.
  intros Hw Hw' Hlast [K1 _ _ K4 K5]. destruct (page_last after t lst Hw Hlast) as (Pl & Pi & Po & Pn & Pg).
  assert (forall s, str_cmp (su_user s) (su_user lst) = Gt -> ~ In (su_user s) (map su_user (idle_page cutoff after t))) as Hout.
  { intros s E (s' & Es & Hs')%in_map_iff. apply (Pg s' Hs'). by rewrite Es. }
  assert (forall s, ~ In (su_user s) (map su_user (idle_page cutoff after t)) -> (In s (sso_users t') <-> In s (sso_users t))) as Hsame.
  { intros s Hn. specialize (K4 _ Hn). unfold link_rows in K4. split; intros Hin.
    - assert (In s (List.filter (fun s0 => String.eqb (su_user s0) (su_user s)) (sso_users t'))) as H by (apply filter_In; by rewrite String.eqb_refl).
      rewrite K4 in H. by apply filter_In in H as [? _].
    - assert (In s (List.filter (fun s0 => String.eqb (su_user s0) (su_user s)) (sso_users t))) as H by (apply filter_In; by rewrite String.eqb_refl).
      rewrite <- K4 in H. by apply filter_In in H as [? _]. }
  intros s. rewrite !pending_In. split.
  - intros (Hs & Hi & Hg). pose proof (Hout s Hg) as Hn. rewrite (Hsame s Hn) in Hs. rewrite (idle_same cutoff t t') in Hi by (by apply K1 || by apply K5).
    split; [|by intros Hin; apply Hn, in_map]. split; [done|]. split; [done|]. apply Pi, pending_In in Pl as (_ & _ & Pl).
    by apply (cmp_gt_trans str_cmp _ (su_user lst)).
  - intros [Hp Hn]. destruct (Po s) as [?|Hg]; [by apply pending_In|done|]. pose proof (Hout s Hg) as Hn'. destruct Hp as (Hs & Hi & _).
    split; [by apply Hsame|]. split; [|done]. rewrite (idle_same cutoff t t'); [done|by apply K1|by apply K5].
Qed.

#[local] Notation clean_loop fuel := (clean_loop owner fuel pointed_at cutoff n now).
Definition removable (l : list SsoUser) : list SsoUser := List.filter (fun s => negb (pointed_at (su_user s))) l.

Lemma page_none after t : List.last (map Some (idle_page cutoff after t)) None = None -> pending after t = [].
Proof.
  unfold idle_page. change (List.filter _ (sso_users t)) with (pending after t). intros H.
  destruct (decide (take 500 (sort_by user_order (pending after t)) = [])) as [E|(init & x & Ei)%exists_last].
  - destruct (pending after t) as [|s l] eqn:Ep; [done|]. assert (In s (sort_by user_order (s :: l))) as Hs by (apply sort_by_In; by left).
    destruct (sort_by user_order (s :: l)); [done|]. discriminate E.
  - rewrite Ei, map_app in H. simpl map in H. rewrite List.last_last in H. done.
Qed.

Lemma pending_split after t t' lst : sso_wf t -> sso_wf t' -> List.last (map Some (idle_page cutoff after t)) None = Some lst ->
  kept_but (fun id => In id (map su_user (idle_page cutoff after t))) t t' ->
  pending after t ≡ₚ idle_page cutoff after t ++ pending (su_user lst) t'.
Proof.
  intros Hw Hw' Hlast K. pose proof (pending_next after t t' lst Hw Hw' Hlast K) as Hn. destruct (page_last after t lst Hw Hlast) as (_ & Pi & _ & Pn & _).
  assert (forall l : list SsoUser, NoDup (map su_user l) -> NoDup l) as Hnd. { intros l Hl. by apply (NoDup_fmap_1 su_user). }
  apply NoDup_Permutation.
  - apply Hnd. by apply pending_ids.
  - apply NoDup_app. split; [by apply Hnd|]. split; [|apply Hnd; by apply pending_ids].
    intros s Hs%list_elem_of_In Hs'%list_elem_of_In. by apply Hn in Hs' as [_ ?].
  - intros s. rewrite !list_elem_of_In, in_app_iff, Hn. split; [|by intros [?%Pi|[? ?]]]. intros Hs.
    destruct (decide (s ∈ idle_page cutoff after t)) as [Hin%list_elem_of_In|Hin]; [by left|right]. rewrite list_elem_of_In in Hin. done.
Qed.

Lemma clean_loop_out : forall fuel after done t, sso_wf t -> (length (pending after t) < fuel)%nat ->
  exists done' t', clean_loop fuel after done t = Some (done', t')
    /\ (forall s, In s (pending after t) -> out pointed_at t' (su_user s))
    /\ kept_but (fun id => In id (map su_user (pending after t))) t t' /\ sso_wf t'
    /\ cl_removed done' = cl_removed done + Z.of_nat (length (removable (pending after t))).
Proof.
  induction fuel as [|fuel IH]; intros after done t Hw Hf; [lia|]. simpl. destruct (List.last _ None) as [lst|] eqn:El.
  - destruct (clean_page (idle_page cutoff after t) done t) as [done1 t1] eqn:E1.
    destruct (page_last after t lst Hw El) as (Pl & Pi & _ & Pn & _).
    destruct (clean_page_out (idle_page cutoff after t) t done t1 done1) as (O & K & W & C); try done.
    { intros s Hs%Pi%pending_In. tauto. }
    pose proof (pending_split after t t1 lst Hw W El K) as Hp. pose proof (Permutation_length Hp) as Hlen. rewrite length_app in Hlen.
    destruct (idle_page cutoff after t) as [|s0 page] eqn:Epage; [done|]. rewrite <- Epage in *. assert (0 < length (idle_page cutoff after t))%nat by (rewrite Epage; simpl; lia).
    destruct (IH (su_user lst) done1 t1 W) as (done2 & t2 & E2 & O2 & K2 & W2 & C2); [lia|]. exists done2, t2. split; [done|].
    assert (forall s, In s (pending after t) <-> In s (idle_page cutoff after t) \/ In s (pending (su_user lst) t1)) as Hin.
    { intros s. by rewrite <- list_elem_of_In, Hp, list_elem_of_In, in_app_iff. }
    split; [|split; [|split; [done|]]].
    + intros s [Hs|Hs]%Hin; [|by apply O2]. apply (out_kept pointed_at _ t1 t2 _ K2); [|by apply O].
      intros (s' & Es & Hs')%in_map_iff. assert (NoDup (map su_user (pending after t))) as Hnd by by apply pending_ids.
      rewrite Hp, map_app in Hnd. apply NoDup_app in Hnd as (_ & Hdis & _). apply (Hdis (su_user s)); apply list_elem_of_In; [by apply in_map|].
      rewrite <- Es. by apply in_map.
    + eapply kept_but_trans; [| |exact K|exact K2]; intros id (s & <- & Hs)%in_map_iff; apply in_map, Hin; auto.
    + rewrite C2, C. unfold removable. rewrite (filter_length_perm _ _ _ Hp), List.filter_app, length_app. lia.
  - apply page_none in El. exists done, t. split; [done|]. rewrite El. split; [done|]. split; [apply kept_but_refl|]. split; [done|simpl; lia].
Qed.
End clean.

(** * Single sign-on: worlds

    A world is the tables with the responses under way and the time; a step runs one statement of one of them,
    starts a sign-in, cleans up, changes a setting, or lets the rest of the console change people, roles and
    sessions in any way.  [started], [taken] and [accepted] record what happened; no operation reads them. *)

Open Scope Z_scope.

Record World := {
  tables : Tables;
  clock : Z;
  flights : list (AcsRequest * AcsStage);
  (** The requests started. *)
  started : list SamlRequest;
  (** The requests used, each with the response that used it. *)
  taken : list (nat * SamlRequest);
  (** The sign-ins let through: the response, the time and the person. *)
  accepted : list (nat * Z * SsoPerson);
}.

Section world.
Context (lower to_lowercase : string -> string) (pg_space : Z -> bool) (gen : nat -> string) (owner : string -> string) (cr : Crypto) (x : X509)
  (saml : Saml) (rfc3339 : Z -> string) (public_origin_valid : bool) (public_origin : string).

Notation sign_in := (sign_in lower pg_space gen cr).
Notation acs_step := (acs_step lower to_lowercase pg_space gen cr x saml public_origin).
Notation acs_start := (acs_start cr).
Notation start_sso := (start_sso cr x saml public_origin_valid public_origin).
Notation person_of := (person_of to_lowercase saml public_origin).

Definition at_tables (t : Tables) (w : World) : World :=
  {| tables := t; clock := clock w; flights := flights w; started := started w; taken := taken w; accepted := accepted w |}.

(** The row a response asks for. *)
Definition asked (r : AcsRequest) : SamlRequest -> bool :=
  takeable (session_digest cr (default EmptyString (ar_relay_state r))) (default [] (browser_digest cr (ar_headers r))) (ar_now r).
Definition newly_started (answer : StartAnswer) (t' : Tables) : list SamlRequest :=
  match answer, List.last (map Some (saml_requests t')) None with StartGo _ _, Some q => [q] | _, _ => [] end.
Definition newly_taken (db_ok : bool) (i : nat) (r : AcsRequest) (st : AcsStage) (t : Tables) : list (nat * SamlRequest) :=
  match st, find (asked r) (saml_requests t) with ATake _, Some q => if db_ok then [(i, q)] else [] | _, _ => [] end.
Definition newly_accepted (db_ok : bool) (i : nat) (now : Z) (st : AcsStage) (t : Tables) : list (nat * Z * SsoPerson) :=
  match st with
  | ASign _ p => match sign_in p t with Some (Allowed _ _ _, _) => if db_ok then [(i, now, p)] else [] | _ => [] end
  | _ => []
  end.

Inductive step (w : World) : World -> Prop :=
  | StepTime now : clock w <= now ->
      step w {| tables := tables w; clock := now; flights := flights w; started := started w; taken := taken w; accepted := accepted w |}
  | StepStart random answer t' : start_sso random (clock w) (tables w) = (answer, t') ->
      step w {| tables := t'; clock := clock w; flights := flights w; started := started w ++ newly_started answer t'; taken := taken w;
                accepted := accepted w |}
  | StepRespond r : ar_now r = clock w ->
      step w {| tables := tables w; clock := clock w; flights := flights w ++ [(r, acs_start r)]; started := started w; taken := taken w;
                accepted := accepted w |}
  (** The library reads the clock when the response is checked. *)
  | StepFlight db_ok i r st st' t' : flights w !! i = Some (r, st) -> match st with ATake _ => ar_clock r = clock w | _ => True end ->
      acs_step db_ok r st (tables w) = (st', t') ->
      step w {| tables := t'; clock := clock w; flights := <[i := (r, st')]> (flights w); started := started w;
                taken := taken w ++ newly_taken db_ok i r st (tables w);
                accepted := accepted w ++ newly_accepted db_ok i (clock w) st (tables w) |}
  | StepClean fuel pointed_at inactive_days done t' : clean owner fuel pointed_at inactive_days (clock w) (tables w) = Some (done, t') ->
      step w (at_tables t' w)
  (** A statement of a change of a setting, whatever was checked before it. *)
  | StepSetting r st st' t' : setting_step x cr rfc3339 (clock w) r st (tables w) = (st', t') -> step w (at_tables t' w)
  | StepOff actor : step w (at_tables (off_write actor (clock w) (tables w)) w)
  | StepConsole s : step w (at_tables (on_signs (fun _ => s) (tables w)) w).

(** ** What a step does to the requests and the assertions remembered *)

Definition saml_kept (t t' : Tables) : Prop := saml_requests t' = saml_requests t /\ saml_seen t' = saml_seen t.

Lemma saml_kept_refl t : saml_kept t t.
Proof. done. Qed.

Lemma follow_groups_beside user_id wanted now t t' : follow_groups gen user_id wanted now t = Some t' -> beside t t'.
Proof.
  unfold follow_groups. match goal with |- context [revoke_unwanted ?u ?w ?n ?c t] => destruct (revoke_unwanted_bindings u w n c t) as (_ & B & _) end.
  intros H. apply (give_wanted_given gen) in H as (fresh & [_ _ _ _ _ B']). by eapply sso_beside_trans.
Qed.
Definition sso_entry (p : SsoPerson) : SeenAssertion :=
  {| sn_sha256 := sso_sha cr [ps_issuer p; ps_assertion_id p]; sn_expires_at := ps_assertion_expires_at p |}.
Lemma admit_saml p user_id g created t o t' : admit_person lower pg_space gen p user_id g created t = Some (o, t') -> saml_kept t t'.
Proof.
  unfold admit_person. destruct (_ && _); [done|]. cbv zeta. intros (t1 & H & [= _ <-])%bind_Some.
  apply follow_groups_beside in H as [_ _ _ _ (_ & _ & E1 & E2 & _)]. unfold saml_kept. rewrite E1, E2. by destruct created.
Qed.
Lemma sign_in_saml p t o t' : sign_in p t = Some (o, t') ->
  saml_requests t' = saml_requests t
  /\ (saml_seen t' = saml_seen t \/ saml_seen t' = saml_seen t ++ [sso_entry p])
  /\ match o with
     | Allowed _ _ _ => ~ In (sso_sha cr [ps_issuer p; ps_assertion_id p]) (map sn_sha256 (saml_seen t)) /\ saml_seen t' = saml_seen t ++ [sso_entry p]
     | _ => True
     end.
Proof.
  unfold SsoDb.sign_in. destruct (existsb _ (saml_seen t)) eqn:Es; [intros [= <- <-]; auto 10|].
  assert (~ In (sso_sha cr [ps_issuer p; ps_assertion_id p]) (map sn_sha256 (saml_seen t))) as Hn.
  { intros (s & E & Hs)%in_map_iff. eapply existsb_none in Es; [|exact Hs]. apply bool_decide_eq_false in Es. done. }
  destruct (negb _); [done|]. destruct (linked_user _ _ t) as [u|].
  - destruct (u_enabled u); [|intros [= <- <-]; auto 10]. intros [E1 E2]%admit_saml. simpl in E1, E2. rewrite E1, E2.
    split; [done|]. split; [by right|by destruct o].
  - destruct (wanted_roles _ _ _); [intros [= <- <-]; auto 10|]. intros ([id t1] & Hc & Ha)%bind_Some. apply admit_saml in Ha as [E1 E2].
    unfold create_sso_user in Hc. cbv zeta in Hc. destruct (_ || _); [done|]. injection Hc as <- <-. simpl in E1, E2. rewrite E1, E2.
    split; [done|]. split; [by right|by destruct o].
Qed.

Lemma set_setting_saml key v a now t : saml_kept t (set_setting key v a now t).2.
Proof. unfold set_setting, end_sso_sessions. cbv zeta. by destruct (_ || _). Qed.
Lemma reset_setting_saml key a now t : saml_kept t (reset_setting key a now t).2.
Proof. unfold reset_setting, end_sso_sessions. destruct (stored_value t key); [|done]. simpl. by destruct (_ || _). Qed.
Lemma set_secret_saml key s a now t : saml_kept t (set_secret key s a now t).
Proof. done. Qed.
Lemma setting_step_saml r st now t st' t' : setting_step x cr rfc3339 now r st t = (st', t') -> saml_kept t t'.
Proof.
  destruct st as [d v|d v|a]; simpl; [by intros [= _ <-]| |by intros [= _ <-]]. unfold setting_write.
  destruct (is_secret d); [by intros [= _ <-]|]. destruct (is_null v); intros [= _ <-]; [apply reset_setting_saml|apply set_setting_saml].
Qed.
Lemma off_write_saml actor now t : saml_kept t (off_write actor now t).
Proof. apply set_setting_saml. Qed.

Lemma clean_one_saml pointed_at cutoff days now s t done done' t' :
  clean_one owner pointed_at cutoff days now s t done = (done', t') -> saml_kept t t'.
Proof.
  unfold clean_one. destruct (negb _); [by intros [= _ <-]|]. destruct (pointed_at _); [|by intros [= _ <-]].
  unfold take_access. cbv zeta. destruct (_ || _); by intros [= _ <-].
Qed.
Lemma clean_page_saml pointed_at cutoff days now : forall l t done done' t',
  clean_page owner pointed_at cutoff days now l done t = (done', t') -> saml_kept t t'.
Proof.
  induction l as [|s l IH]; intros t done done' t'; simpl; [by intros [= _ <-]|]. destruct (clean_one _ _ _ _ _ _ _ _) as [d1 t1] eqn:E1. intros E2.
  apply clean_one_saml in E1 as [A B]. apply IH in E2 as [C D]. unfold saml_kept. by rewrite C, D.
Qed.
Lemma clean_loop_saml pointed_at cutoff days now : forall fuel after t done done' t',
  clean_loop owner fuel pointed_at cutoff days now after done t = Some (done', t') -> saml_kept t t'.
Proof.
  induction fuel as [|fuel IH]; intros after t dn done' t'; simpl; [done|]. destruct (List.last _ None) as [lst|]; [|by intros [= _ <-]].
  destruct (clean_page _ _ _ _ _ _ _ _) as [d1 t1] eqn:E1. intros E2.
  apply clean_page_saml in E1 as [A B]. apply IH in E2 as [C D]. unfold saml_kept. by rewrite C, D.
Qed.
Lemma clean_saml fuel pointed_at days now t done t' : clean owner fuel pointed_at days now t = Some (done, t') -> saml_kept (forget_expired now t) t'.
Proof. apply clean_loop_saml. Qed.

Lemma start_sso_saml random now t answer t' : start_sso random now t = (answer, t') ->
  (newly_started answer t' = [] /\ (saml_kept t t' \/ saml_kept (forget_expired now t) t'))
  \/ exists q, newly_started answer t' = [q] /\ saml_requests t' = saml_requests (forget_expired now t) ++ [q]
       /\ saml_seen t' = saml_seen (forget_expired now t) /\ rq_consumed_at q = None /\ rq_expires_at q = rq_created_at q + minutes 5.
Proof.
  unfold SsoOps.start_sso. destruct (negb _); [intros [= <- <-]; left; split; [done|by left; split]|]. destruct (config _ _ _) as [c|]; [|intros [= <- <-]; left; split; [done|by left; split]].
  destruct random as [[[i r] b]|]; [|intros [= <- <-]; left; split; [done|by left; split]]. destruct (authn_redirect _ _ _ _ _) as [url|]; [|intros [= <- <-]; left; split; [done|by left; split]].
  unfold start_request. cbv zeta. set (t1 := forget_expired _ t). destruct (MAX_PENDING <=? _); [intros [= <- <-]; left; split; [done|by right; split]|].
  destruct (request_stored _ _); intros [= <- <-]; [|left; split; [done|by right; split]]. right. eexists. split; [|done].
  unfold newly_started. simpl saml_requests. rewrite map_app. simpl (map _ [_]). by rewrite List.last_last.
Qed.
End world.
