(* ===== verification/SsoProps.v ===== *)
(** * Single sign-on: what the code promises

    Nobody gets a session through the identity provider but by a response the library accepted for a request this
    console started for that browser minutes ago; an assertion is accepted once; roles follow the groups; people
    who stay away lose their access. *)
From S2P Require Import Prelude RustStd Text BTree Json AccessData AccessRules AccessDb AccessOps AccessProps SignData SignDb Lines SetData SetDb SetOps SsoDb SsoOps SsoInv.
From stdpp Require Import prelude strings list relations.
From Stdlib Require Import Ascii ZArith Lia.

Open Scope Z_scope.

Section world.
Context (lower to_lowercase : string -> string) (pg_space : Z -> bool) (gen : nat -> string) (owner : string -> string) (cr : Crypto) (x : X509)
  (saml : Saml) (rfc3339 : Z -> string) (public_origin_valid : bool) (public_origin : string).

Notation sign_in := (sign_in lower pg_space gen cr).
Notation acs_step := (acs_step lower to_lowercase pg_space gen cr x saml public_origin).
Notation person_of := (person_of to_lowercase saml public_origin).
Notation step := (step lower to_lowercase pg_space gen owner cr x saml rfc3339 public_origin_valid public_origin).
Notation sso_entry := (sso_entry cr).
Notation past P := (since step P).

(** ** What holds of a response under way *)

(** The settings allowed single sign-on with this configuration when they were read. *)
Definition config_read (c : Config) (r : AcsRequest) : World -> Prop :=
  past (fun v => config x (stored_value (tables v)) (ar_now r) = Some c).
(** It used up the request [q], which this browser started and which was good for five minutes. *)
Record request_used (i : nat) (r : AcsRequest) (q : SamlRequest) (w : World) : Prop := {
  ru_taken : In (i, q) (taken w);
  ru_started : In q (started w);
  ru_relay : exists relay, ar_relay_state r = Some relay /\ rq_relay q = session_digest cr relay;
  ru_browser : browser_digest cr (ar_headers r) = Some (rq_browser q);
  ru_time : ar_now r < rq_created_at q + minutes 5;
}.
Definition checked (i : nat) (r : AcsRequest) (p : SsoPerson) (w : World) : Prop :=
  exists c q, config_read c r w /\ request_used i r q w /\ person_of c r (rq_id q) = inr p.
Definition let_in (p : SsoPerson) (user_id : string) (g : Z) : World -> Prop :=
  past (fun v => exists created t', sign_in p (tables v) = Some (Allowed user_id g created, t')).

Definition flight_ok (i : nat) (r : AcsRequest) (st : AcsStage) (w : World) : Prop :=
  match st with
  | ARead => ar_relay_state r <> None /\ browser_digest cr (ar_headers r) <> None
  | ATake c => ar_relay_state r <> None /\ browser_digest cr (ar_headers r) <> None /\ config_read c r w
  | ASign c p => checked i r p w
  | ASession user_id g => exists p ti, checked i r p w /\ In (i, ti, p) (accepted w) /\ let_in p user_id g w
  | AEnd (Some secret) => exists p ti user_id g, checked i r p w /\ In (i, ti, p) (accepted w) /\ let_in p user_id g w /\ ar_secret r = Some secret
      /\ past (fun v => exists s, create_session (acs_session cr r secret user_id g) (signs (tables v)) = Some (true, s)) w
  | ARecord _ | AEnd None => True
  end.

Definition relay_of (relay : list Z) (q : SamlRequest) : bool := digest_eqb (rq_relay q) relay.
Definition unused (q : SamlRequest) : bool := negb (is_some (rq_consumed_at q)).
Definition count {A} (p : A -> bool) (l : list A) : nat := length (List.filter p l).

(** The ledger of requests: each one started is waiting, used or gone. *)
Record ledger (w : World) : Prop := {
  lg_rows : forall q, In q (saml_requests (tables w)) -> rq_consumed_at q = None -> In q (started w);
  lg_expiry : forall q, In q (started w) -> rq_expires_at q = rq_created_at q + minutes 5;
  lg_once : forall relay, (count (fun e => relay_of relay e.2) (taken w) + count (fun q => relay_of relay q && unused q) (saml_requests (tables w))
                           <= count (relay_of relay) (started w))%nat;
}.
(** An assertion accepted is remembered until it ends, and was not remembered before. *)
Record remembered (w : World) : Prop := {
  rm_entry : forall k i ti p, accepted w !! k = Some (i, ti, p) ->
    In (sso_entry p) (saml_seen (tables w)) \/ ps_assertion_expires_at p < clock w;
  rm_checked : forall k i ti p, accepted w !! k = Some (i, ti, p) -> exists r st, flights w !! i = Some (r, st) /\ checked i r p w;
  rm_pairs : forall k l i j ti tj p p', (k < l)%nat -> accepted w !! k = Some (i, ti, p) -> accepted w !! l = Some (j, tj, p') ->
    ps_issuer p = ps_issuer p' -> ps_assertion_id p = ps_assertion_id p' -> ps_assertion_expires_at p < tj;
}.
Record winv (w : World) : Prop := {
  wi_ledger : ledger w;
  wi_flights : forall i r st, flights w !! i = Some (r, st) -> flight_ok i r st w;
  wi_remembered : remembered w;
}.

(** Nothing recorded is lost. *)
Record grows (w w' : World) : Prop := {
  gr_step : step w w';
  gr_started : exists l, started w' = started w ++ l;
  gr_taken : exists l, taken w' = taken w ++ l;
  gr_accepted : exists l, accepted w' = accepted w ++ l;
  gr_clock : clock w <= clock w';
}.
Lemma step_grows w w' : step w w' -> grows w w'.
Proof. intros Hs. split; [done|..]; destruct Hs; simpl; try (eexists; reflexivity); try (exists []; by rewrite app_nil_r); lia. Qed.

Lemma request_used_grows i r q w w' : grows w w' -> request_used i r q w -> request_used i r q w'.
Proof.
  intros [_ [l1 E1] [l2 E2] _ _] [H1 H2 H3 H4 H5]. split; try done; [rewrite E2|rewrite E1]; apply in_or_app; by left.
Qed.
Lemma checked_grows i r p w w' : grows w w' -> checked i r p w -> checked i r p w'.
Proof.
  intros G (c & q & Hc & Hq & Hp). exists c, q. split; [by eapply since_step, G|]. split; [by eapply request_used_grows|done].
Qed.
Lemma flight_ok_grows i r st w w' : grows w w' -> flight_ok i r st w -> flight_ok i r st w'.
Proof.
  intros G. pose proof (gr_step _ _ G) as Hs. assert (forall e, In e (accepted w) -> In e (accepted w')) as Ha.
  { intros e He. destruct (gr_accepted _ _ G) as [l ->]. apply in_or_app. by left. }
  destruct st as [|c|c p|user_id g|reason|[secret|]]; simpl; try done.
  - intros (H1 & H2 & H3). split; [done|]. split; [done|]. by eapply since_step.
  - by apply checked_grows.
  - intros (p & ti & H1 & H2 & H3). exists p, ti. split; [by eapply checked_grows|]. split; [by apply Ha|by eapply since_step].
  - intros (p & ti & u & g & H1 & H2 & H3 & H4 & H5). exists p, ti, u, g. split; [by eapply checked_grows|]. split; [by apply Ha|].
    split; [by eapply since_step|]. split; [done|by eapply since_step].
Qed.

(** ** The ledger *)

#[local] Arguments count {A} p l : simpl never.
Lemma count_app {A} (p : A -> bool) l l' : count p (l ++ l') = (count p l + count p l')%nat.
Proof. unfold count. by rewrite List.filter_app, length_app. Qed.
Lemma count_filter {A} (p f : A -> bool) l : (count p (List.filter f l) <= count p l)%nat.
Proof. unfold count. induction l as [|y l IH]; simpl; [done|]. destruct (f y); simpl; destruct (p y); simpl; lia. Qed.

Lemma asked_row r q : asked cr r q = true -> rq_relay q = session_digest cr (default EmptyString (ar_relay_state r))
  /\ rq_browser q = default [] (browser_digest cr (ar_headers r)) /\ rq_consumed_at q = None /\ ar_now r < rq_expires_at q.
Proof.
  unfold asked, takeable, digest_eqb. rewrite !andb_true_iff, !bool_decide_eq_true, Z.ltb_lt, negb_true_iff.
  intros [[[H1 H2] H3] H4]. split; [done|]. split; [done|]. split; [by destruct (rq_consumed_at q)|done].
Qed.

Definition used_up (r : AcsRequest) (q : SamlRequest) : SamlRequest := if asked cr r q then consumed_request (ar_now r) q else q.
Lemma used_up_cases r q : asked cr r q = true /\ used_up r q = consumed_request (ar_now r) q \/ asked cr r q = false /\ used_up r q = q.
Proof. unfold used_up. destruct (asked cr r q); auto. Qed.
Lemma used_up_count r relay q l : find (asked cr r) l = Some q ->
  (count (fun q => relay_of relay q && unused q) (map (used_up r) l) + count (relay_of relay) [q] <= count (fun q => relay_of relay q && unused q) l)%nat.
Proof.
  assert (forall l, (count (fun q => relay_of relay q && unused q) (map (used_up r) l) <= count (fun q => relay_of relay q && unused q) l)%nat) as Hle.
  { intros l'. unfold count. induction l' as [|y l' IH]; simpl; [done|]. destruct (used_up_cases r y) as [[_ ->]|[_ ->]].
    - change (unused (consumed_request (ar_now r) y)) with false. rewrite andb_false_r. destruct (_ && _); simpl; lia.
    - destruct (_ && _); simpl; lia. }
  induction l as [|y l IH]; simpl; [done|]. destruct (used_up_cases r y) as [[Ea Eu]|[Ea Eu]]; rewrite Ea, Eu.
  - intros [= ->]. pose proof (Hle l) as H. apply asked_row in Ea as (_ & _ & Hn & _). unfold count in *. simpl.
    change (unused (consumed_request (ar_now r) q)) with false. rewrite andb_false_r. assert (unused q = true) as -> by (unfold unused; by rewrite Hn).
    rewrite andb_true_r. destruct (relay_of relay q); simpl; lia.
  - intros H. specialize (IH H). unfold count in *. simpl in *. destruct (relay_of relay y && unused y); simpl; lia.
Qed.

Lemma acs_step_saml db_ok r st t st' t' : acs_step db_ok r st t = (st', t') ->
  match st with
  | ATake _ => if db_ok then saml_requests t' = map (used_up r) (saml_requests t) /\ saml_seen t' = saml_seen t else t' = t
  | ASign _ p => saml_requests t' = saml_requests t /\ (saml_seen t' = saml_seen t \/ saml_seen t' = saml_seen t ++ [sso_entry p])
  | _ => saml_kept t t'
  end.
Proof.
  destruct st as [|c|c p|user_id g|reason|e]; simpl; destruct db_ok; simpl; try (by intros [= _ <-]); try (intros [= _ <-]; by auto).
  - destruct (sign_in p t) as [[o t1]|] eqn:E; [|intros [= _ <-]; by auto]. apply sign_in_saml in E as (E1 & E2 & _).
    destruct o; intros [= _ <-]; by split.
  - destruct (ar_secret r); [|by intros [= _ <-]]. destruct (create_session _ _) as [[[] s']|]; by intros [= _ <-].
Qed.

(** The requests and the ledger's three lists after a step. *)
Lemma ledger_less w w' : ledger w -> started w' = started w -> taken w' = taken w ->
  (forall q, In q (saml_requests (tables w')) -> In q (saml_requests (tables w))) ->
  (forall p : SamlRequest -> bool, (count p (saml_requests (tables w')) <= count p (saml_requests (tables w)))%nat) -> ledger w'.
Proof.
  intros [H1 H2 H3] Es Et Hin Hc. split; rewrite ?Es, ?Et; try done.
  - intros q Hq. by apply H1, Hin.
  - intros relay. specialize (H3 relay). specialize (Hc (fun q => relay_of relay q && unused q)). lia.
Qed.
Lemma ledger_step w w' : ledger w -> step w w' -> ledger w'.
Proof.
  intros L Hs. pose proof L as [H1 H2 H3]. destruct Hs as [now|random answer t'|r|db_ok i r st st' t' Hi Hc Ha|fuel pointed_at days dn t' Hcl|r1 st1 st1' t1 Hset|actor|s].
  - by apply (ledger_less w).
  - destruct (start_sso_saml cr x saml public_origin_valid public_origin random (clock w) (tables w) answer t' H) as [(En & Hk)|(q & En & Eq & _ & Eu & Ee)]; rewrite En.
    + rewrite app_nil_r. destruct Hk as [[E _]|[E _]]; apply (ledger_less w); try done; simpl; rewrite E; try done; simpl.
      * intros q [Hq _]%filter_In. done.
      * intros p. apply count_filter.
    + split; simpl.
      * intros q'. rewrite Eq. intros [[Hq _]%filter_In|[<-|[]]]%in_app_or; intros Hn; apply in_or_app; [left; by apply H1|right; by left].
      * intros q' [Hq|[<-|[]]]%in_app_or; [by apply H2|done].
      * intros relay. rewrite Eq, !count_app. specialize (H3 relay). simpl.
        pose proof (count_filter (fun q => relay_of relay q && unused q) (fun r => negb (rq_expires_at r <? clock w)) (saml_requests (tables w))).
        unfold count at 3 5. simpl. unfold unused at 2. rewrite Eu. simpl. rewrite andb_true_r. destruct (relay_of relay q); simpl; lia.
  - by apply (ledger_less w).
  - apply acs_step_saml in Ha. destruct st as [|c|c p|user_id g|reason|e];
      try (destruct Ha as [Ha _]; apply (ledger_less w); try done; simpl; [by rewrite app_nil_r|by rewrite Ha|by rewrite Ha]).
    simpl. destruct db_ok; [|subst t'; apply (ledger_less w); try done; simpl; destruct (find _ _); by rewrite app_nil_r].
    destruct Ha as [E _]. split; simpl; rewrite ?E.
    + intros q (q0 & <- & Hq)%in_map_iff. unfold used_up. destruct (asked cr r q0); [done|]. by apply H1.
    + done.
    + intros relay. specialize (H3 relay). destruct (find (asked cr r) (saml_requests (tables w))) as [q|] eqn:Ef.
      * pose proof (used_up_count r relay q _ Ef) as Hu. rewrite count_app. assert (count (fun e : nat * SamlRequest => relay_of relay e.2) [(i, q)] = count (relay_of relay) [q]) as -> by (unfold count; simpl; by destruct (relay_of relay q)). lia.
      * rewrite app_nil_r. assert (map (used_up r) (saml_requests (tables w)) = saml_requests (tables w)) as ->; [|done].
        rewrite <- (map_id (saml_requests (tables w))) at 2. apply map_ext_in. intros q Hq. unfold used_up.
        by rewrite (find_none _ _ Ef q Hq).
  - destruct (clean_saml owner _ _ _ _ _ _ _ Hcl) as [E _]. apply (ledger_less w); try done; simpl; rewrite E; simpl.
    + intros q [Hq _]%filter_In. done.
    + intros p. apply count_filter.
  - destruct (setting_step_saml cr x rfc3339 _ _ _ _ _ _ Hset) as [E _]. apply (ledger_less w); try done; simpl; by rewrite E.
  - destruct (off_write_saml actor (clock w) (tables w)) as [E _]. apply (ledger_less w); try done; simpl; by rewrite E.
  - by apply (ledger_less w).
Qed.

(** ** The responses under way *)

Lemma acs_start_ok i r w : flight_ok i r (acs_start cr r) w.
Proof.
  unfold acs_start. destruct (ar_response r); [|done]. destruct (ar_relay_state r) eqn:Er; [|done]. destruct (browser_digest cr (ar_headers r)) eqn:Eb; [|done].
  simpl. by rewrite Er, Eb.
Qed.

Lemma flight_step_ok db_ok i r st w w' st' t' : ledger w -> flight_ok i r st w -> step w w' ->
  acs_step db_ok r st (tables w) = (st', t') -> started w' = started w ->
  taken w' = taken w ++ newly_taken cr db_ok i r st (tables w) ->
  accepted w' = accepted w ++ newly_accepted lower pg_space gen cr db_ok i (clock w) st (tables w) -> flight_ok i r st' w'.
Proof.
  intros L Hok Hs Ha Es Et Eac. destruct st as [|c|c p|user_id g|reason|e]; simpl in Ha; destruct db_ok; simpl in Ha;
    try (injection Ha as <- _; done); try (injection Ha as <- _; by eapply flight_ok_grows; [apply step_grows|]).
  - destruct (config _ _ _) as [c|] eqn:Ec; injection Ha as <- _; [|done]. destruct Hok as [H1 H2]. split; [done|]. split; [done|]. by eapply since_now.
  - destruct Hok as (H1 & H2 & H3). change (takeable _ _ (ar_now r)) with (asked cr r) in Ha.
    destruct (find (asked cr r) _) as [q|] eqn:Ef; simpl in Ha; [|by injection Ha as <- _].
    destruct (person_of c r (rq_id q)) as [e|p] eqn:Ep; injection Ha as <- _; [done|]. simpl in Et. rewrite Ef in Et.
    apply find_some in Ef as [Hq (R1 & R2 & R3 & R4)%asked_row]. destruct L as [L1 L2 _]. pose proof (L1 q Hq R3) as Hst.
    exists c, q. split; [by eapply since_step|]. split; [|done]. split.
    + rewrite Et. apply in_or_app. right. by left.
    + by rewrite Es.
    + destruct (ar_relay_state r) as [relay|]; [|done]. by exists relay.
    + destruct (browser_digest cr (ar_headers r)); [|done]. simpl in R2. by rewrite R2.
    + by rewrite <- (L2 q Hst).
  - simpl in Eac. destruct (sign_in p (tables w)) as [[o t1]|] eqn:E; [|by injection Ha as <- _].
    destruct o as [user_id g created| | |]; injection Ha as <- <-; try done. exists p, (clock w). split; [by eapply checked_grows; [apply step_grows|]|].
    split; [rewrite Eac; apply in_or_app; right; by left|]. apply (since_now _ _ w); [|done]. by exists created, t1.
  - destruct Hok as (p & ti & Hc & Hin & Hl). destruct (ar_secret r) as [secret|] eqn:Esec; [|by injection Ha as <- _].
    destruct (create_session _ _) as [[[] s]|] eqn:Ecs; injection Ha as <- _; try done.
    exists p, ti, user_id, g. split; [by eapply checked_grows; [apply step_grows|]|].
    split; [rewrite Eac; apply in_or_app; by left|]. split; [by eapply since_step|]. split; [done|]. apply (since_now _ _ w); [|done]. by exists s.
Qed.

Lemma lookup_app_one {A} (l : list A) y i z : (l ++ [y]) !! i = Some z -> l !! i = Some z \/ z = y.
Proof.
  rewrite lookup_app_Some. intros [?|[_ H]]; [by left|right]. destruct (i - length l)%nat as [|k]; [by injection H as <-|by destruct k].
Qed.
Lemma lookup_insert_one {A} (l : list A) i y j z : <[i := y]> l !! j = Some z -> l !! j = Some z \/ (i = j /\ z = y).
Proof.
  destruct (decide (i = j)) as [->|Hn]; [|rewrite list_lookup_insert_ne by done; by left]. intros H. right. split; [done|].
  apply list_lookup_insert_Some in H as [(_ & -> & _)|[? _]]; done.
Qed.

Lemma flights_step w w' : winv w -> step w w' -> forall i r st, flights w' !! i = Some (r, st) -> flight_ok i r st w'.
Proof.
  intros [L F _] Hs i r st. pose proof (step_grows _ _ Hs) as G. assert (flights w !! i = Some (r, st) -> flight_ok i r st w') as Hold.
  { intros Hi. eapply flight_ok_grows; [exact G|by apply F]. }
  destruct Hs as [now|random answer t'|r0|db_ok j r0 st0 st' t' Hi Hc Ha|fuel pointed_at days dn t' Hcl|r1 st1 st1' t1 Hset|actor|s]; simpl; try exact Hold.
  - intros [Hl|[= -> ->]]%lookup_app_one; [by apply Hold|apply acs_start_ok].
  - intros [Hl|[<- [= -> ->]]]%lookup_insert_one; [by apply Hold|].
    eapply (flight_step_ok db_ok j r0 st0 w); try done; [by apply F|apply G].
Qed.

(** ** The assertions accepted *)

Lemma accepted_entry db_ok i now st t r st' t' e : newly_accepted lower pg_space gen cr db_ok i now st t = [e] -> acs_step db_ok r st t = (st', t') ->
  exists c p, st = ASign c p /\ e = (i, now, p) /\ ~ In (sso_sha cr [ps_issuer p; ps_assertion_id p]) (map sn_sha256 (saml_seen t))
    /\ saml_seen t' = saml_seen t ++ [sso_entry p].
Proof.
  destruct st as [|c|c p|user_id g|reason|o]; try done. simpl. destruct (sign_in p t) as [[[user_id g created| | |] t1]|] eqn:E; try done.
  destruct db_ok; [|done]. simpl. intros [= <-] [= _ <-]. apply sign_in_saml in E as (_ & _ & Hn & Hs). by exists c, p.
Qed.
Lemma accepted_cases db_ok i now st t : newly_accepted lower pg_space gen cr db_ok i now st t = [] \/ exists e, newly_accepted lower pg_space gen cr db_ok i now st t = [e].
Proof. destruct st; simpl; try by left. destruct (sign_in p t) as [[[] ?]|]; try by left. destruct db_ok; [right; eauto|by left]. Qed.

(** What is remembered stays until it ends. *)
Lemma seen_step w w' s : step w w' -> In s (saml_seen (tables w)) -> In s (saml_seen (tables w')) \/ sn_expires_at s < clock w'.
Proof.
  intros Hs Hin. assert (In s (saml_seen (forget_expired (clock w) (tables w))) \/ sn_expires_at s < clock w) as Hf.
  { simpl. rewrite filter_In. destruct (Z.ltb_spec (sn_expires_at s) (clock w)) as [Hlt|Hge]; [by right|left]. done. }
  destruct Hs as [now|random answer t'|r0|db_ok j r0 st0 st' t' Hi Hc Ha|fuel pointed_at days dn t' Hcl|r1 st1 st1' t1 Hset|actor|s0]; simpl; try by left.
  - destruct (start_sso_saml cr x saml public_origin_valid public_origin random (clock w) (tables w) answer t' H) as [(_ & [[_ ->]|[_ ->]])|(q & _ & _ & -> & _)]; [by left|done..].
  - left. apply acs_step_saml in Ha. destruct st0 as [|c|c p|user_id g|reason|e]; try (by destruct Ha as [_ ->]).
    + destruct db_ok; [by destruct Ha as [_ ->]|by subst t'].
    + destruct Ha as [_ [->| ->]]; [done|]. apply in_or_app. by left.
  - destruct (clean_saml owner _ _ _ _ _ _ _ Hcl) as [_ ->]. exact Hf.
  - left. by destruct (setting_step_saml cr x rfc3339 _ _ _ _ _ _ Hset) as [_ ->].
  - left. by destruct (off_write_saml actor (clock w) (tables w)) as [_ ->].
Qed.

Lemma flight_stays w w' i r st : step w w' -> flights w !! i = Some (r, st) -> exists st', flights w' !! i = Some (r, st').
Proof.
  intros Hs Hi. destruct Hs as [now|random answer t'|r0|db_ok j r0 st0 st' t' Hj Hc Ha|fuel pointed_at days dn t' Hcl|r1 st1 st1' t1 Hset|actor|s0]; simpl;
    try by exists st.
  - exists st. by apply lookup_app_l_Some.
  - destruct (decide (j = i)) as [->|Hn]; [|exists st; by rewrite list_lookup_insert_ne]. rewrite Hi in Hj. injection Hj as <- <-. exists st'.
    apply list_lookup_insert_eq. by apply lookup_lt_Some in Hi.
Qed.

Lemma remembered_step w w' : winv w -> step w w' -> remembered w'.
Proof.
  intros [L F [R1 R2 R3]] Hs. pose proof (step_grows _ _ Hs) as G.
  assert (accepted w' = accepted w \/ exists i c p, accepted w' = accepted w ++ [(i, clock w, p)] /\ clock w' = clock w
            /\ (exists r, flights w !! i = Some (r, ASign c p))
            /\ ~ In (sso_sha cr [ps_issuer p; ps_assertion_id p]) (map sn_sha256 (saml_seen (tables w)))
            /\ saml_seen (tables w') = saml_seen (tables w) ++ [sso_entry p]) as Hac.
  { destruct Hs; simpl; try by left. destruct (accepted_cases db_ok i (clock w) st (tables w)) as [->|[e E]]; [left; by rewrite app_nil_r|right].
    rewrite E. eapply accepted_entry in E as (c & p & -> & -> & Hn & Hseen); [|done]. exists i, c, p. eauto 10. }
  assert (forall k i ti p, accepted w !! k = Some (i, ti, p) -> In (sso_entry p) (saml_seen (tables w')) \/ ps_assertion_expires_at p < clock w') as Hentry.
  { intros k i ti p Hk. destruct (R1 k i ti p Hk) as [Hin|Hlt]; [by apply (seen_step w w' (sso_entry p))|right]. pose proof (gr_clock _ _ G). lia. }
  assert (forall k i ti p, accepted w !! k = Some (i, ti, p) -> exists r st, flights w' !! i = Some (r, st) /\ checked i r p w') as Hchecked.
  { intros k i ti p Hk. destruct (R2 k i ti p Hk) as (r & st & Hi & Hc). destruct (flight_stays w w' i r st Hs Hi) as [st' Hi'].
    exists r, st'. split; [done|by eapply checked_grows]. }
  destruct Hac as [E|(i0 & c0 & p0 & E & Ec & (r0 & Hi0) & Hn & Hseen)].
  - split; rewrite E; done.
  - split; rewrite E.
    + intros k i ti p [Hk|[= -> -> ->]]%lookup_app_one; [by eapply Hentry|]. left. rewrite Hseen. apply in_or_app. right. by left.
    + intros k i ti p [Hk|[= -> -> ->]]%lookup_app_one; [by eapply Hchecked|]. destruct (flight_stays w w' i0 r0 _ Hs Hi0) as [st' Hi'].
      exists r0, st'. split; [done|]. eapply checked_grows; [done|]. exact (F _ _ _ Hi0).
    + intros k l i j ti tj p p' Hkl Hk Hl Ei Ej. apply lookup_app_one in Hl as Hl'. destruct Hl' as [Hl'|[= -> -> ->]].
      * apply lookup_lt_Some in Hl' as Hlt. rewrite lookup_app_l in Hk by lia. by apply (R3 k l i j ti tj p p').
      * assert (k < length (accepted w))%nat as Hlt. { apply lookup_lt_Some in Hl. rewrite length_app in Hl. simpl in Hl. lia. }
        rewrite lookup_app_l in Hk by done. destruct (R1 k i ti p Hk) as [Hin|?]; [|done]. exfalso. apply Hn. rewrite <- Ei, <- Ej.
        change (sso_sha cr [ps_issuer p; ps_assertion_id p]) with (sn_sha256 (sso_entry p)). by apply in_map.
Qed.

Lemma sso_winv_step w w' : winv w -> step w w' -> winv w'.
Proof. intros H Hs. split; [eapply ledger_step; [apply H|done]|by apply (flights_step w)|by apply (remembered_step w)]. Qed.

(** Nothing is under way. *)
Definition quiet (w : World) : Prop := flights w = [] /\ started w = [] /\ taken w = [] /\ accepted w = [] /\ saml_requests (tables w) = [].
Lemma sso_winv_reached w0 w : quiet w0 -> rtc step w0 w -> winv w.
Proof.
  intros (H1 & H2 & H3 & H4 & H5) Hr. assert (winv w0) as H0.
  { split; [|by rewrite H1|]; split; rewrite ?H1, ?H2, ?H3, ?H4, ?H5; try done. }
  clear H1 H2 H3 H4 H5. induction Hr as [w|w v u Hs _ IH]; [done|]. apply IH. by eapply sso_winv_step.
Qed.

(** ** The claims *)

Lemma person_checked c r request_id p : person_of c r request_id = inr p -> exists xml a e,
  decode_response saml (default EmptyString (ar_response r)) = inr xml
  /\ match idp_signing_certs saml (provider c public_origin) with Some (_ :: _) => True | _ => False end
  /\ parse_xml_response saml (provider c public_origin) xml request_id (ar_clock r) = inr a
  /\ for_us public_origin (default [] (as_conditions a ≫= cd_audience_restrictions)) = true
  /\ as_conditions a ≫= cd_not_on_or_after = Some e /\ ps_assertion_expires_at p = remember_until e
  /\ ps_issuer p = cf_entity_id c /\ ps_assertion_id p = as_id a /\ Some (ps_subject p) = trim <$> as_name_id a
  /\ ps_groups p = groups_of_person to_lowercase c a.
Proof.
  unfold SsoOps.person_of. destruct (decode_response _ _) as [|xml]; [done|]. unfold verify. destruct (idp_signing_certs _ _) as [[|? ?]|]; [done| |done].
  destruct (parse_xml_response _ _ _ _ _) as [|a] eqn:Ep; [done|]. unfold facts. destruct (as_conditions a) as [cd|] eqn:Ecd; [|done]. simpl.
  destruct (negb (is_some _)); [done|]. destruct (for_us _ _) eqn:Ef; [|done]. simpl. destruct (as_name_id a) as [nid|] eqn:En; [|done]. simpl.
  destruct (negb _); [done|]. cbv zeta. simpl. destruct (cd_not_on_or_after cd) as [e|] eqn:Ee; [|done]. intros [= <-].
  exists xml, a, e. by rewrite Ecd, En.
Qed.
Lemma config_certificates stored now c : config x stored now = Some c -> stored sso_ENABLED = Some (JBool true) /\ cf_certificates c <> [].
Proof.
  unfold config. destruct (bool_decide (stored sso_ENABLED = _)) eqn:Ee; [|done]. simpl. destruct (_ || _) eqn:E; [done|]. intros [= <-]. simpl.
  bprop. done.
Qed.

(** C29: a session made through single sign-on comes from a response that (1) used up a request this console started less than five minutes
    before, for the browser whose cookie the response carries, and a relay token is used no more often than it was started; (2) arrived while
    the settings had single sign-on on, with a certificate valid then; (3) the library accepted, as answering exactly that request, under our
    configuration, with every audience restriction naming us; and (4) is of a person let in at that sign-in, for whom the session then was
    made. *)
Theorem sso_session_provenance w0 w i r secret : quiet w0 -> rtc step w0 w -> flights w !! i = Some (r, AEnd (Some secret)) ->
  exists c q xml a p user_id g, request_used i r q w
    /\ (count (fun e => relay_of (rq_relay q) e.2) (taken w) <= count (relay_of (rq_relay q)) (started w))%nat
    /\ past (fun v => stored_value (tables v) sso_ENABLED = Some (JBool true) /\ config x (stored_value (tables v)) (ar_now r) = Some c) w
    /\ cf_certificates c <> []
    /\ decode_response saml (default EmptyString (ar_response r)) = inr xml
    /\ parse_xml_response saml (provider c public_origin) xml (rq_id q) (ar_clock r) = inr a
    /\ for_us public_origin (default [] (as_conditions a ≫= cd_audience_restrictions)) = true
    /\ ps_issuer p = cf_entity_id c /\ Some (ps_subject p) = trim <$> as_name_id a /\ ps_groups p = groups_of_person to_lowercase c a
    /\ let_in p user_id g w /\ ar_secret r = Some secret
    /\ past (fun v => exists s, create_session (acs_session cr r secret user_id g) (signs (tables v)) = Some (true, s)) w.
Proof.
  intros H0 Hr Hi. pose proof (sso_winv_reached w0 w H0 Hr) as [L F _].
  destruct (F _ _ _ Hi) as (p & ti & user_id & g & (c & q & Hc & Hq & Hp) & _ & Hl & Hs & Hm).
  destruct (person_checked c r (rq_id q) p Hp) as (xml & a & e & D & _ & P & A & _ & _ & I & _ & S & Gr).
  exists c, q, xml, a, p, user_id, g. split; [done|]. split; [pose proof (lg_once w L (rq_relay q)); lia|].
  split; [destruct Hc as (v & Hv & Hrv); exists v; split; [|done]; split; [by eapply config_certificates|done]|].
  split; [|done]. destruct Hc as (v & Hv & _). by eapply config_certificates.
Qed.

(** C30: of two sign-ins let through with the same assertion of the same issuer, the second happened only after the time the first was remembered
    until; so, as the library accepts an assertion only until its end and the skew, it waited more than 58 minutes between the library's
    check and the database. *)
Theorem assertion_once w0 w k l i j ti tj p p' :
  (forall sp xml id now a e, parse_xml_response saml sp xml id now = inr a -> as_conditions a ≫= cd_not_on_or_after = Some e -> now <= e + sp_max_clock_skew sp) ->
  quiet w0 -> rtc step w0 w -> (k < l)%nat -> accepted w !! k = Some (i, ti, p) -> accepted w !! l = Some (j, tj, p') ->
  ps_issuer p = ps_issuer p' -> ps_assertion_id p = ps_assertion_id p' ->
  ps_assertion_expires_at p < tj
  /\ (ps_assertion_expires_at p' <= ps_assertion_expires_at p -> exists r st, flights w !! j = Some (r, st) /\ ar_clock r + minutes 58 < tj).
Proof.
  intros Hlaw H0 Hr Hkl Hk Hl Ei Ej. pose proof (sso_winv_reached w0 w H0 Hr) as [_ _ R]. pose proof (rm_pairs w R k l i j ti tj p p' Hkl Hk Hl Ei Ej) as Hlt.
  split; [done|]. intros Hle. destruct (rm_checked w R l j tj p' Hl) as (r & st & Hi & c & q & _ & _ & Hp). exists r, st. split; [done|].
  destruct (person_checked c r (rq_id q) p' Hp) as (xml & a & e & _ & _ & P & _ & Ee & Ex & _). pose proof (Hlaw _ _ _ _ _ _ P Ee) as Hc.
  rewrite Ex in Hle. unfold remember_until, hours in Hle. unfold minutes. change (sp_max_clock_skew (provider c public_origin)) with 120000000 in Hc. lia.
Qed.

(** A sign-in is refused as a replay, as a disabled person, or as a stranger no role is meant for, and then nothing changes; or it leaves
    the person of that issuer and subject, made new when there was none, with exactly the roles named like one of the groups and the roles
    given by hand, every other binding untouched, and it lets them in if there is at least one. *)
Theorem roles_follow_groups p t o t' : sso_wf t -> sign_in p t = Some (o, t') ->
  sso_wf t' /\
  match o with
  | Replay => t' = t /\ In (sso_sha cr [ps_issuer p; ps_assertion_id p]) (map sn_sha256 (saml_seen t))
  | Disabled => t' = t /\ exists u, linked_user (ps_issuer p) (ps_subject p) t = Some u /\ u_enabled u = false
  | NoRole =>
      (t' = t /\ linked_user (ps_issuer p) (ps_subject p) t = None /\ forall role, In role (roles (people t)) -> ~ In (lower (r_name role)) (ps_groups p))
      \/ exists u, signed lower cr p u t t' /\ forall role_id, ~ holds_role t' (u_id u) role_id
  | Allowed user_id g created =>
      exists u, signed lower cr p u t t' /\ user_id = u_id u /\ g = u_generation u /\ (exists role_id, holds_role t' user_id role_id)
        /\ match linked_user (ps_issuer p) (ps_subject p) t with Some u0 => created = false /\ u_id u0 = user_id | None => created = true end
  end.
Proof.
  intros Hw H. destruct (sign_in_outcomes lower gen pg_space cr p t o t' Hw H) as [W O]. split; [done|]. destruct O as [Hin|u Hl Hd|Hl Hn|u created t' Hn S Hc _].
  - by split.
  - split; [done|]. by exists u.
  - left. split; [done|]. split; [done|]. intros role Hr Hg. assert (In (r_id role) (wanted_roles lower (ps_groups p) (people t))) as Hin; [|by rewrite Hn in Hin].
    apply wanted_roles_In. by exists role.
  - destruct (holds_any t' (u_id u)) eqn:Eh.
    + exists u. split; [done|]. split; [done|]. split; [done|]. split; [by apply holds_any_iff|].
      destruct (linked_user _ _ t) as [u0|]; [|by destruct Hc]. by destruct Hc as (-> & -> & _).
    + right. exists u. split; [done|]. intros role Hh. assert (holds_any t' (u_id u) = true) by (apply holds_any_iff; by exists role). congruence.
Qed.
End world.

Section clean.
Context (owner : string -> string).

(** The daily cleanup ends, whatever the number of pages, and then everybody who signs in through the identity provider and had not for
    the given days is gone with their roles, sessions and link, or, when history points at them, holds no role and no live session; the rows
    of everybody else are as they were; and the count of people removed is right. *)
Theorem clean_exact pointed_at inactive_days now t : sso_wf t -> (forall s, In s (sso_users t) -> str_cmp (su_user s) NIL_UUID = Gt) ->
  exists enough, forall fuel, (enough <= fuel)%nat -> exists cleaned t', clean owner fuel pointed_at inactive_days now t = Some (cleaned, t')
    /\ let cutoff := now - days inactive_days in
       (forall s, In s (sso_users t) -> idle cutoff t s = true -> out pointed_at t' (su_user s))
       /\ kept_but (fun id => exists s, In s (sso_users t) /\ idle cutoff t s = true /\ su_user s = id) t t'
       /\ sso_wf t'
       /\ cl_removed cleaned = Z.of_nat (length (List.filter (fun s => idle cutoff t s && negb (pointed_at (su_user s))) (sso_users t))).
Proof.
  intros Hw Hid. set (cutoff := now - days inactive_days). assert (sso_wf (forget_expired now t)) as Hw' by (by destruct Hw).
  set (t0 := forget_expired now t) in *. assert (forall s, In s (pending cutoff NIL_UUID t0) <-> In s (sso_users t) /\ idle cutoff t s = true) as Hp.
  { intros s. rewrite pending_In. change (sso_users t0) with (sso_users t). change (idle cutoff t0 s) with (idle cutoff t s). split; [tauto|].
    intros [H1 H2]. split; [done|]. split; [done|by apply Hid]. }
  exists (S (length (pending cutoff NIL_UUID t0))). intros fuel Hf. unfold clean. fold t0.
  match goal with |- context [clean_loop _ _ _ _ _ _ _ ?d _] => destruct (clean_loop_out owner pointed_at cutoff inactive_days now fuel NIL_UUID d t0 Hw')
    as (cleaned & t' & E & O & K & W & C); [lia|] end.
  exists cleaned, t'. split; [exact E|]. cbv zeta. split; [|split; [|split; [done|]]].
  - intros s Hs Hi. by apply O, Hp.
  - destruct (kept_but_mono _ (fun id => exists s, In s (sso_users t) /\ idle cutoff t s = true /\ su_user s = id) _ _ (fun id H => match proj1 (in_map_iff _ _ _) H with
      ex_intro _ s (conj Eu Hs) => ex_intro _ s (conj (proj1 (proj1 (Hp s) Hs)) (conj (proj2 (proj1 (Hp s) Hs)) Eu)) end) K) as [K1 K2 K3 K4 K5]. by split.
  - rewrite C. simpl cl_removed. rewrite Z.add_0_l. f_equal. unfold removable, pending. change (sso_users t0) with (sso_users t). clear -Hid.
    induction (sso_users t) as [|s l IH]; [done|]. simpl. rewrite (Hid s) by (by left). simpl. rewrite andb_true_r. change (idle cutoff t0 s) with (idle cutoff t s).
    specialize (IH (fun s' Hs' => Hid s' (or_intror Hs'))). destruct (idle cutoff t s); simpl; [|done]. destruct (pointed_at (su_user s)); simpl; by rewrite IH.
Qed.
End clean.

(** ** A concrete sign-in *)

(** The digest is the last 32 bytes; a token of 32 bytes is itself and a fixed tail. *)
Definition ex_sso_crypto : Crypto :=
  {| sha256 := fun l => take 32 (rev l ++ repeat 0 32); base64_encode := fun l => of_bytes l +:+ "-----------"; base64_decode := fun s => Some (take 32 (bytes s));
     nfc := fun s => s; phc_parse := fun _ => None; argon2_verify := fun _ _ => false |}.
Definition ex_x509 : X509 := {| pem_contents := fun _ => Some [1]; der_validity := fun _ => Some (0, 4102444800); from_timestamp := fun n => Some (n * 1000000) |}.
Definition ex_our_side : string := "https://console.example".
Definition ex_assertion : Assertion :=
  {| as_id := "a1"; as_conditions := Some {| cd_not_on_or_after := Some (minutes 10); cd_audience_restrictions := Some [["https://console.example/auth/saml/metadata"]] |};
     as_name_id := Some " ada "; as_attribute_statements := Some [[
       {| an_name := Some "groups"; an_friendly_name := None; an_values := [Some "Operators"; None; Some " "; Some "Staff"] |};
       {| an_name := None; an_friendly_name := Some "email"; an_values := [Some "ada@example.org"] |}]] |}.
(** A response is the id of the request it answers. *)
Definition ex_saml : Saml :=
  {| parse_xml_response := fun sp xml request_id now =>
       if negb (String.eqb xml request_id) then inl AssertionInResponseToInvalid else if minutes 10 + sp_max_clock_skew sp <=? now then inl AssertionExpired else inr ex_assertion;
     idp_signing_certs := fun sp => Some (map bytes (sp_idp_certificates sp));
     authn_redirect := fun _ url id relay => Some (url +:+ "?" +:+ id +:+ relay); standard_decode := fun s => Some (bytes s) |}.

Definition ex_pem : string := BEGIN_CERTIFICATE +:+ newline +:+ "AAAA" +:+ newline +:+ END_CERTIFICATE.
Definition ex_stored (key : string) (v : value) : StoredSetting := {| ss_key := key; ss_value := v; ss_changed_at := 0; ss_changed_by := "root" |}.
Definition ex_sso_settings : list StoredSetting :=
  [ex_stored sso_ENABLED (JBool true); ex_stored sso_IDP_ENTITY_ID (JString "https://idp.example"); ex_stored sso_IDP_SSO_URL (JString "https://idp.example/sso");
   ex_stored sso_IDP_CERTIFICATES (JString ex_pem)].
Definition ex_sso_root : string := "00000000-0000-4000-8000-000000000001".
Definition ex_sso_db : Db :=
  {| users := [ex_user ex_sso_root "root"]; accounts := [];
     roles := [ex_role "admin" "Administrator" true true (map perm_id ALL) []; ex_role "r_ops" "Operators" false false ["hosts.read"] [];
               ex_role "r_lab" "Lab" false false ["hosts.read"] []];
     bindings := [new_binding "b1" (User ex_sso_root) "admin" "cli" 0]; dashboards := []; sessions := []; audit_log := [];
     console_permissions := map perm_id ALL; asset_groups := []; draws := 0 |}.
Definition ex_sso_tables : Tables :=
  {| signs := {| access := ex_sso_db; preauths := []; throttle := []; last_sign_in := [] |}; settings := ex_sso_settings; service_secrets := [];
     console_secrets := []; setting_events := []; sso_users := []; saml_requests := []; saml_seen := []; sso_bindings := [] |}.
Definition ex_sso_start : World := {| tables := ex_sso_tables; clock := 0; flights := []; started := []; taken := []; accepted := [] |}.

Definition ex_uuid (n : nat) : string := "00000000-0000-4000-8000-00000000001" +:+ String (Ascii.ascii_of_nat (97 + n)) EmptyString.
Definition ex_sso_step : World -> World -> Prop :=
  step to_ascii_lowercase to_ascii_lowercase is_whitespace ex_uuid id ex_sso_crypto ex_x509 ex_saml (fun _ => "") true ex_our_side.
Definition ex_acs_step := acs_step to_ascii_lowercase to_ascii_lowercase is_whitespace ex_uuid ex_sso_crypto ex_x509 ex_saml ex_our_side.

(** The browser asks to sign in; a minute later its response is there. *)
Definition ex_start_sso (letter : string) (w : World) : World :=
  let random := (bytes (Text.join "" (repeat letter 16)), bytes letter, bytes (Text.join "" (repeat letter 32))) in
  let '(answer, t) := start_sso ex_sso_crypto ex_x509 ex_saml true ex_our_side (Some random) (clock w) (tables w) in
  {| tables := t; clock := clock w; flights := flights w; started := started w ++ newly_started answer t; taken := taken w; accepted := accepted w |}.
Definition ex_later (now : Z) (w : World) : World :=
  {| tables := tables w; clock := now; flights := flights w; started := started w; taken := taken w; accepted := accepted w |}.
Definition ex_response (letter : string) (w : World) : AcsRequest :=
  {| ar_headers := [("cookie", bytes ("__Host-openvibes-saml=" +:+ Text.join "" (repeat letter 32) +:+ "-----------"))];
     ar_response := Some ("_" +:+ hex (bytes (Text.join "" (repeat letter 16)))); ar_relay_state := Some (letter +:+ "-----------"); ar_now := clock w; ar_clock := clock w;
     ar_secret := Some (letter +:+ "-session") |}.
Definition ex_respond (r : AcsRequest) (w : World) : World :=
  {| tables := tables w; clock := clock w; flights := flights w ++ [(r, acs_start ex_sso_crypto r)]; started := started w; taken := taken w; accepted := accepted w |}.
Fixpoint run_flight (n i : nat) (w : World) : World :=
  match n, flights w !! i with
  | S n, Some (r, st) =>
      let '(st', t') := ex_acs_step true r st (tables w) in
      run_flight n i {| tables := t'; clock := clock w; flights := <[i := (r, st')]> (flights w); started := started w;
                        taken := taken w ++ newly_taken ex_sso_crypto true i r st (tables w);
                        accepted := accepted w ++ newly_accepted to_ascii_lowercase is_whitespace ex_uuid ex_sso_crypto true i (clock w) st (tables w) |}
  | _, _ => w
  end.

Lemma ex_start_sso_step letter w : ex_sso_step w (ex_start_sso letter w).
Proof. unfold ex_start_sso. destruct (start_sso _ _ _ _ _ _ _ _) as [answer t] eqn:E. by eapply StepStart. Qed.
(** The library's clock matters to a response until it is checked. *)
Definition checks_now (w : World) (r : AcsRequest) (st : AcsStage) : Prop := match st with ARead | ATake _ => ar_clock r = clock w | _ => True end.
Lemma checks_now_step w r st st' t' : checks_now w r st -> ex_acs_step true r st (tables w) = (st', t') -> checks_now w r st'.
Proof.
  intros Hc. unfold ex_acs_step. destruct st as [|c|c p|u g|reason|e]; simpl.
  - destruct (config _ _ _); by intros [= <- _].
  - destruct (find _ _); simpl; [|by intros [= <- _]]. destruct (person_of _ _ _ _ _ _); by intros [= <- _].
  - destruct (sign_in _ _ _ _ _ _) as [[[] t]|]; by intros [= <- _].
  - destruct (ar_secret r); [|by intros [= <- _]]. destruct (create_session _ _) as [[[] ?]|]; by intros [= <- _].
  - by intros [= <- _].
  - by intros [= <- _].
Qed.
Lemma run_flight_steps n i w : (forall r st, flights w !! i = Some (r, st) -> checks_now w r st) -> rtc ex_sso_step w (run_flight n i w).
Proof.
  revert w. induction n as [|n IH]; intros w Hc; simpl; [done|]. destruct (flights w !! i) as [[r st]|] eqn:E; [|done].
  destruct (ex_acs_step _ _ _ _) as [st' t'] eqn:Es. pose proof (Hc r st eq_refl) as Hn. eapply rtc_l; [|apply IH].
  - eapply StepFlight; [done| |exact Es]. by destruct st.
  - simpl. intros r0 st0. rewrite list_lookup_insert_eq by (by apply lookup_lt_Some in E). intros [= <- <-]. by apply (checks_now_step w r st st' t').
Qed.

Lemma ex_later_step now w : clock w <= now -> ex_sso_step w (ex_later now w).
Proof. apply StepTime. Qed.
Lemma ex_asked_steps letter now w : clock w <= now -> rtc ex_sso_step w (ex_start_sso letter (ex_later now w)).
Proof. intros H. eapply rtc_l; [by apply (ex_later_step now)|]. apply rtc_once, ex_start_sso_step. Qed.
Lemma ex_start_sso_flights letter w : flights (ex_start_sso letter w) = flights w.
Proof. unfold ex_start_sso. by destruct (start_sso _ _ _ _ _ _ _ _). Qed.
Lemma ex_later_flights now w : flights (ex_later now w) = flights w.
Proof. done. Qed.
Lemma ex_responded_steps n letter w : rtc ex_sso_step w (run_flight n (length (flights w)) (ex_respond (ex_response letter w) w)).
Proof.
  eapply rtc_l; [by apply (StepRespond _ _ _ _ _ _ _ _ _ _ _ _ (ex_response letter w))|]. apply run_flight_steps. intros r st. simpl.
  rewrite lookup_app_r, Nat.sub_diag by done. intros [= <- <-]. by destruct (acs_start _ _).
Qed.

Definition ex_waiting_response : World := ex_later (minutes 1) (ex_start_sso "a" (ex_later 0 ex_sso_start)).
Definition ex_signed_in : World := run_flight 4 0 (ex_respond (ex_response "a" ex_waiting_response) ex_waiting_response).
Lemma ex_signed_in_steps : rtc ex_sso_step ex_sso_start ex_signed_in.
Proof.
  transitivity ex_waiting_response; [|apply (ex_responded_steps 4 "a")]. eapply rtc_r; [by apply (ex_asked_steps "a" 0)|]. apply ex_later_step.
  vm_compute. discriminate.
Qed.
Lemma ex_sso_quiet : quiet ex_sso_start.
Proof. done. Qed.
Example ex_signed_in_view :
  map (fun f => match f.2 with AEnd (Some s) => s | _ => "" end) (flights ex_signed_in) = ["a-session"]
  /\ map (fun b => (b_role b, active b)) (bindings (people (tables ex_signed_in))) = [("admin", true); ("r_ops", true)]
  /\ map u_display_name (users (people (tables ex_signed_in))) = ["root"; "ada@example.org"]
  /\ length (sessions (people (tables ex_signed_in))) = 1%nat.
Proof. vm_compute. auto. Qed.

Lemma sso_session_provenance_witness :
  exists q, request_used ex_sso_crypto 0 (ex_response "a" ex_waiting_response) q ex_signed_in
    /\ (count (fun e => relay_of (rq_relay q) e.2) (taken ex_signed_in) <= count (relay_of (rq_relay q)) (started ex_signed_in))%nat.
Proof.
  destruct (sso_session_provenance to_ascii_lowercase to_ascii_lowercase is_whitespace ex_uuid id ex_sso_crypto ex_x509 ex_saml (fun _ => "") true ex_our_side
    ex_sso_start ex_signed_in 0 (ex_response "a" ex_waiting_response) "a-session" ex_sso_quiet ex_signed_in_steps) as (c & q & xml & a & p & u & g & H1 & H2 & _).
  - vm_compute. reflexivity.
  - exists q. split; [exact H1|exact H2].
Defined.

(** The same assertion answers a second request, but its handler hangs for more than an hour before the database is asked; by then the cleanup
    of a third sign-in has forgotten the first. *)
Definition ex_hanging : World :=
  let w := ex_later (minutes 9) (ex_start_sso "b" (ex_later (minutes 8) ex_signed_in)) in run_flight 2 1 (ex_respond (ex_response "b" w) w).
Definition ex_accepted_again : World := run_flight 1 1 (ex_start_sso "c" (ex_later (minutes 75) ex_hanging)).
Lemma ex_accepted_again_steps : rtc ex_sso_step ex_sso_start ex_accepted_again.
Proof.
  assert (match flights ex_hanging !! 1%nat with Some (_, ASign _ _) => True | _ => False end) as Hi by (vm_compute; exact I).
  transitivity ex_signed_in; [exact ex_signed_in_steps|]. transitivity ex_hanging.
  - etransitivity; [apply (ex_asked_steps "b" (minutes 8)); vm_compute; discriminate|]. eapply rtc_l; [apply (ex_later_step (minutes 9)); vm_compute; discriminate|].
    exact (ex_responded_steps 2 "b" (ex_later (minutes 9) (ex_start_sso "b" (ex_later (minutes 8) ex_signed_in)))).
  - transitivity (ex_start_sso "c" (ex_later (minutes 75) ex_hanging)); [apply ex_asked_steps; vm_compute; discriminate|]. apply run_flight_steps.
    intros r st Hl. rewrite ex_start_sso_flights, ex_later_flights in Hl. rewrite Hl in Hi. destruct st; [destruct Hi|destruct Hi|exact I|destruct Hi..].
Qed.
Definition ex_twice (k : nat) : nat * Z * SsoPerson :=
  default (0%nat, 0, {| ps_issuer := ""; ps_subject := ""; ps_display_name := ""; ps_email := None; ps_assertion_id := ""; ps_assertion_expires_at := 0;
                        ps_groups := []; ps_now := 0 |}) (accepted ex_accepted_again !! k).
Lemma assertion_once_witness :
  ps_assertion_expires_at (ex_twice 0).2 < (ex_twice 1).1.2
  /\ (ps_assertion_expires_at (ex_twice 1).2 <= ps_assertion_expires_at (ex_twice 0).2 ->
      exists r st, flights ex_accepted_again !! (ex_twice 1).1.1 = Some (r, st) /\ ar_clock r + minutes 58 < (ex_twice 1).1.2).
Proof.
  eapply (assertion_once to_ascii_lowercase to_ascii_lowercase is_whitespace ex_uuid id ex_sso_crypto ex_x509 ex_saml (fun _ => "") true ex_our_side
    ex_sso_start ex_accepted_again 0 1 (ex_twice 0).1.1 (ex_twice 1).1.1 (ex_twice 0).1.2 (ex_twice 1).1.2).
  - intros sp xml i now a e. unfold ex_saml. simpl. destruct (String.eqb xml i); simpl; [|discriminate]. destruct (minutes 10 + sp_max_clock_skew sp <=? now) eqn:En; [discriminate|].
    intros [= <-]. simpl. intros [= <-]. apply Z.leb_gt in En. lia.
  - exact ex_sso_quiet.
  - exact ex_accepted_again_steps.
  - lia.
  - vm_compute. reflexivity.
  - vm_compute. reflexivity.
  - vm_compute. reflexivity.
  - vm_compute. reflexivity.
Defined.

Definition ex_person (groups : list string) (assertion_id : string) : SsoPerson :=
  {| ps_issuer := "https://idp.example"; ps_subject := "bea"; ps_display_name := "Bea"; ps_email := None; ps_assertion_id := assertion_id;
     ps_assertion_expires_at := minutes 70; ps_groups := groups; ps_now := minutes 2 |}.
Definition ex_sign_in (p : SsoPerson) (t : Tables) : option (SignIn * Tables) := sign_in to_ascii_lowercase is_whitespace ex_uuid ex_sso_crypto p t.
Definition ex_after (p : SsoPerson) (t : Tables) : Tables := match ex_sign_in p t with Some (_, t) => t | None => t end.

Lemma ex_sso_wf : sso_wf ex_sso_tables.
Proof.
  split; [|by apply NoDup_nil|by apply NoDup_nil|done|done|done]. split.
  - by apply (bool_decide_unpack _); vm_compute.
  - by apply (bool_decide_unpack _); vm_compute.
  - by apply (bool_decide_unpack _); vm_compute.
  - intros b [<-|[]] _; (split; [vm_compute; tauto|by vm_compute]).
  - exists (ex_role "admin" "Administrator" true true (map perm_id ALL) []). split; [by left|]. split; [done|]. split; [done|]. intros p. apply in_map, ALL_In.
Qed.

(** Bea signs in as an operator; later only the lab is left of her groups. *)
Definition ex_bea : Tables := ex_after (ex_person ["lab"; "operators"] "x1") ex_sso_tables.
Lemma ex_bea_wf : sso_wf ex_bea.
Proof.
  refine (proj1 (sign_in_outcomes to_ascii_lowercase ex_uuid is_whitespace ex_sso_crypto (ex_person ["lab"; "operators"] "x1") ex_sso_tables
    (Allowed (ex_uuid 0) 0 true) ex_bea ex_sso_wf _)). vm_compute. reflexivity.
Qed.
Lemma roles_follow_groups_witness :
  sso_wf (ex_after (ex_person ["lab"] "x2") ex_bea)
  /\ map (fun b => (b_role b, active b)) (bindings (people (ex_after (ex_person ["lab"] "x2") ex_bea))) = [("admin", true); ("r_lab", true); ("r_ops", false)].
Proof.
  split; [|vm_compute; reflexivity].
  refine (proj1 (roles_follow_groups to_ascii_lowercase is_whitespace ex_uuid ex_sso_crypto (ex_person ["lab"] "x2") ex_bea (Allowed (ex_uuid 0) 0 false) _ ex_bea_wf _)).
  vm_compute. reflexivity.
Defined.

(** After half a year Bea is gone. *)
Lemma clean_exact_witness : exists fuel cleaned t',
  clean id fuel (fun _ => false) 90 (days 200) ex_bea = Some (cleaned, t') /\ cl_removed cleaned = 1 /\ user_rows t' (ex_uuid 0) = [].
Proof.
  destruct (clean_exact id (fun _ => false) 90 (days 200) ex_bea ex_bea_wf) as [enough H].
  - intros s [<-|[]]. vm_compute. reflexivity.
  - destruct (H enough (le_n _)) as (cleaned & t' & E & O & _ & _ & C). exists enough, cleaned, t'. split; [exact E|]. split; [rewrite C; vm_compute; reflexivity|].
    refine (proj1 (O {| su_user := ex_uuid 0; su_issuer := "https://idp.example"; su_subject := "bea"; su_created_at := minutes 2 |} _ _)).
    + vm_compute. by left.
    + vm_compute. reflexivity.
Defined.

(** Single sign-on can take the last Administrator: Bea is one by her group, so root may lose the role; then her group goes. *)
Example sso_takes_last_administrator :
  let t := ex_after (ex_person ["administrator"] "x1") ex_sso_tables in
  let '(outcome, d) := remove_role (User ex_sso_root) "admin" (ex_uuid 0) (minutes 3) (people t) in
  let t' := ex_after (ex_person [] "x2") (on_people (fun _ => d) t) in
  outcome = Revoked /\ enabled_administrators (people t) = 2 /\ enabled_administrators d = 1 /\ enabled_administrators (people t') = 0.
Proof. vm_compute. auto. Qed.

(** Switching single sign-on off ends its sessions, but a response under way still makes one. *)
Example sign_in_outlives_the_switch :
  let w := run_flight 3 0 (ex_respond (ex_response "a" ex_waiting_response) ex_waiting_response) in
  let off := at_tables (set_setting sso_ENABLED (JBool false) "root" (clock w) (tables w)).2 w in
  let w' := run_flight 1 0 off in
  stored_value (tables w') sso_ENABLED = Some (JBool false)
  /\ map (fun s => is_some (s_revoked_at s)) (sessions (people (tables w'))) = [false].
Proof. vm_compute. auto. Qed.

(** Resetting the switch ends the sessions too, but its row of the audit log does not say how many. *)
Example reset_does_not_count :
  let t := tables ex_signed_in in
  let t' := (reset_setting sso_ENABLED "root" 0 t).2 in
  map (fun s => is_some (s_revoked_at s)) (sessions (people t)) = [false] /\ map (fun s => is_some (s_revoked_at s)) (sessions (people t')) = [true]
  /\ map (fun e => get (sv_detail e) "sso_sessions_revoked") (setting_events t') = [None]
  /\ map (fun e => get (sv_detail e) "sso_sessions_revoked") (setting_events (set_setting sso_ENABLED (JBool false) "root" 0 t).2) = [Some (JPosInt 1)].
Proof. vm_compute. auto. Qed.
