(* ===== verification/SetProps.v ===== *)
(** * Platform settings: what the code promises

    The requests of the settings page run one statement at a time, so that others run between the check of a
    change and its write.  What is stored always fits the catalogue, so a service that reads it agrees with the
    console, and a secret lies in the table its key says.  Single sign-on that is on can be used, unless a
    request that switched it on and one that emptied a setting it needs were both checked before either wrote. *)
From S2P Require Import Prelude RustStd Text BTree Json AccessData AccessRules AccessDb AccessOps SignData SignDb Lines SetData SetDb SetOps SsoDb SsoOps SsoInv SsoProps.
From stdpp Require Import prelude strings list.
From Stdlib Require Import Ascii ZArith Lia.

Open Scope Z_scope.

(** ** The table of settings *)

Definition keyed (t : Tables) : Prop := NoDup (map ss_key (settings t)).

Lemma stored_value_In t key v : keyed t -> stored_value t key = Some v <-> exists s, In s (settings t) /\ ss_key s = key /\ ss_value s = v.
Proof.
  intros Hk. unfold stored_value, all_stored. destruct (find _ _) as [s|] eqn:E; simpl.
  - apply find_some in E as [Hs Ek%String.eqb_eq]. rewrite sort_by_In in Hs. split.
    + intros [= <-]. by exists s.
    + intros (s' & Hs' & Ek' & <-). f_equal. f_equal. apply (NoDup_map_inj ss_key _ _ _ Hk); [done..|congruence].
  - split; [done|]. intros (s & Hs & Ek & _). eapply find_none in E; [|by apply (sort_by_In setting_order)]. by rewrite Ek, String.eqb_refl in E.
Qed.
Lemma stored_same t t' : settings t' = settings t -> stored_value t' = stored_value t.
Proof. intros E. unfold stored_value, all_stored. by rewrite E. Qed.

Lemma store_row_In row l s : NoDup (map ss_key l) -> In s (store_row row l) <-> s = row \/ (In s l /\ ss_key s <> ss_key row).
Proof.
  intros Hk. unfold store_row. destruct (existsb _ l) eqn:E.
  - apply existsb_exists in E as (s0 & Hs0 & E0%String.eqb_eq). rewrite in_map_iff. split.
    + intros (s1 & <- & H1). destruct (String.eqb_spec (ss_key s1) (ss_key row)); auto.
    + intros [->|[Hs Hn]].
      * exists s0. by rewrite E0, String.eqb_refl.
      * exists s. by rewrite (proj2 (String.eqb_neq _ _) Hn).
  - rewrite in_app_iff. simpl. split.
    + intros [Hs|[<-|[]]]; [right|by left]. split; [done|]. intros Ek. rewrite <- not_true_iff_false in E. apply E, existsb_exists. exists s.
      by rewrite Ek, String.eqb_refl.
    + intros [->|[Hs _]]; auto.
Qed.
Lemma store_row_keys row l : NoDup (map ss_key l) -> NoDup (map ss_key (store_row row l)).
Proof.
  intros Hk. unfold store_row. destruct (existsb _ l) eqn:E.
  - rewrite map_map. erewrite map_ext; [exact Hk|]. intros s. simpl. destruct (String.eqb_spec (ss_key s) (ss_key row)); congruence.
  - rewrite map_app. apply NoDup_snoc; [done|]. intros (s & Ek & Hs)%list_elem_of_In%in_map_iff. rewrite <- not_true_iff_false in E. apply E, existsb_exists.
    exists s. by rewrite Ek, String.eqb_refl.
Qed.

Lemma set_setting_settings key v a now t :
  settings (set_setting key v a now t).2 = store_row {| ss_key := key; ss_value := v; ss_changed_at := now; ss_changed_by := a |} (settings t).
Proof. unfold set_setting, end_sso_sessions. cbv zeta. by destruct (_ || _). Qed.
Lemma reset_setting_settings key a now t : keyed t -> settings (reset_setting key a now t).2 = List.filter (fun s => negb (String.eqb (ss_key s) key)) (settings t).
Proof.
  intros Hk. unfold reset_setting, end_sso_sessions. destruct (stored_value t key) eqn:E; simpl; [by destruct (_ || _)|].
  assert (forall l : list StoredSetting, (forall s, In s l -> ss_key s <> key) -> List.filter (fun s => negb (String.eqb (ss_key s) key)) l = l) as H.
  { intros l. induction l as [|s l IH]; intros Hl; [done|]. simpl. rewrite (proj2 (String.eqb_neq _ _)) by (apply Hl; by left). simpl. f_equal. apply IH.
    intros s' Hs'. apply Hl. by right. }
  symmetry. apply H. intros s Hs Ek. assert (stored_value t key = Some (ss_value s)) as E' by (apply stored_value_In; [done|by exists s]). congruence.
Qed.

Lemma set_setting_value key v a now t k : keyed t -> stored_value (set_setting key v a now t).2 k = if String.eqb k key then Some v else stored_value t k.
Proof.
  intros Hk. assert (keyed (set_setting key v a now t).2) as Hk'. { unfold keyed. rewrite set_setting_settings. by apply store_row_keys. }
  apply option_eq. intros w. rewrite stored_value_In, set_setting_settings by done. destruct (String.eqb_spec k key) as [->|Hn].
  - split.
    + intros (s & [->|[_ Hn]]%store_row_In & Ek & <-); done.
    + intros [= <-]. eexists. split; [apply store_row_In; [done|by left]|done].
  - rewrite stored_value_In by done. split; intros (s & Hs & Ek & Ev); exists s; (split; [|done]).
    + apply store_row_In in Hs as [->|[Hs _]]; done.
    + apply store_row_In; [done|]. right. split; [done|]. simpl. congruence.
Qed.
Lemma reset_setting_keyed key a now t : keyed t -> keyed (reset_setting key a now t).2.
Proof.
  intros Hk. unfold keyed. rewrite reset_setting_settings by done. unfold keyed in Hk. induction (settings t) as [|s l IH]; [done|]. simpl in *.
  apply NoDup_cons in Hk as [Hs Hl]. destruct (String.eqb _ _); simpl; [by apply IH|]. apply NoDup_cons. split; [|by apply IH].
  intros (s' & Ek & [Hs' _]%filter_In)%list_elem_of_In%in_map_iff. apply Hs, list_elem_of_In. rewrite <- Ek. by apply in_map.
Qed.
Lemma reset_setting_value key a now t k : keyed t -> stored_value (reset_setting key a now t).2 k = if String.eqb k key then None else stored_value t k.
Proof.
  intros Hk. apply option_eq. intros w. rewrite stored_value_In, reset_setting_settings by (done || by apply reset_setting_keyed).
  destruct (String.eqb_spec k key) as [->|Hn].
  - split; [|done]. intros (s & [_ Hn%negb_true_iff%String.eqb_neq]%filter_In & Ek & _). done.
  - rewrite stored_value_In by done. split; intros (s & Hs & Ek & Ev); exists s; (split; [|done]).
    + by apply filter_In in Hs as [? _].
    + apply filter_In. split; [done|]. apply negb_true_iff, String.eqb_neq. congruence.
Qed.

(** ** The settings and the requests that change them *)

(** The requests of the settings page in progress, each at its next statement. *)
Record SetWorld := { sw_clock : Z; sw_tables : Tables; sw_changes : list (SettingRequest * SettingStage) }.

Section settings.
Context (x : X509) (cr : Crypto) (rfc3339 : Z -> string).
#[local] Notation setting_step := (setting_step x cr rfc3339).
#[local] Notation check_change_at := (check_change_at x cr rfc3339).

(** A text in a body is UTF-8. *)
Definition sent_text (r : SettingRequest) : Prop := forall text, gr_payload r = Some (JString text) -> is_text text.

(** The settings page, the administration command's write, anything that leaves settings and secrets alone, and time. *)
Inductive set_step (w : SetWorld) : SetWorld -> Prop :=
  | SetBegin r : gr_now r = sw_clock w -> sent_text r ->
      set_step w {| sw_clock := sw_clock w; sw_tables := sw_tables w; sw_changes := sw_changes w ++ [(r, setting_start r (sw_tables w))] |}
  | SetGo i r st st' t' : sw_changes w !! i = Some (r, st) -> setting_step (sw_clock w) r st (sw_tables w) = (st', t') ->
      set_step w {| sw_clock := sw_clock w; sw_tables := t'; sw_changes := <[i := (r, st')]> (sw_changes w) |}
  | SetOff actor : set_step w {| sw_clock := sw_clock w; sw_tables := off_write actor (sw_clock w) (sw_tables w); sw_changes := sw_changes w |}
  | SetRest t' : settings t' = settings (sw_tables w) -> service_secrets t' = service_secrets (sw_tables w) ->
      console_secrets t' = console_secrets (sw_tables w) ->
      set_step w {| sw_clock := sw_clock w; sw_tables := t'; sw_changes := sw_changes w |}
  | SetTime now : sw_clock w <= now -> set_step w {| sw_clock := now; sw_tables := sw_tables w; sw_changes := sw_changes w |}.

(** Nothing stored, nobody at work. *)
Definition set_fresh (w : SetWorld) : Prop :=
  settings (sw_tables w) = [] /\ service_secrets (sw_tables w) = [] /\ console_secrets (sw_tables w) = [] /\ sw_changes w = [].

#[local] Notation stored w := (stored_value (sw_tables w)).

(** ** What a write does *)

Lemma setting_start_ok r t :
  match setting_start r t with
  | SRead d v => find_setting (gr_key r) = Some d /\ (exists sent, gr_payload r = Some sent /\ v = sent_value d sent)
      /\ (is_null v = true \/ check d v = inr tt)
  | SWrite d v => find_setting (gr_key r) = Some d /\ (exists sent, gr_payload r = Some sent /\ v = sent_value d sent)
      /\ (is_null v = true \/ check d v = inr tt) /\ RustStd.starts_with (gr_key r) "sso." = false
  | SEnd (SettingSaved _) => False
  | SEnd _ => True
  end.
Proof.
  unfold setting_start. destruct (denied _ _); [done|]. destruct (find_setting (gr_key r)) as [d|] eqn:Ed; [|done].
  destruct (gr_payload r) as [sent|] eqn:Ep; [|done]. cbv zeta. destruct (find_setting_key _ d Ed) as [Ek _].
  destruct (if is_null (sent_value d sent) then _ else _) as [m|[]] eqn:Ec; [done|].
  assert (is_null (sent_value d sent) = true \/ check d (sent_value d sent) = inr tt) as Hc by (destruct (is_null _); auto).
  rewrite Ek. destruct (RustStd.starts_with (gr_key r) "sso.") eqn:Es; split_and!; eauto.
Qed.

Lemma set_secret_rows key s a now t console r : In r (secret_rows console (set_secret key s a now t)) ->
  In r (secret_rows console t) \/ (console = in_console_secrets key /\ s = Some (sr_secret r) /\ sr_key r = key).
Proof.
  unfold set_secret. simpl. destruct (in_console_secrets key) eqn:Eic, console; simpl; try by left.
  all: destruct s as [s|]; [|intros [Hr _]%filter_In; by left].
  all: destruct (existsb _ _); [intros (r0 & <- & Hr)%in_map_iff; destruct (String.eqb (sr_key r0) key); [by right|by left]|].
  all: intros [Hr|[<-|[]]]%in_app_or; [by left|by right].
Qed.
Lemma settings_secrets_kept key v a now t : service_secrets (set_setting key v a now t).2 = service_secrets t /\ console_secrets (set_setting key v a now t).2 = console_secrets t.
Proof. unfold set_setting, end_sso_sessions. cbv zeta. by destruct (_ || _). Qed.
Lemma reset_secrets_kept key a now t : service_secrets (reset_setting key a now t).2 = service_secrets t /\ console_secrets (reset_setting key a now t).2 = console_secrets t.
Proof. unfold reset_setting, end_sso_sessions. destruct (stored_value t key); [|done]. simpl. by destruct (_ || _). Qed.

(** The value a write leaves: none after a reset. *)
Definition left_value (v : value) : option value := if is_null v then None else Some v.

(** A table that differs from [t] at most in one setting. *)
Record differs_at (key : string) (o : option value) (t t' : Tables) : Prop := {
  df_keyed : keyed t';
  df_value : forall k, stored_value t' k = if String.eqb k key then o else stored_value t k;
  df_secrets : forall console, secret_rows console t' = secret_rows console t;
}.
Lemma set_setting_differs key v a now t : keyed t -> differs_at key (Some v) t (set_setting key v a now t).2.
Proof.
  intros Hk. destruct (settings_secrets_kept key v a now t) as [E1 E2]. split.
  - unfold keyed. rewrite set_setting_settings. by apply store_row_keys.
  - intros k. by apply set_setting_value.
  - by intros [].
Qed.
Lemma setting_write_differs now r d v t a t' : keyed t -> is_secret d = false -> setting_write x cr rfc3339 now r d v t = (a, t') ->
  differs_at (sd_key d) (left_value v) t t'.
Proof.
  intros Hk Hs. unfold setting_write, left_value. rewrite Hs. destruct (is_null v); intros [= _ <-]; [|by apply set_setting_differs].
  destruct (reset_secrets_kept (sd_key d) (gr_user r) (gr_now r) t) as [E1 E2]. split.
  - by apply reset_setting_keyed.
  - intros k. by apply reset_setting_value.
  - by intros [].
Qed.
Lemma setting_write_secret now r d v t a t' : is_secret d = true -> setting_write x cr rfc3339 now r d v t = (a, t') ->
  settings t' = settings t /\ forall console row, In row (secret_rows console t') ->
    In row (secret_rows console t) \/ (console = in_console_secrets (sd_key d) /\ v = JString (sr_secret row) /\ sr_key row = sd_key d).
Proof.
  intros Hs. unfold setting_write. rewrite Hs. intros [= _ <-]. split; [done|]. intros console row [H|(? & Hv & ?)]%set_secret_rows; [by left|right].
  split_and!; [done| |done]. destruct v; try done. simpl in Hv. congruence.
Qed.

(** What a step does to the stored values: nothing, the write of one request, or the command's. *)
Lemma values_from w w' : set_step w w' -> keyed (sw_tables w) ->
  keyed (sw_tables w') /\
  ((forall k, stored w' k = stored w k)
   \/ (exists j r d v a, sw_changes w !! j = Some (r, SWrite d v) /\ sw_changes w' !! j = Some (r, SEnd a) /\ is_secret d = false
        /\ forall k, stored w' k = if String.eqb k (sd_key d) then left_value v else stored w k)
   \/ (forall k, stored w' k = if String.eqb k sso_ENABLED then Some (JBool false) else stored w k)).
Proof.
  intros Hs Hk. destruct Hs as [r _ _|i r st st' t' Hi Hst|actor|t' Es _ _|now _]; simpl; try (split; [done|by left]).
  - destruct st as [d v|d v|a]; simpl in Hst; try (injection Hst as <- <-; split; [done|by left]).
    destruct (setting_write _ _ _ _ _ _ _ _) as [a t1] eqn:E. injection Hst as <- <-. destruct (is_secret d) eqn:Esec.
    + destruct (setting_write_secret _ _ _ _ _ _ _ Esec E) as [Es _]. split; [unfold keyed; by rewrite Es|].
      left. by rewrite (stored_same _ _ Es).
    + destruct (setting_write_differs _ _ _ _ _ _ _ Hk Esec E) as [K V _]. split; [done|]. right. left. exists i, r, d, v, a.
      split_and!; try done. apply list_lookup_insert_eq. by apply lookup_lt_is_Some_1.
  - destruct (set_setting_differs sso_ENABLED (JBool false) actor (sw_clock w) (sw_tables w) Hk) as [K V _]. split; [done|]. right. by right.
  - split; [unfold keyed; by rewrite Es|]. left. by rewrite (stored_same _ _ Es).
Qed.

(** A request that is about to write was so before, or has just been checked. *)
Lemma awaiting_from w w' j r d v : set_step w w' -> sw_changes w' !! j = Some (r, SWrite d v) ->
  sw_changes w !! j = Some (r, SWrite d v)
  \/ (sw_tables w' = sw_tables w /\ (RustStd.starts_with (gr_key r) "sso." = false
       \/ (sw_changes w !! j = Some (r, SRead d v) /\ check_change_at (stored w) (sd_key d) v (sw_clock w) = inr tt))).
Proof.
  intros Hs. destruct Hs as [r0 _ _|i r0 st st' t' Hi Hst|actor|t' Es _ _|now _]; simpl; try by left.
  - intros [H|[= -> E]]%lookup_snoc; [by left|right]. split; [done|]. left. pose proof (setting_start_ok r0 (sw_tables w)) as H. rewrite <- E in H. apply H.
  - intros [H|[-> [= -> <-]]]%lookup_inserted; [by left|]. destruct st as [d0 v0|d0 v0|a]; simpl in Hst.
    + injection Hst as Hr <-. unfold setting_read in Hr. destruct (SetOps.check_change_at _ _ _ _ _ _ _) as [|[]] eqn:E; [done|].
      injection Hr as <- <-. right. split; [done|]. by right.
    + by destruct (setting_write _ _ _ _ _ _ _ _).
    + discriminate Hst.
Qed.

(** ** Past moments *)

Context (w0 : SetWorld).
Definition past (P : SetWorld -> Prop) : SetWorld -> Prop := since set_step (fun w => rtc set_step w0 w /\ P w).

Lemma set_past_now P w w' : rtc set_step w0 w -> P w -> set_step w w' -> past P w'.
Proof. intros Hr HP. by apply since_now. Qed.
Lemma set_past_step P w w' : past P w -> set_step w w' -> past P w'.
Proof. apply since_step. Qed.
Lemma past_impl (P Q : SetWorld -> Prop) w : (forall w1, rtc set_step w0 w1 -> rtc set_step w1 w -> P w1 -> Q w1) -> past P w -> past Q w.
Proof. intros H (w1 & [Hr HP] & Hs). exists w1. split; [|done]. split; [done|]. by apply H. Qed.
Lemma clock_rtc w w' : rtc set_step w w' -> sw_clock w <= sw_clock w'.
Proof.
  induction 1 as [|w w1 w' Hs _ IH]; [lia|]. etrans; [|exact IH]. destruct Hs; simpl; lia.
Qed.

(** About to switch single sign-on on; about to empty a setting it needs. *)
Definition switching (w : SetWorld) (i : nat) : Prop :=
  exists r d, sw_changes w !! i = Some (r, SWrite d (JBool true)) /\ sd_key d = sso_ENABLED.
Definition emptying (w : SetWorld) (j : nat) (name : string) : Prop :=
  exists r d v, sw_changes w !! j = Some (r, SWrite d v) /\ sd_key d = name /\ has_text (Some v) = false.
Definition ended (w : SetWorld) (i : nat) : Prop := exists r a, sw_changes w !! i = Some (r, SEnd a).
(** On, and without a setting it needs. *)
Definition half_on (name : string) (w : SetWorld) : Prop := stored w sso_ENABLED = Some (JBool true) /\ has_text (stored w name) = false.
(** Two requests that were both checked and had not yet written at one moment. *)
Definition crossed (name : string) (i j : nat) : SetWorld -> Prop := past (fun w => switching w i /\ emptying w j name).
(** The values are those two such requests left: nothing has put them right since both wrote. *)
Definition raced (name : string) (w : SetWorld) : Prop :=
  exists i j w1, crossed name i j w1 /\ ended w1 i /\ ended w1 j /\ half_on name w1 /\ rtc (fun a b => set_step a b /\ half_on name b) w1 w.

(** ** What the check of a change gives *)

Lemma check_change_complete f key v now : check_change_at f key v now = inr tt ->
  (key = sso_ENABLED -> v = JBool true -> (forall name, In name NEEDED -> has_text (f name) = true) /\ certificate_current x cr rfc3339 f now = true)
  /\ (In key NEEDED -> f sso_ENABLED = Some (JBool true) -> has_text (Some v) = true)
  /\ (key = sso_IDP_CERTIFICATES -> forall text, v = JString text -> exists views, summaries x cr rfc3339 text now true = inr views).
Proof.
  unfold SetOps.check_change_at. intros H. split; [|split].
  - intros -> ->. simpl in H.
    destruct (has_text (f sso_IDP_ENTITY_ID)) eqn:E1, (has_text (f sso_IDP_SSO_URL)) eqn:E2, (has_text (f sso_IDP_CERTIFICATES)) eqn:E3; try discriminate H.
    simpl in H. destruct (certificate_current _ _ _ _ _) eqn:Ec; [|discriminate H]. split; [|done]. by intros name [<-|[<-|[<-|[]]]].
  - intros Hin Hon. destruct (if String.eqb key sso_IDP_CERTIFICATES then _ else _); [done|]. destruct (has_text (Some v)); [done|]. rewrite Hon in H.
    destruct Hin as [<-|[<-|[<-|[]]]]; done.
  - intros -> text ->. simpl in H. destruct (summaries x cr rfc3339 text now true) as [|views]; [done|]. by exists views.
Qed.

Lemma NEEDED_sso name : In name NEEDED -> name <> sso_ENABLED /\ RustStd.starts_with name "sso." = true.
Proof. intros [<-|[<-|[<-|[]]]]; by split. Qed.
Lemma NEEDED_text name d : In name NEEDED -> find_setting name = Some d -> is_secret d = false.
Proof. intros [<-|[<-|[<-|[]]]] [= <-]; done. Qed.
Lemma left_text v : has_text (left_value v) = has_text (Some v).
Proof. by destruct v. Qed.

(** ** Every reachable world *)

(** Stored certificates were readable and current when they were checked. *)
Definition pasted (now : Z) (v : value) : Prop :=
  exists text now0 views, v = JString text /\ is_text text /\ now0 <= now /\ summaries x cr rfc3339 text now0 true = inr views.

Definition asked (r : SettingRequest) (d : SettingDefinition) (v : value) : Prop :=
  sent_text r /\ find_setting (gr_key r) = Some d /\ (exists sent, gr_payload r = Some sent /\ v = sent_value d sent)
  /\ (is_null v = true \/ check d v = inr tt).
(** The check a change of single sign-on passed, while the request ran. *)
Definition passed (i : nat) (r : SettingRequest) (d : SettingDefinition) (v : value) (w : SetWorld) : Prop :=
  RustStd.starts_with (gr_key r) "sso." = true ->
  past (fun w1 => sw_changes w1 !! i = Some (r, SRead d v) /\ check_change_at (stored w1) (gr_key r) v (sw_clock w1) = inr tt) w.
Definition stage_ok (i : nat) (r : SettingRequest) (st : SettingStage) (w : SetWorld) : Prop :=
  match st with
  | SRead d v => asked r d v
  | SWrite d v => asked r d v /\ passed i r d v w
  | SEnd (SettingSaved _) => exists d v, asked r d v /\ passed i r d v w
  | SEnd _ => True
  end.

Definition secret_fits (console : bool) (r : SecretRow) : Prop :=
  in_console_secrets (sr_key r) = console /\ exists d, find_setting (sr_key r) = Some d /\ is_secret d = true /\ check d (JString (sr_secret r)) = inr tt.

Record set_ok (w : SetWorld) : Prop := {
  so_reached : rtc set_step w0 w;
  so_keyed : keyed (sw_tables w);
  so_fits : forall key v, stored w key = Some v -> exists d, find_setting key = Some d /\ is_secret d = false /\ check d v = inr tt;
  so_secrets : forall console r, In r (secret_rows console (sw_tables w)) -> secret_fits console r;
  so_pasted : forall v, stored w sso_IDP_CERTIFICATES = Some v -> pasted (sw_clock w) v;
  so_stages : forall i r st, sw_changes w !! i = Some (r, st) -> stage_ok i r st w;
  so_on : stored w sso_ENABLED = Some (JBool true) -> forall name, In name NEEDED -> has_text (stored w name) = true \/ raced name w;
  so_switching : forall i, switching w i -> forall name, In name NEEDED ->
    has_text (stored w name) = true \/ exists j, crossed name i j w /\ ended w j;
  so_emptying : forall j name, In name NEEDED -> emptying w j name ->
    stored w sso_ENABLED <> Some (JBool true) \/ exists i, crossed name i j w /\ ended w i;
}.

Lemma passed_step i r d v w w' : set_step w w' -> passed i r d v w -> passed i r d v w'.
Proof. intros Hs H E. eapply set_past_step; [by apply H|done]. Qed.
Lemma set_stage_step i r st w w' : set_step w w' -> stage_ok i r st w -> stage_ok i r st w'.
Proof.
  intros Hs. destruct st as [d v|d v|[]]; simpl; try done; intros H.
  - destruct H as [? ?]. split; [done|by eapply passed_step].
  - destruct H as (d & v & ? & ?). exists d, v. split; [done|by eapply passed_step].
Qed.

(** The stages of the requests after a step. *)
Lemma stages_step w w' : set_ok w -> set_step w w' -> forall i r st, sw_changes w' !! i = Some (r, st) -> stage_ok i r st w'.
Proof.
  intros Hw Hs i r st H. pose proof Hs as Hs'. destruct Hs as [r0 _ Ht|i0 r0 st0 st' t' Hi Hst|actor|t' Es _ _|now _]; simpl in H;
    try (eapply set_stage_step; [exact Hs'|by apply Hw]).
  - apply lookup_snoc in H as [H|[= -> ->]]; [eapply set_stage_step; [exact Hs'|by apply Hw]|].
    pose proof (setting_start_ok r0 (sw_tables w)) as Ho. destruct (setting_start r0 (sw_tables w)) as [d v|d v|[]]; simpl; try done.
    split; [by split_and!; try apply Ho|]. intros E. destruct Ho as (_ & _ & _ & Ho). congruence.
  - apply lookup_inserted in H as [H|[-> [= -> ->]]]; [eapply set_stage_step; [exact Hs'|by apply Hw]|].
    pose proof (so_stages w Hw i r0 st0 Hi) as Hok. destruct st0 as [d v|d v|a]; simpl in Hst.
    + injection Hst as <- <-. revert Hs'. unfold setting_read. destruct (SetOps.check_change_at _ _ _ _ _ _ _) as [m|[]] eqn:E; intros Hs'; [done|].
      simpl in *. split; [done|]. intros Esso. eapply set_past_now; [by apply Hw| |exact Hs']. split; [done|].
      destruct Hok as (_ & Ed & _). by apply find_setting_key in Ed as [<- _].
    + destruct (setting_write _ _ _ _ _ _ _ _) as [a t1] eqn:E. injection Hst as <- <-. destruct Hok as [Ha Hp].
      unfold setting_write in E. assert (exists item, a = SettingSaved item) as [item ->].
      { destruct (is_secret d); [|destruct (is_null v)]; injection E as <- _; by eexists. }
      simpl. exists d, v. split; [done|by eapply passed_step].
    + injection Hst as <- <-. by eapply set_stage_step.
Qed.

(** A value about to be written fits; certificates were checked. *)
Lemma awaited_fits w i r d v : set_ok w -> sw_changes w !! i = Some (r, SWrite d v) -> is_secret d = false ->
  sd_key d = gr_key r /\ find_setting (sd_key d) = Some d
  /\ (forall u, left_value v = Some u -> check d u = inr tt)
  /\ (sd_key d = sso_IDP_CERTIFICATES -> forall u, left_value v = Some u -> pasted (sw_clock w) u).
Proof.
  intros Hw Hi Hs. destruct (so_stages w Hw i r _ Hi) as [(Ht & Ed & (sent & Ep & Ev) & Hc) Hp]. destruct (find_setting_key _ d Ed) as [Ek _].
  assert (forall u, left_value v = Some u -> u = v /\ check d v = inr tt) as Hu.
  { unfold left_value. destruct (is_null v); [done|]. intros u [= <-]. split; [done|]. by destruct Hc. }
  split_and!; [done|by rewrite Ek|by intros u [-> Hk]%Hu|]. intros Ecert u [-> Hk]%Hu. rewrite Ek in Ecert.
  destruct (Hp ltac:(by rewrite Ecert)) as (w1 & [_ [_ Hchk]] & Hr1). apply check_change_complete in Hchk as (_ & _ & Hv).
  rewrite Ecert in Ed. injection Ed as <-. destruct v as [| | | | |text| |]; try done.
  destruct (Hv Ecert text eq_refl) as [views Hviews]. exists text, (sw_clock w1), views. split_and!; [done| |by apply clock_rtc|done].
  apply Ht. unfold sent_value in Ev. simpl in Ev. congruence.
Qed.

Lemma values_ok w w' : set_ok w -> set_step w w' ->
  (forall key v, stored w' key = Some v -> exists d, find_setting key = Some d /\ is_secret d = false /\ check d v = inr tt)
  /\ (forall v, stored w' sso_IDP_CERTIFICATES = Some v -> pasted (sw_clock w') v).
Proof.
  intros Hw Hs. assert (forall v, pasted (sw_clock w) v -> pasted (sw_clock w') v) as Hlater.
  { intros v (text & now0 & views & ? & ? & ? & ?). exists text, now0, views. pose proof (clock_rtc w w' (rtc_once _ _ Hs)). split_and!; [done..|lia|done]. }
  destruct (values_from w w' Hs (so_keyed w Hw)) as [_ [Hv|[(j & r & d & v & a & Hj & _ & Hsec & Hv)|Hv]]]; (split; [intros key u|intros u]); rewrite Hv.
  - apply Hw.
  - intros H. by apply Hlater, Hw.
  - destruct (awaited_fits w j r d v Hw Hj Hsec) as (_ & Ed & Hc & _). destruct (String.eqb_spec key (sd_key d)) as [->|]; [|apply Hw]. intros H. exists d. auto.
  - destruct (awaited_fits w j r d v Hw Hj Hsec) as (_ & _ & _ & Hp). destruct (String.eqb_spec sso_IDP_CERTIFICATES (sd_key d)) as [E|]; intros H; apply Hlater; [by apply Hp|by apply Hw].
  - destruct (String.eqb_spec key sso_ENABLED) as [->|]; [|apply Hw]. intros [= <-]. by eexists.
  - intros H. by apply Hlater, Hw.
Qed.

Lemma secrets_step w w' : set_ok w -> set_step w w' -> forall console r, In r (secret_rows console (sw_tables w')) -> secret_fits console r.
Proof.
  intros Hw Hs console r. destruct Hs as [r0 _ _|i r0 st st' t' Hi Hst|actor|t' _ E1 E2|now _]; simpl; try apply Hw.
  - destruct st as [d v|d v|a]; simpl in Hst; try (injection Hst as _ <-; apply Hw).
    destruct (setting_write _ _ _ _ _ _ _ _) as [a t1] eqn:E. injection Hst as _ <-. destruct (is_secret d) eqn:Esec.
    + intros Hr. destruct (setting_write_secret _ _ _ _ _ _ _ Esec E) as [_ Hin]. apply Hin in Hr as [Hr|(-> & -> & Ek)]; [by apply Hw|].
      destruct (so_stages w Hw i r0 _ Hi) as [(_ & Ed & _ & Hc) _]. destruct (find_setting_key _ d Ed) as [Ekd _].
      unfold secret_fits. rewrite Ek. split; [done|]. exists d. rewrite Ekd. split_and!; [done..|]. by destruct Hc.
    + destruct (setting_write_differs _ _ _ _ _ _ _ (so_keyed w Hw) Esec E) as [_ _ ->]. apply Hw.
  - destruct (set_setting_differs sso_ENABLED (JBool false) actor (sw_clock w) (sw_tables w) (so_keyed w Hw)) as [_ _ H]. unfold off_write. rewrite H. apply Hw.
  - destruct console; simpl; [rewrite E2|rewrite E1]; [apply (so_secrets w Hw true)|apply (so_secrets w Hw false)].
Qed.

(** ** The race *)

Lemma ended_step i w w' : set_step w w' -> ended w i -> ended w' i.
Proof.
  intros Hs (r & a & Hi). destruct Hs as [r0 _ _|i0 r0 st st' t' Hi0 Hst|actor|t' _ _ _|now _]; try by exists r, a.
  - exists r, a. by apply lookup_app_l_Some.
  - unfold ended. simpl. destruct (decide (i0 = i)) as [->|]; [|exists r, a; by rewrite list_lookup_insert_ne].
    assert (st = SEnd a) as -> by congruence. injection Hst as <- _. exists r0, a. apply list_lookup_insert_eq. by eapply lookup_lt_Some.
Qed.
Lemma crossed_step name i j w w' : set_step w w' -> crossed name i j w -> crossed name i j w'.
Proof. intros. by eapply set_past_step. Qed.
Lemma crossed_now w w' i j name : set_ok w -> set_step w w' -> switching w i -> emptying w j name -> crossed name i j w'.
Proof. intros Hw Hs Hi Hj. eapply set_past_now; [apply Hw|by split|exact Hs]. Qed.
(** The second of the two writes. *)
Lemma raced_now w w' name i j : set_step w w' -> crossed name i j w -> ended w' i -> ended w' j -> half_on name w' -> raced name w'.
Proof. intros Hs Hc Hi Hj Hh. exists i, j, w'. split_and!; try done. by eapply crossed_step. Qed.
Lemma raced_step name w w' : set_step w w' -> half_on name w' -> raced name w -> raced name w'.
Proof. intros Hs Hh (i & j & w1 & ? & ? & ? & ? & Hr). exists i, j, w1. split_and!; try done. by eapply rtc_r. Qed.

Lemma race_on w w' : set_ok w -> set_step w w' -> stored w' sso_ENABLED = Some (JBool true) ->
  forall name, In name NEEDED -> has_text (stored w' name) = true \/ raced name w'.
Proof.
  intros Hw Hs Hon name Hn. destruct (NEEDED_sso name Hn) as [Hne _]. destruct (has_text (stored w' name)) eqn:Et; [by left|right].
  assert (half_on name w') as Hh by done.
  assert (stored w sso_ENABLED = Some (JBool true) -> has_text (stored w name) = false -> raced name w') as Hold.
  { intros Ho He. destruct (so_on w Hw Ho name Hn) as [?|?]; [congruence|by eapply raced_step]. }
  destruct (values_from w w' Hs (so_keyed w Hw)) as [_ [Hv|[(k & r & d & v & a & Hk & Hk' & Hsec & Hv)|Hv]]]; rewrite Hv in Hon; rewrite Hv in Et.
  - by apply Hold.
  - assert (ended w' k) as Hend by by exists r, a. destruct (String.eqb_spec sso_ENABLED (sd_key d)) as [E|_].
    + rewrite (proj2 (String.eqb_neq name (sd_key d))) in Et by congruence. assert (switching w k) as Hsw.
      { exists r, d. unfold left_value in Hon. destruct (is_null v); [done|]. injection Hon as ->. done. }
      destruct (so_switching w Hw k Hsw name Hn) as [?|(j & Hc & Hj)]; [congruence|].
      by apply (raced_now w w' name k j Hs Hc Hend); [eapply ended_step|].
    + destruct (String.eqb_spec name (sd_key d)) as [->|]; [|by apply Hold]. rewrite left_text in Et.
      destruct (so_emptying w Hw k (sd_key d) Hn) as [?|(i & Hc & Hi)]; [by exists r, d, v|done|].
      by apply (raced_now w w' _ i k Hs Hc); [eapply ended_step| |].
  - rewrite String.eqb_refl in Hon. done.
Qed.

Lemma race_switching w w' i : set_ok w -> set_step w w' -> switching w' i ->
  forall name, In name NEEDED -> has_text (stored w' name) = true \/ exists j, crossed name i j w' /\ ended w' j.
Proof.
  intros Hw Hs (r & d & Hi & Ed) name Hn. destruct (NEEDED_sso name Hn) as [Hne _].
  destruct (awaiting_from w w' i r d (JBool true) Hs Hi) as [Hi'|[E [Hsso|[_ Hc]]]].
  - assert (switching w i) as Hsw by by exists r, d.
    assert (has_text (stored w name) = true \/ exists j, crossed name i j w' /\ ended w' j) as Hbefore.
    { destruct (so_switching w Hw i Hsw name Hn) as [?|(j & ? & ?)]; [by left|]. right. exists j. split; [by eapply crossed_step|by eapply ended_step]. }
    destruct (values_from w w' Hs (so_keyed w Hw)) as [_ [Hv|[(j & r' & d' & v & a & Hj & Hj' & Hsec & Hv)|Hv]]]; rewrite Hv; [done| |].
    + destruct (String.eqb_spec name (sd_key d')) as [->|]; [|done]. rewrite left_text.
      destruct (has_text (Some v)) eqn:Et; [by left|right]. exists j. split; [|by exists r', a]. eapply crossed_now; [done..|]. by exists r', d', v.
    + by rewrite (proj2 (String.eqb_neq _ _) Hne).
  - pose proof (stages_step w w' Hw Hs i r _ Hi) as [(_ & Ef & _) _]. apply find_setting_key in Ef as [Ef _]. rewrite <- Ef, Ed in Hsso. done.
  - rewrite E. left. rewrite Ed in Hc. apply check_change_complete in Hc as (Hc & _). by apply Hc.
Qed.

Lemma race_emptying w w' j name : set_ok w -> set_step w w' -> In name NEEDED -> emptying w' j name ->
  stored w' sso_ENABLED <> Some (JBool true) \/ exists i, crossed name i j w' /\ ended w' i.
Proof.
  intros Hw Hs Hn (r & d & v & Hj & Ed & Et). destruct (NEEDED_sso name Hn) as [Hne Hsso].
  destruct (awaiting_from w w' j r d v Hs Hj) as [Hj'|[E [Hs2|[_ Hc]]]].
  - assert (emptying w j name) as Hem by by exists r, d, v.
    assert (stored w sso_ENABLED <> Some (JBool true) \/ exists i, crossed name i j w' /\ ended w' i) as Hbefore.
    { destruct (so_emptying w Hw j name Hn Hem) as [?|(i & ? & ?)]; [by left|]. right. exists i. split; [by eapply crossed_step|by eapply ended_step]. }
    destruct (values_from w w' Hs (so_keyed w Hw)) as [_ [Hv|[(i & r' & d' & v' & a & Hi & Hi' & Hsec & Hv)|Hv]]]; rewrite Hv; [done| |].
    + destruct (String.eqb_spec sso_ENABLED (sd_key d')) as [E|]; [|done].
      destruct (decide (v' = JBool true)) as [->|Hv']; [|left; unfold left_value; by destruct (is_null v'); [|intros [= ?]]].
      right. exists i. split; [|by exists r', a]. eapply crossed_now; [done..| |done]. by exists r', d'.
    + rewrite String.eqb_refl. by left.
  - pose proof (stages_step w w' Hw Hs j r _ Hj) as [(_ & Ef & _) _]. apply find_setting_key in Ef as [Ef _]. rewrite <- Ef, Ed in Hs2. congruence.
  - rewrite E. left. intros Hon. rewrite Ed in Hc. apply check_change_complete in Hc as (_ & Hc & _). rewrite (Hc Hn Hon) in Et. done.
Qed.

Lemma set_ok_step w w' : set_ok w -> set_step w w' -> set_ok w'.
Proof.
  intros Hw Hs. destruct (values_ok w w' Hw Hs) as [V1 V2]. split; try done.
  - eapply rtc_r; [apply Hw|done].
  - by apply (values_from w w' Hs), Hw.
  - by apply (secrets_step w w').
  - by apply (stages_step w w').
  - by apply (race_on w w').
  - intros i. by apply (race_switching w w').
  - intros j name. by apply (race_emptying w w').
Qed.
Lemma set_reached w : set_fresh w0 -> rtc set_step w0 w -> set_ok w.
Proof.
  intros (E1 & E2 & E3 & E4). apply rtc_ind_r; [|by intros w1 w2 _ Hs Hw; eapply set_ok_step].
  assert (forall k, stored w0 k = None) as Hn by (intros k; unfold stored_value, all_stored; by rewrite E1). split.
  - done.
  - unfold keyed. rewrite E1. by apply NoDup_nil.
  - intros key v. by rewrite Hn.
  - intros []; simpl; [by rewrite E3|by rewrite E2].
  - intros v. by rewrite Hn.
  - intros i r st. by rewrite E4.
  - by rewrite Hn.
  - intros i (r & d & H & _). by rewrite E4 in H.
  - intros j name _ (r & d & v & H & _). by rewrite E4 in H.
Qed.

End settings.

Section switch.
Context (x : X509) (cr : Crypto) (rfc3339 : Z -> string).
#[local] Notation check_change_at := (check_change_at x cr rfc3339).
#[local] Notation update_setting := (update_setting x cr rfc3339).
#[local] Notation set_step := (set_step x cr rfc3339).
#[local] Notation stored w := (stored_value (sw_tables w)).
#[local] Notation check_change_complete := (check_change_complete x cr rfc3339).
#[local] Notation set_reached := (set_reached x cr rfc3339).
#[local] Notation so_on := (so_on x cr rfc3339).
#[local] Notation so_stages := (so_stages x cr rfc3339).
#[local] Notation so_secrets := (so_secrets x cr rfc3339).
#[local] Notation so_pasted := (so_pasted x cr rfc3339).

(** ** Certificates in a trimmed text *)

Lemma str_from_app p after : str_from (String.length p) (p +:+ after) = after.
Proof. unfold str_from. by rewrite bytes_app, <- bytes_length, drop_app_length, of_bytes_bytes. Qed.
Lemma begin_end_spec text block rest : begin_end text = Some (Some (block, rest)) -> (String.length rest < String.length text)%nat.
Proof.
  unfold begin_end. intros ([before from] & Ef & H)%bind_Some. injection H as H. apply bind_Some in H as ([before' from'] & Ef' & H).
  apply (f_equal (fun o => default rest (snd <$> o))) in H. simpl in H. rewrite <- H.
  apply find_str_spec in Ef as [-> _]. apply find_str_spec in Ef' as [-> [after ->]]. change 25%nat with (String.length END_CERTIFICATE). rewrite str_from_app, <- !bytes_length, !bytes_app, !length_app.
  assert (length (bytes END_CERTIFICATE) = 25%nat) by done. lia.
Qed.
Lemma begin_end_within a s b : without 45 a -> without 45 b ->
  begin_end (a +:+ s +:+ b) = (fun found => '(block, rest) ← found; Some (block, rest +:+ b)) <$> begin_end s.
Proof.
  intros Ha Hb. unfold begin_end. rewrite find_str_front; [|eapply Forall_impl; [exact Ha|]; by intros y Hy c t [= <- _] <-|done].
  rewrite (find_str_back BEGIN_CERTIFICATE s b 45); [|exact Hb|by eexists (bytes "-----BEGIN CERTIFICATE----")].
  destruct (find_str BEGIN_CERTIFICATE s) as [[before from]|]; [|done]. simpl. f_equal.
  rewrite (find_str_back END_CERTIFICATE from b 45); [|exact Hb|by eexists (bytes "-----END CERTIFICATE----")].
  destruct (find_str END_CERTIFICATE from) as [[before' from']|] eqn:E; [|done]. simpl. f_equal. f_equal.
  apply find_str_spec in E as (_ & after & ->). assert ((END_CERTIFICATE +:+ after) +:+ b = END_CERTIFICATE +:+ (after +:+ b)) as ->.
  { apply bytes_inj. by rewrite !bytes_app, app_assoc. }
  change 25%nat with (String.length END_CERTIFICATE). by rewrite !str_from_app.
Qed.

Lemma cert_blocks_enough : forall n m s, (String.length s < n)%nat -> (String.length s < m)%nat -> cert_blocks n s = cert_blocks m s.
Proof.
  induction n as [|n IH]; intros m s Hn Hm; [lia|]. destruct m as [|m]; [lia|]. simpl. destruct (begin_end s) as [[[block rest]|]|] eqn:E; [|done|done].
  apply begin_end_spec in E. by rewrite (IH m rest) by lia.
Qed.
Lemma cert_blocks_back : forall n s b, without 45 b -> cert_blocks n (s +:+ b) = cert_blocks n s.
Proof.
  induction n as [|n IH]; intros s b Hb; [done|]. simpl. pose proof (begin_end_within EmptyString s b) as E. simpl in E.
  rewrite E; [|by apply Forall_nil|done]. destruct (begin_end s) as [[[block rest]|]|]; [|done|done]. simpl. by rewrite IH.
Qed.
Lemma blocks_of_trim text : is_text text -> blocks_of (trim text) = blocks_of text.
Proof.
  intros Ha. destruct (trim_text text Ha) as (a & b & E & H). destruct (H 45 ltac:(lia) eq_refl) as [Fa Fb]. unfold blocks_of.
  rewrite (cert_blocks_enough (S (String.length (trim text))) (S (String.length text)) (trim text)); [|lia|].
  2:{ rewrite E at 2. rewrite <- !bytes_length, !bytes_app, !length_app. lia. }
  rewrite E at 4. simpl. rewrite begin_end_within by done. destruct (begin_end (trim text)) as [[[block rest]|]|]; [|done|done]. simpl. by rewrite cert_blocks_back.
Qed.

(** ** Switching on *)

Lemma read_certificates_ok now strict cut : forall l seen views views', read_certificates x cr rfc3339 now strict cut l seen views = inr views' ->
  forall block, In block l -> exists digest from until, read_certificate x cr block = Some (digest, from, until) /\ (strict = true -> from <= now + minutes 2).
Proof.
  induction l as [|block0 l IH]; intros seen views views'; simpl; [done|]. destruct (read_certificate x cr block0) as [[[digest from] until]|] eqn:E; [|done].
  destruct (strict && (until <=? now)); [done|]. destruct (strict && _) eqn:Ef; [done|]. destruct (existsb _ seen); [done|].
  intros H block [<-|Hin]; [|by eapply IH]. exists digest, from, until. split; [done|]. intros ->. simpl in Ef. by apply Z.ltb_ge in Ef.
Qed.
Lemma read_certificates_view now strict cut : forall l seen views views', read_certificates x cr rfc3339 now strict cut l seen views = inr views' ->
  forall v, In v views' -> In v views \/ exists block digest from until, In block l /\ read_certificate x cr block = Some (digest, from, until) /\ iv_expired v = (until <=? now).
Proof.
  induction l as [|block0 l IH]; intros seen views views'; simpl; [destruct cut; [done|]; intros [= <-]; by left|].
  destruct (read_certificate x cr block0) as [[[digest from] until]|] eqn:E; [|done].
  destruct (strict && (until <=? now)); [done|]. destruct (strict && _); [done|]. destruct (existsb _ seen); [done|]. intros H v Hv.
  destruct (IH _ _ _ H v Hv) as [[Hin|[<-|[]]]%in_app_or|(b & d & f & u & ? & ? & ?)]; [by left| |].
  - right. exists block0, digest, from, until. split; [by left|done].
  - right. exists b, d, f, u. split; [by right|done].
Qed.
Lemma read_current block digest from until now : read_certificate x cr block = Some (digest, from, until) -> now < until -> from <= now + minutes 2 ->
  is_some (current_body x now block) = true.
Proof.
  unfold read_certificate, current_body. intros (pem & Ep & (d & _ & (f & Ef & (u & Eu & [= _ -> ->])%bind_Some)%bind_Some)%bind_Some)%bind_Some Hu Hf.
  rewrite Ep. simpl. rewrite Ef. simpl. rewrite Eu. simpl.
  by rewrite (proj2 (Z.leb_gt _ _) Hu), (proj2 (Z.ltb_ge _ _) Hf).
Qed.

(** C32: whatever requests of the settings page and the administration command were sent, at whatever moment each of their
    statements ran, every stored setting has a definition that is no secret's and fits it; every row of the console's table
    of secrets has a key of the assistant, every row of the services' table one that is not; and each of them has the
    definition of a secret and fits it. *)
Theorem stored_always_fit w0 w : set_fresh w0 -> rtc set_step w0 w ->
  (forall key v, stored w key = Some v -> exists d, find_setting key = Some d /\ is_secret d = false /\ check d v = inr tt)
  /\ (forall r, In r (console_secrets (sw_tables w)) -> exists rest, sr_key r = "assistant." +:+ rest)
  /\ (forall r, In r (service_secrets (sw_tables w)) -> forall rest, sr_key r <> "assistant." +:+ rest)
  /\ (forall r, In r (console_secrets (sw_tables w) ++ service_secrets (sw_tables w)) ->
        exists d, find_setting (sr_key r) = Some d /\ is_secret d = true /\ check d (JString (sr_secret r)) = inr tt).
Proof.
  intros H0 Hr. pose proof (set_reached w0 w H0 Hr) as Hw. split_and!.
  - apply Hw.
  - intros r H. destruct (so_secrets w0 w Hw true r H) as [E _]. by apply starts_with_app.
  - intros r H rest E. destruct (so_secrets w0 w Hw false r H) as [E' _]. unfold in_console_secrets in E'.
    rewrite (proj2 (starts_with_app _ _)) in E'; [done|by exists rest].
  - intros r [H|H]%in_app_or; [by apply (so_secrets w0 w Hw true r H)|by apply (so_secrets w0 w Hw false r H)].
Qed.

(** The values with the switch on. *)
Definition switched_on (f : string -> option value) (key : string) : option value :=
  if String.eqb key sso_ENABLED then Some (JBool true) else f key.

Lemma blank_text f name : In name NEEDED -> has_text (f name) = false -> is_empty (text_of f name) = true.
Proof.
  intros Hn H. unfold text_of, has_text in *. destruct (f name ≫= as_str) as [s|].
  - simpl. apply trim_blank. by destruct (is_blank s).
  - by destruct Hn as [<-|[<-|[<-|[]]]].
Qed.
(** Without one of the three the sign-in has no configuration. *)
Lemma config_none f name now : In name NEEDED -> has_text (f name) = false -> config x f now = None.
Proof.
  intros Hn H. pose proof (blank_text f name Hn H) as Ht. unfold config. destruct (negb _); [done|].
  destruct Hn as [<-|[<-|[<-|[]]]]; rewrite ?Ht, ?orb_true_r; try done.
  destruct (text_of f sso_IDP_CERTIFICATES); [|done]. rewrite (bool_decide_true (current_bodies x "" now = [])) by done. by rewrite orb_true_r.
Qed.

(** With all that the check of the switch asks for, it has one. *)
Lemma config_ready f f' now : check_change_at f sso_ENABLED (JBool true) now = inr tt ->
  (forall v, f sso_IDP_CERTIFICATES = Some v -> pasted x cr rfc3339 now v) ->
  f' sso_ENABLED = Some (JBool true) -> (forall name, In name NEEDED -> f' name = f name) ->
  exists c, config x f' now = Some c /\ cf_certificates c <> [].
Proof.
  intros Hc Hp Hon Hsame. apply check_change_complete in Hc as (Hc & _). destruct (Hc eq_refl eq_refl) as [Hneed Hcur].
  assert (forall name, In name NEEDED -> is_empty (text_of f' name) = false) as Htext.
  { intros name Hin. unfold text_of. rewrite Hsame by done. specialize (Hneed name Hin). unfold has_text in Hneed. destruct (f name ≫= as_str) as [s|]; [|done].
    simpl. apply trim_nonempty. by destruct (is_blank s). }
  assert (current_bodies x (text_of f' sso_IDP_CERTIFICATES) now <> []) as Hbodies.
  { unfold certificate_current in Hcur. unfold text_of. rewrite Hsame by (right; right; by left). destruct (f sso_IDP_CERTIFICATES) as [v|] eqn:Ev; [|done].
    destruct (Hp v eq_refl) as (text & now0 & views0 & -> & Htxt & Hle & Hs).
    change (Some (JString text) ≫= as_str) with (Some text) in *. cbn [from_option id]. cbv beta iota in Hcur. destruct (summaries x cr rfc3339 text now false) as [|views] eqn:Esum; [discriminate Hcur|].
    apply existsb_exists in Hcur as (view & Hv & Hx). destruct (read_certificates_view _ _ _ _ _ _ _ Esum view Hv) as [[]|(block & digest & from & until & Hb & Er & Ex)].
    destruct (read_certificates_ok _ _ _ _ _ _ _ Hs block Hb) as (digest' & from' & until' & Er' & Hf). rewrite Er in Er'. injection Er' as <- <- <-.
    specialize (Hf eq_refl). rewrite Ex in Hx. apply negb_true_iff, Z.leb_gt in Hx. unfold current_bodies. rewrite blocks_of_trim by done.
    pose proof (read_current block digest from until now Er Hx ltac:(lia)) as Hbody. destruct (current_body x now block) as [body|] eqn:Ebody; [|done].
    intros En. assert (body ∈ omap (current_body x now) (blocks_of text).1) as Hin; [|by rewrite En in Hin; apply not_elem_of_nil in Hin].
    apply list_elem_of_omap. exists block. split; [by apply list_elem_of_In|done]. }
  unfold config. rewrite (bool_decide_true _ Hon), (Htext sso_IDP_ENTITY_ID), (Htext sso_IDP_SSO_URL) by (unfold NEEDED; auto with datatypes).
  cbn [negb orb]. rewrite bool_decide_false by done. by eexists.
Qed.

(** C31: single sign-on that is on has its entity ID, sign-in address and certificates, or else a request that switched it on
    and one that emptied the missing setting were both checked before either wrote, both have written, and nothing has put it
    right since ([race_leaves_half_on] is such a run); then no sign-in finds a configuration. A saved switch-on was checked,
    while its request ran, against stored values with which the sign-in has a complete configuration with a certificate valid
    at that moment; and right after a switch-on that runs alone it finds such a configuration. *)
Theorem switch_ready w0 w : set_fresh w0 -> rtc set_step w0 w ->
  (stored w sso_ENABLED = Some (JBool true) -> forall name, In name NEEDED ->
     has_text (stored w name) = true
     \/ (raced x cr rfc3339 w0 name w /\ forall now, config x (stored w) now = None))
  /\ (forall i r item, sw_changes w !! i = Some (r, SEnd (SettingSaved item)) -> gr_key r = sso_ENABLED -> gr_payload r = Some (JBool true) ->
     past x cr rfc3339 w0 (fun w1 => (exists d, sw_changes w1 !! i = Some (r, SRead d (JBool true)))
       /\ exists c, config x (switched_on (stored w1)) (sw_clock w1) = Some c /\ cf_certificates c <> []) w)
  /\ forall user_id item t', update_setting user_id sso_ENABLED (Some (JBool true)) (sw_clock w) (sw_tables w) = (SEnd (SettingSaved item), t') ->
     exists c, config x (stored_value t') (sw_clock w) = Some c /\ cf_certificates c <> [].
Proof.
  intros H0 Hr. pose proof (set_reached w0 w H0 Hr) as Hw. split_and!.
  - intros Hon name Hn. destruct (has_text (stored w name)) eqn:Et; [by left|right].
    destruct (so_on w0 w Hw Hon name Hn) as [?|Hrace]; [congruence|]. split; [exact Hrace|]. intros now. by eapply config_none.
  - intros i r item Hi Ek Ep. destruct (so_stages w0 w Hw i r _ Hi) as (d & v & (_ & Ed & (sent & Es & Ev) & _) & Hp).
    rewrite Ek in Ed. injection Ed as <-. assert (v = JBool true) as -> by (rewrite Ep in Es; injection Es as <-; done).
    eapply past_impl; [|apply Hp; by rewrite Ek]. intros w1 Hr1 _ [Hi1 Hc]. split; [by eexists|]. rewrite Ek in Hc.
    apply (config_ready _ _ _ Hc); [|done|].
    + intros u. apply (so_pasted w0 w1 (set_reached w0 w1 H0 Hr1)).
    + intros name Hn. unfold switched_on. by rewrite (proj2 (String.eqb_neq _ _) (proj1 (NEEDED_sso name Hn))).
  - intros user_id item t'. unfold SetOps.update_setting. set (r := {| gr_user := user_id; gr_key := _; gr_payload := _; gr_now := _ |}).
    pose proof (setting_start_ok r (sw_tables w)) as Ho. destruct (setting_start r (sw_tables w)) as [d v|d v|a]; simpl.
    + destruct Ho as (Ed & (sent & [= <-] & ->) & _). injection Ed as <-. unfold setting_read.
      match goal with |- context [sent_value ?d ?v] => change (sent_value d v) with (JBool true) in * end.
      destruct (SetOps.check_change_at _ _ _ _ _ _ _) as [|[]] eqn:Hc; [done|]. simpl. intros [= _ <-].
      assert (forall k, stored_value (set_setting sso_ENABLED (JBool true) user_id (sw_clock w) (sw_tables w)).2 k
                        = switched_on (stored w) k) as Hv by (intros k; apply set_setting_value, Hw).
      apply (config_ready _ _ _ Hc); [apply (so_pasted w0 w Hw)|by rewrite Hv|].
      intros name Hn. rewrite Hv. unfold switched_on. by rewrite (proj2 (String.eqb_neq _ _) (proj1 (NEEDED_sso name Hn))).
    + destruct Ho as (_ & _ & _ & Ho). done.
    + intros [= -> _]. done.
Qed.
End switch.

(** ** The theorems at a concrete input: four requests that set single sign-on up, each alone *)

(** A request begun, and the next statement of one. *)
Definition begin_change (r : SettingRequest) (w : SetWorld) : SetWorld :=
  {| sw_clock := sw_clock w; sw_tables := sw_tables w; sw_changes := sw_changes w ++ [(r, setting_start r (sw_tables w))] |}.
Definition go_change (i : nat) (w : SetWorld) : SetWorld :=
  match sw_changes w !! i with
  | Some (r, st) =>
      let '(st', t') := setting_step ex_x509 ex_sso_crypto (fun _ => "") (sw_clock w) r st (sw_tables w) in
      {| sw_clock := sw_clock w; sw_tables := t'; sw_changes := <[i := (r, st')]> (sw_changes w) |}
  | None => w
  end.
Definition ex_set_step : SetWorld -> SetWorld -> Prop := set_step ex_x509 ex_sso_crypto (fun _ => "").
Lemma go_change_steps i w : rtc ex_set_step w (go_change i w).
Proof.
  unfold go_change. destruct (sw_changes w !! i) as [[r st]|] eqn:E; [|apply rtc_refl].
  destruct (setting_step _ _ _ _ _ _ _) as [st' t'] eqn:Es. apply rtc_once. by eapply SetGo.
Qed.
Lemma begin_change_steps r w : gr_now r = sw_clock w -> sent_text r -> rtc ex_set_step w (begin_change r w).
Proof. intros E Ht. apply rtc_once. by apply SetBegin. Qed.

Definition ex_ask (key : string) (v : value) : SettingRequest := {| gr_user := ex_sso_root; gr_key := key; gr_payload := Some v; gr_now := 5 |}.
Definition alone (r : SettingRequest) (w : SetWorld) : SetWorld :=
  let i := length (sw_changes w) in go_change i (go_change i (begin_change r w)).
Lemma alone_steps r w : gr_now r = sw_clock w -> sent_text r -> rtc ex_set_step w (alone r w).
Proof. intros E Ht. unfold alone. etrans; [by apply begin_change_steps|]. etrans; apply go_change_steps. Qed.

Definition ex_fresh : SetWorld :=
  {| sw_clock := 5;
     sw_tables := {| signs := signs ex_sso_tables; settings := []; service_secrets := []; console_secrets := []; setting_events := [];
                     sso_users := []; saml_requests := []; saml_seen := []; sso_bindings := [] |};
     sw_changes := [] |}.
Lemma ex_fresh_ok : set_fresh ex_fresh.
Proof. by split_and!. Qed.
Definition ex_entity : SettingRequest := ex_ask sso_IDP_ENTITY_ID (JString "https://idp.example").
Definition ex_address : SettingRequest := ex_ask sso_IDP_SSO_URL (JString "https://idp.example/sso").
Definition ex_certs : SettingRequest := ex_ask sso_IDP_CERTIFICATES (JString ex_pem).
Definition ex_switch : SettingRequest := ex_ask sso_ENABLED (JBool true).
Definition ex_key_of_model : SettingRequest := ex_ask assistant_API_KEY (JString "secret").
Definition ex_prepared : SetWorld := alone ex_key_of_model (alone ex_certs (alone ex_address (alone ex_entity ex_fresh))).
Definition ex_switched : SetWorld := alone ex_switch ex_prepared.

Ltac sent_text_ok := intros text E; vm_compute in E; first [discriminate E|injection E as <-; vm_compute; reflexivity].
Lemma ex_prepared_steps : rtc ex_set_step ex_fresh ex_prepared.
Proof.
  unfold ex_prepared. etrans; [apply (alone_steps ex_entity); [reflexivity|sent_text_ok]|].
  etrans; [apply (alone_steps ex_address); [vm_compute; reflexivity|sent_text_ok]|].
  etrans; [apply (alone_steps ex_certs); [vm_compute; reflexivity|sent_text_ok]|].
  apply (alone_steps ex_key_of_model); [vm_compute; reflexivity|sent_text_ok].
Qed.
Lemma ex_switched_steps : rtc ex_set_step ex_fresh ex_switched.
Proof. etrans; [exact ex_prepared_steps|]. apply alone_steps; [vm_compute; reflexivity|sent_text_ok]. Qed.
Example ex_prepared_view :
  map ss_key (settings (sw_tables ex_prepared)) = [sso_IDP_ENTITY_ID; sso_IDP_SSO_URL; sso_IDP_CERTIFICATES]
  /\ map sr_key (console_secrets (sw_tables ex_prepared)) = [assistant_API_KEY] /\ service_secrets (sw_tables ex_prepared) = [].
Proof. vm_compute. auto. Qed.

Lemma stored_always_fit_witness :
  stored_value (sw_tables ex_prepared) sso_IDP_SSO_URL = Some (JString "https://idp.example/sso")
  /\ (exists d, find_setting sso_IDP_SSO_URL = Some d /\ is_secret d = false /\ check d (JString "https://idp.example/sso") = inr tt)
  /\ exists r d, In r (console_secrets (sw_tables ex_prepared)) /\ find_setting (sr_key r) = Some d /\ is_secret d = true.
Proof.
  destruct (stored_always_fit ex_x509 ex_sso_crypto (fun _ => "") ex_fresh ex_prepared ex_fresh_ok ex_prepared_steps) as (Hf & _ & _ & Hs).
  assert (stored_value (sw_tables ex_prepared) sso_IDP_SSO_URL = Some (JString "https://idp.example/sso")) as E by (vm_compute; reflexivity).
  split; [exact E|]. split; [exact (Hf _ _ E)|].
  set (r := {| sr_key := assistant_API_KEY; sr_secret := "secret"; sr_changed_at := 5; sr_changed_by := ex_sso_root |}).
  assert (In r (console_secrets (sw_tables ex_prepared))) as Hr by (vm_compute; left; reflexivity).
  destruct (Hs r (in_or_app _ _ _ (or_introl Hr))) as (d & H1 & H2 & _). exists r, d. split; [exact Hr|]. split; [exact H1|exact H2].
Defined.

(** The request that switched single sign-on on was saved, and checked against a complete configuration. *)
Lemma switch_ready_witness :
  stored_value (sw_tables ex_switched) sso_ENABLED = Some (JBool true)
  /\ past ex_x509 ex_sso_crypto (fun _ => "") ex_fresh (fun w1 => (exists d, sw_changes w1 !! 4%nat = Some (ex_switch, SRead d (JBool true)))
       /\ exists c, config ex_x509 (switched_on (stored_value (sw_tables w1))) (sw_clock w1) = Some c /\ cf_certificates c <> []) ex_switched.
Proof.
  destruct (switch_ready ex_x509 ex_sso_crypto (fun _ => "") ex_fresh ex_switched ex_fresh_ok ex_switched_steps) as (_ & Hs & _).
  split; [vm_compute; reflexivity|].
  assert (exists item, sw_changes ex_switched !! 4%nat = Some (ex_switch, SEnd (SettingSaved item))) as [item E]
    by (eexists; vm_compute; reflexivity).
  exact (Hs 4%nat ex_switch item E eq_refl eq_refl).
Defined.

(** The switch and the removal of the entity ID, each checked before the other wrote: single sign-on is on without
    an entity ID, and nobody can sign in through it. *)
Definition ex_unset : SettingRequest := ex_ask sso_IDP_ENTITY_ID JNull.
Definition ex_raced : SetWorld :=
  go_change 5 (go_change 4 (go_change 5 (go_change 4 (begin_change ex_unset (begin_change ex_switch ex_prepared))))).
Example race_leaves_half_on :
  rtc ex_set_step ex_fresh ex_raced
  /\ stored_value (sw_tables ex_raced) sso_ENABLED = Some (JBool true) /\ stored_value (sw_tables ex_raced) sso_IDP_ENTITY_ID = None
  /\ forallb (fun e => match e.2 with SEnd (SettingSaved _) => true | _ => false end) (sw_changes ex_raced) = true.
Proof.
  split; [|split; [vm_compute; reflexivity|split; vm_compute; reflexivity]].
  etrans; [exact ex_prepared_steps|].
  etrans; [apply (begin_change_steps ex_switch); [vm_compute; reflexivity|sent_text_ok]|].
  etrans; [apply (begin_change_steps ex_unset); [vm_compute; reflexivity|sent_text_ok]|].
  etrans; [apply (go_change_steps 4)|]. etrans; [apply (go_change_steps 5)|]. etrans; [apply (go_change_steps 4)|]. apply (go_change_steps 5).
Qed.
