(* ===== verification/FetchServe.v ===== *)
(** * The filter of outgoing queries (openvibes-fetch/src/filter.rs); below, the helper that serves them

    What the assistant asks of the internet passes here first.  [to_lowercase] and [is_numeric] are those of Rust's [str]
    and [char]. *)
From S2P Require Import Prelude RustStd Text BTree Json NetAddr Lines SetData.
From stdpp Require Import prelude strings list pretty.
From Stdlib Require Import Ascii ZArith Lia.

Open Scope Z_scope.

Definition MAX_QUERY : nat := 200.

(** [Refusal] of protocol.rs. *)
Inductive Refusal := Off | Blocked | Invalid | Unavailable | TooLarge.

(** ** Public identifiers *)

Definition id_char (c : Z) : bool := is_ascii_alphanumeric c || (c =? 58) || (c =? 45).
Definition is_public_id (id : string) : bool :=
  match split_once "-" id with
  | None => false
  | Some (prefix, rest) =>
      let digits := span is_ascii_digit (bytes rest) in
      (str_len id <=? 64) && forallb id_char (bytes id)
      && (2 <=? str_len prefix) && (str_len prefix <=? 8) && forallb is_ascii_uppercase (bytes prefix)
      && (3 <=? length digits.1)%nat
      && match digits.2 with c :: _ => (c =? 45) || (c =? 58) | [] => false end
  end.

Definition upper_prefix (id : string) : string :=
  match split_once "-" id with
  | Some (prefix, rest) => to_ascii_uppercase prefix +:+ "-" +:+ rest
  | None => id
  end.

(** ** Words, schemes and addresses *)

Definition is_word_char : Z -> bool := is_ascii_alphanumeric.
Definition last_is (f : Z -> bool) (l : text) : bool := match last l with Some c => f c | None => false end.
Definition first_is (f : Z -> bool) (l : text) : bool := match l with c :: _ => f c | [] => false end.

(** The loop of [has_word]: [seen] is the text before [q], the characters already passed. *)
Fixpoint word_from (term seen q : text) : bool :=
  (prefixed term q && negb (last_is is_word_char seen) && negb (first_is is_word_char (drop (length term) q)))
  || match q with [] => false | c :: q => word_from term (seen ++ [c]) q end.
Definition has_word (q term : text) : bool := match term with [] => false | _ => word_from term [] q end.

(** The loop of [has_scheme_slash] over the colons. *)
Fixpoint scheme_from (seen q : text) : bool :=
  match q with
  | [] => false
  | c :: q =>
      ((c =? 58) && first_is (fun d => (d =? 47) || (d =? 92)) q
       && (length (List.filter is_ascii_alphabetic (take 2 (rev seen))) =? 2)%nat)
      || scheme_from (seen ++ [c]) q
  end.
Definition has_scheme_slash (q : text) : bool := scheme_from [] q.

(** A [%XX]. *)
Definition is_percent (w : text) : bool :=
  match w with [a; b; c] => (a =? 37) && is_ascii_hexdigit b && is_ascii_hexdigit c | _ => false end.

Definition octet_part (p : text) : bool :=
  (1 <=? length p)%nat && (length p <=? 3)%nat && forallb is_ascii_digit p && (digits_value p <=? u8_max).
Definition is_ipv4 (run : text) : bool := existsb (forallb octet_part) (windows 4 (split_by (Z.eqb 46) run)).

(** [c.parse::<Ipv6Addr>().is_ok()]. *)
Definition parses_v6 (c : text) : bool := match read_v6 c with Some (_, []) => true | _ => false end.
Definition strong (c : text) : bool :=
  (count_of 58 c =? 7)%nat || match split_by (Z.eqb 58) c with g :: _ => (length g =? 4)%nat | [] => false end.
Definition dot_or_colon (c : Z) : bool := (c =? 46) || (c =? 58).
(** A sub-run from [s] to [e] of the run between [before] and [after]. *)
Definition ipv6_at (before run after : text) (s e : nat) : bool :=
  let c := take (e - s) (drop s run) in
  let glued := last_is is_ascii_alphanumeric (before ++ take s run) in
  let ends_word := negb (first_is is_ascii_alphanumeric after) in
  let trimmed := length (trim_end dot_or_colon run) in
  negb (glued && first_is (Z.eqb 58) (drop s run))
  && (existsb is_ascii_hexdigit c && (2 <=? count_of 58 c)%nat
      && (negb glued || (((e =? length run)%nat || (e =? trimmed)%nat) && ends_word && strong c))
      && parses_v6 c).
Definition is_ipv6 (before run after : text) : bool :=
  if (count_of 58 run <? 2)%nat then false
  else existsb (fun s => existsb (ipv6_at before run after s) (seq (S s) (length run - s))) (seq 0 (length run)).

Definition hex_part (n : nat) (g : text) : bool := (length g =? n)%nat && forallb is_ascii_hexdigit g.
Definition groups_of (sep : Z) (count n : nat) (run : text) : bool :=
  existsb (forallb (hex_part n)) (windows count (split_by (Z.eqb sep) run)).
Definition is_mac (run : text) : bool := groups_of 58 6 2 run || groups_of 45 6 2 run || groups_of 46 3 4 run.

Definition ipv4_char (c : Z) : bool := is_ascii_digit c || (c =? 46).
Definition ipv6_char (c : Z) : bool := is_ascii_hexdigit c || (c =? 58) || (c =? 46).
Definition mac_char (c : Z) : bool := is_ascii_hexdigit c || (c =? 58) || (c =? 46) || (c =? 45).

Section filter.
Context (to_lowercase : string -> string) (is_numeric : Z -> bool).

(** Defanged dots: [[.]], [(.)] and [[dot]]. *)
Definition refanged (q : text) : text :=
  replace_text (chars "[dot]") (chars ".") (replace_text (chars "(.)") (chars ".") (replace_text (chars "[.]") (chars ".") q)).

Definition lookalike (c : Z) : bool :=
  ((65280 <=? c) && (c <=? 65519)) || ((119808 <=? c) && (c <=? 120831)) || (negb (c <? 128) && is_numeric c).

Definition check_query (query : string) (deny : list string) : Refusal + unit :=
  let q := chars (to_lowercase query) in
  let n := refanged q in
  if (MAX_QUERY <? length q)%nat
     || contains (chars "://") q
     || existsb lookalike q
     || has_scheme_slash q
     || existsb is_percent (windows 3 q)
     || existsb (fun d => let d := chars (to_lowercase d) in has_word q d || has_word n d) deny
     || existsb (fun r => is_ipv4 r.1.2) (runs ipv4_char n)
     || existsb (fun r => is_ipv6 r.1.1 r.1.2 r.2) (runs ipv6_char n)
     || existsb (fun r => is_mac r.1.2) (runs mac_char n)
  then inl Blocked else inr tt.
End filter.

(** ** The tests of the source *)

Definition vector_deny : list string := ["web-01"; "agent.00000000-0000-4000-8000-000000000001"; "alex"; "corp.example"].
Definition passes (deny : list string) (q : string) : bool :=
  match check_query to_ascii_lowercase (fun _ => false) q deny with inr _ => true | inl _ => false end.
Example filter_vectors :
  forallb (fun q => negb (passes vector_deny q))
    ["openssh WEB-01 regression"; "web-01.corp.example ssh"; "10.0.0.5:22 vulnerable"; "fe80::1 ssh"; "aa:bb:cc:dd:ee:ff"; "see https://x.test";
     "AA-BB-CC-DD-EE-FF"; "[fe80::1]:22 ssh"; "host=10.0.0.5."; "(192.168.1.1)"; "ssh root@10.0.0.5 denied"; "10.0.0.5-10.0.0.9"; "mac=aa:bb:cc:dd:ee:ff!";
     "x@2001:db8::1!"; "999.10.0.0.5"; "2001:db8::"; "fe80::"; "fe80::1%eth0"; "aabb.ccdd.eeff"; "::1"; "file:/etc/passwd"; "https:\\x"; "a%2e%2e b"; "%41";
     "web-01_logs"; "srcfe80::1"; "x2001:db8:1:2:3:4:5:6"; "10[.]0[.]0[.]5"; "10(.)0(.)0(.)5"; "10[dot]0[dot]0[dot]5"; "hostfe80::1%eth0";
     "hostfe80::1."; "srcfe80::1:"; "x2001:db8:1:2:3:4:5:6."; "mail[.]corp[.]example"] = true
  /\ forallb (passes vector_deny)
    ["CVE-2026-1234 mitigation workaround"; "openssh 9.8.1 regression"; "www.example.org docs"; "256.1.1.1 bad"; "ssh -o setting"; "chrome 126.0.6478.126";
     "std::vector push"; "cafe:babe"; "fix: abc"; "c:\windows\system32 error"; "Foo::bar"; "Self::default"; "u32::default"; "std::decay_t error"; "std::dead"; "Self::default."] = true
  /\ forallb is_public_id ["CVE-2026-1234"; "FEDORA-2026-6261b26f4e"; "ALSA-2026:1234"; "DSA-5912-1"; "USN-7101-1"] = true
  /\ existsb is_public_id ["web-01"; "CVE-2026"; "cve-2026-1234 x"; "../etc/passwd"; "FEDORA-2026-6261b26f4e/../x"] = false
  /\ upper_prefix "cve-2024-6387" = "CVE-2024-6387" /\ upper_prefix "web01" = "web01".
Proof. vm_compute. auto 10. Qed.

(** * The internet fetch helper (openvibes-fetch; platform-store/src/assistant_internet.rs; migration 0047)

    One request in, one response out: the setting and the names never let out, the request built, and what is taken
    from the answer.  The network is a function from an address to the body it answers with, [json_of] the reader of
    JSON; a request is recorded with every address it asked for.  [lower] is PostgreSQL's. *)

Open Scope Z_scope.

(** ** The wire (protocol.rs) *)

Inductive LookupKind := KReference (id : string) | KSearch (query : string).
Record FetchRequest := { fr_user : string; fr_kind : LookupKind }.
Record Item := { it_title : string; it_snippet : string; it_url : string }.
Inductive Response := Found (source : string) (items : list Item) | Refused (code : Refusal).

(** ** The setting (assistant_internet.rs) *)

Record Setting := {
  st_level : Z;
  st_searxng_url : option string;
  st_internal_domains : list string;
  st_version : Z;
  st_updated_at : Z;
  st_updated_by : string;
}.
Record SettingUpdate := { up_level : Z; up_searxng_url : option string; up_internal_domains : list string }.

Definition domain_label (l : string) : bool :=
  (1 <=? str_len l) && (str_len l <=? 63) && negb (RustStd.starts_with l "-") && negb (is_some (RustStd.strip_suffix l "-"))
  && forallb (fun b => is_ascii_lowercase b || is_ascii_digit b || (b =? 45)) (bytes l).
Definition valid_domain (d : string) : bool := (str_len d <=? 253) && forallb domain_label (RustStd.split "." d).

Definition setting_json (level : Z) (url : option string) (domains : list string) : value :=
  JObject [("internal_domains", JArray (map JString domains)); ("level", json_int level); ("searxng_url", json_opt_str url)].
(** The checks of the table. *)
Definition setting_stored (s : Setting) : bool :=
  (0 <=? st_level s) && (st_level s <=? 2)
  && match st_searxng_url s with Some u => char_count u <=? 512 | None => st_level s <? 2 end
  && (Z.of_nat (length (st_internal_domains s)) <=? 50) && (0 <? st_version s).

(** [update]: [inl tt] is a failed query, [None] a stale version; with the audit row. *)
Definition update_internet (u : SettingUpdate) (expected_version : Z) (by_ : string) (now : Z) (old : Setting) : unit + option (Setting * value) :=
  if negb ((0 <=? up_level u) && (up_level u <=? 2)) || ((up_level u =? 2) && negb (is_some (up_searxng_url u)))
     || (50 <? Z.of_nat (length (up_internal_domains u))) || negb (forallb valid_domain (up_internal_domains u))
  then inl tt
  else if negb (st_version old =? expected_version) then inr None
  else
    let new := {| st_level := up_level u; st_searxng_url := up_searxng_url u; st_internal_domains := up_internal_domains u;
                  st_version := st_version old + 1; st_updated_at := now; st_updated_by := by_ |} in
    if negb (setting_stored new) then inl tt
    else inr (Some (new, JObject [("new", setting_json (up_level u) (up_searxng_url u) (up_internal_domains u));
                                  ("old", setting_json (st_level old) (st_searxng_url old) (st_internal_domains old))])).

Section names.
Context (lower : string -> string).

(** A row of [agents]: its id and host name; and the first label of a dotted name, when it has three characters. *)
Definition host_names (agent : string * option string) : list string :=
  lower agent.1 ::
  match agent.2 with
  | None => []
  | Some h =>
      (if is_empty h then [] else [lower h])
      ++ match split_once "." h with
         | Some (label, _) => if 3 <=? char_count label then [hd EmptyString (RustStd.split "." (lower h))] else []
         | None => []
         end
  end.
Definition denylist (agents : list (string * option string)) (usernames : list string) (s : Setting) : list string :=
  flat_map host_names agents ++ map lower usernames ++ map lower (st_internal_domains s).
End names.

(** [platform_names] of config.rs; [to_lowercase] is Rust's. *)
Definition platform_names (to_lowercase : string -> string) (platform_domain : option string) : list string :=
  match to_lowercase <$> platform_domain with
  | None => []
  | Some host =>
      host :: match split_once "." host with
              | Some (label, parent) =>
                  (if has_char "." parent then [parent] else []) ++ (if 3 <=? char_count label then [label] else [])
              | None => []
              end
  end.

(** ** Texts taken from an answer *)

Definition cut (s : string) (max : nat) : string := of_chars (take max (chars s)).
(** [trim_start_matches('\n')]. *)
Fixpoint trim_newlines (s : string) : string :=
  match s with String c s' => if Ascii.eqb c "010" then trim_newlines s' else s | EmptyString => s end.
Definition newline : string := char_str "010".
Definition snippet (text tail : string) : string :=
  let tail := cut (trim_newlines tail) 400 in
  if is_empty tail then cut text 1000
  else if is_empty text then tail
  else tail +:+ newline +:+ cut text (Z.to_nat (999 - char_count tail)).

Definition str_at (v : value) (key : string) : option string := get v key ≫= as_str.
(** [get(..).and_then(as_array).into_iter().flatten()]. *)
Definition items_at (v : value) (key : string) : list value := default [] (get v key ≫= as_array).

(** osv.rs. *)
Definition nonempty_at (v : value) (key : string) : option string := s ← str_at v key; if is_empty s then None else Some s.
Definition or_else {A} (a b : option A) : option A := match a with Some _ => a | None => b end.
(** The loops over one affected package's ranges and events. *)
Definition add_fixed (fixed : list string) (event : value) : list string :=
  match str_at event "fixed" with
  | Some f => if negb (existsb (String.eqb f) fixed) && (length fixed <? 10)%nat then fixed ++ [f] else fixed
  | None => fixed
  end.
Definition fixed_of (affected : value) : list string :=
  fold_left add_fixed (flat_map (fun r => items_at r "events") (items_at affected "ranges")) [].
Definition fixed_line (affected : value) : string :=
  match get affected "package" ≫= (fun p => str_at p "name") with
  | None => EmptyString
  | Some name =>
      match fixed_of affected with
      | [] => EmptyString
      | fixed => newline +:+ cut name 100 +:+ ": fixed in " +:+ Text.join ", " (map (fun f => cut f 100) fixed)
      end
  end.
Definition add_reference (items : list Item) (r : value) : list Item :=
  match str_at r "url" with
  | Some u => if RustStd.starts_with u "https://" && (length items <? 6)%nat
              then items ++ [{| it_title := "reference"; it_snippet := EmptyString; it_url := cut u 500 |}] else items
  | None => items
  end.
Definition osv_extract (id : string) (v : value) : option (list Item) :=
  _ ← get v "id";
  let summary := or_else (nonempty_at v "summary") (nonempty_at v "details") in
  let title := match summary ≫= (fun s => head (lines s)) with Some l => id +:+ ": " +:+ cut l 200 | None => id end in
  Some (fold_left add_reference (items_at v "references")
    [{| it_title := title; it_snippet := snippet (default EmptyString summary) (String.concat EmptyString (map fixed_line (items_at v "affected")));
        it_url := "https://osv.dev/vulnerability/" +:+ id |}]).

(** bodhi.rs. *)
Definition bodhi_extract (id : string) (v : value) : option (list Item) :=
  u ← get v "update";
  let s k := default EmptyString (str_at u k) in
  let nvrs := take 10 (map (fun n => cut n 100) (omap (fun b => str_at b "nvr") (items_at u "builds"))) in
  let tail := match nvrs with [] => EmptyString | _ => newline +:+ "fixed in " +:+ Text.join ", " nvrs end in
  Some [{| it_title := if is_empty (s "title") then id else cut (s "title") 200; it_snippet := snippet (s "notes") tail;
           it_url := "https://bodhi.fedoraproject.org/updates/" +:+ id |}].

(** searxng.rs. *)
Definition unreserved (b : Z) : bool := is_ascii_alphanumeric b || (b =? 45) || (b =? 46) || (b =? 95) || (b =? 126).
Definition upper_hex (x : Z) : Z := if x <? 10 then 48 + x else 55 + x.
Definition percent_byte (b : Z) : list Z := if unreserved b then [b] else [37; upper_hex (b / 16); upper_hex (b mod 16)].
Definition percent (l : list Z) : list Z := flat_map percent_byte l.
Definition trim_slashes (s : string) : string := of_bytes (rev (skip_while (Z.eqb 47) (rev (bytes s)))).
Definition search_url (base query : string) : string :=
  trim_slashes base +:+ "/search?q=" +:+ of_bytes (percent (bytes query)) +:+ "&format=json".
Definition host (base : string) : string :=
  let rest := match find_str "://" base with Some (_, from) => str_from 3 from | None => base end in
  hd rest (RustStd.split "/" rest).
Definition web_item (r : value) : option Item :=
  let text k := default EmptyString (str_at r k) in
  let url := text "url" in
  if RustStd.starts_with url "https://" || RustStd.starts_with url "http://"
  then Some {| it_title := cut (text "title") 200; it_snippet := cut (text "content") 300; it_url := cut url 500 |} else None.
Definition searxng_extract (v : value) : option (list Item) :=
  results ← get v "results" ≫= as_array; Some (take 5 (omap web_item results)).

Definition private_ip (ip : IpAddr) : bool :=
  match ip with
  | V4 a b c d => (a =? 127) || (a =? 10) || ((a =? 172) && (16 <=? b) && (b <=? 31)) || ((a =? 192) && (b =? 168))
  | V6 segments => bool_decide (segments = [0; 0; 0; 0; 0; 0; 0; 1]) || (Z.land (hd 0 segments) 65024 =? 64512)
  end.
Definition is_private (h : string) : bool := match parse_ip h with Some ip => private_ip ip | None => false end.
(** The host and port of an authority; [None] is a bracket without its end. *)
Definition host_port (authority : string) : option (string * option string) :=
  match str_strip_prefix "[" authority with
  | Some v6 => match split_once "]" v6 with Some (h, after) => Some (h, str_strip_prefix ":" after) | None => None end
  | None => Some match split_once ":" authority with Some (h, port) => (h, Some port) | None => (authority, None) end
  end.
Definition scheme_of (url : string) : option (bool * string) :=
  match str_strip_prefix "https://" url with
  | Some rest => Some (true, rest)
  | None => match str_strip_prefix "http://" url with Some rest => Some (false, rest) | None => None end
  end.
Definition port_valid (port : option string) : bool :=
  match port with None => true | Some p => match parse_uint u16_max p with Some n => negb (n =? 0) | None => false end end.
Definition valid_url (url : string) : bool :=
  match scheme_of url with
  | None => false
  | Some (https, rest) =>
      if existsb (fun c => (c =? 63) || (c =? 35) || (c =? 64) || is_control c || is_whitespace c) (chars url) then false
      else match host_port (hd EmptyString (RustStd.split "/" rest)) with
      | None => false
      | Some (h, port) =>
          if is_empty h || negb (port_valid port) then false
          else https || String.eqb (to_ascii_lowercase h) "localhost" || is_private h
      end
  end.
(** [trim_matches(['[', ']'])]. *)
Definition bracket (c : Z) : bool := (c =? 91) || (c =? 93).
Definition trim_brackets (s : string) : string := of_bytes (rev (skip_while bracket (rev (skip_while bracket (bytes s))))).
Definition is_local (base : string) : bool :=
  RustStd.starts_with base "http://"
  || is_private (trim_brackets (match rsplit_once ":" (host base) with Some (h, _) => h | None => host base end)).

(** ** The client's rule (http.rs), and a request answered (serve.rs) *)

Definition MAX_BODY : Z := 256 * 1024.
Definition HOSTS : list string := ["api.osv.dev"; "bodhi.fedoraproject.org"].
Definition allowed (url : string) : bool :=
  match str_strip_prefix "https://" url ≫= split_once "/" with Some (h, _) => existsb (String.eqb h) HOSTS | None => false end.
(** What [Client::get] lets out with this search address stored. *)
Definition client_allows (searxng : option string) (url : string) : bool :=
  allowed url || match searxng with Some b => RustStd.starts_with url (trim_slashes b +:+ "/search?") | None => false end.

Section serve.
Context (to_lowercase : string -> string) (is_numeric : Z -> bool) (json_of : list Z -> option value).
(** The network: the body behind an address, or none. *)
Context (http : string -> option (list Z)).

(** A body read into items. *)
Definition answer_of (source : string) (extract : value -> option (list Item)) (body : option (list Z)) : Response :=
  match body with
  | None => Refused Unavailable
  | Some body =>
      if MAX_BODY <? Z.of_nat (length body) then Refused TooLarge
      else match json_of body ≫= extract with Some items => Found source items | None => Refused Unavailable end
  end.

Definition search (query : string) (s : Setting) (deny : list string) : Response * list string :=
  match check_query to_lowercase is_numeric query deny with
  | inl code => (Refused code, [])
  | inr _ =>
      match st_searxng_url s with
      | Some base => if valid_url base then (answer_of (host base) searxng_extract (http (search_url base query)), [search_url base query])
                     else (Refused Unavailable, [])
      | None => (Refused Unavailable, [])
      end
  end.

(** The response, and the addresses asked. *)
Definition handle (k : LookupKind) (s : Setting) (deny : list string) : Response * list string :=
  if st_level s <? 1 then (Refused Off, [])
  else match k with
  | KSearch query => if 2 <=? st_level s then search query s deny else (Refused Off, [])
  | KReference id =>
      if negb (is_public_id id) then (Refused Invalid, [])
      else match check_query to_lowercase is_numeric id deny with
      | inl code => (Refused code, [])
      | inr _ =>
          let fedora := RustStd.starts_with id "FEDORA-" in
          let url := (if fedora then "https://bodhi.fedoraproject.org/updates/" else "https://api.osv.dev/v1/vulns/") +:+ id in
          if negb (allowed url) then (Refused Unavailable, [])
          else (answer_of (if fedora then "bodhi.fedoraproject.org" else "osv.dev")
                          (if fedora then bodhi_extract id else osv_extract id) (http url), [url])
      end
  end.

(** [answer] of main.rs, past the database: the network is the client's. *)
Definition client_get (s : Setting) (url : string) : option (list Z) :=
  if client_allows (st_searxng_url s) url then http url else None.
End serve.
Definition answer (to_lowercase lower : string -> string) (is_numeric : Z -> bool) (json_of : list Z -> option value)
    (http : string -> option (list Z)) (platform_domain : option string) (agents : list (string * option string))
    (usernames : list string) (s : Setting) (k : LookupKind) : Response * list string :=
  handle to_lowercase is_numeric json_of (client_get http s) k s (denylist lower agents usernames s ++ platform_names to_lowercase platform_domain).

Example serve_vectors :
  search_url "https://s.example/" "a b&c" = "https://s.example/search?q=a%20b%26c&format=json"
  /\ host "https://s.example:8080/x" = "s.example:8080"
  /\ map valid_url ["https://search.example.com"; "http://localhost:8080"; "http://127.0.0.1:8888/x"; "http://10.1.2.3"; "http://[::1]:8080"; "http://[fd00::1]"]
     = [true; true; true; true; true; true]
  /\ existsb valid_url ["http://search.example.com"; "http://8.8.8.8"; "ftp://x"; "https://u@x"; "https://"] = false
  /\ platform_names to_ascii_lowercase (Some "Platform.Example.com") = ["platform.example.com"; "example.com"; "platform"]
  /\ platform_names to_ascii_lowercase (Some "vibes.lan") = ["vibes.lan"; "vibes"]
  /\ platform_names to_ascii_lowercase (Some "ov.lan") = ["ov.lan"]
  /\ valid_domain "intranet" = true /\ valid_domain "-a.b" = false /\ valid_domain "a..b" = false.
Proof. vm_compute. auto 15. Qed.
