(* ===== verification/FetchProps.v ===== *)
(** * The internet fetch helper: what the code promises

    What a query names is refused ([leak_blocked]), and whatever the assistant asks for, only the two public sources
    and the administrator's own search see a request ([requests_confined]); what comes back is bounded. *)
From S2P Require Import Prelude RustStd Text Lines Json BTree NetAddr SetData FetchServe.
From stdpp Require Import prelude strings list pretty.
From Stdlib Require Import Ascii ZArith Lia.

Open Scope Z_scope.

(** ** Words *)

Lemma last_is_false f l : last_is f l = false <-> ends_out f l.
Proof. unfold last_is, ends_out. destruct (last l); split; [by intros H ? [= <-]|intros H; by apply H|done|done]. Qed.
Lemma first_is_false f l : first_is f l = false <-> begins_out f l.
Proof. unfold first_is, begins_out. destruct l; simpl; split; [done|done|by intros H ? [= <-]|intros H; by apply H]. Qed.

Lemma word_from_spec term q : forall seen, word_from term seen q = true <->
  exists a b, q = a ++ term ++ b /\ ends_out is_word_char (seen ++ a) /\ begins_out is_word_char b.
Proof.
  induction q as [|c q IH]; intros seen; cbn [word_from]; rewrite orb_true_iff, !andb_true_iff, !negb_true_iff, last_is_false, first_is_false.
  - split.
    + intros [[[E Ha] Hb]|]; [|done]. exists [], (drop (length term) []). rewrite app_nil_r. split; [by apply prefixed_drop|done].
    + intros (a & b & E & Ha & Hb). symmetry in E. apply app_eq_nil in E as [-> E]. apply app_eq_nil in E as [-> ->]. rewrite app_nil_r in Ha. left. by repeat split.
  - rewrite IH. split.
    + intros [[[E Ha] Hb]|(a & b & -> & Ha & Hb)].
      * exists [], (drop (length term) (c :: q)). rewrite app_nil_r. split; [by apply prefixed_drop|done].
      * exists (c :: a), b. rewrite <- app_assoc in Ha. done.
    + intros ([|d a] & b & E & Ha & Hb).
      * left. simpl in E. rewrite E, app_nil_r in *. rewrite drop_app_length. split; [split; [|done]|done]. apply prefixed_app. by exists b.
      * simpl in E. injection E as <- ->. right. exists a, b. rewrite <- app_assoc. done.
Qed.
Lemma has_word_spec q term : has_word q term = true <->
  term <> [] /\ exists a b, q = a ++ term ++ b /\ ends_out is_word_char a /\ begins_out is_word_char b.
Proof.
  unfold has_word. destruct term as [|t term]; [split; [done|by intros []]|]. rewrite word_from_spec. split; [intros H; by split|by intros [_ H]].
Qed.

(** ** Addresses *)

Lemma runs_cover_at f sep a m b : m <> [] -> Forall (fun c => f c = true) m ->
  (forall c, last a = Some c -> f c = true -> c = sep) -> (forall c, head b = Some c -> f c = true -> c = sep) ->
  exists a' x y b', In (a', x ++ m ++ y, b') (runs f (a ++ m ++ b))
    /\ (x = [] \/ exists x', x = x' ++ [sep]) /\ (y = [] \/ exists y', y = sep :: y').
Proof.
  intros Hne Hm Ha Hb. destruct (runs_cover f a m b Hne Hm) as (a' & x & y & b' & -> & -> & Hin & Hx & Hy & _ & _).
  exists a', x, y, b'. split; [done|]. split.
  - destruct x as [|c x] using rev_ind; [by left|]. right. exists x. apply Forall_app in Hx as [_ Hc]. apply Forall_cons in Hc as [Hc _].
    rewrite (Ha c); [done| |done]. by rewrite app_assoc, last_snoc.
  - destruct y as [|c y]; [by left|]. right. exists y. apply Forall_cons in Hy as [Hc _]. by rewrite (Hb c).
Qed.

Lemma windows_found {A} (p : A -> bool) n parts x y : (0 < n)%nat -> length parts = n -> forallb p parts = true ->
  existsb (forallb p) (windows n (x ++ parts ++ y)) = true.
Proof. intros Hn Hl Hp. apply existsb_exists. exists parts. split; [by apply windows_middle|done]. Qed.

(** Parts joined by their separator, found in the middle of a run. *)
Lemma joined_found sep (p : text -> bool) n parts x y : (0 < n)%nat -> length parts = n -> forallb p parts = true ->
  (forall part, p part = true -> Forall (fun c => c <> sep) part) ->
  (x = [] \/ exists x', x = x' ++ [sep]) -> (y = [] \/ exists y', y = sep :: y') ->
  existsb (forallb p) (windows n (split_by (Z.eqb sep) (x ++ joined sep parts ++ y))) = true.
Proof.
  intros Hn Hl Hp Hsep Hx Hy. destruct (split_by_inside sep x (joined sep parts) y Hx Hy) as (u & v & ->).
  rewrite split_by_joined; [by apply windows_found|by destruct parts; simpl in *; [lia|]|].
  apply Forall_forall. intros part Hin. apply Hsep. rewrite forallb_forall in Hp. apply Hp. by apply list_elem_of_In.
Qed.
Lemma joined_holds f sep parts : f sep = true -> Forall (Forall (fun c => f c = true)) parts -> Forall (fun c => f c = true) (joined sep parts).
Proof.
  intros Hs H. destruct parts as [|p ps]; [done|]. simpl. apply Forall_cons in H as [Hp H]. apply Forall_app. split; [done|].
  induction ps as [|q ps IH]; [done|]. simpl. apply Forall_cons in H as [Hq H]. constructor; [done|]. apply Forall_app. by split; [|apply IH].
Qed.

Lemma octet_part_digits p : octet_part p = true -> Forall (fun c => is_ascii_digit c = true) p.
Proof. unfold octet_part. rewrite !andb_true_iff, forallb_forall. intros [[_ H] _]. apply Forall_forall. intros c Hc. by apply H, list_elem_of_In. Qed.
Lemma hex_part_hex n p : hex_part n p = true -> Forall (fun c => is_ascii_hexdigit c = true) p.
Proof. unfold hex_part. rewrite !andb_true_iff, forallb_forall. intros [_ H]. apply Forall_forall. intros c Hc. by apply H, list_elem_of_In. Qed.
Lemma digit_not c sep : is_ascii_digit c = true -> is_ascii_digit sep = false -> c <> sep.
Proof. intros H1 H2 ->. congruence. Qed.
Lemma hex_not c sep : is_ascii_hexdigit c = true -> is_ascii_hexdigit sep = false -> c <> sep.
Proof. intros H1 H2 ->. congruence. Qed.
Lemma parts_Forall (p : text -> bool) (P : Z -> Prop) parts : (forall part, p part = true -> Forall P part) -> forallb p parts = true -> Forall (Forall P) parts.
Proof. intros H Hp. rewrite forallb_forall in Hp. apply Forall_forall. intros part Hin. by apply H, Hp, list_elem_of_In. Qed.

Lemma ipv4_found a parts b : length parts = 4%nat -> forallb octet_part parts = true -> ends_out is_ascii_digit a -> begins_out is_ascii_digit b ->
  existsb (fun r => is_ipv4 r.1.2) (runs ipv4_char (a ++ joined 46 parts ++ b)) = true.
Proof.
  intros Hl Hp Ha Hb. destruct (runs_cover_at ipv4_char 46 a (joined 46 parts) b) as (a' & x & y & b' & Hin & Hx & Hy).
  - destruct parts as [|[|c p] ps]; [done|simpl in Hp; done|done].
  - apply joined_holds; [done|]. eapply parts_Forall; [|done]. intros part Hpart. eapply Forall_impl; [by apply octet_part_digits|].
    intros c Hc. unfold ipv4_char. by rewrite Hc.
  - intros c Hc Hf. specialize (Ha c Hc). unfold ipv4_char in Hf. rewrite Ha in Hf. by apply Z.eqb_eq in Hf.
  - intros c Hc Hf. specialize (Hb c Hc). unfold ipv4_char in Hf. rewrite Hb in Hf. by apply Z.eqb_eq in Hf.
  - apply existsb_exists. eexists. split; [exact Hin|]. simpl. unfold is_ipv4. apply joined_found; try done; [lia|].
    intros part Hpart. eapply Forall_impl; [by apply octet_part_digits|]. intros c Hc. by eapply digit_not.
Qed.

(** What may stand next to a MAC address for it to be seen: its own separator, or what is not of a run. *)
Definition aside (sep : Z) (o : option Z) : Prop := forall c, o = Some c -> mac_char c = true -> c = sep.
Lemma groups_found sep count n a parts b : (0 < count)%nat -> (0 < n)%nat -> length parts = count -> forallb (hex_part n) parts = true ->
  mac_char sep = true -> is_ascii_hexdigit sep = false -> aside sep (last a) -> aside sep (head b) ->
  exists r, In r (runs mac_char (a ++ joined sep parts ++ b)) /\ groups_of sep count n r.1.2 = true.
Proof.
  intros Hc Hn Hl Hp Hm Hh Ha Hb. destruct (runs_cover_at mac_char sep a (joined sep parts) b) as (a' & x & y & b' & Hin & Hx & Hy).
  - destruct parts as [|[|c p] ps]; [simpl in Hl; lia| |done]. simpl in Hp. unfold hex_part in Hp. simpl in Hp.
    destruct n; [lia|done].
  - apply joined_holds; [done|]. eapply parts_Forall; [|done]. intros part Hpart. eapply Forall_impl; [by eapply hex_part_hex|].
    intros c Hcc. unfold mac_char. by rewrite Hcc.
  - exact Ha.
  - exact Hb.
  - eexists. split; [exact Hin|]. simpl. unfold groups_of. apply joined_found; try done. intros part Hpart. eapply Forall_impl; [by eapply hex_part_hex|].
    intros c Hcc. by eapply hex_not.
Qed.

(** What the parser of IPv6 addresses takes is of their characters. *)
Notation v6_text m := (Forall (fun c => ipv6_char c = true) m).
Lemma read_digits_taken digit radix (f : Z -> bool) : (forall c v, digit c = Some v -> f c = true) ->
  forall l value n v k rest, read_digits digit radix l value n = (v, k, rest) -> exists m, l = m ++ rest /\ Forall (fun c => f c = true) m.
Proof.
  intros Hf. induction l as [|c l IH]; intros value n v k rest; simpl; [intros [= <- <- <-]; by exists []|]. destruct (digit c) as [x|] eqn:E.
  - intros H. destruct (IH _ _ _ _ _ H) as (m & -> & Hm). exists (c :: m). split; [done|]. constructor; [by eapply Hf|done].
  - intros [= <- <- <-]. by exists [].
Qed.
Lemma hex_digit_ok c v : hex_digit c = Some v -> ipv6_char c = true.
Proof.
  unfold hex_digit, ipv6_char, is_ascii_hexdigit. destruct (is_ascii_digit c); [done|]. destruct ((97 <=? c) && (c <=? 102)); [done|].
  destruct ((65 <=? c) && (c <=? 70)); [|done]. intros _. by rewrite !orb_true_r.
Qed.
Lemma dec_digit_ok c v : dec_digit c = Some v -> ipv6_char c = true.
Proof. unfold dec_digit, ipv6_char, is_ascii_hexdigit. by destruct (is_ascii_digit c). Qed.

Definition taken {A} (l : list Z) (o : option (A * list Z)) : Prop :=
  forall v rest, o = Some (v, rest) -> exists m, l = m ++ rest /\ v6_text m.
Lemma read_octet_taken l : taken l (read_octet l).
Proof.
  unfold read_octet. intros v rest. destruct (read_digits dec_digit 10 l 0 0) as [[x n] r] eqn:E. destruct (_ || _); [done|]. intros [= <- <-].
  by eapply read_digits_taken; [apply dec_digit_ok|].
Qed.
Lemma read_group_taken l : taken l (read_group l).
Proof.
  unfold read_group. intros v rest. destruct (read_digits hex_digit 16 l 0 0) as [[x n] r] eqn:E. destruct (_ || _); [done|]. intros [= <- <-].
  by eapply read_digits_taken; [apply hex_digit_ok|].
Qed.
Lemma read_char_taken c l r : ipv6_char c = true -> read_char c l = Some r -> l = [c] ++ r /\ v6_text [c].
Proof. unfold read_char. intros Hc. destruct l as [|d l]; [done|]. destruct (Z.eqb_spec d c) as [->|]; [|done]. intros [= <-]. split; [done|]. by constructor. Qed.

Lemma read_v4_taken l : taken l (read_v4 l).
Proof.
  unfold read_v4. intros v rest ([a l1] & (m1 & -> & H1)%read_octet_taken & (l2 & [-> H2]%read_char_taken & ([b l3] & (m3 & -> & H3)%read_octet_taken &
    (l4 & [-> H4]%read_char_taken & ([c l5] & (m5 & -> & H5)%read_octet_taken & (l6 & [-> H6]%read_char_taken & ([d l7] & (m7 & -> & H7)%read_octet_taken &
    [= <- <-])%bind_Some)%bind_Some)%bind_Some)%bind_Some)%bind_Some)%bind_Some)%bind_Some; try done.
  exists (m1 ++ [dot] ++ m3 ++ [dot] ++ m5 ++ [dot] ++ m7). rewrite <- !app_assoc. split; [done|]. repeat (apply Forall_app; split); done.
Qed.
Lemma read_groups_taken : forall limit i l gs v4 rest, read_groups limit i l = (gs, v4, rest) -> exists m, l = m ++ rest /\ v6_text m.
Proof.
  induction limit as [|limit IH]; intros i l gs v4 rest; simpl; [intros [= <- <- <-]; by exists []|].
  assert (forall l', (if (i =? 0)%nat then Some l else read_char colon l) = Some l' -> exists s, l = s ++ l' /\ v6_text s) as Hsep.
  { intros l'. destruct (i =? 0)%nat; [intros [= <-]; by exists []|]. intros [-> H]%read_char_taken; [|done]. by exists [colon]. }
  set (after := if (i =? 0)%nat then Some l else read_char colon l) in *.
  destruct (match limit with O => None | S _ => after ≫= read_v4 end) as [[[[[a b] c] d] r]|] eqn:E4.
  - intros [= <- <- <-]. destruct limit; [done|]. apply bind_Some in E4 as (l' & Ea & (m & -> & Hm)%read_v4_taken). destruct (Hsep _ Ea) as (s & -> & Hs).
    exists (s ++ m). rewrite <- app_assoc. split; [done|]. by apply Forall_app.
  - destruct (after ≫= read_group) as [[g r]|] eqn:Eg.
    + destruct (read_groups limit (S i) r) as [[gs' v'] r'] eqn:Er. intros [= <- <- <-].
      apply bind_Some in Eg as (l' & Ea & (m & -> & Hm)%read_group_taken). destruct (Hsep _ Ea) as (s & -> & Hs). destruct (IH _ _ _ _ _ Er) as (m' & -> & Hm').
      exists (s ++ m ++ m'). rewrite <- !app_assoc. split; [done|]. by repeat (apply Forall_app; split).
    + intros [= <- <- <-]. by exists [].
Qed.
Lemma parses_v6_text m : parses_v6 m = true -> v6_text m.
Proof.
  unfold parses_v6, read_v6. destruct (read_groups 8 0 m) as [[h v] r] eqn:E. destruct (read_groups_taken _ _ _ _ _ _ E) as (m1 & -> & H1).
  destruct (length h =? 8)%nat; [destruct r; [by rewrite app_nil_r|done]|]. destruct v; [done|]. simpl.
  destruct (read_char colon r) as [r1|] eqn:E1; [|done]. destruct (read_char_taken colon r r1 eq_refl E1) as [-> H2]. cbn [mbind option_bind].
  destruct (read_char colon r1) as [r2|] eqn:E2; [|done]. destruct (read_char_taken colon r1 r2 eq_refl E2) as [-> H3]. cbn [mbind option_bind].
  destruct (read_groups _ 0 r2) as [[t v'] r3] eqn:E3. destruct (read_groups_taken _ _ _ _ _ _ E3) as (m2 & -> & H4).
  destruct r3; [|done]. intros _. rewrite app_nil_r. by repeat (apply Forall_app; split).
Qed.

Lemma count_of_app c a b : count_of c (a ++ b) = (count_of c a + count_of c b)%nat.
Proof. unfold count_of. by rewrite List.filter_app, length_app. Qed.
Lemma ipv6_found a m b : parses_v6 m = true -> (2 <= count_of 58 m)%nat -> existsb is_ascii_hexdigit m = true -> ends_out is_ascii_alphanumeric a ->
  existsb (fun r => is_ipv6 r.1.1 r.1.2 r.2) (runs ipv6_char (a ++ m ++ b)) = true.
Proof.
  intros Hp Hc Hh Ha. assert (m <> []) as Hne by by destruct m. destruct (runs_cover ipv6_char a m b Hne (parses_v6_text m Hp)) as (a' & x & y & b' & -> & -> & Hin & _).
  apply existsb_exists. eexists. split; [exact Hin|]. simpl. unfold is_ipv6. rewrite !count_of_app.
  destruct (Nat.ltb_spec (count_of 58 x + (count_of 58 m + count_of 58 y)) 2) as [|_]; [lia|].
  apply existsb_exists. exists (length x). split; [apply in_seq; rewrite !length_app; destruct m; simpl in *; [done|lia]|].
  apply existsb_exists. exists (length x + length m)%nat. split; [apply in_seq; rewrite !length_app; destruct m; simpl in *; [done|lia]|].
  unfold ipv6_at. rewrite take_app_length, drop_app_length. replace (length x + length m - length x)%nat with (length m) by lia. rewrite take_app_length.
  rewrite (proj2 (last_is_false _ _) Ha). cbn [negb orb andb]. rewrite Hh, Hp, (proj2 (Nat.leb_le _ _) Hc). done.
Qed.

(** A scheme: two letters, a colon and a slash or a backslash. *)
Lemma scheme_found x y d b : is_ascii_alphabetic x = true -> is_ascii_alphabetic y = true -> d = 47 \/ d = 92 ->
  forall a seen, scheme_from seen (a ++ [x; y; 58; d] ++ b) = true.
Proof.
  intros Hx Hy Hd. induction a as [|c a IH]; intros seen.
  - cbn [app scheme_from]. rewrite !rev_app_distr. cbn [rev app take List.filter]. rewrite Hx, Hy. simpl.
    destruct Hd as [-> | ->]; simpl; by rewrite !orb_true_r.
  - cbn [app scheme_from]. rewrite IH. apply orb_true_r.
Qed.

(** ** What is refused *)

Section filter.
Context (to_lowercase : string -> string) (is_numeric : Z -> bool).
#[local] Notation check_query := (check_query to_lowercase is_numeric).
#[local] Notation lower_chars s := (chars (to_lowercase s)).

(** A text [q] (in lower case; [n] with its defanged dots undone) that names something of the inside, or an address. *)
Inductive leak (q n : text) (terms : list text) : Prop :=
  | leak_word term l a b : In term terms -> term <> [] -> l = q \/ l = n -> l = a ++ term ++ b -> ends_out is_word_char a -> begins_out is_word_char b -> leak q n terms
  | leak_url a b : q = a ++ chars "://" ++ b -> leak q n terms
  | leak_scheme a x y d b : q = a ++ [x; y; 58; d] ++ b -> is_ascii_alphabetic x = true -> is_ascii_alphabetic y = true -> d = 47 \/ d = 92 -> leak q n terms
  | leak_percent a x y b : q = a ++ [37; x; y] ++ b -> is_ascii_hexdigit x = true -> is_ascii_hexdigit y = true -> leak q n terms
  | leak_ipv4 a parts b : n = a ++ joined 46 parts ++ b -> length parts = 4%nat -> forallb octet_part parts = true ->
      ends_out is_ascii_digit a -> begins_out is_ascii_digit b -> leak q n terms
  | leak_ipv6 a m b : n = a ++ m ++ b -> parses_v6 m = true -> (2 <= count_of 58 m)%nat -> existsb is_ascii_hexdigit m = true ->
      ends_out is_ascii_alphanumeric a -> leak q n terms
  | leak_mac sep count k a parts b : In (sep, count, k) [(58, 6%nat, 2%nat); (45, 6%nat, 2%nat); (46, 3%nat, 4%nat)] -> n = a ++ joined sep parts ++ b ->
      length parts = count -> forallb (hex_part k) parts = true -> aside sep (last a) -> aside sep (head b) -> leak q n terms
  | leak_lookalike c : In c q -> lookalike is_numeric c = true -> leak q n terms
  | leak_long : (MAX_QUERY < length q)%nat -> leak q n terms.

Definition leaks (query : string) (deny : list string) : Prop :=
  leak (lower_chars query) (refanged (lower_chars query)) (map (fun d => lower_chars d) deny).

Lemma blocked_by (l : list bool) : In true l -> fold_left orb l false = true.
Proof.
  assert (forall acc, acc = true \/ In true l -> fold_left orb l acc = true) as H; [|intros Hin; apply H; by right].
  induction l as [|b l IH]; intros acc; simpl; [by intros [|[]]|]. intros [->|[->|Hin]]; apply IH; [by left|left; apply orb_true_r|by right].
Qed.
Lemma leak_blocked_lemma query deny : leaks query deny -> check_query query deny = inl Blocked.
Proof.
  unfold leaks, FetchServe.check_query. set (q := lower_chars query). set (n := refanged q). intros H.
  match goal with |- (if ?c1 || ?c2 || ?c3 || ?c4 || ?c5 || ?c6 || ?c7 || ?c8 || ?c9 then _ else _) = _ =>
    change ((if fold_left orb [c1; c2; c3; c4; c5; c6; c7; c8; c9] false then inl Blocked else inr tt) = @inl Refusal unit Blocked); rewrite blocked_by; [done|] end.
  destruct H as [term l a b Hin Hne Hl E Ha Hb|a b E|a x y d b E Hx Hy Hd|a x y b E Hx Hy|a parts b E Hl Hp Ha Hb|a m b E Hp Hc Hh Ha|sep count k a parts b Hk E Hl Hp Ha Hb|c Hin Hc|Hlen].
  - do 5 right. left. apply existsb_exists. apply in_map_iff in Hin as (d & <- & Hd). exists d. split; [done|]. cbv zeta.
    assert (has_word l (lower_chars d) = true) as Hw by (apply has_word_spec; split; [done|]; by exists a, b).
    destruct Hl as [-> | ->]; rewrite Hw; [done|apply orb_true_r].
  - right. left. apply contains_spec. by exists a, b.
  - do 3 right. left. rewrite E. by apply scheme_found.
  - do 4 right. left. apply existsb_exists. exists [37; x; y]. split; [rewrite E; by apply windows_middle; [lia|]|]. unfold is_percent. by rewrite Hx, Hy.
  - do 6 right. left. rewrite E. by apply ipv4_found.
  - do 7 right. left. rewrite E. by apply ipv6_found.
  - do 8 right. left. apply existsb_exists. assert (0 < count /\ 0 < k)%nat as [H0 H1] by by destruct Hk as [[= <- <- <-]|[[= <- <- <-]|[[= <- <- <-]|[]]]]; lia.
    assert (mac_char sep = true /\ is_ascii_hexdigit sep = false) as [Hm Hx] by by destruct Hk as [[= <- <- <-]|[[= <- <- <-]|[[= <- <- <-]|[]]]].
    destruct (groups_found sep count k a parts b H0 H1 Hl Hp Hm Hx Ha Hb) as (r & Hr & Hg). exists r. rewrite E. split; [done|]. unfold is_mac.
    destruct Hk as [[= <- <- <-]|[[= <- <- <-]|[[= <- <- <-]|[]]]]; rewrite Hg, ?orb_true_r; done.
  - do 2 right. left. apply existsb_exists. by exists c.
  - left. by apply Nat.ltb_lt.
Qed.

(** C23: a query is refused when, in any letter case and with its defanged dots undone, it holds any of: a denied
    word with no letter or digit on either side; an IPv4 address with no digit on either side; an IPv6 address with no
    letter or digit before it; a MAC address, in one of its three forms, with nothing on either side that can be of one
    (a hexadecimal digit, a colon, a dash, a full stop) but its own separator, see [mac_before_full_stop]; an address
    with a scheme; a percent escape; a look-alike character; or is too long. *)
Theorem leak_blocked query deny : leaks query deny -> check_query query deny = inl Blocked.
Proof. apply leak_blocked_lemma. Qed.
Lemma accepted_no_leak query deny : check_query query deny = inr tt -> ~ leaks query deny.
Proof. intros H Hl%leak_blocked_lemma. congruence. Qed.
End filter.

(** A query without brackets is searched as it is. *)
Lemma replace_plain p r q : (exists c p', p = c :: p' /\ ~ In c q) -> replace_text p r q = q.
Proof.
  intros (c & p' & -> & H). unfold replace_text. induction q as [|d q IH]; [done|]. cbn [replace_from]. destruct (prefixed (c :: p') (d :: q)) eqn:E.
  - exfalso. simpl in E. apply andb_prop in E as [E%Z.eqb_eq _]. apply H. by left.
  - f_equal. apply IH. intros Hin. apply H. by right.
Qed.
Lemma refanged_plain q : ~ In 91 q -> ~ In 40 q -> refanged q = q.
Proof.
  intros H1 H2. unfold refanged. assert (replace_text (chars "[.]") (chars ".") q = q) as ->.
  { apply replace_plain. by eexists _, _. }
  assert (replace_text (chars "(.)") (chars ".") q = q) as ->; [apply replace_plain; by eexists _, _|]. apply replace_plain. by eexists _, _.
Qed.

(** ** What is asked of the network *)

(** Reading a percent-encoded text. *)
Definition hex_value (c : Z) : Z := if is_ascii_digit c then c - 48 else c - 55.
Fixpoint percent_decode (l : text) : text :=
  match l with
  | [] => []
  | c :: t => if c =? 37 then match t with a :: b :: t => hex_value a * 16 + hex_value b :: percent_decode t | _ => c :: percent_decode t end
              else c :: percent_decode t
  end.
Lemma upper_hex_value x : 0 <= x < 16 -> hex_value (upper_hex x) = x /\ unreserved (upper_hex x) = true.
Proof.
  intros H. assert (forallb (fun x => (hex_value (upper_hex x) =? x) && unreserved (upper_hex x)) (map Z.of_nat (seq 0 16)) = true) as E by done.
  rewrite forallb_forall in E. specialize (E x). destruct (andb_prop _ _ (E ltac:(apply in_map_iff; exists (Z.to_nat x); split; [lia|apply in_seq; lia]))) as [E1%Z.eqb_eq E2]. done.
Qed.
Lemma percent_roundtrip l : Forall (fun b => 0 <= b < 256) l -> percent_decode (percent l) = l.
Proof.
  induction 1 as [|b l Hb _ IH]; [done|]. unfold percent in *. simpl. unfold percent_byte at 1. destruct (unreserved b) eqn:E.
  - simpl. destruct (Z.eqb_spec b 37) as [->|]; [done|]. by rewrite IH.
  - simpl. assert (0 <= b / 16 < 16) by (split; [apply Z.div_pos; lia|apply Z.div_lt_upper_bound; lia]). pose proof (Z.mod_pos_bound b 16 ltac:(lia)).
    rewrite !(fun x H => proj1 (upper_hex_value x H)), IH by done. f_equal. pose proof (Z.div_mod b 16 ltac:(lia)). lia.
Qed.
Lemma percent_plain l : Forall (fun b => 0 <= b < 256) l -> Forall (fun c => unreserved c = true \/ c = 37) (percent l).
Proof.
  induction 1 as [|b l Hb _ IH]; [done|]. unfold percent in *. simpl. apply Forall_app. split; [|done]. unfold percent_byte at 1. destruct (unreserved b) eqn:E; [apply Forall_cons; split; [by left|by apply Forall_nil]|].
  assert (0 <= b / 16 < 16) by (split; [apply Z.div_pos; lia|apply Z.div_lt_upper_bound; lia]). pose proof (Z.mod_pos_bound b 16 ltac:(lia)).
  repeat (apply Forall_cons; split); [by right|left; by apply upper_hex_value|left; by apply upper_hex_value|by apply Forall_nil].
Qed.

Lemma split_once_first c s a b : split_once c s = Some (a, b) -> forall t, split_once c (s +:+ t) = Some (a, b +:+ t).
Proof.
  revert a b. induction s as [|d s IH]; intros a b; simpl; [done|]. destruct (Ascii.eqb d c); [by intros [= <- <-]|].
  destruct (split_once c s) as [[x y]|] eqn:E; [|done]. intros [= <- <-] t. by rewrite (IH x y).
Qed.
Lemma allowed_reference p id : p = "https://bodhi.fedoraproject.org/updates/" \/ p = "https://api.osv.dev/v1/vulns/" -> allowed (p +:+ id) = true.
Proof. by intros [-> | ->]. Qed.

Section requests.
Context (to_lowercase lower : string -> string) (is_numeric : Z -> bool) (json_of : list Z -> option value) (http : string -> option (list Z)).
#[local] Notation answer := (answer to_lowercase lower is_numeric json_of http).

Definition denied (platform_domain : option string) (agents : list (string * option string)) (usernames : list string) (s : Setting) : list string :=
  denylist lower agents usernames s ++ platform_names to_lowercase platform_domain.
(** The address of a reference, and of a search on the administrator's service: the query is one parameter, readable back. *)
Definition reference_address (id url : string) : Prop :=
  is_public_id id = true /\ (url = "https://bodhi.fedoraproject.org/updates/" +:+ id \/ url = "https://api.osv.dev/v1/vulns/" +:+ id).
Definition search_address (s : Setting) (query url : string) : Prop :=
  2 <= st_level s /\ exists base parameter, st_searxng_url s = Some base /\ valid_url base = true
    /\ url = trim_slashes base +:+ "/search?q=" +:+ of_bytes parameter +:+ "&format=json"
    /\ percent_decode parameter = bytes query /\ Forall (fun c => unreserved c = true \/ c = 37) parameter.

(** Whatever the assistant asks, at most one address is asked, and only while the administrator allows it: the public page of a well-formed
    advisory ID, or, when search is on, the administrator's own search service with the query as its one parameter; the client lets that
    address out; and neither names a host, an agent, a user, a domain of the inside or an address. *)
Theorem requests_confined platform_domain agents usernames s k :
  (length (answer platform_domain agents usernames s k).2 <= 1)%nat
  /\ forall url, In url (answer platform_domain agents usernames s k).2 ->
     1 <= st_level s /\ client_allows (st_searxng_url s) url = true
     /\ match k with
        | KReference id => reference_address id url /\ ~ leaks to_lowercase is_numeric id (denied platform_domain agents usernames s)
        | KSearch query => search_address s query url /\ ~ leaks to_lowercase is_numeric query (denied platform_domain agents usernames s)
        end.
Proof.
  unfold FetchServe.answer, handle. fold (denied platform_domain agents usernames s). destruct (Z.ltb_spec (st_level s) 1) as [|Hlevel]; [simpl; split; [lia|done]|].
  destruct k as [id|query].
  - destruct (is_public_id id) eqn:Eid; [|simpl; split; [lia|done]]. simpl negb. cbv iota. destruct (check_query _ _ id _) as [|[]] eqn:Eq; [simpl; split; [lia|done]|].
    set (p := if RustStd.starts_with id "FEDORA-" then _ else _).
    assert (p = "https://bodhi.fedoraproject.org/updates/" \/ p = "https://api.osv.dev/v1/vulns/") as Hp by (subst p; destruct (RustStd.starts_with id "FEDORA-"); tauto).
    rewrite (allowed_reference p id Hp). cbn [negb snd length]. split; [lia|]. intros url [<-|[]]. split; [done|]. split; [unfold client_allows; by rewrite allowed_reference|].
    split; [|by apply accepted_no_leak]. split; [done|]. destruct Hp as [-> | ->]; tauto.
  - destruct (Z.leb_spec 2 (st_level s)) as [H2|]; [|simpl; split; [lia|done]]. unfold search. destruct (check_query _ _ query _) as [|[]] eqn:Eq; [simpl; split; [lia|done]|].
    destruct (st_searxng_url s) as [base|] eqn:Eb; [|simpl; split; [lia|done]]. destruct (valid_url base) eqn:Ev; [|simpl; split; [lia|done]].
    cbn [snd length]. split; [lia|]. intros url [<-|[]]. split; [done|]. split; [|split; [split; [done|]|by apply accepted_no_leak]].
    + unfold client_allows, search_url. rewrite orb_true_iff. right. apply starts_with_app.
      exists ("q=" +:+ of_bytes (percent (bytes query)) +:+ "&format=json"). apply bytes_inj. by rewrite !bytes_app, <- !app_assoc.
    + exists base, (percent (bytes query)). repeat (split; [done|]). split; [apply percent_roundtrip|apply percent_plain]; apply bytes_bounds.
Qed.
End requests.

(** ** What comes back *)

Lemma chars_cut s n : chars (cut s n) = take n (chars s).
Proof. unfold cut. apply chars_of_chars, Forall_take, chars_range. Qed.
Lemma cut_chars s n : cut s n = of_chars (take n (chars s)) /\ Forall char_range (take n (chars s)).
Proof. split; [done|]. apply Forall_take, chars_range. Qed.
Lemma cut_count s n : char_count (cut s n) <= Z.of_nat n.
Proof. unfold char_count. rewrite chars_cut, length_take. lia. Qed.
Lemma cut_then_count s n t : char_count (cut s n +:+ t) <= char_count (cut s n) + char_count t.
Proof.
  unfold char_count. destruct (cut_chars s n) as [-> H]. rewrite chars_app, chars_of_chars, length_app by done. lia.
Qed.
Lemma newline_count t : char_count (newline +:+ t) = 1 + char_count t.
Proof.
  unfold char_count. change newline with (of_chars [10]). rewrite chars_app by (apply ascii_range; by apply Forall_singleton). rewrite length_app. cbn [length]. lia.
Qed.
Lemma snippet_count text tail : char_count (snippet text tail) <= 1000.
Proof.
  unfold snippet. set (t := cut (trim_newlines tail) 400). pose proof (cut_count (trim_newlines tail) 400) as H. fold t in H.
  destruct (is_empty t); [apply (cut_count text 1000)|]. destruct (is_empty text); [lia|].
  pose proof (cut_then_count (trim_newlines tail) 400 (newline +:+ cut text (Z.to_nat (999 - char_count t)))) as H1. fold t in H1. rewrite newline_count in H1.
  pose proof (cut_count text (Z.to_nat (999 - char_count t))). lia.
Qed.

Lemma public_id_ascii id : is_public_id id = true -> Forall (fun b => 0 <= b < 128) (bytes id) /\ str_len id <= 64.
Proof.
  unfold is_public_id. destruct (split_once "-" id) as [[a b]|]; [|done]. cbv zeta. rewrite !andb_true_iff, forallb_forall, Z.leb_le. intros [[[[[[H1 H2] _] _] _] _] _].
  split; [|done]. apply Forall_forall. intros c Hc. apply list_elem_of_In in Hc. specialize (H2 c Hc). revert H2.
  unfold id_char, is_ascii_alphanumeric, is_ascii_alphabetic, is_ascii_lowercase, is_ascii_uppercase, is_ascii_digit.
  rewrite !orb_true_iff, !andb_true_iff, !Z.leb_le, !Z.eqb_eq. lia.
Qed.
(** An ASCII text before another. *)
Lemma ascii_then_count a t : Forall (fun b => 0 <= b < 128) (bytes a) -> char_count (a +:+ t) = str_len a + char_count t.
Proof.
  intros H. unfold char_count, str_len. assert (a = of_chars (bytes a)) as E.
  { apply bytes_inj. rewrite bytes_of_chars by by apply ascii_range. induction H as [|c l Hc _ IH]; [done|]. simpl. rewrite <- IH. unfold encode_char. by destruct (Z.ltb_spec c 128); [|lia]. }
  rewrite E at 1. rewrite chars_app by by apply ascii_range. rewrite length_app, bytes_length. lia.
Qed.
Lemma ascii_count a : Forall (fun b => 0 <= b < 128) (bytes a) -> char_count a = str_len a.
Proof. intros H. rewrite <- (of_bytes_bytes a) at 1. pose proof (ascii_then_count a "" H) as E. change (char_count "") with 0 in E. rewrite Z.add_0_r in E. rewrite <- E. f_equal. apply bytes_inj. by rewrite bytes_app, app_nil_r, of_bytes_bytes. Qed.

Definition small (it : Item) : Prop := char_count (it_title it) <= 266 /\ char_count (it_snippet it) <= 1000 /\ char_count (it_url it) <= 500.
Definition bounded (items : list Item) : Prop := (length items <= 6)%nat /\ Forall small items.

Lemma add_reference_bounded items r : bounded items -> bounded (add_reference items r).
Proof.
  unfold add_reference. intros [H1 H2]. destruct (str_at r "url") as [u|]; [|done]. destruct (RustStd.starts_with u "https://" && (length items <? 6)%nat) eqn:E; [|done].
  apply andb_prop in E as [_ E%Nat.ltb_lt]. split; [rewrite length_app; simpl; lia|]. apply Forall_app. split; [done|]. apply Forall_singleton.
  split; [done|]. split; [done|]. apply (cut_count u 500).
Qed.
Lemma osv_bounded id v items : is_public_id id = true -> osv_extract id v = Some items -> bounded items.
Proof.
  intros Hid (x & _ & E)%bind_Some. destruct (public_id_ascii id Hid) as [Ha Hl]. apply (f_equal (from_option (fun l => l) [])) in E. cbn [from_option] in E. rewrite <- E.
  match goal with |- bounded (fold_left _ ?refs ?first) => assert (bounded first) as H0 end.
  { split; [simpl; lia|]. apply Forall_singleton. split; [|split; [apply snippet_count|]].
    - cbn [it_title]. destruct (_ ≫= _) as [l|].
      + rewrite ascii_then_count by done. rewrite ascii_then_count by (repeat constructor; done). pose proof (cut_count l 200). change (str_len ": ") with 2. lia.
      + rewrite ascii_count by done. lia.
    - cbn [it_url]. rewrite ascii_then_count by (repeat constructor; done). rewrite ascii_count by done. change (str_len "https://osv.dev/vulnerability/") with 30. lia. }
  revert H0. generalize (items_at v "references") as refs. match goal with |- forall refs, bounded ?f -> _ => generalize f as acc end.
  intros acc refs. revert acc. induction refs as [|r refs IH]; intros acc H; [done|]. simpl. by apply IH, add_reference_bounded.
Qed.
Lemma bodhi_bounded id v items : is_public_id id = true -> bodhi_extract id v = Some items -> bounded items.
Proof.
  intros Hid (u & _ & E)%bind_Some. destruct (public_id_ascii id Hid) as [Ha Hl]. apply (f_equal (from_option (fun l => l) [])) in E. cbn [from_option] in E. rewrite <- E. split; [simpl; lia|]. apply Forall_singleton.
  split; [|split; [apply snippet_count|]].
  - cbn [it_title]. destruct (is_empty _); [rewrite ascii_count by done; lia|]. pose proof (cut_count (default EmptyString (str_at u "title")) 200). lia.
  - cbn [it_url]. rewrite ascii_then_count by (repeat constructor; done). rewrite ascii_count by done. change (str_len "https://bodhi.fedoraproject.org/updates/") with 40. lia.
Qed.
Lemma searxng_bounded v items : searxng_extract v = Some items -> bounded items.
Proof.
  intros (l & _ & [= <-])%bind_Some. split; [rewrite length_take; lia|]. apply Forall_take, Forall_forall. intros it Hit.
  apply list_elem_of_omap in Hit as (r & _ & E). unfold web_item in E. destruct (_ || _); [|done]. injection E as <-.
  split; [|split]; cbn [it_title it_snippet it_url]; (etransitivity; [apply cut_count|lia]).
Qed.

(** Whatever the network answers, the console gets at most six items, with titles of at most 266 characters, extracts of at most 1,000 and
    addresses of at most 500; and a body over the limit is not read. *)
Theorem answers_bounded to_lowercase lower is_numeric json_of http platform_domain agents usernames s k source items :
  (answer to_lowercase lower is_numeric json_of http platform_domain agents usernames s k).1 = Found source items ->
  bounded items /\ exists url body, http url = Some body /\ Z.of_nat (length body) <= MAX_BODY.
Proof.
  assert (forall src ex url, (answer_of json_of src ex (client_get http s url) = Found source items) -> (forall v l, ex v = Some l -> bounded l) ->
    bounded items /\ exists url body, http url = Some body /\ Z.of_nat (length body) <= MAX_BODY) as Hanswer.
  { intros src ex url. unfold answer_of, client_get. destruct (client_allows _ url); [|done]. destruct (http url) as [body|] eqn:Eh; [|done].
    destruct (Z.ltb_spec MAX_BODY (Z.of_nat (length body))); [done|]. destruct (json_of body ≫= ex) as [l|] eqn:E; [|done]. intros [= _ ->] Hex.
    apply bind_Some in E as (v & _ & E). split; [by eapply Hex|]. by exists url, body. }
  unfold FetchServe.answer, handle. destruct (st_level s <? 1); [done|]. destruct k as [id|query].
  - destruct (is_public_id id) eqn:Eid; [|done]. simpl negb. cbv iota. destruct (check_query _ _ id _); [done|]. destruct (negb (allowed _)); [done|]. cbn [fst]. intros H.
    eapply Hanswer; [exact H|]. intros v l. destruct (RustStd.starts_with id "FEDORA-"); [by apply bodhi_bounded|by apply osv_bounded].
  - destruct (2 <=? st_level s); [|done]. unfold search. destruct (check_query _ _ query _); [done|]. destruct (st_searxng_url s) as [base|]; [|done].
    destruct (valid_url base); [|done]. cbn [fst]. intros H. eapply Hanswer; [exact H|]. intros v l. apply searxng_bounded.
Qed.

(** ** The theorems at a concrete input *)

Lemma leak_blocked_witness :
  leaks to_ascii_lowercase (fun _ => false) "Is (DB-7) at 10.0.0.5: up?" ["db-7"]
  /\ check_query to_ascii_lowercase (fun _ => false) "Is (DB-7) at 10.0.0.5: up?" ["db-7"] = inl Blocked.
Proof.
  assert (leaks to_ascii_lowercase (fun _ => false) "Is (DB-7) at 10.0.0.5: up?" ["db-7"]) as H.
  { apply (leak_ipv4 _ _ _ _ (chars "is (db-7) at ") [chars "10"; chars "0"; chars "0"; chars "5"] (chars ": up?")).
    - vm_compute. reflexivity.
    - reflexivity.
    - vm_compute. reflexivity.
    - intros c. vm_compute. intros [= <-]. reflexivity.
    - intros c. vm_compute. intros [= <-]. reflexivity. }
  split; [exact H|]. exact (leak_blocked to_ascii_lowercase (fun _ => false) _ _ H).
Defined.

Definition ex_internet : Setting :=
  {| st_level := 2; st_searxng_url := Some "https://s.example/"; st_internal_domains := ["corp.example"]; st_version := 3; st_updated_at := 0; st_updated_by := "root" |}.
Definition ex_asked (k : LookupKind) : Response * list string :=
  answer to_ascii_lowercase to_ascii_lowercase (fun _ => false) (fun _ => None) (fun _ => None) (Some "vibes.corp.example") [("agent.1", Some "web-01.corp.example")] ["alex"]
    ex_internet k.
Definition ex_asked_url : string := "https://s.example/search?q=openssh%20fix&format=json".
Lemma requests_confined_witness :
  In ex_asked_url (ex_asked (KSearch "openssh fix")).2 /\ search_address ex_internet "openssh fix" ex_asked_url.
Proof.
  assert (In ex_asked_url (ex_asked (KSearch "openssh fix")).2) as H by (vm_compute; left; reflexivity). split; [exact H|].
  exact (proj1 (proj2 (proj2 (proj2 (requests_confined to_ascii_lowercase to_ascii_lowercase (fun _ => false) (fun _ => None) (fun _ => None)
    (Some "vibes.corp.example") [("agent.1", Some "web-01.corp.example")] ["alex"] ex_internet (KSearch "openssh fix")) ex_asked_url H)))).
Defined.
Example ex_asked_refused :
  map (fun q => ex_asked (KSearch q)) ["alex cannot sign in"; "WEB-01 ssh"; "error on vibes"; "mail.corp.example down"] = repeat (Refused Blocked, []) 4
  /\ (ex_asked (KReference "CVE-2026-1234")).2 = ["https://api.osv.dev/v1/vulns/CVE-2026-1234"] /\ ex_asked (KReference "CVE-2026") = (Refused Invalid, []).
Proof. vm_compute. auto. Qed.

(** A full stop, or a dot or a dash with a word before it, beside a MAC address hides it: the run of characters it is looked for in goes on. *)
Example mac_before_full_stop : passes [] "the card is aa:bb:cc:dd:ee:ff." = true /\ passes [] "host.aa:bb:cc:dd:ee:ff" = true.
Proof. vm_compute. auto. Qed.
