(* ===== verification/AsstLookup.v ===== *)
(** * The assistant: what it shows, and its lookups (platform-assistant/src/answer.rs, lookups.rs, lookups/)

    Texts are lists of characters.  The model's text is made inert, and a citation becomes a link only when one of this
    question's lookups returned its object. *)
From S2P Require Import Prelude RustStd Text BTree Json Lines SetData.
From stdpp Require Import prelude strings list.
From Stdlib Require Import Ascii ZArith Lia.

Open Scope Z_scope.

Definition MAX_ANSWER_CHARS : nat := Z.to_nat 8000.
Definition MAX_CITATION_ID : nat := 200.

Inductive Citation := CAgent (id : text) | CFinding (rule_set rule : text) | CAdvisory (id : text).
#[export] Instance citation_eq_dec : EqDecision Citation.
Proof. solve_decision. Defined.

(** [Display]. *)
Definition show_citation (c : Citation) : text :=
  match c with
  | CAgent id => chars "[agent:" ++ id ++ [93]
  | CFinding rule_set rule => chars "[finding:" ++ (match rule_set with [] => chars "~unknown" | _ => rule_set end) ++ [47] ++ rule ++ [93]
  | CAdvisory id => chars "[advisory:" ++ id ++ [93]
  end.

Definition cite_char (c : Z) : bool := is_ascii_alphanumeric c || (c =? 46) || (c =? 45) || (c =? 95) || (c =? 58).
Definition cite_part (part : text) : bool := (1 <=? length part)%nat && (length part <=? MAX_CITATION_ID)%nat && forallb cite_char part.

(** [strip_suffix] of one character. *)
Definition strip_last (c : Z) (l : text) : option text :=
  match last l with Some d => if d =? c then Some (removelast l) else None | None => None end.
(** The citation of a kind and what follows its colon. *)
Definition citation_of (kind id : text) : option Citation :=
  if bool_decide (kind = chars "agent") then (if cite_part id then Some (CAgent id) else None)
  else if bool_decide (kind = chars "advisory") then (if cite_part id then Some (CAdvisory id) else None)
  else if bool_decide (kind = chars "finding") then
    '(rule_set, rule) ← cut_at [47] id;
    rule_set ← (if bool_decide (rule_set = chars "~unknown") then Some [] else if cite_part rule_set then Some rule_set else None);
    if cite_part rule then Some (CFinding rule_set rule) else None
  else None.
Definition parse_citation (l : text) : option Citation :=
  l ← match l with c :: l => if c =? 91 then Some l else None | [] => None end;
  inner ← strip_last 93 l;
  '(kind, id) ← cut_at [58] inner;
  citation_of kind id.

Inductive Segment := SText (t : text) | SCite (c : Citation).

Definition hidden_control (c : Z) : bool :=
  (c =? 1564) || ((8203 <=? c) && (c <=? 8207)) || ((8234 <=? c) && (c <=? 8238)) || ((8288 <=? c) && (c <=? 8297)) || (c =? 65279).
Definition shown_char (c : Z) : bool := (negb (is_control c) || (c =? 10) || (c =? 9)) && negb (hidden_control c).
Definition scheme_mark : text := Eval cbv in chars "://".
Definition inert_mark : text := Eval cbv in chars "[:]//".
Definition cleaned (t : text) : text := replace_text scheme_mark inert_mark (take MAX_ANSWER_CHARS (List.filter shown_char t)).

(** [push_text]: the segments so far, the last one first. *)
Definition push_text (piece : text) (segments : list Segment) : list Segment :=
  match piece, segments with
  | [], _ => segments
  | _, SText t :: segments => SText (t ++ piece) :: segments
  | _, _ => SText piece :: segments
  end.

(** The citation a candidate starts with, and what follows it. *)
Definition citation_at (allowed : list Citation) (candidate : text) : option (Citation * text) :=
  '(inner, after) ← cut_at [93] candidate;
  if (MAX_CITATION_ID * 2 + 16 <? length inner)%nat then None
  else c ← parse_citation (inner ++ [93]); if bool_decide (c ∈ allowed) then Some (c, after) else None.

(** The loop over the brackets; [None]: the fuel ran out. *)
Fixpoint segments_from (fuel : nat) (allowed : list Citation) (segments : list Segment) (rest : text) : option (list Segment) :=
  match fuel with
  | O => None
  | S fuel =>
      let '(before, candidate) := span (fun c => negb (c =? 91)) rest in
      match candidate with
      | [] => Some (push_text before segments)
      | bracket :: after =>
          let segments := push_text before segments in
          match citation_at allowed candidate with
          | Some (c, rest) => segments_from fuel allowed (SCite c :: segments) rest
          | None => segments_from fuel allowed (push_text [bracket] segments) after
          end
      end
  end.

(** The end of the last text is trimmed; an empty one goes. *)
Definition trim_last (segments : list Segment) : list Segment :=
  match segments with
  | SText t :: segments => match trim_end is_whitespace t with [] => segments | t => SText t :: segments end
  | _ => segments
  end.
Definition sanitize (t : text) (allowed : list Citation) : option (list Segment) :=
  let clean := cleaned t in
  (fun l => rev (trim_last l)) <$> segments_from (S (length clean)) allowed [] clean.

Definition segment_text (s : Segment) : text := match s with SText t => t | SCite c => show_citation c end.
Definition plain_text (l : list Segment) : text := flat_map segment_text l.

(** ** Citations *)

Definition well_formed (c : Citation) : bool :=
  match c with
  | CAgent id | CAdvisory id => cite_part id
  | CFinding rule_set rule => (match rule_set with [] => true | _ => cite_part rule_set end) && cite_part rule
  end.

Lemma strip_last_snoc c l : strip_last c (l ++ [c]) = Some l.
Proof. unfold strip_last. by rewrite last_snoc, Z.eqb_refl, removelast_last. Qed.
Lemma strip_last_spec c l r : strip_last c l = Some r -> l = r ++ [c].
Proof.
  destruct l as [|d l] using rev_ind; [done|]. unfold strip_last. rewrite last_snoc. destruct (Z.eqb_spec d c) as [->|]; [|done]. rewrite removelast_last. by intros [= ->].
Qed.
Lemma cut_at_first c a b : ~ In c a -> cut_at [c] (a ++ c :: b) = Some (a, b).
Proof.
  induction a as [|d a IH]; intros H; cbn [app cut_at prefixed].
  - rewrite Z.eqb_refl. done.
  - destruct (Z.eqb_spec d c) as [->|]; [exfalso; apply H; by left|]. simpl. rewrite IH; [done|]. intros Hin. apply H. by right.
Qed.
Lemma cite_part_chars part c : cite_part part = true -> In c part -> cite_char c = true.
Proof. unfold cite_part. rewrite !andb_true_iff, forallb_forall. intros [_ H]. apply H. Qed.
Lemma cite_part_no part c : cite_part part = true -> cite_char c = false -> ~ In c part.
Proof. intros H Hc Hin. rewrite (cite_part_chars part c H Hin) in Hc. done. Qed.

Lemma parse_shown kind id : ~ In 58 kind -> parse_citation (91 :: (kind ++ 58 :: id) ++ [93]) = citation_of kind id.
Proof. intros H. unfold parse_citation. rewrite Z.eqb_refl. cbn [mbind option_bind]. rewrite strip_last_snoc. cbn [mbind option_bind]. by rewrite (cut_at_first 58 kind id H). Qed.
Definition shown_set (rule_set : text) : text := match rule_set with [] => chars "~unknown" | _ => rule_set end.
(** A citation as it is written: a kind, a colon and an id, in brackets. *)
Definition cite_kind (c : Citation) : text := match c with CAgent _ => chars "agent" | CFinding _ _ => chars "finding" | CAdvisory _ => chars "advisory" end.
Definition cite_id (c : Citation) : text :=
  match c with CAgent id | CAdvisory id => id | CFinding rule_set rule => shown_set rule_set ++ 47 :: rule end.
Lemma show_shape c : show_citation c = 91 :: (cite_kind c ++ 58 :: cite_id c) ++ [93].
Proof. destruct c; cbn [show_citation cite_kind cite_id]; unfold shown_set; rewrite <- ?app_assoc; cbn [app]; rewrite <- ?app_assoc; reflexivity. Qed.

Lemma parse_show c : well_formed c = true -> parse_citation (show_citation c) = Some c.
Proof.
  rewrite show_shape. intros H. rewrite parse_shown by (destruct c; vm_compute; intuition done). destruct c as [id|rule_set rule|id]; cbn [well_formed] in H; cbn [cite_kind cite_id]; unfold citation_of.
  - rewrite bool_decide_true by done. by rewrite H.
  - rewrite 2!bool_decide_false by done. rewrite bool_decide_true by done. apply andb_prop in H as [H1 H2].
    assert (~ In 47 (shown_set rule_set)) as Hs by (destruct rule_set; [vm_compute; intuition done|by apply cite_part_no]).
    rewrite (cut_at_first 47 _ rule Hs). cbn [mbind option_bind]. destruct rule_set as [|d rule_set]; cbn [shown_set].
    + rewrite bool_decide_true by done. cbn [mbind option_bind]. by rewrite H2.
    + rewrite bool_decide_false; [rewrite H1; cbn [mbind option_bind]; by rewrite H2|]. intros E. pose proof (cite_part_chars _ 126 H1) as Hc.
      rewrite E in Hc. assert (cite_char 126 = true) by (apply Hc; vm_compute; tauto). done.
  - rewrite bool_decide_false by done. rewrite bool_decide_true by done. by rewrite H.
Qed.
Lemma citation_of_shape kind id c : citation_of kind id = Some c -> cite_kind c = kind /\ cite_id c = id /\ well_formed c = true.
Proof.
  unfold citation_of. intros H. case_bool_decide as K1; [|case_bool_decide as K2; [|case_bool_decide as K3; [|done]]].
  - destruct (cite_part id) eqn:Ei; [|done]. injection H as <-. auto.
  - destruct (cite_part id) eqn:Ei; [|done]. injection H as <-. auto.
  - apply bind_Some in H as ([rs rule] & E4%cut_at_spec & (rs' & E5 & H)%bind_Some). destruct (cite_part rule) eqn:Er; [|done]. injection H as <-.
    cbn [cite_kind cite_id well_formed]. rewrite Er, andb_true_r. case_bool_decide as K4.
    + injection E5 as <-. subst rs. auto.
    + destruct (cite_part rs) eqn:Ers; [|done]. injection E5 as <-. destruct rs as [|d rs]; [done|]. auto.
Qed.
Lemma show_parse l c : parse_citation l = Some c -> show_citation c = l /\ well_formed c = true.
Proof.
  unfold parse_citation. intros (l1 & E1 & (inner & E2%strip_last_spec & ([kind id] & E3%cut_at_spec & H)%bind_Some)%bind_Some)%bind_Some.
  destruct l as [|b l]; [done|]. destruct (Z.eqb_spec b 91) as [->|]; [|done]. injection E1 as ->. subst l1 inner.
  apply citation_of_shape in H as (<- & <- & H). by rewrite show_shape.
Qed.

(** ** What is shown *)

Lemma contains_cons p c l : contains p (c :: l) = prefixed p (c :: l) || contains p l.
Proof. unfold contains. cbn [cut_at]. destruct (prefixed p (c :: l)); [done|]. destruct (cut_at p l) as [[]|]; done. Qed.
Lemma replace_skip p r l : forall k, replace_from p r k l = replace_from p r O (drop k l).
Proof. induction l as [|c l IH]; intros k; [by destruct k|]. destruct k as [|k]; [done|]. cbn [replace_from drop]. apply IH. Qed.
Lemma inert_head d l : head (replace_text scheme_mark inert_mark l) = Some d -> d <> 91 -> exists t, l = d :: t /\ replace_text scheme_mark inert_mark l = d :: replace_text scheme_mark inert_mark t.
Proof.
  destruct l as [|c t]; [done|]. unfold replace_text. cbn [replace_from]. destruct (prefixed scheme_mark (c :: t)); cbn [app head inert_mark].
  - intros [= <-]. done.
  - intros [= <-] _. by exists t.
Qed.
Lemma inert_no_mark : forall n l, (length l <= n)%nat -> contains scheme_mark (replace_text scheme_mark inert_mark l) = false.
Proof.
  induction n as [|n IH]; intros [|c t] Hn; simpl in Hn; try done; [lia|]. unfold replace_text. cbn [replace_from].
  destruct (prefixed scheme_mark (c :: t)) eqn:Ep.
  - rewrite replace_skip. specialize (IH (drop 2 t)). fold (replace_text scheme_mark inert_mark (drop 2 t)).
    change (pred (length scheme_mark)) with 2%nat. cbn [app inert_mark]. rewrite !contains_cons. unfold replace_text in IH. rewrite IH by (rewrite length_drop; lia).
    reflexivity.
  - fold (replace_text scheme_mark inert_mark t). rewrite contains_cons, IH by lia. rewrite orb_false_r.
    apply not_true_is_false. intros (r & E)%prefixed_app. cbn [scheme_mark app] in E. injection E as -> E1.
    destruct (inert_head 47 t) as (t1 & -> & E2); [by rewrite E1|done|]. rewrite E2 in E1. injection E1 as E1.
    destruct (inert_head 47 t1) as (t2 & -> & _); [by rewrite E1|done|]. done.
Qed.
Lemma replace_chars (P : Z -> Prop) p r l : Forall P r -> Forall P l -> Forall P (replace_text p r l).
Proof.
  intros Hr. unfold replace_text. generalize O as k. induction l as [|c l IH]; intros k H; [by destruct k|]. apply Forall_cons in H as [Hc H].
  destruct k as [|k]; cbn [replace_from]; [|by apply IH]. destruct (prefixed p (c :: l)); [apply Forall_app; split; [done|by apply IH]|by constructor; [|apply IH]].
Qed.
Definition inert (l : text) : Prop := contains scheme_mark l = false /\ Forall (fun c => shown_char c = true) l.
Lemma cleaned_inert t : inert (cleaned t).
Proof.
  split; [by eapply inert_no_mark|]. apply replace_chars; [repeat constructor|]. apply Forall_take, Forall_forall. intros c Hc%list_elem_of_In%filter_In. by destruct Hc.
Qed.
Lemma contains_prefix p a b : contains p (a ++ b) = false -> contains p a = false.
Proof. intros H. apply not_true_is_false. intros (x & y & ->)%contains_spec. rewrite <- !app_assoc in H. assert (contains p (x ++ p ++ y ++ b) = true) by (apply contains_spec; by eexists _, _). congruence. Qed.
Lemma inert_prefix a b : inert (a ++ b) -> inert a.
Proof. intros [H1 H2]. split; [by eapply contains_prefix|]. by apply Forall_app in H2 as [? _]. Qed.

Definition cites (l : list Segment) : list Citation := omap (fun s => match s with SCite c => Some c | SText _ => None end) l.

(** The segments so far, the last one first, as text. *)
Definition shown (l : list Segment) : text := plain_text (rev l).
Lemma shown_cons s l : shown (s :: l) = shown l ++ segment_text s.
Proof. unfold shown, plain_text. cbn [rev]. rewrite flat_map_app. cbn [flat_map]. by rewrite app_nil_r. Qed.
Lemma shown_push piece l : shown (push_text piece l) = shown l ++ piece.
Proof.
  unfold push_text. destruct piece as [|c piece]; [by rewrite app_nil_r|]. destruct l as [|[t|k] l]; [by rewrite shown_cons| |by rewrite shown_cons].
  rewrite !shown_cons. cbn [segment_text]. by rewrite app_assoc.
Qed.
Lemma cites_push piece l : cites (push_text piece l) = cites l.
Proof. unfold push_text. destruct piece; [done|]. by destruct l as [|[t|k] l]. Qed.
Lemma citation_at_spec allowed l c rest : citation_at allowed l = Some (c, rest) -> l = show_citation c ++ rest /\ c ∈ allowed.
Proof.
  intros ([inner after] & Hcut%cut_at_spec & H)%bind_Some. cbv beta iota in H. destruct (_ <? _)%nat; [done|]. apply bind_Some in H as (c' & Hp & H).
  case_bool_decide as Hin; [|done]. injection H as -> ->. split; [|done]. apply show_parse in Hp as [-> _]. by rewrite Hcut, <- app_assoc.
Qed.
Lemma span_app f l : let '(a, b) := span f l in l = a ++ b /\ match b with [] => True | c :: _ => f c = false end.
Proof.
  induction l as [|c l IH]; [done|]. cbn [span]. destruct (f c) eqn:Ef; [|by split]. destruct (span f l) as [a b]. destruct IH as [-> H]. by split.
Qed.
Lemma segments_from_spec allowed : forall fuel segments rest, (length rest < fuel)%nat ->
  exists out, segments_from fuel allowed segments rest = Some out /\ shown out = shown segments ++ rest
    /\ forall c, c ∈ cites out -> c ∈ cites segments \/ c ∈ allowed.
Proof.
  induction fuel as [|fuel IH]; intros segments rest Hf; [lia|]. cbn [segments_from]. pose proof (span_app (fun c => negb (c =? 91)) rest) as Hs.
  destruct (span _ rest) as [before [|b after]]; destruct Hs as [-> Hb].
  - eexists. split; [done|]. rewrite shown_push, app_nil_r, cites_push. auto.
  - apply negb_false_iff, Z.eqb_eq in Hb. subst b. rewrite length_app in Hf. simpl in Hf. destruct (citation_at allowed (91 :: after)) as [[c rest]|] eqn:Ec.
    + apply citation_at_spec in Ec as [E Hin]. assert (length rest < fuel)%nat as Hl.
      { apply (f_equal length) in E. rewrite length_app, show_shape in E. simpl in E. lia. }
      destruct (IH (SCite c :: push_text before segments) rest Hl) as (out & -> & Hshown & Hc). exists out. split; [done|]. split.
      * rewrite Hshown, shown_cons, shown_push, E. cbn [segment_text]. by rewrite <- !app_assoc.
      * intros c' [Hin'|H]%Hc; [|by right]. cbn [cites omap list_omap] in Hin'. apply elem_of_cons in Hin' as [->|Hin']; [by right|]. left. change (c' ∈ cites (push_text before segments)) in Hin'. by rewrite cites_push in Hin'.
    + destruct (IH (push_text [91] (push_text before segments)) after) as (out & -> & Hshown & Hc); [lia|]. exists out. split; [done|]. split.
      * rewrite Hshown, !shown_push. by rewrite <- !app_assoc.
      * intros c' H%Hc. by rewrite !cites_push in H.
Qed.
Lemma skip_while_split f l : exists a, l = a ++ skip_while f l /\ Forall (fun c => f c = true) a.
Proof. induction l as [|c l (a & E & H)]; [by exists []|]. cbn [skip_while]. destruct (f c) eqn:Ef; [|by exists []]. exists (c :: a). split; [simpl; by f_equal|by constructor]. Qed.
Lemma trim_end_split f l : exists b, l = trim_end f l ++ b /\ Forall (fun c => f c = true) b.
Proof.
  destruct (skip_while_split f (rev l)) as (a & E & H). exists (rev a). split; [|by apply Forall_rev]. unfold trim_end. rewrite <- rev_app_distr, <- E. by rewrite rev_involutive.
Qed.
Lemma trim_last_spec l : exists b, shown l = shown (trim_last l) ++ b /\ Forall (fun c => is_whitespace c = true) b.
Proof.
  destruct l as [|[t|c] l]; cbn [trim_last]; try (exists []; by rewrite app_nil_r). destruct (trim_end_split is_whitespace t) as (b & E & H). exists b. split; [|done].
  rewrite shown_cons. cbn [segment_text]. destruct (trim_end is_whitespace t) as [|d t'] eqn:Et; [by rewrite E|]. rewrite shown_cons, E. cbn [segment_text]. by rewrite app_assoc.
Qed.
Lemma trim_last_cites l : cites (trim_last l) = cites l.
Proof. destruct l as [|[t|c] l]; [done| |done]. cbn [trim_last]. by destruct (trim_end is_whitespace t). Qed.
Lemma cites_rev l c : c ∈ cites (rev l) <-> c ∈ cites l.
Proof. unfold cites. rewrite !list_elem_of_omap. setoid_rewrite list_elem_of_In. setoid_rewrite <- in_rev. done. Qed.

(** The answer is the model's text made inert, read into segments; the end is trimmed.  Every citation is an allowed one. *)
Lemma sanitize_spec t allowed : exists l b, sanitize t allowed = Some l /\ cleaned t = plain_text l ++ b /\ Forall (fun c => is_whitespace c = true) b
  /\ forall c, c ∈ cites l -> c ∈ allowed.
Proof.
  unfold sanitize. destruct (segments_from_spec allowed (S (length (cleaned t))) [] (cleaned t)) as (out & -> & Hs & Hc); [lia|].
  destruct (trim_last_spec out) as (b & E & Hb). exists (rev (trim_last out)), b. split; [done|]. split; [change (cleaned t = shown (trim_last out) ++ b); by rewrite <- E, Hs|]. split; [done|].
  intros c. rewrite cites_rev, trim_last_cites. intros [H|H]%Hc; [by inversion H|done].
Qed.
Lemma sanitize_inert t allowed l : sanitize t allowed = Some l -> inert (plain_text l).
Proof. destruct (sanitize_spec t allowed) as (l' & b & -> & E & _). intros [= ->]. apply (inert_prefix _ b). rewrite <- E. apply cleaned_inert. Qed.

(** * The assistant's lookups: requests and results (platform-assistant/src/lookups.rs and lookups/)

    The list is fixed: what the model writes is read into a [LookupRequest] or refused.  A result is JSON with a list of items
    that can be shortened; the objects the model may cite are found in it.  Reading JSON is a parameter: [json_doc] gives
    the members of an object as they are written, repeated ones included. *)

Open Scope Z_scope.

(** [json!({..})] and [Map::insert]. *)
Definition put (k : string) (v : value) (m : list (string * value)) : list (string * value) := bt_insert str_cmp k v m.
Definition obj (l : list (string * value)) : value := JObject (fold_left (fun m kv => put kv.1 kv.2 m) l []).

Definition MAX_ARGUMENT : Z := 128.
Definition DEFAULT_WINDOW_HOURS : Z := 24.
Definition MAX_WINDOW_HOURS : Z := 720.

(** [FINDING_SEVERITIES] and [ADVISORY_SEVERITIES] of platform-store/src/assistant.rs. *)
Definition FINDING_SEVERITIES : list string := ["info"; "low"; "medium"; "high"; "critical"].
Definition ADVISORY_SEVERITIES : list string := ["critical"; "important"; "moderate"; "low"; "unrated"].

Inductive LookupRequest :=
  | SearchFindings (text_ : option string) (min_severity : option string) (rule_set : option string) (window_hours : Z)
  | FindingEndpoints (rule_set : option string) (rule : string) (window_hours : Z)
  | LAgentSummary (agent : string)
  | HostVulnerabilities (agent : string) (min_severity : option string)
  | VulnerabilityHosts (id : string)
  | FleetOverview (window_hours : Z)
  | RuleDescription (rule_set : option string) (rule : string)
  | HostServices (agent : option string) (port : option Z)
  | Software (name : string) (agent : option string)
  | LReference (id : string)
  | WebSearch (query : string).

Inductive Area := Vulnerabilities | Rules | Internet.
Inductive LookupError := Unknown | InvalidArguments | Ambiguous | AmbiguousRule | Store | Forbidden (a : Area).
Definition message (e : LookupError) : string :=
  match e with
  | Unknown => "error: no such lookup; use one of the listed lookups"
  | InvalidArguments => "error: invalid arguments for this lookup; check its schema"
  | Ambiguous => "error: that host name matches several agents; use an agent ID from agent_summary"
  | AmbiguousRule => "error: the rule is in several rule sets; name one"
  | Store => "error: the lookup failed; try again later"
  | Forbidden Vulnerabilities => "error: the user has no access to vulnerabilities; tell them so"
  | Forbidden Rules => "error: the user has no access to rules; tell them so"
  | Forbidden Internet => "error: the user may not use internet lookups; tell them so"
  end.

Definition NAMES : list string :=
  ["search_findings"; "finding_endpoints"; "agent_summary"; "host_vulnerabilities"; "vulnerability_hosts"; "fleet_overview";
   "rule_description"; "host_services"; "software"].
Definition INTERNET_NAMES : list string := ["reference"; "web_search"].

(** ** Arguments *)

Notation result A := (LookupError + A)%type.
#[global] Instance result_bind : MBind (sum LookupError) := fun A B f m => match m with inl e => inl e | inr a => f a end.
#[global] Instance result_ret : MRet (sum LookupError) := fun A a => inr a.

Definition text_arg (v : option string) : result (option string) :=
  match v with
  | None => inr None
  | Some t =>
      let t := trim t in
      if is_empty t then inr None
      else if (char_count t <=? MAX_ARGUMENT) && negb (existsb is_control (chars t)) then inr (Some t) else inl InvalidArguments
  end.
Definition or_invalid {A} (v : option A) : result A := match v with Some a => inr a | None => inl InvalidArguments end.
Definition required (v : string) : result string := t ← text_arg (Some v); or_invalid t.
Definition eq_ignore_ascii_case (a b : string) : bool := String.eqb (to_ascii_lowercase a) (to_ascii_lowercase b).
Definition AGENT_PLACEHOLDERS : list string :=
  ["all"; "any"; "every"; "everything"; "unknown"; "none"; "null"; "n/a"; "*"; "fleet"; "all hosts"; "any host"; "every host"; "all agents"; "everywhere"].
Definition agent_arg (v : option string) : result (option string) :=
  t ← text_arg v;
  inr match t with Some a => if existsb (fun p => eq_ignore_ascii_case p a) AGENT_PLACEHOLDERS then None else Some a | None => None end.
Definition required_agent (v : string) : result string := t ← agent_arg (Some v); or_invalid t.
Definition rule_set_arg (v : string) : result string :=
  t ← text_arg (Some v); inr match t with None => EmptyString | Some s => if String.eqb s "~unknown" then EmptyString else s end.
Definition window (hours : option Z) : result Z :=
  let hours := default DEFAULT_WINDOW_HOURS hours in
  if (1 <=? hours) && (hours <=? MAX_WINDOW_HOURS) then inr hours else inl InvalidArguments.
(** [Option::map(..).transpose()]. *)
Definition optional {A B} (f : A -> result B) (v : option A) : result (option B) :=
  match v with None => inr None | Some a => b ← f a; inr (Some b) end.
Definition severity (known : list string) (v : option string) : result (option string) :=
  optional (fun v => or_invalid (List.find (fun s => eq_ignore_ascii_case s (trim v)) known)) v.

(** ** Reading a struct: [#[derive(Deserialize)]] with [deny_unknown_fields].  An array gives the fields in order. *)

Fixpoint repeats (keys : list string) : bool :=
  match keys with [] => false | k :: keys => existsb (String.eqb k) keys || repeats keys end.
Definition fields (names : list string) (v : value) : result (list (option value)) :=
  match v with
  | JObject members =>
      if forallb (fun m => existsb (String.eqb m.1) names) members && negb (repeats (map fst members))
      then inr (map (fun n => member n members) names) else inl InvalidArguments
  | JArray items => if (length items =? length names)%nat then inr (map Some items) else inl InvalidArguments
  | _ => inl InvalidArguments
  end.
Definition de_string (v : option value) : result string := match v with Some (JString s) => inr s | _ => inl InvalidArguments end.
Definition de_opt {A} (f : value -> result A) (v : option value) : result (option A) :=
  match v with None | Some JNull => inr None | Some v => a ← f v; inr (Some a) end.
Definition de_opt_string : option value -> result (option string) := de_opt (fun v => de_string (Some v)).
Definition de_uint (max : Z) (v : value) : result Z :=
  match v with JPosInt n => if n <=? max then inr n else inl InvalidArguments | _ => inl InvalidArguments end.
Definition de_opt_uint (max : Z) : option value -> result (option Z) := de_opt (de_uint max).
Definition field (l : list (option value)) (n : nat) : option value := default None (l !! n).

Section parse.
Context (json_doc : string -> option value).

Definition args (names : list string) (arguments : string) : result (list (option value)) :=
  match json_doc (if is_empty (trim arguments) then "{}" else arguments) with
  | Some v => fields names v
  | None => inl InvalidArguments
  end.

Definition parse_internet (name arguments : string) : result LookupRequest :=
  if String.eqb name "reference" then
    l ← args ["id"] arguments; id ← de_string (field l 0); id ← required id; inr (LReference id)
  else if String.eqb name "web_search" then
    l ← args ["query"] arguments; q ← de_string (field l 0); q ← required q; inr (WebSearch q)
  else inl Unknown.

Definition MIN_NAME : Z := 2.
Definition parse_inventory (name arguments : string) : result LookupRequest :=
  if String.eqb name "host_services" then
    l ← args ["agent"; "port"] arguments;
    agent ← de_opt_string (field l 0); port ← de_opt_uint u16_max (field l 1);
    agent ← agent_arg agent;
    if bool_decide (port = Some 0) || (negb (is_some agent) && negb (is_some port)) then inl InvalidArguments
    else inr (HostServices agent port)
  else if String.eqb name "software" then
    l ← args ["name"; "agent"] arguments;
    name ← de_string (field l 0); agent ← de_opt_string (field l 1);
    name ← required name;
    if char_count name <? MIN_NAME then inl InvalidArguments else agent ← agent_arg agent; inr (Software name agent)
  else inl Unknown.

Definition parse_lookup (name arguments : string) : result LookupRequest :=
  if String.eqb name "search_findings" then
    l ← args ["text"; "min_severity"; "rule_set"; "window_hours"] arguments;
    text_ ← de_opt_string (field l 0); min_severity ← de_opt_string (field l 1);
    rule_set ← de_opt_string (field l 2); window_hours ← de_opt_uint u32_max (field l 3);
    text_ ← text_arg text_; min_severity ← severity FINDING_SEVERITIES min_severity;
    rule_set ← optional rule_set_arg rule_set; window_hours ← window window_hours;
    inr (SearchFindings text_ min_severity rule_set window_hours)
  else if String.eqb name "finding_endpoints" then
    l ← args ["rule_set"; "rule"; "window_hours"] arguments;
    rule_set ← de_opt_string (field l 0); rule ← de_string (field l 1); window_hours ← de_opt_uint u32_max (field l 2);
    rule_set ← optional rule_set_arg rule_set; rule ← required rule; window_hours ← window window_hours;
    inr (FindingEndpoints rule_set rule window_hours)
  else if String.eqb name "agent_summary" then
    l ← args ["agent"] arguments; agent ← de_string (field l 0); agent ← required_agent agent; inr (LAgentSummary agent)
  else if String.eqb name "host_vulnerabilities" then
    l ← args ["agent"; "min_severity"] arguments;
    agent ← de_string (field l 0); min_severity ← de_opt_string (field l 1);
    agent ← required_agent agent; min_severity ← severity ADVISORY_SEVERITIES min_severity;
    inr (HostVulnerabilities agent min_severity)
  else if String.eqb name "vulnerability_hosts" then
    l ← args ["id"] arguments; id ← de_string (field l 0); id ← required id; inr (VulnerabilityHosts id)
  else if String.eqb name "fleet_overview" then
    l ← args ["window_hours"] arguments; w ← de_opt_uint u32_max (field l 0); w ← window w; inr (FleetOverview w)
  else if String.eqb name "rule_description" then
    l ← args ["rule_set"; "rule"] arguments;
    rule_set ← de_opt_string (field l 0); rule ← de_string (field l 1);
    rule_set ← optional rule_set_arg rule_set; rule ← required rule; inr (RuleDescription rule_set rule)
  else if existsb (String.eqb name) INTERNET_NAMES then parse_internet name arguments
  else parse_inventory name arguments.
End parse.

Definition lookup_name (l : LookupRequest) : string :=
  match l with
  | SearchFindings _ _ _ _ => "search_findings" | FindingEndpoints _ _ _ => "finding_endpoints" | LAgentSummary _ => "agent_summary"
  | HostVulnerabilities _ _ => "host_vulnerabilities" | VulnerabilityHosts _ => "vulnerability_hosts" | FleetOverview _ => "fleet_overview"
  | RuleDescription _ _ => "rule_description" | HostServices _ _ => "host_services" | Software _ _ => "software"
  | LReference _ => "reference" | WebSearch _ => "web_search"
  end.
Definition is_internet (l : LookupRequest) : bool := existsb (String.eqb (lookup_name l)) INTERNET_NAMES.

Definition json_opt_int (o : option Z) : value := match o with Some n => json_int n | None => JNull end.
Definition arguments (l : LookupRequest) : value :=
  match l with
  | SearchFindings text_ min_severity rule_set window_hours =>
      obj [("text", json_opt_str text_); ("min_severity", json_opt_str min_severity); ("rule_set", json_opt_str rule_set); ("window_hours", json_int window_hours)]
  | FindingEndpoints rule_set rule window_hours =>
      obj [("rule_set", json_opt_str rule_set); ("rule", JString rule); ("window_hours", json_int window_hours)]
  | LAgentSummary agent => obj [("agent", JString agent)]
  | HostVulnerabilities agent min_severity => obj [("agent", JString agent); ("min_severity", json_opt_str min_severity)]
  | VulnerabilityHosts id => obj [("id", JString id)]
  | FleetOverview window_hours => obj [("window_hours", json_int window_hours)]
  | RuleDescription rule_set rule => obj [("rule_set", json_opt_str rule_set); ("rule", JString rule)]
  | HostServices agent port => obj [("agent", json_opt_str agent); ("port", json_opt_int port)]
  | Software name agent => obj [("name", JString name); ("agent", json_opt_str agent)]
  | LReference id => obj [("id", JString id)]
  | WebSearch query => obj [("query", JString query)]
  end.

(** ** Results *)

(** [LookupOutput::page]. *)
Definition page (summary : list (string * value)) (items : list value) (total : Z) : value :=
  JObject (put "omitted" (json_int (Z.max 0 (total - Z.of_nat (length items)))) (put "items" (JArray items) summary)).

(** [get_mut(key)] set to what [f] gives. *)
Fixpoint update_member (key : string) (f : value -> value) (m : list (string * value)) : list (string * value) :=
  match m with [] => [] | (k, v) :: m => if String.eqb k key then (k, f v) :: m else (k, v) :: update_member key f m end.
Definition at_key (key : string) (f : value -> value) (v : value) : value := match v with JObject m => JObject (update_member key f m) | _ => v end.
Definition remove_member (key : string) (m : list (string * value)) : list (string * value) := List.filter (fun kv => negb (String.eqb kv.1 key)) m.

(** The single item with a snippet, cut by [excess] characters. *)
Definition cut_snippet (excess : Z) (items : list value) : option (list value) :=
  match items with
  | [JObject only] =>
      match member "snippet" only with
      | Some (JString s) =>
          if char_count s =? 0 then None
          else
            let kept := of_chars (take (Z.to_nat (Z.max 0 (char_count s - excess))) (chars s)) in
            Some [JObject (if char_count kept =? 0 then remove_member "snippet" only else update_member "snippet" (fun _ => JString kept) only)]
      | _ => None
      end
  | _ => None
  end.

Section output.
Context (json_text : value -> string).

(** One turn of [shrink_to]'s loop; [None]: it ends. *)
Definition shrink_once (max_chars : Z) (data : value) : option value :=
  let len := str_len (json_text data) in
  if len <=? max_chars then None
  else match get data "items" with
  | Some (JArray items) =>
      match cut_snippet (len - max_chars) items with
      | Some items => Some (at_key "items" (fun _ => JArray items) data)
      | None =>
          match items with
          | [] => None
          | _ => Some (at_key "omitted" (fun n => json_int (default 0 (as_i64 n) + 1)) (at_key "items" (fun _ => JArray (removelast items)) data))
          end
      end
  | _ => None
  end.
Fixpoint shrink_loop (fuel : nat) (max_chars : Z) (data : value) : option value :=
  match fuel with
  | O => None
  | S fuel => match shrink_once max_chars data with None => Some data | Some data => shrink_loop fuel max_chars data end
  end.
(** Each turn drops an item or characters of the last one's snippet. *)
Definition snippet_chars (v : value) : nat :=
  match get v "snippet" with Some (JString s) => length (chars s) | _ => O end.
Definition shrink_fuel (data : value) : nat :=
  match get data "items" with Some (JArray items) => S (length items + match items with v :: _ => snippet_chars v | [] => 0 end) | _ => 1%nat end.
Definition shrink_to (max_chars : Z) (data : value) : option value := shrink_loop (shrink_fuel data) max_chars data.
End output.

Definition CITATION_KEYS : list string := ["cite"; "agent"; "finding"; "advisory"].
(** The citations under the keys of one object. *)
Definition key_citations (m : list (string * value)) : list Citation :=
  omap (fun key => v ← member key m; s ← as_str v; parse_citation (chars s)) CITATION_KEYS.
Fixpoint collect_citations (v : value) : list Citation :=
  match v with
  | JObject m => key_citations m ++ flat_map (fun kv => collect_citations kv.2) m
  | JArray items => flat_map collect_citations items
  | _ => []
  end.
(** The set, in some order. *)
Definition citations (data : value) : list Citation := remove_dups (collect_citations data).

Definition index (v : value) (key : string) : value := default JNull (get v key).
Definition positive (v : value) : bool := 0 <? default 0 (as_i64 v).
Definition found (d : value) : bool :=
  match index d "items" with JArray (_ :: _) => true | _ => false end
  || is_some (as_object (index d "rule"))
  || positive (index d "open_vulnerabilities")
  || match index d "agents" with JObject m => existsb (fun kv => positive kv.2) m | _ => false end.
