(* ===== verification/AsstSource.v ===== *)
(** * The assistant's lookups run on a source of rows (platform-assistant/src/lookups.rs, lookups/resolve.rs, lookups/inventory.rs)

    [Source] is the trait: the database limited to one user's scope, or the evaluation fleet; an operation that fails
    gives [None].  How a time or an address is written, and the reading of a published rule set (a crate of the agent),
    are parameters. *)
From S2P Require Import Prelude RustStd Text BTree Json Lines SetData AsstLookup.
From stdpp Require Import prelude strings list.
From Stdlib Require Import Ascii ZArith Lia.

Open Scope Z_scope.

(** ** Rows of the store (platform-store/src/assistant.rs, assistant_inventory.rs, host_services.rs).  A float carries no value. *)

Record GroupFilter := { gf_text : option string; gf_min_severity : option string; gf_rule_set_id : option string }.
Record FindingGroup := {
  fg_rule_set_id : string; fg_rule_id : string; fg_severity : string; fg_endpoints : Z; fg_rule_versions : list Z;
  fg_first_observed_at : Z; fg_last_observed_at : Z; fg_message : option string;
}.
Record Page A := { p_items : list A; p_total : Z }.
Arguments p_items {A}. Arguments p_total {A}.
Record FindingEndpoint := {
  fe_agent_id : string; fe_hostname : option string; fe_first_observed_at : Z; fe_last_observed_at : Z; fe_rule_version : Z; fe_severity : string;
}.
Record EndpointPage := { ep_items : list FindingEndpoint; ep_total : Z; ep_older : Z }.
Record AgentSummary := {
  as_agent_id : string; as_hostname : option string; as_status : string; as_last_seen_at : option Z; as_scanner_version : option string;
  as_os : option (string * string); as_running_kernel : option string; as_capabilities : list string;
  as_findings : Z; as_open_vulnerabilities : Z; as_exploited_vulnerabilities : Z;
}.
Record HostVulnerability := {
  hv_advisory_id : string; hv_severity : string; hv_title : string; hv_cves : list string; hv_exploited : bool; hv_epss_percentile : option unit;
  hv_reboot_needed : bool; hv_first_seen_at : Z;
}.
Record VulnerableHost := {
  vh_agent_id : string; vh_hostname : option string; vh_advisory_id : string; vh_severity : string; vh_title : string; vh_first_seen_at : Z;
  vh_reboot_needed : bool; vh_packages : value;
}.
Record AgentCounts := { ac_seen_recently : Z; ac_offline : Z; ac_never_seen : Z; ac_revoked : Z; ac_imported : Z }.
Record AdvisoryHosts := { ah_advisory_id : string; ah_severity : string; ah_title : string; ah_hosts : Z; ah_exploited : bool; ah_epss_percentile : option unit }.
Record Overview := {
  ov_agents : AgentCounts; ov_open_vulnerabilities : Z; ov_hosts_with_exploited : Z; ov_top_findings : Page FindingGroup; ov_top_advisories : Page AdvisoryHosts;
}.
Inductive Served := ServedUnknown | ServedUpToDate | ServedEnvelope (bytes : list Z).
Record HostReport := { hr_status : string; hr_reported_at : option Z; hr_owners : option string; hr_truncated : bool }.
Record Listener := { li_protocol : string; li_address : string; li_port : Z; li_exposed : bool; li_service : option string; li_program : option string }.
Record Service := { sv_unit : string; sv_programs : list string; sv_processes : Z; sv_run_as : option string }.
Record HostRows A := { rows_items : list A; rows_total : Z; rows_hosts : Z }.
Arguments rows_items {A}. Arguments rows_total {A}. Arguments rows_hosts {A}.
Record PortListener := {
  pl_agent_id : string; pl_hostname : option string; pl_protocol : string; pl_address : string; pl_exposed : bool; pl_service : option string; pl_program : option string;
}.
Record InstalledPackage := { ip_agent_id : string; ip_hostname : option string; ip_manager : string; ip_name : string; ip_version : string; ip_arch : string }.
Record Installed := { in_rows : HostRows InstalledPackage; in_names : Z; in_more_names : bool }.

(** [trait Source]. *)
Record Source := {
  src_finding_groups : GroupFilter -> Z -> Z -> option (Page FindingGroup);
  src_finding_endpoints : string -> string -> Z -> Z -> option EndpointPage;
  src_agent_summaries : string -> Z -> Z -> option (Page AgentSummary);
  src_host_vulnerabilities : string -> option string -> Z -> option (Page HostVulnerability);
  src_vulnerable_hosts : string -> Z -> option (Page VulnerableHost);
  src_overview : Z -> Z -> Z -> option Overview;
  src_rule_envelope : string -> option Served;
  src_host_report : string -> option (option HostReport);
  src_host_listeners : string -> option Z -> Z -> option (Page Listener);
  src_host_services : string -> Z -> option (Page Service);
  src_port_listeners : Z -> Z -> option (HostRows PortListener);
  src_installed_packages : string -> option string -> Z -> option Installed;
}.

(** What is read of a published rule set: its version and whether its payload is JSON, the payload, and the rules in it. *)
Record RuleEnvelope := { re_json : bool; re_version : Z; re_payload : string }.
Record PublishedRule := { pr_id : string; pr_version : Z; pr_title : string; pr_severity : string; pr_message : string; pr_expression : string }.

Definition agent_cite (id : string) : value := JString (of_chars (show_citation (CAgent (chars id)))).
Definition finding_cite (rule_set rule : string) : value := JString (of_chars (show_citation (CFinding (chars rule_set) (chars rule)))).
Definition advisory_cite (id : string) : value := JString (of_chars (show_citation (CAdvisory (chars id)))).
Definition shown_rule_set (id : string) : string := if is_empty id then "~unknown" else id.
Definition json_strings (l : list string) : value := JArray (map JString l).
Definition json_float (o : option unit) : value := match o with Some _ => JFloat | None => JNull end.

(** packages.rs: those with a fix first, at most ten, and how many are left out. *)
Definition MAX_PACKAGES : nat := 10.
Definition fixed_null (p : value) : bool := is_null (index p "fixed").
Definition capped (packages : value) : value * Z :=
  let all := default [] (as_array packages) in
  (JArray (take MAX_PACKAGES (List.filter (fun p => negb (fixed_null p)) all ++ List.filter fixed_null all)), Z.max 0 (Z.of_nat (length all) - Z.of_nat MAX_PACKAGES)).

(** inventory.rs. *)
Definition split_items (items listeners services : Z) : Z * Z :=
  let services := Z.min services (Z.max (items / 2) (Z.max 0 (items - listeners))) in
  (Z.min listeners (items - services), services).

Definition agent_state (status : string) (last_seen : option Z) (offline_before : Z) : string :=
  if String.eqb status "revoked" then "revoked"
  else if String.eqb status "imported" then "imported"
  else match last_seen with None => "never seen" | Some seen => if seen <? offline_before then "offline" else "seen recently" end.

Definition NOTE_NO_FINDING : string := "no finding with this rule".
Definition NOTE_NONE_IN_WINDOW : string := "no finding with this rule in the window".
Definition NOTE_SET_NOT_FOUND : string := "rule set not found; showing all rule sets".
Definition NOTE_NEVER_REPORTED : string := "this host has never reported ports or services: it does not run the ports collector or has not reported yet, so nothing is known about its ports".
Definition NOTE_PARTIAL_OWNERS : string := "some owning services or programs were not visible to the agent".
Definition NOTE_TRUNCATED : string := "the agent cut its lists to the protocol limits".
Definition NOTE_MORE_NAMES : string := "more package names match; ask with a longer name".
Definition GROUPS : Z := 100.
Definition MAX_RULE_PAYLOAD : Z := 1024 * 1024.
Definition MAX_EXPRESSION : nat := 500.
Definition HOUR : Z := 3600.
Definition OFFLINE_AFTER : Z := 3 * 60.

Definition or_store {A} (o : option A) : result A := match o with Some a => inr a | None => inl Store end.

Section lookups.
Context (time : Z -> string) (read_envelope : list Z -> option RuleEnvelope) (read_rules : string -> option (list PublishedRule)).
Context (source : Source) (now : Z).
Notation summary_map := (list (string * value)) (only parsing).

Definition since_hours (hours : Z) : Z := now - hours * HOUR.
Definition json_time (o : option Z) : value := match o with Some t => JString (time t) | None => JNull end.

Definition group_json (g : FindingGroup) : value :=
  obj [("cite", finding_cite (fg_rule_set_id g) (fg_rule_id g)); ("rule_set", JString (shown_rule_set (fg_rule_set_id g))); ("rule", JString (fg_rule_id g));
       ("severity", JString (fg_severity g)); ("endpoints", json_int (fg_endpoints g)); ("rule_versions", JArray (map json_int (fg_rule_versions g)));
       ("first_observed", JString (time (fg_first_observed_at g))); ("last_observed", JString (time (fg_last_observed_at g)));
       ("message", json_opt_str (fg_message g))].
Definition groups_json (p : Page FindingGroup) : list value := map group_json (p_items p).

Definition resolve_agent (key : string) : result (option string) :=
  found ← or_store (src_agent_summaries source key now 2);
  match p_items found with [] => inr None | [one] => inr (Some (as_agent_id one)) | _ => inl Ambiguous end.

(** ** resolve.rs *)

Definition set_cmp : string * string -> string * string -> comparison := pair_cmp str_cmp str_cmp.
(** [dedup] of a sorted list: equal neighbours. *)
Fixpoint dedup (l : list (string * string)) : list (string * string) :=
  match l with
  | a :: (b :: _) as t => if bool_decide (a = b) then dedup t else a :: dedup t
  | _ => l
  end.
Definition rule_sets_for (rule : string) : result (list (string * string)) :=
  p ← or_store (src_finding_groups source {| gf_text := Some rule; gf_min_severity := None; gf_rule_set_id := None |} (since_hours MAX_WINDOW_HOURS) GROUPS);
  inr (dedup (sort_by set_cmp (map (fun g => (fg_rule_set_id g, fg_rule_id g)) (List.filter (fun g => eq_ignore_ascii_case (fg_rule_id g) rule) (p_items p))))).
Definition search_all_if_set_unknown (text_ min_severity rule_set : option string) (window_hours items : Z) : result (option (Page FindingGroup)) :=
  any ← or_store (src_finding_groups source {| gf_text := None; gf_min_severity := None; gf_rule_set_id := rule_set |} (since_hours MAX_WINDOW_HOURS) 1);
  if 0 <? p_total any then inr None
  else all ← or_store (src_finding_groups source {| gf_text := text_; gf_min_severity := min_severity; gf_rule_set_id := None |} (since_hours window_hours) items);
       inr (Some all).
(** The named set alone, when it is among them. *)
Definition named_only (named : option string) (sets : list (string * string)) : list (string * string) :=
  match named with
  | Some set => if existsb (fun s => String.eqb s.1 set) sets then List.filter (fun s => String.eqb s.1 set) sets else sets
  | None => sets
  end.
Definition rule_set_for_description (named : option string) (rule : string) : result (string * string) :=
  sets ← rule_sets_for rule;
  match named_only named sets with [] => inr (default EmptyString named, rule) | [one] => inr one | _ => inl AmbiguousRule end.

Definition endpoint_json (many : bool) (set rule : string) (e : FindingEndpoint) : value :=
  obj ([("cite", agent_cite (fe_agent_id e)); ("hostname", json_opt_str (fe_hostname e)); ("first_observed", JString (time (fe_first_observed_at e)));
        ("last_observed", JString (time (fe_last_observed_at e))); ("rule_version", json_int (fe_rule_version e)); ("severity", JString (fe_severity e))]
       ++ if many then [("rule_set", JString (shown_rule_set set)); ("finding", finding_cite set rule)] else []).
Fixpoint endpoint_pages (many : bool) (sets : list (string * string)) (since items : Z) : result (list value * Z * Z) :=
  match sets with
  | [] => inr ([], 0, 0)
  | (set, rule) :: sets =>
      p ← or_store (src_finding_endpoints source set rule since items);
      rest ← endpoint_pages many sets since items;
      inr (map (endpoint_json many set rule) (ep_items p) ++ rest.1.1, ep_total p + rest.1.2, ep_older p + rest.2)
  end.
(** [sort_by] on the time of the last observation, the newest first: stable. *)
Definition newer_first (a b : value) : comparison := option_cmp str_cmp (as_str (index b "last_observed")) (as_str (index a "last_observed")).
Definition finding_endpoints_resolved (summary : summary_map) (named : option string) (rule : string) (since window_hours items : Z) : result value :=
  sets ← rule_sets_for rule;
  let sets := named_only named sets in
  let fallback := match sets, named with [], Some _ => true | _, _ => false end in
  let sets := match sets, named with [], Some set => [(set, rule)] | _, _ => sets end in
  let summary := put "window_hours" (json_int window_hours) summary in
  match sets with
  | [] => inr (page (put "note" (JString NOTE_NO_FINDING) summary) [] 0)
  | first :: _ =>
      let many := (1 <? length sets)%nat in
      r ← endpoint_pages many sets since items;
      let '(all, total, older) := r in
      let all := if many then take (Z.to_nat items) (sort_by newer_first all) else all in
      let summary :=
        if many then summary
        else if fallback then put "note" (JString (if 0 <? older then NOTE_NONE_IN_WINDOW else NOTE_NO_FINDING)) summary
        else put "finding" (finding_cite first.1 first.2) summary in
      inr (page (put "not_seen_in_window" (json_int older) summary) all total)
  end.

(** ** inventory.rs *)

Definition port_listener_json (l : PortListener) : value :=
  obj [("cite", agent_cite (pl_agent_id l)); ("hostname", json_opt_str (pl_hostname l)); ("protocol", JString (pl_protocol l)); ("address", JString (pl_address l));
       ("exposed", JBool (pl_exposed l)); ("service", json_opt_str (pl_service l)); ("program", json_opt_str (pl_program l))].
Definition listener_json (l : Listener) : value :=
  obj [("kind", JString "listening port"); ("port", json_int (li_port l)); ("protocol", JString (li_protocol l)); ("address", JString (li_address l));
       ("exposed", JBool (li_exposed l)); ("service", json_opt_str (li_service l)); ("program", json_opt_str (li_program l))].
Definition service_json (s : Service) : value :=
  obj [("kind", JString "running service"); ("service", JString (sv_unit s)); ("programs", json_strings (sv_programs s)); ("processes", json_int (sv_processes s));
       ("run_as", json_opt_str (sv_run_as s))].
Definition report_notes (r : HostReport) : list string :=
  match hr_reported_at r with
  | None => [NOTE_NEVER_REPORTED]
  | Some _ => (if bool_decide (hr_owners r = Some "partial") then [NOTE_PARTIAL_OWNERS] else []) ++ (if hr_truncated r then [NOTE_TRUNCATED] else [])
  end.
Definition no_agent (summary : summary_map) : value := page (put "agent" JNull summary) [] 0.
Definition if_revoked (status : string) (summary : summary_map) : summary_map := if String.eqb status "revoked" then put "state" (JString "revoked") summary else summary.
Definition host_services_lookup (summary : summary_map) (agent : option string) (port : option Z) (items : Z) : result value :=
  let summary := put "port" (json_opt_int port) summary in
  match agent with
  | None =>
      rows ← or_store (src_port_listeners source (default 0 port) items);
      inr (page (put "hosts" (json_int (rows_hosts rows)) summary) (map port_listener_json (rows_items rows)) (rows_total rows))
  | Some agent =>
      id ← resolve_agent agent;
      match id with
      | None => inr (no_agent summary)
      | Some agent_id =>
          report ← or_store (src_host_report source agent_id);
          match report with
          | None => inr (no_agent summary)
          | Some report =>
              let summary := put "reported_at" (json_time (hr_reported_at report)) (if_revoked (hr_status report) (put "agent" (agent_cite agent_id) summary)) in
              let summary := match report_notes report with [] => summary | notes => put "notes" (json_strings notes) summary end in
              listeners ← or_store (src_host_listeners source agent_id port items);
              services ← match port with Some _ => inr {| p_items := []; p_total := 0 |} | None => or_store (src_host_services source agent_id items) end;
              let '(take_listeners, take_services) := split_items items (Z.of_nat (length (p_items listeners))) (Z.of_nat (length (p_items services))) in
              inr (page summary (map listener_json (take (Z.to_nat take_listeners) (p_items listeners))
                                 ++ map service_json (take (Z.to_nat take_services) (p_items services)))
                        (p_total listeners + p_total services))
          end
      end
  end.
Definition package_json (p : InstalledPackage) : value :=
  obj [("cite", agent_cite (ip_agent_id p)); ("hostname", json_opt_str (ip_hostname p)); ("package", JString (ip_name p)); ("version", JString (ip_version p));
       ("arch", JString (ip_arch p)); ("manager", JString (ip_manager p))].
Definition software_rows (summary : summary_map) (name : string) (agent_id : option string) (items : Z) : result value :=
  found ← or_store (src_installed_packages source name agent_id items);
  let summary := put "hosts_with_these_names" (json_int (rows_hosts (in_rows found))) (put "package_names" (json_int (in_names found)) summary) in
  let summary := if in_more_names found then put "note" (JString NOTE_MORE_NAMES) summary else summary in
  inr (page summary (map package_json (rows_items (in_rows found))) (rows_total (in_rows found))).
Definition software_lookup (summary : summary_map) (name : string) (agent : option string) (items : Z) : result value :=
  match agent with
  | None => software_rows summary name None items
  | Some agent =>
      id ← resolve_agent agent;
      match id with
      | None => inr (no_agent summary)
      | Some agent_id =>
          report ← or_store (src_host_report source agent_id);
          let summary := put "agent" (agent_cite agent_id) summary in
          let summary := match report with Some r => if_revoked (hr_status r) summary | None => summary end in
          software_rows summary name (Some agent_id) items
      end
  end.

(** ** lookups.rs *)

Definition rule_json (served : Served) (rule_set rule : string) : value :=
  match served with
  | ServedEnvelope bytes =>
      match read_envelope bytes with
      | Some e =>
          if negb (re_json e) || (MAX_RULE_PAYLOAD <? str_len (re_payload e)) then JNull
          else match read_rules (re_payload e) with
          | Some rules =>
              match List.find (fun r => String.eqb (pr_id r) rule) rules with
              | Some r =>
                  obj [("cite", finding_cite rule_set rule); ("bundle_version", json_int (re_version e)); ("version", json_int (pr_version r));
                       ("title", JString (pr_title r)); ("severity", JString (pr_severity r)); ("message", JString (pr_message r));
                       ("expression", JString (of_chars (take MAX_EXPRESSION (chars (pr_expression r)))))]
              | None => JNull
              end
          | None => JNull
          end
      | None => JNull
      end
  | _ => JNull
  end.
Definition summary_json (a : AgentSummary) : value :=
  obj [("cite", agent_cite (as_agent_id a)); ("hostname", json_opt_str (as_hostname a)); ("state", JString (agent_state (as_status a) (as_last_seen_at a) (now - OFFLINE_AFTER)));
       ("last_seen", json_time (as_last_seen_at a)); ("scanner_version", json_opt_str (as_scanner_version a));
       ("os", json_opt_str (option_map (fun o => o.1 +:+ " " +:+ o.2) (as_os a))); ("running_kernel", json_opt_str (as_running_kernel a));
       ("capabilities", json_strings (as_capabilities a)); ("findings_last_24h", json_int (as_findings a)); ("open_vulnerabilities", json_int (as_open_vulnerabilities a));
       ("exploited_vulnerabilities", json_int (as_exploited_vulnerabilities a))].
Definition vulnerability_json (v : HostVulnerability) : value :=
  obj [("cite", advisory_cite (hv_advisory_id v)); ("severity", JString (hv_severity v)); ("title", JString (hv_title v)); ("cves", json_strings (hv_cves v));
       ("exploited", JBool (hv_exploited v)); ("epss_percentile", json_float (hv_epss_percentile v)); ("reboot_needed", JBool (hv_reboot_needed v));
       ("first_seen", JString (time (hv_first_seen_at v)))].
Definition host_json (h : VulnerableHost) : value :=
  obj [("cite", agent_cite (vh_agent_id h)); ("hostname", json_opt_str (vh_hostname h)); ("advisory", advisory_cite (vh_advisory_id h)); ("severity", JString (vh_severity h));
       ("title", JString (vh_title h)); ("first_seen", JString (time (vh_first_seen_at h))); ("reboot_needed", JBool (vh_reboot_needed h));
       ("packages", (capped (vh_packages h)).1); ("packages_omitted", json_int (capped (vh_packages h)).2)].
Definition advisory_json (a : AdvisoryHosts) : value :=
  obj [("cite", advisory_cite (ah_advisory_id a)); ("severity", JString (ah_severity a)); ("title", JString (ah_title a)); ("hosts", json_int (ah_hosts a));
       ("exploited", JBool (ah_exploited a)); ("epss_percentile", json_float (ah_epss_percentile a))].
Definition counts_json (c : AgentCounts) : value :=
  obj [("seen_recently", json_int (ac_seen_recently c)); ("offline", json_int (ac_offline c)); ("never_seen", json_int (ac_never_seen c));
       ("revoked", json_int (ac_revoked c)); ("imported", json_int (ac_imported c))].

(** [LookupRunner::run]. *)
Definition run_lookup (lookup : LookupRequest) (items : Z) : result value :=
  match lookup with
  | SearchFindings text_ min_severity rule_set window_hours =>
      p ← or_store (src_finding_groups source {| gf_text := text_; gf_min_severity := min_severity; gf_rule_set_id := rule_set |} (since_hours window_hours) items);
      let summary := put "window_hours" (json_int window_hours) [] in
      all ← (if (p_total p =? 0) && is_some rule_set then search_all_if_set_unknown text_ min_severity rule_set window_hours items else inr None);
      match all with
      | Some all => inr (page (put "note" (JString NOTE_SET_NOT_FOUND) summary) (groups_json all) (p_total all))
      | None => inr (page summary (groups_json p) (p_total p))
      end
  | FindingEndpoints rule_set rule window_hours => finding_endpoints_resolved [] rule_set rule (since_hours window_hours) window_hours items
  | LAgentSummary agent =>
      p ← or_store (src_agent_summaries source agent (since_hours DEFAULT_WINDOW_HOURS) (Z.min items 5));
      inr (page [] (map summary_json (p_items p)) (p_total p))
  | HostVulnerabilities agent min_severity =>
      id ← resolve_agent agent;
      match id with
      | None => inr (no_agent [])
      | Some agent_id =>
          p ← or_store (src_host_vulnerabilities source agent_id min_severity items);
          inr (page (put "min_severity" (json_opt_str min_severity) (put "agent" (agent_cite agent_id) [])) (map vulnerability_json (p_items p)) (p_total p))
      end
  | VulnerabilityHosts id =>
      p ← or_store (src_vulnerable_hosts source id items);
      inr (page [] (map host_json (p_items p)) (p_total p))
  | FleetOverview window_hours =>
      o ← or_store (src_overview source (since_hours window_hours) now (Z.min items 5));
      let summary := put "top_advisories" (JArray (map advisory_json (p_items (ov_top_advisories o))))
        (put "hosts_with_exploited" (json_int (ov_hosts_with_exploited o)) (put "open_vulnerabilities" (json_int (ov_open_vulnerabilities o))
        (put "agents" (counts_json (ov_agents o)) (put "window_hours" (json_int window_hours) [])))) in
      inr (page summary (groups_json (ov_top_findings o)) (p_total (ov_top_findings o)))
  | RuleDescription rule_set rule =>
      r ← rule_set_for_description rule_set rule;
      served ← or_store (src_rule_envelope source r.1);
      inr (page (put "rule" (rule_json served r.1 r.2) []) [] 0)
  | HostServices agent port => host_services_lookup [] agent port items
  | Software name agent => software_lookup [] name agent items
  | LReference _ | WebSearch _ => inl Unknown
  end.
End lookups.
