(* ===== verification/AsstConsole.v ===== *)
(** * The assistant: the console's side (openvibes-console/src/assistant/, openvibes-fetch/src/outside.rs)

    Internet lookups, then the lookups by permission and a user's request.  One exchange with the helper per lookup, at most twenty per user and hour, an audit row for each, and the lines of
    sources under the answer.  The exchange is a function from a request to the response, or nothing. *)
From S2P Require Import Prelude RustStd Text Json AccessData AccessRules Lines SetData FetchServe AsstLookup AsstSource AsstRun.
From stdpp Require Import prelude strings list pretty.
From Stdlib Require Import Ascii ZArith Lia.

Open Scope Z_scope.

(** ** outside.rs *)

Definition NOTE_OFF : string := "internet lookups are off".
Definition NOTE_BLOCKED : string := "blocked: the query contained internal data".
Definition NOTE_LIMIT : string := "the internet lookup limit is reached; try again later".
Definition NOTE_REFERENCE_DOWN : string := "OSV could not be reached; this answer uses local data only".
Definition NOTE_SEARCH_DOWN : string := "the web search could not be reached; this answer uses local data only".
Definition NOTE_INVALID : string := "not a public advisory or CVE ID".
Definition note (t : string) : value := obj [("note", JString t)].
Definition web_ref (n : nat) : string := "[web:" +:+ pretty (Z.of_nat n) +:+ "]".
Definition outside_item (n : nat) (i : Item) : value :=
  obj [("ref", JString (web_ref n)); ("title", JString (it_title i)); ("snippet", JString (it_snippet i)); ("url", JString (it_url i))].
Fixpoint outside_items (first : nat) (items : list Item) : list value :=
  match items with [] => [] | i :: items => outside_item first i :: outside_items (S first) items end.
Definition outside_data (source : string) (items : list Item) (first : nat) : value :=
  obj [("source", JString source); ("outside_data", JBool true); ("items", JArray (outside_items first items)); ("omitted", json_int 0)].
Definition host_end (c : Z) : bool := (c =? 47) || (c =? 63) || (c =? 35) || (c =? 92).
Definition link_char (c : Z) : bool := is_ascii_alphanumeric c || (c =? 46) || (c =? 45) || (c =? 58) || (c =? 91) || (c =? 93).
Definition link_host (url : string) : option string :=
  '(_, rest) ← scheme_of url;
  let authority := fst (span (fun c => negb (host_end c)) (chars rest)) in
  let host := to_ascii_lowercase (match rsplit_once "@" (of_chars authority) with Some (_, h) => h | None => of_chars authority end) in
  if negb (is_empty host) && forallb link_char (chars host) then Some host else None.

(** ** fetch_client.rs *)

Definition PER_HOUR : Z := 20.
(** [Limits]: the hour and the lookups used in it, per user. *)
Notation limits := (list (string * (Z * Z))).
Fixpoint used (user : string) (m : limits) : option (Z * Z) :=
  match m with [] => None | (u, x) :: m => if String.eqb u user then Some x else used user m end.
Definition set_used (user : string) (x : Z * Z) (m : limits) : limits := (user, x) :: List.filter (fun kv => negb (String.eqb kv.1 user)) m.
Definition allow_lookup (user : string) (hour : Z) (m : limits) : bool * limits :=
  let m := List.filter (fun kv => kv.2.1 =? hour) m in
  let count := match used user m with Some (_, n) => n | None => 0 end + 1 in
  (count <=? PER_HOUR, set_used user (hour, count) m).

Inductive SentKind := SentReference | SentSearch | SentBlocked.
#[export] Instance sent_kind_eq_dec : EqDecision SentKind.
Proof. solve_decision. Defined.
Record Sent := { sn_kind : SentKind; sn_subject : string; sn_first : nat; sn_links : list string }.
Record LookupAudit := { la_user : string; la_result : string; la_request_id : string; la_kind : string; la_subject : string; la_destination : string }.
(** What lookups change: the limits and the audit log are the console's, [on_sent] and [on_failed] the answer's; then the requests made, with
    their hour, and how many lookups ran. *)
Record Online := { on_limits : limits; on_audit : list LookupAudit; on_sent : list Sent; on_failed : bool; on_out : list (Z * FetchRequest); on_runs : nat }.

Definition code_name (c : Refusal) : string :=
  match c with Off => "off" | Blocked => "blocked" | Invalid => "invalid" | Unavailable => "unavailable" | TooLarge => "too_large" end.
Definition kind_word (k : SentKind) : string := match k with SentReference => "reference" | SentSearch => "search" | SentBlocked => "blocked" end.
(** [Internet::record]: the first number, and the list. *)
Definition record_sent (kind : SentKind) (subject : string) (response : option Response) (sent : list Sent) : nat * list Sent :=
  let first := match last sent with Some s => (sn_first s + length (sn_links s))%nat | None => 1%nat end in
  let '(kind, links) :=
    match response with
    | Some (Found _ items) => (kind, Some (map it_url items))
    | Some (Refused (Unavailable | TooLarge)) => (kind, if bool_decide (kind = SentSearch) then Some [] else None)
    | Some (Refused Blocked) => (SentBlocked, Some [])
    | _ => (kind, None)
    end in
  (first, match links with Some links => sent ++ [{| sn_kind := kind; sn_subject := subject; sn_first := first; sn_links := links |}] | None => sent end).

(** The kind, subject, request, failure note and destination of a lookup. *)
Definition wire_of (l : LookupRequest) : option (SentKind * string * LookupKind * string * string) :=
  match l with
  | LReference id => Some (SentReference, upper_prefix id, KReference (upper_prefix id), NOTE_REFERENCE_DOWN, "osv.dev")
  | WebSearch query => Some (SentSearch, query, KSearch query, NOTE_SEARCH_DOWN, "web search")
  | _ => None
  end.

Section internet.
(** The user and the question; the level in force, the hour, the exchange, and whether the audit row can be written. *)
Context (user request_id : string) (level hour : Z) (ask : FetchRequest -> option Response) (audit_ok : bool).

Definition read_response (kind : SentKind) (down : string) (first : nat) (response : option Response) : value :=
  match response with
  | Some (Found source items) => outside_data source items first
  | Some (Refused Off) => note NOTE_OFF
  | Some (Refused Blocked) => note NOTE_BLOCKED
  | Some (Refused Invalid) => if bool_decide (kind = SentReference) then note NOTE_INVALID else note down
  | _ => note down
  end.
Definition audit_of (kind : SentKind) (subject fallback : string) (response : option Response) : LookupAudit :=
  let '(destination, result) :=
    match response with
    | Some (Found source _) => (source, "success")
    | Some (Refused code) => (fallback, "refused:" +:+ code_name code)
    | None => (fallback, "unreachable")
    end in
  {| la_user := user; la_result := result; la_request_id := request_id; la_kind := kind_word kind; la_subject := subject; la_destination := destination |}.
Definition internet_run (l : LookupRequest) (o : Online) : Online * result value :=
  match wire_of l with
  | None => (o, inl Unknown)
  | Some (kind, subject, wire, down, fallback) =>
      if (level =? 0) || (bool_decide (kind = SentSearch) && (level <? 2)) then (o, inr (note NOTE_OFF))
      else
        let '(allowed, m) := allow_lookup user hour (on_limits o) in
        let o := {| on_limits := m; on_audit := on_audit o; on_sent := on_sent o; on_failed := on_failed o; on_out := on_out o; on_runs := on_runs o |} in
        if negb allowed then (o, inr (note NOTE_LIMIT))
        else
          let req := {| fr_user := user; fr_kind := wire |} in
          let response := ask req in
          let o := {| on_limits := on_limits o; on_audit := on_audit o; on_sent := on_sent o; on_failed := on_failed o; on_out := on_out o ++ [(hour, req)]; on_runs := on_runs o |} in
          if negb audit_ok then (o, inl Store)
          else
            let '(first, sent) := record_sent kind subject response (on_sent o) in
            ({| on_limits := on_limits o; on_audit := on_audit o ++ [audit_of kind subject fallback response]; on_sent := sent; on_failed := on_failed o; on_out := on_out o; on_runs := on_runs o |},
             inr (read_response kind down first response))
  end.
End internet.

Definition is_failure (data : value) : bool :=
  match get data "note" ≫= as_str with Some t => negb (existsb (String.eqb t) [NOTE_OFF; NOTE_INVALID; NOTE_BLOCKED]) | None => false end.

(** ** The lines of sources *)

Record InternetSource := { so_kind : string; so_text : string; so_url : option string; so_number : option nat }.
(** [encode_component] of types.rs: the same encoding as a search. *)
Definition encode_component (s : string) : string := of_bytes (percent (bytes s)).
Definition head_of (s : Sent) : InternetSource :=
  match sn_kind s with
  | SentBlocked => {| so_kind := "blocked"; so_text := "Web search blocked: the query contained internal data"; so_url := None; so_number := None |}
  | SentReference =>
      let fedora := RustStd.starts_with (sn_subject s) "FEDORA-" in
      {| so_kind := "reference"; so_text := "Looked up " +:+ sn_subject s +:+ " on " +:+ (if fedora then "bodhi.fedoraproject.org" else "osv.dev");
         so_url := Some ((if fedora then "https://bodhi.fedoraproject.org/updates/" else "https://osv.dev/vulnerability/") +:+ encode_component (sn_subject s)); so_number := None |}
  | SentSearch => {| so_kind := "search"; so_text := "Searched the web for: " +:+ sn_subject s; so_url := None; so_number := None |}
  end.
Fixpoint result_rows (n : nat) (links : list string) : list InternetSource :=
  match links with
  | [] => []
  | url :: links =>
      match link_host url with
      | Some h => {| so_kind := "result"; so_text := h; so_url := Some url; so_number := Some n |} :: result_rows (S n) links
      | None => result_rows (S n) links
      end
  end.
Definition same_source (o e : InternetSource) : bool :=
  match so_url o, so_url e with Some a, Some b => String.eqb a b | None, None => String.eqb (so_text o) (so_text e) | _, _ => false end.
(** A row already there lends its place, and takes the number if it has none. *)
Fixpoint add_source (e : InternetSource) (out : list InternetSource) : list InternetSource :=
  match out with
  | [] => [e]
  | o :: out =>
      if same_source o e then {| so_kind := so_kind o; so_text := so_text o; so_url := so_url o; so_number := or_else (so_number o) (so_number e) |} :: out
      else o :: add_source e out
  end.
Definition internet_sources (failed : bool) (sent : list Sent) : list InternetSource :=
  fold_left (fun out e => add_source e out) (flat_map (fun s => head_of s :: result_rows (sn_first s) (sn_links s)) sent) []
  ++ (if failed then [{| so_kind := "unavailable"; so_text := "Internet lookup unavailable; this answer uses local data only"; so_url := None; so_number := None |}] else []).

Example links_vectors :
  map link_host ["https://Osv.dev/vulnerability/X"; "http://b.example:8080?q=1"; "https://user@evil.example/x"; "javascript:alert(1)"; "https:///x"; "https://a b/"]
  = [Some "osv.dev"; Some "b.example:8080"; Some "evil.example"; None; None; None].
Proof. vm_compute. reflexivity. Qed.

(** * The assistant in the console (openvibes-console/src/assistant: lookups.rs, chat.rs, types.rs)

    [caller] is what [authenticated_permission] answers for a permission, with or without the check of the token of the
    session; [source_of] the store limited to a scope; [matches] the agents of a scope that a name or an id names. *)

Open Scope Z_scope.

(** ** lookups.rs *)

#[export] Instance permission_scope_eq_dec : EqDecision PermissionScope.
Proof. solve_decision. Defined.

(** [Access]: the scope of hosts and findings, of vulnerabilities, and whether every published rule may be read. *)
Record Access := { acc_agents : PermissionScope; acc_vulnerabilities : option PermissionScope; acc_rules : bool }.
Inductive AgentState := ActiveAgent | StaleAgent | RevokedAgent | ImportedAgent.
Record MatchedAgent := { ma_agent_id : string; ma_hostname : option string; ma_state : AgentState; ma_last_seen_at : option Z }.
Definition matched_state (a : MatchedAgent) : string :=
  match ma_state a with
  | ActiveAgent => "seen recently"
  | StaleAgent => if is_some (ma_last_seen_at a) then "offline" else "never seen"
  | RevokedAgent => "revoked"
  | ImportedAgent => "imported"
  end.

Section lookups.
Context (time time_full : Z -> string) (read_envelope : list Z -> option RuleEnvelope) (read_rules : string -> option (list PublishedRule)).
Context (source_of : PermissionScope -> Source) (matches : PermissionScope -> string -> option (list MatchedAgent)) (now : Z).
Context (access : Access).

Definition in_scope (scope : PermissionScope) : LookupRequest -> Z -> result value := run_lookup time read_envelope read_rules (source_of scope) now.
(** [fleet_overview] needs both scopes, and the same. *)
Definition overview_allowed : bool := match acc_vulnerabilities access with Some s => bool_decide (s = acc_agents access) | None => false end.
Definition matched_json (a : MatchedAgent) : value :=
  obj [("cite", JString ("[agent:" +:+ ma_agent_id a +:+ "]")); ("hostname", json_opt_str (ma_hostname a)); ("state", JString (matched_state a));
       ("last_seen", match ma_last_seen_at a with Some t => JString (time_full t) | None => JNull end)].
(** The lookups of the store, by permission. *)
Definition store_lookup (l : LookupRequest) (items : Z) : result value :=
  match l with
  | SearchFindings _ _ _ _ | FindingEndpoints _ _ _ | HostServices _ _ | Software _ _ => in_scope (acc_agents access) l items
  | HostVulnerabilities _ _ | VulnerabilityHosts _ =>
      match acc_vulnerabilities access with Some scope => in_scope scope l items | None => inl (Forbidden Vulnerabilities) end
  | FleetOverview _ => if overview_allowed then in_scope (acc_agents access) l items else inl (Forbidden Vulnerabilities)
  | RuleDescription _ rule =>
      if acc_rules access then in_scope (acc_agents access) l items
      else sets ← rule_sets_for (source_of (acc_agents access)) now rule;
           match sets with [] => inl (Forbidden Rules) | _ => in_scope (acc_agents access) l items end
  | LAgentSummary agent =>
      l ← or_store (matches (acc_agents access) agent);
      if (1 <? length l)%nat then inl Ambiguous
      else inr (obj [("items", JArray (map matched_json l)); ("omitted", json_int 0)])
  | LReference _ | WebSearch _ => inl Unknown
  end.

(** Of the n-th lookup: the level in force, the hour, the exchange, and whether the audit row can be written. *)
Context (user request_id : string) (level hour : nat -> Z) (ask : nat -> FetchRequest -> option Response) (audit_ok : nat -> bool).
Definition after_run (failed : bool) (o : Online) : Online :=
  {| on_limits := on_limits o; on_audit := on_audit o; on_sent := on_sent o; on_failed := on_failed o || failed; on_out := on_out o; on_runs := S (on_runs o) |}.
(** [ConsoleReadLookups::run]. *)
Definition console_lookup (o : Online) (l : LookupRequest) (items : Z) : Online * result value :=
  if is_internet l then
    let n := on_runs o in
    let '(o, x) := internet_run user request_id (level n) (hour n) (ask n) (audit_ok n) l o in
    (after_run (match x with inr data => is_failure data | inl _ => true end) o, x)
  else (o, store_lookup l items).
End lookups.

(** ** types.rs *)

Inductive ShownSegment := ShownText (t : string) | ShownCitation (target_kind id path : string).
Definition shown_segment (s : Segment) : ShownSegment :=
  match s with
  | SText t => ShownText (of_chars t)
  | SCite (CAgent id) => ShownCitation "agent" (of_chars id) ("/hosts/" +:+ encode_component (of_chars id))
  | SCite (CFinding rule_set rule) => ShownCitation "finding" (of_chars rule_set +:+ "/" +:+ of_chars rule) "/compliance"
  | SCite (CAdvisory id) => ShownCitation "advisory" (of_chars id) "/vulnerabilities"
  end.

(** ** chat.rs *)

Record QuestionRequest := { qr_question : string; qr_history : list Turn }.
Record ShownLookup := { sl_name : option string; sl_objects : nat; sl_error : option string }.
Inductive MessageResponse := AssistantProblem (status : Z) (code : string) | AssistantAnswer (segments : list ShownSegment) (lookups : list ShownLookup) (internet : list InternetSource).
Record QuestionAudit := { qa_actor : string; qa_result : string; qa_request_id : string }.

Definition too_large (q : QuestionRequest) : bool :=
  (4000 <? str_len (qr_question q)) || (20 <=? length (qr_history q))%nat
  || existsb (fun t => (4000 <? str_len (tu_question t)) || (8000 <? str_len (tu_answer t))) (qr_history q)
  || (164000 <? sum_of (fun t => str_len (tu_question t) + str_len (tu_answer t)) (qr_history q) + str_len (qr_question q)).
Definition result_code (x : AnswerError + AsstRun.Answer) : string :=
  match x with
  | inr _ => "success" | inl EmptyQuestion => "empty_question" | inl QuestionTooLong => "question_too_long" | inl (Backend _) => "backend_error"
  | inl Deadline => "deadline" | inl NoAnswer => "no_answer" | inl Truncated => "truncated"
  end.
Definition error_problem (e : AnswerError) : MessageResponse :=
  match e with
  | EmptyQuestion => AssistantProblem 422 "empty_question" | QuestionTooLong => AssistantProblem 422 "question_too_long"
  | Backend _ => AssistantProblem 502 "assistant_backend_error" | Deadline => AssistantProblem 504 "assistant_timeout"
  | NoAnswer => AssistantProblem 502 "assistant_no_answer" | Truncated => AssistantProblem 502 "assistant_truncated"
  end.
(** [Access] from the answers to the permissions: a refusal of vulnerabilities or rules narrows it, another failure ends the request. *)
Definition vulnerabilities_of (x : (Z * string) + (PermissionScope * string)) : (Z * string) + option PermissionScope :=
  match x with inr (scope, _) => inr (Some scope) | inl (status, code) => if status =? 403 then inr None else inl (status, code) end.
Definition rules_of (x : (Z * string) + (PermissionScope * string)) : (Z * string) + bool :=
  match x with inr (scope, _) => inr (bool_decide (scope = Global)) | inl (status, code) => if status =? 403 then inr false else inl (status, code) end.

(** The user, and what may be read. *)
Definition question_access (caller : Permission -> bool -> (Z * string) + (PermissionScope * string)) (q : QuestionRequest) : (Z * string) + (string * Access) :=
  match caller AssistantUse true with
  | inl p => inl p
  | inr (assistant_scope, actor) =>
  match caller HostsRead false with
  | inl p => inl p
  | inr (agents, agent_actor) =>
  match caller ComplianceRead false with
  | inl p => inl p
  | inr (findings, finding_actor) =>
      if negb (String.eqb actor agent_actor) || negb (String.eqb actor finding_actor) || negb (bool_decide (assistant_scope = Global)) then inl (403, "permission_denied")
      else if too_large q then inl (422, "assistant_input_too_large")
      else if negb (bool_decide (agents = findings)) then inl (403, "permission_denied")
      else match vulnerabilities_of (caller VulnerabilitiesRead false) with
      | inl p => inl p
      | inr vulnerabilities =>
          match rules_of (caller RulesContentsRead false) with
          | inl p => inl p
          | inr rules => inr (actor, {| acc_agents := agents; acc_vulnerabilities := vulnerabilities; acc_rules := rules |})
          end
      end
  end end end.

Section chat.
Context (json_text : value -> string) (json_doc first_json : string -> option value) (to_lowercase : string -> string) (is_alphanumeric : Z -> bool) (time time_full : Z -> string).
Context (read_envelope : list Z -> option RuleEnvelope) (read_rules : string -> option (list PublishedRule)).
Context (source_of : PermissionScope -> Source) (matches : PermissionScope -> string -> option (list MatchedAgent)).
Context (chat : nat -> ChatRequest -> Z * list string * (BackendError + ChatResponse)) (took : LookupRequest -> Z).
(** What the handler finds besides the request: the slots free, the model ready and its mode, the scopes read, the level read for the
    tools, what each internet lookup finds, and whether the audit row can be written. *)
Record Found := {
  fd_user_slot : bool; fd_capacity : bool; fd_available : bool; fd_mode : option ResolvedMode; fd_scopes : bool;
  fd_tools_level : Z; fd_level : nat -> Z; fd_hour : nat -> Z; fd_ask : nat -> FetchRequest -> option Response; fd_lookup_audit : nat -> bool; fd_question_audit : bool;
}.
(** [authenticated_assistant_message], of an enabled assistant: the response, the state of the lookups, and the audit rows of the question. *)
Definition assistant_message (caller : Permission -> bool -> (Z * string) + (PermissionScope * string)) (q : QuestionRequest) (max_lookups : Z) (budget : Budget) (backend_deadline : Z)
    (request_id : string) (now : Z) (f : Found) (o : Online) : option (MessageResponse * Online * list QuestionAudit) :=
  let refuse p := Some (AssistantProblem p.1 p.2, o, []) in
  match question_access caller q with
  | inl p => refuse p
  | inr (actor, access) =>
      if negb (fd_user_slot f) then refuse (409, "assistant_busy")
      else if negb (fd_capacity f) then refuse (503, "assistant_busy")
      else if negb (fd_available f) then refuse (503, "assistant_unavailable")
      else match fd_mode f with
      | None => refuse (503, "assistant_unavailable")
      | Some mode =>
          let settings := new_settings max_lookups budget backend_deadline mode now in
          if negb (fd_scopes f) then refuse (503, "authentication_unavailable")
          else
            let runner o l items :=
              let '(o, x) := console_lookup time time_full read_envelope read_rules source_of matches now access actor request_id (fd_level f) (fd_hour f) (fd_ask f) (fd_lookup_audit f) o l items in
              (o, took l, x) in
            let fresh := {| on_limits := on_limits o; on_audit := on_audit o; on_sent := []; on_failed := false; on_out := on_out o; on_runs := on_runs o |} in
            match answer_question json_text json_doc first_json to_lowercase is_alphanumeric time chat runner fresh now settings (qr_history q) (qr_question q) (internet_specs (fd_tools_level f)) with
            | None => None
            | Some (r, x) =>
                let o := match r with Some r => rn_world r | None => fresh end in
                if negb (fd_question_audit f) then Some (AssistantProblem 503 "assistant_audit_unavailable", o, [])
                else
                  let audit := [{| qa_actor := actor; qa_result := result_code x; qa_request_id := request_id |}] in
                  match x with
                  | inl e => Some (error_problem e, o, audit)
                  | inr a =>
                      Some (AssistantAnswer (map shown_segment (an_segments a))
                              (map (fun l => {| sl_name := lr_name l; sl_objects := lr_objects l; sl_error := option_map message (lr_error l) |}) (an_lookups a))
                              (internet_sources (on_failed o) (on_sent o)), o, audit)
                  end
            end
      end
  end.
End chat.
