(* ===== verification/AsstInv.v ===== *)
(** * The assistant: what results hold, and what every step of a question keeps

    Shortening a result ends and shows no more than was there; a citation comes from a row ([run_lookup_clean]); the turns
    end within their measure ([turns_spec]). *)
From S2P Require Import Prelude RustStd Text BTree Json Lines SetData AsstLookup AsstSource AsstRun.
From stdpp Require Import prelude strings list pretty.
From Stdlib Require Import Ascii ZArith Lia.

Open Scope Z_scope.

(** ** Objects *)

Lemma member_In k m v : member k m = Some v -> In (k, v) m.
Proof. induction m as [|[k' v'] m IH]; [done|]. simpl. destruct (String.eqb_spec k' k) as [->|]; [intros [= ->]; by left|intros H; right; by apply IH]. Qed.
Lemma put_In k v m k' v' : In (k', v') (put k v m) -> (k' = k /\ v' = v) \/ In (k', v') m.
Proof.
  unfold put, bt_insert. induction m as [|[a b] m IH]; simpl; [intros [[= <- <-]|[]]; auto|]. destruct (str_cmp k a) eqn:E.
  - intros [[= <- <-]|H]; [left|auto]. split; [|done]. symmetry. by apply (cmp_Eq_iff str_cmp).
  - intros [[= <- <-]|[[= <- <-]|H]]; auto.
  - intros [[= <- <-]|H]; [auto|]. destruct (IH H); auto.
Qed.
Lemma obj_In l k v : (exists m, obj l = JObject m /\ In (k, v) m) -> In (k, v) l.
Proof.
  intros (m & [= <-] & H). enough (forall acc, In (k, v) (fold_left (fun m kv => put kv.1 kv.2 m) l acc) -> In (k, v) acc \/ In (k, v) l) as G by by destruct (G [] H).
  clear H. induction l as [|[a b] l IH]; intros acc H; [by left|]. cbn [fold_left] in H. destruct (IH _ H) as [Hacc|Hl]; [|right; by right].
  apply put_In in Hacc as [[-> ->]|Hacc]; [right; by left|by left].
Qed.

Lemma member_update k f m k' : member k' (update_member k f m) = (if String.eqb k k' then option_map f (member k' m) else member k' m).
Proof.
  induction m as [|[a v] m IH]; simpl; [by destruct (String.eqb k k')|]. destruct (String.eqb_spec a k) as [->|Hak]; simpl.
  - destruct (String.eqb_spec k k'); done.
  - rewrite IH. destruct (String.eqb_spec a k') as [->|]; [|done]. by destruct (String.eqb_spec k k') as [->|].
Qed.
Lemma member_remove k m k' : member k' (remove_member k m) = (if String.eqb k k' then None else member k' m).
Proof.
  unfold remove_member. induction m as [|[a v] m IH]; cbn [List.filter member]; [by destruct (String.eqb k k')|]. cbn [fst]. destruct (String.eqb_spec a k) as [->|Hak]; cbn [negb member].
  - rewrite IH. by destruct (String.eqb_spec k k').
  - rewrite IH. destruct (String.eqb_spec a k') as [->|]; [|done]. by destruct (String.eqb_spec k k') as [->|].
Qed.
Lemma get_at_key k f v k' : get (at_key k f v) k' = (if String.eqb k k' then option_map f (get v k') else get v k').
Proof. destruct v; cbn [at_key get]; try by destruct (String.eqb k k'). apply member_update. Qed.

(** ** Shortening ends *)

Definition shrink_size (data : value) : nat :=
  match get data "items" with Some (JArray items) => length items + match items with v :: _ => snippet_chars v | [] => 0 end | _ => 0%nat end.
Lemma cut_snippet_smaller excess items items' : 0 < excess -> cut_snippet excess items = Some items' ->
  length items' = length items /\ (match items' with v :: _ => snippet_chars v | [] => 0 end < match items with v :: _ => snippet_chars v | [] => 0 end)%nat.
Proof.
  intros He. unfold cut_snippet. destruct items as [|[| | | | | | |only] [|? ?]]; try done. destruct (member "snippet" only) as [[| | | | |s| |]|] eqn:Em; try done.
  destruct (Z.eqb_spec (char_count s) 0) as [|Es]; [done|]. intros [= <-]. split; [done|].
  set (n := Z.to_nat (Z.max 0 (char_count s - excess))). set (kept := of_chars (take n (chars s))).
  assert (snippet_chars (JObject only) = length (chars s)) as -> by (unfold snippet_chars; simpl; by rewrite Em).
  assert (0 < length (chars s))%nat by (unfold char_count in Es; lia).
  assert (n < length (chars s))%nat as Hn by (subst n; unfold char_count; lia).
  destruct (char_count kept =? 0).
  - unfold snippet_chars. cbn [get]. rewrite member_remove. simpl. lia.
  - unfold snippet_chars. cbn [get]. rewrite member_update. simpl. rewrite Em. simpl. subst kept.
    rewrite chars_of_chars by (apply Forall_take, chars_range). rewrite length_take. lia.
Qed.
Lemma shrink_once_smaller json_text max_chars data data' : shrink_once json_text max_chars data = Some data' -> (shrink_size data' < shrink_size data)%nat.
Proof.
  unfold shrink_once. destruct (Z.leb_spec (str_len (json_text data)) max_chars) as [|Hlen]; [done|]. destruct (get data "items") as [[| | | | | |items|]|] eqn:Ei; try done.
  destruct (cut_snippet _ items) as [items'|] eqn:Ec.
  - intros [= <-]. apply cut_snippet_smaller in Ec as [H1 H2]; [|lia]. unfold shrink_size. rewrite get_at_key. simpl. rewrite Ei. simpl. rewrite H1. lia.
  - destruct items as [|v items]; [done|]. intros [= <-]. unfold shrink_size. rewrite !get_at_key. simpl. rewrite Ei. simpl. destruct items as [|w items]; [simpl; lia|].
    change (removelast (v :: w :: items)) with (v :: removelast (w :: items)).
    assert (length (removelast (w :: items)) < length (w :: items))%nat; [|simpl in *; lia]. rewrite (app_removelast_last (l := w :: items) w) at 2 by done. rewrite length_app. simpl. lia.
Qed.
Lemma shrink_to_total json_text max_chars data : exists data', shrink_to json_text max_chars data = Some data'.
Proof.
  unfold shrink_to. assert (shrink_fuel data = S (shrink_size data)) as -> by (unfold shrink_fuel, shrink_size; by destruct (get data "items") as [[]|]).
  enough (forall fuel data, (shrink_size data < fuel)%nat -> exists data', shrink_loop json_text fuel max_chars data = Some data') as H by (apply H; lia).
  clear data. induction fuel as [|fuel IH]; intros data H; [lia|]. simpl. destruct (shrink_once json_text max_chars data) as [data'|] eqn:E; [|by eexists].
  apply IH. apply shrink_once_smaller in E. lia.
Qed.

(** ** Shortening shows nothing new *)

Definition no_key (k : string) : Prop := ~ In k CITATION_KEYS.
Lemma key_citations_ext m m' : (forall k, In k CITATION_KEYS -> member k m' = member k m) -> key_citations m' = key_citations m.
Proof. intros H. unfold key_citations, CITATION_KEYS in *. simpl in *. rewrite !H by auto. done. Qed.
Lemma update_citations k f m : no_key k -> (forall v, In (k, v) m -> forall c, In c (collect_citations (f v)) -> In c (collect_citations v)) ->
  forall c, In c (collect_citations (JObject (update_member k f m))) -> In c (collect_citations (JObject m)).
Proof.
  intros Hk Hf c. cbn [collect_citations]. rewrite (key_citations_ext m).
  2:{ intros k' Hin. rewrite member_update. destruct (String.eqb_spec k k') as [->|]; [by destruct (Hk Hin)|done]. }
  rewrite !in_app_iff. intros [H|H]; [by left|]. right. induction m as [|[a v] m IH]; [done|]. cbn [update_member] in H. destruct (String.eqb_spec a k) as [->|].
  - cbn [flat_map] in *. rewrite in_app_iff in *. destruct H as [H|H]; [left|by right]. apply Hf; [by left|done].
  - cbn [flat_map] in *. rewrite in_app_iff in *. destruct H as [H|H]; [by left|right]. apply IH; [|done]. intros v' Hin. apply Hf. by right.
Qed.
Lemma remove_citations k m : no_key k -> forall c, In c (collect_citations (JObject (remove_member k m))) -> In c (collect_citations (JObject m)).
Proof.
  intros Hk c. cbn [collect_citations]. rewrite (key_citations_ext m).
  2:{ intros k' Hin. rewrite member_remove. destruct (String.eqb_spec k k') as [->|]; [by destruct (Hk Hin)|done]. }
  rewrite !in_app_iff, !in_flat_map. intros [H|([a v] & Hin & Hc)]; [by left|]. right. exists (a, v). split; [|done]. by apply filter_In in Hin as [? _].
Qed.
Ltac not_a_key := unfold no_key; vm_compute; intuition discriminate.
Lemma cut_snippet_citations excess items items' : cut_snippet excess items = Some items' ->
  forall c, In c (flat_map collect_citations items') -> In c (flat_map collect_citations items).
Proof.
  unfold cut_snippet. destruct items as [|[| | | | | | |only] [|? ?]]; try done. destruct (member "snippet" only) as [[| | | | |s| |]|]; try done.
  destruct (char_count s =? 0); [done|]. intros [= <-] c. cbn [flat_map]. rewrite !app_nil_r. destruct (char_count _ =? 0).
  - apply remove_citations. not_a_key.
  - apply update_citations; [not_a_key|]. done.
Qed.
Lemma json_int_citations n : collect_citations (json_int n) = [].
Proof. unfold json_int. by destruct (n <? 0). Qed.
Lemma in_removelast {A} (l : list A) x : In x (removelast l) -> In x l.
Proof. destruct l as [|a l]; [done|]. rewrite (app_removelast_last (l := a :: l) a) at 2 by done. rewrite in_app_iff. auto. Qed.
Lemma shrink_once_citations json_text max_chars data data' : shrink_once json_text max_chars data = Some data' ->
  forall c, In c (collect_citations data') -> In c (collect_citations data).
Proof.
  unfold shrink_once. destruct (_ <=? _); [done|]. destruct (get data "items") as [[| | | | | |items|]|] eqn:Ei; try done. destruct data as [| | | | | | |m]; try done.
  assert (forall items', (forall c, In c (flat_map collect_citations items') -> In c (flat_map collect_citations items)) ->
    forall c, In c (collect_citations (JObject (update_member "items" (fun _ => JArray items') m))) -> In c (collect_citations (JObject m))) as Hitems.
  { intros items' Hi c. cbn [collect_citations get] in *. rewrite (key_citations_ext m).
    2:{ intros k Hin. rewrite member_update. destruct (String.eqb_spec "items" k) as [<-|]; [exfalso; revert Hin; vm_compute; intuition done|done]. }
    rewrite !in_app_iff. intros [H|H]; [by left|]. right. clear - Ei Hi H. induction m as [|[a v] m IH]; [done|]. cbn [update_member member] in *. destruct (String.eqb_spec a "items") as [->|].
    - injection Ei as ->. cbn [flat_map snd collect_citations] in *. rewrite in_app_iff in *. destruct H as [H|H]; [left; by apply Hi|by right].
    - cbn [flat_map] in *. rewrite in_app_iff in *. destruct H as [H|H]; [by left|right; by apply IH]. }
  destruct (cut_snippet _ items) as [items'|] eqn:Ec.
  - intros [= <-]. cbn [at_key]. apply Hitems. by eapply cut_snippet_citations.
  - destruct items as [|v items]; [done|]. intros [= <-] c. cbn [at_key]. intros H. apply update_citations in H; [|not_a_key|intros ? _ ?; by rewrite json_int_citations].
    revert H. apply Hitems. intros c'. rewrite !in_flat_map. intros (x & Hx & Hc). exists x. split; [by apply in_removelast|done].
Qed.
Lemma shrink_to_citations json_text max_chars data data' : shrink_to json_text max_chars data = Some data' ->
  forall c, In c (collect_citations data') -> In c (collect_citations data).
Proof.
  unfold shrink_to. generalize (shrink_fuel data) as fuel. intros fuel. revert data. induction fuel as [|fuel IH]; intros data; [done|]. simpl.
  destruct (shrink_once json_text max_chars data) as [d|] eqn:E; [|by intros [= ->]]. intros H c Hc. eapply shrink_once_citations; [done|]. by apply (IH _ H).
Qed.

(** ** A lookup carries the name it was asked by *)

Lemma parse_name json_doc name arguments_ l : parse_lookup json_doc name arguments_ = inr l -> lookup_name l = name.
Proof.
  unfold parse_lookup, parse_internet, parse_inventory.
  repeat match goal with
  | |- (if String.eqb name ?s then _ else _) = _ -> _ => destruct (String.eqb_spec name s) as [->|]
  | |- (if ?b then _ else _) = _ -> _ => destruct b
  | |- (?m ≫= _) = _ -> _ => let E := fresh in destruct m eqn:E; [done|]; cbn [mbind result_bind]; clear E
  | |- inr _ = inr _ -> _ => by intros [= <-]
  | |- inl _ = inr _ -> _ => done
  end.
Qed.

(** * What a lookup may cite: only objects of the rows it read

    [good] is any property of citations as they are written.  When every row of the source has it, so has every
    citation found in a result, whatever the names, messages and other texts of the rows hold. *)

Open Scope Z_scope.

Section clean.
Context (good : text -> Prop).

Definition clean (v : value) : Prop := forall c, In c (collect_citations v) -> good (show_citation c).
Definition field_ok (kv : string * value) : Prop :=
  clean kv.2 /\ (In kv.1 CITATION_KEYS -> forall s c, kv.2 = JString s -> parse_citation (chars s) = Some c -> good (show_citation c)).
Definition fields_ok (m : list (string * value)) : Prop := forall kv, In kv m -> field_ok kv.

Lemma clean_object m : fields_ok m -> clean (JObject m).
Proof.
  intros H c. cbn [collect_citations]. rewrite in_app_iff, in_flat_map. intros [Hk|([k v] & Hin & Hc)].
  - unfold key_citations in Hk. apply list_elem_of_In, list_elem_of_omap in Hk as (k & Hk & (v & Hm & (s & Hs & Hp)%bind_Some)%bind_Some).
    destruct v; try done. injection Hs as ->. destruct (H (k, JString s)) as [_ G]; [by apply member_In|]. apply (G (proj1 (list_elem_of_In _ _) Hk) s c); done.
  - destruct (H (k, v) Hin) as [G _]. by apply G.
Qed.
Lemma clean_obj l : Forall field_ok l -> clean (obj l).
Proof. intros H. apply clean_object. intros [k v] Hin. rewrite Forall_forall in H. apply H, list_elem_of_In, obj_In. by eexists. Qed.
Lemma clean_array l : Forall clean l -> clean (JArray l).
Proof. intros H c. cbn [collect_citations]. rewrite in_flat_map. intros (v & Hin & Hc). rewrite Forall_forall in H. apply (H v); [by apply list_elem_of_In|done]. Qed.
Lemma clean_nothing v : collect_citations v = [] -> clean v.
Proof. intros H c. by rewrite H. Qed.
Lemma clean_strings l : clean (json_strings l).
Proof. apply clean_array, Forall_forall. intros v Hv. apply list_elem_of_In, in_map_iff in Hv as (s & <- & _). by apply clean_nothing. Qed.
Lemma clean_opt_str o : clean (json_opt_str o).
Proof. apply clean_nothing. by destruct o. Qed.
Lemma clean_int n : clean (json_int n).
Proof. apply clean_nothing, json_int_citations. Qed.
Lemma clean_ints l : clean (JArray (map json_int l)).
Proof. apply clean_array, Forall_forall. intros v Hv. apply list_elem_of_In, in_map_iff in Hv as (s & <- & _). apply clean_int. Qed.
Lemma clean_opt_int o : clean (json_opt_int o).
Proof. destruct o; [apply clean_int|by apply clean_nothing]. Qed.
Lemma clean_float o : clean (json_float o).
Proof. apply clean_nothing. by destruct o. Qed.
Lemma clean_opt_time time o : clean (json_time time o).
Proof. apply clean_nothing. by destruct o. Qed.
Lemma clean_text s : clean (JString s).
Proof. by apply clean_nothing. Qed.
Lemma clean_bool b : clean (JBool b).
Proof. by apply clean_nothing. Qed.
Lemma clean_null : clean JNull.
Proof. by apply clean_nothing. Qed.
Lemma field_plain k v : no_key k -> clean v -> field_ok (k, v).
Proof. intros Hk Hv. split; [done|]. intros H. by destruct (Hk H). Qed.
Lemma field_null k : field_ok (k, JNull).
Proof. split; [apply clean_null|done]. Qed.

(** A citation as it is written and read back. *)
Lemma field_cite k c : Forall char_range (show_citation c) -> good (show_citation c) -> field_ok (k, JString (of_chars (show_citation c))).
Proof.
  intros Hr Hg. split; [apply clean_text|]. intros _ s c' [= <-]. rewrite chars_of_chars by done. intros H. apply show_parse in H as [-> _]. done.
Qed.
Lemma range_part s : Forall char_range (chars s).
Proof. apply chars_range. Qed.
Lemma range_ascii l : forallb (fun b => (0 <=? b) && (b <? 128)) l = true -> Forall char_range l.
Proof. intros H. apply ascii_range, Forall_forall. intros b Hb%list_elem_of_In. rewrite forallb_forall in H. specialize (H b Hb). lia. Qed.
Lemma show_range a b : Forall char_range a -> Forall char_range b ->
  Forall char_range (show_citation (CAgent a)) /\ Forall char_range (show_citation (CAdvisory a)) /\ Forall char_range (show_citation (CFinding a b)).
Proof.
  intros Ha Hb. rewrite !show_shape. cbn [cite_kind cite_id].
  repeat match goal with
  | |- _ /\ _ => split
  | |- Forall _ (shown_set _) => unfold shown_set; destruct a
  | |- Forall _ (_ ++ _) => apply Forall_app; split
  | |- Forall _ (chars _) => by apply range_ascii
  | |- Forall _ (_ :: _) => constructor
  | |- char_range _ => unfold char_range; lia
  end; try done; by inversion Ha.
Qed.
Definition good_agent (id : string) : Prop := good (show_citation (CAgent (chars id))).
Definition good_advisory (id : string) : Prop := good (show_citation (CAdvisory (chars id))).
Definition good_finding (rule_set rule : string) : Prop := good (show_citation (CFinding (chars rule_set) (chars rule))).
Lemma field_agent k id : good_agent id -> field_ok (k, agent_cite id).
Proof. intros H. apply field_cite; [|done]. by destruct (show_range (chars id) [] (range_part id)) as (? & _); [constructor|]. Qed.
Lemma field_advisory k id : good_advisory id -> field_ok (k, advisory_cite id).
Proof. intros H. apply field_cite; [|done]. by destruct (show_range (chars id) [] (range_part id)) as (_ & ? & _); [constructor|]. Qed.
Lemma field_finding k rs r : good_finding rs r -> field_ok (k, finding_cite rs r).
Proof. intros H. apply field_cite; [|done]. by destruct (show_range (chars rs) (chars r) (range_part rs) (range_part r)) as (_ & _ & ?). Qed.

Lemma fields_put k v m : field_ok (k, v) -> fields_ok m -> fields_ok (put k v m).
Proof. intros Hk Hm [k' v'] H. apply put_In in H as [[-> ->]|H]; [done|by apply Hm]. Qed.
Lemma fields_nil : fields_ok [].
Proof. by intros kv []. Qed.
Lemma clean_page summary items total : fields_ok summary -> Forall clean items -> clean (page summary items total).
Proof.
  intros Hs Hi. apply clean_object. apply fields_put; [apply field_plain; [not_a_key|apply clean_int]|]. apply fields_put; [|done].
  apply field_plain; [not_a_key|by apply clean_array].
Qed.
End clean.

#[export] Hint Resolve clean_strings clean_opt_str clean_int clean_ints clean_opt_int clean_float clean_opt_time clean_text clean_bool clean_null
  field_null field_agent field_advisory field_finding fields_nil : clean.
#[export] Hint Extern 2 (no_key _) => not_a_key : clean.
#[export] Hint Extern 3 (field_ok _ _) => apply field_plain : clean.
#[export] Hint Extern 3 (fields_ok _ (put _ _ _)) => apply fields_put : clean.
(** Each member of an object in turn. *)
Ltac obj_clean := apply clean_obj; repeat apply Forall_cons_2; try apply Forall_nil_2; eauto with clean.
Lemma Forall_map_of {A} (P : value -> Prop) (f : A -> value) (l : list A) : Forall (fun a => P (f a)) l -> Forall P (map f l).
Proof. intros H. by apply Forall_map. Qed.

(** ** Rows *)

Section source.
Context (good : text -> Prop).
Notation clean := (clean good). Notation good_agent := (good_agent good). Notation good_advisory := (good_advisory good). Notation good_finding := (good_finding good).

(** Every row of the source names good objects; the packages of a host hold none. *)
Record source_good (read_envelope : list Z -> option RuleEnvelope) (read_rules : string -> option (list PublishedRule)) (s : Source) : Prop := {
  sg_groups : forall f t n p, src_finding_groups s f t n = Some p -> Forall (fun g => good_finding (fg_rule_set_id g) (fg_rule_id g)) (p_items p);
  sg_endpoints : forall rs r t n p, src_finding_endpoints s rs r t n = Some p -> Forall (fun e => good_agent (fe_agent_id e)) (ep_items p);
  sg_summaries : forall k t n p, src_agent_summaries s k t n = Some p -> Forall (fun a => good_agent (as_agent_id a)) (p_items p);
  sg_host_vulns : forall a m n p, src_host_vulnerabilities s a m n = Some p -> Forall (fun v => good_advisory (hv_advisory_id v)) (p_items p);
  sg_vuln_hosts : forall id n p, src_vulnerable_hosts s id n = Some p ->
    Forall (fun h => good_agent (vh_agent_id h) /\ good_advisory (vh_advisory_id h) /\ clean (vh_packages h)) (p_items p);
  sg_overview : forall t n i o, src_overview s t n i = Some o ->
    Forall (fun g => good_finding (fg_rule_set_id g) (fg_rule_id g)) (p_items (ov_top_findings o))
    /\ Forall (fun a => good_advisory (ah_advisory_id a)) (p_items (ov_top_advisories o));
  sg_rules : forall rs bytes e rules r, src_rule_envelope s rs = Some (ServedEnvelope bytes) -> read_envelope bytes = Some e -> read_rules (re_payload e) = Some rules ->
    In r rules -> good_finding rs (pr_id r);
  sg_ports : forall p n rows, src_port_listeners s p n = Some rows -> Forall (fun l => good_agent (pl_agent_id l)) (rows_items rows);
  sg_packages : forall m a n found, src_installed_packages s m a n = Some found -> Forall (fun p => good_agent (ip_agent_id p)) (rows_items (in_rows found));
}.
End source.

Section run.
Context (good : text -> Prop) (time : Z -> string) (read_envelope : list Z -> option RuleEnvelope) (read_rules : string -> option (list PublishedRule)).
Context (source : Source) (now : Z) (Hs : source_good good read_envelope read_rules source).
Notation clean := (clean good). Notation fields_ok := (fields_ok good). Notation good_agent := (good_agent good). Notation good_finding := (good_finding good).

Lemma result_bind_inr {A B} (m : result A) (f : A -> result B) b : m ≫= f = inr b <-> exists a, m = inr a /\ f a = inr b.
Proof. destruct m as [e|a]; simpl; split; try (intros (? & ? & ?); congruence); [done|intros H; by exists a]. Qed.
Lemma or_store_inr {A} (o : option A) a : or_store o = inr a <-> o = Some a.
Proof. destruct o; simpl; split; congruence. Qed.

Lemma group_clean g : good_finding (fg_rule_set_id g) (fg_rule_id g) -> clean (group_json time g).
Proof. intros H. unfold group_json. obj_clean. Qed.
Lemma groups_clean p : Forall (fun g => good_finding (fg_rule_set_id g) (fg_rule_id g)) (p_items p) -> Forall clean (groups_json time p).
Proof. intros H. apply Forall_map_of. eapply Forall_impl; [exact H|]. apply group_clean. Qed.
Lemma endpoint_clean many set rule e : good_agent (fe_agent_id e) -> (many = true -> good_finding set rule) -> clean (endpoint_json time many set rule e).
Proof. intros H1 H2. unfold endpoint_json. destruct many; [specialize (H2 eq_refl)|]; obj_clean. Qed.
Lemma advisory_clean a : good_advisory good (ah_advisory_id a) -> clean (advisory_json a).
Proof. intros H. unfold advisory_json. obj_clean. Qed.
Lemma counts_clean c : clean (counts_json c).
Proof. unfold counts_json. obj_clean. Qed.
Lemma summary_clean a : good_agent (as_agent_id a) -> clean (summary_json time now a).
Proof. intros H. unfold summary_json. obj_clean. Qed.
Lemma vulnerability_clean v : good_advisory good (hv_advisory_id v) -> clean (vulnerability_json time v).
Proof. intros H. unfold vulnerability_json. obj_clean. Qed.
Lemma capped_clean v : clean v -> clean (capped v).1.
Proof.
  intros H. destruct v as [| | | | | |items|]; try (apply clean_array; cbn; by constructor). unfold capped. cbn [as_array default fst]. apply clean_array, Forall_take, Forall_forall.
  intros x Hx%list_elem_of_In c Hc. apply H. cbn [collect_citations]. apply in_flat_map. exists x. split; [|done]. rewrite in_app_iff, !filter_In in Hx. tauto.
Qed.
Lemma host_clean h : good_agent (vh_agent_id h) -> good_advisory good (vh_advisory_id h) -> clean (vh_packages h) -> clean (host_json time h).
Proof. intros H1 H2 H3. pose proof (capped_clean _ H3). unfold host_json. obj_clean. Qed.
Lemma port_listener_clean l : good_agent (pl_agent_id l) -> clean (port_listener_json l).
Proof. intros H. unfold port_listener_json. obj_clean. Qed.
Lemma listener_clean l : clean (listener_json l).
Proof. unfold listener_json. obj_clean. Qed.
Lemma service_clean s : clean (service_json s).
Proof. unfold service_json. obj_clean. Qed.
Lemma package_clean p : good_agent (ip_agent_id p) -> clean (package_json p).
Proof. intros H. unfold package_json. obj_clean. Qed.

Lemma resolve_good key id : resolve_agent source now key = inr (Some id) -> good_agent id.
Proof.
  unfold resolve_agent. intros (p & Hp%or_store_inr & H)%result_bind_inr. apply (sg_summaries _ _ _ _ Hs) in Hp. destruct (p_items p) as [|a [|? ?]]; try done.
  injection H as <-. by apply Forall_cons in Hp as [? _].
Qed.
Definition sets_good (l : list (string * string)) : Prop := Forall (fun s => good_finding s.1 s.2) l.
Lemma dedup_In l x : In x (dedup l) -> In x l.
Proof. induction l as [|a [|b l] IH]; [done|done|]. cbn [dedup]. case_bool_decide as Hab; [intros Hx; right; by apply IH|]. intros [->|Hx]; [by left|right; by apply IH]. Qed.
Lemma rule_sets_good rule l : rule_sets_for source now rule = inr l -> sets_good l.
Proof.
  unfold rule_sets_for. intros (p & Hp%or_store_inr & H)%result_bind_inr. apply (sg_groups _ _ _ _ Hs) in Hp. injection H as <-.
  apply Forall_forall. intros s Hin. apply list_elem_of_In, dedup_In, sort_by_In, in_map_iff in Hin as (g & <- & Hg%filter_In). rewrite Forall_forall in Hp. apply Hp, list_elem_of_In. tauto.
Qed.
Lemma named_only_good named l : sets_good l -> sets_good (named_only named l).
Proof. intros H. unfold named_only. destruct named; [|done]. destruct (existsb _ l); [|done]. apply Forall_forall. intros x Hin%list_elem_of_In%filter_In. unfold sets_good in H. rewrite Forall_forall in H. apply H, list_elem_of_In. tauto. Qed.
Lemma endpoint_pages_clean many sets since items r : (many = true -> sets_good sets) -> endpoint_pages time source many sets since items = inr r -> Forall clean r.1.1.
Proof.
  revert r. induction sets as [|[set rule] sets IH]; intros r Hg; cbn [endpoint_pages]; [intros [= <-]; constructor|].
  intros (p & Hp%or_store_inr & (rest & Hr & [= <-])%result_bind_inr)%result_bind_inr. cbn [fst]. apply Forall_app. split.
  - apply (sg_endpoints _ _ _ _ Hs) in Hp. apply Forall_map_of. eapply Forall_impl; [exact Hp|]. intros e He. apply endpoint_clean; [done|]. intros E. by apply Hg, Forall_cons in E as [? _].
  - apply (IH rest); [|done]. intros E. by apply Hg, Forall_cons in E as [_ ?].
Qed.
Lemma finding_endpoints_clean summary named rule since w items v : fields_ok summary ->
  finding_endpoints_resolved time source now summary named rule since w items = inr v -> clean v.
Proof.
  intros Hsum. unfold finding_endpoints_resolved. intros (sets & Hsets%rule_sets_good & H)%result_bind_inr. apply (named_only_good named) in Hsets.
  generalize dependent (named_only named sets). clear sets. intros sets Hsets H.
  set (fallback := match sets, named with [], Some _ => true | _, _ => false end) in H. cbv zeta in H.
  set (all := match sets, named with [], Some set => [(set, rule)] | _, _ => sets end) in H.
  assert (fallback = false -> sets_good all) as Hall by (subst fallback all; destruct sets, named; done).
  assert (fallback = true -> length all = 1%nat) as Hone by (subst fallback all; destruct sets, named; done).
  clearbody all fallback. destruct all as [|first all]; [injection H as <-; apply clean_page; [eauto 6 with clean|constructor]|].
  apply result_bind_inr in H as ([[rows total] older] & Hr & H). cbv beta iota zeta in H. injection H as <-. apply endpoint_pages_clean in Hr.
  2:{ intros E. apply Hall. destruct fallback; [|done]. specialize (Hone eq_refl). simpl in *. destruct all; done. }
  cbn [fst] in Hr. assert (fields_ok (put "window_hours" (json_int w) summary)) as Hw by eauto with clean.
  apply clean_page.
  - apply fields_put; [eauto with clean|]. destruct (1 <? _)%nat; [done|]. destruct fallback; [eauto with clean|]. apply fields_put; [|done]. apply field_finding.
    by specialize (Hall eq_refl); apply Forall_cons in Hall as [? _].
  - destruct (1 <? _)%nat; [|done]. apply Forall_take, Forall_forall. intros x Hx%list_elem_of_In%sort_by_In. rewrite Forall_forall in Hr. by apply Hr, list_elem_of_In.
Qed.

Lemma no_agent_clean summary : fields_ok summary -> clean (no_agent summary).
Proof. intros H. apply clean_page; [eauto with clean|constructor]. Qed.
Lemma if_revoked_ok status summary : fields_ok summary -> fields_ok (if_revoked status summary).
Proof. intros H. unfold if_revoked. destruct (String.eqb status "revoked"); eauto with clean. Qed.
Lemma host_services_clean agent port items v : host_services_lookup time source now [] agent port items = inr v -> clean v.
Proof.
  unfold host_services_lookup. destruct agent as [agent|].
  - intros ([id|] & Hid & H)%result_bind_inr; [|injection H as <-; apply no_agent_clean; eauto with clean].
    apply resolve_good in Hid. apply result_bind_inr in H as ([report|] & _ & H); [|injection H as <-; apply no_agent_clean; eauto with clean].
    apply result_bind_inr in H as (ls & _ & (ss & _ & H)%result_bind_inr). cbv zeta in H. destruct (split_items _ _ _) as [tl ts]. injection H as <-.
    apply clean_page; [|apply Forall_app; split; apply Forall_map_of, Forall_forall; intros ? _; [apply listener_clean|apply service_clean]].
    assert (fields_ok (put "reported_at" (json_time time (hr_reported_at report)) (if_revoked (hr_status report) (put "agent" (agent_cite id) (put "port" (json_opt_int port) []))))) as G.
    { apply fields_put; [eauto with clean|]. apply if_revoked_ok. eauto with clean. }
    destruct (report_notes report); [done|]. apply fields_put; [eauto with clean|done].
  - intros (rows & Hr%or_store_inr & [= <-])%result_bind_inr. apply (sg_ports _ _ _ _ Hs) in Hr. apply clean_page; [eauto 6 with clean|].
    apply Forall_map_of. eapply Forall_impl; [exact Hr|]. apply port_listener_clean.
Qed.
Lemma software_rows_clean summary name agent items v : fields_ok summary -> software_rows source summary name agent items = inr v -> clean v.
Proof.
  intros Hsum. unfold software_rows. intros (found & Hf%or_store_inr & [= <-])%result_bind_inr. apply (sg_packages _ _ _ _ Hs) in Hf. apply clean_page.
  - destruct (in_more_names found); eauto 8 with clean.
  - apply Forall_map_of. eapply Forall_impl; [exact Hf|]. apply package_clean.
Qed.
Lemma software_clean name agent items v : software_lookup source now [] name agent items = inr v -> clean v.
Proof.
  unfold software_lookup. destruct agent as [agent|]; [|apply software_rows_clean; eauto with clean].
  intros ([id|] & Hid & H)%result_bind_inr; [|injection H as <-; apply no_agent_clean; eauto with clean]. apply resolve_good in Hid.
  apply result_bind_inr in H as (report & _ & H). apply software_rows_clean in H; [done|]. destruct report; [apply if_revoked_ok|]; eauto with clean.
Qed.
Lemma rule_clean served rule_set rule : src_rule_envelope source rule_set = Some served -> clean (rule_json read_envelope read_rules served rule_set rule).
Proof.
  intros Hv. destruct served as [| |bytes]; try apply clean_null. cbn [rule_json]. destruct (read_envelope bytes) as [e|] eqn:He; [|apply clean_null].
  destruct (_ || _); [apply clean_null|]. destruct (read_rules (re_payload e)) as [rules|] eqn:Hr; [|apply clean_null].
  destruct (List.find _ rules) as [r|] eqn:Hf; [|apply clean_null]. apply find_some in Hf as [Hin Heq%String.eqb_eq]. subst rule.
  assert (good_finding rule_set (pr_id r)) by (by eapply (sg_rules _ _ _ _ Hs)). obj_clean.
Qed.

(** Every citation found in a result names an object of the rows that were read. *)
Lemma run_lookup_clean l items v : run_lookup time read_envelope read_rules source now l items = inr v -> clean v.
Proof.
  destruct l as [text_ min_severity rule_set w|rule_set rule w|agent|agent min_severity|id|w|rule_set rule|agent port|name agent|id|query]; cbn [run_lookup]; try done.
  - intros (p & Hp%or_store_inr & (all & Hall & H)%result_bind_inr)%result_bind_inr. destruct all as [all|]; injection H as <-.
    + apply clean_page; [eauto 6 with clean|]. apply groups_clean. destruct (_ && _); [|done]. unfold search_all_if_set_unknown in Hall.
      apply result_bind_inr in Hall as (any & _ & G). destruct (0 <? p_total any); [done|]. apply result_bind_inr in G as (a & Ha%or_store_inr & [= <-]). by apply (sg_groups _ _ _ _ Hs) in Ha.
    + apply clean_page; [eauto with clean|]. apply groups_clean. by apply (sg_groups _ _ _ _ Hs) in Hp.
  - apply finding_endpoints_clean. eauto with clean.
  - intros (p & Hp%or_store_inr & [= <-])%result_bind_inr. apply (sg_summaries _ _ _ _ Hs) in Hp. apply clean_page; [eauto with clean|].
    apply Forall_map_of. eapply Forall_impl; [exact Hp|]. apply summary_clean.
  - intros ([id|] & Hid & H)%result_bind_inr; [|injection H as <-; apply no_agent_clean; eauto with clean]. apply resolve_good in Hid.
    apply result_bind_inr in H as (p & Hp%or_store_inr & [= <-]). apply (sg_host_vulns _ _ _ _ Hs) in Hp. apply clean_page; [eauto 6 with clean|].
    apply Forall_map_of. eapply Forall_impl; [exact Hp|]. apply vulnerability_clean.
  - intros (p & Hp%or_store_inr & [= <-])%result_bind_inr. apply (sg_vuln_hosts _ _ _ _ Hs) in Hp. apply clean_page; [eauto with clean|].
    apply Forall_map_of. eapply Forall_impl; [exact Hp|]. intros h (H1 & H2 & H3). by apply host_clean.
  - intros (o & Ho%or_store_inr & [= <-])%result_bind_inr. apply (sg_overview _ _ _ _ Hs) in Ho as [Hg Ha]. apply clean_page; [|by apply groups_clean].
    assert (clean (JArray (map advisory_json (p_items (ov_top_advisories o))))) as Hadv.
    { apply clean_array, Forall_map_of. eapply Forall_impl; [exact Ha|]. apply advisory_clean. }
    apply fields_put; [eauto with clean|]. apply fields_put; [eauto with clean|]. apply fields_put; [eauto with clean|]. apply fields_put; [|eauto with clean].
    apply field_plain; [not_a_key|apply counts_clean].
  - intros (r & _ & (served & Hv%or_store_inr & [= <-])%result_bind_inr)%result_bind_inr. apply clean_page; [|constructor]. apply fields_put; [|eauto with clean].
    apply field_plain; [not_a_key|by apply rule_clean].
  - apply host_services_clean.
  - apply software_clean.
Qed.
End run.

(** * What every step of a question keeps

    A lookup adds at most one run to the record and only citations of what it returned ([lookup_spec]); the turns end
    within their measure ([turns_spec]). *)

Open Scope Z_scope.

Section inv.
Context (json_text : value -> string) (json_doc first_json : string -> option value).
Context (to_lowercase : string -> string) (is_alphanumeric : Z -> bool).
Context (chat : nat -> ChatRequest -> Z * list string * (BackendError + ChatResponse)).
Context {W : Type} (runner : W -> LookupRequest -> Z -> W * Z * result value).
Context (fx : Fixed) (start_time : Z) (world0 : W).
Notation Run := (Run (W := W)).
Notation max := (se_max_lookups (fx_settings fx)).
Notation native := (native fx).
Notation offered := (offered fx).
Notation lookup := (AsstRun.lookup json_text json_doc runner fx).
Notation native_calls := (native_calls json_text json_doc runner fx).
Notation turns := (turns json_text json_doc first_json chat runner fx).

(** ** Labels *)

Definition LABELS : list string :=
  [RESULT_PREFIX; message Unknown; message InvalidArguments; message Ambiguous; message AmbiguousRule; message Store;
   message (Forbidden Vulnerabilities); message (Forbidden Rules); message (Forbidden Internet); "error: lookup limit reached"; REPAIR].
Definition labelled (t : string) : Prop := exists p, In p LABELS /\ RustStd.starts_with t p = true.
Definition message_ok (m : Message) : Prop := match m with MSystem _ => False | MUser t | MTool _ t => labelled t | MAssistant _ _ => True end.
Definition trailer_message (m : Message) : Prop := exists final t, m = MUser t /\ (t = fx_reminder fx \/ t = FINAL_NOTICE \/ (final = true /\ t = fx_reminder fx +:+ " " +:+ FINAL_NOTICE)).
(** A message of a request: the fixed ones, the history, what the model said, and labelled texts. *)
Definition sent_ok (m : Message) : Prop :=
  m = fx_system fx \/ m = fx_question fx \/ In m (fx_history fx) \/ message_ok m \/ trailer_message m.

(** ** The invariant *)

(** The citation is one of the objects of a result of this question. *)
Definition from_result (r : Run) (c : Citation) : Prop := exists l v, In (l, inr v) (rn_asked r) /\ In c (collect_citations v).
Definition lookup_ok (l : LookupRequest) : Prop :=
  (exists name arguments_, parse_lookup json_doc name arguments_ = inr l) /\ (is_internet l = true -> offered (lookup_name l) = true).
Record Inv (r : Run) : Prop := {
  inv_allowed : forall c, c ∈ rn_allowed r -> from_result r c;
  inv_asked : Forall (fun a => lookup_ok a.1) (rn_asked r);
  inv_deadline : rn_deadline r <= start_time + se_deadline (fx_settings fx) + INTERNET_LOOKUP_LIMIT * Z.of_nat (length (rn_asked r));
  inv_requests : rn_requests r = Z.of_nat (length (rn_sent r));
  inv_working : Forall message_ok (rn_working r);
  inv_sent : Forall (fun q => Forall sent_ok (cr_messages q)) (rn_sent r);
  inv_ran : Forall (fun a => forall v, a.2 = inr v -> exists w w' took, runner w a.1 (bg_result_items (se_budget (fx_settings fx))) = (w', took, inr v)) (rn_asked r);
  inv_world : forall P : W -> Prop, (forall w l, lookup_ok l -> P w -> P (runner w l (bg_result_items (se_budget (fx_settings fx)))).1.1) -> P world0 -> P (rn_world r);
}.

Lemma inv_working_add r l : Inv r -> Forall message_ok l -> Inv (set_working (fun w => w ++ l) r).
Proof. intros [] Hl. constructor; try done. cbn. by apply Forall_app. Qed.
Lemma inv_set_pending n r : Inv r -> Inv (set_pending n r).
Proof. intros []. by constructor. Qed.
Lemma inv_emit e r : Inv r -> Inv (emit e r).
Proof. intros []. by constructor. Qed.
Lemma inv_record l r : Inv r -> Inv (push_record l r).
Proof. intros []. by constructor. Qed.

(** ** A lookup *)

(** What a step leaves alone: the requests sent, the messages, and the runs so far. *)
Record Kept (n : nat) (r r' : Run) : Prop := {
  kept_sent : rn_sent r' = rn_sent r;
  kept_requests : rn_requests r' = rn_requests r;
  kept_working : rn_working r' = rn_working r;
  kept_asked : exists l, rn_asked r' = rn_asked r ++ l /\ (length l <= n)%nat;
}.
Lemma run_kept_refl r : Kept 0 r r.
Proof. constructor; try done. exists []. by rewrite app_nil_r. Qed.
Lemma run_kept_trans n m r r' r'' : Kept n r r' -> Kept m r' r'' -> Kept (n + m) r r''.
Proof.
  intros [H1 H2 H3 (l & H4 & H5)] [G1 G2 G3 (l' & G4 & G5)]. constructor; try congruence. exists (l ++ l'). rewrite G4, H4, app_assoc, length_app. split; [done|lia].
Qed.
Lemma kept_mono n m r r' : (n <= m)%nat -> Kept n r r' -> Kept m r r'.
Proof. intros H [H1 H2 H3 (l & H4 & H5)]. constructor; try done. exists l. split; [done|lia]. Qed.
Lemma kept_length n r r' : Kept n r r' -> (length (rn_asked r') <= length (rn_asked r) + n)%nat.
Proof. intros [_ _ _ (l & -> & H)]. rewrite length_app. lia. Qed.

Lemma prefix_self p t : RustStd.starts_with (p +:+ t) p = true.
Proof. unfold RustStd.starts_with. induction p as [|c p IH]; [by destruct t|]. simpl. destruct (ascii_dec c c); [done|done]. Qed.
Lemma message_label e : In (message e) LABELS.
Proof. destruct e as [| | | | |[]]; unfold LABELS; simpl; auto 12. Qed.
Lemma labelled_message e : labelled (message e).
Proof. exists (message e). split; [apply message_label|]. destruct e as [| | | | |[]]; reflexivity. Qed.
Lemma labelled_result v : labelled (RESULT_PREFIX +:+ json_text v).
Proof. exists RESULT_PREFIX. split; [by left|apply prefix_self]. Qed.

Lemma take_result_spec l room x (r : Run) : exists t (r' : Run), take_result json_text l room x r = Some (t, r') /\ labelled t
  /\ rn_sent r' = rn_sent r /\ rn_requests r' = rn_requests r /\ rn_working r' = rn_working r /\ rn_asked r' = rn_asked r
  /\ rn_deadline r' = rn_deadline r /\ rn_clock r' = rn_clock r /\ rn_world r' = rn_world r
  /\ (forall c, c ∈ rn_allowed r' -> c ∈ rn_allowed r \/ exists v, x = inr v /\ In c (collect_citations v)).
Proof.
  unfold take_result. destruct x as [e|v].
  - eexists _, _. split; [done|]. split; [apply labelled_message|]. repeat (split; [done|]). intros c Hc. by left.
  - destruct (shrink_to_total json_text room v) as (v' & E). rewrite E. eexists _, _. split; [done|]. split; [apply labelled_result|]. repeat (split; [done|]).
    intros c [Hc|Hc]%elem_of_app; [by left|]. right. exists v. split; [done|]. eapply shrink_to_citations; [done|].
    unfold citations in Hc. apply list_elem_of_In. by rewrite elem_of_remove_dups in Hc.
Qed.

Lemma lookup_spec name arguments_ left_ r : Inv r -> exists t l r', lookup name arguments_ left_ r = Some (t, l, r') /\ labelled t /\ Kept 1 r r' /\ Inv r'.
Proof.
  intros H. unfold AsstRun.lookup. destruct (_ && _) eqn:Eoff.
  - eexists _, _, _. split; [done|]. split; [apply labelled_message|]. split; [apply (kept_mono 0); [lia|constructor; try done; exists []; by rewrite app_nil_r]|by apply inv_record].
  - destruct (parse_lookup json_doc name arguments_) as [e|l] eqn:Ep.
    + eexists _, _, _. split; [done|]. split; [apply labelled_message|]. split; [apply (kept_mono 0); [lia|constructor; try done; exists []; by rewrite app_nil_r]|by apply inv_record].
    + destruct (runner _ _ _) as [[w took0] x0] eqn:Erun.
      set (s := if is_internet l then if INTERNET_LOOKUP_LIMIT <? took0 then (INTERNET_LOOKUP_LIMIT, INTERNET_LOOKUP_LIMIT, inl Store) else (took0, took0, x0) else (took0, 0, x0)).
      assert (s.1.2 <= INTERNET_LOOKUP_LIMIT) as Hext.
      { subst s. destruct (is_internet l); [|simpl; unfold INTERNET_LOOKUP_LIMIT; lia]. destruct (Z.ltb_spec INTERNET_LOOKUP_LIMIT took0); simpl; lia. }
      assert (forall v, s.2 = inr v -> x0 = inr v) as Hx by (subst s; destruct (is_internet l); [destruct (_ <? took0)|]; done).
      destruct s as [[took extends] x]. cbn [fst snd] in Hext, Hx. set (r1 := ran w l x took extends (emit (ELookup (lookup_name l)) r)).
      match goal with |- context [take_result json_text l ?room x r1] => destruct (take_result_spec l room x r1) as (t & r' & -> & Ht & H1 & H2 & H3 & H4 & H5 & H6 & H7 & H8) end.
      eexists _, _, _. split; [done|]. split; [done|]. split; [constructor; [by rewrite H1|by rewrite H2|by rewrite H3|exists [(l, x)]; split; [by rewrite H4|simpl; lia]]|].
      destruct H as [I1 I2 I3 I4 I5 I6 I7 I8]. assert (rn_asked r' = rn_asked r ++ [(l, x)]) as Ha by by rewrite H4.
      assert (lookup_ok l) as Hok.
      { split; [by eexists _, _|]. intros Hi. apply parse_name in Ep. rewrite <- Ep in Eoff. unfold is_internet in Hi. rewrite Hi in Eoff. simpl in Eoff. by destruct (offered (lookup_name l)). }
      constructor.
      * intros c Hc. destruct (H8 c Hc) as [Hc'|(v & -> & Hv)].
        -- apply I1 in Hc' as (l' & v & Hin & Hcv). exists l', v. split; [|done]. rewrite Ha. apply in_app_iff. by left.
        -- exists l, v. split; [|done]. rewrite Ha. apply in_app_iff. right. by left.
      * rewrite Ha. apply Forall_app. split; [done|]. by constructor.
      * rewrite H5, Ha, length_app. cbn [rn_deadline ran emit r1 length]. lia.
      * by rewrite H2, H1.
      * by rewrite H3.
      * by rewrite H1.
      * rewrite Ha. apply Forall_app. split; [done|]. constructor; [|done]. cbn [fst snd]. intros v Hv. exists (rn_world r), w, took0. rewrite (Hx v Hv) in Erun. exact Erun.
      * intros P Hstep Hw. rewrite H7. cbn [rn_world ran r1]. specialize (I8 P Hstep Hw). specialize (Hstep (rn_world r) l Hok I8). cbn [rn_world emit] in Erun. by rewrite Erun in Hstep.
Qed.

(** ** A request *)

Lemma keep_history_In : forall n room reversed kept m, (length reversed <= n)%nat -> In m (keep_history room reversed kept) -> In m reversed \/ In m kept.
Proof.
  induction n as [|n IH]; intros room reversed kept m Hn; destruct reversed as [|b [|a rest]]; simpl in Hn; try lia; cbn [keep_history]; try (by right).
  - destruct (room <? _); [by right|]. intros [->|H]; [left; by left|by right].
  - destruct (room <? _); [by right|]. intros H. apply IH in H; [|lia]. destruct H as [H|[->|[->|H]]]; [left; right; by right|left; right; by left|left; by left|by right].
Qed.
Lemma messages_ok (r : Run) : Forall message_ok (rn_working r) -> Forall sent_ok (messages fx r).
Proof.
  intros H. unfold messages. rewrite !Forall_app. split_and!.
  - constructor; [by left|done].
  - apply Forall_forall. intros m Hm%list_elem_of_In. apply (keep_history_In _ _ _ _ _ (le_n _)) in Hm as [Hm|[]]. right. right. left. by apply in_rev.
  - constructor; [right; by left|done].
  - eapply Forall_impl; [exact H|]. intros m Hm. unfold sent_ok. tauto.
Qed.
Lemma labelled_more t t' : labelled t -> labelled (t +:+ t').
Proof.
  intros (p & Hp & H). exists p. split; [done|]. unfold RustStd.starts_with in *. clear Hp. revert p H. induction t as [|c t IH]; intros [|d p] H; try done; [by destruct t'|].
  simpl in *. destruct (ascii_dec d c); [by apply IH|done].
Qed.
Lemma trailer_cases final (r : Run) : trailer fx final r = EmptyString \/ trailer_message (MUser (trailer fx final r)).
Proof.
  unfold trailer. set (t := match rn_working r with [] => _ | _ => _ end). assert (t = EmptyString \/ t = fx_reminder fx) as Ht by (subst t; destruct (rn_working r); [by left|destruct (is_repair r); auto]).
  clearbody t. destruct final.
  - right. exists true, (if is_empty t then FINAL_NOTICE else t +:+ " " +:+ FINAL_NOTICE). split; [done|]. destruct (is_empty t) eqn:E; [auto|]. destruct Ht as [->| ->]; [done|auto].
  - destruct Ht as [->| ->]; [by left|]. right. exists false, (fx_reminder fx). auto.
Qed.
Lemma request_messages_ok final (r : Run) : Forall message_ok (rn_working r) -> Forall sent_ok (cr_messages (request_of fx final r)).
Proof.
  intros H. pose proof (messages_ok r H) as Hm. cbn [request_of cr_messages]. unfold with_trailer. destruct (trailer_cases final r) as [->|Ht]; [done|].
  destruct (is_empty (trailer fx final r)); [done|].
  assert (Forall sent_ok (messages fx r ++ [MUser (trailer fx final r)])) as Happ by (apply Forall_app; split; [done|]; constructor; [unfold sent_ok; tauto|done]).
  destruct (last (messages fx r)) as [[| result| |]|] eqn:El; try done. destruct (negb native && _) eqn:Ew; [|done]. apply andb_prop in Ew as [_ Ew].
  destruct (rn_working r) as [|w ws] eqn:Ework; [done|]. unfold messages in El. rewrite Ework, !app_assoc, last_app_cons in El.
  apply Forall_app. split; [|constructor; [|done]].
  - apply Forall_forall. intros m Hin%list_elem_of_In%in_removelast. rewrite Forall_forall in Hm. by apply Hm, list_elem_of_In.
  - unfold sent_ok. do 3 right. left. cbn [message_ok]. apply labelled_more. rewrite Forall_forall in H. apply (H (MUser result)). rewrite last_Some in El. destruct El as (l' & ->). apply elem_of_app. right. apply list_elem_of_singleton. done.
Qed.
Lemma fold_emit pieces r : Inv r -> let r' := fold_left (fun r p => emit (EText p) r) pieces r in Inv r' /\ Kept 0 r r' /\ rn_clock r' = rn_clock r /\ rn_deadline r' = rn_deadline r.
Proof.
  cbv zeta. revert r. induction pieces as [|p pieces IH]; intros r H; [split_and!; try done; apply run_kept_refl|]. cbn [fold_left]. destruct (IH (emit (EText p) r)) as (H1 & H2 & H3 & H4); [by apply inv_emit|].
  split_and!; [done| |done|done]. change 0%nat with (0 + 0)%nat. eapply run_kept_trans; [|exact H2]. constructor; try done. exists []. by rewrite app_nil_r.
Qed.
(** An answer of the model: one request more, and the clock has not passed the deadline. *)
Lemma request_spec final r response r' : Inv r -> request chat fx final r = inr (response, r') ->
  Inv r' /\ rn_asked r' = rn_asked r /\ length (rn_sent r') = S (length (rn_sent r)) /\ rn_working r' = rn_working r /\ rn_clock r' <= rn_deadline r'.
Proof.
  intros H. unfold request. destruct (chat (length (rn_sent r)) (request_of fx final r)) as [[took pieces] answer]. destruct (Z.ltb_spec (rn_deadline r) (rn_clock r + took)); [done|].
  destruct answer as [e|answer]; [done|]. set (r1 := if native then _ else r). assert (Inv r1 /\ Kept 0 r r1 /\ rn_clock r1 = rn_clock r /\ rn_deadline r1 = rn_deadline r) as (I & [K1 K2 K3 (l & K4 & K5)] & Kc & Kd).
  { subst r1. destruct native; [by apply fold_emit|]. split_and!; try done. apply run_kept_refl. }
  destruct (match ch_finish answer with Length => _ | _ => false end); [done|]. intros [= <- <-]. destruct l; [|simpl in K5; lia]. rewrite app_nil_r in K4.
  cbn [asked_model rn_asked rn_sent rn_working rn_clock rn_deadline]. rewrite K1, K3, K4, Kc, Kd, length_app. split_and!; try done; [|simpl; lia].
  destruct I as [I1 I2 I3 I4 I5 I6 I7 I8]. constructor; try done.
  - cbn [rn_requests rn_sent asked_model]. rewrite length_app, I4. simpl. lia.
  - cbn [rn_sent asked_model]. apply Forall_app. split; [done|]. constructor; [|done]. apply request_messages_ok. destruct H. done.
Qed.

(** ** Before the first turn, and the calls of one turn *)

Lemma message_ok_pair b id t l : labelled t -> Forall message_ok (if b : bool then [MAssistant None [called json_text id (Some l)]; MTool id t] else [echoed json_text (Some l); MUser t]).
Proof. intros H. destruct b; repeat constructor; done. Qed.
Lemma prefetch_spec plans : forall index r, Inv r -> exists r', prefetch_all json_text json_doc runner fx index plans r = Some r' /\ Inv r'
  /\ rn_sent r' = rn_sent r /\ (length (rn_asked r') <= length (rn_asked r) + length plans)%nat.
Proof.
  induction plans as [|[name arguments_] plans IH]; intros index r H; cbn [prefetch_all]; [exists r; split_and!; try done; lia|].
  destruct (lookup_spec name (json_text arguments_) (max + 1) r H) as (t & l & r1 & -> & Ht & K & H1). pose proof (kept_length _ _ _ K) as Hl. pose proof (kept_sent _ _ _ K) as Hsent.
  destruct l as [l|].
  - match goal with |- context [prefetch_all _ _ _ _ _ plans ?r2] => destruct (IH (index + 1) r2) as (r' & -> & H2 & H3 & H4) end.
    + by apply inv_working_add, message_ok_pair.
    + exists r'. cbn [rn_sent rn_asked set_working] in *. split_and!; try done; [congruence|simpl; lia].
  - destruct (IH (index + 1) r1 H1) as (r' & -> & H2 & H3 & H4). exists r'. split_and!; try done; [congruence|simpl; lia].
Qed.
Lemma limit_labelled : labelled "error: lookup limit reached".
Proof. exists "error: lookup limit reached". split; [unfold LABELS; simpl; auto 12|reflexivity]. Qed.
Lemma native_calls_spec turn calls : forall index done r, Inv r -> done <= max -> exists done' shown results r', native_calls turn index done calls r = Some (done', shown, results, r')
  /\ Inv r' /\ rn_sent r' = rn_sent r /\ Forall message_ok results /\ done <= done' <= max /\ (calls <> [] -> done < max -> done < done')
  /\ Z.of_nat (length (rn_asked r')) <= Z.of_nat (length (rn_asked r)) + (done' - done).
Proof.
  induction calls as [|call calls IH]; intros index d0 r H Hd; cbn [AsstRun.native_calls].
  { exists d0, [], [], r. split_and!; try lia; try done. }
  destruct (Z.ltb_spec d0 max) as [Hlt|Hge].
  - destruct (lookup_spec (tc_name call) (tc_arguments call) (sat_sub max (d0 + 1) + 1) r H) as (t & l & r1 & -> & Ht & K & H1).
    pose proof (kept_length _ _ _ K) as Hl. pose proof (kept_sent _ _ _ K) as Hsent.
    destruct (IH (index + 1) (d0 + 1) (set_pending (rn_pending_chars r1 + str_len t) r1)) as (d & shown & results & r' & -> & H2 & H3 & H4 & H5 & H6 & H7); [by apply inv_set_pending|lia|].
    cbn [rn_sent rn_asked set_pending] in *. eexists _, _, _, r'. split_and!; try done; try lia; [congruence|by constructor].
  - destruct (IH (index + 1) d0 r H Hd) as (d & shown & results & r' & -> & H2 & H3 & H4 & H5 & H6 & H7).
    eexists _, _, _, r'. split_and!; try done; try lia. constructor; [apply limit_labelled|done].
Qed.

(** ** The turns *)

(** What an answer promises at the state it was given. *)
Definition answer_ok (r : Run) (x : AnswerError + Answer) : Prop :=
  match x with
  | inl _ => True
  | inr a => an_segments a <> [] /\ (forall c, c ∈ cites (an_segments a) -> from_result r c) /\ inert (plain_text (an_segments a))
             /\ (length (plain_text (an_segments a)) <= length inert_mark * MAX_ANSWER_CHARS)%nat
             /\ an_lookups a = rn_records r /\ an_requests a = rn_requests r /\ rn_clock r <= rn_deadline r
  end.
Lemma replace_length l : forall k, (length (replace_from scheme_mark inert_mark k l) <= length inert_mark * length l)%nat.
Proof. induction l as [|c l IH]; intros [|k]; cbn [replace_from length]; try lia. - destruct (prefixed scheme_mark (c :: l)); [rewrite length_app|cbn [length]]; specialize (IH 0%nat) as H1; pose proof (IH (pred (length scheme_mark))); cbn [length inert_mark] in *; lia. - specialize (IH k). lia. Qed.
Lemma finished_spec t hit r : Inv r -> rn_clock r <= rn_deadline r -> exists x, finish t hit r = Some x /\ answer_ok r x.
Proof.
  intros H Hc. unfold finish. destruct (sanitize_spec (chars t) (rn_allowed r)) as (l & b & E & Hcl & _ & Hcites). rewrite E. pose proof (sanitize_inert _ _ _ E) as Hin.
  destruct l as [|s l]; [by eexists|]. eexists. split; [done|]. cbn [answer_ok an_segments an_lookups an_requests]. split_and!; try done.
  - intros c Hin'. by apply (inv_allowed _ H), Hcites.
  - apply (f_equal length) in Hcl. rewrite length_app in Hcl. unfold cleaned, replace_text in Hcl. pose proof (replace_length (take MAX_ANSWER_CHARS (List.filter shown_char (chars t))) 0) as Hr.
    rewrite length_take in Hr. assert (length inert_mark * (Nat.min MAX_ANSWER_CHARS (length (List.filter shown_char (chars t)))) <= length inert_mark * MAX_ANSWER_CHARS)%nat by (apply Nat.mul_le_mono_l; lia). lia.
Qed.

(** How many requests there can still be. *)
Definition measure (done : Z) (repaired : bool) : Z := if native then max - done + 1 else 2 * (max - done) + if repaired then 1 else 2.
Lemma turns_spec : forall fuel turn done repaired r, Inv r -> 0 <= done <= max -> measure done repaired <= Z.of_nat fuel ->
  exists r' x, turns fuel turn done repaired r = Some (r', x) /\ Inv r' /\ answer_ok r' x
    /\ Z.of_nat (length (rn_sent r')) <= Z.of_nat (length (rn_sent r)) + measure done repaired
    /\ Z.of_nat (length (rn_asked r')) <= Z.of_nat (length (rn_asked r)) + (max - done).
Proof.
  induction fuel as [|fuel IH]; intros turn d0 repaired r H Hd Hf.
  { unfold measure in Hf. destruct native, repaired; lia. }
  cbn [AsstRun.turns]. assert (1 <= measure d0 repaired) as Hm by (unfold measure; destruct native, repaired; lia).
  destruct (request chat fx (max <=? d0) r) as [e|[response r1]] eqn:Er; [exists r, (inl e); split_and!; try done; lia|].
  apply (request_spec _ _ _ _ H) in Er as (H1 & Ha & Hs & Hw & Hc).
  assert (forall t hit r2, Inv r2 -> rn_clock r2 <= rn_deadline r2 -> rn_sent r2 = rn_sent r1 -> rn_asked r2 = rn_asked r1 ->
    exists r' x, (match finish t hit r2 with Some x => Some (r2, x) | None => None end) = Some (r', x) /\ Inv r' /\ answer_ok r' x
    /\ Z.of_nat (length (rn_sent r')) <= Z.of_nat (length (rn_sent r)) + measure d0 repaired
    /\ Z.of_nat (length (rn_asked r')) <= Z.of_nat (length (rn_asked r)) + (max - d0)) as Hends.
  { intros t hit r2 I2 C2 S2 A2. destruct (finished_spec t hit r2 I2 C2) as (x & -> & Hx). exists r2, x. rewrite S2, A2, Hs, Ha. split_and!; try done; lia. }
  destruct native eqn:En.
  - destruct (ch_tool_calls response) as [|call calls] eqn:Ecalls; [by apply Hends|]. destruct (Z.leb_spec max d0) as [Hfin|Hmore]; [by apply Hends; [apply inv_emit|..]|].
    destruct (native_calls_spec (turn + 1) (call :: calls) 0 d0 (emit EReset r1)) as (d & shown & results & r2 & -> & H2 & H3 & H4 & H5 & H6 & H7); [by apply inv_emit|lia|].
    specialize (H6 ltac:(done) Hmore). cbn [rn_sent rn_asked emit] in H3, H7.
    destruct (IH (turn + 1) d repaired (set_pending 0 (set_working (fun w => w ++ [MAssistant None shown] ++ results) r2))) as (r' & x & -> & I & A & B & C).
    + apply inv_set_pending, inv_working_add; [done|]. by constructor.
    + lia.
    + unfold measure in *. rewrite En in *. lia.
    + cbn [rn_sent rn_asked set_pending set_working] in B, C. exists r', x. split_and!; try done.
      * rewrite H3, Hs in B. unfold measure in *. rewrite En in *. lia.
      * rewrite Ha in H7. lia.
  - destruct (parse_action json_text first_json (ch_content response)) as [name arguments_|t| |].
    + destruct (Z.leb_spec max d0) as [Hfin|Hmore]; [by apply Hends|].
      destruct (lookup_spec name arguments_ (sat_sub max (d0 + 1) + 1) r1 H1) as (t & l & r2 & -> & Ht & K & H2). pose proof (kept_length _ _ _ K) as Hl. pose proof (kept_sent _ _ _ K) as Hsent.
      destruct (IH (turn + 1) (d0 + 1) false (set_working (fun w => w ++ [echoed json_text l; MUser t]) r2)) as (r' & x & -> & I & A & B & C).
      * apply inv_working_add; [done|]. repeat constructor. done.
      * lia.
      * unfold measure in *. rewrite En in *. destruct repaired; lia.
      * cbn [rn_sent rn_asked set_working] in B, C. exists r', x. split_and!; try done.
        -- rewrite Hsent, Hs in B. unfold measure in *. rewrite En in *. destruct repaired; lia.
        -- rewrite Ha in Hl. lia.
    + by apply Hends.
    + destruct repaired; [exists r1, (inl NoAnswer); rewrite Hs, Ha; split_and!; try done; lia|].
      set (m := if 0 <? d0 then _ else REPAIR). assert (labelled m) as Hlab.
      { subst m. assert (labelled REPAIR) as HR by (exists REPAIR; split; [unfold LABELS; simpl; auto 12|reflexivity]). destruct (0 <? d0); [by apply labelled_more|done]. }
      set (r2 := set_working (fun w => w ++ [MAssistant (Some (ch_content response)) []; MUser m]) r1). assert (Inv r2) as I2 by (apply inv_working_add; [done|repeat constructor; done]).
      destruct (fx_limit_chars fx <? _); [exists r2, (inl NoAnswer); cbn [rn_sent rn_asked set_working r2]; rewrite Hs, Ha; split_and!; try done; lia|].
      destruct (IH (turn + 1) d0 true r2) as (r' & x & -> & I & A & B & C); [done|lia|unfold measure in *; rewrite En in *; lia|].
      cbn [rn_sent rn_asked set_working r2] in B, C. exists r', x. split_and!; try done; [rewrite Hs in B; unfold measure in *; rewrite En in *; lia|rewrite Ha in C; lia].
    + by apply Hends.
Qed.

(** ** A question from its start *)

Lemma start_inv : Inv (start fx world0 start_time).
Proof. constructor; cbn; try done; [by intros c Hc%elem_of_nil|unfold INTERNET_LOOKUP_LIMIT; lia]. Qed.
Lemma run_answer_spec question : 0 <= max -> exists r x, run_answer json_text json_doc first_json to_lowercase is_alphanumeric chat runner fx question (start fx world0 start_time) = Some (r, x)
  /\ Inv r /\ answer_ok r x /\ Z.of_nat (length (rn_sent r)) <= (if native then max + 1 else 2 * (max + 1))
  /\ Z.of_nat (length (rn_asked r)) <= max + Z.of_nat MAX_MITIGATION_PREFETCH.
Proof.
  intros Hmax. unfold run_answer, prefetch. pose proof (plan_length to_lowercase is_alphanumeric question (internet_level fx)) as Hp.
  destruct (prefetch_spec (plan to_lowercase is_alphanumeric question (internet_level fx)) 0 (start fx world0 start_time) start_inv) as (r1 & -> & H1 & H2 & H3).
  destruct (turns_spec (turns_fuel fx) 0 0 false r1 H1) as (r & x & -> & I & A & B & C); [lia|unfold measure, turns_fuel; destruct native; lia|].
  exists r, x. cbn [rn_sent rn_asked start] in H2, H3. rewrite H2 in B. unfold measure in B. simpl length in *. split_and!; try done; [destruct native; lia|lia].
Qed.
End inv.
