(* ===== verification/AsstProps.v ===== *)
(** * The assistant: what the code promises

    The model may answer anything.  An answer cites only objects of rows the user's scopes give ([citations_genuine]),
    a question always ends within its numbers of requests and lookups ([question_ends]), and what goes out for it is
    counted and written down ([lookups_accounted]). *)
From S2P Require Import Prelude RustStd Text BTree Json Lines SetData AccessData AccessRules FetchServe AsstLookup AsstSource AsstRun AsstConsole AsstInv.
From stdpp Require Import prelude strings list pretty.
From Stdlib Require Import Ascii ZArith Lia Sorted.

Open Scope Z_scope.

(** ** Citations *)

Definition agent_text (id : string) : text := show_citation (CAgent (chars id)).
Definition advisory_text (id : string) : text := show_citation (CAdvisory (chars id)).
Definition finding_text (rule_set rule : string) : text := show_citation (CFinding (chars rule_set) (chars rule)).

(** A citation, as it is written, of a row that the source returns. *)
Inductive names (read_envelope : list Z -> option RuleEnvelope) (read_rules : string -> option (list PublishedRule)) (s : Source) : text -> Prop :=
  | names_group f t n p g : src_finding_groups s f t n = Some p -> In g (p_items p) -> names read_envelope read_rules s (finding_text (fg_rule_set_id g) (fg_rule_id g))
  | names_endpoint rs r t n p e : src_finding_endpoints s rs r t n = Some p -> In e (ep_items p) -> names read_envelope read_rules s (agent_text (fe_agent_id e))
  | names_summary k t n p a : src_agent_summaries s k t n = Some p -> In a (p_items p) -> names read_envelope read_rules s (agent_text (as_agent_id a))
  | names_host_vulnerability a m n p v : src_host_vulnerabilities s a m n = Some p -> In v (p_items p) -> names read_envelope read_rules s (advisory_text (hv_advisory_id v))
  | names_vulnerable_host id n p h : src_vulnerable_hosts s id n = Some p -> In h (p_items p) -> names read_envelope read_rules s (agent_text (vh_agent_id h))
  | names_host_advisory id n p h : src_vulnerable_hosts s id n = Some p -> In h (p_items p) -> names read_envelope read_rules s (advisory_text (vh_advisory_id h))
  | names_top_finding t n i o g : src_overview s t n i = Some o -> In g (p_items (ov_top_findings o)) -> names read_envelope read_rules s (finding_text (fg_rule_set_id g) (fg_rule_id g))
  | names_top_advisory t n i o a : src_overview s t n i = Some o -> In a (p_items (ov_top_advisories o)) -> names read_envelope read_rules s (advisory_text (ah_advisory_id a))
  | names_rule rs bytes e rules r : src_rule_envelope s rs = Some (ServedEnvelope bytes) -> read_envelope bytes = Some e -> read_rules (re_payload e) = Some rules ->
      In r rules -> names read_envelope read_rules s (finding_text rs (pr_id r))
  | names_port p n rows l : src_port_listeners s p n = Some rows -> In l (rows_items rows) -> names read_envelope read_rules s (agent_text (pl_agent_id l))
  | names_package m a n found p : src_installed_packages s m a n = Some found -> In p (rows_items (in_rows found)) -> names read_envelope read_rules s (agent_text (ip_agent_id p)).

(** The packages of vulnerable hosts hold no citation: they are the names and versions the matching wrote. *)
Definition packages_plain (s : Source) : Prop := forall id n p h, src_vulnerable_hosts s id n = Some p -> In h (p_items p) -> collect_citations (vh_packages h) = [].

Lemma names_good read_envelope read_rules s good : packages_plain s -> (forall t, names read_envelope read_rules s t -> good t) -> source_good good read_envelope read_rules s.
Proof.
  intros Hp Hg. constructor.
  - intros f t n p H. apply Forall_forall. intros g Hin%list_elem_of_In. apply Hg. by eapply names_group.
  - intros rs r t n p H. apply Forall_forall. intros g Hin%list_elem_of_In. apply Hg. by eapply names_endpoint.
  - intros k t n p H. apply Forall_forall. intros g Hin%list_elem_of_In. apply Hg. by eapply names_summary.
  - intros a m n p H. apply Forall_forall. intros g Hin%list_elem_of_In. apply Hg. by eapply names_host_vulnerability.
  - intros id n p H. apply Forall_forall. intros h Hin%list_elem_of_In. split_and!; [apply Hg; by eapply names_vulnerable_host|apply Hg; by eapply names_host_advisory|].
    apply clean_nothing. by eapply Hp.
  - intros t n i o H. split; apply Forall_forall; intros g Hin%list_elem_of_In; apply Hg; [by eapply names_top_finding|by eapply names_top_advisory].
  - intros rs bytes e rules r H1 H2 H3 H4. apply Hg. by eapply names_rule.
  - intros p n rows H. apply Forall_forall. intros g Hin%list_elem_of_In. apply Hg. by eapply names_port.
  - intros m a n found H. apply Forall_forall. intros g Hin%list_elem_of_In. apply Hg. by eapply names_package.
Qed.

(** ** The console's lookups *)

Lemma outside_items_clean good first items : Forall (clean good) (outside_items first items).
Proof. revert first. induction items as [|i items IH]; intros first; [constructor|]. constructor; [|apply IH]. unfold outside_item. obj_clean. Qed.
Lemma outside_clean good source items first : clean good (outside_data source items first).
Proof. pose proof (clean_array good _ (outside_items_clean good first items)). unfold outside_data. obj_clean. Qed.
Lemma note_clean good t : clean good (note t).
Proof. unfold note. obj_clean. Qed.
(** Nothing from the internet can be cited. *)
Lemma internet_clean user request_id level hour ask audit_ok l o v good :
  (internet_run user request_id level hour ask audit_ok l o).2 = inr v -> clean good v.
Proof.
  unfold internet_run. destruct (wire_of l) as [[[[[kind subject] wire] down] fallback]|]; [|done]. destruct (_ || _); [intros [= <-]; apply note_clean|].
  destruct (allow_lookup user hour (on_limits o)) as [allowed m]. destruct allowed; [|intros [= <-]; apply note_clean]. cbn [negb]. destruct audit_ok; [|done]. cbn [negb].
  destruct (record_sent _ _ _ _) as [first sent]. intros [= <-]. unfold read_response. destruct (ask _) as [[source items|[]]|]; try apply note_clean; [apply outside_clean|].
  destruct (bool_decide _); apply note_clean.
Qed.

Section console.
Context (time time_full : Z -> string) (read_envelope : list Z -> option RuleEnvelope) (read_rules : string -> option (list PublishedRule)).
Context (source_of : PermissionScope -> Source) (matches : PermissionScope -> string -> option (list MatchedAgent)) (now : Z).
Context (Hplain : forall scope, packages_plain (source_of scope)).

(** A citation of a row the user may read: of the scope of hosts and findings, or of vulnerabilities. *)
Definition readable (access : Access) (t : text) : Prop :=
  (exists scope, (scope = acc_agents access \/ acc_vulnerabilities access = Some scope) /\ names read_envelope read_rules (source_of scope) t)
  \/ exists key l a, matches (acc_agents access) key = Some l /\ In a l /\ t = chars ("[agent:" +:+ ma_agent_id a +:+ "]").

Lemma scope_clean access scope l items v : (scope = acc_agents access \/ acc_vulnerabilities access = Some scope) ->
  run_lookup time read_envelope read_rules (source_of scope) now l items = inr v -> clean (readable access) v.
Proof. intros Hs. apply run_lookup_clean. apply names_good; [apply Hplain|]. intros t Ht. left. by exists scope. Qed.
Lemma store_lookup_clean access l items v : store_lookup time time_full read_envelope read_rules source_of matches now access l items = inr v -> clean (readable access) v.
Proof.
  destruct l as [text_ min_severity rule_set w|rule_set rule w|agent|agent min_severity|id|w|rule_set rule|agent port|name agent|id|query]; cbn [store_lookup]; unfold in_scope; try done;
    try (apply scope_clean; by left).
  - intros (l & Hl%or_store_inr & H)%result_bind_inr. destruct (1 <? length l)%nat; [done|]. injection H as <-.
    assert (clean (readable access) (JArray (map (matched_json time_full) l))) as Ha.
    { apply clean_array, Forall_map_of, Forall_forall. intros a Ha%list_elem_of_In. apply clean_obj. constructor; [|repeat apply Forall_cons_2; try apply Forall_nil_2; eauto with clean].
      - split; [apply clean_text|]. intros _ s c [= <-] Hp. apply show_parse in Hp as [-> _]. right. exists agent, l, a. done.
      - apply field_plain; [not_a_key|]. destruct (ma_last_seen_at a); [apply clean_text|apply clean_null]. }
    obj_clean.
  - destruct (acc_vulnerabilities access) as [scope|] eqn:E; [|done]. apply scope_clean. by right.
  - destruct (acc_vulnerabilities access) as [scope|] eqn:E; [|done]. apply scope_clean. by right.
  - destruct (overview_allowed access); [|done]. apply scope_clean. by left.
  - destruct (acc_rules access); [apply scope_clean; by left|]. intros (sets & _ & H)%result_bind_inr. destruct sets; [done|]. revert H. apply scope_clean. by left.
Qed.
Lemma console_lookup_clean access user request_id level hour ask audit_ok o l items v :
  (console_lookup time time_full read_envelope read_rules source_of matches now access user request_id level hour ask audit_ok o l items).2 = inr v -> clean (readable access) v.
Proof.
  unfold console_lookup. destruct (is_internet l); [|apply store_lookup_clean]. cbv zeta. destruct (internet_run _ _ _ _ _ _ l o) as [o' x] eqn:E. cbn [snd]. intros ->.
  eapply internet_clean. by rewrite E.
Qed.
End console.

(** ** A question from its start *)

Section question.
Context (json_text : value -> string) (json_doc first_json : string -> option value) (to_lowercase : string -> string) (is_alphanumeric : Z -> bool) (time : Z -> string).
Context (chat : nat -> ChatRequest -> Z * list string * (BackendError + ChatResponse)) {W : Type} (runner : W -> LookupRequest -> Z -> W * Z * result value).
Notation answer_question := (answer_question json_text json_doc first_json to_lowercase is_alphanumeric time chat runner).
Notation run_answer := (run_answer json_text json_doc first_json to_lowercase is_alphanumeric chat runner).

(** How a question ended: refused at the door, or run; an answer in time is never dropped by the limit on the whole. *)
Definition ended (w : W) (now : Z) (settings : Settings) (history : list Turn) (question : string) (extra_tools : list ToolSpec) (r : option (AsstRun.Run (W := W))) (x : AnswerError + AsstRun.Answer) : Prop :=
  match r with
  | None => x = inl EmptyQuestion \/ x = inl QuestionTooLong
  | Some r =>
      let fx := fixed_of_question json_text time settings history (trim question) extra_tools in
      Inv json_doc runner fx now w r /\ answer_ok r x
      /\ rn_requests r <= (if native fx then se_max_lookups settings + 1 else 2 * (se_max_lookups settings + 1))
      /\ Z.of_nat (length (rn_asked r)) <= se_max_lookups settings + 3
      /\ rn_deadline r <= now + longest settings
      /\ exists x0, run_answer fx (trim question) (start fx w now) = Some (r, x0) /\ (forall a, x0 = inr a -> x = inr a)
  end.
Lemma answer_question_spec w now settings history question extra_tools : 0 <= se_max_lookups settings ->
  exists r x, answer_question w now settings history question extra_tools = Some (r, x) /\ ended w now settings history question extra_tools r x.
Proof.
  intros Hmax. unfold AsstRun.answer_question. destruct (is_empty (trim question)); [by eexists None, _; split; [done|left]|].
  destruct (MAX_QUESTION_CHARS <? _); [by eexists None, _; split; [done|right]|]. cbv zeta.
  set (fx := fixed_of_question json_text time settings history (trim question) extra_tools).
  destruct (fx_limit_chars fx <? _); [by eexists None, _; split; [done|right]|].
  destruct (run_answer_spec json_text json_doc first_json to_lowercase is_alphanumeric chat runner fx now w (trim question)) as (r & x & E & I & A & B & C); [done|].
  rewrite E. change (se_max_lookups (fx_settings fx)) with (se_max_lookups settings) in *.
  assert (rn_deadline r <= now + longest settings) as Hd.
  { pose proof (inv_deadline _ _ _ _ _ _ I) as D. unfold longest. change (se_deadline (fx_settings fx)) with (se_deadline settings) in D. unfold INTERNET_LOOKUP_LIMIT in *.
    change (Z.of_nat MAX_MITIGATION_PREFETCH) with 3 in *. lia. }
  assert (rn_requests r <= if native fx then se_max_lookups settings + 1 else 2 * (se_max_lookups settings + 1)) as Hr by (rewrite (inv_requests _ _ _ _ _ _ I); destruct (native fx); exact B).
  eexists (Some r), _. split; [reflexivity|]. cbn [ended]. fold fx. split_and!; try done.
  - by destruct (longest settings <? _).
  - exists x. split; [done|]. intros a ->. destruct A as (_ & _ & _ & _ & _ & _ & A). destruct (Z.ltb_spec (longest settings) (rn_clock r - now)); [lia|done].
Qed.

(** C33: whatever the model answers, however long it takes and whatever its lookups return, a question ends: with an answer or one of the
    errors, after at most one answered request per lookup allowed and one more (twice that when the model does not call tools), and at most
    three lookups more than allowed, each of them one of the fixed list with arguments of its schema, and an internet lookup only if it was
    offered; the time it may take stays within the limit on the whole, so an answer that came in time is not dropped. *)
Theorem question_ends w now settings history question extra_tools : 0 <= se_max_lookups settings ->
  exists r x, answer_question w now settings history question extra_tools = Some (r, x)
  /\ match r with
     | None => x = inl EmptyQuestion \/ x = inl QuestionTooLong
     | Some r =>
         rn_requests r = Z.of_nat (length (rn_sent r))
         /\ rn_requests r <= (match se_mode settings with Native => se_max_lookups settings + 1 | _ => 2 * (se_max_lookups settings + 1) end)
         /\ Z.of_nat (length (rn_asked r)) <= se_max_lookups settings + 3
         /\ Forall (fun a => (exists name arguments_, parse_lookup json_doc name arguments_ = inr a.1)
                             /\ (is_internet a.1 = true -> In (lookup_name a.1) (map ts_name (specs ++ extra_tools)))) (rn_asked r)
         /\ rn_deadline r <= now + longest settings
         /\ let fx := fixed_of_question json_text time settings history (trim question) extra_tools in
            exists x0, run_answer fx (trim question) (start fx w now) = Some (r, x0) /\ (forall a, x0 = inr a -> x = inr a)
     end.
Proof.
  intros Hmax. destruct (answer_question_spec w now settings history question extra_tools Hmax) as (r & x & E & H). exists r, x. split; [done|].
  destruct r as [r|]; [|exact H]. destruct H as (I & A & B & C & D & F). split_and!; try done.
  - by apply (inv_requests _ _ _ _ _ _ I).
  - unfold native in B. cbn [fx_settings fixed_of_question] in B. destruct (se_mode settings); exact B.
  - eapply Forall_impl; [apply (inv_asked _ _ _ _ _ _ I)|]. intros a [H1 H2]. split; [exact H1|]. intros Hi%H2. unfold offered in Hi. apply existsb_exists in Hi as (t & Hin & Hn%String.eqb_eq).
    apply in_map_iff. by exists t.
Qed.
End question.

(** ** An answer in the console *)

Section answers.
Context (json_text : value -> string) (json_doc first_json : string -> option value) (to_lowercase : string -> string) (is_alphanumeric : Z -> bool) (time time_full : Z -> string).
Context (read_envelope : list Z -> option RuleEnvelope) (read_rules : string -> option (list PublishedRule)).
Context (source_of : PermissionScope -> Source) (matches : PermissionScope -> string -> option (list MatchedAgent)).
Context (chat : nat -> ChatRequest -> Z * list string * (BackendError + ChatResponse)) (took : LookupRequest -> Z).
Notation assistant_message := (assistant_message json_text json_doc first_json to_lowercase is_alphanumeric time time_full read_envelope read_rules source_of matches chat took).

(** C17: an answer shown to a user, whatever the model wrote and whatever hosts, feeds and the internet put in names and messages: each of its
    links is to an object of a row that the user's own scopes let them read, its text holds no address with a scheme and no hidden or control
    character, and the question was permitted and is in the audit log. *)
Theorem citations_genuine caller q max_lookups budget backend_deadline request_id now f o segments lookups internet o' audit :
  (forall scope, packages_plain (source_of scope)) -> 0 <= max_lookups ->
  assistant_message caller q max_lookups budget backend_deadline request_id now f o = Some (AssistantAnswer segments lookups internet, o', audit) ->
  exists actor access l, question_access caller q = inr (actor, access)
    /\ audit = [{| qa_actor := actor; qa_result := "success"; qa_request_id := request_id |}]
    /\ segments = map shown_segment l /\ l <> [] /\ inert (plain_text l)
    /\ forall c, c ∈ cites l -> readable read_envelope read_rules source_of matches access (show_citation c).
Proof.
  intros Hplain Hmax. unfold AsstConsole.assistant_message. destruct (question_access caller q) as [p|[actor access]] eqn:Ea; [done|].
  destruct (fd_user_slot f); [|done]. destruct (fd_capacity f); [|done]. destruct (fd_available f); [|done]. cbn [negb]. destruct (fd_mode f) as [mode|]; [|done].
  destruct (fd_scopes f); [|done]. cbn [negb]. cbv zeta.
  match goal with |- context [answer_question _ _ _ _ _ _ _ ?rn ?w ?n ?s ?h ?qq ?e] => set (runner := rn); set (fresh := w); set (settings := s); set (extra := e);
    destruct (answer_question_spec json_text json_doc first_json to_lowercase is_alphanumeric time chat runner fresh n settings h qq extra) as (r & x & -> & Hend); [done|] end.
  destruct (fd_question_audit f); [|done]. cbn [negb]. destruct x as [e|a]; [by destruct e|]. intros [= <- <- <- <- <-].
  destruct r as [r|]; [|by destruct Hend]. destruct Hend as (I & (Hne & Hc & Hin & _) & _).
  exists actor, access, (an_segments a). split_and!; try done. intros c Hcit. destruct (Hc c Hcit) as (l & v & Hasked & Hv).
  pose proof (inv_ran _ _ _ _ _ _ I) as Hran. rewrite Forall_forall in Hran. destruct (Hran (l, inr v) (proj2 (list_elem_of_In _ _) Hasked) v eq_refl) as (w & w' & t & Hrun).
  cbn [fst] in Hrun. subst runner. cbv beta in Hrun.
  match type of Hrun with (let '(_, _) := ?m in _) = _ => destruct m as [o2 x2] eqn:Em end. injection Hrun as <- <- ->.
  eapply (console_lookup_clean time time_full); [exact Hplain|by rewrite Em|exact Hv].
Qed.
End answers.

(** ** What goes out *)

(** A lookup of the internet: whose, for which question, under which level and in which hour; the exchange, and whether the row can be written. *)
Record Call := { ic_user : string; ic_request : string; ic_level : Z; ic_hour : Z; ic_ask : FetchRequest -> option Response; ic_audit : bool; ic_lookup : LookupRequest }.
Definition run_call (o : Online) (c : Call) : Online := (internet_run (ic_user c) (ic_request c) (ic_level c) (ic_hour c) (ic_ask c) (ic_audit c) (ic_lookup c) o).1.
(** Lookups of any users and questions, one after the other, from a console that has just started. *)
Definition fresh_online : Online := {| on_limits := []; on_audit := []; on_sent := []; on_failed := false; on_out := []; on_runs := 0 |}.
Definition run_calls (cs : list Call) : Online := fold_left run_call cs fresh_online.

Definition of_user (u : string) (h : Z) (x : Z * FetchRequest) : bool := (x.1 =? h) && String.eqb (fr_user x.2) u.
(** The requests of a user in an hour. *)
Definition requests_of (u : string) (h : Z) (out : list (Z * FetchRequest)) : Z := Z.of_nat (length (List.filter (of_user u h) out)).
Definition count_of (u : string) (h : Z) (m : limits) : Z := match used u (List.filter (fun kv => kv.2.1 =? h) m) with Some (_, n) => n | None => 0 end.

Lemma used_filter_user u v m : u <> v -> used v (List.filter (fun kv : string * (Z * Z) => negb (String.eqb kv.1 u)) m) = used v m.
Proof.
  intros Hn. induction m as [|[w x] m IH]; [done|]. cbn [List.filter fst used]. destruct (String.eqb_spec w u) as [->|Hw]; cbn [negb used].
  - destruct (String.eqb_spec u v); [done|exact IH].
  - by destruct (String.eqb w v).
Qed.
Lemma used_nonneg u m x : Forall (fun kv : string * (Z * Z) => 0 <= kv.2.2) m -> used u m = Some x -> 0 <= x.2.
Proof. intros Hm. induction Hm as [|[w y] m Hy Hm IH]; [done|]. cbn [used]. destruct (String.eqb w u); [by intros [= <-]|exact IH]. Qed.
Lemma Forall_filter_list {A} (P : A -> Prop) f l : Forall P l -> Forall P (List.filter f l).
Proof. induction 1 as [|x l Hx Hl IH]; cbn; [done|]. destruct (f x); [by constructor|done]. Qed.
Lemma count_nonneg u h m : Forall (fun kv : string * (Z * Z) => 0 <= kv.2.2) m -> 0 <= count_of u h m.
Proof. intros Hm. unfold count_of. destruct (used _ _) as [[h' n]|] eqn:E; [|done]. exact (used_nonneg _ _ _ (Forall_filter_list _ _ _ Hm) E). Qed.
Lemma filter_all_true {A} (f : A -> bool) l : Forall (fun x => f x = true) l -> List.filter f l = l.
Proof. induction 1 as [|x l Hx Hl IH]; cbn; [done|]. by rewrite Hx, IH. Qed.
Lemma filter_holds {A} (f : A -> bool) l : Forall (fun x => f x = true) (List.filter f l).
Proof. induction l as [|x l IH]; cbn; [done|]. destruct (f x) eqn:E; [by constructor|done]. Qed.

(** A grant counts the user's lookup, and no other's. *)
Lemma allow_spec u h m : let '(allowed, m') := allow_lookup u h m in
  allowed = (count_of u h m + 1 <=? PER_HOUR) /\ (forall v, count_of v h m' = if String.eqb u v then count_of u h m + 1 else count_of v h m)
  /\ (Forall (fun kv : string * (Z * Z) => 0 <= kv.2.2) m -> Forall (fun kv : string * (Z * Z) => 0 <= kv.2.2) m').
Proof.
  unfold allow_lookup. cbv zeta. fold (count_of u h m). split_and!; [done| |].
  - intros v. unfold set_used, count_of at 1. set (m1 := List.filter (fun kv => kv.2.1 =? h) m). rewrite filter_all_true.
    + cbn [used]. destruct (String.eqb_spec u v) as [->|Hv]; [done|]. unfold count_of. by rewrite used_filter_user.
    + constructor; [by rewrite Z.eqb_refl|]. apply Forall_filter_list, filter_holds.
  - intros Hm. constructor; [cbn; pose proof (count_nonneg u h m Hm); lia|]. by apply Forall_filter_list, Forall_filter_list.
Qed.

Record Counted (h : Z) (o : Online) : Prop := {
  ct_positive : Forall (fun kv : string * (Z * Z) => 0 <= kv.2.2) (on_limits o);
  ct_past : Forall (fun x : Z * FetchRequest => x.1 <= h) (on_out o);
  ct_covered : forall u, requests_of u h (on_out o) <= count_of u h (on_limits o);
  ct_bound : forall u h', requests_of u h' (on_out o) <= PER_HOUR;
}.
Lemma requests_future u h h' out : Forall (fun x : Z * FetchRequest => x.1 <= h) out -> h < h' -> requests_of u h' out = 0.
Proof.
  intros Hp Hlt. unfold requests_of. replace (List.filter _ out) with (@nil (Z * FetchRequest)); [done|]. induction Hp as [|[a b] out Hx Hp IH]; [done|]. cbn [List.filter].
  unfold of_user at 1. cbn [fst] in *. destruct (Z.eqb_spec a h'); [lia|exact IH].
Qed.
Lemma counted_later h h' o : Counted h o -> h <= h' -> Counted h' o.
Proof.
  intros [P Q R B] Hle. constructor; [done|eapply Forall_impl; [exact Q|cbn; lia]| |done]. intros u. destruct (decide (h = h')) as [<-|Hne]; [done|].
  rewrite (requests_future u h h'); [by apply count_nonneg|done|lia].
Qed.
Lemma requests_of_snoc u h out x : requests_of u h (out ++ [x]) = requests_of u h out + (if of_user u h x then 1 else 0).
Proof. unfold requests_of. rewrite List.filter_app, List.length_app. cbn [List.filter]. destruct (of_user u h x); cbn [length]; lia. Qed.

(** A call that goes out, and the row of it. *)
Definition goes (c : Call) (x : Z * FetchRequest) : Prop :=
  x.1 = ic_hour c /\ fr_user x.2 = ic_user c /\ 0 <> ic_level c
  /\ match ic_lookup c with
     | LReference id => fr_kind x.2 = KReference (upper_prefix id)
     | WebSearch query => fr_kind x.2 = KSearch query /\ 2 <= ic_level c
     | _ => False
     end.
Definition written (c : Call) (a : LookupAudit) : Prop :=
  la_user a = ic_user c /\ la_request_id a = ic_request c
  /\ match ic_lookup c with
     | LReference id => la_kind a = "reference"%string /\ la_subject a = upper_prefix id
     | WebSearch query => la_kind a = "search"%string /\ la_subject a = query
     | _ => False
     end.

(** What one call does to the limits, to what went out and to the log. *)
Lemma run_call_spec o c : let o' := run_call o c in
  (on_out o' = on_out o /\ on_audit o' = on_audit o /\ (on_limits o' = on_limits o \/ on_limits o' = (allow_lookup (ic_user c) (ic_hour c) (on_limits o)).2))
  \/ exists req, goes c (ic_hour c, req) /\ allow_lookup (ic_user c) (ic_hour c) (on_limits o) = (true, on_limits o') /\ on_out o' = on_out o ++ [(ic_hour c, req)]
     /\ if ic_audit c then exists a, written c a /\ on_audit o' = on_audit o ++ [a] else on_audit o' = on_audit o.
Proof.
  unfold run_call, internet_run. destruct (wire_of (ic_lookup c)) as [[[[[kind subject] wire] down] fallback]|] eqn:Ew; [|left; auto].
  destruct (_ || _) eqn:El; [left; auto|]. apply orb_false_iff in El as [El1 El2]. destruct (allow_lookup _ _ _) as [allowed m] eqn:Ea.
  destruct allowed; [|left; cbn; rewrite ?Ea; auto]. cbn [negb]. right. exists {| fr_user := ic_user c; fr_kind := wire |}.
  assert (goes c (ic_hour c, {| fr_user := ic_user c; fr_kind := wire |})) as G.
  { apply Z.eqb_neq in El1. unfold goes, wire_of in *. cbn [fst snd fr_user fr_kind]. split_and!; [done..|congruence|]. destruct (ic_lookup c); try done; injection Ew as <- <- <- <- <-; [done|].
    split; [done|]. rewrite bool_decide_eq_true_2 in El2 by done. by apply Z.ltb_ge in El2. }
  destruct (ic_audit c); cbn [negb]; [|split_and!; [done..|by cbn|done]].
  destruct (record_sent _ _ _ _) as [first sent] eqn:Er. cbn [fst on_limits on_out on_audit]. split_and!; try done. eexists. split; [|reflexivity].
  unfold written, audit_of, wire_of in *. destruct (match _ with Some _ => _ | None => _ end) as [dest res]. cbn. split_and!; [done..|]. destruct (ic_lookup c); try done; injection Ew as <- <- <- <- <-; done.
Qed.
Lemma run_call_counted h o c : Counted h o -> h <= ic_hour c -> Counted (ic_hour c) (run_call o c).
Proof.
  intros C Hle. pose proof (counted_later _ _ _ C Hle) as [P Q R B]. pose proof (allow_spec (ic_user c) (ic_hour c) (on_limits o)) as S.
  destruct (run_call_spec o c) as [(Ho & _ & [Hl|Hl])|(req & G & Ha & Ho & _)].
  - constructor; rewrite ?Ho, ?Hl; done.
  - destruct (allow_lookup _ _ _) as [allowed m]. destruct S as (_ & S & Sp). cbn [snd] in Hl. constructor; rewrite ?Ho, ?Hl; [by apply Sp|done| |done].
    intros u. specialize (S u). specialize (R u). rewrite S. destruct (String.eqb_spec (ic_user c) u) as [<-|]; lia.
  - rewrite Ha in S. destruct S as (Sa & S & Sp). destruct G as (_ & Gu & _). cbn [snd] in Gu. symmetry in Sa. apply Z.leb_le in Sa.
    constructor; rewrite ?Ho; [by apply Sp|by apply Forall_app; split; [|repeat constructor; cbn; lia]| |].
    + intros u. rewrite requests_of_snoc, S. unfold of_user. cbn [fst snd]. rewrite Z.eqb_refl, Gu. specialize (R u). destruct (String.eqb_spec (ic_user c) u) as [<-|]; cbn; lia.
    + intros u h'. rewrite requests_of_snoc. unfold of_user. cbn [fst snd]. rewrite Gu. specialize (R u). specialize (B u h').
      destruct (Z.eqb_spec (ic_hour c) h') as [<-|]; [|cbn; lia]. destruct (String.eqb_spec (ic_user c) u) as [<-|]; cbn; lia.
Qed.

(** The calls that went out, in their order, and the rows of those that could be written. *)
Definition accounted (cs : list Call) (o : Online) : Prop :=
  exists gone, sublist gone cs /\ Forall2 goes gone (on_out o) /\ Forall2 written (List.filter ic_audit gone) (on_audit o).
Lemma run_call_accounted cs o c : accounted cs o -> accounted (cs ++ [c]) (run_call o c).
Proof.
  intros (gone & Hs & Hg & Hw). destruct (run_call_spec o c) as [(Ho & Hl & _)|(req & G & _ & Ho & Hl)].
  - exists gone. rewrite Ho, Hl. split_and!; [|done..]. by apply sublist_inserts_r.
  - exists (gone ++ [c]). rewrite Ho, List.filter_app. split_and!; [by apply sublist_app|by apply Forall2_app; [|constructor]|]. cbn [List.filter].
    destruct (ic_audit c); [destruct Hl as (a & Ha & ->); apply Forall2_app; [done|by constructor]|]. by rewrite Hl, app_nil_r.
Qed.
(** From any point on. *)
Lemma run_calls_from cs : forall past o h, StronglySorted Z.le (h :: map ic_hour cs) -> Counted h o -> accounted past o ->
  accounted (past ++ cs) (fold_left run_call cs o) /\ forall u h', requests_of u h' (on_out (fold_left run_call cs o)) <= PER_HOUR.
Proof.
  induction cs as [|c cs IH]; intros past o h Hs C A; [rewrite app_nil_r; split; [done|apply (ct_bound _ _ C)]|].
  cbn [map fold_left] in *. apply StronglySorted_inv in Hs as [Hs Hh]. inversion Hh as [|? ? Hle _]; subst.
  rewrite (app_assoc past [c] cs : past ++ c :: cs = (past ++ [c]) ++ cs). apply (IH _ _ (ic_hour c)); [done|by eapply run_call_counted|by apply run_call_accounted].
Qed.

(** C34: of the lookups that reach the console's client, in the order of their hours, what went out is accounted for: nothing goes out at
    level 0 and no search below level 2, each request names its user and is the identifier or the query asked for, an audit row with the
    user, the question and what was asked follows each (unless the log cannot be written), there is no row without a request, and a user
    has at most twenty requests in an hour. *)
Theorem lookups_accounted cs : StronglySorted Z.le (map ic_hour cs) -> accounted cs (run_calls cs) /\ forall u h, requests_of u h (on_out (run_calls cs)) <= PER_HOUR.
Proof.
  intros Hs. destruct cs as [|c cs]; [split; [by exists []|by intros]|]. apply (run_calls_from (c :: cs) [] fresh_online (ic_hour c)).
  - constructor; [done|]. cbn [map] in *. apply StronglySorted_inv in Hs as [_ Hh]. constructor; [lia|done].
  - by constructor.
  - by exists [].
Qed.

(** ** Concrete questions *)

Definition no_source : Source :=
  {| src_finding_groups _ _ _ := None; src_finding_endpoints _ _ _ _ := None; src_agent_summaries _ _ _ := None; src_host_vulnerabilities _ _ _ := None;
     src_vulnerable_hosts _ _ := None; src_overview _ _ _ := None; src_rule_envelope _ := None; src_host_report _ := None; src_host_listeners _ _ _ := None;
     src_host_services _ _ := None; src_port_listeners _ _ := None; src_installed_packages _ _ _ := None |}.
Definition web1 : MatchedAgent := {| ma_agent_id := "web1"; ma_hostname := Some "web1.example <script>"; ma_state := ActiveAgent; ma_last_seen_at := None |}.
Definition told (t : string) (calls : list ToolCall) : ChatResponse := {| ch_content := t; ch_tool_calls := calls; ch_finish := Stop; ch_usage := None |}.
(** A model that asks for the host, and then cites it, another host, and a link. *)
Definition citing_chat (n : nat) (_ : ChatRequest) : Z * list string * (BackendError + ChatResponse) :=
  (1, [], inr (if (n =? 0)%nat then told "" [{| tc_id := "c1"; tc_name := "agent_summary"; tc_arguments := "web1" |}]
               else told "[agent:web1] is up; [agent:db7] too, see https://evil.example." [])).
(** A model that never answers in the form asked for. *)
Definition silent_chat (_ : nat) (_ : ChatRequest) : Z * list string * (BackendError + ChatResponse) := (1, [], inr (told "{" [])).
(** The parameters at these inputs: an object is read as empty, a bare word as the object that names an agent. *)
Definition doc_of (s : string) : option value := Some (if String.eqb s "{}" then JObject [] else obj [("agent", JString s)]).
Definition small_budget : Budget := {| bg_prompt_tokens := 8000; bg_output_tokens := 800; bg_result_items := 20 |}.
Definition found_all : Found :=
  {| fd_user_slot := true; fd_capacity := true; fd_available := true; fd_mode := Some Native; fd_scopes := true; fd_tools_level := 0; fd_level _ := 0; fd_hour _ := 0;
     fd_ask _ _ := None; fd_lookup_audit _ := true; fd_question_audit := true |}.
Definition ann (_ : Permission) (_ : bool) : (Z * string) + (PermissionScope * string) := inr (Global, "ann").
Definition is_web1_up : QuestionRequest := {| qr_question := "Is web1 up?"; qr_history := [] |}.
Definition ann_matches (_ : PermissionScope) (key : string) : option (list MatchedAgent) := Some (if String.eqb key "web1" then [web1] else []).

Notation ask_ann := (assistant_message (fun _ => "{}") doc_of (fun _ => None) id is_ascii_alphanumeric (fun _ => "12:00") (fun _ => "12:00") (fun _ => None) (fun _ => None)
  (fun _ => no_source) ann_matches citing_chat (fun _ => 1) ann is_web1_up 4 small_budget 30 "r1" 0 found_all fresh_online) (only parsing).
(** The host that was looked up is linked; the other citation stays plain text, and the address is broken. *)
Example cited_and_not : match ask_ann with
  | Some (AssistantAnswer segments lookups _, _, _) =>
      segments = [ShownCitation "agent" "web1" "/hosts/web1"; ShownText " is up; [agent:db7] too, see https[:]//evil.example."] /\ map sl_name lookups = [Some "agent_summary"%string]
  | _ => False
  end.
Proof. vm_compute. auto. Qed.

Lemma citations_genuine_witness : exists segments lookups internet o' audit actor access l,
  ask_ann = Some (AssistantAnswer segments lookups internet, o', audit) /\ question_access ann is_web1_up = inr (actor, access)
  /\ segments = map shown_segment l /\ forall c, c ∈ cites l -> readable (fun _ => None) (fun _ => None) (fun _ => no_source) ann_matches access (show_citation c).
Proof.
  destruct ask_ann as [[[m o'] audit]|] eqn:E; [|vm_compute in E; discriminate E].
  destruct m as [status code|segments lookups internet]; [vm_compute in E; discriminate E|].
  refine ((fun H => _) (citations_genuine _ _ _ _ _ _ _ _ _ _ _ _ _ _ _ _ _ _ _ _ _ _ _ _ _ _ _ _ _ E)); [|intros scope id n p h Hno; discriminate Hno|lia].
  destruct H as (actor & access & l & Ha & _ & Hs & _ & _ & Hc).
  exists segments, lookups, internet, o', audit, actor, access, l. split_and!; [reflexivity|exact Ha|exact Hs|exact Hc].
Defined.

Lemma question_ends_witness : exists r, answer_question (fun _ => "{}") doc_of (fun _ => None) id is_ascii_alphanumeric (fun _ => "12:00") silent_chat (fun (w : unit) _ _ => (w, 1, inr JNull)) tt 0
    (new_settings 2 small_budget 30 JsonSchema 0) [] "Is web1 up?" [] = Some (Some r, inl NoAnswer) /\ rn_requests r = 2 /\ rn_requests r <= 2 * (2 + 1) /\ rn_deadline r <= 0 + (90 + 30 * (2 + 3)).
Proof.
  destruct (question_ends (fun _ => "{}") doc_of (fun _ => None) id is_ascii_alphanumeric (fun _ => "12:00") silent_chat (fun (w : unit) _ _ => (w, 1, inr JNull)) tt 0
    (new_settings 2 small_budget 30 JsonSchema 0) [] "Is web1 up?" []) as (r & x & E & H); [cbn; lia|]. rewrite E.
  match type of E with ?a = _ => assert (match a with Some (Some r, x) => x = inl NoAnswer /\ rn_requests r = 2 | _ => False end) as V by (vm_compute; auto) end.
  rewrite E in V. destruct r as [r|]; [|destruct V]. destruct V as [-> V]. exists r. destruct H as (_ & B & _ & _ & D & _). split_and!; [reflexivity|exact V|exact B|exact D].
Defined.

Definition osv_call (n : nat) (hour : Z) : Call :=
  {| ic_user := "ann"; ic_request := "r1"; ic_level := 1; ic_hour := hour; ic_ask _ := Some (FetchServe.Found "osv.dev" []); ic_audit := (n <? 25)%nat; ic_lookup := LReference "cve-2026-1" |}.
(** Twenty of twenty-five lookups of an hour go out, a search at level 1 does not, and the next hour starts again. *)
Definition day : list Call :=
  map (fun n => osv_call n 1) (seq 0 25) ++ [{| ic_user := "ann"; ic_request := "r2"; ic_level := 1; ic_hour := 1; ic_ask _ := None; ic_audit := true; ic_lookup := WebSearch "openssl" |}; osv_call 0 2].
Lemma lookups_accounted_witness : StronglySorted Z.le (map ic_hour day) /\ length (on_out (run_calls day)) = 21%nat /\ requests_of "ann" 1 (on_out (run_calls day)) = PER_HOUR
  /\ accounted day (run_calls day) /\ forall u h, requests_of u h (on_out (run_calls day)) <= PER_HOUR.
Proof.
  assert (StronglySorted Z.le (map ic_hour day)) as Hs by (cbn; repeat (constructor; [|repeat constructor; lia]); constructor).
  destruct (lookups_accounted day Hs) as [A B]. split_and!; [exact Hs|vm_compute; reflexivity|vm_compute; reflexivity|exact A|exact B].
Defined.
(** A request whose row cannot be written has gone out all the same. *)
Example unwritten_lookup_goes_out : let o := run_calls [osv_call 25 1] in length (on_out o) = 1%nat /\ on_audit o = [].
Proof. vm_compute. auto. Qed.
