(* ===== verification/RulePub.v ===== *)
(** * Rules: sets, keys and bundles stored, and their publishing

    platform-store/src/rules.rs with the tables of migration 0006; the three ways to publish (src/rules/bundles.rs and
    draft_publish.rs of openvibes-console, rules_store.rs of openvibes-admin); openvibes-distribution/src/lib.rs.

    A publish is a machine of one statement per step: it takes the lock of its set, reads, and writes at the end.  The
    agent's loader and the reading of an envelope (crates of the agent) are the parameter [AgentCrates]; keys and hashes are
    lists of bytes. *)
From S2P Require Import Prelude RustStd Text BTree Json AccessRules SignData AgentDb GroupDb RuleAssign SsoDb.
From stdpp Require Import prelude strings list pretty.
From Stdlib Require Import Ascii ZArith Lia.

Open Scope Z_scope.

(** ** The tables *)

Record SetRow := { rs_id : string; rs_created_at : Z; rs_retired_at : option Z }.
Record TrustKey := { ky_set : string; ky_issuer : string; ky_public : list Z; ky_added_at : Z; ky_removed_at : option Z }.
Record BundleRow := {
  bu_set : string; bu_version : Z; bu_envelope : list Z; bu_sha256 : list Z; bu_issuer : string;
  bu_created_at_ms : Z; bu_expires_at_ms : Z; bu_published_at : Z; bu_published_by : string;
}.
Record RuleLog := { rl_actor : string; rl_action : string; rl_target : string; rl_result : string }.
Record RuleTables := { rule_sets : list SetRow; trust_keys : list TrustKey; bundles : list BundleRow; rule_log : list RuleLog }.

Definition with_sets (f : list SetRow -> list SetRow) (t : RuleTables) : RuleTables :=
  {| rule_sets := f (rule_sets t); trust_keys := trust_keys t; bundles := bundles t; rule_log := rule_log t |}.
Definition with_keys (f : list TrustKey -> list TrustKey) (t : RuleTables) : RuleTables :=
  {| rule_sets := rule_sets t; trust_keys := f (trust_keys t); bundles := bundles t; rule_log := rule_log t |}.
Definition add_bundle (b : BundleRow) (t : RuleTables) : RuleTables :=
  {| rule_sets := rule_sets t; trust_keys := trust_keys t; bundles := bundles t ++ [b]; rule_log := rule_log t |}.
Definition add_log (l : RuleLog) (t : RuleTables) : RuleTables :=
  {| rule_sets := rule_sets t; trust_keys := trust_keys t; bundles := bundles t; rule_log := rule_log t ++ [l] |}.

Definition set_row (set : string) (t : RuleTables) : option SetRow := find (fun s => String.eqb (rs_id s) set) (rule_sets t).
Definition is_retired (s : SetRow) : bool := is_some (rs_retired_at s).
Definition at_key (set issuer : string) (k : TrustKey) : bool := String.eqb (ky_set k) set && String.eqb (ky_issuer k) issuer.
Definition key_row (set issuer : string) (t : RuleTables) : option TrustKey := find (at_key set issuer) (trust_keys t).
Definition is_active (k : TrustKey) : bool := negb (is_some (ky_removed_at k)).
Definition at_version (set : string) (version : Z) (b : BundleRow) : bool := String.eqb (bu_set b) set && (bu_version b =? version).
Definition bundle_of (set : string) (version : Z) (t : RuleTables) : option BundleRow := find (at_version set version) (bundles t).

(** ** Trust *)

Inductive TrustAdded := Added | AlreadyTrusted | Conflict | RetiredSet.
Definition add_trust_key (set issuer : string) (key : list Z) (now : Z) (t : RuleTables) : TrustAdded * RuleTables :=
  let t1 := if is_some (set_row set t) then t else with_sets (fun l => l ++ [{| rs_id := set; rs_created_at := now; rs_retired_at := None |}]) t in
  if match set_row set t1 with Some s => is_retired s | None => false end then (RetiredSet, t)
  else match key_row set issuer t1 with
  | None => (Added, with_keys (fun l => l ++ [{| ky_set := set; ky_issuer := issuer; ky_public := key; ky_added_at := now; ky_removed_at := None |}]) t1)
  | Some k => (if is_active k && bytes_eqb (ky_public k) key then AlreadyTrusted else Conflict, t1)
  end.
Definition removed (now : Z) (k : TrustKey) : TrustKey :=
  {| ky_set := ky_set k; ky_issuer := ky_issuer k; ky_public := ky_public k; ky_added_at := ky_added_at k; ky_removed_at := Some now |}.
Definition remove_trust_key (set issuer : string) (now : Z) (t : RuleTables) : bool * RuleTables :=
  let hit k := at_key set issuer k && is_active k in
  (existsb hit (trust_keys t), with_keys (map (fun k => if hit k then removed now k else k)) t).
(** The keys in order of the issuer. *)
Definition by_issuer (a b : TrustKey) : comparison := str_cmp (ky_issuer a) (ky_issuer b).
Definition keys_of (set : string) (t : RuleTables) : list TrustKey := sort_by by_issuer (List.filter (fun k => String.eqb (ky_set k) set) (trust_keys t)).
Definition active_trust_keys (set : string) (t : RuleTables) : list (string * list Z) :=
  map (fun k => (ky_issuer k, ky_public k)) (List.filter is_active (keys_of set t)).

(** ** Bundles *)

(** [ORDER BY version DESC LIMIT 1]. *)
Definition newer (m : option BundleRow) (b : BundleRow) : option BundleRow :=
  match m with Some c => if bu_version c <? bu_version b then Some b else m | None => Some b end.
Definition newest (set : string) (t : RuleTables) : option BundleRow :=
  fold_left newer (List.filter (fun b => String.eqb (bu_set b) set) (bundles t)) None.
Definition retire (set : string) (now : Z) (t : RuleTables) : bool * RuleTables :=
  let hit s := String.eqb (rs_id s) set && negb (is_retired s) in
  (existsb hit (rule_sets t),
   with_sets (map (fun s => if hit s then {| rs_id := rs_id s; rs_created_at := rs_created_at s; rs_retired_at := Some now |} else s)) t).

Inductive Served := NothingServed | UpToDate | ServedBundle (envelope : list Z).
Definition serve (set : string) (current : option Z) (t : RuleTables) : Served :=
  match set_row set t, newest set t with
  | Some s, Some b => if is_retired s then NothingServed else if default 0 current <? bu_version b then ServedBundle (bu_envelope b) else UpToDate
  | _, _ => NothingServed
  end.
(** [observation_bundles]: the newest nine of a set, or the one of a version. *)
Definition newer_first (a b : BundleRow) : comparison := Z.compare (bu_version b) (bu_version a).
Definition bundles_of (set : string) (t : RuleTables) : list BundleRow := sort_by newer_first (List.filter (fun b => String.eqb (bu_set b) set) (bundles t)).
Definition observation_bundles (set : string) (version : option Z) (t : RuleTables) : list (list Z) :=
  map bu_envelope (take 9 (List.filter (fun b => match version with Some v => bu_version b =? v | None => true end) (bundles_of set t))).

Record RuleSetRow := {
  rr_id : string; rr_created_at : Z; rr_retired_at : option Z; rr_current_version : option Z; rr_current_expires_at_ms : option Z;
  rr_current_issuer : option string; rr_current_signer_removed : bool; rr_trusted_keys : Z;
}.
Definition set_summary (t : RuleTables) (s : SetRow) : RuleSetRow :=
  let b := newest (rs_id s) t in
  {| rr_id := rs_id s; rr_created_at := rs_created_at s; rr_retired_at := rs_retired_at s; rr_current_version := bu_version <$> b;
     rr_current_expires_at_ms := bu_expires_at_ms <$> b; rr_current_issuer := bu_issuer <$> b;
     rr_current_signer_removed := match b with Some b => existsb (fun k => at_key (rs_id s) (bu_issuer b) k && negb (is_active k)) (trust_keys t) | None => false end;
     rr_trusted_keys := Z.of_nat (length (active_trust_keys (rs_id s) t)) |}.
Definition list_sets (t : RuleTables) : list RuleSetRow := map (set_summary t) (sort_by (fun a b => str_cmp (rs_id a) (rs_id b)) (rule_sets t)).

(** ** Publishing: [publish_inner], one statement per step *)

Record NewBundle := {
  nb_set : string; nb_version : Z; nb_envelope : list Z; nb_sha256 : list Z; nb_issuer : string; nb_created_at_ms : Z; nb_expires_at_ms : Z; nb_published_by : string;
}.
Inductive Published := Stored | Unchanged | VersionConflict | NotAboveCurrent (current : Z) | PublishedRetired | UnknownSetPublished | UntrustedIssuer.
(** The next statement; [None] at the end: the database failed. *)
Inductive PublishStage := PLock | PSet | PVersion | PMax | PTrust | PInsert | PEnd (r : option Published).

(** The constraints of [rule_bundles]. *)
Definition bundle_stored (b : NewBundle) (t : RuleTables) : bool :=
  (0 <? nb_version b) && (1 <=? length (nb_envelope b))%nat && (Z.of_nat (length (nb_envelope b)) <=? 1048576) && (length (nb_sha256 b) =? 32)%nat
  && is_some (set_row (nb_set b) t) && negb (is_some (bundle_of (nb_set b) (nb_version b) t)).
Definition new_row (b : NewBundle) (now : Z) : BundleRow :=
  {| bu_set := nb_set b; bu_version := nb_version b; bu_envelope := nb_envelope b; bu_sha256 := nb_sha256 b; bu_issuer := nb_issuer b;
     bu_created_at_ms := nb_created_at_ms b; bu_expires_at_ms := nb_expires_at_ms b; bu_published_at := now; bu_published_by := nb_published_by b |}.
Definition bundle_name (set : string) (version : Z) : string := set +:+ " v" +:+ pretty version.
Definition audit_published (actor : option string) (b : NewBundle) (result : string) (t : RuleTables) : RuleTables :=
  match actor with
  | Some actor => add_log {| rl_actor := actor; rl_action := "rule_bundle.published"; rl_target := bundle_name (nb_set b) (nb_version b); rl_result := result |} t
  | None => t
  end.
Definition publish_step (b : NewBundle) (actor : option string) (now : Z) (ok : bool) (st : PublishStage) (t : RuleTables) : PublishStage * RuleTables :=
  if negb ok then (match st with PEnd _ => st | _ => PEnd None end, t)
  else match st with
  | PLock => (PSet, t)
  | PSet =>
      (match set_row (nb_set b) t with
       | None => PEnd (Some UnknownSetPublished)
       | Some s => if is_retired s then PEnd (Some PublishedRetired) else PVersion
       end, t)
  | PVersion =>
      match bundle_of (nb_set b) (nb_version b) t with
      | None => (PMax, t)
      | Some row => if bytes_eqb (bu_envelope row) (nb_envelope b) then (PEnd (Some Unchanged), audit_published actor b "unchanged" t) else (PEnd (Some VersionConflict), t)
      end
  | PMax =>
      (match newest (nb_set b) t with
       | Some c => if nb_version b <=? bu_version c then PEnd (Some (NotAboveCurrent (bu_version c))) else PTrust
       | None => PTrust
       end, t)
  | PTrust => (match key_row (nb_set b) (nb_issuer b) t with Some k => if is_active k then PInsert else PEnd (Some UntrustedIssuer) | None => PEnd (Some UntrustedIssuer) end, t)
  | PInsert => if bundle_stored b t then (PEnd (Some Stored), audit_published actor b "success" (add_bundle (new_row b now) t)) else (PEnd None, t)
  | PEnd r => (PEnd r, t)
  end.

(** ** The agent's crates (openvibes_core, openvibes_rules) *)

(** [SignedRuleEnvelope]; its schema version and encoding have one value each. *)
Record Envelope := {
  en_set : string; en_version : Z; en_issuer : string; en_created_at : Z; en_expires_at : Z;
  en_payload_sha256_hex : string; en_payload : string; en_signature : string;
}.
(** A trusted key: the set, the issuer, the public key. *)
Notation TrustedKey := (string * string * list Z)%type.

Record AgentCrates := {
  RuleSet : Type;
  Rule : Type;
  VerifiedRules : Type;
  is_identifier : string -> bool;
  read_rule_set : string -> option RuleSet;
  rule_set_valid : RuleSet -> bool;
  rules_in : RuleSet -> list Rule;
  is_process_event : Rule -> bool;
  programs_of : Rule -> option (list string);
  read_envelope : list Z -> option Envelope;
  write_envelope : Envelope -> option (list Z);
  signing_preimage : Envelope -> option (list Z);
  trusted_key_valid : TrustedKey -> bool;
  (** [RuleLoader::new] and [load_json], with no version accepted before: the keys, the bytes, the set expected, the time. *)
  load_json : list TrustedKey -> list Z -> string -> Z -> option VerifiedRules;
  event_rules_compile : VerifiedRules -> bool;
}.

(** ** The console's checks and the handlers that publish *)

Section publish.
Context (cr : Crypto) (ac : AgentCrates).

(** [verify_console_rule_envelope]: past its statement, with the keys read. *)
Definition trusted_keys (set : string) (keys : list (string * list Z)) : option (list TrustedKey) :=
  mapM (fun k => if is_identifier ac k.1 && trusted_key_valid ac (set, k.1, k.2) then Some (set, k.1, k.2) else None) keys.
Definition readable (bytes : list Z) : option Envelope :=
  if (length bytes =? 0)%nat || (1048576 <? Z.of_nat (length bytes)) then None else read_envelope ac bytes.
Definition verify_console_rule_envelope (bytes : list Z) (keys : list (string * list Z)) (now_ms : Z) : option (Envelope * list Z) :=
  e ← readable bytes;
  trusted ← trusted_keys (en_set e) keys;
  _ ← load_json ac trusted bytes (en_set e) now_ms;
  Some (e, sha256 cr bytes).

(** Who publishes, past the permission checks: the console's upload with its preview token, the command with a file, or the drafts of a set with what
    the signer answered. *)
Inductive Path := Upload (actor : string) (preview : option string) | Command (actor : string) | Drafts (actor set : string).
Inductive PublishAnswer :=
  | Created | NoContent | PreviewRequired | InvalidEnvelope | OutOfRange | StalePreview | Conflicted (r : Published) | PublishUnavailable.
(** The drafts' publish takes anything but a stored bundle as a stale version. *)
Definition answer_published (p : Path) (r : option Published) : PublishAnswer :=
  match p, r with
  | _, Some Stored => Created
  | (Upload _ _ | Command _), Some Unchanged => NoContent
  | _, Some r => Conflicted r
  | _, None => PublishUnavailable
  end.

Definition path_actor (p : Path) : string := match p with Upload a _ | Command a | Drafts a _ => a end.
(** [publish] writes no audit row; [publish_and_audit] does. *)
Definition path_audit (p : Path) : option string := match p with Upload a _ | Drafts a _ => Some a | Command _ => None end.
Definition path_set (p : Path) (e : Envelope) : string := match p with Drafts _ set => set | _ => en_set e end.
Definition preview_ok (p : Path) (hash : list Z) : bool :=
  match p with Upload _ (Some preview) => String.eqb preview (hex hash) | Upload _ None => false | _ => true end.
Definition bundle_from (p : Path) (bytes : list Z) (e : Envelope) (hash : list Z) : NewBundle :=
  {| nb_set := path_set p e; nb_version := en_version e; nb_envelope := bytes; nb_sha256 := hash; nb_issuer := en_issuer e;
     nb_created_at_ms := en_created_at e; nb_expires_at_ms := en_expires_at e; nb_published_by := path_actor p |}.

(** A publisher: before its keys are read, with them, in the transaction, answered. *)
Inductive PublisherStage := HKeys | HVerify (keys : list (string * list Z)) | HPublish (b : NewBundle) (st : PublishStage) | HDone (a : PublishAnswer).
Record Publisher := { pb_path : Path; pb_bytes : list Z; pb_stage : PublisherStage }.
Definition at_stage (p : Publisher) (st : PublisherStage) : Publisher := {| pb_path := pb_path p; pb_bytes := pb_bytes p; pb_stage := st |}.

Definition verify_step (p : Path) (bytes : list Z) (keys : list (string * list Z)) (now_ms : Z) : PublisherStage :=
  match verify_console_rule_envelope bytes keys now_ms with
  | None => HDone InvalidEnvelope
  | Some (e, hash) =>
      if negb (preview_ok p hash) then HDone StalePreview
      else if i64_max <? en_version e then HDone OutOfRange
      else HPublish (bundle_from p bytes e hash) PLock
  end.
Definition arrive (p : Path) (bytes : list Z) : Publisher :=
  {| pb_path := p; pb_bytes := bytes; pb_stage := match p with Upload _ None => HDone PreviewRequired | _ => HKeys end |}.
Definition publisher_step (now : Z) (ok : bool) (p : Publisher) (t : RuleTables) : Publisher * RuleTables :=
  match pb_stage p with
  | HKeys =>
      (at_stage p (match readable (pb_bytes p) with
                   | None => HDone InvalidEnvelope
                   | Some e => if ok then HVerify (active_trust_keys (en_set e) t) else HDone InvalidEnvelope
                   end), t)
  | HVerify keys => (at_stage p (verify_step (pb_path p) (pb_bytes p) keys (now / 1000)), t)
  | HPublish b st =>
      let '(st', t') := publish_step b (path_audit (pb_path p)) now ok st t in
      (at_stage p (match st' with PEnd r => HDone (answer_published (pb_path p) r) | _ => HPublish b st' end), t')
  | HDone _ => (p, t)
  end.

(** The locks a publisher's transaction holds: its set's, and its issuer's key shared. *)
Definition locks_set (set : string) (p : Publisher) : bool :=
  match pb_stage p with HPublish b (PSet | PVersion | PMax | PTrust | PInsert) => String.eqb (nb_set b) set | _ => false end.
Definition wants_set (p : Publisher) : option string := match pb_stage p with HPublish b PLock => Some (nb_set b) | _ => None end.
Definition holds_key (set issuer : string) (p : Publisher) : bool :=
  match pb_stage p with HPublish b PInsert => String.eqb (nb_set b) set && String.eqb (nb_issuer b) issuer | _ => false end.

(** The preview, while the database answers. *)
Record Preview := { pv_set : string; pv_version : Z; pv_issuer : string; pv_expires_at_ms : Z; pv_token : string; pv_current : option Z }.
Definition preview (actor : string) (bytes : list Z) (now_ms : Z) (t : RuleTables) : PublishAnswer + (Preview * RuleTables) :=
  match readable bytes ≫= (fun e => verify_console_rule_envelope bytes (active_trust_keys (en_set e) t) now_ms) with
  | None => inl InvalidEnvelope
  | Some (e, hash) =>
      if i64_max <? en_version e then inl OutOfRange
      else inr ({| pv_set := en_set e; pv_version := en_version e; pv_issuer := en_issuer e; pv_expires_at_ms := en_expires_at e; pv_token := hex hash;
                   pv_current := find (fun r => String.eqb (rr_id r) (en_set e)) (list_sets t) ≫= rr_current_version |},
                add_log {| rl_actor := actor; rl_action := "rule_bundle.previewed"; rl_target := bundle_name (en_set e) (en_version e); rl_result := "success" |} t)
  end.

(** ** What an agent gets (openvibes-distribution) *)

Inductive BundleAnswer := BundleEnvelope (bytes : list Z) | BundleUpToDate | BundleNotFound | BundleGone.
(** [i64::try_from(version).unwrap_or(i64::MAX)]. *)
Definition clamped (version : Z) : Z := if i64_max <? version then i64_max else version.
Definition rule_bundle (agent set : string) (current_version : option Z) (g : GroupTables) (t : RuleTables) : BundleAnswer :=
  match serve set (clamped <$> current_version) t with
  | NothingServed => BundleNotFound
  | s =>
      if negb (assigned agent set g) then BundleGone
      else match s with UpToDate => BundleUpToDate | ServedBundle bytes => BundleEnvelope bytes | NothingServed => BundleNotFound end
  end.
End publish.
