(* ===== verification/RuleSign.v ===== *)
(** * Rules: the signer (openvibes-signer; platform-store/src/signer.rs); below, the site's drafts

    What a request asks and is answered, the signer's files and memory, the checks and the signature, and a request as a
    machine of one database statement or one hold of the signer's lock per step.  A write ends in one of three ways; a
    crash is a restart after any step, so also after a write that failed half way. *)
From S2P Require Import Prelude RustStd Text BTree Json AccessRules AccessDb AccessOps SignData SignDb Lines SsoDb RulePub.
From stdpp Require Import prelude strings list pretty.
From Stdlib Require Import Ascii ZArith Lia.

Open Scope Z_scope.

(** ** The wire (request.rs) and the configuration (config.rs) *)

Definition SITE : string := "site".
Definition SITE_ALARMS : string := "site-alarms".

Record SignRequest := { sq_username : string; sq_password : string; sq_rule_set : string; sq_rules : string }.
Inductive Refusal := Credentials | Throttled | Forbidden | Limits | InvalidRequest | Rate | VersionState | Unavailable.
Definition code (r : Refusal) : string :=
  match r with
  | Credentials => "credentials" | Throttled => "throttled" | Forbidden => "forbidden" | Limits => "limits"
  | InvalidRequest => "invalid" | Rate => "rate" | VersionState => "version_state" | Unavailable => "unavailable"
  end.
(** The derived order. *)
Definition refusal_index (r : Refusal) : Z :=
  match r with Credentials => 0 | Throttled => 1 | Forbidden => 2 | Limits => 3 | InvalidRequest => 4 | Rate => 5 | VersionState => 6 | Unavailable => 7 end.
Definition refusal_cmp : Refusal -> Refusal -> comparison := cmp_on refusal_index Z.compare.
Inductive SignResponse := ResponseSigned (envelope : string) (version expires_at_unix_ms : Z) | ResponseRefused (code : Refusal).

Record SignerConfig := {
  sc_socket : string; sc_key_file : string; sc_state_dir : string; sc_issuer_key_id : string;
  sc_publishes_per_hour : Z; sc_rules_per_publish : Z; sc_validity_days : Z;
}.
Definition in_limits (lo hi x : Z) : bool := (lo <=? x) && (x <=? hi).
(** [is_absolute]: from the root. *)
Definition config_check (ac : AgentCrates) (c : SignerConfig) : bool :=
  forallb (fun p => RustStd.starts_with p "/") [sc_socket c; sc_key_file c; sc_state_dir c]
  && in_limits 1 1000 (sc_publishes_per_hour c) && in_limits 1 10000 (sc_rules_per_publish c) && in_limits 1 3650 (sc_validity_days c)
  && is_identifier ac (sc_issuer_key_id c).

(** ** The state (state.rs) *)

Definition HOUR_MS : Z := 3600000.
Definition DAY_MS : Z := 24 * HOUR_MS.

Record SetState := { ss_version : Z; ss_expires_at_unix_ms : option Z }.
Notation Sets := (list (string * SetState)).

Record Status := {
  su_updated_at_unix_ms : Z; su_version_state : bool; su_sets : option Sets; su_publishes_last_hour : Z; su_refusals_last_day : list (string * Z);
}.
(** [versions.json]: absent, not readable as a map of the sets, or one. *)
Inductive VersionsFile := NoFile | BadFile | Versions (sets : Sets).
Record Disk := { versions_file : VersionsFile; rules_files : list (string * string); status_file : option Status }.
(** [write_atomic]: done; failed with the file as it was; or failed past the rename. *)
Inductive Written := WroteAll | WroteNothing | NotSynced.

Record State := {
  sets : option Sets; publishes : list Z; refusals : list (Z * list (Refusal * Z)); dirty : bool; written_at_ms : Z;
}.

Definition open (d : Disk) : State :=
  {| sets := match versions_file d with
             | Versions m => if bt_contains str_cmp SITE m && bt_contains str_cmp SITE_ALARMS m then Some m else None
             | _ => None
             end;
     publishes := []; refusals := []; dirty := true; written_at_ms := i64_min |}.

Definition write_versions (w : Written) (m : Sets) (d : Disk) : Disk :=
  match w with WroteNothing => d | _ => {| versions_file := Versions m; rules_files := rules_files d; status_file := status_file d |} end.
Definition write_rules (w : Written) (set payload : string) (d : Disk) : Disk :=
  match w with
  | WroteNothing => d
  | _ => {| versions_file := versions_file d; rules_files := bt_insert str_cmp set payload (rules_files d); status_file := status_file d |}
  end.

Inductive Seeded := SeedCreated | SeedKept | SeedReplaced.
(** [inl tt]: an error. *)
Definition seed (w : Written) (min_version : Z) (d : Disk) : (unit + Seeded) * Disk :=
  if min_version =? 0 then (inl tt, d)
  else
    let existed := match versions_file d with NoFile => false | _ => true end in
    if existed && is_some (sets (open d)) then (inr SeedKept, d)
    else
      let last := {| ss_version := min_version - 1; ss_expires_at_unix_ms := None |} in
      (match w with WroteAll => inr (if existed then SeedReplaced else SeedCreated) | _ => inl tt end,
       write_versions w [(SITE, last); (SITE_ALARMS, last)] d).

Definition next_version (rule_set : string) (s : State) : option Z :=
  m ← sets s; v ← bt_get str_cmp rule_set m; u64_checked_add (ss_version v) 1.

Fixpoint drop_old (now_ms : Z) (l : list Z) : list Z :=
  match l with at_ :: l' => if at_ <=? now_ms - HOUR_MS then drop_old now_ms l' else l | [] => [] end.
Definition publishes_this_hour (now_ms : Z) (s : State) : Z * State :=
  let l := drop_old now_ms (publishes s) in
  (Z.of_nat (length l), {| sets := sets s; publishes := l; refusals := refusals s; dirty := dirty s; written_at_ms := written_at_ms s |}).

(** The result is whether the envelope may be used. *)
Definition record_signed (w1 w2 : Written) (rule_set : string) (version expires : Z) (payload : string) (now_ms : Z) (s : State) (d : Disk)
    : bool * State * Disk :=
  match sets s with
  | None => (false, s, d)
  | Some m =>
      let m := bt_insert str_cmp rule_set {| ss_version := version; ss_expires_at_unix_ms := Some expires |} m in
      let d := write_rules w1 rule_set payload d in
      match w1 with
      | WroteAll =>
          let d := write_versions w2 m d in
          match w2 with
          | WroteAll => (true, {| sets := Some m; publishes := publishes s ++ [now_ms]; refusals := refusals s; dirty := true; written_at_ms := i64_min |}, d)
          | _ => (false, s, d)
          end
      | _ => (false, s, d)
      end
  end.

Definition plus_one (o : option Z) : Z := default 0 o + 1.
Definition record_refusal (r : Refusal) (now_ms : Z) (s : State) : State :=
  {| sets := sets s; publishes := publishes s;
     refusals := bt_alter Z.compare (now_ms - now_ms mod HOUR_MS) (fun o => bt_alter refusal_cmp r plus_one (default [] o)) (refusals s);
     dirty := true; written_at_ms := written_at_ms s |}.

(** The counts of the last day by code. *)
Definition add_code (m : list (string * Z)) (e : Refusal * Z) : list (string * Z) := bt_alter str_cmp (code e.1) (fun o => default 0 o + e.2) m.
Definition refusals_by_code (l : list (Z * list (Refusal * Z))) : list (string * Z) := fold_left add_code (flat_map snd l) [].
Definition write_status (w : Written) (now_ms : Z) (flush : bool) (s : State) (d : Disk) : State * Disk :=
  let due := 1000 <=? i64_sat (now_ms - written_at_ms s) in
  if negb (dirty s) || negb (flush || due) then (s, d)
  else
    let kept := List.filter (fun e => now_ms - DAY_MS - HOUR_MS <? e.1) (refusals s) in
    let '(count, s) := publishes_this_hour now_ms {| sets := sets s; publishes := publishes s; refusals := kept; dirty := dirty s; written_at_ms := written_at_ms s |} in
    let status := {| su_updated_at_unix_ms := now_ms; su_version_state := is_some (sets s); su_sets := sets s; su_publishes_last_hour := count;
                     su_refusals_last_day := refusals_by_code kept |} in
    let d' := match w with WroteNothing => d | _ => {| versions_file := versions_file d; rules_files := rules_files d; status_file := Some status |} end in
    (match w with
     | WroteAll => {| sets := sets s; publishes := publishes s; refusals := refusals s; dirty := false; written_at_ms := now_ms |}
     | _ => s
     end, d').

(** ** Checking and signing (sign.rs) *)

Definition RULE_PROGRAMS : Z := 8.
Definition SET_PROGRAMS : Z := 32.

Section sign.
Context (cr : Crypto) (ac : AgentCrates).
(** The site key: the signature of a message, and the public half. *)
Context (key_sign : list Z -> list Z) (verifying_key : list Z).
Context (parse_request : list Z -> option SignRequest) (dummy_password_phc : option string) (config : SignerConfig).

Definition named_programs (r : Rule ac) : list string := bs_of_list str_cmp (default [] (programs_of ac r)).
(** The loop over the alarm rules: the programs named by all. *)
Fixpoint all_programs (l : list (Rule ac)) (all : list string) : option (list string) :=
  match l with
  | [] => Some all
  | r :: l =>
      let named := named_programs r in
      if in_limits 1 RULE_PROGRAMS (Z.of_nat (length named)) then all_programs l (bs_of_list str_cmp (all ++ named)) else None
  end.
(** [None]: fine. *)
Definition check_rules (rule_set payload : string) (max_rules : Z) : option Refusal :=
  match read_rule_set ac payload with
  | None => Some InvalidRequest
  | Some rs =>
      let rules := rules_in ac rs in
      let alarms := String.eqb rule_set SITE_ALARMS in
      if negb (rule_set_valid ac rs) then Some InvalidRequest
      else if (length rules =? 0)%nat then Some InvalidRequest
      else if max_rules <? Z.of_nat (length rules) then Some Limits
      else if existsb (fun r => negb (Bool.eqb (is_process_event ac r) alarms)) rules then Some InvalidRequest
      else if negb alarms then None
      else match all_programs rules [] with
      | None => Some Limits
      | Some all => if SET_PROGRAMS <? Z.of_nat (length all) then Some Limits else None
      end
  end.

Record Signed := { sd_envelope : string; sd_expires_at_unix_ms : Z; sd_sha256 : string }.
(** The envelope before its signature. *)
Definition unsigned (issuer rule_set : string) (version : Z) (payload : string) (now_ms days : Z) : Envelope :=
  {| en_set := rule_set; en_version := version; en_issuer := issuer; en_created_at := now_ms; en_expires_at := now_ms + days * DAY_MS;
     en_payload_sha256_hex := hex (sha256 cr (bytes payload)); en_payload := payload; en_signature := EmptyString |}.
Definition with_signature (signature : string) (e : Envelope) : Envelope :=
  {| en_set := en_set e; en_version := en_version e; en_issuer := en_issuer e; en_created_at := en_created_at e; en_expires_at := en_expires_at e;
     en_payload_sha256_hex := en_payload_sha256_hex e; en_payload := en_payload e; en_signature := signature |}.
(** [None]: [Refusal::Invalid]. *)
Definition sign (issuer rule_set : string) (version : Z) (payload : string) (now_ms days : Z) : option Signed :=
  if negb (is_identifier ac rule_set && is_identifier ac issuer) then None
  else
    let e := unsigned issuer rule_set version payload now_ms days in
    preimage ← signing_preimage ac e;
    let e := with_signature (base64_encode cr (key_sign preimage)) e in
    bytes ← write_envelope ac e;
    if negb (trusted_key_valid ac (rule_set, issuer, verifying_key)) then None
    else
      verified ← load_json ac [(rule_set, issuer, verifying_key)] bytes rule_set now_ms;
      if negb (event_rules_compile ac verified) || negb (valid_utf8 bytes) then None
      else Some {| sd_envelope := of_bytes bytes; sd_expires_at_unix_ms := en_expires_at e; sd_sha256 := hex (sha256 cr bytes) |}.

(** ** Who asks (platform-store/src/signer.rs) *)

Record SignerUser := { sg_user_id : string; sg_password_phc : string; sg_enabled : bool; sg_must_change : bool }.
Definition signer_user (username : string) (t : SignTables) : option SignerUser :=
  u ← find (fun u => String.eqb (u_username u) username && is_some (u_password u)) (users (access t));
  phc ← u_password u;
  Some {| sg_user_id := u_id u; sg_password_phc := phc; sg_enabled := u_enabled u; sg_must_change := u_must_change u |}.
Definition may_upload_rules (user_id : string) (t : SignTables) : bool :=
  existsb (fun b => bool_decide (b_principal b = User user_id) && active b
                    && existsb (fun r => String.eqb (r_id r) (b_role b) && existsb (String.eqb "site_rules.publish") (r_permissions r)) (roles (access t)))
          (bindings (access t)).
(** [None]: [StoreError::Query]. *)
Definition record_signer_failure (bucket : list Z) (now window failure_limit lock_for : Z) (t : SignTables) : option SignTables :=
  if failure_limit <? 1 then None else Some (count_failure bucket now window failure_limit lock_for t).

(** ** A request (lib.rs) *)

Definition FAILURE_WINDOW_MINUTES : Z := 15.
Definition MAX_REQUEST : Z := 1048576.

(** The password against the account's credential, or the dummy one; [None]: unavailable. *)
Definition verify (password : string) (account : option SignerUser) : option bool :=
  phc ← match account with Some a => Some (sg_password_phc a) | None => dummy_password_phc end;
  let bounded := for_verification cr password in
  let usable := match bounded with inr _ => true | inl _ => false end in
  password ← match bounded with
             | inr p => Some p
             | inl _ => match for_verification cr "invalid bounded input" with inr p => Some p | inl _ => None end
             end;
  Some (usable && is_some account && match verify_password cr password phc with Some v => valid v | None => false end).

Record Ask := { ak_request : SignRequest; ak_user : option string; ak_now : Z }.
(** Milliseconds; the database has microseconds. *)
Definition now_ms (now : Z) : Z := now / 1000.
Definition bucket_of (a : Ask) : list Z := account_throttle_bucket cr (default EmptyString (ak_user a)).

Definition Outcome : Type := Refusal + (Signed * Z * Z).
Inductive SignStage :=
  | GFast | GPool | GThrottle | GUser | GVerify (account : option SignerUser) | GFailure | GPermission (account : SignerUser) | GSign (account : SignerUser)
  | GAnswer (outcome : Outcome) | GDone (r : SignResponse).

(** How the step's statement and writes go. *)
Record Fate := { ft_ok : bool; ft_rules : Written; ft_versions : Written; ft_status : Written }.

(** The checks, the version, the signature and its record, under one hold of the lock. *)
Definition sign_and_record (a : Ask) (f : Fate) (s : State) (d : Disk) : Outcome * State * Disk :=
  let r := ak_request a in
  let now_ms := now_ms (ak_now a) in
  match check_rules (sq_rule_set r) (sq_rules r) (sc_rules_per_publish config) with
  | Some refusal => (inl refusal, s, d)
  | None =>
      let '(count, s) := publishes_this_hour now_ms s in
      if sc_publishes_per_hour config <=? count then (inl Rate, s, d)
      else match next_version (sq_rule_set r) s with
      | None => (inl VersionState, s, d)
      | Some version =>
          match sign (sc_issuer_key_id config) (sq_rule_set r) version (sq_rules r) now_ms (sc_validity_days config) with
          | None => (inl InvalidRequest, s, d)
          | Some signed =>
              let '(ok, s, d) := record_signed (ft_rules f) (ft_versions f) (sq_rule_set r) version (sd_expires_at_unix_ms signed) (sq_rules r) now_ms s d in
              let rules := match read_rule_set ac (sq_rules r) with Some rs => Z.of_nat (length (rules_in ac rs)) | None => 0 end in
              (if ok then inr (signed, version, rules) else inl Unavailable, s, d)
          end
      end
  end.

Definition response (o : Outcome) : SignResponse :=
  match o with
  | inr (signed, version, _) => ResponseSigned (sd_envelope signed) version (sd_expires_at_unix_ms signed)
  | inl r => ResponseRefused r
  end.
(** [handle] past the outcome: counted when refused, the status written. *)
Definition answer_step (o : Outcome) (now_ms : Z) (w : Written) (s : State) (d : Disk) : State * Disk :=
  write_status w now_ms false (match o with inl r => record_refusal r now_ms s | inr _ => s end) d.

Definition unavailable : SignStage := GAnswer (inl Unavailable).
Definition ask_step (a : Ask) (f : Fate) (st : SignStage) (s : State) (d : Disk) (t : SignTables) : SignStage * State * Disk * SignTables :=
  let r := ak_request a in
  let same st := (st, s, d, t) in
  match st with
  | GFast =>
      same (if negb (String.eqb (sq_rule_set r) SITE) && negb (String.eqb (sq_rule_set r) SITE_ALARMS) then GAnswer (inl InvalidRequest)
            else if is_some (next_version (sq_rule_set r) s) then GPool else GAnswer (inl VersionState))
  | GPool => same (if ft_ok f then GThrottle else unavailable)
  | GThrottle =>
      same (if negb (ft_ok f) then unavailable
            else if login_is_throttled [bucket_of a] (ak_now a) t then GAnswer (inl Throttled)
            else if is_some (ak_user a) then GUser else GVerify None)
  | GUser => same (match ak_user a with
                   | Some user => if ft_ok f then GVerify (signer_user user t) else unavailable
                   | None => GVerify None
                   end)
  | GVerify account =>
      same (if negb (ft_ok f) then unavailable
            else match verify (sq_password r) account, account with
            | None, _ => unavailable
            | Some true, Some acc => if sg_enabled acc then GPermission acc else GFailure
            | Some _, _ => if is_some (ak_user a) then GFailure else GAnswer (inl Credentials)
            end)
  | GFailure =>
      if negb (ft_ok f) then same unavailable
      else match record_signer_failure (bucket_of a) (ak_now a) (minutes FAILURE_WINDOW_MINUTES) ACCOUNT_FAILURE_LIMIT (minutes FAILURE_WINDOW_MINUTES) t with
      | Some t' => (GAnswer (inl Credentials), s, d, t')
      | None => same unavailable
      end
  | GPermission acc =>
      same (if sg_must_change acc then GAnswer (inl Forbidden)
            else if negb (ft_ok f) then unavailable
            else if may_upload_rules (sg_user_id acc) t then GSign acc else GAnswer (inl Forbidden))
  | GSign _ => let '(o, s, d) := sign_and_record a f s d in (GAnswer o, s, d, t)
  | GAnswer o => let '(s, d) := answer_step o (now_ms (ak_now a)) (ft_status f) s d in (GDone (response o), s, d, t)
  | GDone resp => same (GDone resp)
  end.

(** A connection: what arrived in time, if it did. *)
Definition connection (body : option (list Z)) (now : Z) : Ask * SignStage :=
  let none := {| ak_request := {| sq_username := EmptyString; sq_password := EmptyString; sq_rule_set := EmptyString; sq_rules := EmptyString |};
                 ak_user := None; ak_now := now |} in
  match body with
  | Some body =>
      if MAX_REQUEST <? Z.of_nat (length body) then (none, GDone (ResponseRefused InvalidRequest))
      else match parse_request body with
      | Some r => ({| ak_request := r; ak_user := sign_in_username (sq_username r); ak_now := now |}, GFast)
      | None => (none, GAnswer (inl InvalidRequest))
      end
  | None => (none, GDone (ResponseRefused InvalidRequest))
  end.
End sign.

(** * Rules: the site's drafts and what the rules cover

    platform-store/src/rule_drafts.rs (migration 0042); src/rules/drafts.rs, draft_check.rs, draft_publish.rs (up to the signer) and
    coverage.rs of openvibes-console.  The agent's rule type, its validation and its expression compiler are [DraftCrates];
    the ATT&CK release is the data file's catalog. *)

(** ** The editor's input, and a rule as JSON *)

Record AttackRef := { tactic : string; technique : option string }.
Record RuleDraftInput := {
  ri_title : string; ri_severity : string; ri_confidence : Z; ri_expression : string; ri_finding_message : string;
  ri_programs : option (list string); ri_attack : option (list AttackRef);
}.
Record RuleProblem := { rp_field : string; rp_message : string }.

Definition known_set (rule_set_id : string) : bool := String.eqb rule_set_id SITE || String.eqb rule_set_id SITE_ALARMS.
Definition pair_json (p : AttackRef) : value :=
  JObject (("tactic", JString (tactic p)) :: match technique p with Some t => [("technique", JString t)] | None => [] end).
(** Members in key order. *)
Definition rule_json (rule_set_id rule_id : string) (version : Z) (i : RuleDraftInput) : value :=
  let alarm := String.eqb rule_set_id SITE_ALARMS in
  JObject (
    (match ri_attack i with Some (p :: l) => [("attack", JArray (map pair_json (p :: l)))] | _ => [] end)
    ++ [("confidence", JPosInt (ri_confidence i)); ("expression", JString (ri_expression i)); ("finding_message", JString (ri_finding_message i)); ("id", JString rule_id)]
    ++ (if alarm then [("kind", JString "process_event"); ("programs", JArray (map JString (default [] (ri_programs i))))] else [])
    ++ [("severity", JString (ri_severity i)); ("title", JString (ri_title i)); ("version", JPosInt version)]).

(** ** ATT&CK *)

Record Technique := { te_id : string; te_name : string; te_tactics : list string }.
Record Catalog := { ca_version : string; ca_tactics : list string; ca_techniques : list Technique }.

Definition phase (t : string) : string :=
  if String.eqb t "TA0043" then "Reconnaissance"
  else if String.eqb t "TA0042" then "Weaponization"
  else if String.eqb t "TA0001" then "Delivery"
  else if String.eqb t "TA0002" then "Exploitation"
  else if str_mem t ["TA0003"; "TA0004"; "TA0005"; "TA0112"] then "Installation"
  else if String.eqb t "TA0011" then "Command and Control"
  else if str_mem t ["TA0006"; "TA0007"; "TA0008"; "TA0009"; "TA0010"; "TA0040"] then "Actions on Objectives"
  else "Unmapped phase".

Record AttackPairView := { pv_tactic : string; pv_technique : option string; pv_technique_name : option string; pv_known : bool }.

Section attack.
Context (catalog : Catalog).
(** The index keeps the last technique of an id. *)
Definition technique_of (id : string) : option Technique := find (fun t => String.eqb (te_id t) id) (rev (ca_techniques catalog)).
Definition in_attack : string := " in ATT&CK " +:+ ca_version catalog.
Definition unknown_pair (p : AttackRef) : option string :=
  if negb (str_mem (tactic p) (ca_tactics catalog)) then Some (tactic p +:+ " is not a tactic" +:+ in_attack)
  else match technique p with
  | None => None
  | Some technique =>
      match technique_of technique with
      | None => Some (technique +:+ " is not a technique" +:+ in_attack)
      | Some t => if str_mem (tactic p) (te_tactics t) then None else Some (technique +:+ " is not under " +:+ tactic p +:+ in_attack)
      end
  end.
Definition pair_views (attack : option (list AttackRef)) : list AttackPairView :=
  map (fun p => {| pv_tactic := tactic p; pv_technique := technique p; pv_technique_name := te_name <$> (technique p ≫= technique_of);
                   pv_known := negb (is_some (unknown_pair p)) |}) (default [] attack).
End attack.

(** ** The stored drafts *)

Record Draft := { dr_set : string; dr_rule_id : string; dr_rule : value; dr_updated_by : string; dr_updated_at : Z }.
Definition at_draft (rule_set_id rule_id : string) (d : Draft) : bool := String.eqb (dr_set d) rule_set_id && String.eqb (dr_rule_id d) rule_id.
Definition get_draft (rule_set_id rule_id : string) (l : list Draft) : option Draft := find (at_draft rule_set_id rule_id) l.
(** The checks of the table. *)
Definition draft_stored (d : Draft) : bool := known_set (dr_set d) && in_limits 1 128 (char_count (dr_rule_id d)).
(** [None]: refused by the table. *)
Definition put_draft (d : Draft) (l : list Draft) : option (list Draft) :=
  if negb (draft_stored d) then None
  else Some (if is_some (get_draft (dr_set d) (dr_rule_id d) l) then map (fun x => if at_draft (dr_set d) (dr_rule_id d) x then d else x) l else l ++ [d]).
Definition delete_draft (rule_set_id rule_id : string) (l : list Draft) : bool * list Draft :=
  (existsb (at_draft rule_set_id rule_id) l, List.filter (fun d => negb (at_draft rule_set_id rule_id d)) l).

Section drafts.
Context (cr : Crypto) (ac : AgentCrates) (catalog : Catalog).
(** The order of PostgreSQL's text, and of a table's rows. *)
Context (collate : string -> string -> comparison).

Record DraftCrates := {
  severity_known : string -> bool;
  (** [inl]: the parser's error. *)
  rule_of_value : value -> string + Rule ac;
  rule_id_of : Rule ac -> string;
  rule_version : Rule ac -> Z;
  severity_name : Rule ac -> option string;
  attack_of : Rule ac -> option (list AttackRef);
  set_of_rules : list (Rule ac) -> RuleSet ac;
  (** The field and message of [validate]'s error. *)
  set_problem : RuleSet ac -> option (string * string);
  expression_problem : Rule ac -> option string;
  write_rule_set : RuleSet ac -> string;
  rules_equal : Rule ac -> Rule ac -> bool;
  verified_rules : VerifiedRules ac -> list (Rule ac);
}.
Context (dc : DraftCrates).

Definition list_drafts (rule_set_id : string) (l : list Draft) : list Draft :=
  sort_by (fun a b => collate (dr_rule_id a) (dr_rule_id b)) (List.filter (fun d => String.eqb (dr_set d) rule_set_id) l).

(** ** Checking (draft_check.rs) *)

Definition problem (field message : string) : RuleProblem := {| rp_field := field; rp_message := message |}.
Definition strip_rules (field : string) : string := default field (str_strip_prefix "rules." field).
Definition opt_problem (p : option RuleProblem) : list RuleProblem := match p with Some p => [p] | None => [] end.
Definition when (b : bool) (p : RuleProblem) : list RuleProblem := if b then [p] else [].

(** The programs of an alarm rule, against what the set's other drafts name. *)
Definition program_problems (r : Rule ac) (others : list string) : list RuleProblem :=
  let named := bs_of_list str_cmp (default [] (programs_of ac r)) in
  when (existsb is_empty (default [] (programs_of ac r))) (problem "programs" "a program name is empty")
  ++ when (negb (in_limits 1 RULE_PROGRAMS (Z.of_nat (length named)))) (problem "programs" "name one to 8 distinct programs")
  ++ when (SET_PROGRAMS <? Z.of_nat (length (bs_of_list str_cmp (named ++ others)))) (problem "programs" "a set may name at most 32 distinct programs").
Definition check (rule_set_id rule_id : string) (i : RuleDraftInput) (others : list string) : list RuleProblem :=
  let first :=
    when (negb (is_identifier ac rule_id)) (problem "id" "use letters, digits, dots, dashes and underscores, up to 128 characters")
    ++ when (is_some (ri_programs i) && negb (String.eqb rule_set_id SITE_ALARMS)) (problem "programs" "only alarm rules have a program prefilter")
    ++ when (negb (severity_known dc (ri_severity i))) (problem "severity" "use info, low, medium, high or critical")
    ++ when (100 <? ri_confidence i) (problem "confidence" "use a number from 0 to 100") in
  match first with
  | _ :: _ => first
  | [] =>
      match rule_of_value dc (rule_json rule_set_id rule_id 1 i) with
      | inl error => [problem "rule" error]
      | inr rule =>
          let problems :=
            opt_problem ((fun e => problem (strip_rules e.1) e.2) <$> set_problem dc (set_of_rules dc [rule]))
            ++ flat_map (fun p => opt_problem (problem "attack" <$> unknown_pair catalog p)) (default [] (attack_of dc rule))
            ++ opt_problem (problem "expression" <$> expression_problem dc rule) in
          problems ++ (if is_process_event ac rule && negb (existsb (fun p => String.eqb (rp_field p) "programs") problems) then program_problems rule others else [])
      end
  end.
Definition programs_at (d : Draft) : list string := omap as_str (default [] (get (dr_rule d) "programs" ≫= as_array)).
Definition other_programs (drafts : list Draft) (rule_id : string) : list string :=
  bs_of_list str_cmp (flat_map programs_at (List.filter (fun d => negb (String.eqb (dr_rule_id d) rule_id)) drafts)).

(** ** Saving (drafts.rs) *)

Definition MAX_DRAFTS : Z := 512.
Definition as_u64 (v : value) : option Z := match v with JPosInt n => Some n | _ => None end.
Definition next_draft_version (rule_set_id rule_id : string) (i : RuleDraftInput) (earlier : option Draft) : Z :=
  match earlier with
  | None => 1
  | Some d =>
      let before := default 0 (get (dr_rule d) "version" ≫= as_u64) in
      if bool_decide (rule_json rule_set_id rule_id before i = dr_rule d) then before else before + 1
  end.

Inductive DraftAnswer := DraftUnknownSet | DraftProblems (l : list RuleProblem) | TooManyRules | DraftSaved (d : Draft) | DraftUnavailable | DraftNotFound | DraftDeleted.
(** Past the permission: with the drafts read, what is stored with the audit target, if anything. *)
Definition prepare_save (rule_set_id rule_id : string) (i : RuleDraftInput) (actor : string) (now : Z) (read : list Draft) : DraftAnswer + Draft :=
  if negb (known_set rule_set_id) then inl DraftUnknownSet
  else
    let drafts := list_drafts rule_set_id read in
    match check rule_set_id rule_id i (other_programs drafts rule_id) with
    | (_ :: _) as problems => inl (DraftProblems problems)
    | [] =>
        let earlier := find (fun d => String.eqb (dr_rule_id d) rule_id) drafts in
        if negb (is_some earlier) && (MAX_DRAFTS <=? Z.of_nat (length drafts)) then inl TooManyRules
        else inr {| dr_set := rule_set_id; dr_rule_id := rule_id; dr_rule := rule_json rule_set_id rule_id (next_draft_version rule_set_id rule_id i earlier) i;
                    dr_updated_by := actor; dr_updated_at := now |}
    end.
Definition saved_target (d : Draft) : string :=
  dr_set d +:+ "/" +:+ dr_rule_id d +:+ " v" +:+ match get (dr_rule d) "version" ≫= as_u64 with Some v => pretty v | None => EmptyString end.
(** The whole handler when nothing comes between its statements. *)
Definition save_draft (rule_set_id rule_id : string) (i : RuleDraftInput) (actor : string) (now : Z) (l : list Draft) : DraftAnswer * list Draft :=
  match prepare_save rule_set_id rule_id i actor now l with
  | inl answer => (answer, l)
  | inr d => match put_draft d l with Some l' => (DraftSaved d, l') | None => (DraftUnavailable, l) end
  end.
Definition remove_draft (rule_set_id rule_id : string) (l : list Draft) : DraftAnswer * list Draft :=
  if negb (known_set rule_set_id) then (DraftUnknownSet, l)
  else let '(hit, l) := delete_draft rule_set_id rule_id l in (if hit then DraftDeleted else DraftNotFound, l).

(** ** What a publish would change (draft_publish.rs) *)

Record DraftChanges := { dg_published_version : option Z; dg_added : list string; dg_changed : list string; dg_removed : list string; dg_unchanged : nat }.
Definition PublishedRules : Type := Z * list (string * Rule ac).
(** [inl tt]: the stored bundle cannot be read. *)
Definition published_rules (rule_set_id : string) (t : RuleTables) : unit + option PublishedRules :=
  match serve rule_set_id None t with
  | ServedBundle bytes =>
      match read_envelope ac bytes with
      | None => inl tt
      | Some e =>
          match read_rule_set ac (en_payload e) with
          | None => inl tt
          | Some rs => if i64_max <? en_version e then inl tt
                       else inr (Some (en_version e, fold_left (fun m r => bt_insert str_cmp (rule_id_of dc r) r m) (rules_in ac rs) []))
          end
      end
  | _ => inr None
  end.
Definition rule_order (a b : Rule ac) : comparison := str_cmp (rule_id_of dc a) (rule_id_of dc b).
Definition draft_rules (drafts : list Draft) : option (list (Rule ac)) :=
  sort_by rule_order <$> mapM (fun d => match rule_of_value dc (dr_rule d) with inr r => Some r | inl _ => None end) drafts.
Definition add_change (before : list (string * Rule ac)) (out : DraftChanges) (r : Rule ac) : DraftChanges :=
  match bt_get str_cmp (rule_id_of dc r) before with
  | None => {| dg_published_version := dg_published_version out; dg_added := dg_added out ++ [rule_id_of dc r]; dg_changed := dg_changed out;
               dg_removed := dg_removed out; dg_unchanged := dg_unchanged out |}
  | Some old =>
      if rules_equal dc old r
      then {| dg_published_version := dg_published_version out; dg_added := dg_added out; dg_changed := dg_changed out; dg_removed := dg_removed out; dg_unchanged := S (dg_unchanged out) |}
      else {| dg_published_version := dg_published_version out; dg_added := dg_added out; dg_changed := dg_changed out ++ [rule_id_of dc r];
              dg_removed := dg_removed out; dg_unchanged := dg_unchanged out |}
  end.
Definition changes (published : option PublishedRules) (drafts : list (Rule ac)) : DraftChanges :=
  let before := match published with Some p => p.2 | None => [] end in
  let out := fold_left (add_change before) drafts
    {| dg_published_version := fst <$> published; dg_added := []; dg_changed := []; dg_removed := []; dg_unchanged := 0 |} in
  {| dg_published_version := dg_published_version out; dg_added := dg_added out; dg_changed := dg_changed out;
     dg_removed := List.filter (fun id => negb (existsb (fun r => String.eqb (rule_id_of dc r) id) drafts)) (map fst before); dg_unchanged := dg_unchanged out |}.
Definition nothing_changed (c : DraftChanges) : bool :=
  match dg_added c, dg_changed c, dg_removed c with [], [], [] => true | _, _, _ => false end.

(** The publish up to the signer: a refusal, or the name, the set and the rules it is asked to sign. *)
Inductive DraftPublish := PublishUnknownSet | PasswordRequired | PublishFailed | NoRules | NothingChanged | NoUser | TooLargeToAsk | AskSigner (request : SignRequest).
Definition SIGNER_MAX_REQUEST : Z := 1048576.
(** [write_request]: the request as JSON. *)
Definition publish_request (write_request : SignRequest -> list Z) (actor rule_set_id : string) (password : option string) (l : list Draft) (t : RuleTables) (people : Db) : DraftPublish :=
  if negb (known_set rule_set_id) then PublishUnknownSet
  else match password with
  | None => PasswordRequired
  | Some password =>
      match published_rules rule_set_id t, draft_rules (list_drafts rule_set_id l) with
      | inr published, Some rules =>
          if (length rules =? 0)%nat then NoRules
          else if nothing_changed (changes published rules) then NothingChanged
          else match user_by_id people actor with
          | None => NoUser
          | Some u =>
              let r := {| sq_username := u_username u; sq_password := password; sq_rule_set := rule_set_id; sq_rules := write_rule_set dc (set_of_rules dc rules) |} in
              if SIGNER_MAX_REQUEST <? Z.of_nat (length (write_request r)) then TooLargeToAsk else AskSigner r
          end
      | _, _ => PublishFailed
      end
  end.
(** What a refusal of the signer means to the person: the status and the code. *)
Definition refusal_answer (code : string) : Z * string :=
  if String.eqb code "credentials" then (403, "wrong_password")
  else if String.eqb code "throttled" then (429, "account_locked")
  else if String.eqb code "forbidden" then (403, "publish_not_allowed")
  else if String.eqb code "limits" then (422, "over_limit")
  else if String.eqb code "invalid" then (422, "rule_set_refused")
  else if String.eqb code "rate" then (429, "publish_rate")
  else (503, "signer_unavailable").

(** ** Coverage (coverage.rs) *)

Record CoverageRule := { cv_set : string; cv_rule : string; cv_kind : string; cv_severity : string; cv_draft : bool; cv_attack : list AttackPairView }.
Definition coverage_rule (set : string) (r : Rule ac) (draft : bool) : CoverageRule :=
  {| cv_set := set; cv_rule := rule_id_of dc r; cv_kind := if is_process_event ac r then "process_event" else "snapshot";
     cv_severity := default EmptyString (severity_name dc r); cv_draft := draft; cv_attack := pair_views catalog (attack_of dc r) |}.
Definition TEST_RULES : list (string * string) := [("baseline-alarms", "alarm.openvibes.test"); ("baseline", "test.openvibes.running")].
Definition is_test_rule (set rule : string) : bool := existsb (fun p => String.eqb p.1 set && String.eqb p.2 rule) TEST_RULES.
(** [None]: the bundle does not verify.  Keys that are none are left out. *)
Definition current_rules (set : string) (t : RuleTables) : option (list (Rule ac)) :=
  match serve set None t with
  | ServedBundle bytes =>
      if negb (is_identifier ac set) then None
      else
        let trusted := omap (fun k => if is_identifier ac k.1 && trusted_key_valid ac (set, k.1, k.2) then Some (set, k.1, k.2) else None) (active_trust_keys set t) in
        e ← read_envelope ac bytes;
        v ← load_json ac trusted bytes set (en_created_at e);
        Some (verified_rules dc v)
  | _ => Some []
  end.
(** The rules of the live sets, then the drafts; and the sets left out. *)
Definition rule_coverage (t : RuleTables) (l : list Draft) : list CoverageRule * list string :=
  let live := List.filter (fun s => negb (is_some (rr_retired_at s)) && is_some (rr_current_version s)) (list_sets t) in
  (flat_map (fun s => map (fun r => coverage_rule (rr_id s) r false)
                        (List.filter (fun r => negb (is_test_rule (rr_id s) (rule_id_of dc r))) (default [] (current_rules (rr_id s) t)))) live
   ++ flat_map (fun site => omap (fun d => match rule_of_value dc (dr_rule d) with inr r => Some (coverage_rule site r true) | inl _ => None end) (list_drafts site l)) [SITE; SITE_ALARMS],
   map rr_id (List.filter (fun s => negb (is_some (current_rules (rr_id s) t))) live)).
End drafts.
