(* ===== verification/RuleInv.v ===== *)
(** * Rules: every interleaving of the signer and of the publishers

    The signer's world has its memory, files and tables, the requests under way and, as ghosts, the tables of every
    time so far in order, what was signed, and the times recorded since the last start. *)
From S2P Require Import Prelude RustStd Text BTree Json AccessRules AccessDb SignData SignDb AgentDb GroupDb RuleAssign Lines SsoDb RulePub RuleSign.
From stdpp Require Import prelude strings list relations.
From Stdlib Require Import Ascii ZArith Lia Sorting.Sorted.

Open Scope Z_scope.

(** ** The signer *)

Record Release := { re_index : nat; re_since : nat; re_ask : Ask; re_account : SignerUser; re_version : Z; re_signed : Signed }.
Definition re_set (r : Release) : string := sq_rule_set (ak_request (re_ask r)).

Record SignWorld := {
  sw_state : State;
  sw_disk : Disk;
  sw_tables : SignTables;
  sw_seen : list SignTables;
  (** With the place in [sw_seen] of the tables there when it came. *)
  sw_asks : list (nat * Ask * option SignStage);
  sw_released : list Release;
  sw_recent : list Z;
  sw_clocks : list Z;
}.

Section signer.
Context (cr : Crypto) (ac : AgentCrates) (key_sign : list Z -> list Z) (verifying_key : list Z).
Context (parse_request : list Z -> option SignRequest) (dummy_password_phc : option string) (config : SignerConfig).
Notation ask_step := (ask_step cr ac key_sign verifying_key dummy_password_phc config).
Notation sign_and_record := (sign_and_record cr ac key_sign verifying_key config).
Notation connection := (connection parse_request).

Definition started (d : Disk) (t : SignTables) : SignWorld :=
  {| sw_state := open d; sw_disk := d; sw_tables := t; sw_seen := [t]; sw_asks := []; sw_released := []; sw_recent := []; sw_clocks := [] |}.
(** What a step of the request [i] at [st] that leads to [st'] signed. *)
Definition released_by (i n : nat) (a : Ask) (st st' : SignStage) : list Release :=
  match st, st' with
  | GSign acc, GAnswer (inr (signed, version, _)) => [{| re_index := i; re_since := n; re_ask := a; re_account := acc; re_version := version; re_signed := signed |}]
  | _, _ => []
  end.
Definition with_ask (i n : nat) (a : Ask) (st st' : SignStage) (s : State) (d : Disk) (t : SignTables) (w : SignWorld) : SignWorld :=
  {| sw_state := s; sw_disk := d; sw_tables := t; sw_seen := sw_seen w ++ [t]; sw_asks := <[i := (n, a, Some st')]> (sw_asks w);
     sw_released := sw_released w ++ released_by i n a st st'; sw_recent := sw_recent w ++ map (fun _ => now_ms (ak_now a)) (released_by i n a st st');
     sw_clocks := now_ms (ak_now a) :: sw_clocks w |}.

(** A connection the process leaves unanswered. *)
Definition cut (e : nat * Ask * option SignStage) : nat * Ask * option SignStage := (e.1, match e.2 with Some (GDone r) => Some (GDone r) | _ => None end).

Inductive sign_world_step : SignWorld -> SignWorld -> Prop :=
  | step_connect w body now : sign_world_step w
      {| sw_state := sw_state w; sw_disk := sw_disk w; sw_tables := sw_tables w; sw_seen := sw_seen w; sw_asks := sw_asks w ++ [(pred (length (sw_seen w)), (connection body now).1, Some (connection body now).2)];
         sw_released := sw_released w; sw_recent := sw_recent w; sw_clocks := sw_clocks w |}
  | step_ask w i n a st f st' s d t :
      sw_asks w !! i = Some (n, a, Some st) -> ask_step a f st (sw_state w) (sw_disk w) (sw_tables w) = (st', s, d, t) -> sign_world_step w (with_ask i n a st st' s d t w)
  (** The console and the commands change the tables. *)
  | step_tables w t : sign_world_step w
      {| sw_state := sw_state w; sw_disk := sw_disk w; sw_tables := t; sw_seen := sw_seen w ++ [t]; sw_asks := sw_asks w;
         sw_released := sw_released w; sw_recent := sw_recent w; sw_clocks := sw_clocks w |}
  | step_flush w wr now s d : write_status wr now true (sw_state w) (sw_disk w) = (s, d) -> sign_world_step w
      {| sw_state := s; sw_disk := d; sw_tables := sw_tables w; sw_seen := sw_seen w; sw_asks := sw_asks w;
         sw_released := sw_released w; sw_recent := sw_recent w; sw_clocks := now :: sw_clocks w |}
  | step_seed w wr min_version : 0 <= min_version -> sign_world_step w
      {| sw_state := sw_state w; sw_disk := (seed wr min_version (sw_disk w)).2; sw_tables := sw_tables w; sw_seen := sw_seen w; sw_asks := sw_asks w;
         sw_released := sw_released w; sw_recent := sw_recent w; sw_clocks := sw_clocks w |}
  (** A stop or a crash, and the next start. *)
  | step_restart w : sign_world_step w
      {| sw_state := open (sw_disk w); sw_disk := sw_disk w; sw_tables := sw_tables w; sw_seen := sw_seen w; sw_asks := map cut (sw_asks w);
         sw_released := sw_released w; sw_recent := []; sw_clocks := sw_clocks w |}.

(** *** What the operations on the state leave alone *)

Lemma drop_old_split now l : exists p, l = p ++ drop_old now l /\ Forall (fun x => x + HOUR_MS <= now) p.
Proof.
  induction l as [|x l (p & E & Hp)]; simpl; [by exists []|]. destruct (Z.leb_spec x (now - HOUR_MS)) as [Hx|Hx]; [|by exists []].
  exists (x :: p). simpl. split; [congruence|]. constructor; [lia|done].
Qed.
(** The publishes kept, after a count at [now] or none. *)
Definition counted (now : Z) (l l' : list Z) : Prop := l' = l \/ l' = drop_old now l.

Lemma write_status_frame w now flush s d s' d' : write_status w now flush s d = (s', d') ->
  sets s' = sets s /\ versions_file d' = versions_file d /\ counted now (publishes s) (publishes s').
Proof. unfold write_status, publishes_this_hour, counted. destruct (_ || _); [intros [= <- <-]; auto|]. destruct w; intros [= <- <-]; simpl; auto. Qed.
Lemma answer_step_frame o now w s d s' d' : answer_step o now w s d = (s', d') ->
  sets s' = sets s /\ versions_file d' = versions_file d /\ counted now (publishes s) (publishes s').
Proof. unfold answer_step. intros H%write_status_frame. by destruct o. Qed.

Definition new_sets (set : string) (v x : Z) (m : list (string * SetState)) : list (string * SetState) :=
  bt_insert str_cmp set {| ss_version := v; ss_expires_at_unix_ms := Some x |} m.

Inductive sign_outcome (a : Ask) (s : State) (d : Disk) : Outcome -> State -> Disk -> Prop :=
  | outcome_refused r s' d' :
      sets s' = sets s -> counted (now_ms (ak_now a)) (publishes s) (publishes s') ->
      versions_file d' = versions_file d
      \/ (exists m v x, sets s = Some m /\ next_version (sq_rule_set (ak_request a)) s = Some v /\ versions_file d' = Versions (new_sets (sq_rule_set (ak_request a)) v x m)) ->
      sign_outcome a s d (inl r) s' d'
  | outcome_signed m v x signed n s' d' :
      check_rules ac (sq_rule_set (ak_request a)) (sq_rules (ak_request a)) (sc_rules_per_publish config) = None ->
      sign cr ac key_sign verifying_key (sc_issuer_key_id config) (sq_rule_set (ak_request a)) v (sq_rules (ak_request a)) (now_ms (ak_now a)) (sc_validity_days config) = Some signed ->
      sets s = Some m -> next_version (sq_rule_set (ak_request a)) s = Some v ->
      sets s' = Some (new_sets (sq_rule_set (ak_request a)) v x m) -> versions_file d' = Versions (new_sets (sq_rule_set (ak_request a)) v x m) ->
      Z.of_nat (length (drop_old (now_ms (ak_now a)) (publishes s))) < sc_publishes_per_hour config ->
      publishes s' = drop_old (now_ms (ak_now a)) (publishes s) ++ [now_ms (ak_now a)] ->
      sign_outcome a s d (inr (signed, v, n)) s' d'.

Lemma sign_and_record_outcome a f s d o s' d' : sign_and_record a f s d = (o, s', d') -> sign_outcome a s d o s' d'.
Proof.
  unfold RuleSign.sign_and_record. destruct (check_rules _ _ _ _) eqn:Ec; [intros [= <- <- <-]; constructor; unfold counted; auto|].
  unfold publishes_this_hour. set (s1 := {| sets := sets s |}). destruct (Z.leb_spec (sc_publishes_per_hour config) (Z.of_nat (length (drop_old (now_ms (ak_now a)) (publishes s))))) as [|Hl].
  { intros [= <- <- <-]. constructor; unfold counted; auto. }
  destruct (next_version _ s1) as [v|] eqn:En; [|intros [= <- <- <-]; constructor; unfold counted; auto].
  assert (next_version (sq_rule_set (ak_request a)) s = Some v) as En' by done.
  destruct (sign _ _ _ _ _ _ _ _ _ _) as [signed|] eqn:Es; [|intros [= <- <- <-]; constructor; unfold counted; auto].
  unfold record_signed. simpl sets. destruct (sets s) as [m|] eqn:Em; [|intros [= <- <- <-]; constructor; unfold counted; auto].
  assert (forall f, versions_file (write_rules f (sq_rule_set (ak_request a)) (sq_rules (ak_request a)) d) = versions_file d) as Hf by (intros []; done).
  destruct (ft_rules f); [destruct (ft_versions f)|..]; intros [= <- <- <-]; try (constructor; unfold counted; simpl; auto; fail).
  - by eapply (outcome_signed a s d m v (sd_expires_at_unix_ms signed)).
  - constructor; unfold counted; simpl; auto. right. by exists m, v, (sd_expires_at_unix_ms signed).
Qed.

(** One step of a request, on the state and the files. *)
Inductive quiet (now : Z) (s : State) (d : Disk) (s' : State) (d' : Disk) : Prop :=
  quiet_step : sets s' = sets s -> versions_file d' = versions_file d -> counted now (publishes s) (publishes s') -> quiet now s d s' d'.
Lemma ask_step_cases i n a f st s d t st' s' d' t' : ask_step a f st s d t = (st', s', d', t') ->
  (quiet (now_ms (ak_now a)) s d s' d' /\ released_by i n a st st' = [] /\ forall acc, st <> GSign acc)
  \/ (exists acc o, st = GSign acc /\ st' = GAnswer o /\ t' = t /\ sign_outcome a s d o s' d').
Proof.
  unfold RuleSign.ask_step. destruct st; try (intros [= <- <- <- <-]; left; split; [by split; unfold counted; auto|done]).
  - destruct (negb (ft_ok f)); [|destruct (record_signer_failure _ _ _ _ _ _)]; intros [= <- <- <- <-]; (left; split; [by split; unfold counted; auto|done]).
  - destruct (sign_and_record a f s d) as [[o s1] d1] eqn:E. intros [= <- <- <- <-]. right. apply sign_and_record_outcome in E. eauto 10.
  - destruct (answer_step _ _ _ _ _) as [s1 d1] eqn:E. intros [= <- <- <- <-]. left. apply answer_step_frame in E as (? & ? & ?). by split.
Qed.

(** *** Versions *)

Definition good (m : list (string * SetState)) : Prop :=
  bt_sorted str_cmp m /\ bt_contains str_cmp SITE m = true /\ bt_contains str_cmp SITE_ALARMS m = true.
Definition covers (m : list (string * SetState)) (l : list Release) : Prop :=
  forall r, In r l -> exists v, bt_get str_cmp (re_set r) m = Some v /\ re_version r <= ss_version v.
Definition below (r1 r2 : Release) : Prop := re_set r1 = re_set r2 -> re_version r1 < re_version r2.

Record versions_inv (w : SignWorld) : Prop := {
  vi_memory : forall m, sets (sw_state w) = Some m -> good m /\ covers m (sw_released w);
  vi_disk : sw_released w <> [] -> exists m, versions_file (sw_disk w) = Versions m /\ good m /\ covers m (sw_released w);
  vi_file : forall m, versions_file (sw_disk w) = Versions m -> bt_sorted str_cmp m;
  vi_rise : StronglySorted below (sw_released w);
}.

Lemma new_sets_get set v x m : bt_sorted str_cmp m -> bt_get str_cmp set (new_sets set v x m) = Some {| ss_version := v; ss_expires_at_unix_ms := Some x |}.
Proof. intros. unfold new_sets, bt_insert. by rewrite (bt_get_alter_eq str_cmp). Qed.
Lemma new_sets_get_ne set set' v x m : set' <> set -> bt_get str_cmp set' (new_sets set v x m) = bt_get str_cmp set' m.
Proof. intros. unfold new_sets, bt_insert. rewrite (bt_get_alter_ne str_cmp); [done|]. intros E%(cmp_eq str_cmp). congruence. Qed.
Lemma new_sets_contains set set' v x m : bt_sorted str_cmp m -> bt_contains str_cmp set' m = true -> bt_contains str_cmp set' (new_sets set v x m) = true.
Proof.
  unfold bt_contains. intros Hs H. destruct (decide (set' = set)) as [->|Hn]; [by rewrite new_sets_get|by rewrite new_sets_get_ne].
Qed.
Lemma new_sets_good set v x m : good m -> good (new_sets set v x m).
Proof. intros (Hs & H1 & H2). split; [by apply (bt_alter_sorted str_cmp)|]. split; by apply new_sets_contains. Qed.

Lemma next_version_spec set s m v : sets s = Some m -> next_version set s = Some v -> exists old, bt_get str_cmp set m = Some old /\ v = ss_version old + 1.
Proof.
  unfold next_version. intros ->. simpl. destruct (bt_get str_cmp set m) as [old|]; [|done]. simpl. unfold u64_checked_add.
  destruct (_ <=? _); [|done]. intros [= <-]. by exists old.
Qed.
Lemma new_sets_covers set v x m s l : bt_sorted str_cmp m -> sets s = Some m -> next_version set s = Some v -> covers m l -> covers (new_sets set v x m) l.
Proof.
  intros Hs Em Hn H r Hr. destruct (H r Hr) as (old & Eo & Hv). destruct (decide (re_set r = set)) as [E|Hd]; [|exists old; by rewrite new_sets_get_ne].
  rewrite E in *. exists {| ss_version := v; ss_expires_at_unix_ms := Some x |}. rewrite new_sets_get by done. split; [done|].
  destruct (next_version_spec _ _ _ _ Em Hn) as (old' & Eo' & ->). simpl. rewrite Eo in Eo'. injection Eo' as <-. lia.
Qed.

Lemma open_sets d m : sets (open d) = Some m ->
  versions_file d = Versions m /\ bt_contains str_cmp SITE m = true /\ bt_contains str_cmp SITE_ALARMS m = true.
Proof.
  unfold open. simpl. destruct (versions_file d) as [| |m']; [done..|]. destruct (_ && _) eqn:E; [|done]. intros [= ->].
  by apply andb_true_iff in E.
Qed.
Lemma open_good d m : versions_file d = Versions m -> good m -> sets (open d) = Some m.
Proof. unfold open. simpl. intros -> (_ & -> & ->). done. Qed.
Lemma seeded_sorted last : bt_sorted str_cmp [(SITE, last : SetState); (SITE_ALARMS, last)].
Proof. repeat constructor. Qed.
Lemma seed_file wr min_version d : versions_file (seed wr min_version d).2 = versions_file d
  \/ (sets (open d) = None \/ versions_file d = NoFile) /\ exists last : SetState, versions_file (seed wr min_version d).2 = Versions [(SITE, last); (SITE_ALARMS, last)].
Proof.
  unfold seed. cbv zeta. destruct (_ =? 0); [by left|]. destruct (match versions_file d with NoFile => false | _ => true end && is_some (sets (open d))) eqn:E; [by left|].
  assert (sets (open d) = None \/ versions_file d = NoFile) as H by (destruct (sets (open d)); [right; by destruct (versions_file d)|by left]).
  destruct wr; simpl; [|by left|]; right; (split; [done|by eexists]).
Qed.
(** A state the signer has used is never seeded over. *)
Lemma seed_keeps wr min_version d m : versions_file d = Versions m -> good m -> versions_file (seed wr min_version d).2 = Versions m.
Proof.
  intros Hf Hg. destruct (seed_file wr min_version d) as [->|([Ho|Ho] & _)]; [done| |congruence]. by rewrite (open_good _ _ Hf Hg) in Ho.
Qed.

Lemma covers_snoc m l r : covers m l -> (exists v, bt_get str_cmp (re_set r) m = Some v /\ re_version r <= ss_version v) -> covers m (l ++ [r]).
Proof. intros H Hr x [Hx|[<-|[]]]%in_app_or; [by apply H|done]. Qed.
Lemma rise_snoc l r : StronglySorted below l -> (forall x, In x l -> below x r) -> StronglySorted below (l ++ [r]).
Proof.
  induction 1 as [|y l Hl IH Hy]; intros H; simpl; [by repeat constructor|]. constructor; [apply IH; intros x Hx; apply H; by right|].
  apply Forall_app. split; [done|]. constructor; [|done]. apply H. by left.
Qed.

(** The invariant needs no more of a step than what is on record before and after it. *)
Lemma versions_inv_frame w s d rel : versions_inv w -> sets s = sets (sw_state w) -> versions_file d = versions_file (sw_disk w) -> rel = sw_released w ->
  forall t seen asks recent clocks, versions_inv {| sw_state := s; sw_disk := d; sw_tables := t; sw_seen := seen; sw_asks := asks; sw_released := rel; sw_recent := recent; sw_clocks := clocks |}.
Proof. intros [H1 H2 H3 H4] Es Ed -> t seen asks recent clocks. by split; simpl; rewrite ?Es, ?Ed. Qed.

Lemma versions_inv_signed w a acc o s d t i n : versions_inv w -> sign_outcome a (sw_state w) (sw_disk w) o s d ->
  versions_inv (with_ask i n a (GSign acc) (GAnswer o) s d t w).
Proof.
  intros [H1 H2 H3 H4] Ho. destruct Ho as [r s' d' Es _ Hd|m v x signed k s' d' _ _ Em En Es Hd _ _]; unfold with_ask; simpl.
  - rewrite !app_nil_r. destruct Hd as [Hd|(m & v & x & Em & En & Hd)]; [by split; simpl; rewrite ?Es, ?Hd|].
    destruct (H1 m Em) as [Hg Hc]. pose proof Hg as (Hs & _). split; simpl; [by rewrite Es| | |done]; rewrite Hd.
    + intros _. exists (new_sets (sq_rule_set (ak_request a)) v x m). split; [done|]. split; [by apply new_sets_good|]. by eapply new_sets_covers.
    + intros m' [= <-]. by apply new_sets_good.
  - destruct (H1 m Em) as [Hg Hc]. pose proof Hg as (Hs & _). set (r := {| re_index := i; re_ask := a |}).
    assert (covers (new_sets (sq_rule_set (ak_request a)) v x m) (sw_released w ++ [r])) as Hc'.
    { apply covers_snoc; [by eapply new_sets_covers|]. exists {| ss_version := v; ss_expires_at_unix_ms := Some x |}. split; [by apply new_sets_get|]. simpl. lia. }
    split; simpl; rewrite ?Es, ?Hd.
    + intros m' [= <-]. split; [by apply new_sets_good|done].
    + intros _. eexists. split; [done|]. split; [by apply new_sets_good|done].
    + intros m' [= <-]. by apply new_sets_good.
    + apply rise_snoc; [done|]. intros y Hy E. destruct (Hc y Hy) as (old & Eo & Hle). destruct (next_version_spec _ _ _ _ Em En) as (old' & Eo' & ->).
      unfold re_set in E at 2. simpl in E. rewrite E, Eo' in Eo. injection Eo as <-. simpl. lia.
Qed.

Lemma versions_inv_step w w' : versions_inv w -> sign_world_step w w' -> versions_inv w'.
Proof.
  intros H Hs. destruct Hs as [w body now|w i n a st f st' s d t _ E|w t|w wr now s d E|w wr mv Hmv|w].
  - by apply (versions_inv_frame w).
  - apply (ask_step_cases i n) in E as [([Es Ed _] & Hr & _)|(acc & o & -> & -> & -> & Ho)]; [|by apply versions_inv_signed].
    unfold with_ask. rewrite Hr, app_nil_r. by apply (versions_inv_frame w).
  - by apply (versions_inv_frame w).
  - apply write_status_frame in E as (Es & Ed & _). by apply (versions_inv_frame w).
  - destruct H as [H1 H2 H3 H4]. split; simpl; [done| | |done].
    + intros Hn. destruct (H2 Hn) as (m & Hf & Hg & Hc). exists m. split; [by apply seed_keeps|done].
    + intros m. destruct (seed_file wr mv (sw_disk w)) as [->|(_ & last & ->)]; [by apply H3|]. intros [= <-]. apply seeded_sorted.
  - destruct H as [H1 H2 H3 H4]. split; simpl; [|done..]. intros m Em. destruct (open_sets _ _ Em) as (Ef & C1 & C2).
    split; [split; [by apply H3|done]|]. destruct (sw_released w) as [|r l] eqn:El; [by intros r []|].
    destruct (H2) as (m' & Ef' & _ & Hc); [done|]. rewrite Ef in Ef'. injection Ef' as <-. done.
Qed.

Definition file_sorted (d : Disk) : Prop := forall m, versions_file d = Versions m -> bt_sorted str_cmp m.
Lemma versions_inv_started d t : file_sorted d -> versions_inv (started d t).
Proof.
  intros H. split; simpl; [|done|done|constructor]. intros m Em. destruct (open_sets _ _ Em) as (Ef & C1 & C2). split; [split; [by apply H|done]|]. by intros r [].
Qed.
Lemma versions_inv_reach d t w : file_sorted d -> rtc sign_world_step (started d t) w -> versions_inv w.
Proof. intros H%(versions_inv_started _ t) Hr. revert H. induction Hr as [|w w1 w2 Hs Hr IH]; [done|]. intros H. apply IH. by eapply versions_inv_step. Qed.

(** *** The rate *)

Definition past (clocks : list Z) (x : Z) : Prop := exists c, In c clocks /\ x + HOUR_MS <= c.
Record rate_inv (w : SignWorld) : Prop := {
  ri_split : exists old, sw_recent w = old ++ publishes (sw_state w) /\ Forall (past (sw_clocks w)) old;
  ri_bound : (length (publishes (sw_state w)) <= Z.to_nat (sc_publishes_per_hour config))%nat;
}.
Lemma past_more now clocks x : past clocks x -> past (now :: clocks) x.
Proof. intros (c & Hc & Hx). exists c. split; [by right|done]. Qed.
Lemma past_all now clocks l : Forall (past clocks) l -> Forall (past (now :: clocks)) l.
Proof. intros H. eapply Forall_impl; [exact H|]. intros x. apply past_more. Qed.
Lemma drop_split clocks now old l rest : Forall (past clocks) old ->
  exists old', old ++ l ++ rest = old' ++ drop_old now l ++ rest /\ Forall (past (now :: clocks)) old' /\ (length (drop_old now l) <= length l)%nat.
Proof.
  intros H. destruct (drop_old_split now l) as (p & E & Hp). exists (old ++ p). rewrite E at 1 4. rewrite length_app, <- !app_assoc. split; [done|]. split; [|lia].
  apply Forall_app. split; [by apply past_all|]. eapply Forall_impl; [exact Hp|]. simpl. intros x Hx. exists now. split; [by left|done].
Qed.
Lemma rate_counted now w l' : rate_inv w -> counted now (publishes (sw_state w)) l' ->
  (exists old, sw_recent w = old ++ l' /\ Forall (past (now :: sw_clocks w)) old) /\ (length l' <= Z.to_nat (sc_publishes_per_hour config))%nat.
Proof.
  intros [(old & E & Ho) Hb] [->| ->]; [split; [exists old; split; [done|by apply past_all]|done]|].
  destruct (drop_split _ now old (publishes (sw_state w)) [] Ho) as (old' & E' & Ho' & Hl). rewrite !app_nil_r in E'. split; [|lia].
  exists old'. by rewrite E, E'.
Qed.

Lemma rate_inv_step w w' : rate_inv w -> sign_world_step w w' -> rate_inv w'.
Proof.
  intros H Hs. destruct Hs as [w body now|w i n a st f st' s d t _ E|w t|w wr now s d E|w wr mv Hmv|w].
  - destruct H as [H1 H2]. by split.
  - unfold with_ask. apply (ask_step_cases i n) in E as [([_ _ Hc] & Hr & _)|(acc & o & -> & -> & -> & Ho)].
    + rewrite Hr. simpl. rewrite !app_nil_r. destruct (rate_counted _ _ _ H Hc) as [(old & E & Ho) Hb]. split; simpl; [|done]. by exists old.
    + destruct Ho as [r s' d' _ Hc _|m v x signed k s' d' _ _ _ _ _ _ Hl Ep].
      * simpl. rewrite !app_nil_r. destruct (rate_counted _ _ _ H Hc) as [(old & E & Ho) Hb]. split; simpl; [|done]. by exists old.
      * destruct H as [(old & E & Ho) Hb]. destruct (drop_split _ (now_ms (ak_now a)) old (publishes (sw_state w)) [now_ms (ak_now a)] Ho) as (old' & E' & Ho' & _).
        split; simpl; rewrite Ep; [|rewrite length_app; simpl; lia]. exists old'. split; [|done]. by rewrite E, <- app_assoc.
  - destruct H as [H1 H2]. by split.
  - apply write_status_frame in E as (_ & _ & Hc). destruct (rate_counted _ _ _ H Hc) as [(old & E & Ho) Hb]. split; simpl; [|done]. by exists old.
  - destruct H as [H1 H2]. by split.
  - split; simpl; [by exists []|lia].
Qed.
Lemma rate_inv_reach d t w : rtc sign_world_step (started d t) w -> rate_inv w.
Proof.
  intros Hr. assert (rate_inv (started d t)) as H by (split; simpl; [by exists []|lia]). revert H.
  induction Hr as [|w w1 w2 Hs Hr IH]; [done|]. intros H. apply IH. by eapply rate_inv_step.
Qed.
Lemma rate_inv_spaced w n x y : rate_inv w -> sw_recent w !! n = Some x -> sw_recent w !! (n + Z.to_nat (sc_publishes_per_hour config))%nat = Some y -> past (sw_clocks w) x.
Proof.
  intros [(old & E & Ho) Hb] Hx Hy. rewrite E in Hx, Hy. apply lookup_lt_Some in Hy. rewrite length_app in Hy.
  rewrite lookup_app_l in Hx by lia. by eapply Forall_lookup_1.
Qed.

(** *** Who was signed for *)

Definition common (a : Ask) : Prop :=
  ak_user a = sign_in_username (sq_username (ak_request a)) /\ (sq_rule_set (ak_request a) = SITE \/ sq_rule_set (ak_request a) = SITE_ALARMS).
(** The tables at some time since the request came. *)
Definition seen_since (seen : list SignTables) (n : nat) (t : SignTables) : Prop := exists k, (n <= k)%nat /\ seen !! k = Some t.
Definition unlocked (seen : list SignTables) (n : nat) (a : Ask) : Prop := exists t, seen_since seen n t /\ login_is_throttled [bucket_of cr a] (ak_now a) t = false.
Definition known (seen : list SignTables) (n : nat) (a : Ask) (acc : SignerUser) : Prop :=
  exists t user, seen_since seen n t /\ ak_user a = Some user /\ signer_user user t = Some acc.
Definition proven (seen : list SignTables) (n : nat) (a : Ask) (acc : SignerUser) : Prop :=
  common a /\ unlocked seen n a /\ known seen n a acc /\ sg_enabled acc = true /\ verify cr dummy_password_phc (sq_password (ak_request a)) (Some acc) = Some true.
Definition permitted (seen : list SignTables) (n : nat) (a : Ask) (acc : SignerUser) : Prop :=
  proven seen n a acc /\ sg_must_change acc = false /\ exists t, seen_since seen n t /\ may_upload_rules (sg_user_id acc) t = true.
Definition justified (seen : list SignTables) (r : Release) : Prop :=
  permitted seen (re_since r) (re_ask r) (re_account r)
  /\ check_rules ac (re_set r) (sq_rules (ak_request (re_ask r))) (sc_rules_per_publish config) = None
  /\ sign cr ac key_sign verifying_key (sc_issuer_key_id config) (re_set r) (re_version r) (sq_rules (ak_request (re_ask r)))
       (now_ms (ak_now (re_ask r))) (sc_validity_days config) = Some (re_signed r).

Definition stage_ok (seen : list SignTables) (released : list Release) (i n : nat) (a : Ask) (st : SignStage) : Prop :=
  match st with
  | GFast => ak_user a = sign_in_username (sq_username (ak_request a))
  | GPool | GThrottle => common a
  | GUser => common a /\ unlocked seen n a
  | GVerify account => common a /\ unlocked seen n a /\ forall acc, account = Some acc -> known seen n a acc
  | GPermission acc => proven seen n a acc
  | GSign acc => permitted seen n a acc
  | GAnswer (inr (signed, version, _)) => exists r, In r released /\ re_index r = i /\ re_since r = n /\ re_ask r = a /\ re_version r = version /\ re_signed r = signed
  | GDone (ResponseSigned envelope version expires) =>
      exists r, In r released /\ re_index r = i /\ re_since r = n /\ re_ask r = a /\ re_version r = version /\ sd_envelope (re_signed r) = envelope /\ sd_expires_at_unix_ms (re_signed r) = expires
  | GFailure | GAnswer (inl _) | GDone (ResponseRefused _) => True
  end.

(** A request signs once. *)
Definition past_signing (st : option SignStage) : bool :=
  match st with Some (GAnswer _ | GDone _) | None => true | _ => false end.

Record origin_inv (w : SignWorld) : Prop := {
  oi_now : last (sw_seen w) = Some (sw_tables w);
  oi_released : forall r, In r (sw_released w) -> justified (sw_seen w) r;
  oi_since : forall i n a st, sw_asks w !! i = Some (n, a, st) -> (n < length (sw_seen w))%nat;
  oi_asks : forall i n a st, sw_asks w !! i = Some (n, a, Some st) -> stage_ok (sw_seen w) (sw_released w) i n a st;
  oi_once : NoDup (map re_index (sw_released w));
  oi_past : forall r, In r (sw_released w) -> exists a st, sw_asks w !! re_index r = Some (re_since r, a, st) /\ past_signing st = true;
}.

Definition later (seen seen' : list SignTables) : Prop := forall n t, seen_since seen n t -> seen_since seen' n t.
Lemma later_snoc seen t : later seen (seen ++ [t]).
Proof. intros n x (k & Hk & Hx). exists k. split; [done|]. by apply lookup_app_l_Some. Qed.
Lemma seen_last seen n t : (n < length seen)%nat -> last seen = Some t -> seen_since seen n t.
Proof. intros Hn. rewrite last_lookup. intros H. exists (pred (length seen)). split; [lia|done]. Qed.

Lemma permitted_more seen seen' n a acc : later seen seen' -> permitted seen n a acc -> permitted seen' n a acc.
Proof.
  unfold later. intros H ((Hc & (t1 & H1 & Hu) & (t2 & u & H2 & Hk) & He & Hv) & Hm & t3 & H3 & Hp). split; [|eauto].
  split; [done|]. split; [by exists t1; auto|]. split; [by exists t2, u; auto|done].
Qed.
Lemma justified_more seen seen' r : later seen seen' -> justified seen r -> justified seen' r.
Proof. intros H [Hp Hr]. split; [by eapply permitted_more|done]. Qed.
Lemma stage_ok_more seen seen' rel rel' i n a st :
  later seen seen' -> (forall r, In r rel -> In r rel') -> stage_ok seen rel i n a st -> stage_ok seen' rel' i n a st.
Proof.
  intros H Hr. pose proof H as H'. unfold later in H'. destruct st as [| | | |o| |acc|acc|[?|[[sg v] m]]|[e v x|?]]; simpl; try done.
  - intros (Hc & t & Ht & Hu). split; [done|]. exists t. auto.
  - intros (Hc & (t & Ht & Hu) & Hk). split; [done|]. split; [exists t; auto|]. intros acc E. destruct (Hk acc E) as (t2 & u & H2 & Hs). exists t2, u. auto.
  - intros (Hc & (t1 & H1 & Hu) & (t2 & u & H2 & Hk) & He). split; [done|]. split; [exists t1; auto|]. split; [exists t2, u; auto|done].
  - by apply permitted_more.
  - intros (r & Hi & E). exists r. auto.
  - intros (r & Hi & E). exists r. auto.
Qed.

(** A request's step keeps its stage right, but for the signature. *)
Lemma stage_step seen rel i n a f st s d t st' s' d' t' : seen_since seen n t -> (forall acc, st <> GSign acc) -> stage_ok seen rel i n a st ->
  ask_step a f st s d t = (st', s', d', t') -> stage_ok seen rel i n a st'.
Proof.
  intros Ht Hns Hok. unfold RuleSign.ask_step. destruct st as [| | | |o| |acc|acc|o|resp].
  - intros [= <- <- <- <-]. destruct (String.eqb_spec (sq_rule_set (ak_request a)) SITE), (String.eqb_spec (sq_rule_set (ak_request a)) SITE_ALARMS); simpl;
      try done; destruct (next_version _ _); simpl; try done; (split; [done|auto]).
  - intros [= <- <- <- <-]. by destruct (ft_ok f).
  - intros [= <- <- <- <-]. destruct (ft_ok f); [|done]. simpl. destruct (login_is_throttled _ _ _) eqn:El; [done|].
    assert (unlocked seen n a) by by exists t. destruct (ak_user a); simpl; [by split|]. split; [done|]. by split.
  - destruct Hok as [Hc Hu]. intros [= <- <- <- <-]. destruct (ak_user a) as [user|] eqn:Eu; [destruct (ft_ok f); [|done]|]; simpl; (split; [done|]); (split; [done|]); intros acc; [|done].
    intros E. by exists t, user.
  - destruct Hok as (Hc & Hu & Hk). intros [= <- <- <- <-]. destruct (ft_ok f); [|done]. simpl.
    destruct (verify _ _ _ _) as [[]|] eqn:Ev; [| |done].
    + destruct o as [acc|]; [|by destruct (ak_user a)]. destruct (sg_enabled acc) eqn:Ee; [|done]. split; [done|]. split; [done|]. split; [by apply Hk|done].
    + destruct o, (ak_user a); done.
  - destruct (negb _); [|destruct (record_signer_failure _ _ _ _ _ _)]; by intros [= <- <- <- <-].
  - intros [= <- <- <- <-]. destruct (sg_must_change acc) eqn:Em; [done|]. destruct (ft_ok f); [|done]. simpl. destruct (may_upload_rules _ _) eqn:Ep; [|done].
    split; [done|]. split; [done|]. by exists t.
  - by destruct (Hns acc).
  - destruct (answer_step _ _ _ _ _) as [s1 d1]. intros [= <- <- <- <-]. destruct o as [r|[[sg v] m]]; [done|]. simpl.
    destruct Hok as (r & Hi & Ei & En & E1 & E2 & E3). exists r. rewrite E3. auto 10.
  - by intros [= <- <- <- <-].
Qed.

Lemma past_stays a f st s d t st' s' d' t' : ask_step a f st s d t = (st', s', d', t') -> past_signing (Some st) = true -> past_signing (Some st') = true.
Proof.
  unfold RuleSign.ask_step. destruct st; try done; [|by intros [= <- <- <- <-]]. destruct (answer_step _ _ _ _ _). by intros [= <- <- <- <-].
Qed.
Lemma released_by_cases i n a st st' : released_by i n a st st' = []
  \/ past_signing (Some st) = false /\ past_signing (Some st') = true /\ exists r, released_by i n a st st' = [r] /\ re_index r = i /\ re_since r = n.
Proof. destruct st; try by left. destruct st' as [| | | | | | | |[?|[[sg v] m]]|]; try by left. right. split; [done|]. split; [done|]. by eexists. Qed.

Lemma origin_inv_ask w i n a st st' s d t : origin_inv w -> sw_asks w !! i = Some (n, a, Some st) -> (past_signing (Some st) = true -> past_signing (Some st') = true) ->
  (forall r, In r (released_by i n a st st') -> justified (sw_seen w) r) -> stage_ok (sw_seen w) (sw_released w ++ released_by i n a st st') i n a st' ->
  origin_inv (with_ask i n a st st' s d t w).
Proof.
  intros [H1 H2 H0 H3 H4 H5] Hi Hp Hr Hs. split; simpl.
  - by rewrite last_snoc.
  - intros r [Hin|Hin]%in_app_or; (eapply justified_more; [apply later_snoc|]); [by apply H2|by apply Hr].
  - intros j m a2 st2 Hj. rewrite length_app. apply list_lookup_insert_Some in Hj as [(<- & [= <- <- <-] & _)|[_ Hj]]; [apply H0 in Hi|apply H0 in Hj]; lia.
  - intros j m a2 st2 Hj. apply list_lookup_insert_Some in Hj as [(<- & [= <- <- <-] & _)|[_ Hj]]; (eapply stage_ok_more; [apply later_snoc| |]);
      [intros r Hin; exact Hin|done|intros r Hin; apply in_or_app; by left|by eapply H3].
  - destruct (released_by_cases i n a st st') as [->|(Hf & _ & r & -> & Er & _)]; [by rewrite app_nil_r|]. rewrite map_app. apply NoDup_snoc; [done|].
    rewrite Er, list_elem_of_In. intros (r' & E & Hin)%in_map_iff. destruct (H5 r' Hin) as (a' & st0 & Ha & Hst). rewrite E, Hi in Ha. injection Ha as _ <- <-. congruence.
  - assert (i < length (sw_asks w))%nat as Hlt by by eapply lookup_lt_Some. intros r Hin. destruct (decide (re_index r = i)) as [E|Hne].
    + exists a, (Some st'). apply in_app_or in Hin as [Hin|Hin].
      * destruct (H5 r Hin) as (a' & st0 & Ha & Hst). rewrite E, Hi in Ha. injection Ha as -> <- <-. split; [rewrite E; by apply list_lookup_insert_eq|by apply Hp].
      * destruct (released_by_cases i n a st st') as [Er|(_ & Ht & r' & Er & Ei & En)]; rewrite Er in Hin; [done|]. destruct Hin as [<-|[]].
        rewrite Ei, En. split; [by apply list_lookup_insert_eq|done].
    + rewrite list_lookup_insert_ne by done. apply in_app_or in Hin as [Hin|Hin]; [by apply H5|].
      destruct (released_by_cases i n a st st') as [Er|(_ & _ & r' & Er & Ei & _)]; rewrite Er in Hin; [done|]. by destruct Hin as [<-|[]].
Qed.

Lemma cut_lookup w i n a st : map cut (sw_asks w) !! i = Some (n, a, st) -> exists st', sw_asks w !! i = Some (n, a, st') /\ forall x, st = Some x -> st' = Some x /\ exists r, x = GDone r.
Proof.
  rewrite list_lookup_fmap. destruct (sw_asks w !! i) as [[[n' a'] [st'|]]|]; [| |done]; unfold cut; simpl.
  - intros [= <- <- <-]. exists (Some st'). split; [done|]. intros x. destruct st'; try done. intros [= <-]. split; [done|by eexists].
  - intros [= <- <- <-]. by exists None.
Qed.

Lemma origin_inv_step w w' : origin_inv w -> sign_world_step w w' -> origin_inv w'.
Proof.
  intros H Hs. destruct Hs as [w body now|w i n a st f st' s d t Hi E|w t|w wr now s d E|w wr mv Hmv|w].
  - destruct H as [H1 H2 H0 H3 H4 H5]. split; simpl; [done|done| | |done|].
    + intros i n a st [Hi|[Hl Hi]]%lookup_app_Some; [by eapply H0|]. apply list_lookup_singleton_Some in Hi as [_ [= <- _ _]].
      destruct (sw_seen w); [done|simpl; lia].
    + intros i n a st [Hi|[Hl Hi]]%lookup_app_Some; [by eapply H3|]. apply list_lookup_singleton_Some in Hi as [_ [= _ <- <-]].
      unfold RuleSign.connection. destruct body as [body|]; [|done]. destruct (_ <? _); [done|]. by destruct (parse_request body).
    + intros r Hr. destruct (H5 r Hr) as (a & st & Ha & Hst). exists a, st. split; [by apply lookup_app_l_Some|done].
  - pose proof (oi_asks _ H _ _ _ _ Hi) as Hok. pose proof (past_stays _ _ _ _ _ _ _ _ _ _ E) as Hp. pose proof E as E'. apply (ask_step_cases i n) in E' as [(_ & Hr & Hns)|(acc & o & -> & -> & -> & Ho)].
    + apply origin_inv_ask; [done|done|done|by rewrite Hr|]. rewrite Hr, app_nil_r. eapply stage_step; [|exact Hns|exact Hok|exact E].
      apply seen_last; [by eapply (oi_since _ H)|apply H].
    + apply origin_inv_ask; [done|done|done|..]; destruct Ho as [r s' d' _ _ _|m v x signed k s' d' Hc Hs _ _ _ _ _ _]; simpl; try done.
      * by intros r [<-|[]].
      * eexists. split; [apply in_or_app; right; by left|done].
  - destruct H as [H1 H2 H0 H3 H4 H5]. split; simpl; [by rewrite last_snoc| | | |done|done].
    + intros r Hr. eapply justified_more; [apply later_snoc|by apply H2].
    + intros i n a st Hi%H0. rewrite length_app. lia.
    + intros i n a st Hi. eapply stage_ok_more; [apply later_snoc| |by eapply H3]. done.
  - destruct H as [H1 H2 H0 H3 H4 H5]. by split.
  - destruct H as [H1 H2 H0 H3 H4 H5]. by split.
  - destruct H as [H1 H2 H0 H3 H4 H5]. split; simpl; [done|done| | |done|].
    + intros i n a st (st' & Hi & _)%cut_lookup. by eapply H0.
    + intros i n a st (st' & Hi & Hx)%cut_lookup. destruct (Hx st eq_refl) as [-> (r & ->)]. by apply (H3 i n a (GDone r)).
    + intros r Hr. destruct (H5 r Hr) as (a & st & Ha & Hst). exists a. rewrite list_lookup_fmap, Ha. unfold cut. simpl. eexists. split; [done|].
      by destruct st as [[]|].
Qed.
Lemma origin_inv_reach d t w : rtc sign_world_step (started d t) w -> origin_inv w.
Proof.
  intros Hr. assert (origin_inv (started d t)) as H.
  { split; simpl; [done|by intros r []| | |constructor|by intros r []]; intros i n a st; by rewrite lookup_nil. }
  revert H. induction Hr as [|w w1 w2 Hs Hr IH]; [done|]. intros H. apply IH. by eapply origin_inv_step.
Qed.
End signer.

(** ** The publishers *)

Record PubWorld := { pw_tables : RuleTables; pw_pubs : list Publisher }.

Section publishers.
Context (cr : Crypto) (ac : AgentCrates) (hashtext : string -> Z).
Notation publisher_step := (publisher_step cr ac).

Definition with_tables (t : RuleTables) (w : PubWorld) : PubWorld := {| pw_tables := t; pw_pubs := pw_pubs w |}.
(** [pg_advisory_xact_lock] on the hash of the set waits for the other transactions that hold it. *)
Definition not_waiting (p : Publisher) (w : PubWorld) : Prop :=
  forall set j q set', wants_set p = Some set -> pw_pubs w !! j = Some q -> locks_set set' q = true -> hashtext set' <> hashtext set.

Inductive pub_step : PubWorld -> PubWorld -> Prop :=
  | pub_arrive w path bytes : pub_step w {| pw_tables := pw_tables w; pw_pubs := pw_pubs w ++ [arrive path bytes] |}
  | pub_publisher w i p now ok p' t' : pw_pubs w !! i = Some p -> not_waiting p w -> publisher_step now ok p (pw_tables w) = (p', t') ->
      pub_step w {| pw_tables := t'; pw_pubs := <[i := p']> (pw_pubs w) |}
  | pub_preview w actor bytes now r t' : preview cr ac actor bytes now (pw_tables w) = inr (r, t') -> pub_step w (with_tables t' w)
  | pub_add_key w set issuer key now : pub_step w (with_tables (add_trust_key set issuer key now (pw_tables w)).2 w)
  (** The removal waits for the transactions that hold the key's row. *)
  | pub_remove_key w set issuer now : (forall j q, pw_pubs w !! j = Some q -> holds_key set issuer q = false) ->
      pub_step w (with_tables (remove_trust_key set issuer now (pw_tables w)).2 w)
  | pub_retire w set now : pub_step w (with_tables (retire set now (pw_tables w)).2 w).

(** *** The newest bundle *)

Lemma newest_fold l m b : fold_left newer l m = Some b ->
  (m = Some b \/ In b l) /\ (forall c, m = Some c -> bu_version c <= bu_version b) /\ (forall c, In c l -> bu_version c <= bu_version b).
Proof.
  revert m. induction l as [|x l IH]; intros m; simpl.
  { intros ->. split; [by left|]. split; [by intros c [= <-]|done]. }
  intros H. destruct (IH _ H) as (H1 & H2 & H3). unfold newer in H1, H2. destruct m as [c|].
  - destruct (Z.ltb_spec (bu_version c) (bu_version x)) as [Hl|Hl]; specialize (H2 _ eq_refl); (split; [|split; [intros d [= <-]; lia|intros d [<-|Hd]; [lia|by apply H3]]]).
    + destruct H1 as [[= ->]|H1]; auto.
    + destruct H1 as [[= ->]|H1]; auto.
  - specialize (H2 _ eq_refl). split; [destruct H1 as [[= ->]|H1]; auto|]. split; [done|]. intros d [<-|Hd]; [lia|by apply H3].
Qed.
Lemma newest_fold_none l m : fold_left newer l m = None -> m = None /\ l = [].
Proof.
  revert m. induction l as [|x l IH]; intros m; simpl; [done|]. intros [E _]%IH. unfold newer in E. destruct m; [by destruct (_ <? _)|done].
Qed.
Lemma in_set set b l : In b (List.filter (fun b => String.eqb (bu_set b) set) l) <-> In b l /\ bu_set b = set.
Proof. by rewrite filter_In, String.eqb_eq. Qed.
Lemma newest_some set t b : newest set t = Some b -> In b (bundles t) /\ bu_set b = set /\ forall c, In c (bundles t) -> bu_set c = set -> bu_version c <= bu_version b.
Proof.
  intros H. destruct (newest_fold _ _ _ H) as ([|Hi] & _ & Hm); [done|]. apply in_set in Hi as [Hi Hs]. split; [done|]. split; [done|].
  intros c Hc Ec. apply Hm. by apply in_set.
Qed.
Lemma newest_none set t c : newest set t = None -> In c (bundles t) -> bu_set c <> set.
Proof. intros [_ H]%newest_fold_none Hc E. assert (In c (List.filter (fun b => String.eqb (bu_set b) set) (bundles t))) as Hi by by apply in_set. by rewrite H in Hi. Qed.

(** *** The invariant *)

Definition on_record (t : RuleTables) (set issuer : string) (key : list Z) : Prop :=
  exists k, In k (trust_keys t) /\ ky_set k = set /\ ky_issuer k = issuer /\ ky_public k = key.
Definition trusted_now (t : RuleTables) (set issuer : string) : Prop := exists k, In k (trust_keys t) /\ at_key set issuer k = true /\ is_active k = true.
(** The signature of these bytes verifies under this key: what the loader promises. *)
Context (signed : list Z -> list Z -> Prop).
Definition loader_sound : Prop := forall keys bytes set now v e,
  load_json ac keys bytes set now = Some v -> read_envelope ac bytes = Some e -> exists key, In (set, en_issuer e, key) keys /\ signed key bytes.

(** What stored bytes say, and who signed them. *)
Definition origin (t : RuleTables) (bytes : list Z) (issuer : string) (version : Z) : Prop :=
  version <= i64_max /\ exists e key, read_envelope ac bytes = Some e /\ en_version e = version /\ en_issuer e = issuer /\ on_record t (en_set e) issuer key /\ signed key bytes.
Definition above_all (t : RuleTables) (set : string) (version : Z) : Prop := forall b, In b (bundles t) -> bu_set b = set -> bu_version b < version.
Definition rises (a b : BundleRow) : Prop := bu_set a = bu_set b -> bu_version a < bu_version b.

Definition pub_ok (t : RuleTables) (p : Publisher) : Prop :=
  match pb_stage p with
  | HVerify keys => forall e issuer key, readable ac (pb_bytes p) = Some e -> In (issuer, key) keys -> on_record t (en_set e) issuer key
  | HPublish b st =>
      origin t (nb_envelope b) (nb_issuer b) (nb_version b)
      /\ (exists e, read_envelope ac (nb_envelope b) = Some e /\ nb_set b = path_set (pb_path p) e)
      /\ (match st with PTrust | PInsert => above_all t (nb_set b) (nb_version b) | _ => True end)
      /\ (match st with PInsert => trusted_now t (nb_set b) (nb_issuer b) | _ => True end)
  | _ => True
  end.

Record pub_inv (w : PubWorld) : Prop := {
  pi_keys : NoDup (map (fun k => (ky_set k, ky_issuer k)) (trust_keys (pw_tables w)));
  pi_rise : StronglySorted rises (bundles (pw_tables w));
  pi_origin : forall b, In b (bundles (pw_tables w)) -> origin (pw_tables w) (bu_envelope b) (bu_issuer b) (bu_version b);
  pi_locks : forall i j p q set set', pw_pubs w !! i = Some p -> pw_pubs w !! j = Some q -> locks_set set p = true -> locks_set set' q = true ->
      hashtext set = hashtext set' -> i = j;
  pi_pubs : forall i p, pw_pubs w !! i = Some p -> pub_ok (pw_tables w) p;
  pi_ends : forall i p b r, pw_pubs w !! i = Some p -> pb_stage p <> HPublish b (PEnd r);
}.

(** *** The keys on record *)

Definition keeps_keys (t t' : RuleTables) : Prop := forall set issuer key, on_record t set issuer key -> on_record t' set issuer key.
Lemma same_keys t t' : trust_keys t' = trust_keys t -> keeps_keys t t'.
Proof. intros E set issuer key (k & H). exists k. by rewrite E. Qed.
Lemma origin_keeps t t' bytes issuer version : keeps_keys t t' -> origin t bytes issuer version -> origin t' bytes issuer version.
Proof. intros H (Hm & e & key & Hr & Hv & Hi & Ho & Hs). split; [done|]. exists e, key. auto 10. Qed.

Lemma at_key_iff set issuer k : at_key set issuer k = true <-> ky_set k = set /\ ky_issuer k = issuer.
Proof. unfold at_key. by rewrite andb_true_iff, !String.eqb_eq. Qed.

Lemma active_trust_keys_In set issuer key t : In (issuer, key) (active_trust_keys set t) -> on_record t set issuer key.
Proof.
  unfold active_trust_keys, keys_of. rewrite in_map_iff. intros (k & [= <- <-] & [Hk _]%filter_In). rewrite (sort_by_In by_issuer), filter_In, String.eqb_eq in Hk.
  exists k. tauto.
Qed.

Lemma verify_origin t bytes keys now e hash : loader_sound -> (forall issuer key, In (issuer, key) keys -> on_record t (en_set e) issuer key) ->
  verify_console_rule_envelope cr ac bytes keys now = Some (e, hash) -> readable ac bytes = Some e -> en_version e <= i64_max -> origin t bytes (en_issuer e) (en_version e).
Proof.
  intros HL Hk. unfold verify_console_rule_envelope. intros H Er Hm. rewrite Er in H. simpl in H.
  destruct (trusted_keys ac (en_set e) keys) as [trusted|] eqn:Et; [|done]. simpl in H. destruct (load_json _ _ _ _ _) as [v|] eqn:El; [|done].
  assert (read_envelope ac bytes = Some e) as Ee. { unfold readable in Er. by destruct (_ || _). }
  destruct (HL _ _ _ _ _ _ El Ee) as (key & Hi & Hs). split; [done|]. exists e, key. split; [done|]. split; [done|]. split; [done|]. split; [|done]. apply Hk.
  unfold trusted_keys in Et. apply list_elem_of_In, list_elem_of_lookup in Hi as (n & Hn). apply mapM_Some_1 in Et.
  destruct (Forall2_lookup_r _ _ _ _ _ Et Hn) as ([i' k'] & Hi' & E). simpl in E. destruct (_ && _); [|done]. injection E as -> ->.
  apply list_elem_of_In. by apply list_elem_of_lookup_2 in Hi'.
Qed.

(** *** One step of a publisher *)

Lemma pub_ok_frame t t' p : keeps_keys t t' -> bundles t' = bundles t ->
  (forall b, pb_stage p = HPublish b PInsert -> trusted_now t (nb_set b) (nb_issuer b) -> trusted_now t' (nb_set b) (nb_issuer b)) -> pub_ok t p -> pub_ok t' p.
Proof.
  intros Hk Eb Ht. unfold pub_ok. destruct (pb_stage p) as [|keys|b st|a] eqn:E; [done|..|done].
  - intros H e issuer key Hr Hi. apply Hk. by apply H.
  - intros (Ho & He & Ha & Hn). split; [by eapply origin_keeps|]. split; [done|]. split; [|destruct st; try done; by apply Ht].
    unfold above_all in *. by rewrite Eb.
Qed.
Lemma pub_ok_same t t' p : trust_keys t' = trust_keys t -> bundles t' = bundles t -> pub_ok t p -> pub_ok t' p.
Proof. intros Ek Eb. apply pub_ok_frame; [by apply same_keys|done|]. unfold trusted_now. by rewrite Ek. Qed.

(** A step of the transaction leaves the tables but for the log, or stores the bundle. *)
Inductive publish_result (b : NewBundle) (now : Z) (t : RuleTables) : PublishStage -> PublishStage -> RuleTables -> Prop :=
  | result_kept st st' t' : trust_keys t' = trust_keys t -> bundles t' = bundles t -> rule_sets t' = rule_sets t ->
      (match st' with
       | PLock => False
       | PSet => st = PLock
       | PVersion | PMax => st <> PLock
       | PTrust => st <> PLock /\ above_all t (nb_set b) (nb_version b)
       | PInsert => st = PTrust /\ trusted_now t (nb_set b) (nb_issuer b)
       | PEnd _ => True
       end) -> publish_result b now t st st' t'
  | result_stored t' : bundle_stored b t = true -> trust_keys t' = trust_keys t -> bundles t' = bundles t ++ [new_row b now] -> rule_sets t' = rule_sets t ->
      publish_result b now t PInsert (PEnd (Some Stored)) t'.

Lemma audit_published_frame actor b result t : trust_keys (audit_published actor b result t) = trust_keys t /\ bundles (audit_published actor b result t) = bundles t
  /\ rule_sets (audit_published actor b result t) = rule_sets t.
Proof. by destruct actor. Qed.
Lemma above_newest b t : match newest (nb_set b) t with Some c => bu_version c < nb_version b | None => True end -> above_all t (nb_set b) (nb_version b).
Proof.
  destruct (newest (nb_set b) t) as [c|] eqn:E; intros H x Hx Es; [|by destruct (newest_none _ _ _ E Hx)].
  destruct (newest_some _ _ _ E) as (_ & _ & Hm). specialize (Hm x Hx Es). lia.
Qed.
Lemma key_row_trusted set issuer t k : key_row set issuer t = Some k -> is_active k = true -> trusted_now t set issuer.
Proof. intros [Hk Ha]%find_some. by exists k. Qed.

Lemma publish_step_result b actor now ok st t st' t' : publish_step b actor now ok st t = (st', t') -> (forall r, st <> PEnd r) -> publish_result b now t st st' t'.
Proof.
  intros H Hn. unfold publish_step in H. destruct (negb ok).
  { destruct st; injection H as <- <-; by constructor. }
  destruct st as [| | | | | |r]; [..|by destruct (Hn r)].
  - injection H as <- <-. by constructor.
  - injection H as <- <-. constructor; [done..|]. destruct (set_row _ _) as [s|]; [|done]. by destruct (is_retired s).
  - destruct (bundle_of _ _ _) as [row|]; [|injection H as <- <-; by constructor].
    destruct (bytes_eqb _ _); injection H as <- <-; (constructor; try done; apply audit_published_frame).
  - injection H as <- <-. constructor; [done..|]. pose proof (above_newest b t) as Ha. destruct (newest _ _) as [c|]; [|split; [done|by apply Ha]].
    destruct (Z.leb_spec (nb_version b) (bu_version c)) as [|Hl]; [done|]. split; [done|]. by apply Ha.
  - injection H as <- <-. constructor; [done..|]. destruct (key_row _ _ _) as [k|] eqn:Ek; [|done]. destruct (is_active k) eqn:Ea; [|done].
    split; [done|]. by eapply key_row_trusted.
  - destruct (bundle_stored b t) eqn:Eb; injection H as <- <-; [|by constructor].
    destruct (audit_published_frame actor b "success" (add_bundle (new_row b now) t)) as (E1 & E2 & E3). by constructor.
Qed.

Inductive publisher_result (now : Z) (p : Publisher) (t : RuleTables) (p' : Publisher) (t' : RuleTables) : Prop :=
  | publisher_kept : bundles t' = bundles t -> (pub_ok t p -> pub_ok t p') -> publisher_result now p t p' t'
  | publisher_stored b : pb_stage p = HPublish b PInsert -> bundle_stored b t = true -> bundles t' = bundles t ++ [new_row b now] ->
      pb_stage p' = HDone (answer_published (pb_path p) (Some Stored)) -> publisher_result now p t p' t'.

Lemma publisher_step_result now ok p t p' t' : loader_sound -> publisher_step now ok p t = (p', t') -> (forall b r, pb_stage p <> HPublish b (PEnd r)) ->
  trust_keys t' = trust_keys t /\ rule_sets t' = rule_sets t /\ publisher_result now p t p' t'.
Proof.
  intros HL. unfold RulePub.publisher_step. destruct (pb_stage p) as [|keys|b st|a] eqn:E; intros H Hn.
  - injection H as <- <-. split; [done|]. split; [done|]. apply publisher_kept; [done|]. intros _. unfold pub_ok. simpl.
    destruct (readable ac (pb_bytes p)) as [e|]; [|done]. destruct ok; [|done]. intros e' issuer key [= <-] Hi. by apply active_trust_keys_In.
  - injection H as <- <-. split; [done|]. split; [done|]. apply publisher_kept; [done|]. unfold pub_ok. rewrite E. simpl. intros Hk.
    unfold verify_step. destruct (verify_console_rule_envelope _ _ _ _ _) as [[e hash]|] eqn:Ev; [|done].
    destruct (negb _); [done|]. destruct (Z.ltb_spec i64_max (en_version e)); [done|].
    assert (readable ac (pb_bytes p) = Some e) as Er.
    { unfold verify_console_rule_envelope in Ev. destruct (readable _ _) as [e'|]; [|done]. simpl in Ev.
      destruct (trusted_keys _ _ _); [|done]. simpl in Ev. destruct (load_json _ _ _ _ _); [|done]. simpl in Ev. by injection Ev as -> _. }
    split; [|split; [|done]]. { eapply (verify_origin t); try done. intros issuer key. by apply Hk. }
    exists e. simpl. split; [|done]. unfold readable in Er. by destruct (_ || _).
  - destruct (publish_step _ _ _ _ _ _) as [st' t1] eqn:Es. injection H as <- <-.
    apply publish_step_result in Es; [|by intros r ->; destruct (Hn b r)]. destruct Es as [st0 st1 t2 E1 E2 E3 Hst|t2 Hb E1 E2 E3].
    + split; [done|]. split; [done|]. apply publisher_kept; [done|]. unfold pub_ok. rewrite E. simpl. intros (Ho & He & Ha & Ht).
      destruct st1; simpl; try done; (split; [done|split; [done|]]); try done; try by destruct Hst.
      destruct Hst as [-> Hst]. by split.
    + split; [done|]. split; [done|]. by eapply publisher_stored.
  - injection H as <- <-. split; [done|]. split; [done|]. by apply publisher_kept.
Qed.

Lemma locks_step now ok p t p' t' set : publisher_step now ok p t = (p', t') -> locks_set set p' = true -> locks_set set p = true \/ wants_set p = Some set.
Proof.
  unfold RulePub.publisher_step, locks_set, wants_set. destruct (pb_stage p) as [|keys|b st|a] eqn:E.
  - intros [= <- <-]. simpl. destruct (readable _ _); [|done]. by destruct ok.
  - intros [= <- <-]. simpl. unfold verify_step. destruct (verify_console_rule_envelope _ _ _ _ _) as [[e hash]|]; [|done]. destruct (negb _); [done|]. by destruct (_ <? _).
  - destruct (publish_step _ _ _ _ _ _) as [st' t1] eqn:Es. intros [= <- <-]. simpl. destruct st' as [| | | | | |r]; simpl; try done; intros Hs;
      (destruct st as [| | | | | |r0]; [right; apply String.eqb_eq in Hs; by subst|auto..|]); exfalso; unfold publish_step in Es; by destruct (negb ok).
  - intros [= <- <-]. by rewrite E.
Qed.
Lemma no_end_stage now ok p t p' t' b r : publisher_step now ok p t = (p', t') -> (forall b r, pb_stage p <> HPublish b (PEnd r)) -> pb_stage p' <> HPublish b (PEnd r).
Proof.
  unfold RulePub.publisher_step. destruct (pb_stage p) as [|keys|b' st|a] eqn:E; intros H Hn.
  - injection H as <- <-. simpl. destruct (readable _ _); [|done]. by destruct ok.
  - injection H as <- <-. simpl. unfold verify_step. destruct (verify_console_rule_envelope _ _ _ _ _) as [[e hash]|]; [|done]. destruct (negb _); [done|]. by destruct (_ <? _).
  - destruct (publish_step _ _ _ _ _ _) as [st' t1] eqn:Es. injection H as <- <-. simpl. destruct st'; try done; intros [= _ ?].
  - injection H as <- <-. by rewrite E.
Qed.

(** *** Every step *)

Lemma pub_inv_tables w t' : pub_inv w -> keeps_keys (pw_tables w) t' -> bundles t' = bundles (pw_tables w) ->
  NoDup (map (fun k => (ky_set k, ky_issuer k)) (trust_keys t')) ->
  (forall j q b, pw_pubs w !! j = Some q -> pb_stage q = HPublish b PInsert -> trusted_now (pw_tables w) (nb_set b) (nb_issuer b) -> trusted_now t' (nb_set b) (nb_issuer b)) ->
  pub_inv (with_tables t' w).
Proof.
  intros [H1 H2 H3 H4 H5 H6] Hk Eb Hd Ht. split; simpl; [done|by rewrite Eb| |done| |done].
  - intros b. rewrite Eb. intros Hb. eapply origin_keeps; [exact Hk|by apply H3].
  - intros i p Hi. eapply pub_ok_frame; [exact Hk|done| |by eapply H5]. intros b. by eapply Ht.
Qed.

Lemma add_trust_key_keys set issuer key now t :
  bundles (add_trust_key set issuer key now t).2 = bundles t
  /\ (trust_keys (add_trust_key set issuer key now t).2 = trust_keys t
      \/ key_row set issuer t = None /\ exists k, trust_keys (add_trust_key set issuer key now t).2 = trust_keys t ++ [k] /\ ky_set k = set /\ ky_issuer k = issuer).
Proof.
  unfold add_trust_key. set (t1 := if is_some (set_row set t) then t else _).
  assert (trust_keys t1 = trust_keys t /\ bundles t1 = bundles t) as [E1 E2] by (unfold t1; by destruct (is_some _)).
  destruct (match set_row set t1 with Some s => is_retired s | None => false end); [by split; [|left]|].
  unfold key_row. rewrite E1. destruct (find _ _) as [k|]; simpl; rewrite E2, ?E1; (split; [done|]); [by left|]. right. split; [done|]. by eexists.
Qed.
Lemma key_row_none set issuer t : key_row set issuer t = None -> ~ In (set, issuer) (map (fun k => (ky_set k, ky_issuer k)) (trust_keys t)).
Proof.
  intros H (k & [= E1 E2] & Hk)%in_map_iff. apply (find_none _ _ H) in Hk. assert (at_key set issuer k = true) as E by by apply at_key_iff. congruence.
Qed.
Lemma trusted_now_app t t' set issuer l : trust_keys t' = trust_keys t ++ l -> trusted_now t set issuer -> trusted_now t' set issuer.
Proof. intros E (k & Hk & H). exists k. rewrite E. split; [apply in_or_app; by left|done]. Qed.

Lemma removed_keys set issuer now t :
  map (fun k => (ky_set k, ky_issuer k)) (trust_keys (remove_trust_key set issuer now t).2) = map (fun k => (ky_set k, ky_issuer k)) (trust_keys t).
Proof. unfold remove_trust_key. simpl. rewrite map_map. apply map_ext. intros k. by destruct (_ && _). Qed.
Lemma removed_record set issuer now t : keeps_keys t (remove_trust_key set issuer now t).2.
Proof.
  intros s i key (k & Hk & E). unfold on_record, remove_trust_key. simpl.
  exists (if at_key set issuer k && is_active k then removed now k else k). split; [apply in_map_iff; by exists k|]. by destruct (_ && _).
Qed.
Lemma removed_others set issuer now t set' issuer' : (set', issuer') <> (set, issuer) -> trusted_now t set' issuer' -> trusted_now (remove_trust_key set issuer now t).2 set' issuer'.
Proof.
  intros Hn (k & Hk & Ha & Hact). exists k. split; [|done]. unfold remove_trust_key. simpl. apply in_map_iff. exists k. split; [|done].
  destruct (at_key set issuer k) eqn:E; [|done]. apply at_key_iff in E as [<- <-]. apply at_key_iff in Ha as [<- <-]. done.
Qed.

(** Storing a bundle, when its publisher holds the lock of the set. *)
Lemma pub_inv_stored w i p b now p' t' : pub_inv w -> pw_pubs w !! i = Some p -> pb_stage p = HPublish b PInsert -> (forall set, locks_set set p' = false) -> (exists a, pb_stage p' = HDone a) ->
  trust_keys t' = trust_keys (pw_tables w) -> bundles t' = bundles (pw_tables w) ++ [new_row b now] -> pub_inv {| pw_tables := t'; pw_pubs := <[i := p']> (pw_pubs w) |}.
Proof.
  intros [H1 H2 H3 H4 H5 H6] Hi Es Hl (a & Ea) Ek Eb. pose proof (H5 _ _ Hi) as Hok. unfold pub_ok in Hok. rewrite Es in Hok. destruct Hok as (Ho & He & Ha & Ht).
  assert (keeps_keys (pw_tables w) t') as Hk by by apply same_keys. split; simpl; [by rewrite Ek|rewrite Eb|rewrite Eb| | |].
  - clear - H2 Ha. revert Ha. unfold above_all. induction H2 as [|x l Hs IH Hx]; intros Ha; simpl; [by repeat constructor|].
    constructor; [apply IH; intros; apply Ha; simpl; auto|]. apply Forall_app. split; [done|]. constructor; [|done]. intros E. apply Ha; simpl; auto.
  - intros x [Hx|[<-|[]]]%in_app_or; (eapply origin_keeps; [exact Hk|]); [by apply H3|done].
  - intros j k q r set set' Hj Hk' Lq Lr. apply list_lookup_insert_Some in Hj as [(<- & <- & _)|[_ Hj]]; [by rewrite Hl in Lq|].
    apply list_lookup_insert_Some in Hk' as [(<- & <- & _)|[_ Hk']]; [by rewrite Hl in Lr|]. by eapply H4.
  - intros j q Hj. apply list_lookup_insert_Some in Hj as [(<- & <- & _)|[Hne Hj]]; [unfold pub_ok; by rewrite Ea|].
    pose proof (H5 _ _ Hj) as Hq. unfold pub_ok in Hq |- *. destruct (pb_stage q) as [|keys|b' st|a'] eqn:Eq; [done| | |done].
    + intros e issuer key Hr Hin. apply Hk. by apply Hq.
    + destruct Hq as (Ho' & He' & Ha' & Ht'). split; [by eapply origin_keeps|]. split; [done|].
      assert (locks_set (nb_set b') q = true -> nb_set b <> nb_set b') as Hd.
      { intros Lq E. apply Hne. eapply (H4 i j p q (nb_set b) (nb_set b')); [done..| |done|by rewrite E]. unfold locks_set. rewrite Es. apply String.eqb_refl. }
      unfold locks_set in Hd. rewrite Eq in Hd. split; [|destruct st; try done; unfold trusted_now; by rewrite Ek].
      destruct st; try done; (intros x; rewrite Eb; intros [Hx|[<-|[]]]%in_app_or Ex; [by apply Ha'|]); exfalso; (apply Hd; [apply String.eqb_refl|exact Ex]).
  - intros j q b' r Hj. apply list_lookup_insert_Some in Hj as [(<- & <- & _)|[_ Hj]]; [by rewrite Ea|]. by eapply H6.
Qed.

Lemma pub_inv_kept w i p now ok p' t' : loader_sound -> pub_inv w -> pw_pubs w !! i = Some p -> not_waiting p w -> publisher_step now ok p (pw_tables w) = (p', t') ->
  trust_keys t' = trust_keys (pw_tables w) -> bundles t' = bundles (pw_tables w) -> pub_ok (pw_tables w) p' -> pub_inv {| pw_tables := t'; pw_pubs := <[i := p']> (pw_pubs w) |}.
Proof.
  intros HL [H1 H2 H3 H4 H5 H6] Hi Hw Es Ek Eb Hok. assert (keeps_keys (pw_tables w) t') as Hk by by apply same_keys.
  split; simpl; [by rewrite Ek|by rewrite Eb| | | |].
  - intros b. rewrite Eb. intros Hb. eapply origin_keeps; [exact Hk|by apply H3].
  - assert (forall j q set set', j <> i -> pw_pubs w !! j = Some q -> locks_set set p' = true -> locks_set set' q = true -> hashtext set <> hashtext set') as Hx.
    { intros j q set set' Hj Hq Lp Lq E. destruct (locks_step _ _ _ _ _ _ _ Es Lp) as [Lp'|Hwant]; [by apply Hj; symmetry; eapply (H4 i j)|].
      by apply (Hw set j q set'). }
    intros j k q r set set' Hj Hk' Lq Lr E. apply list_lookup_insert_Some in Hj as [(<- & <- & _)|[Hni Hj]]; apply list_lookup_insert_Some in Hk' as [(<- & <- & _)|[Hnk Hk']]; try done.
    + by destruct (Hx k r set set').
    + by destruct (Hx j q set' set).
    + by eapply H4.
  - intros j q Hj. apply list_lookup_insert_Some in Hj as [(<- & <- & _)|[_ Hj]]; (eapply pub_ok_same; [done..|]); [done|by eapply H5].
  - intros j q b r Hj. apply list_lookup_insert_Some in Hj as [(<- & <- & _)|[_ Hj]]; [|by eapply H6]. eapply no_end_stage; [exact Es|]. intros b' r'. by eapply H6.
Qed.

Lemma pub_inv_step w w' : loader_sound -> pub_inv w -> pub_step w w' -> pub_inv w'.
Proof.
  intros HL H Hs. destruct Hs as [w path bs|w i p now ok p' t' Hi Hw Es|w actor bs now r t' E|w set issuer key now|w set issuer now Hh|w set now].
  - destruct H as [H1 H2 H3 H4 H5 H6]. assert (forall st, pb_stage (arrive path bs) = st -> st = HKeys \/ exists a, st = HDone a) as Hst.
    { intros st <-. destruct path as [? []|?|? ?]; simpl; eauto. }
    split; simpl; [done..| | |].
    + intros i j p q set set' Hi Hj Lp Lq E. apply lookup_app_Some in Hi as [Hi|[_ [_ <-]%list_lookup_singleton_Some]];
        [|unfold locks_set in Lp; by destruct (Hst _ eq_refl) as [Eq|[a Eq]]; rewrite Eq in Lp].
      apply lookup_app_Some in Hj as [Hj|[_ [_ <-]%list_lookup_singleton_Some]]; [by eapply H4|unfold locks_set in Lq; by destruct (Hst _ eq_refl) as [Eq|[a Eq]]; rewrite Eq in Lq].
    + intros i p [Hi|[_ [_ <-]%list_lookup_singleton_Some]]%lookup_app_Some; [by eapply H5|]. unfold pub_ok. by destruct (Hst _ eq_refl) as [Eq|[a Eq]]; rewrite Eq.
    + intros i p b r [Hi|[_ [_ <-]%list_lookup_singleton_Some]]%lookup_app_Some; [by eapply H6|]. by destruct (Hst _ eq_refl) as [Eq|[a Eq]]; rewrite Eq.
  - destruct (publisher_step_result _ _ _ _ _ _ HL Es) as (Ek & _ & [Eb Hok|b Eb Hb E Ea]); [intros b r; by eapply pi_ends| |].
    + eapply pub_inv_kept; [done..|]. apply Hok. by eapply pi_pubs.
    + eapply pub_inv_stored; [done|done|done| | |done|done]; [intros set; unfold locks_set; by rewrite Ea|eauto].
  - assert (trust_keys t' = trust_keys (pw_tables w) /\ bundles t' = bundles (pw_tables w)) as [E1 E2].
    { unfold preview in E. destruct (_ ≫= _) as [[e hash]|]; [|done]. destruct (_ <? _); [done|]. by injection E as _ <-. }
    apply pub_inv_tables; [done|by apply same_keys|done|rewrite E1; apply H|]. intros. unfold trusted_now. by rewrite E1.
  - destruct (add_trust_key_keys set issuer key now (pw_tables w)) as [Eb [Ek|(Hn & k & Ek & <- & <-)]].
    + apply pub_inv_tables; [done|by apply same_keys|done|rewrite Ek; apply H|]. intros. unfold trusted_now. by rewrite Ek.
    + apply pub_inv_tables; [done| |done| |].
      * intros s i ky (k0 & H0 & E0). exists k0. rewrite Ek. split; [apply in_or_app; by left|done].
      * rewrite Ek, map_app. apply NoDup_snoc; [apply H|]. rewrite list_elem_of_In. by apply key_row_none.
      * intros. by eapply trusted_now_app.
  - apply pub_inv_tables; [done|apply removed_record|done|rewrite removed_keys; apply H|]. intros j q b Hj Eq. apply removed_others. intros [= E1 E2].
    specialize (Hh _ _ Hj). unfold holds_key in Hh. rewrite Eq, E1, E2, !String.eqb_refl in Hh. done.
  - apply pub_inv_tables; [done|by apply same_keys|done|apply H|done].
Qed.

Definition published_nothing (t : RuleTables) : Prop := trust_keys t = [] /\ bundles t = [].
Lemma pub_inv_reach t w : loader_sound -> published_nothing t -> rtc pub_step {| pw_tables := t; pw_pubs := [] |} w -> pub_inv w.
Proof.
  intros HL [E1 E2] Hr. assert (pub_inv {| pw_tables := t; pw_pubs := [] |}) as H.
  { split; simpl; rewrite ?E1, ?E2; simpl; try done; try constructor. }
  revert H. induction Hr as [|w w1 w2 Hs Hr IH]; [done|]. intros H. apply IH. by eapply pub_inv_step.
Qed.
End publishers.
