(* ===== verification/RuleProps.v ===== *)
(** * Rules: what the signer and the publishers guarantee *)
From S2P Require Import GroupProps Prelude RustStd Text BTree Json AccessRules AccessDb SignData SignDb AgentDb GroupDb RuleAssign Lines SsoDb RulePub RuleSign RuleInv.
From stdpp Require Import prelude strings list relations.
From Stdlib Require Import Ascii ZArith Lia Sorting.Sorted.

Open Scope Z_scope.

(** ** The signer *)

Section signer.
Context (cr : Crypto) (ac : AgentCrates) (key_sign : list Z -> list Z) (verifying_key : list Z).
Context (parse_request : list Z -> option SignRequest) (dummy_password_phc : option string) (config : SignerConfig).
Notation sign_world_step := (sign_world_step cr ac key_sign verifying_key parse_request dummy_password_phc config).

Lemma answered_release w i n a e v x : origin_inv cr ac key_sign verifying_key dummy_password_phc config w -> sw_asks w !! i = Some (n, a, Some (GDone (ResponseSigned e v x))) ->
  exists r, In r (sw_released w) /\ re_index r = i /\ re_since r = n /\ re_ask r = a /\ re_version r = v /\ sd_envelope (re_signed r) = e /\ sd_expires_at_unix_ms (re_signed r) = x.
Proof. intros H Hi. apply (oi_asks _ _ _ _ _ _ _ H _ _ _ _ Hi). Qed.

Lemma rise_index_injective l r1 r2 : StronglySorted below l -> NoDup (map re_index l) -> In r1 l -> In r2 l -> re_index r1 <> re_index r2 -> re_set r1 = re_set r2 ->
  re_version r1 <> re_version r2.
Proof.
  induction 1 as [|r l Hs IH Hr]; intros Hn; [done|]. apply NoDup_cons in Hn as [_ Hn]. rewrite Forall_forall in Hr.
  intros [<-|H1] [<-|H2] Hi Es E; [done|..|by apply IH in E].
  - apply list_elem_of_In in H2. specialize (Hr _ H2 Es). lia.
  - apply list_elem_of_In in H1. specialize (Hr _ H1 (eq_sym Es)). lia.
Qed.

(** C19: Whatever fails, whatever is interleaved and however often the signer restarts, no two
    requests are answered with the same version of a rule set: each signature recorded has a higher version than those of
    its set before it, and the file on disk never falls below one that was recorded. *)
Theorem signed_once d t w : file_sorted d -> rtc sign_world_step (started d t) w ->
  (forall i j n m a b e1 e2 v1 v2 x1 x2, i <> j ->
     sw_asks w !! i = Some (n, a, Some (GDone (ResponseSigned e1 v1 x1))) -> sw_asks w !! j = Some (m, b, Some (GDone (ResponseSigned e2 v2 x2))) ->
     sq_rule_set (ak_request a) = sq_rule_set (ak_request b) -> v1 <> v2)
  /\ StronglySorted below (sw_released w)
  /\ (forall r, In r (sw_released w) -> exists m v, versions_file (sw_disk w) = Versions m /\ bt_get str_cmp (re_set r) m = Some v /\ re_version r <= ss_version v).
Proof.
  intros Hd Hr. pose proof (versions_inv_reach _ _ _ _ _ _ _ _ _ _ Hd Hr) as Hv. pose proof (origin_inv_reach _ _ _ _ _ _ _ _ _ _ Hr) as Ho.
  split; [|split; [apply Hv|]].
  - intros i j n m a b e1 e2 v1 v2 x1 x2 Hne Hi Hj Es. destruct (answered_release _ _ _ _ _ _ _ Ho Hi) as (r1 & H1 & <- & _ & <- & <- & _).
    destruct (answered_release _ _ _ _ _ _ _ Ho Hj) as (r2 & H2 & <- & _ & <- & <- & _). by eapply rise_index_injective; [apply Hv|apply Ho|..].
  - intros r Hin. destruct (vi_disk _ Hv) as (m & Ef & _ & Hc); [by intros E; rewrite E in Hin|]. destruct (Hc r Hin) as (v & Eg & Hl). eauto.
Qed.

(** C20: Whoever is answered with a signature named an account that the tables had, while the request was there, with
    the password given, enabled and without a password change due, not locked at that time, and that held
    [site_rules.publish] through an active binding; the rules passed every check, and the envelope is the signature of
    exactly these rules as that set and version, which the agent's loader accepts. *)
Theorem signature_provenance d t w i n a e v x : rtc sign_world_step (started d t) w ->
  sw_asks w !! i = Some (n, a, Some (GDone (ResponseSigned e v x))) ->
  exists user acc t1 t2 t3 p pv signed,
    sign_in_username (sq_username (ak_request a)) = Some user
    /\ seen_since (sw_seen w) n t1 /\ login_is_throttled [account_throttle_bucket cr user] (ak_now a) t1 = false
    /\ seen_since (sw_seen w) n t2 /\ signer_user user t2 = Some acc /\ sg_enabled acc = true /\ sg_must_change acc = false
    /\ for_verification cr (sq_password (ak_request a)) = inr p /\ verify_password cr p (sg_password_phc acc) = Some pv /\ valid pv = true
    /\ seen_since (sw_seen w) n t3 /\ may_upload_rules (sg_user_id acc) t3 = true
    /\ (sq_rule_set (ak_request a) = SITE \/ sq_rule_set (ak_request a) = SITE_ALARMS)
    /\ check_rules ac (sq_rule_set (ak_request a)) (sq_rules (ak_request a)) (sc_rules_per_publish config) = None
    /\ sign cr ac key_sign verifying_key (sc_issuer_key_id config) (sq_rule_set (ak_request a)) v (sq_rules (ak_request a)) (now_ms (ak_now a)) (sc_validity_days config) = Some signed
    /\ e = sd_envelope signed /\ x = sd_expires_at_unix_ms signed.
Proof.
  intros Hr Hi. pose proof (origin_inv_reach _ _ _ _ _ _ _ _ _ _ Hr) as Ho. destruct (answered_release _ _ _ _ _ _ _ Ho Hi) as (r & Hin & _ & <- & <- & <- & <- & <-).
  destruct (oi_released _ _ _ _ _ _ _ Ho r Hin) as ((((Eu & Hset) & (t1 & H1 & Hu) & (t2 & user & H2 & E2 & Hk) & He & Hv) & Hm & t3 & H3 & Hp) & Hc & Hs).
  unfold bucket_of in Hu. rewrite E2 in Hu. simpl in Hu. unfold verify in Hv. simpl in Hv. destruct (for_verification cr _) as [|p] eqn:Ep; simpl in Hv.
  { destruct (for_verification _ _); simpl in Hv; done. }
  destruct (verify_password cr p _) as [pv|] eqn:Evp; simpl in Hv; [|done]. injection Hv as Hv.
  exists user, (re_account r), t1, t2, t3, p, pv, (re_signed r). rewrite <- Eu. repeat (split; [done|]). done.
Qed.

(** Of any successive signatures since the last start, as many as the hourly limit and one more, the first is an hour
    older than a clock the signer had read before the last. *)
Theorem publishes_spaced d t w k x y : rtc sign_world_step (started d t) w ->
  sw_recent w !! k = Some x -> sw_recent w !! (k + Z.to_nat (sc_publishes_per_hour config))%nat = Some y -> exists c, In c (sw_clocks w) /\ x + HOUR_MS <= c.
Proof. intros Hr. by apply rate_inv_spaced, (rate_inv_reach _ _ _ _ _ _ _ _ _ _ Hr). Qed.
End signer.

(** ** The publishers *)

Section publishers.
Context (cr : Crypto) (ac : AgentCrates) (hashtext : string -> Z) (signed : list Z -> list Z -> Prop).
Notation pub_step := (pub_step cr ac hashtext).

(** C21: However publishers, removals of keys and retirements are interleaved, bundles are only ever added, one at a time:
    one above every stored version of its set, whose envelope says its version and issuer, while the issuer's key is
    trusted for the set; the bytes are signed with a key on record for the set and the issuer the envelope names, and that is
    the trusted key when the envelope names the set of the bundle, which it always does but for the answer to a drafts'
    publish, where nothing compares the two. *)
Theorem bundles_only_rise t w w' : loader_sound ac signed -> published_nothing t -> rtc pub_step {| pw_tables := t; pw_pubs := [] |} w -> pub_step w w' ->
  bundles (pw_tables w') = bundles (pw_tables w)
  \/ exists b p e k, bundles (pw_tables w') = bundles (pw_tables w) ++ [b] /\ In p (pw_pubs w)
     /\ (forall c, In c (bundles (pw_tables w)) -> bu_set c = bu_set b -> bu_version c < bu_version b)
     /\ read_envelope ac (bu_envelope b) = Some e /\ en_version e = bu_version b /\ en_issuer e = bu_issuer b
     /\ In k (trust_keys (pw_tables w')) /\ at_key (bu_set b) (bu_issuer b) k = true /\ is_active k = true
     /\ (exists key, on_record (pw_tables w') (en_set e) (en_issuer e) key /\ signed key (bu_envelope b))
     /\ (en_set e = bu_set b -> signed (ky_public k) (bu_envelope b))
     /\ ((forall actor set, pb_path p <> Drafts actor set) -> en_set e = bu_set b).
Proof.
  intros HL Ht Hr Hs. pose proof (pub_inv_reach _ _ _ _ _ _ HL Ht Hr) as H. destruct Hs as [w path bs|w i p now ok p' t' Hi Hw Es|w actor bs now r t' E|w set issuer key now|w set issuer now _|w set now]; try by left.
  - destruct (publisher_step_result _ _ hashtext _ _ _ _ _ _ _ HL Es) as (Ek & _ & [Eb _|b Eb Hb E Ea]); [intros b r; by eapply (pi_ends _ _ _ _ H)|by left|right].
    pose proof (pi_pubs _ _ _ _ H _ _ Hi) as Hok. unfold pub_ok in Hok. rewrite Eb in Hok. destruct Hok as ((_ & e & key & Er & Ev & Ei & (k0 & Hk0 & Es0 & Ei0 & Ep0) & Hsig) & (e' & Er' & Eset) & Ha & (k & Hk & Hat & Hact)).
    rewrite Er in Er'. injection Er' as <-. exists (new_row b now), p, e, k. simpl. split; [done|]. split; [apply list_elem_of_In; by eapply list_elem_of_lookup_2|].
    split; [done|]. split; [done|]. split; [done|]. split; [done|]. split; [by rewrite Ek|]. split; [done|]. split; [done|].
    split; [exists key; split; [exists k0; rewrite Ek, Ei; auto|done]|]. split.
    + intros E'. apply at_key_iff in Hat as [Ha1 Ha2]. assert (k = k0) as ->; [|by rewrite Ep0].
      eapply (NoDup_map_inj (fun k => (ky_set k, ky_issuer k)) _ _ _ (pi_keys _ _ _ _ H)); [done|done|]. congruence.
    + intros Hd. rewrite Eset. destruct (pb_path p) as [? ?|?|actor set]; try done. by destruct (Hd actor set).
  - unfold preview in E. destruct (_ ≫= _) as [[e hash]|]; [|done]. destruct (_ <? _); [done|]. injection E as _ <-. by left.
  - left. simpl. apply add_trust_key_keys.
Qed.

(** What an agent is given for a set is, whatever was published, removed and retired before, the newest bundle of a set that
    is not retired and runs on its host, of a version above its own, and its bytes are signed with a key that was put on record for
    the set and the issuer they name. *)
Theorem served_signed t w agent set current g bytes : loader_sound ac signed -> published_nothing t -> rtc pub_step {| pw_tables := t; pw_pubs := [] |} w ->
  rule_bundle agent set current g (pw_tables w) = BundleEnvelope bytes ->
  assigned agent set g = true
  /\ (exists s, set_row set (pw_tables w) = Some s /\ rs_retired_at s = None)
  /\ exists b e key, In b (bundles (pw_tables w)) /\ bu_set b = set /\ bu_envelope b = bytes
       /\ (forall c, In c (bundles (pw_tables w)) -> bu_set c = set -> bu_version c <= bu_version b)
       /\ (forall v, current = Some v -> v < bu_version b) /\ read_envelope ac bytes = Some e /\ en_version e = bu_version b
       /\ on_record (pw_tables w) (en_set e) (en_issuer e) key /\ signed key bytes.
Proof.
  intros HL Ht Hr. pose proof (pub_inv_reach _ _ _ _ _ _ HL Ht Hr) as H. unfold rule_bundle, serve. destruct (set_row set (pw_tables w)) as [s|]; [|done].
  destruct (newest set (pw_tables w)) as [b|] eqn:En; [|done]. unfold is_retired. destruct (rs_retired_at s) as [|] eqn:Er; [done|]. simpl.
  destruct (Z.ltb_spec (default 0 (clamped <$> current)) (bu_version b)) as [Hl|]; simpl; [|by destruct (assigned agent set g)].
  destruct (assigned agent set g); [|done]. intros [= <-]. split; [done|]. split; [by exists s|]. destruct (newest_some _ _ _ En) as (Hin & Es & Hm).
  destruct (pi_origin _ _ _ _ H b Hin) as (Hmax & e & key & Ee & Ev & Ei & Hk & Hsig). exists b, e, key. repeat (split; [done|]).
  split. { intros v ->. simpl in Hl. unfold clamped in Hl. destruct (Z.ltb_spec i64_max v); lia. }
  split; [done|]. split; [done|]. by rewrite Ei.
Qed.
End publishers.

(** ** From the person to the host *)

(** The signer and the publishers side by side. *)
Record RulesWorld := { jw_sign : SignWorld; jw_pub : PubWorld }.

Section joint.
Context (cr : Crypto) (ac : AgentCrates) (key_sign : list Z -> list Z) (verifying_key : list Z).
Context (parse_request : list Z -> option SignRequest) (dummy_password_phc : option string) (config : SignerConfig).
Context (hashtext : string -> Z) (signed : list Z -> list Z -> Prop).
Notation sign_world_step := (sign_world_step cr ac key_sign verifying_key parse_request dummy_password_phc config).
Notation pub_step := (pub_step cr ac hashtext).

(** Two envelopes for the same rules. *)
Definition says (e e' : Envelope) : Prop :=
  en_set e = en_set e' /\ en_version e = en_version e' /\ en_issuer e = en_issuer e' /\ en_payload e = en_payload e'.
(** The signer has released an envelope that says what [l] says. *)
Definition released_for (w : SignWorld) (l : list Z) : Prop :=
  exists e r e', read_envelope ac l = Some e /\ In r (sw_released w) /\ read_envelope ac (bytes (sd_envelope (re_signed r))) = Some e' /\ says e e'.

(** Any step of the signer's world or of the publishers'. Anybody may present any bytes, but for the signer's key: bytes
    signed with it say what an envelope says that the signer has released by then. *)
Inductive joint_step : RulesWorld -> RulesWorld -> Prop :=
  | joint_sign w s : sign_world_step (jw_sign w) s -> joint_step w {| jw_sign := s; jw_pub := jw_pub w |}
  | joint_arrive w path l : (signed verifying_key l -> released_for (jw_sign w) l) ->
      joint_step w {| jw_sign := jw_sign w; jw_pub := {| pw_tables := pw_tables (jw_pub w); pw_pubs := pw_pubs (jw_pub w) ++ [arrive path l] |} |}
  | joint_pub w p : pub_step (jw_pub w) p -> length (pw_pubs p) = length (pw_pubs (jw_pub w)) -> joint_step w {| jw_sign := jw_sign w; jw_pub := p |}.

(** *** What publishers store was presented *)

Record presented (P : list Z -> Prop) (w : PubWorld) : Prop := {
  pr_pubs : forall i p, pw_pubs w !! i = Some p -> P (pb_bytes p) /\ forall b st, pb_stage p = HPublish b st -> nb_envelope b = pb_bytes p;
  pr_bundles : forall b, In b (bundles (pw_tables w)) -> P (bu_envelope b);
}.
Lemma presented_impl (P Q : list Z -> Prop) w : (forall l, P l -> Q l) -> presented P w -> presented Q w.
Proof. intros H [H1 H2]. split; [|by auto]. intros i p Hi. destruct (H1 i p Hi). auto. Qed.
Lemma presented_arrive P w path l : P l -> presented P w -> presented P {| pw_tables := pw_tables w; pw_pubs := pw_pubs w ++ [arrive path l] |}.
Proof.
  intros HP [H1 H2]. split; [|done]. intros i p [Hi| ->]%lookup_snoc; [by eapply H1|]. split; [done|]. by destruct path as [? []|?|? ?].
Qed.
Lemma publisher_step_bytes now ok p t p' t' : publisher_step cr ac now ok p t = (p', t') -> (forall b r, pb_stage p <> HPublish b (PEnd r)) ->
  (forall b st, pb_stage p = HPublish b st -> nb_envelope b = pb_bytes p) ->
  pb_bytes p' = pb_bytes p /\ (forall b st, pb_stage p' = HPublish b st -> nb_envelope b = pb_bytes p)
  /\ forall b, In b (bundles t') -> In b (bundles t) \/ bu_envelope b = pb_bytes p.
Proof.
  unfold publisher_step. intros Hs Hn Hb. destruct (pb_stage p) as [|keys|b st|a] eqn:E; try (injection Hs as <- <-).
  - split; [done|]. split; [|auto]. intros b st. simpl. destruct (readable _ _); [|done]. by destruct ok.
  - split; [done|]. split; [|auto]. intros b st. simpl. unfold verify_step. destruct (verify_console_rule_envelope _ _ _ _ _) as [[e hash]|]; [|done].
    destruct (negb _); [done|]. destruct (_ <? _); [done|]. by intros [= <- _].
  - destruct (publish_step _ _ _ _ _ _) as [st' t1] eqn:Es. injection Hs as <- <-. split; [done|].
    split. { intros b' st''. simpl. destruct st'; try done; intros [= <- _]; by eapply Hb. }
    apply publish_step_result in Es; [|by intros r ->; destruct (Hn b r)]. destruct Es as [st0 st1 t2 _ -> _ _|t2 _ _ -> _]; [auto|].
    intros b' [H|[<-|[]]]%in_app_or; [by left|right]. simpl. by eapply Hb.
  - split; [done|]. split; [|auto]. by rewrite E.
Qed.
Lemma presented_step P w w' : pub_inv ac hashtext signed w -> pub_step w w' -> length (pw_pubs w') = length (pw_pubs w) -> presented P w -> presented P w'.
Proof.
  intros Hi Hs Hl [H1 H2]. destruct Hs as [w path bs|w i p now ok p' t' Hp Hw Es|w actor bs now r t' E|w set issuer key now|w set issuer now _|w set now]; try by split.
  - simpl in Hl. rewrite length_app in Hl. simpl in Hl. lia.
  - destruct (H1 i p Hp) as [HP Hb]. destruct (publisher_step_bytes _ _ _ _ _ _ Es (fun b r => pi_ends _ _ _ _ Hi i p b r Hp) Hb) as (Eb & Hb' & Hin). split; simpl.
    + intros j q [Hj|[-> ->]]%lookup_inserted; [by eapply H1|]. by rewrite Eb.
    + intros b [H| ->]%Hin; [by apply H2|done].
  - unfold preview in E. destruct (_ ≫= _) as [[e hash]|]; [|done]. destruct (_ <? _); [done|]. injection E as _ <-. by split.
  - split; [done|]. simpl. by rewrite (proj1 (add_trust_key_keys set issuer key now (pw_tables w))).
Qed.

(** *** The two together *)

Lemma sign_step_releases w w' r : sign_world_step w w' -> In r (sw_released w) -> In r (sw_released w').
Proof. intros Hs Hr. destruct Hs; simpl; try done. apply in_or_app. by left. Qed.
Lemma released_step w w' l : sign_world_step w w' -> released_for w l -> released_for w' l.
Proof. intros Hs (e & r & e' & ? & Hr & ? & ?). exists e, r, e'. split_and!; try done. by eapply sign_step_releases. Qed.

Record joint_inv (d : Disk) (ts : SignTables) (tp : RuleTables) (w : RulesWorld) : Prop := {
  ji_sign : rtc sign_world_step (started d ts) (jw_sign w);
  ji_pub : rtc pub_step {| pw_tables := tp; pw_pubs := [] |} (jw_pub w);
  ji_presented : presented (fun l => signed verifying_key l -> released_for (jw_sign w) l) (jw_pub w);
}.
Definition joint_started (d : Disk) (ts : SignTables) (tp : RuleTables) : RulesWorld := {| jw_sign := started d ts; jw_pub := {| pw_tables := tp; pw_pubs := [] |} |}.
Lemma joint_reach d ts tp u : loader_sound ac signed -> published_nothing tp -> rtc joint_step (joint_started d ts tp) u -> joint_inv d ts tp u.
Proof.
  intros HL Ht. apply rtc_ind_r. { split; simpl; [done..|]. split; [done|]. simpl. by rewrite (proj2 Ht). }
  intros w1 w2 _ Hs [J1 J2 J3]. destruct Hs as [w s Hs|w path l Hl|w p Hs Hlen]; split; simpl; try done.
  - by eapply rtc_r.
  - eapply presented_impl; [|exact J3]. intros l Hl Hsig. eapply released_step; [exact Hs|auto].
  - eapply rtc_r; [exact J2|]. apply pub_arrive.
  - by apply presented_arrive.
  - by eapply rtc_r.
  - eapply presented_step; try done. by eapply pub_inv_reach.
Qed.

(** What is written is bytes, and reads as the set, version, issuer and rules it was written from. *)
Definition writes : Prop := forall e l, write_envelope ac e = Some l -> bytes (of_bytes l) = l /\ exists e', read_envelope ac l = Some e' /\ says e' e.

Lemma sign_says r l : writes -> sign cr ac key_sign verifying_key (sc_issuer_key_id config) (re_set r) (re_version r) (sq_rules (ak_request (re_ask r)))
    (now_ms (ak_now (re_ask r))) (sc_validity_days config) = Some (re_signed r) -> bytes (sd_envelope (re_signed r)) = l ->
  exists e, read_envelope ac l = Some e /\ en_set e = re_set r /\ en_version e = re_version r /\ en_payload e = sq_rules (ak_request (re_ask r)).
Proof.
  intros HW Hsign <-. unfold sign in Hsign. destruct (negb _); [done|]. destruct (signing_preimage _ _) as [pre|]; [|done]. simpl in Hsign.
  destruct (write_envelope ac _) as [l'|] eqn:Ew; [|done]. simpl in Hsign. destruct (negb _); [done|]. destruct (load_json _ _ _ _ _) as [v|]; [|done]. simpl in Hsign.
  destruct (_ || _); [done|]. injection Hsign as Es. destruct (HW _ _ Ew) as (Hb & e & He & Eset & Ever & _ & Epay). rewrite <- Es. simpl. rewrite Hb. by exists e.
Qed.

(** C18: However the signer's requests and the publishers' are interleaved, and whatever bytes anybody presents for publishing,
    short of a signature with the signer's key for rules the signer has not released: a bundle an agent is given, whose
    set and issuer name the signer's key, says what the signer signed for a request of somebody who, while the request
    was there, gave the password of an enabled account without a password change due and with [site_rules.publish]: for
    exactly that set, version and rules, after every check of them. *)
Theorem served_by_entitled d ts tp w agent set current g l e :
  loader_sound ac signed -> writes -> published_nothing tp ->
  rtc joint_step (joint_started d ts tp) w ->
  rule_bundle agent set current g (pw_tables (jw_pub w)) = BundleEnvelope l -> read_envelope ac l = Some e ->
  (forall k, In k (trust_keys (pw_tables (jw_pub w))) -> at_key (en_set e) (en_issuer e) k = true -> ky_public k = verifying_key) ->
  exists r acc user t t', In r (sw_released (jw_sign w))
    /\ re_set r = en_set e /\ re_version r = en_version e /\ sq_rules (ak_request (re_ask r)) = en_payload e
    /\ ak_user (re_ask r) = Some user /\ seen_since (sw_seen (jw_sign w)) (re_since r) t /\ signer_user user t = Some acc
    /\ sg_enabled acc = true /\ sg_must_change acc = false
    /\ verify cr dummy_password_phc (sq_password (ak_request (re_ask r))) (Some acc) = Some true
    /\ seen_since (sw_seen (jw_sign w)) (re_since r) t' /\ may_upload_rules (sg_user_id acc) t' = true
    /\ check_rules ac (en_set e) (en_payload e) (sc_rules_per_publish config) = None.
Proof.
  intros HL HW Ht Hr Hb He Hkey. destruct (joint_reach _ _ _ _ HL Ht Hr) as [Hs Hp Hpres].
  destruct (served_signed _ _ _ _ _ _ _ _ _ _ _ HL Ht Hp Hb) as (_ & _ & b & e1 & key & Hin & _ & Ebytes & _ & _ & Er & _ & (k & Hk & Ek & Ei & Epub) & Hsig).
  rewrite He in Er. injection Er as <-. rewrite <- Epub, (Hkey k Hk) in Hsig by by apply at_key_iff.
  pose proof (pr_bundles _ _ Hpres b Hin) as Hrel. rewrite Ebytes in Hrel. destruct (Hrel Hsig) as (e2 & r & e3 & He2 & Hr1 & He3 & Eset & Ever & _ & Epay).
  rewrite He in He2. injection He2 as <-.
  destruct (oi_released _ _ _ _ _ _ _ (origin_inv_reach _ _ _ _ _ _ _ _ _ _ Hs) r Hr1) as (((_ & _ & (t & user & Ht1 & Eu & Ea) & Hen & Hv) & Hmust & t' & Ht2 & Hup) & Hc & Hsign).
  destruct (sign_says r _ HW Hsign eq_refl) as (e4 & He4 & E1 & E2 & E3). rewrite He3 in He4. injection He4 as <-.
  rewrite Eset, Ever, Epay, E1, E2, E3. exists r, (re_account r), user, t, t'. by repeat (split; [done|]).
Qed.
End joint.

(** ** The drafts *)

Section drafts.
Context (ac : AgentCrates) (catalog : Catalog) (collate : string -> string -> comparison) (dc : DraftCrates ac).

Definition named_by (i : RuleDraftInput) : list string := default [] (ri_programs i).
Definition distinct (l : list string) : Z := Z.of_nat (length (bs_of_list str_cmp l)).
(** A rule read back from the editor's JSON is an alarm rule just for the alarms' set, with the programs of the input. *)
Definition reads_back : Prop := forall set rule_id v i r, rule_of_value ac dc (rule_json set rule_id v i) = inr r ->
  is_process_event ac r = String.eqb set SITE_ALARMS /\ (set = SITE_ALARMS -> programs_of ac r = Some (named_by i)).

(** A save or a deletion, one after the other. *)
Inductive draft_step : list Draft -> list Draft -> Prop :=
  | draft_saved set rule_id i actor now l : draft_step l (save_draft ac catalog collate dc set rule_id i actor now l).2
  | draft_removed set rule_id l : draft_step l (remove_draft set rule_id l).2.

Lemma distinct_incl l l' : (forall x, In x l -> In x l') -> distinct l <= distinct l'.
Proof.
  intros H. unfold distinct. apply inj_le, List.NoDup_incl_length; [apply NoDup_ListNoDup, (bs_of_list_sorted str_cmp)|].
  intros x. rewrite !(bs_of_list_In str_cmp). apply H.
Qed.
Lemma length_distinct x l : NoDup x -> (forall y, In y x -> In y l) -> Z.of_nat (length x) <= distinct l.
Proof.
  intros Hx H. unfold distinct. apply inj_le, List.NoDup_incl_length; [by apply NoDup_ListNoDup|]. intros y Hy. rewrite (bs_of_list_In str_cmp). by apply H.
Qed.

(** *** What a stored draft holds *)

Lemma as_str_all l : omap as_str (map JString l) = l.
Proof. induction l as [|x l IH]; [done|]. simpl. f_equal. exact IH. Qed.
Lemma programs_at_alarm set_ id v i by_ at_ : programs_at {| dr_set := set_; dr_rule_id := id; dr_rule := rule_json SITE_ALARMS id v i; dr_updated_by := by_; dr_updated_at := at_ |} = named_by i.
Proof.
  unfold programs_at, rule_json, named_by. simpl. destruct (ri_attack i) as [[|p l]|]; simpl; apply as_str_all.
Qed.

Definition in_alarms (d : Draft) : bool := String.eqb (dr_set d) SITE_ALARMS.
(** The alarm drafts are the editor's, each with one to eight programs, together at most 32. *)
Definition fits (l : list Draft) : Prop :=
  (forall d, In d l -> dr_set d = SITE_ALARMS -> exists v i, dr_rule d = rule_json SITE_ALARMS (dr_rule_id d) v i /\ 1 <= distinct (programs_at d) <= RULE_PROGRAMS)
  /\ distinct (flat_map programs_at (List.filter in_alarms l)) <= SET_PROGRAMS.

Lemma when_nil b p : when b p = [] -> b = false.
Proof. by destruct b. Qed.
Lemma check_fits rule_id i others : reads_back -> check ac catalog dc SITE_ALARMS rule_id i others = [] ->
  1 <= distinct (named_by i) <= RULE_PROGRAMS /\ distinct (bs_of_list str_cmp (named_by i) ++ others) <= SET_PROGRAMS.
Proof.
  intros HR. unfold check. match goal with |- match ?f with [] => _ | _ :: _ => _ end = [] -> _ => destruct f; [|done] end.
  destruct (rule_of_value ac dc _) as [e|r] eqn:Er; [done|]. destruct (HR _ _ _ _ _ Er) as [Hk Hp]. rewrite String.eqb_refl in Hk.
  match goal with |- ?p ++ _ = [] -> _ => set (problems := p) end. intros [Hn H]%app_eq_nil. rewrite Hk, Hn in H. simpl in H.
  unfold program_problems in H. rewrite (Hp eq_refl) in H. simpl in H. apply app_eq_nil in H as [_ [H1%when_nil H2%when_nil]%app_eq_nil].
  unfold in_limits in H1. apply negb_false_iff, andb_true_iff in H1 as [H1 H3]. unfold distinct. lia.
Qed.

Lemma in_list_drafts d set l : In d (list_drafts collate set l) <-> In d l /\ dr_set d = set.
Proof. unfold list_drafts. by rewrite (sort_by_In (fun a b => collate (dr_rule_id a) (dr_rule_id b))), filter_In, String.eqb_eq. Qed.
Lemma at_draft_iff set id d : at_draft set id d = true <-> dr_set d = set /\ dr_rule_id d = id.
Proof. unfold at_draft. by rewrite andb_true_iff, !String.eqb_eq. Qed.
Lemma in_alarm_programs x l : In x (flat_map programs_at (List.filter in_alarms l)) <-> exists d, In d l /\ dr_set d = SITE_ALARMS /\ In x (programs_at d).
Proof.
  rewrite in_flat_map. unfold in_alarms. setoid_rewrite filter_In. setoid_rewrite String.eqb_eq. naive_solver.
Qed.
(** Storing a draft leaves the others and it. *)
Lemma put_draft_In d l l' x : put_draft d l = Some l' -> In x l' -> x = d \/ In x l /\ at_draft (dr_set d) (dr_rule_id d) x = false.
Proof.
  unfold put_draft. destruct (negb _); [done|]. intros [= <-]. destruct (is_some _) eqn:Eg.
  - intros (y & <- & Hy)%in_map_iff. destruct (at_draft _ _ y) eqn:E; auto.
  - intros [Hx|[<-|[]]]%in_app_or; [|by left]. right. split; [done|]. destruct (get_draft _ _ l) eqn:E; [done|]. by apply (find_none _ _ E).
Qed.

Lemma fits_saved set rule_id i actor now l : reads_back -> fits l -> fits (save_draft ac catalog collate dc set rule_id i actor now l).2.
Proof.
  intros HR [Hd Ha]. unfold save_draft. destruct (prepare_save _ _ _ _ _ _ _ _ _ _) as [|d] eqn:Ep; [done|]. destruct (put_draft d l) as [l'|] eqn:El; [|done]. simpl.
  unfold prepare_save in Ep. destruct (negb _); [done|]. destruct (check _ _ _ _ _ _ _) eqn:Ec; [|done]. destruct (_ && _); [done|]. injection Ep as <-.
  match type of El with put_draft ?x _ = _ => set (d := x) in * end. destruct (String.eqb_spec set SITE_ALARMS) as [->|Hne].
  - apply check_fits in Ec as [H1 H2]; [|done]. assert (programs_at d = named_by i) as Epd by apply programs_at_alarm. split.
    + intros x Hx Ex. destruct (put_draft_In _ _ _ _ El Hx) as [->|[Hx' _]]; [|by apply Hd]. rewrite Epd. simpl. eauto.
    + etrans; [|exact H2]. apply distinct_incl. intros x (y & Hy & Ey & Hin)%in_alarm_programs. apply in_or_app. rewrite (bs_of_list_In str_cmp).
      destruct (put_draft_In _ _ _ _ El Hy) as [->|[Hy' Hat]]; [left; by rewrite <- Epd|right].
      unfold other_programs. rewrite (bs_of_list_In str_cmp), in_flat_map. exists y. split; [|done]. apply filter_In. split; [by apply in_list_drafts|].
      apply negb_true_iff, String.eqb_neq. intros E. assert (at_draft (dr_set d) (dr_rule_id d) y = true) as Ht by by apply at_draft_iff. congruence.
  - assert (forall x, In x l' -> dr_set x = SITE_ALARMS -> In x l) as Hl.
    { intros x Hx Ex. destruct (put_draft_In _ _ _ _ El Hx) as [->|[Hx' _]]; [by simpl in Ex|done]. }
    split; [intros x Hx Ex; by apply Hd; [apply Hl|]|]. etrans; [|exact Ha]. apply distinct_incl. intros x (y & Hy & Ey & Hin)%in_alarm_programs. apply in_alarm_programs. eauto.
Qed.
Lemma fits_removed set rule_id l : fits l -> fits (remove_draft set rule_id l).2.
Proof.
  intros [Hd Ha]. unfold remove_draft. destruct (negb _); [done|]. simpl.
  assert (forall x, In x (List.filter (fun d => negb (at_draft set rule_id d)) l) -> In x l) as Hl by (intros x Hx; exact (proj1 (proj1 (filter_In _ _ _) Hx))).
  split; [intros x Hx; by apply Hd, Hl|]. etrans; [|exact Ha]. apply distinct_incl. intros x (y & Hy & Ey & Hin)%in_alarm_programs. apply in_alarm_programs. eauto.
Qed.
Lemma fits_reach l : reads_back -> rtc draft_step [] l -> fits l.
Proof.
  intros HR Hr. assert (fits []) as H by (split; [done|by vm_compute]). revert H.
  induction Hr as [|x y z Hs Hr IH]; [done|]. intros H. apply IH. destruct Hs; [by apply fits_saved|by apply fits_removed].
Qed.

(** *** What the signer makes of them *)

Lemma all_programs_some l all : NoDup all -> (forall r, In r l -> 1 <= distinct (default [] (programs_of ac r)) <= RULE_PROGRAMS) ->
  exists x, all_programs ac l all = Some x /\ NoDup x /\ forall y, In y x <-> In y all \/ exists r, In r l /\ In y (default [] (programs_of ac r)).
Proof.
  revert all. induction l as [|r l IH]; intros all Hall H; simpl.
  { exists all. split; [done|]. split; [done|]. intros y. naive_solver. }
  destruct (H r (or_introl eq_refl)) as [H1 H2]. unfold in_limits, named_programs. fold (distinct (default [] (programs_of ac r))).
  rewrite (proj2 (Z.leb_le _ _) H1), (proj2 (Z.leb_le _ _) H2). simpl. destruct (IH (bs_of_list str_cmp (all ++ bs_of_list str_cmp (default [] (programs_of ac r))))) as (x & Ex & Hx & Hi).
  { apply (bs_of_list_sorted str_cmp). } { intros r' Hr'. apply H. by right. }
  exists x. split; [done|]. split; [done|]. intros y. rewrite Hi, (bs_of_list_In str_cmp), in_app_iff, (bs_of_list_In str_cmp). naive_solver.
Qed.

(** C22: Whatever alarm drafts were saved and deleted, one after the other, the signer refuses their rules for a limit only when
    there are more of them than it takes; past that it can only find the set malformed as a whole. *)
Theorem drafts_fit_signer l rules rs payload max_rules : reads_back -> rtc draft_step [] l ->
  draft_rules ac dc (list_drafts collate SITE_ALARMS l) = Some rules -> read_rule_set ac payload = Some rs -> rules_in ac rs = rules ->
  check_rules ac SITE_ALARMS payload max_rules = None
  \/ check_rules ac SITE_ALARMS payload max_rules = Some Limits /\ max_rules < Z.of_nat (length rules)
  \/ check_rules ac SITE_ALARMS payload max_rules = Some InvalidRequest /\ (rule_set_valid ac rs = false \/ rules = []).
Proof.
  intros HR Hr Hd Ers Erules. destruct (fits_reach l HR Hr) as [Hf Hs].
  assert (forall r, In r rules -> is_process_event ac r = true /\ exists d, In d l /\ dr_set d = SITE_ALARMS /\ programs_of ac r = Some (programs_at d)
            /\ 1 <= distinct (programs_at d) <= RULE_PROGRAMS) as Hrules.
  { intros r Hin. unfold draft_rules in Hd. destruct (mapM _ _) as [l0|] eqn:Em; [|done]. simpl in Hd. injection Hd as <-. rewrite (sort_by_In (rule_order ac dc)) in Hin.
    apply list_elem_of_In, list_elem_of_lookup in Hin as (n & Hn). apply mapM_Some_1 in Em. destruct (Forall2_lookup_r _ _ _ _ _ Em Hn) as (d & Hnd & E).
    apply list_elem_of_lookup_2, list_elem_of_In, in_list_drafts in Hnd as [Hdl Es]. destruct (Hf d Hdl Es) as (v & i & Ev & Hb).
    destruct (rule_of_value ac dc (dr_rule d)) as [|r'] eqn:Er'; [done|]. injection E as ->. rewrite Ev in Er'. destruct (HR _ _ _ _ _ Er') as [Hk Hp].
    rewrite String.eqb_refl in Hk. split; [done|]. exists d. split; [done|]. split; [done|]. split; [|done]. rewrite (Hp eq_refl). f_equal.
    destruct d as [ds did dr du da]. simpl in Ev. subst dr. simpl in *. by rewrite programs_at_alarm. }
  unfold check_rules. rewrite Ers, Erules. destruct (rule_set_valid ac rs) eqn:Ev; [|right; right; auto]. simpl.
  destruct rules as [|r0 rules'] eqn:E0; [right; right; auto|]. rewrite <- E0 in *. replace (length rules =? 0)%nat with false by by rewrite E0.
  destruct (Z.ltb_spec max_rules (Z.of_nat (length rules))) as [Hl|Hl]; [by right; left|]. left.
  destruct (existsb _ rules) eqn:Ek. { apply existsb_exists in Ek as (r & Hin & E). destruct (Hrules r Hin) as [Hk _]. by rewrite Hk in E. }
  destruct (all_programs_some rules []) as (x & Ex & Hx & Hi); [constructor| |].
  { intros r Hin. destruct (Hrules r Hin) as (_ & d & _ & _ & -> & Hb). done. }
  rewrite Ex. destruct (Z.ltb_spec SET_PROGRAMS (Z.of_nat (length x))) as [Hbad|]; [|done]. exfalso.
  assert (Z.of_nat (length x) <= distinct (flat_map programs_at (List.filter in_alarms l))); [|lia]. apply length_distinct; [done|].
  intros y [[]|(r & Hin & Hy)]%Hi. destruct (Hrules r Hin) as (_ & d & Hdl & Es & Ep & _). rewrite Ep in Hy. apply in_alarm_programs. by exists d.
Qed.
End drafts.

(** ** Concrete runs *)

(** Crates with a rule that is its programs, envelopes of the version, the set, the rules and the signature, and signatures
    that are the key and the message: the loader takes every message the key could sign. *)
Definition ex_crypto : Crypto :=
  {| sha256 := fun l => take 32 (l ++ repeat 0 32); base64_encode := of_bytes; base64_decode := fun s => Some (bytes s); nfc := fun s => s;
     phc_parse := fun s => Some {| phc_algorithm := "argon2id"; phc_version := Some 19; phc_costs := Some (19456, 2, 1) |};
     argon2_verify := fun l s => bool_decide (l = bytes s) |}.
Definition ex_read_envelope (l : list Z) : option Envelope :=
  match l with
  | v :: alarms :: n :: rest =>
      Some {| en_set := if alarms =? 1 then SITE_ALARMS else SITE; en_version := v; en_issuer := "site-key"; en_created_at := 0; en_expires_at := 9;
              en_payload_sha256_hex := EmptyString; en_payload := of_bytes (take (Z.to_nat n) rest); en_signature := of_bytes (drop (Z.to_nat n) rest) |}
  | _ => None
  end.
Definition ex_message (e : Envelope) : list Z := en_version e :: (if String.eqb (en_set e) SITE_ALARMS then 1 else 0) :: bytes (en_payload e).
Definition ex_write_envelope (e : Envelope) : option (list Z) :=
  let n := Z.of_nat (length (bytes (en_payload e))) in
  if (0 <=? en_version e) && (en_version e <? 128) && known_set (en_set e) && String.eqb (en_issuer e) "site-key" && (n <? 128)
  then Some (en_version e :: (if String.eqb (en_set e) SITE_ALARMS then 1 else 0) :: n :: bytes (en_payload e) ++ bytes (en_signature e)) else None.
Definition ex_key : list Z := bytes "key".
Definition ex_key_sign (message : list Z) : list Z := ex_key ++ message.
Definition ex_bundle_by (key : list Z) (v : Z) : list Z := v :: 0 :: 8 :: bytes "snapshot" ++ key ++ v :: 0 :: bytes "snapshot".
Definition ex_bundle (v : Z) : list Z := ex_bundle_by ex_key v.
Definition ex_loads (keys : list (string * string * list Z)) (l : list Z) (set : string) : bool :=
  match ex_read_envelope l with
  | Some e => String.eqb (en_set e) set && existsb (fun k => String.eqb k.1.1 set && String.eqb k.1.2 (en_issuer e) && bytes_eqb (bytes (en_signature e)) (k.2 ++ ex_message e)) keys
  | None => false
  end.
Definition ex_crates : AgentCrates :=
  {| RuleSet := list (option (list string)); Rule := option (list string); VerifiedRules := unit; is_identifier := fun _ => true;
     read_rule_set := fun s => if String.eqb s "snapshot" then Some [None] else if String.eqb s "alarm" then Some [Some ["nginx"; "sh"]] else None;
     rule_set_valid := fun _ => true; rules_in := fun l => l; is_process_event := is_some; programs_of := fun r => r;
     read_envelope := ex_read_envelope;
     write_envelope := ex_write_envelope;
     signing_preimage := fun e => Some (ex_message e); trusted_key_valid := fun _ => true;
     load_json := fun keys l set _ => if ex_loads keys l set then Some tt else None; event_rules_compile := fun _ => true |}.
Definition ex_signed (key l : list Z) : Prop := exists e, ex_read_envelope l = Some e /\ bytes (en_signature e) = key ++ ex_message e.

Lemma ex_loader_sound : loader_sound ex_crates ex_signed.
Proof.
  intros keys l set now v e. simpl. unfold ex_loads. intros H He. rewrite He in H. destruct (String.eqb_spec (en_set e) set) as [_|]; [|done]. simpl in H.
  destruct (existsb _ keys) eqn:E; [|done]. apply existsb_exists in E as ([[s i] k] & Hk & E). simpl in E. rewrite !andb_true_iff, !String.eqb_eq in E.
  destruct E as [[-> ->] Eb%bool_decide_eq_true]. exists k. split; [done|]. by exists e.
Qed.
Lemma ex_writes : writes ex_crates.
Proof.
  intros e l. simpl. unfold ex_write_envelope. cbv zeta. destruct (_ && _) eqn:E; [|done]. intros [= <-]. rewrite !andb_true_iff in E.
  destruct E as [[[[H1%Z.leb_le H2%Z.ltb_lt] Hs] Hi%String.eqb_eq] Hn%Z.ltb_lt]. split.
  - apply bytes_of_bytes. constructor; [lia|]. constructor; [case_match; lia|]. constructor; [lia|]. apply Forall_app. split; apply bytes_bounds.
  - eexists. split; [reflexivity|]. unfold says. simpl. rewrite Nat2Z.id, take_app_length, of_bytes_bytes, Hi. split_and!; try done.
    unfold known_set in Hs. destruct (String.eqb_spec (en_set e) SITE_ALARMS) as [->|Hne]; [done|]. simpl. rewrite orb_false_r in Hs. by apply String.eqb_eq in Hs.
Qed.

Definition ex_config : SignerConfig :=
  {| sc_socket := "/run/s"; sc_key_file := "/k"; sc_state_dir := "/v"; sc_issuer_key_id := "site-key"; sc_publishes_per_hour := 1; sc_rules_per_publish := 5; sc_validity_days := 30 |}.
Definition ex_alice : UserRow :=
  {| u_id := "1"; u_username := "alice"; u_display_name := "Alice"; u_email := None; u_enabled := true; u_auth_source := "password";
     u_password := Some "an honest password"; u_must_change := false; u_generation := 0 |}.
Definition ex_signers : SignTables :=
  {| access := {| users := [ex_alice]; accounts := [];
                  roles := [{| r_id := "r"; r_name := "Rules"; r_description := EmptyString; r_builtin := false; r_all_hosts := true; r_version := 1;
                               r_permissions := ["site_rules.publish"]; r_groups := [] |}];
                  bindings := [{| b_id := "b"; b_principal := User "1"; b_role := "r"; b_created_at := 0; b_created_by := "1"; b_revoked := None |}];
                  dashboards := []; sessions := []; audit_log := []; console_permissions := []; asset_groups := []; draws := 0 |};
     preauths := []; throttle := []; last_sign_in := [] |}.
Definition ex_disk : Disk := (seed WroteAll 1 {| versions_file := NoFile; rules_files := []; status_file := None |}).2.
(** A body names the password. *)
Definition ex_parse (l : list Z) : option SignRequest :=
  Some {| sq_username := "Alice"; sq_password := of_bytes l; sq_rule_set := SITE; sq_rules := "snapshot" |}.

Definition ex_sign_step : SignWorld -> SignWorld -> Prop := sign_world_step ex_crypto ex_crates ex_key_sign ex_key ex_parse (Some "dummy") ex_config.
Definition ex_connect (password : string) (now : Z) (w : SignWorld) : SignWorld :=
  let c := connection ex_parse (Some (bytes password)) now in
  {| sw_state := sw_state w; sw_disk := sw_disk w; sw_tables := sw_tables w; sw_seen := sw_seen w;
     sw_asks := sw_asks w ++ [(pred (length (sw_seen w)), c.1, Some c.2)]; sw_released := sw_released w; sw_recent := sw_recent w; sw_clocks := sw_clocks w |}.
(** [k] steps of request [i]; its write of the versions ends as [fate]. *)
Fixpoint ex_ask (fate : Written) (k i : nat) (w : SignWorld) : SignWorld :=
  match k, sw_asks w !! i with
  | S k, Some (n, a, Some st) =>
      let '(st', s, d, t) := ask_step ex_crypto ex_crates ex_key_sign ex_key (Some "dummy") ex_config a
                               {| ft_ok := true; ft_rules := WroteAll; ft_versions := fate; ft_status := WroteAll |} st (sw_state w) (sw_disk w) (sw_tables w) in
      ex_ask fate k i (with_ask i n a st st' s d t w)
  | _, _ => w
  end.
Definition ex_restart (w : SignWorld) : SignWorld :=
  {| sw_state := open (sw_disk w); sw_disk := sw_disk w; sw_tables := sw_tables w; sw_seen := sw_seen w; sw_asks := map cut (sw_asks w);
     sw_released := sw_released w; sw_recent := []; sw_clocks := sw_clocks w |}.

Lemma ex_connect_step password now w : rtc ex_sign_step w (ex_connect password now w).
Proof. apply rtc_once. constructor. Qed.
Lemma ex_ask_steps fate k i w : rtc ex_sign_step w (ex_ask fate k i w).
Proof.
  revert w. induction k as [|k IH]; intros w; simpl; [done|]. destruct (sw_asks w !! i) as [[[n a] [st|]]|] eqn:Ei; [|done..].
  destruct (ask_step _ _ _ _ _ _ _ _ _ _ _ _) as [[[st' s] d] t] eqn:E. eapply rtc_l; [|apply IH]. by eapply step_ask.
Qed.
Lemma ex_restart_step w : rtc ex_sign_step w (ex_restart w).
Proof. apply rtc_once. constructor. Qed.

(** One is signed for; the next fails past the rename of the versions file, then the signer restarts and another is signed for; a
    wrong password is refused. *)
Definition ex_day : Z := DAY_MS * 1000.
Definition ex_one : SignWorld := ex_ask WroteAll 8 0 (ex_connect "an honest password" 0 (started ex_disk ex_signers)).
Definition ex_failed : SignWorld := ex_ask NotSynced 8 1 (ex_connect "an honest password" ex_day ex_one).
Definition ex_two : SignWorld := ex_ask WroteAll 8 2 (ex_connect "an honest password" (2 * ex_day) (ex_restart ex_failed)).
Definition ex_wrong : SignWorld := ex_ask WroteAll 8 3 (ex_connect "a wrong password" (2 * ex_day) ex_two).

Lemma ex_one_steps : rtc ex_sign_step (started ex_disk ex_signers) ex_one.
Proof. etrans; [apply ex_connect_step|apply ex_ask_steps]. Qed.
Lemma ex_failed_steps : rtc ex_sign_step ex_one ex_failed.
Proof. etrans; [apply ex_connect_step|apply ex_ask_steps]. Qed.
Lemma ex_two_steps : rtc ex_sign_step (started ex_disk ex_signers) ex_two.
Proof.
  etrans; [apply ex_one_steps|]. etrans; [apply ex_failed_steps|]. etrans; [apply ex_restart_step|]. etrans; [apply ex_connect_step|apply ex_ask_steps].
Qed.

Definition ex_answers (w : SignWorld) : list (option SignStage) := map (fun e => e.2) (sw_asks w).
Definition ex_envelope (v : Z) : string := of_bytes (ex_bundle v).
Example signer_vectors :
  ex_answers ex_one = [Some (GDone (ResponseSigned (ex_envelope 1) 1 (30 * DAY_MS)))]
  /\ ex_answers ex_failed !! 1%nat = Some (Some (GDone (ResponseRefused Unavailable)))
  /\ ex_answers ex_two !! 2%nat = Some (Some (GDone (ResponseSigned (ex_envelope 3) 3 (32 * DAY_MS))))
  /\ ex_answers ex_wrong !! 3%nat = Some (Some (GDone (ResponseRefused Credentials)))
  /\ map t_failures (throttle (sw_tables ex_wrong)) = [1] /\ map re_version (sw_released ex_two) = [1; 3].
Proof. by vm_compute. Qed.

Lemma signed_once_witness : file_sorted ex_disk /\ rtc ex_sign_step (started ex_disk ex_signers) ex_two /\ map re_version (sw_released ex_two) = [1; 3]
  /\ StronglySorted below (sw_released ex_two).
Proof.
  assert (file_sorted ex_disk) as Hf. { intros m [= <-]. apply seeded_sorted. }
  split; [exact Hf|]. split; [exact ex_two_steps|]. split; [by vm_compute|]. exact (proj1 (proj2 (signed_once _ _ _ _ _ _ _ _ _ _ Hf ex_two_steps))).
Defined.

Lemma signature_provenance_witness :
  exists a, sw_asks ex_one !! 0%nat = Some (0%nat, a, Some (GDone (ResponseSigned (ex_envelope 1) 1 (30 * DAY_MS)))) /\ sign_in_username (sq_username (ak_request a)) = Some "alice"
    /\ exists acc t, seen_since (sw_seen ex_one) 0 t /\ may_upload_rules (sg_user_id acc) t = true.
Proof.
  assert (sw_asks ex_one !! 0%nat = Some (0%nat, (connection ex_parse (Some (bytes "an honest password")) 0).1, Some (GDone (ResponseSigned (ex_envelope 1) 1 (30 * DAY_MS))))) as H by by vm_compute.
  eexists. split; [exact H|]. split; [by vm_compute|].
  destruct (signature_provenance _ _ _ _ _ _ _ _ _ _ _ _ _ _ _ _ ex_one_steps H) as (u & acc & t1 & t2 & t3 & p & pv & sg & _ & _ & _ & _ & _ & _ & _ & _ & _ & _ & H3 & Hp & _).
  exists acc, t3. split; [exact H3|exact Hp].
Defined.

(** A second signature within the hour is refused; one a day later is not. *)
Definition ex_hurried : SignWorld := ex_ask WroteAll 8 1 (ex_connect "an honest password" 1000 ex_one).
Definition ex_spaced : SignWorld := ex_ask WroteAll 8 1 (ex_connect "an honest password" ex_day ex_one).
Lemma ex_spaced_steps : rtc ex_sign_step (started ex_disk ex_signers) ex_spaced.
Proof. etrans; [apply ex_one_steps|]. etrans; [apply ex_connect_step|apply ex_ask_steps]. Qed.
Lemma publishes_spaced_witness :
  ex_answers ex_hurried !! 1%nat = Some (Some (GDone (ResponseRefused Rate))) /\ sw_recent ex_spaced = [0; DAY_MS] /\ exists c, In c (sw_clocks ex_spaced) /\ 0 + HOUR_MS <= c.
Proof.
  split; [by vm_compute|]. split; [by vm_compute|].
  apply (publishes_spaced ex_crypto ex_crates ex_key_sign ex_key ex_parse (Some "dummy") ex_config ex_disk ex_signers ex_spaced 0 0 DAY_MS ex_spaced_steps); by vm_compute.
Defined.

(** A command's publish of a signed bundle, alone. *)
Definition ex_nothing : RuleTables := {| rule_sets := []; trust_keys := []; bundles := []; rule_log := [] |}.
Definition ex_pub_step : PubWorld -> PubWorld -> Prop := pub_step ex_crypto ex_crates (fun _ => 0).
Definition ex_empty : PubWorld := {| pw_tables := ex_nothing; pw_pubs := [] |}.
Definition ex_trusting : PubWorld := with_tables (add_trust_key "site" "site-key" ex_key 0 ex_nothing).2 ex_empty.
Definition ex_publishing : PubWorld := {| pw_tables := pw_tables ex_trusting; pw_pubs := [arrive (Command "root") (ex_bundle 3)] |}.
Fixpoint ex_publish (k : nat) (w : PubWorld) : PubWorld :=
  match k, pw_pubs w with
  | S k, [p] => let '(p', t') := publisher_step ex_crypto ex_crates 5 true p (pw_tables w) in ex_publish k {| pw_tables := t'; pw_pubs := [p'] |}
  | _, _ => w
  end.
Lemma ex_alone p t : not_waiting (fun _ => 0) p {| pw_tables := t; pw_pubs := [p] |}.
Proof.
  intros set j q set' Hw Hq Hl. apply list_lookup_singleton_Some in Hq as [_ <-]. unfold wants_set in Hw. unfold locks_set in Hl.
  destruct (pb_stage p) as [| |b st|]; [done..| |done]. by destruct st.
Qed.
Definition ex_pub_within (w w' : PubWorld) : Prop := ex_pub_step w w' /\ length (pw_pubs w') = length (pw_pubs w).
Lemma ex_publish_within k w : rtc ex_pub_within w (ex_publish k w).
Proof.
  revert w. induction k as [|k IH]; intros [t [|p [|]]]; simpl; try done. destruct (publisher_step _ _ _ _ _ _) as [p' t'] eqn:E.
  eapply rtc_l; [|apply IH]. split; [|done].
  by apply (pub_publisher ex_crypto ex_crates (fun _ => 0) {| pw_tables := t; pw_pubs := [p] |} 0%nat p 5 true p' t'); [|apply ex_alone|].
Qed.
Lemma ex_publish_steps k w : rtc ex_pub_step w (ex_publish k w).
Proof. apply (rtc_subrel ex_pub_within); [by intros ? ? []|apply ex_publish_within]. Qed.
Lemma ex_publishing_steps : rtc ex_pub_step ex_empty ex_publishing.
Proof.
  eapply rtc_l; [apply (pub_add_key ex_crypto ex_crates (fun _ => 0) ex_empty "site" "site-key" ex_key 0)|].
  apply rtc_once. apply (pub_arrive ex_crypto ex_crates (fun _ => 0) ex_trusting (Command "root") (ex_bundle 3)).
Qed.
Definition ex_inserting : PubWorld := ex_publish 7 ex_publishing.
Definition ex_published : PubWorld := ex_publish 8 ex_publishing.
Lemma ex_inserting_steps : rtc ex_pub_step ex_empty ex_inserting.
Proof. etrans; [apply ex_publishing_steps|apply ex_publish_steps]. Qed.
Lemma ex_published_steps : rtc ex_pub_step ex_empty ex_published.
Proof. etrans; [apply ex_publishing_steps|apply ex_publish_steps]. Qed.
Lemma ex_published_nothing : published_nothing ex_nothing.
Proof. done. Qed.

Example publisher_vectors :
  map pb_stage (pw_pubs ex_published) = [HDone Created] /\ map bu_version (bundles (pw_tables ex_published)) = [3]
  /\ rule_bundle "h1" "site" (Some 2) GroupProps.ex_groups0 (pw_tables ex_published) = BundleEnvelope (ex_bundle 3)
  /\ rule_bundle "h1" "site" (Some 3) GroupProps.ex_groups0 (pw_tables ex_published) = BundleUpToDate
  /\ rule_bundle "h1" "site-alarms" None GroupProps.ex_groups0 (pw_tables ex_published) = BundleNotFound
  /\ rule_bundle "h1" "site" None GroupProps.ex_groups0 (retire "site" 9 (pw_tables ex_published)).2 = BundleNotFound
  /\ map pb_stage (pw_pubs (ex_publish 8 {| pw_tables := pw_tables ex_published; pw_pubs := [arrive (Upload "1" (Some (hex (sha256 ex_crypto (ex_bundle 2))))) (ex_bundle 2)] |}))
     = [HDone (Conflicted (NotAboveCurrent 3))]
  /\ map pb_stage (pw_pubs (ex_publish 8 {| pw_tables := pw_tables ex_published; pw_pubs := [arrive (Upload "1" (Some "0")) (ex_bundle 2)] |})) = [HDone StalePreview].
Proof. by vm_compute. Qed.

Lemma bundles_only_rise_witness :
  exists w', ex_pub_step ex_inserting w' /\ exists b k, bundles (pw_tables w') = bundles (pw_tables ex_inserting) ++ [b] /\ In k (trust_keys (pw_tables w')) /\ is_active k = true.
Proof.
  assert (ex_pub_step ex_inserting ex_published) as Hs.
  { apply (pub_publisher ex_crypto ex_crates (fun _ => 0) ex_inserting 0 (hd (arrive (Command "root") []) (pw_pubs ex_inserting)) 5 true
             (hd (arrive (Command "root") []) (pw_pubs ex_published)) (pw_tables ex_published)); [by vm_compute|apply ex_alone|by vm_compute]. }
  exists ex_published. split; [exact Hs|].
  destruct (bundles_only_rise _ _ _ _ _ _ _ ex_loader_sound ex_published_nothing ex_inserting_steps Hs) as [E|(b & p & e & k & Eb & _ & _ & _ & _ & _ & Hk & _ & Ha & _)].
  { exfalso. by vm_compute in E. }
  exists b, k. split; [exact Eb|]. by split.
Defined.

Lemma served_signed_witness :
  rule_bundle "h1" "site" (Some 2) GroupProps.ex_groups0 (pw_tables ex_published) = BundleEnvelope (ex_bundle 3)
  /\ exists set issuer key, on_record (pw_tables ex_published) set issuer key /\ ex_signed key (ex_bundle 3).
Proof.
  assert (rule_bundle "h1" "site" (Some 2) GroupProps.ex_groups0 (pw_tables ex_published) = BundleEnvelope (ex_bundle 3)) as H by by vm_compute.
  split; [exact H|]. destruct (served_signed _ _ _ _ _ _ _ _ _ _ _ ex_loader_sound ex_published_nothing ex_published_steps H) as (_ & _ & b & e & key & _ & _ & _ & _ & _ & _ & _ & Hk & Hs).
  exists (en_set e), (en_issuer e), key. by split.
Defined.

(** An alarm draft saved, and the signer's view of it. *)
Definition ex_read_rule (v : value) : string + option (list string) :=
  match get v "kind" with Some _ => inr (Some (omap as_str (default [] (get v "programs" ≫= as_array)))) | None => inr None end.
Definition ex_draft_crates : DraftCrates ex_crates :=
  Build_DraftCrates ex_crates (fun _ => true) ex_read_rule (fun _ => "a1") (fun _ => 1) (fun _ => Some "high") (fun _ => None) (fun l => l) (fun _ => None)
    (fun _ => None) (fun _ => "alarm") (fun a b => bool_decide (a = b)) (fun _ => []).
Definition ex_catalog : Catalog := {| ca_version := "19.2"; ca_tactics := ["TA0002"]; ca_techniques := [{| te_id := "T1059"; te_name := "Scripting"; te_tactics := ["TA0002"] |}] |}.
Definition ex_draft_input (programs : list string) : RuleDraftInput :=
  {| ri_title := "Shell"; ri_severity := "high"; ri_confidence := 90; ri_expression := "true"; ri_finding_message := "A shell"; ri_programs := Some programs;
     ri_attack := Some [{| tactic := "TA0002"; technique := Some "T1059" |}] |}.
Definition ex_save (programs : list string) (l : list Draft) : DraftAnswer * list Draft :=
  save_draft ex_crates ex_catalog str_cmp ex_draft_crates SITE_ALARMS "a1" (ex_draft_input programs) "1" 0 l.
Definition ex_drafts : list Draft := (ex_save ["nginx"; "sh"] []).2.

Lemma ex_reads_back : reads_back ex_crates ex_draft_crates.
Proof.
  intros set rule_id v i r. unfold rule_json. simpl. unfold ex_read_rule. destruct (String.eqb_spec set SITE_ALARMS) as [->|Hne].
  - destruct (ri_attack i) as [[|q l]|]; simpl; intros [= <-]; (split; [done|]); intros _; f_equal; apply as_str_all.
  - destruct (ri_attack i) as [[|q l]|]; simpl; intros [= <-]; by split.
Qed.
Example draft_vectors :
  map (fun d => (dr_rule_id d, get (dr_rule d) "version")) ex_drafts = [("a1", Some (JPosInt 1))]
  /\ map (fun d => get (dr_rule d) "version") (ex_save ["nginx"; "sh"] ex_drafts).2 = [Some (JPosInt 1)]
  /\ map (fun d => get (dr_rule d) "version") (ex_save ["sh"] ex_drafts).2 = [Some (JPosInt 2)]
  /\ (ex_save [] ex_drafts).1 = DraftProblems [{| rp_field := "programs"; rp_message := "name one to 8 distinct programs" |}]
  /\ unknown_pair ex_catalog {| tactic := "TA0002"; technique := Some "T9" |} = Some "T9 is not a technique in ATT&CK 19.2"
  /\ dg_added (changes ex_crates ex_draft_crates None [Some ["sh"]]) = ["a1"]
  /\ nothing_changed (changes ex_crates ex_draft_crates (Some (1, [("a1", Some ["sh"])])) [Some ["sh"]]) = true.
Proof. by vm_compute. Qed.

Lemma drafts_fit_signer_witness :
  reads_back ex_crates ex_draft_crates /\ draft_rules ex_crates ex_draft_crates (list_drafts str_cmp SITE_ALARMS ex_drafts) = Some [Some ["nginx"; "sh"]]
  /\ check_rules ex_crates SITE_ALARMS "alarm" 200 = None.
Proof.
  assert (rtc (draft_step ex_crates ex_catalog str_cmp ex_draft_crates) [] ex_drafts) as Hr.
  { apply rtc_once. exact (draft_saved ex_crates ex_catalog str_cmp ex_draft_crates SITE_ALARMS "a1" (ex_draft_input ["nginx"; "sh"]) "1" 0 []). }
  assert (draft_rules ex_crates ex_draft_crates (list_drafts str_cmp SITE_ALARMS ex_drafts) = Some [Some ["nginx"; "sh"]]) as Hd by by vm_compute.
  split; [exact ex_reads_back|]. split; [exact Hd|].
  destruct (drafts_fit_signer ex_crates ex_catalog str_cmp ex_draft_crates ex_drafts [Some ["nginx"; "sh"]] [Some ["nginx"; "sh"]] "alarm" 200 ex_reads_back Hr Hd)
    as [H|[[_ H]|[_ [H|H]]]]; [reflexivity|reflexivity|exact H|exfalso; by vm_compute in H|discriminate H|discriminate H].
Defined.

(** Three days, a signature each; the third is published and served. *)
Definition ex_three : SignWorld := ex_ask WroteAll 8 2 (ex_connect "an honest password" (2 * ex_day) ex_spaced).
Lemma ex_three_steps : rtc ex_sign_step (started ex_disk ex_signers) ex_three.
Proof. etrans; [apply ex_spaced_steps|]. etrans; [apply ex_connect_step|apply ex_ask_steps]. Qed.
Lemma mapped_from {A B} (f : A -> B) l l' y : map f l = l' -> In y l' -> exists x, In x l /\ f x = y.
Proof. intros <- (x & <- & Hx)%in_map_iff. by exists x. Qed.
Lemma mapped_all {A B} (f : A -> B) l y x : map f l = [y] -> In x l -> f x = y.
Proof. intros E Hx%(in_map f). rewrite E in Hx. by destruct Hx as [<-|[]]. Qed.
Definition ex_joint_step : RulesWorld -> RulesWorld -> Prop :=
  joint_step ex_crypto ex_crates ex_key_sign ex_key ex_parse (Some "dummy") ex_config (fun _ => 0) ex_signed.
Lemma joint_signs p s s' : rtc ex_sign_step s s' -> rtc ex_joint_step {| jw_sign := s; jw_pub := p |} {| jw_sign := s'; jw_pub := p |}.
Proof. induction 1 as [|s s1 s' Hs _ IH]; [done|]. eapply rtc_l; [|exact IH]. by apply (joint_sign _ _ _ _ _ _ _ _ _ {| jw_sign := s; jw_pub := p |}). Qed.
Lemma joint_pubs s p p' : rtc ex_pub_within p p' -> rtc ex_joint_step {| jw_sign := s; jw_pub := p |} {| jw_sign := s; jw_pub := p' |}.
Proof. induction 1 as [|p p1 p' [Hp Hl] _ IH]; [done|]. eapply rtc_l; [|exact IH]. by apply (joint_pub _ _ _ _ _ _ _ _ _ {| jw_sign := s; jw_pub := p |}). Qed.

Definition ex_joint : RulesWorld := {| jw_sign := ex_three; jw_pub := ex_published |}.
Lemma ex_presented : released_for ex_crates ex_three (ex_bundle 3).
Proof.
  destruct (mapped_from (fun r => bytes (sd_envelope (re_signed r))) (sw_released ex_three) (map ex_bundle [1; 2; 3]) (ex_bundle 3)) as (r & Hr & E); [by vm_compute|simpl; auto|].
  eexists _, r, _. split; [reflexivity|]. split; [exact Hr|]. rewrite E. split; [reflexivity|]. by repeat split.
Qed.
Lemma ex_joint_steps : rtc ex_joint_step (joint_started ex_disk ex_signers ex_nothing) ex_joint.
Proof.
  etrans; [apply joint_signs, ex_three_steps|]. etrans.
  { apply joint_pubs. apply rtc_once. split; [apply (pub_add_key ex_crypto ex_crates (fun _ => 0) ex_empty "site" "site-key" ex_key 0)|done]. }
  eapply rtc_l. { apply (joint_arrive _ _ _ _ _ _ _ _ _ {| jw_sign := ex_three; jw_pub := ex_trusting |} (Command "root") (ex_bundle 3)). intros _. exact ex_presented. }
  apply joint_pubs, (ex_publish_within 8 ex_publishing).
Qed.
(** Bytes signed with another key are refused. *)
Example forged_refused :
  map pb_stage (pw_pubs (ex_publish 8 {| pw_tables := pw_tables ex_published; pw_pubs := [arrive (Command "root") (ex_bundle_by (bytes "own") 9)] |})) = [HDone InvalidEnvelope].
Proof. by vm_compute. Qed.

Lemma served_by_entitled_witness :
  rule_bundle "h1" "site" (Some 2) GroupProps.ex_groups0 (pw_tables ex_published) = BundleEnvelope (ex_bundle 3)
  /\ exists r, In r (sw_released (jw_sign ex_joint)) /\ re_version r = 3 /\ sq_rules (ak_request (re_ask r)) = "snapshot".
Proof.
  assert (rule_bundle "h1" "site" (Some 2) GroupProps.ex_groups0 (pw_tables ex_published) = BundleEnvelope (ex_bundle 3)) as Hb by by vm_compute.
  split; [exact Hb|].
  assert (forall k, In k (trust_keys (pw_tables ex_published)) -> at_key "site" "site-key" k = true -> ky_public k = ex_key) as Hkeys.
  { intros k Hk _. refine (mapped_all ky_public (trust_keys (pw_tables ex_published)) ex_key k _ Hk). by vm_compute. }
  destruct (served_by_entitled ex_crypto ex_crates ex_key_sign ex_key ex_parse (Some "dummy") ex_config (fun _ => 0) ex_signed ex_disk ex_signers ex_nothing ex_joint
    "h1" "site" (Some 2) GroupProps.ex_groups0 (ex_bundle 3) {| en_set := SITE; en_version := 3; en_issuer := "site-key"; en_created_at := 0; en_expires_at := 9;
              en_payload_sha256_hex := EmptyString; en_payload := "snapshot"; en_signature := of_bytes (ex_key ++ 3 :: 0 :: bytes "snapshot") |}
    ex_loader_sound ex_writes ex_published_nothing ex_joint_steps Hb eq_refl Hkeys) as (r & acc & user & t & t' & Hr & _ & Ev & Ep & _).
  exists r. split; [exact Hr|]. split; [exact Ev|exact Ep].
Defined.
